(* ===== verification/_CoqProject ===== *)
-Q . S2P
Prelude.v
Words.v
Slices.v
RustStd.v
RustStr.v
RustText.v
Sdp.v
SdpRender.v
SdpAnswer.v
SdpSafety.v
MediaPipeline.v
MediaPipelineSafety.v
Domain.v
DomainSafety.v
BytesCodec.v
RtpExtension.v
RtpPacket.v
RtpRewrite.v
RtpSequence.v
RtcpModel.v
Twcc.v
Rtcp.v
Replay.v
Srtp.v
Datagram.v
DtlsAdapter.v
MediaCodec.v
SfuModel.v
DownTrack.v
Room.v
RoomInvariant.v
RoomSafety.v
RoomPacing.v
BandwidthEstimator.v
LayerSelector.v
SfuRuntime.v
SfuRuntimeInvariant.v
SfuRuntimeSafety.v
SfuRuntimeSteps.v
Stun.v
StunCodec.v
StunBuild.v
StunSafety.v
IceLite.v
IceResponse.v
IceSafety.v
RtcSession.v
RtcSessionSafety.v
SessionRegistry.v
SessionRegistrySafety.v
Turn.v
Auth.v
TurnNonce.v
TurnServer.v
TurnServerSafety.v
TurnServerSteps.v
TurnServerRelay.v
TranscodeBridge.v
WorkerFences.v
WorkerFencesSafety.v
Protocol.v
StatusService.v
ApiServer.v
ApiServerSafety.v
SctpPacket.v
SctpAssociation.v
SctpInvariant.v
SctpSafety.v
SctpDelivery.v
SctpMessages.v
SctpEvents.v
MediaNode.v
MediaNodeControl.v
MediaNodeCalls.v
MediaNodeData.v
MediaNodeSafety.v
MediaNodeSteps.v
MediaNodeExamples.v
