(* ===== verification/Prelude.v ===== *)
(** * Fluvora media core: verification library

    Fluvora is a WebRTC selective-forwarding server.  Its protocol logic is a set of crates
    without I/O ([src/crates/webrtc], [src/crates/foundation], and the domain logic of
    [src/crates/control-plane] and [src/crates/media]): byte slices and times go in,
    byte vectors and events come out, and the services under [src/crates/services] move
    datagrams and HTTP requests.  This library translates those crates function by function
    and proves what makes them correct.

    ** How a participant gets in

    The control plane keeps a room as an event-sourced aggregate ([domain]): commands of its members are
    decided against their roles and the room's policy, applied as numbered events, and stored as a stream
    or a snapshot.  A bearer token ([auth]) says who acts and what for.  The client then offers its media
    as an SDP document, which is parsed and validated and answered section by section ([sdp]) with the
    server's ICE credentials and fingerprint.  Recorded and live media are listed in HLS playlists and
    followed through an asset state machine by [media-pipeline].

    ** How a datagram travels

    A UDP datagram reaches the session of its connection ([rtc-session]), which classifies it
    ([rtc-datagram]).  STUN goes to the ICE agent of the session ([stun], [ice-lite]), which
    authenticates connectivity checks, answers them and keeps the candidate pairs; a relayed connection
    reaches the server through an allocation of [turn].  From the nominated pair, DTLS records go to the
    handshake, whose exported octets become SRTP keys ([dtls-adapter]), and SRTP and SRTCP are
    authenticated, checked for replay and decrypted ([srtp]); the plaintext RTP packet is
    parsed ([rtp]), its payload descriptor inspected for key frames and layers ([media-codec]), and the
    room ([sfu-core]) finds the published track by SSRC and hands the packet to one down-track per
    subscription, which selects a layer, rewrites the header and keeps a copy for retransmission.  RTCP
    ([rtcp]) comes back from the subscribers: NACKs are answered from that cache, picture-loss
    indications are relayed upstream with a throttle, and transport-wide feedback drives the
    bandwidth estimator and the layer selector ([congestion-control]).  DTLS application data carries
    SCTP packets of the data channels ([data-channel]).  [bytes-codec] has the bounded readers and
    writers.  The media node ([services/media-node]) keeps one forwarding core per room and the tables that
    tie participants to transport sessions, estimators and recording sinks; its process runs the loop of the
    UDP socket and the timers, holds the DTLS session and the association of every transport session, relays
    the messages of a data channel to the rest of the room as envelopes ([protocol]) and serves the control
    interface through which sessions and tracks are provisioned.

    ** Beside the media path

    The TURN server ([services/turn-server]) authenticates clients with nonces and passwords and relays for
    them between its own sockets and the peers they permitted.  Encoders are shared between subscribers by
    [transcode-bridge]; a media worker ([services/media-worker]) runs a job for a resource only under a newer
    generation than any before, which it remembers in snapshot files.  Every process reports itself to the
    registry of [control-plane/status-service].  The API server ([services/api-server]) authenticates callers
    by their tokens ([auth]), executes the commands of its rooms ([domain]), writes a snapshot file of a room
    before it acknowledges a change, passes signals between the participants and accepts signed gifts.

    ** Files

    - [Prelude]: outcomes of Rust functions ([Ok], [Err], [Panic], [Diverge]), methods on
      [&mut self] as state-passing programs with triples for them, the [returns] and [preserves] hint
      databases.
    - [Words]: fixed-width integers in [Z] and big-endian byte strings.
    - [Slices]: [len], [get], [get(a..b)], panicking indexing, and the field reader that every
      protocol crate defines for itself.
    - [RustStd], [RustStr], [RustText]: UTF-8 validation, sorting, socket addresses, durations, string
      operations, lines, words and decimal numbers of the standard library.
    - [Sdp]: [webrtc/sdp/src/parser.rs], [model.rs], [answer.rs], [error.rs]; [SdpRender] has a reference
      printer, [SdpAnswer] the answer as a description and how its codecs are read back, [SdpSafety]
      the theorems.
    - [MediaPipeline], [MediaPipelineSafety]: [media/media-pipeline/src/lib.rs] and its theorems; the
      printing of durations goes through the binary64 floats of the Standard Library's [SpecFloat].
    - [Protocol]: [foundation/protocol/src/lib.rs] and its theorems.
    - [Domain], [DomainSafety]: [foundation/domain/src/lib.rs] and its theorems.
    - [Auth]: [control-plane/auth/src/lib.rs] and its theorems.
    - [BytesCodec]: [foundation/bytes-codec/src/lib.rs].
    - [RtpExtension], [RtpPacket], [RtpRewrite]: [webrtc/rtp/src/extension.rs], [packet.rs];
      the last one holds the theorems about parsing, building and rewriting.
    - [RtpSequence]: [webrtc/rtp/src/sequence.rs].
    - [RtcpModel], [Twcc], [Rtcp]: [webrtc/rtcp/src/model.rs], [twcc.rs], [codec.rs].
    - [Replay], [Srtp]: [webrtc/srtp/src/replay.rs], [keys.rs], [context.rs].
    - [Datagram]: [webrtc/rtc-datagram/src/lib.rs].
    - [DtlsAdapter]: [webrtc/dtls-adapter/src/keying.rs], [fingerprint.rs], [error.rs].
    - [MediaCodec]: [webrtc/media-codec/src/lib.rs].
    - [SfuModel], [DownTrack], [Room]: [webrtc/sfu-core/src/model.rs], [down_track.rs],
      [room.rs]; [RoomInvariant] has the consistency invariant of a room, [RoomSafety] and
      [RoomPacing] the theorems about sequences of calls.
    - [BandwidthEstimator], [LayerSelector]: [webrtc/congestion-control/src/estimator.rs],
      [layer.rs].
    - [SfuRuntime]: [services/media-node/src/sfu_runtime.rs], the registry of rooms with its tables;
      [SfuRuntimeInvariant] has the invariant of the tables and the calls that edit them, [SfuRuntimeSafety]
      the routing of media and feedback, [SfuRuntimeSteps] the step relation and the theorems.
    - [SessionRegistry]: [services/media-node/src/lib.rs], the transport sessions behind one port and the
      tables that route to them; [SessionRegistrySafety] has its invariant, each call, the reachable
      registries and the theorems.
    - [SctpPacket], [SctpAssociation]: [webrtc/data-channel/src/lib.rs], the packet codec and the
      association with its handlers; [SctpInvariant] has the invariant of an association, [SctpSafety],
      [SctpDelivery] and [SctpMessages] the theorems, [SctpEvents] what is reported to the node.
    - [MediaNode], [MediaNodeControl]: [services/media-node/src/main.rs], the process with its data channels and
      the handlers of its routes; [MediaNodeCalls] has what the calls on the registries leave alone, the
      invariant of the process and the logic of steps that stay within rooms,
      [MediaNodeData] the data channels, [MediaNodeSafety] datagrams and timers, [MediaNodeSteps] the reachable
      processes and the theorems, [MediaNodeExamples] a node with two rooms and what it loses.
    - [Stun]: [webrtc/stun/src/lib.rs]; [StunCodec] relates messages to their octets, [StunBuild] has
      what the builder writes, [StunSafety] the theorems.
    - [IceLite]: [webrtc/ice-lite/src/config.rs], [agent.rs]; [IceResponse] has the answers of an agent,
      [IceSafety] its invariant, its state machine and the theorems.
    - [RtcSession]: [webrtc/rtc-session/src/lib.rs], the session around one agent and one SRTP context;
      [RtcSessionSafety] has its invariant, what it lets through and the media path
      between two sessions.
    - [Turn]: [webrtc/turn/src/lib.rs] and its theorems.
    - [TurnNonce], [TurnServer]: [services/turn-server/src/nonce.rs], [server.rs]; [TurnServerSafety] has the rate
      limiter and that the calls of a handler come back, [TurnServerSteps] what each of them does,
      [TurnServerRelay] the reachable servers, the theorems and a server at work.
    - [TranscodeBridge]: [media/transcode-bridge/src/lib.rs] and its theorems.
    - [WorkerFences]: [services/media-worker/src/assignment_state.rs] and the assignments and job table of
      [main.rs]; [WorkerFencesSafety] has what a directory of snapshots holds at every moment, the
      histories of a worker and the theorems.
    - [StatusService]: [control-plane/status-service/src/lib.rs] and its theorems.
    - [ApiServer]: of [services/api-server/src], rooms in a directory ([persistence.rs], [services/room_commands.rs]),
      signals ([signals.rs]), gifts ([gift.rs]) and the handlers of [routes/rooms.rs] and [routes/signaling.rs];
      [ApiServerSafety] has the states of the directory on the way of a call, the reachable servers, the theorems
      and a server at work.

    Definitions keep the names of the source.  A struct is a record with the same fields
    (prefixed where two structs of a file share a name), an enum an inductive type with the
    same constructors, a method the Definition of its name.  A method on [&mut self] that
    returns a [Result] is a [prog]: it gives back the state it leaves behind with its outcome,
    so what an early return has already changed is visible.  [HashMap]s are [gmap]s.

    ** What the theorems show

    - Wire formats ([BytesCodec], [Protocol], [RtpRewrite], [Twcc], [Rtcp], [Datagram], [MediaCodec],
      [StunSafety], [Turn]): parsers come back on every slice without a panic; what is built
      or encoded parses back to the same value; rewriting edits exactly what it is asked to.
    - SRTP ([Replay], [Srtp]): the replay window is the set of accepted indices cut at 64;
      streams round-trip between two contexts; no index is accepted twice; no initial counter
      is used twice; a refused datagram changes nothing.
    - Forwarding ([DownTrack], [RoomSafety], [RoomPacing]): consecutive sequence numbers,
      continuous timestamps, switches on key frames only, exact retransmission, a consistent
      room in every reachable state, isolation between participants, paced key-frame requests.
    - Adaptation ([BandwidthEstimator], [LayerSelector]): the estimate stays within its limits
      and follows its additive-increase multiplicative-decrease rule, the arithmetic cannot
      overflow, a selected layer is sustainable, upgrades wait.
    - Media node ([SfuRuntimeSteps]): after any sequence of calls the tables beside each core agree with it;
      media reaches exactly the sessions of the subscribers, the publisher and the loopback sinks; feedback is
      answered to its sender and adapts only its own layers; the end of a transport leaves nothing behind.
      Of the transport sessions ([SessionRegistrySafety]) the routing tables agree, a datagram reaches only the
      session it is addressed to, and removal and restart leave no alias behind.  Of the whole process
      ([MediaNodeSteps]) the registries agree with each other after any sequence of datagrams, timer turns and
      requests; a datagram changes the room of its session only and is answered to its sender or within that
      room; a message that is relayed carries the room and the participant of the session it came from; and
      without the token the control interface does nothing.
    - Data channels ([SctpSafety], [SctpDelivery], [SctpMessages]): an association stays within its
      limits and comes back from every call; it is established only by its own cookie; chunks are
      handed over in order; a message arrives once and unchanged whatever happens to its packets.
    - Connectivity ([StunSafety], [IceSafety], [Turn]): a verified message is covered by its MAC
      up to the integrity attribute; an agent listens to authenticated checks only and answers each of
      them with a message its peer can parse and verify; its state machine makes the documented
      transitions and ends in failure when the peer is silent; an allocation relays exactly what its
      history of permissions and channel bindings allows.
    - Relay ([TurnNonce], [TurnServerSafety], [TurnServerRelay]): a nonce is accepted exactly from the address
      it was issued to and in its time; only credentials make, end or prolong an allocation; what a client
      sends goes only through its own relay to filtered, permitted peers, and what a peer sends only to the
      client that permitted it; quotas and rates hold.
    - Jobs ([TranscodeBridge], [WorkerFencesSafety]): a job exists exactly while somebody holds it; a
      worker never accepts a generation twice or an older one, whatever fails, and wherever it crashes.
    - Sessions ([RtcSessionSafety], [DtlsAdapter]): tuple, keys and state of a session
      follow its agent; nothing is handed over but DTLS records and authenticated media from the nominated
      pair; a nomination connects it, with its old keys after a restart; what one session protects the
      other hands over when both installed the keys of one handshake; fingerprints survive SDP.
    - Signalling ([SdpSafety]): printing and parsing are inverse on well-formed descriptions, an offer is
      accepted exactly when it is a bundled WebRTC offer, and the text of an answer parses to a
      description that answers the offer section by section with codecs both sides support.
    - Control plane ([DomainSafety], [Auth]): every reachable room is well formed, only those with the
      authority change it, repeated commands and gifts have no effect, replay and snapshots rebuild
      exactly the room; a token is accepted exactly when one of the keys signed it and it has not expired.
      A status ([StatusService]) is exactly what the live processes last said.  Of the API server
      ([ApiServerSafety]) every acknowledged room survives failing file operations, a crash at any moment and a
      restart, as long as no side effect was recorded in it; a command is the command of the domain or changes
      nothing; signals are numbered without a gap and paged completely; a gift is accepted exactly as it was signed.
    - Recorded media ([MediaPipelineSafety]): the live window is the tail of the accepted segments, its
      text has exactly the expected lines, the asset operations are the documented state machine, and a
      worker is only started with paths and ranges that were checked.
    - Defects: a refused layer change that sticks ([RoomSafety]), an endless loop on an empty send
      history ([BandwidthEstimator]), a scan of 2^32 turns after a forged acknowledgement and a
      repeated stream sequence number ([SctpMessages]), a closed session that a timer reopens
      ([RtcSessionSafety]), a sign taken for a hexadecimal digit ([DtlsAdapter]), an asset that is ready
      without a source and a date that breaks playlist lines ([MediaPipelineSafety]), a switched-off
      section that makes a valid offer unanswerable ([SdpSafety]), a route that outlives its use and
      swallows the connection of another session ([SessionRegistrySafety]), free relay ports that are not tried
      and quotas that concurrent requests pass ([TurnServerRelay]), codecs that are not tried
      ([TranscodeBridge]), fences that are written but not read back, a stray file that blocks a worker
      and finished jobs that fill it up ([WorkerFencesSafety]), key-frame requests of a layer change that are
      not sent, messages that are lost with a later bad chunk, a channel that another one hides and gauges that
      do not follow the rooms ([MediaNodeExamples]), and rooms that a restart loses once tracks were registered
      in them ([ApiServerSafety]).

    ** Interfaces and hypotheses

    Cryptography comes from third-party crates: [Srtp.SrtpCrypto] (AES-128 in counter mode,
    HMAC-SHA1), [Stun.StunCrypto] (HMAC-SHA1 and HMAC-SHA256 with their output lengths and that they
    accept every key, CRC-32), [Turn.TurnCrypto] (MD5, base64), [Auth.AuthCrypto] (HMAC-SHA256, base64 with its round trip)
    and [DtlsAdapter.DtlsCrypto] (SHA-256) are classes; nothing is assumed about
    secrecy or collisions.  [Room.HashOrder], [SfuRuntime.HashIteration], [SctpAssociation.KeyOrder] and [Turn.BindingOrder] state
    what the iteration order of a [HashMap] guarantees (each entry once), and
    [LayerSelector.UnstableSort] what an unstable sort guarantees; theorems are proved for every
    instance.  [usize] has 64 bits, a slice has less than 2^63 octets.  What the operating system does during a
    call is an argument: [TurnServer.Env] has the clocks, the ports that can be bound, the frames that are taken
    and the random octets; [WorkerFences.Os] says which file operations fail, and a call lists every state of the
    directory on its way, any of which a crash can leave behind (the process crashes, not the machine).
    [MediaNode.World] has the clocks and the time of day of a step, which datagrams are sent, the random octets and
    the loopback socket.  [MediaNode.DtlsBackend] is a session of the DTLS backend, of which only this is assumed:
    what it hands over are slices of octets.
    [WorkerFences.SnapshotJson] states that what [serde_json] writes it reads back, [StatusService.UrlParser] is the
    parser of the [url] crate, of which nothing is assumed.  [ApiServer.JsonValues] and [ApiServer.ApiJson] are the
    values of [serde_json] and the snapshots of the API server, of which what is written is read back.

    ** Loops

    A loop that recurses over a list is structural.  The others take fuel, and the model gives
    each of them one more turn than the length of its input; each turn consumes at least one
    octet (one packet, one symbol, one attribute), so [Diverge] is unreachable, which the totality
    theorems state as part of [returns].  In [SctpAssociation] the fuel of [forward_scan] is the
    distance of the two sequence numbers it runs between and that of [drain] the size of the
    reordering buffer.  The one exception is the loop of [register_sent]: its fuel is an argument,
    because the loop does not end on every configuration.

    ** Not modelled

    [Display] and [Debug] texts, accessors, [Zeroize] on drop, metrics other than those a registry writes.  The
    OpenSSL backend of [dtls-adapter] is calls of that library.  A method that locks a table for its whole body is
    one step, and so is a datagram, a timer turn or a request of the media node; calls that interleave between two
    locks are not followed, except where a defect shows it.  Of the media node the latency histogram, the heartbeat
    and the start of the process are left out.
    [control-store] is SQL, [media-store] the interface of an object store, [event-dispatcher] a queue,
    [status-client], the SDKs and the tools are HTTP clients; the media gateway and the processes of the worker
    are I/O around these crates.  Of the API server the variant that keeps its rooms in a database, the websockets
    and the routes that forward media requests to the other processes (tracks, subscriptions, WHIP and WHEP), with
    the clean-up of media after a participant leaves, are left out. *)
From stdpp Require Export base tactics option list gmap sets strings.
From Stdlib Require Export ZArith Lia Bool.
#[global] Open Scope Z_scope.

(** ** Outcomes of Rust functions

    [Ok] and [Err] are the two constructors of [Result].  [Panic] is a Rust
    panic (an index or slice out of range), [Diverge] says that the bound given
    to a modelled loop was too small.  Neither is ever caught by the code, so a
    function is safe on an input when its outcome is [Ok] or [Err]. *)
Inductive outcome (E A : Type) : Type :=
| Ok (value : A)
| Err (error : E)
| Panic
| Diverge.
Arguments Ok {E A} value.
Arguments Err {E A} error.
Arguments Panic {E A}.
Arguments Diverge {E A}.

(** The two-way view of an outcome: the call came back to its caller. *)
Definition returns {E A} (o : outcome E A) : Prop :=
  match o with Ok _ | Err _ => True | Panic | Diverge => False end.

#[export] Instance outcome_ret {E} : MRet (outcome E) := fun A => Ok.
#[export] Instance outcome_bind {E} : MBind (outcome E) := fun A B f o =>
  match o with
  | Ok a => f a
  | Err e => Err e
  | Panic => Panic
  | Diverge => Diverge
  end.
#[export] Instance outcome_fmap {E} : FMap (outcome E) := fun A B f o =>
  match o with
  | Ok a => Ok (f a)
  | Err e => Err e
  | Panic => Panic
  | Diverge => Diverge
  end.

(** [Option::ok_or] and [Result::map_err]. *)
Definition ok_or {E A} (o : option A) (e : E) : outcome E A :=
  match o with Some a => Ok a | None => Err e end.
Definition map_err {E F A} (f : E -> F) (o : outcome E A) : outcome F A :=
  match o with
  | Ok a => Ok a
  | Err e => Err (f e)
  | Panic => Panic
  | Diverge => Diverge
  end.

(** Early return: [if c { return Err(e) }]. *)
Definition reject_if {E} (c : bool) (e : E) : outcome E unit :=
  if c then Err e else Ok tt.

(** An expression that panics unless the option is inhabited ([slice[i]]). *)
Definition or_panic {E A} (o : option A) : outcome E A :=
  match o with Some a => Ok a | None => Panic end.

Section OutcomeFacts.
Context {E A B : Type}.

Lemma Ok_inj (a b : A) : Ok (E:=E) a = Ok b -> a = b.
Proof. by intros [= ->]. Qed.

Lemma bind_Ok (m : outcome E A) (f : A -> outcome E B) b :
  m ≫= f = Ok b <-> exists a, m = Ok a /\ f a = Ok b.
Proof. destruct m; cbn; naive_solver. Qed.

Lemma bind_Err (m : outcome E A) (f : A -> outcome E B) e :
  m ≫= f = Err e <-> m = Err e \/ exists a, m = Ok a /\ f a = Err e.
Proof. destruct m; cbn; naive_solver. Qed.

Lemma ok_or_Ok (o : option A) (e : E) a : ok_or o e = Ok a <-> o = Some a.
Proof. destruct o; cbn; naive_solver. Qed.

Lemma reject_if_Ok c (e : E) u : reject_if c e = Ok u <-> c = false.
Proof. destruct c, u; cbn; naive_solver. Qed.

Lemma map_err_Ok {F} (f : E -> F) (o : outcome E A) a :
  map_err f o = Ok a <-> o = Ok a.
Proof. destruct o; cbn; naive_solver. Qed.

Lemma returns_bind (m : outcome E A) (f : A -> outcome E B) :
  returns m -> (forall a, m = Ok a -> returns (f a)) -> returns (m ≫= f).
Proof. destruct m; cbn; naive_solver. Qed.

Lemma returns_ok_or (o : option A) (e : E) : returns (ok_or o e).
Proof. by destruct o. Qed.

Lemma returns_reject_if c (e : E) : returns (reject_if c e).
Proof. by destruct c. Qed.

Lemma returns_map_err {F} (f : E -> F) (o : outcome E A) :
  returns o -> returns (map_err f o).
Proof. by destruct o. Qed.

Lemma returns_or_panic (o : option A) : is_Some o -> returns (or_panic (E:=E) o).
Proof. by intros [a ->]. Qed.

Lemma returns_fmap (f : A -> B) (o : outcome E A) : returns o -> returns (f <$> o).
Proof. by destruct o. Qed.

Lemma returns_Ok (a : A) : returns (Ok (E:=E) a).
Proof. done. Qed.

Lemma returns_Err (e : E) : returns (Err (A:=A) e).
Proof. done. Qed.
End OutcomeFacts.

(** The [returns] database proves that a call neither panics nor diverges from
    the shape of the code. *)
Create HintDb returns discriminated.
#[export] Hint Resolve returns_ok_or returns_reject_if returns_map_err
  returns_fmap returns_Ok returns_Err : returns.

(** Walk down a chain of fallible calls that each return, opening tuples. *)
Ltac open_tuples :=
  repeat match goal with
  | a : _ * _ |- _ => destruct a
  end.
Ltac returns_steps :=
  repeat (cbv beta zeta; open_tuples;
    first
      [ solve [auto with returns nocore]
      | apply returns_bind; [solve [auto with returns nocore]|intros ? _]
      | match goal with |- returns (if ?b then _ else _) => destruct b eqn:? end
      | match goal with |- returns (match ?x with _ => _ end) => destruct x eqn:? end ]).

(** [inv_ok H] turns [H : (x ← m; f x) = Ok v] into the facts about each step. *)
Ltac inv_ok H :=
  lazymatch type of H with
  | mbind _ _ = Ok _ =>
      let a := fresh "a" in let H1 := fresh "Hstep" in
      apply bind_Ok in H as (a & H1 & H); inv_ok H1; inv_ok H
  | ok_or _ _ = Ok _ => apply ok_or_Ok in H
  | reject_if _ _ = Ok _ => apply reject_if_Ok in H
  | map_err _ _ = Ok _ => apply map_err_Ok in H; inv_ok H
  | Ok _ = Ok _ => apply Ok_inj in H
  | _ => idtac
  end.

(** Case split on every conditional of the goal. *)
Ltac split_ifs :=
  repeat match goal with
  | |- context [if ?b then _ else _] => destruct b eqn:?
  end.

(** ** Methods on [&mut self]

    A method that returns a [Result] leaves its receiver modified up to the
    point of the early return, so the state is part of every outcome. *)
Definition prog (S E A : Type) : Type := S -> S * outcome E A.

#[export] Instance prog_ret {S E} : MRet (prog S E) := fun A a s => (s, Ok a).
#[export] Instance prog_bind {S E} : MBind (prog S E) := fun A B f m s =>
  match m s with
  | (s', Ok a) => f a s'
  | (s', Err e) => (s', Err e)
  | (s', Panic) => (s', Panic)
  | (s', Diverge) => (s', Diverge)
  end.

Definition lift {S E A} (o : outcome E A) : prog S E A := fun s => (s, o).
Definition fail {S E A} (e : E) : prog S E A := fun s => (s, Err e).
Definition gets {S E A} (f : S -> A) : prog S E A := fun s => (s, Ok (f s)).
Definition modify {S E} (f : S -> S) : prog S E unit := fun s => (f s, Ok tt).

(** A fallible in-place update: the state changes only when it succeeds. *)
Definition try_modify {S E} (f : S -> outcome E S) : prog S E unit := fun s =>
  match f s with
  | Ok s' => (s', Ok tt)
  | Err e => (s, Err e)
  | Panic => (s, Panic)
  | Diverge => (s, Diverge)
  end.

(** A call whose error type is converted by [?] ([From]). *)
Definition with_err {S E F A} (f : E -> F) (m : prog S E A) : prog S F A := fun s =>
  ((m s).1, map_err f (m s).2).

(** [for x in l { body }] with an early return on the first error. *)
Fixpoint for_each {S E A} (l : list A) (body : A -> prog S E unit) : prog S E unit :=
  match l with
  | [] => mret tt
  | x :: l => _ ← body x; for_each l body
  end.

(** One step of a method that succeeds. *)
Lemma prog_step {S E A B} (m : prog S E A) (f : A -> prog S E B) s s' a :
  m s = (s', Ok a) -> (m ≫= f) s = f a s'.
Proof. unfold mbind, prog_bind. by intros ->. Qed.

Lemma prog_bind_Ok {S E A B} (m : prog S E A) (f : A -> prog S E B) s s' b :
  (m ≫= f) s = (s', Ok b) <-> exists s1 a, m s = (s1, Ok a) /\ f a s1 = (s', Ok b).
Proof.
  unfold mbind, prog_bind. split.
  - destruct (m s) as [s1 [a|e| |]] eqn:Hm; intros H; try done. by exists s1, a.
  - by intros (s1 & a & -> & H).
Qed.

Lemma with_err_Ok {S E F A} (f : E -> F) (m : prog S E A) s s' a :
  with_err f m s = (s', Ok a) <-> m s = (s', Ok a).
Proof. unfold with_err. destruct (m s) as [s1 [b|e| |]]; cbn; naive_solver. Qed.

Lemma try_modify_Ok {S E} (f : S -> outcome E S) s s' u :
  try_modify f s = (s', Ok u) <-> f s = Ok s'.
Proof. unfold try_modify. destruct u. destruct (f s); naive_solver. Qed.

Section ProgFacts.
Context {S E : Type} (P : S -> Prop).

(** A predicate that holds before holds in the state the method leaves behind,
    whatever its outcome. *)
Definition preserves {A} (m : prog S E A) : Prop := forall s, P s -> P (m s).1.

Lemma preserves_bind {A B} (m : prog S E A) (f : A -> prog S E B) :
  preserves m -> (forall a, preserves (f a)) -> preserves (m ≫= f).
Proof.
  intros Hm Hf s HP. specialize (Hm s HP). unfold mbind, prog_bind.
  destruct (m s) as [s' [a|e| |]]; cbn in *; [by apply Hf|done..].
Qed.

Lemma preserves_lift {A} (o : outcome E A) : preserves (lift o).
Proof. by intros s ?. Qed.

Lemma preserves_fail {A} (e : E) : preserves (fail (A:=A) e).
Proof. by intros s ?. Qed.

Lemma preserves_gets {A} (f : S -> A) : preserves (gets f).
Proof. by intros s ?. Qed.

Lemma preserves_ret {A} (a : A) : preserves (mret a : prog S E A).
Proof. by intros s ?. Qed.

Lemma preserves_modify f : (forall s, P s -> P (f s)) -> preserves (modify f).
Proof. intros Hf s HP. by apply Hf. Qed.

Lemma preserves_for_each {A} (l : list A) (body : A -> prog S E unit) :
  (forall x, preserves (body x)) -> preserves (for_each l body).
Proof.
  intros Hb. induction l as [|x l IH]; cbn; [apply preserves_ret|].
  by apply preserves_bind.
Qed.
End ProgFacts.

Create HintDb preserves discriminated.
#[export] Hint Resolve preserves_bind preserves_lift preserves_fail preserves_gets
  preserves_ret preserves_for_each : preserves.

(** ** Triples

    [triple I P m Q]: started in a state where [P] holds, [m] comes back; with [Q] for the value
    and the state when it succeeds, with [I] for the state it leaves behind when it fails. *)
Section Triples.
Context {S E : Type} (I : S -> Prop).

Definition triple {A} (P : S -> Prop) (m : prog S E A) (Q : A -> S -> Prop) : Prop := forall s, P s ->
  match m s with
  | (s', Ok a) => Q a s'
  | (s', Err _) => I s'
  | (_, Panic) | (_, Diverge) => False
  end.

Lemma triple_bind {A B} P (m : prog S E A) (f : A -> prog S E B) Q R :
  triple P m Q -> (forall a, triple (Q a) (f a) R) -> triple P (m ≫= f) R.
Proof.
  intros Hm Hf s HP. specialize (Hm s HP). unfold mbind, prog_bind.
  destruct (m s) as [s' [a|e| |]]; cbn in *; [by apply Hf|done..].
Qed.

Lemma triple_conseq {A} (P P' : S -> Prop) (m : prog S E A) (Q Q' : A -> S -> Prop) :
  triple P' m Q' -> (forall s, P s -> P' s) -> (forall a s, Q' a s -> Q a s) -> triple P m Q.
Proof.
  intros Hm HP HQ s H. specialize (Hm s (HP s H)). destruct (m s) as [s' [a|e| |]]; auto.
Qed.

Lemma triple_pre {A} (P P' : S -> Prop) (m : prog S E A) Q :
  triple P' m Q -> (forall s, P s -> P' s) -> triple P m Q.
Proof. intros. by eapply triple_conseq. Qed.

Lemma triple_post {A} (P : S -> Prop) (m : prog S E A) Q Q' :
  triple P m Q' -> (forall a s, Q' a s -> Q a s) -> triple P m Q.
Proof. intros. by eapply triple_conseq. Qed.

Lemma triple_lift {A} P (o : outcome E A) : (forall s, P s -> I s) -> returns o ->
  triple P (lift o) (fun a s => P s /\ o = Ok a).
Proof. intros HI Ho s HP. cbn. destruct o; auto. Qed.

Lemma triple_gets {A} P (f : S -> A) : triple P (gets f) (fun a s => P s /\ a = f s).
Proof. intros s HP. by cbn. Qed.

Lemma triple_modify P f : triple P (modify f) (fun _ s' => exists s, P s /\ s' = f s).
Proof. intros s HP. cbn. by exists s. Qed.

Lemma triple_ret {A} (P : S -> Prop) (a : A) : triple P (mret a) (fun b s => P s /\ b = a).
Proof. intros s HP. by cbn. Qed.

Lemma triple_fail {A} (P : S -> Prop) (e : E) (Q : A -> S -> Prop) : (forall s, P s -> I s) -> triple P (fail e) Q.
Proof. intros HI s HP. by apply HI. Qed.

Lemma triple_for_each {A} P (l : list A) (body : A -> prog S E unit) :
  (forall x, x ∈ l -> triple P (body x) (fun _ => P)) -> triple P (for_each l body) (fun _ => P).
Proof.
  intros Hb. induction l as [|x l IH]; cbn; [by intros ? ?|].
  eapply triple_bind; [apply Hb; by left|]. intros u. apply IH. intros y Hy. apply Hb. by right.
Qed.

Lemma triple_frame {A} (P : S -> Prop) (m : prog S E A) (Q : A -> S -> Prop) :
  (forall s, P s -> triple (fun s' => s' = s) m Q) -> triple P m Q.
Proof. intros H s HP. by apply (H s HP). Qed.
End Triples.
