(* ===== verification/Words.v ===== *)
(** * Machine integers and network byte order

    Unsigned [w]-bit values are elements of [Z] in [0, 2^w); the arithmetic of
    the Rust integer types (wrapping, saturating, checked, [try_from]) is written
    out at its width.  [usize] has 64 bits.  The second half is the big-endian
    and little-endian byte encoding used by every wire format. *)
From S2P Require Import Prelude.

Definition fits (w x : Z) : Prop := 0 <= x < 2 ^ w.
Abbreviation u8 := (fits 8).
Abbreviation u16 := (fits 16).
Abbreviation u24 := (fits 24).
Abbreviation u32 := (fits 32).
Abbreviation u64 := (fits 64).
Abbreviation usize := (fits 64).
Definition sfits (w x : Z) : Prop := - 2 ^ (w - 1) <= x < 2 ^ (w - 1).

Definition umax (w : Z) : Z := 2 ^ w - 1.
Definition wrapping_add (w a b : Z) : Z := (a + b) mod 2 ^ w.
Definition wrapping_sub (w a b : Z) : Z := (a - b) mod 2 ^ w.
Definition saturating_add (w a b : Z) : Z := Z.min (a + b) (umax w).
Definition saturating_mul (w a b : Z) : Z := Z.min (a * b) (umax w).
Definition saturating_sub (a b : Z) : Z := Z.max 0 (a - b).
Definition checked_add (w a b : Z) : option Z :=
  if a + b <=? umax w then Some (a + b) else None.
Definition checked_mul (w a b : Z) : option Z :=
  if a * b <=? umax w then Some (a * b) else None.
Definition checked_sub (a b : Z) : option Z := if b <=? a then Some (a - b) else None.
Definition try_from (w x : Z) : option Z :=
  if (0 <=? x) && (x <=? umax w) then Some x else None.

(** Two's complement. *)
Definition to_signed (w x : Z) : Z := if x <? 2 ^ (w - 1) then x else x - 2 ^ w.
Definition to_unsigned (w x : Z) : Z := x mod 2 ^ w.

(** [x & mask != 0] and [u8::from(bool)]. *)
Definition has_bit (x mask : Z) : bool := negb (Z.land x mask =? 0).
Definition from_bool (b : bool) : Z := if b then 1 else 0.

(** Put the value of [2 ^ w] in the context for [lia]. *)
Ltac width :=
  unfold fits, sfits, umax in *;
  repeat match goal with
  | H : context [2 ^ ?w] |- _ => let v := eval vm_compute in (2 ^ w) in
      is_ground w; change (2 ^ w) with v in H
  | |- context [2 ^ ?w] => let v := eval vm_compute in (2 ^ w) in
      is_ground w; change (2 ^ w) with v
  end.
Ltac mlia := width; lia.
(** Closed arithmetic facts, by evaluation. *)
Ltac eval_facts := repeat match goal with
  | |- _ /\ _ => split
  | |- True => exact I
  | |- _ = _ => vm_compute; reflexivity
  | |- _ <= _ => apply Z.leb_le; vm_compute; reflexivity
  | |- _ < _ => apply Z.ltb_lt; vm_compute; reflexivity
  | |- Forall _ [] => constructor
  | |- Forall _ (_ :: _) => constructor
  | |- fits _ _ => unfold fits
  end.
Ltac zdiv := width; Z.to_euclidean_division_equations; lia.

Lemma wrapping_add_fits w a b : 0 <= w -> fits w (wrapping_add w a b).
Proof. intros. apply Z.mod_pos_bound. by apply Z.pow_pos_nonneg. Qed.

Lemma wrapping_sub_fits w a b : 0 <= w -> fits w (wrapping_sub w a b).
Proof. intros. apply Z.mod_pos_bound. by apply Z.pow_pos_nonneg. Qed.

Lemma wrapping_add_sub w a b : fits w a -> wrapping_add w b (wrapping_sub w a b) = a.
Proof.
  unfold wrapping_add, wrapping_sub. intros Ha.
  rewrite Zplus_mod_idemp_r. replace (b + (a - b)) with a by lia.
  by apply Z.mod_small.
Qed.

Lemma wrapping_sub_add w a b : fits w b -> wrapping_sub w (wrapping_add w a b) a = b.
Proof.
  unfold wrapping_add, wrapping_sub. intros Hb.
  rewrite Zminus_mod_idemp_l. replace (a + b - a) with b by lia.
  by apply Z.mod_small.
Qed.

Lemma checked_add_fits w a b : a + b <= umax w -> checked_add w a b = Some (a + b).
Proof. intros H. unfold checked_add. by rewrite (proj2 (Z.leb_le _ _) H). Qed.

Lemma checked_mul_fits w a b : a * b <= umax w -> checked_mul w a b = Some (a * b).
Proof. intros H. unfold checked_mul. by rewrite (proj2 (Z.leb_le _ _) H). Qed.

Lemma checked_mul_Some w a b c : checked_mul w a b = Some c <-> c = a * b /\ a * b <= umax w.
Proof. unfold checked_mul. case_match; [naive_solver lia|]. split; [done|lia]. Qed.

Lemma checked_sub_Some a b c : checked_sub a b = Some c <-> c = a - b /\ b <= a.
Proof. unfold checked_sub. case_match; [naive_solver lia|]. split; [done|lia]. Qed.

Lemma try_from_fits w x : 0 <= x <= umax w -> try_from w x = Some x.
Proof.
  intros [H0 H1]. unfold try_from.
  by rewrite (proj2 (Z.leb_le _ _) H0), (proj2 (Z.leb_le _ _) H1).
Qed.

Lemma checked_add_Some w a b c : checked_add w a b = Some c <-> c = a + b /\ a + b <= umax w.
Proof. unfold checked_add. case_match; [naive_solver lia|]. split; [done|lia]. Qed.

Lemma try_from_Some w x y : try_from w x = Some y <-> y = x /\ 0 <= x <= umax w.
Proof. unfold try_from. case_match; [naive_solver lia|]. split; [done|lia]. Qed.

Lemma to_signed_unsigned w x : 0 < w -> sfits w x -> to_signed w (to_unsigned w x) = x.
Proof.
  intros Hw [Hlo Hhi]. unfold to_signed, to_unsigned.
  assert (2 ^ w = 2 * 2 ^ (w - 1)) as Hp.
  { rewrite <- Z.pow_succ_r by lia. f_equal; lia. }
  destruct (decide (0 <= x)).
  - rewrite Z.mod_small by lia. case_match; lia.
  - assert (x mod 2 ^ w = x + 2 ^ w) as ->.
    { rewrite <- (Z_mod_plus_full x 1 (2 ^ w)), Z.mul_1_l. apply Z.mod_small; lia. }
    case_match; lia.
Qed.

(** ** Exhaustive reasoning about a small range, such as the 256 bytes *)
Lemma forallb_seqZ (P : Z -> bool) a n x :
  forallb P (seqZ a n) = true -> a <= x < a + n -> P x = true.
Proof.
  intros H Hx. rewrite forallb_forall in H. apply H.
  apply list_elem_of_In, elem_of_seqZ. lia.
Qed.

Lemma Zland_bound m x : 0 <= m -> 0 <= Z.land x m <= m.
Proof.
  intros Hm. split; [apply Z.land_nonneg; auto|].
  assert (Z.land x m + Z.land (Z.lnot x) m = m) as Hsum.
  { rewrite Z.add_nocarry_lxor.
    - apply Z.bits_inj'; intros i Hi.
      rewrite Z.lxor_spec, !Z.land_spec, Z.lnot_spec by done.
      by destruct (Z.testbit x i), (Z.testbit m i).
    - apply Z.bits_inj'; intros i Hi.
      rewrite !Z.land_spec, Z.lnot_spec, Z.bits_0 by done.
      by destruct (Z.testbit x i), (Z.testbit m i). }
  enough (0 <= Z.land (Z.lnot x) m) by lia. apply Z.land_nonneg; auto.
Qed.

(** ** Byte strings *)
Abbreviation bytes := (list Z).
Definition bytes_ok (l : bytes) : Prop := Forall u8 l.

Fixpoint to_be_bytes (n : nat) (z : Z) : bytes :=
  match n with
  | O => []
  | S n => (z / 2 ^ (8 * Z.of_nat n)) mod 2 ^ 8 :: to_be_bytes n z
  end.
Definition from_be_bytes (l : bytes) : Z := foldl (fun acc b => acc * 256 + b) 0 l.
Definition to_le_bytes (n : nat) (z : Z) : bytes := reverse (to_be_bytes n z).
Definition from_le_bytes (l : bytes) : Z := from_be_bytes (reverse l).

Lemma length_to_be_bytes n z : length (to_be_bytes n z) = n.
Proof. induction n; cbn; congruence. Qed.

Lemma to_be_bytes_ok n z : bytes_ok (to_be_bytes n z).
Proof.
  induction n; cbn; constructor; [|done].
  apply Z.mod_pos_bound. reflexivity.
Qed.

Lemma from_be_bytes_acc l a :
  foldl (fun acc b => acc * 256 + b) a l = a * 256 ^ Z.of_nat (length l) + from_be_bytes l.
Proof.
  unfold from_be_bytes. revert a. induction l as [|b l IH]; intros a; cbn -[Z.mul Z.pow].
  - rewrite Z.pow_0_r. lia.
  - rewrite (IH (a * 256 + b)), (IH (0 * 256 + b)).
    replace (Z.of_nat (S (length l))) with (Z.of_nat (length l) + 1) by lia.
    rewrite Z.pow_add_r by lia. ring_simplify. lia.
Qed.

Lemma from_be_bytes_cons b l :
  from_be_bytes (b :: l) = b * 256 ^ Z.of_nat (length l) + from_be_bytes l.
Proof.
  unfold from_be_bytes at 1. cbn [foldl]. rewrite from_be_bytes_acc. f_equal.
Qed.

Lemma from_be_bytes_bound l :
  bytes_ok l -> 0 <= from_be_bytes l < 256 ^ Z.of_nat (length l).
Proof.
  induction 1 as [|b l [Hb0 Hb] Hl IH]; [cbn; lia|].
  rewrite from_be_bytes_cons. cbn [length].
  replace (Z.of_nat (S (length l))) with (Z.of_nat (length l) + 1) by lia.
  rewrite Z.pow_add_r by lia. change (2 ^ 8) with 256 in *. nia.
Qed.

Lemma pow256 n : 256 ^ Z.of_nat n = 2 ^ (8 * Z.of_nat n).
Proof. change 256 with (2 ^ 8). rewrite <- Z.pow_mul_r by lia. done. Qed.

Lemma from_to_be_bytes_mod n z : from_be_bytes (to_be_bytes n z) = z mod 2 ^ (8 * Z.of_nat n).
Proof.
  induction n as [|n IH]; [by rewrite Z.mod_1_r|].
  cbn [to_be_bytes]. rewrite from_be_bytes_cons, IH, length_to_be_bytes, pow256.
  replace (8 * Z.of_nat (S n)) with (8 * Z.of_nat n + 8) by lia.
  rewrite Z.pow_add_r by lia. rewrite Z.rem_mul_r by (apply Z.pow_nonzero || apply Z.pow_pos_nonneg; lia).
  lia.
Qed.

Lemma from_to_be_bytes n z : fits (8 * Z.of_nat n) z -> from_be_bytes (to_be_bytes n z) = z.
Proof. intros. rewrite from_to_be_bytes_mod. by apply Z.mod_small. Qed.

Lemma from_be_bytes_inj l1 l2 :
  bytes_ok l1 -> bytes_ok l2 -> length l1 = length l2 ->
  from_be_bytes l1 = from_be_bytes l2 -> l1 = l2.
Proof.
  intros H1. revert l2. induction H1 as [|b1 l1 Hb1 Hl1 IH]; intros l2 H2 Hlen;
    destruct H2 as [|b2 l2 Hb2 Hl2]; try discriminate; [done|].
  rewrite !from_be_bytes_cons. injection Hlen as Hlen. rewrite Hlen. intros Heq.
  pose proof (from_be_bytes_bound l1 Hl1) as B1. pose proof (from_be_bytes_bound l2 Hl2) as B2.
  rewrite Hlen in B1. set (m := 256 ^ Z.of_nat (length l2)) in *.
  assert (b1 = b2) as -> by nia. f_equal. apply IH; auto. lia.
Qed.

Lemma to_from_be_bytes l : bytes_ok l -> to_be_bytes (length l) (from_be_bytes l) = l.
Proof.
  intros Hl. apply from_be_bytes_inj; auto using to_be_bytes_ok, length_to_be_bytes.
  apply from_to_be_bytes. unfold fits. rewrite <- pow256. by apply from_be_bytes_bound.
Qed.

Lemma to_be_bytes_inj n x y :
  fits (8 * Z.of_nat n) x -> fits (8 * Z.of_nat n) y ->
  to_be_bytes n x = to_be_bytes n y -> x = y.
Proof.
  intros Hx Hy Heq. rewrite <- (from_to_be_bytes n x), <- (from_to_be_bytes n y) by done.
  by rewrite Heq.
Qed.

Lemma bytes_ok_app l1 l2 : bytes_ok (l1 ++ l2) <-> bytes_ok l1 /\ bytes_ok l2.
Proof. apply Forall_app. Qed.

Lemma bytes_ok_cons b l : bytes_ok (b :: l) <-> u8 b /\ bytes_ok l.
Proof. apply Forall_cons. Qed.

Lemma bytes_ok_nil : bytes_ok [].
Proof. constructor. Qed.

Lemma bytes_ok_replicate n : bytes_ok (replicate n 0).
Proof. apply Forall_replicate. mlia. Qed.

Lemma bytes_ok_take n l : bytes_ok l -> bytes_ok (take n l).
Proof. apply Forall_take. Qed.

Lemma bytes_ok_drop n l : bytes_ok l -> bytes_ok (drop n l).
Proof. apply Forall_drop. Qed.

Create HintDb bytes discriminated.
#[export] Hint Resolve to_be_bytes_ok bytes_ok_replicate bytes_ok_nil bytes_ok_take
  bytes_ok_drop : bytes.

(** Fields stay folded in the proofs about wire layouts. *)
#[global] Arguments to_be_bytes : simpl never.
