(* ===== verification/Slices.v ===== *)
(** * Rust slices and vectors

    [len], [get] and [get_range] are [<[T]>::len], [get(i)] and [get(a..b)] with
    [usize] positions in [Z]; [index] and [index_range] are the panicking forms
    [s[i]] and [s[a..b]].  [read_be] is the helper every protocol crate defines to
    read a big-endian field at a position. *)
From S2P Require Import Prelude Words.

Definition len {A} (l : list A) : Z := Z.of_nat (length l).
Definition get {A} (l : list A) (i : Z) : option A :=
  if 0 <=? i then l !! Z.to_nat i else None.
Definition get_range {A} (l : list A) (a b : Z) : option (list A) :=
  if (0 <=? a) && (a <=? b) && (b <=? len l)
  then Some (take (Z.to_nat (b - a)) (drop (Z.to_nat a) l)) else None.
Definition get_to {A} (l : list A) (b : Z) : option (list A) := get_range l 0 b.
Definition get_from {A} (l : list A) (a : Z) : option (list A) := get_range l a (len l).
Definition index {E A} (l : list A) (i : Z) : outcome E A := or_panic (get l i).
Definition index_range {E A} (l : list A) (a b : Z) : outcome E (list A) :=
  or_panic (get_range l a b).

(** [s[i] = x] and [s[i..i + v.len()].copy_from_slice(v)]. *)
Definition set_at {E A} (l : list A) (i : Z) (x : A) : outcome E (list A) :=
  if (0 <=? i) && (i <? len l) then Ok (<[Z.to_nat i := x]> l) else Panic.
Definition copy_at {E A} (l : list A) (i : Z) (v : list A) : outcome E (list A) :=
  if (0 <=? i) && (i + len v <=? len l)
  then Ok (take (Z.to_nat i) l ++ v ++ drop (Z.to_nat (i + len v)) l) else Panic.

(** [Vec::resize] and [std::iter::repeat_n] with an element count in [Z]. *)
Definition replicateZ {A} (n : Z) (x : A) : list A := replicate (Z.to_nat n) x.
Definition resize {A} (l : list A) (n : Z) (x : A) : list A :=
  if n <=? len l then take (Z.to_nat n) l else l ++ replicateZ (n - len l) x.

(** What a [&[u8]] can be: octets, and at most [isize::MAX] of them. *)
Definition rust_slice (l : bytes) : Prop := bytes_ok l /\ len l < 2 ^ 63.

Definition read_be {E} (n : nat) (e : E) (input : bytes) (position : Z) : outcome E Z :=
  b ← ok_or (get_range input position (saturating_add 64 position (Z.of_nat n))) e;
  if Nat.eqb (length b) n then Ok (from_be_bytes b) else Err e.

(** ** Lengths *)
Section Lengths.
Context {A : Type}.
Implicit Types l : list A.

Lemma len_nonneg l : 0 <= len l.
Proof. unfold len. lia. Qed.
Lemma len_nil : len (@nil A) = 0.
Proof. done. Qed.
Lemma len_cons x l : len (x :: l) = 1 + len l.
Proof. unfold len. cbn [length]. lia. Qed.
Lemma len_app l1 l2 : len (l1 ++ l2) = len l1 + len l2.
Proof. unfold len. rewrite length_app. lia. Qed.
Lemma len_replicateZ n (x : A) : len (replicateZ n x) = Z.max 0 n.
Proof. unfold len, replicateZ. rewrite length_replicate. lia. Qed.
Lemma len_take n l : len (take n l) = Z.min (Z.of_nat n) (len l).
Proof. unfold len. rewrite length_take. lia. Qed.
Lemma len_drop n l : len (drop n l) = Z.max 0 (len l - Z.of_nat n).
Proof. unfold len. rewrite length_drop. lia. Qed.
Lemma len_insert i x l : len (<[i := x]> l) = len l.
Proof. unfold len. by rewrite length_insert. Qed.
Lemma len_reverse l : len (reverse l) = len l.
Proof. unfold len. by rewrite length_reverse. Qed.
Lemma len_zero_nil l : len l = 0 -> l = [].
Proof. unfold len. destruct l; cbn; [done|lia]. Qed.
End Lengths.
Lemma len_to_be_bytes n z : len (to_be_bytes n z) = Z.of_nat n.
Proof. unfold len. by rewrite length_to_be_bytes. Qed.
Lemma len_map {A B} (f : A -> B) l : len (f <$> l) = len l.
Proof. unfold len. by rewrite length_fmap. Qed.

Create Rewrite HintDb len.
#[export] Hint Rewrite @len_nil @len_cons @len_app @len_replicateZ @len_take @len_drop
  @len_insert @len_reverse len_to_be_bytes @len_map : len.

Ltac pose_len :=
  repeat match goal with
  | |- context [len ?l] => lazymatch goal with
      | H : 0 <= len l |- _ => fail | _ => pose proof (len_nonneg l) end
  | H : context [len ?l] |- _ => lazymatch goal with
      | H : 0 <= len l |- _ => fail | _ => pose proof (len_nonneg l) end
  end.
(** [slia]: linear arithmetic with the lengths of lists computed. *)
Ltac slia := autorewrite with len in *; pose_len; unfold fits, umax in *; lia.

(** ** Reading ranges *)
Section Ranges.
Context {A : Type}.
Implicit Types l v : list A.

Lemma get_range_Some l a b v :
  get_range l a b = Some v <->
  exists l1 l2, l = l1 ++ v ++ l2 /\ len l1 = a /\ b = a + len v.
Proof.
  unfold get_range. split.
  - case_match eqn:E; [|done]. intros [= <-].
    exists (take (Z.to_nat a) l), (drop (Z.to_nat b) l).
    split_and!; [|slia|slia].
    rewrite <- (take_drop (Z.to_nat a) l) at 1. f_equal.
    rewrite <- (take_drop (Z.to_nat (b - a)) (drop (Z.to_nat a) l)) at 1. f_equal.
    rewrite drop_drop. f_equal. lia.
  - intros (l1 & l2 & -> & <- & ->).
    rewrite !len_app. pose_len.
    rewrite (proj2 (andb_true_iff _ _)) by (rewrite ?andb_true_iff; lia).
    f_equal. rewrite drop_app_length' by (unfold len; lia).
    apply take_app_length'. unfold len. lia.
Qed.

Lemma get_range_skip l1 l2 a b :
  len l1 <= a -> get_range (l1 ++ l2) a b = get_range l2 (a - len l1) (b - len l1).
Proof.
  intros Ha. unfold get_range. rewrite len_app. pose_len.
  replace (0 <=? a - len l1) with (0 <=? a) by lia.
  replace (a - len l1 <=? b - len l1) with (a <=? b) by lia.
  replace (b - len l1 <=? len l2) with (b <=? len l1 + len l2) by lia.
  case_match; [|done]. f_equal. f_equal; [lia|].
  rewrite drop_app_ge by (unfold len in *; lia). f_equal. unfold len; lia.
Qed.

Lemma get_range_app_l l1 l2 a b :
  b <= len l1 -> get_range (l1 ++ l2) a b = get_range l1 a b.
Proof.
  intros Hb. unfold get_range. rewrite len_app. pose_len.
  replace (b <=? len l1 + len l2) with true by lia.
  replace (b <=? len l1) with true by lia.
  case_match; [|done]. f_equal.
  rewrite drop_app_le, take_app_le by (rewrite ?length_drop; unfold len in *; lia). done.
Qed.

Lemma get_range_exact l1 l2 b : b = len l1 -> get_range (l1 ++ l2) 0 b = Some l1.
Proof. intros ->. apply get_range_Some. exists [], l2. split_and!; slia || done. Qed.

Lemma get_range_all l b : b = len l -> get_range l 0 b = Some l.
Proof. intros ->. apply get_range_Some. exists [], []. rewrite app_nil_r. split_and!; slia || done. Qed.

Lemma get_range_cons x l a b :
  1 <= a -> get_range (x :: l) a b = get_range l (a - 1) (b - 1).
Proof. intros. apply (get_range_skip [x] l). slia. Qed.

Lemma get_range_len l a b v : get_range l a b = Some v -> len v = b - a /\ 0 <= a /\ b <= len l.
Proof. intros (l1 & l2 & -> & <- & ->)%get_range_Some. slia. Qed.

Lemma get_range_is_Some l a b : is_Some (get_range l a b) <-> 0 <= a <= b /\ b <= len l.
Proof.
  unfold get_range. case_match eqn:E; split; intros H; try lia; [by eexists|by destruct H].
Qed.

Lemma get_range_None l a b : ~ (0 <= a <= b /\ b <= len l) -> get_range l a b = None.
Proof. rewrite <- get_range_is_Some. by intros ?%eq_None_not_Some. Qed.

Lemma get_from_app l1 l2 a : a = len l1 -> get_from (l1 ++ l2) a = Some l2.
Proof.
  intros ->. unfold get_from. rewrite get_range_skip by lia.
  apply get_range_Some. exists [], []. rewrite app_nil_r. split_and!; slia || done.
Qed.

Lemma get_app_here l1 x l2 i : i = len l1 -> get (l1 ++ x :: l2) i = Some x.
Proof.
  intros ->. unfold get. pose_len. replace (0 <=? len l1) with true by lia.
  apply list_lookup_middle. unfold len; lia.
Qed.

Lemma get_app_skip l1 l2 i : len l1 <= i -> get (l1 ++ l2) i = get l2 (i - len l1).
Proof.
  intros Hi. unfold get. pose_len.
  replace (0 <=? i) with true by lia. replace (0 <=? i - len l1) with true by lia.
  rewrite lookup_app_r by (unfold len in *; lia). f_equal. unfold len; lia.
Qed.

Lemma get_app_l l1 l2 i : i < len l1 -> get (l1 ++ l2) i = get l1 i.
Proof.
  intros Hi. unfold get. case_match; [|done].
  apply lookup_app_l. unfold len in *; lia.
Qed.

Lemma get_cons_0 x l : get (x :: l) 0 = Some x.
Proof. done. Qed.

Lemma get_cons_S x l i : 1 <= i -> get (x :: l) i = get l (i - 1).
Proof. intros. apply (get_app_skip [x] l). slia. Qed.

Lemma get_is_Some l i : is_Some (get l i) <-> 0 <= i < len l.
Proof.
  unfold get. case_match eqn:E.
  - rewrite lookup_lt_is_Some. unfold len. lia.
  - split; [by intros []|lia].
Qed.

Lemma get_None l i : get l i = None <-> ~ (0 <= i < len l).
Proof. by rewrite <- get_is_Some, eq_None_not_Some. Qed.

Lemma get_split l i x :
  get l i = Some x <-> exists l1 l2, l = l1 ++ x :: l2 /\ len l1 = i.
Proof.
  split.
  - intros H. pose proof (mk_is_Some _ _ H) as Hb%get_is_Some. unfold get in H.
    replace (0 <=? i) with true in H by lia.
    exists (take (Z.to_nat i) l), (drop (S (Z.to_nat i)) l).
    split; [by rewrite take_drop_middle|slia].
  - intros (l1 & l2 & -> & <-). by apply get_app_here.
Qed.

Lemma returns_index {E} l i : 0 <= i < len l -> returns (index (E:=E) l i).
Proof. intros. by apply returns_or_panic, get_is_Some. Qed.

Lemma returns_index_range {E} l a b :
  0 <= a <= b -> b <= len l -> returns (index_range (E:=E) l a b).
Proof. intros. by apply returns_or_panic, get_range_is_Some. Qed.
End Ranges.

Lemma copy_at_middle {E A} (l1 old v l2 : list A) i :
  i = len l1 -> len old = len v ->
  copy_at (E:=E) (l1 ++ old ++ l2) i v = Ok (l1 ++ v ++ l2).
Proof.
  intros -> Hlen. unfold copy_at. rewrite !len_app. pose_len.
  replace (_ && _) with true by lia. f_equal. f_equal.
  - apply take_app_length'. unfold len. lia.
  - f_equal. rewrite app_assoc. apply drop_app_length'. rewrite length_app.
    unfold len in *. lia.
Qed.

(** ** Big-endian fields *)
Section ReadBe.
Context {E : Type} (n : nat) (e : E).

Lemma returns_read_be input position : returns (read_be n e input position).
Proof.
  unfold read_be. apply returns_bind; [apply returns_ok_or|].
  intros b _. by destruct (Nat.eqb _ _).
Qed.

Lemma read_be_Ok input position v :
  read_be n e input position = Ok v <->
  exists l1 b l2, input = l1 ++ b ++ l2 /\ len l1 = position /\ length b = n /\
    saturating_add 64 position (Z.of_nat n) = position + len b /\ v = from_be_bytes b.
Proof.
  unfold read_be. split.
  - intros (b & (l1 & l2 & -> & Hl & Hb)%ok_or_Ok%get_range_Some & H)%bind_Ok.
    destruct (Nat.eqb_spec (length b) n); [|done]. injection H as <-.
    exists l1, b, l2. done.
  - intros (l1 & b & l2 & -> & Hl & Hn & Hsat & ->).
    apply bind_Ok. exists b. split.
    + apply ok_or_Ok, get_range_Some. by exists l1, l2.
    + by rewrite (proj2 (Nat.eqb_eq _ _)).
Qed.

Lemma read_be_skip l1 l2 position :
  0 <= len l1 <= position -> position + Z.of_nat n < 2 ^ 64 ->
  read_be n e (l1 ++ l2) position = read_be n e l2 (position - len l1).
Proof.
  intros Hp Hb. unfold read_be, saturating_add. rewrite get_range_skip by lia.
  do 3 f_equal. slia.
Qed.

Lemma read_be_here v l :
  fits (8 * Z.of_nat n) v -> Z.of_nat n < 2 ^ 64 ->
  read_be n e (to_be_bytes n v ++ l) 0 = Ok v.
Proof.
  intros Hv Hn. apply read_be_Ok. exists [], (to_be_bytes n v), l.
  split_and!; rewrite ?length_to_be_bytes, ?len_to_be_bytes; auto.
  - unfold saturating_add. slia.
  - symmetry. by apply from_to_be_bytes.
Qed.

End ReadBe.
#[export] Hint Resolve returns_read_be : returns.

(** A concrete slice is one by evaluation. *)
Lemma rust_slice_check l : forallb (fun b => (0 <=? b) && (b <? 256)) l && (len l <? 2 ^ 63) = true -> rust_slice l.
Proof.
  intros [Hf Hl]%andb_true_iff. split; [|lia]. apply Forall_forall. intros b Hb.
  rewrite forallb_forall in Hf. specialize (Hf b (proj1 (list_elem_of_In _ _) Hb)). unfold fits. change (2 ^ 8) with 256. lia.
Qed.
