(* ===== verification/RustStd.v ===== *)
(** * The standard library as the code uses it

    UTF-8 validation, sorting and deduplication of integers, socket addresses and durations.
    [Ipv4Addr] is its 32-bit value, [Ipv6Addr] its sixteen octets; a [SocketAddrV6] also has a flow
    label and a scope, which its equality compares.  A [Duration] is a number of nanoseconds. *)
From stdpp Require Import sorting countable.
From S2P Require Import Prelude Words Slices.

(** [std::str::from_utf8] accepts the well-formed sequences of Unicode's table 3-7. *)
Definition in_range (lo hi b : Z) : bool := (lo <=? b) && (b <=? hi).
Definition tail_byte : Z -> bool := in_range 0x80 0xbf.
Fixpoint from_utf8 (l : bytes) : bool :=
  match l with
  | [] => true
  | a :: l1 =>
      if a <? 0x80 then from_utf8 l1
      else match l1 with
      | [] => false
      | b :: l2 =>
          if in_range 0xc2 0xdf a then tail_byte b && from_utf8 l2
          else match l2 with
          | [] => false
          | c :: l3 =>
              if in_range 0xe0 0xef a then
                in_range (if a =? 0xe0 then 0xa0 else 0x80) (if a =? 0xed then 0x9f else 0xbf) b &&
                tail_byte c && from_utf8 l3
              else match l3 with
              | [] => false
              | d :: l4 =>
                  in_range 0xf0 0xf4 a &&
                  in_range (if a =? 0xf0 then 0x90 else 0x80) (if a =? 0xf4 then 0x8f else 0xbf) b &&
                  tail_byte c && tail_byte d && from_utf8 l4
              end
          end
      end
  end.

(** ** [sort_unstable] and [dedup] on integers *)
Definition sort_unstable (l : list Z) : list Z := merge_sort Z.le l.
Fixpoint dedup (l : list Z) : list Z :=
  match l with
  | [] => []
  | x :: l' => match l' with
      | [] => [x]
      | y :: _ => if x =? y then dedup l' else x :: dedup l'
      end
  end.

(** ** [std::net] *)
Inductive IpAddr := V4 (ip : Z) | V6 (octets : bytes).
Inductive SocketAddr :=
| SocketAddrV4 (ip port : Z)
| SocketAddrV6 (octets : bytes) (port flowinfo scope_id : Z).
#[export] Instance IpAddr_eq_dec : EqDecision IpAddr.
Proof. solve_decision. Defined.
#[export] Instance SocketAddr_eq_dec : EqDecision SocketAddr.
Proof. solve_decision. Defined.
#[export] Instance IpAddr_countable : Countable IpAddr.
Proof.
  apply (inj_countable' (fun a => match a with V4 ip => inl ip | V6 o => inr o end)
           (fun s => match s with inl ip => V4 ip | inr o => V6 o end)). by intros [].
Defined.

#[export] Instance SocketAddr_countable : Countable SocketAddr.
Proof.
  apply (inj_countable' (fun a => match a with SocketAddrV4 i p => inl (i, p) | SocketAddrV6 o p f s => inr (o, p, f, s) end)
           (fun s => match s with inl (i, p) => SocketAddrV4 i p | inr (o, p, f, s) => SocketAddrV6 o p f s end)). by intros [].
Defined.

Definition socket_new (ip : IpAddr) (port : Z) : SocketAddr :=
  match ip with V4 a => SocketAddrV4 a port | V6 o => SocketAddrV6 o port 0 0 end.
Definition ip (a : SocketAddr) : IpAddr :=
  match a with SocketAddrV4 ip _ => V4 ip | SocketAddrV6 o _ _ _ => V6 o end.
Definition port (a : SocketAddr) : Z :=
  match a with SocketAddrV4 _ p => p | SocketAddrV6 _ p _ _ => p end.

(** [IpAddr::is_loopback]: 127.0.0.0/8 and ::1. *)
Definition is_loopback (a : IpAddr) : bool :=
  match a with
  | V4 a => Z.shiftr a 24 =? 127
  | V6 o => bool_decide (o = replicate 15 0 ++ [1])
  end.

(** The values the Rust types can hold. *)
Definition ip_ok (a : IpAddr) : Prop :=
  match a with V4 a => u32 a | V6 o => bytes_ok o /\ len o = 16 end.
Definition addr_ok (a : SocketAddr) : Prop := ip_ok (ip a) /\ u16 (port a).

(** ** [std::time::Duration] *)
Definition NANOS : Z := 1000000000.
Definition from_secs (s : Z) : Z := s * NANOS.
Definition as_secs (d : Z) : Z := d / NANOS.
Definition DURATION_MAX : Z := (2 ^ 64 - 1) * NANOS + (NANOS - 1).
Definition duration_add (a b : Z) : Z := Z.min (a + b) DURATION_MAX.

(** Exclusive or of two byte strings. *)
Definition xor_bytes (a b : bytes) : bytes := zip_with Z.lxor a b.

Lemma fits_bits w x : 0 <= w -> 0 <= x -> fits w x <-> forall n, w <= n -> Z.testbit x n = false.
Proof.
  intros Hw Hx. unfold fits. split.
  - intros [_ Hlt] n Hn. destruct (Z.eq_dec x 0) as [->|]; [apply Z.testbit_0_l|].
    apply Z.bits_above_log2; [done|]. apply Z.log2_lt_pow2 in Hlt; lia.
  - intros Hb. split; [done|]. destruct (Z.eq_dec x 0) as [->|Hne]; [by apply Z.pow_pos_nonneg|].
    apply Z.log2_lt_pow2; [lia|]. destruct (Z.lt_ge_cases (Z.log2 x) w) as [|Hge]; [done|].
    specialize (Hb _ Hge). rewrite Z.bit_log2 in Hb by lia. done.
Qed.

Lemma fits_lxor w a b : 0 <= w -> fits w a -> fits w b -> fits w (Z.lxor a b).
Proof.
  intros Hw Ha Hb. apply fits_bits; [done|apply Z.lxor_nonneg; split; intros; [apply Hb|apply Ha]|].
  intros n Hn. rewrite Z.lxor_spec.
  rewrite (proj1 (fits_bits w a Hw (proj1 Ha)) Ha n Hn), (proj1 (fits_bits w b Hw (proj1 Hb)) Hb n Hn). done.
Qed.

Lemma fits_land w a b : 0 <= w -> fits w a -> 0 <= b -> fits w (Z.land a b).
Proof.
  intros Hw Ha Hb. apply fits_bits; [done|apply Z.land_nonneg; by right|].
  intros n Hn. rewrite Z.land_spec. by rewrite (proj1 (fits_bits w a Hw (proj1 Ha)) Ha n Hn).
Qed.

Lemma fits_shiftr w a : 0 <= w -> fits w a -> fits w (Z.shiftr a 1).
Proof.
  intros Hw [H0 Ha]. rewrite Z.shiftr_div_pow2 by lia. change (2 ^ 1) with 2. unfold fits. zdiv.
Qed.

Lemma lxor_twice a b : Z.lxor (Z.lxor a b) b = a.
Proof. by rewrite Z.lxor_assoc, Z.lxor_nilpotent, Z.lxor_0_r. Qed.

Lemma xor_bytes_twice a m : length a = length m -> xor_bytes (xor_bytes a m) m = a.
Proof.
  unfold xor_bytes. revert m. induction a as [|x a IH]; intros [|y m] H; try done.
  cbn. rewrite lxor_twice. f_equal. apply IH. cbn in H. lia.
Qed.

Lemma len_xor_bytes a m : length a = length m -> len (xor_bytes a m) = len a.
Proof. intros H. unfold len, xor_bytes. rewrite length_zip_with. lia. Qed.

Lemma xor_bytes_ok a m : bytes_ok a -> bytes_ok m -> bytes_ok (xor_bytes a m).
Proof.
  unfold xor_bytes. intros Ha. revert m. induction Ha as [|x a Hx Ha IH]; intros [|y m] Hm; try done; [constructor..|].
  apply bytes_ok_cons in Hm as [Hy Hm]. cbn. constructor; [apply fits_lxor; done || lia|by apply IH].
Qed.

(** Sorting keeps the elements; after [dedup] each occurs once. *)
Lemma elem_of_dedup x l : x ∈ dedup l <-> x ∈ l.
Proof.
  induction l as [|y l IH]; [done|]. cbn [dedup]. destruct l as [|z l]; [done|].
  destruct (Z.eqb_spec y z) as [->|].
  - rewrite IH, !elem_of_cons. tauto.
  - rewrite (elem_of_cons (dedup _)), IH, !elem_of_cons. tauto.
Qed.

Lemma elem_of_sort x l : x ∈ sort_unstable l <-> x ∈ l.
Proof. unfold sort_unstable. by rewrite (merge_sort_Permutation Z.le). Qed.

Lemma dedup_le l : len (dedup l) <= len l.
Proof.
  induction l as [|y l IH]; [done|]. cbn [dedup]. destruct l as [|z l]; [done|].
  destruct (y =? z); slia.
Qed.

Lemma dedup_sorted l : StronglySorted Z.le l -> StronglySorted Z.lt (dedup l).
Proof.
  induction 1 as [|y l Hl IH Hy]; [constructor|]. cbn [dedup]. destruct l as [|z l]; [repeat constructor|].
  destruct (Z.eqb_spec y z) as [->|Hne]; [done|]. constructor; [done|].
  apply Forall_forall. intros x Hx. rewrite elem_of_dedup in Hx. rewrite Forall_forall in Hy.
  pose proof (Hy z ltac:(left)) as Hz. inversion Hl as [|? ? _ Hzl]; subst.
  rewrite elem_of_cons in Hx; destruct Hx as [->|Hx]; [lia|]. rewrite Forall_forall in Hzl. pose proof (Hzl x Hx). lia.
Qed.

Lemma sort_dedup_sorted l : StronglySorted Z.lt (dedup (sort_unstable l)).
Proof. apply dedup_sorted. unfold sort_unstable. apply (StronglySorted_merge_sort Z.le). Qed.

Lemma len_sort l : len (sort_unstable l) = len l.
Proof. unfold len, sort_unstable. by rewrite (merge_sort_Permutation Z.le). Qed.
