(* ===== verification/RustStr.v ===== *)
(** * Strings of the standard library as the code uses them

    A [&str] is its octets.  Literals, comparison without case, splitting at a character, and the
    integer parser [from_str_radix]. *)
From S2P Require Import Prelude Words Slices.

(** The octets of a literal. *)
Definition octets (s : string) : bytes := (fun c => Z.of_N (Ascii.N_of_ascii c)) <$> String.list_ascii_of_string s.

(** ** [str::eq_ignore_ascii_case] *)
Definition to_ascii_lowercase (c : Z) : Z := if (65 <=? c) && (c <=? 90) then c + 32 else c.
Definition eq_ignore_ascii_case (a b : bytes) : bool :=
  bool_decide (to_ascii_lowercase <$> a = to_ascii_lowercase <$> b).

(** ** [str::split(char)] and its inverse *)
Fixpoint split (sep : Z) (l : bytes) : list bytes :=
  match l with
  | [] => [[]]
  | c :: l =>
      if c =? sep then [] :: split sep l
      else match split sep l with
      | [] => [[c]]
      | part :: parts => (c :: part) :: parts
      end
  end.
Fixpoint join (sep : Z) (parts : list bytes) : bytes :=
  match parts with
  | [] => []
  | part :: rest => match rest with [] => part | _ => part ++ sep :: join sep rest end
  end.

(** ** [from_str_radix] for an unsigned type of [w] bits

    A single leading plus sign is allowed, unless it is all there is; a minus sign is not a digit. *)
Definition to_digit (radix c : Z) : option Z :=
  let d := if (48 <=? c) && (c <=? 57) then Some (c - 48)
           else if (97 <=? c) && (c <=? 122) then Some (c - 87)
           else if (65 <=? c) && (c <=? 90) then Some (c - 55)
           else None in
  d ← d; if d <? radix then Some d else None.
Fixpoint digits_value (w radix acc : Z) (l : bytes) : option Z :=
  match l with
  | [] => Some acc
  | c :: l =>
      shifted ← checked_mul w acc radix;
      d ← to_digit radix c;
      acc ← checked_add w shifted d;
      digits_value w radix acc l
  end.
Definition from_str_radix (w radix : Z) (l : bytes) : option Z :=
  match l with
  | [] => None
  | c :: rest =>
      if (c =? 0x2b) || (c =? 0x2d) then
        match rest with
        | [] => None
        | _ => if c =? 0x2b then digits_value w radix 0 rest else digits_value w radix 0 l
        end
      else digits_value w radix 0 l
  end.

(** [{:02X}] *)
Definition hex_digit (d : Z) : Z := if d <? 10 then d + 48 else d + 55.
Definition hex_byte (b : Z) : bytes := [hex_digit (b / 16); hex_digit (b mod 16)].

(** ** Facts *)
Lemma split_nonempty sep l : split sep l <> [].
Proof. destruct l as [|c l]; cbn; [done|]. destruct (c =? sep); [done|]. by destruct (split sep l). Qed.

Lemma join_split sep l : join sep (split sep l) = l.
Proof.
  induction l as [|c l IH]; [done|]. cbn. pose proof (split_nonempty sep l) as Hne. destruct (Z.eqb_spec c sep) as [->|_].
  - cbn. by destruct (split sep l); [|rewrite IH].
  - destruct (split sep l) as [|part parts]; [done|]. cbn in *. by destruct parts; rewrite <- IH.
Qed.

Lemma split_part sep part : sep ∉ part -> split sep part = [part].
Proof.
  induction part as [|c part IH]; [done|]. intros H. apply not_elem_of_cons in H as [Hc H]. cbn.
  rewrite (proj2 (Z.eqb_neq c sep)) by done. by rewrite IH.
Qed.

Lemma split_app sep part rest : sep ∉ part -> split sep (part ++ sep :: rest) = part :: split sep rest.
Proof.
  induction part as [|c part IH]; intros H; cbn; [by rewrite Z.eqb_refl|]. apply not_elem_of_cons in H as [Hc H].
  rewrite (proj2 (Z.eqb_neq c sep)) by done. by rewrite IH.
Qed.

Lemma split_join sep parts : parts <> [] -> Forall (fun p => sep ∉ p) parts -> split sep (join sep parts) = parts.
Proof.
  intros Hne H. induction H as [|part rest Hp Hrest IH]; [done|]. cbn. destruct rest as [|q rest].
  - by apply split_part.
  - rewrite split_app by done. f_equal. by apply IH.
Qed.

(** No part of a split contains the separator. *)
Lemma split_free sep l : Forall (fun p => sep ∉ p) (split sep l).
Proof.
  induction l as [|c l IH]; cbn; [repeat constructor; apply not_elem_of_nil|]. destruct (Z.eqb_spec c sep) as [|Hc].
  - constructor; [apply not_elem_of_nil|done].
  - destruct IH as [|part parts Hp Hparts]; constructor; [by apply not_elem_of_cons; split; [done|apply not_elem_of_nil]|constructor| |done].
    apply not_elem_of_cons. by split.
Qed.

(** What [from_str_radix] accepts fits the type. *)
Lemma digits_value_fits w radix acc l x : 0 <= w -> 0 <= radix -> fits w acc -> digits_value w radix acc l = Some x -> fits w x.
Proof.
  intros Hw Hr. revert acc. induction l as [|c l IH]; intros acc Hacc H; cbn in H; [by simplify_eq|].
  apply bind_Some in H as (s & [-> Hs]%checked_mul_Some & H). apply bind_Some in H as (d & Hd & H).
  apply bind_Some in H as (a & [-> Ha]%checked_add_Some & H). apply (IH _) in H; [done|].
  assert (0 <= d) as Hd0.
  { unfold to_digit in Hd. apply bind_Some in Hd as (d0 & Hd0 & Hd). case_match; [|done]. injection Hd as <-.
    repeat case_match; simplify_eq; lia. }
  destruct Hacc. unfold fits, umax in *. nia.
Qed.

Lemma from_str_radix_fits w radix l x : 0 <= w -> 0 <= radix -> from_str_radix w radix l = Some x -> fits w x.
Proof.
  intros Hw Hr. assert (fits w 0) as H0 by (split; [lia|by apply Z.pow_pos_nonneg]). unfold from_str_radix.
  destruct l as [|c rest]; [done|]. destruct (_ || _); [destruct rest; [done|]; destruct (_ =? _)|]; by apply digits_value_fits.
Qed.

(** Two hexadecimal digits denote an octet, and printing gives them back. *)
Definition hex_check (b : Z) : bool :=
  bool_decide (from_str_radix 8 16 (hex_byte b) = Some b) && forallb (fun c => negb (c =? 0x3a)) (hex_byte b).
Lemma hex_byte_spec b : u8 b -> from_str_radix 8 16 (hex_byte b) = Some b /\ 0x3a ∉ hex_byte b.
Proof.
  assert (forallb hex_check (seqZ 0 256) = true) as H by (vm_compute; reflexivity).
  intros [H0 H1]. pose proof (forallb_seqZ _ _ _ b H ltac:(lia)) as Hb.
  apply andb_true_iff in Hb as [Hb%bool_decide_eq_true Hc]. split; [done|].
  intros Hin. rewrite forallb_forall in Hc. apply list_elem_of_In in Hin. specialize (Hc _ Hin). done.
Qed.
