(* ===== verification/RustText.v ===== *)
(** * More of the standard library's strings: lines, words, trimming, decimal numbers

    Strings are octets of valid UTF-8; a pattern that starts with a leading octet matches only at the
    start of a character, so that the searches below run on octets. *)
From S2P Require Import Prelude Words Slices RustStd RustStr.

(** ** [strip_suffix(char)], [split_once(char)], [splitn(3, char)] *)
Definition strip_suffix (c : Z) (l : bytes) : option bytes :=
  match reverse l with
  | x :: r => if x =? c then Some (reverse r) else None
  | [] => None
  end.
Fixpoint split_once (sep : Z) (l : bytes) : option (bytes * bytes) :=
  match l with
  | [] => None
  | c :: l => if c =? sep then Some ([], l) else '(a, b) ← split_once sep l; Some (c :: a, b)
  end.
Fixpoint splitn (n : nat) (sep : Z) (l : bytes) : list bytes :=
  match n with
  | O => []
  | S O => [l]
  | S n => match split_once sep l with Some (a, b) => a :: splitn n sep b | None => [l] end
  end.

(** ** [lines()]: pieces that end after a line feed, without it and without a carriage return before it *)
Fixpoint split_inclusive (sep : Z) (l : bytes) : list bytes :=
  match l with
  | [] => []
  | c :: l =>
      if c =? sep then [c] :: split_inclusive sep l
      else match split_inclusive sep l with
      | [] => [[c]]
      | piece :: pieces => (c :: piece) :: pieces
      end
  end.
Definition LF : Z := 10.
Definition CR : Z := 13.
Definition line_of (piece : bytes) : bytes :=
  match strip_suffix LF piece with
  | None => piece
  | Some line => default line (strip_suffix CR line)
  end.
Definition lines (l : bytes) : list bytes := line_of <$> split_inclusive LF l.

(** ** [char::is_whitespace]: the length of the white-space character at the start, if there is one

    U+0009..U+000D, U+0020, U+0085, U+00A0, U+1680, U+2000..U+200A, U+2028, U+2029, U+202F, U+205F, U+3000. *)
Definition white_2 (c d : Z) : bool := (c =? 0xc2) && ((d =? 0x85) || (d =? 0xa0)).
Definition white_3 (c d e : Z) : bool :=
  ((c =? 0xe1) && (d =? 0x9a) && (e =? 0x80)) ||
  ((c =? 0xe2) && (d =? 0x80) && (in_range 0x80 0x8a e || (e =? 0xa8) || (e =? 0xa9) || (e =? 0xaf))) ||
  ((c =? 0xe2) && (d =? 0x81) && (e =? 0x9f)) ||
  ((c =? 0xe3) && (d =? 0x80) && (e =? 0x80)).
Definition white_len (l : bytes) : nat :=
  match l with
  | [] => 0
  | c :: r =>
      if in_range 9 13 c || (c =? 32) then 1
      else match r with
      | [] => 0
      | d :: r => if white_2 c d then 2 else match r with [] => 0 | e :: _ => if white_3 c d e then 3 else 0 end
      end
  end.

(** Each octet with whether it belongs to white space. *)
Fixpoint mark (skip : nat) (l : bytes) : list (bool * Z) :=
  match l with
  | [] => []
  | c :: r =>
      match skip with
      | S k => (true, c) :: mark k r
      | O => match white_len l with S k => (true, c) :: mark k r | O => (false, c) :: mark 0 r end
      end
  end.

(** ** [split_whitespace()] and [trim()] *)
Fixpoint words_of (l : list (bool * Z)) : list bytes :=
  match l with
  | [] => [[]]
  | (true, _) :: l => [] :: words_of l
  | (false, c) :: l => match words_of l with [] => [[c]] | w :: ws => (c :: w) :: ws end
  end.
Definition split_whitespace (l : bytes) : list bytes := filter (fun w => w <> []) (words_of (mark 0 l)).

Fixpoint skip_white (l : list (bool * Z)) : list (bool * Z) :=
  match l with (true, _) :: l => skip_white l | _ => l end.
Definition trim (l : bytes) : bytes := snd <$> reverse (skip_white (reverse (skip_white (mark 0 l)))).

(** ** Decimal numbers: [to_string] of an unsigned integer and [parse] *)
Fixpoint decimal (fuel : nat) (n : Z) : bytes :=
  match fuel with
  | O => []
  | S fuel => if n <? 10 then [48 + n] else decimal fuel (n / 10) ++ [48 + n mod 10]
  end.
Definition show (n : Z) : bytes := decimal 39 n.
Definition parse_int (w : Z) (l : bytes) : option Z := from_str_radix w 10 l.

(** ** Facts *)
Lemma strip_suffix_snoc c l : strip_suffix c (l ++ [c]) = Some l.
Proof. unfold strip_suffix. rewrite reverse_snoc, Z.eqb_refl. by rewrite reverse_involutive. Qed.

Lemma strip_suffix_Some c l l' : strip_suffix c l = Some l' -> l = l' ++ [c].
Proof.
  unfold strip_suffix. destruct (reverse l) as [|x r] eqn:E; [done|]. destruct (Z.eqb_spec x c) as [->|]; [|done]. intros [= <-].
  by rewrite <- (reverse_involutive l), E, reverse_cons.
Qed.

Lemma strip_suffix_absent c l : c ∉ l -> strip_suffix c l = None.
Proof. intros Hc. destruct (strip_suffix c l) as [l'|] eqn:E; [|done]. apply strip_suffix_Some in E as ->. set_solver. Qed.

Lemma split_once_Some sep l a b : split_once sep l = Some (a, b) <-> l = a ++ sep :: b /\ sep ∉ a.
Proof.
  revert a b. induction l as [|c l IH]; intros a b; cbn.
  { split; [done|]. intros [E _]. by destruct a. }
  destruct (Z.eqb_spec c sep) as [->|Hc].
  - split.
    + intros [= <- <-]. split; [done|apply not_elem_of_nil].
    + intros [E Ha]. destruct a as [|x a]; cbn in E; [by simplify_eq|]. injection E as <- _. destruct Ha. left.
  - split.
    + intros H. apply bind_Some in H as ([a' b'] & H & E). injection E as <- <-. apply IH in H as [-> Ha]. split; [done|]. by apply not_elem_of_cons.
    + intros [E Ha]. destruct a as [|x a]; cbn in E; [by injection E as ->|]. injection E as <- E. apply not_elem_of_cons in Ha as [_ Ha].
      by rewrite (proj2 (IH a b)).
Qed.

Lemma split_once_absent sep l : sep ∉ l -> split_once sep l = None.
Proof. intros H. destruct (split_once sep l) as [[a b]|] eqn:E; [|done]. apply split_once_Some in E as [-> _]. set_solver. Qed.

(** A text whose lines all end in CR LF is read back line by line. *)
Definition crlf_lines (ls : list bytes) : bytes := ls ≫= fun l => l ++ [CR; LF].

Lemma split_inclusive_app sep l r : sep ∉ l -> split_inclusive sep (l ++ sep :: r) = (l ++ [sep]) :: split_inclusive sep r.
Proof.
  induction l as [|c l IH]; intros H; cbn; [by rewrite Z.eqb_refl|]. apply not_elem_of_cons in H as [Hc H].
  rewrite (proj2 (Z.eqb_neq c sep)) by done. by rewrite IH.
Qed.

Lemma lines_crlf ls : Forall (fun l => LF ∉ l) ls -> lines (crlf_lines ls) = ls.
Proof.
  unfold lines, crlf_lines. induction 1 as [|l ls Hl _ IH]; [done|]. rewrite bind_cons.
  replace ((l ++ [CR; LF]) ++ (ls ≫= fun l => l ++ [CR; LF])) with ((l ++ [CR]) ++ LF :: (ls ≫= fun l => l ++ [CR; LF])) by by rewrite <- !app_assoc.
  rewrite split_inclusive_app by (rewrite elem_of_app, list_elem_of_singleton; intros [|]; done). cbn. f_equal; [|done].
  unfold line_of. by rewrite !strip_suffix_snoc.
Qed.

(** The octets of a line, and that it has no line feed. *)
Lemma split_inclusive_pieces sep l :
  Forall (fun p => exists q, (sep ∉ q) /\ (p = q \/ p = q ++ [sep])) (split_inclusive sep l).
Proof.
  induction l as [|c l IH]; cbn; [constructor|]. destruct (Z.eqb_spec c sep) as [->|Hc].
  - constructor; [|done]. exists []. split; [apply not_elem_of_nil|by right].
  - destruct IH as [|p ps (q & Hq & Hp) Hps]; constructor.
    + exists [c]. split; [|by left]. rewrite list_elem_of_singleton. congruence.
    + constructor.
    + exists (c :: q). split; [apply not_elem_of_cons; split; [congruence|done]|]. destruct Hp as [->| ->]; [by left|by right].
    + done.
Qed.

Lemma lines_free l : Forall (fun p => LF ∉ p) (lines l).
Proof.
  unfold lines. apply Forall_fmap. eapply Forall_impl; [apply split_inclusive_pieces|].
  intros p (q & Hq & Hp). cbn. unfold line_of. destruct Hp as [->| ->].
  - by rewrite strip_suffix_absent.
  - rewrite strip_suffix_snoc. destruct (strip_suffix CR q) as [q'|] eqn:E; [|done]. apply strip_suffix_Some in E as ->. cbn. set_solver.
Qed.

(** ** Words *)
Definition white (x : bool * Z) : Prop := x.1 = true.
Definition word (w : bytes) : Prop := w <> [] /\ Forall (fun x => x.1 = false) (mark 0 w).

Lemma white_len_app l r : white_len l <> 0%nat -> white_len (l ++ r) = white_len l.
Proof.
  destruct l as [|c [|d [|e l]]]; cbn; try done; repeat case_match; done.
Qed.

(** A space does not complete a white-space character. *)
Lemma white_len_space l r : l <> [] -> white_len l = 0%nat -> white_len (l ++ 32 :: r) = 0%nat.
Proof.
  assert (forall c, white_2 c 32 = false) as H2 by (intros c; unfold white_2; by rewrite andb_false_r).
  assert (forall c e, white_3 c 32 e = false) as H3 by (intros c e; unfold white_3; cbn; by rewrite !andb_false_r).
  assert (forall c d, white_3 c d 32 = false) as H4 by (intros c d; unfold white_3; cbn; by rewrite !andb_false_r).
  destruct l as [|c [|d [|e l]]]; cbn; try done; intros _.
  - rewrite H2. case_match; [done|]. destruct r as [|e r]; [done|]. by rewrite H3.
  - rewrite H4. by repeat case_match.
Qed.

Lemma word_cons c w : Forall (fun x => x.1 = false) (mark 0 (c :: w)) <-> white_len (c :: w) = 0%nat /\ Forall (fun x => x.1 = false) (mark 0 w).
Proof.
  cbn [mark]. destruct (white_len (c :: w)) as [|k]; rewrite Forall_cons; cbn; naive_solver.
Qed.

Lemma words_of_word w rest : Forall (fun x => x.1 = false) (mark 0 w) -> words_of (mark 0 (w ++ 32 :: rest)) = w :: words_of (mark 0 rest).
Proof.
  induction w as [|c w IH]; intros H; [done|]. apply word_cons in H as [Hc Hw].
  change ((c :: w) ++ 32 :: rest) with (c :: (w ++ 32 :: rest)). cbn [mark].
  change (c :: (w ++ 32 :: rest)) with ((c :: w) ++ 32 :: rest). rewrite white_len_space by done. cbn [words_of]. by rewrite IH.
Qed.

Lemma words_of_last w : Forall (fun x => x.1 = false) (mark 0 w) -> words_of (mark 0 w) = [w].
Proof.
  induction w as [|c w IH]; intros H; [done|]. pose proof H as [Hc Hw]%word_cons. cbn [mark]. rewrite Hc. cbn [words_of]. by rewrite IH.
Qed.

Lemma split_whitespace_join ws : Forall word ws -> split_whitespace (join 32 ws) = ws.
Proof.
  unfold split_whitespace. induction 1 as [|w ws [Hne Hw] Hws IH]; [done|]. cbn [join]. destruct ws as [|w' ws].
  - rewrite words_of_last by done. by rewrite filter_cons_True.
  - rewrite words_of_word by done. rewrite filter_cons_True by done. by rewrite IH.
Qed.

(** The words of a text: maximal runs without white space. *)
Lemma words_of_nonempty l : words_of l <> [].
Proof. destruct l as [|[[] c] l]; cbn; [done|done|]. by destruct (words_of l). Qed.

Lemma words_of_head_prefix l w ws : words_of (mark 0 l) = w :: ws -> w `prefix_of` l.
Proof.
  revert w ws. induction l as [|c l IH]; intros w ws H; [injection H as <- _; apply prefix_nil|]. cbn [mark] in H.
  destruct (white_len (c :: l)) as [|k]; cbn [words_of] in H; [|injection H as <- _; apply prefix_nil].
  destruct (words_of (mark 0 l)) as [|w' ws'] eqn:E; [by apply words_of_nonempty in E|]. injection H as <- _. by apply prefix_cons, (IH w' ws').
Qed.

Lemma words_of_words k l : Forall (fun w => Forall (fun x => x.1 = false) (mark 0 w)) (words_of (mark k l)).
Proof.
  revert k. induction l as [|c l IH]; intros k; cbn [mark]; [repeat constructor|].
  destruct k as [|k]; [|cbn [words_of]; constructor; [constructor|apply IH]].
  destruct (white_len (c :: l)) as [|k] eqn:Hc; cbn [words_of]; [|constructor; [constructor|apply IH]].
  specialize (IH 0%nat). destruct (words_of (mark 0 l)) as [|w ws] eqn:E; [by apply words_of_nonempty in E|]. inversion_clear IH as [|? ? Hw Hws].
  constructor; [|done]. apply word_cons. split; [|done]. destruct (words_of_head_prefix l w ws E) as [r ->].
  destruct (white_len (c :: w)) as [|n] eqn:Hn; [done|]. change (c :: w ++ r) with ((c :: w) ++ r) in Hc. rewrite white_len_app in Hc by (by rewrite Hn). congruence.
Qed.

Lemma split_whitespace_words l : Forall word (split_whitespace l).
Proof.
  unfold split_whitespace. apply Forall_forall. intros w Hw. apply list_elem_of_filter in Hw as [Hne Hw]. split; [done|].
  pose proof (words_of_words 0 l) as H. rewrite Forall_forall in H. auto.
Qed.

(** No word has a control or space octet. *)
Lemma word_free w c : word w -> in_range 9 13 c = true \/ c = 32 -> c ∉ w.
Proof.
  intros [_ Hw] Hc. induction w as [|x w IH]; [apply not_elem_of_nil|]. apply word_cons in Hw as [Hx Hw]. apply not_elem_of_cons. split; [|by apply IH].
  intros ->. cbn in Hx. destruct Hc as [Hc| ->]; [by rewrite Hc in Hx|done].
Qed.

(** ** Decimal numbers *)
Lemma digits_value_app w radix acc a b : digits_value w radix acc (a ++ b) = (v ← digits_value w radix acc a; digits_value w radix v b).
Proof.
  revert acc. induction a as [|c a IH]; intros acc; [done|]. cbn [app digits_value]. destruct (checked_mul w acc radix) as [s|]; [|done]. cbn [mbind option_bind].
  destruct (to_digit radix c) as [d|]; [|done]. cbn [mbind option_bind]. destruct (checked_add w s d) as [v|]; [|done]. apply IH.
Qed.

Lemma to_digit_decimal d : 0 <= d < 10 -> to_digit 10 (48 + d) = Some d.
Proof.
  intros Hd. unfold to_digit. replace ((48 <=? 48 + d) && (48 + d <=? 57)) with true by lia. cbn [mbind option_bind].
  replace (48 + d - 48) with d by lia. by replace (d <? 10) with true by lia.
Qed.

Lemma decimal_digits fuel n : 0 <= n -> Forall (fun c => 48 <= c <= 57) (decimal fuel n).
Proof.
  revert n. induction fuel as [|fuel IH]; intros n Hn; cbn; [constructor|]. destruct (Z.ltb_spec n 10); [repeat constructor; lia|].
  apply Forall_app. split; [apply IH; apply Z.div_pos; lia|]. pose proof (Z.mod_pos_bound n 10 ltac:(lia)). repeat constructor; lia.
Qed.

Lemma digits_value_decimal w fuel n : 0 <= n < 10 ^ Z.of_nat fuel -> n <= umax w -> digits_value w 10 0 (decimal fuel n) = Some n.
Proof.
  revert n. induction fuel as [|fuel IH]; intros n Hn Hw; [cbn in *; f_equal; lia|]. cbn [decimal]. destruct (Z.ltb_spec n 10).
  - cbn [digits_value]. unfold checked_mul, checked_add. rewrite Z.mul_0_l, to_digit_decimal by lia. cbn [mbind option_bind].
    replace (0 <=? umax w) with true by lia. cbn [mbind option_bind]. by replace (0 + n <=? umax w) with true by lia.
  - rewrite digits_value_app, IH; [| |pose proof (Z.div_le_upper_bound n 10 n); lia].
    2: { split; [apply Z.div_pos; lia|]. apply Z.div_lt_upper_bound; [lia|]. rewrite Nat2Z.inj_succ, Z.pow_succ_r in Hn by lia. lia. }
    pose proof (Z.mod_pos_bound n 10 ltac:(lia)). pose proof (Z.div_mod n 10 ltac:(lia)). cbn [mbind option_bind digits_value]. unfold checked_mul, checked_add.
    rewrite to_digit_decimal by lia. replace (n / 10 * 10 <=? umax w) with true by lia. cbn [mbind option_bind].
    replace (n / 10 * 10 + n mod 10) with n by lia. by replace (n <=? umax w) with true by lia.
Qed.

Lemma decimal_nonempty fuel n : decimal (S fuel) n <> [].
Proof. cbn. destruct (n <? 10); [done|]. by destruct (decimal fuel (n / 10)). Qed.

Lemma parse_show w n : 0 <= w <= 128 -> fits w n -> parse_int w (show n) = Some n.
Proof.
  intros Hw [H0 H1]. assert (n < 10 ^ Z.of_nat 39) as Hn.
  { apply (Z.lt_le_trans _ (2 ^ 128)); [|by vm_compute]. apply (Z.lt_le_trans _ (2 ^ w)); [done|]. apply Z.pow_le_mono_r; lia. }
  pose proof (digits_value_decimal w 39 n ltac:(lia) ltac:(unfold umax; lia)) as Hd. pose proof (decimal_digits 39 n H0) as Hdig.
  unfold parse_int, from_str_radix, show. destruct (decimal 39 n) as [|c rest] eqn:E; [by apply decimal_nonempty in E|].
  inversion_clear Hdig as [|? ? Hc _]. rewrite (proj2 (Z.eqb_neq c 0x2b)), (proj2 (Z.eqb_neq c 0x2d)) by lia. done.
Qed.

Lemma show_free n c : 0 <= n -> ~ 48 <= c <= 57 -> c ∉ show n.
Proof. intros Hn Hc Hin. pose proof (decimal_digits 39 n Hn) as H. rewrite Forall_forall in H. by apply Hc, H. Qed.

Lemma show_word n : 0 <= n -> word (show n).
Proof.
  intros Hn. split; [apply decimal_nonempty|]. unfold show. pose proof (decimal_digits 39 n Hn) as H.
  induction H as [|c l Hc Hl IH]; [constructor|]. apply word_cons. split; [|done]. cbn. unfold in_range.
  replace ((9 <=? c) && (c <=? 13) || (c =? 32)) with false by lia. destruct l as [|d l]; [done|]. unfold white_2. rewrite (proj2 (Z.eqb_neq c 0xc2)) by lia. cbn.
  destruct l as [|e l]; [done|]. unfold white_3. by rewrite (proj2 (Z.eqb_neq c 0xe1)), (proj2 (Z.eqb_neq c 0xe2)), (proj2 (Z.eqb_neq c 0xe3)) by lia.
Qed.
