(* ===== verification/Sdp.v ===== *)
(** * webrtc/sdp: parsing offers, validating them and writing answers (src/parser.rs, src/model.rs, src/answer.rs, src/error.rs)

    A document is read line by line into a session description; the WebRTC conditions are a separate
    check; an answer is written as text, section by section in the order of the offer.  [writeln!] into a
    [String] does not fail. *)
From S2P Require Import Prelude Words Slices RustStd RustStr RustText.

Definition MAX_SDP_BYTES : Z := 256 * 1024.
Definition MAX_LINE_BYTES : Z := 4096.
Definition MAX_ANSWER_BYTES : Z := 256 * 1024.

(** ** Errors *)
Inductive SdpErrorKind :=
| DocumentTooLarge (n : Z)
| LineTooLong (n : Z)
| InvalidLine
| MissingSessionField (field : bytes)
| UnsupportedVersion (version : bytes)
| InvalidMediaLine
| InvalidNumber (value : bytes)
| InvalidAttribute (name reason : bytes)
| MediaLineWithoutMedia (prefix : Z)
| DuplicateMid (mid : bytes)
| MissingMid
| UnknownBundleMid (mid : bytes)
| MediaNotBundled (mid : bytes)
| MissingRtcpMux (mid : bytes)
| MissingIceCredentials (mid : bytes)
| MissingFingerprint (mid : bytes)
| InvalidSetupRole (mid : bytes)
| NoCompatibleCodec (mid : bytes)
| InvalidPayloadType (value : bytes)
| InvalidRtpMap (value : bytes)
| AnswerTooLarge.
Record SdpError := { line : option Z; kind_of : SdpErrorKind }.
Definition new_error (kind : SdpErrorKind) : SdpError := {| line := None; kind_of := kind |}.
Definition at_line (line : Z) (kind : SdpErrorKind) : SdpError := {| line := Some line; kind_of := kind |}.

(** ** The model *)
Record Attribute := { attr_name : bytes; attr_value : option bytes }.

Inductive MediaKind := Audio | Video | Application | Other (value : bytes).
Definition parse_media_kind (value : bytes) : MediaKind :=
  if bool_decide (value = octets "audio") then Audio
  else if bool_decide (value = octets "video") then Video
  else if bool_decide (value = octets "application") then Application
  else Other value.
Definition media_kind_str (self : MediaKind) : bytes :=
  match self with Audio => octets "audio" | Video => octets "video" | Application => octets "application" | Other value => value end.
Definition is_rtp (self : MediaKind) : bool := match self with Audio | Video => true | Application | Other _ => false end.

Inductive Direction := SendRecv | SendOnly | RecvOnly | Inactive.
Definition reciprocal (self : Direction) : Direction :=
  match self with SendRecv => SendRecv | SendOnly => RecvOnly | RecvOnly => SendOnly | Inactive => Inactive end.
Definition direction_str (self : Direction) : bytes :=
  match self with SendRecv => octets "sendrecv" | SendOnly => octets "sendonly" | RecvOnly => octets "recvonly" | Inactive => octets "inactive" end.

Inductive SetupRole := ActPass | Active | Passive | HoldConn.
Definition parse_setup (value : bytes) : option SetupRole :=
  if bool_decide (value = octets "actpass") then Some ActPass
  else if bool_decide (value = octets "active") then Some Active
  else if bool_decide (value = octets "passive") then Some Passive
  else if bool_decide (value = octets "holdconn") then Some HoldConn
  else None.

Record RtpCodec := {
  payload_type : Z; codec_name : bytes; clock_rate : Z; channels : Z; fmtp : option bytes; rtcp_feedback : list bytes }.
Record ExtMap := { ext_id : Z; ext_direction : option Direction; uri : bytes; ext_attributes : option bytes }.
Record Rid := { rid_id : bytes; rid_direction : Direction; restrictions : option bytes }.
Record MediaDescription := {
  media_kind : MediaKind; port : Z; protocol : bytes; formats : list bytes; media_connection : option bytes; media_attributes : list Attribute }.
Record SessionDescription := {
  version : bytes; origin : bytes; session_name : bytes; timing : bytes; session_connection : option bytes;
  session_attributes : list Attribute; media : list MediaDescription }.

(** ** The parser *)
Record SessionBuilder := {
  b_version : option bytes; b_origin : option bytes; b_session_name : option bytes; b_timing : option bytes;
  b_connection : option bytes; b_attributes : list Attribute; b_media : list MediaDescription }.
Definition default_builder : SessionBuilder :=
  {| b_version := None; b_origin := None; b_session_name := None; b_timing := None; b_connection := None; b_attributes := []; b_media := [] |}.

Definition duplicate (line_number : Z) (name reason : string) : SdpError := at_line line_number (InvalidAttribute (octets name) (octets reason)).
Definition set_once (target : option bytes) (value : bytes) (line_number : Z) (field : string) : outcome SdpError (option bytes) :=
  _ ← reject_if (bool_decide (is_Some target)) (duplicate line_number field "duplicate session field");
  Ok (Some value).

(** [builder.media.last_mut()], replaced. *)
Definition with_last (builder : SessionBuilder) (m : MediaDescription) : SessionBuilder :=
  {| b_version := b_version builder; b_origin := b_origin builder; b_session_name := b_session_name builder; b_timing := b_timing builder;
     b_connection := b_connection builder; b_attributes := b_attributes builder;
     b_media := <[(length (b_media builder) - 1)%nat := m]> (b_media builder) |}.
Definition with_media (builder : SessionBuilder) (ms : list MediaDescription) : SessionBuilder :=
  {| b_version := b_version builder; b_origin := b_origin builder; b_session_name := b_session_name builder; b_timing := b_timing builder;
     b_connection := b_connection builder; b_attributes := b_attributes builder; b_media := ms |}.
Definition with_attribute (builder : SessionBuilder) (a : Attribute) : SessionBuilder :=
  {| b_version := b_version builder; b_origin := b_origin builder; b_session_name := b_session_name builder; b_timing := b_timing builder;
     b_connection := b_connection builder; b_attributes := b_attributes builder ++ [a]; b_media := b_media builder |}.
Definition with_session (builder : SessionBuilder) (v o s t c : option bytes) : SessionBuilder :=
  {| b_version := v; b_origin := o; b_session_name := s; b_timing := t; b_connection := c;
     b_attributes := b_attributes builder; b_media := b_media builder |}.

Definition set_connection (builder : SessionBuilder) (line_number : Z) (value : bytes) : outcome SdpError SessionBuilder :=
  match last (b_media builder) with
  | Some m =>
      _ ← reject_if (bool_decide (is_Some (media_connection m))) (duplicate line_number "c" "duplicate media connection");
      Ok (with_last builder {| media_kind := media_kind m; port := port m; protocol := protocol m; formats := formats m;
            media_connection := Some value; media_attributes := media_attributes m |})
  | None =>
      c ← set_once (b_connection builder) value line_number "session connection";
      Ok (with_session builder (b_version builder) (b_origin builder) (b_session_name builder) (b_timing builder) c)
  end.

Definition push_attribute (builder : SessionBuilder) (value : bytes) : outcome SdpError SessionBuilder :=
  let '(name, value) := match split_once 0x3a value with Some (name, value) => (name, Some value) | None => (value, None) end in
  _ ← reject_if (len name =? 0) (new_error (InvalidAttribute [] (octets "empty attribute name")));
  let attribute := {| attr_name := name; attr_value := value |} in
  Ok match last (b_media builder) with
  | Some m => with_last builder {| media_kind := media_kind m; port := port m; protocol := protocol m; formats := formats m;
      media_connection := media_connection m; media_attributes := media_attributes m ++ [attribute] |}
  | None => with_attribute builder attribute
  end.

Definition push_media (builder : SessionBuilder) (line_number : Z) (value : bytes) : outcome SdpError SessionBuilder :=
  let tokens := split_whitespace value in
  let kind := parse_media_kind <$> tokens !! 0%nat in
  let port := tokens !! 1%nat ≫= parse_int 16 in
  let protocol := tokens !! 2%nat in
  let formats := drop 3 tokens in
  match kind, port, protocol with
  | Some kind, Some port, Some protocol =>
      _ ← reject_if (bool_decide (formats = [])) (at_line line_number InvalidMediaLine);
      Ok (with_media builder (b_media builder ++ [{| media_kind := kind; port := port; protocol := protocol; formats := formats;
            media_connection := None; media_attributes := [] |}]))
  | _, _, _ => Err (at_line line_number InvalidMediaLine)
  end.

(** [bytes\[0\]] after the length check; [line.get(2..)] is absent when octet 2 is not a character boundary,
    which a line whose octet 1 is ['='] does not have. *)
Definition parse_line (builder : SessionBuilder) (line_number : Z) (line : bytes) : outcome SdpError SessionBuilder :=
  match line with
  | prefix :: eq :: value =>
      _ ← reject_if (negb (eq =? 0x3d)) (at_line line_number InvalidLine);
      let v := b_version builder in let o := b_origin builder in let s := b_session_name builder in
      let t := b_timing builder in let c := b_connection builder in
      if prefix =? 0x76 then v ← set_once v value line_number "v"; Ok (with_session builder v o s t c)
      else if prefix =? 0x6f then o ← set_once o value line_number "o"; Ok (with_session builder v o s t c)
      else if prefix =? 0x73 then s ← set_once s value line_number "s"; Ok (with_session builder v o s t c)
      else if prefix =? 0x74 then t ← set_once t value line_number "t"; Ok (with_session builder v o s t c)
      else if prefix =? 0x63 then set_connection builder line_number value
      else if prefix =? 0x61 then push_attribute builder value
      else if prefix =? 0x6d then push_media builder line_number value
      else if (prefix =? 0x69) || (prefix =? 0x62) || (prefix =? 0x6b) then
        _ ← reject_if (bool_decide (b_media builder = [])) (at_line line_number (MediaLineWithoutMedia prefix)); Ok builder
      else Ok builder
  | _ => Err (at_line line_number InvalidLine)
  end.

(** [for (index, raw_line) in input.lines().enumerate()] *)
Fixpoint parse_lines (builder : SessionBuilder) (line_number : Z) (lines : list bytes) : outcome SdpError SessionBuilder :=
  match lines with
  | [] => Ok builder
  | raw_line :: lines =>
      let line := default raw_line (strip_suffix CR raw_line) in
      if len line =? 0 then parse_lines builder (line_number + 1) lines
      else
        _ ← reject_if (MAX_LINE_BYTES <? len line) (at_line line_number (LineTooLong (len line)));
        builder ← parse_line builder line_number line;
        parse_lines builder (line_number + 1) lines
  end.

Definition missing (field : string) : SdpError := new_error (MissingSessionField (octets field)).
Definition finish (builder : SessionBuilder) : outcome SdpError SessionDescription :=
  version ← ok_or (b_version builder) (missing "v");
  _ ← reject_if (negb (bool_decide (version = octets "0"))) (new_error (UnsupportedVersion version));
  origin ← ok_or (b_origin builder) (missing "o");
  session_name ← ok_or (b_session_name builder) (missing "s");
  timing ← ok_or (b_timing builder) (missing "t");
  Ok {| version := version; origin := origin; session_name := session_name; timing := timing; session_connection := b_connection builder;
        session_attributes := b_attributes builder; media := b_media builder |}.

Definition parse (input : bytes) : outcome SdpError SessionDescription :=
  _ ← reject_if (MAX_SDP_BYTES <? len input) (new_error (DocumentTooLarge (len input)));
  builder ← parse_lines default_builder 1 (lines input);
  finish builder.

(** ** Queries *)
Definition named (name : bytes) (a : Attribute) : bool := bool_decide (attr_name a = name).
Definition first_value (attributes : list Attribute) (name : bytes) : option bytes :=
  a ← find (named name) attributes; attr_value a.
Definition media_attribute (self : MediaDescription) (name : bytes) : option bytes := first_value (media_attributes self) name.
Definition session_attribute (self : SessionDescription) (name : bytes) : option bytes := first_value (session_attributes self) name.
Definition has_attribute (self : MediaDescription) (name : bytes) : bool := existsb (named name) (media_attributes self).
Definition mid (self : MediaDescription) : option bytes := media_attribute self (octets "mid").

Definition direction_of_name (name : bytes) : option Direction :=
  if bool_decide (name = octets "sendrecv") then Some SendRecv
  else if bool_decide (name = octets "sendonly") then Some SendOnly
  else if bool_decide (name = octets "recvonly") then Some RecvOnly
  else if bool_decide (name = octets "inactive") then Some Inactive
  else None.
Definition direction (self : MediaDescription) : Direction :=
  default SendRecv (head (omap (fun a => direction_of_name (attr_name a)) (media_attributes self))).

Definition values_of (attributes : list Attribute) (name : bytes) : list bytes := omap attr_value (List.filter (named name) attributes).
Definition attribute_values (self : MediaDescription) (name : bytes) : list bytes := values_of (media_attributes self) name.
Definition split_attribute_target (value : bytes) : option (bytes * bytes) := split_once 0x20 value.
Definition targeted (self : MediaDescription) (name : bytes) : list (bytes * bytes) := omap split_attribute_target (attribute_values self name).

Definition attribute_map (self : MediaDescription) (name : bytes) : gmap bytes bytes :=
  foldl (fun m kv => <[kv.1 := kv.2]> m) ∅ (targeted self name).
Definition attribute_multimap (self : MediaDescription) (name : bytes) : gmap bytes (list bytes) :=
  foldl (fun m kv => <[kv.1 := default [] (m !! kv.1) ++ [kv.2]]> m) ∅ (targeted self name).
Definition find_prefixed_attribute (attributes : list Attribute) (name target : bytes) : option bytes :=
  snd <$> find (fun kv => bool_decide (kv.1 = target)) (omap split_attribute_target (values_of attributes name)).

Definition parse_payload_type (value : bytes) : outcome SdpError Z :=
  ok_or (n ← parse_int 8 value; if n <=? 127 then Some n else None) (new_error (InvalidPayloadType value)).

Definition parse_rtpmap (value : bytes) : outcome SdpError (bytes * Z * Z) :=
  let parts := split 0x2f value in
  let invalid := new_error (InvalidRtpMap value) in
  let name := name ← parts !! 0%nat; if len name =? 0 then None else Some name in
  let clock_rate := parts !! 1%nat ≫= parse_int 32 in
  let channels := match parts !! 2%nat with None => Some 1 | Some value => parse_int 16 value end in
  _ ← reject_if (bool_decide (is_Some (parts !! 3%nat))) invalid;
  match name, clock_rate, channels with
  | Some name, Some clock_rate, Some channels => if (0 <? clock_rate) && (0 <? channels) then Ok (name, clock_rate, channels) else Err invalid
  | _, _, _ => Err invalid
  end.

Definition codec_of (self : MediaDescription) (format : bytes) : outcome SdpError (option RtpCodec) :=
  payload_type ← parse_payload_type format;
  match find_prefixed_attribute (media_attributes self) (octets "rtpmap") format with
  | None => if payload_type <? 96 then Ok None else Err (new_error (InvalidRtpMap format))
  | Some rtpmap =>
      '(name, clock_rate, channels) ← parse_rtpmap rtpmap;
      let feedback := attribute_multimap self (octets "rtcp-fb") in
      Ok (Some {| payload_type := payload_type; codec_name := name; clock_rate := clock_rate; channels := channels;
                  fmtp := attribute_map self (octets "fmtp") !! format;
                  rtcp_feedback := default [] (feedback !! format) ++ default [] (feedback !! octets "*") |})
  end.
(** [for format in &self.formats] *)
Fixpoint codecs_loop (self : MediaDescription) (formats : list bytes) (codecs : list RtpCodec) : outcome SdpError (list RtpCodec) :=
  match formats with
  | [] => Ok codecs
  | format :: formats =>
      codec ← codec_of self format;
      codecs_loop self formats (codecs ++ option_list codec)
  end.
Definition codecs (self : MediaDescription) : outcome SdpError (list RtpCodec) := codecs_loop self (formats self) [].

(** [fmtp.split(';').find_map(|item| …)] of the first item named [apt] whose value is a number. *)
Definition apt_of (item : bytes) : option Z :=
  '(name, value) ← split_once 0x3d (trim item);
  if eq_ignore_ascii_case (trim name) (octets "apt") then parse_int 8 (trim value) else None.
Definition associated_payload_type (self : RtpCodec) : option Z :=
  if negb (eq_ignore_ascii_case (codec_name self) (octets "rtx")) then None
  else fmtp ← fmtp self; head (omap apt_of (split 0x3b fmtp)).

Definition invalid_attribute (name reason : string) : SdpError := new_error (InvalidAttribute (octets name) (octets reason)).
Definition parse_direction (value : bytes) : outcome SdpError Direction :=
  ok_or (direction_of_name value) (invalid_attribute "direction" "unknown direction").

Definition parse_extmap (attribute : Attribute) : outcome SdpError ExtMap :=
  value ← ok_or (attr_value attribute) (invalid_attribute "extmap" "missing value");
  let tokens := split_whitespace value in
  let id_and_direction := default [] (tokens !! 0%nat) in
  let uri := default [] (tokens !! 1%nat) in
  _ ← reject_if ((len id_and_direction =? 0) || (len uri =? 0)) (invalid_attribute "extmap" "expected id and URI");
  '(id, direction) ← match split_once 0x2f id_and_direction with
    | Some (id, direction) => direction ← parse_direction direction; Ok (id, Some direction)
    | None => Ok (id_and_direction, None)
    end;
  id ← ok_or (n ← parse_int 8 id; if 0 <? n then Some n else None) (invalid_attribute "extmap" "invalid ID");
  let remaining := join 0x20 (drop 2 tokens) in
  Ok {| ext_id := id; ext_direction := direction; uri := uri; ext_attributes := if len remaining =? 0 then None else Some remaining |}.

Definition parse_rid (attribute : Attribute) : outcome SdpError Rid :=
  value ← ok_or (attr_value attribute) (invalid_attribute "rid" "missing value");
  let tokens := splitn 3 0x20 value in
  let id := default [] (tokens !! 0%nat) in
  let direction := default [] (tokens !! 1%nat) in
  _ ← reject_if (len id =? 0) (invalid_attribute "rid" "missing RID ID");
  direction ← (if bool_decide (direction = octets "send") then Ok SendOnly
               else if bool_decide (direction = octets "recv") then Ok RecvOnly
               else Err (invalid_attribute "rid" "direction must be send or recv"));
  Ok {| rid_id := id; rid_direction := direction; restrictions := tokens !! 2%nat |}.

(** [map(…).collect::<Result<Vec<_>, _>>()] *)
Fixpoint collect {A B} (f : A -> outcome SdpError B) (l : list A) : outcome SdpError (list B) :=
  match l with
  | [] => Ok []
  | x :: l => y ← f x; ys ← collect f l; Ok (y :: ys)
  end.
Definition extmaps (self : MediaDescription) : outcome SdpError (list ExtMap) :=
  collect parse_extmap (List.filter (named (octets "extmap")) (media_attributes self)).
Definition rids (self : MediaDescription) : outcome SdpError (list Rid) :=
  collect parse_rid (List.filter (named (octets "rid")) (media_attributes self)).

Definition bundle_group (value : bytes) : option (list bytes) :=
  match split_whitespace value with
  | semantics :: mids => if eq_ignore_ascii_case semantics (octets "BUNDLE") then Some mids else None
  | [] => None
  end.
Definition bundle_mids (self : SessionDescription) : list bytes :=
  default [] (head (omap bundle_group (values_of (session_attributes self) (octets "group")))).

(** ** Validation of an offer *)
Definition effective_attribute (self : SessionDescription) (m : MediaDescription) (name : bytes) : option bytes :=
  match media_attribute m name with Some v => Some v | None => session_attribute self name end.
Definition is_none {A} (o : option A) : bool := match o with None => true | Some _ => false end.

Definition validate_media (self : SessionDescription) (m : MediaDescription) (mid : bytes) : outcome SdpError unit :=
  if port m =? 0 then Ok tt
  else
    _ ← reject_if (is_none (effective_attribute self m (octets "ice-ufrag")) || is_none (effective_attribute self m (octets "ice-pwd")))
          (new_error (MissingIceCredentials mid));
    _ ← reject_if (is_none (effective_attribute self m (octets "fingerprint"))) (new_error (MissingFingerprint mid));
    _ ← reject_if (negb match effective_attribute self m (octets "setup") ≫= parse_setup with Some (ActPass | Active) => true | _ => false end)
          (new_error (InvalidSetupRole mid));
    if is_rtp (media_kind m) then
      _ ← reject_if (negb (has_attribute m (octets "rtcp-mux"))) (new_error (MissingRtcpMux mid));
      _ ← codecs m;
      Ok tt
    else Ok tt.

(** [for media in &self.media]; the value is [seen_mids]. *)
Fixpoint validate_sections (self : SessionDescription) (bundle_set : gset bytes) (ms : list MediaDescription) (seen_mids : gset bytes)
    : outcome SdpError (gset bytes) :=
  match ms with
  | [] => Ok seen_mids
  | m :: ms =>
      mid ← ok_or (mid m) (new_error MissingMid);
      _ ← reject_if (bool_decide (mid ∈ seen_mids)) (new_error (DuplicateMid mid));
      _ ← reject_if (negb (bool_decide (mid ∈ bundle_set))) (new_error (MediaNotBundled mid));
      _ ← validate_media self m mid;
      validate_sections self bundle_set ms ({[mid]} ∪ seen_mids)
  end.
Fixpoint check_bundle (mids : list bytes) (seen_mids : gset bytes) : outcome SdpError unit :=
  match mids with
  | [] => Ok tt
  | mid :: mids =>
      _ ← reject_if (negb (bool_decide (mid ∈ seen_mids))) (new_error (UnknownBundleMid mid));
      check_bundle mids seen_mids
  end.
Definition validate_webrtc_offer (self : SessionDescription) : outcome SdpError unit :=
  let bundle_mids := bundle_mids self in
  seen_mids ← validate_sections self (list_to_set bundle_mids) (media self) ∅;
  check_bundle bundle_mids seen_mids.

(** ** Answers *)
Record CodecCapability := { cap_name : bytes; cap_clock_rate : Z; cap_channels : Z }.
Definition capability_matches (self : CodecCapability) (codec : RtpCodec) : bool :=
  eq_ignore_ascii_case (cap_name self) (codec_name codec) && (cap_clock_rate self =? clock_rate codec) && (cap_channels self =? channels codec).

Record AnswerConfig := {
  session_id : Z; ice_ufrag : bytes; ice_password : bytes; fingerprint_algorithm : bytes; fingerprint : bytes;
  candidates : list bytes; audio_codecs : list CodecCapability; video_codecs : list CodecCapability;
  extension_uris : gset bytes; accept_data_channel : bool }.
Definition mvp (session_id : Z) (ice_ufrag ice_password fingerprint : bytes) : AnswerConfig :=
  {| session_id := session_id; ice_ufrag := ice_ufrag; ice_password := ice_password; fingerprint_algorithm := octets "sha-256";
     fingerprint := fingerprint; candidates := [];
     audio_codecs := [{| cap_name := octets "opus"; cap_clock_rate := 48000; cap_channels := 2 |}];
     video_codecs := [{| cap_name := octets "VP8"; cap_clock_rate := 90000; cap_channels := 1 |}];
     extension_uris := ∅; accept_data_channel := false |}.

Definition is_primary (capabilities : list CodecCapability) (codec : RtpCodec) : bool :=
  negb (eq_ignore_ascii_case (codec_name codec) (octets "rtx")) && existsb (fun capability => capability_matches capability codec) capabilities.
Definition is_selected (selected_primary : gset Z) (codec : RtpCodec) : bool :=
  bool_decide (payload_type codec ∈ selected_primary) ||
  match associated_payload_type codec with Some payload_type => bool_decide (payload_type ∈ selected_primary) | None => false end.
Definition select_from (m : MediaDescription) (capabilities : list CodecCapability) (offered : list RtpCodec) : outcome SdpError (list RtpCodec) :=
  let selected_primary : gset Z := list_to_set (payload_type <$> List.filter (is_primary capabilities) offered) in
  let selected := List.filter (is_selected selected_primary) offered in
  _ ← reject_if (bool_decide (selected_primary = ∅) && negb (port m =? 0)) (new_error (NoCompatibleCodec (default (octets "unknown") (mid m))));
  Ok selected.
Definition select_codecs (m : MediaDescription) (config : AnswerConfig) : outcome SdpError (list RtpCodec) :=
  offered ← codecs m;
  match media_kind m with
  | Audio => select_from m (audio_codecs config) offered
  | Video => select_from m (video_codecs config) offered
  | _ => Ok []
  end.

(** The text written so far is the state. *)
Abbreviation writer := (prog bytes SdpError).
Definition push_str (s : bytes) : writer unit := modify (fun output => output ++ s).
Definition CRLF : bytes := [CR; LF].

Definition write_bundle_line (offer : SessionDescription) : writer unit :=
  _ ← push_str (octets "a=group:BUNDLE");
  _ ← for_each (media offer) (fun m => mid ← lift (ok_or (mid m) (new_error MissingMid)); push_str (octets " " ++ mid));
  push_str CRLF.

Definition write_transport_attributes (mid : bytes) (direction : Direction) (config : AnswerConfig) : writer unit :=
  _ ← push_str (octets "a=mid:" ++ mid ++ CRLF);
  _ ← push_str (octets "a=ice-ufrag:" ++ ice_ufrag config ++ CRLF);
  _ ← push_str (octets "a=ice-pwd:" ++ ice_password config ++ CRLF);
  _ ← push_str (octets "a=setup:passive" ++ CRLF);
  push_str (octets "a=" ++ direction_str direction ++ CRLF).

Definition write_candidates (config : AnswerConfig) : writer unit :=
  _ ← for_each (candidates config) (fun candidate => push_str (octets "a=candidate:" ++ candidate ++ CRLF));
  push_str (octets "a=end-of-candidates" ++ CRLF).

Definition write_codec (codec : RtpCodec) : writer unit :=
  _ ← push_str (octets "a=rtpmap:" ++ show (payload_type codec) ++ octets " " ++ codec_name codec ++ octets "/" ++ show (clock_rate codec));
  _ ← (if 1 <? channels codec then push_str (octets "/" ++ show (channels codec)) else mret tt);
  _ ← push_str CRLF;
  _ ← match fmtp codec with
      | Some fmtp => push_str (octets "a=fmtp:" ++ show (payload_type codec) ++ octets " " ++ fmtp ++ CRLF)
      | None => mret tt
      end;
  for_each (rtcp_feedback codec) (fun feedback => push_str (octets "a=rtcp-fb:" ++ show (payload_type codec) ++ octets " " ++ feedback ++ CRLF)).

Definition write_extension (config : AnswerConfig) (extension : ExtMap) : writer unit :=
  if bool_decide (uri extension ∈ extension_uris config) then
    _ ← push_str (octets "a=extmap:" ++ show (ext_id extension));
    _ ← match ext_direction extension with
        | Some direction => push_str (octets "/" ++ direction_str (reciprocal direction))
        | None => mret tt
        end;
    _ ← push_str (octets " " ++ uri extension);
    _ ← match ext_attributes extension with Some attributes => push_str (octets " " ++ attributes) | None => mret tt end;
    push_str CRLF
  else mret tt.
Definition write_extensions (m : MediaDescription) (config : AnswerConfig) : writer unit :=
  extensions ← lift (extmaps m);
  for_each extensions (write_extension config).

Definition write_rtp_media (m : MediaDescription) (mid : bytes) (codecs : list RtpCodec) (config : AnswerConfig) : writer unit :=
  _ ← push_str (octets "m=" ++ media_kind_str (media_kind m) ++ octets " 9 " ++ protocol m);
  _ ← for_each codecs (fun codec => push_str (octets " " ++ show (payload_type codec)));
  _ ← push_str (CRLF ++ octets "c=IN IP4 0.0.0.0" ++ CRLF);
  _ ← write_transport_attributes mid (reciprocal (direction m)) config;
  _ ← push_str (octets "a=rtcp-mux" ++ CRLF);
  _ ← for_each codecs write_codec;
  _ ← write_extensions m config;
  write_candidates config.

Definition write_application_media (m : MediaDescription) (mid : bytes) (config : AnswerConfig) : writer unit :=
  _ ← push_str (octets "m=application 9 " ++ protocol m ++ octets " " ++ join 0x20 (formats m) ++ CRLF ++ octets "c=IN IP4 0.0.0.0" ++ CRLF);
  _ ← write_transport_attributes mid (reciprocal (direction m)) config;
  _ ← for_each (attribute_values m (octets "sctp-port")) (fun value => push_str (octets "a=sctp-port:" ++ value ++ CRLF));
  _ ← for_each (attribute_values m (octets "max-message-size")) (fun value => push_str (octets "a=max-message-size:" ++ value ++ CRLF));
  write_candidates config.

Definition write_rejected_media (m : MediaDescription) (mid : bytes) : writer unit :=
  _ ← push_str (octets "m=" ++ media_kind_str (media_kind m) ++ octets " 0 " ++ protocol m ++ octets " " ++ join 0x20 (formats m) ++ CRLF);
  _ ← push_str (octets "c=IN IP4 0.0.0.0" ++ CRLF);
  _ ← push_str (octets "a=mid:" ++ mid ++ CRLF);
  push_str (octets "a=inactive" ++ CRLF).

Definition write_media_answer (m : MediaDescription) (config : AnswerConfig) : writer unit :=
  mid ← lift (ok_or (mid m) (new_error MissingMid));
  match media_kind m with
  | Audio | Video =>
      selected ← lift (select_codecs m config);
      if (port m =? 0) || bool_decide (selected = []) then write_rejected_media m mid else write_rtp_media m mid selected config
  | Application =>
      if accept_data_channel config && negb (port m =? 0) then write_application_media m mid config else write_rejected_media m mid
  | Other _ => write_rejected_media m mid
  end.

Definition write_answer (offer : SessionDescription) (config : AnswerConfig) : writer unit :=
  _ ← push_str (octets "v=0" ++ CRLF);
  _ ← push_str (octets "o=- " ++ show (session_id config) ++ octets " 2 IN IP4 0.0.0.0" ++ CRLF);
  _ ← push_str (octets "s=-" ++ CRLF ++ octets "t=0 0" ++ CRLF ++ octets "a=ice-lite" ++ CRLF);
  _ ← write_bundle_line offer;
  _ ← push_str (octets "a=fingerprint:" ++ fingerprint_algorithm config ++ octets " " ++ fingerprint config ++ CRLF);
  for_each (media offer) (fun m =>
    _ ← write_media_answer m config;
    size ← gets len;
    lift (reject_if (MAX_ANSWER_BYTES <? size) (new_error AnswerTooLarge))).

Definition create_sfu_answer (offer : SessionDescription) (config : AnswerConfig) : outcome SdpError bytes :=
  _ ← validate_webrtc_offer offer;
  let '(output, result) := write_answer offer config [] in
  _ ← result;
  Ok output.
