(* ===== verification/SdpRender.v ===== *)
(** * webrtc/sdp: a printer for session descriptions, and that the parser inverts it

    [render] is the reference for what a description looks like on the wire; the answers that the crate
    writes are compared with it. *)
From S2P Require Import Prelude Words Slices RustStd RustStr RustText Sdp.

(** ** The printer *)
Definition attribute_line (a : Attribute) : bytes :=
  octets "a=" ++ attr_name a ++ match attr_value a with Some v => octets ":" ++ v | None => [] end.
Definition media_line (m : MediaDescription) : bytes :=
  octets "m=" ++ join 32 (media_kind_str (media_kind m) :: show (port m) :: protocol m :: formats m).
Definition connection_lines (c : option bytes) : list bytes := match c with Some c => [octets "c=" ++ c] | None => [] end.
Definition section_lines (m : MediaDescription) : list bytes :=
  media_line m :: connection_lines (media_connection m) ++ (attribute_line <$> media_attributes m).
Definition session_lines (d : SessionDescription) : list bytes :=
  [octets "v=" ++ version d; octets "o=" ++ origin d; octets "s=" ++ session_name d; octets "t=" ++ timing d] ++
  connection_lines (session_connection d) ++ (attribute_line <$> session_attributes d) ++ (media d ≫= section_lines).
Definition render (d : SessionDescription) : bytes := crlf_lines (session_lines d).

(** ** Descriptions that can be printed *)
Definition plain (b : bytes) : Prop := (LF ∉ b) /\ (CR ∉ b).
Definition plain_option (o : option bytes) : Prop := match o with Some b => plain b | None => True end.
Record attribute_wf (a : Attribute) : Prop := {
  at_name : attr_name a <> [] /\ (0x3a ∉ attr_name a) /\ plain (attr_name a);
  at_value : plain_option (attr_value a) }.
Record media_wf (m : MediaDescription) : Prop := {
  md_kind : word (media_kind_str (media_kind m)) /\ parse_media_kind (media_kind_str (media_kind m)) = media_kind m;
  md_port : fits 16 (port m);
  md_words : word (protocol m) /\ Forall word (formats m) /\ formats m <> [];
  md_connection : plain_option (media_connection m);
  md_attributes : Forall attribute_wf (media_attributes m) }.
Record session_wf (d : SessionDescription) : Prop := {
  sd_version : version d = octets "0";
  sd_fields : plain (origin d) /\ plain (session_name d) /\ plain (timing d) /\ plain_option (session_connection d);
  sd_attributes : Forall attribute_wf (session_attributes d);
  sd_media : Forall media_wf (media d) }.

Lemma plain_app a b : plain (a ++ b) <-> plain a /\ plain b.
Proof. unfold plain. rewrite !not_elem_of_app. tauto. Qed.
Lemma plain_octets (s : string) : bool_decide (LF ∉ octets s) && bool_decide (CR ∉ octets s) = true -> plain (octets s).
Proof. intros H. apply andb_true_iff in H as [H1%bool_decide_eq_true H2%bool_decide_eq_true]. by split. Qed.
Ltac plain_lit := apply plain_octets; vm_compute; reflexivity.
Lemma word_plain w : word w -> plain w.
Proof. intros Hw. split; apply (word_free w _ Hw); by left. Qed.
Lemma plain_join ws : Forall plain ws -> plain (join 32 ws).
Proof.
  induction 1 as [|w ws Hw Hws IH]; cbn [join]; [split; apply not_elem_of_nil|]. destruct ws as [|w' ws]; [done|].
  change (plain (w ++ octets " " ++ join 32 (w' :: ws))). rewrite !plain_app. split_and!; [done|plain_lit|done].
Qed.

Lemma attribute_line_plain a : attribute_wf a -> plain (attribute_line a).
Proof.
  intros [(_ & _ & Hn) Hv]. unfold attribute_line. rewrite !plain_app. split_and!; [plain_lit|done|].
  destruct (attr_value a); [rewrite plain_app; split; [plain_lit|done]|split; apply not_elem_of_nil].
Qed.
Lemma connection_lines_plain c : plain_option c -> Forall plain (connection_lines c).
Proof. intros Hc. destruct c; cbn [connection_lines]; constructor; [rewrite plain_app; split; [plain_lit|done]|constructor]. Qed.
Lemma section_lines_plain m : media_wf m -> Forall plain (section_lines m).
Proof.
  intros [[Hk _] Hp (Hpr & Hf & _) Hc Ha]. unfold section_lines. constructor; [|apply Forall_app; split; [by apply connection_lines_plain|]].
  - unfold media_line. rewrite plain_app. split; [plain_lit|]. apply plain_join.
    repeat apply Forall_cons_2; [by apply word_plain|apply word_plain, show_word, Hp|by apply word_plain|].
    eapply Forall_impl; [done|]. apply word_plain.
  - apply Forall_fmap. eapply Forall_impl; [done|]. apply attribute_line_plain.
Qed.
Lemma session_lines_plain d : session_wf d -> Forall plain (session_lines d).
Proof.
  intros [Hv (Ho & Hs & Ht & Hc) Ha Hm]. unfold session_lines. rewrite Hv.
  repeat first [apply Forall_app; split | apply Forall_cons; split | apply Forall_nil_2]; try (rewrite plain_app; split; [plain_lit|done || plain_lit]).
  - by apply connection_lines_plain.
  - apply Forall_fmap. eapply Forall_impl; [done|]. apply attribute_line_plain.
  - apply Forall_bind. eapply Forall_impl; [done|]. apply section_lines_plain.
Qed.

(** ** The parser, line by line *)
Definition fits_line (l : bytes) : Prop := plain l /\ len l <= MAX_LINE_BYTES.
Inductive steps : SessionBuilder -> list bytes -> SessionBuilder -> Prop :=
| steps_nil b : steps b [] b
| steps_cons b l ls b1 b2 : (forall n, parse_line b n l = Ok b1) -> steps b1 ls b2 -> steps b (l :: ls) b2.

Lemma steps_one b l b' : (forall n, parse_line b n l = Ok b') -> steps b [l] b'.
Proof. intros H. by eapply steps_cons, steps_nil. Qed.
Lemma steps_app b b1 b2 l1 l2 : steps b l1 b1 -> steps b1 l2 b2 -> steps b (l1 ++ l2) b2.
Proof. induction 1 as [|b l ls b1' b2' H1 _ IH]; [done|]. intros H2. eapply steps_cons; [done|]. by apply IH. Qed.

Lemma steps_parse b ls b' n : steps b ls b' -> Forall fits_line ls -> parse_lines b n ls = Ok b'.
Proof.
  intros H. revert n. induction H as [|b l ls b1 b2 H1 _ IH]; intros n Hf; [done|]. inversion_clear Hf as [|? ? [[_ Hcr] Hlen] Hf']. cbn [parse_lines].
  rewrite strip_suffix_absent by done. cbn [default]. destruct (Z.eqb_spec (len l) 0) as [E|_].
  { destruct l; [|rewrite len_cons in E; pose_len; lia]. by specialize (H1 0). }
  rewrite (proj2 (Z.ltb_ge _ _) Hlen). cbn [reject_if mbind outcome_bind]. rewrite H1. cbn [mbind outcome_bind]. by apply IH.
Qed.

(** Attributes go to the session before the first section, and to the last section after it. *)
Lemma attribute_parts a : attribute_wf a -> (match split_once 0x3a (attr_name a ++ match attr_value a with Some v => octets ":" ++ v | None => [] end) with
  Some (name, value) => (name, Some value) | None => (attr_name a ++ match attr_value a with Some v => octets ":" ++ v | None => [] end, None) end) =
  (attr_name a, attr_value a).
Proof.
  intros [(_ & Hc & _) _]. destruct (attr_value a) as [v|].
  - by rewrite (proj2 (split_once_Some 0x3a _ (attr_name a) v)).
  - rewrite app_nil_r. by rewrite split_once_absent.
Qed.

Lemma attribute_step b a : attribute_wf a -> forall n, parse_line b n (attribute_line a) = Ok match last (b_media b) with
  | Some m => with_last b {| media_kind := media_kind m; port := port m; protocol := protocol m; formats := formats m;
      media_connection := media_connection m; media_attributes := media_attributes m ++ [a] |}
  | None => with_attribute b a
  end.
Proof.
  intros Ha n. unfold attribute_line. change (octets "a=") with [0x61; 0x3d]. cbn [app parse_line Z.eqb Pos.eqb negb reject_if mbind outcome_bind].
  unfold push_attribute. rewrite attribute_parts by done. cbn [mbind outcome_bind]. pose proof (at_name _ Ha) as [Hne _].
  replace (len (attr_name a) =? 0) with false by (destruct (attr_name a); [done|rewrite len_cons; pose_len; lia]). cbn [reject_if mbind outcome_bind].
  by destruct a.
Qed.

Definition add_attributes (b : SessionBuilder) (l : list Attribute) : SessionBuilder :=
  {| b_version := b_version b; b_origin := b_origin b; b_session_name := b_session_name b; b_timing := b_timing b;
     b_connection := b_connection b; b_attributes := b_attributes b ++ l; b_media := b_media b |}.
Definition section_with (m : MediaDescription) (c : option bytes) (l : list Attribute) : MediaDescription :=
  {| media_kind := media_kind m; port := port m; protocol := protocol m; formats := formats m; media_connection := c; media_attributes := l |}.

Lemma session_attribute_steps b l : Forall attribute_wf l -> b_media b = [] -> steps b (attribute_line <$> l) (add_attributes b l).
Proof.
  intros Hl. revert b. induction Hl as [|a l Ha _ IH]; intros b Hb.
  - destruct b; cbn. unfold add_attributes. cbn. rewrite app_nil_r. constructor.
  - cbn [fmap list_fmap]. eapply steps_cons; [intros n; rewrite attribute_step by done; by rewrite Hb|].
    specialize (IH (with_attribute b a) Hb). unfold add_attributes in *. cbn in IH. by rewrite <- app_assoc in IH.
Qed.

Lemma with_last_snoc b ms m m' : with_last (with_media b (ms ++ [m])) m' = with_media b (ms ++ [m']).
Proof.
  unfold with_last, with_media. cbn. f_equal. rewrite length_app. cbn. rewrite insert_app_r_alt by lia.
  by replace (length ms + 1 - 1 - length ms)%nat with 0%nat by lia.
Qed.

Lemma media_attribute_steps b ms m c l l' : Forall attribute_wf l' ->
  steps (with_media b (ms ++ [section_with m c l])) (attribute_line <$> l') (with_media b (ms ++ [section_with m c (l ++ l')])).
Proof.
  intros Hl. revert l. induction Hl as [|a l' Ha _ IH]; intros l; [rewrite app_nil_r; constructor|]. cbn [fmap list_fmap].
  eapply steps_cons; [intros n; rewrite attribute_step by done; cbn [b_media with_media]; by rewrite last_snoc|]. rewrite with_last_snoc. cbn.
  specialize (IH (l ++ [a])). rewrite <- app_assoc in IH. exact IH.
Qed.

Lemma connection_steps b ms m c : media_connection m = None ->
  steps (with_media b (ms ++ [m])) (connection_lines c) (with_media b (ms ++ [section_with m c (media_attributes m)])).
Proof.
  intros Hc. destruct c as [c|]; cbn [connection_lines].
  - apply steps_one. intros n. change (octets "c=" ++ c) with (0x63 :: 0x3d :: c). cbn [parse_line Z.eqb Pos.eqb negb reject_if mbind outcome_bind].
    unfold set_connection. cbn [b_media with_media]. rewrite last_snoc, Hc. cbn [reject_if]. rewrite bool_decide_eq_false_2 by (by intros []).
    cbn [reject_if mbind outcome_bind]. by rewrite with_last_snoc.
  - rewrite <- Hc. replace (section_with m _ _) with m by by destruct m. constructor.
Qed.

Lemma media_line_step b m : media_wf m ->
  forall n, parse_line b n (media_line m) = Ok (with_media b (b_media b ++ [section_with m None []])).
Proof.
  intros [[Hk Ek] Hp (Hpr & Hf & Hne) _ _] n. unfold media_line. change (octets "m=") with [0x6d; 0x3d]. cbn [app parse_line Z.eqb Pos.eqb negb reject_if mbind outcome_bind].
  unfold push_media. rewrite split_whitespace_join by (repeat apply Forall_cons_2; [done|apply show_word, Hp|done|done]).
  cbn [lookup list_lookup fmap option_fmap option_map mbind option_bind drop]. rewrite Ek, parse_show by (done || lia).
  rewrite bool_decide_eq_false_2 by done. done.
Qed.

Lemma section_steps b m : media_wf m -> steps b (section_lines m) (with_media b (b_media b ++ [m])).
Proof.
  intros Hm. unfold section_lines. eapply steps_cons; [by apply media_line_step|].
  eapply steps_app; [by apply connection_steps|]. cbn [media_attributes section_with].
  pose proof (media_attribute_steps b (b_media b) m (media_connection m) [] (media_attributes m) (md_attributes _ Hm)) as H.
  cbn [app] in H. by destruct m.
Qed.

Lemma sections_steps b ms : Forall media_wf ms -> steps b (ms ≫= section_lines) (with_media b (b_media b ++ ms)).
Proof.
  intros H. revert b. induction H as [|m ms Hm _ IH]; intros b.
  - rewrite app_nil_r. destruct b. constructor.
  - rewrite bind_cons. eapply steps_app; [by apply section_steps|]. specialize (IH (with_media b (b_media b ++ [m]))). cbn [b_media with_media] in IH.
    by rewrite <- app_assoc in IH.
Qed.

(** What [parse] builds from the lines of a description. *)
Definition built (d : SessionDescription) : SessionBuilder :=
  {| b_version := Some (version d); b_origin := Some (origin d); b_session_name := Some (session_name d); b_timing := Some (timing d);
     b_connection := session_connection d; b_attributes := session_attributes d; b_media := media d |}.

Lemma session_steps d : session_wf d -> steps default_builder (session_lines d) (built d).
Proof.
  intros [_ _ Ha Hm]. unfold session_lines.
  do 4 (eapply steps_cons; [intros n; reflexivity|]).
  eapply (steps_app _ (with_session default_builder (Some (version d)) (Some (origin d)) (Some (session_name d)) (Some (timing d)) (session_connection d))).
  { destruct (session_connection d) as [c|]; cbn [connection_lines]; [apply steps_one; by intros n|constructor]. }
  eapply steps_app; [by apply session_attribute_steps|]. cbn.
  pose proof (sections_steps (add_attributes (with_session default_builder (Some (version d)) (Some (origin d)) (Some (session_name d)) (Some (timing d)) (session_connection d))
    (session_attributes d)) (media d) Hm) as H. exact H.
Qed.

Lemma parse_render_ok d : session_wf d -> len (render d) <= MAX_SDP_BYTES -> Forall (fun l => len l <= MAX_LINE_BYTES) (session_lines d) ->
  parse (render d) = Ok d.
Proof.
  intros Hd Hlen Hlines. unfold parse. rewrite (proj2 (Z.ltb_ge _ _) Hlen). cbn [reject_if mbind outcome_bind].
  pose proof (session_lines_plain d Hd) as Hp. unfold render. rewrite lines_crlf by (eapply Forall_impl; [exact Hp|]; by intros ? []).
  rewrite (steps_parse _ _ (built d)); [|by apply session_steps|by apply Forall_and].
  cbn [mbind outcome_bind]. unfold finish, built. cbn [b_version b_origin b_session_name b_timing b_connection b_attributes b_media ok_or mbind outcome_bind].
  rewrite bool_decide_eq_true_2 by apply (sd_version _ Hd). by destruct d.
Qed.
