(* ===== verification/SdpAnswer.v ===== *)
(** * webrtc/sdp: what an answer says

    The answer as a description, section by section, and that the text written by [create_sfu_answer] is
    the printed form of exactly that description, which the parser reads back. *)
From S2P Require Import Prelude Words Slices RustStd RustStr RustText Sdp SdpRender.

(** ** The answer as a description *)
Definition attr (name : string) (value : bytes) : Attribute := {| attr_name := octets name; attr_value := Some value |}.
Definition flag (name : bytes) : Attribute := {| attr_name := name; attr_value := None |}.
Definition any_address : bytes := octets "IN IP4 0.0.0.0".

Definition transport_attributes (mid : bytes) (d : Direction) (config : AnswerConfig) : list Attribute :=
  [attr "mid" mid; attr "ice-ufrag" (ice_ufrag config); attr "ice-pwd" (ice_password config); attr "setup" (octets "passive"); flag (direction_str d)].
Definition rtpmap_text (c : RtpCodec) : bytes :=
  show (payload_type c) ++ octets " " ++ codec_name c ++ octets "/" ++ show (clock_rate c) ++
  (if 1 <? channels c then octets "/" ++ show (channels c) else []).
Definition codec_attributes (c : RtpCodec) : list Attribute :=
  attr "rtpmap" (rtpmap_text c) ::
  match fmtp c with Some f => [attr "fmtp" (show (payload_type c) ++ octets " " ++ f)] | None => [] end ++
  ((fun f => attr "rtcp-fb" (show (payload_type c) ++ octets " " ++ f)) <$> rtcp_feedback c).
Definition extmap_text (e : ExtMap) : bytes :=
  show (ext_id e) ++ match ext_direction e with Some d => octets "/" ++ direction_str (reciprocal d) | None => [] end ++ octets " " ++ uri e ++
  match ext_attributes e with Some a => octets " " ++ a | None => [] end.
Definition extension_attributes (config : AnswerConfig) (e : ExtMap) : list Attribute :=
  if bool_decide (uri e ∈ extension_uris config) then [attr "extmap" (extmap_text e)] else [].
Definition candidate_attributes (config : AnswerConfig) : list Attribute :=
  (attr "candidate" <$> candidates config) ++ [flag (octets "end-of-candidates")].

Definition rtp_section (m : MediaDescription) (mid : bytes) (selected : list RtpCodec) (extensions : list ExtMap) (config : AnswerConfig) : MediaDescription :=
  {| media_kind := media_kind m; port := 9; protocol := protocol m; formats := (fun c => show (payload_type c)) <$> selected;
     media_connection := Some any_address;
     media_attributes := transport_attributes mid (reciprocal (direction m)) config ++ [flag (octets "rtcp-mux")] ++
       (selected ≫= codec_attributes) ++ (extensions ≫= extension_attributes config) ++ candidate_attributes config |}.
Definition application_section (m : MediaDescription) (mid : bytes) (config : AnswerConfig) : MediaDescription :=
  {| media_kind := Application; port := 9; protocol := protocol m; formats := formats m; media_connection := Some any_address;
     media_attributes := transport_attributes mid (reciprocal (direction m)) config ++
       (attr "sctp-port" <$> attribute_values m (octets "sctp-port")) ++
       (attr "max-message-size" <$> attribute_values m (octets "max-message-size")) ++ candidate_attributes config |}.
Definition rejected_section (m : MediaDescription) (mid : bytes) : MediaDescription :=
  {| media_kind := media_kind m; port := 0; protocol := protocol m; formats := formats m; media_connection := Some any_address;
     media_attributes := [attr "mid" mid; flag (octets "inactive")] |}.

(** How a section of the offer is answered. *)
Inductive answered (config : AnswerConfig) (m : MediaDescription) (mid : bytes) : MediaDescription -> Prop :=
| answered_rtp selected extensions : is_rtp (media_kind m) = true -> port m <> 0 -> select_codecs m config = Ok selected -> selected <> [] ->
    extmaps m = Ok extensions -> answered config m mid (rtp_section m mid selected extensions config)
| answered_data : media_kind m = Application -> port m <> 0 -> accept_data_channel config = true -> answered config m mid (application_section m mid config)
| answered_rejected : port m = 0 \/ is_rtp (media_kind m) = false \/ select_codecs m config = Ok [] -> answered config m mid (rejected_section m mid).

Definition answer_session (mids : list bytes) (sections : list MediaDescription) (config : AnswerConfig) : SessionDescription :=
  {| version := octets "0"; origin := octets "- " ++ show (session_id config) ++ octets " 2 IN IP4 0.0.0.0"; session_name := octets "-";
     timing := octets "0 0"; session_connection := None;
     session_attributes := [flag (octets "ice-lite"); attr "group" (join 32 (octets "BUNDLE" :: mids));
       attr "fingerprint" (fingerprint_algorithm config ++ octets " " ++ fingerprint config)];
     media := sections |}.

(** ** Writers *)
Definition writes (w : writer unit) (s : bytes) : Prop := forall o, w o = (o ++ s, Ok tt).

Lemma writes_push s : writes (push_str s) s.
Proof. by intros o. Qed.
Lemma writes_ret : writes (mret tt) [].
Proof. intros o. by rewrite app_nil_r. Qed.
Lemma writes_bind (w : writer unit) (k : unit -> writer unit) s t : writes w s -> writes (k tt) t -> writes (w ≫= k) (s ++ t).
Proof. intros Hw Hk o. erewrite prog_step by apply Hw. rewrite Hk. by rewrite app_assoc. Qed.
Lemma writes_each {A} (f : A -> writer unit) (g : A -> bytes) l : (forall x, writes (f x) (g x)) -> writes (for_each l f) (l ≫= g).
Proof. intros Hf. induction l as [|x l IH]; [apply writes_ret|]. cbn [for_each]. rewrite bind_cons. by apply writes_bind. Qed.
Lemma writes_eq w s t : writes w s -> s = t -> writes w t.
Proof. by intros ? <-. Qed.

Create HintDb writes discriminated.
#[export] Hint Resolve writes_push writes_ret writes_bind writes_each : writes.
Ltac writes_auto := eapply writes_eq; [repeat first [apply writes_bind | apply writes_push | apply writes_ret]|].

Lemma crlf_cons l ls : crlf_lines (l :: ls) = l ++ CRLF ++ crlf_lines ls.
Proof. unfold crlf_lines. by rewrite bind_cons, <- app_assoc. Qed.
Lemma crlf_app l1 l2 : crlf_lines (l1 ++ l2) = crlf_lines l1 ++ crlf_lines l2.
Proof. unfold crlf_lines. apply bind_app. Qed.
Lemma crlf_bind {A} (f : A -> list bytes) l : crlf_lines (l ≫= f) = l ≫= (fun x => crlf_lines (f x)).
Proof. induction l as [|x l IH]; [done|]. by rewrite !bind_cons, crlf_app, IH. Qed.
Lemma crlf_fmap {A} (f : A -> bytes) l : crlf_lines (f <$> l) = l ≫= (fun x => f x ++ CRLF).
Proof. induction l as [|x l IH]; [done|]. rewrite fmap_cons, crlf_cons, IH, bind_cons. by rewrite app_assoc. Qed.

Lemma join_words w ws : join 32 (w :: ws) = w ++ (ws ≫= fun x => octets " " ++ x).
Proof.
  revert w. induction ws as [|w' ws IH]; intros w; [cbn; by rewrite app_nil_r|]. change (join 32 (w :: w' :: ws)) with (w ++ 32 :: join 32 (w' :: ws)).
  rewrite IH. done.
Qed.

Lemma writes_transport mid d config :
  writes (write_transport_attributes mid d config) (crlf_lines (attribute_line <$> transport_attributes mid d config)).
Proof.
  unfold write_transport_attributes. writes_auto. unfold transport_attributes. rewrite !fmap_cons, fmap_nil. unfold attribute_line.
  cbn [attr_name attr_value attr flag]. rewrite !crlf_cons, <- !app_assoc. cbn [crlf_lines mbind list_bind]. rewrite app_nil_r. reflexivity.
Qed.

Lemma attribute_crlf name v : attribute_line (attr name v) ++ CRLF = octets "a=" ++ octets name ++ octets ":" ++ v ++ CRLF.
Proof. unfold attribute_line. cbn [attr_name attr_value attr]. by rewrite <- !app_assoc. Qed.

Lemma attributes_crlf {A} name (g : A -> bytes) l :
  crlf_lines (attribute_line <$> ((fun x => attr name (g x)) <$> l)) = l ≫= (fun x => octets "a=" ++ octets name ++ octets ":" ++ g x ++ CRLF).
Proof.
  rewrite <- list_fmap_compose, crlf_fmap. apply list_bind_ext; [|done]. intros x. apply attribute_crlf.
Qed.

Lemma writes_candidates config : writes (write_candidates config) (crlf_lines (attribute_line <$> candidate_attributes config)).
Proof.
  unfold write_candidates. eapply writes_eq; [apply writes_bind; [apply writes_each; intros c; apply writes_push|apply writes_push]|].
  unfold candidate_attributes. rewrite fmap_app, crlf_app, (attributes_crlf "candidate" (fun c => c)). reflexivity.
Qed.

Lemma writes_codec c : writes (write_codec c) (crlf_lines (attribute_line <$> codec_attributes c)).
Proof.
  unfold write_codec. eapply writes_eq.
  { repeat first [apply writes_bind | apply writes_push].
    - instantiate (1 := if 1 <? channels c then octets "/" ++ show (channels c) else []). destruct (1 <? channels c); [apply writes_push|apply writes_ret].
    - instantiate (1 := match fmtp c with Some f => octets "a=fmtp:" ++ show (payload_type c) ++ octets " " ++ f ++ CRLF | None => [] end).
      destruct (fmtp c); [apply writes_push|apply writes_ret].
    - apply writes_each. intros f. apply writes_push. }
  unfold codec_attributes. rewrite fmap_cons, crlf_cons, fmap_app, crlf_app. rewrite (attributes_crlf "rtcp-fb").
  replace (rtcp_feedback c ≫= fun x => octets "a=" ++ _) with (rtcp_feedback c ≫= fun f => octets "a=rtcp-fb:" ++ show (payload_type c) ++ octets " " ++ f ++ CRLF).
  2: { apply list_bind_ext; [|done]. intros f. rewrite <- !app_assoc. reflexivity. }
  unfold rtpmap_text, attribute_line at 1. cbn [attr_name attr_value attr]. destruct (fmtp c) as [f|]; rewrite <- ?app_assoc; [|reflexivity].
  rewrite fmap_cons, fmap_nil, crlf_cons. unfold attribute_line. cbn [attr_name attr_value attr]. rewrite <- !app_assoc. reflexivity.
Qed.

Lemma writes_extension config e : writes (write_extension config e) (crlf_lines (attribute_line <$> extension_attributes config e)).
Proof.
  unfold write_extension, extension_attributes. case_bool_decide; [|apply writes_ret]. eapply writes_eq.
  { repeat first [apply writes_bind | apply writes_push].
    - instantiate (1 := match ext_direction e with Some d => octets "/" ++ direction_str (reciprocal d) | None => [] end).
      destruct (ext_direction e); [apply writes_push|apply writes_ret].
    - instantiate (1 := match ext_attributes e with Some a => octets " " ++ a | None => [] end).
      destruct (ext_attributes e); [apply writes_push|apply writes_ret]. }
  rewrite fmap_cons, fmap_nil, crlf_cons. unfold attribute_line, extmap_text. cbn [attr_name attr_value attr]. rewrite <- !app_assoc. reflexivity.
Qed.

Lemma section_text m : media_connection m = Some any_address -> formats m <> [] ->
  crlf_lines (section_lines m) = octets "m=" ++ media_kind_str (media_kind m) ++ octets " " ++ show (port m) ++ octets " " ++ protocol m ++
    (formats m ≫= fun f => octets " " ++ f) ++ CRLF ++ octets "c=" ++ any_address ++ CRLF ++ crlf_lines (attribute_line <$> media_attributes m).
Proof.
  intros Hc Hf. unfold section_lines. rewrite Hc, crlf_cons. cbn [connection_lines app]. rewrite crlf_cons. unfold media_line.
  rewrite join_words, !bind_cons, <- !app_assoc. reflexivity.
Qed.

Lemma writes_rejected m mid : formats m <> [] -> writes (write_rejected_media m mid) (crlf_lines (section_lines (rejected_section m mid))).
Proof.
  intros Hf. unfold write_rejected_media. writes_auto. rewrite section_text by done.
  cbn [media_kind port protocol formats media_attributes rejected_section]. change (show 0) with (octets "0"). rewrite !fmap_cons, fmap_nil, !crlf_cons.
  unfold attribute_line. cbn [attr_name attr_value attr flag]. destruct (formats m) as [|f fs]; [done|]. rewrite join_words, bind_cons, <- !app_assoc. reflexivity.
Qed.

Lemma writes_application m mid config : formats m <> [] ->
  writes (write_application_media m mid config) (crlf_lines (section_lines (application_section m mid config))).
Proof.
  intros Hf. unfold write_application_media. eapply writes_eq.
  { apply writes_bind; [apply writes_push|]. apply writes_bind; [apply writes_transport|].
    apply writes_bind; [apply writes_each; intros v; apply writes_push|]. apply writes_bind; [apply writes_each; intros v; apply writes_push|apply writes_candidates]. }
  rewrite section_text by done. cbn [media_kind port protocol formats media_attributes application_section]. change (show 9) with (octets "9").
  rewrite !fmap_app, !crlf_app, (attributes_crlf "sctp-port" (fun v => v)), (attributes_crlf "max-message-size" (fun v => v)).
  destruct (formats m) as [|f fs]; [done|]. rewrite join_words, bind_cons, <- !app_assoc. reflexivity.
Qed.

Lemma attributes_bind {A} (f : A -> list Attribute) l :
  crlf_lines (attribute_line <$> (l ≫= f)) = l ≫= fun x => crlf_lines (attribute_line <$> f x).
Proof. induction l as [|x l IH]; [done|]. by rewrite !bind_cons, fmap_app, crlf_app, IH. Qed.

Lemma writes_rtp m mid selected extensions config : selected <> [] -> extmaps m = Ok extensions ->
  writes (write_rtp_media m mid selected config) (crlf_lines (section_lines (rtp_section m mid selected extensions config))).
Proof.
  intros Hs He. unfold write_rtp_media. eapply writes_eq.
  { apply writes_bind; [apply writes_push|]. apply writes_bind; [apply writes_each; intros c; apply writes_push|]. apply writes_bind; [apply writes_push|].
    apply writes_bind; [apply writes_transport|]. apply writes_bind; [apply writes_push|]. apply writes_bind; [apply writes_each, writes_codec|].
    apply writes_bind; [|apply writes_candidates]. unfold write_extensions. rewrite He. intros o. unfold lift. erewrite prog_step by reflexivity.
    apply writes_each, writes_extension. }
  rewrite section_text by (done || by destruct selected). cbn [media_kind port protocol formats media_attributes rtp_section]. change (show 9) with (octets "9").
  rewrite !fmap_app, !crlf_app, !attributes_bind, list_fmap_bind, <- !app_assoc. reflexivity.
Qed.

(** ** What a successful answer consists of *)
Lemma rtp_extensions m mid selected config o o' : write_rtp_media m mid selected config o = (o', Ok tt) -> exists extensions, extmaps m = Ok extensions.
Proof.
  unfold write_rtp_media. intros H. do 6 apply prog_bind_Ok in H as (? & ? & _ & H). apply prog_bind_Ok in H as (? & ? & H & _).
  unfold write_extensions in H. apply prog_bind_Ok in H as (? & extensions & H & _). injection H as _ H. by exists extensions.
Qed.

Lemma rtp_answered m config v o o' : is_rtp (media_kind m) = true -> formats m <> [] ->
  (selected ← lift (select_codecs m config);
   if (port m =? 0) || bool_decide (selected = []) then write_rejected_media m v else write_rtp_media m v selected config) o = (o', Ok tt) ->
  exists sec, answered config m v sec /\ o' = o ++ crlf_lines (section_lines sec).
Proof.
  intros Hk Hf H. apply prog_bind_Ok in H as (o1 & selected & H1 & H). injection H1 as <- Hs.
  destruct ((port m =? 0) || bool_decide (selected = [])) eqn:Hrej.
  - rewrite (writes_rejected m v Hf o) in H. injection H as <-. exists (rejected_section m v). split; [|done]. apply answered_rejected.
    apply orb_true_iff in Hrej as [Hp|Hp%bool_decide_eq_true]; [left; lia|right; right; by rewrite Hs, Hp].
  - apply orb_false_iff in Hrej as [Hp Hne%bool_decide_eq_false]. destruct (rtp_extensions _ _ _ _ _ _ H) as [extensions He].
    rewrite (writes_rtp m v selected extensions config Hne He o) in H. injection H as <-. exists (rtp_section m v selected extensions config).
    split; [|done]. apply answered_rtp; (done || lia).
Qed.

Lemma write_media_answered m config o o' : formats m <> [] -> write_media_answer m config o = (o', Ok tt) ->
  exists v sec, mid m = Some v /\ answered config m v sec /\ o' = o ++ crlf_lines (section_lines sec).
Proof.
  intros Hf H. unfold write_media_answer in H. apply prog_bind_Ok in H as (o1 & v & H1 & H). injection H1 as <- Hv%ok_or_Ok. exists v.
  enough (exists sec, answered config m v sec /\ o' = o ++ crlf_lines (section_lines sec)) as (sec & Ha & Ho) by by exists sec.
  assert (is_rtp (media_kind m) = false -> write_rejected_media m v o = (o', Ok tt) ->
    exists sec, answered config m v sec /\ o' = o ++ crlf_lines (section_lines sec)) as Hrej.
  { intros Hk Hw. rewrite (writes_rejected m v Hf o) in Hw. injection Hw as <-. exists (rejected_section m v). split; [|done].
    apply answered_rejected. by right; left. }
  destruct (media_kind m) eqn:Hk; [apply rtp_answered; [by rewrite Hk|done|done]|apply rtp_answered; [by rewrite Hk|done|done]| |by apply Hrej].
  destruct (accept_data_channel config && negb (port m =? 0)) eqn:Hd; [|by apply Hrej]. apply andb_true_iff in Hd as [Hd Hp%negb_true_iff].
  rewrite (writes_application m v config Hf o) in H. injection H as <-. exists (application_section m v config). split; [|done]. apply answered_data; (done || lia).
Qed.

Definition answers (config : AnswerConfig) (m sec : MediaDescription) : Prop := exists v, mid m = Some v /\ answered config m v sec.

Lemma write_sections config ms o o' : Forall (fun m => formats m <> []) ms ->
  for_each ms (fun m => _ ← write_media_answer m config; size ← gets len; lift (reject_if (MAX_ANSWER_BYTES <? size) (new_error AnswerTooLarge))) o = (o', Ok tt) ->
  exists secs, Forall2 (answers config) ms secs /\ o' = o ++ crlf_lines (secs ≫= section_lines) /\ (ms <> [] -> len o' <= MAX_ANSWER_BYTES).
Proof.
  revert o. induction ms as [|m ms IH]; intros o Hf H.
  - injection H as <-. exists []. split_and!; [constructor|cbn; by rewrite app_nil_r|done].
  - inversion_clear Hf as [|? ? Hm Hf']. cbn [for_each] in H. apply prog_bind_Ok in H as (o1 & u & H1 & H). destruct u.
    apply prog_bind_Ok in H1 as (o2 & u & H1 & H2). destruct u. apply prog_bind_Ok in H2 as (o3 & size & H2 & H3). injection H2 as <- <-. injection H3 as <- H3.
    apply reject_if_Ok in H3. destruct (write_media_answered m config o o2 Hm H1) as (v & sec & Hv & Ha & ->).
    destruct (IH _ Hf' H) as (secs & Hs & -> & Hlen). exists (sec :: secs). split_and!.
    + constructor; [by exists v|done].
    + by rewrite bind_cons, crlf_app, app_assoc.
    + intros _. destruct ms; [|by apply Hlen]. inversion Hs; subst. cbn [mbind list_bind crlf_lines]. rewrite app_nil_r. lia.
Qed.

Lemma write_bundle offer o o' : write_bundle_line offer o = (o', Ok tt) -> exists mids, Forall2 (fun m v => mid m = Some v) (media offer) mids /\
  o' = o ++ attribute_line (attr "group" (join 32 (octets "BUNDLE" :: mids))) ++ CRLF.
Proof.
  unfold write_bundle_line. intros H. apply prog_bind_Ok in H as (o1 & u & H1 & H). injection H1 as <- _. apply prog_bind_Ok in H as (o2 & u' & H2 & H).
  injection H as <-. assert (exists mids, Forall2 (fun m v => mid m = Some v) (media offer) mids /\
    o2 = (o ++ octets "a=group:BUNDLE") ++ (mids ≫= fun v => octets " " ++ v)) as (mids & Hm & ->).
  { revert H2. generalize (o ++ octets "a=group:BUNDLE"). clear. induction (media offer) as [|m ms IH]; intros o H; cbn [for_each] in H.
    - injection H as <- _. exists []. split; [constructor|cbn; by rewrite app_nil_r].
    - apply prog_bind_Ok in H as (o1 & u & H1 & H). apply prog_bind_Ok in H1 as (o3 & v & H1 & H3). injection H1 as <- Hv%ok_or_Ok. injection H3 as <- _.
      apply IH in H as (mids & Hm & ->). exists (v :: mids). split; [by constructor|]. by rewrite bind_cons, <- !app_assoc. }
  exists mids. split; [done|]. rewrite attribute_crlf, join_words, <- !app_assoc. reflexivity.
Qed.

Lemma push_step {B} s (k : unit -> writer B) o : (push_str s ≫= k) o = k tt (o ++ s).
Proof. done. Qed.

Lemma create_answer_text offer config text : Forall (fun m => formats m <> []) (media offer) -> create_sfu_answer offer config = Ok text ->
  validate_webrtc_offer offer = Ok tt /\
  exists mids secs, Forall2 (fun m v => mid m = Some v) (media offer) mids /\ Forall2 (answers config) (media offer) secs /\
    text = render (answer_session mids secs config) /\ (media offer <> [] -> len text <= MAX_SDP_BYTES).
Proof.
  intros Hf H. unfold create_sfu_answer in H. apply bind_Ok in H as ([] & Hval & H). split; [done|].
  destruct (write_answer offer config []) as [output result] eqn:Hw. apply bind_Ok in H as ([] & -> & H). apply Ok_inj in H as <-. unfold write_answer in Hw.
  rewrite !push_step in Hw. apply prog_bind_Ok in Hw as (o1 & [] & Hb & Hw).
  apply write_bundle in Hb as (mids & Hm & ->). rewrite push_step in Hw.
  apply write_sections in Hw as (secs & Hs & -> & Hlen); [|done]. exists mids, secs. split_and!; [done|done| |done].
  unfold render, session_lines, answer_session. cbn [version origin session_name timing session_connection session_attributes media connection_lines app].
  rewrite !fmap_cons, fmap_nil. cbn [app]. rewrite !crlf_cons. unfold attribute_line. cbn [attr_name attr_value attr flag].
  rewrite <- !app_assoc. reflexivity.
Qed.

(** ** What the parser accepts can be printed *)
Record builder_wf (b : SessionBuilder) : Prop := {
  bw_fields : plain_option (b_origin b) /\ plain_option (b_session_name b) /\ plain_option (b_timing b) /\ plain_option (b_connection b);
  bw_attributes : Forall attribute_wf (b_attributes b);
  bw_media : Forall media_wf (b_media b) }.

Lemma plain_cons c l : plain (c :: l) -> plain l.
Proof. intros [H1 H2]. split; set_solver. Qed.

Lemma media_kind_parsed w : word w -> word (media_kind_str (parse_media_kind w)) /\
  parse_media_kind (media_kind_str (parse_media_kind w)) = parse_media_kind w.
Proof.
  intros Hw. assert (media_kind_str (parse_media_kind w) = w) as E; [|by rewrite E].
  unfold parse_media_kind. repeat case_bool_decide; by subst.
Qed.

Lemma push_media_wf b n v b' : builder_wf b -> push_media b n v = Ok b' -> builder_wf b'.
Proof.
  intros [Hf Ha Hm] H. unfold push_media in H. pose proof (split_whitespace_words v) as Hw. set (ts := split_whitespace v) in *. clearbody ts.
  destruct ts as [|t0 [|t1 [|t2 ts]]]; cbn in H; try done.
  { by destruct (parse_int 16 t1). }
  inversion_clear Hw as [|? ? W0 Hw0]. inversion_clear Hw0 as [|? ? W1 Hw1]. inversion_clear Hw1 as [|? ? W2 Hw2].
  destruct (parse_int 16 t1) as [p|] eqn:Hp; [|done]. case_bool_decide as Hne; [done|]. cbn in H. injection H as <-. split; cbn; [done|done|].
  apply Forall_app. split; [done|]. constructor; [|constructor]. rewrite drop_0 in *. split; cbn; [by apply media_kind_parsed| |done|done|constructor].
  by apply (from_str_radix_fits 16 10 t1).
Qed.

Lemma with_last_wf b m m' : builder_wf b -> last (b_media b) = Some m -> (media_wf m -> media_wf m') -> builder_wf (with_last b m').
Proof.
  intros [Hf Ha Hm] Hl Hm'. split; cbn; [done|done|]. apply Forall_insert; [done|]. apply Hm'. rewrite Forall_forall in Hm. apply Hm.
  apply last_Some in Hl as [l' ->]. set_solver.
Qed.

Lemma push_attribute_wf b v b' : builder_wf b -> plain v -> push_attribute b v = Ok b' -> builder_wf b'.
Proof.
  intros Hb Hv H. unfold push_attribute in H.
  assert (exists a, attribute_wf a /\ b' = match last (b_media b) with
    | Some m => with_last b {| media_kind := media_kind m; port := port m; protocol := protocol m; formats := formats m;
        media_connection := media_connection m; media_attributes := media_attributes m ++ [a] |}
    | None => with_attribute b a end) as (a & Ha & ->).
  { destruct (split_once 0x3a v) as [[name value]|] eqn:Hs.
    - apply split_once_Some in Hs as [-> Hc]. apply (plain_app name (0x3a :: value)) in Hv as [Hn Hv%plain_cons]. inv_ok H.
      eexists; split; [|done]. split; [cbn; split_and!; [|done|done]|done]. intros E. by rewrite E in Hstep.
    - inv_ok H. eexists; split; [|done]. split; [cbn; split_and!; [|..]|done]; [intros E; by rewrite E in Hstep| |done].
      intros Hc. apply list_elem_of_split_l in Hc as (l1 & l2 & E & Hl1). by rewrite (proj2 (split_once_Some 0x3a v l1 l2)) in Hs. }
  destruct (last (b_media b)) as [m|] eqn:Hl.
  - eapply with_last_wf; [done|done|]. intros [M1 M2 M3 M4 M5]. split; cbn; [done..|]. apply Forall_app. by split; [|constructor].
  - destruct Hb as [Hf Ha' Hm]. split; cbn; [done| |done]. apply Forall_app. by split; [|constructor].
Qed.

Lemma set_once_Ok t v n f o : set_once t v n f = Ok o -> o = Some v.
Proof. unfold set_once. intros H. by inv_ok H. Qed.

Lemma parse_line_wf b n l b' : builder_wf b -> plain l -> parse_line b n l = Ok b' -> builder_wf b'.
Proof.
  intros Hb Hl H. destruct l as [|prefix [|eq value]]; [done|done|]. pose proof (plain_cons _ _ (plain_cons _ _ Hl)) as Hv. cbn in H.
  apply bind_Ok in H as ([] & _ & H). pose proof Hb as [(F1 & F2 & F3 & F4) Ha Hm].
  repeat (destruct (prefix =? _); [try (apply bind_Ok in H as (o & ->%set_once_Ok & H); apply Ok_inj in H as <-; by split)|]).
  1: { unfold set_connection in H. destruct (last (b_media b)) as [m|] eqn:Hlast; inv_ok H; subst b'.
    - eapply with_last_wf; [done|done|]. intros [M1 M2 M3 M4 M5]. by split.
    - apply set_once_Ok in Hstep as ->. by split. }
  1: by eapply push_attribute_wf.
  1: by eapply push_media_wf.
  all: cbn in H; inv_ok H; by subst.
Qed.

(** Carriage returns only at the ends of lines. *)
Definition tidy (input : bytes) : Prop := Forall (fun l => CR ∉ default l (strip_suffix CR l)) (lines input).

Lemma parse_lines_wf b n ls b' : Forall (fun l => (LF ∉ l) /\ (CR ∉ default l (strip_suffix CR l))) ls -> builder_wf b -> parse_lines b n ls = Ok b' -> builder_wf b'.
Proof.
  intros Hls. revert b n. induction Hls as [|l ls [Hlf Hcr] _ IH]; intros b n Hb H; cbn [parse_lines] in H; [by injection H as <-|].
  destruct (_ =? 0); [by eapply IH|]. apply bind_Ok in H as ([] & _ & H). apply bind_Ok in H as (b1 & Hl & H). eapply IH; [|done].
  eapply parse_line_wf; [done| |done]. split; [|done]. destruct (strip_suffix CR l) as [l'|] eqn:E; [|done]. apply strip_suffix_Some in E as ->. cbn. set_solver.
Qed.

Lemma parsed_session_wf input d : tidy input -> parse input = Ok d -> session_wf d.
Proof.
  intros Ht H. unfold parse in H. apply bind_Ok in H as ([] & _ & H). apply bind_Ok in H as (b & Hb & H).
  assert (builder_wf b) as [(F1 & F2 & F3 & F4) Ha Hm].
  { eapply (parse_lines_wf default_builder); [|by repeat constructor|exact Hb]. apply Forall_and. split; [apply lines_free|done]. }
  unfold finish in H. inv_ok H. subst d. apply negb_false_iff, bool_decide_eq_true in Hstep0. rewrite Hstep1, Hstep2, Hstep3 in *. by split.
Qed.

(** ** What the queries return can be printed *)
Lemma values_plain l name : Forall attribute_wf l -> Forall plain (values_of l name).
Proof.
  intros Hl. unfold values_of. apply Forall_forall. intros v Hv. apply list_elem_of_omap in Hv as (a & Ha & Hv).
  apply list_elem_of_In, filter_In in Ha as [Ha _]. rewrite Forall_forall in Hl. apply list_elem_of_In, Hl, at_value in Ha. by rewrite Hv in Ha.
Qed.

Lemma target_plain v a b : plain v -> split_attribute_target v = Some (a, b) -> plain b.
Proof. intros Hv H. apply split_once_Some in H as [-> _]. apply (plain_app a (32 :: b)) in Hv as [_ Hv%plain_cons]. done. Qed.

Lemma targeted_plain l kv : Forall plain l -> kv ∈ omap split_attribute_target l -> plain kv.2.
Proof.
  intros Hl Hkv. apply list_elem_of_omap in Hkv as (v & Hv & E). destruct kv as [a b]. rewrite Forall_forall in Hl. by eapply target_plain; [apply Hl|].
Qed.

Lemma map_plain (l : list (bytes * bytes)) k v : (forall kv, kv ∈ l -> plain kv.2) -> foldl (fun m kv => <[kv.1 := kv.2]> m) (∅ : gmap bytes bytes) l !! k = Some v -> plain v.
Proof.
  induction l as [|kv l IH] using rev_ind; intros Hl H; [done|]. rewrite foldl_app in H. cbn in H. destruct (decide (kv.1 = k)) as [<-|Hne].
  - rewrite lookup_insert_eq in H. injection H as <-. apply Hl. set_solver.
  - rewrite lookup_insert_ne in H by done. apply IH; [|done]. intros kv' Hkv'. apply Hl. set_solver.
Qed.

Lemma multimap_plain (l : list (bytes * bytes)) k vs : (forall kv, kv ∈ l -> plain kv.2) ->
  foldl (fun m kv => <[kv.1 := default [] (m !! kv.1) ++ [kv.2]]> m) (∅ : gmap bytes (list bytes)) l !! k = Some vs -> Forall plain vs.
Proof.
  revert vs. induction l as [|kv l IH] using rev_ind; intros vs Hl H; [done|]. rewrite foldl_app in H. cbn in H.
  assert (forall kv', kv' ∈ l -> plain kv'.2) as Hl' by (intros kv' Hkv'; apply Hl; set_solver). destruct (decide (kv.1 = k)) as [E|Hne].
  - rewrite E, lookup_insert_eq in H. injection H as <-. apply Forall_app. split; [|constructor; [apply Hl; set_solver|constructor]].
    destruct (foldl _ _ l !! k) as [vs'|] eqn:Hvs; [|constructor]. by apply IH.
  - rewrite lookup_insert_ne in H by done. by apply IH.
Qed.

Lemma split_plain sep l : plain l -> Forall plain (split sep l).
Proof.
  induction l as [|c l IH]; intros Hl; cbn; [repeat constructor; apply not_elem_of_nil|]. specialize (IH (plain_cons _ _ Hl)).
  destruct (c =? sep); [constructor; [split; apply not_elem_of_nil|done]|]. destruct IH as [|p ps Hp Hps].
  - constructor; [|constructor]. destruct Hl. split; set_solver.
  - constructor; [|done]. destruct Hl, Hp. split; set_solver.
Qed.

Record codec_wf (c : RtpCodec) : Prop := {
  cw_numbers : 0 <= payload_type c <= 127 /\ fits 32 (clock_rate c) /\ fits 16 (channels c) /\ 0 < clock_rate c /\ 0 < channels c;
  cw_text : plain (codec_name c) /\ (0x2f ∉ codec_name c) /\ codec_name c <> [] /\ plain_option (fmtp c) /\ Forall plain (rtcp_feedback c) }.

Lemma parse_rtpmap_Ok v name rate ch : plain v -> parse_rtpmap v = Ok (name, rate, ch) ->
  plain name /\ (0x2f ∉ name) /\ name <> [] /\ fits 32 rate /\ fits 16 ch /\ 0 < rate /\ 0 < ch.
Proof.
  intros Hv H. unfold parse_rtpmap in H. pose proof (split_plain 0x2f v Hv) as Hp. pose proof (split_free 0x2f v) as Hfree. pose proof (split_nonempty 0x2f v) as Hne.
  set (parts := split 0x2f v) in *. clearbody parts. destruct parts as [|p0 parts]; [done|]. inversion_clear Hp. inversion_clear Hfree.
  cbn in H. apply bind_Ok in H as ([] & _ & H). destruct (Z.eqb_spec (len p0) 0) as [|Hp0]; [done|].
  destruct parts as [|p1 parts]; [done|]. cbn in H. destruct (parse_int 32 p1) as [r|] eqn:Hr; [|done].
  assert (exists c, (match (p1 :: parts) !! 1%nat with None => Some 1 | Some value => parse_int 16 value end) = Some c /\ fits 16 c /\
    (if (0 <? r) && (0 <? c) then Ok (p0, r, c) else Err (new_error (InvalidRtpMap v))) = Ok (name, rate, ch)) as (c & _ & Hc16 & Hres).
  { cbn. destruct parts as [|p2 parts]; cbn in *; [exists 1; split_and!; [done|done|done]|]. destruct (parse_int 16 p2) as [c|] eqn:Hc; [|done].
    exists c. split_and!; [done| |done]. by apply (from_str_radix_fits 16 10 p2). }
  destruct ((0 <? r) && (0 <? c)) eqn:Hpos; [|done]. injection Hres as <- <- <-. split_and!; [done|done|by intros ->|by apply (from_str_radix_fits 32 10 p1)|done|lia..].
Qed.

Lemma find_plain l name target v : Forall attribute_wf l -> find_prefixed_attribute l name target = Some v -> plain v.
Proof.
  intros Hl H. unfold find_prefixed_attribute in H. apply fmap_Some in H as (kv & Hkv & ->). apply find_some in Hkv as [Hin _].
  apply list_elem_of_In in Hin. by eapply targeted_plain; [apply values_plain|].
Qed.

Lemma codec_of_wf m f oc : Forall attribute_wf (media_attributes m) -> codec_of m f = Ok oc -> Forall codec_wf (option_list oc).
Proof.
  intros Hm H. unfold codec_of in H. apply bind_Ok in H as (pt & Hpt & H). unfold parse_payload_type in Hpt. apply ok_or_Ok in Hpt.
  apply bind_Some in Hpt as (n & Hn & Hpt). destruct (Z.leb_spec n 127) as [Hle|]; [|done]. injection Hpt as <-.
  destruct (find_prefixed_attribute _ _ _) as [rtpmap|] eqn:Hr; [|destruct (n <? 96); [injection H as <-; constructor|done]].
  apply bind_Ok in H as ([[name rate] ch] & Hmap & H). injection H as <-. apply parse_rtpmap_Ok in Hmap as (N1 & N2 & N3 & N4 & N5 & N6 & N7); [|by eapply find_plain].
  constructor; [|constructor]. pose proof (from_str_radix_fits 8 10 f n ltac:(lia) ltac:(lia) Hn) as [Hn0 _]. split; cbn [payload_type clock_rate channels codec_name fmtp rtcp_feedback].
  { split_and!; (done || lia). }
  assert (forall name kv, kv ∈ targeted m name -> plain kv.2) as Ht by (intros nm kv Hkv; by eapply targeted_plain; [apply values_plain|exact Hkv]).
  split_and!; [done|done|done| |].
  - destruct (attribute_map m (octets "fmtp") !! f) as [v|] eqn:E; [|done]. by eapply map_plain; [apply Ht|exact E].
  - apply Forall_app. split.
    + destruct (attribute_multimap m (octets "rtcp-fb") !! f) as [v|] eqn:E; [|constructor]. by eapply multimap_plain; [apply Ht|exact E].
    + destruct (attribute_multimap m (octets "rtcp-fb") !! octets "*") as [v|] eqn:E; [|constructor]. by eapply multimap_plain; [apply Ht|exact E].
Qed.

Lemma codecs_wf m cs : Forall attribute_wf (media_attributes m) -> codecs m = Ok cs -> Forall codec_wf cs.
Proof.
  intros Hm. unfold codecs. assert (Forall codec_wf []) as H0 by constructor. revert H0. generalize (@nil RtpCodec).
  induction (formats m) as [|f fs IH]; intros acc Hacc H; cbn [codecs_loop] in H; [by injection H as <-|].
  apply bind_Ok in H as (oc & Hoc & H). eapply IH; [|exact H]. apply Forall_app. split; [done|]. by eapply codec_of_wf.
Qed.

Lemma select_wf m config selected : Forall attribute_wf (media_attributes m) -> select_codecs m config = Ok selected -> Forall codec_wf selected.
Proof.
  intros Hm H. unfold select_codecs in H. apply bind_Ok in H as (offered & Ho & H). pose proof (codecs_wf m offered Hm Ho) as Hw.
  unfold select_from in H. destruct (media_kind m); inv_ok H; subst selected; try constructor.
  all: apply Forall_forall; intros c Hc; apply list_elem_of_In, filter_In in Hc as [Hc _]; rewrite Forall_forall in Hw; by apply Hw, list_elem_of_In.
Qed.

Record extension_wf (e : ExtMap) : Prop := { ew_id : 0 < ext_id e <= 255; ew_uri : word (uri e); ew_attributes : plain_option (ext_attributes e) }.

Lemma parse_extmap_wf a e : parse_extmap a = Ok e -> extension_wf e.
Proof.
  intros H. unfold parse_extmap in H. apply bind_Ok in H as (v & _ & H). pose proof (split_whitespace_words v) as Hw. set (ts := split_whitespace v) in *. clearbody ts.
  apply bind_Ok in H as ([] & Hempty%reject_if_Ok & H). apply bind_Ok in H as ([id dir] & _ & H). apply bind_Ok in H as (n & Hn%ok_or_Ok & H).
  apply Ok_inj in H as <-. apply bind_Some in Hn as (k & Hk & Hn). destruct (Z.ltb_spec 0 k) as [Hpos|]; [|done]. injection Hn as <-.
  pose proof (from_str_radix_fits 8 10 id k ltac:(lia) ltac:(lia) Hk) as [_ Hk']. change (2 ^ 8) with 256 in Hk'.
  split; cbn [ext_id uri ext_attributes]; [lia| |].
  - destruct ts as [|t0 [|t1 ts]]; cbn in *; [done|by rewrite orb_true_r in Hempty|]. by inversion_clear Hw as [|? ? _ Hw1]; inversion_clear Hw1.
  - destruct (len (join 32 (drop 2 ts)) =? 0); [done|]. cbn. apply plain_join. eapply Forall_impl; [|apply word_plain]. by apply Forall_drop.
Qed.

Lemma extmaps_wf m es : extmaps m = Ok es -> Forall extension_wf es.
Proof.
  unfold extmaps. generalize (List.filter (named (octets "extmap")) (media_attributes m)). intros l. revert es.
  induction l as [|a l IH]; intros es H; cbn [collect] in H; [injection H as <-; constructor|].
  apply bind_Ok in H as (e & He & H). apply bind_Ok in H as (es' & Hes & H). apply Ok_inj in H as <-. constructor; [by eapply parse_extmap_wf|by apply IH].
Qed.

(** ** Answers can be printed *)
Record config_plain (config : AnswerConfig) : Prop := {
  cp_session : 0 <= session_id config;
  cp_text : plain (ice_ufrag config) /\ plain (ice_password config) /\ plain (fingerprint_algorithm config) /\ plain (fingerprint config);
  cp_candidates : Forall plain (candidates config) }.

Lemma attr_wf (name : string) v : bool_decide (octets name <> []) && bool_decide (0x3a ∉ octets name) && bool_decide (LF ∉ octets name) && bool_decide (CR ∉ octets name) = true ->
  plain v -> attribute_wf (attr name v).
Proof. rewrite !andb_true_iff, !bool_decide_eq_true. intros [[[H1 H2] H3] H4] Hv. split; cbn; [|done]. by split_and!. Qed.
Lemma flag_wf (name : string) : bool_decide (octets name <> []) && bool_decide (0x3a ∉ octets name) && bool_decide (LF ∉ octets name) && bool_decide (CR ∉ octets name) = true ->
  attribute_wf (flag (octets name)).
Proof. rewrite !andb_true_iff, !bool_decide_eq_true. intros [[[H1 H2] H3] H4]. split; cbn; [|done]. by split_and!. Qed.
Ltac attr_wf_tac := first [apply attr_wf; [vm_compute; reflexivity|] | apply flag_wf; vm_compute; reflexivity].

Lemma transport_wf v d config : config_plain config -> plain v -> Forall attribute_wf (transport_attributes v d config).
Proof.
  intros [_ (H1 & H2 & _) _] Hv. unfold transport_attributes. repeat apply Forall_cons_2; [..|constructor]; try (attr_wf_tac; done).
  - attr_wf_tac. plain_lit.
  - destruct d; attr_wf_tac.
Qed.
Lemma candidates_wf config : config_plain config -> Forall attribute_wf (candidate_attributes config).
Proof.
  intros [_ _ Hc]. unfold candidate_attributes. apply Forall_app. split; [|constructor; [attr_wf_tac|constructor]].
  apply Forall_fmap. eapply Forall_impl; [done|]. intros c Hp. by attr_wf_tac.
Qed.
Lemma attr_list_wf (name : string) l : bool_decide (octets name <> []) && bool_decide (0x3a ∉ octets name) && bool_decide (LF ∉ octets name) && bool_decide (CR ∉ octets name) = true ->
  Forall plain l -> Forall attribute_wf (attr name <$> l).
Proof. intros Hn Hl. apply Forall_fmap. eapply Forall_impl; [done|]. intros v Hv. by apply attr_wf. Qed.

Lemma plain_show n : 0 <= n -> plain (show n).
Proof. intros Hn. by apply word_plain, show_word. Qed.

Lemma codec_attributes_wf c : codec_wf c -> Forall attribute_wf (codec_attributes c).
Proof.
  intros [(P1 & [P2 _] & [P3 _] & _) (T1 & _ & _ & T2 & T3)]. assert (plain (show (payload_type c))) as Hs by (apply plain_show; lia). unfold codec_attributes.
  apply Forall_cons_2; [|apply Forall_app; split].
  - attr_wf_tac. unfold rtpmap_text. rewrite !plain_app. split_and!; [done|plain_lit|done|plain_lit|by apply plain_show|].
    destruct (_ <? _); [rewrite plain_app; split; [plain_lit|by apply plain_show]|split; apply not_elem_of_nil].
  - destruct (fmtp c); [|constructor]. apply Forall_cons_2; [|constructor]. attr_wf_tac. rewrite !plain_app. split_and!; [done|plain_lit|done].
  - apply Forall_fmap. eapply Forall_impl; [done|]. intros f Hf. attr_wf_tac. rewrite !plain_app. split_and!; [done|plain_lit|done].
Qed.

Lemma extension_attributes_wf config e : extension_wf e -> Forall attribute_wf (extension_attributes config e).
Proof.
  intros [Hid Hu Ha]. unfold extension_attributes. case_bool_decide; [|constructor]. apply Forall_cons_2; [|constructor]. attr_wf_tac. unfold extmap_text.
  rewrite !plain_app. split_and!; [apply plain_show; lia| |plain_lit|by apply word_plain|].
  - destruct (ext_direction e) as [d|]; [|split; apply not_elem_of_nil]. rewrite plain_app. split; [plain_lit|]. destruct d; plain_lit.
  - destruct (ext_attributes e); [|split; apply not_elem_of_nil]. rewrite plain_app. split; [plain_lit|done].
Qed.

Lemma mid_plain m v : media_wf m -> mid m = Some v -> plain v.
Proof.
  intros Hm Hv. unfold mid, media_attribute, first_value in Hv. apply bind_Some in Hv as (a & Ha & Hv). apply find_some in Ha as [Ha _].
  pose proof (md_attributes _ Hm) as H. rewrite Forall_forall in H. apply list_elem_of_In, H, at_value in Ha. by rewrite Hv in Ha.
Qed.

Ltac section_fields := cbn [media_kind port protocol formats media_connection media_attributes rtp_section application_section rejected_section plain_option].

Lemma answers_wf config m sec : config_plain config -> media_wf m -> answers config m sec -> media_wf sec.
Proof.
  intros Hc Hm (v & Hv & Ha). pose proof (mid_plain m v Hm Hv) as Hp. pose proof Hm as [M1 M2 (M3 & M4 & M5) _ M6].
  assert (plain any_address) as Hany by plain_lit. destruct Ha as [selected extensions Hk Hport Hs Hne He|Hk Hport Hd|Hrej].
  - pose proof (select_wf _ _ _ M6 Hs) as Hsel. split; section_fields; [done|done| |done|].
    + split_and!; [done| |by destruct selected]. apply Forall_fmap. eapply Forall_impl; [exact Hsel|]. intros c [(P1 & _) _]. apply show_word. lia.
    + rewrite !Forall_app; split_and!; [by apply transport_wf|constructor; [attr_wf_tac|constructor]| | |by apply candidates_wf].
      * apply Forall_bind. eapply Forall_impl; [exact Hsel|]. apply codec_attributes_wf.
      * apply Forall_bind. eapply Forall_impl; [apply (extmaps_wf _ _ He)|]. apply extension_attributes_wf.
  - split; section_fields; [|done|done|done|].
    + split; [|done]. rewrite Hk in M1. apply M1.
    + rewrite !Forall_app; split_and!; [by apply transport_wf| | |by apply candidates_wf]; (apply attr_list_wf; [vm_compute; reflexivity|by apply values_plain]).
  - split; section_fields; [done|done|done|done|]. repeat apply Forall_cons_2; [by attr_wf_tac|attr_wf_tac|constructor].
Qed.

(** * webrtc/sdp: the codecs of an answer, read back *)

(** ** Maps from attribute targets *)
Section Targets.
Context {V : Type}.
Implicit Types l : list (bytes * V).
Definition for_target (k : bytes) (kv : bytes * V) : bool := bool_decide (kv.1 = k).

Lemma map_lookup l k : foldl (fun m kv => <[kv.1 := kv.2]> m) (∅ : gmap bytes V) l !! k = last (snd <$> List.filter (for_target k) l).
Proof.
  induction l as [|kv l IH] using rev_ind; [done|]. rewrite foldl_app, List.filter_app, fmap_app. cbn. unfold for_target at 2. case_bool_decide as Hk.
  - rewrite <- Hk, lookup_insert_eq. cbn. by rewrite last_snoc.
  - rewrite lookup_insert_ne by done. cbn. by rewrite app_nil_r.
Qed.

Lemma multimap_lookup l k :
  default [] (foldl (fun m kv => <[kv.1 := default [] (m !! kv.1) ++ [kv.2]]> m) (∅ : gmap bytes (list V)) l !! k) = snd <$> List.filter (for_target k) l.
Proof.
  induction l as [|kv l IH] using rev_ind; [done|]. rewrite foldl_app, List.filter_app, fmap_app. cbn. unfold for_target at 2. case_bool_decide as Hk.
  - rewrite <- Hk in *. rewrite lookup_insert_eq. cbn. by rewrite IH.
  - rewrite lookup_insert_ne by done. cbn. by rewrite app_nil_r.
Qed.

Lemma find_filter (P : bytes * V -> bool) l : find P l = head (List.filter P l).
Proof. induction l as [|x l IH]; [done|]. cbn. by destruct (P x). Qed.

(** When every group has its own target, the entries of a target are its group. *)
Lemma filter_group {C} (key : C -> bytes) (g : C -> list (bytes * V)) (l : list C) c : (forall c' kv, kv ∈ g c' -> kv.1 = key c') -> NoDup (key <$> l) -> c ∈ l ->
  List.filter (for_target (key c)) (l ≫= g) = g c.
Proof.
  intros Hg Hn Hc. assert (forall c', key c' <> key c -> List.filter (for_target (key c)) (g c') = []) as Hother.
  { intros c' Hne. destruct (List.filter _ (g c')) as [|kv r] eqn:E; [done|].
    assert (In kv (List.filter (for_target (key c)) (g c'))) as Hin by (rewrite E; by left).
    apply filter_In in Hin as [Hin Hk%bool_decide_eq_true]. apply list_elem_of_In, Hg in Hin. congruence. }
  assert (List.filter (for_target (key c)) (g c) = g c) as Hsame.
  { specialize (Hg c). induction (g c) as [|kv r IH]; [done|]. cbn. unfold for_target at 1. rewrite bool_decide_eq_true_2 by (apply Hg; left). f_equal.
    apply IH. intros kv' Hkv'. apply Hg. by right. }
  induction l as [|c' l IH]; [by apply not_elem_of_nil in Hc|]. rewrite fmap_cons in Hn. apply NoDup_cons in Hn as [Hk Hn].
  rewrite bind_cons, List.filter_app. apply elem_of_cons in Hc as [<-|Hc].
  - rewrite Hsame. assert (List.filter (for_target (key c)) (l ≫= g) = []) as ->; [|by rewrite app_nil_r].
    clear IH Hn. induction l as [|d l IH]; [done|]. rewrite bind_cons, List.filter_app, Hother, IH; [done|set_solver|set_solver].
  - rewrite IH by done. rewrite Hother; [done|]. intros E. apply Hk. rewrite E. by apply list_elem_of_fmap_2.
Qed.

Lemma filter_other {C} (key : C -> bytes) (g : C -> list (bytes * V)) (l : list C) k : (forall c' kv, kv ∈ g c' -> kv.1 = key c') -> (forall c, c ∈ l -> key c <> k) ->
  List.filter (for_target k) (l ≫= g) = [].
Proof.
  intros Hg Hne. induction l as [|c l IH]; [done|]. rewrite bind_cons, List.filter_app, IH by (intros c' Hc'; apply Hne; by right). rewrite app_nil_r.
  destruct (List.filter _ (g c)) as [|kv r] eqn:E; [done|]. assert (In kv (List.filter (for_target k) (g c))) as Hin by (rewrite E; by left).
  apply filter_In in Hin as [Hin Hk%bool_decide_eq_true]. apply list_elem_of_In, Hg in Hin. destruct (Hne c); [left|congruence].
Qed.
End Targets.

(** ** The attributes of an answered section, by name *)
Lemma values_app a b name : values_of (a ++ b) name = values_of a name ++ values_of b name.
Proof. unfold values_of. by rewrite List.filter_app, omap_app. Qed.

Lemma values_bind {A} (g : A -> list Attribute) l name : values_of (l ≫= g) name = l ≫= fun x => values_of (g x) name.
Proof. induction l as [|x l IH]; [done|]. by rewrite !bind_cons, values_app, IH. Qed.

Lemma values_none {A} (g : A -> Attribute) l name : (forall x, named name (g x) = false) -> values_of (g <$> l) name = [].
Proof. intros Hg. unfold values_of. induction l as [|x l IH]; [done|]. cbn. by rewrite Hg. Qed.
Lemma values_all {A} (g : A -> bytes) (s : string) l : values_of ((fun x => attr s (g x)) <$> l) (octets s) = g <$> l.
Proof. unfold values_of. induction l as [|x l IH]; [done|]. cbn -[octets]. unfold named at 1. cbn -[octets]. rewrite bool_decide_eq_true_2 by done. cbn. by f_equal. Qed.
Lemma bind_empty {A B} (l : list A) (g : A -> list B) : (forall x, g x = []) -> l ≫= g = [].
Proof. intros Hg. induction l as [|x l IH]; [done|]. by rewrite bind_cons, Hg, IH. Qed.

(** ** One codec *)
Definition target (c : RtpCodec) : bytes := show (payload_type c).
Definition rtpmap_rest (c : RtpCodec) : bytes :=
  codec_name c ++ octets "/" ++ show (clock_rate c) ++ (if 1 <? channels c then octets "/" ++ show (channels c) else []).

Lemma split_target c x : codec_wf c -> split_attribute_target (target c ++ octets " " ++ x) = Some (target c, x).
Proof. intros [(Hp & _) _]. apply split_once_Some. split; [done|]. apply show_free; lia. Qed.

Lemma parse_rtpmap_rest c : codec_wf c -> parse_rtpmap (rtpmap_rest c) = Ok (codec_name c, clock_rate c, channels c).
Proof.
  intros [(_ & Hr & Hc & Hr0 & Hc0) (_ & Hn & Hne & _)]. unfold parse_rtpmap.
  assert (0x2f ∉ show (clock_rate c)) as Hs by (apply show_free; lia). assert (0x2f ∉ show (channels c)) as Hs' by (apply show_free; lia).
  assert (split 0x2f (rtpmap_rest c) = codec_name c :: show (clock_rate c) :: (if 1 <? channels c then [show (channels c)] else [])) as ->.
  { unfold rtpmap_rest. change (octets "/") with [0x2f]. cbn [app]. rewrite split_app by done. f_equal.
    destruct (1 <? channels c); [rewrite split_app by done; f_equal|rewrite app_nil_r]; by apply split_part. }
  cbn [lookup list_lookup mbind option_bind]. replace (len (codec_name c) =? 0) with false by (destruct (codec_name c); [done|rewrite len_cons; pose_len; lia]).
  rewrite parse_show by (done || lia). destruct (Z.ltb_spec 1 (channels c)) as [Hgt|Hle].
  - cbn [lookup list_lookup]. rewrite parse_show by (done || lia). rewrite bool_decide_eq_false_2 by (by intros []). cbn [reject_if mbind outcome_bind].
    by replace ((0 <? clock_rate c) && (0 <? channels c)) with true by lia.
  - cbn [lookup list_lookup]. rewrite bool_decide_eq_false_2 by (by intros []). cbn [reject_if mbind outcome_bind].
    replace (channels c) with 1 by lia. by replace ((0 <? clock_rate c) && (0 <? 1)) with true by lia.
Qed.

Section Section.
Context (m : MediaDescription) (v : bytes) (selected : list RtpCodec) (extensions : list ExtMap) (config : AnswerConfig).
Let sec := rtp_section m v selected extensions config.

(** None of the attributes around those of the codecs has one of their names. *)
Lemma section_values (name : bytes) : name = octets "rtpmap" \/ name = octets "fmtp" \/ name = octets "rtcp-fb" ->
  attribute_values sec name = selected ≫= fun c => values_of (codec_attributes c) name.
Proof.
  intros Hname. unfold attribute_values, sec, rtp_section. cbn [media_attributes]. rewrite !values_app, !values_bind.
  assert (values_of (transport_attributes v (reciprocal (direction m)) config) name = []) as ->.
  { destruct (reciprocal (direction m)), Hname as [->|[->| ->]]; reflexivity. }
  assert (values_of [flag (octets "rtcp-mux")] name = []) as -> by by destruct Hname as [->|[->| ->]].
  assert (values_of (candidate_attributes config) name = []) as ->.
  { unfold candidate_attributes. rewrite values_app, values_none by (intros x; destruct Hname as [->|[->| ->]]; reflexivity). by destruct Hname as [->|[->| ->]]. }
  rewrite (bind_empty extensions), !app_nil_r; [done|]. intros e. unfold extension_attributes. case_bool_decide; [|done]. by destruct Hname as [->|[->| ->]].
Qed.

Context (Hwf : Forall codec_wf selected) (Hnd : NoDup (payload_type <$> selected)).

Lemma target_inj c c' : codec_wf c -> codec_wf c' -> target c = target c' -> payload_type c = payload_type c'.
Proof.
  intros [(H1 & _) _] [(H2 & _) _] E. pose proof (parse_show 8 (payload_type c) ltac:(lia) ltac:(unfold fits; lia)) as P1.
  unfold target in E. rewrite E, parse_show in P1; [congruence|lia|unfold fits; lia].
Qed.

Lemma targets_nodup : NoDup (target <$> selected).
Proof.
  clear -Hwf Hnd. induction Hwf as [|c l Hc Hl IH]; [constructor|]. rewrite fmap_cons in *. apply NoDup_cons in Hnd as [Hn Hnd']. apply NoDup_cons. split; [|by apply IH].
  rewrite list_elem_of_fmap. intros (c' & E & Hc'). apply Hn. rewrite (target_inj c c'); [by apply list_elem_of_fmap_2|done| |done].
  rewrite Forall_forall in Hl. auto.
Qed.

(** The targeted values of the three attributes of codecs. *)
Lemma targeted_group (name : bytes) (g : RtpCodec -> list bytes) : name = octets "rtpmap" \/ name = octets "fmtp" \/ name = octets "rtcp-fb" ->
  (forall c, values_of (codec_attributes c) name = (fun x => target c ++ octets " " ++ x) <$> g c) ->
  targeted sec name = selected ≫= fun c => (fun x => (target c, x)) <$> g c.
Proof.
  intros Hname Hg. unfold targeted. rewrite section_values by done. clear -Hwf Hg. induction Hwf as [|c l Hc Hl IH]; [done|]. specialize (IH Hl).
  rewrite !bind_cons, omap_app, IH. f_equal. rewrite Hg. induction (g c) as [|x r IHr]; [done|]. rewrite !fmap_cons. cbn [omap list_omap].
  rewrite split_target by done. f_equal. exact IHr.
Qed.

Lemma codec_values c name : values_of (codec_attributes c) name = values_of [attr "rtpmap" (rtpmap_text c)] name ++
  values_of (match fmtp c with Some f => [attr "fmtp" (target c ++ octets " " ++ f)] | None => [] end) name ++
  values_of ((fun f => attr "rtcp-fb" (target c ++ octets " " ++ f)) <$> rtcp_feedback c) name.
Proof. by rewrite <- !values_app. Qed.

Lemma rtpmap_targeted : targeted sec (octets "rtpmap") = selected ≫= fun c => (fun x => (target c, x)) <$> [rtpmap_rest c].
Proof.
  apply targeted_group; [by left|]. intros c. rewrite codec_values.
  rewrite (values_none _ (rtcp_feedback c)) by reflexivity. destruct (fmtp c); reflexivity.
Qed.
Lemma fmtp_targeted : targeted sec (octets "fmtp") = selected ≫= fun c => (fun x => (target c, x)) <$> option_list (fmtp c).
Proof.
  apply targeted_group; [by right; left|]. intros c. rewrite codec_values.
  rewrite (values_none _ (rtcp_feedback c)) by reflexivity. destruct (fmtp c); reflexivity.
Qed.
Lemma feedback_targeted : targeted sec (octets "rtcp-fb") = selected ≫= fun c => (fun x => (target c, x)) <$> rtcp_feedback c.
Proof.
  apply targeted_group; [by right; right|]. intros c. rewrite codec_values, values_all.
  destruct (fmtp c); reflexivity.
Qed.

Lemma group_keys {V} (g : RtpCodec -> list V) c' (kv : bytes * V) : kv ∈ (fun x => (target c', x)) <$> g c' -> kv.1 = target c'.
Proof. intros Hkv. by apply list_elem_of_fmap in Hkv as (x & -> & _). Qed.

Lemma codec_read_back c : c ∈ selected -> codec_of sec (target c) = Ok (Some c).
Proof.
  intros Hc. pose proof Hwf as Hall. rewrite Forall_forall in Hall. pose proof (Hall c Hc) as Hcw. pose proof (cw_numbers _ Hcw) as (Hpt & _).
  pose proof targets_nodup as Hnd'. assert (parse_payload_type (target c) = Ok (payload_type c)) as Hparse.
  { unfold parse_payload_type, target. rewrite parse_show by (lia || unfold fits; lia). cbn [mbind option_bind]. by replace (payload_type c <=? 127) with true by lia. }
  unfold codec_of. rewrite Hparse. cbn [mbind outcome_bind]. unfold find_prefixed_attribute.
  change (omap split_attribute_target (values_of (media_attributes sec) (octets "rtpmap"))) with (targeted sec (octets "rtpmap")).
  change (find (fun kv : bytes * bytes => bool_decide (kv.1 = target c))) with (find (for_target (V:=bytes) (target c))).
  rewrite find_filter, rtpmap_targeted. rewrite (filter_group target _ selected c (group_keys _) Hnd' Hc). cbn [fmap list_fmap head option_fmap option_map snd].
  rewrite parse_rtpmap_rest by done. cbn [mbind outcome_bind]. unfold attribute_map, attribute_multimap. rewrite fmtp_targeted, feedback_targeted.
  rewrite map_lookup, !multimap_lookup. rewrite !(filter_group target _ selected c (group_keys _) Hnd' Hc).
  rewrite (filter_other target _ selected (octets "*") (group_keys _)).
  2: { intros c' Hc' E. apply (show_free (payload_type c') 42); [destruct (cw_numbers _ (Hall c' Hc')); lia|lia|]. unfold target in E. rewrite E. left. }
  rewrite <- !list_fmap_compose. unfold compose. cbn [snd]. rewrite !list_fmap_id, fmap_nil, app_nil_r. destruct c as [? ? ? ? [f|] ?]; reflexivity.
Qed.

Lemma codecs_read_back : codecs sec = Ok selected.
Proof.
  unfold codecs. change (formats sec) with (target <$> selected).
  assert (forall l acc, (forall c, c ∈ l -> c ∈ selected) -> codecs_loop sec (target <$> l) acc = Ok (acc ++ l)) as H.
  { induction l as [|c l IH]; intros acc Hl; [cbn; by rewrite app_nil_r|]. rewrite fmap_cons. cbn [codecs_loop]. rewrite codec_read_back by (apply Hl; left).
    cbn [mbind outcome_bind option_list]. rewrite IH by (intros c' Hc'; apply Hl; by right). by rewrite <- app_assoc. }
  rewrite H; [done|auto].
Qed.
End Section.
