(* ===== verification/SdpSafety.v ===== *)
(** * webrtc/sdp: theorems about offers and answers *)
From S2P Require Import Prelude Words Slices RustStd RustStr RustText Sdp SdpRender SdpAnswer.

(** ** Validated offers *)
Definition present {A} (o : option A) : Prop := o <> None.

(** What a section that is not switched off has to bring along. *)
Definition section_ready (d : SessionDescription) (m : MediaDescription) : Prop := port m = 0 \/
  (present (effective_attribute d m (octets "ice-ufrag")) /\ present (effective_attribute d m (octets "ice-pwd")) /\
   present (effective_attribute d m (octets "fingerprint")) /\
   (effective_attribute d m (octets "setup") = Some (octets "actpass") \/ effective_attribute d m (octets "setup") = Some (octets "active")) /\
   (is_rtp (media_kind m) = true -> has_attribute m (octets "rtcp-mux") = true /\ exists cs, codecs m = Ok cs)).

Lemma setup_accepted (v : option bytes) : match v ≫= parse_setup with Some (ActPass | Active) => true | _ => false end = true <->
  v = Some (octets "actpass") \/ v = Some (octets "active").
Proof.
  destruct v as [v|]; [|split; [done|by intros [|]]]. cbn [mbind option_bind]. unfold parse_setup.
  case_bool_decide as H1; [subst; split; auto|]. case_bool_decide as H2; [subst; split; auto|].
  assert (~ (Some v = Some (octets "actpass") \/ Some v = Some (octets "active"))) as Hno by (intros [E|E]; congruence).
  split; [|by intros ?%Hno]. by repeat case_bool_decide.
Qed.

Lemma validate_media_Ok d m v : validate_media d m v = Ok tt <-> section_ready d m.
Proof.
  unfold validate_media, section_ready. destruct (Z.eqb_spec (port m) 0) as [|Hp]; [split; auto|]. split.
  - intros H. right. apply bind_Ok in H as ([] & H1%reject_if_Ok & H). apply bind_Ok in H as ([] & H2%reject_if_Ok & H).
    apply bind_Ok in H as ([] & H3%reject_if_Ok & H). apply negb_false_iff, setup_accepted in H3. apply orb_false_iff in H1 as [H0 H1].
    unfold present. split_and!; [by intros E; rewrite E in H0|by intros E; rewrite E in H1|by intros E; rewrite E in H2|done|].
    intros Hk. rewrite Hk in H. apply bind_Ok in H as ([] & H4%reject_if_Ok%negb_false_iff & H). apply bind_Ok in H as (cs & Hcs & _). eauto.
  - intros [|(H0 & H1 & H2 & H3 & H4)]; [done|]. unfold present in *.
    destruct (effective_attribute d m (octets "ice-ufrag")); [|done]. destruct (effective_attribute d m (octets "ice-pwd")); [|done].
    destruct (effective_attribute d m (octets "fingerprint")); [|done]. apply setup_accepted in H3. rewrite H3. cbn [is_none orb negb reject_if mbind outcome_bind].
    destruct (is_rtp (media_kind m)); [|done]. destruct (H4 eq_refl) as [-> [cs ->]]. done.
Qed.

Definition mids_are (ms : list MediaDescription) (mids : list bytes) : Prop := Forall2 (fun m v => mid m = Some v) ms mids.

Lemma validate_sections_Ok d bs ms seen seen' : validate_sections d bs ms seen = Ok seen' <->
  exists mids, mids_are ms mids /\ NoDup mids /\ (forall v, v ∈ mids -> (v ∉ seen) /\ v ∈ bs) /\ Forall (section_ready d) ms /\ seen' = list_to_set mids ∪ seen.
Proof.
  unfold mids_are. revert seen. induction ms as [|m ms IH]; intros seen; cbn [validate_sections].
  - split.
    + intros [= <-]. exists []. split_and!; [constructor|constructor|by intros v ?%not_elem_of_nil|constructor|set_solver].
    + intros (mids & Hm & _ & _ & _ & ->). inversion Hm; subst. f_equal. set_solver.
  - split.
    + intros H. apply bind_Ok in H as (v & Hv%ok_or_Ok & H). apply bind_Ok in H as ([] & Hs%reject_if_Ok%bool_decide_eq_false & H).
      apply bind_Ok in H as ([] & Hb%reject_if_Ok%negb_false_iff%bool_decide_eq_true & H). apply bind_Ok in H as ([] & Hr%validate_media_Ok & H).
      apply IH in H as (mids & Hm & Hn & Hin & Hf & ->). exists (v :: mids). split_and!; [by constructor| | |by constructor|set_solver].
      * constructor; [|done]. intros Hv'%Hin. set_solver.
      * intros w [->|Hw]%elem_of_cons; [done|]. destruct (Hin w Hw). set_solver.
    + intros (mids & Hm & Hn & Hin & Hf & ->). inversion Hm as [|? v ? mids' Hv Hm']; subst. apply NoDup_cons in Hn as [Hv' Hn]. apply Forall_cons in Hf as [Hr Hf].
      destruct (Hin v) as [Hs Hb]; [left|]. rewrite Hv. cbn [ok_or mbind outcome_bind]. rewrite (bool_decide_eq_false_2 (v ∈ seen)), (bool_decide_eq_true_2 (v ∈ bs)) by done.
      cbn [negb reject_if mbind outcome_bind]. rewrite (proj2 (validate_media_Ok d m v)) by done. cbn [mbind outcome_bind]. apply IH. exists mids'.
      split_and!; [done|done| |done|set_solver]. intros w Hw. destruct (Hin w) as [Hw1 Hw2]; [by right|]. split; [|done].
      rewrite not_elem_of_union, not_elem_of_singleton. split; [|done]. by intros ->.
Qed.

Lemma check_bundle_Ok mids seen : check_bundle mids seen = Ok tt <-> Forall (fun v => v ∈ seen) mids.
Proof.
  induction mids as [|v mids IH]; cbn [check_bundle]; [split; [constructor|done]|]. rewrite Forall_cons, <- IH. split.
  - intros H. by apply bind_Ok in H as ([] & Hv%reject_if_Ok%negb_false_iff%bool_decide_eq_true & H).
  - intros [Hv H]. by rewrite bool_decide_eq_true_2.
Qed.

Lemma validate_offer_Ok d : validate_webrtc_offer d = Ok tt <->
  exists mids, mids_are (media d) mids /\ NoDup mids /\ (forall v, v ∈ mids <-> v ∈ bundle_mids d) /\ Forall (section_ready d) (media d).
Proof.
  unfold validate_webrtc_offer. cbv zeta. split.
  - intros H. apply bind_Ok in H as (seen & Hs & H). apply validate_sections_Ok in Hs as (mids & Hm & Hn & Hin & Hf & ->).
    apply check_bundle_Ok in H. exists mids. split_and!; [done|done| |done]. intros v. split.
    + intros Hv. destruct (Hin v Hv) as [_ Hb]. by apply elem_of_list_to_set in Hb.
    + intros Hv. rewrite Forall_forall in H. apply H in Hv. set_solver.
  - intros (mids & Hm & Hn & Hin & Hf).
    assert (validate_sections d (list_to_set (bundle_mids d)) (media d) ∅ = Ok (list_to_set mids ∪ ∅)) as ->.
    { apply validate_sections_Ok. exists mids. split_and!; [done|done| |done|done]. intros v Hv. split; [apply not_elem_of_empty|]. by apply elem_of_list_to_set, Hin. }
    cbn [mbind outcome_bind]. apply check_bundle_Ok, Forall_forall. intros v Hv%Hin. set_solver.
Qed.

(** ** Answered sections *)
Record section_view (config : AnswerConfig) (m sec : MediaDescription) : Prop := {
  sv_same : mid sec = mid m /\ media_kind sec = media_kind m /\ protocol sec = protocol m;
  sv_state : (port sec = 0 /\ direction sec = Inactive /\ formats sec = formats m) \/
    (port sec <> 0 /\ port m <> 0 /\ direction sec = reciprocal (direction m) /\ media_attribute sec (octets "setup") = Some (octets "passive") /\
     media_attribute sec (octets "ice-ufrag") = Some (ice_ufrag config) /\ media_attribute sec (octets "ice-pwd") = Some (ice_password config)) }.

Lemma direction_transport k p pr fs c v d config rest :
  direction {| media_kind := k; port := p; protocol := pr; formats := fs; media_connection := c;
    media_attributes := transport_attributes v d config ++ rest |} = d.
Proof. by destruct d. Qed.

Lemma answers_view config m sec : answers config m sec -> section_view config m sec.
Proof.
  intros (v & Hv & H). destruct H as [selected extensions Hk Hport Hs Hne He|Hk Hport Hd|Hrej]; split; try rewrite Hv; section_fields.
  - by split_and!.
  - right. split_and!; [done|done|apply direction_transport|done..].
  - split_and!; [done|by rewrite Hk|done].
  - right. split_and!; [done|done|apply direction_transport|done..].
  - by split_and!.
  - by left.
Qed.

(** A codec that the configuration supports for this kind of section. *)
Definition supported (config : AnswerConfig) (k : MediaKind) (c : RtpCodec) : Prop :=
  eq_ignore_ascii_case (codec_name c) (octets "rtx") = false /\
  exists cap, In cap (match k with Audio => audio_codecs config | Video => video_codecs config | _ => [] end) /\ capability_matches cap c = true.

Lemma select_primary (P : RtpCodec -> bool) offered pt :
  pt ∈ (list_to_set (payload_type <$> List.filter P offered) : gset Z) -> exists c, In c offered /\ P c = true /\ payload_type c = pt.
Proof.
  rewrite elem_of_list_to_set, list_elem_of_fmap. intros (c & -> & Hc). apply list_elem_of_In, filter_In in Hc as [? ?]. eauto.
Qed.

Lemma select_spec m config selected : select_codecs m config = Ok selected -> exists offered, codecs m = Ok offered /\
  forall c, In c selected -> In c offered /\ exists c0, In c0 offered /\ supported config (media_kind m) c0 /\
    (payload_type c = payload_type c0 \/ associated_payload_type c = Some (payload_type c0)).
Proof.
  intros H. unfold select_codecs in H. apply bind_Ok in H as (offered & Ho & H). exists offered. split; [done|].
  assert (forall caps, match media_kind m with Audio => audio_codecs config | Video => video_codecs config | _ => [] end = caps ->
    select_from m caps offered = Ok selected -> forall c, In c selected -> In c offered /\ exists c0, In c0 offered /\ supported config (media_kind m) c0 /\
      (payload_type c = payload_type c0 \/ associated_payload_type c = Some (payload_type c0))) as Hsel.
  { intros caps Hcaps Hs c Hc. unfold select_from in Hs. inv_ok Hs. subst selected. apply filter_In in Hc as [Hc Hp]. split; [done|].
    assert (forall pt, pt ∈ (list_to_set (payload_type <$> List.filter (is_primary caps) offered) : gset Z) ->
      exists c0, In c0 offered /\ supported config (media_kind m) c0 /\ payload_type c0 = pt) as Hprim.
    { intros pt (c0 & H0 & [H1%negb_true_iff (cap & H2)%existsb_exists]%andb_true_iff & E)%select_primary. exists c0. split_and!; [done| |done].
      split; [done|]. exists cap. by rewrite Hcaps. }
    apply orb_true_iff in Hp as [Hp%bool_decide_eq_true|Hp].
    - apply Hprim in Hp as (c0 & H0 & Hsup & E). exists c0. split_and!; [done|done|by left].
    - destruct (associated_payload_type c) as [p|]; [|done]. apply bool_decide_eq_true, Hprim in Hp as (c0 & H0 & Hsup & E).
      exists c0. split_and!; [done|done|right; by rewrite E]. }
  destruct (media_kind m); [by eapply Hsel|by eapply Hsel|by injection H as <-|by injection H as <-].
Qed.

(** ** The answer as it is read back *)
Lemma session_formats d : session_wf d -> Forall (fun m => formats m <> []) (media d).
Proof. intros Hd. eapply Forall_impl; [apply (sd_media _ Hd)|]. intros m Hm. apply (md_words _ Hm). Qed.

Lemma answers_all_wf config ms secs : config_plain config -> Forall media_wf ms -> Forall2 (answers config) ms secs -> Forall media_wf secs.
Proof.
  intros Hc Hall Hs. induction Hs as [|m sec ms secs Ha _ IH]; [constructor|]. apply Forall_cons in Hall as [Hm Hall]. constructor; [by eapply answers_wf|auto].
Qed.

Lemma answer_session_wf offer config mids secs : session_wf offer -> config_plain config -> mids_are (media offer) mids ->
  Forall2 (answers config) (media offer) secs -> session_wf (answer_session mids secs config).
Proof.
  intros Hd Hc Hm Hs. pose proof Hc as [C1 (_ & _ & C2 & C3) _]. assert (Forall plain mids) as Hp.
  { clear Hs. pose proof (sd_media _ Hd) as Hall. unfold mids_are in Hm. induction Hm as [|m v ms mids Hv _ IH]; [constructor|].
    apply Forall_cons in Hall as [Hm Hall]. constructor; [by eapply mid_plain|by apply IH]. }
  split; cbn [answer_session version origin session_name timing session_connection session_attributes media]; [done| | |].
  - split_and!; [|plain_lit|plain_lit|done]. rewrite !plain_app. split_and!; [plain_lit|by apply plain_show|plain_lit].
  - repeat apply Forall_cons_2; [attr_wf_tac|attr_wf_tac|attr_wf_tac|constructor].
    + apply plain_join. constructor; [plain_lit|done].
    + rewrite !plain_app. split_and!; [done|plain_lit|done].
  - eapply answers_all_wf; [done|apply (sd_media _ Hd)|done].
Qed.

(** An answer that was written and fits the limits of the parser, with what it was made from. *)
Lemma answer_read_back input offer config text : tidy input -> parse input = Ok offer -> config_plain config -> create_sfu_answer offer config = Ok text ->
  media offer <> [] -> Forall (fun l => len l <= MAX_LINE_BYTES) (lines text) ->
  exists mids secs, validate_webrtc_offer offer = Ok tt /\ mids_are (media offer) mids /\ Forall2 (answers config) (media offer) secs /\
    Forall media_wf (media offer) /\ parse text = Ok (answer_session mids secs config).
Proof.
  intros Ht Hp Hc Ha Hne Hl. pose proof (parsed_session_wf input offer Ht Hp) as Hd. pose proof (session_formats offer Hd) as Hf.
  destruct (create_answer_text offer config text Hf Ha) as (Hval & mids & secs & Hm & Hs & -> & Hlen). exists mids, secs. split_and!; [done|done|done|apply (sd_media _ Hd)|].
  pose proof (answer_session_wf offer config mids secs Hd Hc Hm Hs) as Hw. apply parse_render_ok; [done|by apply Hlen|].
  unfold render in Hl. rewrite lines_crlf in Hl; [done|]. eapply Forall_impl; [by apply session_lines_plain|]. by intros l [].
Qed.

Lemma answer_mids config offer mids secs : mids_are (media offer) mids -> Forall2 (answers config) (media offer) secs -> mids_are secs mids.
Proof.
  intros Hm Hs. unfold mids_are in *. revert mids Hm. induction Hs as [|m sec ms secs Ha _ IH]; intros mids Hm; inversion Hm; subst; constructor; [|by apply IH].
  destruct (sv_same _ _ _ (answers_view _ _ _ Ha)) as (-> & _). done.
Qed.

Lemma answer_bundle mids secs config : Forall word mids -> bundle_mids (answer_session mids secs config) = mids.
Proof.
  intros Hw. unfold bundle_mids, answer_session. cbn [session_attributes].
  change (values_of [flag (octets "ice-lite"); attr "group" (join 32 (octets "BUNDLE" :: mids));
    attr "fingerprint" (fingerprint_algorithm config ++ octets " " ++ fingerprint config)] (octets "group")) with [join 32 (octets "BUNDLE" :: mids)].
  cbn [omap list_omap]. unfold bundle_group. rewrite split_whitespace_join.
  - reflexivity.
  - constructor; [|done]. split; [done|]. vm_compute. repeat constructor.
Qed.

Lemma validated_words offer mids : validate_webrtc_offer offer = Ok tt -> mids_are (media offer) mids -> Forall word mids.
Proof.
  intros (mids' & Hm' & _ & Hin & _)%validate_offer_Ok Hm. assert (mids = mids') as ->.
  { clear Hin. unfold mids_are in *. revert mids' Hm'. induction Hm as [|m v ms mids Hv _ IH]; intros mids' Hm'; inversion Hm'; subst; [done|].
    f_equal; [congruence|by apply IH]. }
  apply Forall_forall. intros v Hv%Hin. unfold bundle_mids in Hv.
  destruct (head (omap bundle_group (values_of (session_attributes offer) (octets "group")))) as [g|] eqn:E; [|by apply not_elem_of_nil in Hv].
  apply head_Some_elem_of, list_elem_of_omap in E as (value & _ & Hg). cbn in Hv. unfold bundle_group in Hg.
  pose proof (split_whitespace_words value) as Hw. destruct (split_whitespace value) as [|semantics ws]; [done|]. case_match; [|done]. injection Hg as <-.
  apply Forall_cons in Hw as [_ Hw]. rewrite Forall_forall in Hw. auto.
Qed.

(** ** Theorems

    An offer with audio, video with retransmission, and a data channel. *)
Definition document (l : list string) : bytes := crlf_lines (octets <$> l).
Definition demo_input : bytes := document
  ["v=0"; "o=- 1 2 IN IP4 127.0.0.1"; "s=-"; "t=0 0"; "a=group:BUNDLE 0 1 2"; "a=ice-ufrag:abcd"; "a=ice-pwd:0123456789"; "a=fingerprint:sha-256 AA:BB";
   "a=setup:actpass"; "m=audio 9 UDP/TLS/RTP/SAVPF 111 0"; "a=mid:0"; "a=sendonly"; "a=rtcp-mux"; "a=rtpmap:111 opus/48000/2"; "a=fmtp:111 minptime=10";
   "a=extmap:1/sendonly urn:x a b"; "m=video 9 UDP/TLS/RTP/SAVPF 96 97 98"; "a=mid:1"; "a=rtcp-mux"; "a=rtpmap:96 VP8/90000"; "a=rtpmap:97 rtx/90000";
   "a=fmtp:97 apt=96"; "a=rtpmap:98 H264/90000"; "a=rtcp-fb:* nack"; "a=rtcp-fb:96 goog-remb"; "m=application 9 UDP/DTLS/SCTP webrtc-datachannel"; "a=mid:2";
   "a=sctp-port:5000"]%string.
Definition demo_config : AnswerConfig := {| session_id := 42; ice_ufrag := octets "uf"; ice_password := octets "pw"; fingerprint_algorithm := octets "sha-256";
  fingerprint := octets "CC"; candidates := [octets "1 1 udp"]; audio_codecs := audio_codecs (mvp 0 [] [] []); video_codecs := video_codecs (mvp 0 [] [] []);
  extension_uris := {[octets "urn:x"]}; accept_data_channel := true |}.
Definition no_session : SessionDescription :=
  {| version := []; origin := []; session_name := []; timing := []; session_connection := None; session_attributes := []; media := [] |}.
Definition demo_offer : SessionDescription := match parse demo_input with Ok d => d | _ => no_session end.
Definition demo_answer : bytes := match create_sfu_answer demo_offer demo_config with Ok t => t | _ => [] end.

Lemma demo_tidy : tidy demo_input.
Proof. apply (bool_decide_unpack _). vm_compute. exact I. Qed.
Lemma demo_parse : parse demo_input = Ok demo_offer.
Proof. vm_compute. reflexivity. Qed.
Lemma demo_created : create_sfu_answer demo_offer demo_config = Ok demo_answer.
Proof. vm_compute. reflexivity. Qed.
Lemma demo_plain : config_plain demo_config.
Proof. split; [done|split_and!; plain_lit|]. constructor; [plain_lit|constructor]. Qed.
Lemma demo_lines : Forall (fun l => len l <= MAX_LINE_BYTES) (lines demo_answer).
Proof. apply (bool_decide_unpack _). vm_compute. exact I. Qed.

(** Printing a session description (one line per field, CR LF at the end of each) and parsing the result gives it back, for every
    description whose texts have no line breaks, whose media lines consist of words, and which is within the limits of the parser;
    and every description that the parser produces from a document with CR only at line ends is of that kind. *)
Theorem sdp_print_parse d input : session_wf d -> len (render d) <= MAX_SDP_BYTES -> Forall (fun l => len l <= MAX_LINE_BYTES) (session_lines d) ->
  parse (render d) = Ok d /\ (forall d', tidy input -> parse input = Ok d' -> session_wf d').
Proof. intros H1 H2 H3. split; [by apply parse_render_ok|]. intros d'. apply parsed_session_wf. Qed.
Lemma sdp_print_parse_witness : parse (render demo_offer) = Ok demo_offer.
Proof.
  refine (proj1 (sdp_print_parse demo_offer demo_input (parsed_session_wf _ _ demo_tidy demo_parse) _ _)).
  - vm_compute. discriminate.
  - apply (bool_decide_unpack _). vm_compute. exact I.
Defined.

(** An offer is accepted exactly when every section has an MID, the MIDs are distinct and are precisely those of the first BUNDLE
    group, and every section that is not switched off has ICE credentials, a fingerprint and the setup role actpass or active, its
    own or the session's, and, if it carries RTP, rtcp-mux and readable codecs. *)
Theorem offer_validation_exact d : validate_webrtc_offer d = Ok tt <->
  exists mids, mids_are (media d) mids /\ NoDup mids /\ (forall v, v ∈ mids <-> v ∈ bundle_mids d) /\ Forall (section_ready d) (media d).
Proof. apply validate_offer_Ok. Qed.


(** Codec negotiation: in the parsed answer, the codecs of every RTP section that is on are read back as exactly the selected
    ones, with their names, clock rates, channels, format parameters and feedback; each of them was offered, and has the payload
    type of an offered codec that the configuration supports or is the retransmission of one (for an offer without repeated
    payload types). *)
Theorem answer_codecs input offer config text : tidy input -> parse input = Ok offer -> config_plain config -> create_sfu_answer offer config = Ok text ->
  media offer <> [] -> Forall (fun l => len l <= MAX_LINE_BYTES) (lines text) ->
  exists answer, parse text = Ok answer /\ Forall2 (fun m sec => is_rtp (media_kind m) = true -> port sec <> 0 ->
    exists offered selected, codecs m = Ok offered /\ selected <> [] /\
      (forall c, In c selected -> In c offered /\ exists c0, In c0 offered /\ supported config (media_kind m) c0 /\
        (payload_type c = payload_type c0 \/ associated_payload_type c = Some (payload_type c0))) /\
      (NoDup (payload_type <$> selected) -> codecs sec = Ok selected)) (media offer) (media answer).
Proof.
  intros Ht Hp Hc Ha Hne Hl. destruct (answer_read_back input offer config text Ht Hp Hc Ha Hne Hl) as (mids & secs & _ & _ & Hs & Hwf & Hparse).
  exists (answer_session mids secs config). split; [done|]. cbn [media answer_session]. clear -Hs Hwf. induction Hs as [|m sec ms secs (v & _ & H) _ IH]; [constructor|].
  apply Forall_cons in Hwf as [Hm Hwf]. constructor; [|by apply IH]. intros Hk Hport.
  destruct H as [selected extensions _ _ Hsel Hnil _|Hk' _ _|_]; [|by rewrite Hk' in Hk|done].
  destruct (select_spec _ _ _ Hsel) as (offered & Ho & Hspec). exists offered, selected. split_and!; [done|done|done|]. intros Hnd.
  apply codecs_read_back; [|done]. by eapply select_wf; [apply (md_attributes _ Hm)|].
Qed.
Lemma answer_codecs_witness : exists answer, parse demo_answer = Ok answer /\ length (media answer) = 3%nat.
Proof.
  destruct (answer_codecs demo_input demo_offer demo_config demo_answer demo_tidy demo_parse demo_plain demo_created ltac:(vm_compute; discriminate) demo_lines)
    as (answer & H1 & H2). exists answer. split; [assumption|]. apply Forall2_length in H2. rewrite <- H2. vm_compute. reflexivity.
Defined.

(** A section that the offer has switched off is validated without its codecs, but they are still read for the answer: an acceptable
    offer whose switched-off section names a payload type without an rtpmap gets no answer at all. *)
Definition off_input : bytes := document
  ["v=0"; "o=- 1 2 IN IP4 127.0.0.1"; "s=-"; "t=0 0"; "a=group:BUNDLE 0 1"; "a=ice-ufrag:abcd"; "a=ice-pwd:0123456789"; "a=fingerprint:sha-256 AA:BB";
   "a=setup:actpass"; "m=audio 9 UDP/TLS/RTP/SAVPF 111"; "a=mid:0"; "a=rtcp-mux"; "a=rtpmap:111 opus/48000/2"; "m=video 0 UDP/TLS/RTP/SAVPF 96"; "a=mid:1"]%string.
Lemma switched_off_section_refused : exists offer, parse off_input = Ok offer /\ validate_webrtc_offer offer = Ok tt /\
  create_sfu_answer offer demo_config = Err (new_error (InvalidRtpMap (octets "96"))).
Proof.
  exists (match parse off_input with Ok d => d | _ => no_session end). split_and!; vm_compute; reflexivity.
Qed.
