(* ===== verification/MediaPipeline.v ===== *)
(** * media/media-pipeline: live playlists, the life of a VOD asset, worker processes (src/lib.rs)

    Paths are those of Unix: octets split at ['/'].  A duration is its seconds and nanoseconds; the one
    floating-point computation, the seconds of a segment printed with three decimals, is carried out with
    the IEEE 754 operations of [SpecFloat] at 53 bits. *)
From Stdlib Require Import SpecFloat.
From S2P Require Import Prelude Words Slices RustStd RustStr RustText.

Inductive PipelineError :=
| InvalidSegment (field : bytes)
| InvalidUri
| InvalidWindow
| PlaylistEnded
| UnexpectedSequence (expected actual : Z)
| SequenceExhausted
| InvalidIdentifier
| InvalidAssetTransition
| UploadRegression
| UploadSizeMismatch
| OutputRegression
| InvalidDuration
| InvalidFailureReason
| VersionExhausted
| InvalidPath
| InvalidWorkerSpec
| InvalidRendition.

(** ** Paths

    [Path::components] skips empty pieces and [.] except at the start, and a path is absolute when it
    starts at the root. *)
Definition SLASH : Z := 0x2f.
Definition is_absolute (path : bytes) : bool := match path with c :: _ => c =? SLASH | [] => false end.
Definition has_parent_dir (path : bytes) : bool := existsb (fun piece => bool_decide (piece = octets "..")) (split SLASH path).
Definition normal_pieces (path : bytes) : list bytes := filter (fun piece => piece <> [] /\ piece <> octets ".") (split SLASH path).
Definition file_name (path : bytes) : option bytes :=
  piece ← last (normal_pieces path); if bool_decide (piece = octets "..") then None else Some piece.

(** The root directory is the only component besides the pieces, and there are no prefixes. *)
Definition contains (value : bytes) (c : Z) : bool := bool_decide (c ∈ value).
Definition validate_relative_uri (uri : bytes) : outcome PipelineError unit :=
  _ ← reject_if ((len uri =? 0) || (1024 <? len uri) || contains uri 0x5c || contains uri CR || contains uri LF || contains uri 0x3f || contains uri 0x23) InvalidUri;
  reject_if (is_absolute uri || has_parent_dir uri) InvalidUri.

(** ** Segments *)
Definition NANOS_PER_SEC : Z := 1000000000.
Record Duration := { secs : Z; nanos : Z }.
Definition total_nanos (d : Duration) : Z := secs d * NANOS_PER_SEC + nanos d.
Definition from_mins (n : Z) : Duration := {| secs := 60 * n; nanos := 0 |}.

Record Segment := { sequence : Z; duration : Duration; uri : bytes; discontinuity : bool; program_date_time : option bytes }.

Definition validate_segment (self : Segment) : outcome PipelineError unit :=
  _ ← reject_if ((total_nanos (duration self) =? 0) || (total_nanos (from_mins 1) <? total_nanos (duration self))) (InvalidSegment (octets "duration"));
  _ ← validate_relative_uri (uri self);
  reject_if match program_date_time self with
    | Some value => (64 <? len value) || negb (bool_decide (last value = Some 0x5a))
    | None => false
    end (InvalidSegment (octets "program date time")).

(** ** The live window *)
Record LivePlaylist := { init_uri : bytes; window_size : Z; segments : list Segment; next_sequence : Z; ended : bool }.

Definition new_playlist (init_uri : bytes) (window_size first_sequence : Z) : outcome PipelineError LivePlaylist :=
  _ ← validate_relative_uri init_uri;
  _ ← reject_if (negb (in_range 3 10000 window_size)) InvalidWindow;
  Ok {| init_uri := init_uri; window_size := window_size; segments := []; next_sequence := first_sequence; ended := false |}.

(** [for segment in &self.segments]; the value is [expected] after the loop. *)
Fixpoint check_segments (segments : list Segment) (expected : Z) : outcome PipelineError Z :=
  match segments with
  | [] => Ok expected
  | segment :: segments =>
      _ ← validate_segment segment;
      _ ← reject_if (negb (sequence segment =? expected)) (UnexpectedSequence expected (sequence segment));
      expected ← ok_or (checked_add 64 expected 1) SequenceExhausted;
      check_segments segments expected
  end.
Definition first_sequence (self : LivePlaylist) : Z := match segments self with segment :: _ => sequence segment | [] => next_sequence self end.
Definition validate_playlist (self : LivePlaylist) : outcome PipelineError unit :=
  _ ← validate_relative_uri (init_uri self);
  _ ← reject_if (negb (in_range 3 10000 (window_size self)) || (window_size self <? len (segments self))) InvalidWindow;
  expected ← check_segments (segments self) (first_sequence self);
  reject_if (negb (expected =? next_sequence self)) (UnexpectedSequence expected (next_sequence self)).

Definition with_segments (self : LivePlaylist) (l : list Segment) (next : Z) : LivePlaylist :=
  {| init_uri := init_uri self; window_size := window_size self; segments := l; next_sequence := next; ended := ended self |}.
Definition push (segment : Segment) : prog LivePlaylist PipelineError (option Segment) := fun self =>
  let checked :=
    _ ← reject_if (ended self) PlaylistEnded;
    _ ← validate_segment segment;
    _ ← reject_if (negb (sequence segment =? next_sequence self)) (UnexpectedSequence (next_sequence self) (sequence segment));
    ok_or (checked_add 64 (next_sequence self) 1) SequenceExhausted in
  match checked with
  | Ok next =>
      let segments := segments self ++ [segment] in
      if window_size self <? len segments then
        match segments with
        | evicted :: segments => (with_segments self segments next, Ok (Some evicted))
        | [] => (with_segments self segments next, Ok None)
        end
      else (with_segments self segments next, Ok None)
  | Err e => (self, Err e)
  | Panic => (self, Panic)
  | Diverge => (self, Diverge)
  end.
Definition finish (self : LivePlaylist) : LivePlaylist :=
  {| init_uri := init_uri self; window_size := window_size self; segments := segments self; next_sequence := next_sequence self; ended := true |}.

(** ** Printing seconds

    [as_secs_f64] is [secs as f64 + nanos as f64 / 1e9], and [{:.3}] rounds the exact value of the result to
    thousandths, ties to even. *)
Definition f64_of (n : Z) : spec_float := binary_normalize 53 1024 n 0 false.
Definition as_secs_f64 (d : Duration) : spec_float := SFadd 53 1024 (f64_of (secs d)) (SFdiv 53 1024 (f64_of (nanos d)) (f64_of NANOS_PER_SEC)).

Definition round_half_even (n d : Z) : Z :=
  let q := n / d in let r := n mod d in
  if (d <? 2 * r) || ((2 * r =? d) && Z.odd q) then q + 1 else q.
Definition thousandths (x : spec_float) : Z :=
  match x with
  | S754_finite _ m e => if 0 <=? e then Z.pos m * 2 ^ e * 1000 else round_half_even (Z.pos m * 1000) (2 ^ (- e))
  | _ => 0
  end.
Definition pad3 (n : Z) : bytes := [48 + n / 100; 48 + n / 10 mod 10; 48 + n mod 10].
Definition fixed3 (x : spec_float) : bytes := show (thousandths x / 1000) ++ octets "." ++ pad3 (thousandths x mod 1000).

(** ** The HLS playlist *)
Definition max_duration (self : LivePlaylist) : Duration :=
  match segments self with
  | [] => {| secs := 1; nanos := 0 |}
  | first :: rest => foldl (fun best segment => if total_nanos best <=? total_nanos (duration segment) then duration segment else best) (duration first) rest
  end.
Definition target_duration (self : LivePlaylist) : Z := Z.max (secs (max_duration self)) 1 + (if 0 <? nanos (max_duration self) then 1 else 0).

Definition NEWLINE : bytes := [LF].
Definition QUOTE : bytes := [0x22].
Definition render_segment (segment : Segment) : bytes :=
  (if discontinuity segment then octets "#EXT-X-DISCONTINUITY" ++ NEWLINE else []) ++
  match program_date_time segment with Some timestamp => octets "#EXT-X-PROGRAM-DATE-TIME:" ++ timestamp ++ NEWLINE | None => [] end ++
  octets "#EXTINF:" ++ fixed3 (as_secs_f64 (duration segment)) ++ octets "," ++ NEWLINE ++ uri segment ++ NEWLINE.
Definition render (self : LivePlaylist) : bytes :=
  octets "#EXTM3U" ++ NEWLINE ++ octets "#EXT-X-VERSION:7" ++ NEWLINE ++
  octets "#EXT-X-TARGETDURATION:" ++ show (target_duration self) ++ NEWLINE ++
  octets "#EXT-X-MEDIA-SEQUENCE:" ++ show (first_sequence self) ++ NEWLINE ++
  octets "#EXT-X-MAP:URI=" ++ QUOTE ++ init_uri self ++ QUOTE ++ NEWLINE ++
  (segments self ≫= render_segment) ++
  (if ended self then octets "#EXT-X-ENDLIST" ++ NEWLINE else []).

(** ** VOD assets *)
Definition is_ascii_alphanumeric (c : Z) : bool := in_range 48 57 c || in_range 65 90 c || in_range 97 122 c.
Definition validate_identifier (value : bytes) : outcome PipelineError unit :=
  reject_if ((len value =? 0) || (128 <? len value) || negb (forallb (fun byte => is_ascii_alphanumeric byte || (byte =? 0x2d) || (byte =? 0x5f)) value)) InvalidIdentifier.

Inductive AssetState :=
| Created
| Uploading (received_bytes : Z)
| Uploaded (source_bytes : Z)
| Probing
| Transcoding (completed_outputs : Z)
| Ready (manifest_uri : bytes) (duration_millis : Z)
| Failed (reason : bytes) (retryable : bool)
| Deleting
| Deleted.
Record VodAsset := { id : bytes; tenant_id : bytes; version : Z; state : AssetState }.

Definition create (id tenant_id : bytes) : outcome PipelineError VodAsset :=
  _ ← validate_identifier id;
  _ ← validate_identifier tenant_id;
  Ok {| id := id; tenant_id := tenant_id; version := 1; state := Created |}.

Definition bad_reason (reason : bytes) : bool := (len reason =? 0) || (1024 <? len reason).
Definition minimum_version (self : VodAsset) : outcome PipelineError Z :=
  match state self with
  | Created => _ ← reject_if (negb (version self =? 1)) InvalidAssetTransition; Ok 1
  | Uploading _ | Deleting => Ok 2
  | Uploaded source_bytes => _ ← reject_if (source_bytes =? 0) UploadSizeMismatch; Ok 3
  | Probing => Ok 4
  | Transcoding _ => Ok 5
  | Ready manifest_uri duration_millis =>
      _ ← validate_relative_uri manifest_uri;
      _ ← reject_if (duration_millis =? 0) InvalidDuration;
      Ok 6
  | Failed reason _ => _ ← reject_if (bad_reason reason) InvalidFailureReason; Ok 2
  | Deleted => Ok 3
  end.
Definition validate_asset (self : VodAsset) : outcome PipelineError unit :=
  _ ← validate_identifier (id self);
  _ ← validate_identifier (tenant_id self);
  minimum_version ← minimum_version self;
  reject_if (version self <? minimum_version) InvalidAssetTransition.

Definition transition (to : AssetState) : prog VodAsset PipelineError unit := fun self =>
  match checked_add 64 (version self) 1 with
  | Some version => ({| id := id self; tenant_id := tenant_id self; version := version; state := to |}, Ok tt)
  | None => (self, Err VersionExhausted)
  end.

Definition upload_progress (received_bytes : Z) : prog VodAsset PipelineError unit :=
  state ← gets state;
  previous ← lift match state with Created => Ok 0 | Uploading received_bytes => Ok received_bytes | _ => Err InvalidAssetTransition end;
  _ ← lift (reject_if (received_bytes <? previous) UploadRegression);
  transition (Uploading received_bytes).
Definition complete_upload (source_bytes : Z) : prog VodAsset PipelineError unit :=
  state ← gets state;
  received_bytes ← lift match state with Uploading received_bytes => Ok received_bytes | _ => Err InvalidAssetTransition end;
  _ ← lift (reject_if ((source_bytes =? 0) || negb (source_bytes =? received_bytes)) UploadSizeMismatch);
  transition (Uploaded source_bytes).
Definition start_probe : prog VodAsset PipelineError unit :=
  state ← gets state;
  _ ← lift (reject_if (negb match state with Uploaded _ => true | _ => false end) InvalidAssetTransition);
  transition Probing.
Definition start_transcode : prog VodAsset PipelineError unit :=
  state ← gets state;
  _ ← lift (reject_if (negb match state with Probing | Failed _ true => true | _ => false end) InvalidAssetTransition);
  transition (Transcoding 0).
Definition set_completed_outputs (count : Z) : prog VodAsset PipelineError unit :=
  state ← gets state;
  completed_outputs ← lift match state with Transcoding completed_outputs => Ok completed_outputs | _ => Err InvalidAssetTransition end;
  _ ← lift (reject_if (count <? completed_outputs) OutputRegression);
  transition (Transcoding count).
Definition mark_ready (manifest_uri : bytes) (duration_millis : Z) : prog VodAsset PipelineError unit :=
  state ← gets state;
  _ ← lift (reject_if (negb match state with Transcoding _ => true | _ => false end) InvalidAssetTransition);
  _ ← lift (validate_relative_uri manifest_uri);
  _ ← lift (reject_if (duration_millis =? 0) InvalidDuration);
  transition (Ready manifest_uri duration_millis).
Definition terminal (state : AssetState) : bool := match state with Deleting | Deleted => true | _ => false end.
Definition fail_asset (reason : bytes) (retryable : bool) : prog VodAsset PipelineError unit :=
  state ← gets state;
  _ ← lift (reject_if (terminal state) InvalidAssetTransition);
  _ ← lift (reject_if (bad_reason reason) InvalidFailureReason);
  transition (Failed reason retryable).
Definition start_delete : prog VodAsset PipelineError unit :=
  state ← gets state;
  _ ← lift (reject_if (terminal state) InvalidAssetTransition);
  transition Deleting.
Definition finish_delete : prog VodAsset PipelineError unit :=
  state ← gets state;
  _ ← lift (reject_if (negb match state with Deleting => true | _ => false end) InvalidAssetTransition);
  transition Deleted.

(** ** Worker processes

    Arguments are passed to the program one by one, never through a shell. *)
Record Rendition := { width : Z; height : Z; video_bitrate_bps : Z; audio_bitrate_bps : Z }.
Inductive WorkerOperation := Probe | PackageHls (renditions : list Rendition) (segment_duration_millis : Z) (has_audio : bool).
Record ProcessSpec := { program : bytes; arguments : list bytes; working_directory : option bytes }.
Record LivePackageSpec := { has_video : bool; has_audio : bool; segment_duration_millis : Z; window_segments : Z; renditions : list Rendition }.
Inductive RealtimeCodec := Opus | Vp8 | Vp9 | H264 | Av1.
Definition is_audio (self : RealtimeCodec) : bool := match self with Opus => true | _ => false end.

Inductive SocketAddr := V4 (a b c d port : Z) | V6 (ip scope_id port : Z).
Definition is_loopback (addr : SocketAddr) : bool := match addr with V4 a _ _ _ _ => a =? 127 | V6 ip _ _ => ip =? 1 end.
(** [Display], of the addresses that pass the check: IPv6 has one loopback address. *)
Definition show_loopback (addr : SocketAddr) : bytes :=
  match addr with
  | V4 a b c d port => show a ++ octets "." ++ show b ++ octets "." ++ show c ++ octets "." ++ show d ++ octets ":" ++ show port
  | V6 _ scope_id port => octets "[::1" ++ (if scope_id =? 0 then [] else octets "%" ++ show scope_id) ++ octets "]:" ++ show port
  end.
Record RealtimeTranscodeSpec := {
  target_codec : RealtimeCodec; destination : SocketAddr; payload_type : Z; ssrc : Z; rt_width : Z; rt_height : Z; frames_per_second : Z; bitrate_bps : Z }.

Definition validate_rendition (self : Rendition) : outcome PipelineError unit :=
  reject_if ((width self <? 16) || (height self <? 16) || (7680 <? width self) || (4320 <? height self) ||
    negb (width self mod 2 =? 0) || negb (height self mod 2 =? 0) ||
    negb (in_range 50000 100000000 (video_bitrate_bps self)) || negb (in_range 16000 1000000 (audio_bitrate_bps self))) InvalidRendition.
Fixpoint validate_renditions (l : list Rendition) : outcome PipelineError unit :=
  match l with [] => Ok tt | rendition :: l => _ ← validate_rendition rendition; validate_renditions l end.

Definition validate_worker_path (path : bytes) (allow_missing_leaf : bool) : outcome PipelineError unit :=
  _ ← reject_if ((len path =? 0) || has_parent_dir path) InvalidPath;
  reject_if (negb allow_missing_leaf && bool_decide (file_name path = None)) InvalidPath.

Definition args (l : list string) : list bytes := octets <$> l.
Definition segment_seconds (millis : Z) : spec_float := SFdiv 53 1024 (f64_of millis) (f64_of 1000).
Definition key_frames (seconds : spec_float) : bytes := octets "expr:gte(t,n_forced*" ++ fixed3 seconds ++ octets ")".
Definition scale_and_pad (width height : Z) : bytes :=
  octets "scale=w=" ++ show width ++ octets ":h=" ++ show height ++ octets ":force_original_aspect_ratio=decrease,pad=" ++
  show width ++ octets ":" ++ show height ++ octets ":(ow-iw)/2:(oh-ih)/2".
Definition maxrate (bps : Z) : bytes := show (saturating_mul 64 bps 11 / 10).
Definition bufsize (bps : Z) : bytes := show (saturating_mul 64 bps 2).

Definition validate_realtime_configuration (configuration : RealtimeTranscodeSpec) (audio : bool) : outcome PipelineError unit :=
  let valid_dimensions :=
    if audio then
      (rt_width configuration =? 0) && (rt_height configuration =? 0) && (frames_per_second configuration =? 0) &&
      in_range 16000 512000 (bitrate_bps configuration)
    else
      in_range 16 7680 (rt_width configuration) && in_range 16 4320 (rt_height configuration) &&
      (rt_width configuration mod 2 =? 0) && (rt_height configuration mod 2 =? 0) &&
      in_range 1 120 (frames_per_second configuration) && in_range 50000 100000000 (bitrate_bps configuration) in
  reject_if (negb (is_loopback (destination configuration)) || negb (in_range 96 127 (payload_type configuration)) ||
    (ssrc configuration =? 0) || negb valid_dimensions) InvalidWorkerSpec.

Definition append_realtime_video_encoder (codec : RealtimeCodec) : list bytes :=
  match codec with
  | H264 => args ["-c:v"; "libx264"; "-preset"; "veryfast"; "-tune"; "zerolatency"; "-pix_fmt"; "yuv420p"]
  | Vp8 => args ["-c:v"; "libvpx"; "-deadline"; "realtime"; "-cpu-used"; "8"; "-lag-in-frames"; "0"]
  | Vp9 => args ["-c:v"; "libvpx-vp9"; "-deadline"; "realtime"; "-cpu-used"; "8"; "-lag-in-frames"; "0"]
  | Av1 => args ["-c:v"; "libaom-av1"; "-cpu-used"; "8"; "-row-mt"; "1"; "-lag-in-frames"; "0"]
  | Opus => []
  end%string.
Definition append_realtime_video_configuration (configuration : RealtimeTranscodeSpec) : list bytes :=
  args ["-an"; "-vf"]%string ++ [scale_and_pad (rt_width configuration) (rt_height configuration)] ++
  args ["-r"]%string ++ [show (frames_per_second configuration)] ++
  args ["-b:v"]%string ++ [show (bitrate_bps configuration)] ++
  args ["-maxrate"]%string ++ [maxrate (bitrate_bps configuration)] ++
  args ["-bufsize"]%string ++ [bufsize (bitrate_bps configuration)] ++
  args ["-g"]%string ++ [show (saturating_mul 16 (frames_per_second configuration) 2)] ++
  append_realtime_video_encoder (target_codec configuration).

Definition build_realtime_transcode_process (program input_sdp : bytes) (configuration : RealtimeTranscodeSpec) : outcome PipelineError ProcessSpec :=
  _ ← validate_worker_path program false;
  _ ← validate_worker_path input_sdp false;
  let audio := is_audio (target_codec configuration) in
  _ ← validate_realtime_configuration configuration audio;
  Ok {| program := program;
        arguments :=
          args ["-nostdin"; "-protocol_whitelist"; "file,udp,rtp"; "-fflags"; "+genpts+nobuffer+discardcorrupt"; "-flags"; "low_delay";
                "-analyzeduration"; "1000000"; "-probesize"; "1000000"; "-i"]%string ++ [input_sdp] ++ args ["-map"; "0:0"]%string ++
          (if audio then
             args ["-vn"; "-c:a"; "libopus"; "-application"; "lowdelay"; "-frame_duration"; "20"; "-b:a"]%string ++ [show (bitrate_bps configuration)]
           else append_realtime_video_configuration configuration) ++
          args ["-f"; "rtp"; "-payload_type"]%string ++ [show (payload_type configuration)] ++
          args ["-ssrc"]%string ++ [show (ssrc configuration)] ++
          args ["-pkt_size"; "1200"]%string ++ [octets "rtp://" ++ show_loopback (destination configuration) ++ octets "?pkt_size=1200"];
        working_directory := None |}.

Definition append_rendition_arguments (index : Z) (rendition : Rendition) (has_audio : bool) : list bytes :=
  args ["-map"; "0:v:0"]%string ++
  [octets "-filter:v:" ++ show index; scale_and_pad (width rendition) (height rendition);
   octets "-b:v:" ++ show index; show (video_bitrate_bps rendition);
   octets "-maxrate:v:" ++ show index; maxrate (video_bitrate_bps rendition);
   octets "-bufsize:v:" ++ show index; bufsize (video_bitrate_bps rendition)] ++
  (if has_audio then args ["-map"; "0:a:0"]%string ++ [octets "-b:a:" ++ show index; show (audio_bitrate_bps rendition)] else []).
(** [for (index, rendition) in renditions.iter().enumerate()] *)
Fixpoint append_renditions (index : Z) (renditions : list Rendition) (has_audio : bool) : list bytes :=
  match renditions with
  | [] => []
  | rendition :: renditions => append_rendition_arguments index rendition has_audio ++ append_renditions (index + 1) renditions has_audio
  end.
Definition variant (has_audio : bool) (index : Z) : bytes :=
  if has_audio then octets "v:" ++ show index ++ octets ",a:" ++ show index ++ octets ",name:" ++ show index
  else octets "v:" ++ show index ++ octets ",name:" ++ show index.
Definition variant_map (renditions : list Rendition) (has_audio : bool) : bytes := join 32 (variant has_audio <$> seqZ 0 (len renditions)).

Definition validate_live_package (configuration : LivePackageSpec) : outcome PipelineError unit :=
  _ ← reject_if ((negb (has_video configuration) && negb (has_audio configuration)) || negb (in_range 1000 10000 (segment_duration_millis configuration)) ||
        negb (in_range 3 30 (window_segments configuration)) || (8 <? len (renditions configuration)) ||
        (negb (len (renditions configuration) =? 0) && negb (has_video configuration))) InvalidWorkerSpec;
  validate_renditions (renditions configuration).
Definition live_input_arguments (input_sdp : bytes) : list bytes :=
  args ["-nostdin"; "-protocol_whitelist"; "file,udp,rtp"; "-fflags"; "+genpts+nobuffer"; "-flags"; "low_delay"; "-i"]%string ++ [input_sdp].
Definition append_live_codec_arguments (configuration : LivePackageSpec) (seconds : spec_float) : list bytes :=
  let abr := negb (len (renditions configuration) =? 0) in
  (if has_video configuration then
     (if abr then append_renditions 0 (renditions configuration) (has_audio configuration) else []) ++
     args ["-c:v"; "libx264"; "-preset"; "veryfast"; "-tune"; "zerolatency"; "-sc_threshold"; "0"; "-force_key_frames"]%string ++ [key_frames seconds]
   else args ["-vn"]%string) ++
  (if has_audio configuration then args ["-c:a"; "aac"]%string ++ (if negb abr then args ["-b:a"; "128000"]%string else [])
   else args ["-an"]%string).
Definition init_filename (count : Z) : bytes := if count =? 1 then octets "init_0.mp4" else octets "init_%v.mp4".
Definition append_live_hls_arguments (configuration : LivePackageSpec) (seconds : spec_float) : list bytes :=
  args ["-f"; "hls"; "-hls_segment_type"; "fmp4"; "-hls_time"]%string ++ [fixed3 seconds] ++
  args ["-hls_list_size"]%string ++ [show (window_segments configuration)] ++
  args ["-hls_delete_threshold"; "2"; "-hls_flags"; "delete_segments+append_list+independent_segments+program_date_time+temp_file"]%string ++
  (if negb (len (renditions configuration) =? 0) then
     args ["-hls_fmp4_init_filename"]%string ++ [init_filename (len (renditions configuration))] ++
     args ["-hls_segment_filename"; "rendition_%v_segment-%09d.m4s"; "-master_pl_name"; "master.m3u8"; "-var_stream_map"]%string ++
     [variant_map (renditions configuration) (has_audio configuration)] ++ args ["rendition_%v.m3u8"]%string
   else args ["-hls_fmp4_init_filename"; "init.mp4"; "-hls_segment_filename"; "segment-%09d.m4s"; "index.m3u8"]%string).
Definition build_live_rtp_process (program input_sdp output_directory : bytes) (configuration : LivePackageSpec) : outcome PipelineError ProcessSpec :=
  _ ← validate_worker_path program false;
  _ ← validate_worker_path input_sdp false;
  _ ← validate_worker_path output_directory true;
  _ ← validate_live_package configuration;
  let seconds := segment_seconds (segment_duration_millis configuration) in
  Ok {| program := program;
        arguments := live_input_arguments input_sdp ++ append_live_codec_arguments configuration seconds ++ append_live_hls_arguments configuration seconds;
        working_directory := Some output_directory |}.

Definition append_hls_output_arguments (seconds : spec_float) (variant_map : bytes) (rendition_count : Z) : list bytes :=
  args ["-f"; "hls"; "-hls_segment_type"; "fmp4"; "-hls_time"]%string ++ [fixed3 seconds] ++
  args ["-hls_playlist_type"; "vod"; "-hls_list_size"; "0"; "-hls_flags"; "independent_segments+temp_file"; "-hls_fmp4_init_filename"]%string ++
  [init_filename rendition_count] ++
  args ["-hls_segment_filename"; "rendition_%v_%06d.m4s"; "-master_pl_name"; "master.m3u8"; "-var_stream_map"]%string ++ [variant_map] ++
  args ["rendition_%v.m3u8"]%string.
Definition build_package_hls_arguments (input : bytes) (renditions : list Rendition) (segment_duration_millis : Z) (has_audio : bool) : outcome PipelineError (list bytes) :=
  _ ← reject_if ((len renditions =? 0) || (8 <? len renditions) || negb (in_range 1000 10000 segment_duration_millis)) InvalidWorkerSpec;
  _ ← validate_renditions renditions;
  let seconds := segment_seconds segment_duration_millis in
  Ok (args ["-nostdin"; "-y"; "-i"]%string ++ [input] ++ append_renditions 0 renditions has_audio ++
      args ["-c:v"; "libx264"; "-preset"; "veryfast"; "-pix_fmt"; "yuv420p"; "-sc_threshold"; "0"; "-force_key_frames"]%string ++ [key_frames seconds] ++
      (if has_audio then args ["-c:a"; "aac"]%string else []) ++
      append_hls_output_arguments seconds (variant_map renditions has_audio) (len renditions)).
Definition build_worker_process (program input output_directory : bytes) (operation : WorkerOperation) : outcome PipelineError ProcessSpec :=
  _ ← validate_worker_path program false;
  _ ← validate_worker_path input false;
  _ ← validate_worker_path output_directory true;
  arguments ← match operation with
    | Probe => Ok (args ["-v"; "error"; "-show_format"; "-show_streams"; "-of"; "json"]%string ++ [input])
    | PackageHls renditions segment_duration_millis has_audio => build_package_hls_arguments input renditions segment_duration_millis has_audio
    end;
  Ok {| program := program; arguments := arguments; working_directory := Some output_directory |}.
