(* ===== verification/MediaPipelineSafety.v ===== *)
(** * media/media-pipeline: theorems about playlists, assets and worker processes *)
From S2P Require Import Prelude Words Slices RustStd RustStr RustText MediaPipeline.

Lemma returns_uri uri : returns (validate_relative_uri uri).
Proof. unfold validate_relative_uri. returns_steps. Qed.
#[export] Hint Resolve returns_uri : returns.
Lemma returns_segment s : returns (validate_segment s).
Proof. unfold validate_segment. returns_steps. Qed.

(** ** The live window

    [live evicted p]: the playlist [p] was created empty with a first sequence number, and the pushes since
    then have returned the segments [evicted], oldest first. *)
Section Live.
Context (uri0 : bytes) (window first : Z).

Inductive live : list Segment -> LivePlaylist -> Prop :=
| live_new p : new_playlist uri0 window first = Ok p -> live [] p
| live_push evicted p s : live evicted p -> live (evicted ++ match (push s p).2 with Ok (Some e) => [e] | _ => [] end) (push s p).1
| live_finish evicted p : live evicted p -> live evicted (finish p).

(** A push that was accepted, and one that was not. *)
Lemma push_cases s p : window_size p >= 3 ->
  (exists e, push s p = (p, Err e)) \/
  (ended p = false /\ validate_segment s = Ok tt /\ sequence s = next_sequence p /\ next_sequence p + 1 <= umax 64 /\
   exists out keep, out ++ keep = segments p ++ [s] /\ push s p = (with_segments p keep (next_sequence p + 1), Ok (head out)) /\
     (out = [] /\ len keep <= window_size p \/ (exists e, out = [e]) /\ len keep = len (segments p) /\ window_size p <= len (segments p))).
Proof.
  intros Hw. unfold push. destruct (ended p) eqn:He; [left; by eexists|]. cbn [reject_if mbind outcome_bind].
  pose proof (returns_segment s) as Hret.
  destruct (validate_segment s) as [[]|e| |] eqn:Hs; [|left; by eexists|done|done]. cbn [mbind outcome_bind].
  destruct (Z.eqb_spec (sequence s) (next_sequence p)) as [Hseq|]; [|left; by eexists]. cbn [negb reject_if mbind outcome_bind].
  destruct (checked_add 64 (next_sequence p) 1) as [n|] eqn:Hn; [|left; by eexists]. apply checked_add_Some in Hn as [-> Hn].
  right. split_and!; [done|done|done|done|]. cbn [ok_or]. destruct (Z.ltb_spec (window_size p) (len (segments p ++ [s]))) as [Hlt|Hge].
  - destruct (segments p ++ [s]) as [|e keep] eqn:E; [by destruct (segments p)|]. exists [e], keep. split_and!; [done|done|right].
    apply (f_equal len) in E. rewrite len_app, !len_cons, len_nil in E. rewrite len_cons in Hlt. split_and!; [by exists e|lia|lia].
  - exists [], (segments p ++ [s]). split_and!; [done|done|by left].
Qed.

Record live_ok (evicted : list Segment) (p : LivePlaylist) : Prop := {
  lo_config : init_uri p = uri0 /\ window_size p = window /\ validate_relative_uri uri0 = Ok tt /\ 3 <= window <= 10000;
  lo_numbers : sequence <$> (evicted ++ segments p) = seqZ first (len (evicted ++ segments p)) /\
    next_sequence p = first + len (evicted ++ segments p);
  lo_valid : Forall (fun s => validate_segment s = Ok tt) (segments p);
  lo_window : len (segments p) <= window /\ (evicted <> [] -> len (segments p) = window);
  lo_bound : next_sequence p <= umax 64 }.

Lemma live_reach evicted p : first <= umax 64 -> live evicted p -> live_ok evicted p.
Proof.
  intros Hfirst. induction 1 as [p Hp|evicted p s _ IH|evicted p _ IH].
  - unfold new_playlist in Hp. inv_ok Hp. subst p. destruct a. apply negb_false_iff in Hstep0. unfold in_range in Hstep0.
    split; cbn; [split_and!; (done || lia)|split; [done|rewrite len_nil; lia]|constructor|rewrite len_nil; split; [lia|done]|done].
  - destruct IH as [(C1 & C2 & C3 & C4) [N1 N2] V [W1 W2] B].
    destruct (push_cases s p) as [[e ->]|(He & Hs & Hseq & Hn & out & keep & Hk & -> & Hcase)]; [lia|cbn; rewrite app_nil_r; by split|]. cbn [fst snd].
    assert ((match (Ok (head out) : outcome PipelineError (option Segment)) with Ok (Some e) => [e] | _ => [] end) = out) as ->.
    { destruct Hcase as [[-> _]|([e ->] & _)]; done. }
    assert ((evicted ++ out) ++ keep = (evicted ++ segments p) ++ [s]) as Hall by (rewrite <- !app_assoc; by f_equal).
    split; cbn [with_segments init_uri window_size segments next_sequence]; rewrite ?Hall; [done| | | |done].
    + rewrite fmap_app, len_app, N1. change (len [s]) with 1. pose proof (len_nonneg (evicted ++ segments p)). split; [|lia]. rewrite seqZ_app by lia. f_equal.
      change (seqZ (first + len (evicted ++ segments p)) 1) with [0 + (first + len (evicted ++ segments p))]. cbn [fmap list_fmap]. f_equal. lia.
    + assert (Forall (fun s => validate_segment s = Ok tt) (out ++ keep)) as Hf by (rewrite Hk; apply Forall_app; by split; [|constructor]).
      by apply Forall_app in Hf as [_ Hf].
    + destruct Hcase as [[-> Hlen]|([e ->] & Hlen & Hfull)]; [|split; [lia|intros _; lia]]. rewrite app_nil_r, C2 in *. split; [done|].
      intros Hev. specialize (W2 Hev). cbn in Hk. subst keep. rewrite len_app in Hlen. change (len [s]) with 1 in Hlen. lia.
  - destruct IH as [C N V W B]. by split.
Qed.
End Live.

Lemma check_segments_Ok segs n : Forall (fun s => validate_segment s = Ok tt) segs -> sequence <$> segs = seqZ n (len segs) -> n + len segs <= umax 64 ->
  check_segments segs n = Ok (n + len segs).
Proof.
  intros Hv. revert n. induction Hv as [|s segs Hs _ IH]; intros n Hn Hle; cbn [check_segments]; [rewrite len_nil; f_equal; lia|].
  rewrite len_cons in *. pose proof (len_nonneg segs). rewrite fmap_cons, seqZ_cons in Hn by lia. replace (Z.pred (1 + len segs)) with (len segs) in Hn by lia.
  injection Hn as Hs0 Hn. rewrite Hs. cbn [mbind outcome_bind]. rewrite Hs0, Z.eqb_refl. cbn [negb reject_if mbind outcome_bind].
  unfold checked_add. rewrite (proj2 (Z.leb_le _ _)) by lia. cbn [ok_or mbind outcome_bind]. rewrite IH; [f_equal; lia|by rewrite <- Z.add_1_r in Hn|lia].
Qed.

Lemma live_numbers uri0 window first evicted p : live_ok uri0 window first evicted p ->
  sequence <$> segments p = seqZ (first + len evicted) (len (segments p)) /\ first_sequence p = first + len evicted.
Proof.
  intros [_ [N1 N2] _ _ _]. rewrite fmap_app, len_app in N1. rewrite seqZ_app in N1 by apply len_nonneg.
  apply app_inj_1 in N1 as [_ N1]; [|rewrite length_fmap, length_seqZ; unfold len; lia]. split; [done|]. unfold first_sequence.
  destruct (segments p) as [|s segs] eqn:E; [rewrite app_nil_r in N2; lia|]. rewrite len_cons, fmap_cons, seqZ_cons in N1 by (pose proof (len_nonneg segs); lia).
  by injection N1.
Qed.

Lemma live_validates uri0 window first evicted p : live_ok uri0 window first evicted p -> validate_playlist p = Ok tt.
Proof.
  intros Hok. destruct (live_numbers _ _ _ _ _ Hok) as [Hn Hf]. destruct Hok as [(C1 & C2 & C3 & C4) [_ N2] V [W1 _] B]. rewrite len_app in N2.
  unfold validate_playlist. rewrite C1, C3. cbn [mbind outcome_bind]. unfold in_range. rewrite C2.
  replace (negb ((3 <=? window) && (window <=? 10000)) || (window <? len (segments p))) with false by lia. cbn [reject_if mbind outcome_bind].
  rewrite Hf, check_segments_Ok; [|done|done|lia]. cbn [mbind outcome_bind]. replace (first + len evicted + len (segments p) =? next_sequence p) with true by lia. done.
Qed.

(** ** The text of a playlist *)
Definition segment_lines (s : Segment) : list bytes :=
  (if discontinuity s then [octets "#EXT-X-DISCONTINUITY"] else []) ++
  match program_date_time s with Some t => [octets "#EXT-X-PROGRAM-DATE-TIME:" ++ t] | None => [] end ++
  [octets "#EXTINF:" ++ fixed3 (as_secs_f64 (duration s)) ++ octets ","; uri s].
Definition playlist_lines (p : LivePlaylist) : list bytes :=
  [octets "#EXTM3U"; octets "#EXT-X-VERSION:7"; octets "#EXT-X-TARGETDURATION:" ++ show (target_duration p);
   octets "#EXT-X-MEDIA-SEQUENCE:" ++ show (first_sequence p); octets "#EXT-X-MAP:URI=" ++ QUOTE ++ init_uri p ++ QUOTE] ++
  (segments p ≫= segment_lines) ++ (if ended p then [octets "#EXT-X-ENDLIST"] else []).
Definition lf_lines (ls : list bytes) : bytes := ls ≫= fun l => l ++ [LF].

Lemma lf_app a b : lf_lines (a ++ b) = lf_lines a ++ lf_lines b.
Proof. unfold lf_lines. apply bind_app. Qed.
Lemma lf_bind {A} (f : A -> list bytes) l : lf_lines (l ≫= f) = l ≫= fun x => lf_lines (f x).
Proof. induction l as [|x l IH]; [done|]. by rewrite !bind_cons, lf_app, IH. Qed.
Lemma lf_cons l ls : lf_lines (l :: ls) = l ++ NEWLINE ++ lf_lines ls.
Proof. unfold lf_lines. by rewrite bind_cons, <- app_assoc. Qed.

Definition no_break (l : bytes) : Prop := (LF ∉ l) /\ (CR ∉ l).
Lemma no_break_app a b : no_break (a ++ b) <-> no_break a /\ no_break b.
Proof. unfold no_break. rewrite !not_elem_of_app. tauto. Qed.
Lemma no_break_literal (s : string) : bool_decide (LF ∉ octets s) && bool_decide (CR ∉ octets s) = true -> no_break (octets s).
Proof. intros H. by apply andb_true_iff in H as [H1%bool_decide_eq_true H2%bool_decide_eq_true]. Qed.
Ltac literal := apply no_break_literal; vm_compute; reflexivity.
Lemma no_break_show n : 0 <= n -> no_break (show n).
Proof. intros Hn. split; apply show_free; unfold LF, CR; lia. Qed.

Lemma lines_lf ls : Forall no_break ls -> lines (lf_lines ls) = ls.
Proof.
  unfold lines, lf_lines. induction 1 as [|l ls [Hl Hc] _ IH]; [done|]. rewrite bind_cons, <- app_assoc. cbn [app].
  rewrite split_inclusive_app by done. rewrite fmap_cons. f_equal; [|done]. unfold line_of. rewrite strip_suffix_snoc. by rewrite strip_suffix_absent.
Qed.

Lemma segment_text s : render_segment s = lf_lines (segment_lines s).
Proof.
  unfold render_segment, segment_lines. destruct (discontinuity s), (program_date_time s); rewrite ?lf_app, ?lf_cons, <- ?app_assoc; reflexivity.
Qed.
Lemma playlist_text p : render p = lf_lines (playlist_lines p).
Proof.
  unfold render. replace (segments p ≫= render_segment) with (lf_lines (segments p ≫= segment_lines)).
  2: { rewrite lf_bind. apply list_bind_ext; [|done]. intros s. by rewrite segment_text. }
  unfold playlist_lines. rewrite !lf_app, !lf_cons, <- !app_assoc. by destruct (ended p).
Qed.

Lemma relative_uri_spec uri : validate_relative_uri uri = Ok tt ->
  no_break uri /\ 0 < len uri <= 1024 /\ (0x5c ∉ uri) /\ (0x3f ∉ uri) /\ (0x23 ∉ uri) /\ is_absolute uri = false /\ Forall (fun piece => piece <> octets "..") (split SLASH uri).
Proof.
  unfold validate_relative_uri, contains. intros H. apply bind_Ok in H as ([] & H1%reject_if_Ok & H2%reject_if_Ok).
  rewrite !orb_false_iff, !bool_decide_eq_false in H1. destruct H1 as [[[[[[L1 L2] B] C] L] Q] P]. apply orb_false_iff in H2 as [A D]. pose proof (len_nonneg uri).
  split_and!; try done; try lia. apply Forall_forall. intros piece Hp ->. unfold has_parent_dir in D.
  assert (existsb (fun piece => bool_decide (piece = octets "..")) (split SLASH uri) = true) as Ht; [|congruence].
  apply existsb_exists. exists (octets ".."). split; [by apply list_elem_of_In|by apply bool_decide_eq_true].
Qed.

Lemma segment_uri s : validate_segment s = Ok tt -> validate_relative_uri (uri s) = Ok tt.
Proof. unfold validate_segment. intros H. apply bind_Ok in H as ([] & _ & H). by apply bind_Ok in H as ([] & Hu & _). Qed.

Lemma thousandths_nonneg x : 0 <= thousandths x.
Proof.
  destruct x as [| | |sx m e]; cbn; try lia. destruct (Z.leb_spec 0 e) as [He|He].
  - pose proof (Z.pow_nonneg 2 e). nia.
  - unfold round_half_even. assert (0 < 2 ^ (- e)) by (apply Z.pow_pos_nonneg; lia). pose proof (Z.div_pos (Z.pos m * 1000) (2 ^ (- e)) ltac:(lia) ltac:(lia)).
    destruct (_ || _); lia.
Qed.

Lemma pad3_digits n : 0 <= n < 1000 -> Forall (fun c => 48 <= c <= 57) (pad3 n).
Proof.
  intros Hn. pose proof (Z.div_lt_upper_bound n 100 10 ltac:(lia) ltac:(lia)). pose proof (Z.div_pos n 100 ltac:(lia) ltac:(lia)).
  pose proof (Z.mod_pos_bound (n / 10) 10 ltac:(lia)). pose proof (Z.mod_pos_bound n 10 ltac:(lia)). repeat constructor; lia.
Qed.

Lemma no_break_fixed3 x : no_break (fixed3 x).
Proof.
  pose proof (thousandths_nonneg x). pose proof (Z.mod_pos_bound (thousandths x) 1000 ltac:(lia)) as Hm. unfold fixed3. rewrite !no_break_app.
  split_and!; [apply no_break_show, Z.div_pos; lia|literal|]. pose proof (pad3_digits _ Hm) as Hd. rewrite Forall_forall in Hd. split; intros Hin%Hd; unfold LF, CR in Hin; lia.
Qed.

Definition stamp_ok (s : Segment) : Prop := match program_date_time s with Some t => no_break t | None => True end.

Lemma playlist_lines_ok uri0 window first evicted p : 0 <= first -> live_ok uri0 window first evicted p -> Forall stamp_ok (segments p) -> Forall no_break (playlist_lines p).
Proof.
  intros Hfirst Hok Hst. destruct (live_numbers _ _ _ _ _ Hok) as [_ Hf]. destruct Hok as [(C1 & _ & C3 & _) _ V _ _]. unfold playlist_lines. rewrite !Forall_app. split_and!.
  - repeat apply Forall_cons_2; [literal|literal| | | |constructor]; rewrite !no_break_app; split_and!; try literal.
    + apply no_break_show. unfold target_duration. destruct (_ <? _); lia.
    + apply no_break_show. rewrite Hf. pose proof (len_nonneg evicted). lia.
    + split; vm_compute; intros Hq; inversion Hq; subst; by apply not_elem_of_nil in H1.
    + rewrite C1. apply relative_uri_spec in C3. tauto.
    + split; vm_compute; intros Hq; inversion Hq; subst; by apply not_elem_of_nil in H1.
  - apply Forall_bind. apply Forall_forall. intros s Hs. rewrite Forall_forall in V, Hst. specialize (V s Hs). specialize (Hst s Hs).
    change (Forall no_break (segment_lines s)). unfold segment_lines, stamp_ok in *. rewrite !Forall_app. split_and!.
    + destruct (discontinuity s); constructor; [literal|constructor].
    + destruct (program_date_time s); constructor; [rewrite no_break_app; split; [literal|done]|constructor].
    + repeat apply Forall_cons_2; [rewrite !no_break_app; split_and!; [literal|apply no_break_fixed3|literal]| |constructor].
      apply segment_uri, relative_uri_spec in V. tauto.
  - destruct (ended p); constructor; [literal|constructor].
Qed.

(** ** The life of an asset *)
Inductive operation :=
| OpUpload (received : Z) | OpComplete (size : Z) | OpProbe | OpTranscode | OpOutputs (count : Z) | OpReady (manifest : bytes) (millis : Z)
| OpFail (reason : bytes) (retryable : bool) | OpDelete | OpFinishDelete.
Definition run (op : operation) : prog VodAsset PipelineError unit :=
  match op with
  | OpUpload n => upload_progress n | OpComplete n => complete_upload n | OpProbe => start_probe | OpTranscode => start_transcode
  | OpOutputs n => set_completed_outputs n | OpReady u d => mark_ready u d | OpFail r b => fail_asset r b
  | OpDelete => start_delete | OpFinishDelete => finish_delete
  end.

(** The state machine, as a relation. *)
Inductive allowed : AssetState -> operation -> AssetState -> Prop :=
| al_first n : 0 <= n -> allowed Created (OpUpload n) (Uploading n)
| al_more p n : p <= n -> allowed (Uploading p) (OpUpload n) (Uploading n)
| al_complete n : n <> 0 -> allowed (Uploading n) (OpComplete n) (Uploaded n)
| al_probe n : allowed (Uploaded n) OpProbe Probing
| al_transcode : allowed Probing OpTranscode (Transcoding 0)
| al_retry r : allowed (Failed r true) OpTranscode (Transcoding 0)
| al_outputs p n : p <= n -> allowed (Transcoding p) (OpOutputs n) (Transcoding n)
| al_ready n u d : validate_relative_uri u = Ok tt -> d <> 0 -> allowed (Transcoding n) (OpReady u d) (Ready u d)
| al_fail s r b : terminal s = false -> 0 < len r <= 1024 -> allowed s (OpFail r b) (Failed r b)
| al_delete s : terminal s = false -> allowed s OpDelete Deleting
| al_deleted : allowed Deleting OpFinishDelete Deleted.

Definition moved (a : VodAsset) (s : AssetState) : VodAsset := {| id := id a; tenant_id := tenant_id a; version := version a + 1; state := s |}.

Lemma asset_transition_cases s a : (transition s a = (moved a s, Ok tt) /\ version a + 1 <= umax 64) \/ (transition s a = (a, Err VersionExhausted) /\ umax 64 < version a + 1).
Proof.
  unfold transition, checked_add. destruct (Z.leb_spec (version a + 1) (umax 64)); [by left|by right].
Qed.

(** A step of the code is a step of the machine, or leaves the asset alone. *)
Lemma run_cases op a : (exists e, run op a = (a, Err e)) \/ (exists s, allowed (state a) op s /\ run op a = (moved a s, Ok tt) /\ version a + 1 <= umax 64).
Proof.
  assert (forall s, allowed (state a) op s -> (exists e, transition s a = (a, Err e)) \/
    (exists s', allowed (state a) op s' /\ transition s a = (moved a s', Ok tt) /\ version a + 1 <= umax 64)) as Hgo.
  { intros s Hs. destruct (asset_transition_cases s a) as [[-> Hle]|[-> _]]; [right; by exists s|left; by eexists]. }
  destruct op; cbn [run]; unfold upload_progress, complete_upload, start_probe, start_transcode, set_completed_outputs, mark_ready, fail_asset, start_delete, finish_delete;
    unfold mbind, prog_bind, gets, lift.
  - destruct (state a) eqn:E; try (left; by eexists); cbn beta iota.
    + destruct (Z.ltb_spec received 0); [left; by eexists|]. cbn [reject_if]. apply Hgo. by constructor.
    + destruct (Z.ltb_spec received received_bytes); [left; by eexists|]. cbn [reject_if]. apply Hgo. by constructor.
  - destruct (state a) eqn:E; try (left; by eexists); cbn beta iota.
    destruct ((size =? 0) || negb (size =? received_bytes)) eqn:Hs; [left; by eexists|]. cbn [reject_if]. apply Hgo.
    replace received_bytes with size by lia. constructor. lia.
  - destruct (state a) eqn:E; try (left; by eexists); cbn [negb reject_if]. apply Hgo. constructor.
  - destruct (state a) as [| | | | | |r [|]| |] eqn:E; try (left; by eexists); cbn [negb reject_if]; apply Hgo; constructor.
  - destruct (state a) eqn:E; try (left; by eexists); cbn beta iota.
    destruct (Z.ltb_spec count completed_outputs); [left; by eexists|]. cbn [reject_if]. apply Hgo. by constructor.
  - destruct (state a) eqn:E; try (left; by eexists); cbn [negb reject_if].
    pose proof (returns_uri manifest) as Hr. destruct (validate_relative_uri manifest) as [[]| | |] eqn:Hu; try done; [|left; by eexists].
    destruct (Z.eqb_spec millis 0); [left; by eexists|]. cbn [reject_if]. apply Hgo. by constructor.
  - destruct (terminal (state a)) eqn:E; [left; by eexists|]. cbn [reject_if]. destruct (bad_reason reason) eqn:Hb; [left; by eexists|]. cbn [reject_if].
    apply Hgo. constructor; [done|]. unfold bad_reason in Hb. pose proof (len_nonneg reason). lia.
  - destruct (terminal (state a)) eqn:E; [left; by eexists|]. cbn [reject_if]. apply Hgo. by constructor.
  - destruct (state a) eqn:E; try (left; by eexists); cbn [negb reject_if]. apply Hgo. constructor.
Qed.

Lemma run_allowed op a s : allowed (state a) op s -> version a + 1 <= umax 64 -> run op a = (moved a s, Ok tt).
Proof.
  intros Hs Hv. assert (forall s, transition s a = (moved a s, Ok tt)) as Ht by (intros s'; destruct (asset_transition_cases s' a) as [[-> _]|[_ ?]]; [done|lia]).
  remember (state a) as from eqn:E. destruct Hs; cbn [run];
    unfold upload_progress, complete_upload, start_probe, start_transcode, set_completed_outputs, mark_ready, fail_asset, start_delete, finish_delete;
    unfold mbind, prog_bind, gets, lift; rewrite <- E; cbn [negb reject_if].
  - rewrite (proj2 (Z.ltb_ge _ _)) by done. apply Ht.
  - rewrite (proj2 (Z.ltb_ge _ _)) by done. apply Ht.
  - replace ((n =? 0) || negb (n =? n)) with false by lia. apply Ht.
  - apply Ht.
  - apply Ht.
  - apply Ht.
  - rewrite (proj2 (Z.ltb_ge _ _)) by done. apply Ht.
  - rewrite H, (proj2 (Z.eqb_neq _ _)) by done. apply Ht.
  - rewrite H. cbn [reject_if]. unfold bad_reason. replace ((len r =? 0) || (1024 <? len r)) with false by lia. apply Ht.
  - rewrite H. apply Ht.
  - apply Ht.
Qed.

Lemma run_exact op a s : version a + 1 <= umax 64 -> run op a = (moved a s, Ok tt) <-> allowed (state a) op s.
Proof.
  intros Hv. split; [|intros Hs; by apply run_allowed]. destruct (run_cases op a) as [[e ->]|(s' & Hs & -> & _)]; [done|]. intros [= E]. by rewrite <- E.
Qed.

(** [lifecycle up a]: the asset was created and has gone through any calls, with [up] once the upload has been
    completed; a failure before that is not recorded as one that can be retried. *)
Definition completes (op : operation) (result : outcome PipelineError unit) : bool := match op, result with OpComplete _, Ok _ => true | _, _ => false end.
Inductive lifecycle : bool -> VodAsset -> Prop :=
| life_create i t a : create i t = Ok a -> lifecycle false a
| life_step up a op : lifecycle up a -> (up = false -> forall r, op <> OpFail r true) -> lifecycle (up || completes op (run op a).2) (run op a).1.

Record asset_ok (up : bool) (a : VodAsset) : Prop := {
  ao_names : validate_identifier (id a) = Ok tt /\ validate_identifier (tenant_id a) = Ok tt;
  ao_version : 1 <= version a /\ (up = true -> 3 <= version a);
  ao_state : match state a with
    | Created => version a = 1 /\ up = false
    | Uploading n => 2 <= version a /\ up = false /\ 0 <= n
    | Uploaded n => n <> 0 /\ up = true
    | Probing => 4 <= version a /\ up = true
    | Transcoding _ => 5 <= version a /\ up = true
    | Ready u d => 6 <= version a /\ up = true /\ validate_relative_uri u = Ok tt /\ d <> 0
    | Failed r b => 2 <= version a /\ 0 < len r <= 1024 /\ (b = true -> up = true /\ 4 <= version a)
    | Deleting => 2 <= version a
    | Deleted => 3 <= version a
    end }.

Lemma lifecycle_ok up a : lifecycle up a -> asset_ok up a.
Proof.
  induction 1 as [i t a Ha|up a op _ [N [V1 V2] S] Hop].
  - unfold create in Ha. inv_ok Ha. subst a. destruct a0, a1. by split.
  - destruct (run_cases op a) as [[e ->]|(s & Hs & -> & Hle)]; cbn [fst snd].
    { replace (up || completes op (Err e)) with up by (by destruct op, up). by split. }
    split; cbn [moved id tenant_id version state]; [done| |].
    + split; [lia|]. intros Hup. apply orb_true_iff in Hup as [Hup|Hc]; [specialize (V2 Hup); lia|]. destruct op; try discriminate. inversion Hs as [| |n Hn E1 E2 E3| | | | | | | |].
      rewrite <- E1 in S. lia.
    + destruct Hs; cbn [completes]; rewrite ?orb_false_r, ?orb_true_r.
      * split_and!; [lia|apply S|done].
      * destruct S as (S1 & S2 & S3). split_and!; [lia|done|lia].
      * done.
      * destruct S as [_ S]. specialize (V2 S). split; [lia|done].
      * split; [lia|apply S].
      * destruct S as (_ & _ & S). destruct (S eq_refl). split; [lia|done].
      * split; [lia|apply S].
      * destruct S as [S1 S2]. split_and!; [lia|done|done|done].
      * split_and!; [lia|lia|lia|]. intros ->. destruct up; [specialize (V2 eq_refl); split; [done|lia]|]. by destruct (Hop eq_refl r).
      * lia.
      * lia.
Qed.

Lemma asset_validates up a : asset_ok up a -> validate_asset a = Ok tt.
Proof.
  intros [[N1 N2] [V1 V2] S]. unfold validate_asset. rewrite N1, N2. cbn [mbind outcome_bind]. unfold minimum_version. destruct (state a).
  - destruct S as [-> _]. done.
  - destruct S as (S & _). cbn. by rewrite (proj2 (Z.ltb_ge _ _)) by lia.
  - destruct S as [S1 S2]. specialize (V2 S2). rewrite (proj2 (Z.eqb_neq _ _)) by done. cbn. by rewrite (proj2 (Z.ltb_ge _ _)) by lia.
  - cbn. by rewrite (proj2 (Z.ltb_ge _ _)) by lia.
  - cbn. by rewrite (proj2 (Z.ltb_ge _ _)) by lia.
  - destruct S as (S1 & _ & S2 & S3). rewrite S2. cbn. rewrite (proj2 (Z.eqb_neq _ _)) by done. cbn. by rewrite (proj2 (Z.ltb_ge _ _)) by lia.
  - destruct S as (S1 & S2 & _). unfold bad_reason. replace ((len reason =? 0) || (1024 <? len reason)) with false by lia. cbn. by rewrite (proj2 (Z.ltb_ge _ _)) by lia.
  - cbn. by rewrite (proj2 (Z.ltb_ge _ _)) by lia.
  - cbn. by rewrite (proj2 (Z.ltb_ge _ _)) by lia.
Qed.

(** ** Worker processes *)
Definition safe_path (path : bytes) : Prop := path <> [] /\ Forall (fun piece => piece <> octets "..") (split SLASH path).

Lemma worker_path_safe path leaf : validate_worker_path path leaf = Ok tt -> safe_path path.
Proof.
  unfold validate_worker_path. intros H. apply bind_Ok in H as ([] & H%reject_if_Ok & _). apply orb_false_iff in H as [H1 H2]. split; [by intros ->|].
  apply Forall_forall. intros piece Hp ->. unfold has_parent_dir in H2.
  assert (existsb (fun piece => bool_decide (piece = octets "..")) (split SLASH path) = true) as Ht; [|congruence].
  apply existsb_exists. exists (octets ".."). split; [by apply list_elem_of_In|by apply bool_decide_eq_true].
Qed.

Record rendition_ok (r : Rendition) : Prop := {
  ro_size : 16 <= width r <= 7680 /\ 16 <= height r <= 4320 /\ width r mod 2 = 0 /\ height r mod 2 = 0;
  ro_rates : 50000 <= video_bitrate_bps r <= 100000000 /\ 16000 <= audio_bitrate_bps r <= 1000000 }.

Lemma validate_renditions_Ok l : validate_renditions l = Ok tt -> Forall rendition_ok l.
Proof.
  induction l as [|r l IH]; cbn; intros H; [constructor|]. apply bind_Ok in H as ([] & Hr & H). constructor; [|by apply IH].
  unfold validate_rendition, in_range in Hr. apply reject_if_Ok in Hr. rewrite !orb_false_iff, !negb_false_iff in Hr. split; lia.
Qed.

(** The bit-rate arguments are never the saturated ones. *)
Lemma rate_arguments bps : 50000 <= bps <= 100000000 -> maxrate bps = show (bps * 11 / 10) /\ bufsize bps = show (bps * 2).
Proof. intros H. unfold maxrate, bufsize, saturating_mul. rewrite !Z.min_l by (unfold umax; lia). done. Qed.

(** What an accepted worker operation runs: the two paths have no parent directory in them, the input is one argument between
    arguments that do not depend on any path, the directory is the working directory, and the ladder is within its bounds. *)
Lemma worker_process_safe program input output operation spec : build_worker_process program input output operation = Ok spec ->
  safe_path program /\ safe_path input /\ safe_path output /\ MediaPipeline.program spec = program /\ working_directory spec = Some output /\
  (exists before after, arguments spec = before ++ [input] ++ after /\ forall input', validate_worker_path input' false = Ok tt ->
     exists spec', build_worker_process program input' output operation = Ok spec' /\ arguments spec' = before ++ [input'] ++ after) /\
  match operation with Probe => True | PackageHls l millis _ => 1 <= len l <= 8 /\ Forall rendition_ok l /\ 1000 <= millis <= 10000 end.
Proof.
  unfold build_worker_process. intros H. apply bind_Ok in H as ([] & H1 & H). apply bind_Ok in H as ([] & H2 & H). apply bind_Ok in H as ([] & H3 & H).
  apply bind_Ok in H as (l & Hl & H). apply Ok_inj in H as <-. cbn [MediaPipeline.program working_directory arguments].
  split_and!; [by eapply worker_path_safe..|done|done| |].
  - destruct operation as [|rs millis audio].
    + apply Ok_inj in Hl as <-. exists (args ["-v"; "error"; "-show_format"; "-show_streams"; "-of"; "json"]%string), []. split; [done|].
      intros input' Hi. rewrite H1, Hi, H3. by eexists.
    + unfold build_package_hls_arguments in *. apply bind_Ok in Hl as ([] & G1 & Hl). apply bind_Ok in Hl as ([] & G2 & Hl). apply Ok_inj in Hl as <-.
      do 2 eexists. split; [done|]. intros input' Hi. rewrite H1, Hi, H3. cbn [mbind outcome_bind]. rewrite G1, G2. cbn [mbind outcome_bind]. by eexists.
  - destruct operation as [|rs millis audio]; [done|]. unfold build_package_hls_arguments in Hl. apply bind_Ok in Hl as ([] & G1%reject_if_Ok & Hl).
    apply bind_Ok in Hl as ([] & G2%validate_renditions_Ok & _). unfold in_range in G1. rewrite !orb_false_iff, negb_false_iff in G1. pose proof (len_nonneg rs). split_and!; (done || lia).
Qed.

(** ** Theorems

    A playlist with a window of three that has seen four segments. *)
Definition demo_segment (n : Z) : Segment :=
  {| sequence := n; duration := {| secs := 2; nanos := 500000000 |}; uri := octets "seg/" ++ show n; discontinuity := n =? 8;
     program_date_time := if n =? 7 then Some (octets "2024-01-01T00:00:00Z") else None |}.
Definition demo_new : LivePlaylist :=
  {| init_uri := octets "init.mp4"; window_size := 3; segments := []; next_sequence := 7; ended := false |}.
Definition demo_push (s : list Segment * LivePlaylist) (n : Z) : list Segment * LivePlaylist :=
  (s.1 ++ match (push (demo_segment n) s.2).2 with Ok (Some e) => [e] | _ => [] end, (push (demo_segment n) s.2).1).
Definition demo_playlist : list Segment * LivePlaylist := foldl demo_push ([], demo_new) [7; 8; 8; 9; 10].
Lemma demo_live : live (octets "init.mp4") 3 7 demo_playlist.1 demo_playlist.2.
Proof. unfold demo_playlist. cbn [foldl]. do 5 apply live_push. apply live_new. reflexivity. Qed.

(** The live window: whatever is pushed, the segments that came out and those still listed are together exactly the accepted ones,
    in order and numbered without a gap from the first sequence; at most [window_size] are listed, and precisely that many once any
    has been evicted; the playlist always passes its own validation; and after [finish] every push is refused and changes nothing. *)
Theorem live_window uri0 window first evicted p : fits 64 first -> live uri0 window first evicted p ->
  sequence <$> (evicted ++ segments p) = seqZ first (len evicted + len (segments p)) /\ next_sequence p = first + len evicted + len (segments p) /\
  len (segments p) <= window /\ (evicted <> [] -> len (segments p) = window) /\ validate_playlist p = Ok tt /\
  (ended p = true -> forall s, push s p = (p, Err PlaylistEnded)).
Proof.
  intros [Hf0 Hf] Hl. pose proof (live_reach uri0 window first evicted p ltac:(unfold umax; lia) Hl) as Hok. pose proof (live_validates _ _ _ _ _ Hok) as Hv.
  destruct Hok as [_ [N1 N2] _ [W1 W2] _]. rewrite len_app in N1, N2. split_and!; [done|lia|done|done|done|]. intros He s. unfold push. by rewrite He.
Qed.
Lemma live_window_witness : sequence <$> (demo_playlist.1 ++ segments demo_playlist.2) = [7; 8; 9; 10] /\ validate_playlist demo_playlist.2 = Ok tt.
Proof.
  destruct (live_window (octets "init.mp4") 3 7 demo_playlist.1 demo_playlist.2 ltac:(split; [lia|reflexivity]) demo_live) as (H1 & _ & _ & _ & H2 & _).
  split; [rewrite H1; vm_compute; reflexivity|exact H2].
Defined.

(** The text of a playlist consists of exactly the expected lines: the header, for each listed segment its discontinuity and
    date-time tags, its duration and its URI, and the end tag if and only if the playlist was finished; no URI can add or split a
    line.  The date-times have to be free of line breaks, which the code does not check. *)
Theorem playlist_readable uri0 window first evicted p : fits 64 first -> live uri0 window first evicted p -> Forall stamp_ok (segments p) ->
  lines (render p) = playlist_lines p.
Proof.
  intros [Hf0 Hf] Hl Hs. pose proof (live_reach uri0 window first evicted p ltac:(unfold umax; lia) Hl) as Hok. rewrite playlist_text. apply lines_lf. by eapply playlist_lines_ok.
Qed.
Lemma playlist_readable_witness : lines (render demo_playlist.2) = playlist_lines demo_playlist.2.
Proof.
  apply (playlist_readable (octets "init.mp4") 3 7 demo_playlist.1 demo_playlist.2); [split; [lia|reflexivity]|exact demo_live|].
  vm_compute. repeat constructor.
Defined.

(** Each operation on an asset implements the state machine [allowed] exactly: below the version limit it succeeds, moving to
    the state of the machine and advancing the version by one, if and only if the machine allows it, and otherwise returns an
    error and leaves the asset as it was. *)
Theorem asset_machine op a : version a + 1 <= umax 64 ->
  (forall s, run op a = (moved a s, Ok tt) <-> allowed (state a) op s) /\
  ((exists e, run op a = (a, Err e)) <-> forall s, ~ allowed (state a) op s).
Proof.
  intros Hv. split; [intros s; by apply run_exact|]. split.
  - intros [e He] s Hs. by rewrite (run_allowed op a s Hs Hv) in He.
  - intros Hno. destruct (run_cases op a) as [He|(s & Hs & _)]; [done|]. by destruct (Hno s).
Qed.
Definition demo_asset : VodAsset := {| id := octets "movie"; tenant_id := octets "t1"; version := 2; state := Uploading 100 |}.
Lemma asset_machine_witness : run (OpComplete 100) demo_asset = (moved demo_asset (Uploaded 100), Ok tt).
Proof. apply (proj1 (asset_machine (OpComplete 100) demo_asset ltac:(vm_compute; discriminate))). by constructor. Defined.

(** As long as no failure before the end of the upload is recorded as retryable, every asset passes its own validation at every
    point of its life, and is only ever probed, transcoded or ready after its upload was completed. *)
Theorem asset_lifecycle up a : lifecycle up a -> validate_asset a = Ok tt /\
  match state a with Uploaded _ | Probing | Transcoding _ | Ready _ _ => up = true | _ => True end.
Proof.
  intros Hl%lifecycle_ok. split; [by eapply asset_validates|]. pose proof (ao_state _ _ Hl) as S. destruct (state a); tauto.
Qed.
Definition demo_life (ops : list operation) : bool * VodAsset :=
  foldl (fun s op => (s.1 || completes op (run op s.2).2, (run op s.2).1)) (false, {| id := octets "movie"; tenant_id := octets "t1"; version := 1; state := Created |}) ops.
Lemma asset_lifecycle_witness : validate_asset (demo_life [OpUpload 9; OpComplete 9; OpFail (octets "x") true; OpTranscode; OpReady (octets "m.m3u8") 5]).2 = Ok tt.
Proof.
  refine (proj1 (asset_lifecycle (demo_life [OpUpload 9; OpComplete 9; OpFail (octets "x") true; OpTranscode; OpReady (octets "m.m3u8") 5]).1 _ _)).
  unfold demo_life. cbn [foldl]. do 5 (apply life_step; [|first [discriminate | vm_compute; discriminate]]). eapply (life_create (octets "movie") (octets "t1")). reflexivity.
Defined.

(** Without that restriction an asset that never had a source becomes ready, and then fails its own validation. *)
Lemma ready_without_source : exists a, create (octets "movie") (octets "t1") = Ok a /\
  let a3 := (run (OpReady (octets "m.m3u8") 5) (run OpTranscode (run (OpFail (octets "x") true) a).1).1).1 in
  state a3 = Ready (octets "m.m3u8") 5 /\ validate_asset a3 = Err InvalidAssetTransition.
Proof. eexists. split; [reflexivity|]. split; vm_compute; reflexivity. Qed.

(** A date-time with a line break is accepted and ends the playlist for its readers, although it was not finished. *)
Definition broken_segment : Segment :=
  {| sequence := 7; duration := {| secs := 2; nanos := 0 |}; uri := octets "a.m4s"; discontinuity := false;
     program_date_time := Some (octets "x" ++ [LF] ++ octets "#EXT-X-ENDLIST" ++ [LF] ++ octets "Z") |}.
Lemma date_time_breaks_lines : let p := (push broken_segment demo_new).1 in
  validate_playlist p = Ok tt /\ ended p = false /\ octets "#EXT-X-ENDLIST" ∈ lines (render p).
Proof. split; [vm_compute; reflexivity|]. split; [vm_compute; reflexivity|]. apply (bool_decide_unpack _). vm_compute. exact I. Qed.
