(* ===== verification/Domain.v ===== *)
(** * foundation/domain: the event-sourced room aggregate (src/lib.rs)

    Commands are decided against the current state, the resulting event is applied, and the same
    [apply] rebuilds a room from its stored events; snapshots hold the current state.  Identifiers are
    128-bit integers, strings are their octets. *)
From stdpp Require Import sorting.
From S2P Require Import Prelude Words Slices RustStd RustStr.

Definition MAX_CHAT_BYTES : Z := 4096.
Definition MAX_CUSTOM_NAMESPACE_BYTES : Z := 64.
Definition MAX_CUSTOM_DATA_BYTES : Z := 60 * 1024.
Definition COMMAND_HISTORY_LIMIT : Z := 4096.
Definition GIFT_TRANSACTION_HISTORY_LIMIT : Z := 4096.
Definition MAX_GIFT_TRANSACTION_ID_BYTES : Z := 512.
Definition MAX_GIFT_ID_BYTES : Z := 256.

Inductive RoomMode := Sfu | P2p | Live | Vod.
#[export] Instance RoomMode_eq_dec : EqDecision RoomMode.
Proof. solve_decision. Defined.

Inductive MemberRole := Host | CoHost | Publisher | Audience.
#[export] Instance MemberRole_eq_dec : EqDecision MemberRole.
Proof. solve_decision. Defined.

Definition can_publish (role : MemberRole) : bool := match role with Host | CoHost | Publisher => true | Audience => false end.
Definition can_moderate (role : MemberRole) : bool := match role with Host | CoHost => true | Publisher | Audience => false end.

Record RoomPolicy := { max_members : Z; max_publishers : Z; max_chat_bytes : Z; max_custom_data_bytes : Z }.
Definition default_policy : RoomPolicy :=
  {| max_members := 10000; max_publishers := 32; max_chat_bytes := MAX_CHAT_BYTES; max_custom_data_bytes := MAX_CUSTOM_DATA_BYTES |}.

Record VerifiedGiftReceipt := {
  transaction_id : bytes; gift_id : bytes; quantity : Z; unit_value : Z; currency : bytes; recipient : Z }.
Record CustomData := { namespace : bytes; schema_version : Z; payload : bytes }.

Inductive RoomCommand :=
| Join (user : Z)
| Leave (user : Z)
| SetRole (actor user : Z) (role : MemberRole)
| StartPublishing (user : Z)
| StopPublishing (user : Z)
| SendChat (user message_id : Z) (text : bytes)
| RecordVerifiedGift (sender : Z) (receipt : VerifiedGiftReceipt)
| SendCustomData (user : Z) (data : CustomData)
| End_ (actor : Z).

Inductive RoomEventKind :=
| Created (host : Z) (mode : RoomMode)
| MemberJoined (user : Z) (role : MemberRole)
| MemberLeft (user : Z)
| RoleChanged (user : Z) (role : MemberRole)
| PublishingStarted (user : Z)
| PublishingStopped (user : Z)
| ChatSent (user message_id : Z) (text : bytes)
| GiftRecorded (sender : Z) (receipt : VerifiedGiftReceipt) (total_value : Z)
| CustomDataSent (user : Z) (data : CustomData)
| Ended (actor : Z).

Record RoomEvent := { event_sequence : Z; command_id : Z; timestamp_millis : Z; kind : RoomEventKind }.
Inductive CommandOutcome := Applied (event : RoomEvent) | Duplicate.

Record Room := {
  id : Z;
  mode : RoomMode;
  policy : RoomPolicy;
  members : gmap Z MemberRole;
  publishers : gset Z;
  ended : bool;
  sequence : Z;
  processed_commands : gset Z;
  command_order : list Z;
  gift_transactions : gset bytes;
  gift_transaction_order : list bytes }.

Record RoomSnapshot := {
  snapshot_schema_version : Z;
  snapshot_id : Z;
  snapshot_mode : RoomMode;
  snapshot_policy : RoomPolicy;
  snapshot_members : list (Z * MemberRole);
  snapshot_publishers : list Z;
  snapshot_ended : bool;
  snapshot_sequence : Z;
  snapshot_command_order : list Z;
  snapshot_gift_transaction_order : list bytes }.

Inductive RoomError :=
| EmptyEventStream
| InvalidCreationEvent
| InvalidSnapshot
| EventSequenceGap (expected actual : Z)
| SequenceExhausted
| RoomEnded
| AlreadyMember (user : Z)
| NotMember (user : Z)
| PermissionDenied (user : Z)
| HostCannotLeave
| MemberLimit
| PublisherLimit
| AlreadyPublishing (user : Z)
| NotPublishing (user : Z)
| InvalidChatLength (n : Z)
| InvalidGiftReceipt
| DuplicateGiftTransaction
| GiftValueOverflow
| InvalidCustomData.

Definition set_members (m : gmap Z MemberRole) (r : Room) : Room :=
  {| id := id r; mode := mode r; policy := policy r; members := m; publishers := publishers r; ended := ended r;
     sequence := sequence r; processed_commands := processed_commands r; command_order := command_order r;
     gift_transactions := gift_transactions r; gift_transaction_order := gift_transaction_order r |}.
Definition set_publishers (p : gset Z) (r : Room) : Room :=
  {| id := id r; mode := mode r; policy := policy r; members := members r; publishers := p; ended := ended r;
     sequence := sequence r; processed_commands := processed_commands r; command_order := command_order r;
     gift_transactions := gift_transactions r; gift_transaction_order := gift_transaction_order r |}.
Definition set_ended (e : bool) (r : Room) : Room :=
  {| id := id r; mode := mode r; policy := policy r; members := members r; publishers := publishers r; ended := e;
     sequence := sequence r; processed_commands := processed_commands r; command_order := command_order r;
     gift_transactions := gift_transactions r; gift_transaction_order := gift_transaction_order r |}.
Definition set_sequence (n : Z) (r : Room) : Room :=
  {| id := id r; mode := mode r; policy := policy r; members := members r; publishers := publishers r; ended := ended r;
     sequence := n; processed_commands := processed_commands r; command_order := command_order r;
     gift_transactions := gift_transactions r; gift_transaction_order := gift_transaction_order r |}.
Definition set_commands (s : gset Z) (o : list Z) (r : Room) : Room :=
  {| id := id r; mode := mode r; policy := policy r; members := members r; publishers := publishers r; ended := ended r;
     sequence := sequence r; processed_commands := s; command_order := o;
     gift_transactions := gift_transactions r; gift_transaction_order := gift_transaction_order r |}.
Definition set_gifts (s : gset bytes) (o : list bytes) (r : Room) : Room :=
  {| id := id r; mode := mode r; policy := policy r; members := members r; publishers := publishers r; ended := ended r;
     sequence := sequence r; processed_commands := processed_commands r; command_order := command_order r;
     gift_transactions := s; gift_transaction_order := o |}.

(** ** Text *)
Definition is_ascii_alphanumeric (c : Z) : bool :=
  in_range 48 57 c || in_range 65 90 c || in_range 97 122 c.

Definition valid_custom_namespace (value : bytes) : bool :=
  negb (len value =? 0) && (len value <=? MAX_CUSTOM_NAMESPACE_BYTES) &&
  from_option is_ascii_alphanumeric false (head value) && from_option is_ascii_alphanumeric false (last value) &&
  forallb (fun byte => is_ascii_alphanumeric byte || (byte =? 0x2e) || (byte =? 0x5f) || (byte =? 0x2d)) value.

(** [value.chars().any(char::is_control)]: the control characters are U+0000..U+001F and U+007F..U+009F,
    the latter encoded as 7F and C2 80..C2 9F. *)
Fixpoint any_control (l : bytes) : bool :=
  match l with
  | [] => false
  | c :: l' => (c <? 0x20) || (c =? 0x7f) ||
      ((c =? 0xc2) && match l' with d :: _ => in_range 0x80 0x9f d | [] => false end) || any_control l'
  end.

Definition valid_gift_text (value : bytes) (maximum_bytes : Z) : bool :=
  negb (len value =? 0) && (len value <=? maximum_bytes) && negb (any_control value).

(** ** Bounded histories

    [while order.len() > limit { if let Some(expired) = order.pop_front() { set.remove(&expired); } }] *)
Fixpoint trim {A} `{Countable A} (limit : Z) (order : list A) (set : gset A) : gset A * list A :=
  if limit <? len order then
    match order with
    | expired :: order => trim limit order (set ∖ {[expired]})
    | [] => (set, order)
    end
  else (set, order).

Definition remember {A} `{Countable A} (limit : Z) (x : A) (set : gset A) (order : list A) : gset A * list A :=
  if bool_decide (x ∈ set) then trim limit order set else trim limit (order ++ [x]) ({[x]} ∪ set).

Definition remember_command (command_id : Z) (self : Room) : Room :=
  let '(s, o) := remember COMMAND_HISTORY_LIMIT command_id (processed_commands self) (command_order self) in set_commands s o self.
Definition remember_gift_transaction (transaction_id : bytes) (self : Room) : Room :=
  let '(s, o) := remember GIFT_TRANSACTION_HISTORY_LIMIT transaction_id (gift_transactions self) (gift_transaction_order self) in
  set_gifts s o self.

(** ** Events *)
Definition empty (id : Z) (mode : RoomMode) (policy : RoomPolicy) : Room :=
  {| id := id; mode := mode; policy := policy; members := ∅; publishers := ∅; ended := false; sequence := 0;
     processed_commands := ∅; command_order := []; gift_transactions := ∅; gift_transaction_order := [] |}.

Definition set_role (user : Z) (role : MemberRole) (self : Room) : Room :=
  let self := set_members (<[user := role]> (members self)) self in
  if negb (can_publish role) then set_publishers (publishers self ∖ {[user]}) self else self.

Definition apply_kind (kind : RoomEventKind) (self : Room) : Room :=
  match kind with
  | Created host _ => set_members (<[host := Host]> (members self)) self
  | MemberJoined user role | RoleChanged user role => set_role user role self
  | MemberLeft user => set_publishers (publishers self ∖ {[user]}) (set_members (delete user (members self)) self)
  | PublishingStarted user => set_publishers ({[user]} ∪ publishers self) self
  | PublishingStopped user => set_publishers (publishers self ∖ {[user]}) self
  | GiftRecorded _ receipt _ => remember_gift_transaction (transaction_id receipt) self
  | Ended _ => set_ended true (set_publishers ∅ self)
  | ChatSent _ _ _ | CustomDataSent _ _ => self
  end.

Definition apply (event : RoomEvent) (self : Room) : Room :=
  remember_command (command_id event) (set_sequence (event_sequence event) (apply_kind (kind event) self)).

Definition create (id : Z) (mode : RoomMode) (host : Z) (policy : RoomPolicy) (command_id timestamp_millis : Z) : Room * RoomEvent :=
  let event := {| event_sequence := 1; command_id := command_id; timestamp_millis := timestamp_millis; kind := Created host mode |} in
  (apply event (empty id mode policy), event).

(** [for event in events]; [room.sequence + 1] is an addition of [u64]. *)
Fixpoint replay (events : list RoomEvent) (room : Room) : outcome RoomError Room :=
  match events with
  | [] => Ok room
  | event :: events =>
      expected ← or_panic (checked_add 64 (sequence room) 1);
      _ ← reject_if (negb (event_sequence event =? expected)) (EventSequenceGap expected (event_sequence event));
      replay events (apply event room)
  end.

Definition restore (id : Z) (mode : RoomMode) (policy : RoomPolicy) (events : list RoomEvent) : outcome RoomError Room :=
  first ← ok_or (head events) EmptyEventStream;
  _ ← reject_if (negb (match kind first with Created _ event_mode => bool_decide (event_mode = mode) | _ => false end)) InvalidCreationEvent;
  replay events (empty id mode policy).

(** ** Commands *)
Definition require_member (self : Room) (user : Z) : outcome RoomError MemberRole := ok_or (members self !! user) (NotMember user).

Definition decide_join (self : Room) (user : Z) : outcome RoomError RoomEventKind :=
  _ ← reject_if (bool_decide (is_Some (members self !! user))) (AlreadyMember user);
  _ ← reject_if (max_members (policy self) <=? Z.of_nat (size (members self))) MemberLimit;
  Ok (MemberJoined user Audience).

Definition decide_leave (self : Room) (user : Z) : outcome RoomError RoomEventKind :=
  role ← require_member self user;
  match role with Host => Err HostCannotLeave | _ => Ok (MemberLeft user) end.

Definition decide_role_change (self : Room) (actor user : Z) (role : MemberRole) : outcome RoomError RoomEventKind :=
  actor_role ← require_member self actor;
  current ← require_member self user;
  _ ← reject_if (negb (can_moderate actor_role) ||
        (bool_decide (actor_role = CoHost) && bool_decide (current = Host \/ current = CoHost)) ||
        bool_decide (current = Host) || bool_decide (role = Host)) (PermissionDenied actor);
  Ok (RoleChanged user role).

Definition decide_start_publishing (self : Room) (user : Z) : outcome RoomError RoomEventKind :=
  role ← require_member self user;
  _ ← reject_if (bool_decide (mode self = Vod) || negb (can_publish role)) (PermissionDenied user);
  _ ← reject_if (bool_decide (user ∈ publishers self)) (AlreadyPublishing user);
  _ ← reject_if (max_publishers (policy self) <=? Z.of_nat (size (publishers self))) PublisherLimit;
  Ok (PublishingStarted user).

Definition decide_stop_publishing (self : Room) (user : Z) : outcome RoomError RoomEventKind :=
  _ ← require_member self user;
  _ ← reject_if (negb (bool_decide (user ∈ publishers self))) (NotPublishing user);
  Ok (PublishingStopped user).

Definition decide_chat (self : Room) (user message_id : Z) (text : bytes) : outcome RoomError RoomEventKind :=
  _ ← require_member self user;
  _ ← reject_if ((len text =? 0) || (max_chat_bytes (policy self) <? len text)) (InvalidChatLength (len text));
  Ok (ChatSent user message_id text).

Definition valid_receipt (receipt : VerifiedGiftReceipt) : bool :=
  valid_gift_text (transaction_id receipt) MAX_GIFT_TRANSACTION_ID_BYTES && valid_gift_text (gift_id receipt) MAX_GIFT_ID_BYTES &&
  negb (quantity receipt =? 0) && (len (currency receipt) =? 3) && forallb (in_range 65 90) (currency receipt).

Definition decide_gift (self : Room) (sender : Z) (receipt : VerifiedGiftReceipt) : outcome RoomError RoomEventKind :=
  _ ← require_member self sender;
  _ ← require_member self (recipient receipt);
  _ ← reject_if (negb (valid_receipt receipt)) InvalidGiftReceipt;
  _ ← reject_if (bool_decide (transaction_id receipt ∈ gift_transactions self)) DuplicateGiftTransaction;
  total_value ← ok_or (checked_mul 64 (unit_value receipt) (quantity receipt)) GiftValueOverflow;
  Ok (GiftRecorded sender receipt total_value).

Definition decide_custom_data (self : Room) (user : Z) (data : CustomData) : outcome RoomError RoomEventKind :=
  _ ← require_member self user;
  _ ← reject_if (negb (valid_custom_namespace (namespace data)) || (max_custom_data_bytes (policy self) <? len (payload data))) InvalidCustomData;
  Ok (CustomDataSent user data).

Definition decide_end (self : Room) (actor : Z) : outcome RoomError RoomEventKind :=
  role ← require_member self actor;
  _ ← reject_if (negb (bool_decide (role = Host))) (PermissionDenied actor);
  Ok (Ended actor).

Definition decide_command (self : Room) (command : RoomCommand) : outcome RoomError RoomEventKind :=
  match command with
  | Join user => decide_join self user
  | Leave user => decide_leave self user
  | SetRole actor user role => decide_role_change self actor user role
  | StartPublishing user => decide_start_publishing self user
  | StopPublishing user => decide_stop_publishing self user
  | SendChat user message_id text => decide_chat self user message_id text
  | RecordVerifiedGift sender receipt => decide_gift self sender receipt
  | SendCustomData user data => decide_custom_data self user data
  | End_ actor => decide_end self actor
  end.

Definition execute (command_id timestamp_millis : Z) (command : RoomCommand) : prog Room RoomError CommandOutcome := fun self =>
  if bool_decide (command_id ∈ processed_commands self) then (self, Ok Duplicate)
  else
    let r :=
      _ ← reject_if (ended self) RoomEnded;
      kind ← decide_command self command;
      sequence ← ok_or (checked_add 64 (sequence self) 1) SequenceExhausted;
      Ok {| event_sequence := sequence; command_id := command_id; timestamp_millis := timestamp_millis; kind := kind |} in
    match r with
    | Ok event => (apply event self, Ok (Applied event))
    | Err e => (self, Err e)
    | Panic => (self, Panic)
    | Diverge => (self, Diverge)
    end.

Definition member_role (self : Room) (user : Z) : option MemberRole := members self !! user.
Definition is_publishing (self : Room) (user : Z) : bool := bool_decide (user ∈ publishers self).
Definition member_count (self : Room) : Z := Z.of_nat (size (members self)).
Definition publisher_count (self : Room) : Z := Z.of_nat (size (publishers self)).

(** ** Snapshots

    [members.sort_by_key(|(user, _)| *user)]; the keys of a map are distinct, so that the result does not
    depend on the iteration order. *)
Definition by_user (a b : Z * MemberRole) : Prop := a.1 <= b.1.
#[export] Instance by_user_dec : RelDecision by_user := fun a b => Z_le_dec a.1 b.1.

Definition snapshot (self : Room) : RoomSnapshot :=
  {| snapshot_schema_version := 1; snapshot_id := id self; snapshot_mode := mode self; snapshot_policy := policy self;
     snapshot_members := merge_sort by_user (map_to_list (members self));
     snapshot_publishers := sort_unstable (elements (publishers self));
     snapshot_ended := ended self; snapshot_sequence := sequence self;
     snapshot_command_order := command_order self; snapshot_gift_transaction_order := gift_transaction_order self |}.

(** [collect::<HashMap<_, _>>()]: a later entry replaces an earlier one. *)
Definition collect_map {V} (l : list (Z * V)) : gmap Z V := foldl (fun m kv => <[kv.1 := kv.2]> m) ∅ l.

Definition policy_valid (policy : RoomPolicy) : bool :=
  in_range 2 100000 (max_members policy) && in_range 1 1024 (max_publishers policy) &&
  in_range 1 MAX_CHAT_BYTES (max_chat_bytes policy) && in_range 1 MAX_CUSTOM_DATA_BYTES (max_custom_data_bytes policy).
Definition histories_valid (snapshot : RoomSnapshot) : bool :=
  negb (len (snapshot_command_order snapshot) =? 0) &&
  (len (snapshot_command_order snapshot) <=? COMMAND_HISTORY_LIMIT) &&
  (Z.of_nat (size (list_to_set (snapshot_command_order snapshot) : gset Z)) =? len (snapshot_command_order snapshot)) &&
  (len (snapshot_gift_transaction_order snapshot) <=? GIFT_TRANSACTION_HISTORY_LIMIT) &&
  (Z.of_nat (size (list_to_set (snapshot_gift_transaction_order snapshot) : gset bytes)) =? len (snapshot_gift_transaction_order snapshot)) &&
  forallb (fun transaction => valid_gift_text transaction MAX_GIFT_TRANSACTION_ID_BYTES) (snapshot_gift_transaction_order snapshot).
Definition membership_valid (snapshot : RoomSnapshot) : bool :=
  let members := collect_map (snapshot_members snapshot) in
  negb (Z.of_nat (size members) =? 0) && (Z.of_nat (size members) =? len (snapshot_members snapshot)) &&
  (Z.of_nat (size members) <=? max_members (snapshot_policy snapshot)) &&
  (len (filter (fun kv => kv.2 = Host) (map_to_list members)) =? 1).
Definition publishers_valid (snapshot : RoomSnapshot) : bool :=
  let members := collect_map (snapshot_members snapshot) in
  let publishers := list_to_set (snapshot_publishers snapshot) : gset Z in
  (Z.of_nat (size publishers) =? len (snapshot_publishers snapshot)) &&
  (Z.of_nat (size publishers) <=? max_publishers (snapshot_policy snapshot)) &&
  forallb (fun user => from_option can_publish false (members !! user)) (elements publishers) &&
  (negb (snapshot_ended snapshot) || bool_decide (publishers = ∅)).

Definition restore_snapshot (snapshot : RoomSnapshot) : outcome RoomError Room :=
  _ ← reject_if (negb (snapshot_schema_version snapshot =? 1) || (snapshot_sequence snapshot =? 0) ||
        negb (policy_valid (snapshot_policy snapshot)) || negb (histories_valid snapshot) ||
        negb (membership_valid snapshot) || negb (publishers_valid snapshot)) InvalidSnapshot;
  Ok {| id := snapshot_id snapshot; mode := snapshot_mode snapshot; policy := snapshot_policy snapshot;
        members := collect_map (snapshot_members snapshot); publishers := list_to_set (snapshot_publishers snapshot);
        ended := snapshot_ended snapshot; sequence := snapshot_sequence snapshot;
        processed_commands := list_to_set (snapshot_command_order snapshot); command_order := snapshot_command_order snapshot;
        gift_transactions := list_to_set (snapshot_gift_transaction_order snapshot);
        gift_transaction_order := snapshot_gift_transaction_order snapshot |}.

(** ** Identifiers as text

    [format!("{:032x}", id)] and [visit_str]. *)
Definition lower_digit (d : Z) : Z := if d <? 10 then d + 48 else d + 87.
Definition serialize_id (n : Z) : bytes := b ← to_be_bytes 16 n; [lower_digit (b / 16); lower_digit (b mod 16)].
Inductive IdError := InvalidValue | Custom.
Definition is_ascii_hexdigit (c : Z) : bool := in_range 48 57 c || in_range 65 70 c || in_range 97 102 c.
Definition visit_str (value : bytes) : outcome IdError Z :=
  _ ← reject_if (negb (len value =? 32) || negb (forallb is_ascii_hexdigit value)) InvalidValue;
  ok_or (from_str_radix 128 16 value) Custom.
