(* ===== verification/DomainSafety.v ===== *)
(** * foundation/domain: theorems about rooms

    The invariant of a room, that its event stream and its snapshot both rebuild it, who may change
    what, and what the bounded histories remember. *)
From stdpp Require Import sorting.
From S2P Require Import Prelude Words Slices RustStd RustStr Domain.

(** ** Bounded histories *)
Definition lastn {A} (n : Z) (l : list A) : list A := drop (Z.to_nat (len l - n)) l.

Lemma lastn_all {A} n (l : list A) : len l <= n -> lastn n l = l.
Proof. intros H. unfold lastn. by replace (Z.to_nat (len l - n)) with 0%nat by lia. Qed.

Lemma len_lastn {A} n (l : list A) : 0 <= n -> len (lastn n l) = Z.min n (len l).
Proof. intros H. unfold lastn. rewrite len_drop. pose_len. lia. Qed.

Lemma lastn_lastn_app {A} n (l1 l2 : list A) : 0 <= n -> lastn n (lastn n l1 ++ l2) = lastn n (l1 ++ l2).
Proof.
  intros H. destruct (Z_le_gt_dec (len l1) n) as [Hle|Hgt]; [by rewrite (lastn_all n l1)|].
  unfold lastn at 1 3. rewrite !len_app, len_lastn by done. rewrite Z.min_l by lia.
  destruct (decide (len l2 <= n)) as [H2|H2].
  - rewrite !drop_app_le by (unfold lastn, len in *; rewrite ?length_drop; lia). f_equal. unfold lastn. rewrite drop_drop. f_equal. pose_len. lia.
  - rewrite !drop_app_ge by (unfold lastn, len in *; rewrite ?length_drop; lia). f_equal. unfold lastn, len in *. rewrite length_drop. lia.
Qed.

Lemma lastn_fmap {A B} (f : A -> B) n (l : list A) : lastn n (f <$> l) = f <$> lastn n l.
Proof. unfold lastn. by rewrite fmap_drop, len_map. Qed.

Section Histories.
Context {A : Type} `{Countable A}.
Implicit Types (s : gset A) (o : list A) (x : A).

Record history_ok (limit : Z) s o : Prop := {
  history_set : s = list_to_set o;
  history_nodup : NoDup o;
  history_len : len o <= limit }.

Lemma trim_spec limit s o : 0 <= limit -> s = list_to_set o -> NoDup o ->
  trim limit o s = (list_to_set (lastn limit o), lastn limit o).
Proof.
  intros Hl. revert s. induction o as [|x o IH]; intros s -> Hn; cbn [trim].
  - rewrite lastn_all by (rewrite len_nil; lia). rewrite len_nil, (proj2 (Z.ltb_ge limit 0)) by lia. done.
  - apply NoDup_cons in Hn as [Hx Hn]. destruct (Z.ltb_spec limit (len (x :: o))) as [Hlt|Hge]; [|by rewrite lastn_all].
    rewrite IH; [|set_solver|done]. assert (lastn limit (x :: o) = lastn limit o) as ->; [|done].
    unfold lastn. rewrite len_cons in *. by replace (Z.to_nat (1 + len o - limit)) with (S (Z.to_nat (len o - limit))) by lia.
Qed.

Lemma remember_new limit x s o : 0 <= limit -> history_ok limit s o -> x ∉ s ->
  remember limit x s o = (list_to_set (lastn limit (o ++ [x])), lastn limit (o ++ [x])).
Proof.
  intros Hl [Hs Hn Hlen] Hx. unfold remember. rewrite bool_decide_eq_false_2 by done. apply trim_spec; [done|set_solver|].
  apply NoDup_app. split_and!; [done|set_solver|apply NoDup_singleton].
Qed.

Lemma remember_known limit x s o : 0 <= limit -> history_ok limit s o -> x ∈ s -> remember limit x s o = (s, o).
Proof.
  intros Hl [Hs Hn Hlen] Hx. unfold remember. rewrite bool_decide_eq_true_2, (trim_spec limit s o), lastn_all by done. by rewrite Hs.
Qed.

Lemma remember_ok limit x s o : 0 <= limit -> history_ok limit s o ->
  history_ok limit (remember limit x s o).1 (remember limit x s o).2.
Proof.
  intros Hl Hok. destruct (decide (x ∈ s)) as [Hx|Hx]; [by rewrite remember_known|]. rewrite remember_new by done. cbn.
  destruct Hok as [Hs Hn Hlen]. split; [done| |rewrite len_lastn; lia]. unfold lastn.
  eapply sublist_NoDup; [|apply sublist_drop]. apply NoDup_app. split_and!; [done|set_solver|apply NoDup_singleton].
Qed.
End Histories.

(** ** The invariant *)
Record room_ok (r : Room) : Prop := {
  ok_host : exists h, forall u, members r !! u = Some Host <-> u = h;
  ok_members : Z.of_nat (size (members r)) <= Z.max 1 (max_members (policy r));
  ok_publishing u : u ∈ publishers r -> exists role, members r !! u = Some role /\ can_publish role = true;
  ok_publishers : Z.of_nat (size (publishers r)) <= Z.max 0 (max_publishers (policy r));
  ok_idle : mode r = Vod \/ ended r = true -> publishers r = ∅;
  ok_sequence : 1 <= sequence r <= umax 64;
  ok_commands : history_ok COMMAND_HISTORY_LIMIT (processed_commands r) (command_order r) /\ command_order r <> [];
  ok_gifts : history_ok GIFT_TRANSACTION_HISTORY_LIMIT (gift_transactions r) (gift_transaction_order r) /\
    Forall (fun x => valid_gift_text x MAX_GIFT_TRANSACTION_ID_BYTES = true) (gift_transaction_order r) }.

(** What each kind of event leaves alone. *)
Lemma remember_command_fields c r : let r' := remember_command c r in
  id r' = id r /\ mode r' = mode r /\ policy r' = policy r /\ members r' = members r /\ publishers r' = publishers r /\ ended r' = ended r /\
  sequence r' = sequence r /\ gift_transactions r' = gift_transactions r /\ gift_transaction_order r' = gift_transaction_order r /\
  (processed_commands r', command_order r') = remember COMMAND_HISTORY_LIMIT c (processed_commands r) (command_order r).
Proof. unfold remember_command. by destruct (remember _ _ _ _). Qed.

Lemma remember_gift_fields x r : let r' := remember_gift_transaction x r in
  id r' = id r /\ mode r' = mode r /\ policy r' = policy r /\ members r' = members r /\ publishers r' = publishers r /\ ended r' = ended r /\
  sequence r' = sequence r /\ processed_commands r' = processed_commands r /\ command_order r' = command_order r /\
  (gift_transactions r', gift_transaction_order r') = remember GIFT_TRANSACTION_HISTORY_LIMIT x (gift_transactions r) (gift_transaction_order r).
Proof. unfold remember_gift_transaction. by destruct (remember _ _ _ _). Qed.

(** The transaction an event records. *)
Definition gift_of (k : RoomEventKind) : option bytes :=
  match k with GiftRecorded _ receipt _ => Some (transaction_id receipt) | _ => None end.

Record kind_effect (k : RoomEventKind) (r r' : Room) : Prop := {
  eff_id : id r' = id r;
  eff_mode : mode r' = mode r;
  eff_policy : policy r' = policy r;
  eff_sequence : sequence r' = sequence r;
  eff_commands : processed_commands r' = processed_commands r /\ command_order r' = command_order r;
  eff_gifts : (gift_transactions r', gift_transaction_order r') = match gift_of k with
    | Some x => remember GIFT_TRANSACTION_HISTORY_LIMIT x (gift_transactions r) (gift_transaction_order r)
    | None => (gift_transactions r, gift_transaction_order r) end }.

Lemma apply_kind_effect k r : kind_effect k r (apply_kind k r).
Proof.
  destruct k; cbn; try (split; done); try (unfold set_role; destruct (can_publish _); split; done).
  destruct (remember_gift_fields (transaction_id receipt) r) as (? & ? & ? & ? & ? & ? & ? & ? & ? & ?). by split.
Qed.

Definition applied (result : outcome RoomError CommandOutcome) : list RoomEvent :=
  match result with Ok (Applied e) => [e] | _ => [] end.

(** What a command that was applied had to satisfy. *)
Lemma execute_cases c t cmd r :
  (execute c t cmd r = (r, Ok Duplicate) /\ c ∈ processed_commands r) \/
  (exists e, execute c t cmd r = (r, Err e)) \/
  (exists k, (c ∉ processed_commands r) /\ ended r = false /\ decide_command r cmd = Ok k /\ sequence r + 1 <= umax 64 /\
     let e := {| event_sequence := sequence r + 1; command_id := c; timestamp_millis := t; kind := k |} in
     execute c t cmd r = (apply e r, Ok (Applied e))).
Proof.
  unfold execute. case_bool_decide as Hc; [by left|right]. destruct (ended r) eqn:He; [left; by eexists|]. cbn [reject_if mbind outcome_bind].
  assert (returns (decide_command r cmd)) as Hret.
  { destruct cmd; cbn; unfold decide_join, decide_leave, decide_role_change, decide_start_publishing, decide_stop_publishing, decide_chat,
      decide_gift, decide_custom_data, decide_end, require_member; returns_steps. }
  destruct (decide_command r cmd) as [k|e| |] eqn:Hk; [|left; by eexists|done|done]. cbn [mbind outcome_bind].
  destruct (checked_add 64 (sequence r) 1) as [n|] eqn:Hn; [|left; by eexists]. apply checked_add_Some in Hn as [-> Hn].
  right. exists k. by split_and!.
Qed.

(** ** Decisions *)
Lemma decide_join_Ok r u k : decide_join r u = Ok k ->
  k = MemberJoined u Audience /\ members r !! u = None /\ Z.of_nat (size (members r)) < max_members (policy r).
Proof.
  unfold decide_join. intros H. inv_ok H. apply bool_decide_eq_false in Hstep. split_and!; [done| |lia].
  by destruct (members r !! u); [contradict Hstep|].
Qed.

Lemma decide_leave_Ok r u k : decide_leave r u = Ok k ->
  k = MemberLeft u /\ exists role, members r !! u = Some role /\ role <> Host.
Proof. unfold decide_leave, require_member. intros H. inv_ok H. destruct a; try done; injection H as <-; eauto. Qed.

(** The actor outranks the member it changes, and nobody becomes or stops being the host. *)
Definition may_change (r : Room) (actor user : Z) (role : MemberRole) : Prop :=
  role <> Host /\ exists current, members r !! user = Some current /\ current <> Host /\
    (members r !! actor = Some Host \/ members r !! actor = Some CoHost /\ current <> CoHost).

Lemma decide_role_change_Ok r actor u role k : decide_role_change r actor u role = Ok k ->
  k = RoleChanged u role /\ may_change r actor u role.
Proof.
  unfold decide_role_change, require_member. intros H. inv_ok H. split; [done|]. unfold may_change. rewrite Hstep, Hstep0.
  rewrite !orb_false_iff in Hstep1. destruct Hstep1 as [[[H1 H2] H3%bool_decide_eq_false] H4%bool_decide_eq_false].
  split; [done|]. exists a0. split_and!; [done|done|]. destruct a; try done; [by left|right]. split; [done|].
  intros ->. by cbn in H2.
Qed.

Lemma decide_start_Ok r u k : decide_start_publishing r u = Ok k ->
  k = PublishingStarted u /\ mode r <> Vod /\ (exists role, members r !! u = Some role /\ can_publish role = true) /\
  (u ∉ publishers r) /\ Z.of_nat (size (publishers r)) < max_publishers (policy r).
Proof.
  unfold decide_start_publishing, require_member. intros H. inv_ok H. apply orb_false_iff in Hstep0 as [H1%bool_decide_eq_false H2%negb_false_iff].
  apply bool_decide_eq_false in Hstep1. split_and!; eauto; lia.
Qed.

Lemma decide_gift_Ok r sender receipt k : decide_gift r sender receipt = Ok k ->
  k = GiftRecorded sender receipt (unit_value receipt * quantity receipt) /\ unit_value receipt * quantity receipt <= umax 64 /\
  (transaction_id receipt ∉ gift_transactions r) /\ valid_receipt receipt = true /\ is_Some (members r !! sender) /\ is_Some (members r !! recipient receipt).
Proof.
  unfold decide_gift, require_member. intros H. inv_ok H. apply negb_false_iff in Hstep1. apply bool_decide_eq_false in Hstep2.
  apply checked_mul_Some in Hstep3 as [-> Hle]. by split_and!.
Qed.

Lemma decide_end_Ok r actor k : decide_end r actor = Ok k -> k = Ended actor /\ members r !! actor = Some Host.
Proof. unfold decide_end, require_member. intros H. inv_ok H. apply negb_false_iff, bool_decide_eq_true in Hstep0 as ->. done. Qed.

(** Every kind that a command can produce, with what was checked. *)
Definition justified (r : Room) (cmd : RoomCommand) (k : RoomEventKind) : Prop :=
  match cmd with
  | Join u => k = MemberJoined u Audience /\ members r !! u = None /\ Z.of_nat (size (members r)) < max_members (policy r)
  | Leave u => k = MemberLeft u /\ exists role, members r !! u = Some role /\ role <> Host
  | SetRole actor u role => k = RoleChanged u role /\ may_change r actor u role
  | StartPublishing u => k = PublishingStarted u /\ mode r <> Vod /\ (exists role, members r !! u = Some role /\ can_publish role = true) /\
      (u ∉ publishers r) /\ Z.of_nat (size (publishers r)) < max_publishers (policy r)
  | StopPublishing u => k = PublishingStopped u
  | SendChat u m text => k = ChatSent u m text
  | RecordVerifiedGift sender receipt => k = GiftRecorded sender receipt (unit_value receipt * quantity receipt) /\
      unit_value receipt * quantity receipt <= umax 64 /\ (transaction_id receipt ∉ gift_transactions r) /\ valid_receipt receipt = true /\
      is_Some (members r !! sender) /\ is_Some (members r !! recipient receipt)
  | SendCustomData u data => k = CustomDataSent u data
  | End_ actor => k = Ended actor /\ members r !! actor = Some Host
  end.

Lemma decide_justified r cmd k : decide_command r cmd = Ok k -> justified r cmd k.
Proof.
  destruct cmd; cbn; [apply decide_join_Ok|apply decide_leave_Ok|apply decide_role_change_Ok|apply decide_start_Ok| | |apply decide_gift_Ok| |apply decide_end_Ok].
  all: unfold decide_stop_publishing, decide_chat, decide_custom_data; intros H; by inv_ok H.
Qed.

(** ** The members *)
Record members_ok (r : Room) : Prop := {
  mem_host : exists h, forall u, members r !! u = Some Host <-> u = h;
  mem_members : Z.of_nat (size (members r)) <= Z.max 1 (max_members (policy r));
  mem_publishing u : u ∈ publishers r -> exists role, members r !! u = Some role /\ can_publish role = true;
  mem_publishers : Z.of_nat (size (publishers r)) <= Z.max 0 (max_publishers (policy r));
  mem_idle : mode r = Vod \/ ended r = true -> publishers r = ∅ }.

Lemma size_difference_le (s : gset Z) u : (size (s ∖ {[u]}) <= size s)%nat.
Proof. apply subseteq_size. set_solver. Qed.

(** Fewer publishers, the same members. *)
Lemma members_ok_fewer r p : members_ok r -> p ⊆ publishers r -> members_ok (set_publishers p r).
Proof.
  intros [H1 H2 H3 H4 H5] Hp. split; cbn; try done.
  - intros u Hu. apply H3. set_solver.
  - pose proof (subseteq_size _ _ Hp). lia.
  - intros Hi. specialize (H5 Hi). set_solver.
Qed.

Lemma set_role_ok r u role : members_ok r -> role <> Host -> members r !! u <> Some Host ->
  (is_Some (members r !! u) \/ Z.of_nat (size (members r)) < max_members (policy r)) -> members_ok (set_role u role r).
Proof.
  intros [[h Hh] H2 H3 H4 H5] Hrole Hu Hroom. unfold set_role.
  assert (exists h', forall v, <[u := role]> (members r) !! v = Some Host <-> v = h') as Hhost.
  { exists h. intros v. destruct (decide (v = u)) as [->|Hne]; [|by rewrite lookup_insert_ne].
    rewrite lookup_insert_eq. split; [by intros [= ->]|]. intros ->. by destruct Hu; apply Hh. }
  assert (Z.of_nat (size (<[u := role]> (members r))) <= Z.max 1 (max_members (policy r))) as Hsize.
  { destruct (members r !! u) as [x|] eqn:E; [by rewrite map_size_insert_Some by (by rewrite E)|]. rewrite map_size_insert_None by done.
    destruct Hroom as [[]|]; [done|lia]. }
  cbn [publishers members set_members]. destruct (can_publish role) eqn:Hcan; cbn [negb]; split; cbn; try done.
  - intros v Hv. destruct (decide (v = u)) as [->|Hne]; [rewrite lookup_insert_eq; eauto|rewrite lookup_insert_ne by done; auto].
  - intros v Hv. apply elem_of_difference in Hv as [Hv Hne]. rewrite lookup_insert_ne by set_solver. auto.
  - pose proof (size_difference_le (publishers r) u). lia.
  - intros Hi. rewrite (H5 Hi). set_solver.
Qed.

Lemma apply_kind_members r cmd k : members_ok r -> ended r = false -> justified r cmd k -> members_ok (apply_kind k r).
Proof.
  intros Hok He Hj. destruct cmd; cbn in Hj.
  - destruct Hj as (-> & Hn & Hsize). apply set_role_ok; [done|done|by rewrite Hn|by right].
  - destruct Hj as (-> & role & Hr & Hne). cbn. destruct Hok as [[h Hh] H2 H3 H4 H5]. split; cbn.
    + exists h. intros v. destruct (decide (v = user)) as [->|Hv]; [|by rewrite lookup_delete_ne].
      rewrite lookup_delete_eq. split; [done|]. intros ->. rewrite (proj2 (Hh h) eq_refl) in Hr. congruence.
    + rewrite map_size_delete_Some by (by rewrite Hr). lia.
    + intros v Hv. apply elem_of_difference in Hv as [Hv Hne']. rewrite lookup_delete_ne by set_solver. auto.
    + pose proof (size_difference_le (publishers r) user). lia.
    + intros Hi. rewrite (H5 Hi). set_solver.
  - destruct Hj as (-> & Hrole & current & Hc & Hcur & _). apply set_role_ok; [done|done|congruence|left; by eexists].
  - destruct Hj as (-> & Hvod & Hrole & Hnew & Hlim). destruct Hok as [H1 H2 H3 H4 H5]. split; cbn; try done.
    + intros u [->%elem_of_singleton|Hu]%elem_of_union; auto.
    + rewrite size_union_alt, size_singleton. pose proof (size_difference_le (publishers r) user).
      assert (publishers r ∖ {[user]} = publishers r) as -> by set_solver. lia.
    + intros [|]; congruence.
  - subst k. apply members_ok_fewer; [done|set_solver].
  - by subst k.
  - destruct Hj as (-> & _). cbn. destruct (remember_gift_fields (transaction_id receipt) r) as (? & E1 & E2 & E3 & E4 & E5 & _).
    destruct Hok as [H1 H2 H3 H4 H5]. split; rewrite ?E1, ?E2, ?E3, ?E4, ?E5; done.
  - by subst k.
  - destruct Hj as (-> & _). destruct (members_ok_fewer r ∅ Hok) as [H1 H2 H3 H4 H5]; [apply empty_subseteq|]. by split.
Qed.

(** ** Histories of a room

    [history i m p evs r]: the room [r] was created with identifier, mode and policy [i], [m], [p], and the
    calls since then, refused and repeated ones included, have applied the events [evs]. *)
Section Rooms.
Context (i : Z) (m : RoomMode) (p : RoomPolicy).

Inductive history : list RoomEvent -> Room -> Prop :=
| history_create host c t : history [(create i m host p c t).2] (create i m host p c t).1
| history_execute evs r c t cmd : history evs r ->
    history (evs ++ applied (execute c t cmd r).2) (execute c t cmd r).1.

Lemma room_ok_parts r : room_ok r <-> members_ok r /\ 1 <= sequence r <= umax 64 /\
  (history_ok COMMAND_HISTORY_LIMIT (processed_commands r) (command_order r) /\ command_order r <> []) /\
  (history_ok GIFT_TRANSACTION_HISTORY_LIMIT (gift_transactions r) (gift_transaction_order r) /\
   Forall (fun x => valid_gift_text x MAX_GIFT_TRANSACTION_ID_BYTES = true) (gift_transaction_order r)).
Proof. split; [intros []; split_and!; try done; tauto|intros ([] & ? & ? & ?); by split]. Qed.

Lemma lastn_snoc_nonempty {A} n (l : list A) x : 1 <= n -> lastn n (l ++ [x]) <> [].
Proof.
  intros Hn H. apply (f_equal len) in H. rewrite len_lastn, len_app in H by lia. change (len [x]) with 1 in H. change (len (@nil A)) with 0 in H. pose_len. lia.
Qed.

(** The state of the histories after one more event. *)
Lemma apply_histories r k n c t : room_ok r -> (c ∉ processed_commands r) ->
  (forall x, gift_of k = Some x -> (x ∉ gift_transactions r) /\ valid_gift_text x MAX_GIFT_TRANSACTION_ID_BYTES = true) ->
  let r' := apply {| event_sequence := n; command_id := c; timestamp_millis := t; kind := k |} r in
  id r' = id r /\ mode r' = mode r /\ policy r' = policy r /\ sequence r' = n /\
  members r' = members (apply_kind k r) /\ publishers r' = publishers (apply_kind k r) /\ ended r' = ended (apply_kind k r) /\
  command_order r' = lastn COMMAND_HISTORY_LIMIT (command_order r ++ [c]) /\
  gift_transaction_order r' = lastn GIFT_TRANSACTION_HISTORY_LIMIT (gift_transaction_order r ++ option_list (gift_of k)) /\
  history_ok COMMAND_HISTORY_LIMIT (processed_commands r') (command_order r') /\
  history_ok GIFT_TRANSACTION_HISTORY_LIMIT (gift_transactions r') (gift_transaction_order r').
Proof.
  intros Hok Hc Hg. apply room_ok_parts in Hok as (_ & _ & [Hcmd _] & [Hgift _]). cbv zeta. unfold apply. cbn [event_sequence command_id kind].
  destruct (apply_kind_effect k r) as [E1 E2 E3 E4 [E5 E6] E7].
  destruct (remember_command_fields c (set_sequence n (apply_kind k r))) as (F1 & F2 & F3 & F4 & F5 & F6 & F7 & F8 & F9 & F10).
  cbn [id mode policy members publishers ended sequence gift_transactions gift_transaction_order processed_commands command_order set_sequence] in *.
  rewrite E5, E6 in F10. rewrite F1, F2, F3, F4, F5, F6, F7, F8, F9, E1, E2, E3.
  pose proof (remember_ok COMMAND_HISTORY_LIMIT c _ _ ltac:(done) Hcmd) as Hcmd'.
  rewrite (remember_new COMMAND_HISTORY_LIMIT c _ _ ltac:(done) Hcmd Hc) in F10, Hcmd'. injection F10 as -> ->.
  do 8 (split; [done|]). destruct (gift_of k) as [x|].
  - destruct (Hg x eq_refl) as [Hx _]. pose proof (remember_ok GIFT_TRANSACTION_HISTORY_LIMIT x _ _ ltac:(done) Hgift) as Hgift'.
    rewrite (remember_new GIFT_TRANSACTION_HISTORY_LIMIT x _ _ ltac:(done) Hgift Hx) in E7, Hgift'. injection E7 as -> ->. by split_and!.
  - injection E7 as -> ->. cbn [option_list]. rewrite app_nil_r, lastn_all by apply Hgift. by split_and!.
Qed.

Lemma justified_gift r cmd k x : justified r cmd k -> gift_of k = Some x ->
  (x ∉ gift_transactions r) /\ valid_gift_text x MAX_GIFT_TRANSACTION_ID_BYTES = true.
Proof.
  intros Hj Hx. destruct cmd; cbn in Hj; try (by subst k); destruct Hj as [-> Hj]; try done.
  destruct Hj as (_ & Hnew & Hv & _). injection Hx as <-. split; [done|]. unfold valid_receipt in Hv. rewrite !andb_true_iff in Hv. tauto.
Qed.

Lemma execute_ok r c t cmd : room_ok r -> room_ok (execute c t cmd r).1.
Proof.
  intros Hok. destruct (execute_cases c t cmd r) as [[-> _]|[[e ->]|(k & Hc & He & Hk & Hn & ->)]]; [done|done|]. cbn [fst].
  apply decide_justified in Hk. pose proof (justified_gift r cmd k) as Hg.
  destruct (apply_histories r k (sequence r + 1) c t Hok Hc (fun x => Hg x Hk)) as (E1 & E2 & E3 & E4 & E5 & E6 & E7 & E8 & E9 & H1 & H2).
  apply room_ok_parts. apply room_ok_parts in Hok as (Hmem & Hseq & [Hcmd _] & [_ Hval]).
  pose proof (apply_kind_members r cmd k Hmem He Hk) as [M1 M2 M3 M4 M5]. destruct (apply_kind_effect k r) as [F1 F2 F3 _ _ _].
  split_and!; try done; rewrite ?E4; try lia.
  - split; rewrite ?E2, ?E3, ?E5, ?E6, ?E7; rewrite ?F2, ?F3 in *; done.
  - rewrite E8. by apply lastn_snoc_nonempty.
  - rewrite E9. unfold lastn. apply Forall_drop, Forall_app. split; [done|]. destruct (gift_of k) as [x|] eqn:Hx; [|constructor].
    constructor; [by apply (Hg x Hk)|constructor].
Qed.

Lemma create_ok host c t : room_ok (create i m host p c t).1.
Proof.
  assert ((create i m host p c t).1 =
    {| id := i; mode := m; policy := p; members := {[host := Host]}; publishers := ∅; ended := false; sequence := 1;
       processed_commands := {[c]} ∪ ∅; command_order := [c]; gift_transactions := ∅; gift_transaction_order := [] |}) as ->.
  { cbn. unfold apply, remember_command, remember. cbn. by rewrite bool_decide_eq_false_2 by apply not_elem_of_empty. }
  apply room_ok_parts. split; [split|split; [|split; [split|split; [split|]]]]; cbn.
  - exists host. intros u. rewrite lookup_singleton_Some. naive_solver.
  - rewrite map_size_singleton. lia.
  - intros u Hu. by apply not_elem_of_empty in Hu.
  - rewrite size_empty. lia.
  - done.
  - unfold umax. lia.
  - split; [done|apply NoDup_singleton|done].
  - done.
  - done.
  - constructor.
  - done.
  - constructor.
Qed.

Lemma history_room_ok evs r : history evs r -> room_ok r.
Proof. induction 1 as [host c t|evs r c t cmd _ IH]; [apply create_ok|by apply execute_ok]. Qed.

(** ** The event stream *)
Lemma replay_app a b r : replay (a ++ b) r = (r' ← replay a r; replay b r').
Proof.
  revert r. induction a as [|e a IH]; intros r; [done|]. cbn [replay app].
  destruct (checked_add 64 (sequence r) 1) as [n|]; [|done]. cbn [or_panic mbind outcome_bind].
  destruct (negb (event_sequence e =? n)); [done|]. cbn [reject_if mbind outcome_bind]. apply IH.
Qed.

Lemma replay_one r e : event_sequence e = sequence r + 1 -> 0 <= sequence r -> sequence r + 1 <= umax 64 -> replay [e] r = Ok (apply e r).
Proof.
  intros He H0 Hle. cbn. unfold checked_add. rewrite (proj2 (Z.leb_le _ _) Hle). cbn. rewrite He, Z.eqb_refl. done.
Qed.

Record stream_ok (evs : list RoomEvent) (r : Room) : Prop := {
  st_first : exists e host, head evs = Some e /\ kind e = Created host m;
  st_replay : replay evs (empty i m p) = Ok r;
  st_numbers : event_sequence <$> evs = seqZ 1 (sequence r);
  st_commands : command_order r = lastn COMMAND_HISTORY_LIMIT (command_id <$> evs);
  st_gifts : gift_transaction_order r = lastn GIFT_TRANSACTION_HISTORY_LIMIT (omap gift_of (kind <$> evs));
  st_same : id r = i /\ mode r = m /\ policy r = p }.

Lemma apply_stream r k n c t : room_ok r -> (c ∉ processed_commands r) ->
  (forall x, gift_of k = Some x -> (x ∉ gift_transactions r) /\ valid_gift_text x MAX_GIFT_TRANSACTION_ID_BYTES = true) ->
  forall evs, stream_ok evs r -> n = sequence r + 1 -> n <= umax 64 ->
  let e := {| event_sequence := n; command_id := c; timestamp_millis := t; kind := k |} in stream_ok (evs ++ [e]) (apply e r).
Proof.
  intros Hok Hc Hg evs [(e0 & h & Hhd & Hk) Hr Hn Hco Hgo (I1 & I2 & I3)] -> Hle. cbv zeta.
  destruct (apply_histories r k (sequence r + 1) c t Hok Hc Hg) as (E1 & E2 & E3 & E4 & _ & _ & _ & E8 & E9 & _).
  pose proof (ok_sequence _ Hok). split.
  - exists e0, h. by destruct evs.
  - rewrite replay_app, Hr. cbn [mbind outcome_bind]. apply replay_one; [done|lia|done].
  - rewrite fmap_app, Hn, E4, seqZ_app by lia. f_equal. cbn [fmap list_fmap event_sequence]. change (seqZ (1 + sequence r) 1) with [0 + (1 + sequence r)]. f_equal. lia.
  - rewrite E8, Hco, lastn_lastn_app by done. by rewrite fmap_app.
  - rewrite E9, Hgo, lastn_lastn_app by done. rewrite fmap_app, omap_app. by destruct k.
  - by rewrite E1, E2, E3.
Qed.

Lemma create_stream host c t : stream_ok [(create i m host p c t).2] (create i m host p c t).1.
Proof.
  split; [by exists (create i m host p c t).2, host|by cbn|..].
  all: unfold create, apply, remember_command, remember; cbn; by rewrite bool_decide_eq_false_2 by apply not_elem_of_empty.
Qed.

Lemma history_stream evs r : history evs r -> stream_ok evs r.
Proof.
  induction 1 as [host c t|evs r c t cmd Hh IH]; [apply create_stream|].
  destruct (execute_cases c t cmd r) as [[-> _]|[[e ->]|(k & Hc & He & Hk & Hn & ->)]]; cbn [fst snd applied]; [by rewrite app_nil_r..|].
  apply apply_stream; [by eapply history_room_ok|done| |done|done|done]. intros x. by apply (justified_gift r cmd k), decide_justified.
Qed.
End Rooms.

(** ** Snapshots *)
Lemma collect_map_reverse {V} (l : list (Z * V)) : collect_map l = list_to_map (reverse l).
Proof.
  unfold collect_map. induction l as [|[k v] l IH] using rev_ind; [done|]. by rewrite foldl_app, reverse_snoc, list_to_map_cons, IH.
Qed.

Lemma collect_map_sorted (ms : gmap Z MemberRole) : collect_map (merge_sort by_user (map_to_list ms)) = ms.
Proof.
  rewrite collect_map_reverse. set (l := reverse _).
  assert (l ≡ₚ map_to_list ms) as Hl by (unfold l; by rewrite reverse_Permutation, merge_sort_Permutation).
  rewrite <- (list_to_map_to_list ms). apply list_to_map_proper; [|done]. rewrite Hl. apply NoDup_fst_map_to_list.
Qed.

Lemma one_host (ms : gmap Z MemberRole) h : (forall u, ms !! u = Some Host <-> u = h) ->
  len (filter (fun kv => kv.2 = Host) (map_to_list ms)) = 1.
Proof.
  intros Hh. unfold len. assert (filter (fun kv : Z * MemberRole => kv.2 = Host) (map_to_list ms) ≡ₚ [(h, Host)]) as ->; [|done].
  apply NoDup_Permutation; [apply NoDup_filter, NoDup_map_to_list|apply NoDup_singleton|]. intros [u role].
  rewrite list_elem_of_filter, elem_of_map_to_list, list_elem_of_singleton. cbn. split.
  - intros [-> Hu]. by apply Hh in Hu as ->.
  - intros [= -> ->]. split; [done|by apply Hh].
Qed.

Lemma size_history {A} `{Countable A} (o : list A) : NoDup o -> Z.of_nat (size (list_to_set o : gset A)) = len o.
Proof. intros Ho. by rewrite size_list_to_set. Qed.

Lemma reject_false {E} b (e : E) {A} (k : outcome E A) : b = false -> (_ ← reject_if b e; k) = k.
Proof. by intros ->. Qed.

Ltac snap := cbn [snapshot snapshot_schema_version snapshot_id snapshot_mode snapshot_policy snapshot_members snapshot_publishers
  snapshot_ended snapshot_sequence snapshot_command_order snapshot_gift_transaction_order].

Lemma restore_snapshot_ok r : room_ok r -> policy_valid (policy r) = true -> restore_snapshot (snapshot r) = Ok r.
Proof.
  intros [[h Hh] H2 H3 H4 H5 H6 [[C1 C2 C3] C4] [[G1 G2 G3] G4]] Hp. unfold restore_snapshot.
  assert (list_to_set (sort_unstable (elements (publishers r))) = publishers r) as Hpub.
  { apply set_eq. intros x. rewrite elem_of_list_to_set, elem_of_sort. apply elem_of_elements. }
  pose proof (collect_map_sorted (members r)) as Hmem. pose proof Hp as Hp'. unfold policy_valid, in_range in Hp'.
  rewrite reject_false; [snap; rewrite Hmem, Hpub, <- C1, <- G1; by destruct r|].
  rewrite !orb_false_iff, !negb_false_iff. snap. split_and!; [done|lia|done|..].
  - unfold histories_valid. snap. cbv zeta. rewrite !size_history by done. rewrite !andb_true_iff. split_and!; try lia.
    + destruct (command_order r) as [|c o]; [done|]. rewrite len_cons. pose_len. lia.
    + apply forallb_forall. intros x Hx%list_elem_of_In. rewrite Forall_forall in G4. auto.
  - unfold membership_valid. snap. cbv zeta. rewrite Hmem, (one_host _ h) by done. unfold len.
    rewrite (merge_sort_Permutation by_user), length_map_to_list.
    assert (size (members r) <> 0%nat) by (intros E%map_size_empty_iff; pose proof (proj2 (Hh h) eq_refl) as Hin; by rewrite E in Hin). lia.
  - unfold publishers_valid. snap. cbv zeta. rewrite Hmem, Hpub, len_sort. rewrite !andb_true_iff. split_and!; [|lia| |].
    + unfold size, set_size, len. cbn. lia.
    + apply forallb_forall. intros x Hx%list_elem_of_In%elem_of_elements. by destruct (H3 x Hx) as (role & -> & Hr).
    + destruct (ended r); [|done]. cbn. apply bool_decide_eq_true. auto.
Qed.

(** A list as long as the set of its elements has no repetition. *)
Lemma nodup_of_size {A} `{Countable A} (l : list A) : Z.of_nat (size (list_to_set l : gset A)) = len l -> NoDup l.
Proof.
  unfold len. intros Hs. apply Nat2Z.inj in Hs. induction l as [|x l IH]; [constructor|]. cbn in Hs.
  assert (size (list_to_set l : gset A) <= length l)%nat as Hle.
  { clear. induction l as [|y l IH]; cbn; [by rewrite size_empty|].
    rewrite size_union_alt, size_singleton. pose proof (subseteq_size ((list_to_set l : gset A) ∖ {[y]}) (list_to_set l) ltac:(set_solver)). lia. }
  destruct (decide (x ∈ l)) as [Hx|Hx].
  - assert ({[x]} ∪ (list_to_set l : gset A) = list_to_set l) as E by set_solver. rewrite E in Hs. lia.
  - constructor; [done|]. apply IH. rewrite size_union, size_singleton in Hs by set_solver. lia.
Qed.

Lemma unique_of_count (ms : gmap Z MemberRole) : len (filter (fun kv => kv.2 = Host) (map_to_list ms)) = 1 ->
  exists h, forall u, ms !! u = Some Host <-> u = h.
Proof.
  intros Hl. destruct (filter _ _) as [|[h role] [|]] eqn:E; try discriminate; [|unfold len in Hl; cbn in Hl; lia]. exists h. intros u.
  assert (forall v, ms !! v = Some Host <-> (v, Host) = (h, role)) as Hiff.
  { intros v. rewrite <- (list_elem_of_singleton (v, Host) (h, role)), <- E, list_elem_of_filter, elem_of_map_to_list. naive_solver. }
  assert (role = Host) as ->.
  { assert ((h, role) ∈ filter (fun kv : Z * MemberRole => kv.2 = Host) (map_to_list ms)) as Hin by (rewrite E; left).
    by apply list_elem_of_filter in Hin as [? _]. }
  rewrite Hiff. naive_solver.
Qed.

Lemma restored_room_ok s r : restore_snapshot s = Ok r -> fits 64 (snapshot_sequence s) ->
  (snapshot_mode s = Vod -> snapshot_publishers s = []) -> room_ok r.
Proof.
  unfold restore_snapshot. intros H Hseq Hvod. inv_ok H. subst r. rewrite !orb_false_iff, !negb_false_iff in Hstep.
  destruct Hstep as [[[[[_ H0] Hp] Hh] Hm] Hpub]. unfold policy_valid, in_range in Hp. unfold histories_valid in Hh. unfold membership_valid in Hm.
  unfold publishers_valid in Hpub. cbv zeta in Hm, Hpub. rewrite !andb_true_iff in Hh. rewrite !andb_true_iff in Hm. rewrite !andb_true_iff in Hpub.
  destruct Hh as [[[[[C1 C2] C3] G1] G2] G3]. destruct Hm as [[[M1 M2] M3] M4]. destruct Hpub as [[[P1 P2] P3] P4].
  split; cbn [members publishers policy mode ended sequence processed_commands command_order gift_transactions gift_transaction_order].
  - apply unique_of_count. by apply Z.eqb_eq in M4.
  - lia.
  - intros u Hu. rewrite forallb_forall in P3. specialize (P3 u ltac:(by apply list_elem_of_In, elem_of_elements)).
    destruct (collect_map _ !! u) as [role|]; [eauto|done].
  - lia.
  - intros [Hv|He]; [by rewrite (Hvod Hv)|]. rewrite He in P4. by apply bool_decide_eq_true in P4.
  - destruct Hseq. unfold umax. lia.
  - split; [split; [done|apply nodup_of_size; lia|lia]|]. intros E. by rewrite E in C1.
  - split; [split; [done|apply nodup_of_size; lia|lia]|]. apply Forall_forall. intros x Hx. rewrite forallb_forall in G3. by apply G3, list_elem_of_In.
Qed.

(** ** Who may change what *)
Lemma apply_view r e : let r' := apply e r in
  members r' = members (apply_kind (kind e) r) /\ publishers r' = publishers (apply_kind (kind e) r) /\ ended r' = ended (apply_kind (kind e) r).
Proof.
  unfold apply. destruct (remember_command_fields (command_id e) (set_sequence (event_sequence e) (apply_kind (kind e) r))) as (_ & _ & _ & E4 & E5 & E6 & _).
  by rewrite E4, E5, E6.
Qed.

Lemma set_role_view u role r : members (set_role u role r) = <[u := role]> (members r) /\ ended (set_role u role r) = ended r /\
  publishers (set_role u role r) = if can_publish role then publishers r else publishers r ∖ {[u]}.
Proof. unfold set_role. by destruct (can_publish role). Qed.

(** The changes that a command may cause. *)
Definition role_authority (r : Room) (cmd : RoomCommand) (u : Z) (now : option MemberRole) : Prop :=
  (cmd = Join u /\ members r !! u = None /\ now = Some Audience) \/
  (cmd = Leave u /\ members r !! u <> Some Host /\ now = None) \/
  (exists actor role, cmd = SetRole actor u role /\ may_change r actor u role /\ now = Some role).
Definition stop_authority (r : Room) (cmd : RoomCommand) (u : Z) : Prop :=
  cmd = StopPublishing u \/ (cmd = Leave u /\ members r !! u <> Some Host) \/
  (exists actor, cmd = SetRole actor u Audience /\ may_change r actor u Audience) \/
  (exists actor, cmd = End_ actor /\ members r !! actor = Some Host).

Record authorised (r : Room) (cmd : RoomCommand) (r' : Room) : Prop := {
  au_roles u : members r' !! u <> members r !! u -> role_authority r cmd u (members r' !! u);
  au_start u : u ∈ publishers r' -> (u ∉ publishers r) ->
    cmd = StartPublishing u /\ mode r <> Vod /\ exists role, members r !! u = Some role /\ can_publish role = true;
  au_stop u : u ∈ publishers r -> (u ∉ publishers r') -> stop_authority r cmd u;
  au_ended : ended r' = ended r \/ (exists actor, cmd = End_ actor /\ members r !! actor = Some Host) }.

Lemma authorised_same r cmd r' : members r' = members r -> publishers r' = publishers r -> ended r' = ended r -> authorised r cmd r'.
Proof. intros E1 E2 E3. split; rewrite ?E1, ?E2, ?E3; [done|done|done|by left]. Qed.

Lemma removed_one (s : gset Z) u v : v ∈ s -> (v ∉ s ∖ {[u]}) -> v = u.
Proof. intros Hv Hn. destruct (decide (v = u)) as [|Hne]; [done|]. destruct Hn. set_solver. Qed.
Lemma removed_none (s : gset Z) u v : v ∈ s ∖ {[u]} -> (v ∉ s) -> False.
Proof. set_solver. Qed.
Lemma added_one (s : gset Z) u v : v ∈ {[u]} ∪ s -> (v ∉ s) -> v = u.
Proof. set_solver. Qed.

Lemma authorised_role r cmd u role r' : members r' = <[u := role]> (members r) -> ended r' = ended r ->
  publishers r' = (if can_publish role then publishers r else publishers r ∖ {[u]}) ->
  role_authority r cmd u (Some role) -> (can_publish role = false -> u ∈ publishers r -> stop_authority r cmd u) -> authorised r cmd r'.
Proof.
  intros E1 E2 E3 Hr Hs. split; rewrite ?E1, ?E2, ?E3; [| | |by left].
  - intros v. destruct (decide (v = u)) as [->|Hne]; [by rewrite lookup_insert_eq|by rewrite lookup_insert_ne].
  - intros v Hv Hn. exfalso. destruct (can_publish role); [done|by eapply removed_none].
  - intros v Hv Hn. destruct (can_publish role) eqn:Hc; [done|]. apply (removed_one _ u) in Hn as ->; auto.
Qed.

Lemma authorised_kind r cmd k : (forall u, u ∈ publishers r -> is_Some (members r !! u)) -> justified r cmd k -> authorised r cmd (apply_kind k r).
Proof.
  intros Hpub Hj. destruct cmd; cbn in Hj.
  - destruct Hj as (-> & Hn & _). destruct (set_role_view user Audience r) as (E1 & E2 & E3). eapply authorised_role; [done..|by left|].
    intros _ Hin%Hpub. rewrite Hn in Hin. by destruct Hin.
  - destruct Hj as (-> & role & Hr & Hne). assert (members r !! user <> Some Host) as Hh by congruence. split; cbn.
    + intros v. destruct (decide (v = user)) as [->|Hv]; [rewrite lookup_delete_eq; by right; left|by rewrite lookup_delete_ne].
    + intros v Hv Hn. by destruct (removed_none _ _ _ Hv Hn).
    + intros v Hv Hn. apply (removed_one _ user) in Hn as ->; [by right; left|done].
    + by left.
  - destruct Hj as (-> & Hm). destruct (set_role_view user role r) as (E1 & E2 & E3). eapply authorised_role; [done..|right; right; by eauto|].
    intros Hc _. destruct role; try discriminate. right; right; left. by exists actor.
  - destruct Hj as (-> & Hv & Hrole & _). split; cbn; [done| | |by left].
    + intros u Hu Hn. apply (added_one _ user) in Hu as ->; done.
    + intros v Hin []. by apply elem_of_union_r.
  - subst k. split; cbn; [done|intros v Hv Hn; by destruct (removed_none _ _ _ Hv Hn)| |by left]. intros u Hu Hn. apply (removed_one _ user) in Hn as ->; [by left|done].
  - subst k. by apply authorised_same.
  - destruct Hj as (-> & _). cbn. destruct (remember_gift_fields (transaction_id receipt) r) as (_ & _ & _ & E4 & E5 & E6 & _). by apply authorised_same.
  - subst k. by apply authorised_same.
  - destruct Hj as (-> & Hh). split; cbn; [done|intros v Hv; by apply not_elem_of_empty in Hv| |right; by eauto]. intros u _ _. right; right; right. by exists actor.
Qed.

Lemma authorised_view r cmd r1 r2 : members r2 = members r1 -> publishers r2 = publishers r1 -> ended r2 = ended r1 ->
  authorised r cmd r1 -> authorised r cmd r2.
Proof. intros E1 E2 E3 [H1 H2 H3 H4]. split; rewrite ?E1, ?E2, ?E3; done. Qed.

Lemma execute_authorised r c t cmd : room_ok r -> authorised r cmd (execute c t cmd r).1.
Proof.
  intros Hok. destruct (execute_cases c t cmd r) as [[-> _]|[[e ->]|(k & Hc & He & Hk & Hn & ->)]]; cbn [fst]; [by apply authorised_same..|].
  pose proof (apply_view r {| event_sequence := sequence r + 1; command_id := c; timestamp_millis := t; kind := k |}) as (E1 & E2 & E3).
  eapply authorised_view; [done..|]. apply authorised_kind; [|by apply decide_justified].
  intros u Hu. destruct (ok_publishing _ Hok u Hu) as (role & -> & _). done.
Qed.

(** ** What the histories remember *)
Definition gifts_of (evs : list RoomEvent) : list bytes := omap gift_of (kind <$> evs).
Definition priced (e : RoomEvent) : Prop :=
  match kind e with
  | GiftRecorded _ receipt total => total = unit_value receipt * quantity receipt /\ total <= umax 64 /\ valid_receipt receipt = true
  | _ => True
  end.

Lemma justified_priced r cmd k n c t : justified r cmd k -> priced {| event_sequence := n; command_id := c; timestamp_millis := t; kind := k |}.
Proof.
  intros Hj. destruct cmd; cbn in Hj; try (by subst k); destruct Hj as [-> Hj]; try done. unfold priced. cbn. tauto.
Qed.

Lemma history_priced i m p evs r : history i m p evs r -> Forall priced evs.
Proof.
  induction 1 as [host c t|evs r c t cmd Hh IH]; [by repeat constructor|]. apply Forall_app. split; [done|].
  destruct (execute_cases c t cmd r) as [[-> _]|[[e ->]|(k & Hc & He & Hk & Hn & ->)]]; cbn [snd applied]; constructor; [|constructor].
  by eapply justified_priced, decide_justified.
Qed.

Lemma remembered_command i m p evs r c t cmd : history i m p evs r ->
  (execute c t cmd r = (r, Ok Duplicate) <-> c ∈ lastn COMMAND_HISTORY_LIMIT (command_id <$> evs)).
Proof.
  intros Hh. pose proof (history_stream _ _ _ _ _ Hh) as Hst. pose proof (history_room_ok _ _ _ _ _ Hh) as Hok.
  rewrite <- (st_commands _ _ _ _ _ Hst). pose proof (history_set _ _ _ (proj1 (ok_commands _ Hok))) as Hs.
  assert (c ∈ command_order r <-> c ∈ processed_commands r) as -> by (rewrite Hs; by rewrite elem_of_list_to_set). split.
  - destruct (execute_cases c t cmd r) as [[_ ?]|[[e ->]|(k & _ & _ & _ & _ & ->)]]; [done|discriminate|discriminate].
  - intros Hc. unfold execute. by rewrite bool_decide_eq_true_2.
Qed.

Lemma remembered_gift i m p evs r c t cmd e x : history i m p evs r -> (execute c t cmd r).2 = Ok (Applied e) ->
  gift_of (kind e) = Some x -> x ∉ lastn GIFT_TRANSACTION_HISTORY_LIMIT (gifts_of evs).
Proof.
  intros Hh He Hx. pose proof (history_stream _ _ _ _ _ Hh) as Hst. pose proof (history_room_ok _ _ _ _ _ Hh) as Hok.
  unfold gifts_of. rewrite <- (st_gifts _ _ _ _ _ Hst). pose proof (history_set _ _ _ (proj1 (ok_gifts _ Hok))) as Hs.
  destruct (execute_cases c t cmd r) as [[E _]|[[e' E]|(k & _ & _ & Hk & _ & E)]]; rewrite E in He; [discriminate|discriminate|].
  cbn in He. injection He as <-. cbn in Hx. destruct (justified_gift r cmd k x (decide_justified _ _ _ Hk) Hx) as [Hn _].
  rewrite Hs in Hn. by rewrite elem_of_list_to_set in Hn.
Qed.

(** ** Identifiers *)
Definition digit_check (b : Z) : bool :=
  bool_decide (to_digit 16 (lower_digit (b / 16)) = Some (b / 16)) && bool_decide (to_digit 16 (lower_digit (b mod 16)) = Some (b mod 16)) &&
  is_ascii_hexdigit (lower_digit (b / 16)) && is_ascii_hexdigit (lower_digit (b mod 16)).
Lemma digit_spec b : u8 b -> digit_check b = true.
Proof.
  assert (forallb digit_check (seqZ 0 256) = true) as H by (vm_compute; reflexivity). intros [H0 H1]. apply (forallb_seqZ _ _ _ b H). lia.
Qed.

Definition octet_digits (b : Z) : bytes := [lower_digit (b / 16); lower_digit (b mod 16)].

Lemma digits_value_octets l acc : bytes_ok l -> 0 <= acc -> acc * 256 ^ len l + from_be_bytes l <= umax 128 ->
  digits_value 128 16 acc (l ≫= octet_digits) = Some (acc * 256 ^ len l + from_be_bytes l).
Proof.
  revert acc. induction l as [|b l IH]; intros acc Hl Hacc Hle; [change (Some acc = Some (acc * 1 + 0)); f_equal; lia|].
  apply bytes_ok_cons in Hl as [Hb Hl'].
  pose proof (digit_spec b Hb) as Hd. unfold digit_check in Hd. rewrite !andb_true_iff, !bool_decide_eq_true in Hd. destruct Hd as [[[D1 D2] _] _].
  rewrite from_be_bytes_cons in *. fold (len l) in *. 
  assert (256 ^ len (b :: l) = 256 * 256 ^ len l) as Hpow by (rewrite len_cons, Z.pow_add_r by (pose proof (len_nonneg l); lia); lia).
  rewrite Hpow in *.
  pose proof (from_be_bytes_bound l Hl') as Hbd. fold (len l) in Hbd. destruct Hb as [Hb0 Hb1]. change (2 ^ 8) with 256 in Hb1.
  assert (acc * 256 + b <= umax 128) as Hlim by nia. cbn [mbind list_bind octet_digits app digits_value].
  assert (b = 16 * (b / 16) + b mod 16) as Hsplit by (apply Z.div_mod; lia). pose proof (Z.mod_pos_bound b 16 ltac:(lia)). pose proof (Z.div_pos b 16 Hb0 ltac:(lia)).
  unfold checked_mul, checked_add. rewrite D1, D2. cbn [mbind option_bind].
  repeat (rewrite (proj2 (Z.leb_le _ _)) by lia; cbn [mbind option_bind]).
  replace ((acc * 16 + b / 16) * 16 + b mod 16) with (acc * 256 + b) by lia. unfold mbind in IH. rewrite IH; [f_equal; lia|done|lia|lia].
Qed.

Lemma octet_digits_spec l : bytes_ok l -> forallb is_ascii_hexdigit (l ≫= octet_digits) = true /\ len (l ≫= octet_digits) = 2 * len l.
Proof.
  induction 1 as [|b l Hb _ [IH1 IH2]]; [done|]. pose proof (digit_spec b Hb) as Hd. unfold digit_check in Hd. rewrite !andb_true_iff in Hd.
  destruct Hd as [[_ D1] D2]. rewrite bind_cons, forallb_app, len_app, IH1, IH2, len_cons. cbn [octet_digits forallb]. rewrite D1, D2.
  split; [done|]. unfold octet_digits. change (len [_; _]) with 2. lia.
Qed.
Lemma serialize_digits n : forallb is_ascii_hexdigit (serialize_id n) = true /\ len (serialize_id n) = 32.
Proof.
  assert (serialize_id n = to_be_bytes 16 n ≫= octet_digits) as -> by done.
  destruct (octet_digits_spec _ (to_be_bytes_ok 16 n)) as [H1 H2]. by rewrite len_to_be_bytes in H2.
Qed.

Lemma serialize_visit n : fits 128 n -> visit_str (serialize_id n) = Ok n.
Proof.
  intros Hn. unfold visit_str. assert (serialize_id n = to_be_bytes 16 n ≫= octet_digits) as -> by done.
  destruct (octet_digits_spec _ (to_be_bytes_ok 16 n)) as [H1 H2]. rewrite len_to_be_bytes in H2. rewrite H1, H2. cbn [negb orb reject_if mbind outcome_bind].
  pose proof (digits_value_octets (to_be_bytes 16 n) 0 (to_be_bytes_ok 16 n) ltac:(lia)) as Hd.
  rewrite from_to_be_bytes in Hd by done. rewrite Z.mul_0_l, Z.add_0_l in Hd. specialize (Hd ltac:(destruct Hn; unfold umax; lia)).
  unfold from_str_radix. destruct (to_be_bytes 16 n ≫= octet_digits) as [|c rest] eqn:E; [by rewrite len_nil in H2|].
  cbn in H1. apply andb_true_iff in H1 as [Hc _]. unfold is_ascii_hexdigit, in_range in Hc.
  rewrite (proj2 (Z.eqb_neq c 43)), (proj2 (Z.eqb_neq c 45)) by lia. cbn [orb]. by rewrite Hd.
Qed.

(** ** Theorems

    A room hosted by user 10 in which user 20 joins, becomes a publisher, publishes and sends a gift. *)
Definition demo_receipt : VerifiedGiftReceipt :=
  {| transaction_id := octets "pay-1"; gift_id := octets "rocket"; quantity := 2; unit_value := 500; currency := octets "CNY"; recipient := 10 |}.
Definition demo_commands : list (Z * RoomCommand) :=
  [(2, Join 20); (3, StartPublishing 20); (4, SetRole 10 20 Publisher); (5, StartPublishing 20); (4, Leave 20); (6, RecordVerifiedGift 20 demo_receipt)].
Definition demo_step (s : list RoomEvent * Room) (call : Z * RoomCommand) : list RoomEvent * Room :=
  (s.1 ++ applied (execute call.1 (100 + call.1) call.2 s.2).2, (execute call.1 (100 + call.1) call.2 s.2).1).
Definition demo_start : list RoomEvent * Room := ([(create 1 Live 10 default_policy 1 100).2], (create 1 Live 10 default_policy 1 100).1).
Definition demo : list RoomEvent * Room := foldl demo_step demo_start demo_commands.

Lemma demo_steps i m p s cmds : history i m p s.1 s.2 -> history i m p (foldl demo_step s cmds).1 (foldl demo_step s cmds).2.
Proof.
  revert s. induction cmds as [|call cmds IH]; intros s Hs; [done|]. cbn [foldl]. apply IH. unfold demo_step. cbn [fst snd]. by apply history_execute.
Qed.
Lemma demo_history : history 1 Live default_policy demo.1 demo.2.
Proof. apply demo_steps. apply history_create. Qed.

(** C22: A room reached from its creation by any commands, accepted or refused, is well formed: it has exactly one host, never more
    members or publishers than its policy allows (the host aside), every publisher is a member whose role may publish, an ended or
    VOD room has no publisher, its sequence number is a positive u64, and its bounded histories hold distinct entries that agree
    with the sets beside them; its identifier, mode and policy never change. *)
Theorem room_invariant i m p evs r : history i m p evs r -> room_ok r /\ id r = i /\ mode r = m /\ policy r = p.
Proof. intros Hh. split; [by eapply history_room_ok|]. by apply history_stream, st_same in Hh. Qed.
Lemma room_invariant_witness : room_ok demo.2 /\ id demo.2 = 1 /\ mode demo.2 = Live /\ policy demo.2 = default_policy.
Proof. exact (room_invariant 1 Live default_policy demo.1 demo.2 demo_history). Defined.

(** C23: Replaying the events that a room's commands produced rebuilds exactly that room: [restore] of the stored stream and the
    live aggregate are equal in every field, and the events are numbered 1, 2, 3, ... without a gap. *)
Theorem events_rebuild_room i m p evs r : history i m p evs r ->
  restore i m p evs = Ok r /\ event_sequence <$> evs = seqZ 1 (len evs) /\ sequence r = len evs.
Proof.
  intros Hh. pose proof (ok_sequence _ (history_room_ok _ _ _ _ _ Hh)) as Hseq. apply history_stream in Hh as [(e & h & Hhd & Hk) Hr Hn _ _ _].
  assert (sequence r = len evs) as Hlen.
  { apply (f_equal len) in Hn. rewrite len_map in Hn. unfold len at 2 in Hn. rewrite length_seqZ in Hn. lia. }
  rewrite <- Hlen. split_and!; [|done|done]. unfold restore. rewrite Hhd. cbn [ok_or mbind outcome_bind]. rewrite Hk, bool_decide_eq_true_2 by done. done.
Qed.
Lemma events_rebuild_room_witness : len demo.1 = 5 /\ restore 1 Live default_policy demo.1 = Ok demo.2.
Proof. split; [vm_compute; reflexivity|]. exact (proj1 (events_rebuild_room 1 Live default_policy demo.1 demo.2 demo_history)). Defined.

(** The snapshot of a room with a valid policy restores exactly that room, and a snapshot from elsewhere is only accepted when
    the room it describes is well formed (the one condition it leaves to its author is that a VOD room has no publishers). *)
Theorem snapshot_roundtrip i m p evs r : history i m p evs r -> policy_valid p = true ->
  restore_snapshot (snapshot r) = Ok r /\
  (forall s r', restore_snapshot s = Ok r' -> fits 64 (snapshot_sequence s) -> (snapshot_mode s = Vod -> snapshot_publishers s = []) -> room_ok r').
Proof.
  intros Hh Hp. split; [|intros s r'; apply restored_room_ok]. apply restore_snapshot_ok; [by eapply history_room_ok|].
  apply history_stream, st_same in Hh as (_ & _ & ->). done.
Qed.
Lemma snapshot_roundtrip_witness : restore_snapshot (snapshot demo.2) = Ok demo.2.
Proof. exact (proj1 (snapshot_roundtrip 1 Live default_policy demo.1 demo.2 demo_history eq_refl)). Defined.

(** C24: Only those with the authority change a room.  A member's role changes only when that user joins (as audience) or leaves
    (unless it is the host), or when the host, or a co-host acting on neither host nor co-host, sets it, never to or from host;
    publishing starts only at the user's own command, with a role that may publish and outside VOD rooms, and stops only at its own
    command, by leaving, by demotion to audience or when the host ends the room; and after the end every command is refused or
    reported as a repetition and nothing changes. *)
Theorem room_authority i m p evs r c t cmd : history i m p evs r ->
  authorised r cmd (execute c t cmd r).1 /\
  (ended r = true -> execute c t cmd r = (r, Ok Duplicate) \/ execute c t cmd r = (r, Err RoomEnded)).
Proof.
  intros Hh. split; [apply execute_authorised; by eapply history_room_ok|]. intros He. unfold execute. case_bool_decide; [by left|right]. by rewrite He.
Qed.
Lemma room_authority_witness : authorised demo.2 (SetRole 20 10 Audience) (execute 9 109 (SetRole 20 10 Audience) demo.2).1.
Proof. exact (proj1 (room_authority 1 Live default_policy demo.1 demo.2 9 109 (SetRole 20 10 Audience) demo_history)). Defined.

(** Commands are idempotent and gifts are paid for once, over the last 4096 of each: a command is answered [Duplicate], and
    changes nothing, exactly when its identifier is that of one of the last 4096 events; no gift is recorded with the transaction
    of one of the last 4096 gifts; and each recorded gift has a valid receipt and the exact product of its unit value and quantity,
    within a u64, as its total. *)
Theorem room_idempotent i m p evs r c t cmd : history i m p evs r ->
  (execute c t cmd r = (r, Ok Duplicate) <-> c ∈ lastn COMMAND_HISTORY_LIMIT (command_id <$> evs)) /\
  (forall e x, (execute c t cmd r).2 = Ok (Applied e) -> gift_of (kind e) = Some x -> x ∉ lastn GIFT_TRANSACTION_HISTORY_LIMIT (gifts_of evs)) /\
  Forall priced evs /\ NoDup (lastn COMMAND_HISTORY_LIMIT (command_id <$> evs)) /\ NoDup (lastn GIFT_TRANSACTION_HISTORY_LIMIT (gifts_of evs)).
Proof.
  intros Hh. pose proof (history_stream _ _ _ _ _ Hh) as Hst. pose proof (history_room_ok _ _ _ _ _ Hh) as Hok.
  split_and!; [by eapply remembered_command|intros e x; by eapply remembered_gift|by eapply history_priced| |].
  - rewrite <- (st_commands _ _ _ _ _ Hst). apply (ok_commands _ Hok).
  - unfold gifts_of. rewrite <- (st_gifts _ _ _ _ _ Hst). apply (ok_gifts _ Hok).
Qed.
Lemma room_idempotent_witness : execute 6 200 (Leave 20) demo.2 = (demo.2, Ok Duplicate).
Proof.
  refine (proj2 (proj1 (room_idempotent 1 Live default_policy demo.1 demo.2 6 200 (Leave 20) demo_history)) _).
  apply (bool_decide_unpack _). vm_compute. exact I.
Defined.

(** Identifiers are written as 32 hexadecimal digits and read back unchanged. *)
Theorem identifier_roundtrip n : fits 128 n -> visit_str (serialize_id n) = Ok n.
Proof. apply serialize_visit. Qed.
