(* ===== verification/BytesCodec.v ===== *)
(** * foundation/bytes-codec: checked cursors over untrusted bytes

    [ReadCursor] and [WriteBuffer] of crates/foundation/bytes-codec/src/lib.rs.
    A method on [&mut self] is a [prog] over the record of its fields. *)
From S2P Require Import Prelude Words Slices.

Record DecodeError := { de_offset : Z; de_needed : Z; de_remaining : Z }.
Record EncodeError := { ee_current : Z; ee_additional : Z; ee_limit : Z }.

Module ReadCursor.
Record t := { input : bytes; offset : Z }.

Definition new (input : bytes) : t := {| input := input; offset := 0 |}.
Definition position (c : t) : Z := offset c.
Definition remaining (c : t) : Z := len (input c) - offset c.
Definition is_empty (c : t) : bool := remaining c =? 0.
Definition rest (c : t) : bytes := default [] (get_from (input c) (offset c)).

Definition take (length : Z) : prog t DecodeError bytes := fun c =>
  let remaining := remaining c in
  if remaining <? length then
    (c, Err {| de_offset := offset c; de_needed := length; de_remaining := remaining |})
  else
    let start := offset c in
    let e := start + length in
    ({| input := input c; offset := e |}, index_range (input c) start e).

Definition read_u8 : prog t DecodeError Z :=
  offset ← gets position;
  b ← take 1;
  lift (ok_or (head b) {| de_offset := offset; de_needed := 1; de_remaining := 0 |}).

(** [bytes.try_into()] of a [LENGTH]-byte array followed by [from_be_bytes]. *)
Definition read_array (n : nat) : prog t DecodeError Z :=
  offset ← gets position;
  b ← take (Z.of_nat n);
  lift (if Nat.eqb (length b) n then Ok (from_be_bytes b)
        else Err {| de_offset := offset; de_needed := Z.of_nat n; de_remaining := len b |}).
Definition read_u16 : prog t DecodeError Z := read_array 2.
Definition read_u32 : prog t DecodeError Z := read_array 4.
Definition read_u64 : prog t DecodeError Z := read_array 8.

(** The cursor stays inside its input. *)
Definition wf (c : t) : Prop := 0 <= offset c <= len (input c).
End ReadCursor.

Module WriteBuffer.
Record t := { bytes_ : bytes; limit : Z }.

Definition with_limit (limit : Z) : t := {| bytes_ := []; limit := limit |}.
Definition as_slice (b : t) : bytes := bytes_ b.
Definition error (b : t) (additional : Z) : EncodeError :=
  {| ee_current := len (bytes_ b); ee_additional := additional; ee_limit := limit b |}.

Definition extend_from_slice (value : bytes) : prog t EncodeError unit := fun b =>
  match checked_add 64 (len (bytes_ b)) (len value) with
  | None => (b, Err (error b (len value)))
  | Some new_len =>
      if limit b <? new_len then (b, Err (error b (len value)))
      else ({| bytes_ := bytes_ b ++ value; limit := limit b |}, Ok tt)
  end.
Definition write_u8 (value : Z) : prog t EncodeError unit := extend_from_slice [value].
Definition write_u16 (value : Z) : prog t EncodeError unit :=
  extend_from_slice (to_be_bytes 2 value).
Definition write_u32 (value : Z) : prog t EncodeError unit :=
  extend_from_slice (to_be_bytes 4 value).
Definition write_u64 (value : Z) : prog t EncodeError unit :=
  extend_from_slice (to_be_bytes 8 value).

Definition set_slice (offset : Z) (value : bytes) : prog t EncodeError unit := fun b =>
  match checked_add 64 offset (len value) with
  | None => (b, Err (error b (len value)))
  | Some e =>
      match get_range (bytes_ b) offset e with
      | None => (b, Err (error b (len value)))
      | Some _ =>
          match copy_at (E:=EncodeError) (bytes_ b) offset value with
          | Ok l => ({| bytes_ := l; limit := limit b |}, Ok tt)
          | _ => (b, Panic)
          end
      end
  end.
Definition set_u16 (offset value : Z) : prog t EncodeError unit :=
  set_slice offset (to_be_bytes 2 value).
Definition set_u32 (offset value : Z) : prog t EncodeError unit :=
  set_slice offset (to_be_bytes 4 value).

(** The hard limit of [with_limit] is never exceeded. *)
Definition wf (b : t) : Prop := len (bytes_ b) <= limit b.
End WriteBuffer.

(** ** Behaviour of the cursor *)
Section CursorFacts.
Implicit Types c : ReadCursor.t.

(** [take] on the unread suffix: the specification the parsers rely on. *)
Definition take_spec (n : Z) (suffix : bytes) : option (bytes * bytes) :=
  if n <=? len suffix
  then Some (take (Z.to_nat n) suffix, drop (Z.to_nat n) suffix) else None.

Lemma rest_drop c : ReadCursor.wf c ->
  ReadCursor.rest c = drop (Z.to_nat (ReadCursor.offset c)) (ReadCursor.input c).
Proof.
  intros [H0 H1]. unfold ReadCursor.rest, get_from, get_range.
  destruct (_ && _) eqn:E; [|lia]. cbn.
  apply take_ge. rewrite length_drop. unfold len in *. lia.
Qed.

Lemma len_rest c : ReadCursor.wf c -> len (ReadCursor.rest c) = ReadCursor.remaining c.
Proof. intros H. rewrite rest_drop by done. unfold ReadCursor.wf, ReadCursor.remaining in *. slia. Qed.

Lemma take_refines n c : 0 <= n -> ReadCursor.wf c ->
  match take_spec n (ReadCursor.rest c) with
  | Some (b, suffix) => exists c', ReadCursor.take n c = (c', Ok b) /\
      ReadCursor.wf c' /\ ReadCursor.rest c' = suffix /\ ReadCursor.input c' = ReadCursor.input c /\
      ReadCursor.offset c' = ReadCursor.offset c + n
  | None => ReadCursor.take n c =
      (c, Err {| de_offset := ReadCursor.offset c; de_needed := n;
                 de_remaining := len (ReadCursor.rest c) |})
  end.
Proof.
  intros Hn Hwf. pose proof (len_rest c Hwf) as Hlen. pose proof Hwf as [H0 H1].
  unfold take_spec, ReadCursor.take. rewrite <- Hlen.
  destruct (Z.leb_spec n (len (ReadCursor.rest c))).
  - replace (len (ReadCursor.rest c) <? n) with false by lia.
    unfold ReadCursor.remaining in Hlen.
    exists {| ReadCursor.input := ReadCursor.input c; ReadCursor.offset := ReadCursor.offset c + n |}.
    split_and!; [|split; cbn; lia| |done|done].
    + f_equal. unfold index_range, get_range.
      destruct (_ && _) eqn:E; [|lia]. cbn. rewrite rest_drop by done. do 2 f_equal. lia.
    + rewrite !rest_drop; cbn; [|done|split; cbn; lia]. rewrite drop_drop. f_equal. lia.
  - by replace (len (ReadCursor.rest c) <? n) with true by lia.
Qed.
End CursorFacts.

(** The outcome of [read_array] in terms of the unread suffix. *)
Lemma read_array_refines n c : ReadCursor.wf c ->
  match take_spec (Z.of_nat n) (ReadCursor.rest c) with
  | Some (b, suffix) => exists c', ReadCursor.read_array n c = (c', Ok (from_be_bytes b)) /\
      ReadCursor.wf c' /\ ReadCursor.rest c' = suffix
  | None => ReadCursor.read_array n c =
      (c, Err {| de_offset := ReadCursor.offset c; de_needed := Z.of_nat n;
                 de_remaining := len (ReadCursor.rest c) |})
  end.
Proof.
  intros Hwf. pose proof (take_refines (Z.of_nat n) c ltac:(lia) Hwf) as H.
  destruct (take_spec _ _) as [[b suffix]|] eqn:E.
  - destruct H as (c' & Ht & Hc' & Hr & _). exists c'. split; [|done].
    unfold ReadCursor.read_array, mbind, prog_bind, gets. cbn. rewrite Ht. cbn.
    unfold take_spec in E. case_match eqn:Hle; [|done]. injection E as <- _.
    unfold lift. rewrite length_take. unfold len in Hle.
    replace (Nat.eqb _ n) with true by (symmetry; apply Nat.eqb_eq; lia). done.
  - unfold ReadCursor.read_array, mbind, prog_bind, gets. cbn. by rewrite H.
Qed.

(** ** Fields of a message, written by [WriteBuffer] and read back by [ReadCursor] *)
Inductive field :=
| FU8 (v : Z)
| FU16 (v : Z)
| FU32 (v : Z)
| FU64 (v : Z)
| FBytes (b : bytes).

Definition field_ok (f : field) : Prop :=
  match f with
  | FU8 v => u8 v | FU16 v => u16 v | FU32 v => u32 v | FU64 v => u64 v
  | FBytes b => True
  end.
Definition field_bytes (f : field) : bytes :=
  match f with
  | FU8 v => [v] | FU16 v => to_be_bytes 2 v | FU32 v => to_be_bytes 4 v
  | FU64 v => to_be_bytes 8 v | FBytes b => b
  end.
Definition write_field (f : field) : prog WriteBuffer.t EncodeError unit :=
  match f with
  | FU8 v => WriteBuffer.write_u8 v
  | FU16 v => WriteBuffer.write_u16 v
  | FU32 v => WriteBuffer.write_u32 v
  | FU64 v => WriteBuffer.write_u64 v
  | FBytes b => WriteBuffer.extend_from_slice b
  end.

(** Reading a field of the same shape (and, for bytes, the same length). *)
Definition read_field (shape : field) : prog ReadCursor.t DecodeError field :=
  match shape with
  | FU8 _ => v ← ReadCursor.read_u8; mret (FU8 v)
  | FU16 _ => v ← ReadCursor.read_u16; mret (FU16 v)
  | FU32 _ => v ← ReadCursor.read_u32; mret (FU32 v)
  | FU64 _ => v ← ReadCursor.read_u64; mret (FU64 v)
  | FBytes b => v ← ReadCursor.take (len b); mret (FBytes v)
  end.
Fixpoint read_fields (shapes : list field) : prog ReadCursor.t DecodeError (list field) :=
  match shapes with
  | [] => mret []
  | s :: shapes => f ← read_field s; fs ← read_fields shapes; mret (f :: fs)
  end.

Lemma extend_cases value b :
  WriteBuffer.extend_from_slice value b =
    (b, Err (WriteBuffer.error b (len value))) \/
  (len (WriteBuffer.bytes_ b) + len value <= WriteBuffer.limit b /\
   WriteBuffer.extend_from_slice value b =
    ({| WriteBuffer.bytes_ := WriteBuffer.bytes_ b ++ value;
        WriteBuffer.limit := WriteBuffer.limit b |}, Ok tt)).
Proof.
  unfold WriteBuffer.extend_from_slice.
  destruct (checked_add _ _ _) as [n|] eqn:E; [|by left].
  apply checked_add_Some in E as [-> _]. case_match; [by left|right]. split; [lia|done].
Qed.

Lemma write_field_extend f : write_field f = WriteBuffer.extend_from_slice (field_bytes f).
Proof. by destruct f. Qed.

Lemma write_fields_Ok fs b b' :
  for_each fs write_field b = (b', Ok tt) ->
  WriteBuffer.as_slice b' = WriteBuffer.as_slice b ++ (fs ≫= field_bytes).
Proof.
  revert b. induction fs as [|f fs IH]; intros b.
  - intros [= <-]. by rewrite app_nil_r.
  - cbn. unfold mbind at 1, prog_bind. rewrite write_field_extend.
    destruct (extend_cases (field_bytes f) b) as [->|[_ ->]]; [done|].
    intros ->%IH. cbn. by rewrite app_assoc.
Qed.

Lemma read_array_here n v suffix c :
  ReadCursor.wf c -> fits (8 * Z.of_nat n) v ->
  ReadCursor.rest c = to_be_bytes n v ++ suffix ->
  exists c', ReadCursor.read_array n c = (c', Ok v) /\ ReadCursor.wf c' /\
    ReadCursor.rest c' = suffix.
Proof.
  intros Hwf Hv Hr. pose proof (read_array_refines n c Hwf) as H. rewrite Hr in H.
  unfold take_spec in H. replace (Z.of_nat n <=? _) with true in H by slia.
  rewrite take_app_length', drop_app_length' in H by (rewrite length_to_be_bytes; lia).
  by rewrite from_to_be_bytes in H.
Qed.

Lemma take_here b suffix c :
  ReadCursor.wf c -> ReadCursor.rest c = b ++ suffix ->
  exists c', ReadCursor.take (len b) c = (c', Ok b) /\ ReadCursor.wf c' /\
    ReadCursor.rest c' = suffix.
Proof.
  intros Hwf Hr. pose proof (take_refines (len b) c ltac:(slia) Hwf) as H. rewrite Hr in H.
  unfold take_spec in H. replace (len b <=? _) with true in H by slia.
  rewrite take_app_length', drop_app_length' in H by (unfold len; lia).
  destruct H as (c' & ? & ? & ? & _). by exists c'.
Qed.

Lemma read_field_here f suffix c :
  ReadCursor.wf c -> field_ok f -> ReadCursor.rest c = field_bytes f ++ suffix ->
  exists c', read_field f c = (c', Ok f) /\ ReadCursor.wf c' /\ ReadCursor.rest c' = suffix.
Proof.
  intros Hwf Hf Hr. destruct f as [v|v|v|v|b]; cbn [read_field field_bytes field_ok] in *.
  - destruct (take_here [v] suffix c Hwf Hr) as (c' & Ht & Hc').
    exists c'. split; [|done]. change (len [v]) with 1 in Ht.
    unfold ReadCursor.read_u8, mbind, prog_bind, gets. cbn. by rewrite Ht.
  - destruct (read_array_here 2 v suffix c Hwf Hf Hr) as (c' & Ht & Hc').
    exists c'. split; [|done]. unfold mbind, prog_bind, ReadCursor.read_u16. by rewrite Ht.
  - destruct (read_array_here 4 v suffix c Hwf Hf Hr) as (c' & Ht & Hc').
    exists c'. split; [|done]. unfold mbind, prog_bind, ReadCursor.read_u32. by rewrite Ht.
  - destruct (read_array_here 8 v suffix c Hwf Hf Hr) as (c' & Ht & Hc').
    exists c'. split; [|done]. unfold mbind, prog_bind, ReadCursor.read_u64. by rewrite Ht.
  - destruct (take_here b suffix c Hwf Hr) as (c' & Ht & Hc').
    exists c'. split; [|done]. unfold mbind, prog_bind. by rewrite Ht.
Qed.

Lemma read_fields_here fs suffix c :
  ReadCursor.wf c -> Forall field_ok fs -> ReadCursor.rest c = (fs ≫= field_bytes) ++ suffix ->
  exists c', read_fields fs c = (c', Ok fs) /\ ReadCursor.wf c' /\ ReadCursor.rest c' = suffix.
Proof.
  revert c. induction fs as [|f fs IH]; intros c Hwf Hok Hr; [by exists c|].
  apply Forall_cons in Hok as [Hf Hfs]. cbn in Hr. rewrite <- app_assoc in Hr.
  destruct (read_field_here f _ c Hwf Hf Hr) as (c1 & H1 & Hwf1 & Hr1).
  destruct (IH c1 Hwf1 Hfs Hr1) as (c2 & H2 & Hc2).
  exists c2. split; [|done]. cbn. unfold mbind, prog_bind. by rewrite H1, H2.
Qed.

Lemma cursor_new_wf input : ReadCursor.wf (ReadCursor.new input).
Proof. split; cbn; slia. Qed.

Lemma cursor_new_rest input : ReadCursor.rest (ReadCursor.new input) = input.
Proof. rewrite rest_drop by apply cursor_new_wf. done. Qed.

(** whatever sequence of fields a [WriteBuffer] accepted, a
    [ReadCursor] over the produced bytes reads the same fields back in the same
    order and is then empty. *)
Theorem write_read_roundtrip fs limit b :
  Forall field_ok fs ->
  for_each fs write_field (WriteBuffer.with_limit limit) = (b, Ok tt) ->
  exists c, read_fields fs (ReadCursor.new (WriteBuffer.as_slice b)) = (c, Ok fs) /\
    ReadCursor.is_empty c = true.
Proof.
  intros Hok Hw. apply write_fields_Ok in Hw. cbn in Hw.
  destruct (read_fields_here fs [] (ReadCursor.new (WriteBuffer.as_slice b)))
    as (c & Hr & Hwf & Hrest); auto using cursor_new_wf.
  - rewrite cursor_new_rest, Hw. by rewrite app_nil_r.
  - exists c. split; [done|]. unfold ReadCursor.is_empty.
    rewrite <- len_rest, Hrest by done. done.
Qed.

(** ** The writer as a state machine *)
Inductive write_op :=
| Append (f : field)
| PatchU16 (offset value : Z)
| PatchU32 (offset value : Z).

Definition run_op (op : write_op) : prog WriteBuffer.t EncodeError unit :=
  match op with
  | Append f => write_field f
  | PatchU16 offset value => WriteBuffer.set_u16 offset value
  | PatchU32 offset value => WriteBuffer.set_u32 offset value
  end.

(** The states a caller can reach, going on after errors as it likes. *)
Inductive reachable (limit : Z) : WriteBuffer.t -> Prop :=
| reach_new : reachable limit (WriteBuffer.with_limit limit)
| reach_op op b : reachable limit b -> reachable limit (run_op op b).1.

Lemma set_slice_cases offset value b :
  (exists e, WriteBuffer.set_slice offset value b = (b, Err e)) \/
  (exists l, WriteBuffer.set_slice offset value b =
     ({| WriteBuffer.bytes_ := l; WriteBuffer.limit := WriteBuffer.limit b |}, Ok tt) /\
     len l = len (WriteBuffer.bytes_ b)).
Proof.
  unfold WriteBuffer.set_slice.
  destruct (checked_add _ _ _) as [e|] eqn:E; [|by left; eexists].
  apply checked_add_Some in E as [-> _].
  destruct (get_range _ _ _) as [r|] eqn:Hr; [|by left; eexists]. right.
  apply get_range_len in Hr as (Hv & Ho & He). unfold copy_at.
  destruct (_ && _) eqn:Hb; [|lia]. eexists. split; [done|]. slia.
Qed.

Lemma run_op_cases op b :
  (exists e, run_op op b = (b, Err e)) \/
  (exists l, run_op op b =
     ({| WriteBuffer.bytes_ := l; WriteBuffer.limit := WriteBuffer.limit b |}, Ok tt) /\
     len l <= Z.max (len (WriteBuffer.bytes_ b)) (WriteBuffer.limit b)).
Proof.
  destruct op as [f|offset v|offset v]; cbn [run_op].
  - rewrite write_field_extend.
    destruct (extend_cases (field_bytes f) b) as [->|[? ->]]; [left; by eexists|].
    right. eexists. split; [done|]. slia.
  - destruct (set_slice_cases offset (to_be_bytes 2 v) b) as [[e H]|(l & H & Hl)].
    + left. by exists e.
    + right. exists l. split; [done|]. slia.
  - destruct (set_slice_cases offset (to_be_bytes 4 v) b) as [[e H]|(l & H & Hl)].
    + left. by exists e.
    + right. exists l. split; [done|]. slia.
Qed.

Lemma run_op_limit op b : WriteBuffer.limit (run_op op b).1 = WriteBuffer.limit b.
Proof. by destruct (run_op_cases op b) as [[e ->]|(l & -> & _)]. Qed.

(** in every state reachable from [with_limit], whatever
    the order of appends and patches and whether or not they failed, the encoded
    length is within the limit, and the next operation neither panics nor, when it
    reports an error, changes the buffer. *)
Theorem writer_bounded limit b op :
  0 <= limit -> reachable limit b ->
  len (WriteBuffer.as_slice b) <= limit /\
  returns (run_op op b).2 /\
  (forall e, (run_op op b).2 = Err e -> (run_op op b).1 = b).
Proof.
  intros Hlim Hr. split.
  - assert (WriteBuffer.limit b = limit /\ len (WriteBuffer.as_slice b) <= limit) as [_ H]; [|done].
    induction Hr as [|op' b Hr [IHl IHb]]; [cbn; slia|].
    rewrite run_op_limit. split; [done|].
    destruct (run_op_cases op' b) as [[e ->]|(l & -> & Hl)]; cbn; [done|].
    unfold WriteBuffer.as_slice in *. lia.
  - by destruct (run_op_cases op b) as [[e ->]|(l & -> & _)]; cbn; split.
Qed.

Lemma take_fails_unchanged n c e : (ReadCursor.take n c).2 = Err e -> (ReadCursor.take n c).1 = c.
Proof.
  unfold ReadCursor.take. case_match; [done|]. cbn.
  unfold index_range. by destruct (get_range _ _ _).
Qed.

Definition example_fields : list field := [FU8 7; FU16 65535; FBytes [1; 2; 3]; FU32 9; FU64 18446744073709551615].

Lemma write_read_roundtrip_witness : exists b c,
  for_each example_fields write_field (WriteBuffer.with_limit 64) = (b, Ok tt) /\
  read_fields example_fields (ReadCursor.new (WriteBuffer.as_slice b)) = (c, Ok example_fields).
Proof.
  eexists. eassert (for_each example_fields write_field (WriteBuffer.with_limit 64) = (_, Ok tt)) as Hw
    by (vm_compute; reflexivity).
  assert (Forall field_ok example_fields) as Hok by (repeat constructor; eval_facts).
  destruct (write_read_roundtrip example_fields 64 _ Hok Hw) as (c & Hr & _).
  exists c. split; [exact Hw|exact Hr].
Defined.

Lemma writer_bounded_witness :
  len (WriteBuffer.as_slice (run_op (Append (FU64 1)) (WriteBuffer.with_limit 8)).1) <= 8.
Proof.
  apply (writer_bounded 8 (run_op (Append (FU64 1)) (WriteBuffer.with_limit 8)).1 (Append (FU8 1)));
    [lia|apply reach_op, reach_new].
Defined.
