(* ===== verification/RtpExtension.v ===== *)
(** * webrtc/rtp: RFC 8285 header extensions (src/extension.rs, src/error.rs) *)
From S2P Require Import Prelude Words Slices.

Inductive ExtensionFormat :=
| OneByte
| TwoByte
| Opaque (profile : Z).

Inductive RtpError :=
| PacketTooShort (length : Z)
| UnsupportedVersion (version : Z)
| TruncatedHeader
| InvalidPadding (length : Z)
| TooManyCsrcs (count : Z)
| InvalidPayloadType (payload_type : Z)
| TruncatedExtension
| InvalidExtensionId (format : ExtensionFormat) (id : Z)
| InvalidExtensionLength (format : ExtensionFormat) (length : Z)
| ExtensionBlockTooLarge
| PaddingTooLarge (length : Z)
| PacketTooLarge
| UnsupportedExtensionRewrite.

#[export] Instance ExtensionFormat_eq_dec : EqDecision ExtensionFormat.
Proof. solve_decision. Defined.
#[export] Instance RtpError_eq_dec : EqDecision RtpError.
Proof. solve_decision. Defined.

Definition from_profile (profile : Z) : ExtensionFormat :=
  if profile =? 0xbede then OneByte
  else if Z.land profile 0xfff0 =? 0x1000 then TwoByte
  else Opaque profile.

Definition profile (f : ExtensionFormat) : Z :=
  match f with
  | OneByte => 0xbede
  | TwoByte => 0x1000
  | Opaque profile => profile
  end.

(** [HeaderExtension] borrows the packet and [OwnedHeaderExtension] owns its
    bytes; both are an identifier and a value. *)
Record HeaderExtension := { ext_id : Z; ext_value : bytes }.
#[export] Instance HeaderExtension_eq_dec : EqDecision HeaderExtension.
Proof. solve_decision. Defined.

(** ** Decoding *)
Fixpoint parse_one_byte_loop (fuel : nat) (data : bytes) (position : Z)
    (extensions : list HeaderExtension) : outcome RtpError (list HeaderExtension) :=
  match fuel with
  | O => Diverge
  | S fuel =>
      match get data position with
      | None => Ok extensions
      | Some header =>
          let position := position + 1 in
          if header =? 0 then parse_one_byte_loop fuel data position extensions
          else
            let id := Z.shiftr header 4 in
            if id =? 15 then Ok extensions
            else
              let length := Z.land header 0x0f + 1 in
              e ← ok_or (checked_add 64 position length) TruncatedExtension;
              value ← ok_or (get_range data position e) TruncatedExtension;
              parse_one_byte_loop fuel data e
                (extensions ++ [{| ext_id := id; ext_value := value |}])
      end
  end.
Definition parse_one_byte (data : bytes) : outcome RtpError (list HeaderExtension) :=
  parse_one_byte_loop (S (length data)) data 0 [].

Fixpoint parse_two_byte_loop (fuel : nat) (data : bytes) (position : Z)
    (extensions : list HeaderExtension) : outcome RtpError (list HeaderExtension) :=
  match fuel with
  | O => Diverge
  | S fuel =>
      match get data position with
      | None => Ok extensions
      | Some id =>
          let position := position + 1 in
          if id =? 0 then parse_two_byte_loop fuel data position extensions
          else
            length ← ok_or (get data position) TruncatedExtension;
            let position := position + 1 in
            e ← ok_or (checked_add 64 position length) TruncatedExtension;
            value ← ok_or (get_range data position e) TruncatedExtension;
            parse_two_byte_loop fuel data e
              (extensions ++ [{| ext_id := id; ext_value := value |}])
      end
  end.
Definition parse_two_byte (data : bytes) : outcome RtpError (list HeaderExtension) :=
  parse_two_byte_loop (S (length data)) data 0 [].

Definition parse_extensions (format : ExtensionFormat) (data : bytes)
    : outcome RtpError (list HeaderExtension) :=
  match format with
  | OneByte => parse_one_byte data
  | TwoByte => parse_two_byte data
  | Opaque _ => Ok []
  end.

(** ** Encoding *)
Fixpoint encode_one_byte_loop (extensions : list HeaderExtension) (output : bytes)
    : outcome RtpError bytes :=
  match extensions with
  | [] => Ok output
  | extension :: extensions =>
      let length := len (ext_value extension) in
      _ ← reject_if (negb ((1 <=? ext_id extension) && (ext_id extension <=? 14)))
            (InvalidExtensionId OneByte (ext_id extension));
      _ ← reject_if (negb ((1 <=? length) && (length <=? 16)))
            (InvalidExtensionLength OneByte length);
      encoded_length ← ok_or (try_from 8 (length - 1)) ExtensionBlockTooLarge;
      encode_one_byte_loop extensions
        (output ++ [Z.lor (Z.shiftl (ext_id extension) 4 mod 2 ^ 8) encoded_length]
           ++ ext_value extension)
  end.
Definition encode_one_byte (extensions : list HeaderExtension) : outcome RtpError bytes :=
  encode_one_byte_loop extensions [].

Fixpoint encode_two_byte_loop (extensions : list HeaderExtension) (output : bytes)
    : outcome RtpError bytes :=
  match extensions with
  | [] => Ok output
  | extension :: extensions =>
      _ ← reject_if (ext_id extension =? 0) (InvalidExtensionId TwoByte (ext_id extension));
      length ← ok_or (try_from 8 (len (ext_value extension)))
                 (InvalidExtensionLength TwoByte (len (ext_value extension)));
      encode_two_byte_loop extensions
        (output ++ [ext_id extension; length] ++ ext_value extension)
  end.
Definition encode_two_byte (extensions : list HeaderExtension) : outcome RtpError bytes :=
  encode_two_byte_loop extensions [].

Definition encode_extensions (format : ExtensionFormat) (extensions : list HeaderExtension)
    : outcome RtpError bytes :=
  match format with
  | OneByte => encode_one_byte extensions
  | TwoByte => encode_two_byte extensions
  | Opaque _ =>
      match extensions with
      | [] => Ok []
      | _ => Err (InvalidExtensionId format 0)
      end
  end.

(** ** Every loop stops without a panic *)
(** ** Every decoding loop stops without a panic *)
Lemma returns_one_byte_loop fuel data position acc :
  0 <= position <= len data -> len data < position + Z.of_nat fuel ->
  returns (parse_one_byte_loop fuel data position acc).
Proof.
  revert position acc. induction fuel as [|fuel IH]; intros position acc Hp Hf; [lia|].
  cbn [parse_one_byte_loop]. destruct (get data position) as [header|] eqn:Hg; [|done].
  apply mk_is_Some, get_is_Some in Hg.
  split_ifs; [apply IH; lia|done|].
  apply returns_bind; [auto with returns|]. intros e [-> _]%ok_or_Ok%checked_add_Some.
  apply returns_bind; [auto with returns|]. intros v Hv%ok_or_Ok%get_range_len.
  pose_len. apply IH; lia.
Qed.

Lemma returns_two_byte_loop fuel data position acc :
  0 <= position <= len data -> len data < position + Z.of_nat fuel ->
  returns (parse_two_byte_loop fuel data position acc).
Proof.
  revert position acc. induction fuel as [|fuel IH]; intros position acc Hp Hf; [lia|].
  cbn [parse_two_byte_loop]. destruct (get data position) as [id|] eqn:Hg; [|done].
  apply mk_is_Some, get_is_Some in Hg.
  split_ifs; [apply IH; lia|].
  apply returns_bind; [auto with returns|]. intros l _.
  apply returns_bind; [auto with returns|]. intros e [-> _]%ok_or_Ok%checked_add_Some.
  apply returns_bind; [auto with returns|]. intros v Hv%ok_or_Ok%get_range_len.
  pose_len. apply IH; lia.
Qed.

Lemma returns_parse_extensions format data : returns (parse_extensions format data).
Proof.
  pose_len. unfold parse_extensions, parse_one_byte, parse_two_byte.
  destruct format; [apply returns_one_byte_loop|apply returns_two_byte_loop|done];
    unfold len in *; lia.
Qed.
#[export] Hint Resolve returns_parse_extensions : returns.

(** ** Decoding an encoded block *)

(** What the encoders emit for one element, and when they accept it. *)
Definition encode_element (format : ExtensionFormat) (x : HeaderExtension) : bytes :=
  match format with
  | OneByte => (Z.lor (Z.shiftl (ext_id x) 4 mod 2 ^ 8) (len (ext_value x) - 1)) :: ext_value x
  | TwoByte => ext_id x :: len (ext_value x) :: ext_value x
  | Opaque _ => []
  end.
Definition element_ok (format : ExtensionFormat) (x : HeaderExtension) : Prop :=
  match format with
  | OneByte => 1 <= ext_id x <= 14 /\ 1 <= len (ext_value x) <= 16
  | TwoByte => ext_id x <> 0 /\ len (ext_value x) <= 255
  | Opaque _ => False
  end.

Lemma encode_one_byte_loop_Ok xs out r :
  encode_one_byte_loop xs out = Ok r <->
  Forall (element_ok OneByte) xs /\ r = out ++ (xs ≫= encode_element OneByte).
Proof.
  revert out. induction xs as [|x xs IH]; intros out; cbn [encode_one_byte_loop].
  - cbn. rewrite app_nil_r. naive_solver.
  - rewrite Forall_cons. split.
    + intros H. inv_ok H. apply try_from_Some in Hstep1 as [-> _].
      apply IH in H as [Hxs ->]. cbn. rewrite <- !app_assoc. cbn.
      split; [split; [split; lia|done]|done].
    + intros [[[Hid Hlen] Hxs] ->]. cbn.
      apply bind_Ok. exists tt. split; [apply reject_if_Ok; lia|].
      apply bind_Ok. exists tt. split; [apply reject_if_Ok; lia|].
      apply bind_Ok. exists (len (ext_value x) - 1). split.
      * apply ok_or_Ok, try_from_Some. mlia.
      * apply IH. split; [done|]. rewrite <- !app_assoc. done.
Qed.

Lemma encode_two_byte_loop_Ok xs out r :
  encode_two_byte_loop xs out = Ok r <->
  Forall (element_ok TwoByte) xs /\ r = out ++ (xs ≫= encode_element TwoByte).
Proof.
  revert out. induction xs as [|x xs IH]; intros out; cbn [encode_two_byte_loop].
  - cbn. rewrite app_nil_r. naive_solver.
  - rewrite Forall_cons. split.
    + intros H. inv_ok H. apply try_from_Some in Hstep0 as [-> Hb].
      apply IH in H as [Hxs ->]. cbn. rewrite <- !app_assoc. cbn.
      split; [split; [split; mlia|done]|done].
    + intros [[[Hid Hlen] Hxs] ->]. cbn.
      apply bind_Ok. exists tt. split; [apply reject_if_Ok; lia|].
      apply bind_Ok. exists (len (ext_value x)). split.
      * apply ok_or_Ok, try_from_Some. pose_len. mlia.
      * apply IH. split; [done|]. rewrite <- !app_assoc. done.
Qed.

(** The first byte of a one-byte element carries the identifier and the length. *)
Lemma one_byte_header id n : 1 <= id <= 14 -> 1 <= n <= 16 ->
  let header := Z.lor (Z.shiftl id 4 mod 2 ^ 8) (n - 1) in
  header <> 0 /\ Z.shiftr header 4 = id /\ Z.land header 0x0f + 1 = n.
Proof.
  intros Hid Hn.
  assert (forallb (fun id => forallb (fun n =>
    let header := Z.lor (Z.shiftl id 4 mod 2 ^ 8) (n - 1) in
    (negb (header =? 0)) && (Z.shiftr header 4 =? id) && (Z.land header 0x0f + 1 =? n))
    (seqZ 1 16)) (seqZ 1 14) = true) as H by (vm_compute; reflexivity).
  apply (forallb_seqZ _ _ _ id) in H; [|lia]. apply (forallb_seqZ _ _ _ n) in H; [|lia].
  cbn beta zeta in *. lia.
Qed.

(** Trailing zero bytes of the word padding are skipped. *)
Lemma one_byte_zeros (k : nat) fuel acc pre :
  (k < fuel)%nat -> parse_one_byte_loop fuel (pre ++ replicate k 0) (len pre) acc = Ok acc.
Proof.
  revert fuel pre. induction k as [|k IH]; intros fuel pre Hf; (destruct fuel; [lia|]);
    cbn [parse_one_byte_loop replicate].
  - rewrite app_nil_r. by rewrite (proj2 (get_None pre (len pre))) by slia.
  - rewrite get_app_here by done. cbn.
    change (0 :: replicate k 0) with ([0] ++ replicate k 0). rewrite app_assoc.
    replace (len pre + 1) with (len (pre ++ [0])) by slia. apply IH. lia.
Qed.

Lemma two_byte_zeros (k : nat) fuel acc pre :
  (k < fuel)%nat -> parse_two_byte_loop fuel (pre ++ replicate k 0) (len pre) acc = Ok acc.
Proof.
  revert fuel pre. induction k as [|k IH]; intros fuel pre Hf; (destruct fuel; [lia|]);
    cbn [parse_two_byte_loop replicate].
  - rewrite app_nil_r. by rewrite (proj2 (get_None pre (len pre))) by slia.
  - rewrite get_app_here by done. cbn.
    change (0 :: replicate k 0) with ([0] ++ replicate k 0). rewrite app_assoc.
    replace (len pre + 1) with (len (pre ++ [0])) by slia. apply IH. lia.
Qed.

Lemma one_byte_loop_encoded xs (k : nat) fuel pre acc :
  Forall (element_ok OneByte) xs ->
  len pre + len (xs ≫= encode_element OneByte) < 2 ^ 64 ->
  (length (xs ≫= encode_element OneByte) + k < fuel)%nat ->
  parse_one_byte_loop fuel (pre ++ (xs ≫= encode_element OneByte) ++ replicate k 0) (len pre) acc
    = Ok (acc ++ xs).
Proof.
  revert fuel pre acc. induction xs as [|x xs IH]; intros fuel pre acc Hok Hb Hf.
  { rewrite app_nil_r. apply one_byte_zeros. cbn in Hf. lia. }
  apply Forall_cons in Hok as [[Hid Hlen] Hxs].
  destruct (one_byte_header (ext_id x) (len (ext_value x)) Hid Hlen) as (H0 & Hi & Hl).
  cbn -[Z.lor Z.pow] in Hb, Hf |- *.
  set (header := Z.lor _ _) in *. destruct fuel; [lia|]. cbn [parse_one_byte_loop].
  rewrite get_app_here by done. rewrite (proj2 (Z.eqb_neq header 0) H0), Hi, Hl.
  replace (ext_id x =? 15) with false by lia.
  rewrite len_cons, len_app in Hb. pose_len.
  unfold checked_add. replace (_ <=? _) with true by mlia. cbn [ok_or mbind outcome_bind].
  rewrite (proj2 (get_range_Some _ _ _ (ext_value x))); cycle 1.
  { exists (pre ++ [header]), ((xs ≫= encode_element OneByte) ++ replicate k 0).
    rewrite <- !app_assoc. split_and!; [done|slia|lia]. }
  cbn [ok_or mbind outcome_bind].
  replace (len pre + 1 + len (ext_value x)) with (len (pre ++ header :: ext_value x)) by slia.
  replace (pre ++ header :: (ext_value x ++ (xs ≫= encode_element OneByte)) ++ replicate k 0)
    with ((pre ++ header :: ext_value x) ++ (xs ≫= encode_element OneByte) ++ replicate k 0)
    by (rewrite <- !app_assoc; done).
  rewrite IH; [|done|slia|rewrite length_app in Hf; lia].
  rewrite <- app_assoc. by destruct x.
Qed.

Lemma two_byte_loop_encoded xs (k : nat) fuel pre acc :
  Forall (element_ok TwoByte) xs ->
  len pre + len (xs ≫= encode_element TwoByte) < 2 ^ 64 ->
  (length (xs ≫= encode_element TwoByte) + k < fuel)%nat ->
  parse_two_byte_loop fuel (pre ++ (xs ≫= encode_element TwoByte) ++ replicate k 0) (len pre) acc
    = Ok (acc ++ xs).
Proof.
  revert fuel pre acc. induction xs as [|x xs IH]; intros fuel pre acc Hok Hb Hf.
  { rewrite app_nil_r. apply two_byte_zeros. cbn in Hf. lia. }
  apply Forall_cons in Hok as [[Hid Hlen] Hxs].
  cbn -[Z.pow] in Hb, Hf |- *. destruct fuel; [lia|]. cbn [parse_two_byte_loop].
  rewrite get_app_here by done. rewrite (proj2 (Z.eqb_neq (ext_id x) 0) Hid).
  rewrite get_app_skip by slia. replace (len pre + 1 - len pre) with 1 by lia.
  rewrite get_cons_S by lia. cbn [Z.sub Z.add Z.opp Z.pos_sub get_cons_0].
  rewrite get_cons_0. cbn [ok_or mbind outcome_bind].
  rewrite !len_cons, len_app in Hb. pose_len.
  unfold checked_add. replace (_ <=? _) with true by mlia. cbn [ok_or mbind outcome_bind].
  set (id := ext_id x) in *. set (n := len (ext_value x)) in *.
  rewrite (proj2 (get_range_Some _ _ _ (ext_value x))); cycle 1.
  { exists (pre ++ [id; n]), ((xs ≫= encode_element TwoByte) ++ replicate k 0).
    rewrite <- !app_assoc. split_and!; [done|slia|lia]. }
  cbn [ok_or mbind outcome_bind].
  replace (len pre + 1 + 1 + n) with (len (pre ++ id :: n :: ext_value x)) by (unfold n; slia).
  replace (pre ++ id :: n :: (ext_value x ++ (xs ≫= encode_element TwoByte)) ++ replicate k 0)
    with ((pre ++ id :: n :: ext_value x) ++ (xs ≫= encode_element TwoByte) ++ replicate k 0)
    by (rewrite <- !app_assoc; done).
  rewrite IH; [|done|unfold n in *; slia|rewrite length_app in Hf; lia].
  rewrite <- app_assoc. by destruct x.
Qed.

(** Decoding is left inverse to encoding, also behind the zero bytes that fill the
    block to a whole number of words. *)
Lemma parse_encode_extensions format xs data (k : nat) :
  encode_extensions format xs = Ok data -> len data < 2 ^ 63 ->
  parse_extensions format (data ++ replicate k 0) = Ok xs.
Proof.
  destruct format; cbn [encode_extensions parse_extensions]; intros H Hb.
  - apply encode_one_byte_loop_Ok in H as [Hok ->]. cbn [app] in *.
    apply (one_byte_loop_encoded xs k _ [] []); [done|slia|rewrite length_app, length_replicate; lia].
  - apply encode_two_byte_loop_Ok in H as [Hok ->]. cbn [app] in *.
    apply (two_byte_loop_encoded xs k _ [] []); [done|slia|rewrite length_app, length_replicate; lia].
  - by destruct xs.
Qed.
