(* ===== verification/RtpPacket.v ===== *)
(** * webrtc/rtp: packets (src/packet.rs)

    The parser, the builder, the in-place rewrite used by the SFU and the
    header-extension rewrite, with the correspondence between them. *)
From S2P Require Import Prelude Words Slices RtpExtension.

Definition FIXED_HEADER_LEN : Z := 12.
Definition MAX_PACKET_LEN : Z := 65535.

Definition read_u16 : bytes -> Z -> outcome RtpError Z := read_be 2 TruncatedHeader.
Definition read_u32 : bytes -> Z -> outcome RtpError Z := read_be 4 TruncatedHeader.

(** The header length before SRTP decryption. *)
Definition parse_header_length (input : bytes) : outcome RtpError Z :=
  _ ← reject_if (len input <? FIXED_HEADER_LEN) (PacketTooShort (len input));
  first ← index input 0;
  let version := Z.shiftr first 6 in
  _ ← reject_if (negb (version =? 2)) (UnsupportedVersion version);
  let csrc_count := Z.land first 0x0f in
  position ← ok_or (checked_add 64 FIXED_HEADER_LEN (csrc_count * 4)) TruncatedHeader;
  _ ← ok_or (get_to input position) TruncatedHeader;
  if has_bit first 0x10 then
    words ← read_u16 input (position + 2);
    position ← ok_or (position ← checked_add 64 position 4; checked_add 64 position (words * 4))
                 TruncatedHeader;
    _ ← ok_or (get_to input position) TruncatedHeader;
    Ok position
  else Ok position.

Record Header := {
  marker : bool;
  payload_type : Z;
  sequence_number : Z;
  timestamp : Z;
  ssrc : Z;
  csrcs : list Z }.

Record ExtensionRewrite := {
  source_id : Z;
  destination_id : option Z;
  replacement : option bytes }.

Record Packet := {
  header : Header;
  header_len : Z;
  extension_format : option ExtensionFormat;
  extension_data : option bytes;
  extensions : list HeaderExtension;
  payload : bytes;
  padding_len : Z }.

Definition parse_padding (has_padding : bool) (payload : bytes) : outcome RtpError Z :=
  if negb has_padding then Ok 0
  else
    padding_len ← ok_or (last payload) (InvalidPadding 0);
    if (padding_len =? 0) || (len payload <? padding_len)
    then Err (InvalidPadding padding_len) else Ok padding_len.

(** [for _ in 0..csrc_count { csrcs.push(read_u32(input, position)?); position += 4; }] *)
Fixpoint read_csrcs (count : nat) (input : bytes) (position : Z) (csrcs : list Z)
    : outcome RtpError (Z * list Z) :=
  match count with
  | O => Ok (position, csrcs)
  | S count =>
      csrc ← read_u32 input position;
      read_csrcs count input (position + 4) (csrcs ++ [csrc])
  end.

Definition parse_extension_block (has_extension : bool) (input : bytes) (position : Z)
    : outcome RtpError (Z * option ExtensionFormat * option bytes * list HeaderExtension) :=
  if has_extension then
    profile ← read_u16 input position;
    words ← read_u16 input (position + 2);
    let position := position + 4 in
    byte_len ← ok_or (checked_mul 64 words 4) TruncatedHeader;
    e ← ok_or (checked_add 64 position byte_len) TruncatedHeader;
    data ← ok_or (get_range input position e) TruncatedHeader;
    let format := from_profile profile in
    parsed ← parse_extensions format data;
    Ok (e, Some format, Some data, parsed)
  else Ok (position, None, None, []).

(** The part of [Packet::parse] that follows the version check: the CSRC list, the
    extension block and the padded payload. *)
Definition parse_tail (first : Z) (input : bytes)
    : outcome RtpError
        (list Z * Z * option ExtensionFormat * option bytes * list HeaderExtension * bytes * Z) :=
  let has_padding := has_bit first 0x20 in
  let has_extension := has_bit first 0x10 in
  let csrc_count := Z.land first 0x0f in
  '(position, csrcs) ← read_csrcs (Z.to_nat csrc_count) input FIXED_HEADER_LEN [];
  '(position, extension_format, extension_data, extensions) ←
    parse_extension_block has_extension input position;
  payload_and_padding ← ok_or (get_from input position) TruncatedHeader;
  padding_len ← parse_padding has_padding payload_and_padding;
  payload_len ← ok_or (checked_sub (len payload_and_padding) padding_len) (InvalidPadding padding_len);
  payload ← ok_or (get_to payload_and_padding payload_len) (InvalidPadding padding_len);
  Ok (csrcs, position, extension_format, extension_data, extensions, payload, padding_len).

(** [Packet::parse]. *)
Definition parse (input : bytes) : outcome RtpError Packet :=
  _ ← reject_if (len input <? FIXED_HEADER_LEN) (PacketTooShort (len input));
  first ← index input 0;
  let version := Z.shiftr first 6 in
  _ ← reject_if (negb (version =? 2)) (UnsupportedVersion version);
  '(csrcs, position, extension_format, extension_data, extensions, payload, padding_len) ←
    parse_tail first input;
  second ← index input 1;
  sequence_number ← read_u16 input 2;
  timestamp ← read_u32 input 4;
  ssrc ← read_u32 input 8;
  Ok {| header := {| marker := has_bit second 0x80;
                     payload_type := Z.land second 0x7f;
                     sequence_number := sequence_number;
                     timestamp := timestamp;
                     ssrc := ssrc;
                     csrcs := csrcs |};
        header_len := position;
        extension_format := extension_format;
        extension_data := extension_data;
        extensions := extensions;
        payload := payload;
        padding_len := padding_len |}.

(** ** [PacketBuilder] *)
Module PacketBuilder.
Record t := {
  b_header : Header;
  b_payload : bytes;
  b_extension_format : option ExtensionFormat;
  b_extensions : list HeaderExtension;
  b_padding_len : Z }.

Definition new (payload_type sequence_number timestamp ssrc : Z) (payload : bytes) : t :=
  {| b_header := {| marker := false; payload_type := payload_type;
                    sequence_number := sequence_number; timestamp := timestamp;
                    ssrc := ssrc; csrcs := [] |};
     b_payload := payload;
     b_extension_format := None;
     b_extensions := [];
     b_padding_len := 0 |}.
Definition with_marker (m : bool) (b : t) : t :=
  let h := b_header b in
  {| b_header := {| marker := m; payload_type := payload_type h;
                    sequence_number := sequence_number h; timestamp := timestamp h;
                    ssrc := ssrc h; csrcs := csrcs h |};
     b_payload := b_payload b; b_extension_format := b_extension_format b;
     b_extensions := b_extensions b; b_padding_len := b_padding_len b |}.
Definition with_csrcs (cs : list Z) (b : t) : t :=
  let h := b_header b in
  {| b_header := {| marker := marker h; payload_type := payload_type h;
                    sequence_number := sequence_number h; timestamp := timestamp h;
                    ssrc := ssrc h; csrcs := cs |};
     b_payload := b_payload b; b_extension_format := b_extension_format b;
     b_extensions := b_extensions b; b_padding_len := b_padding_len b |}.
Definition with_extensions (format : ExtensionFormat) (xs : list HeaderExtension) (b : t) : t :=
  {| b_header := b_header b; b_payload := b_payload b; b_extension_format := Some format;
     b_extensions := xs; b_padding_len := b_padding_len b |}.
Definition with_padding (n : Z) (b : t) : t :=
  {| b_header := b_header b; b_payload := b_payload b;
     b_extension_format := b_extension_format b;
     b_extensions := b_extensions b; b_padding_len := n |}.

Definition validate_builder (b : t) : outcome RtpError unit :=
  _ ← reject_if (127 <? payload_type (b_header b)) (InvalidPayloadType (payload_type (b_header b)));
  _ ← reject_if (15 <? len (csrcs (b_header b))) (TooManyCsrcs (len (csrcs (b_header b))));
  reject_if (255 <? b_padding_len b) (PaddingTooLarge (b_padding_len b)).

Definition encode_fixed_header (output : bytes) (h : Header) (has_extension : bool)
    (padding_len : Z) : bytes :=
  let first := Z.shiftl 2 6 in
  let first := Z.lor first (Z.shiftl (from_bool (0 <? padding_len)) 5) in
  let first := Z.lor first (Z.shiftl (from_bool has_extension) 4) in
  let first := Z.lor first (default 0 (try_from 8 (len (csrcs h)))) in
  output ++ [first] ++ [Z.lor (Z.shiftl (from_bool (marker h)) 7) (payload_type h)]
    ++ to_be_bytes 2 (sequence_number h)
    ++ to_be_bytes 4 (timestamp h)
    ++ to_be_bytes 4 (ssrc h).

Definition build (b : t) : outcome RtpError bytes :=
  _ ← validate_builder b;
  extension_data ←
    match b_extension_format b with
    | None => Ok None
    | Some format => Some <$> encode_extensions format (b_extensions b)
    end;
  let extension_len := match extension_data with None => 0 | Some data => len data end in
  padded_extension_len ←
    ok_or (checked_add 64 extension_len ((4 - extension_len mod 4) mod 4)) ExtensionBlockTooLarge;
  extension_words ← ok_or (try_from 16 (padded_extension_len / 4)) ExtensionBlockTooLarge;
  total_len ←
    ok_or (length ← checked_add 64 FIXED_HEADER_LEN (len (csrcs (b_header b)) * 4);
           length ← checked_add 64 length
                      (if extension_data is Some _ then 4 + padded_extension_len else 0);
           length ← checked_add 64 length (len (b_payload b));
           checked_add 64 length (b_padding_len b)) PacketTooLarge;
  _ ← reject_if (MAX_PACKET_LEN <? total_len) PacketTooLarge;
  let output := encode_fixed_header [] (b_header b)
                  (if extension_data is Some _ then true else false) (b_padding_len b) in
  let output := output ++ (csrcs (b_header b) ≫= to_be_bytes 4) in
  let output :=
    match b_extension_format b, extension_data with
    | Some format, Some data =>
        let output := output ++ to_be_bytes 2 (profile format) ++ to_be_bytes 2 extension_words
                        ++ data in
        resize output (len output + (padded_extension_len - len data)) 0
    | _, _ => output
    end in
  let output := output ++ b_payload b in
  if 0 <? b_padding_len b then
    let output := resize output total_len 0 in
    _ ← ok_or (last output) PacketTooLarge;
    padding ← ok_or (try_from 8 (b_padding_len b)) (PaddingTooLarge (b_padding_len b));
    Ok (<[Nat.pred (length output) := padding]> output)
  else Ok output.
End PacketBuilder.

(** ** Rewriting header extensions *)
Definition rewrite_extension (rewrites : list ExtensionRewrite) (x : HeaderExtension)
    : option HeaderExtension :=
  match List.find (fun rewrite => source_id rewrite =? ext_id x) rewrites with
  | Some {| destination_id := None |} => None
  | Some rewrite =>
      Some {| ext_id := default (ext_id x) (destination_id rewrite);
              ext_value := default (ext_value x) (replacement rewrite) |}
  | None => Some {| ext_id := ext_id x; ext_value := ext_value x |}
  end.

Definition rewritable (format : ExtensionFormat) : bool :=
  match format with Opaque _ => false | _ => true end.

Definition rewrite_header_extensions (input : bytes) (rewrites : list ExtensionRewrite)
    : outcome RtpError bytes :=
  match rewrites with
  | [] => Ok input
  | _ =>
      packet ← parse input;
      format ← ok_or (format ← extension_format packet;
                      if rewritable format then Some format else None)
                 UnsupportedExtensionRewrite;
      let exts := omap (rewrite_extension rewrites) (extensions packet) in
      let h := header packet in
      PacketBuilder.build
        (PacketBuilder.with_padding (padding_len packet)
          (PacketBuilder.with_extensions format exts
            (PacketBuilder.with_csrcs (csrcs h)
              (PacketBuilder.with_marker (marker h)
                (PacketBuilder.new (payload_type h) (sequence_number h) (timestamp h) (ssrc h)
                   (payload packet))))))
  end.

(** ** Rewriting the fixed header in place *)
Record Rewrite := {
  rw_marker : option bool;
  rw_payload_type : option Z;
  rw_sequence_number : option Z;
  rw_timestamp : option Z;
  rw_ssrc : option Z }.

(** [if let Some(value) = field { packet[at..at + n].copy_from_slice(..) }] *)
Definition copy_field (n : nat) (at_ : Z) (field : option Z) : prog bytes RtpError unit :=
  match field with
  | None => mret tt
  | Some value => try_modify (fun packet => copy_at packet at_ (to_be_bytes n value))
  end.

Definition rewrite_payload_type (field : option Z) : prog bytes RtpError unit :=
  match field with
  | None => mret tt
  | Some payload_type =>
      if 127 <? payload_type then fail (InvalidPayloadType payload_type)
      else try_modify (fun packet => b ← index packet 1;
                         set_at packet 1 (Z.lor (Z.land b 0x80) payload_type))
  end.

Definition rewrite_marker (field : option bool) : prog bytes RtpError unit :=
  match field with
  | None => mret tt
  | Some marker =>
      try_modify (fun packet => b ← index packet 1;
        set_at packet 1 (Z.lor (Z.land b 0x7f) (Z.shiftl (from_bool marker) 7)))
  end.

(** [Rewrite::apply]. *)
Definition apply (r : Rewrite) : prog bytes RtpError unit :=
  _ ← (fun packet => (packet, parse packet));
  _ ← rewrite_payload_type (rw_payload_type r);
  _ ← rewrite_marker (rw_marker r);
  _ ← copy_field 2 2 (rw_sequence_number r);
  _ ← copy_field 4 4 (rw_timestamp r);
  copy_field 4 8 (rw_ssrc r).

(** ** The parser returns on every input *)
Lemma returns_read_csrcs n input position acc : returns (read_csrcs n input position acc).
Proof.
  revert position acc. induction n as [|n IH]; intros position acc; [done|].
  cbn. apply returns_bind; [apply returns_read_be|auto].
Qed.

#[export] Hint Resolve returns_read_csrcs : returns.
#[export] Hint Extern 1 (returns (read_u16 _ _)) => apply returns_read_be : returns.
#[export] Hint Extern 1 (returns (read_u32 _ _)) => apply returns_read_be : returns.

Lemma returns_parse_padding b l : returns (parse_padding b l).
Proof. unfold parse_padding. returns_steps. Qed.

Lemma returns_parse_extension_block b input position :
  returns (parse_extension_block b input position).
Proof. unfold parse_extension_block. returns_steps. Qed.
#[export] Hint Resolve returns_parse_padding returns_parse_extension_block : returns.

Lemma returns_parse_tail first input : returns (parse_tail first input).
Proof. unfold parse_tail. returns_steps. Qed.
#[export] Hint Resolve returns_parse_tail : returns.

Lemma returns_parse input : returns (parse input).
Proof.
  unfold parse, FIXED_HEADER_LEN. apply returns_bind; [auto with returns|].
  intros u Hlen%reject_if_Ok. pose_len.
  apply returns_bind; [apply returns_index; lia|]. intros first _.
  apply returns_bind; [auto with returns|]. intros ? _.
  apply returns_bind; [auto with returns|]. intros [[[[[[? ?] ?] ?] ?] ?] ?] _.
  apply returns_bind; [apply returns_index; lia|]. intros second _. returns_steps.
Qed.
#[export] Hint Resolve returns_parse : returns.

(** ** Only the first byte and the bytes after the fixed header matter to the tail *)
Section TailPrefix.
Context (h1 h2 rest : bytes) (Hh1 : len h1 = 12) (Hh2 : len h2 = 12).

Lemma get_range_prefix a b : 12 <= a -> get_range (h1 ++ rest) a b = get_range (h2 ++ rest) a b.
Proof. intros. rewrite !get_range_skip by lia. by rewrite Hh1, Hh2. Qed.

Lemma read_be_prefix n (e : RtpError) p :
  12 <= p -> read_be n e (h1 ++ rest) p = read_be n e (h2 ++ rest) p.
Proof. intros. unfold read_be. by rewrite get_range_prefix. Qed.

Lemma read_csrcs_prefix n p acc :
  12 <= p -> read_csrcs n (h1 ++ rest) p acc = read_csrcs n (h2 ++ rest) p acc.
Proof.
  revert p acc. induction n as [|n IH]; intros p acc Hp; [done|].
  cbn. unfold read_u32. rewrite read_be_prefix by done.
  destruct (read_be _ _ _ _); cbn; [apply IH; lia|done..].
Qed.

Lemma read_csrcs_position n input p acc p' acc' :
  read_csrcs n input p acc = Ok (p', acc') -> p' = p + 4 * Z.of_nat n.
Proof.
  revert p acc. induction n as [|n IH]; intros p acc.
  - cbn. intros [= -> _]. lia.
  - cbn. intros (v & _ & H%IH)%bind_Ok. lia.
Qed.

Lemma parse_extension_block_prefix b p : 12 <= p ->
  parse_extension_block b (h1 ++ rest) p = parse_extension_block b (h2 ++ rest) p.
Proof.
  intros Hp. unfold parse_extension_block, read_u16. destruct b; [|done].
  rewrite !read_be_prefix by lia.
  destruct (read_be 2 TruncatedHeader (h2 ++ rest) p); cbn; try done.
  destruct (read_be 2 TruncatedHeader (h2 ++ rest) (p + 2)); cbn; try done.
  destruct (checked_mul _ _ _); cbn; try done.
  destruct (checked_add _ _ _); cbn; try done. by rewrite get_range_prefix by lia.
Qed.

Lemma parse_extension_block_position b input p p' f d xs :
  parse_extension_block b input p = Ok (p', f, d, xs) -> p <= p'.
Proof.
  unfold parse_extension_block. destruct b; [|by intros [= -> _ _ _]].
  intros H. inv_ok H. apply get_range_len in Hstep3. pose_len. naive_solver lia.
Qed.

Lemma parse_tail_prefix first : parse_tail first (h1 ++ rest) = parse_tail first (h2 ++ rest).
Proof.
  unfold parse_tail, FIXED_HEADER_LEN. rewrite read_csrcs_prefix by lia.
  destruct (read_csrcs _ _ _ _) as [[p cs]| | |] eqn:E; cbn; try done.
  apply read_csrcs_position in E. rewrite parse_extension_block_prefix by lia.
  destruct (parse_extension_block _ _ _) as [[[[p' f] d] xs]| | |] eqn:E'; cbn; try done.
  apply parse_extension_block_position in E'. unfold get_from.
  rewrite get_range_prefix by lia. by rewrite !len_app, Hh1, Hh2.
Qed.
End TailPrefix.

(** ** Shape of a parsable packet *)
Lemma split_header input : 12 <= len input ->
  exists first second (s t x rest : bytes), input = first :: second :: s ++ t ++ x ++ rest /\
    length s = 2%nat /\ length t = 4%nat /\ length x = 4%nat.
Proof.
  intros H. destruct input as [|first [|second l]]; [unfold len in H; cbn in H; lia..|].
  exists first, second, (take 2 l), (take 4 (drop 2 l)), (take 4 (drop 6 l)), (drop 10 l).
  unfold len in H. cbn [length] in H. split_and!.
  - do 2 f_equal. rewrite <- (take_drop 2 l) at 1. f_equal.
    rewrite <- (take_drop 4 (drop 2 l)) at 1. f_equal. rewrite drop_drop.
    rewrite <- (take_drop 4 (drop (2 + 4) l)) at 1. f_equal. by rewrite drop_drop.
  - rewrite length_take. lia.
  - rewrite length_take, length_drop. lia.
  - rewrite length_take, length_drop. lia.
Qed.

Section FixedHeader.
Context (first second : Z) (s t x rest : bytes).
Context (Hs : length s = 2%nat) (Ht : length t = 4%nat) (Hx : length x = 4%nat).
Lemma read_fixed n (e : RtpError) (l1 b l2 : bytes) p :
  len l1 = p -> length b = n -> p + Z.of_nat n < 2 ^ 64 ->
  read_be n e (l1 ++ b ++ l2) p = Ok (from_be_bytes b).
Proof.
  intros Hl Hb Hp. apply read_be_Ok. exists l1, b, l2. split_and!; auto.
  unfold saturating_add, len. mlia.
Qed.

Lemma parse_fixed input : input = first :: second :: s ++ t ++ x ++ rest ->
  parse input =
    (_ ← reject_if (negb (Z.shiftr first 6 =? 2)) (UnsupportedVersion (Z.shiftr first 6));
     '(csrcs, position, extension_format, extension_data, extensions, payload, padding_len) ←
       parse_tail first input;
     Ok {| header := {| marker := has_bit second 0x80; payload_type := Z.land second 0x7f;
                        sequence_number := from_be_bytes s; timestamp := from_be_bytes t;
                        ssrc := from_be_bytes x; csrcs := csrcs |};
           header_len := position; extension_format := extension_format;
           extension_data := extension_data; extensions := extensions; payload := payload;
           padding_len := padding_len |}).
Proof.
  intros Hin.
  assert (12 <= len input) by (subst; unfold len; cbn [length]; rewrite !length_app; lia).
  unfold parse, FIXED_HEADER_LEN. replace (len input <? 12) with false by lia.
  cbn [reject_if mbind outcome_bind].
  replace (index input 0) with (Ok (E:=RtpError) first) by (by subst).
  replace (index input 1) with (Ok (E:=RtpError) second) by (by subst). cbn [mbind outcome_bind].
  destruct (reject_if _ _); cbn; try done.
  destruct (parse_tail first input) as [[[[[[[? ?] ?] ?] ?] ?] ?]| | |]; cbn; try done.
  unfold read_u16, read_u32.
  replace (read_be 2 _ input 2) with (Ok (E:=RtpError) (from_be_bytes s)); cycle 1.
  { symmetry. rewrite Hin. by apply (read_fixed 2 _ [first; second] s). }
  replace (read_be 4 _ input 4) with (Ok (E:=RtpError) (from_be_bytes t)); cycle 1.
  { symmetry. rewrite Hin. apply (read_fixed 4 _ (first :: second :: s) t (x ++ rest));
      unfold len; cbn [length]; (lia || done). }
  replace (read_be 4 _ input 8) with (Ok (E:=RtpError) (from_be_bytes x)); cycle 1.
  { symmetry. rewrite Hin, app_assoc.
    apply (read_fixed 4 _ (first :: second :: s ++ t) x rest);
      unfold len; cbn [length]; rewrite ?length_app; (lia || done). }
  done.
Qed.
End FixedHeader.

(** ** The in-place rewrite *)
Definition rewrite_ok (r : Rewrite) : Prop :=
  (forall v, rw_payload_type r = Some v -> 0 <= v <= 127) /\
  (forall v, rw_sequence_number r = Some v -> u16 v) /\
  (forall v, rw_timestamp r = Some v -> u32 v) /\
  (forall v, rw_ssrc r = Some v -> u32 v).

Definition rewrite_header (r : Rewrite) (h : Header) : Header :=
  {| marker := default (marker h) (rw_marker r);
     payload_type := default (payload_type h) (rw_payload_type r);
     sequence_number := default (sequence_number h) (rw_sequence_number r);
     timestamp := default (timestamp h) (rw_timestamp r);
     ssrc := default (ssrc h) (rw_ssrc r);
     csrcs := csrcs h |}.

Definition with_header (h : Header) (p : Packet) : Packet :=
  {| header := h; header_len := header_len p; extension_format := extension_format p;
     extension_data := extension_data p; extensions := extensions p;
     payload := payload p; padding_len := padding_len p |}.

Lemma second_payload_type b pt : u8 b -> 0 <= pt <= 127 ->
  let b' := Z.lor (Z.land b 0x80) pt in
  u8 b' /\ has_bit b' 0x80 = has_bit b 0x80 /\ Z.land b' 0x7f = pt.
Proof.
  intros Hb Hpt.
  assert (forallb (fun pt => forallb (fun b =>
    let b' := Z.lor (Z.land b 0x80) pt in
    (0 <=? b') && (b' <? 256) && eqb (has_bit b' 0x80) (has_bit b 0x80) && (Z.land b' 0x7f =? pt))
    (seqZ 0 256)) (seqZ 0 128) = true) as H by (vm_compute; reflexivity).
  apply (forallb_seqZ _ _ _ pt) in H; [|lia]. apply (forallb_seqZ _ _ _ b) in H; [|mlia].
  cbn beta zeta in *. rewrite !andb_true_iff, eqb_true_iff in H. destruct H as [[[H1 H2] H3] H4].
  split_and!; [unfold fits; lia|done|lia].
Qed.

Lemma second_marker b m : u8 b ->
  let b' := Z.lor (Z.land b 0x7f) (Z.shiftl (from_bool m) 7) in
  u8 b' /\ has_bit b' 0x80 = m /\ Z.land b' 0x7f = Z.land b 0x7f.
Proof.
  intros Hb.
  assert (forallb (fun b => let b' := Z.lor (Z.land b 0x7f) (Z.shiftl (from_bool m) 7) in
    (0 <=? b') && (b' <? 256) && eqb (has_bit b' 0x80) m && (Z.land b' 0x7f =? Z.land b 0x7f))
    (seqZ 0 256) = true) as H by (destruct m; vm_compute; reflexivity).
  apply (forallb_seqZ _ _ _ b) in H; [|mlia].
  cbn beta zeta in *. rewrite !andb_true_iff, eqb_true_iff in H. destruct H as [[[H1 H2] H3] H4].
  split_and!; [unfold fits; lia|done|lia].
Qed.

Lemma copy_field_middle n (l1 old l2 : bytes) p field :
  p = len l1 -> length old = n ->
  copy_field n p field (l1 ++ old ++ l2) = (l1 ++ from_option (to_be_bytes n) old field ++ l2, Ok tt).
Proof.
  intros -> Hold. destruct field as [v|]; [|done]. cbn. unfold try_modify.
  rewrite copy_at_middle; [done|done|]. rewrite len_to_be_bytes. unfold len. by rewrite Hold.
Qed.

(** The second byte after the payload-type and marker rewrites. *)
Definition second_byte (r : Rewrite) (b : Z) : Z :=
  let b := from_option (fun pt => Z.lor (Z.land b 0x80) pt) b (rw_payload_type r) in
  from_option (fun m => Z.lor (Z.land b 0x7f) (Z.shiftl (from_bool m) 7)) b (rw_marker r).

Lemma second_byte_spec r b : rewrite_ok r -> u8 b ->
  u8 (second_byte r b) /\ has_bit (second_byte r b) 0x80 = default (has_bit b 0x80) (rw_marker r) /\
  Z.land (second_byte r b) 0x7f = default (Z.land b 0x7f) (rw_payload_type r).
Proof.
  intros (Hpt & _) Hb. unfold second_byte.
  assert (exists b1, from_option (fun pt => Z.lor (Z.land b 0x80) pt) b (rw_payload_type r) = b1 /\
    u8 b1 /\ has_bit b1 0x80 = has_bit b 0x80 /\
    Z.land b1 0x7f = default (Z.land b 0x7f) (rw_payload_type r)) as (b1 & -> & Hb1 & Hm & Hp).
  { destruct (rw_payload_type r) as [pt|]; cbn; [|by exists b].
    destruct (second_payload_type b pt Hb (Hpt pt eq_refl)) as (? & ? & ?). by eexists. }
  destruct (rw_marker r) as [m|]; cbn; [|done].
  destruct (second_marker b1 m Hb1) as (? & ? & ?). split_and!; [done|done|congruence].
Qed.

Lemma set_second {E} first b b' (tail : bytes) :
  set_at (E:=E) (first :: b :: tail) 1 b' = Ok (first :: b' :: tail).
Proof. unfold set_at. by replace (_ && _) with true by slia. Qed.

Lemma update_second {E} first b (f : Z -> Z) (tail : bytes) :
  (c ← index (first :: b :: tail) 1; set_at (first :: b :: tail) 1 (f c))
    = Ok (E:=E) (first :: f b :: tail).
Proof. change (index _ 1) with (Ok (E:=E) b). apply set_second. Qed.

Section ApplyShape.
Context (r : Rewrite) (first second : Z) (s t x rest : bytes).
Context (Hs : length s = 2%nat) (Ht : length t = 4%nat) (Hx : length x = 4%nat).

Lemma rewrite_second_byte tail : rewrite_ok r ->
  (_ ← rewrite_payload_type (rw_payload_type r); rewrite_marker (rw_marker r))
    (first :: second :: tail) = (first :: second_byte r second :: tail, Ok tt).
Proof.
  intros (Hpt & _). unfold second_byte.
  erewrite prog_step with (s' := first ::
    from_option (fun pt => Z.lor (Z.land second 0x80) pt) second (rw_payload_type r) :: tail).
  - set (b1 := from_option _ second _). destruct (rw_marker r) as [m|]; [|done].
    unfold rewrite_marker, try_modify.
    by rewrite (update_second first b1 (fun b => Z.lor (Z.land b 0x7f) (Z.shiftl (from_bool m) 7))).
  - destruct (rw_payload_type r) as [pt|]; [|done]. specialize (Hpt pt eq_refl).
    unfold rewrite_payload_type. replace (127 <? pt) with false by lia.
    unfold try_modify. by rewrite (update_second first second (fun b => Z.lor (Z.land b 0x80) pt)).
Qed.

Lemma apply_shape p :
  rewrite_ok r -> parse (first :: second :: s ++ t ++ x ++ rest) = Ok p ->
  apply r (first :: second :: s ++ t ++ x ++ rest) =
    (first :: second_byte r second :: from_option (to_be_bytes 2) s (rw_sequence_number r) ++
     from_option (to_be_bytes 4) t (rw_timestamp r) ++
     from_option (to_be_bytes 4) x (rw_ssrc r) ++ rest, Ok tt).
Proof.
  intros Hr Hp. unfold apply. erewrite prog_step by (by rewrite Hp).
  pose proof (rewrite_second_byte (s ++ t ++ x ++ rest) Hr) as Hb.
  unfold mbind at 1, prog_bind at 1. unfold mbind at 1, prog_bind at 1 in Hb.
  destruct (rewrite_payload_type _ _) as [l [u|e| |]]; [|done..].
  erewrite prog_step by exact Hb.
  set (b2 := second_byte r second).
  erewrite prog_step by (by apply (copy_field_middle 2 [first; b2] s)). cbn [app].
  set (s' := from_option _ s _).
  assert (length s' = 2%nat) as Hs'.
  { unfold s'. destruct (rw_sequence_number r); [apply length_to_be_bytes|done]. }
  erewrite prog_step; [|apply (copy_field_middle 4 (first :: b2 :: s') t); [|done];
    unfold len; cbn [length]; lia].
  set (t' := from_option _ t _). cbn [app].
  assert (length t' = 4%nat) as Ht'.
  { unfold t'. destruct (rw_timestamp r); [apply length_to_be_bytes|done]. }
  rewrite (app_assoc s' t').
  etrans; [apply (copy_field_middle 4 (first :: b2 :: s' ++ t') x rest);
    [unfold len; cbn [length]; rewrite length_app; lia|done]|].
  cbn. by rewrite <- !app_assoc.
Qed.
End ApplyShape.

Lemma default_field n (field : option Z) (old : bytes) :
  (forall v, field = Some v -> fits (8 * Z.of_nat n) v) ->
  from_be_bytes (from_option (to_be_bytes n) old field) = default (from_be_bytes old) field.
Proof. destruct field as [v|]; cbn; [|done]. intros H. by apply from_to_be_bytes, H. Qed.

Lemma length_field n (field : option Z) (old : bytes) :
  length old = n -> length (from_option (to_be_bytes n) old field) = n.
Proof. destruct field; cbn; [|done]. intros _. apply length_to_be_bytes. Qed.

Lemma bytes_ok_field n (field : option Z) (old : bytes) :
  bytes_ok old -> bytes_ok (from_option (to_be_bytes n) old field).
Proof. destruct field; cbn; [|done]. intros _. apply to_be_bytes_ok. Qed.

Lemma apply_parse r input p :
  rust_slice input -> rewrite_ok r -> parse input = Ok p ->
  exists output, apply r input = (output, Ok tt) /\
    len output = len input /\ drop 12 output = drop 12 input /\ bytes_ok output /\
    parse output = Ok (with_header (rewrite_header r (header p)) p).
Proof.
  intros [Hin _] Hr Hp.
  assert (12 <= len input) as H12.
  { unfold parse, FIXED_HEADER_LEN in Hp. inv_ok Hp. lia. }
  destruct (split_header input H12) as (first & second & s & t & x & rest & -> & Hs & Ht & Hx).
  eexists. split; [by eapply apply_shape|].
  set (s' := from_option _ s _). set (t' := from_option _ t _). set (x' := from_option _ x _).
  assert (length s' = 2%nat /\ length t' = 4%nat /\ length x' = 4%nat) as (Hs' & Ht' & Hx')
    by (split_and!; by apply length_field).
  assert (u8 second) as Hsec by (apply bytes_ok_cons in Hin as [_ [? _]%bytes_ok_cons]; done).
  destruct (second_byte_spec r second Hr Hsec) as (Hsec' & Hmark & Hpt).
  destruct Hr as (_ & Hseq & Hts & Hss). split_and!.
  - unfold len. cbn [length]. rewrite !length_app. lia.
  - replace 12%nat with (length (first :: second :: s ++ t ++ x))
      by (cbn [length]; rewrite !length_app; lia).
    change (first :: second :: s ++ t ++ x ++ rest) with ((first :: second :: s) ++ t ++ x ++ rest).
    rewrite (app_assoc t), (app_assoc (first :: second :: s)). rewrite drop_app_length.
    change (first :: second_byte r second :: s' ++ t' ++ x' ++ rest)
      with ((first :: second_byte r second :: s') ++ t' ++ x' ++ rest).
    rewrite (app_assoc t'), (app_assoc (_ :: _ :: s')). apply drop_app_length'.
    cbn [length app]. rewrite !length_app. cbn [length]. lia.
  - rewrite !bytes_ok_cons, !bytes_ok_app in Hin. destruct Hin as (? & _ & ? & ? & ? & ?).
    rewrite !bytes_ok_cons, !bytes_ok_app. split_and!; auto; by apply bytes_ok_field.
  - rewrite (parse_fixed first second s t x rest) in Hp by done.
    rewrite (parse_fixed first (second_byte r second) s' t' x' rest) by done.
    inv_ok Hp. rewrite Hstep. cbn [reject_if mbind outcome_bind].
    replace (parse_tail first (first :: second_byte r second :: s' ++ t' ++ x' ++ rest))
      with (Ok (E:=RtpError) a0).
    2:{ rewrite <- Hstep0.
        pose proof (parse_tail_prefix (first :: second :: s ++ t ++ x)
          (first :: second_byte r second :: s' ++ t' ++ x') rest) as Heq.
        cbn in Heq. rewrite <- !app_assoc in Heq. apply Heq;
          unfold len; cbn [length]; rewrite !length_app; lia. }
    open_tuples. injection Hp as <-. cbn. unfold with_header, rewrite_header. cbn.
    rewrite Hmark, Hpt. unfold s', t', x'. by rewrite !default_field.
Qed.

(** ** The clear header length agrees with the full parser *)
Lemma read_csrcs_bound n input p acc p' acc' :
  read_csrcs n input p acc = Ok (p', acc') -> p <= len input -> p' <= len input.
Proof.
  revert p acc. induction n as [|n IH]; intros p acc; [by intros [= -> _]|].
  cbn. intros (v & Hv & H)%bind_Ok _. apply IH in H; [done|].
  apply read_be_Ok in Hv as (l1 & b & l2 & -> & <- & Hb & _). unfold len in *.
  rewrite !length_app. lia.
Qed.

Lemma get_to_Some {A} (l : list A) n : 0 <= n <= len l -> exists v, get_to l n = Some v.
Proof. intros H. apply get_range_is_Some. lia. Qed.

(** Inversion of the two halves of the parser. *)
Lemma parse_Ok input p : parse input = Ok p ->
  12 <= len input /\ exists first, get input 0 = Some first /\ Z.shiftr first 6 = 2 /\
  parse_tail first input =
    Ok (csrcs (header p), header_len p, extension_format p, extension_data p,
        extensions p, payload p, padding_len p).
Proof.
  unfold parse, FIXED_HEADER_LEN. intros (u & Hl%reject_if_Ok & H)%bind_Ok.
  apply bind_Ok in H as (first & Hf & H). apply bind_Ok in H as (u' & Hv%reject_if_Ok & H).
  apply bind_Ok in H as (a & Ht & H). open_tuples. inv_ok H. subst p. cbn.
  split; [lia|]. exists first. split_and!; [|lia|done].
  unfold index, or_panic in Hf. by case_match; simplify_eq.
Qed.

Lemma parse_tail_Ok first input cs pos f d xs pl pad :
  parse_tail first input = Ok (cs, pos, f, d, xs, pl, pad) ->
  exists pos0 body,
    read_csrcs (Z.to_nat (Z.land first 0x0f)) input 12 [] = Ok (pos0, cs) /\
    parse_extension_block (has_bit first 0x10) input pos0 = Ok (pos, f, d, xs) /\
    get_from input pos = Some body /\ parse_padding (has_bit first 0x20) body = Ok pad /\
    pad <= len body /\ get_to body (len body - pad) = Some pl.
Proof.
  unfold parse_tail, FIXED_HEADER_LEN. intros ([pos0 cs0] & H1 & H)%bind_Ok.
  apply bind_Ok in H as ([[[pos1 f1] d1] xs1] & H2 & H).
  apply bind_Ok in H as (body & H3%ok_or_Ok & H). apply bind_Ok in H as (pad0 & H4 & H).
  apply bind_Ok in H as (n & Hn%ok_or_Ok & H). apply bind_Ok in H as (pl0 & H5%ok_or_Ok & H).
  apply checked_sub_Some in Hn as [-> Hn]. simplify_eq.
  exists pos0, body. split_and!; done || lia.
Qed.

(** Whenever the complete packet parses, the header length
    computed from the clear header alone, as SRTP does before decrypting, is the
    same as the one of the parsed packet. *)
Lemma header_length_agrees input p :
  rust_slice input -> parse input = Ok p ->
  parse_header_length input = Ok (header_len p).
Proof.
  intros [_ Hlen] (H12 & first & Hfirst & Hv & Ht)%parse_Ok.
  apply parse_tail_Ok in Ht as (pos0 & body & Hcs & Hx & Hbody & _).
  unfold parse_header_length, FIXED_HEADER_LEN, index. rewrite Hfirst.
  replace (len input <? 12) with false by lia. cbn [reject_if or_panic mbind outcome_bind].
  rewrite Hv. cbn [reject_if negb Z.eqb Pos.eqb mbind outcome_bind].
  pose proof (Zland_bound 0x0f first ltac:(lia)).
  pose proof (read_csrcs_bound _ _ _ _ _ _ Hcs ltac:(lia)) as Hb.
  apply read_csrcs_position in Hcs. rewrite Z2Nat.id in Hcs by lia.
  rewrite checked_add_fits by mlia. cbn [ok_or mbind outcome_bind].
  replace (12 + Z.land first 15 * 4) with pos0 by lia.
  destruct (get_to_Some input pos0) as [v0 ->]; [lia|]. cbn [ok_or mbind outcome_bind].
  unfold parse_extension_block in Hx. destruct (has_bit first 16); [|by injection Hx as -> _ _ _].
  apply bind_Ok in Hx as (prof & _ & Hx). apply bind_Ok in Hx as (words & -> & Hx).
  apply bind_Ok in Hx as (bl & [-> Hbl]%ok_or_Ok%checked_mul_Some & Hx). apply bind_Ok in Hx as (e & [-> He]%ok_or_Ok%checked_add_Some & Hx).
  apply bind_Ok in Hx as (data & Hd%ok_or_Ok%get_range_len & Hx). apply bind_Ok in Hx as (xs & _ & Hx).
  injection Hx as Hpos _ _ _.
  cbn [mbind outcome_bind]. rewrite checked_add_fits by mlia.
  cbn [mbind option_bind]. rewrite checked_add_fits by done. cbn [ok_or mbind outcome_bind].
  pose_len. destruct (get_to_Some input (pos0 + 4 + words * 4)) as [v1 ->]; [lia|].
  cbn. by f_equal.
Qed.

(** ** Building and parsing *)
Import PacketBuilder.

Definition first_byte (padded has_extension : bool) (count : Z) : Z :=
  Z.lor (Z.lor (Z.lor (Z.shiftl 2 6) (Z.shiftl (from_bool padded) 5))
               (Z.shiftl (from_bool has_extension) 4)) count.

Lemma first_byte_spec padded has_extension count : 0 <= count <= 15 ->
  let b := first_byte padded has_extension count in
  Z.shiftr b 6 = 2 /\ has_bit b 0x20 = padded /\ has_bit b 0x10 = has_extension /\
  Z.land b 0x0f = count.
Proof.
  intros Hc.
  assert (forallb (fun c => let b := first_byte padded has_extension c in
    (Z.shiftr b 6 =? 2) && eqb (has_bit b 0x20) padded && eqb (has_bit b 0x10) has_extension &&
    (Z.land b 0x0f =? c)) (seqZ 0 16) = true) as H
    by (destruct padded, has_extension; vm_compute; reflexivity).
  apply (forallb_seqZ _ _ _ count) in H; [|lia]. cbn beta zeta in *.
  rewrite !andb_true_iff, !eqb_true_iff in H. destruct H as [[[H1 H2] H3] H4].
  split_and!; done || lia.
Qed.

Lemma second_byte_built m pt : 0 <= pt <= 127 ->
  let b := Z.lor (Z.shiftl (from_bool m) 7) pt in
  has_bit b 0x80 = m /\ Z.land b 0x7f = pt.
Proof.
  intros Hpt.
  assert (forallb (fun pt => let b := Z.lor (Z.shiftl (from_bool m) 7) pt in
    eqb (has_bit b 0x80) m && (Z.land b 0x7f =? pt)) (seqZ 0 128) = true) as H
    by (destruct m; vm_compute; reflexivity).
  apply (forallb_seqZ _ _ _ pt) in H; [|lia]. cbn beta zeta in *.
  rewrite !andb_true_iff, !eqb_true_iff in H. split; [naive_solver|lia].
Qed.

(** The bytes of the extension block and of the padding. *)
Definition extension_block (format : ExtensionFormat) (words : Z) (data : bytes) : bytes :=
  to_be_bytes 2 (profile format) ++ to_be_bytes 2 words ++ data.
Definition padding_bytes (n : Z) : bytes :=
  if 0 <? n then replicateZ (n - 1) 0 ++ [n] else [].

Lemma resize_grow {A} (l : list A) n x : len l <= n -> resize l n x = l ++ replicateZ (n - len l) x.
Proof.
  intros H. unfold resize. destruct (Z.leb_spec n (len l)); [|done].
  assert (n = len l) as -> by lia. replace (len l - len l) with 0 by lia.
  unfold replicateZ. cbn. rewrite app_nil_r. apply take_ge. unfold len. lia.
Qed.

(** [resize] to the padded length followed by the write of the last byte. *)
Lemma padding_written (l : bytes) n : 0 < n ->
  let output := resize l (len l + n) 0 in
  last output <> None /\
  <[Nat.pred (length output) := n]> output = l ++ padding_bytes n.
Proof.
  intros Hn. rewrite resize_grow by lia. replace (len l + n - len l) with n by lia.
  unfold padding_bytes. replace (0 <? n) with true by lia.
  assert (replicateZ n 0 = replicateZ (n - 1) 0 ++ [0]) as ->.
  { unfold replicateZ. replace (Z.to_nat n) with (Z.to_nat (n - 1) + 1)%nat by lia.
    by rewrite replicate_add. }
  cbv zeta. rewrite !app_assoc. split; [by rewrite last_snoc|].
  rewrite length_app, Nat.add_1_r. cbn [Nat.pred].
  rewrite insert_app_r_alt by lia. by rewrite Nat.sub_diag.
Qed.

Lemma len_be_list n (l : list Z) : len (l ≫= to_be_bytes n) = Z.of_nat n * len l.
Proof. induction l as [|v l IH]; cbn; [unfold len; cbn; lia|]. rewrite len_app, IH. slia. Qed.

Lemma pad_to_word x : 0 <= x ->
  let padded := x + (4 - x mod 4) mod 4 in
  x <= padded /\ 4 * (padded / 4) = padded.
Proof. intros Hx. cbv zeta. Z.to_euclidean_division_equations. lia. Qed.

(** [block] is what [build] writes for these extensions. *)
Definition block_for (format : option ExtensionFormat) (xs : list HeaderExtension) (block : bytes)
    : Prop :=
  match format with
  | None => block = []
  | Some format => exists data (k : nat) words,
      encode_extensions format xs = Ok data /\ u16 words /\
      4 * words = len data + Z.of_nat k /\
      block = extension_block format words (data ++ replicate k 0)
  end.

Lemma extension_part format xs xd :
  match format with
  | None => Ok None
  | Some format => Some <$> encode_extensions format xs
  end = Ok (E:=RtpError) xd ->
  let xlen := match xd with None => 0 | Some data => len data end in
  let padded := xlen + (4 - xlen mod 4) mod 4 in
  padded / 4 <= umax 16 ->
  exists block, block_for format xs block /\
    len block = (if xd is Some _ then 4 + padded else 0) /\
    (if xd is Some _ then true else false) = (if format is Some _ then true else false) /\
    forall pre : bytes,
      match format, xd with
      | Some format, Some data =>
          let output := pre ++ to_be_bytes 2 (profile format) ++ to_be_bytes 2 (padded / 4) ++ data in
          resize output (len output + (padded - len data)) 0
      | _, _ => pre
      end = pre ++ block.
Proof.
  destruct format as [format|]; cbv zeta.
  - destruct (encode_extensions format xs) as [data| | |] eqn:Henc; cbn; intros [= <-] Hw.
    destruct (pad_to_word (len data) (len_nonneg data)) as [Hge Hdiv].
    set (padded := len data + _) in *. clearbody padded. pose_len.
    exists (extension_block format (padded / 4) (data ++ replicateZ (padded - len data) 0)).
    split_and!; [|unfold extension_block; slia|done|].
    + exists data, (Z.to_nat (padded - len data)), (padded / 4).
      split_and!; [done|mlia|lia|done].
    + intros pre. rewrite resize_grow by lia. unfold extension_block.
      replace (_ + (padded - len data) - _) with (padded - len data) by lia.
      by rewrite <- !app_assoc.
  - intros [= <-] _. exists []. split_and!; try done. intros pre. by rewrite app_nil_r.
Qed.

Lemma build_shape b output : build b = Ok output -> 0 <= b_padding_len b ->
  let h := b_header b in
  payload_type h <= 127 /\ len (csrcs h) <= 15 /\ b_padding_len b <= 255 /\
  len output <= MAX_PACKET_LEN /\
  exists block, block_for (b_extension_format b) (b_extensions b) block /\
    output = first_byte (0 <? b_padding_len b)
               (if b_extension_format b is Some _ then true else false) (len (csrcs h))
      :: Z.lor (Z.shiftl (from_bool (marker h)) 7) (payload_type h)
      :: to_be_bytes 2 (sequence_number h) ++ to_be_bytes 4 (timestamp h) ++
         to_be_bytes 4 (ssrc h) ++ (csrcs h ≫= to_be_bytes 4) ++ block ++
         b_payload b ++ padding_bytes (b_padding_len b).
Proof.
  intros H Hpad h. unfold build in H.
  apply bind_Ok in H as (u & Hval & H). apply bind_Ok in H as (xd & Hxd & H).
  apply bind_Ok in H as (padded & [-> Hpadmax]%ok_or_Ok%checked_add_Some & H).
  apply bind_Ok in H as (words & [-> Hw]%ok_or_Ok%try_from_Some & H).
  apply bind_Ok in H as (total & Ht%ok_or_Ok & H). apply bind_Ok in H as (u' & Hmax%reject_if_Ok & H).
  destruct (extension_part _ _ _ Hxd (proj2 Hw)) as (block & Hblock & Hlen & Hflag & Hout).
  rewrite Hflag, Hout in H. clear Hout Hxd. set (padded := _ + _) in *. clearbody padded.
  unfold validate_builder in Hval. fold h in Hval, Ht, H. inv_ok Hval.
  apply bind_Some in Ht as (l1 & [-> _]%checked_add_Some & Ht).
  apply bind_Some in Ht as (l2 & [-> _]%checked_add_Some & Ht). rewrite <- Hlen in Ht.
  apply bind_Some in Ht as (l3 & [-> _]%checked_add_Some & [-> _]%checked_add_Some).
  set (has_ext := if b_extension_format b is Some _ then true else false) in *.
  unfold encode_fixed_header in H. rewrite (try_from_fits 8) in H by (pose_len; mlia).
  cbn [app default] in H.
  match type of H with context [resize ?l _ _] => remember l as body eqn:Hbody end.
  assert (FIXED_HEADER_LEN + len (csrcs h) * 4 + len block + len (b_payload b) = len body) as Hl.
  { rewrite Hbody. unfold FIXED_HEADER_LEN. autorewrite with len. rewrite len_be_list. lia. }
  rewrite Hl in *. assert (output = body ++ padding_bytes (b_padding_len b)) as ->.
  { destruct (Z.ltb_spec 0 (b_padding_len b)).
    - destruct (padding_written body (b_padding_len b)) as [_ Hp]; [done|].
      apply bind_Ok in H as (x & _ & H). rewrite (try_from_fits 8) in H by mlia.
      cbn in H. injection H as <-. exact Hp.
    - injection H as <-. unfold padding_bytes. rewrite (proj2 (Z.ltb_ge _ _)) by lia.
      by rewrite app_nil_r. }
  assert (len (padding_bytes (b_padding_len b)) = b_padding_len b) as Hpl.
  { unfold padding_bytes. destruct (Z.ltb_spec 0 (b_padding_len b)); slia. }
  split_and!; [lia|lia|lia|rewrite len_app; lia|].
  exists block. split; [done|]. rewrite Hbody. cbn. by rewrite <- !app_assoc.
Qed.

Lemma read_csrcs_encoded cs pre acc rest :
  Forall u32 cs -> len pre + 4 * len cs < 2 ^ 63 ->
  read_csrcs (length cs) (pre ++ (cs ≫= to_be_bytes 4) ++ rest) (len pre) acc
    = Ok (len pre + 4 * len cs, acc ++ cs).
Proof.
  intros Hcs. revert pre acc. induction Hcs as [|c cs Hc Hcs IH]; intros pre acc Hb.
  { cbn. rewrite app_nil_r. do 2 f_equal. unfold len; cbn; lia. }
  rewrite len_cons in *. pose_len. cbn -[to_be_bytes]. unfold read_u32.
  rewrite read_be_skip by mlia. rewrite Z.sub_diag, <- app_assoc, read_be_here by (done || mlia).
  cbn -[to_be_bytes]. rewrite app_assoc.
  replace (len pre + 4) with (len (pre ++ to_be_bytes 4 c)) by slia.
  rewrite IH by slia. rewrite <- app_assoc. do 2 f_equal. slia.
Qed.

Lemma parse_block_encoded format xs block pre rest :
  block_for format xs block -> (format = None -> xs = []) ->
  (forall f, format = Some f -> u16 (profile f) /\ from_profile (profile f) = f) ->
  len pre + len block < 2 ^ 63 ->
  exists d, parse_extension_block (if format is Some _ then true else false)
      (pre ++ block ++ rest) (len pre) = Ok (len pre + len block, format, d, xs).
Proof.
  intros Hb Hnone Hfmt Hlen. destruct format as [f|]; cbn [block_for] in Hb.
  - destruct Hb as (data & k & words & Henc & Hw & Hk & ->). clear Hnone.
    destruct (Hfmt f eq_refl) as [Hprof Hfrom]. unfold extension_block in *.
    assert (Hkl : len (replicate k 0) = Z.of_nat k) by (unfold len; rewrite length_replicate; lia).
    rewrite !len_app, !len_to_be_bytes, Hkl in Hlen. pose_len. rewrite <- !app_assoc.
    exists (Some (data ++ replicate k 0)). cbn [parse_extension_block]. unfold read_u16.
    rewrite (read_be_skip 2 _ pre _ (len pre)), Z.sub_diag, read_be_here by (done || mlia).
    cbn [mbind outcome_bind]. rewrite app_assoc. replace (len pre + 2) with (len (pre ++ to_be_bytes 2 (profile f))) by slia.
    rewrite read_be_skip, Z.sub_diag, read_be_here by (done || slia || mlia).
    cbn [mbind outcome_bind]. rewrite checked_mul_fits by mlia. cbn [ok_or mbind outcome_bind].
    rewrite checked_add_fits by mlia. cbn [ok_or mbind outcome_bind].
    rewrite (proj2 (get_range_Some _ _ _ (data ++ replicate k 0))); cycle 1.
    { exists (pre ++ to_be_bytes 2 (profile f) ++ to_be_bytes 2 words), rest.
      rewrite <- !app_assoc. split_and!; [done|slia|]. rewrite len_app, Hkl. lia. }
    cbn [ok_or mbind outcome_bind]. rewrite Hfrom.
    rewrite (parse_encode_extensions f xs data k Henc) by lia.
    cbn [mbind outcome_bind]. do 4 f_equal. rewrite !len_app, !len_to_be_bytes, Hkl. lia.
  - subst block. rewrite Hnone by done. exists None. cbn. do 4 f_equal. unfold len; cbn; lia.
Qed.

Lemma parse_padding_built (l : bytes) n : 0 <= n <= 255 ->
  parse_padding (0 <? n) (l ++ padding_bytes n) = Ok n.
Proof.
  intros Hn. unfold parse_padding, padding_bytes. destruct (Z.ltb_spec 0 n); cbn; [|f_equal; lia].
  rewrite app_assoc, last_snoc. cbn. pose_len.
  rewrite (proj2 (Z.eqb_neq n 0)), (proj2 (Z.ltb_ge _ n)) by slia. done.
Qed.

(** The values [PacketBuilder] can hold: machine-width fields, and an extension
    profile that is not one of the two profiles it would be confused with. *)
Definition builder_ok (b : t) : Prop :=
  let h := b_header b in
  u8 (payload_type h) /\ u16 (sequence_number h) /\ u32 (timestamp h) /\ u32 (ssrc h) /\
  Forall u32 (csrcs h) /\ 0 <= b_padding_len b /\
  (b_extension_format b = None -> b_extensions b = []) /\
  (forall f, b_extension_format b = Some f -> u16 (profile f) /\ from_profile (profile f) = f).

Lemma build_parse b output : builder_ok b -> build b = Ok output ->
  len output <= MAX_PACKET_LEN /\ exists hl d, parse output =
    Ok {| header := b_header b; header_len := hl; extension_format := b_extension_format b;
          extension_data := d; extensions := b_extensions b; payload := b_payload b;
          padding_len := b_padding_len b |} /\
    len output = hl + len (b_payload b) + b_padding_len b.
Proof.
  intros (Hpt & Hseq & Hts & Hss & Hcs & Hpad & Hnone & Hfmt) Hb.
  destruct (build_shape b output Hb Hpad) as (Hpt' & Hcs' & Hpad' & Hmax & block & Hblock & ->).
  split; [done|]. clear Hb. set (h := b_header b) in *.
  set (format := b_extension_format b) in *. pose_len.
  destruct (first_byte_spec (0 <? b_padding_len b) (if format is Some _ then true else false)
    (len (csrcs h))) as (Hv & Hp & Hx & Hc); [lia|]. set (first := first_byte _ _ _) in *.
  destruct (second_byte_built (marker h) (payload_type h)) as [Hm Hpt2]; [mlia|].
  set (second := Z.lor _ (payload_type h)) in *.
  rewrite (parse_fixed first second (to_be_bytes 2 (sequence_number h)) (to_be_bytes 4 (timestamp h))
    (to_be_bytes 4 (ssrc h)) _ (length_to_be_bytes _ _) (length_to_be_bytes _ _)
    (length_to_be_bytes _ _) _ eq_refl).
  rewrite Hv. cbn [reject_if negb Z.eqb Pos.eqb mbind outcome_bind].
  set (pre := first :: second :: to_be_bytes 2 (sequence_number h) ++
    to_be_bytes 4 (timestamp h) ++ to_be_bytes 4 (ssrc h)).
  assert (len pre = 12) as Hpre by (unfold pre; slia).
  set (cbytes := csrcs h ≫= to_be_bytes 4). set (pad := padding_bytes (b_padding_len b)).
  assert (len cbytes = 4 * len (csrcs h)) as Hcl by apply len_be_list.
  replace (first :: _ :: _ ++ _) with (pre ++ cbytes ++ block ++ b_payload b ++ pad)
    by (unfold pre; by rewrite <- !app_comm_cons, <- !app_assoc).
  match type of Hmax with len ?l <= _ => assert (len l = len (pre ++ cbytes ++ block ++ b_payload b ++ pad))
    as Hl by (unfold pre; by rewrite <- !app_comm_cons, <- !app_assoc) end.
  rewrite Hl in Hmax. clear Hl. rewrite !len_app, Hpre, Hcl in Hmax |- *. unfold MAX_PACKET_LEN in Hmax.
  unfold parse_tail. rewrite Hp, Hx, Hc. unfold FIXED_HEADER_LEN. rewrite <- Hpre.
  replace (Z.to_nat (len (csrcs h))) with (length (csrcs h)) by (unfold len; lia).
  unfold cbytes at 1. rewrite read_csrcs_encoded; [|done|pose_len; lia]. cbn [mbind outcome_bind app].
  replace (len pre + 4 * len (csrcs h)) with (len (pre ++ cbytes)) by (rewrite len_app; lia).
  destruct (parse_block_encoded format (b_extensions b) block (pre ++ cbytes) (b_payload b ++ pad))
    as [d Hd]; [done..|rewrite len_app; pose_len; lia|].
  fold cbytes. rewrite (app_assoc pre cbytes), Hd.
  cbn [mbind outcome_bind].
  replace (get_from _ _) with (Some (b_payload b ++ pad)); cycle 1.
  { symmetry. rewrite (app_assoc (pre ++ cbytes)). apply get_from_app.
    rewrite !len_app. lia. }
  cbn [ok_or mbind outcome_bind]. unfold pad. rewrite parse_padding_built by lia.
  cbn [mbind outcome_bind]. fold pad.
  assert (len pad = b_padding_len b) as Hpl.
  { unfold pad, padding_bytes. destruct (Z.ltb_spec 0 (b_padding_len b)); slia. }
  rewrite (proj2 (checked_sub_Some _ _ (len (b_payload b)))) by (rewrite len_app; pose_len; lia).
  cbn [ok_or mbind outcome_bind]. unfold get_to. rewrite get_range_exact by done.
  cbn [ok_or mbind outcome_bind]. rewrite Hm, Hpt2, !from_to_be_bytes by done.
  eexists _, d. split; [by destruct h|]. rewrite !len_app, Hpl. lia.
Qed.
