(* ===== verification/RtpRewrite.v ===== *)
(** * webrtc/rtp: what a parsed packet is, and what the header-extension rewrite does

    Values that come out of [parse] have their machine widths, so they satisfy the
    precondition of [build]; the rewrite of [rewrite_header_extensions] is therefore
    an exact edit of the extension list. *)
From S2P Require Import Prelude Words Slices RtpExtension RtpPacket.
Import PacketBuilder.

Lemma read_be_fits {E} n (e : E) input p v :
  bytes_ok input -> read_be n e input p = Ok v -> fits (8 * Z.of_nat n) v.
Proof.
  intros Hin (l1 & b & l2 & -> & _ & <- & _ & ->)%read_be_Ok.
  rewrite !bytes_ok_app in Hin. unfold fits. rewrite <- pow256.
  apply from_be_bytes_bound, Hin.
Qed.

Lemma read_csrcs_fits n input p acc p' cs :
  bytes_ok input -> Forall u32 acc -> read_csrcs n input p acc = Ok (p', cs) -> Forall u32 cs.
Proof.
  intros Hin. revert p acc. induction n as [|n IH]; cbn; intros p acc Hacc H.
  { by injection H as <- <-. }
  apply bind_Ok in H as (c & Hc%read_be_fits & H); [|done].
  eapply IH; [|done]. apply Forall_app. auto.
Qed.

Lemma read_csrcs_length n input p acc p' cs :
  read_csrcs n input p acc = Ok (p', cs) -> length cs = (length acc + n)%nat.
Proof.
  revert p acc. induction n as [|n IH]; cbn; intros p acc H; [injection H as _ <-; lia|].
  apply bind_Ok in H as (c & _ & H). apply IH in H. rewrite length_app in H. cbn in H. lia.
Qed.

Lemma from_profile_stable p : u16 p -> u16 (profile (from_profile p)) /\
  from_profile (profile (from_profile p)) = from_profile p.
Proof.
  intros Hp. destruct (from_profile p) as [| |q] eqn:E; [by split..|].
  unfold from_profile in *. destruct (p =? _) eqn:E1; [done|].
  destruct (Z.land p _ =? _) eqn:E2; [done|]. injection E as ->. cbn [profile].
  by rewrite E1, E2.
Qed.

Lemma parse_extension_block_wf b input p p' f d xs :
  bytes_ok input -> parse_extension_block b input p = Ok (p', f, d, xs) ->
  (f = None -> xs = []) /\
  (forall g, f = Some g -> u16 (profile g) /\ from_profile (profile g) = g).
Proof.
  intros Hin. unfold parse_extension_block. destruct b; [|intros [= <- <- <- <-]; done].
  intros (prof & Hprof%read_be_fits & H)%bind_Ok; [|done].
  apply bind_Ok in H as (w & _ & H). apply bind_Ok in H as (bl & _ & H).
  apply bind_Ok in H as (e & _ & H). apply bind_Ok in H as (data & _ & H).
  apply bind_Ok in H as (parsed & _ & H). simplify_eq. split; [done|].
  intros g [= <-]. by apply from_profile_stable.
Qed.

Lemma parse_padding_bound b l n : bytes_ok l -> parse_padding b l = Ok n -> 0 <= n <= 255.
Proof.
  intros Hl. unfold parse_padding. destruct b; cbn; [|intros [= <-]; lia].
  intros (x & Hx%ok_or_Ok & H)%bind_Ok. case_match; simplify_eq.
  apply last_Some_elem_of in Hx. pose proof (proj1 (Forall_forall _ _) Hl _ Hx). mlia.
Qed.

(** The builder holding the fields of a parsed packet, as [rewrite_header_extensions]
    fills it. *)
Definition rebuilt (p : Packet) (format : option ExtensionFormat) (xs : list HeaderExtension) : t :=
  {| b_header := header p; b_payload := payload p; b_extension_format := format;
     b_extensions := xs; b_padding_len := padding_len p |}.

Lemma parse_wf input p : rust_slice input -> parse input = Ok p ->
  builder_ok (rebuilt p (extension_format p) (extensions p)) /\
  payload_type (header p) <= 127 /\ len (csrcs (header p)) <= 15 /\ padding_len p <= 255.
Proof.
  intros [Hin Hmax] Hp. destruct (parse_Ok _ _ Hp) as (H12 & first & Hf & Hv & Ht).
  apply parse_tail_Ok in Ht as (pos0 & body & Hcs & Hx & Hbody & Hpad & _).
  assert (bytes_ok body) as Hbok.
  { apply get_range_Some in Hbody as (l1 & l2 & -> & _). rewrite !bytes_ok_app in Hin. apply Hin. }
  apply parse_extension_block_wf in Hx as [Hnone Hsome]; [|done].
  apply parse_padding_bound in Hpad; [|done].
  pose proof (read_csrcs_fits _ _ _ _ _ _ Hin (Forall_nil_2 _) Hcs) as Hcsf.
  assert (len (csrcs (header p)) <= 15) as Hcl.
  { pose proof (Zland_bound 0x0f first ltac:(lia)) as Hl.
    apply read_csrcs_length in Hcs. unfold len in *. cbn in Hcs. lia. }
  unfold parse in Hp. apply bind_Ok in Hp as (? & _ & Hp). apply bind_Ok in Hp as (f' & _ & Hp).
  apply bind_Ok in Hp as (? & _ & Hp). apply bind_Ok in Hp as (a & _ & Hp). open_tuples.
  apply bind_Ok in Hp as (second & _ & Hp).
  apply bind_Ok in Hp as (sn & Hsn%read_be_fits & Hp); [|done].
  apply bind_Ok in Hp as (ts & Hts%read_be_fits & Hp); [|done].
  apply bind_Ok in Hp as (ss & Hss%read_be_fits & Hp); [|done].
  injection Hp as <-. cbn in *. pose proof (Zland_bound 0x7f second ltac:(lia)).
  unfold builder_ok; cbn. split_and!; try done; try mlia.
Qed.

Lemma rewrite_header_extensions_spec input rewrites p : rewrites <> [] -> parse input = Ok p ->
  rewrite_header_extensions input rewrites =
    match extension_format p with
    | Some (Opaque _) | None => Err UnsupportedExtensionRewrite
    | Some format =>
        build (rebuilt p (Some format) (omap (rewrite_extension rewrites) (extensions p)))
    end.
Proof.
  intros Hne Hp. destruct rewrites as [|r rs]; [done|].
  unfold rewrite_header_extensions. rewrite Hp. cbn [mbind outcome_bind].
  by destruct p as [h hl [[]|] d xs pl pad]; destruct h.
Qed.

Lemma returns_validate_builder b : returns (validate_builder b).
Proof. unfold validate_builder. returns_steps. Qed.

Lemma returns_encode_loops xs out :
  returns (encode_one_byte_loop xs out) /\ returns (encode_two_byte_loop xs out).
Proof.
  revert out. induction xs as [|x xs IH]; intros out; cbn; [done|].
  unfold reject_if, ok_or. split; repeat case_match; cbn; try done; apply IH.
Qed.

Lemma returns_encode_extensions f xs : returns (encode_extensions f xs).
Proof. destruct f; cbn; [apply returns_encode_loops..|by destruct xs]. Qed.
#[export] Hint Resolve returns_validate_builder returns_encode_extensions : returns.

Lemma returns_build b : returns (build b).
Proof.
  unfold build. apply returns_bind; [auto with returns|]. intros _ _.
  apply returns_bind; [case_match; auto with returns|]. intros xd _. returns_steps.
Qed.

Lemma returns_rewrite_header_extensions input rewrites : returns (rewrite_header_extensions input rewrites).
Proof.
  destruct rewrites; [done|]. unfold rewrite_header_extensions.
  apply returns_bind; [auto with returns|]. intros p _.
  apply returns_bind; [auto with returns|]. intros f _. apply returns_build.
Qed.

Lemma encode_loops_not_unsupported xs out :
  encode_one_byte_loop xs out <> Err UnsupportedExtensionRewrite /\
  encode_two_byte_loop xs out <> Err UnsupportedExtensionRewrite.
Proof.
  revert out. induction xs as [|x xs IH]; intros out; cbn; [done|].
  unfold reject_if, ok_or. split; repeat case_match; cbn; try done; apply IH.
Qed.

Lemma build_not_unsupported b f : b_extension_format b = Some f -> rewritable f = true ->
  build b <> Err UnsupportedExtensionRewrite.
Proof.
  intros Hf Hr H. unfold build in H. rewrite Hf in H.
  apply bind_Err in H as [H|(u & _ & H)].
  { unfold validate_builder, reject_if in H. by repeat (case_match; try done). }
  apply bind_Err in H as [H|(xd & _ & H)].
  { destruct (encode_loops_not_unsupported (b_extensions b) []) as [H1 H2].
    destruct f; cbn in H; [unfold encode_one_byte in H|unfold encode_two_byte in H|done];
      unfold fmap, outcome_fmap in H; case_match; naive_solver. }
  repeat (apply bind_Err in H as [H|(? & _ & H)];
    [unfold ok_or, reject_if in H; by repeat (case_match; try done)|]).
  cbv zeta in H. case_match; [|done].
  repeat (apply bind_Err in H as [H|(? & _ & H)];
    [unfold ok_or, reject_if in H; by repeat (case_match; try done)|]). done.
Qed.

Lemma rewrite_extension_nil (xs : list HeaderExtension) : omap (rewrite_extension []) xs = xs.
Proof. induction xs as [|[] xs IH]; cbn; [done|]. by f_equal. Qed.

(** A successful header-extension rewrite, the empty list of rewrites included. *)
Lemma rewrite_extensions_Ok input rewrites p output : rust_slice input -> parse input = Ok p ->
  rewrite_header_extensions input rewrites = Ok output ->
  exists hl d, parse output =
    Ok {| header := header p; header_len := hl; extension_format := extension_format p;
          extension_data := d; extensions := omap (rewrite_extension rewrites) (extensions p);
          payload := payload p; padding_len := padding_len p |}.
Proof.
  intros Hin Hp H. destruct (decide (rewrites = [])) as [->|Hne].
  { injection H as <-. rewrite rewrite_extension_nil. exists (header_len p), (extension_data p).
    rewrite Hp. by destruct p. }
  rewrite (rewrite_header_extensions_spec _ _ p) in H by done.
  destruct (parse_wf _ _ Hin Hp) as [(?&?&?&?&?&?&_&Hok) _].
  destruct (extension_format p) as [f|] eqn:Hf; [|done].
  assert (build (rebuilt p (Some f) (omap (rewrite_extension rewrites) (extensions p))) = Ok output) as Hb
    by (by destruct f).
  apply build_parse in Hb as (_ & hl & d & Hparse & _); [by exists hl, d|].
  unfold builder_ok; cbn in *. split_and!; auto. done.
Qed.

(** [Packet::parse] comes back on every slice, and an accepted packet is laid out
    as RFC 3550 says: the header, then the payload, then the padding, and nothing else;
    its fields have their widths and [parse_header_length] finds the same header. *)
Theorem parse_sound input : rust_slice input ->
  returns (parse input) /\
  forall p, parse input = Ok p ->
    len input = header_len p + len (payload p) + padding_len p /\
    get_range input (header_len p) (header_len p + len (payload p)) = Some (payload p) /\
    parse_header_length input = Ok (header_len p) /\
    builder_ok (rebuilt p (extension_format p) (extensions p)).
Proof.
  intros Hin. split; [apply returns_parse|]. intros p Hp.
  destruct (parse_Ok _ _ Hp) as (H12 & first & Hf & Hv & Ht).
  apply parse_tail_Ok in Ht as (pos0 & body & _ & _ & Hbody & _ & Hpad & Hpl).
  split_and!; [..|by apply header_length_agrees|by eapply parse_wf].
  - apply get_range_len in Hbody, Hpl. lia.
  - apply get_range_Some in Hbody as (l1 & l2 & -> & <- & Hl).
    apply get_range_Some in Hpl as (b1 & b2 & -> & Hb1 & Hl2). apply len_zero_nil in Hb1 as ->.
    cbn [app]. rewrite <- app_assoc. apply get_range_Some. eauto.
Qed.

(** building a packet and parsing it gives back the header, the CSRC list, the
    extensions, the payload and the padding, and the packet respects the 65535-octet
    limit; [build] never panics, also on values it has to reject. *)
Theorem build_parse_roundtrip b : builder_ok b ->
  returns (build b) /\
  forall output, build b = Ok output ->
    len output <= MAX_PACKET_LEN /\
    exists hl d, parse output =
      Ok {| header := b_header b; header_len := hl; extension_format := b_extension_format b;
            extension_data := d; extensions := b_extensions b; payload := b_payload b;
            padding_len := b_padding_len b |} /\
      len output = hl + len (b_payload b) + b_padding_len b.
Proof. intros Hb. split; [apply returns_build|]. intros output. by apply build_parse. Qed.

(** rewriting header extensions keeps the fixed header, the CSRC list, the payload
    and the padding; the extensions of the result are those of the input with each
    listed identifier removed, renamed or given its new value, in order.  A packet
    without a rewritable extension block is refused. *)
Theorem rewrite_header_extensions_correct input rewrites p :
  rust_slice input -> rewrites <> [] -> parse input = Ok p ->
  match rewrite_header_extensions input rewrites with
  | Ok output =>
      exists hl d, parse output =
        Ok {| header := header p; header_len := hl; extension_format := extension_format p;
              extension_data := d;
              extensions := omap (rewrite_extension rewrites) (extensions p);
              payload := payload p; padding_len := padding_len p |}
  | Err e => e = UnsupportedExtensionRewrite <->
      forall f, extension_format p = Some f -> rewritable f = false
  | _ => False
  end.
Proof.
  intros Hin Hne Hp. pose proof (rewrite_header_extensions_spec input rewrites p Hne Hp) as Hspec.
  destruct (extension_format p) as [f|] eqn:Hf; [|by rewrite Hspec].
  destruct (decide (rewritable f = true)) as [Hr|Hr]; cycle 1.
  { rewrite Hspec. destruct f; cbn in Hr; try done. split; [|done]. by intros _ ? [= <-]. }
  set (b := rebuilt p (Some f) (omap (rewrite_extension rewrites) (extensions p))).
  assert (rewrite_header_extensions input rewrites = build b) as Heq by (rewrite Hspec; by destruct f).
  pose proof (returns_build b). rewrite <- Heq in *.
  destruct (rewrite_header_extensions input rewrites) as [output|e| |] eqn:Hbuild; [|..|done|done].
  - destruct (rewrite_extensions_Ok _ _ p _ Hin Hp Hbuild) as (hl & d & Hparse). rewrite Hf in Hparse. eauto.
  - split; [|intros Hall; by rewrite (Hall f) in Hr]. intros ->. exfalso. by eapply (build_not_unsupported b f).
Qed.

(** rewriting the fixed header in place always succeeds on a parsable packet, keeps
    the datagram length and every octet after the fixed header, and the result parses to
    the same packet with exactly the requested fields replaced. *)
Theorem apply_correct r input p :
  rust_slice input -> rewrite_ok r -> parse input = Ok p ->
  exists output, apply r input = (output, Ok tt) /\
    len output = len input /\ drop 12 output = drop 12 input /\
    parse output = Ok (with_header (rewrite_header r (header p)) p).
Proof.
  intros Hin Hr Hp. destruct (apply_parse r input p Hin Hr Hp) as (output & ? & ? & ? & _ & ?). eauto.
Qed.

(** ** A concrete packet: one CSRC, two one-byte extensions, two octets of padding *)
Definition example_builder : t :=
  {| b_header := {| marker := true; payload_type := 96; sequence_number := 65535;
                    timestamp := 4000000000; ssrc := 7; csrcs := [11] |};
     b_payload := [1; 2; 3]; b_extension_format := Some OneByte;
     b_extensions := [{| ext_id := 1; ext_value := [9] |}; {| ext_id := 3; ext_value := [8; 7] |}];
     b_padding_len := 2 |}.
Definition example_packet : bytes :=
  Eval vm_compute in match build example_builder with Ok b => b | _ => [] end.

Lemma example_builder_ok : builder_ok example_builder.
Proof. unfold builder_ok; cbn. eval_facts; try done. intros f [= <-]. done. Qed.
Lemma example_packet_ok : rust_slice example_packet.
Proof. split; [repeat constructor; eval_facts|eval_facts]. Qed.

Lemma build_parse_roundtrip_witness : len example_packet <= MAX_PACKET_LEN.
Proof. apply (proj2 (build_parse_roundtrip example_builder example_builder_ok)). vm_compute. reflexivity. Defined.

Lemma parse_sound_witness : exists p, parse example_packet = Ok p /\ parse_header_length example_packet = Ok (header_len p).
Proof.
  eexists. split; [vm_compute; reflexivity|].
  eapply (proj2 (parse_sound example_packet example_packet_ok)). vm_compute. reflexivity.
Defined.

Lemma rewrite_header_extensions_correct_witness :
  match rewrite_header_extensions example_packet
          [{| source_id := 3; destination_id := Some 5; replacement := None |}] with
  | Ok _ => True
  | _ => False
  end.
Proof.
  eassert (parse example_packet = Ok _) as Hp by (vm_compute; reflexivity).
  pose proof (rewrite_header_extensions_correct example_packet
    [{| source_id := 3; destination_id := Some 5; replacement := None |}] _ example_packet_ok
    ltac:(discriminate) Hp) as H.
  destruct (rewrite_header_extensions _ _) as [o|e| |] eqn:Heq; [exact I|..|exact H|exact H].
  vm_compute in Heq. discriminate Heq.
Defined.

Lemma apply_correct_witness : exists output,
  apply {| rw_marker := Some false; rw_payload_type := Some 100; rw_sequence_number := Some 4;
           rw_timestamp := None; rw_ssrc := Some 77 |} example_packet = (output, Ok tt) /\
  len output = len example_packet.
Proof.
  eassert (parse example_packet = Ok _) as Hp by (vm_compute; reflexivity).
  assert (rewrite_ok {| rw_marker := Some false; rw_payload_type := Some 100; rw_sequence_number := Some 4;
    rw_timestamp := None; rw_ssrc := Some 77 |}) as Hr
    by (split_and!; intros v; cbn; try discriminate; intros [= <-]; eval_facts).
  destruct (apply_correct _ example_packet _ example_packet_ok Hr Hp) as (o & H & Hl & _).
  exists o. split; [exact H|exact Hl].
Defined.
