(* ===== verification/RtpSequence.v ===== *)
(** * webrtc/rtp: sequence-number and timestamp extension (src/sequence.rs) *)
From S2P Require Import Prelude Words Slices.

(** Wrapping counters of width [modulus] are unrolled next to the highest value seen. *)
Definition extend_wrapping (highest value modulus : Z) : Z :=
  let half := modulus / 2 in
  let base := highest - highest mod modulus in
  let candidate := wrapping_add 64 base value in
  if saturating_add 64 candidate half <? highest then saturating_add 64 candidate modulus
  else if (saturating_add 64 highest half <? candidate) && (modulus <=? candidate)
       then candidate - modulus
       else candidate.

Module SequenceNumberExtender.
Record t := { highest : option Z }.
Definition new : t := {| highest := None |}.
Definition extend (self : t) (value : Z) : t * Z :=
  let extended := from_option (fun h => extend_wrapping h value (2 ^ 16)) value (highest self) in
  (if from_option (fun h => h <? extended) true (highest self)
   then {| highest := Some extended |} else self, extended).
End SequenceNumberExtender.

Module TimestampExtender.
Record t := { highest : option Z }.
Definition new : t := {| highest := None |}.
Definition extend (self : t) (value : Z) : t * Z :=
  let extended := from_option (fun h => extend_wrapping h value (2 ^ 32)) value (highest self) in
  (if from_option (fun h => h <? extended) true (highest self)
   then {| highest := Some extended |} else self, extended).
End TimestampExtender.

(** ** The candidate chosen is the true value

    [w] is the width of the counter on the wire: 16 for sequence numbers, 32 for
    timestamps.  Away from the last cycle of [u64], an index [i] less than half a
    cycle from the highest one is recovered from its [w] low bits. *)
Lemma extend_wrapping_near w h i : 0 < w <= 32 ->
  0 <= h < 2 ^ 64 - 2 * 2 ^ 32 -> 0 <= i -> Z.abs (i - h) < 2 ^ w / 2 ->
  extend_wrapping h (i mod 2 ^ w) (2 ^ w) = i.
Proof.
  intros Hw Hh Hi Hnear. unfold extend_wrapping, wrapping_add, saturating_add, umax.
  assert (2 ^ w = 2 * 2 ^ (w - 1)) as Hhalf.
  { rewrite <- Z.pow_succ_r by lia. f_equal; lia. }
  assert (2 ^ w <= 2 ^ 32) as H32 by (apply Z.pow_le_mono_r; lia).
  assert (0 < 2 ^ (w - 1)) as Hpos by (apply Z.pow_pos_nonneg; lia).
  set (m := 2 ^ w) in *. set (half := 2 ^ (w - 1)) in *.
  assert (m / 2 = half) as Hd by (rewrite Hhalf, Z.mul_comm; apply Z.div_mul; lia).
  rewrite Hd in *. clearbody m half. width.
  pose proof (Z.mod_pos_bound h m ltac:(lia)). pose proof (Z.mod_pos_bound i m ltac:(lia)).
  pose proof (Z.div_mod h m ltac:(lia)). pose proof (Z.div_mod i m ltac:(lia)).
  pose proof (Z.mod_le h m ltac:(lia) ltac:(lia)).
  rewrite (Z.mod_small (h - h mod m + i mod m)) by lia.
  assert (0 <= i / m) by (apply Z.div_pos; lia).
  assert (0 <= h / m) by (apply Z.div_pos; lia).
  assert (i / m = h / m \/ i / m = h / m + 1 \/ i / m = h / m - 1) as Hq by nia.
  set (q := h / m) in *. set (q' := i / m) in *. set (rh := h mod m) in *. set (ri := i mod m) in *.
  clearbody q q' rh ri.
  destruct Hq as [ -> | [ -> | -> ] ]; repeat case_match; lia.
Qed.

(** The index stream a receiver may see: each one is less than half a cycle away from
    the highest one received before it. *)
Fixpoint tracked (w h : Z) (idx : list Z) : Prop :=
  match idx with
  | [] => True
  | i :: idx => 0 <= i < 2 ^ 64 - 2 * 2 ^ 32 /\ Z.abs (i - h) < 2 ^ w / 2 /\
      tracked w (Z.max h i) idx
  end.

(** Feeding a list of wire values to an extender, collecting what it returns. *)
Fixpoint extend_all {T} (extend : T -> Z -> T * Z) (self : T) (values : list Z) : T * list Z :=
  match values with
  | [] => (self, [])
  | v :: values =>
      let '(self, e) := extend self v in
      let '(self, es) := extend_all extend self values in
      (self, e :: es)
  end.

(** Both extenders are the same machine at their own width. *)
Class Extender (T : Type) (w : Z) (extend : T -> Z -> T * Z) (start : T) (high : T -> option Z) := {
  extender_width : 0 < w <= 32;
  extender_fresh : high start = None;
  extender_step self v : let '(self', e) := extend self v in
    e = from_option (fun h => extend_wrapping h v (2 ^ w)) v (high self) /\
    high self' = Some (from_option (fun h => Z.max h e) e (high self)) }.

#[export] Instance sequence_extender : Extender SequenceNumberExtender.t 16
  SequenceNumberExtender.extend SequenceNumberExtender.new SequenceNumberExtender.highest.
Proof.
  split; [lia|done|]. intros [[h|]] v; cbn; [|done].
  case_match; cbn; split; try done; f_equal; lia.
Qed.

#[export] Instance timestamp_extender : Extender TimestampExtender.t 32
  TimestampExtender.extend TimestampExtender.new TimestampExtender.highest.
Proof.
  split; [lia|done|]. intros [[h|]] v; cbn; [|done].
  case_match; cbn; split; try done; f_equal; lia.
Qed.

Section Tracking.
Context {T : Type} {w : Z} {extend : T -> Z -> T * Z} {start : T} {high : T -> option Z}.
Context `{!Extender T w extend start high}.

Lemma extend_all_tracked self h idx : high self = Some h -> 0 <= h < 2 ^ 64 - 2 * 2 ^ 32 ->
  tracked w h idx ->
  (extend_all extend self ((fun i => i mod 2 ^ w) <$> idx)).2 = idx /\
  high (extend_all extend self ((fun i => i mod 2 ^ w) <$> idx)).1 = Some (foldl Z.max h idx).
Proof.
  revert self h. induction idx as [|i idx IH]; intros self h Hself Hh; cbn; [done|].
  intros (Hi & Hnear & Ht). pose proof (extender_step self (i mod 2 ^ w)) as Hs.
  destruct (extend self _) as [self' e]. destruct Hs as [-> Hs]. rewrite Hself in *. cbn in *.
  rewrite extend_wrapping_near in * by (apply extender_width || lia).
  destruct (IH self' (Z.max h i)) as [IH1 IH2]; [done|lia|done|].
  destruct (extend_all _ self' _) as [self'' es]. cbn in *. split; [by f_equal|done].
Qed.

Lemma extend_all_first i idx : 0 <= i < 2 ^ w -> tracked w i idx ->
  (extend_all extend start ((fun i => i mod 2 ^ w) <$> (i :: idx))).2 = i :: idx /\
  high (extend_all extend start ((fun i => i mod 2 ^ w) <$> (i :: idx))).1 = Some (foldl Z.max i idx).
Proof.
  intros Hi Ht. cbn. pose proof (extender_step start (i mod 2 ^ w)) as Hs.
  destruct (extend start _) as [self e]. destruct Hs as [-> Hs].
  rewrite extender_fresh in *. cbn in *. rewrite Z.mod_small in * by lia.
  assert (2 ^ w <= 2 ^ 32) by (apply Z.pow_le_mono_r; [lia|apply extender_width]).
  destruct (extend_all_tracked self i idx) as [H1 H2]; [done|mlia|done|].
  destruct (extend_all _ self _). cbn in *. split; [by f_equal|done].
Qed.
End Tracking.

(** [SequenceNumberExtender] recovers the 64-bit packet indices of a stream from
    their low 16 bits, through any number of wrap-arounds and with any reordering of
    less than half a cycle, and its high-water mark is the maximum of them. *)
Theorem sequence_extender_tracks i idx : 0 <= i < 2 ^ 16 -> tracked 16 i idx ->
  let '(self, es) := extend_all SequenceNumberExtender.extend SequenceNumberExtender.new
      ((fun i => i mod 2 ^ 16) <$> (i :: idx)) in
  es = i :: idx /\ SequenceNumberExtender.highest self = Some (foldl Z.max i idx).
Proof. intros Hi Ht. pose proof (extend_all_first i idx Hi Ht). by destruct (extend_all _ _ _). Qed.

(** the same for 32-bit RTP timestamps. *)
Theorem timestamp_extender_tracks i idx : 0 <= i < 2 ^ 32 -> tracked 32 i idx ->
  let '(self, es) := extend_all TimestampExtender.extend TimestampExtender.new
      ((fun i => i mod 2 ^ 32) <$> (i :: idx)) in
  es = i :: idx /\ TimestampExtender.highest self = Some (foldl Z.max i idx).
Proof. intros Hi Ht. pose proof (extend_all_first i idx Hi Ht). by destruct (extend_all _ _ _). Qed.

Lemma sequence_extender_tracks_witness :
  (extend_all SequenceNumberExtender.extend SequenceNumberExtender.new [65534; 65535; 0; 65533; 1]).2
  = [65534; 65535; 65536; 65533; 65537].
Proof.
  pose proof (sequence_extender_tracks 65534 [65535; 65536; 65533; 65537] ltac:(lia)
    ltac:(cbn [tracked]; eval_facts)) as H. apply (proj1 H).
Defined.

Lemma timestamp_extender_tracks_witness :
  (extend_all TimestampExtender.extend TimestampExtender.new [4294967290; 2; 4294967295]).2
  = [4294967290; 4294967298; 4294967295].
Proof.
  pose proof (timestamp_extender_tracks 4294967290 [4294967298; 4294967295] ltac:(lia)
    ltac:(cbn [tracked]; eval_facts)) as H. apply (proj1 H).
Defined.
