(* ===== verification/RtcpModel.v ===== *)
(** * webrtc/rtcp: packet model, errors and field readers (src/model.rs, src/error.rs)

    The types of the crate, the [read_*] helpers that src/codec.rs and src/twcc.rs
    share, and the lemmas that read a field back from an encoded layout. *)
From S2P Require Import Prelude Words Slices.

Inductive RtcpError :=
| PacketTooShort (length : Z)
| UnsupportedVersion (version : Z)
| InvalidPacketLength (declared remaining : Z)
| TruncatedPacket
| InvalidPadding (length : Z)
| InvalidBodyLength (packet_type length : Z)
| InvalidCumulativeLoss (value : Z)
| CountTooLarge (count : Z)
| SdesItemTooLarge (length : Z)
| ReservedTwccStatus (status : Z)
| InvalidTwccStatusCount
| InvalidTwccDeltas
| InvalidReferenceTime (value : Z)
| PacketTooLarge.

Record ReportBlock := {
  rb_ssrc : Z;
  fraction_lost : Z;
  cumulative_lost : Z;
  extended_highest_sequence : Z;
  jitter : Z;
  last_sender_report : Z;
  delay_since_last_sender_report : Z }.

Record SenderReport := {
  sr_sender_ssrc : Z;
  ntp_timestamp : Z;
  rtp_timestamp : Z;
  sender_packet_count : Z;
  sender_octet_count : Z;
  sr_reports : list ReportBlock }.

Record ReceiverReport := { rr_sender_ssrc : Z; rr_reports : list ReportBlock }.
Record SdesItem := { item_type : Z; item_value : bytes }.
Record SdesChunk := { chunk_ssrc : Z; items : list SdesItem }.
Record SourceDescription := { chunks : list SdesChunk }.
Record NackEntry := { packet_id : Z; lost_packet_bitmask : Z }.
Record GenericNack := {
  nack_sender_ssrc : Z; nack_media_ssrc : Z; entries : list NackEntry }.
Record PictureLossIndication := { pli_sender_ssrc : Z; pli_media_ssrc : Z }.

Inductive TwccStatus :=
| NotReceived
| ReceivedSmallDelta (delta : Z)
| ReceivedLargeDelta (delta : Z).

Record TransportWideFeedback := {
  tw_sender_ssrc : Z;
  tw_media_ssrc : Z;
  base_sequence_number : Z;
  reference_time : Z;
  feedback_packet_count : Z;
  statuses : list TwccStatus }.

Record RawPacket := { raw_count : Z; raw_packet_type : Z; raw_body : bytes }.

Inductive Packet :=
| PSenderReport (r : SenderReport)
| PReceiverReport (r : ReceiverReport)
| PSourceDescription (d : SourceDescription)
| PGenericNack (n : GenericNack)
| PPictureLossIndication (p : PictureLossIndication)
| PTransportWideFeedback (f : TransportWideFeedback)
| PRaw (r : RawPacket).

(** ** Field readers *)
Definition read_u16 : bytes -> Z -> outcome RtcpError Z := read_be 2 TruncatedPacket.
Definition read_u32 : bytes -> Z -> outcome RtcpError Z := read_be 4 TruncatedPacket.
Definition read_u64 : bytes -> Z -> outcome RtcpError Z := read_be 8 TruncatedPacket.
Definition read_i16 (input : bytes) (position : Z) : outcome RtcpError Z :=
  to_signed 16 <$> read_be 2 InvalidTwccDeltas input position.
Definition read_i24 (input : bytes) (position : Z) : outcome RtcpError Z :=
  b ← ok_or (get_range input position (saturating_add 64 position 3)) TruncatedPacket;
  b0 ← index b 0;
  b1 ← index b 1;
  b2 ← index b 2;
  let sign := if Z.land b0 0x80 =? 0 then 0 else 0xff in
  Ok (to_signed 32 (from_be_bytes [sign; b0; b1; b2])).
Definition write_i24 (output : bytes) (value : Z) : bytes :=
  output ++ drop 1 (to_be_bytes 4 (to_unsigned 32 value)).

(** [while (output.len() - start) % 4 != 0 { output.push(0) }]: at most three turns. *)
Fixpoint align_loop (fuel : nat) (start : Z) (output : bytes) : outcome RtcpError bytes :=
  match fuel with
  | O => Diverge
  | S fuel => if (len output - start) mod 4 =? 0 then Ok output
              else align_loop fuel start (output ++ [0])
  end.
Definition align (start : Z) (output : bytes) : outcome RtcpError bytes :=
  align_loop 4 start output.
Definition in_i24 (x : Z) : bool := (- 8388608 <=? x) && (x <=? 8388607).

(** ** Readers return *)
Lemma returns_read_i16 input p : returns (read_i16 input p).
Proof. apply returns_fmap, returns_read_be. Qed.

Lemma returns_read_i24 input p : len input < 2 ^ 63 -> returns (read_i24 input p).
Proof.
  intros Hlen. unfold read_i24, saturating_add. apply returns_bind; [auto with returns|].
  intros b Hb%ok_or_Ok. destruct (decide (len b = 3)) as [Hl|Hl].
  - repeat (apply returns_bind; [apply returns_index; lia|intros ? _]). done.
  - exfalso. pose proof (get_range_len _ _ _ _ Hb). mlia.
Qed.
#[export] Hint Resolve returns_read_i16 returns_read_i24 : returns.
#[export] Hint Extern 1 (returns (read_u16 _ _)) => apply returns_read_be : returns.
#[export] Hint Extern 1 (returns (read_u32 _ _)) => apply returns_read_be : returns.
#[export] Hint Extern 1 (returns (read_u64 _ _)) => apply returns_read_be : returns.

(** ** Alignment *)
Definition pad4 (n : Z) : bytes := replicateZ ((- n) mod 4) 0.

Lemma align_spec start output : align start output = Ok (output ++ pad4 (len output - start)).
Proof.
  unfold align, pad4. generalize (eq_refl (len output)). generalize (len output) at 2 3. intros n Hn.
  assert (forall k l, (k < 4)%nat -> (- (len l - start)) mod 4 = Z.of_nat k ->
    forall fuel, (k < fuel)%nat ->
    align_loop fuel start l = Ok (l ++ replicate k 0)) as Hloop.
  { induction k as [|k IH]; intros l Hk Hm [|fuel] Hf; try lia; cbn -[Z.mul].
    - replace (_ =? 0) with true by zdiv. by rewrite app_nil_r.
    - replace (_ =? 0) with false by zdiv.
      rewrite IH; [by rewrite <- app_assoc|lia| |lia]. rewrite len_app. change (len [0]) with 1. zdiv. }
  unfold replicateZ. rewrite <- Hn. pose proof (Z.mod_pos_bound (- (len output - start)) 4 ltac:(lia)).
  apply Hloop; lia.
Qed.

Lemma pad4_aligned n : (n + len (pad4 n)) mod 4 = 0.
Proof. unfold pad4. rewrite len_replicateZ. zdiv. Qed.

Lemma pad4_short n : len (pad4 n) <= 3.
Proof. unfold pad4. rewrite len_replicateZ. zdiv. Qed.

Lemma pad4_nil n : n mod 4 = 0 -> pad4 n = [].
Proof. intros. unfold pad4. replace ((- n) mod 4) with 0 by zdiv. done. Qed.

(** ** Reading an encoded layout *)
Section Layout.
Context {E : Type} (n : nat) (e : E).

Lemma read_be_off pre l p k : p = len pre + k -> 0 <= k -> p + Z.of_nat n < 2 ^ 64 ->
  read_be n e (pre ++ l) p = read_be n e l k.
Proof. intros -> ??. pose_len. rewrite read_be_skip by lia. f_equal. lia. Qed.

Lemma read_be_next m v l k : Z.of_nat m <= k -> k + Z.of_nat n < 2 ^ 64 ->
  read_be n e (to_be_bytes m v ++ l) k = read_be n e l (k - Z.of_nat m).
Proof. intros. apply read_be_off; rewrite ?len_to_be_bytes; lia. Qed.

Lemma read_be_cons b l k : 1 <= k -> k + Z.of_nat n < 2 ^ 64 ->
  read_be n e (b :: l) k = read_be n e l (k - 1).
Proof. intros. apply (read_be_off [b]); change (len [b]) with 1; lia. Qed.

Lemma read_be_first v l k : k = 0 -> fits (8 * Z.of_nat n) v -> Z.of_nat n < 2 ^ 64 ->
  read_be n e (to_be_bytes n v ++ l) k = Ok v.
Proof. intros ->. apply read_be_here. Qed.
End Layout.

(** Read the next field of a fixed layout at a constant offset. *)
Ltac read_field :=
  repeat rewrite read_be_next by mlia;
  rewrite read_be_first by (done || mlia || (cbn; lia)); cbn [mbind outcome_bind].

Lemma get_next {A} (v l : list A) k : len v <= k -> get (v ++ l) k = get l (k - len v).
Proof. apply get_app_skip. Qed.

Lemma i24_sign b : u8 b -> (Z.land b 0x80 =? 0) = (b <? 128).
Proof.
  assert (forallb (fun b => Bool.eqb (Z.land b 0x80 =? 0) (b <? 128)) (seqZ 0 256) = true) as H
    by (vm_compute; reflexivity).
  intros Hb. apply Bool.eqb_prop. apply (forallb_seqZ _ _ _ b H). mlia.
Qed.

Lemma i24_encoding v : in_i24 v = true -> exists b0 b1 b2,
  drop 1 (to_be_bytes 4 (to_unsigned 32 v)) = [b0; b1; b2] /\
  to_signed 32 (from_be_bytes [if Z.land b0 0x80 =? 0 then 0 else 0xff; b0; b1; b2]) = v.
Proof.
  unfold in_i24. intros Hv. eexists _, _, _. split; [reflexivity|]. cbn -[Z.mul Z.pow Z.div Z.modulo].
  change (2 ^ (8 * Z.of_nat 2)) with 65536. change (2 ^ (8 * Z.of_nat 1)) with 256.
  change (2 ^ (8 * Z.of_nat 0)) with 1. unfold to_unsigned, to_signed, from_be_bytes. cbn [foldl].
  rewrite i24_sign by (apply Z.mod_pos_bound; lia). change (2 ^ (32 - 1)) with 2147483648.
  width. rewrite Z.div_1_r.
  repeat case_match; Z.to_euclidean_division_equations; lia.
Qed.

Lemma read_i24_encoded pre v rest p k : in_i24 v = true -> p = len pre + k -> k = 0 ->
  p < 2 ^ 63 ->
  read_i24 (pre ++ drop 1 (to_be_bytes 4 (to_unsigned 32 v)) ++ rest) p = Ok v.
Proof.
  intros Hv -> -> Hp. destruct (i24_encoding v Hv) as (b0 & b1 & b2 & -> & Hs). unfold read_i24.
  rewrite Z.add_0_r in *. rewrite (proj2 (get_range_Some _ _ _ [b0; b1; b2])); [exact (f_equal Ok Hs)|].
  exists pre, rest. split_and!; [done..|]. unfold saturating_add. change (len [b0; b1; b2]) with 3. mlia.
Qed.
