(* ===== verification/Twcc.v ===== *)
(** * webrtc/rtcp: transport-wide congestion-control feedback (src/twcc.rs)

    Status chunks (run-length, one-bit and two-bit vectors), receive deltas, and the
    round trip of the encoder through the parser. *)
From S2P Require Import Prelude Words Slices RtcpModel.

Definition FIXED_BODY_LEN : Z := 16.

(** [for index in 0..symbols_per_chunk] of a status vector chunk. *)
Fixpoint push_symbols (two_bit : bool) (chunk status_count : Z) (indices : list Z)
    (symbols : list Z) : outcome RtcpError (list Z) :=
  match indices with
  | [] => Ok symbols
  | index :: indices =>
      if len symbols =? status_count then Ok symbols
      else
        let symbol :=
          if two_bit then default 0 (try_from 8 (Z.land (Z.shiftr chunk (12 - index * 2)) 0x03))
          else default 0 (try_from 8 (Z.land (Z.shiftr chunk (13 - index)) 0x01)) in
        if symbol =? 3 then Err (ReservedTwccStatus symbol)
        else push_symbols two_bit chunk status_count indices (symbols ++ [symbol])
  end.

Definition decode_chunk (chunk status_count : Z) (symbols : list Z)
    : outcome RtcpError (list Z) :=
  if Z.land chunk 0x8000 =? 0 then
    let symbol := default 0 (try_from 8 (Z.land (Z.shiftr chunk 13) 0x03)) in
    if symbol =? 3 then Err (ReservedTwccStatus symbol)
    else
      let run_length := Z.land chunk 0x1fff in
      if run_length =? 0 then Err InvalidTwccStatusCount
      else
        let remaining := saturating_sub status_count (len symbols) in
        Ok (symbols ++ replicateZ (Z.min run_length remaining) symbol)
  else
    let two_bit := has_bit chunk 0x4000 in
    let symbols_per_chunk := if two_bit then 7 else 14 in
    push_symbols two_bit chunk status_count (seqZ 0 symbols_per_chunk) symbols.

(** [while symbols.len() < status_count]: each chunk adds a symbol, so
    [status_count + 1] turns are enough. *)
Fixpoint read_symbols (fuel : nat) (body : bytes) (status_count position : Z) (symbols : list Z)
    : outcome RtcpError (Z * list Z) :=
  match fuel with
  | O => Diverge
  | S fuel =>
      if len symbols <? status_count then
        chunk ← read_u16 body position;
        symbols ← decode_chunk chunk status_count symbols;
        read_symbols fuel body status_count (position + 2) symbols
      else Ok (position, symbols)
  end.

Fixpoint read_deltas (body : bytes) (symbols : list Z) (position : Z) (statuses : list TwccStatus)
    : outcome RtcpError (Z * list TwccStatus) :=
  match symbols with
  | [] => Ok (position, statuses)
  | symbol :: symbols =>
      if symbol =? 0 then read_deltas body symbols position (statuses ++ [NotReceived])
      else if symbol =? 1 then
        delta ← ok_or (get body position) InvalidTwccDeltas;
        read_deltas body symbols (position + 1) (statuses ++ [ReceivedSmallDelta delta])
      else if symbol =? 2 then
        delta ← read_i16 body position;
        read_deltas body symbols (position + 2) (statuses ++ [ReceivedLargeDelta delta])
      else Err (ReservedTwccStatus symbol)
  end.

Definition parse (body : bytes) : outcome RtcpError TransportWideFeedback :=
  _ ← reject_if (len body <? FIXED_BODY_LEN) (InvalidBodyLength 205 (len body));
  sender_ssrc ← read_u32 body 0;
  media_ssrc ← read_u32 body 4;
  base_sequence_number ← read_u16 body 8;
  status_count ← read_u16 body 10;
  reference_time ← read_i24 body 12;
  feedback_packet_count ← index body 15;
  '(position, symbols) ←
    read_symbols (S (Z.to_nat status_count)) body status_count FIXED_BODY_LEN [];
  '(position, statuses) ← read_deltas body symbols position [];
  rest ← ok_or (get_from body position) InvalidTwccDeltas;
  _ ← reject_if (existsb (fun byte => negb (byte =? 0)) rest
                 || (3 <? saturating_sub (len body) position)) InvalidTwccDeltas;
  Ok {| tw_sender_ssrc := sender_ssrc;
        tw_media_ssrc := media_ssrc;
        base_sequence_number := base_sequence_number;
        reference_time := reference_time;
        feedback_packet_count := feedback_packet_count;
        statuses := statuses |}.

(** ** Encoding *)
(** [slice::chunks(7)]; every piece is non-empty, so [length] turns are enough. *)
Fixpoint chunks_of_7 {A} (fuel : nat) (l : list A) : list (list A) :=
  match fuel, l with
  | O, _ | _, [] => []
  | S fuel, l => take 7 l :: chunks_of_7 fuel (drop 7 l)
  end.

Definition symbol_of (status : TwccStatus) : Z :=
  match status with
  | NotReceived => 0
  | ReceivedSmallDelta _ => 1
  | ReceivedLargeDelta _ => 2
  end.

(** The body of [for (index, status) in statuses.iter().enumerate()], on the symbols. *)
Fixpoint encode_chunk (index : Z) (symbols : list Z) (chunk : Z) : Z :=
  match symbols with
  | [] => chunk
  | symbol :: symbols =>
      let shift := saturating_sub 12 (default 0 (try_from 32 (index * 2))) in
      encode_chunk (index + 1) symbols (Z.lor chunk (Z.shiftl symbol shift mod 2 ^ 16))
  end.

Definition delta_bytes (status : TwccStatus) : bytes :=
  match status with
  | NotReceived => []
  | ReceivedSmallDelta delta => [delta]
  | ReceivedLargeDelta delta => to_be_bytes 2 (to_unsigned 16 delta)
  end.

Definition encode (feedback : TransportWideFeedback) : outcome RtcpError bytes :=
  _ ← reject_if (umax 16 <? len (statuses feedback)) InvalidTwccStatusCount;
  _ ← reject_if (negb (in_i24 (reference_time feedback)))
        (InvalidReferenceTime (reference_time feedback));
  let output := to_be_bytes 4 (tw_sender_ssrc feedback)
    ++ to_be_bytes 4 (tw_media_ssrc feedback)
    ++ to_be_bytes 2 (base_sequence_number feedback) in
  count ← ok_or (try_from 16 (len (statuses feedback))) InvalidTwccStatusCount;
  let output := write_i24 (output ++ to_be_bytes 2 count) (reference_time feedback) in
  let output := output ++ [feedback_packet_count feedback] in
  let output := output ++
    (chunks_of_7 (length (statuses feedback)) (statuses feedback) ≫= fun statuses =>
       to_be_bytes 2 (encode_chunk 0 (symbol_of <$> statuses) 0xc000)) in
  let output := output ++ (statuses feedback ≫= delta_bytes) in
  align 0 output.

(** ** Parsing returns *)
Lemma push_symbols_grows two_bit chunk n idx symbols symbols' :
  push_symbols two_bit chunk n idx symbols = Ok symbols' -> len symbols <= n ->
  len symbols <= len symbols' <= n /\ (idx <> [] -> len symbols < n -> len symbols < len symbols').
Proof.
  revert symbols. induction idx as [|i idx IH]; cbn [push_symbols]; intros symbols H Hn.
  { injection H as <-. split; [lia|done]. }
  destruct (len symbols =? n) eqn:Hfull; [injection H as <-; split; lia|].
  cbv zeta in H. case_match eqn:Hs; [done|].
  apply IH in H; rewrite len_app in *; change (len [_]) with 1 in *; [|lia].
  split; intros; lia.
Qed.

Lemma decode_chunk_grows chunk n symbols symbols' :
  decode_chunk chunk n symbols = Ok symbols' -> len symbols < n ->
  len symbols < len symbols' <= n.
Proof.
  unfold decode_chunk. intros H Hn. destruct (Z.land chunk 0x8000 =? 0).
  - cbv zeta in H. do 2 (case_match; [done|]). injection H as <-.
    rewrite len_app, len_replicateZ. unfold saturating_sub.
    pose proof (Zland_bound 0x1fff chunk). lia.
  - apply push_symbols_grows in H as [H1 H2]; [|lia]. split; [|lia].
    apply H2; [|lia]. by destruct (has_bit chunk 0x4000).
Qed.

Lemma returns_decode_chunk chunk n symbols : returns (decode_chunk chunk n symbols).
Proof.
  unfold decode_chunk. returns_steps. cbv zeta. generalize (has_bit chunk 0x4000) at 2. intros b.
  generalize (seqZ 0 (if b then 7 else 14)). intros idx. clear b. revert symbols.
  induction idx as [|i idx IH]; intros symbols; cbn [push_symbols]; [done|].
  case_match; [done|]. cbv zeta. case_match; [done|apply IH].
Qed.
#[export] Hint Resolve returns_decode_chunk : returns.

Lemma read_symbols_spec fuel body n p symbols : len symbols <= n ->
  n - len symbols < Z.of_nat fuel ->
  returns (read_symbols fuel body n p symbols) /\
  forall p' symbols', read_symbols fuel body n p symbols = Ok (p', symbols') ->
    len symbols' = n.
Proof.
  revert p symbols. induction fuel as [|fuel IH]; intros p symbols Hn Hf; [lia|].
  cbn [read_symbols]. destruct (Z.ltb_spec (len symbols) n) as [Hlt|Hge]; cycle 1.
  { split; [done|]. intros p' s' [= <- <-]. lia. }
  split.
  - apply returns_bind; [auto with returns|]. intros chunk _.
    apply returns_bind; [auto with returns|]. intros s' Hs%decode_chunk_grows; [|done]. apply IH; lia.
  - intros p' s' (chunk & _ & H)%bind_Ok. apply bind_Ok in H as (s1 & Hs%decode_chunk_grows & H); [|done].
    eapply IH; [..|done]; lia.
Qed.

Lemma returns_read_deltas body symbols p acc : returns (read_deltas body symbols p acc).
Proof.
  revert p acc. induction symbols as [|s symbols IH]; intros p acc; cbn [read_deltas]; [done|].
  repeat case_match; auto with returns; (apply returns_bind; [auto with returns|auto]).
Qed.
#[export] Hint Resolve returns_read_deltas : returns.

Lemma read_deltas_len body symbols p acc p' ss :
  read_deltas body symbols p acc = Ok (p', ss) -> len ss = len acc + len symbols.
Proof.
  revert p acc. induction symbols as [|s symbols IH]; intros p acc H; cbn [read_deltas] in H.
  { injection H as _ <-. rewrite len_nil. lia. }
  repeat case_match; try done;
    repeat (apply bind_Ok in H as (? & _ & H)); apply IH in H; rewrite len_app in H; slia.
Qed.

Lemma returns_twcc_parse body : rust_slice body -> returns (parse body).
Proof.
  intros [Hok Hlen]. unfold parse, FIXED_BODY_LEN. apply returns_bind; [auto with returns|].
  intros u Hl%reject_if_Ok. do 5 (apply returns_bind; [auto with returns|intros]).
  apply returns_bind; [apply returns_index; lia|intros fc _].
  apply returns_bind.
  { apply read_symbols_spec; [|rewrite len_nil; lia].
    match goal with H : read_u16 body 10 = Ok ?n |- _ => apply read_be_Ok in H as
      (l1 & b & l2 & -> & _ & _ & _ & ->) end.
    rewrite !bytes_ok_app in Hok. pose proof (from_be_bytes_bound b (proj1 (proj2 Hok))).
    rewrite len_nil. lia. }
  intros [p symbols] _. returns_steps.
Qed.

(** ** The two-bit vector chunks written by the encoder *)
Definition extract (chunk index : Z) : Z :=
  default 0 (try_from 8 (Z.land (Z.shiftr chunk (12 - index * 2)) 0x03)).

Lemma push_symbols_vector chunk n idx idx' symbols acc :
  Forall2 (fun i s => extract chunk i = s /\ s <> 3) idx symbols ->
  len acc + len symbols <= n ->
  push_symbols true chunk n (idx ++ idx') acc = push_symbols true chunk n idx' (acc ++ symbols).
Proof.
  intros H. revert acc. induction H as [|i s idx symbols [Hs H3] _ IH]; intros acc Hn.
  { by rewrite app_nil_r. }
  rewrite len_cons in Hn. pose_len. cbn [app push_symbols].
  replace (len acc =? n) with false by lia. cbv zeta.
  unfold extract in Hs. rewrite Hs, (proj2 (Z.eqb_neq s 3)) by done.
  rewrite IH by slia. by rewrite <- app_assoc.
Qed.

(** All symbol lists of a given length, for the exhaustive check of the chunk layout. *)
Fixpoint symbol_lists (k : nat) : list (list Z) :=
  match k with
  | O => [[]]
  | S k => symbol_lists k ≫= fun l => [0 :: l; 1 :: l; 2 :: l]
  end.

Lemma symbol_lists_complete (l : list Z) :
  Forall (fun s => 0 <= s <= 2) l -> l ∈ symbol_lists (length l).
Proof.
  induction 1 as [|s l Hs Hl IH]; cbn; [by left|].
  apply list_elem_of_bind. exists l. split; [|done].
  assert (s = 0 \/ s = 1 \/ s = 2) as [ -> | [ -> | -> ] ] by lia; set_solver.
Qed.

Definition chunk_layout_ok (l : list Z) : bool :=
  let chunk := encode_chunk 0 l 0xc000 in
  (0 <=? chunk) && (chunk <? 2 ^ 16) && has_bit chunk 0x8000 && has_bit chunk 0x4000 &&
  bool_decide (extract chunk <$> seqZ 0 (len l) = l).

Lemma chunk_layout (l : list Z) : (length l <= 7)%nat -> Forall (fun s => 0 <= s <= 2) l ->
  chunk_layout_ok l = true.
Proof.
  assert (forallb (fun k => forallb chunk_layout_ok (symbol_lists k)) (seq 0 8) = true) as H
    by (vm_compute; reflexivity).
  intros Hlen Hl%symbol_lists_complete. rewrite forallb_forall in H.
  specialize (H (length l) (proj2 (in_seq 8 0 (length l)) ltac:(lia))). rewrite forallb_forall in H.
  apply H. by apply list_elem_of_In.
Qed.

Lemma symbols_range (ss : list TwccStatus) : Forall (fun s => 0 <= s <= 2) (symbol_of <$> ss).
Proof. induction ss as [|[] ss IH]; cbn; constructor; auto; lia. Qed.

Lemma decode_encode_chunk (ss : list TwccStatus) n acc :
  (length ss <= 7)%nat -> len acc + len ss <= n -> (length ss = 7%nat \/ len acc + len ss = n) ->
  decode_chunk (encode_chunk 0 (symbol_of <$> ss) 0xc000) n acc = Ok (acc ++ (symbol_of <$> ss)) /\
  u16 (encode_chunk 0 (symbol_of <$> ss) 0xc000).
Proof.
  intros H7 Hn Hfull. pose proof (chunk_layout (symbol_of <$> ss)) as Hc.
  rewrite length_fmap in Hc. specialize (Hc H7 (symbols_range ss)). unfold chunk_layout_ok in Hc.
  cbv zeta in Hc. set (chunk := encode_chunk _ _ _) in *. clearbody chunk.
  rewrite !andb_true_iff, bool_decide_eq_true in Hc. destruct Hc as ((((H0 & H1) & H8) & H4) & Hx).
  rewrite len_map in Hx. split; [|mlia].
  unfold decode_chunk. unfold has_bit at 1 in H8. apply negb_true_iff in H8. rewrite H8, H4.
  assert (seqZ 0 7 = seqZ 0 (len ss) ++ seqZ (len ss) (7 - len ss)) as ->.
  { replace 7 with (len ss + (7 - len ss)) at 1 by lia. apply seqZ_app; unfold len; lia. }
  rewrite (push_symbols_vector _ _ _ _ (symbol_of <$> ss)).
  - destruct Hfull as [H|H].
    + replace (7 - len ss) with 0 by (unfold len; lia). done.
    + destruct (seqZ (len ss) (7 - len ss)); [done|]. cbn [push_symbols].
      rewrite (proj2 (Z.eqb_eq _ n)); [done|]. slia.
  - rewrite <- Hx. apply Forall2_fmap_r, Forall_Forall2_diag, Forall_forall. intros i Hi.
    split; [done|]. pose proof (symbols_range ss) as Hr. rewrite <- Hx in Hr.
    rewrite Forall_fmap, Forall_forall in Hr. specialize (Hr i Hi). cbn in Hr. lia.
  - rewrite len_map. done.
Qed.

Abbreviation encode_chunks fuel ss := (chunks_of_7 fuel ss ≫= fun statuses =>
  to_be_bytes 2 (encode_chunk 0 (symbol_of <$> statuses) 0xc000)).

Lemma read_symbols_encoded fuel k ss pre rest n acc :
  (length ss <= k)%nat -> (length ss < fuel)%nat -> len acc + len ss = n -> n < 2 ^ 16 ->
  len pre + 2 * len ss < 2 ^ 63 ->
  read_symbols fuel (pre ++ encode_chunks k ss ++ rest) n (len pre) acc =
    Ok (len pre + len (encode_chunks k ss), acc ++ (symbol_of <$> ss)).
Proof.
  revert fuel ss pre acc. induction k as [|k IH]; intros fuel ss pre acc Hk Hf Hn Hmax Hpre.
  { destruct ss; cbn in Hk; [|lia]. destruct fuel as [|fuel]; [lia|]. cbn.
    replace (len acc <? n) with false by slia. by rewrite app_nil_r, Z.add_0_r. }
  destruct ss as [|s ss].
  { destruct fuel as [|fuel]; [lia|]. cbn.
    replace (len acc <? n) with false by slia. by rewrite app_nil_r, Z.add_0_r. }
  destruct fuel as [|fuel]; [cbn in Hf; lia|]. cbn [chunks_of_7].
  set (l := s :: ss) in *. assert (0 < len l) by (unfold l; rewrite len_cons; pose_len; lia).
  clearbody l. cbn [read_symbols mbind list_bind].
  replace (len acc <? n) with true by (pose_len; lia).
  destruct (decode_encode_chunk (take 7 l) n acc) as [Hd Hw];
    [rewrite length_take; lia|rewrite len_take; pose_len; lia| |].
  { rewrite len_take, length_take. unfold len in *. lia. }
  rewrite <- app_assoc. unfold read_u16.
  rewrite (read_be_off _ _ pre _ _ 0), read_be_here by (done || mlia || (pose_len; mlia)).
  cbn [mbind outcome_bind]. rewrite Hd. cbn [mbind outcome_bind].
  rewrite app_assoc. replace (len pre + 2) with (len (pre ++ to_be_bytes 2
    (encode_chunk 0 (symbol_of <$> take 7 l) 0xc000))) by (rewrite len_app, len_to_be_bytes; lia).
  rewrite IH.
  - rewrite <- app_assoc, <- fmap_app, take_drop. do 2 f_equal. rewrite !len_app, len_to_be_bytes.
    unfold mbind. lia.
  - rewrite length_drop. lia.
  - rewrite length_drop. unfold len in *. lia.
  - rewrite len_app, len_map, len_take, len_drop. lia.
  - done.
  - rewrite len_app, len_to_be_bytes, len_drop. lia.
Qed.

(** ** Round trip *)
Definition status_ok (s : TwccStatus) : Prop :=
  match s with
  | NotReceived => True
  | ReceivedSmallDelta d => u8 d
  | ReceivedLargeDelta d => sfits 16 d
  end.

Definition feedback_ok (f : TransportWideFeedback) : Prop :=
  u32 (tw_sender_ssrc f) /\ u32 (tw_media_ssrc f) /\ u16 (base_sequence_number f) /\
  u8 (feedback_packet_count f) /\ Forall status_ok (statuses f).

Lemma len_delta_bytes s : len (delta_bytes s) <= 2.
Proof. destruct s; cbn; rewrite ?len_to_be_bytes; unfold len; cbn; lia. Qed.

Lemma read_i16_encoded pre d rest p : sfits 16 d -> p = len pre -> p < 2 ^ 63 ->
  read_i16 (pre ++ to_be_bytes 2 (to_unsigned 16 d) ++ rest) p = Ok d.
Proof.
  intros Hd -> Hp. unfold read_i16. pose_len.
  rewrite (read_be_off _ _ pre _ _ 0), read_be_here by
    (lia || mlia || (apply Z.mod_pos_bound; lia)).
  cbn -[to_signed to_unsigned]. by rewrite to_signed_unsigned.
Qed.

Lemma read_deltas_encoded ss pre rest acc : Forall status_ok ss ->
  len pre + 2 * len ss < 2 ^ 63 ->
  read_deltas (pre ++ (ss ≫= delta_bytes) ++ rest) (symbol_of <$> ss) (len pre) acc =
    Ok (len pre + len (ss ≫= delta_bytes), acc ++ ss).
Proof.
  intros H. revert pre acc. induction H as [|s ss Hs Hss IH]; intros pre acc Hl.
  { cbn. by rewrite app_nil_r, Z.add_0_r. }
  rewrite len_cons in Hl. pose_len. rewrite bind_cons, <- app_assoc, len_app, Z.add_assoc.
  replace (acc ++ s :: ss) with ((acc ++ [s]) ++ ss) by (by rewrite <- app_assoc).
  specialize (IH (pre ++ delta_bytes s) (acc ++ [s])).
  rewrite len_app, <- app_assoc in IH. pose proof (len_delta_bytes s).
  specialize (IH ltac:(lia)). destruct s as [|d|d]; cbn [fmap list_fmap symbol_of read_deltas Z.eqb Pos.eqb].
  - change (len (delta_bytes NotReceived)) with 0 in *. rewrite Z.add_0_r in *. done.
  - rewrite (get_app_skip pre) by lia. rewrite Z.sub_diag. cbn [delta_bytes app get_cons_0].
    rewrite get_cons_0. cbn [ok_or mbind outcome_bind]. exact IH.
  - cbn [delta_bytes] in *. rewrite read_i16_encoded by (done || lia). cbn [mbind outcome_bind].
    rewrite len_to_be_bytes in *. done.
Qed.

Lemma len_encode_chunks k (ss : list TwccStatus) : len (encode_chunks k ss) <= 2 * len ss.
Proof.
  revert ss. induction k as [|k IH]; intros ss; [destruct ss; cbn; slia|].
  destruct ss as [|s ss]; [cbn; slia|]. cbn [chunks_of_7]. set (l := s :: ss).
  assert (0 < len l) by (unfold l; rewrite len_cons; pose_len; lia). clearbody l.
  rewrite bind_cons, len_app, len_to_be_bytes. specialize (IH (drop 7 l)). rewrite len_drop in IH. lia.
Qed.

Lemma len_deltas (ss : list TwccStatus) : len (ss ≫= delta_bytes) <= 2 * len ss.
Proof.
  induction ss as [|s ss IH]; [done|]. rewrite bind_cons, len_app, len_cons.
  pose proof (len_delta_bytes s). lia.
Qed.

Lemma encode_Ok f body : encode f = Ok body ->
  len (statuses f) <= 65535 /\ in_i24 (reference_time f) = true /\
  let chunks := encode_chunks (length (statuses f)) (statuses f) in
  let deltas := statuses f ≫= delta_bytes in
  body = to_be_bytes 4 (tw_sender_ssrc f) ++ to_be_bytes 4 (tw_media_ssrc f) ++
    to_be_bytes 2 (base_sequence_number f) ++ to_be_bytes 2 (len (statuses f)) ++
    drop 1 (to_be_bytes 4 (to_unsigned 32 (reference_time f))) ++
    feedback_packet_count f :: chunks ++ deltas ++ pad4 (len chunks + len deltas).
Proof.
  unfold encode. intros (u1 & H1%reject_if_Ok & H)%bind_Ok.
  apply bind_Ok in H as (u2 & H2%reject_if_Ok & H).
  apply bind_Ok in H as (c & [-> Hc]%ok_or_Ok%try_from_Some & H).
  apply negb_false_iff in H2. unfold umax in *. width. split_and!; [lia|done|].
  rewrite align_spec in H. apply Ok_inj in H as <-. unfold write_i24.
  set (chunks := encode_chunks _ _). set (deltas := statuses f ≫= delta_bytes). cbv zeta.
  clearbody chunks deltas.
  match goal with |- context [pad4 (?n - 0)] =>
    replace (pad4 (n - 0)) with (pad4 (len chunks + len deltas)) end.
  { by rewrite <- !app_assoc. }
  unfold pad4. rewrite Z.sub_0_r, !len_app, !len_to_be_bytes, !len_drop, len_to_be_bytes.
  change (len [_]) with 1. f_equal. zdiv.
Qed.

Lemma pad4_zero n : existsb (fun byte => negb (byte =? 0)) (pad4 n) = false.
Proof.
  unfold pad4, replicateZ. induction (Z.to_nat _) as [|k IH]; [done|]. cbn. exact IH.
Qed.

Lemma parse_encode f body : feedback_ok f -> encode f = Ok body ->
  parse body = Ok f /\ len body mod 4 = 0 /\ len body < 2 ^ 63.
Proof.
  intros (H1 & H2 & H3 & H4 & H5) (Hn & Hrt & ->)%encode_Ok.
  set (chunks := encode_chunks (length (statuses f)) (statuses f)).
  set (deltas := statuses f ≫= delta_bytes). cbv zeta.
  assert (len chunks <= 2 * len (statuses f)) as Hcl by apply len_encode_chunks.
  assert (len deltas <= 2 * len (statuses f)) as Hdl by apply len_deltas.
  pose proof (pad4_aligned (len chunks + len deltas)) as Ha.
  pose proof (pad4_short (len chunks + len deltas)) as Hs.
  pose proof (pad4_zero (len chunks + len deltas)) as Hz.
  set (pad := pad4 _) in *. clearbody pad.
  set (rt := drop 1 (to_be_bytes 4 (to_unsigned 32 (reference_time f)))).
  assert (len rt = 3) as Hrl by (unfold rt; by rewrite len_drop, len_to_be_bytes).
  set (body := to_be_bytes 4 (tw_sender_ssrc f) ++ _).
  assert (len body = 16 + (len chunks + len deltas + len pad)) as Hb.
  { unfold body. rewrite !len_app, len_cons, !len_app, !len_to_be_bytes, Hrl. lia. }
  pose_len. split; [|split; [zdiv|mlia]]. unfold parse, FIXED_BODY_LEN.
  rewrite Hb. replace (_ <? 16) with false by lia. cbn [reject_if mbind outcome_bind].
  set (front := to_be_bytes 4 (tw_sender_ssrc f) ++ to_be_bytes 4 (tw_media_ssrc f) ++
    to_be_bytes 2 (base_sequence_number f) ++ to_be_bytes 2 (len (statuses f))).
  assert (body = front ++ rt ++ feedback_packet_count f :: chunks ++ deltas ++ pad) as Hbody
    by (unfold body, front; by rewrite <- !app_assoc).
  unfold read_u32, read_u16. unfold body.
  do 4 read_field. fold body.
  assert (len front = 12) as Hfl by (unfold front; rewrite !len_app, !len_to_be_bytes; lia).
  pose proof (fun rest => read_i24_encoded front _ rest 12 0 Hrt) as Hi24. fold rt in Hi24.
  rewrite Hbody, Hi24 by mlia. clear Hi24.
  cbn [mbind outcome_bind]. unfold index.
  rewrite (app_assoc front rt), (get_app_here (front ++ rt)) by (rewrite len_app; lia).
  cbn [or_panic mbind outcome_bind].
  replace ((front ++ rt) ++ _) with (((front ++ rt) ++ [feedback_packet_count f]) ++ chunks ++ deltas ++ pad)
    by (by rewrite <- !app_assoc).
  set (pre := (front ++ rt) ++ [feedback_packet_count f]).
  assert (len pre = 16) as Hpre by (unfold pre; rewrite !len_app, Hrl, Hfl; done).
  clearbody pre. rewrite <- Hpre.
  pose proof (fun rest => read_symbols_encoded (S (Z.to_nat (len (statuses f)))) _ (statuses f) pre
    rest _ [] (le_n _) ltac:(unfold len; lia) eq_refl ltac:(rewrite len_nil; lia) ltac:(lia)) as Hsym.
  fold chunks in Hsym. rewrite len_nil, Z.add_0_l in Hsym. rewrite Hsym. clear Hsym.
  cbn [mbind outcome_bind app]. rewrite (app_assoc pre), <- (len_app pre chunks).
  pose proof (fun rest => read_deltas_encoded (statuses f) (pre ++ chunks) rest [] H5
    ltac:(rewrite len_app; lia)) as Hdel. fold deltas in Hdel. rewrite Hdel. clear Hdel.
  cbn [mbind outcome_bind app].
  rewrite (app_assoc (pre ++ chunks)), <- (len_app (pre ++ chunks) deltas), get_from_app by done. cbn [ok_or mbind outcome_bind].
  rewrite Hz. cbn [orb]. rewrite (proj2 (Z.ltb_ge _ _)); [|unfold saturating_sub; rewrite !len_app; lia].
  cbn [reject_if mbind outcome_bind]. by destruct f.
Qed.

(** decoding transport feedback comes back on every body, whatever mix of run-length
    and vector chunks it holds, and an accepted report carries exactly as many packet
    statuses as its header declares (so at most 65535). *)
Theorem twcc_parse_bounded body : rust_slice body ->
  returns (parse body) /\
  forall f, parse body = Ok f ->
    read_u16 body 10 = Ok (len (statuses f)) /\ len (statuses f) <= 65535.
Proof.
  intros Hbody. split; [by apply returns_twcc_parse|]. unfold parse. intros f H.
  apply bind_Ok in H as (? & _ & H). do 3 (apply bind_Ok in H as (? & _ & H)).
  apply bind_Ok in H as (n & Hn & H). do 2 (apply bind_Ok in H as (? & _ & H)).
  assert (0 <= n <= 65535) as Hr.
  { apply read_be_Ok in Hn as (l1 & b & l2 & -> & _ & Hb & _ & ->). destruct Hbody as [Hok _].
    rewrite !bytes_ok_app in Hok. pose proof (from_be_bytes_bound b (proj1 (proj2 Hok))) as B.
    rewrite Hb in B. change (256 ^ Z.of_nat 2) with 65536 in B. lia. }
  apply bind_Ok in H as ([p symbols] & Hs & H). apply bind_Ok in H as ([p' ss] & Hd & H).
  apply bind_Ok in H as (? & _ & H). apply bind_Ok in H as (? & _ & H). apply Ok_inj in H as <-.
  cbn [statuses]. apply read_deltas_len in Hd. rewrite len_nil in Hd.
  apply read_symbols_spec in Hs; [|rewrite len_nil; lia..].
  replace (len ss) with n by lia. split; [done|lia].
Qed.

Lemma twcc_parse_bounded_witness :
  let body := [0;0;0;1; 0;0;0;2; 0;9; 0;3; 0;0;5; 7; 0x20;0x03; 1;2;3; 0;0;0] in
  read_u16 body 10 = Ok 3.
Proof.
  assert (rust_slice [0;0;0;1; 0;0;0;2; 0;9; 0;3; 0;0;5; 7; 0x20;0x03; 1;2;3; 0;0;0]) as H
    by (split; [unfold bytes_ok; eval_facts|eval_facts]).
  exact (proj1 (proj2 (twcc_parse_bounded _ H) _ eq_refl)).
Defined.
