(* ===== verification/Rtcp.v ===== *)
(** * webrtc/rtcp: the compound codec (src/codec.rs) *)
From S2P Require Import Prelude Words Slices RtcpModel.
From S2P Require Twcc.

Definition HEADER_LEN : Z := 4.
Definition REPORT_BLOCK_LEN : Z := 24.
Definition MAX_PACKET_LEN : Z := 262144.

Definition require_body_len (packet_type : Z) (body : bytes) (expected : Z)
    : outcome RtcpError unit :=
  if len body =? expected then Ok tt else Err (InvalidBodyLength packet_type (len body)).

Definition strip_padding (has_padding : bool) (body : bytes) : outcome RtcpError bytes :=
  if negb has_padding then Ok body
  else
    padding_len ← ok_or (last body) (InvalidPadding 0);
    _ ← reject_if ((padding_len =? 0) || (len body <? padding_len)) (InvalidPadding padding_len);
    let content_len := len body - padding_len in
    padding ← ok_or (get_range body content_len (len body - 1)) (InvalidPadding padding_len);
    _ ← reject_if (existsb (fun byte => negb (byte =? 0)) padding) (InvalidPadding padding_len);
    ok_or (get_to body content_len) (InvalidPadding padding_len).

Definition checked_count (count : Z) : outcome RtcpError Z :=
  if 31 <? count then Err (CountTooLarge count)
  else ok_or (try_from 8 count) (CountTooLarge count).

(** ** Parsing *)
Definition parse_report_block (body : bytes) (position : Z) : outcome RtcpError ReportBlock :=
  ssrc ← read_u32 body position;
  fraction_lost ← ok_or (get body (position + 4)) TruncatedPacket;
  cumulative_lost ← read_i24 body (position + 5);
  extended_highest_sequence ← read_u32 body (position + 8);
  jitter ← read_u32 body (position + 12);
  last_sender_report ← read_u32 body (position + 16);
  delay_since_last_sender_report ← read_u32 body (position + 20);
  Ok {| rb_ssrc := ssrc;
        fraction_lost := fraction_lost;
        cumulative_lost := cumulative_lost;
        extended_highest_sequence := extended_highest_sequence;
        jitter := jitter;
        last_sender_report := last_sender_report;
        delay_since_last_sender_report := delay_since_last_sender_report |}.

Fixpoint parse_report_blocks (count : nat) (body : bytes) (position : Z)
    (reports : list ReportBlock) : outcome RtcpError (list ReportBlock) :=
  match count with
  | O => Ok reports
  | S count =>
      report ← parse_report_block body position;
      parse_report_blocks count body (position + REPORT_BLOCK_LEN) (reports ++ [report])
  end.

Definition parse_sender_report (count : Z) (body : bytes) : outcome RtcpError SenderReport :=
  let expected := 24 + count * REPORT_BLOCK_LEN in
  _ ← require_body_len 200 body expected;
  sender_ssrc ← read_u32 body 0;
  ntp_timestamp ← read_u64 body 4;
  rtp_timestamp ← read_u32 body 12;
  sender_packet_count ← read_u32 body 16;
  sender_octet_count ← read_u32 body 20;
  reports ← parse_report_blocks (Z.to_nat count) body 24 [];
  Ok {| sr_sender_ssrc := sender_ssrc;
        ntp_timestamp := ntp_timestamp;
        rtp_timestamp := rtp_timestamp;
        sender_packet_count := sender_packet_count;
        sender_octet_count := sender_octet_count;
        sr_reports := reports |}.

Definition parse_receiver_report (count : Z) (body : bytes) : outcome RtcpError ReceiverReport :=
  let expected := 4 + count * REPORT_BLOCK_LEN in
  _ ← require_body_len 201 body expected;
  sender_ssrc ← read_u32 body 0;
  reports ← parse_report_blocks (Z.to_nat count) body 4 [];
  Ok {| rr_sender_ssrc := sender_ssrc; rr_reports := reports |}.

(** The inner [loop] over the items of one chunk. *)
Fixpoint parse_sdes_items (fuel : nat) (body : bytes) (position : Z) (items : list SdesItem)
    : outcome RtcpError (Z * list SdesItem) :=
  match fuel with
  | O => Diverge
  | S fuel =>
      item_type ← ok_or (get body position) TruncatedPacket;
      let position := position + 1 in
      if item_type =? 0 then Ok (position, items)
      else
        length ← ok_or (get body position) TruncatedPacket;
        let position := position + 1 in
        e ← ok_or (checked_add 64 position length) TruncatedPacket;
        value ← ok_or (get_range body position e) TruncatedPacket;
        parse_sdes_items fuel body e (items ++ [{| item_type := item_type; item_value := value |}])
  end.

(** [while (position - chunk_start) % 4 != 0]: at most three turns. *)
Fixpoint skip_sdes_padding (fuel : nat) (body : bytes) (chunk_start position : Z)
    : outcome RtcpError Z :=
  match fuel with
  | O => Diverge
  | S fuel =>
      if (position - chunk_start) mod 4 =? 0 then Ok position
      else
        byte ← ok_or (get body position) TruncatedPacket;
        _ ← reject_if (negb (byte =? 0)) (InvalidPadding 0);
        skip_sdes_padding fuel body chunk_start (position + 1)
  end.

Fixpoint parse_sdes_chunks (count : nat) (body : bytes) (position : Z) (chunks : list SdesChunk)
    : outcome RtcpError (Z * list SdesChunk) :=
  match count with
  | O => Ok (position, chunks)
  | S count =>
      let chunk_start := position in
      ssrc ← read_u32 body position;
      let position := position + 4 in
      '(position, items) ← parse_sdes_items (S (length body)) body position [];
      position ← skip_sdes_padding 4 body chunk_start position;
      parse_sdes_chunks count body position (chunks ++ [{| chunk_ssrc := ssrc; items := items |}])
  end.

Definition parse_source_description (count : Z) (body : bytes)
    : outcome RtcpError SourceDescription :=
  '(position, chunks) ← parse_sdes_chunks (Z.to_nat count) body 0 [];
  _ ← reject_if (negb (position =? len body)) (InvalidBodyLength 202 (len body));
  Ok {| chunks := chunks |}.

Fixpoint parse_nack_entries (fuel : nat) (body : bytes) (position : Z) (entries : list NackEntry)
    : outcome RtcpError (list NackEntry) :=
  match fuel with
  | O => Diverge
  | S fuel =>
      if position <? len body then
        packet_id ← read_u16 body position;
        lost_packet_bitmask ← read_u16 body (position + 2);
        parse_nack_entries fuel body (position + 4)
          (entries ++ [{| packet_id := packet_id; lost_packet_bitmask := lost_packet_bitmask |}])
      else Ok entries
  end.

Definition parse_nack (body : bytes) : outcome RtcpError GenericNack :=
  _ ← reject_if ((len body <? 8) || negb ((len body - 8) mod 4 =? 0))
        (InvalidBodyLength 205 (len body));
  entries ← parse_nack_entries (S (length body)) body 8 [];
  sender_ssrc ← read_u32 body 0;
  media_ssrc ← read_u32 body 4;
  Ok {| nack_sender_ssrc := sender_ssrc; nack_media_ssrc := media_ssrc; entries := entries |}.

Definition parse_pli (body : bytes) : outcome RtcpError PictureLossIndication :=
  _ ← require_body_len 206 body 8;
  sender_ssrc ← read_u32 body 0;
  media_ssrc ← read_u32 body 4;
  Ok {| pli_sender_ssrc := sender_ssrc; pli_media_ssrc := media_ssrc |}.

Definition parse_packet (count packet_type : Z) (body : bytes) : outcome RtcpError Packet :=
  if packet_type =? 200 then PSenderReport <$> parse_sender_report count body
  else if packet_type =? 201 then PReceiverReport <$> parse_receiver_report count body
  else if packet_type =? 202 then PSourceDescription <$> parse_source_description count body
  else if (packet_type =? 205) && (count =? 1) then PGenericNack <$> parse_nack body
  else if (packet_type =? 205) && (count =? 15) then PTransportWideFeedback <$> Twcc.parse body
  else if (packet_type =? 206) && (count =? 1) then PPictureLossIndication <$> parse_pli body
  else Ok (PRaw {| raw_count := count; raw_packet_type := packet_type; raw_body := body |}).

(** One turn of the loop of [parse_compound]: the packet and its length. *)
Definition parse_one (remaining : bytes) : outcome RtcpError (Packet * Z) :=
  _ ← reject_if (len remaining <? HEADER_LEN) (PacketTooShort (len remaining));
  first ← index remaining 0;
  let version := Z.shiftr first 6 in
  _ ← reject_if (negb (version =? 2)) (UnsupportedVersion version);
  let has_padding := has_bit first 0x20 in
  let count := Z.land first 0x1f in
  packet_type ← index remaining 1;
  b2 ← index remaining 2;
  b3 ← index remaining 3;
  let words_minus_one := from_be_bytes [b2; b3] in
  packet_len ← ok_or (words ← checked_add 64 words_minus_one 1; checked_mul 64 words 4)
                 PacketTooLarge;
  packet_bytes ← ok_or (get_to remaining packet_len)
                   (InvalidPacketLength packet_len (len remaining));
  body_with_padding ← ok_or (get_from packet_bytes HEADER_LEN) TruncatedPacket;
  body ← strip_padding has_padding body_with_padding;
  packet ← parse_packet count packet_type body;
  Ok (packet, packet_len).

Fixpoint parse_loop (fuel : nat) (input : bytes) (position : Z) (packets : list Packet)
    : outcome RtcpError (list Packet) :=
  match fuel with
  | O => Diverge
  | S fuel =>
      if position <? len input then
        remaining ← ok_or (get_from input position) (PacketTooShort 0);
        '(packet, packet_len) ← parse_one remaining;
        parse_loop fuel input (position + packet_len) (packets ++ [packet])
      else Ok packets
  end.

Definition parse_compound (input : bytes) : outcome RtcpError (list Packet) :=
  packets ← parse_loop (S (length input)) input 0 [];
  match packets with
  | [] => Err (PacketTooShort 0)
  | _ => Ok packets
  end.

(** ** Encoding *)
Fixpoint encode_report_blocks (output : bytes) (reports : list ReportBlock)
    : outcome RtcpError bytes :=
  match reports with
  | [] => Ok output
  | report :: reports =>
      _ ← reject_if (negb (in_i24 (cumulative_lost report)))
            (InvalidCumulativeLoss (cumulative_lost report));
      encode_report_blocks
        (output ++ to_be_bytes 4 (rb_ssrc report)
           ++ [fraction_lost report]
           ++ drop 1 (to_be_bytes 4 (to_unsigned 32 (cumulative_lost report)))
           ++ to_be_bytes 4 (extended_highest_sequence report)
           ++ to_be_bytes 4 (jitter report)
           ++ to_be_bytes 4 (last_sender_report report)
           ++ to_be_bytes 4 (delay_since_last_sender_report report)) reports
  end.

Definition encode_sender_report (report : SenderReport) : outcome RtcpError (Z * Z * bytes) :=
  count ← checked_count (len (sr_reports report));
  let body := to_be_bytes 4 (sr_sender_ssrc report)
    ++ to_be_bytes 8 (ntp_timestamp report)
    ++ to_be_bytes 4 (rtp_timestamp report)
    ++ to_be_bytes 4 (sender_packet_count report)
    ++ to_be_bytes 4 (sender_octet_count report) in
  body ← encode_report_blocks body (sr_reports report);
  Ok (count, 200, body).

Definition encode_receiver_report (report : ReceiverReport) : outcome RtcpError (Z * Z * bytes) :=
  count ← checked_count (len (rr_reports report));
  body ← encode_report_blocks (to_be_bytes 4 (rr_sender_ssrc report)) (rr_reports report);
  Ok (count, 201, body).

Fixpoint encode_sdes_items (body : bytes) (items : list SdesItem) : outcome RtcpError bytes :=
  match items with
  | [] => Ok body
  | item :: items =>
      length ← ok_or (try_from 8 (len (item_value item))) (SdesItemTooLarge (len (item_value item)));
      encode_sdes_items (body ++ [item_type item; length] ++ item_value item) items
  end.

Fixpoint encode_sdes_chunks (body : bytes) (chunks : list SdesChunk) : outcome RtcpError bytes :=
  match chunks with
  | [] => Ok body
  | chunk :: chunks =>
      let chunk_start := len body in
      body ← encode_sdes_items (body ++ to_be_bytes 4 (chunk_ssrc chunk)) (items chunk);
      body ← align chunk_start (body ++ [0]);
      encode_sdes_chunks body chunks
  end.

Definition encode_sdes (description : SourceDescription) : outcome RtcpError (Z * Z * bytes) :=
  count ← checked_count (len (chunks description));
  body ← encode_sdes_chunks [] (chunks description);
  Ok (count, 202, body).

Definition encode_nack (nack : GenericNack) : bytes :=
  to_be_bytes 4 (nack_sender_ssrc nack) ++ to_be_bytes 4 (nack_media_ssrc nack)
    ++ (entries nack ≫= fun entry =>
          to_be_bytes 2 (packet_id entry) ++ to_be_bytes 2 (lost_packet_bitmask entry)).

Definition encode_pli (pli : PictureLossIndication) : bytes :=
  to_be_bytes 4 (pli_sender_ssrc pli) ++ to_be_bytes 4 (pli_media_ssrc pli).

Definition encode_packet (packet : Packet) : outcome RtcpError (Z * Z * bytes) :=
  match packet with
  | PSenderReport report => encode_sender_report report
  | PReceiverReport report => encode_receiver_report report
  | PSourceDescription description => encode_sdes description
  | PGenericNack nack => Ok (1, 205, encode_nack nack)
  | PPictureLossIndication pli => Ok (1, 206, encode_pli pli)
  | PTransportWideFeedback feedback => body ← Twcc.encode feedback; Ok (15, 205, body)
  | PRaw raw => Ok (raw_count raw, raw_packet_type raw, raw_body raw)
  end.

Fixpoint encode_loop (output : bytes) (packets : list Packet) : outcome RtcpError bytes :=
  match packets with
  | [] => Ok output
  | packet :: packets =>
      '(count, packet_type, body) ← encode_packet packet;
      body ← align 0 body;
      complete_len ← ok_or (checked_add 64 (len body) HEADER_LEN) PacketTooLarge;
      let words_minus_one := complete_len / 4 - 1 in
      wire_length ← ok_or (try_from 16 words_minus_one) PacketTooLarge;
      _ ← reject_if (31 <? count) (CountTooLarge count);
      let output := output ++ [Z.lor 0x80 count; packet_type] ++ to_be_bytes 2 wire_length ++ body in
      _ ← reject_if (MAX_PACKET_LEN <? len output) PacketTooLarge;
      encode_loop output packets
  end.

Definition encode_compound (packets : list Packet) : outcome RtcpError bytes :=
  encode_loop [] packets.

(** ** Every loop stops, every access is in range *)
Lemma returns_require_body_len t body n : returns (require_body_len t body n).
Proof. unfold require_body_len. by case_match. Qed.

Lemma returns_strip_padding b body : returns (strip_padding b body).
Proof. unfold strip_padding. returns_steps. Qed.

Lemma returns_report_block body p : len body < 2 ^ 63 -> returns (parse_report_block body p).
Proof.
  intros Hl. unfold parse_report_block.
  do 7 (apply returns_bind; [auto using returns_read_i24 with returns|intros ? _]). done.
Qed.

Lemma returns_report_blocks n body p acc :
  len body < 2 ^ 63 -> returns (parse_report_blocks n body p acc).
Proof.
  intros Hl. revert p acc. induction n as [|n IH]; intros p acc; cbn [parse_report_blocks]; [done|].
  apply returns_bind; [by apply returns_report_block|auto].
Qed.
#[export] Hint Resolve returns_require_body_len returns_strip_padding : returns.

Lemma returns_sdes_items fuel body p acc : 0 <= p <= len body -> len body < p + Z.of_nat fuel ->
  returns (parse_sdes_items fuel body p acc) /\
  forall p' xs, parse_sdes_items fuel body p acc = Ok (p', xs) -> 0 <= p' <= len body.
Proof.
  revert p acc. induction fuel as [|fuel IH]; intros p acc Hp Hf; [lia|].
  cbn [parse_sdes_items]. destruct (get body p) as [t|] eqn:Ht; [|done].
  apply mk_is_Some, get_is_Some in Ht. cbn [ok_or mbind outcome_bind].
  case_match; [split; [done|]; intros p' xs [= <- <-]; lia|].
  destruct (get body (p + 1)) as [n|]; [|done]. cbn [ok_or mbind outcome_bind].
  destruct (checked_add 64 (p + 1 + 1) n) as [e|]; [|done]. cbn [ok_or mbind outcome_bind].
  destruct (get_range body (p + 1 + 1) e) as [v|] eqn:Hv; [|done]. cbn [ok_or mbind outcome_bind].
  apply get_range_len in Hv. pose_len. apply IH; lia.
Qed.

Lemma returns_skip_padding fuel body start p : 0 <= p <= len body ->
  (start - p) mod 4 < Z.of_nat fuel ->
  returns (skip_sdes_padding fuel body start p) /\
  forall p', skip_sdes_padding fuel body start p = Ok p' -> 0 <= p' <= len body.
Proof.
  revert p. induction fuel as [|fuel IH]; intros p Hp Hf; [zdiv|].
  cbn [skip_sdes_padding]. case_match; [split; [done|]; intros p' [= <-]; lia|].
  destruct (get body p) as [t|] eqn:Ht; [|done].
  apply mk_is_Some, get_is_Some in Ht. cbn [ok_or mbind outcome_bind].
  destruct (negb _); [done|]. cbn [reject_if mbind outcome_bind]. apply IH; zdiv.
Qed.

Lemma read_u32_bound body p v : read_u32 body p = Ok v -> 0 <= p /\ p + 4 <= len body.
Proof.
  intros (l1 & b & l2 & -> & <- & Hb & _)%read_be_Ok. unfold len. rewrite !length_app, Hb. lia.
Qed.

Lemma returns_sdes_chunks n body p acc : 0 <= p <= len body ->
  returns (parse_sdes_chunks n body p acc).
Proof.
  revert p acc. induction n as [|n IH]; intros p acc Hp; cbn [parse_sdes_chunks]; [done|].
  apply returns_bind; [auto with returns|]. intros ssrc Hs%read_u32_bound.
  destruct (returns_sdes_items (S (length body)) body (p + 4) []) as [Hr Hb];
    [lia|unfold len; lia|]. apply returns_bind; [done|]. intros [p1 xs] Hx%Hb.
  destruct (returns_skip_padding 4 body p p1) as [Hr2 Hb2]; [lia|zdiv|].
  apply returns_bind; [done|]. intros p2 Hp2%Hb2. by apply IH.
Qed.

Lemma returns_nack_entries fuel body p acc : (0 < fuel)%nat -> len body < p + Z.of_nat fuel ->
  returns (parse_nack_entries fuel body p acc).
Proof.
  revert p acc. induction fuel as [|fuel IH]; intros p acc H0 Hf; [lia|].
  cbn [parse_nack_entries]. destruct (Z.ltb_spec p (len body)); [|done].
  do 2 (apply returns_bind; [auto with returns|intros ? _]). apply IH; lia.
Qed.

Lemma returns_parse_packet count packet_type body : rust_slice body ->
  returns (parse_packet count packet_type body).
Proof.
  intros Hb. pose proof (proj2 Hb) as Hl. pose_len. unfold parse_packet.
  repeat case_match; try done; apply returns_fmap.
  - unfold parse_sender_report. do 6 (apply returns_bind; [auto with returns|intros ? _]).
    apply returns_bind; [by apply returns_report_blocks|done].
  - unfold parse_receiver_report. do 2 (apply returns_bind; [auto with returns|intros ? _]).
    apply returns_bind; [by apply returns_report_blocks|done].
  - unfold parse_source_description. apply returns_bind; [apply returns_sdes_chunks; lia|].
    intros [p cs] _. returns_steps.
  - unfold parse_nack. apply returns_bind; [auto with returns|]. intros ? _.
    apply returns_bind; [apply returns_nack_entries; unfold len; lia|]. intros ? _. returns_steps.
  - by apply Twcc.returns_twcc_parse.
  - unfold parse_pli. returns_steps.
Qed.

Lemma rust_slice_part (l1 l2 l3 : bytes) : rust_slice (l1 ++ l2 ++ l3) -> rust_slice l2.
Proof.
  intros [H Hl]. rewrite !bytes_ok_app in H. rewrite !len_app in Hl. pose_len. split; [apply H|lia].
Qed.

Lemma rust_slice_range l a b v : rust_slice l -> get_range l a b = Some v -> rust_slice v.
Proof. intros H (l1 & l2 & -> & _)%get_range_Some. by eapply rust_slice_part. Qed.

Lemma strip_padding_range b body v : strip_padding b body = Ok v ->
  exists n, get_to body n = Some v.
Proof.
  unfold strip_padding. destruct b; cbn [negb].
  - intros (pl & _ & H)%bind_Ok. do 3 (apply bind_Ok in H as (? & _ & H)). apply ok_or_Ok in H. eauto.
  - intros [= <-]. exists (len body). by apply get_range_all.
Qed.

Lemma parse_one_spec remaining : rust_slice remaining ->
  returns (parse_one remaining) /\
  forall packet n, parse_one remaining = Ok (packet, n) -> 4 <= n <= len remaining.
Proof.
  intros Hr. unfold parse_one, HEADER_LEN. split.
  - apply returns_bind; [auto with returns|]. intros _ Hlen%reject_if_Ok.
    apply returns_bind; [apply returns_index; lia|]. intros first _.
    apply returns_bind; [auto with returns|]. intros _ _.
    do 3 (apply returns_bind; [apply returns_index; lia|intros ? _]).
    apply returns_bind; [auto with returns|]. intros n _.
    apply returns_bind; [auto with returns|]. intros pb Hpb%ok_or_Ok.
    apply returns_bind; [auto with returns|]. intros bp Hbp%ok_or_Ok.
    apply returns_bind; [auto with returns|]. intros body [m Hbody]%strip_padding_range.
    apply returns_bind; [|done]. apply returns_parse_packet. eauto using rust_slice_range.
  - intros packet n H. do 3 (apply bind_Ok in H as (? & _ & H)).
    do 3 (apply bind_Ok in H as (? & _ & H)).
    apply bind_Ok in H as (m & Hm & H). apply bind_Ok in H as (pb & Hpb%ok_or_Ok%get_range_len & H).
    apply bind_Ok in H as (bp & Hbp%ok_or_Ok%get_range_len & H).
    do 2 (apply bind_Ok in H as (? & _ & H)). injection H as <- <-. pose_len. lia.
Qed.

Lemma returns_parse_loop fuel input p acc : rust_slice input -> 0 <= p ->
  len input < p + Z.of_nat fuel -> (0 < fuel)%nat -> returns (parse_loop fuel input p acc).
Proof.
  intros Hin. revert p acc. induction fuel as [|fuel IH]; intros p acc Hp Hf H0; [lia|].
  cbn [parse_loop]. destruct (Z.ltb_spec p (len input)); [|done].
  apply returns_bind; [auto with returns|]. intros remaining Hr%ok_or_Ok.
  destruct (parse_one_spec remaining) as [H1 H2]; [by eapply rust_slice_range|].
  apply returns_bind; [done|]. intros [packet n] Hn%H2. apply IH; lia.
Qed.

Lemma returns_parse_compound input : rust_slice input -> returns (parse_compound input).
Proof.
  intros H. unfold parse_compound. apply returns_bind; [|intros []; done].
  apply returns_parse_loop; [done|lia|unfold len; lia|lia].
Qed.

(** ** Round trip: report blocks *)
Definition report_ok (r : ReportBlock) : Prop :=
  u32 (rb_ssrc r) /\ u8 (fraction_lost r) /\ u32 (extended_highest_sequence r) /\
  u32 (jitter r) /\ u32 (last_sender_report r) /\ u32 (delay_since_last_sender_report r).

Definition block_bytes (r : ReportBlock) : bytes :=
  to_be_bytes 4 (rb_ssrc r) ++ [fraction_lost r]
    ++ drop 1 (to_be_bytes 4 (to_unsigned 32 (cumulative_lost r)))
    ++ to_be_bytes 4 (extended_highest_sequence r) ++ to_be_bytes 4 (jitter r)
    ++ to_be_bytes 4 (last_sender_report r) ++ to_be_bytes 4 (delay_since_last_sender_report r).

Lemma len_block_bytes r : len (block_bytes r) = 24.
Proof. unfold block_bytes. rewrite !len_app, len_drop, !len_to_be_bytes. done. Qed.

Lemma len_blocks rs : len (rs ≫= block_bytes) = 24 * len rs.
Proof.
  induction rs as [|r rs IH]; [done|]. rewrite bind_cons, len_app, len_block_bytes, len_cons. lia.
Qed.

Lemma encode_report_blocks_Ok out rs body : encode_report_blocks out rs = Ok body ->
  Forall (fun r => in_i24 (cumulative_lost r) = true) rs /\ body = out ++ (rs ≫= block_bytes).
Proof.
  revert out. induction rs as [|r rs IH]; intros out; cbn [encode_report_blocks].
  - intros [= <-]. by rewrite app_nil_r.
  - intros (u & Hr%reject_if_Ok & H)%bind_Ok. apply IH in H as [Hrs ->].
    apply negb_false_iff in Hr. split; [by constructor|]. rewrite bind_cons. unfold block_bytes at 2.
    by rewrite <- !app_assoc.
Qed.

Lemma parse_report_block_encoded pre r rest p : report_ok r -> in_i24 (cumulative_lost r) = true ->
  p = len pre -> len pre < 2 ^ 62 ->
  parse_report_block (pre ++ block_bytes r ++ rest) p = Ok r.
Proof.
  intros (H1 & H2 & H3 & H4 & H5 & H6) Hi -> Hpre. pose_len. unfold parse_report_block, block_bytes.
  pose proof (fun pre rest p => read_i24_encoded pre _ rest p 0 Hi) as Hi24.
  assert (len (drop 1 (to_be_bytes 4 (to_unsigned 32 (cumulative_lost r)))) = 3) as Hl
    by (by rewrite len_drop, len_to_be_bytes).
  set (i24 := drop 1 _) in *. clearbody i24. rewrite <- !app_assoc.
  set (tail := to_be_bytes 4 (extended_highest_sequence r) ++ _).
  set (body := pre ++ _).
  assert (body = (pre ++ to_be_bytes 4 (rb_ssrc r)) ++ fraction_lost r :: i24 ++ tail) as B1
    by (unfold body; by rewrite <- !app_assoc).
  assert (body = (pre ++ to_be_bytes 4 (rb_ssrc r) ++ [fraction_lost r]) ++ i24 ++ tail) as B2
    by (unfold body; by rewrite <- !app_assoc).
  assert (body = (pre ++ to_be_bytes 4 (rb_ssrc r) ++ [fraction_lost r] ++ i24) ++ tail) as B3
    by (unfold body; by rewrite <- !app_assoc).
  assert (body = pre ++ to_be_bytes 4 (rb_ssrc r) ++ fraction_lost r :: i24 ++ tail) as B0 by done.
  unfold read_u32. clearbody body. rewrite B0.
  rewrite (read_be_off _ _ pre _ (len pre) 0), read_be_first by (done || mlia). cbn [mbind outcome_bind].
  rewrite <- B0, B1. rewrite get_app_here by (rewrite len_app, len_to_be_bytes; lia).
  cbn [ok_or mbind outcome_bind]. rewrite <- B1, B2.
  rewrite Hi24 by (try rewrite !len_app, len_to_be_bytes; change (len [_]) with 1; mlia).
  rewrite <- B2.
  cbn [mbind outcome_bind]. rewrite B3.
  assert (len (pre ++ to_be_bytes 4 (rb_ssrc r) ++ [fraction_lost r] ++ i24) = len pre + 8) as Hp8
    by (rewrite !len_app, len_to_be_bytes; change (len [_]) with 1; lia).
  rewrite (read_be_off _ _ _ _ (len pre + 8) 0) by mlia. unfold tail. read_field.
  rewrite (read_be_off _ _ _ _ (len pre + 12) 4) by mlia. read_field.
  rewrite (read_be_off _ _ _ _ (len pre + 16) 8) by mlia. read_field.
  rewrite (read_be_off _ _ _ _ (len pre + 20) 12) by mlia. read_field. by destruct r.
Qed.

Lemma parse_report_blocks_encoded rs pre rest acc : Forall report_ok rs ->
  Forall (fun r => in_i24 (cumulative_lost r) = true) rs -> len pre + 24 * len rs < 2 ^ 62 ->
  parse_report_blocks (length rs) (pre ++ (rs ≫= block_bytes) ++ rest) (len pre) acc = Ok (acc ++ rs).
Proof.
  intros H. revert pre acc. induction H as [|r rs Hr Hrs IH]; intros pre acc Hi Hl.
  { cbn. by rewrite app_nil_r. }
  apply Forall_cons in Hi as [Hi His]. rewrite len_cons in Hl. pose_len.
  cbn [length parse_report_blocks]. rewrite bind_cons, <- app_assoc.
  rewrite parse_report_block_encoded by (done || lia). cbn [mbind outcome_bind]. unfold REPORT_BLOCK_LEN.
  rewrite app_assoc. replace (len pre + 24) with (len (pre ++ block_bytes r))
    by (rewrite len_app, len_block_bytes; lia).
  rewrite IH; [by rewrite <- app_assoc|done|]. rewrite len_app, len_block_bytes. lia.
Qed.

(** ** Round trip: source descriptions *)
Definition item_ok (i : SdesItem) : Prop := item_type i <> 0.
Definition chunk_ok (c : SdesChunk) : Prop := u32 (chunk_ssrc c) /\ Forall item_ok (items c).

Definition item_bytes (i : SdesItem) : bytes :=
  item_type i :: len (item_value i) :: item_value i.
Definition chunk_body (c : SdesChunk) : bytes :=
  to_be_bytes 4 (chunk_ssrc c) ++ (items c ≫= item_bytes) ++ [0].
Definition chunk_bytes (c : SdesChunk) : bytes := chunk_body c ++ pad4 (len (chunk_body c)).

Lemma encode_sdes_items_Ok body xs r : encode_sdes_items body xs = Ok r ->
  r = body ++ (xs ≫= item_bytes).
Proof.
  revert body. induction xs as [|i xs IH]; intros body; cbn [encode_sdes_items].
  - intros [= <-]. by rewrite app_nil_r.
  - intros (n & [-> Hn]%ok_or_Ok%try_from_Some & H)%bind_Ok. apply IH in H as ->.
    rewrite bind_cons. unfold item_bytes at 2. by rewrite <- !app_assoc.
Qed.

Lemma encode_sdes_chunks_Ok body cs r : encode_sdes_chunks body cs = Ok r ->
  r = body ++ (cs ≫= chunk_bytes).
Proof.
  revert body. induction cs as [|c cs IH]; intros body; cbn [encode_sdes_chunks].
  - intros [= <-]. by rewrite app_nil_r.
  - intros (b & Hb%encode_sdes_items_Ok & H)%bind_Ok. rewrite align_spec in H.
    cbn [mbind outcome_bind] in H. apply IH in H as ->. rewrite bind_cons. subst b.
    unfold chunk_bytes at 2, chunk_body.
    replace (len _ - len body) with (len (to_be_bytes 4 (chunk_ssrc c) ++ (items c ≫= item_bytes) ++ [0]))
      by (rewrite !len_app; lia).
    by rewrite <- !app_assoc.
Qed.

Lemma sdes_items_encoded xs fuel pre rest acc : Forall item_ok xs -> (length xs < fuel)%nat ->
  len pre + len (xs ≫= item_bytes) < 2 ^ 63 ->
  parse_sdes_items fuel (pre ++ (xs ≫= item_bytes) ++ 0 :: rest) (len pre) acc =
    Ok (len pre + len (xs ≫= item_bytes) + 1, acc ++ xs).
Proof.
  intros H. revert fuel pre acc. induction H as [|i xs Hi Hxs IH]; intros [|fuel] pre acc Hf Hl;
    cbn [length] in Hf; try lia; cbn [parse_sdes_items].
  { cbn [mbind list_bind app]. rewrite (get_app_here pre 0 rest (len pre)) by done. cbn. rewrite app_nil_r. do 2 f_equal.
    rewrite len_nil. lia. }
  rewrite bind_cons in *. rewrite len_app in *. pose_len.
  assert (len (item_bytes i) = 2 + len (item_value i)) as Hil
    by (unfold item_bytes; rewrite !len_cons; lia).
  set (more := xs ≫= item_bytes) in *. rewrite <- app_assoc.
  rewrite Hil. unfold item_bytes. cbn [app]. rewrite (get_app_here pre _ _ (len pre)) by done. cbn [ok_or mbind outcome_bind].
  rewrite (proj2 (Z.eqb_neq (item_type i) 0)) by done.
  rewrite (get_app_skip pre _ (len pre + 1)), get_cons_S by lia. replace (_ - _ - 1) with 0 by lia. rewrite get_cons_0.
  cbn [ok_or mbind outcome_bind]. rewrite checked_add_fits by mlia. cbn [ok_or mbind outcome_bind].
  rewrite get_range_skip, !get_range_cons by lia.
  replace (get_range _ _ _) with (Some (item_value i)); cycle 1.
  { symmetry. apply get_range_Some. exists [], (more ++ 0 :: rest). split_and!; [done|rewrite len_nil; lia|lia]. }
  cbn [ok_or mbind outcome_bind].
  specialize (IH fuel (pre ++ item_bytes i) (acc ++ [i]) ltac:(lia)).
  rewrite len_app, Hil, <- !app_assoc in IH.
  replace {| item_type := item_type i; item_value := item_value i |} with i by (by destruct i).
  replace (len pre + 1 + 1 + len (item_value i)) with (len pre + (2 + len (item_value i))) by lia.
  etransitivity; [exact (IH ltac:(lia))|]. do 2 f_equal. lia.
Qed.

Lemma skip_padding_encoded start pre rest : start <= len pre ->
  skip_sdes_padding 4 (pre ++ pad4 (len pre - start) ++ rest) start (len pre) =
    Ok (len pre + len (pad4 (len pre - start))).
Proof.
  intros Hs. unfold pad4.
  assert (forall k fuel pre, (k < fuel)%nat -> (- (len pre - start)) mod 4 = Z.of_nat k -> (k < 4)%nat ->
    skip_sdes_padding fuel (pre ++ replicate k 0 ++ rest) start (len pre) = Ok (len pre + Z.of_nat k)) as Hk.
  { clear. induction k as [|k IH]; intros [|fuel] pre Hf Hm H4; try lia; cbn [skip_sdes_padding].
    - replace (_ =? 0) with true by zdiv. by rewrite Z.add_0_r.
    - replace (_ =? 0) with false by zdiv. cbn [replicate app]. rewrite get_app_here by done.
      cbn [ok_or mbind outcome_bind Z.eqb negb reject_if].
      specialize (IH fuel (pre ++ [0])). rewrite len_app, <- app_assoc in IH. change (len [0]) with 1 in IH.
      etransitivity; [apply IH; [lia|zdiv|lia]|]. f_equal. lia. }
  pose proof (Z.mod_pos_bound (- (len pre - start)) 4 ltac:(lia)).
  unfold replicateZ. rewrite Hk by lia. do 2 f_equal. unfold len. rewrite length_replicate. done.
Qed.

Lemma len_items_ge xs : len xs <= len (xs ≫= item_bytes).
Proof.
  induction xs as [|i xs IH]; [done|]. rewrite bind_cons, len_app, len_cons. unfold item_bytes at 1.
  rewrite !len_cons. pose_len. lia.
Qed.

Lemma sdes_chunks_encoded cs pre rest acc : Forall chunk_ok cs ->
  len pre + len (cs ≫= chunk_bytes) < 2 ^ 62 ->
  parse_sdes_chunks (length cs) (pre ++ (cs ≫= chunk_bytes) ++ rest) (len pre) acc =
    Ok (len pre + len (cs ≫= chunk_bytes), acc ++ cs).
Proof.
  intros H. revert pre acc. induction H as [|c cs [Hc Hi] Hcs IH]; intros pre acc Hl.
  { cbn. by rewrite app_nil_r, Z.add_0_r. }
  cbn [length parse_sdes_chunks]. rewrite bind_cons in *. rewrite len_app in *. pose_len.
  set (more := cs ≫= chunk_bytes) in *.
  assert (chunk_bytes c = to_be_bytes 4 (chunk_ssrc c) ++ (items c ≫= item_bytes) ++ 0 ::
    pad4 (len (chunk_body c))) as Hcb by (unfold chunk_bytes, chunk_body; by rewrite <- !app_assoc).
  assert (len (chunk_body c) = 4 + len (items c ≫= item_bytes) + 1) as Hbl
    by (unfold chunk_body; rewrite !len_app, len_to_be_bytes, len_cons, len_nil; lia).
  assert (len (chunk_bytes c) = len (chunk_body c) + len (pad4 (len (chunk_body c)))) as Hcl
    by (unfold chunk_bytes; rewrite len_app; lia). pose_len. pose proof (len_items_ge (items c)) as Hge.
  set (body := pre ++ _).
  assert (body = pre ++ to_be_bytes 4 (chunk_ssrc c) ++ (items c ≫= item_bytes) ++ 0 ::
    pad4 (len (chunk_body c)) ++ more ++ rest) as B0
    by (unfold body; rewrite Hcb, <- !app_assoc, <- app_comm_cons; done).
  assert (body = (pre ++ to_be_bytes 4 (chunk_ssrc c)) ++ (items c ≫= item_bytes) ++ 0 ::
    pad4 (len (chunk_body c)) ++ more ++ rest) as B1 by (rewrite B0; by rewrite <- app_assoc).
  assert (body = (pre ++ chunk_body c) ++ pad4 (len (chunk_body c)) ++ more ++ rest) as B2
    by (rewrite B0; unfold chunk_body; by rewrite <- !app_assoc).
  assert (body = (pre ++ chunk_bytes c) ++ more ++ rest) as B3 by (unfold body; by rewrite <- !app_assoc).
  assert (len (items c) < len body) as Hfuel.
  { rewrite B0, !len_app, len_cons, len_to_be_bytes. pose_len. lia. }
  clearbody body. unfold read_u32.
  rewrite B0, (read_be_off _ _ pre _ (len pre) 0), read_be_first, <- B0 by (done || mlia).
  cbn [mbind outcome_bind]. replace (len pre + 4) with (len (pre ++ to_be_bytes 4 (chunk_ssrc c)))
    by (rewrite len_app, len_to_be_bytes; lia).
  rewrite B1, sdes_items_encoded, <- B1;
    [|done|rewrite <- B1; unfold len in *; lia|rewrite len_app, len_to_be_bytes; mlia].
  cbn [mbind outcome_bind app].
  replace (len (pre ++ to_be_bytes 4 _) + _ + 1) with (len (pre ++ chunk_body c))
    by (rewrite !len_app, len_to_be_bytes, Hbl; lia).
  replace (len (chunk_body c)) with (len (pre ++ chunk_body c) - len pre) in B2 at 1
    by (rewrite len_app; lia).
  rewrite B2, skip_padding_encoded, <- B2 by (rewrite len_app; lia). cbn [mbind outcome_bind].
  replace (len (pre ++ chunk_body c) + _) with (len (pre ++ chunk_bytes c)); cycle 1.
  { rewrite !len_app, Hcl. replace (len pre + len (chunk_body c) - len pre) with (len (chunk_body c)) by lia. lia. }
  rewrite B3, IH by (rewrite len_app; lia).
  rewrite <- app_assoc, len_app. destruct c. cbn. do 2 f_equal. lia.
Qed.

(** ** Round trip: feedback, packets and compounds *)
Definition entry_ok (e : NackEntry) : Prop := u16 (packet_id e) /\ u16 (lost_packet_bitmask e).
Definition entry_bytes (e : NackEntry) : bytes :=
  to_be_bytes 2 (packet_id e) ++ to_be_bytes 2 (lost_packet_bitmask e).

Lemma len_entries es : len (es ≫= entry_bytes) = 4 * len es.
Proof.
  induction es as [|e es IH]; [done|]. rewrite bind_cons, len_app, len_cons. unfold entry_bytes at 1.
  rewrite len_app, !len_to_be_bytes. lia.
Qed.

Lemma nack_entries_encoded es fuel pre acc : Forall entry_ok es -> (length es < fuel)%nat ->
  len pre + 4 * len es < 2 ^ 62 ->
  parse_nack_entries fuel (pre ++ (es ≫= entry_bytes)) (len pre) acc = Ok (acc ++ es).
Proof.
  intros H. revert fuel pre acc. induction H as [|e es [He1 He2] Hes IH]; intros [|fuel] pre acc Hf Hl;
    cbn [length] in Hf; try lia; cbn [parse_nack_entries].
  { cbn [mbind list_bind]. rewrite !app_nil_r. by rewrite Z.ltb_irrefl. }
  rewrite len_app, len_entries. rewrite len_cons in *. pose_len.
  replace (_ <? _) with true by lia. rewrite bind_cons. unfold read_u16.
  pose proof (eq_refl (entry_bytes e)) as He. unfold entry_bytes in He at 1. rewrite <- He, <- app_assoc.
  rewrite (read_be_off _ _ pre _ (len pre) 0) by mlia. read_field.
  rewrite (read_be_off _ _ pre _ (len pre + 2) 2) by mlia. read_field. rewrite (app_assoc (to_be_bytes _ _)), He.
  specialize (IH fuel (pre ++ entry_bytes e) (acc ++ [e]) ltac:(lia)).
  rewrite <- !app_assoc in IH. rewrite len_app in IH. unfold entry_bytes in IH at 1 3.
  rewrite len_app, !len_to_be_bytes in IH. destruct e. apply IH. lia.
Qed.

(** The values of the Rust types, for packets other than [Raw]; a [Raw] packet is one the
    parser does not know, with a whole number of words. *)
Definition packet_ok (p : Packet) : Prop :=
  match p with
  | PSenderReport r => u32 (sr_sender_ssrc r) /\ u64 (ntp_timestamp r) /\ u32 (rtp_timestamp r) /\
      u32 (sender_packet_count r) /\ u32 (sender_octet_count r) /\ Forall report_ok (sr_reports r)
  | PReceiverReport r => u32 (rr_sender_ssrc r) /\ Forall report_ok (rr_reports r)
  | PSourceDescription d => Forall chunk_ok (chunks d)
  | PGenericNack n => u32 (nack_sender_ssrc n) /\ u32 (nack_media_ssrc n) /\ Forall entry_ok (entries n)
  | PPictureLossIndication p => u32 (pli_sender_ssrc p) /\ u32 (pli_media_ssrc p)
  | PTransportWideFeedback f => Twcc.feedback_ok f
  | PRaw r => u8 (raw_count r) /\ u8 (raw_packet_type r) /\ len (raw_body r) mod 4 = 0 /\
      parse_packet (raw_count r) (raw_packet_type r) (raw_body r) = Ok (PRaw r)
  end.

Lemma checked_count_Ok n c : checked_count n = Ok c -> c = n /\ n <= 31.
Proof.
  unfold checked_count. case_match; [done|]. intros [-> _]%ok_or_Ok%try_from_Some. lia.
Qed.

Lemma to_nat_len {A} (l : list A) : Z.to_nat (len l) = length l.
Proof. unfold len. lia. Qed.

Lemma Ok3_inj {E A B C} (a a' : A) (b b' : B) (c c' : C) :
  Ok (E:=E) (a, b, c) = Ok (a', b', c') -> a = a' /\ b = b' /\ c = c'.
Proof. by intros [= -> -> ->]. Qed.

Lemma encode_sender_report_parse r c t body : packet_ok (PSenderReport r) ->
  encode_sender_report r = Ok (c, t, body) ->
  t = 200 /\ 0 <= c /\ len body mod 4 = 0 /\ parse_sender_report c body = Ok r.
Proof.
  intros (H1 & H2 & H3 & H4 & H5 & H6) (n & [-> Hn]%checked_count_Ok & H)%bind_Ok.
  apply bind_Ok in H as (b & [Hi ->]%encode_report_blocks_Ok & H). apply Ok3_inj in H as (<- & <- & <-).
  pose_len.
  set (pre := to_be_bytes 4 _ ++ _). pose proof (len_blocks (sr_reports r)) as Hbl.
  assert (len pre = 24) as Hpre by (unfold pre; by rewrite !len_app, !len_to_be_bytes).
  assert (len (pre ++ (sr_reports r ≫= block_bytes)) = 24 + len (sr_reports r) * 24) as Hl
    by (rewrite len_app; lia).
  split_and!; [done|done|rewrite Hl; zdiv|]. unfold parse_sender_report, require_body_len, REPORT_BLOCK_LEN.
  rewrite Hl, Z.eqb_refl. cbn [mbind outcome_bind]. rewrite to_nat_len.
  pose proof (parse_report_blocks_encoded (sr_reports r) pre [] [] H6 Hi) as Hp.
  rewrite app_nil_r, Hpre in Hp. set (whole := pre ++ _) in *. unfold read_u32, read_u64.
  assert (whole = pre ++ (sr_reports r ≫= block_bytes)) as W by done. clearbody whole.
  unfold pre in W. rewrite <- !app_assoc in W. rewrite W. do 5 read_field. rewrite <- W.
  rewrite Hp by lia. cbn [mbind outcome_bind app]. by destruct r.
Qed.

Lemma encode_receiver_report_parse r c t body : packet_ok (PReceiverReport r) ->
  encode_receiver_report r = Ok (c, t, body) ->
  t = 201 /\ 0 <= c /\ len body mod 4 = 0 /\ parse_receiver_report c body = Ok r.
Proof.
  intros (H1 & H6) (n & [-> Hn]%checked_count_Ok & H)%bind_Ok.
  apply bind_Ok in H as (b & [Hi ->]%encode_report_blocks_Ok & H). apply Ok3_inj in H as (<- & <- & <-).
  pose_len.
  pose proof (len_blocks (rr_reports r)) as Hbl.
  assert (len (to_be_bytes 4 (rr_sender_ssrc r) ++ (rr_reports r ≫= block_bytes)) =
    4 + len (rr_reports r) * 24) as Hl by (rewrite len_app, len_to_be_bytes; lia).
  split_and!; [done|done|rewrite Hl; zdiv|]. unfold parse_receiver_report, require_body_len, REPORT_BLOCK_LEN.
  rewrite Hl, Z.eqb_refl. cbn [mbind outcome_bind]. rewrite to_nat_len. unfold read_u32. read_field.
  pose proof (parse_report_blocks_encoded (rr_reports r) (to_be_bytes 4 (rr_sender_ssrc r)) [] [] H6 Hi) as Hp.
  rewrite app_nil_r, len_to_be_bytes in Hp. change (Z.of_nat 4) with 4 in Hp. rewrite Hp by lia. by destruct r.
Qed.

Lemma chunks_aligned cs : len (cs ≫= chunk_bytes) mod 4 = 0.
Proof.
  induction cs as [|c cs IH]; [done|]. rewrite bind_cons, len_app. unfold chunk_bytes at 1.
  rewrite len_app. pose proof (pad4_aligned (len (chunk_body c))). zdiv.
Qed.

Lemma encode_packet_parse p c t body : packet_ok p -> encode_packet p = Ok (c, t, body) ->
  len body < 2 ^ 20 -> 0 <= c /\ len body mod 4 = 0 /\ parse_packet c t body = Ok p.
Proof.
  intros Hp He Hmax. destruct p as [r|r|d|n|p|f|r]; cbn [encode_packet] in He.
  - apply encode_sender_report_parse in He as (-> & ? & ? & Hr); [|done].
    unfold parse_packet. cbn [Z.eqb Pos.eqb]. by rewrite Hr.
  - apply encode_receiver_report_parse in He as (-> & ? & ? & Hr); [|done].
    unfold parse_packet. cbn [Z.eqb Pos.eqb]. by rewrite Hr.
  - apply bind_Ok in He as (n & [-> Hn]%checked_count_Ok & He).
    apply bind_Ok in He as (b & Hb%encode_sdes_chunks_Ok & He). apply Ok3_inj in He as (<- & <- & <-).
    cbn [app] in Hb. pose_len. pose proof (sdes_chunks_encoded (chunks d) [] [] [] Hp) as Hs.
    rewrite app_nil_r, len_nil, Z.add_0_l, <- Hb in Hs. cbn [app] in Hs.
    split_and!; [done|..].
    + subst b. apply chunks_aligned.
    + unfold parse_packet, parse_source_description. cbn [Z.eqb Pos.eqb].
      rewrite to_nat_len, Hs by mlia. cbn [mbind outcome_bind]. rewrite Z.eqb_refl. by destruct d.
  - apply Ok3_inj in He as (<- & <- & <-). destruct Hp as (H1 & H2 & H3).
    pose proof (len_entries (entries n)) as Hl. fold entry_bytes in *.
    assert (len (encode_nack n) = 8 + 4 * len (entries n)) as Hb.
    { unfold encode_nack. rewrite !len_app, !len_to_be_bytes. rewrite <- Hl. unfold entry_bytes. lia. }
    pose_len. split_and!; [done|rewrite Hb; zdiv|]. unfold parse_packet, parse_nack. cbn [Z.eqb Pos.eqb andb].
    rewrite Hb. replace (_ || _) with false by (symmetry; apply orb_false_iff; zdiv).
    cbn [reject_if mbind outcome_bind].
    pose proof (nack_entries_encoded (entries n) (S (length (encode_nack n)))
      (to_be_bytes 4 (nack_sender_ssrc n) ++ to_be_bytes 4 (nack_media_ssrc n)) [] H3) as Hn.
    rewrite <- app_assoc, len_app, !len_to_be_bytes in Hn.
    specialize (Hn ltac:(unfold len in *; lia) ltac:(mlia)).
    change (parse_nack_entries (S (length (encode_nack n))) (encode_nack n) 8 [] = Ok (entries n)) in Hn.
    rewrite Hn.
    cbn [mbind outcome_bind]. unfold read_u32, encode_nack. do 2 read_field. by destruct n.
  - apply Ok3_inj in He as (<- & <- & <-). destruct Hp as (H1 & H2).
    assert (len (encode_pli p) = 8) as Hb by (unfold encode_pli; by rewrite len_app, !len_to_be_bytes).
    split_and!; [done|by rewrite Hb|]. unfold parse_packet, parse_pli, require_body_len.
    cbn [Z.eqb Pos.eqb andb]. rewrite Hb. cbn [Z.eqb Pos.eqb mbind outcome_bind].
    unfold read_u32, encode_pli. rewrite <- (app_nil_r (to_be_bytes 4 (pli_media_ssrc p))).
    do 2 read_field. by destruct p.
  - apply bind_Ok in He as (b & Hb & He). apply Ok3_inj in He as (<- & <- & <-).
    apply Twcc.parse_encode in Hb as (Hf & Hm & _); [|done]. split_and!; [done..|].
    unfold parse_packet. cbn [Z.eqb Pos.eqb andb]. by rewrite Hf.
  - apply Ok3_inj in He as (<- & <- & <-). destruct Hp as ([? _] & _ & ? & ?). done.
Qed.

Lemma first_octet_spec c : 0 <= c <= 31 ->
  Z.shiftr (Z.lor 0x80 c) 6 = 2 /\ has_bit (Z.lor 0x80 c) 0x20 = false /\ Z.land (Z.lor 0x80 c) 0x1f = c.
Proof.
  assert (forallb (fun c => (Z.shiftr (Z.lor 0x80 c) 6 =? 2) && negb (has_bit (Z.lor 0x80 c) 0x20)
    && (Z.land (Z.lor 0x80 c) 0x1f =? c)) (seqZ 0 32) = true) as H by (vm_compute; reflexivity).
  intros Hc. pose proof (forallb_seqZ _ _ _ c H ltac:(lia)) as Hx. cbn beta in Hx.
  rewrite !andb_true_iff, negb_true_iff, !Z.eqb_eq in Hx. naive_solver.
Qed.

Definition wire (c t : Z) (body : bytes) : bytes :=
  [Z.lor 0x80 c; t] ++ to_be_bytes 2 (len body / 4) ++ body.

Lemma len_wire c t body : len (wire c t body) = 4 + len body.
Proof. unfold wire. rewrite !len_app, len_to_be_bytes, !len_cons, len_nil. lia. Qed.

Lemma parse_one_encoded c t body rest p : 0 <= c <= 31 -> len body mod 4 = 0 -> len body / 4 <= 65535 ->
  parse_packet c t body = Ok p -> parse_one (wire c t body ++ rest) = Ok (p, 4 + len body).
Proof.
  intros Hc Hm Hmax Hp. destruct (first_octet_spec c Hc) as (Hv & Hpad & Hcount).
  unfold parse_one, HEADER_LEN. rewrite len_app, len_wire. pose_len.
  replace (_ <? 4) with false by lia. cbn [reject_if mbind outcome_bind]. unfold index.
  assert (exists b2 b3, to_be_bytes 2 (len body / 4) = [b2; b3]) as (b2 & b3 & Hb)
    by (by eexists _, _).
  assert (from_be_bytes [b2; b3] = len body / 4) as Hlen
    by (rewrite <- Hb; apply from_to_be_bytes; zdiv).
  assert (wire c t body ++ rest = [Z.lor 0x80 c; t; b2; b3] ++ body ++ rest) as ->
    by (unfold wire; rewrite Hb; by rewrite <- !app_assoc).
  change (get _ 0) with (Some (Z.lor 0x80 c)). cbn [or_panic mbind outcome_bind].
  rewrite Hv, Hpad, Hcount. cbn [Z.eqb Pos.eqb negb reject_if mbind outcome_bind].
  change (get _ 1) with (Some t). change (get _ 2) with (Some b2). change (get _ 3) with (Some b3).
  cbn [or_panic mbind outcome_bind]. rewrite Hlen, checked_add_fits by mlia. cbn [mbind option_bind].
  rewrite checked_mul_fits by mlia. cbn [ok_or mbind outcome_bind].
  replace ((len body / 4 + 1) * 4) with (4 + len body) by zdiv. rewrite app_assoc.
  unfold get_to. rewrite get_range_exact by (rewrite len_app; reflexivity).
  cbn [ok_or mbind outcome_bind]. rewrite get_from_app by done.
  cbn [ok_or mbind outcome_bind strip_padding negb]. by rewrite Hp.
Qed.

Lemma encode_loop_prefix ps out r : encode_loop out ps = Ok r -> exists rest, r = out ++ rest.
Proof.
  revert out. induction ps as [|p ps IH]; intros out; cbn [encode_loop].
  { intros [= <-]. exists []. by rewrite app_nil_r. }
  intros ([[c t] body] & _ & H)%bind_Ok. do 5 (apply bind_Ok in H as (? & _ & H)).
  apply IH in H as [rest ->]. rewrite <- app_assoc. eauto.
Qed.

Lemma encode_step p ps out r : packet_ok p -> encode_loop out (p :: ps) = Ok r ->
  exists c t body, 0 <= c <= 31 /\ len body mod 4 = 0 /\ len body / 4 <= 65535 /\
    parse_packet c t body = Ok p /\ encode_loop (out ++ wire c t body) ps = Ok r /\
    len (out ++ wire c t body) <= MAX_PACKET_LEN.
Proof.
  intros Hp. cbn [encode_loop]. intros ([[c t] body] & He & H)%bind_Ok. rewrite align_spec in H.
  cbn [mbind outcome_bind] in H. rewrite Z.sub_0_r in H.
  apply bind_Ok in H as (n & [-> Hn]%ok_or_Ok%checked_add_Some & H).
  apply bind_Ok in H as (w & [-> Hw]%ok_or_Ok%try_from_Some & H).
  apply bind_Ok in H as (u1 & Hc%reject_if_Ok & H). cbv zeta in H.
  apply bind_Ok in H as (u2 & Hmax%reject_if_Ok & H). unfold HEADER_LEN in *.
  assert (len body <= len (body ++ pad4 (len body))) as Hle by (rewrite len_app; pose_len; lia).
  assert (len body < 2 ^ 20) as Hb by (pose_len; zdiv).
  destruct (encode_packet_parse p c t body Hp He Hb) as (H0 & Hm & Hparse).
  rewrite pad4_nil, app_nil_r in * by done.
  replace ((len body + 4) / 4 - 1) with (len body / 4) in * by zdiv. fold (wire c t body) in *.
  exists c, t, body. split_and!; try done; zdiv.
Qed.

Lemma parse_loop_encoded ps out r fuel acc : Forall packet_ok ps -> encode_loop out ps = Ok r ->
  (length ps < fuel)%nat -> parse_loop fuel r (len out) acc = Ok (acc ++ ps).
Proof.
  intros H. revert out fuel acc. induction H as [|p ps Hp Hps IH]; intros out [|fuel] acc He Hf;
    cbn [length] in Hf; try lia; cbn [parse_loop].
  { injection He as <-. by rewrite Z.ltb_irrefl, app_nil_r. }
  apply encode_step in He as (c & t & body & Hc & Hm & Hw & Hparse & He & Hmax); [|done].
  pose proof (encode_loop_prefix _ _ _ He) as [rest Hr].
  specialize (IH _ fuel (acc ++ [p]) He ltac:(lia)).
  rewrite len_app, len_wire in IH. rewrite Hr, <- app_assoc in *. pose proof (len_wire c t body). pose_len.
  rewrite (proj2 (Z.ltb_lt _ _)) by (rewrite !len_app; pose_len; lia).
  rewrite get_from_app by done. cbn [ok_or mbind outcome_bind].
  rewrite (parse_one_encoded _ _ _ _ p) by done. cbn [mbind outcome_bind].
  rewrite IH, <- app_assoc. done.
Qed.

Lemma encode_loop_bounded ps out r : Forall packet_ok ps -> encode_loop out ps = Ok r ->
  ps <> [] -> len r <= MAX_PACKET_LEN.
Proof.
  intros H. revert out. induction H as [|p ps Hp Hps IH]; intros out He Hne; [done|].
  apply encode_step in He as (c & t & body & _ & _ & _ & _ & He & Hmax); [|done].
  destruct ps; [by injection He as <-|]. by eapply IH.
Qed.

Lemma encode_loop_length ps out r : Forall packet_ok ps -> encode_loop out ps = Ok r ->
  len out + 4 * len ps <= len r.
Proof.
  intros H. revert out. induction H as [|p ps Hp Hps IH]; intros out He.
  { injection He as <-. rewrite (@len_nil Packet). lia. }
  apply encode_step in He as (c & t & body & _ & _ & _ & _ & He & _); [|done].
  apply IH in He. rewrite len_app, len_wire in He. rewrite len_cons. pose_len. lia.
Qed.


(** the compound parser comes back on every datagram, without a panic and in at most
    one turn per four octets; what it accepts is a non-empty list of packets. *)
Theorem rtcp_parse_total input : rust_slice input ->
  returns (parse_compound input) /\ parse_compound input <> Ok [].
Proof.
  intros H. split; [by apply returns_parse_compound|]. unfold parse_compound.
  intros (ps & _ & Hp)%bind_Ok. by destruct ps.
Qed.

Definition example_packets : list Packet :=
  [PReceiverReport {| rr_sender_ssrc := 7; rr_reports := [{| rb_ssrc := 9; fraction_lost := 3;
      cumulative_lost := -5; extended_highest_sequence := 70000; jitter := 11;
      last_sender_report := 12; delay_since_last_sender_report := 13 |}] |};
   PSourceDescription {| chunks := [{| chunk_ssrc := 7;
      items := [{| item_type := 1; item_value := [97; 98] |}] |}] |};
   PGenericNack {| nack_sender_ssrc := 7; nack_media_ssrc := 9;
      entries := [{| packet_id := 65535; lost_packet_bitmask := 5 |}] |};
   PTransportWideFeedback {| tw_sender_ssrc := 7; tw_media_ssrc := 0; base_sequence_number := 4;
      reference_time := -3; feedback_packet_count := 1;
      statuses := [NotReceived; ReceivedSmallDelta 4; ReceivedLargeDelta (-9)] |}].


Lemma rtcp_parse_total_witness :
  returns (parse_compound [0x80; 200; 0; 0]) /\ parse_compound [0x80; 200; 0; 0] <> Ok [].
Proof.
  apply (rtcp_parse_total [0x80; 200; 0; 0]). split; [unfold bytes_ok; eval_facts|eval_facts].
Defined.
