(* ===== verification/Replay.v ===== *)
(** * webrtc/srtp: replay protection and packet-index estimation (src/replay.rs)

    The 64-bit sliding window is refined to the set of indices it has accepted. *)
From S2P Require Import Prelude Words Slices RtpSequence.
From S2P Require RtpExtension RtcpModel.

Inductive SrtpError :=
| InvalidMasterKeyLength (length : Z)
| InvalidMasterSaltLength (length : Z)
| AuthenticationFailed
| ReplayDetected
| PacketTooOld
| NonMonotonicSequence
| PacketIndexExhausted
| SrtcpPacketTooShort (length : Z)
| Rtp (error : RtpExtension.RtpError)
| Rtcp (error : RtcpModel.RtcpError).

Module ReplayWindow.
Record t := { maximum : option Z; bitmap : Z }.

Definition default : t := {| maximum := None; bitmap := 0 |}.

Definition check (self : t) (index : Z) : outcome SrtpError unit :=
  match maximum self with
  | None => Ok tt
  | Some maximum =>
      if maximum <? index then Ok tt
      else
        let distance := maximum - index in
        if 64 <=? distance then Err PacketTooOld
        else if has_bit (bitmap self) (Z.shiftl 1 distance) then Err ReplayDetected
        else Ok tt
  end.

Definition accept (self : t) (index : Z) : t :=
  match maximum self with
  | None => {| maximum := Some index; bitmap := 1 |}
  | Some maximum =>
      if maximum <? index then
        let advance := index - maximum in
        {| maximum := Some index;
           bitmap := if 64 <=? advance then 1
                     else Z.lor (Z.shiftl (bitmap self) advance mod 2 ^ 64) 1 |}
      else {| maximum := Some maximum;
              bitmap := Z.lor (bitmap self) (Z.shiftl 1 (maximum - index) mod 2 ^ 64) |}
  end.
End ReplayWindow.

Definition estimate_index (highest : option Z) (sequence_number : Z) : Z :=
  match highest with
  | None => sequence_number
  | Some highest =>
      let modulus := Z.shiftl 1 16 in
      let half := modulus / 2 in
      let base := highest - highest mod modulus in
      let candidate := wrapping_add 64 base sequence_number in
      if saturating_add 64 candidate half <? highest then saturating_add 64 candidate modulus
      else if (saturating_add 64 highest half <? candidate) && (modulus <=? candidate)
           then candidate - modulus
           else candidate
  end.

Lemma estimate_index_extend h s : estimate_index (Some h) s = extend_wrapping h s (2 ^ 16).
Proof. reflexivity. Qed.

(** ** The window as a set *)
Section Window.
Import ReplayWindow.

Lemma has_bit_shiftl x d : 0 <= d -> has_bit x (Z.shiftl 1 d) = Z.testbit x d.
Proof.
  intros Hd. unfold has_bit. destruct (Z.testbit x d) eqn:Hb.
  - apply negb_true_iff, Z.eqb_neq. intros H0.
    assert (Z.testbit (Z.land x (Z.shiftl 1 d)) d = false) as H by (by rewrite H0, Z.bits_0).
    rewrite Z.land_spec, Hb, Z.shiftl_spec, Z.sub_diag in H by done. done.
  - apply negb_false_iff, Z.eqb_eq, Z.bits_inj'. intros i Hi.
    rewrite Z.land_spec, Z.bits_0, Z.shiftl_spec by done.
    destruct (decide (i = d)) as [->|]; [by rewrite Hb|].
    replace (Z.testbit 1 (i - d)) with false; [apply andb_false_r|].
    destruct (decide (0 <= i - d)); [|by rewrite Z.testbit_neg_r by lia].
    symmetry. apply Z.bits_above_log2; [lia|]. cbn. lia.
Qed.

Lemma testbit_one d : Z.testbit 1 d = (d =? 0).
Proof.
  destruct (Z.eqb_spec d 0) as [->|]; [done|].
  destruct (decide (0 <= d)); [|by rewrite Z.testbit_neg_r by lia].
  apply Z.bits_above_log2; [lia|]. cbn. lia.
Qed.

Lemma testbit_mod64 x d : 0 <= d < 64 -> Z.testbit (x mod 2 ^ 64) d = Z.testbit x d.
Proof. intros. apply Z.mod_pow2_bits_low. lia. Qed.

(** The window [w] after accepting the indices [acc], newest first. *)
Definition represents (w : t) (acc : list Z) : Prop :=
  match maximum w with
  | None => acc = []
  | Some m => m ∈ acc /\ (forall i, i ∈ acc -> i <= m) /\
      forall d, 0 <= d < 64 -> Z.testbit (bitmap w) d = bool_decide (m - d ∈ acc)
  end.

(** The abstract policy: an index is fresh when it was not accepted before and is less
    than 64 behind the newest one. *)
Definition fresh_index (acc : list Z) (i : Z) : bool :=
  bool_decide (i ∉ acc) && forallb (fun j => j <? i + 64) acc.

Lemma represents_default : represents ReplayWindow.default [].
Proof. done. Qed.

Lemma check_spec w acc i : represents w acc ->
  match check w i with
  | Ok _ => fresh_index acc i = true
  | Err ReplayDetected => i ∈ acc
  | Err PacketTooOld => exists m, m ∈ acc /\ i + 64 <= m
  | _ => False
  end.
Proof.
  unfold represents, check, fresh_index. destruct (maximum w) as [m|]; [|intros ->; done].
  intros (Hm & Hmax & Hbits). destruct (Z.ltb_spec m i).
  { apply andb_true_iff. split.
    - apply bool_decide_eq_true. intros Hi%Hmax. lia.
    - apply forallb_forall. intros j Hj%list_elem_of_In%Hmax. lia. }
  cbv zeta. destruct (Z.leb_spec 64 (m - i)); [exists m; split; [done|lia]|].
  rewrite has_bit_shiftl, Hbits by lia. replace (m - (m - i)) with i by lia.
  case_bool_decide as Hi; [done|]. apply andb_true_iff. split; [by apply bool_decide_eq_true|].
  apply forallb_forall. intros j Hj%list_elem_of_In%Hmax. lia.
Qed.

Lemma accept_spec w acc i : represents w acc -> check w i = Ok tt ->
  represents (accept w i) (i :: acc).
Proof.
  unfold represents, check, accept. destruct (maximum w) as [m|]; cycle 1.
  { intros -> _. cbn [maximum bitmap]. split_and!; [set_solver|intros j Hj%list_elem_of_singleton; lia|].
    intros d Hd. rewrite testbit_one. destruct (Z.eqb_spec d 0) as [->|].
    - symmetry. apply bool_decide_eq_true. rewrite list_elem_of_singleton. lia.
    - symmetry. apply bool_decide_eq_false. rewrite list_elem_of_singleton. lia. }
  intros (Hm & Hmax & Hbits). destruct (Z.ltb_spec m i) as [Hi|Hi]; cbv zeta; cbn [maximum bitmap].
  - intros _. split_and!; [set_solver|..].
    { intros j [->|Hj%Hmax]%elem_of_cons; lia. }
    intros d Hd. transitivity (bool_decide (d = 0) || bool_decide (i - d ∈ acc)); cycle 1.
    { rewrite <- bool_decide_or. apply bool_decide_ext. rewrite elem_of_cons. split; intros [?|?]; auto; left; lia. }
    destruct (Z.leb_spec 64 (i - m)).
    + rewrite testbit_one. rewrite (bool_decide_eq_false_2 (i - d ∈ acc)).
      * rewrite orb_false_r. destruct (Z.eqb_spec d 0); case_bool_decide; done.
      * intros Hj%Hmax. lia.
    + rewrite Z.lor_spec, testbit_one, testbit_mod64, Z.shiftl_spec by lia.
      rewrite orb_comm. f_equal; [by destruct (Z.eqb_spec d 0); case_bool_decide|].
      destruct (decide (0 <= d - (i - m))).
      * rewrite Hbits by lia. by replace (m - (d - (i - m))) with (i - d) by lia.
      * rewrite Z.testbit_neg_r by lia. symmetry. apply bool_decide_eq_false. intros Hj%Hmax. lia.
  - destruct (Z.leb_spec 64 (m - i)); [done|]. intros _. split_and!; [set_solver|..].
    { intros j [->|Hj%Hmax]%elem_of_cons; lia. }
    intros d Hd. rewrite Z.lor_spec, testbit_mod64, Z.shiftl_spec, testbit_one, Hbits by lia.
    rewrite orb_comm. transitivity (bool_decide (m - d = i) || bool_decide (m - d ∈ acc)).
    + f_equal. destruct (Z.eqb_spec (d - (m - i)) 0); symmetry;
        [apply bool_decide_eq_true|apply bool_decide_eq_false]; lia.
    + rewrite <- bool_decide_or. apply bool_decide_ext. by rewrite elem_of_cons.
Qed.

Lemma check_complete w acc i : represents w acc -> fresh_index acc i = true -> check w i = Ok tt.
Proof.
  intros Hr Hf. pose proof (check_spec w acc i Hr) as H. unfold fresh_index in Hf.
  apply andb_true_iff in Hf as [Hni Hold]. apply bool_decide_eq_true in Hni.
  rewrite forallb_forall in Hold. destruct (check w i) as [[]|[]| |]; try done.
  destruct H as (m & Hm & Hge). specialize (Hold m (proj1 (list_elem_of_In _ _) Hm)). lia.
Qed.
End Window.

(** Receiving a list of indices: each is checked, and accepted when the check passes. *)
Fixpoint receive_all (w : ReplayWindow.t) (indices : list Z) : list bool :=
  match indices with
  | [] => []
  | i :: indices =>
      match ReplayWindow.check w i with
      | Ok _ => true :: receive_all (ReplayWindow.accept w i) indices
      | _ => false :: receive_all w indices
      end
  end.
Fixpoint receive_spec (acc : list Z) (indices : list Z) : list bool :=
  match indices with
  | [] => []
  | i :: indices =>
      if fresh_index acc i then true :: receive_spec (i :: acc) indices
      else false :: receive_spec acc indices
  end.

Lemma receive_refines w acc indices : represents w acc ->
  receive_all w indices = receive_spec acc indices.
Proof.
  revert w acc. induction indices as [|i indices IH]; intros w acc Hr; cbn; [done|].
  destruct (fresh_index acc i) eqn:Hf.
  - pose proof (check_complete w acc i Hr Hf) as Hc. rewrite Hc. f_equal. apply IH.
    by apply accept_spec.
  - pose proof (check_spec w acc i Hr) as Hc.
    destruct (ReplayWindow.check w i) as [[]| | |]; [congruence|f_equal; by apply IH|done..].
Qed.

(** the 64-bit replay window decides exactly like the set of all indices accepted so
    far: an index passes when it is new and less than 64 behind the newest accepted one,
    for every sequence of arrivals. *)
Theorem replay_window_refines_set indices :
  receive_all ReplayWindow.default indices = receive_spec [] indices.
Proof. apply receive_refines. apply represents_default. Qed.
