(* ===== verification/Srtp.v ===== *)
(** * webrtc/srtp: key derivation and the SRTP/SRTCP context (src/keys.rs, src/context.rs)

    AES-128 in counter mode and HMAC-SHA1 come from the [aes], [ctr], [hmac] and [sha1]
    packages; they are the parameters of the class [SrtpCrypto].  What the code relies
    on is that the cipher adds (exclusive or) a key stream of octets that depends on the key and
    the initial counter only, and that a tag has 20 octets. *)
From S2P Require Import Prelude Words Slices RustStd Replay.
From S2P Require RtpExtension RtpPacket RtpRewrite RtpSequence RtcpModel Rtcp.

Class SrtpCrypto := {
  aes128_ctr : bytes -> bytes -> nat -> Z;
  aes128_ctr_octet key iv i : u8 (aes128_ctr key iv i);
  hmac_sha1 : bytes -> bytes -> bytes;
  hmac_sha1_length key message : length (hmac_sha1 key message) = 20%nat }.

Inductive ProtectionProfile := Aes128CmSha1_80 | Aes128CmSha1_32.

Definition rtp_tag_len (self : ProtectionProfile) : Z :=
  match self with Aes128CmSha1_80 => 10 | Aes128CmSha1_32 => 4 end.
Definition rtcp_tag_len (self : ProtectionProfile) : Z :=
  match self with Aes128CmSha1_80 | Aes128CmSha1_32 => 10 end.

Record KeyingMaterial := { master_key : bytes; master_salt : bytes }.
Record SessionKeys := { encryption : bytes; authentication : bytes; salt : bytes }.

Module Keying.
Definition new (master_key master_salt : bytes) : outcome SrtpError KeyingMaterial :=
  _ ← reject_if (negb (len master_key =? 16)) (InvalidMasterKeyLength (len master_key));
  _ ← reject_if (negb (len master_salt =? 14)) (InvalidMasterSaltLength (len master_salt));
  Ok {| master_key := master_key; master_salt := master_salt |}.
End Keying.

(** [for (output, input) in iv[at..at + n].iter_mut().zip(v) { *output ^= input }] *)
Definition xor_at (iv : bytes) (at_ : nat) (v : bytes) : bytes :=
  take at_ iv ++ zip_with Z.lxor (take (length v) (drop at_ iv)) v ++ drop (at_ + length v) iv.

Definition make_iv (salt : bytes) (ssrc index : Z) : bytes :=
  let iv := salt ++ drop 14 (replicate 16 0) in
  let iv := xor_at iv 4 (to_be_bytes 4 ssrc) in
  xor_at iv 8 (drop 2 (to_be_bytes 8 index)).

Section Crypto.
Context {crypto : SrtpCrypto}.

Definition apply_keystream (key iv payload : bytes) : bytes :=
  imap (fun i b => Z.lxor b (aes128_ctr key iv i)) payload.

Definition derive_key (length : nat) (material : KeyingMaterial) (label : Z) : bytes :=
  let iv := master_salt material ++ drop 14 (replicate 16 0) in
  let iv := xor_at iv 7 [label] in
  apply_keystream (master_key material) iv (replicate length 0).

Definition derive (self : KeyingMaterial) (encryption_label authentication_label salt_label : Z)
    : SessionKeys :=
  {| encryption := derive_key 16 self encryption_label;
     authentication := derive_key 20 self authentication_label;
     salt := derive_key 14 self salt_label |}.
Definition derive_srtp (self : KeyingMaterial) : SessionKeys := derive self 0 1 2.
Definition derive_srtcp (self : KeyingMaterial) : SessionKeys := derive self 3 4 5.

Definition MAX_SRTP_INDEX : Z := 2 ^ 48 - 1.
Definition MAX_SRTCP_INDEX : Z := 0x7fffffff.

(** [OutboundRtpState] holds the highest index sent. *)
Definition advance (sequence_number : Z) : prog (option Z) SrtpError Z := fun highest_index =>
  let index := estimate_index highest_index sequence_number in
  if from_option (fun highest => index <=? highest) false highest_index
  then (highest_index, Err NonMonotonicSequence)
  else if MAX_SRTP_INDEX <? index then (highest_index, Err PacketIndexExhausted)
  else (Some index, Ok index).

Record SrtpContext := {
  profile : ProtectionProfile;
  outbound_rtp_keys : SessionKeys;
  inbound_rtp_keys : SessionKeys;
  outbound_rtcp_keys : SessionKeys;
  inbound_rtcp_keys : SessionKeys;
  outbound_rtp : gmap Z (option Z);
  inbound_rtp : gmap Z ReplayWindow.t;
  outbound_rtcp_index : Z;
  inbound_rtcp : gmap Z ReplayWindow.t }.

Definition new (profile : ProtectionProfile) (outbound inbound : KeyingMaterial) : SrtpContext :=
  {| profile := profile;
     outbound_rtp_keys := derive_srtp outbound;
     inbound_rtp_keys := derive_srtp inbound;
     outbound_rtcp_keys := derive_srtcp outbound;
     inbound_rtcp_keys := derive_srtcp inbound;
     outbound_rtp := ∅;
     inbound_rtp := ∅;
     outbound_rtcp_index := 0;
     inbound_rtcp := ∅ |}.

Definition set_outbound_rtp (m : gmap Z (option Z)) (c : SrtpContext) : SrtpContext :=
  {| profile := profile c; outbound_rtp_keys := outbound_rtp_keys c;
     inbound_rtp_keys := inbound_rtp_keys c; outbound_rtcp_keys := outbound_rtcp_keys c;
     inbound_rtcp_keys := inbound_rtcp_keys c; outbound_rtp := m; inbound_rtp := inbound_rtp c;
     outbound_rtcp_index := outbound_rtcp_index c; inbound_rtcp := inbound_rtcp c |}.
Definition set_inbound_rtp (m : gmap Z ReplayWindow.t) (c : SrtpContext) : SrtpContext :=
  {| profile := profile c; outbound_rtp_keys := outbound_rtp_keys c;
     inbound_rtp_keys := inbound_rtp_keys c; outbound_rtcp_keys := outbound_rtcp_keys c;
     inbound_rtcp_keys := inbound_rtcp_keys c; outbound_rtp := outbound_rtp c; inbound_rtp := m;
     outbound_rtcp_index := outbound_rtcp_index c; inbound_rtcp := inbound_rtcp c |}.
Definition set_outbound_rtcp_index (n : Z) (c : SrtpContext) : SrtpContext :=
  {| profile := profile c; outbound_rtp_keys := outbound_rtp_keys c;
     inbound_rtp_keys := inbound_rtp_keys c; outbound_rtcp_keys := outbound_rtcp_keys c;
     inbound_rtcp_keys := inbound_rtcp_keys c; outbound_rtp := outbound_rtp c;
     inbound_rtp := inbound_rtp c; outbound_rtcp_index := n; inbound_rtcp := inbound_rtcp c |}.
Definition set_inbound_rtcp (m : gmap Z ReplayWindow.t) (c : SrtpContext) : SrtpContext :=
  {| profile := profile c; outbound_rtp_keys := outbound_rtp_keys c;
     inbound_rtp_keys := inbound_rtp_keys c; outbound_rtcp_keys := outbound_rtcp_keys c;
     inbound_rtcp_keys := inbound_rtcp_keys c; outbound_rtp := outbound_rtp c;
     inbound_rtp := inbound_rtp c; outbound_rtcp_index := outbound_rtcp_index c; inbound_rtcp := m |}.

Definition crypt (payload : bytes) (keys : SessionKeys) (ssrc index : Z) : bytes :=
  apply_keystream (encryption keys) (make_iv (salt keys) ssrc index) payload.
Definition authenticate_rtp (keys : SessionKeys) (packet : bytes) (rollover_counter : Z) : bytes :=
  hmac_sha1 (authentication keys) (packet ++ to_be_bytes 4 rollover_counter).
Definition authenticate (keys : SessionKeys) (packet : bytes) : bytes :=
  hmac_sha1 (authentication keys) packet.
Definition verify_tag (expected received : bytes) : outcome SrtpError unit :=
  if (len expected =? len received) && bool_decide (expected = received)
  then Ok tt else Err AuthenticationFailed.

Definition read_u16 : bytes -> Z -> outcome SrtpError Z := read_be 2 AuthenticationFailed.
Definition read_u32 : bytes -> Z -> outcome SrtpError Z := read_be 4 AuthenticationFailed.

(** [crypt(packet.get_mut(at..).ok_or(e)?, keys, ssrc, index)] *)
Definition crypt_from (packet : bytes) (at_ : Z) (e : SrtpError) (keys : SessionKeys)
    (ssrc index : Z) : outcome SrtpError bytes :=
  payload ← ok_or (get_from packet at_) e;
  Ok (take (Z.to_nat at_) packet ++ crypt payload keys ssrc index).

(** The packet is encrypted in place, so it is part of the state: the context and the
    caller's vector. *)
Definition outbound_advance (ssrc sequence_number : Z) : prog (SrtpContext * bytes) SrtpError Z :=
  fun '(self, packet) =>
    let '(state, r) := advance sequence_number (default None (outbound_rtp self !! ssrc)) in
    ((set_outbound_rtp (<[ssrc := state]> (outbound_rtp self)) self, packet), r).

(** The rest of [protect_rtp] once the index is chosen: encrypt, then append the tag. *)
Definition seal_rtp (header_len ssrc index : Z) : prog (SrtpContext * bytes) SrtpError unit :=
  _ ← try_modify (fun '(self, packet) =>
        packet ← crypt_from packet header_len AuthenticationFailed (outbound_rtp_keys self) ssrc index;
        Ok (self, packet));
  roc ← lift (ok_or (try_from 32 (Z.shiftr index 16)) PacketIndexExhausted);
  try_modify (fun '(self, packet) =>
    let tag := authenticate_rtp (outbound_rtp_keys self) packet roc in
    tag ← index_range tag 0 (rtp_tag_len (profile self));
    Ok (self, packet ++ tag)).

Definition protect_rtp : prog (SrtpContext * bytes) SrtpError unit :=
  parsed ← (fun s => (s, map_err Rtp (RtpPacket.parse s.2)));
  let header_len := RtpPacket.header_len parsed in
  let sequence_number := RtpPacket.sequence_number (RtpPacket.header parsed) in
  let ssrc := RtpPacket.ssrc (RtpPacket.header parsed) in
  index ← outbound_advance ssrc sequence_number;
  seal_rtp header_len ssrc index.

Definition unprotect_rtp (packet : bytes) : prog SrtpContext SrtpError bytes := fun self =>
  let r :=
    let tag_len := rtp_tag_len (profile self) in
    encrypted_len ← ok_or (checked_sub (len packet) tag_len) AuthenticationFailed;
    encrypted ← ok_or (get_to packet encrypted_len) AuthenticationFailed;
    received_tag ← ok_or (get_from packet encrypted_len) AuthenticationFailed;
    header_len ← map_err Rtp (RtpPacket.parse_header_length encrypted);
    sequence_number ← read_u16 encrypted 2;
    ssrc ← read_u32 encrypted 8;
    let replay := default ReplayWindow.default (inbound_rtp self !! ssrc) in
    let index := estimate_index (ReplayWindow.maximum replay) sequence_number in
    _ ← ReplayWindow.check replay index;
    roc ← ok_or (try_from 32 (Z.shiftr index 16)) PacketIndexExhausted;
    let expected := authenticate_rtp (inbound_rtp_keys self) encrypted roc in
    expected ← index_range expected 0 tag_len;
    _ ← verify_tag expected received_tag;
    plaintext ← crypt_from encrypted header_len AuthenticationFailed (inbound_rtp_keys self) ssrc index;
    _ ← map_err Rtp (RtpPacket.parse plaintext);
    Ok (ssrc, index, plaintext) in
  match r with
  | Ok (ssrc, index, plaintext) =>
      let replay := default ReplayWindow.default (inbound_rtp self !! ssrc) in
      (set_inbound_rtp (<[ssrc := ReplayWindow.accept replay index]> (inbound_rtp self)) self,
       Ok plaintext)
  | Err e => (self, Err e)
  | Panic => (self, Panic)
  | Diverge => (self, Diverge)
  end.

Definition protect_rtcp : prog (SrtpContext * bytes) SrtpError unit :=
  _ ← (fun s => (s, map_err Rtcp (Rtcp.parse_compound s.2)));
  packet_len ← gets (fun s => len s.2);
  _ ← lift (reject_if (packet_len <? 8) (SrtcpPacketTooShort packet_len));
  index ← gets (fun s => outbound_rtcp_index s.1);
  _ ← lift (reject_if (MAX_SRTCP_INDEX <? index) PacketIndexExhausted);
  _ ← try_modify (fun '(self, packet) =>
        next ← ok_or (checked_add 32 index 1) PacketIndexExhausted;
        Ok (set_outbound_rtcp_index next self, packet));
  ssrc ← (fun s => (s, read_u32 s.2 4));
  _ ← try_modify (fun '(self, packet) =>
        packet ← crypt_from packet 8 (SrtcpPacketTooShort packet_len) (outbound_rtcp_keys self) ssrc index;
        Ok (self, packet ++ to_be_bytes 4 (Z.lor index 0x80000000)));
  try_modify (fun '(self, packet) =>
    let tag := authenticate (outbound_rtcp_keys self) packet in
    tag ← index_range tag 0 (rtcp_tag_len (profile self));
    Ok (self, packet ++ tag)).

Definition unprotect_rtcp (packet : bytes) : prog SrtpContext SrtpError bytes := fun self =>
  let too_short := SrtcpPacketTooShort (len packet) in
  let r :=
    let tag_len := rtcp_tag_len (profile self) in
    authenticated_len ← ok_or (checked_sub (len packet) tag_len) too_short;
    _ ← reject_if (authenticated_len <? 12) too_short;
    authenticated ← ok_or (get_to packet authenticated_len) too_short;
    received_tag ← ok_or (get_from packet authenticated_len) too_short;
    let index_offset := authenticated_len - 4 in
    index_word ← read_u32 authenticated index_offset;
    let encrypted := has_bit index_word 0x80000000 in
    let index := Z.land index_word MAX_SRTCP_INDEX in
    ssrc ← read_u32 authenticated 4;
    let replay := default ReplayWindow.default (inbound_rtcp self !! ssrc) in
    _ ← ReplayWindow.check replay index;
    let expected := authenticate (inbound_rtcp_keys self) authenticated in
    expected ← index_range expected 0 tag_len;
    _ ← verify_tag expected received_tag;
    plaintext ← ok_or (get_to authenticated index_offset) too_short;
    plaintext ←
      (if encrypted
       then crypt_from plaintext 8 (SrtcpPacketTooShort (len plaintext)) (inbound_rtcp_keys self) ssrc index
       else Ok plaintext);
    _ ← map_err Rtcp (Rtcp.parse_compound plaintext);
    Ok (ssrc, index, plaintext) in
  match r with
  | Ok (ssrc, index, plaintext) =>
      let replay := default ReplayWindow.default (inbound_rtcp self !! ssrc) in
      (set_inbound_rtcp (<[ssrc := ReplayWindow.accept replay index]> (inbound_rtcp self)) self,
       Ok plaintext)
  | Err e => (self, Err e)
  | Panic => (self, Panic)
  | Diverge => (self, Diverge)
  end.

End Crypto.

(** ** The cipher and the initial counters *)
Section Facts.
Context {crypto : SrtpCrypto}.

Lemma apply_keystream_involutive key iv payload :
  apply_keystream key iv (apply_keystream key iv payload) = payload.
Proof.
  unfold apply_keystream. apply list_eq. intros i. rewrite !list_lookup_imap.
  destruct (payload !! i) as [b|]; cbn; [|done].
  by rewrite Z.lxor_assoc, Z.lxor_nilpotent, Z.lxor_0_r.
Qed.

Lemma len_crypt payload keys ssrc index : len (crypt payload keys ssrc index) = len payload.
Proof. unfold crypt, apply_keystream, len. by rewrite length_imap. Qed.

Lemma derive_key_length n material label : length (derive_key n material label) = n.
Proof. unfold derive_key, apply_keystream. by rewrite length_imap, length_replicate. Qed.

Lemma zip_lxor_inj (base v1 v2 : bytes) : length v1 = length v2 -> (length v1 <= length base)%nat ->
  zip_with Z.lxor base v1 = zip_with Z.lxor base v2 -> v1 = v2.
Proof.
  revert v1 v2. induction base as [|b base IH]; intros [|x v1] [|y v2] Hl Hb H; cbn in *; try done; try lia.
  injection H as Hxy Hrest. f_equal; [|apply IH; auto; lia].
  apply (f_equal (Z.lxor b)) in Hxy. by rewrite <- !Z.lxor_assoc, Z.lxor_nilpotent, !Z.lxor_0_l in Hxy.
Qed.

Lemma make_iv_shape salt ssrc index : length salt = 14%nat ->
  make_iv salt ssrc index =
    take 4 salt ++ zip_with Z.lxor (take 4 (drop 4 salt)) (to_be_bytes 4 ssrc)
      ++ zip_with Z.lxor (drop 8 salt) (drop 2 (to_be_bytes 8 index)) ++ [0; 0].
Proof.
  intros Hs. do 14 (destruct salt as [|? salt]; [discriminate|]). destruct salt; [|discriminate].
  reflexivity.
Qed.

Lemma make_iv_inj salt ssrc1 ssrc2 index1 index2 : length salt = 14%nat ->
  u32 ssrc1 -> u32 ssrc2 -> 0 <= index1 <= MAX_SRTP_INDEX -> 0 <= index2 <= MAX_SRTP_INDEX ->
  make_iv salt ssrc1 index1 = make_iv salt ssrc2 index2 -> ssrc1 = ssrc2 /\ index1 = index2.
Proof.
  intros Hs H1 H2 Hi1 Hi2. rewrite !make_iv_shape by done. intros H.
  apply app_inj_1 in H as [_ H]; [|done].
  apply app_inj_1 in H as [Hssrc H]; [|rewrite !length_zip_with, !length_to_be_bytes; done].
  apply app_inj_1 in H as [Hidx _]; [|rewrite !length_zip_with, !length_drop, !length_to_be_bytes; done].
  apply zip_lxor_inj in Hssrc, Hidx;
    rewrite ?length_drop, ?length_take, ?length_drop, ?length_to_be_bytes, ?Hs; try (done || lia).
  split; [by eapply (to_be_bytes_inj 4)|].
  change (to_be_bytes 6 index1 = to_be_bytes 6 index2) in Hidx.
  unfold MAX_SRTP_INDEX in *. eapply (to_be_bytes_inj 6); [..|done]; mlia.
Qed.

(** ** The clear header survives encryption *)
Lemma get_to_len {A} (l l' : list A) n v : len l = len l' -> get_to l n = Some v ->
  exists v', get_to l' n = Some v'.
Proof. intros Hl Hv%get_range_len. apply get_range_is_Some. pose_len. lia. Qed.

Lemma header_length_bounds input n : bytes_ok input ->
  RtpPacket.parse_header_length input = Ok n -> 12 <= n <= len input.
Proof.
  intros Hok. unfold RtpPacket.parse_header_length, RtpPacket.FIXED_HEADER_LEN. intros (u & _ & H)%bind_Ok.
  apply bind_Ok in H as (first & _ & H). apply bind_Ok in H as (u2 & _ & H).
  pose proof (Zland_bound 0x0f first ltac:(lia)).
  apply bind_Ok in H as (p & [-> _]%ok_or_Ok%checked_add_Some & H).
  apply bind_Ok in H as (v & Hv%ok_or_Ok%get_range_len & H). case_match; cycle 1.
  { apply Ok_inj in H as <-. pose_len. lia. }
  apply bind_Ok in H as (w & Hw%(RtpRewrite.read_be_fits _ _ _ _ _ Hok) & H).
  apply bind_Ok in H as (p2 & Hp2%ok_or_Ok & H).
  apply bind_Ok in H as (v2 & Hv2%ok_or_Ok%get_range_len & H). apply Ok_inj in H as <-.
  apply bind_Some in Hp2 as (p3 & [-> _]%checked_add_Some & [-> _]%checked_add_Some). pose_len. mlia.
Qed.

Lemma header_length_encrypted h x y : bytes_ok (h ++ x) -> RtpPacket.parse_header_length (h ++ x) = Ok (len h) ->
  len x = len y -> RtpPacket.parse_header_length (h ++ y) = Ok (len h).
Proof.
  intros Hok H Hxy. pose proof (header_length_bounds _ _ Hok H) as Hb.
  unfold RtpPacket.parse_header_length, RtpPacket.FIXED_HEADER_LEN in *.
  assert (len (h ++ x) = len (h ++ y)) as Hl by (rewrite !len_app; lia). rewrite <- Hl.
  apply bind_Ok in H as (u & -> & H). cbn [mbind outcome_bind].
  apply bind_Ok in H as (first & Hf & H). unfold index in *.
  rewrite get_app_l in Hf by lia. rewrite get_app_l by lia. rewrite Hf.
  cbn [mbind outcome_bind]. apply bind_Ok in H as (u2 & -> & H). cbn [mbind outcome_bind].
  apply bind_Ok in H as (p & Hp & H). rewrite Hp. cbn [mbind outcome_bind].
  apply bind_Ok in H as (v & Hv%ok_or_Ok & H). destruct (get_to_len _ _ _ _ Hl Hv) as [v' ->].
  cbn [ok_or mbind outcome_bind]. destruct (has_bit first 0x10); [|done].
  apply bind_Ok in H as (w & Hw & H). apply bind_Ok in H as (p2 & Hp2 & H).
  assert (RtpPacket.read_u16 (h ++ y) (p + 2) = Ok w) as ->.
  { apply bind_Ok in H as (v2 & _ & H). apply Ok_inj in H as ->.
    apply ok_or_Ok, bind_Some in Hp2 as (p3 & [-> _]%checked_add_Some & [Hh _]%checked_add_Some).
    pose proof (RtpRewrite.read_be_fits _ _ _ _ _ Hok Hw). unfold RtpPacket.read_u16, read_be in *.
    rewrite get_range_app_l in * by (unfold saturating_add; mlia). done. }
  cbn [mbind outcome_bind]. rewrite Hp2. cbn [mbind outcome_bind].
  apply bind_Ok in H as (v2 & Hv2%ok_or_Ok & H). destruct (get_to_len _ _ _ _ Hl Hv2) as [v2' ->]. done.
Qed.

(** ** What protection does to an RTP packet *)
Definition out_state (S : SrtpContext) (ssrc : Z) : option Z := default None (outbound_rtp S !! ssrc).
Definition in_window (R : SrtpContext) (ssrc : Z) : ReplayWindow.t :=
  default ReplayWindow.default (inbound_rtp R !! ssrc).

Lemma advance_Ok seq st st' idx : advance seq st = (st', Ok idx) ->
  st' = Some idx /\ idx = estimate_index st seq /\ idx <= MAX_SRTP_INDEX /\
  (forall h, st = Some h -> h < idx).
Proof.
  unfold advance. destruct (from_option _ _ _) eqn:H1; [done|]. destruct (_ <? _) eqn:H2; [done|].
  intros [= <- <-]. split_and!; [done..|lia|]. intros h ->. cbn [from_option] in H1. lia.
Qed.

Record protected (S : SrtpContext) (packet : bytes) (S' : SrtpContext) (wire : bytes)
    (parsed : RtpPacket.Packet) (head body tag : bytes) (ssrc idx : Z) : Prop := {
  pr_parse : RtpPacket.parse packet = Ok parsed;
  pr_split : packet = head ++ body;
  pr_head_len : len head = RtpPacket.header_len parsed;
  pr_ssrc : RtpPacket.ssrc (RtpPacket.header parsed) = ssrc;
  pr_advance : advance (RtpPacket.sequence_number (RtpPacket.header parsed)) (out_state S ssrc)
    = (Some idx, Ok idx);
  pr_state : S' = set_outbound_rtp (<[ssrc := Some idx]> (outbound_rtp S)) S;
  pr_roc : u32 (Z.shiftr idx 16);
  pr_mac : index_range (E:=SrtpError)
    (authenticate_rtp (outbound_rtp_keys S)
      (head ++ crypt body (outbound_rtp_keys S) ssrc idx) (Z.shiftr idx 16))
    0 (rtp_tag_len (profile S)) = Ok tag;
  pr_wire : wire = (head ++ crypt body (outbound_rtp_keys S) ssrc idx) ++ tag }.

Lemma protect_rtp_Ok S packet S' wire : protect_rtp (S, packet) = ((S', wire), Ok tt) ->
  exists parsed head body tag ssrc idx, protected S packet S' wire parsed head body tag ssrc idx.
Proof.
  unfold protect_rtp. intros (s1 & p & Hp & H)%prog_bind_Ok. cbn [snd] in Hp.
  injection Hp as <- Hp. apply map_err_Ok in Hp. cbv zeta in H.
  set (ssrc := RtpPacket.ssrc _) in *.
  apply prog_bind_Ok in H as ([S1 p1] & idx & Hadv & H). unfold outbound_advance in Hadv.
  destruct (advance _ _) as [st r] eqn:Ha. injection Hadv as <- <- ->.
  destruct (advance_Ok _ _ _ _ Ha) as (-> & Hidx & Hmax & Hmono).
  apply prog_bind_Ok in H as ([S2 p2] & u & Hc%try_modify_Ok & H).
  apply bind_Ok in Hc as (enc & Henc & Hc). apply Ok_inj in Hc. injection Hc as <- <-.
  apply bind_Ok in Henc as (body & Hbody%ok_or_Ok & Henc). apply Ok_inj in Henc.
  apply get_range_Some in Hbody as (h & l2 & Hsplit & Hh & Hlen).
  assert (l2 = []) as -> by (apply len_zero_nil; rewrite Hsplit, !len_app in Hlen; lia).
  rewrite app_nil_r in Hsplit.
  apply prog_bind_Ok in H as (s3 & roc & Hroc & H). unfold lift in Hroc. injection Hroc as <- Hroc.
  apply ok_or_Ok, try_from_Some in Hroc as [-> Hroc].
  apply try_modify_Ok in H. apply bind_Ok in H as (tag & Htag & H). apply Ok_inj in H.
  injection H as <- <-. cbn [profile outbound_rtp_keys set_outbound_rtp] in *.
  assert (take (Z.to_nat (RtpPacket.header_len p)) packet = h) as Htake.
  { rewrite <- Hh, Hsplit. apply take_app_length'. unfold len; lia. }
  rewrite Htake in Henc. subst enc.
  exists p, h, body, tag, ssrc, idx. split; done || mlia.
Qed.

Lemma parse_fields packet p : RtpPacket.parse packet = Ok p ->
  RtpPacket.read_u16 packet 2 = Ok (RtpPacket.sequence_number (RtpPacket.header p)) /\
  RtpPacket.read_u32 packet 8 = Ok (RtpPacket.ssrc (RtpPacket.header p)).
Proof.
  unfold RtpPacket.parse. intros (? & _ & H)%bind_Ok. do 2 (apply bind_Ok in H as (? & _ & H)).
  apply bind_Ok in H as (a & _ & H). open_tuples. apply bind_Ok in H as (second & _ & H).
  apply bind_Ok in H as (sn & Hsn & H). apply bind_Ok in H as (ts & _ & H).
  apply bind_Ok in H as (ss & Hss & H). apply Ok_inj in H as <-. done.
Qed.

Lemma read_be_head {E F} n (e : E) (f : F) head x y p v :
  p + Z.of_nat n <= len head -> read_be n e (head ++ x) p = Ok v -> read_be n f (head ++ y) p = Ok v.
Proof.
  intros Hp. unfold read_be. rewrite !get_range_app_l by (unfold saturating_add; lia).
  destruct (get_range _ _ _); cbn; [|done]. destruct (_ =? n)%nat; [by intros [= ->]|done].
Qed.

Lemma tag_len_bounds q : 0 <= rtp_tag_len q <= 20.
Proof. destruct q; cbn; lia. Qed.

Lemma index_range_len {E A} (l : list A) a b v : index_range (E:=E) l a b = Ok v -> len v = b - a.
Proof.
  unfold index_range, or_panic. case_match eqn:H; [|done]. intros [= <-]. apply get_range_len in H. lia.
Qed.

Lemma unprotect_protected S packet S' wire parsed head body tag ssrc idx R :
  rust_slice packet -> protected S packet S' wire parsed head body tag ssrc idx ->
  profile R = profile S -> inbound_rtp_keys R = outbound_rtp_keys S ->
  estimate_index (ReplayWindow.maximum (in_window R ssrc))
    (RtpPacket.sequence_number (RtpPacket.header parsed)) = idx ->
  ReplayWindow.check (in_window R ssrc) idx = Ok tt ->
  unprotect_rtp wire R =
    (set_inbound_rtp (<[ssrc := ReplayWindow.accept (in_window R ssrc) idx]> (inbound_rtp R)) R,
     Ok packet).
Proof.
  intros Hs [Hparse Hsplit Hhl Hssrc Hadv _ Hroc Hmac ->] Hprof Hkeys Hest Hcheck.
  pose proof (RtpPacket.header_length_agrees _ _ Hs Hparse) as Hhead. rewrite <- Hhl, Hsplit in Hhead.
  destruct Hs as [Hok _]. rewrite Hsplit in Hok.
  pose proof (header_length_bounds _ _ Hok Hhead) as Hb.
  destruct (parse_fields _ _ Hparse) as [Hseq Hss]. rewrite Hsplit in Hseq, Hss. rewrite Hssrc in Hss.
  pose proof (index_range_len _ _ _ _ Hmac) as Htl. rewrite Z.sub_0_r in Htl.
  set (enc := head ++ crypt body _ ssrc idx) in *.
  unfold unprotect_rtp. rewrite Hprof, Hkeys.
  rewrite (proj2 (checked_sub_Some _ _ (len enc))) by (rewrite len_app; pose_len; lia).
  cbn [ok_or mbind outcome_bind]. unfold get_to. rewrite get_range_exact, get_from_app by done.
  cbn [ok_or mbind outcome_bind].
  assert (RtpPacket.parse_header_length enc = Ok (len head)) as ->
    by (eapply header_length_encrypted; [exact Hok|done|by rewrite len_crypt]).
  cbn [map_err mbind outcome_bind].
  assert (read_u16 enc 2 = Ok (RtpPacket.sequence_number (RtpPacket.header parsed))) as ->
    by (eapply read_be_head; [|exact Hseq]; lia).
  cbn [mbind outcome_bind].
  assert (read_u32 enc 8 = Ok ssrc) as -> by (eapply read_be_head; [|exact Hss]; lia).
  cbn [mbind outcome_bind]. fold (in_window R ssrc). rewrite Hest, Hcheck. cbn [mbind outcome_bind].
  rewrite (try_from_fits 32) by mlia. cbn [ok_or mbind outcome_bind]. rewrite Hmac.
  cbn [mbind outcome_bind]. unfold verify_tag. rewrite Z.eqb_refl, bool_decide_eq_true_2 by done.
  cbn [andb mbind outcome_bind]. unfold crypt_from, enc. rewrite get_from_app by done.
  cbn [ok_or mbind outcome_bind]. rewrite take_app_length' by (unfold len; lia).
  unfold crypt. rewrite apply_keystream_involutive, <- Hsplit, Hparse.
  cbn [map_err mbind outcome_bind]. done.
Qed.

(** ** Streams of packets *)
(** Protecting packets one after the other, and unprotecting what was sent. *)
Fixpoint send_all (S : SrtpContext) (packets : list bytes) : option (SrtpContext * list bytes) :=
  match packets with
  | [] => Some (S, [])
  | packet :: packets =>
      match protect_rtp (S, packet) with
      | ((S1, wire), Ok _) => '(S2, wires) ← send_all S1 packets; Some (S2, wire :: wires)
      | _ => None
      end
  end.
Fixpoint deliver_all (R : SrtpContext) (wires : list bytes) : SrtpContext * list (outcome SrtpError bytes) :=
  match wires with
  | [] => (R, [])
  | wire :: wires =>
      let '(R, r) := unprotect_rtp wire R in
      let '(R, rs) := deliver_all R wires in
      (R, r :: rs)
  end.

(** The receiver's windows follow the sender's indices, with matching keys. *)
Definition in_step (S R : SrtpContext) : Prop :=
  profile R = profile S /\ inbound_rtp_keys R = outbound_rtp_keys S /\
  forall ssrc, ReplayWindow.maximum (in_window R ssrc) = out_state S ssrc.

Lemma accept_newer w idx : (forall m, ReplayWindow.maximum w = Some m -> m < idx) ->
  ReplayWindow.check w idx = Ok tt /\ ReplayWindow.maximum (ReplayWindow.accept w idx) = Some idx.
Proof.
  unfold ReplayWindow.check, ReplayWindow.accept. destruct (ReplayWindow.maximum w) as [m|]; [|done].
  intros H. specialize (H m eq_refl). by rewrite (proj2 (Z.ltb_lt m idx)) by lia.
Qed.

Lemma in_step_packet S R packet S' wire : rust_slice packet -> in_step S R ->
  protect_rtp (S, packet) = ((S', wire), Ok tt) ->
  exists R', unprotect_rtp wire R = (R', Ok packet) /\ in_step S' R'.
Proof.
  intros Hs (Hp & Hk & Hm) (parsed & head & body & tag & ssrc & idx & Hpr)%protect_rtp_Ok.
  destruct (advance_Ok _ _ _ _ (pr_advance _ _ _ _ _ _ _ _ _ _ Hpr)) as (_ & Hidx & Hmax & Hmono).
  destruct (accept_newer (in_window R ssrc) idx) as [Hc Ha]; [by rewrite Hm|].
  eexists. split; [eapply unprotect_protected; try done; by rewrite Hm|].
  rewrite (pr_state _ _ _ _ _ _ _ _ _ _ Hpr). split_and!; [done..|]. intros ssrc'.
  unfold in_window, out_state. cbn [inbound_rtp outbound_rtp set_inbound_rtp set_outbound_rtp].
  destruct (decide (ssrc' = ssrc)) as [->|Hne]; [by rewrite !lookup_insert_eq|].
  rewrite !lookup_insert_ne by done. apply Hm.
Qed.

Lemma stream_in_step S R packets S' wires : Forall rust_slice packets -> in_step S R ->
  send_all S packets = Some (S', wires) -> (deliver_all R wires).2 = Ok <$> packets.
Proof.
  intros Hs. revert S R wires. induction Hs as [|packet packets Hp _ IH]; intros S R wires Hin H; cbn in H.
  { by simplify_eq. }
  destruct (protect_rtp (S, packet)) as [[S1 wire] [[]|e| |]] eqn:Hpr; try done.
  apply bind_Some in H as ([S2 ws] & Hsend & H). simplify_eq.
  destruct (in_step_packet _ _ _ _ _ Hp Hin Hpr) as (R1 & Hun & Hin1).
  cbn. rewrite Hun. specialize (IH _ _ _ Hin1 Hsend). destruct (deliver_all R1 ws). cbn in *. by f_equal.
Qed.
End Facts.

(** C17: a receiver whose inbound master key is the sender's outbound one recovers, in
    order and bit for bit, every packet of every stream the sender protects, for any
    number of interleaved sources, through sequence-number wrap-arounds. *)
Theorem srtp_stream_roundtrip (crypto : SrtpCrypto) q key1 key2 packets S' wires :
  Forall rust_slice packets -> send_all (new q key1 key2) packets = Some (S', wires) ->
  (deliver_all (new q key2 key1) wires).2 = Ok <$> packets.
Proof.
  intros Hs Hsend. eapply stream_in_step; [done| |exact Hsend].
  split_and!; [done..|]. intros ssrc. unfold in_window, out_state. cbn. by rewrite !lookup_empty.
Qed.

(** ** No packet index is accepted twice *)
Section NoReplay.
Context {crypto : SrtpCrypto}.

(** The source and the index under which a context would take a datagram. *)
Definition rtp_id (R : SrtpContext) (wire : bytes) : Z * Z :=
  match read_u32 wire 8, read_u16 wire 2 with
  | Ok ssrc, Ok seq => (ssrc, estimate_index (ReplayWindow.maximum (in_window R ssrc)) seq)
  | _, _ => (0, 0)
  end.

Fixpoint accepted_ids (R : SrtpContext) (wires : list bytes) : list (Z * Z) :=
  match wires with
  | [] => []
  | wire :: wires =>
      match unprotect_rtp wire R with
      | (R', Ok _) => rtp_id R wire :: accepted_ids R' wires
      | (R', _) => accepted_ids R' wires
      end
  end.

Lemma unprotect_rtp_Ok wire R R' plaintext : bytes_ok wire ->
  unprotect_rtp wire R = (R', Ok plaintext) ->
  let '(ssrc, idx) := rtp_id R wire in
  ReplayWindow.check (in_window R ssrc) idx = Ok tt /\
  R' = set_inbound_rtp (<[ssrc := ReplayWindow.accept (in_window R ssrc) idx]> (inbound_rtp R)) R.
Proof.
  intros Hok. unfold unprotect_rtp. cbv zeta. intros H.
  match type of H with (match ?m with _ => _ end) = _ => destruct m as [[[ssrc idx] pt]|e| |] eqn:Hm end;
    try done. injection H as <- <-.
  apply bind_Ok in Hm as (n & _ & Hm). apply bind_Ok in Hm as (enc & Henc%ok_or_Ok & Hm).
  apply bind_Ok in Hm as (tag & _ & Hm). apply bind_Ok in Hm as (hl & Hh%map_err_Ok & Hm).
  apply bind_Ok in Hm as (seq & Hseq & Hm). apply bind_Ok in Hm as (ss & Hss & Hm).
  apply bind_Ok in Hm as ([] & Hc & Hm). do 4 (apply bind_Ok in Hm as (? & _ & Hm)).
  apply bind_Ok in Hm as (? & _ & Hm). apply Ok_inj in Hm. injection Hm as -> <- _.
  apply get_range_Some in Henc as (l1 & l2 & Hw & Hl1%len_zero_nil & Hn). subst l1. cbn [app] in Hw.
  rewrite Hw in Hok. apply bytes_ok_app in Hok as [Hok _]. pose proof (header_length_bounds _ _ Hok Hh).
  rewrite <- (app_nil_r enc) in Hseq, Hss. unfold rtp_id, read_u32, read_u16.
  rewrite Hw, (read_be_head 4 _ _ enc [] l2 8 _ ltac:(lia) Hss),
    (read_be_head 2 _ _ enc [] l2 2 _ ltac:(lia) Hseq).
  done.
Qed.

Definition indices_of (acc : list (Z * Z)) (ssrc : Z) : list Z :=
  (filter (fun x => x.1 = ssrc) acc).*2.

Lemma unprotect_rtp_same wire R R' r : unprotect_rtp wire R = (R', r) ->
  (forall p, r <> Ok p) -> R' = R.
Proof.
  unfold unprotect_rtp. cbv zeta.
  match goal with |- (match ?m with _ => _ end) = _ -> _ => destruct m as [[[? ?] ?]|e0| |] end;
    intros [= <- <-] Hr; try done. by destruct (Hr _ eq_refl).
Qed.

Lemma accepted_nodup R acc wires : Forall bytes_ok wires ->
  (forall ssrc, represents (in_window R ssrc) (indices_of acc ssrc)) ->
  NoDup (accepted_ids R wires) /\ forall x, x ∈ accepted_ids R wires -> x ∉ acc.
Proof.
  intros Hw. revert R acc. induction Hw as [|wire wires Hwire _ IH]; intros R acc Hrep; cbn.
  { split; [constructor|set_solver]. }
  destruct (unprotect_rtp wire R) as [R' [pt|e| |]] eqn:Hu; cycle 1.
  1-3: (apply unprotect_rtp_same in Hu as ->; [by apply IH|done]).
  apply unprotect_rtp_Ok in Hu; [|done]. destruct (rtp_id R wire) as [ssrc idx].
  destruct Hu as [Hc ->]. pose proof (Hrep ssrc) as Hr.
  pose proof (check_spec _ _ idx Hr) as Hs. rewrite Hc in Hs. apply andb_true_iff in Hs as [Hni _].
  apply bool_decide_eq_true in Hni.
  assert ((ssrc, idx) ∉ acc) as Hnew.
  { intros Hin. apply Hni. apply list_elem_of_fmap. exists (ssrc, idx). split; [done|].
    by apply list_elem_of_filter. }
  destruct (IH (set_inbound_rtp (<[ssrc := ReplayWindow.accept (in_window R ssrc) idx]> (inbound_rtp R)) R)
    ((ssrc, idx) :: acc)) as [Hnd Hdis].
  { intros ssrc'. unfold in_window at 1. cbn [inbound_rtp set_inbound_rtp]. unfold indices_of.
    destruct (decide (ssrc' = ssrc)) as [->|Hne].
    - rewrite lookup_insert_eq. cbn [default]. rewrite filter_cons_True by done. by apply accept_spec.
    - rewrite lookup_insert_ne by done. rewrite filter_cons_False by (cbn; congruence). apply Hrep. }
  split; [constructor; [|done]|].
  - intros Hin%Hdis. apply Hin. by left.
  - intros x [->|Hx%Hdis]%elem_of_cons; [done|]. intros ?. apply Hx. by right.
Qed.
End NoReplay.


(** a datagram that is refused (bad tag, replay, malformed) leaves the whole context
    as it was, for SRTP and for SRTCP. *)
Theorem unprotect_refusal_unchanged (crypto : SrtpCrypto) wire R :
  (forall e, (unprotect_rtp wire R).2 = Err e -> (unprotect_rtp wire R).1 = R) /\
  (forall e, (unprotect_rtcp wire R).2 = Err e -> (unprotect_rtcp wire R).1 = R).
Proof.
  split; intros e; unfold unprotect_rtp, unprotect_rtcp; cbv zeta;
    match goal with |- (match ?m with _ => _ end).2 = _ -> _ => destruct m as [[[? ?] ?]|e0| |] end; done.
Qed.

(** ** Whatever arrives, the context comes back, and hands over packets that parse *)
Section Total.
Context {crypto : SrtpCrypto}.

Lemma bytes_ok_crypt payload keys ssrc idx : bytes_ok payload -> bytes_ok (crypt payload keys ssrc idx).
Proof.
  intros H. unfold crypt, apply_keystream. apply Forall_lookup. intros i x. rewrite list_lookup_imap.
  intros (b & Hb & ->)%fmap_Some. apply fits_lxor; [lia|by apply (Forall_lookup_1 _ _ _ _ H Hb)|apply aes128_ctr_octet].
Qed.

Lemma returns_crypt_from packet at_ e keys ssrc idx : returns (crypt_from packet at_ e keys ssrc idx).
Proof. unfold crypt_from. by destruct (get_from packet at_). Qed.

Lemma crypt_from_slice packet at_ e keys ssrc idx out : rust_slice packet ->
  crypt_from packet at_ e keys ssrc idx = Ok out -> rust_slice out.
Proof.
  intros [Hb Hl] H. apply bind_Ok in H as (body & Hbody%ok_or_Ok & H). apply Ok_inj in H as <-.
  apply get_range_Some in Hbody as (h & t & Hs & Hh & Ht). split.
  - apply bytes_ok_app. split; [by apply bytes_ok_take|]. apply bytes_ok_crypt. rewrite Hs in Hb. rewrite !bytes_ok_app in Hb. tauto.
  - rewrite len_app, len_crypt, len_take. apply (f_equal len) in Hs. rewrite !len_app in Hs. pose_len. lia.
Qed.

Lemma returns_verify_tag a b : returns (verify_tag a b).
Proof. unfold verify_tag. by case_match. Qed.
Lemma returns_replay_check w idx : returns (ReplayWindow.check w idx).
Proof. unfold ReplayWindow.check. repeat case_match; done. Qed.
Lemma returns_parse_header_length input : returns (RtpPacket.parse_header_length input).
Proof.
  unfold RtpPacket.parse_header_length, RtpPacket.FIXED_HEADER_LEN. apply returns_bind; [auto with returns|]. intros _ Hl%reject_if_Ok.
  apply returns_bind; [apply returns_index; lia|]. intros first _. cbv zeta.
  do 3 (apply returns_bind; [auto with returns|intros ? _]). case_match; [|done].
  apply returns_bind; [apply returns_read_be|intros ? _]. do 2 (apply returns_bind; [auto with returns|intros ? _]). done.
Qed.
Lemma returns_tag key m n : 0 <= n <= 20 -> returns (index_range (E:=SrtpError) (hmac_sha1 key m) 0 n).
Proof. intros Hn. apply returns_index_range; [lia|]. unfold len. rewrite hmac_sha1_length. lia. Qed.

(** The outcome of the body of an [unprotect] method decides the outcome of the method. *)
Lemma returns_unprotect_rtp wire R : returns (unprotect_rtp wire R).2.
Proof.
  unfold unprotect_rtp. cbv zeta.
  match goal with |- returns (match ?m with _ => _ end).2 => cut (returns m); [by destruct m as [[[? ?] ?]|e| |]|] end.
  do 3 (apply returns_bind; [auto with returns|intros ? _]).
  apply returns_bind; [apply returns_map_err, returns_parse_header_length|intros ? _].
  do 2 (apply returns_bind; [apply returns_read_be|intros ? _]).
  apply returns_bind; [apply returns_replay_check|intros ? _]. apply returns_bind; [auto with returns|intros ? _].
  apply returns_bind; [apply returns_tag; pose proof (tag_len_bounds (profile R)); lia|intros ? _].
  apply returns_bind; [apply returns_verify_tag|intros ? _]. apply returns_bind; [apply returns_crypt_from|intros ? _].
  apply returns_bind; [|done]. apply returns_map_err, RtpPacket.returns_parse.
Qed.

Lemma returns_unprotect_rtcp wire R : rust_slice wire -> returns (unprotect_rtcp wire R).2.
Proof.
  intros Hw. unfold unprotect_rtcp. cbv zeta.
  match goal with |- returns (match ?m with _ => _ end).2 => cut (returns m); [by destruct m as [[[? ?] ?]|e| |]|] end.
  do 2 (apply returns_bind; [auto with returns|intros ? _]).
  apply returns_bind; [auto with returns|]. intros auth Hauth%ok_or_Ok. apply returns_bind; [auto with returns|intros ? _].
  do 2 (apply returns_bind; [apply returns_read_be|intros ? _]). apply returns_bind; [apply returns_replay_check|intros ? _].
  apply returns_bind; [apply returns_tag; destruct (profile R); cbn; lia|intros ? _].
  apply returns_bind; [apply returns_verify_tag|intros ? _]. apply returns_bind; [auto with returns|]. intros plain Hplain%ok_or_Ok.
  assert (rust_slice plain) as Hp by (unfold get_to in *; eauto using Rtcp.rust_slice_range).
  apply returns_bind; [case_match; [apply returns_crypt_from|done]|]. intros out Hout.
  apply returns_bind; [|done]. apply returns_map_err, Rtcp.returns_parse_compound.
  destruct (has_bit _ _); [by eapply crypt_from_slice|by simplify_eq].
Qed.

Lemma unprotect_rtp_parses wire R R' plaintext : unprotect_rtp wire R = (R', Ok plaintext) ->
  exists p, RtpPacket.parse plaintext = Ok p.
Proof.
  unfold unprotect_rtp. cbv zeta. intros H.
  match type of H with (match ?m with _ => _ end) = _ => destruct m as [[[ssrc idx] pt]|e| |] eqn:Hm end; try done.
  injection H as <- <-. do 11 (apply bind_Ok in Hm as (? & _ & Hm)).
  apply bind_Ok in Hm as (p & Hp%map_err_Ok & Hm). apply Ok_inj in Hm. injection Hm as _ _ <-. eauto.
Qed.

Lemma unprotect_rtcp_parses wire R R' plaintext : unprotect_rtcp wire R = (R', Ok plaintext) ->
  exists ps, Rtcp.parse_compound plaintext = Ok ps.
Proof.
  unfold unprotect_rtcp. cbv zeta. intros H.
  match type of H with (match ?m with _ => _ end) = _ => destruct m as [[[ssrc idx] pt]|e| |] eqn:Hm end; try done.
  injection H as <- <-. do 11 (apply bind_Ok in Hm as (? & _ & Hm)).
  apply bind_Ok in Hm as (p & Hp%map_err_Ok & Hm). apply Ok_inj in Hm. injection Hm as _ _ <-. eauto.
Qed.

Lemma unprotect_rtcp_same wire R R' r : unprotect_rtcp wire R = (R', r) -> (forall p, r <> Ok p) -> R' = R.
Proof.
  unfold unprotect_rtcp. cbv zeta.
  match goal with |- (match ?m with _ => _ end) = _ -> _ => destruct m as [[[? ?] ?]|e0| |] end;
    intros [= <- <-] Hr; try done. by destruct (Hr _ eq_refl).
Qed.
End Total.

(** ** No key stream is used twice *)
Section Keystream.
Context {crypto : SrtpCrypto}.

(** The initial counters handed to the cipher while a context protects packets; a packet
    that is refused is not encrypted. *)
Fixpoint used_ivs (S : SrtpContext) (packets : list bytes) : list bytes :=
  match packets with
  | [] => []
  | packet :: packets =>
      let '(S', packet', r) := protect_rtp (S, packet) in
      match r, RtpPacket.parse packet with
      | Ok _, Ok parsed =>
          let ssrc := RtpPacket.ssrc (RtpPacket.header parsed) in
          let seq := RtpPacket.sequence_number (RtpPacket.header parsed) in
          make_iv (salt (outbound_rtp_keys S)) ssrc (estimate_index (out_state S ssrc) seq)
            :: used_ivs S' packets
      | _, _ => used_ivs S' packets
      end
  end.

Lemma preserves_read {S E A} (P : S -> Prop) (f : S -> outcome E A) :
  preserves P (fun s => (s, f s)).
Proof. by intros s ?. Qed.

Lemma preserves_try_modify {S E} (P : S -> Prop) (f : S -> outcome E S) :
  (forall s s', f s = Ok s' -> P s -> P s') -> preserves P (try_modify f).
Proof. intros Hf s Hs. unfold try_modify. destruct (f s) eqn:H; cbn; eauto. Qed.

Lemma seal_context header_len ssrc idx s : (seal_rtp header_len ssrc idx s).1.1 = s.1.
Proof.
  apply (preserves_bind (fun t => t.1 = s.1)); [| |done].
  - apply preserves_try_modify. intros [S p] [S' p'] H. apply bind_Ok in H as (? & _ & H).
    apply Ok_inj in H. by injection H as <- <-.
  - intros _. apply preserves_bind; [apply preserves_lift|]. intros roc.
    apply preserves_try_modify. intros [S p] [S' p'] H. apply bind_Ok in H as (? & _ & H).
    apply Ok_inj in H. by injection H as <- <-.
Qed.

(** Whatever its outcome, protection changes the context by one [advance] at most. *)
Lemma protect_context S packet :
  (protect_rtp (S, packet)).1.1 = S \/
  exists parsed, RtpPacket.parse packet = Ok parsed /\
    let ssrc := RtpPacket.ssrc (RtpPacket.header parsed) in
    let seq := RtpPacket.sequence_number (RtpPacket.header parsed) in
    (protect_rtp (S, packet)).1.1 =
      set_outbound_rtp (<[ssrc := (advance seq (out_state S ssrc)).1]> (outbound_rtp S)) S.
Proof.
  unfold protect_rtp, mbind, prog_bind. cbn [snd].
  destruct (RtpPacket.parse packet) as [parsed|e| |]; [|by left..]. right. exists parsed.
  split; [done|]. cbn [map_err]. cbv zeta. unfold outbound_advance, out_state.
  destruct (advance _ _) as [st [idx|e| |]]; try done. by rewrite seal_context.
Qed.

Lemma protect_keys S packet : outbound_rtp_keys (protect_rtp (S, packet)).1.1 = outbound_rtp_keys S.
Proof. by destruct (protect_context S packet) as [->|(parsed & _ & ->)]. Qed.

Lemma out_state_insert S ssrc st ssrc' :
  out_state (set_outbound_rtp (<[ssrc := st]> (outbound_rtp S)) S) ssrc' =
    if decide (ssrc' = ssrc) then st else out_state S ssrc'.
Proof.
  unfold out_state. cbn. case_decide as H; [subst; by rewrite lookup_insert_eq|].
  by rewrite lookup_insert_ne.
Qed.

Lemma advance_ge seq h : exists h', (advance seq (Some h)).1 = Some h' /\ h <= h'.
Proof.
  unfold advance. cbn [from_option]. destruct (Z.leb_spec (estimate_index (Some h) seq) h); [by exists h|].
  case_match; [by exists h|]. exists (estimate_index (Some h) seq). split; [done|lia].
Qed.

Lemma protect_monotone S packet ssrc h : out_state S ssrc = Some h ->
  exists h', out_state (protect_rtp (S, packet)).1.1 ssrc = Some h' /\ h <= h'.
Proof.
  intros Hh. destruct (protect_context S packet) as [->|(parsed & _ & ->)]; [by exists h|].
  rewrite out_state_insert. case_decide as He; [|by exists h]. rewrite <- He, Hh. apply advance_ge.
Qed.

Lemma estimate_nonneg st seq : 0 <= seq -> (forall h, st = Some h -> 0 <= h) -> 0 <= estimate_index st seq.
Proof.
  intros Hs Hh. destruct st as [h|]; [|done]. specialize (Hh h eq_refl). unfold estimate_index.
  pose proof (Z.mod_pos_bound (h - h mod 65536 + seq) (2 ^ 64) ltac:(lia)).
  unfold wrapping_add, saturating_add, umax in *. change (Z.shiftl 1 16) with 65536. cbv zeta.
  repeat case_match; mlia.
Qed.

Lemma protect_nonneg S packet : rust_slice packet ->
  (forall ssrc h, out_state S ssrc = Some h -> 0 <= h) ->
  forall ssrc h, out_state (protect_rtp (S, packet)).1.1 ssrc = Some h -> 0 <= h.
Proof.
  intros Hs HS ssrc h. destruct (protect_context S packet) as [->|(parsed & Hp & ->)]; [apply HS|].
  destruct (RtpRewrite.parse_wf _ _ Hs Hp) as [(_ & Hseq & _) _]. cbn in Hseq.
  rewrite out_state_insert. case_decide as He; [|apply HS]. unfold advance.
  destruct (from_option _ _ _); [apply HS|]. case_match; [apply HS|]. cbn [fst]. intros Hst.
  assert (h = estimate_index (out_state S (RtpPacket.ssrc (RtpPacket.header parsed)))
    (RtpPacket.sequence_number (RtpPacket.header parsed))) as -> by congruence.
  apply estimate_nonneg; [apply Hseq|apply HS].
Qed.

Lemma used_ivs_fresh S (acc : list (Z * Z)) packets : Forall rust_slice packets ->
  length (salt (outbound_rtp_keys S)) = 14%nat ->
  (forall ssrc h, out_state S ssrc = Some h -> 0 <= h) ->
  (forall ssrc i, (ssrc, i) ∈ acc -> u32 ssrc /\ 0 <= i <= MAX_SRTP_INDEX /\
     exists h, out_state S ssrc = Some h /\ i <= h) ->
  NoDup (used_ivs S packets) /\
  forall ssrc i, (ssrc, i) ∈ acc -> make_iv (salt (outbound_rtp_keys S)) ssrc i ∉ used_ivs S packets.
Proof.
  intros Hp. revert S acc. induction Hp as [|packet packets Hpkt _ IH]; intros S acc Hsalt Hpos Hacc; cbn.
  { split; [constructor|set_solver]. }
  pose proof (protect_keys S packet) as Hkeys.
  pose proof (protect_monotone S packet) as Hmono'. pose proof (protect_nonneg S packet Hpkt Hpos) as Hpos'.
  destruct (protect_rtp (S, packet)) as [[S' wire] r] eqn:Hpr. cbn [fst snd] in Hkeys, Hmono', Hpos'.
  assert (forall ssrc i, (ssrc, i) ∈ acc -> u32 ssrc /\ 0 <= i <= MAX_SRTP_INDEX /\
     exists h, out_state S' ssrc = Some h /\ i <= h) as Hacc'.
  { intros ssrc i (? & ? & h & (h' & Hh & Hle)%Hmono' & Hi)%Hacc. split; [done|]. split; [done|].
    exists h'. split; [done|lia]. }
  destruct (IH S' acc) as [Hnd Hdis]; [by rewrite Hkeys|done..|]. rewrite Hkeys in Hdis.
  destruct r as [[]|e| |]; [|by split..].
  apply protect_rtp_Ok in Hpr as (parsed & head & body & tag & ssrc & idx & Hpr).
  rewrite (pr_parse _ _ _ _ _ _ _ _ _ _ Hpr). cbv zeta. rewrite (pr_ssrc _ _ _ _ _ _ _ _ _ _ Hpr).
  destruct (advance_Ok _ _ _ _ (pr_advance _ _ _ _ _ _ _ _ _ _ Hpr)) as (_ & <- & Hmax & Hmono).
  destruct (RtpRewrite.parse_wf _ _ Hpkt (pr_parse _ _ _ _ _ _ _ _ _ _ Hpr)) as [(_ & Hseq & _ & Hss & _) _].
  cbn in Hss, Hseq. rewrite (pr_ssrc _ _ _ _ _ _ _ _ _ _ Hpr) in Hss.
  assert (out_state S' ssrc = Some idx) as Hnew.
  { rewrite (pr_state _ _ _ _ _ _ _ _ _ _ Hpr). unfold out_state. cbn. by rewrite lookup_insert_eq. }
  destruct (IH S' ((ssrc, idx) :: acc)) as [_ Hdis2]; [by rewrite Hkeys|done|..].
  { intros ssrc' i [[= -> ->]|Hin]%elem_of_cons; [|by apply Hacc'].
    split_and!; [apply Hss..|by eapply Hpos'|done|]. exists idx. done. }
  rewrite Hkeys in Hdis2. split; [constructor; [|done]|].
  - apply Hdis2. by left.
  - intros ssrc' i Hin [Heq|?]%elem_of_cons; [|by eapply Hdis].
    destruct (Hacc _ _ Hin) as (Hu & Hi & h & Hh & Hle).
    apply make_iv_inj in Heq as [-> ->]; [|done..|split; [by eapply Hpos'|done]].
    specialize (Hmono h Hh). lia.
Qed.
End Keystream.

(** while one context protects any list of packets, for any sources and with any number
    of refused packets in between, every packet is encrypted under a different initial
    counter, so no key stream is used twice (the flaw the index checks exist to prevent). *)
Theorem srtp_keystream_unique (crypto : SrtpCrypto) q key1 key2 packets :
  Forall rust_slice packets -> NoDup (used_ivs (new q key1 key2) packets).
Proof.
  intros Hp. apply (used_ivs_fresh _ []); [done|apply derive_key_length|..].
  - intros ssrc h. unfold out_state. cbn. by rewrite lookup_empty.
  - intros ssrc i Hi. by apply not_elem_of_nil in Hi.
Qed.

(** ** SRTCP *)
Section Srtcp.
Context {crypto : SrtpCrypto}.

Lemma index_word_spec idx : 0 <= idx <= MAX_SRTCP_INDEX ->
  let word := Z.lor idx 0x80000000 in
  u32 word /\ has_bit word 0x80000000 = true /\ Z.land word MAX_SRTCP_INDEX = idx.
Proof.
  unfold MAX_SRTCP_INDEX. intros Hi. cbv zeta.
  assert (Z.land idx 0x80000000 = 0) as H0.
  { change 0x80000000 with (2 ^ 31). apply Z.bits_inj'. intros i Hn.
    rewrite Z.land_spec, Z.pow2_bits_eqb, Z.bits_0 by lia. destruct (Z.eqb_spec 31 i) as [<-|]; [|apply andb_false_r].
    rewrite andb_true_r. destruct (decide (idx = 0)) as [->|]; [apply Z.bits_0|].
    apply Z.bits_above_log2; [lia|]. apply Z.log2_lt_pow2; lia. }
  pose proof (Z.add_lor_land idx 0x80000000) as Hadd. rewrite H0 in Hadd.
  split; [mlia|]. split.
  - unfold has_bit. rewrite Z.land_lor_distr_l, H0. done.
  - rewrite Z.land_lor_distr_l. change (Z.land 0x80000000 0x7fffffff) with 0. rewrite Z.lor_0_r.
    change 0x7fffffff with (Z.ones 31). rewrite Z.land_ones by lia. apply Z.mod_small. lia.
Qed.

Definition in_rtcp_window (R : SrtpContext) (ssrc : Z) : ReplayWindow.t :=
  default ReplayWindow.default (inbound_rtcp R !! ssrc).

Record rtcp_protected (S : SrtpContext) (packet : bytes) (S' : SrtpContext) (wire : bytes)
    (head body tag : bytes) (ssrc idx : Z) : Prop := {
  rp_parse : exists packets, Rtcp.parse_compound packet = Ok packets;
  rp_split : packet = head ++ body;
  rp_head : len head = 8;
  rp_index : idx = outbound_rtcp_index S;
  rp_max : idx <= MAX_SRTCP_INDEX;
  rp_state : S' = set_outbound_rtcp_index (idx + 1) S;
  rp_ssrc : read_u32 packet 4 = Ok ssrc;
  rp_mac : index_range (E:=SrtpError)
    (authenticate (outbound_rtcp_keys S)
      ((head ++ crypt body (outbound_rtcp_keys S) ssrc idx) ++ to_be_bytes 4 (Z.lor idx 0x80000000)))
    0 10 = Ok tag;
  rp_wire : wire = ((head ++ crypt body (outbound_rtcp_keys S) ssrc idx)
    ++ to_be_bytes 4 (Z.lor idx 0x80000000)) ++ tag }.

Lemma protect_rtcp_Ok S packet S' wire : protect_rtcp (S, packet) = ((S', wire), Ok tt) ->
  exists head body tag ssrc idx, rtcp_protected S packet S' wire head body tag ssrc idx.
Proof.
  unfold protect_rtcp. intros (s1 & ps & Hp & H)%prog_bind_Ok. cbn [snd] in Hp.
  injection Hp as <- Hp. apply map_err_Ok in Hp.
  apply prog_bind_Ok in H as (s2 & n & Hn & H). unfold gets in Hn. injection Hn as <- <-. cbn [snd] in H.
  apply prog_bind_Ok in H as (s3 & u & H8 & H). unfold lift in H8. injection H8 as <- H8. apply reject_if_Ok in H8.
  apply prog_bind_Ok in H as (s4 & idx & Hn & H). unfold gets in Hn. injection Hn as <- <-. cbn [fst] in H.
  apply prog_bind_Ok in H as (s5 & u2 & Hm & H). unfold lift in Hm. injection Hm as <- Hm. apply reject_if_Ok in Hm.
  apply prog_bind_Ok in H as (s6 & u3 & Hs%try_modify_Ok & H).
  apply bind_Ok in Hs as (next & [-> _]%ok_or_Ok%checked_add_Some & Hs). apply Ok_inj in Hs as <-.
  apply prog_bind_Ok in H as (s7 & ssrc & Hss & H). injection Hss as <- Hss. cbn [snd] in Hss.
  apply prog_bind_Ok in H as ([S8 p8] & u4 & Hc%try_modify_Ok & H).
  apply bind_Ok in Hc as (enc & Henc & Hc). apply Ok_inj in Hc. apply pair_equal_spec in Hc as [<- <-].
  apply bind_Ok in Henc as (body & Hbody%ok_or_Ok & Henc). apply Ok_inj in Henc.
  apply get_range_Some in Hbody as (h & l2 & Hsplit & Hh & Hlen).
  assert (l2 = []) as -> by (apply len_zero_nil; rewrite Hsplit, !len_app in Hlen; lia).
  rewrite app_nil_r in Hsplit.
  apply try_modify_Ok in H. apply bind_Ok in H as (tag & Htag & H). apply Ok_inj in H.
  apply pair_equal_spec in H as [<- <-]. cbn [outbound_rtcp_keys profile set_outbound_rtcp_index] in *.
  assert (take (Z.to_nat 8) packet = h) as Htake.
  { rewrite Hsplit. apply take_app_length'. unfold len in Hh; lia. }
  rewrite Htake in Henc. subst enc.
  assert (rtcp_tag_len (profile S) = 10) as Ht by (by destruct (profile S)). rewrite Ht in Htag.
  exists h, body, tag, ssrc, (outbound_rtcp_index S). split; try done; [by exists ps|lia].
Qed.
Lemma unprotect_rtcp_protected S packet S' wire head body tag ssrc idx R :
  len packet < 2 ^ 63 -> 0 <= idx ->
  rtcp_protected S packet S' wire head body tag ssrc idx ->
  inbound_rtcp_keys R = outbound_rtcp_keys S ->
  ReplayWindow.check (in_rtcp_window R ssrc) idx = Ok tt ->
  unprotect_rtcp wire R =
    (set_inbound_rtcp (<[ssrc := ReplayWindow.accept (in_rtcp_window R ssrc) idx]> (inbound_rtcp R)) R,
     Ok packet).
Proof.
  intros Hlen H0 [[ps Hparse] Hsplit Hhl _ Hmax _ Hss Hmac ->] Hkeys Hcheck.
  destruct (index_word_spec idx) as (Hw & Hbit & Hland); [lia|].
  pose proof (index_range_len _ _ _ _ Hmac) as Htl. rewrite Z.sub_0_r in Htl.
  set (enc := head ++ crypt body _ ssrc idx) in *. set (word := to_be_bytes 4 _) in *.
  assert (len word = 4) as Hwl by (unfold word; by rewrite len_to_be_bytes).
  assert (len enc = len packet) as Hel by (rewrite Hsplit; unfold enc; rewrite !len_app, len_crypt; lia).
  assert (8 <= len enc) as He8 by (unfold enc; rewrite len_app; pose_len; lia).
  unfold unprotect_rtcp. cbv zeta. replace (rtcp_tag_len (profile R)) with 10 by (by destruct (profile R)).
  rewrite Hkeys, (proj2 (checked_sub_Some _ _ (len (enc ++ word)))) by (rewrite !len_app; pose_len; lia).
  cbn [ok_or mbind outcome_bind]. assert (len (enc ++ word) = len enc + 4) as Hal by (rewrite len_app; lia).
  rewrite (proj2 (Z.ltb_ge (len (enc ++ word)) 12)) by lia. cbn [reject_if mbind outcome_bind].
  unfold get_to. rewrite get_range_exact, get_from_app by done. cbn [ok_or mbind outcome_bind].
  replace (len (enc ++ word) - 4) with (len enc) by lia.
  assert (read_u32 (enc ++ word) (len enc) = Ok (Z.lor idx 0x80000000)) as ->.
  { unfold read_u32. rewrite (RtcpModel.read_be_off 4 _ enc word (len enc) 0) by mlia.
    rewrite <- (app_nil_r word). by apply RtcpModel.read_be_first. }
  cbn [mbind outcome_bind]. rewrite Hbit, Hland.
  assert (read_u32 (enc ++ word) 4 = Ok ssrc) as ->.
  { unfold enc. rewrite <- app_assoc. rewrite Hsplit in Hss. eapply read_be_head; [|exact Hss]. lia. }
  cbn [mbind outcome_bind]. fold (in_rtcp_window R ssrc). rewrite Hcheck. cbn [mbind outcome_bind].
  rewrite Hmac. cbn [mbind outcome_bind]. unfold verify_tag.
  rewrite Z.eqb_refl, bool_decide_eq_true_2 by done. cbn [andb mbind outcome_bind].
  rewrite get_range_exact by done. cbn [ok_or mbind outcome_bind]. unfold crypt_from.
  assert (get_from enc 8 = Some (crypt body (outbound_rtcp_keys S) ssrc idx)) as ->
    by (unfold enc; by apply get_from_app).
  cbn [ok_or mbind outcome_bind]. assert (take (Z.to_nat 8) enc = head) as ->
    by (unfold enc; apply take_app_length'; unfold len in Hhl; lia).
  unfold crypt. rewrite apply_keystream_involutive, <- Hsplit, Hparse. done.
Qed.

Fixpoint send_all_rtcp (S : SrtpContext) (packets : list bytes) : option (SrtpContext * list bytes) :=
  match packets with
  | [] => Some (S, [])
  | packet :: packets =>
      match protect_rtcp (S, packet) with
      | ((S1, wire), Ok _) => '(S2, wires) ← send_all_rtcp S1 packets; Some (S2, wire :: wires)
      | _ => None
      end
  end.
Fixpoint deliver_all_rtcp (R : SrtpContext) (wires : list bytes)
    : SrtpContext * list (outcome SrtpError bytes) :=
  match wires with
  | [] => (R, [])
  | wire :: wires =>
      let '(R, r) := unprotect_rtcp wire R in
      let '(R, rs) := deliver_all_rtcp R wires in
      (R, r :: rs)
  end.

Lemma rtcp_stream S R packets S' wires : Forall rust_slice packets ->
  inbound_rtcp_keys R = outbound_rtcp_keys S -> 0 <= outbound_rtcp_index S ->
  (forall ssrc m, ReplayWindow.maximum (in_rtcp_window R ssrc) = Some m -> m < outbound_rtcp_index S) ->
  send_all_rtcp S packets = Some (S', wires) ->
  (deliver_all_rtcp R wires).2 = Ok <$> packets.
Proof.
  intros Hs. revert S R wires. induction Hs as [|packet packets Hp _ IH]; intros S R wires Hk H0 Hwin H; cbn in H.
  { by simplify_eq. }
  destruct (protect_rtcp (S, packet)) as [[S1 wire] [[]|e| |]] eqn:Hpr; try done.
  apply bind_Some in H as ([S2 ws] & Hsend & H). injection H as <- <-.
  apply protect_rtcp_Ok in Hpr as (head & body & tag & ssrc & idx & Hpr).
  pose proof (rp_index _ _ _ _ _ _ _ _ _ Hpr) as Hidx. pose proof (rp_state _ _ _ _ _ _ _ _ _ Hpr) as Hst.
  destruct (accept_newer (in_rtcp_window R ssrc) idx) as [Hc Ha]; [intros m Hm%Hwin; lia|].
  cbn. rewrite (unprotect_rtcp_protected S packet S1 wire head body tag ssrc idx R) by
    (done || apply Hp || lia).
  set (R1 := set_inbound_rtcp _ R). specialize (IH S1 R1 ws).
  destruct (deliver_all_rtcp R1 ws) as [R2 rs]. cbn in *. f_equal. apply IH; [by subst S1|subst S1; cbn; lia| |done].
  intros ssrc' m. subst S1. cbn [outbound_rtcp_index set_outbound_rtcp_index].
  unfold in_rtcp_window, R1. cbn [inbound_rtcp set_inbound_rtcp].
  destruct (decide (ssrc' = ssrc)) as [->|Hne].
  - rewrite lookup_insert_eq. cbn [from_option id]. fold (in_rtcp_window R ssrc). rewrite Ha. intros [= <-]. lia.
  - rewrite lookup_insert_ne by done. intros Hm. specialize (Hwin ssrc' m Hm). lia.
Qed.
End Srtcp.

(** the same for SRTCP: compound packets protected by one side are recovered in order
    and bit for bit by the other. *)
Theorem srtcp_stream_roundtrip (crypto : SrtpCrypto) q key1 key2 packets S' wires :
  Forall rust_slice packets -> send_all_rtcp (new q key1 key2) packets = Some (S', wires) ->
  (deliver_all_rtcp (new q key2 key1) wires).2 = Ok <$> packets.
Proof.
  intros Hs Hsend. apply (rtcp_stream (new q key1 key2) (new q key2 key1) packets S' wires);
    [done|done|cbn; lia| |exact Hsend].
  intros ssrc m. unfold in_rtcp_window. cbn. by rewrite lookup_empty.
Qed.

(** ** A concrete instance, to run the model *)
Definition toy_crypto : SrtpCrypto.
Proof.
  refine {| aes128_ctr := fun key iv i => (from_be_bytes iv + from_be_bytes key + Z.of_nat i) mod 256;
            hmac_sha1 := fun key m => to_be_bytes 20 (from_be_bytes (key ++ m)) |}.
  - intros. apply Z.mod_pos_bound. lia.
  - intros. apply length_to_be_bytes.
Defined.

Definition example_key : KeyingMaterial :=
  {| master_key := replicate 16 7; master_salt := replicate 14 9 |}.
Definition example_key2 : KeyingMaterial :=
  {| master_key := replicate 16 8; master_salt := replicate 14 1 |}.
Definition example_rtp (seq_hi seq_lo : Z) : bytes :=
  [0x80; 96; seq_hi; seq_lo; 0; 0; 0; 1; 0; 0; 0; 5; 10; 11; 12].
Definition example_rtcp : bytes := [0x81; 206; 0; 2; 0; 0; 0; 1; 0; 0; 0; 2].

Lemma srtp_stream_roundtrip_witness :
  exists wires S', send_all (crypto := toy_crypto) (new (crypto := toy_crypto) Aes128CmSha1_80 example_key example_key2)
      [example_rtp 255 255; example_rtp 0 0] = Some (S', wires) /\
    (deliver_all (crypto := toy_crypto) (new (crypto := toy_crypto) Aes128CmSha1_80 example_key2 example_key) wires).2
      = [Ok (example_rtp 255 255); Ok (example_rtp 0 0)].
Proof.
  eexists _, _. split; [vm_compute; reflexivity|].
  apply (srtp_stream_roundtrip toy_crypto Aes128CmSha1_80 example_key example_key2
    [example_rtp 255 255; example_rtp 0 0]
    (match send_all (crypto := toy_crypto) (new (crypto := toy_crypto) Aes128CmSha1_80 example_key example_key2)
      [example_rtp 255 255; example_rtp 0 0] with Some (S', _) => S' | None =>
       new (crypto := toy_crypto) Aes128CmSha1_80 example_key example_key2 end)); [|vm_compute; reflexivity].
  repeat constructor; eval_facts.
Defined.

Lemma srtcp_stream_roundtrip_witness :
  exists wires S', send_all_rtcp (crypto := toy_crypto)
      (new (crypto := toy_crypto) Aes128CmSha1_32 example_key example_key2) [example_rtcp] = Some (S', wires) /\
    (deliver_all_rtcp (crypto := toy_crypto)
      (new (crypto := toy_crypto) Aes128CmSha1_32 example_key2 example_key) wires).2 = [Ok example_rtcp].
Proof.
  eexists _, _. split; [vm_compute; reflexivity|].
  apply (srtcp_stream_roundtrip toy_crypto Aes128CmSha1_32 example_key example_key2 [example_rtcp]
    (match send_all_rtcp (crypto := toy_crypto) (new (crypto := toy_crypto) Aes128CmSha1_32 example_key example_key2)
      [example_rtcp] with Some (S', _) => S' | None =>
       new (crypto := toy_crypto) Aes128CmSha1_32 example_key example_key2 end)); [|vm_compute; reflexivity].
  repeat constructor; eval_facts.
Defined.


Lemma srtp_keystream_unique_witness :
  NoDup (used_ivs (crypto := toy_crypto)
    (new (crypto := toy_crypto) Aes128CmSha1_80 example_key example_key2) [example_rtp 0 1; example_rtp 0 1; example_rtp 0 2]).
Proof. apply (srtp_keystream_unique toy_crypto). repeat constructor; eval_facts. Defined.
