(* ===== verification/Datagram.v ===== *)
(** * webrtc/rtc-datagram: classification of multiplexed datagrams (src/lib.rs) *)
From S2P Require Import Prelude Words Slices.
From S2P Require RtpExtension RtpPacket RtpRewrite RtcpModel Rtcp.

Inductive DatagramKind := Stun | TurnChannelData | Dtls | Rtp | Rtcp | Unknown.
#[export] Instance DatagramKind_eq_dec : EqDecision DatagramKind.
Proof. solve_decision. Defined.

Definition within (lo hi x : Z) : bool := (lo <=? x) && (x <=? hi).

Definition is_stun (input : bytes) : bool :=
  (20 <=? len input) && bool_decide (get_range input 4 8 = Some [0x21; 0x12; 0xa4; 0x42]).

Definition is_turn_channel_data {E} (input : bytes) : outcome E bool :=
  match get_to input 2 with
  | None => Ok false
  | Some channel_bytes =>
      b0 ← index channel_bytes 0;
      b1 ← index channel_bytes 1;
      let channel := from_be_bytes [b0; b1] in
      Ok (within 0x4000 0x7fff channel)
  end.

Definition classify {E} (input : bytes) : outcome E DatagramKind :=
  match get input 0 with
  | None => Ok Unknown
  | Some first =>
      if within 0 3 first && is_stun input then Ok Stun
      else if within 64 79 first then
        is_turn ← is_turn_channel_data input;
        Ok (if is_turn : bool then TurnChannelData else Unknown)
      else if within 20 63 first then Ok Dtls
      else if within 128 191 first && (2 <=? len input) then
        second ← index input 1;
        Ok (if within 192 223 second then Rtcp else Rtp)
      else Ok Unknown
  end.

Definition is_rtcp_mux_safe_payload_type (payload_type : Z) : bool :=
  (payload_type <=? 127) && negb ((64 <=? payload_type) && (payload_type <=? 95)).

(** ** Facts *)
Lemma returns_is_turn_channel_data {E} input : returns (is_turn_channel_data (E:=E) input).
Proof.
  unfold is_turn_channel_data. destruct (get_to _ 2) as [v|] eqn:Hv; [|done].
  apply get_range_len in Hv. do 2 (apply returns_bind; [apply returns_index; lia|intros ? _]). done.
Qed.

Lemma returns_classify {E} input : returns (classify (E:=E) input).
Proof.
  unfold classify. destruct (get input 0) as [first|]; [|done]. split_ifs; try done.
  - apply returns_bind; [apply returns_is_turn_channel_data|done].
  - apply returns_bind; [|done]. apply returns_index.
    match goal with H : _ && (2 <=? _) = true |- _ => apply andb_true_iff in H as [_ H] end. lia.
Qed.

Lemma classify_media {E} first second rest : within 128 191 first = true ->
  classify (E:=E) (first :: second :: rest) = Ok (if within 192 223 second then Rtcp else Rtp).
Proof.
  unfold classify, within. rewrite get_cons_0. intros H. pose proof H as Hb.
  apply andb_true_iff in Hb as [H1 H2].
  replace ((0 <=? first) && (first <=? 3)) with false by lia.
  replace ((64 <=? first) && _) with false by lia.
  replace ((20 <=? first) && _) with false by lia. rewrite H. cbn [andb].
  rewrite (proj2 (Z.leb_le 2 (len (first :: second :: rest)))) by (rewrite !len_cons; pose_len; lia).
  done.
Qed.

Definition mux_check (m : bool) (pt : Z) : bool :=
  within 192 223 (Z.lor (Z.shiftl (from_bool m) 7) pt).

Lemma mux_safe_spec pt : 0 <= pt <= 127 ->
  mux_check false pt = false /\ mux_check true pt = negb (is_rtcp_mux_safe_payload_type pt).
Proof.
  assert (forallb (fun pt => negb (mux_check false pt) &&
    Bool.eqb (mux_check true pt) (negb (is_rtcp_mux_safe_payload_type pt))) (seqZ 0 128) = true) as H
    by (vm_compute; reflexivity).
  intros Hp. pose proof (forallb_seqZ _ _ _ pt H ltac:(lia)) as Hx. cbn beta in Hx.
  rewrite andb_true_iff, negb_true_iff, eqb_true_iff in Hx. done.
Qed.

Definition first_in_range (padded has_extension : bool) (count : Z) : bool :=
  within 128 191 (RtpPacket.first_byte padded has_extension count).
Lemma first_byte_media padded has_extension count : 0 <= count <= 15 ->
  within 128 191 (RtpPacket.first_byte padded has_extension count) = true.
Proof.
  assert (forallb (fun c => first_in_range true true c && first_in_range true false c &&
    first_in_range false true c && first_in_range false false c) (seqZ 0 16) = true) as H
    by (vm_compute; reflexivity).
  intros Hc. pose proof (forallb_seqZ _ _ _ count H ltac:(lia)) as Hx. cbn beta in Hx.
  rewrite !andb_true_iff in Hx. destruct padded, has_extension; apply Hx.
Qed.

(** the classifier never panics, and a packet built by [PacketBuilder] is taken for RTP
    exactly when its payload type is declared safe for a shared port or its marker is
    clear; otherwise it would be read as RTCP. *)
Theorem classify_built_rtp b output : RtpPacket.builder_ok b ->
  RtpPacket.PacketBuilder.build b = Ok output ->
  let h := RtpPacket.PacketBuilder.b_header b in
  classify (E:=unit) output =
    Ok (if is_rtcp_mux_safe_payload_type (RtpPacket.payload_type h) || negb (RtpPacket.marker h)
        then Rtp else Rtcp).
Proof.
  intros Hok Hb h. pose proof Hok as (Hpt & _ & _ & _ & _ & Hpad & _). fold h in Hpt.
  destruct (RtpPacket.build_shape b output Hb Hpad) as (Hpt' & Hcs & _ & _ & block & _ & ->).
  fold h in Hpt', Hcs |- *. rewrite classify_media by (apply first_byte_media; pose_len; lia).
  destruct (mux_safe_spec (RtpPacket.payload_type h)) as [Hf Ht]; [mlia|].
  fold (mux_check (RtpPacket.marker h) (RtpPacket.payload_type h)). destruct (RtpPacket.marker h).
  - rewrite Ht, orb_false_r. by destruct (is_rtcp_mux_safe_payload_type _).
  - rewrite Hf, orb_true_r. done.
Qed.

Lemma classify_built_rtp_witness :
  classify (E:=unit) [0x80; 96; 0; 1; 0; 0; 0; 2; 0; 0; 0; 3; 42] = Ok Rtp.
Proof.
  apply (classify_built_rtp (RtpPacket.PacketBuilder.new 96 1 2 3 [42])); [|vm_compute; reflexivity].
  unfold RtpPacket.builder_ok. cbn [RtpPacket.PacketBuilder.new RtpPacket.PacketBuilder.b_header].
  split_and!; try done; eval_facts.
Defined.
