(* ===== verification/DtlsAdapter.v ===== *)
(** * webrtc/dtls-adapter: exporter keys and certificate fingerprints (src/keying.rs, src/fingerprint.rs, src/error.rs)

    The handshake itself is OpenSSL's.  This crate cuts the exported octets into the keys of the two
    directions and compares certificates by their SHA-256 fingerprint as SDP writes it. *)
From S2P Require Import Prelude Words Slices RustStr Replay Srtp.

(** The errors of the crate; those of the OpenSSL backend are not here. *)
Inductive DtlsError :=
| UnsupportedFingerprintAlgorithm (algorithm : bytes)
| InvalidFingerprint
| InvalidExporterLength (expected actual : Z)
| UnsupportedSrtpProfile (profile : bytes)
| FingerprintMismatch
| MissingPeerCertificate
| SrtpFailure (error : SrtpError).

Definition MASTER_KEY_LEN : Z := 16.
Definition MASTER_SALT_LEN : Z := 14.
Definition EXPORTER_LEN : Z := 2 * (MASTER_KEY_LEN + MASTER_SALT_LEN).

Inductive DtlsRole := Client | Server.

Module DtlsSrtpProfile.
Inductive t := Aes128CmSha1_80 | Aes128CmSha1_32.

Definition parse_name (name : bytes) : outcome DtlsError t :=
  if bool_decide (name = octets "SRTP_AES128_CM_SHA1_80") then Ok Aes128CmSha1_80
  else if bool_decide (name = octets "SRTP_AES128_CM_SHA1_32") then Ok Aes128CmSha1_32
  else Err (UnsupportedSrtpProfile name).

Definition protection_profile (self : t) : ProtectionProfile :=
  match self with
  | Aes128CmSha1_80 => Srtp.Aes128CmSha1_80
  | Aes128CmSha1_32 => Srtp.Aes128CmSha1_32
  end.
End DtlsSrtpProfile.

Record DirectionalKeyingMaterial := {
  keying_profile : ProtectionProfile;
  outbound : KeyingMaterial;
  inbound : KeyingMaterial }.

Definition split_srtp_exporter (profile : DtlsSrtpProfile.t) (local_role : DtlsRole) (exported : bytes)
    : outcome DtlsError DirectionalKeyingMaterial :=
  _ ← reject_if (negb (len exported =? EXPORTER_LEN)) (InvalidExporterLength EXPORTER_LEN (len exported));
  client_key ← index_range exported 0 16;
  server_key ← index_range exported 16 32;
  client_salt ← index_range exported 32 46;
  server_salt ← index_range exported 46 60;
  client ← map_err SrtpFailure (Keying.new client_key client_salt);
  server ← map_err SrtpFailure (Keying.new server_key server_salt);
  let '(outbound, inbound) := match local_role with Client => (client, server) | Server => (server, client) end in
  Ok {| keying_profile := DtlsSrtpProfile.protection_profile profile; outbound := outbound; inbound := inbound |}.

(** ** Fingerprints *)
Class DtlsCrypto := {
  sha256 : bytes -> bytes;
  sha256_output m : bytes_ok (sha256 m) /\ len (sha256 m) = 32 }.

Module Sha256Fingerprint.
(** [for byte in &mut bytes { … parts.next() … }] *)
Fixpoint read_octets (n : nat) (parts : list bytes) : outcome DtlsError (bytes * list bytes) :=
  match n with
  | O => Ok ([], parts)
  | S n =>
      match parts with
      | [] => Err InvalidFingerprint
      | part :: parts =>
          _ ← reject_if (negb (len part =? 2)) InvalidFingerprint;
          byte ← ok_or (from_str_radix 8 16 part) InvalidFingerprint;
          '(bytes, parts) ← read_octets n parts;
          Ok (byte :: bytes, parts)
      end
  end.

Definition parse (algorithm value : bytes) : outcome DtlsError bytes :=
  _ ← reject_if (negb (eq_ignore_ascii_case algorithm (octets "sha-256"))) (UnsupportedFingerprintAlgorithm algorithm);
  '(bytes, parts) ← read_octets 32 (split 0x3a value);
  _ ← reject_if (negb (bool_decide (parts = []))) InvalidFingerprint;
  Ok bytes.

Definition from_certificate_der `{DtlsCrypto} (der : bytes) : bytes := sha256 der.

(** [Display] *)
Definition fmt (self : bytes) : bytes := join 0x3a (hex_byte <$> self).
End Sha256Fingerprint.

(** ** Facts *)
Lemma split_exporter_spec profile exported : len exported = EXPORTER_LEN ->
  exists client server, len (master_key client) = 16 /\ len (master_salt client) = 14 /\
    len (master_key server) = 16 /\ len (master_salt server) = 14 /\
    exported = master_key client ++ master_key server ++ master_salt client ++ master_salt server /\
    forall role, split_srtp_exporter profile role exported = Ok {|
      keying_profile := DtlsSrtpProfile.protection_profile profile;
      outbound := match role with Client => client | Server => server end;
      inbound := match role with Client => server | Server => client end |}.
Proof.
  intros H. assert (exists ck sk cs ss, exported = ck ++ sk ++ cs ++ ss /\ len ck = 16 /\ len sk = 16 /\ len cs = 14 /\ len ss = 14)
    as (ck & sk & cs & ss & -> & H1 & H2 & H3 & H4).
  { exists (take 16 exported), (take 16 (drop 16 exported)), (take 14 (drop 32 exported)), (drop 46 exported).
    change EXPORTER_LEN with 60 in H. rewrite !len_take, !len_drop. split; [|lia].
    rewrite <- (take_drop 16 exported) at 1. f_equal. rewrite <- (take_drop 16 (drop 16 exported)) at 1. f_equal. rewrite drop_drop.
    rewrite <- (take_drop 14 (drop (16 + 16) exported)) at 1. f_equal. by rewrite drop_drop. }
  exists {| master_key := ck; master_salt := cs |}, {| master_key := sk; master_salt := ss |}. cbn [master_key master_salt].
  do 5 (split; [done|]). intros role. unfold split_srtp_exporter. rewrite H. cbn [reject_if negb mbind outcome_bind].
  unfold index_range. rewrite get_range_exact by lia.
  assert (get_range (ck ++ sk ++ cs ++ ss) 16 32 = Some sk) as ->.
  { rewrite get_range_skip, H1 by lia. by apply get_range_exact. }
  assert (get_range (ck ++ sk ++ cs ++ ss) 32 46 = Some cs) as ->.
  { rewrite get_range_skip, get_range_skip, H1, H2 by lia. by apply get_range_exact. }
  assert (get_range (ck ++ sk ++ cs ++ ss) 46 60 = Some ss) as ->.
  { rewrite get_range_skip, get_range_skip, get_range_skip, H1, H2, H3 by lia. by apply get_range_all. }
  cbn [or_panic mbind outcome_bind]. unfold Keying.new. rewrite H1, H2, H3, H4. cbn. by destruct role.
Qed.

(** The octets that [read_octets] reads, and what is left. *)
Definition reads (part : bytes) (b : Z) : Prop := len part = 2 /\ from_str_radix 8 16 part = Some b.

Lemma read_octets_Ok n parts bs rest : Sha256Fingerprint.read_octets n parts = Ok (bs, rest) <->
  exists used, parts = used ++ rest /\ length used = n /\ Forall2 reads used bs.
Proof.
  revert parts bs. induction n as [|n IH]; intros parts bs; cbn.
  - split; [intros [= <- <-]; by exists []|intros ([|] & -> & Hn & H); [by inversion H; subst|done]].
  - destruct parts as [|part parts].
    { split; [done|]. intros (used & E & Hn & _). destruct used; [done|]. destruct rest; done. }
    split.
    + intros H. apply bind_Ok in H as ([] & Hl%reject_if_Ok & H). apply bind_Ok in H as (b & Hb%ok_or_Ok & H).
      apply bind_Ok in H as ([bs' rest'] & Hr & H). injection H as <- <-.
      apply IH in Hr as (used & -> & Hn & Hu). exists (part :: used). split_and!; [done|cbn; by rewrite Hn|].
      constructor; [|done]. split; [|done]. apply negb_false_iff in Hl. lia.
    + intros (used & E & Hn & H). destruct used as [|p used]; [done|]. injection E as -> ->. injection Hn as Hn.
      inversion H as [|? b ? bs' [Hl Hb] Hu]; subst. rewrite Hl, Hb. cbn.
      rewrite (proj2 (IH (used ++ rest) bs')); [done|]. by exists used.
Qed.

Lemma returns_read_octets n parts : returns (Sha256Fingerprint.read_octets n parts).
Proof. revert parts. induction n as [|n IH]; intros parts; cbn; [done|]. destruct parts as [|part parts]; [done|].
  do 2 (apply returns_bind; [auto with returns|intros ? _]). apply returns_bind; [apply IH|by intros []].
Qed.

Lemma fingerprint_parse_Ok algorithm value fp : Sha256Fingerprint.parse algorithm value = Ok fp <->
  eq_ignore_ascii_case algorithm (octets "sha-256") = true /\ length (split 0x3a value) = 32%nat /\ Forall2 reads (split 0x3a value) fp.
Proof.
  unfold Sha256Fingerprint.parse. split.
  - intros H. apply bind_Ok in H as ([] & Ha%reject_if_Ok%negb_false_iff & H). apply bind_Ok in H as ([bs parts] & Hr & H).
    apply bind_Ok in H as ([] & Hp%reject_if_Ok%negb_false_iff%bool_decide_eq_true & [= <-]).
    apply read_octets_Ok in Hr as (used & Hs & Hn & Hu). rewrite Hp, app_nil_r in Hs. rewrite Hs. by split_and!.
  - intros (-> & Hn & H). cbn [negb reject_if mbind outcome_bind].
    rewrite (proj2 (read_octets_Ok 32 (split 0x3a value) fp [])); [done|]. exists (split 0x3a value). by rewrite app_nil_r.
Qed.

Lemma reads_hex fp : bytes_ok fp -> Forall2 reads (hex_byte <$> fp) fp /\ Forall (fun p => 0x3a ∉ p) (hex_byte <$> fp).
Proof.
  induction 1 as [|b fp Hb Hfp [IH1 IH2]]; [split; constructor|]. destruct (hex_byte_spec b Hb) as [H1 H2].
  split; constructor; try done.
Qed.

Lemma reads_octets parts fp : Forall2 reads parts fp -> bytes_ok fp.
Proof. induction 1 as [|p b parts fp [_ Hb] _ IH]; [constructor|]. constructor; [|done]. apply (from_str_radix_fits 8 16 p); lia || done. Qed.

Lemma fingerprint_parse_fmt algorithm fp : eq_ignore_ascii_case algorithm (octets "sha-256") = true ->
  bytes_ok fp -> len fp = 32 -> Sha256Fingerprint.parse algorithm (Sha256Fingerprint.fmt fp) = Ok fp.
Proof.
  intros Ha Hok Hl. destruct (reads_hex fp Hok) as [H1 H2]. apply fingerprint_parse_Ok. unfold Sha256Fingerprint.fmt.
  rewrite split_join; [|by destruct fp|done]. split_and!; [done| |done]. rewrite length_fmap. unfold len in Hl. lia.
Qed.

(** the fingerprint parser returns on every pair of strings; what it accepts has 32 octets,
    and printing it gives a string that parses back to the same octets, so two accepted strings denote the
    same certificate exactly when they print alike; the digest of every certificate survives the way
    through SDP. *)
Theorem fingerprint_roundtrip (crypto : DtlsCrypto) algorithm value :
  returns (Sha256Fingerprint.parse algorithm value) /\
  (forall fp, Sha256Fingerprint.parse algorithm value = Ok fp -> bytes_ok fp /\ len fp = 32 /\
     Sha256Fingerprint.parse algorithm (Sha256Fingerprint.fmt fp) = Ok fp) /\
  (forall der, Sha256Fingerprint.parse (octets "sha-256") (Sha256Fingerprint.fmt (Sha256Fingerprint.from_certificate_der der))
     = Ok (Sha256Fingerprint.from_certificate_der der)).
Proof.
  split_and!.
  - unfold Sha256Fingerprint.parse. apply returns_bind; [auto with returns|]. intros _ _.
    apply returns_bind; [apply returns_read_octets|]. intros [bs parts] _. returns_steps.
  - intros fp H. apply fingerprint_parse_Ok in H as (Ha & Hn & H). pose proof (reads_octets _ _ H) as Hok.
    assert (len fp = 32) as Hl by (apply Forall2_length in H; unfold len; lia).
    split_and!; [done..|]. by apply fingerprint_parse_fmt.
  - intros der. destruct (sha256_output der). by apply fingerprint_parse_fmt.
Qed.

(** A sign is taken for a digit: [from_str_radix] accepts a leading plus, so [+F] is read as the octet 15
    although it is not two hexadecimal digits. *)
Theorem fingerprint_accepts_sign d : 0 <= d < 16 ->
  Sha256Fingerprint.parse (octets "sha-256") (join 0x3a (replicate 32 [0x2b; hex_digit d])) = Ok (replicate 32 d).
Proof.
  assert (forallb (fun d => match Sha256Fingerprint.parse (octets "sha-256") (join 0x3a (replicate 32 [0x2b; hex_digit d])) with
    | Ok fp => bool_decide (fp = replicate 32 d) | _ => false end) (seqZ 0 16) = true) as H by (vm_compute; reflexivity).
  intros Hd. pose proof (forallb_seqZ _ _ _ d H ltac:(lia)) as Hb. cbv beta in Hb.
  destruct (Sha256Fingerprint.parse _ _); [|done..]. apply bool_decide_eq_true in Hb. by subst.
Qed.

(** ** A concrete digest *)
Definition example_dtls_crypto : DtlsCrypto.
Proof.
  refine {| sha256 := fun m => to_be_bytes 32 (from_be_bytes m) |}.
  intros m. split; [apply to_be_bytes_ok|apply (len_to_be_bytes 32)].
Defined.

Lemma fingerprint_roundtrip_witness :
  Sha256Fingerprint.parse (octets "SHA-256") (Sha256Fingerprint.fmt (replicate 32 171)) = Ok (replicate 32 171).
Proof.
  refine (proj2 (proj2 (proj1 (proj2 (fingerprint_roundtrip example_dtls_crypto (octets "SHA-256") (join 0x3a (replicate 32 (octets "aB")))))
    (replicate 32 171) _))). vm_compute. reflexivity.
Defined.
