(* ===== verification/MediaCodec.v ===== *)
(** * webrtc/media-codec: payload inspection (src/lib.rs)

    Payload descriptors of VP8, VP9, H.264 and AV1, read only as far as routing needs. *)
From S2P Require Import Prelude Words Slices.
From S2P Require RtcpModel.

Inductive Codec := Opus | Vp8 | Vp9 | H264 | Av1 | UnknownCodec.

Record PayloadInfo := {
  start_of_frame : bool;
  end_of_frame : bool;
  keyframe : bool;
  temporal_id : option Z;
  spatial_id : option Z }.

Inductive PayloadError :=
| EmptyPayload
| TruncatedDescriptor
| UnsupportedH264NalType (nal_type : Z)
| InvalidAggregationUnit.

Definition read_byte (payload : bytes) (position : Z) : outcome PayloadError Z :=
  ok_or (get payload position) TruncatedDescriptor.
Definition read_u16 : bytes -> Z -> outcome PayloadError Z := read_be 2 TruncatedDescriptor.
Definition require_position (payload : bytes) (position : Z) : outcome PayloadError unit :=
  if position <? len payload then Ok tt else Err TruncatedDescriptor.

(** [position += if picture_id & 0x80 != 0 { 2 } else { 1 }], then the bounds check. *)
Definition skip_picture_id (payload : bytes) (position : Z) : outcome PayloadError Z :=
  picture_id ← read_byte payload position;
  let position := position + (if has_bit picture_id 0x80 then 2 else 1) in
  _ ← require_position payload position;
  Ok position.

(** The extended control bits of a VP8 descriptor: the position after them and the
    temporal layer. *)
Definition inspect_vp8_extension (payload : bytes) (position : Z)
    : outcome PayloadError (Z * option Z) :=
  extension ← read_byte payload position;
  let position := position + 1 in
  position ← (if has_bit extension 0x80 then skip_picture_id payload position else Ok position);
  position ← (if has_bit extension 0x40
              then let position := position + 1 in
                   _ ← require_position payload position; Ok position
              else Ok position);
  if has_bit extension 0x30 then
    layer ← read_byte payload position;
    Ok (position + 1, if has_bit extension 0x20 then Some (Z.shiftr layer 6) else None)
  else Ok (position, None).

Definition inspect_vp8 (payload : bytes) (marker : bool) : outcome PayloadError PayloadInfo :=
  descriptor ← ok_or (get payload 0) EmptyPayload;
  let extended := has_bit descriptor 0x80 in
  let start := has_bit descriptor 0x10 in
  let partition_id := Z.land descriptor 0x0f in
  '(position, temporal_id) ←
    (if extended then inspect_vp8_extension payload 1 else Ok (1, None));
  let first_partition_payload := start && (partition_id =? 0) in
  keyframe ← (if first_partition_payload
              then b ← read_byte payload position; Ok (Z.land b 0x01 =? 0)
              else Ok false);
  Ok {| start_of_frame := first_partition_payload;
        end_of_frame := marker;
        keyframe := keyframe;
        temporal_id := temporal_id;
        spatial_id := None |}.

(** [loop] over the reference indices of flexible mode. *)
Fixpoint skip_references (fuel : nat) (payload : bytes) (position : Z) : outcome PayloadError Z :=
  match fuel with
  | O => Diverge
  | S fuel =>
      reference ← read_byte payload position;
      let position := position + 1 in
      if Z.land reference 0x01 =? 0 then Ok position else skip_references fuel payload position
  end.

Fixpoint skip_groups (groups : nat) (payload : bytes) (position : Z) : outcome PayloadError Z :=
  match groups with
  | O => Ok position
  | S groups =>
      group ← read_byte payload position;
      let position := position + (1 + Z.land group 0x03) in
      _ ← require_position payload position;
      skip_groups groups payload position
  end.

Definition parse_vp9_scalability_structure (payload : bytes) (position : Z)
    : outcome PayloadError Z :=
  header ← read_byte payload position;
  let position := position + 1 in
  let spatial_layers := Z.shiftr header 5 + 1 in
  position ←
    (if has_bit header 0x10 then
       position ← ok_or (checked_add 64 position (spatial_layers * 4)) TruncatedDescriptor;
       _ ← require_position payload position;
       Ok position
     else Ok position);
  if has_bit header 0x08 then
    groups ← read_byte payload position;
    skip_groups (Z.to_nat groups) payload (position + 1)
  else Ok position.

Definition inspect_vp9 (payload : bytes) (marker : bool) : outcome PayloadError PayloadInfo :=
  descriptor ← ok_or (get payload 0) EmptyPayload;
  let inter_picture := has_bit descriptor 0x40 in
  let flexible := has_bit descriptor 0x10 in
  let begins_frame := has_bit descriptor 0x08 in
  let ends_frame := has_bit descriptor 0x04 in
  position ← (if has_bit descriptor 0x80 then skip_picture_id payload 1 else Ok 1);
  '(position, temporal_id, spatial_id) ←
    (if has_bit descriptor 0x20 then
       layer ← read_byte payload position;
       let position := position + 1 in
       position ← (if negb flexible
                   then let position := position + 1 in
                        _ ← require_position payload position; Ok position
                   else Ok position);
       Ok (position, Some (Z.shiftr layer 5), Some (Z.land (Z.shiftr layer 1) 0x07))
     else Ok (position, None, None));
  position ← (if flexible && inter_picture
              then skip_references (S (length payload)) payload position else Ok position);
  position ← (if has_bit descriptor 0x02
              then parse_vp9_scalability_structure payload position else Ok position);
  _ ← require_position payload position;
  Ok {| start_of_frame := begins_frame;
        end_of_frame := ends_frame || marker;
        keyframe := begins_frame && negb inter_picture;
        temporal_id := temporal_id;
        spatial_id := spatial_id |}.

(** [while position < payload.len()] over the units of a STAP-A packet; the result is
    [(keyframe, units)]. *)
Fixpoint stap_units (fuel : nat) (payload : bytes) (position : Z) (keyframe : bool) (units : Z)
    : outcome PayloadError (bool * Z) :=
  match fuel with
  | O => Diverge
  | S fuel =>
      if position <? len payload then
        length ← read_u16 payload position;
        let position := position + 2 in
        _ ← reject_if (length =? 0) InvalidAggregationUnit;
        e ← ok_or (checked_add 64 position length) InvalidAggregationUnit;
        unit ← ok_or (get_range payload position e) InvalidAggregationUnit;
        nal ← index unit 0;
        stap_units fuel payload e (keyframe || (Z.land nal 0x1f =? 5)) (units + 1)
      else Ok (keyframe, units)
  end.

Definition inspect_h264_stap_a (payload : bytes) (marker : bool)
    : outcome PayloadError PayloadInfo :=
  '(keyframe, units) ← stap_units (S (length payload)) payload 1 false 0;
  _ ← reject_if (units =? 0) InvalidAggregationUnit;
  Ok {| start_of_frame := true; end_of_frame := marker; keyframe := keyframe;
        temporal_id := None; spatial_id := None |}.

Definition inspect_h264 (payload : bytes) (marker : bool) : outcome PayloadError PayloadInfo :=
  nal_header ← ok_or (get payload 0) EmptyPayload;
  let nal_type := Z.land nal_header 0x1f in
  if (1 <=? nal_type) && (nal_type <=? 23) then
    Ok {| start_of_frame := true; end_of_frame := marker; keyframe := nal_type =? 5;
          temporal_id := None; spatial_id := None |}
  else if nal_type =? 24 then inspect_h264_stap_a payload marker
  else if nal_type =? 28 then
    fu_header ← read_byte payload 1;
    Ok {| start_of_frame := has_bit fu_header 0x80;
          end_of_frame := has_bit fu_header 0x40 || marker;
          keyframe := Z.land fu_header 0x1f =? 5;
          temporal_id := None; spatial_id := None |}
  else Err (UnsupportedH264NalType nal_type).

Definition inspect_av1 (payload : bytes) (marker : bool) : outcome PayloadError PayloadInfo :=
  aggregation ← ok_or (get payload 0) EmptyPayload;
  let continues_previous := has_bit aggregation 0x80 in
  let continues_next := has_bit aggregation 0x40 in
  let new_coded_sequence := has_bit aggregation 0x08 in
  _ ← reject_if (len payload =? 1) TruncatedDescriptor;
  Ok {| start_of_frame := negb continues_previous;
        end_of_frame := negb continues_next || marker;
        keyframe := negb continues_previous && new_coded_sequence;
        temporal_id := None; spatial_id := None |}.

Definition inspect_payload (codec : Codec) (payload : bytes) (marker : bool)
    : outcome PayloadError PayloadInfo :=
  match codec with
  | Opus => Ok {| start_of_frame := true; end_of_frame := true; keyframe := true;
                  temporal_id := None; spatial_id := None |}
  | Vp8 => inspect_vp8 payload marker
  | Vp9 => inspect_vp9 payload marker
  | H264 => inspect_h264 payload marker
  | Av1 => inspect_av1 payload marker
  | UnknownCodec => Ok {| start_of_frame := false; end_of_frame := marker; keyframe := false;
                          temporal_id := None; spatial_id := None |}
  end.

(** ** Inspection returns *)
Lemma returns_require_position payload p : returns (require_position payload p).
Proof. unfold require_position. by case_match. Qed.
#[export] Hint Resolve returns_require_position : returns.
#[export] Hint Extern 1 (returns (read_byte _ _)) => apply returns_ok_or : returns.
#[export] Hint Extern 1 (returns (MediaCodec.read_u16 _ _)) => apply returns_read_be : returns.

Lemma returns_skip_picture_id payload p : returns (skip_picture_id payload p).
Proof. unfold skip_picture_id. returns_steps. Qed.
#[export] Hint Resolve returns_skip_picture_id : returns.

Lemma returns_if {E A} (b : bool) (x y : outcome E A) :
  (b = true -> returns x) -> (b = false -> returns y) -> returns (if b then x else y).
Proof. destruct b; auto. Qed.

(** Walk down a chain whose steps are conditionals over returning calls. *)
Ltac returns_branches :=
  repeat (cbv zeta; open_tuples; first
    [ solve [auto with returns nocore]
    | apply returns_if; intros _
    | apply returns_bind; [|intros ? _] ]).

Lemma returns_inspect_vp8 payload marker : returns (inspect_vp8 payload marker).
Proof. unfold inspect_vp8, inspect_vp8_extension. returns_branches. Qed.

Lemma returns_skip_references fuel payload p : 0 <= p -> len payload < p + Z.of_nat fuel ->
  (0 < fuel)%nat -> returns (skip_references fuel payload p).
Proof.
  revert p. induction fuel as [|fuel IH]; intros p Hp Hf H0; [lia|]. cbn [skip_references].
  apply returns_bind; [auto with returns|]. intros r Hr%ok_or_Ok%mk_is_Some%get_is_Some.
  case_match; [done|]. apply IH; lia.
Qed.

Lemma returns_skip_groups n payload p : returns (skip_groups n payload p).
Proof.
  revert p. induction n as [|n IH]; intros p; cbn [skip_groups]; [done|].
  apply returns_bind; [auto with returns|intros ? _]. apply returns_bind; [auto with returns|auto].
Qed.

Lemma returns_scalability payload p : returns (parse_vp9_scalability_structure payload p).
Proof.
  unfold parse_vp9_scalability_structure. returns_branches. apply returns_skip_groups.
Qed.
#[export] Hint Resolve returns_scalability : returns.

Lemma skip_picture_id_nonneg payload p q : 0 <= p -> skip_picture_id payload p = Ok q -> 0 <= q.
Proof.
  intros Hp (x & _ & H)%bind_Ok. apply bind_Ok in H as (? & _ & H). apply Ok_inj in H as <-.
  case_match; lia.
Qed.

Lemma returns_inspect_vp9 payload marker : returns (inspect_vp9 payload marker).
Proof.
  unfold inspect_vp9. cbv zeta. apply returns_bind; [auto with returns|]. intros d _.
  apply returns_bind; [case_match; auto with returns|]. intros p1 Hp1.
  assert (0 <= p1) as H1 by (case_match; [by eapply skip_picture_id_nonneg, Hp1|apply Ok_inj in Hp1; lia]).
  apply returns_bind; [returns_branches|]. intros [[p2 t] s] Hp2.
  assert (0 <= p2) as H2.
  { case_match; [|apply Ok_inj in Hp2; by simplify_eq]. apply bind_Ok in Hp2 as (l & _ & Hp2).
    apply bind_Ok in Hp2 as (p3 & Hp3 & Hp2). apply Ok_inj in Hp2. simplify_eq.
    case_match; [apply bind_Ok in Hp3 as (? & _ & Hp3)|]; apply Ok_inj in Hp3; lia. }
  apply returns_bind.
  { apply returns_if; intros _; [|done]. apply returns_skip_references; [done|unfold len; lia|lia]. }
  intros p4 _. returns_branches.
Qed.

Lemma returns_stap_units fuel payload p k n : rust_slice payload -> 0 <= p ->
  len payload < p + Z.of_nat fuel -> (0 < fuel)%nat -> returns (stap_units fuel payload p k n).
Proof.
  intros [Hok _]. revert p k n. induction fuel as [|fuel IH]; intros p k n Hp Hf H0; [lia|].
  cbn [stap_units]. destruct (Z.ltb_spec p (len payload)); [|done].
  apply returns_bind; [auto with returns|]. intros l Hl.
  apply read_be_Ok in Hl as (l1 & b & l2 & Hsplit & _ & _ & _ & ->).
  rewrite Hsplit, !bytes_ok_app in Hok. pose proof (from_be_bytes_bound b (proj1 (proj2 Hok))) as Hb.
  apply returns_bind; [auto with returns|]. intros _ Hz%reject_if_Ok.
  apply returns_bind; [auto with returns|]. intros e [-> _]%ok_or_Ok%checked_add_Some.
  apply returns_bind; [auto with returns|]. intros u Hu%ok_or_Ok%get_range_len.
  apply returns_bind; [apply returns_index; lia|]. intros nal _.
  rewrite <- !bytes_ok_app, <- Hsplit in Hok. apply IH; lia.
Qed.

Lemma returns_inspect_payload codec payload marker : rust_slice payload ->
  returns (inspect_payload codec payload marker).
Proof.
  intros Hp. destruct codec; cbn [inspect_payload]; try done.
  - apply returns_inspect_vp8.
  - apply returns_inspect_vp9.
  - unfold inspect_h264. apply returns_bind; [auto with returns|]. intros h _. split_ifs; try done.
    + unfold inspect_h264_stap_a. apply returns_bind; [|intros [k n] _; returns_branches].
      apply returns_stap_units; [done|lia|unfold len; lia|lia].
    + returns_branches.
  - unfold inspect_av1. returns_branches.
Qed.

(** The fields a payload descriptor has room for. *)
Definition info_ok (marker : bool) (i : PayloadInfo) : Prop :=
  from_option (fun t => 0 <= t <= 7) True (temporal_id i) /\
  from_option (fun s => 0 <= s <= 7) True (spatial_id i) /\
  (marker = true -> end_of_frame i = true).

Lemma read_byte_u8 payload p b : bytes_ok payload -> read_byte payload p = Ok b -> 0 <= b < 256.
Proof.
  unfold read_byte, get, bytes_ok. intros Hok H%ok_or_Ok. case_match; [|done].
  rewrite Forall_forall in Hok. specialize (Hok b (list_elem_of_lookup_2 _ _ _ H)). width. lia.
Qed.

Lemma shiftr_bound b k n : 0 <= k -> 0 <= b < n * 2 ^ k -> 0 <= Z.shiftr b k < n.
Proof.
  intros Hk Hb. rewrite Z.shiftr_div_pow2 by done. pose proof (Z.pow_pos_nonneg 2 k).
  split; [apply Z.div_pos; lia|apply Z.div_lt_upper_bound; lia].
Qed.

Lemma inspect_vp8_ok payload marker i : bytes_ok payload -> inspect_vp8 payload marker = Ok i -> info_ok marker i.
Proof.
  intros Hok H. unfold inspect_vp8 in H. apply bind_Ok in H as (d & _ & H). cbv zeta in H.
  apply bind_Ok in H as ([p t] & He & H). apply bind_Ok in H as (k & _ & H). apply Ok_inj in H as <-.
  split_and!; cbn; try done. case_match; cycle 1.
  { apply Ok_inj in He. by simplify_eq. }
  unfold inspect_vp8_extension in He. apply bind_Ok in He as (x & _ & He). cbv zeta in He.
  apply bind_Ok in He as (p1 & _ & He). apply bind_Ok in He as (p2 & _ & He).
  case_match; [|apply Ok_inj in He; by simplify_eq].
  apply bind_Ok in He as (l & Hl%read_byte_u8 & He); [|done]. apply Ok_inj in He. simplify_eq.
  case_match; [|done]. cbn [from_option]. pose proof (shiftr_bound l 6 4). lia.
Qed.

Lemma inspect_vp9_ok payload marker i : bytes_ok payload -> inspect_vp9 payload marker = Ok i -> info_ok marker i.
Proof.
  intros Hok H. unfold inspect_vp9 in H. apply bind_Ok in H as (d & _ & H). cbv zeta in H.
  apply bind_Ok in H as (p & _ & H). apply bind_Ok in H as ([[p1 t] s] & Hl & H).
  apply bind_Ok in H as (p2 & _ & H). apply bind_Ok in H as (p3 & _ & H). apply bind_Ok in H as (? & _ & H).
  apply Ok_inj in H as <-.
  assert (from_option (fun t => 0 <= t <= 7) True t /\ from_option (fun s => 0 <= s <= 7) True s) as [Ht Hs].
  { case_match; [|apply Ok_inj in Hl; by simplify_eq].
    apply bind_Ok in Hl as (l & Hb%read_byte_u8 & Hl); [|done]. apply bind_Ok in Hl as (? & _ & Hl).
    apply Ok_inj in Hl. simplify_eq. cbn [from_option]. split.
    - pose proof (shiftr_bound l 5 8). lia.
    - pose proof (Z.land_ones (Z.shiftr l 1) 3) as Hm. change (Z.ones 3) with 7 in Hm. rewrite Hm by lia.
      pose proof (Z.mod_pos_bound (Z.shiftr l 1) (2 ^ 3)). lia. }
  split_and!; [done..|]. cbn. intros ->. apply orb_true_r.
Qed.

Lemma inspect_payload_ok codec payload marker i : bytes_ok payload ->
  inspect_payload codec payload marker = Ok i -> info_ok marker i.
Proof.
  intros Hok H. destruct codec; cbn [inspect_payload] in H.
  - apply Ok_inj in H as <-. done.
  - by eapply inspect_vp8_ok.
  - by eapply inspect_vp9_ok.
  - unfold inspect_h264 in H. apply bind_Ok in H as (n & _ & H). cbv zeta in H.
    destruct (_ && _) in H; [apply Ok_inj in H as <-; done|]. destruct (_ =? 24) in H.
    + apply bind_Ok in H as ([k u] & _ & H). apply bind_Ok in H as (? & _ & H). by apply Ok_inj in H as <-.
    + destruct (_ =? 28) in H; [|done]. apply bind_Ok in H as (f & _ & H). apply Ok_inj in H as <-.
      split_and!; [done..|]. cbn. intros ->. apply orb_true_r.
  - unfold inspect_av1 in H. apply bind_Ok in H as (n & _ & H). cbv zeta in H. apply bind_Ok in H as (? & _ & H).
    apply Ok_inj in H as <-. split_and!; [done..|]. cbn. intros ->. apply orb_true_r.
  - by apply Ok_inj in H as <-.
Qed.

(** inspecting a payload comes back for every codec and every payload: no descriptor,
    however malformed, makes it read out of range or loop; the layer identifiers it reports
    fit the three bits of the descriptors, and the RTP marker always ends the frame. *)
Theorem inspect_payload_total codec payload marker : rust_slice payload ->
  returns (inspect_payload codec payload marker) /\
  forall i, inspect_payload codec payload marker = Ok i -> info_ok marker i.
Proof.
  intros Hp. split; [by apply returns_inspect_payload|]. intros i. apply inspect_payload_ok, Hp.
Qed.

(** ** H.264 aggregation packets *)
Definition stap_bytes (units : list bytes) : bytes := units ≫= fun u => to_be_bytes 2 (len u) ++ u.
Definition is_idr (u : bytes) : bool :=
  match u with nal :: _ => Z.land nal 0x1f =? 5 | [] => false end.
Definition unit_ok (u : bytes) : Prop := 0 < len u < 2 ^ 16.

Lemma stap_units_encoded units fuel pre k n : Forall unit_ok units -> (length units < fuel)%nat ->
  len (pre ++ stap_bytes units) < 2 ^ 63 ->
  stap_units fuel (pre ++ stap_bytes units) (len pre) k n =
    Ok (k || existsb is_idr units, n + len units).
Proof.
  intros H. revert fuel pre k n. induction H as [|u units Hu Hus IH]; intros [|fuel] pre k n Hf Hl;
    cbn [length] in Hf; try lia; cbn [stap_units].
  { unfold stap_bytes. cbn [mbind list_bind existsb]. rewrite app_nil_r, Z.ltb_irrefl, orb_false_r, len_nil.
    do 2 f_equal. lia. }
  unfold unit_ok in Hu. unfold stap_bytes in *. rewrite bind_cons in *. fold (stap_bytes units) in *.
  rewrite !len_app, len_to_be_bytes in Hl. pose_len.
  rewrite (proj2 (Z.ltb_lt _ _)) by (rewrite !len_app, len_to_be_bytes; lia).
  rewrite <- app_assoc. unfold read_u16.
  rewrite (RtcpModel.read_be_off 2 _ pre _ (len pre) 0), RtcpModel.read_be_first by (done || mlia).
  cbn [mbind outcome_bind]. rewrite (proj2 (Z.eqb_neq (len u) 0)) by lia. cbn [reject_if mbind outcome_bind].
  rewrite checked_add_fits by mlia. cbn [ok_or mbind outcome_bind].
  rewrite (proj2 (get_range_Some _ _ _ u)); cycle 1.
  { exists (pre ++ to_be_bytes 2 (len u)), (stap_bytes units). rewrite <- !app_assoc, len_app, len_to_be_bytes.
    split_and!; [done|lia|lia]. }
  cbn [ok_or mbind outcome_bind]. destruct u as [|nal u]; [by destruct Hu|].
  change (index (nal :: u) 0) with (Ok (E := PayloadError) nal). cbn [mbind outcome_bind].
  set (unit := nal :: u) in *. specialize (IH fuel (pre ++ to_be_bytes 2 (len unit) ++ unit)).
  rewrite <- !app_assoc, !len_app, len_to_be_bytes in IH.
  replace (len pre + 2 + len unit) with (len pre + (Z.of_nat 2 + len unit)) by lia.
  rewrite IH by lia. cbn [existsb is_idr]. rewrite orb_assoc, len_cons. do 2 f_equal. lia.
Qed.

Lemma len_stap_ge units : len units <= len (stap_bytes units).
Proof.
  induction units as [|u units IH]; [done|]. unfold stap_bytes in *.
  rewrite bind_cons, !len_app, len_to_be_bytes, len_cons. pose_len. lia.
Qed.

(** a STAP-A aggregation packet is reported as a key frame exactly when one of its
    units is an IDR slice, for any number of units. *)
Theorem stap_a_keyframe header units marker : Z.land header 0x1f = 24 -> units <> [] ->
  Forall unit_ok units -> len (stap_bytes units) < 2 ^ 62 ->
  inspect_payload H264 (header :: stap_bytes units) marker =
    Ok {| start_of_frame := true; end_of_frame := marker; keyframe := existsb is_idr units;
          temporal_id := None; spatial_id := None |}.
Proof.
  intros Hh Hne Hu Hl. cbn [inspect_payload]. unfold inspect_h264. rewrite get_cons_0.
  cbn [ok_or mbind outcome_bind]. rewrite Hh. cbn [Z.leb Z.compare Pos.compare Pos.compare_cont andb Z.eqb Pos.eqb].
  unfold inspect_h264_stap_a. change (header :: stap_bytes units) with ([header] ++ stap_bytes units).
  change 1 with (len [header]) at 1. rewrite stap_units_encoded; [|done|..].
  - cbn [mbind outcome_bind orb]. rewrite (proj2 (Z.eqb_neq _ 0)); [done|].
    destruct units; [done|]. rewrite len_cons. pose_len. lia.
  - rewrite length_app. cbn [length]. pose proof (len_stap_ge units) as Hge. unfold len in Hge. lia.
  - rewrite len_app. change (len [header]) with 1. mlia.
Qed.

Lemma stap_a_keyframe_witness :
  inspect_payload H264 (24 :: stap_bytes [[7; 1]; [5; 9; 9]]) true =
    Ok {| start_of_frame := true; end_of_frame := true; keyframe := true;
          temporal_id := None; spatial_id := None |}.
Proof.
  apply (stap_a_keyframe 24 [[7; 1]; [5; 9; 9]] true); [reflexivity|discriminate| |eval_facts].
  repeat constructor; eval_facts.
Defined.

Lemma inspect_payload_total_witness : returns (inspect_payload Vp9 [0xff; 0xff] false).
Proof. apply (inspect_payload_total Vp9). split; [repeat constructor; eval_facts|eval_facts]. Defined.
