(* ===== verification/SfuModel.v ===== *)
(** * webrtc/sfu-core: data model and errors (src/model.rs, src/error.rs)

    Identifiers are the integers inside the newtypes; a [Duration] is its count of
    nanoseconds. *)
From S2P Require Import Prelude Words Slices.
From S2P Require RtpExtension RtpPacket RtcpModel MediaCodec.

Abbreviation ParticipantId := Z.
Abbreviation TrackId := Z.
Abbreviation SubscriptionId := Z.
Abbreviation Duration := Z.

Inductive MediaKind := Audio | Video.
#[export] Instance MediaKind_eq_dec : EqDecision MediaKind.
Proof. solve_decision. Defined.

Record Encoding := {
  enc_ssrc : Z;
  rid : option string;
  spatial_layer : Z;
  max_bitrate_bps : Z }.

Record PublishedTrack := {
  track_id : TrackId;
  owner : ParticipantId;
  kind : MediaKind;
  codec : MediaCodec.Codec;
  clock_rate : Z;
  track_payload_type : Z;
  encodings : list Encoding }.

(** [PublishedTrack::encoding]. *)
Definition encoding (self : PublishedTrack) (layer : Z) : option Encoding :=
  List.find (fun e => spatial_layer e =? layer) (encodings self).

Record Layer := { spatial : Z; temporal : Z }.
#[export] Instance Layer_eq_dec : EqDecision Layer.
Proof. solve_decision. Defined.

Record SubscriptionConfig := {
  sub_id : SubscriptionId;
  subscriber : ParticipantId;
  sub_track_id : TrackId;
  output_ssrc : Z;
  output_payload_type : Z;
  initial_layer : Layer;
  initial_sequence_number : Z;
  initial_timestamp : Z;
  extension_rewrites : list RtpPacket.ExtensionRewrite }.

Record RoomConfig := {
  max_tracks : Z;
  max_subscriptions : Z;
  retransmission_cache_packets : Z;
  retransmission_cache_age : Duration;
  pli_throttle : Duration }.

(** [RoomConfig::default]. *)
Definition default_room_config : RoomConfig := {|
  max_tracks := 1024;
  max_subscriptions := 16384;
  retransmission_cache_packets := 2048;
  retransmission_cache_age := 2 * 10 ^ 9;
  pli_throttle := 500 * 10 ^ 6 |}.

Record ForwardedPacket := {
  fp_subscriber : ParticipantId;
  fp_subscription_id : SubscriptionId;
  fp_packet : bytes;
  fp_layer : Layer;
  fp_keyframe : bool;
  fp_retransmission : bool }.

Inductive SfuEvent :=
| LayerSwitched (subscription_id : SubscriptionId) (from : option Z) (to : Z)
| PictureLossIndication (track_id : TrackId) (media_ssrc : Z)
| TransportFeedback (subscriber : ParticipantId) (feedback : RtcpModel.TransportWideFeedback).

Record ForwardOutcome := { packets : list ForwardedPacket; fo_events : list SfuEvent }.
Record ControlOutput := { retransmissions : list ForwardedPacket; co_events : list SfuEvent }.

Inductive SfuError :=
| DuplicateTrack (id : TrackId)
| DuplicateSubscription (id : SubscriptionId)
| UnknownTrack (id : TrackId)
| UnknownSubscription (id : SubscriptionId)
| UnknownSsrc (ssrc : Z)
| UnauthorizedParticipant (id : ParticipantId)
| InvalidEncodings
| InvalidPayloadType (payload_type : Z)
| UnknownSpatialLayer (layer : Z)
| ResourceLimit (what : string)
| Rtp (error : RtpExtension.RtpError)
| Rtcp (error : RtcpModel.RtcpError)
| Payload (error : MediaCodec.PayloadError).
