(* ===== verification/DownTrack.v ===== *)
(** * webrtc/sfu-core: one subscriber's view of a track (src/down_track.rs)

    Layer selection, header rewriting, timestamp continuity and the retransmission
    cache of a down-track. *)
From S2P Require Import Prelude Words Slices SfuModel.
From S2P Require RtpExtension RtpPacket RtpRewrite MediaCodec.
Import MediaCodec (PayloadInfo, keyframe, start_of_frame, temporal_id).

Record CachedPacket := { inserted_at : Duration; cached : ForwardedPacket }.

Record DownTrack := {
  configuration : SubscriptionConfig;
  target_layer : Layer;
  selected_spatial : option Z;
  current_input_ssrc : option Z;
  input_timestamp_base : Z;
  output_timestamp_base : Z;
  last_output_timestamp : option Z;
  timestamp_step : Z;
  next_sequence_number : Z;
  cache : list CachedPacket;
  cache_capacity : Z;
  cache_age : Duration }.

Inductive ForwardDecision :=
| Forwarded (packet : ForwardedPacket) (event : option SfuEvent)
| Dropped (waiting_for_keyframe : bool).

Definition new (configuration : SubscriptionConfig) (track : PublishedTrack)
    (cache_capacity : Z) (cache_age : Duration) : DownTrack :=
  let timestamp_step := Z.max (match kind track with
                               | Audio => clock_rate track / 50
                               | Video => clock_rate track / 30
                               end) 1 in
  {| configuration := configuration;
     target_layer := initial_layer configuration;
     selected_spatial := None;
     current_input_ssrc := None;
     input_timestamp_base := 0;
     output_timestamp_base := initial_timestamp configuration;
     last_output_timestamp := None;
     timestamp_step := timestamp_step;
     next_sequence_number := initial_sequence_number configuration;
     cache := [];
     cache_capacity := cache_capacity;
     cache_age := cache_age |}.

(** Field updates. *)
Definition set_target (layer : Layer) (d : DownTrack) : DownTrack :=
  {| configuration := configuration d; target_layer := layer;
     selected_spatial := selected_spatial d; current_input_ssrc := current_input_ssrc d;
     input_timestamp_base := input_timestamp_base d; output_timestamp_base := output_timestamp_base d;
     last_output_timestamp := last_output_timestamp d; timestamp_step := timestamp_step d;
     next_sequence_number := next_sequence_number d; cache := cache d;
     cache_capacity := cache_capacity d; cache_age := cache_age d |}.
Definition set_selection (ssrc : option Z) (spatial : option Z) (d : DownTrack) : DownTrack :=
  {| configuration := configuration d; target_layer := target_layer d;
     selected_spatial := spatial; current_input_ssrc := ssrc;
     input_timestamp_base := input_timestamp_base d; output_timestamp_base := output_timestamp_base d;
     last_output_timestamp := last_output_timestamp d; timestamp_step := timestamp_step d;
     next_sequence_number := next_sequence_number d; cache := cache d;
     cache_capacity := cache_capacity d; cache_age := cache_age d |}.
Definition set_timestamps (input_base output_base : Z) (last : option Z) (step : Z) (d : DownTrack)
    : DownTrack :=
  {| configuration := configuration d; target_layer := target_layer d;
     selected_spatial := selected_spatial d; current_input_ssrc := current_input_ssrc d;
     input_timestamp_base := input_base; output_timestamp_base := output_base;
     last_output_timestamp := last; timestamp_step := step;
     next_sequence_number := next_sequence_number d; cache := cache d;
     cache_capacity := cache_capacity d; cache_age := cache_age d |}.
Definition set_next_sequence (n : Z) (d : DownTrack) : DownTrack :=
  {| configuration := configuration d; target_layer := target_layer d;
     selected_spatial := selected_spatial d; current_input_ssrc := current_input_ssrc d;
     input_timestamp_base := input_timestamp_base d; output_timestamp_base := output_timestamp_base d;
     last_output_timestamp := last_output_timestamp d; timestamp_step := timestamp_step d;
     next_sequence_number := n; cache := cache d;
     cache_capacity := cache_capacity d; cache_age := cache_age d |}.
Definition set_cache (c : list CachedPacket) (d : DownTrack) : DownTrack :=
  {| configuration := configuration d; target_layer := target_layer d;
     selected_spatial := selected_spatial d; current_input_ssrc := current_input_ssrc d;
     input_timestamp_base := input_timestamp_base d; output_timestamp_base := output_timestamp_base d;
     last_output_timestamp := last_output_timestamp d; timestamp_step := timestamp_step d;
     next_sequence_number := next_sequence_number d; cache := c;
     cache_capacity := cache_capacity d; cache_age := cache_age d |}.

(** [DownTrack::set_target_layer]: whether the target changed. *)
Definition set_target_layer (layer : Layer) (d : DownTrack) : DownTrack * bool :=
  if bool_decide (target_layer d = layer) then (d, false) else (set_target layer d, true).

Definition rewrite_timestamp (input_timestamp : Z) (switched : bool) (d : DownTrack)
    : DownTrack * Z :=
  let '(input_base, output_base, output) :=
    match current_input_ssrc d with
    | None => (input_timestamp, output_timestamp_base d, output_timestamp_base d)
    | Some _ =>
        if switched then
          let base := wrapping_add 32 (default (output_timestamp_base d) (last_output_timestamp d))
                        (timestamp_step d) in
          (input_timestamp, base, base)
        else (input_timestamp_base d, output_timestamp_base d,
              wrapping_add 32 (output_timestamp_base d)
                (wrapping_sub 32 input_timestamp (input_timestamp_base d)))
    end in
  let step :=
    match last_output_timestamp d with
    | Some previous =>
        let step := wrapping_sub 32 output previous in
        if (0 <? step) && (step <? 900000) then step else timestamp_step d
    | None => timestamp_step d
    end in
  (set_timestamps input_base output_base (Some output) step d, output).

(** [while front is older than the cache age { pop_front }] *)
Fixpoint expire (now age : Duration) (c : list CachedPacket) : list CachedPacket :=
  match c with
  | [] => []
  | p :: c' => if age <? saturating_sub now (inserted_at p) then expire now age c' else c
  end.
Definition expire_cache (now : Duration) (d : DownTrack) : DownTrack :=
  set_cache (expire now (cache_age d) (cache d)) d.

(** [while cache.len() >= capacity { pop_front }] *)
Fixpoint make_room (capacity : Z) (c : list CachedPacket) : list CachedPacket :=
  match c with
  | [] => []
  | _ :: c' => if capacity <=? len c then make_room capacity c' else c
  end.
Definition cache_packet (now : Duration) (packet : ForwardedPacket) (d : DownTrack) : DownTrack :=
  let d := expire_cache now d in
  if cache_capacity d =? 0 then d
  else set_cache (make_room (cache_capacity d) (cache d)
                    ++ [{| inserted_at := now; cached := packet |}]) d.

(** What [forward] does before any change: the early returns. *)
Definition forward_gate (track : PublishedTrack) (layer : Z) (info : PayloadInfo) (d : DownTrack)
    : option ForwardDecision :=
  let selected := selected_spatial d in
  let switching_to_target :=
    negb (bool_decide (selected = Some layer)) && (layer =? spatial (target_layer d)) in
  let continuing_selected := bool_decide (selected = Some layer) in
  if negb continuing_selected && negb switching_to_target then
    Some (Dropped (negb (bool_decide (selected = Some (spatial (target_layer d))))))
  else
    let requires_keyframe := bool_decide (kind track = Video) && negb continuing_selected in
    if requires_keyframe && negb (keyframe info && start_of_frame info) then Some (Dropped true)
    else if from_option (fun temporal => SfuModel.temporal (target_layer d) <? temporal) false
              (temporal_id info)
    then Some (Dropped false)
    else None.

Definition output_rewrite (d : DownTrack) (sequence timestamp : Z) : RtpPacket.Rewrite :=
  {| RtpPacket.rw_marker := None;
     RtpPacket.rw_payload_type := Some (output_payload_type (configuration d));
     RtpPacket.rw_sequence_number := Some sequence;
     RtpPacket.rw_timestamp := Some timestamp;
     RtpPacket.rw_ssrc := Some (output_ssrc (configuration d)) |}.

(** [Rewrite { .. }.apply(&mut packet)?] on the copy of the input. *)
Definition apply_rewrite (r : RtpPacket.Rewrite) (input : bytes) : outcome SfuError bytes :=
  match RtpPacket.apply r input with
  | (packet, Ok _) => Ok packet
  | (_, Err e) => Err (Rtp e)
  | (_, Panic) => Panic
  | (_, Diverge) => Diverge
  end.

Definition forward (now : Duration) (track : PublishedTrack) (layer : Z) (info : PayloadInfo)
    (input : bytes) : prog DownTrack SfuError ForwardDecision := fun d =>
  match forward_gate track layer info d with
  | Some decision => (d, Ok decision)
  | None =>
      (parsed ← lift (map_err Rtp (RtpPacket.parse input));
       let h := RtpPacket.header parsed in
       switched ← gets (fun d => negb (bool_decide (current_input_ssrc d = Some (RtpPacket.ssrc h))));
       previous_spatial ← gets selected_spatial;
       output_timestamp ← (fun d => let '(d, t) := rewrite_timestamp (RtpPacket.timestamp h) switched d in
                                    (d, Ok t));
       output_sequence ← gets next_sequence_number;
       _ ← modify (fun d => set_next_sequence (wrapping_add 16 (next_sequence_number d) 1) d);
       _ ← modify (fun d => if switched : bool
                            then set_selection (Some (RtpPacket.ssrc h)) (Some layer) d else d);
       d ← gets id;
       packet ← lift (apply_rewrite (output_rewrite d output_sequence output_timestamp) input);
       packet ← lift (map_err Rtp
                   (RtpPacket.rewrite_header_extensions packet (extension_rewrites (configuration d))));
       let forwarded :=
         {| fp_subscriber := subscriber (configuration d);
            fp_subscription_id := sub_id (configuration d);
            fp_packet := packet;
            fp_layer := {| spatial := layer; temporal := default 0 (temporal_id info) |};
            fp_keyframe := keyframe info;
            fp_retransmission := false |} in
       _ ← modify (cache_packet now forwarded);
       let event := if switched : bool
                    then Some (LayerSwitched (sub_id (configuration d)) previous_spatial layer)
                    else None in
       mret (Forwarded forwarded event)) d
  end.

Definition mark_retransmission (p : ForwardedPacket) : ForwardedPacket :=
  {| fp_subscriber := fp_subscriber p; fp_subscription_id := fp_subscription_id p;
     fp_packet := fp_packet p; fp_layer := fp_layer p; fp_keyframe := fp_keyframe p;
     fp_retransmission := true |}.

(** The closure of [retransmit] for one cached packet. *)
Definition matches (requested : Z) (c : CachedPacket) : option ForwardedPacket :=
  match RtpPacket.parse (fp_packet (cached c)) with
  | Ok packet =>
      if RtpPacket.sequence_number (RtpPacket.header packet) =? requested
      then Some (mark_retransmission (cached c)) else None
  | _ => None
  end.
Fixpoint find_map {A B} (f : A -> option B) (l : list A) : option B :=
  match l with
  | [] => None
  | x :: l => match f x with Some y => Some y | None => find_map f l end
  end.
Definition retransmit (now : Duration) (sequence_numbers : list Z) (d : DownTrack)
    : DownTrack * list ForwardedPacket :=
  let d := expire_cache now d in
  (d, omap (fun requested => find_map (matches requested) (reverse (cache d))) sequence_numbers).

(** ** Well-formed down-tracks *)
Definition from_track (d : DownTrack) (p : ForwardedPacket) : Prop :=
  fp_subscriber p = subscriber (configuration d) /\ fp_subscription_id p = sub_id (configuration d).

Record down_ok (d : DownTrack) : Prop := {
  ok_payload_type : 0 <= output_payload_type (configuration d) <= 127;
  ok_ssrc : u32 (output_ssrc (configuration d));
  ok_sequence : u16 (next_sequence_number d);
  ok_output_base : u32 (output_timestamp_base d);
  ok_step : u32 (timestamp_step d);
  ok_capacity : 0 <= cache_capacity d;
  ok_cache_bound : len (cache d) <= cache_capacity d;
  ok_cache_owner : Forall (fun c => from_track d (cached c)) (cache d) }.

Definition config_ok (c : SubscriptionConfig) : Prop :=
  0 <= output_payload_type c <= 127 /\ u32 (output_ssrc c) /\
  u16 (initial_sequence_number c) /\ u32 (initial_timestamp c).

Lemma new_ok c track capacity age : config_ok c -> 0 <= capacity -> u32 (clock_rate track) ->
  down_ok (new c track capacity age).
Proof.
  intros (? & ? & ? & ?) Hc Hr. split; cbn; try done.
  unfold fits in *. destruct (kind track); zdiv.
Qed.

(** ** The cache *)
Lemma expire_suffix now age c : exists old, c = old ++ expire now age c.
Proof.
  induction c as [|p c [old IH]]; cbn; [by exists []|]. case_match; [|by exists []].
  exists (p :: old). cbn. by f_equal.
Qed.

Lemma make_room_suffix n c : exists old, c = old ++ make_room n c.
Proof.
  induction c as [|p c [old IH]]; cbn [make_room]; [by exists []|]. case_match; [|by exists []].
  exists (p :: old). cbn. by f_equal.
Qed.

Lemma make_room_bound n c : 0 < n -> len (make_room n c) < n.
Proof.
  intros Hn. induction c as [|p c IH]; cbn [make_room]; [by rewrite len_nil|].
  destruct (Z.leb_spec n (len (p :: c))); [done|lia].
Qed.

Lemma cache_bound_kept now p d : 0 <= cache_capacity d -> len (cache d) <= cache_capacity d ->
  len (cache (cache_packet now p d)) <= cache_capacity d.
Proof.
  intros H0 Hb. unfold cache_packet, expire_cache. cbn.
  destruct (expire_suffix now (cache_age d) (cache d)) as [old Hold].
  destruct (Z.eqb_spec (cache_capacity d) 0); cbn.
  - rewrite Hold, len_app in Hb. pose_len. lia.
  - rewrite len_app. change (len [_]) with 1.
    pose proof (make_room_bound (cache_capacity d) (expire now (cache_age d) (cache d))). lia.
Qed.

Lemma cache_packet_frame now p d : let d' := cache_packet now p d in
  configuration d' = configuration d /\ target_layer d' = target_layer d /\
  selected_spatial d' = selected_spatial d /\ current_input_ssrc d' = current_input_ssrc d /\
  next_sequence_number d' = next_sequence_number d.
Proof. unfold cache_packet. cbv zeta. by destruct (_ =? 0). Qed.

Lemma suffix_Forall {A} (P : A -> Prop) (l old new : list A) : l = old ++ new -> Forall P l -> Forall P new.
Proof. intros -> H. by apply Forall_app in H as [_ H]. Qed.

(** ** One forwarded packet *)
Definition switched_by (d : DownTrack) (h : RtpPacket.Header) : bool :=
  negb (bool_decide (current_input_ssrc d = Some (RtpPacket.ssrc h))).

(** The state between the early returns and the rewriting of the packet. *)
Definition advanced (layer : Z) (h : RtpPacket.Header) (d : DownTrack) : DownTrack :=
  let d' := set_next_sequence (wrapping_add 16 (next_sequence_number d) 1)
              (rewrite_timestamp (RtpPacket.timestamp h) (switched_by d h) d).1 in
  if switched_by d h then set_selection (Some (RtpPacket.ssrc h)) (Some layer) d' else d'.
Definition output_timestamp (h : RtpPacket.Header) (d : DownTrack) : Z :=
  (rewrite_timestamp (RtpPacket.timestamp h) (switched_by d h) d).2.
Definition forwarded_packet (layer : Z) (info : PayloadInfo) (packet : bytes) (d : DownTrack)
    : ForwardedPacket :=
  {| fp_subscriber := subscriber (configuration d); fp_subscription_id := sub_id (configuration d);
     fp_packet := packet;
     fp_layer := {| spatial := layer; temporal := default 0 (temporal_id info) |};
     fp_keyframe := keyframe info; fp_retransmission := false |}.

Lemma rewrite_timestamp_frame t sw d : let d' := (rewrite_timestamp t sw d).1 in
  configuration d' = configuration d /\ target_layer d' = target_layer d /\
  selected_spatial d' = selected_spatial d /\ current_input_ssrc d' = current_input_ssrc d /\
  next_sequence_number d' = next_sequence_number d /\ cache d' = cache d /\
  cache_capacity d' = cache_capacity d /\ cache_age d' = cache_age d.
Proof. unfold rewrite_timestamp. by repeat case_match. Qed.

Lemma advanced_frame layer h d : let d' := advanced layer h d in
  configuration d' = configuration d /\ target_layer d' = target_layer d /\ cache d' = cache d /\
  cache_capacity d' = cache_capacity d /\ cache_age d' = cache_age d /\
  next_sequence_number d' = wrapping_add 16 (next_sequence_number d) 1.
Proof.
  unfold advanced. destruct (rewrite_timestamp_frame (RtpPacket.timestamp h) (switched_by d h) d)
    as (?&?&?&?&?&?&?&?). by destruct (switched_by d h).
Qed.

Lemma forward_spec now track layer info input d parsed :
  forward_gate track layer info d = None -> RtpPacket.parse input = Ok parsed ->
  let h := RtpPacket.header parsed in
  let d' := advanced layer h d in
  forward now track layer info input d =
    match apply_rewrite (output_rewrite d (next_sequence_number d) (output_timestamp h d)) input with
    | Ok packet =>
        match RtpPacket.rewrite_header_extensions packet (extension_rewrites (configuration d)) with
        | Ok packet =>
            let p := forwarded_packet layer info packet d in
            (cache_packet now p d',
             Ok (Forwarded p (if switched_by d h
               then Some (LayerSwitched (sub_id (configuration d)) (selected_spatial d) layer) else None)))
        | Err e => (d', Err (Rtp e))
        | Panic => (d', Panic)
        | Diverge => (d', Diverge)
        end
    | Err e => (d', Err e)
    | Panic => (d', Panic)
    | Diverge => (d', Diverge)
    end.
Proof.
  intros Hg Hp h d'. unfold forward. rewrite Hg, Hp.
  pose proof (rewrite_timestamp_frame (RtpPacket.timestamp h) (switched_by d h) d) as (Hc&_&_&_&_&_).
  unfold d', advanced, output_timestamp. unfold mbind, prog_bind, lift, gets, modify, mret, prog_ret. cbn [map_err].
  fold h. fold (switched_by d h).
  destruct (rewrite_timestamp (RtpPacket.timestamp h) (switched_by d h) d) as [d1 ts] eqn:Hts. cbn [fst snd] in *.
  assert (next_sequence_number d1 = next_sequence_number d) as Hn
    by (pose proof (rewrite_timestamp_frame (RtpPacket.timestamp h) (switched_by d h) d) as (_&_&_&_&?&_); by rewrite Hts in *).
  rewrite Hn. set (d2 := if switched_by d h then _ else _).
  assert (configuration d2 = configuration d) as Hc2 by (unfold d2; destruct (switched_by d h); exact Hc).
  unfold id. unfold output_rewrite, forwarded_packet. rewrite Hc2.
  destruct (apply_rewrite _ input) as [packet|e| |]; try done.
  by destruct (RtpPacket.rewrite_header_extensions packet _).
Qed.

Lemma output_rewrite_ok d seq ts : down_ok d -> u16 seq -> u32 ts ->
  RtpPacket.rewrite_ok (output_rewrite d seq ts).
Proof.
  intros Hd Hs Ht. unfold RtpPacket.rewrite_ok. cbn.
  split; [|split; [|split]]; intros v [= <-]; [apply Hd|done|done|apply Hd].
Qed.

Lemma rewrite_timestamp_fits t sw d : down_ok d ->
  u32 (rewrite_timestamp t sw d).2 /\ u32 (output_timestamp_base (rewrite_timestamp t sw d).1) /\
  u32 (timestamp_step (rewrite_timestamp t sw d).1).
Proof.
  intros Hd. destruct Hd as [_ _ _ Hb Hst _ _ _]. unfold rewrite_timestamp.
  pose proof (fun a b => wrapping_add_fits 32 a b ltac:(lia)) as Ha.
  pose proof (fun a b => wrapping_sub_fits 32 a b ltac:(lia)) as Hs.
  destruct (current_input_ssrc d), sw; destruct (last_output_timestamp d); cbn; try case_match; auto.
Qed.

Lemma apply_rewrite_Ok r input p : rust_slice input -> RtpPacket.rewrite_ok r ->
  RtpPacket.parse input = Ok p ->
  exists output, apply_rewrite r input = Ok output /\ rust_slice output /\
    RtpPacket.parse output = Ok (RtpPacket.with_header (RtpPacket.rewrite_header r (RtpPacket.header p)) p).
Proof.
  intros Hin Hr Hp. destruct (RtpPacket.apply_parse r input p Hin Hr Hp) as (out & Ha & Hl & _ & Hok & Hparse).
  exists out. unfold apply_rewrite. rewrite Ha. split; [done|]. split; [|done].
  split; [done|]. rewrite Hl. apply Hin.
Qed.

Lemma advanced_ok layer h d : down_ok d -> down_ok (advanced layer h d).
Proof.
  intros Hd. destruct (advanced_frame layer h d) as (Hc & _ & Hca & Hcap & _ & Hn).
  destruct (rewrite_timestamp_fits (RtpPacket.timestamp h) (switched_by d h) d Hd) as (_ & Hb & Hst).
  destruct Hd as [H1 H2 H3 H4 H5 H6 H7 H8].
  split; rewrite ?Hc, ?Hca, ?Hcap, ?Hn; try done.
  - by apply wrapping_add_fits.
  - unfold advanced. by destruct (switched_by d h).
  - unfold advanced. by destruct (switched_by d h).
  - eapply Forall_impl; [exact H8|]. intros c [? ?]. unfold from_track. by rewrite Hc.
Qed.

Lemma cache_packet_ok now p d : down_ok d -> from_track d p -> down_ok (cache_packet now p d).
Proof.
  intros Hd Hp. pose proof (cache_bound_kept now p d (ok_capacity _ Hd) (ok_cache_bound _ Hd)) as Hb.
  destruct Hd as [H1 H2 H3 H4 H5 H6 H7 H8]. revert Hb. unfold cache_packet, expire_cache. cbn.
  destruct (expire_suffix now (cache_age d) (cache d)) as [old Hold].
  pose proof (suffix_Forall _ _ _ _ Hold H8) as Hex.
  destruct (make_room_suffix (cache_capacity d) (expire now (cache_age d) (cache d))) as [old2 Hold2].
  pose proof (suffix_Forall _ _ _ _ Hold2 Hex) as Hmr.
  case_match; cbn; intros Hb; split; cbn; try done. apply Forall_app. split; [done|]. by constructor.
Qed.

Lemma expire_ok now d : down_ok d -> down_ok (expire_cache now d).
Proof.
  intros [H1 H2 H3 H4 H5 H6 H7 H8]. destruct (expire_suffix now (cache_age d) (cache d)) as [old Hold].
  split; cbn; try done.
  - rewrite Hold, len_app in H7. pose_len. lia.
  - by eapply suffix_Forall.
Qed.

Lemma set_target_layer_ok layer d : down_ok d -> down_ok (set_target_layer layer d).1.
Proof. intros [H1 H2 H3 H4 H5 H6 H7 H8]. unfold set_target_layer. by case_bool_decide. Qed.

Lemma preserves_forward now track layer info input : preserves down_ok (forward now track layer info input).
Proof.
  intros d Hd. destruct (forward_gate track layer info d) as [dec|] eqn:Hg.
  { unfold forward. by rewrite Hg. }
  destruct (RtpPacket.parse input) as [parsed|e| |] eqn:Hp.
  2-4: by (unfold forward; rewrite Hg, Hp).
  rewrite (forward_spec _ _ _ _ _ _ parsed) by done. cbv zeta.
  pose proof (advanced_ok layer (RtpPacket.header parsed) d Hd) as Ha.
  destruct (apply_rewrite _ _) as [packet|e| |]; [|done..].
  destruct (RtpPacket.rewrite_header_extensions _ _) as [packet'|e| |]; [|done..].
  apply cache_packet_ok; [done|]. destruct (advanced_frame layer (RtpPacket.header parsed) d) as (Hc & _).
  unfold from_track. by rewrite Hc.
Qed.

Lemma forward_returns now track layer info input d : down_ok d -> rust_slice input ->
  returns (forward now track layer info input d).2.
Proof.
  intros Hd Hin. destruct (forward_gate track layer info d) as [dec|] eqn:Hg.
  { unfold forward. by rewrite Hg. }
  pose proof (RtpPacket.returns_parse input) as Hr.
  destruct (RtpPacket.parse input) as [p|e| |] eqn:Hp; [|by unfold forward; rewrite Hg, Hp|done..].
  rewrite (forward_spec _ _ _ _ _ _ p) by done. cbv zeta.
  destruct (rewrite_timestamp_fits (RtpPacket.timestamp (RtpPacket.header p)) (switched_by d (RtpPacket.header p)) d Hd) as (Hts & _).
  destruct (apply_rewrite_Ok (output_rewrite d (next_sequence_number d) (output_timestamp (RtpPacket.header p) d)) input p)
    as (out & -> & _); [done|apply output_rewrite_ok; [done|apply Hd|done]|done|].
  pose proof (RtpRewrite.returns_rewrite_header_extensions out (extension_rewrites (configuration d))).
  by destruct (RtpPacket.rewrite_header_extensions _ _).
Qed.

(** What a subscriber receives for one input packet. *)
Record output_of (d : DownTrack) (layer : Z) (info : PayloadInfo) (input : bytes)
    (p : RtpPacket.Packet) (fp : ForwardedPacket) (q : RtpPacket.Packet) : Prop := {
  out_input : RtpPacket.parse input = Ok p;
  out_parse : RtpPacket.parse (fp_packet fp) = Ok q;
  out_ssrc : RtpPacket.ssrc (RtpPacket.header q) = output_ssrc (configuration d);
  out_payload_type :
    RtpPacket.payload_type (RtpPacket.header q) = output_payload_type (configuration d);
  out_sequence : RtpPacket.sequence_number (RtpPacket.header q) = next_sequence_number d;
  out_timestamp : RtpPacket.timestamp (RtpPacket.header q) = output_timestamp (RtpPacket.header p) d;
  out_marker : RtpPacket.marker (RtpPacket.header q) = RtpPacket.marker (RtpPacket.header p);
  out_csrcs : RtpPacket.csrcs (RtpPacket.header q) = RtpPacket.csrcs (RtpPacket.header p);
  out_extensions : RtpPacket.extensions q =
    omap (RtpPacket.rewrite_extension (extension_rewrites (configuration d))) (RtpPacket.extensions p);
  out_payload : RtpPacket.payload q = RtpPacket.payload p;
  out_owner : from_track d fp;
  out_layer : spatial (fp_layer fp) = layer;
  out_fresh : fp_retransmission fp = false }.

Lemma forward_output now track layer info input d d' fp ev : down_ok d -> rust_slice input ->
  forward now track layer info input d = (d', Ok (Forwarded fp ev)) ->
  exists p q, output_of d layer info input p fp q /\
    next_sequence_number d' = wrapping_add 16 (next_sequence_number d) 1 /\
    d' = cache_packet now fp (advanced layer (RtpPacket.header p) d) /\
    forward_gate track layer info d = None /\
    ev = (if switched_by d (RtpPacket.header p)
          then Some (LayerSwitched (sub_id (configuration d)) (selected_spatial d) layer) else None).
Proof.
  intros Hd Hin H. destruct (forward_gate track layer info d) as [dec|] eqn:Hg.
  { unfold forward in H. rewrite Hg in H. unfold forward_gate in Hg. by repeat case_match; simplify_eq. }
  destruct (RtpPacket.parse input) as [p|e| |] eqn:Hp.
  2-4: (unfold forward in H; rewrite Hg, Hp in H; done).
  rewrite (forward_spec _ _ _ _ _ _ p) in H by done. cbv zeta in H. set (h := RtpPacket.header p) in *.
  destruct (rewrite_timestamp_fits (RtpPacket.timestamp h) (switched_by d h) d Hd) as (Hts & _).
  destruct (apply_rewrite_Ok (output_rewrite d (next_sequence_number d) (output_timestamp h d)) input p)
    as (out & Ha & Hout & Hpo); [done|apply output_rewrite_ok; [done|apply Hd|done]|done|].
  rewrite Ha in H. destruct (RtpPacket.rewrite_header_extensions out _) as [packet|e| |] eqn:Hx; try done.
  injection H as <- <- <-. destruct (RtpRewrite.rewrite_extensions_Ok _ _ _ _ Hout Hpo Hx) as (hl & xd & Hq).
  destruct (advanced_frame layer h d) as (_ & _ & _ & _ & _ & Hn).
  eexists p, _. split_and!; [by split; try done; exact Hq| |done..].
  rewrite <- Hn. apply cache_packet_frame.
Qed.

(** a forwarded packet carries the publisher's payload, marker, CSRC list and (rewritten)
    extensions unchanged under the subscriber's own SSRC, payload type, sequence number
    and timestamp, and is addressed to that subscriber; the call always comes back and
    keeps the invariant of the down-track (16-bit counters, bounded cache of its own
    packets) whatever the outcome. *)
Theorem forward_correct now track layer info input d : down_ok d -> rust_slice input ->
  returns (forward now track layer info input d).2 /\ down_ok (forward now track layer info input d).1 /\
  forall d' fp ev, forward now track layer info input d = (d', Ok (Forwarded fp ev)) ->
    exists p q, output_of d layer info input p fp q.
Proof.
  intros Hd Hin. split; [by apply forward_returns|]. split; [by apply preserves_forward|]. intros d' fp ev H.
  destruct (forward_output _ _ _ _ _ _ _ _ _ Hd Hin H) as (p & q & Ho & _). eauto.
Qed.

(** ** Streams *)
Record Arrival := { at_time : Duration; at_layer : Z; at_info : PayloadInfo; at_input : bytes }.

(** Offering packets to a down-track one after the other; [None] when one is refused. *)
Fixpoint offer_all (track : PublishedTrack) (d : DownTrack) (arrivals : list Arrival)
    : option (DownTrack * list ForwardedPacket) :=
  match arrivals with
  | [] => Some (d, [])
  | a :: arrivals =>
      match forward (at_time a) track (at_layer a) (at_info a) (at_input a) d with
      | (d, Ok (Forwarded p _)) => '(d, ps) ← offer_all track d arrivals; Some (d, p :: ps)
      | (d, Ok (Dropped _)) => offer_all track d arrivals
      | _ => None
      end
  end.

Definition sequence_of (p : ForwardedPacket) : option Z :=
  match RtpPacket.parse (fp_packet p) with
  | Ok q => Some (RtpPacket.sequence_number (RtpPacket.header q))
  | _ => None
  end.

Lemma gate_not_forwarded track layer info d p e : forward_gate track layer info d <> Some (Forwarded p e).
Proof. unfold forward_gate. by repeat case_match. Qed.

Lemma dropped_unchanged now track layer info input d d' w : down_ok d -> rust_slice input ->
  forward now track layer info input d = (d', Ok (Dropped w)) -> d' = d.
Proof.
  intros Hd Hin H. destruct (forward_gate track layer info d) as [dec|] eqn:Hg.
  { unfold forward in H. rewrite Hg in H. by injection H as <- _. }
  destruct (RtpPacket.parse input) as [p|e| |] eqn:Hp.
  2-4: (unfold forward in H; rewrite Hg, Hp in H; done).
  rewrite (forward_spec _ _ _ _ _ _ p) in H by done. cbv zeta in H.
  destruct (apply_rewrite _ _) as [packet|e| |]; try done.
  by destruct (RtpPacket.rewrite_header_extensions _ _).
Qed.

Lemma offer_all_consecutive track d arrivals d' ps : down_ok d ->
  Forall (fun a => rust_slice (at_input a)) arrivals -> offer_all track d arrivals = Some (d', ps) ->
  forall i p, ps !! i = Some p ->
    sequence_of p = Some ((next_sequence_number d + Z.of_nat i) mod 2 ^ 16).
Proof.
  intros Hd Ha. revert d Hd ps. induction Ha as [|a arrivals Hin _ IH]; intros d Hd ps H i p Hi; cbn in H.
  { injection H as <- <-. done. }
  destruct (forward _ _ _ _ _ d) as [d1 [[fp ev|w]|e| |]] eqn:Hf; try done.
  - apply bind_Some in H as ([d2 ps2] & H & Hp). injection Hp as <- <-.
    pose proof (preserves_forward (at_time a) track (at_layer a) (at_info a) (at_input a) d Hd) as Hd1.
    rewrite Hf in Hd1. cbn in Hd1.
    destruct (forward_output _ _ _ _ _ _ _ _ _ Hd Hin Hf) as (q & r & Ho & Hn & _).
    destruct i as [|i]; cbn in Hi.
    + injection Hi as <-. unfold sequence_of. rewrite (out_parse _ _ _ _ _ _ _ Ho), (out_sequence _ _ _ _ _ _ _ Ho).
      f_equal. rewrite Z.add_0_r. symmetry. apply Z.mod_small, Hd.
    + rewrite (IH d1 Hd1 ps2 H i p Hi), Hn. f_equal. unfold wrapping_add.
      rewrite Zplus_mod_idemp_l. f_equal. lia.
  - apply dropped_unchanged in Hf as ->; [|done..]. by eapply IH.
Qed.

(** whatever layers the publisher's packets come from and however many are dropped, the
    packets a subscriber receives are numbered consecutively modulo 2^16 from its initial
    sequence number, so layer switches and drops leave no gap in its RTP stream. *)
Theorem subscriber_sequence_consecutive track c capacity age arrivals d' ps :
  config_ok c -> 0 <= capacity -> u32 (clock_rate track) ->
  Forall (fun a => rust_slice (at_input a)) arrivals ->
  offer_all track (new c track capacity age) arrivals = Some (d', ps) ->
  forall i p, ps !! i = Some p ->
    sequence_of p = Some ((initial_sequence_number c + Z.of_nat i) mod 2 ^ 16).
Proof.
  intros Hc Hcap Hr Ha H. by apply (offer_all_consecutive track _ arrivals d' ps (new_ok c track capacity age Hc Hcap Hr)).
Qed.

(** ** Layer selection *)
(** The incoming SSRC determines the layer, as the index of the room guarantees. *)
Definition selection_ok (layer_of : Z -> option Z) (d : DownTrack) : Prop :=
  match current_input_ssrc d with
  | None => selected_spatial d = None
  | Some s => selected_spatial d = layer_of s
  end.

Lemma gate_None track layer info d : forward_gate track layer info d = None ->
  (selected_spatial d = Some layer \/ layer = spatial (target_layer d)) /\
  (kind track = Video -> selected_spatial d <> Some layer ->
     keyframe info = true /\ start_of_frame info = true) /\
  (forall t, temporal_id info = Some t -> t <= temporal (target_layer d)).
Proof.
  unfold forward_gate. destruct (decide (selected_spatial d = Some layer)) as [Hs|Hs].
  - rewrite (bool_decide_eq_true_2 _ Hs). cbn [negb andb]. rewrite andb_false_r. cbn [andb].
    destruct (from_option _ _ _) eqn:H3; [done|]. intros _. split_and!; [by left|done|].
    intros t Ht. rewrite Ht in H3. cbn [from_option] in H3. lia.
  - rewrite (bool_decide_eq_false_2 _ Hs). cbn [negb andb].
    destruct (Z.eqb_spec layer (spatial (target_layer d))) as [Hl|]; [|done]. cbn [negb]. rewrite andb_true_r.
    destruct (bool_decide (kind track = Video) && _) eqn:H2; [done|].
    destruct (from_option _ _ _) eqn:H3; [done|]. intros _. split_and!; [by right|..].
    + intros Hv _. rewrite (bool_decide_eq_true_2 _ Hv) in H2. by apply negb_false_iff, andb_true_iff in H2.
    + intros t Ht. rewrite Ht in H3. cbn [from_option] in H3. lia.
Qed.

Lemma selected_after now track layer info input d d' fp ev layer_of p :
  selection_ok layer_of d -> forward_gate track layer info d = None ->
  layer_of (RtpPacket.ssrc (RtpPacket.header p)) = Some layer ->
  d' = cache_packet now fp (advanced layer (RtpPacket.header p) d) ->
  ev = (if switched_by d (RtpPacket.header p)
        then Some (LayerSwitched (sub_id (configuration d)) (selected_spatial d) layer) else None) ->
  RtpPacket.parse input = Ok p ->
  selected_spatial d' = Some layer /\ selection_ok layer_of d' /\
  (ev = None -> selected_spatial d = Some layer).
Proof.
  intros Hsel Hg Hl -> -> Hp. unfold selection_ok in *.
  destruct (cache_packet_frame now fp (advanced layer (RtpPacket.header p) d)) as (_ & _ & -> & -> & _).
  unfold advanced. pose proof (rewrite_timestamp_frame (RtpPacket.timestamp (RtpPacket.header p))
    (switched_by d (RtpPacket.header p)) d) as (_ & _ & Hs & Hc & _).
  destruct (switched_by d (RtpPacket.header p)) eqn:Hsw; cbn; [by rewrite Hl|].
  rewrite Hs, Hc. unfold switched_by in Hsw. apply negb_false_iff, bool_decide_eq_true in Hsw.
  rewrite Hsw in *. rewrite Hsel, Hl. done.
Qed.

(** a video down-track only forwards packets of the layer it has selected, at or below
    its temporal target, and it changes layer only to its target, on a packet that starts a
    key frame; a switch is announced exactly when the layer changes. *)
Theorem switch_on_keyframe_only now track layer info input d d' fp ev layer_of p :
  down_ok d -> rust_slice input -> selection_ok layer_of d -> kind track = Video ->
  RtpPacket.parse input = Ok p -> layer_of (RtpPacket.ssrc (RtpPacket.header p)) = Some layer ->
  forward now track layer info input d = (d', Ok (Forwarded fp ev)) ->
  selected_spatial d' = Some layer /\ selection_ok layer_of d' /\
  (forall t, temporal_id info = Some t -> t <= temporal (target_layer d)) /\
  (selected_spatial d <> selected_spatial d' ->
     layer = spatial (target_layer d) /\ keyframe info = true /\ start_of_frame info = true /\
     ev = Some (LayerSwitched (sub_id (configuration d)) (selected_spatial d) layer)).
Proof.
  intros Hd Hin Hsel Hv Hp Hl H.
  destruct (forward_output _ _ _ _ _ _ _ _ _ Hd Hin H) as (p' & q & Ho & _ & Hd' & Hg & Hev).
  assert (p' = p) as -> by (pose proof (out_input _ _ _ _ _ _ _ Ho); congruence).
  destruct (selected_after now track layer info input d d' fp ev layer_of p Hsel Hg Hl Hd' Hev Hp)
    as (Hs' & Hok' & Hkeep).
  apply gate_None in Hg as (Ht & Hk & Htemp). split_and!; [done..|]. rewrite Hs'. intros Hne.
  destruct (Hk Hv Hne). split_and!; [by destruct Ht|done..|].
  rewrite Hev in *. case_match; [done|]. by destruct (Hne (Hkeep eq_refl)).
Qed.

(** ** Timestamps *)
(** within a layer, output timestamps advance exactly as the publisher's do (modulo
    2^32); on a switch the output continues one step after the last timestamp sent, so the
    subscriber never sees the jump between the two layers' random offsets. *)
Theorem timestamp_continuity d t1 t2 : down_ok d -> u32 t1 -> u32 t2 -> current_input_ssrc d <> None ->
  let '(d1, o1) := rewrite_timestamp t1 false d in
  let '(d2, o2) := rewrite_timestamp t2 false d1 in
  let '(d3, o3) := rewrite_timestamp t2 true d1 in
  wrapping_sub 32 o2 o1 = wrapping_sub 32 t2 t1 /\
  o3 = wrapping_add 32 o1 (timestamp_step d1) /\
  (forall t4, u32 t4 -> (rewrite_timestamp t4 false d3).2 = wrapping_add 32 o3 (wrapping_sub 32 t4 t2)).
Proof.
  intros Hd H1 H2 Hc. destruct (current_input_ssrc d) as [s|] eqn:Hs; [|done].
  unfold rewrite_timestamp at 1. rewrite Hs. cbn [fst snd].
  set (o1 := wrapping_add 32 (output_timestamp_base d) _).
  set (step := match last_output_timestamp d with Some _ => _ | None => _ end).
  set (d1 := set_timestamps _ _ (Some o1) step d).
  assert (current_input_ssrc d1 = Some s) as Hs1 by done.
  unfold rewrite_timestamp at 1. rewrite Hs1. unfold rewrite_timestamp at 1. rewrite Hs1. cbn.
  split_and!; [|done|].
  - unfold o1, wrapping_sub, wrapping_add. rewrite <- Zminus_mod.
    set (b := output_timestamp_base d). set (x := (t2 - _) mod _). set (y := (t1 - _) mod _).
    replace (b + x - (b + y)) with (x - y) by lia. unfold x, y. rewrite <- Zminus_mod. f_equal. lia.
  - intros t4 H4. unfold rewrite_timestamp. cbn. rewrite Hs. done.
Qed.

(** ** Retransmission *)
Lemma find_map_Some {A B} (f : A -> option B) l y : find_map f l = Some y ->
  exists x, x ∈ l /\ f x = Some y.
Proof.
  induction l as [|x l IH]; cbn; [done|]. destruct (f x) eqn:Hx.
  - intros [= ->]. exists x. split; [by left|done].
  - intros (z & Hz & Hf)%IH. exists z. split; [by right|done].
Qed.

Lemma find_map_None {A B} (f : A -> option B) l : find_map f l = None -> forall x, x ∈ l -> f x = None.
Proof.
  induction l as [|x l IH]; cbn; [set_solver|]. destruct (f x) eqn:Hx; [done|].
  intros H z [->|Hz]%elem_of_cons; auto.
Qed.

(** The packets a subscriber may ask again: cached, and not older than the cache age. *)
Definition available (now : Duration) (d : DownTrack) (requested : Z) (p : ForwardedPacket) : Prop :=
  exists c, c ∈ expire now (cache_age d) (cache d) /\ sequence_of (cached c) = Some requested /\
    p = mark_retransmission (cached c).

(** retransmission answers each requested sequence number with a cached packet of that
    number whenever there is one, and with nothing else: every answer is a packet this
    subscriber was sent, unchanged and marked as a retransmission, and the number of
    packets kept never exceeds the configured capacity. *)
Theorem retransmit_correct now requested d : down_ok d ->
  let '(d', ps) := retransmit now requested d in
  down_ok d' /\
  (forall p, p ∈ ps -> from_track d p /\ fp_retransmission p = true /\
     exists s, s ∈ requested /\ available now d s p) /\
  (forall s p, s ∈ requested -> available now d s p -> exists p', p' ∈ ps /\ available now d s p').
Proof.
  intros Hd. unfold retransmit. cbn [cache expire_cache set_cache].
  assert (forall s c p, matches s c = Some p <-> sequence_of (cached c) = Some s /\ p = mark_retransmission (cached c)) as Hm.
  { intros s c p. unfold matches, sequence_of. destruct (RtpPacket.parse _) as [q|e| |]; [|naive_solver..].
    destruct (Z.eqb_spec (RtpPacket.sequence_number (RtpPacket.header q)) s); naive_solver. }
  split; [by apply expire_ok|]. split.
  - intros p (s & Hs & Hf)%list_elem_of_omap. apply find_map_Some in Hf as (c & Hc & Hp). rewrite elem_of_reverse in Hc.
    apply Hm in Hp as [Hseq ->]. split; [|split; [done|]].
    + pose proof (ok_cache_owner _ (expire_ok now d Hd)) as Ho. rewrite (@Forall_forall CachedPacket) in Ho.
      apply (Ho c Hc).
    + exists s. split; [done|]. exists c. done.
  - intros s p Hs (c & Hc & Hseq & ->).
    destruct (find_map (matches s) (reverse (expire now (cache_age d) (cache d)))) as [p'|] eqn:Hf.
    + exists p'. split; [apply list_elem_of_omap; eauto|].
      apply find_map_Some in Hf as (c' & Hc' & Hp). rewrite elem_of_reverse in Hc'. apply Hm in Hp as [? ->]. by exists c'.
    + apply (find_map_None _ _) with (x := c) in Hf; [|by rewrite elem_of_reverse].
      assert (matches s c = Some (mark_retransmission (cached c))) by (by apply Hm). congruence.
Qed.

(** ** A concrete down-track *)
Definition example_config : SubscriptionConfig :=
  {| sub_id := 40; subscriber := 2; sub_track_id := 9; output_ssrc := 77; output_payload_type := 100;
     initial_layer := {| spatial := 0; temporal := 2 |}; initial_sequence_number := 65535;
     initial_timestamp := 1000; extension_rewrites := [] |}.
Definition example_track : PublishedTrack :=
  {| track_id := 9; owner := 1; kind := Video; codec := MediaCodec.H264; clock_rate := 90000;
     track_payload_type := 96;
     encodings := [{| enc_ssrc := 5; rid := None; spatial_layer := 0; max_bitrate_bps := 1000 |};
                   {| enc_ssrc := 6; rid := None; spatial_layer := 1; max_bitrate_bps := 2000 |}] |}.
Definition example_input (lo : Z) : bytes := [0x80; 96; 0; lo; 0; 0; 0; lo; 0; 0; 0; 5; 0x65; 11; 12].
Definition key_info : PayloadInfo :=
  {| MediaCodec.start_of_frame := true; MediaCodec.end_of_frame := true; MediaCodec.keyframe := true;
     MediaCodec.temporal_id := None; MediaCodec.spatial_id := None |}.
Definition example_down : DownTrack := new example_config example_track 2 1000.
Definition example_arrivals : list Arrival :=
  (fun t => {| at_time := t; at_layer := 0; at_info := key_info; at_input := example_input t |}) <$> [1; 2; 3].

Lemma example_down_ok : down_ok example_down.
Proof. split; cbn; try eval_facts; constructor. Qed.
Lemma example_input_ok : rust_slice (example_input 1).
Proof. split; [repeat constructor; eval_facts|eval_facts]. Qed.

Lemma forward_correct_witness : exists d' fp ev,
  forward 1 example_track 0 key_info (example_input 1) example_down = (d', Ok (Forwarded fp ev)) /\
  exists p q, output_of example_down 0 key_info (example_input 1) p fp q.
Proof.
  eexists _, _, _. split; [vm_compute; reflexivity|].
  eapply (proj2 (proj2 (forward_correct 1 example_track 0 key_info (example_input 1) example_down
    example_down_ok example_input_ok))). vm_compute. reflexivity.
Defined.

Lemma subscriber_sequence_consecutive_witness : exists d' ps,
  offer_all example_track example_down example_arrivals = Some (d', ps) /\
  exists p, ps !! 1%nat = Some p /\ sequence_of p = Some 0.
Proof.
  eexists _, _. split; [vm_compute; reflexivity|]. eexists. split; [reflexivity|].
  change (Some 0) with (Some ((initial_sequence_number example_config + Z.of_nat 1) mod 2 ^ 16)).
  eapply (subscriber_sequence_consecutive example_track example_config 2 1000 example_arrivals).
  - unfold config_ok. eval_facts.
  - eval_facts.
  - eval_facts.
  - repeat constructor; eval_facts.
  - vm_compute. reflexivity.
  - reflexivity.
Defined.

Lemma switch_on_keyframe_only_witness : exists d' fp ev,
  forward 1 example_track 0 key_info (example_input 1) example_down = (d', Ok (Forwarded fp ev)) /\
  selected_spatial d' = Some 0.
Proof.
  eexists _, _, _. split; [vm_compute; reflexivity|].
  eapply (switch_on_keyframe_only 1 example_track 0 key_info (example_input 1) example_down _ _ _
    (fun s => if s =? 5 then Some 0 else Some 1) _ example_down_ok example_input_ok).
  - reflexivity.
  - reflexivity.
  - vm_compute. reflexivity.
  - reflexivity.
  - vm_compute. reflexivity.
Defined.

Definition example_sent : DownTrack := (forward 1 example_track 0 key_info (example_input 1) example_down).1.

Lemma timestamp_continuity_witness :
  wrapping_sub 32 (rewrite_timestamp 60 false (rewrite_timestamp 10 false example_sent).1).2
    (rewrite_timestamp 10 false example_sent).2 = 50.
Proof.
  assert (current_input_ssrc example_sent <> None) as Hc by (vm_compute; discriminate).
  pose proof (timestamp_continuity example_sent 10 60 (preserves_forward _ _ _ _ _ _ example_down_ok)
    ltac:(eval_facts) ltac:(eval_facts) Hc) as H. change 50 with (wrapping_sub 32 60 10).
  destruct (rewrite_timestamp 10 false example_sent) as [d1 o1]. cbn [fst snd].
  destruct (rewrite_timestamp 60 false d1) as [d2 o2], (rewrite_timestamp 60 true d1) as [d3 o3].
  exact (proj1 H).
Defined.

Lemma retransmit_correct_witness : exists p, (retransmit 2 [65535] example_sent).2 = [p] /\ fp_retransmission p = true.
Proof.
  pose proof (retransmit_correct 2 [65535] example_sent (preserves_forward _ _ _ _ _ _ example_down_ok)) as H.
  eexists. split; [vm_compute; reflexivity|]. apply (proj1 (proj2 H)). vm_compute. left.
Defined.
