(* ===== verification/Room.v ===== *)
(** * webrtc/sfu-core: rooms (src/room.rs)

    The published tracks, the subscriptions and their indexes, as the maps of the source,
    with every handler that changes them. *)
From S2P Require Import Prelude Words Slices SfuModel.
From S2P Require RtpExtension RtpPacket RtpRewrite RtcpModel Rtcp MediaCodec Datagram DownTrack.
Import DownTrack (DownTrack, ForwardDecision, Forwarded, Dropped, configuration, target_layer,
  selected_spatial, current_input_ssrc, down_ok).

Record Room := {
  room_config : RoomConfig;
  tracks : gmap TrackId PublishedTrack;
  ssrc_index : gmap Z (TrackId * Z);
  subscriptions : gmap SubscriptionId DownTrack;
  track_subscriptions : gmap TrackId (list SubscriptionId);
  output_ssrc_index : gmap Z SubscriptionId;
  last_pli : gmap Z Duration }.

Definition new (c : RoomConfig) : Room :=
  {| room_config := c; tracks := ∅; ssrc_index := ∅; subscriptions := ∅;
     track_subscriptions := ∅; output_ssrc_index := ∅; last_pli := ∅ |}.

Definition set_tracks (m : gmap TrackId PublishedTrack) (r : Room) : Room :=
  {| room_config := room_config r; tracks := m; ssrc_index := ssrc_index r;
     subscriptions := subscriptions r; track_subscriptions := track_subscriptions r;
     output_ssrc_index := output_ssrc_index r; last_pli := last_pli r |}.
Definition set_ssrc_index (m : gmap Z (TrackId * Z)) (r : Room) : Room :=
  {| room_config := room_config r; tracks := tracks r; ssrc_index := m;
     subscriptions := subscriptions r; track_subscriptions := track_subscriptions r;
     output_ssrc_index := output_ssrc_index r; last_pli := last_pli r |}.
Definition set_subscriptions (m : gmap SubscriptionId DownTrack) (r : Room) : Room :=
  {| room_config := room_config r; tracks := tracks r; ssrc_index := ssrc_index r;
     subscriptions := m; track_subscriptions := track_subscriptions r;
     output_ssrc_index := output_ssrc_index r; last_pli := last_pli r |}.
Definition set_track_subscriptions (m : gmap TrackId (list SubscriptionId)) (r : Room) : Room :=
  {| room_config := room_config r; tracks := tracks r; ssrc_index := ssrc_index r;
     subscriptions := subscriptions r; track_subscriptions := m;
     output_ssrc_index := output_ssrc_index r; last_pli := last_pli r |}.
Definition set_output_ssrc_index (m : gmap Z SubscriptionId) (r : Room) : Room :=
  {| room_config := room_config r; tracks := tracks r; ssrc_index := ssrc_index r;
     subscriptions := subscriptions r; track_subscriptions := track_subscriptions r;
     output_ssrc_index := m; last_pli := last_pli r |}.
Definition set_last_pli (m : gmap Z Duration) (r : Room) : Room :=
  {| room_config := room_config r; tracks := tracks r; ssrc_index := ssrc_index r;
     subscriptions := subscriptions r; track_subscriptions := track_subscriptions r;
     output_ssrc_index := output_ssrc_index r; last_pli := m |}.

(** ** Publishing *)
Definition validate_track (track : PublishedTrack) : outcome SfuError unit :=
  _ ← reject_if (bool_decide (encodings track = []) || (clock_rate track =? 0)) InvalidEncodings;
  _ ← reject_if (negb (Datagram.is_rtcp_mux_safe_payload_type (track_payload_type track)))
        (InvalidPayloadType (track_payload_type track));
  let unique_ssrcs : gset Z := list_to_set (enc_ssrc <$> encodings track) in
  let unique_layers : gset Z := list_to_set (spatial_layer <$> encodings track) in
  reject_if (negb (Nat.eqb (size unique_ssrcs) (length (encodings track)))
             || negb (Nat.eqb (size unique_layers) (length (encodings track)))) InvalidEncodings.

Definition contains {A} (m : gmap Z A) (k : Z) : bool := bool_decide (is_Some (m !! k)).
Definition map_len {A} (m : gmap Z A) : Z := Z.of_nat (size m).

(** [for encoding in &track.encodings { self.ssrc_index.insert(..) }] *)
Definition index_encodings (id : TrackId) (es : list Encoding) (m : gmap Z (TrackId * Z))
    : gmap Z (TrackId * Z) :=
  foldl (fun m e => <[enc_ssrc e := (id, spatial_layer e)]> m) m es.

Definition publish (track : PublishedTrack) : prog Room SfuError unit :=
  _ ← lift (validate_track track);
  r ← gets id;
  _ ← lift (reject_if (contains (tracks r) (track_id track)) (DuplicateTrack (track_id track)));
  _ ← lift (reject_if (max_tracks (room_config r) <=? map_len (tracks r))
              (ResourceLimit "published track"));
  _ ← lift (reject_if (existsb (fun e => contains (ssrc_index r) (enc_ssrc e)) (encodings track))
              InvalidEncodings);
  _ ← modify (fun r => set_ssrc_index (index_encodings (track_id track) (encodings track) (ssrc_index r)) r);
  modify (fun r => set_tracks (<[track_id track := track]> (tracks r)) r).

Definition published_track (id : TrackId) (r : Room) : option PublishedTrack := tracks r !! id.

(** ** Subscribing *)
Definition remove_subscription (id : SubscriptionId) (r : Room) : Room * bool :=
  match subscriptions r !! id with
  | None => (r, false)
  | Some subscription =>
      let c := configuration subscription in
      let r := set_subscriptions (delete id (subscriptions r)) r in
      let r := set_output_ssrc_index (delete (output_ssrc c) (output_ssrc_index r)) r in
      match track_subscriptions r !! sub_track_id c with
      | None => (r, true)
      | Some ids =>
          let ids := filter (fun candidate => candidate <> id) ids in
          (set_track_subscriptions
             (match ids with
              | [] => delete (sub_track_id c) (track_subscriptions r)
              | _ => <[sub_track_id c := ids]> (track_subscriptions r)
              end) r, true)
      end
  end.

Definition subscribe (c : SubscriptionConfig) : prog Room SfuError unit :=
  r ← gets id;
  _ ← lift (reject_if (contains (subscriptions r) (sub_id c)) (DuplicateSubscription (sub_id c)));
  _ ← lift (reject_if (contains (output_ssrc_index r) (output_ssrc c)) InvalidEncodings);
  _ ← lift (reject_if (negb (Datagram.is_rtcp_mux_safe_payload_type (output_payload_type c)))
              (InvalidPayloadType (output_payload_type c)));
  _ ← lift (reject_if (max_subscriptions (room_config r) <=? map_len (subscriptions r))
              (ResourceLimit "subscription"));
  track ← lift (ok_or (tracks r !! sub_track_id c) (UnknownTrack (sub_track_id c)));
  _ ← lift (ok_or (encoding track (spatial (initial_layer c)))
              (UnknownSpatialLayer (spatial (initial_layer c))));
  let down_track := DownTrack.new c track (retransmission_cache_packets (room_config r))
                      (retransmission_cache_age (room_config r)) in
  _ ← modify (fun r => set_output_ssrc_index (<[output_ssrc c := sub_id c]> (output_ssrc_index r)) r);
  _ ← modify (fun r => set_track_subscriptions
        (<[sub_track_id c := default [] (track_subscriptions r !! sub_track_id c) ++ [sub_id c]]>
           (track_subscriptions r)) r);
  modify (fun r => set_subscriptions (<[sub_id c := down_track]> (subscriptions r)) r).

Definition unsubscribe (id : SubscriptionId) (r : Room) : Room * bool := remove_subscription id r.

(** [for id in subscriptions { self.remove_subscription(id); }] *)
Definition remove_subscriptions (ids : list SubscriptionId) (r : Room) : Room :=
  foldl (fun r id => (remove_subscription id r).1) r ids.

Definition unpublish (id : TrackId) (r : Room) : Room * bool :=
  match tracks r !! id with
  | None => (r, false)
  | Some track =>
      let r := set_tracks (delete id (tracks r)) r in
      let r := foldl (fun r e =>
        let r := set_ssrc_index (delete (enc_ssrc e) (ssrc_index r)) r in
        set_last_pli (delete (enc_ssrc e) (last_pli r)) r) r (encodings track) in
      match track_subscriptions r !! id with
      | None => (r, true)
      | Some ids =>
          (remove_subscriptions ids
             (set_track_subscriptions (delete id (track_subscriptions r)) r), true)
      end
  end.

(** ** Feedback *)
Definition maybe_pli (now : Duration) (id : TrackId) (media_ssrc : Z) (r : Room)
    : Room * option SfuEvent :=
  if from_option (fun last => saturating_sub now last <? pli_throttle (room_config r)) false
       (last_pli r !! media_ssrc)
  then (r, None)
  else (set_last_pli (<[media_ssrc := now]> (last_pli r)) r,
        Some (PictureLossIndication id media_ssrc)).

Definition set_target_layer (now : Duration) (who : ParticipantId) (id : SubscriptionId)
    (layer : Layer) : prog Room SfuError (list SfuEvent) := fun r =>
  match subscriptions r !! id with
  | None => (r, Err (UnknownSubscription id))
  | Some down_track =>
      if negb (subscriber (configuration down_track) =? who)
      then (r, Err (UnauthorizedParticipant who))
      else
        let tid := sub_track_id (configuration down_track) in
        let '(down_track, changed) := DownTrack.set_target_layer layer down_track in
        let r := set_subscriptions (<[id := down_track]> (subscriptions r)) r in
        match tracks r !! tid with
        | None => (r, Err (UnknownTrack tid))
        | Some track =>
            match encoding track (spatial layer) with
            | None => (r, Err (UnknownSpatialLayer (spatial layer)))
            | Some encoding =>
                if changed && bool_decide (kind track = Video)
                then let '(r, event) := maybe_pli now tid (enc_ssrc encoding) r in
                     (r, Ok (option_list event))
                else (r, Ok [])
            end
        end
  end.

(** [if seen.insert(sequence) { requested.push(sequence) }] *)
Definition push_new (acc : list Z * gset Z) (sequence : Z) : list Z * gset Z :=
  if bool_decide (sequence ∈ acc.2) then acc else (acc.1 ++ [sequence], {[sequence]} ∪ acc.2).
Definition expand_nack_entry (acc : list Z * gset Z) (entry : RtcpModel.NackEntry) : list Z * gset Z :=
  let acc := push_new acc (RtcpModel.packet_id entry) in
  foldl (fun acc bit =>
    if has_bit (RtcpModel.lost_packet_bitmask entry) (Z.shiftl 1 bit)
    then push_new acc (wrapping_add 16 (RtcpModel.packet_id entry) (default 0 (try_from 16 (bit + 1))))
    else acc) acc (seqZ 0 16).
Definition expand_nack (entries : list RtcpModel.NackEntry) : list Z :=
  (foldl expand_nack_entry ([], ∅) entries).1.

Definition authorized_down_track (who : ParticipantId) (ssrc : Z) (r : Room)
    : option (SubscriptionId * DownTrack) :=
  id ← output_ssrc_index r !! ssrc;
  down_track ← subscriptions r !! id;
  if subscriber (configuration down_track) =? who then Some (id, down_track) else None.

Definition handle_control (now : Duration) (who : ParticipantId)
    (state : Room * ControlOutput) (packet : RtcpModel.Packet) : Room * ControlOutput :=
  let '(r, output) := state in
  match packet with
  | RtcpModel.PGenericNack nack =>
      let requested := expand_nack (RtcpModel.entries nack) in
      match authorized_down_track who (RtcpModel.nack_media_ssrc nack) r with
      | None => (r, output)
      | Some (id, down_track) =>
          let '(down_track, ps) := DownTrack.retransmit now requested down_track in
          (set_subscriptions (<[id := down_track]> (subscriptions r)) r,
           {| retransmissions := retransmissions output ++ ps; co_events := co_events output |})
      end
  | RtcpModel.PPictureLossIndication pli =>
      let upstream :=
        '(_, down_track) ← authorized_down_track who (RtcpModel.pli_media_ssrc pli) r;
        track ← tracks r !! sub_track_id (configuration down_track);
        let layer := default (spatial (target_layer down_track)) (selected_spatial down_track) in
        encoding ← encoding track layer;
        Some (track_id track, enc_ssrc encoding) in
      match upstream with
      | None => (r, output)
      | Some (tid, media_ssrc) =>
          let '(r, event) := maybe_pli now tid media_ssrc r in
          (r, {| retransmissions := retransmissions output;
                 co_events := co_events output ++ option_list event |})
      end
  | RtcpModel.PTransportWideFeedback feedback =>
      (r, {| retransmissions := retransmissions output;
             co_events := co_events output ++ [TransportFeedback who feedback] |})
  | _ => (r, output)
  end.

Definition handle_rtcp (now : Duration) (who : ParticipantId) (input : bytes)
    : prog Room SfuError ControlOutput := fun r =>
  match map_err Rtcp (Rtcp.parse_compound input) with
  | Ok ps =>
      let '(r, output) := foldl (handle_control now who) (r, {| retransmissions := []; co_events := [] |}) ps in
      (r, Ok output)
  | Err e => (r, Err e)
  | Panic => (r, Panic)
  | Diverge => (r, Diverge)
  end.

(** ** Routing *)
(** [HashMap::values] visits the entries in an unspecified order. *)
Class HashOrder := {
  values : gmap SubscriptionId DownTrack -> list DownTrack;
  values_perm m : values m ≡ₚ (map_to_list m).*2 }.

(** The loop over the subscriptions of the track; the early return of [forward] leaves it. *)
Fixpoint forward_loop (now : Duration) (track : PublishedTrack) (layer : Z)
    (info : MediaCodec.PayloadInfo) (input : bytes) (ids : list SubscriptionId)
    (output : ForwardOutcome) (needs_pli : bool) : prog Room SfuError (ForwardOutcome * bool) := fun r =>
  match ids with
  | [] => (r, Ok (output, needs_pli))
  | id :: ids =>
      match subscriptions r !! id with
      | None => forward_loop now track layer info input ids output needs_pli r
      | Some down_track =>
          let '(down_track, decision) := DownTrack.forward now track layer info input down_track in
          let r := set_subscriptions (<[id := down_track]> (subscriptions r)) r in
          match decision with
          | Ok (Forwarded packet event) =>
              forward_loop now track layer info input ids
                {| packets := packets output ++ [packet];
                   fo_events := fo_events output ++ option_list event |} needs_pli r
          | Ok (Dropped waiting_for_keyframe) =>
              forward_loop now track layer info input ids output (needs_pli || waiting_for_keyframe) r
          | Err e => (r, Err e)
          | Panic => (r, Panic)
          | Diverge => (r, Diverge)
          end
      end
  end.

(** The checks of [handle_rtp] before anything is changed. *)
Definition admit_rtp (publisher : ParticipantId) (input : bytes) (r : Room)
    : outcome SfuError (TrackId * PublishedTrack * Z * MediaCodec.PayloadInfo) :=
  parsed ← map_err Rtp (RtpPacket.parse input);
  let h := RtpPacket.header parsed in
  '(tid, layer) ← ok_or (ssrc_index r !! RtpPacket.ssrc h) (UnknownSsrc (RtpPacket.ssrc h));
  track ← ok_or (tracks r !! tid) (UnknownTrack tid);
  _ ← reject_if (negb (owner track =? publisher)) (UnauthorizedParticipant publisher);
  _ ← reject_if (negb (RtpPacket.payload_type h =? track_payload_type track))
        (InvalidPayloadType (RtpPacket.payload_type h));
  info ← map_err Payload
    (MediaCodec.inspect_payload (codec track) (RtpPacket.payload parsed) (RtpPacket.marker h));
  Ok (tid, track, layer, info).

Section Routing.
Context `{!HashOrder}.

(** The subscription found first among those that wait for a key frame. *)
Definition pli_target (track : PublishedTrack) (tid : TrackId) (r : Room) : option Encoding :=
  waiting ← List.find (fun subscription =>
      (sub_track_id (configuration subscription) =? tid) &&
      negb (bool_decide (selected_spatial subscription = Some (spatial (target_layer subscription)))))
    (values (subscriptions r));
  encoding track (spatial (target_layer waiting)).

(** The end of [handle_rtp]: at most one upstream request. *)
Definition request_keyframe (now : Duration) (track : PublishedTrack) (tid : TrackId)
    (output : ForwardOutcome) (needs_pli : bool) : prog Room SfuError ForwardOutcome := fun r =>
  match (if needs_pli then pli_target track tid r else None) with
  | Some target =>
      let '(r, event) := maybe_pli now tid (enc_ssrc target) r in
      (r, Ok {| packets := packets output; fo_events := fo_events output ++ option_list event |})
  | None => (r, Ok output)
  end.

Definition handle_rtp (now : Duration) (publisher : ParticipantId) (input : bytes)
    : prog Room SfuError ForwardOutcome := fun r =>
  match admit_rtp publisher input r with
  | Ok (tid, track, layer, info) =>
      let subscription_ids := default [] (track_subscriptions r !! tid) in
      ('(output, needs_pli) ← forward_loop now track layer info input subscription_ids
                                {| packets := []; fo_events := [] |} false;
       request_keyframe now track tid output needs_pli) r
  | Err e => (r, Err e)
  | Panic => (r, Panic)
  | Diverge => (r, Diverge)
  end.
End Routing.
