(* ===== verification/RoomInvariant.v ===== *)
(** * webrtc/sfu-core: the invariant of a room

    The five maps of [Room] stay consistent with one another under every handler, from
    [Room::new] on: the SSRC index lists exactly the published encodings, the output-SSRC
    index and the per-track lists exactly the subscriptions, every subscription has its
    track, the configured limits are respected. *)
From S2P Require Import Prelude Words Slices SfuModel Room.
From S2P Require RtpExtension RtpPacket RtpRewrite RtcpModel Rtcp MediaCodec Datagram DownTrack.
Import DownTrack (DownTrack, Forwarded, Dropped, configuration, target_layer,
  selected_spatial, current_input_ssrc, down_ok).

(** The values of the Rust types of the arguments. *)
Definition track_typed (t : PublishedTrack) : Prop := u32 (clock_rate t) /\ u8 (track_payload_type t).
Definition config_typed (c : SubscriptionConfig) : Prop :=
  u8 (output_payload_type c) /\ u32 (output_ssrc c) /\ u16 (initial_sequence_number c) /\
  u32 (initial_timestamp c).
Definition limits_typed (c : RoomConfig) : Prop :=
  0 <= max_tracks c /\ 0 <= max_subscriptions c /\ 0 <= retransmission_cache_packets c.

Definition track_ok (t : PublishedTrack) : Prop :=
  u32 (clock_rate t) /\ encodings t <> [] /\
  NoDup (enc_ssrc <$> encodings t) /\ NoDup (spatial_layer <$> encodings t) /\
  Datagram.is_rtcp_mux_safe_payload_type (track_payload_type t) = true.

(** What the source SSRC and the selected layer of a down-track say together. *)
Definition selects (index : gmap Z (TrackId * Z)) (d : DownTrack) : Prop :=
  match current_input_ssrc d with
  | None => selected_spatial d = None
  | Some s => exists layer, index !! s = Some (sub_track_id (configuration d), layer) /\
      selected_spatial d = Some layer
  end.

Record room_ok (r : Room) : Prop := {
  ro_limits : limits_typed (room_config r);
  ro_track id t : tracks r !! id = Some t -> track_id t = id /\ track_ok t;
  ro_ssrc s id layer : ssrc_index r !! s = Some (id, layer) <->
    exists t e, tracks r !! id = Some t /\ e ∈ encodings t /\ enc_ssrc e = s /\ spatial_layer e = layer;
  ro_sub id d : subscriptions r !! id = Some d ->
    sub_id (configuration d) = id /\ down_ok d /\ selects (ssrc_index r) d /\
    is_Some (tracks r !! sub_track_id (configuration d));
  ro_output s id : output_ssrc_index r !! s = Some id <->
    exists d, subscriptions r !! id = Some d /\ output_ssrc (configuration d) = s;
  ro_listed tid id : id ∈ default [] (track_subscriptions r !! tid) <->
    exists d, subscriptions r !! id = Some d /\ sub_track_id (configuration d) = tid;
  ro_lists tid ids : track_subscriptions r !! tid = Some ids -> NoDup ids /\ ids <> [];
  ro_max_tracks : map_len (tracks r) <= max_tracks (room_config r);
  ro_max_subs : map_len (subscriptions r) <= max_subscriptions (room_config r) }.

Lemma new_room_ok c : limits_typed c -> room_ok (new c).
Proof.
  intros Hc. split; cbn; try done; try (intros; rewrite lookup_empty in *; done).
  - intros s id layer. rewrite lookup_empty. split; [done|]. intros (t & e & Ht & _). by rewrite lookup_empty in Ht.
  - intros s id. rewrite lookup_empty. split; [done|]. intros (d & Hd & _). by rewrite lookup_empty in Hd.
  - intros tid id. rewrite lookup_empty. cbn. split; [by intros ?%not_elem_of_nil|].
    intros (d & Hd & _). by rewrite lookup_empty in Hd.
  - unfold map_len. rewrite map_size_empty. apply Hc.
  - unfold map_len. rewrite map_size_empty. apply Hc.
Qed.

(** ** Updating one subscription in place *)
Lemma room_ok_update r id d d' : room_ok r -> subscriptions r !! id = Some d ->
  configuration d' = configuration d -> down_ok d' -> selects (ssrc_index r) d' ->
  room_ok (set_subscriptions (<[id := d']> (subscriptions r)) r).
Proof.
  intros [H0 H1 H2 H3 H4 H5 H6 H7 H8] Hd Hc Hok Hsel. split; cbn; try done.
  - intros i e. destruct (decide (i = id)) as [->|Hne].
    + rewrite lookup_insert_eq. intros [= <-]. rewrite Hc. destruct (H3 _ _ Hd) as (? & _ & _ & ?). done.
    + rewrite lookup_insert_ne by done. apply H3.
  - intros s i. rewrite H4. destruct (decide (i = id)) as [->|Hne].
    + rewrite Hd, lookup_insert_eq. split; intros (e & [= <-] & <-); eexists; split; try done; congruence.
    + by rewrite lookup_insert_ne.
  - intros tid i. rewrite H5. destruct (decide (i = id)) as [->|Hne].
    + rewrite Hd, lookup_insert_eq. split; intros (e & [= <-] & <-); eexists; split; try done; congruence.
    + by rewrite lookup_insert_ne.
  - unfold map_len in *. by rewrite map_size_insert_Some by eauto.
Qed.

Lemma room_ok_last_pli r m : room_ok r -> room_ok (set_last_pli m r).
Proof. intros [H0 H1 H2 H3 H4 H5 H6 H7 H8]. by split. Qed.

Lemma maybe_pli_ok now tid ssrc r : room_ok r -> room_ok (maybe_pli now tid ssrc r).1.
Proof. intros H. unfold maybe_pli. case_match; [done|]. by apply room_ok_last_pli. Qed.

Lemma set_target_layer_room_ok now who id layer : preserves room_ok (set_target_layer now who id layer).
Proof.
  intros r Hr. unfold set_target_layer. destruct (subscriptions r !! id) as [d|] eqn:Hd; [|done].
  case_match; [done|]. pose proof (DownTrack.set_target_layer_ok layer d (proj1 (proj2 (ro_sub _ Hr _ _ Hd)))) as Hok.
  assert (room_ok (set_subscriptions (<[id := (DownTrack.set_target_layer layer d).1]> (subscriptions r)) r)) as Hr'.
  { eapply room_ok_update; [done..| |done|].
    - unfold DownTrack.set_target_layer. by case_match.
    - destruct (ro_sub _ Hr _ _ Hd) as (_ & _ & Hs & _). unfold DownTrack.set_target_layer. by case_match. }
  destruct (DownTrack.set_target_layer layer d) as [d' changed]. cbn [fst] in *.
  repeat case_match; try done. simplify_eq. cbn [fst].
  match goal with H : maybe_pli ?a ?b ?c ?r0 = (?r1, _) |- _ =>
    change r1 with (r1, @None SfuEvent).1; pose proof (maybe_pli_ok a b c r0 Hr') as Hm; by rewrite H in Hm end.
Qed.

(** ** RTP: every outcome of [forward] keeps the selection consistent *)
Lemma forward_selects index now track layer info input d :
  (forall p, RtpPacket.parse input = Ok p ->
     index !! RtpPacket.ssrc (RtpPacket.header p) = Some (sub_track_id (configuration d), layer)) ->
  selects index d ->
  let d' := (DownTrack.forward now track layer info input d).1 in
  configuration d' = configuration d /\ selects index d'.
Proof.
  intros Hidx Hs. destruct (DownTrack.forward_gate track layer info d) as [dec|] eqn:Hg.
  { unfold DownTrack.forward. by rewrite Hg. }
  destruct (RtpPacket.parse input) as [p|e| |] eqn:Hp.
  2-4: (by unfold DownTrack.forward; rewrite Hg, Hp).
  rewrite (DownTrack.forward_spec _ _ _ _ _ _ p) by done. cbv zeta.
  destruct (DownTrack.advanced_frame layer (RtpPacket.header p) d) as (Hc & _).
  assert (selects index (DownTrack.advanced layer (RtpPacket.header p) d)) as Ha.
  { unfold selects in *. rewrite Hc. unfold DownTrack.advanced.
    pose proof (DownTrack.rewrite_timestamp_frame (RtpPacket.timestamp (RtpPacket.header p))
      (DownTrack.switched_by d (RtpPacket.header p)) d) as (_ & _ & Hs' & Hc' & _).
    destruct (DownTrack.switched_by d (RtpPacket.header p)); cbn; [eauto|]. by rewrite Hs', Hc'. }
  destruct (DownTrack.apply_rewrite _ _) as [packet|e| |]; [|done..].
  destruct (RtpPacket.rewrite_header_extensions _ _) as [packet'|e| |]; [|done..].
  cbn [fst]. match goal with |- context [DownTrack.cache_packet ?n ?p ?d] =>
    destruct (DownTrack.cache_packet_frame n p d) as (Hc2 & _ & Hs2 & Hi2 & _) end.
  unfold selects in *. by rewrite Hc2, Hs2, Hi2.
Qed.

Lemma forward_loop_ok now track layer info input ids output b r p tid : room_ok r ->
  RtpPacket.parse input = Ok p ->
  ssrc_index r !! RtpPacket.ssrc (RtpPacket.header p) = Some (tid, layer) ->
  (forall id d, id ∈ ids -> subscriptions r !! id = Some d -> sub_track_id (configuration d) = tid) ->
  let r' := (forward_loop now track layer info input ids output b r).1 in
  room_ok r' /\ room_config r' = room_config r /\ tracks r' = tracks r /\ ssrc_index r' = ssrc_index r /\
  last_pli r' = last_pli r.
Proof.
  intros Hr Hp Hidx. revert r output b Hr Hidx.
  induction ids as [|id ids IH]; intros r output b Hr Hidx Hids; cbn [forward_loop]; [done|].
  destruct (subscriptions r !! id) as [d|] eqn:Hd.
  2: { apply IH; try done. intros i e Hi. apply Hids. by right. }
  destruct (ro_sub _ Hr _ _ Hd) as (_ & Hok & Hsel & _).
  assert (sub_track_id (configuration d) = tid) as Ht by (apply (Hids id); [by left|done]).
  destruct (forward_selects (ssrc_index r) now track layer info input d) as [Hc Hs']; [|done|].
  { intros p' Hp'. rewrite Hp in Hp'. injection Hp' as <-. by rewrite Ht. }
  pose proof (DownTrack.preserves_forward now track layer info input d Hok) as Hok'.
  destruct (DownTrack.forward now track layer info input d) as [d' dec]. cbn [fst] in *.
  pose proof (room_ok_update r id d d' Hr Hd Hc Hok' Hs') as Hr'.
  assert (forall i e, i ∈ ids -> subscriptions (set_subscriptions (<[id := d']> (subscriptions r)) r) !! i = Some e ->
    sub_track_id (configuration e) = tid) as Hids'.
  { intros i e Hi. cbn. destruct (decide (i = id)) as [->|Hne].
    - rewrite lookup_insert_eq. intros [= <-]. congruence.
    - rewrite lookup_insert_ne by done. apply Hids. by right. }
  destruct dec as [[packet ev|w]|e| |]; [..|done|done|done]; exact (IH _ _ _ Hr' Hidx Hids').
Qed.

Lemma admit_rtp_Ok publisher input r tid track layer info : admit_rtp publisher input r = Ok (tid, track, layer, info) ->
  exists p, RtpPacket.parse input = Ok p /\
    ssrc_index r !! RtpPacket.ssrc (RtpPacket.header p) = Some (tid, layer) /\
    tracks r !! tid = Some track /\ owner track = publisher /\
    RtpPacket.payload_type (RtpPacket.header p) = track_payload_type track /\
    MediaCodec.inspect_payload (codec track) (RtpPacket.payload p) (RtpPacket.marker (RtpPacket.header p)) = Ok info.
Proof.
  unfold admit_rtp. intros (p & Hp%map_err_Ok & H)%bind_Ok.
  apply bind_Ok in H as ([tid' layer'] & Hi%ok_or_Ok & H). apply bind_Ok in H as (t & Ht%ok_or_Ok & H).
  apply bind_Ok in H as (? & Ho%reject_if_Ok & H). apply bind_Ok in H as (? & Hpt%reject_if_Ok & H).
  apply bind_Ok in H as (i & Hinfo%map_err_Ok & H). apply Ok_inj in H. simplify_eq.
  exists p. split_and!; try done; lia.
Qed.

Lemma handle_rtp_ok `{!HashOrder} now publisher input : preserves room_ok (handle_rtp now publisher input).
Proof.
  intros r Hr. unfold handle_rtp. destruct (admit_rtp publisher input r) as [[[[tid track] layer] info]|e| |] eqn:Ha; [|done..].
  apply admit_rtp_Ok in Ha as (p & Hp & Hi & Ht & _).
  destruct (forward_loop_ok now track layer info input (default [] (track_subscriptions r !! tid))
    {| packets := []; fo_events := [] |} false r p tid Hr Hp Hi) as (Hr' & _).
  { intros id d Hid Hd. apply ro_listed in Hid as (d' & Hd' & <-); [|done]. congruence. }
  unfold mbind, prog_bind. destruct (forward_loop _ _ _ _ _ _ _ _ r) as [r' [[out b]|e| |]]; cbn [fst] in *; [|done..].
  unfold request_keyframe. case_match; [|done].
  match goal with |- context [maybe_pli ?a ?b ?c ?d] =>
    pose proof (maybe_pli_ok a b c d Hr') as Hm; by destruct (maybe_pli a b c d) end.
Qed.

(** ** RTCP *)
Lemma authorized_Some who ssrc r id d : authorized_down_track who ssrc r = Some (id, d) ->
  output_ssrc_index r !! ssrc = Some id /\ subscriptions r !! id = Some d /\
  subscriber (configuration d) = who.
Proof.
  unfold authorized_down_track. intros (i & Hi & H)%bind_Some. apply bind_Some in H as (e & He & H).
  destruct (Z.eqb_spec (subscriber (configuration e)) who); [|done]. by simplify_eq.
Qed.

Lemma handle_control_ok now who s packet : room_ok s.1 -> room_ok (handle_control now who s packet).1.
Proof.
  destruct s as [r out]. intros Hr. destruct packet as [?|?|?|nack|pli|fb|?]; cbn [handle_control]; try done.
  - destruct (authorized_down_track _ _ r) as [[id d]|] eqn:Ha; [|done].
    apply authorized_Some in Ha as (_ & Hd & _). cbn. destruct (ro_sub _ Hr _ _ Hd) as (_ & Hok & Hsel & _).
    eapply room_ok_update; [done..|by apply DownTrack.expire_ok|done].
  - cbv zeta. destruct (mbind _ _) as [[tid ssrc]|]; [|done].
    match goal with |- context [maybe_pli ?a ?b ?c ?d] =>
      pose proof (maybe_pli_ok a b c d Hr) as Hm; by destruct (maybe_pli a b c d) end.
Qed.

Lemma handle_rtcp_ok now who input : preserves room_ok (handle_rtcp now who input).
Proof.
  intros r Hr. unfold handle_rtcp. destruct (map_err _ _) as [ps|e| |]; [|done..].
  assert (forall s, room_ok s.1 -> room_ok (foldl (handle_control now who) s ps).1) as H.
  { induction ps as [|p ps IH]; intros s Hs; [done|]. cbn. by apply IH, handle_control_ok. }
  specialize (H (r, {| retransmissions := []; co_events := [] |}) Hr). by destruct (foldl _ _ _).
Qed.

(** ** Publishing *)
Lemma index_encodings_lookup id es m s : NoDup (enc_ssrc <$> es) ->
  index_encodings id es m !! s =
    match List.find (fun e => enc_ssrc e =? s) es with
    | Some e => Some (id, spatial_layer e)
    | None => m !! s
    end.
Proof.
  unfold index_encodings. revert m. induction es as [|e es IH]; intros m Hnd; cbn; [done|].
  apply NoDup_cons in Hnd as [Hni Hnd]. rewrite IH by done. destruct (Z.eqb_spec (enc_ssrc e) s) as [<-|Hne].
  - destruct (List.find _ es) as [e'|] eqn:Hf; [|by rewrite lookup_insert_eq].
    apply List.find_some in Hf as [Hin Heq%Z.eqb_eq]. exfalso. apply Hni. rewrite <- Heq.
    by apply list_elem_of_fmap_2, list_elem_of_In.
  - case_match; [done|]. by rewrite lookup_insert_ne.
Qed.

Lemma find_by_ssrc es s e : NoDup (enc_ssrc <$> es) ->
  List.find (fun e => enc_ssrc e =? s) es = Some e <-> e ∈ es /\ enc_ssrc e = s.
Proof.
  intros Hnd. split.
  - intros [Hin Heq%Z.eqb_eq]%List.find_some. by apply list_elem_of_In in Hin.
  - intros [Hin <-]. induction es as [|x es IH]; [by apply not_elem_of_nil in Hin|].
    cbn. apply NoDup_cons in Hnd as [Hni Hnd]. apply elem_of_cons in Hin as [->|Hin]; [by rewrite Z.eqb_refl|].
    destruct (Z.eqb_spec (enc_ssrc x) (enc_ssrc e)) as [Heq|]; [|by apply IH].
    exfalso. apply Hni. cbn. rewrite Heq. by apply list_elem_of_fmap_2.
Qed.

Lemma size_list_to_set_le (l : list Z) : (size (list_to_set l : gset Z) <= length l)%nat.
Proof.
  induction l as [|x l IH]; cbn; [by rewrite size_empty|]. rewrite size_union_alt, size_singleton.
  assert (size ((list_to_set l : gset Z) ∖ {[x]}) <= size (list_to_set l : gset Z))%nat
    by (apply subseteq_size; set_solver). lia.
Qed.

Lemma size_list_to_set (l : list Z) : size (list_to_set l : gset Z) = length l -> NoDup l.
Proof.
  induction l as [|x l IH]; intros H; [constructor|]. cbn in H.
  destruct (decide (x ∈ l)) as [Hin|Hni].
  - rewrite (subseteq_union_1_L {[x]} (list_to_set l)) in H by set_solver.
    pose proof (size_list_to_set_le l). lia.
  - constructor; [done|]. apply IH. rewrite size_union, size_singleton in H by set_solver. lia.
Qed.

Lemma validate_track_Ok t u : validate_track t = Ok u -> track_typed t -> track_ok t.
Proof.
  unfold validate_track. intros (? & H1%reject_if_Ok & H)%bind_Ok [Hc _].
  apply bind_Ok in H as (? & H2%reject_if_Ok & H). cbv zeta in H. apply reject_if_Ok in H.
  apply orb_false_iff in H1 as [H1 _], H as [Hs Hl]. apply negb_false_iff in H2, Hs, Hl.
  apply Nat.eqb_eq in Hs, Hl. apply bool_decide_eq_false in H1.
  unfold track_ok. split_and!; [apply Hc..|done| | |done]; apply size_list_to_set; by rewrite length_fmap.
Qed.

Lemma contains_false {A} (m : gmap Z A) k : contains m k = false <-> m !! k = None.
Proof. unfold contains. rewrite bool_decide_eq_false. by rewrite eq_None_not_Some. Qed.

Lemma publish_ok t : track_typed t -> preserves room_ok (publish t).
Proof.
  intros Hty r Hr. unfold publish. unfold mbind, prog_bind, lift, gets, modify, id.
  destruct (validate_track t) as [u|e| |] eqn:Hv; [|done..].
  destruct (contains (tracks r) (track_id t)) eqn:Hid; [done|]. cbn [reject_if].
  destruct (Z.leb_spec (max_tracks (room_config r)) (map_len (tracks r))) as [|Hmax]; [done|]. cbn [reject_if].
  destruct (existsb _ (encodings t)) eqn:Hss; [done|]. cbn [reject_if fst].
  pose proof (validate_track_Ok t u Hv Hty) as Htok. pose proof Htok as (_ & _ & Hnd & _).
  apply contains_false in Hid.
  assert (forall e, e ∈ encodings t -> ssrc_index r !! enc_ssrc e = None) as Hfresh.
  { intros e He. apply contains_false. destruct (contains _ _) eqn:Hc; [|done].
    exfalso. assert (existsb (fun e => contains (ssrc_index r) (enc_ssrc e)) (encodings t) = true) as Hx; [|congruence].
    apply existsb_exists. exists e. split; [by apply list_elem_of_In|done]. }
  destruct Hr as [H0 H1 H2 H3 H4 H5 H6 H7 H8]. split; cbn; try done.
  - intros i t'. destruct (decide (i = track_id t)) as [->|Hne].
    + rewrite lookup_insert_eq. by intros [= <-].
    + rewrite lookup_insert_ne by done. apply H1.
  - intros s i layer. rewrite index_encodings_lookup by done.
    destruct (List.find _ (encodings t)) as [e|] eqn:Hf.
    + apply find_by_ssrc in Hf as [Hin <-]; [|done]. split.
      * intros [= <- <-]. exists t, e. by rewrite lookup_insert_eq.
      * intros (t' & e' & Ht' & He' & Heq & <-). destruct (decide (i = track_id t)) as [->|Hne].
        -- rewrite lookup_insert_eq in Ht'. injection Ht' as <-.
           assert (List.find (fun e0 => enc_ssrc e0 =? enc_ssrc e) (encodings t) = Some e') as Hf' by (by apply find_by_ssrc).
           assert (List.find (fun e0 => enc_ssrc e0 =? enc_ssrc e) (encodings t) = Some e) as Hf by (by apply find_by_ssrc).
           congruence.
        -- rewrite lookup_insert_ne in Ht' by done. exfalso. specialize (Hfresh e Hin).
           assert (ssrc_index r !! enc_ssrc e = Some (i, spatial_layer e')) by (apply H2; exists t', e'; done).
           congruence.
    + rewrite H2. assert (forall e, e ∈ encodings t -> enc_ssrc e <> s) as Hnot.
      { intros e He <-. by assert (List.find (fun e0 => enc_ssrc e0 =? enc_ssrc e) (encodings t) = Some e)
          by (by apply find_by_ssrc); congruence. }
      split; intros (t' & e' & Ht' & He' & Heq & Hl).
      * exists t', e'. rewrite lookup_insert_ne; [done|]. intros <-. congruence.
      * destruct (decide (i = track_id t)) as [->|Hne].
        -- rewrite lookup_insert_eq in Ht'. injection Ht' as <-. by destruct (Hnot e' He').
        -- rewrite lookup_insert_ne in Ht' by done. by exists t', e'.
  - intros i d (Hd1 & Hd2 & Hd3 & Hd4)%H3. split_and!; try done.
    + unfold selects in *. destruct (current_input_ssrc d) as [s|]; [|done]. destruct Hd3 as (layer & Hl & Hsel).
      exists layer. split; [|done]. rewrite index_encodings_lookup by done.
      destruct (List.find _ (encodings t)) as [e|] eqn:Hf; [|done].
      apply find_by_ssrc in Hf as [Hin <-]; [|done]. rewrite Hfresh in Hl by done. done.
    + destruct (decide (sub_track_id (configuration d) = track_id t)) as [->|]; [by rewrite lookup_insert_eq|].
      by rewrite lookup_insert_ne.
  - unfold map_len in *. rewrite map_size_insert_None by done. lia.
Qed.

(** ** Subscribing *)
Lemma mux_safe_bound pt : 0 <= pt -> Datagram.is_rtcp_mux_safe_payload_type pt = true -> 0 <= pt <= 127.
Proof. unfold Datagram.is_rtcp_mux_safe_payload_type. lia. Qed.

Lemma subscribe_ok c : config_typed c -> preserves room_ok (subscribe c).
Proof.
  intros (Hpt & Hss & Hseq & Hts) r Hr. unfold subscribe. unfold mbind, prog_bind, lift, gets, modify, id.
  destruct (contains (subscriptions r) (sub_id c)) eqn:Hid; [done|]. cbn [reject_if].
  destruct (contains (output_ssrc_index r) (output_ssrc c)) eqn:Hout; [done|]. cbn [reject_if].
  destruct (Datagram.is_rtcp_mux_safe_payload_type (output_payload_type c)) eqn:Hmux; [|done]. cbn [negb reject_if].
  destruct (Z.leb_spec (max_subscriptions (room_config r)) (map_len (subscriptions r))) as [|Hmax]; [done|].
  cbn [reject_if]. destruct (tracks r !! sub_track_id c) as [t|] eqn:Ht; [|done]. cbn [ok_or].
  destruct (encoding t _) as [enc|]; [|done]. cbn [ok_or fst]. apply contains_false in Hid, Hout.
  set (d := DownTrack.new c t _ _). assert (configuration d = c) as Hc by done.
  destruct Hr as [H0 H1 H2 H3 H4 H5 H6 H7 H8].
  assert (down_ok d) as Hd.
  { apply DownTrack.new_ok; [|apply H0|apply H1 in Ht as [_ [Hcr _]]; exact Hcr].
    split; [|done]. apply mux_safe_bound; [apply Hpt|done]. }
  split; cbn; try done.
  - intros i e. destruct (decide (i = sub_id c)) as [->|Hne].
    + rewrite lookup_insert_eq. intros [= <-]. split_and!; [done..|]. rewrite Hc. eauto.
    + rewrite lookup_insert_ne by done. apply H3.
  - intros s i. destruct (decide (s = output_ssrc c)) as [->|Hne].
    + rewrite lookup_insert_eq. split.
      * intros [= <-]. exists d. by rewrite lookup_insert_eq.
      * intros (e & He & Heq). destruct (decide (i = sub_id c)) as [->|Hni]; [done|].
        rewrite lookup_insert_ne in He by done.
        assert (output_ssrc_index r !! output_ssrc c = Some i) by (apply H4; eauto). congruence.
    + rewrite lookup_insert_ne, H4 by done. destruct (decide (i = sub_id c)) as [->|Hni].
      * rewrite Hid, lookup_insert_eq. split; [by intros (? & ? & _)|]. intros (e & [= <-] & <-). done.
      * by rewrite lookup_insert_ne.
  - intros tid i. destruct (decide (tid = sub_track_id c)) as [->|Hne].
    + rewrite lookup_insert_eq. cbn. rewrite elem_of_app, list_elem_of_singleton, H5.
      destruct (decide (i = sub_id c)) as [->|Hni].
      * rewrite lookup_insert_eq. split; [|by right]. intros _. by exists d.
      * rewrite lookup_insert_ne by done. naive_solver.
    + rewrite lookup_insert_ne, H5 by done. destruct (decide (i = sub_id c)) as [->|Hni].
      * rewrite Hid, lookup_insert_eq. split; [by intros (? & ? & _)|]. intros (e & [= <-] & <-). done.
      * by rewrite lookup_insert_ne.
  - intros tid ids. destruct (decide (tid = sub_track_id c)) as [->|Hne].
    + rewrite lookup_insert_eq. intros [= <-]. split; [|by intros ?%app_eq_nil; naive_solver]. apply NoDup_app. split_and!.
      * destruct (track_subscriptions r !! sub_track_id c) as [l|] eqn:Hl; [by apply (H6 _ _ Hl)|constructor].
      * intros i (e & He & _)%H5. rewrite list_elem_of_singleton. intros ->. congruence.
      * apply NoDup_singleton.
    + rewrite lookup_insert_ne by done. apply H6.
  - unfold map_len in *. rewrite map_size_insert_None by done. lia.
Qed.

(** ** Unsubscribing *)
Lemma remove_subscription_ok id r : room_ok r -> room_ok (remove_subscription id r).1.
Proof.
  intros Hr. unfold remove_subscription. destruct (subscriptions r !! id) as [d|] eqn:Hd; [|done]. cbv zeta.
  destruct Hr as [H0 H1 H2 H3 H4 H5 H6 H7 H8]. set (tid := sub_track_id (configuration d)).
  assert (id ∈ default [] (track_subscriptions r !! tid)) as Hin by (apply H5; eauto).
  cbn [track_subscriptions set_output_ssrc_index set_subscriptions].
  destruct (track_subscriptions r !! tid) as [ids|] eqn:Hids; [|by apply not_elem_of_nil in Hin]. cbn in Hin.
  set (m := match filter _ ids with [] => _ | _ => _ end).
  assert (forall t, default [] (m !! t) =
    if decide (t = tid) then filter (fun c => c <> id) ids else default [] (track_subscriptions r !! t)) as Hm.
  { intros t. unfold m. destruct (filter _ ids) as [|x l] eqn:Hf; case_decide as Ht.
    - subst t. by rewrite lookup_delete_eq.
    - by rewrite lookup_delete_ne.
    - subst t. by rewrite lookup_insert_eq.
    - by rewrite lookup_insert_ne. }
  split; cbn; try done.
  - intros i e [_ He]%lookup_delete_Some. by apply H3.
  - intros s i. rewrite lookup_delete_Some, H4. split.
    + intros [Hne (e & He & Heq)]. exists e. split; [|done]. apply lookup_delete_Some. split; [|done]. congruence.
    + intros (e & [Hni He]%lookup_delete_Some & Heq). split; [|eauto]. intros <-.
      assert (output_ssrc_index r !! output_ssrc (configuration d) = Some id) as Ha by (apply H4; eauto).
      assert (output_ssrc_index r !! output_ssrc (configuration d) = Some i) as Hb by (apply H4; eauto). congruence.
  - intros t i. rewrite Hm. case_decide as Ht.
    + subst t. rewrite list_elem_of_filter. pose proof (H5 tid i) as H5i. rewrite Hids in H5i. cbn in H5i. rewrite H5i.
      split.
      * intros [Hni (e & He & Heq)]. exists e. rewrite lookup_delete_Some. done.
      * intros (e & [Hni He]%lookup_delete_Some & Heq). split; [done|eauto].
    + rewrite H5. split.
      * intros (e & He & Heq). exists e. rewrite lookup_delete_Some. split; [split; [|done]|done].
        intros <-. apply Ht. rewrite <- Heq. by assert (e = d) as -> by congruence.
      * intros (e & [Hni He]%lookup_delete_Some & Heq). eauto.
  - intros t l Hl. pose proof (Hm t) as Hmt. rewrite Hl in Hmt. cbn in Hmt. unfold m in Hl.
    destruct (H6 _ _ Hids) as [Hnd _]. destruct (filter _ ids) as [|x l'] eqn:Hf.
    + apply lookup_delete_Some in Hl as [_ Hl]. by apply H6 in Hl.
    + destruct (decide (t = tid)) as [->|Hne].
      * rewrite lookup_insert_eq in Hl. injection Hl as <-. split; [|done]. rewrite <- Hf. by apply NoDup_filter.
      * rewrite lookup_insert_ne in Hl by done. by apply H6 in Hl.
  - unfold map_len in *. rewrite map_size_delete_Some by eauto. lia.
Qed.

(** ** Unpublishing *)
Lemma remove_unlisted r i d : subscriptions r !! i = Some d ->
  track_subscriptions r !! sub_track_id (configuration d) = None ->
  (remove_subscription i r).1 =
    set_output_ssrc_index (delete (output_ssrc (configuration d)) (output_ssrc_index r))
      (set_subscriptions (delete i (subscriptions r)) r).
Proof. intros Hd Ht. unfold remove_subscription. rewrite Hd. cbv zeta. cbn. by rewrite Ht. Qed.

Lemma remove_subscriptions_spec ids r :
  (forall i d, i ∈ ids -> subscriptions r !! i = Some d ->
     track_subscriptions r !! sub_track_id (configuration d) = None) ->
  let r' := remove_subscriptions ids r in
  room_config r' = room_config r /\ tracks r' = tracks r /\ ssrc_index r' = ssrc_index r /\
  track_subscriptions r' = track_subscriptions r /\
  (forall i, subscriptions r' !! i = if decide (i ∈ ids) then None else subscriptions r !! i) /\
  (forall s j, output_ssrc_index r' !! s = Some j <-> output_ssrc_index r !! s = Some j /\
     forall i d, i ∈ ids -> subscriptions r !! i = Some d -> output_ssrc (configuration d) <> s).
Proof.
  unfold remove_subscriptions. revert r. induction ids as [|x ids IH]; intros r Hun; cbn [foldl].
  { split_and!; try done. intros s j. split; [|by intros [? _]]. intros ?. split; [done|]. set_solver. }
  destruct (subscriptions r !! x) as [d|] eqn:Hx.
  - rewrite (remove_unlisted r x d) by (done || (apply (Hun x); [by left|done])).
    set (r1 := set_output_ssrc_index _ _).
    destruct (IH r1) as (Hc & Ht & Hi & Hl & Hs & Ho).
    { unfold r1; cbn. intros i e Hin [_ He]%lookup_delete_Some. apply (Hun i); [by right|done]. }
    split_and!; try done.
    + intros i. rewrite Hs. unfold r1; cbn. destruct (decide (i = x)) as [->|Hne].
      * rewrite lookup_delete_eq. repeat case_decide; set_solver.
      * rewrite lookup_delete_ne by done. repeat case_decide; set_solver.
    + intros s j. rewrite Ho. unfold r1; cbn. rewrite lookup_delete_Some. split.
      * intros [[Hne Hj] Hall]. split; [done|]. intros i e [->|Hin]%elem_of_cons He; [congruence|].
        destruct (decide (i = x)) as [->|Hni]; [congruence|]. apply (Hall i); [done|]. by rewrite lookup_delete_ne.
      * intros [Hj Hall]. split; [split; [|done]|].
        -- apply (Hall x); [by left|done].
        -- intros i e Hin [_ He]%lookup_delete_Some. apply (Hall i); [by right|done].
  - assert ((remove_subscription x r).1 = r) as -> by (unfold remove_subscription; by rewrite Hx).
    destruct (IH r) as (Hc & Ht & Hi & Hl & Hs & Ho).
    { intros i e Hin. apply Hun. by right. }
    split_and!; try done.
    + intros i. rewrite Hs. destruct (decide (i = x)) as [->|Hne]; [|repeat case_decide; set_solver].
      rewrite Hx. by repeat case_decide.
    + intros s j. rewrite Ho. split; intros [Hj Hall]; (split; [done|]); intros i e Hin He.
      * apply elem_of_cons in Hin as [->|Hin]; [congruence|by apply (Hall i)].
      * apply (Hall i); [by right|done].
Qed.

Definition forget_encodings (es : list Encoding) (r : Room) : Room :=
  foldl (fun r e =>
    let r := set_ssrc_index (delete (enc_ssrc e) (ssrc_index r)) r in
    set_last_pli (delete (enc_ssrc e) (last_pli r)) r) r es.

Lemma forget_encodings_spec es r : let r' := forget_encodings es r in
  room_config r' = room_config r /\ tracks r' = tracks r /\ subscriptions r' = subscriptions r /\
  track_subscriptions r' = track_subscriptions r /\ output_ssrc_index r' = output_ssrc_index r /\
  (forall s, ssrc_index r' !! s = if decide (s ∈ enc_ssrc <$> es) then None else ssrc_index r !! s).
Proof.
  unfold forget_encodings. revert r. induction es as [|e es IH]; intros r; cbn [foldl fmap list_fmap].
  { split_and!; try done. }
  cbv zeta. set (r1 := set_last_pli _ _). destruct (IH r1) as (? & ? & ? & ? & ? & Hs).
  split_and!; try done. intros s. rewrite Hs. unfold r1; cbn. destruct (decide (s = enc_ssrc e)) as [->|Hne].
  - rewrite lookup_delete_eq. repeat case_decide; set_solver.
  - rewrite lookup_delete_ne by done. repeat case_decide; set_solver.
Qed.

Lemma unpublish_eq id t r : tracks r !! id = Some t ->
  (unpublish id r).1 =
    let r2 := forget_encodings (encodings t) (set_tracks (delete id (tracks r)) r) in
    remove_subscriptions (default [] (track_subscriptions r !! id))
      (set_track_subscriptions (delete id (track_subscriptions r2)) r2).
Proof.
  intros Ht. unfold unpublish. rewrite Ht. cbv zeta. fold (forget_encodings (encodings t) (set_tracks (delete id (tracks r)) r)).
  destruct (forget_encodings_spec (encodings t) (set_tracks (delete id (tracks r)) r)) as (_ & _ & _ & Hts & _).
  set (r2 := forget_encodings _ _) in *. clearbody r2. cbn [track_subscriptions set_tracks] in Hts.
  rewrite Hts. destruct (track_subscriptions r !! id) as [ids|] eqn:Hi; [done|]. cbn.
  rewrite delete_id by done. rewrite <- Hts. by destruct r2.
Qed.

(** The room after [unpublish], in terms of the room before. *)
Record unpublished (id : TrackId) (t : PublishedTrack) (r r' : Room) : Prop := {
  un_config : room_config r' = room_config r;
  un_tracks : tracks r' = delete id (tracks r);
  un_ssrcs s : ssrc_index r' !! s = if decide (s ∈ enc_ssrc <$> encodings t) then None else ssrc_index r !! s;
  un_lists : track_subscriptions r' = delete id (track_subscriptions r);
  un_subs i d : subscriptions r' !! i = Some d <->
    subscriptions r !! i = Some d /\ sub_track_id (configuration d) <> id;
  un_outputs s j : output_ssrc_index r' !! s = Some j <-> output_ssrc_index r !! s = Some j /\
    forall i d, subscriptions r !! i = Some d -> sub_track_id (configuration d) = id ->
      output_ssrc (configuration d) <> s }.

Lemma unpublish_effect id t r : room_ok r -> tracks r !! id = Some t -> unpublished id t r (unpublish id r).1.
Proof.
  intros Hr Ht. rewrite (unpublish_eq id t) by done. cbv zeta.
  destruct (forget_encodings_spec (encodings t) (set_tracks (delete id (tracks r)) r)) as (Hc2 & Ht2 & Hs2 & Hl2 & Ho2 & Hi2).
  set (r2 := forget_encodings _ _) in *. set (ids := default [] (track_subscriptions r !! id)).
  cbn [room_config tracks subscriptions track_subscriptions output_ssrc_index ssrc_index set_tracks] in *.
  assert (forall i d, subscriptions r !! i = Some d -> i ∈ ids <-> sub_track_id (configuration d) = id) as Hids.
  { intros i d Hd. unfold ids. rewrite (ro_listed _ Hr). split; [intros (e & He & <-); congruence|intros <-; eauto]. }
  destruct (remove_subscriptions_spec ids (set_track_subscriptions (delete id (track_subscriptions r2)) r2))
    as (Hc & Htr & Hi & Hl & Hs & Ho).
  { cbn. rewrite Hs2, Hl2. intros i d Hin Hd. rewrite (proj1 (Hids i d Hd) Hin). apply lookup_delete_eq. }
  cbn [room_config tracks subscriptions track_subscriptions output_ssrc_index ssrc_index set_track_subscriptions] in *.
  split.
  - congruence.
  - congruence.
  - intros s. by rewrite Hi, Hi2.
  - congruence.
  - intros i d. rewrite Hs, Hs2. case_decide as Hin; split; try done.
    + intros [Hd Hne]. destruct Hne. by apply (Hids i d Hd).
    + intros Hd. split; [done|]. by rewrite <- (Hids i d Hd).
    + by intros [? _].
  - intros s j. rewrite Ho, Ho2, Hs2. f_equiv. split; intros Hall i d.
    + intros Hd Heq. apply (Hall i d); [|done]. by apply (Hids i d Hd).
    + intros Hin Hd. apply (Hall i d Hd). by apply (Hids i d Hd).
Qed.

(** Only the encodings of the track are in its part of the SSRC index. *)
Lemma encoding_of_other r id t s i layer : room_ok r -> tracks r !! id = Some t ->
  ssrc_index r !! s = Some (i, layer) -> s ∈ enc_ssrc <$> encodings t <-> i = id.
Proof.
  intros Hr Ht Hs. split.
  - intros (e & -> & He)%list_elem_of_fmap.
    assert (ssrc_index r !! enc_ssrc e = Some (id, spatial_layer e)) by (apply (ro_ssrc _ Hr); eauto 10). congruence.
  - intros ->. apply (ro_ssrc _ Hr) in Hs as (t' & e & Ht' & He & <- & _). apply list_elem_of_fmap_2. congruence.
Qed.

Lemma unpublish_ssrcs_ok id t r r' s i layer : room_ok r -> tracks r !! id = Some t -> unpublished id t r r' ->
  ssrc_index r' !! s = Some (i, layer) <-> exists t e, tracks r' !! i = Some t /\ e ∈ encodings t /\
    enc_ssrc e = s /\ spatial_layer e = layer.
Proof.
  intros Hr Ht [_ Htr Hi _ _ _]. rewrite Hi, Htr. split.
  - case_decide as Hin; [done|]. intros Hs. pose proof (encoding_of_other r id t s i layer Hr Ht Hs) as Ho.
    apply (ro_ssrc _ Hr) in Hs as (t' & e & Ht' & ?). exists t', e. rewrite lookup_delete_Some. naive_solver.
  - intros (t' & e & [Hne Ht']%lookup_delete_Some & He & <- & <-).
    assert (ssrc_index r !! enc_ssrc e = Some (i, spatial_layer e)) as Hs by (apply (ro_ssrc _ Hr); eauto 10).
    rewrite decide_False; [done|]. rewrite (encoding_of_other r id t _ _ _ Hr Ht Hs). congruence.
Qed.

Lemma unpublish_outputs_ok id t r r' s i : room_ok r -> unpublished id t r r' ->
  output_ssrc_index r' !! s = Some i <->
  exists d, subscriptions r' !! i = Some d /\ output_ssrc (configuration d) = s.
Proof.
  intros Hr [_ _ _ _ Hsub Ho]. rewrite Ho. setoid_rewrite Hsub. split.
  - intros [(d & Hd & Heq)%(ro_output _ Hr) Hall]. exists d. split_and!; try done. intros Ht'. by apply (Hall i d).
  - intros (d & [Hd Hne] & Heq). assert (output_ssrc_index r !! s = Some i) by (apply (ro_output _ Hr); eauto).
    split; [done|]. intros j e He Ht' Hs'.
    assert (output_ssrc_index r !! s = Some j) by (apply (ro_output _ Hr); eauto). congruence.
Qed.

Lemma unpublish_ok id r : room_ok r -> room_ok (unpublish id r).1.
Proof.
  intros Hr. destruct (tracks r !! id) as [t|] eqn:Ht; [|unfold unpublish; by rewrite Ht].
  pose proof (unpublish_effect id t r Hr Ht) as Hun. set (r' := (unpublish id r).1) in *. clearbody r'.
  pose proof (fun s i layer => unpublish_ssrcs_ok id t r r' s i layer Hr Ht Hun) as Hssrc.
  pose proof (fun s i => unpublish_outputs_ok id t r r' s i Hr Hun) as Hout.
  destruct Hun as [Hc Htr Hi Hl Hsub _].
  pose proof Hr as [H0 H1 H2 H3 H4 H5 H6 H7 H8].
  split; [by rewrite Hc| |done| |done|..].
  - intros i t'. rewrite Htr, lookup_delete_Some. intros [_ Hi']. by apply H1.
  - intros i d [Hd Hne]%Hsub. destruct (H3 _ _ Hd) as (Ha & Hb & Hsel & Htk).
    split_and!; [done..| |by rewrite Htr, lookup_delete_ne by congruence].
    unfold selects in *. destruct (current_input_ssrc d) as [s|]; [|done]. destruct Hsel as (layer & Hx & Hy).
    exists layer. split; [|done]. rewrite Hi, decide_False; [done|]. by rewrite (encoding_of_other r id t _ _ _ Hr Ht Hx).
  - intros tid i. rewrite Hl. setoid_rewrite Hsub. destruct (decide (tid = id)) as [->|Hne].
    + rewrite lookup_delete_eq. cbn. split; [by intros ?%not_elem_of_nil|]. naive_solver.
    + rewrite lookup_delete_ne, H5 by done. naive_solver.
  - intros tid l. rewrite Hl, lookup_delete_Some. intros [_ Hx]. by apply H6 in Hx.
  - rewrite Htr, Hc. unfold map_len in *. rewrite map_size_delete_Some by eauto. lia.
  - rewrite Hc. unfold map_len in *. enough (size (subscriptions r') <= size (subscriptions r))%nat by lia.
    apply map_subseteq_size. apply map_subseteq_spec. intros i d [? _]%Hsub. done.
Qed.
