(* ===== verification/RoomSafety.v ===== *)
(** * webrtc/sfu-core: what a room guarantees to its participants

    Sequences of calls on a room: every reachable room is consistent, media only flows
    from the owner of a track to its subscribers, feedback only touches the sender's own
    subscriptions, and upstream key-frame requests are paced. *)
From S2P Require Import Prelude Words Slices SfuModel Room RoomInvariant.
From S2P Require RtpExtension RtpPacket RtpRewrite RtcpModel Rtcp MediaCodec Datagram DownTrack.
Import DownTrack (DownTrack, ForwardDecision, Forwarded, Dropped, configuration, target_layer,
  selected_spatial, current_input_ssrc, down_ok).

(** ** Calls and reachable rooms *)
Inductive Call :=
| Publish (track : PublishedTrack)
| Unpublish (id : TrackId)
| Subscribe (config : SubscriptionConfig)
| Unsubscribe (id : SubscriptionId)
| SetTargetLayer (now : Duration) (who : ParticipantId) (id : SubscriptionId) (layer : Layer)
| HandleRtp (now : Duration) (publisher : ParticipantId) (input : bytes)
| HandleRtcp (now : Duration) (who : ParticipantId) (input : bytes).

(** The arguments have the values of their Rust types. *)
Definition call_typed (c : Call) : Prop :=
  match c with
  | Publish t => track_typed t
  | Subscribe c => config_typed c
  | HandleRtp _ _ input | HandleRtcp _ _ input => rust_slice input
  | _ => True
  end.

(** The events a call hands back: none when it fails. *)
Definition events_of {A} (f : A -> list SfuEvent) (o : outcome SfuError A) : list SfuEvent :=
  match o with Ok a => f a | _ => [] end.

Section Executions.
Context {hash_order : HashOrder}.

Definition exec (c : Call) (r : Room) : Room * list SfuEvent :=
  match c with
  | Publish t => ((publish t r).1, [])
  | Unpublish id => ((unpublish id r).1, [])
  | Subscribe c => ((subscribe c r).1, [])
  | Unsubscribe id => ((unsubscribe id r).1, [])
  | SetTargetLayer now who sid layer =>
      let '(r, o) := set_target_layer now who sid layer r in (r, events_of id o)
  | HandleRtp now who input => let '(r, o) := handle_rtp now who input r in (r, events_of fo_events o)
  | HandleRtcp now who input => let '(r, o) := handle_rtcp now who input r in (r, events_of co_events o)
  end.

Inductive reachable (config : RoomConfig) : Room -> Prop :=
| reach_new : limits_typed config -> reachable config (new config)
| reach_call c r : reachable config r -> call_typed c -> reachable config (exec c r).1.

Lemma exec_ok c r : call_typed c -> room_ok r -> room_ok (exec c r).1.
Proof.
  intros Hc Hr. destruct c as [t|id|c|id|now who id layer|now who input|now who input]; cbn.
  - by apply publish_ok.
  - by apply unpublish_ok.
  - by apply subscribe_ok.
  - by apply remove_subscription_ok.
  - pose proof (set_target_layer_room_ok now who id layer r Hr). by destruct (set_target_layer _ _ _ _ r).
  - pose proof (handle_rtp_ok now who input r Hr). by destruct (handle_rtp _ _ _ r).
  - pose proof (handle_rtcp_ok now who input r Hr). by destruct (handle_rtcp _ _ _ r).
Qed.

(** C4: every room reachable from [Room::new] by any sequence of calls, failed ones
    included, is consistent: the SSRC index lists exactly the encodings of the published
    tracks, the output-SSRC index and the per-track lists exactly the subscriptions, no
    subscription outlives its track, and the configured limits hold. *)
Theorem reachable_room_ok config r : reachable config r -> room_ok r.
Proof. induction 1 as [Hc|c r _ IH Hc]; [by apply new_room_ok|by apply exec_ok]. Qed.
End Executions.

(** ** Fan-out of one packet *)
(** What a call of [forward] sends and announces. *)
Definition sent_by (o : DownTrack * outcome SfuError ForwardDecision) : option ForwardedPacket :=
  match o.2 with Ok (Forwarded p _) => Some p | _ => None end.
Definition announced_by (o : DownTrack * outcome SfuError ForwardDecision) : option SfuEvent :=
  match o.2 with Ok (Forwarded _ e) => e | _ => None end.

Section Fanout.
Context (now : Duration) (track : PublishedTrack) (layer : Z) (info : MediaCodec.PayloadInfo) (input : bytes).

Abbreviation offer := (DownTrack.forward now track layer info input).

Lemma forward_loop_spec ids out b r r' out' b' : NoDup ids ->
  forward_loop now track layer info input ids out b r = (r', Ok (out', b')) ->
  packets out' = packets out ++ omap (fun id => d ← subscriptions r !! id; sent_by (offer d)) ids /\
  fo_events out' = fo_events out ++ omap (fun id => d ← subscriptions r !! id; announced_by (offer d)) ids /\
  (forall id, subscriptions r' !! id =
     if decide (id ∈ ids) then (fun d => (offer d).1) <$> subscriptions r !! id else subscriptions r !! id).
Proof.
  intros Hnd. revert out b r. induction Hnd as [|id ids Hni Hnd IH]; intros out b r H; cbn in H.
  { injection H as <- <- <-. cbn. by rewrite !app_nil_r. }
  assert (forall (f : DownTrack -> option ForwardedPacket) (g : DownTrack -> option SfuEvent) x,
    omap (fun i => d ← <[id := x]> (subscriptions r) !! i; f d) ids = omap (fun i => d ← subscriptions r !! i; f d) ids /\
    omap (fun i => d ← <[id := x]> (subscriptions r) !! i; g d) ids = omap (fun i => d ← subscriptions r !! i; g d) ids)
    as Hsame.
  { intros f g x. split; apply list_omap_ext, Forall_Forall2_diag, Forall_forall; intros i Hi;
      by rewrite lookup_insert_ne by congruence. }
  destruct (subscriptions r !! id) as [d|] eqn:Hd.
  - destruct (Hsame (fun d => sent_by (offer d)) (fun d => announced_by (offer d)) (offer d).1) as [Hps Hevs].
    assert (forall out b, forward_loop now track layer info input ids out b
        (set_subscriptions (<[id := (offer d).1]> (subscriptions r)) r) = (r', Ok (out', b')) ->
      packets out' = packets out ++ omap (fun id => d ← subscriptions r !! id; sent_by (offer d)) ids /\
      fo_events out' = fo_events out ++ omap (fun id => d ← subscriptions r !! id; announced_by (offer d)) ids /\
      forall i, subscriptions r' !! i = if decide (i ∈ id :: ids)
        then (fun d => (offer d).1) <$> subscriptions r !! i else subscriptions r !! i) as Hnext.
    { intros out0 b0 H0. apply IH in H0 as (-> & -> & Hs). cbn. rewrite Hps, Hevs. split_and!; [done..|].
      intros i. rewrite Hs. cbn. destruct (decide (i = id)) as [->|Hne].
      - rewrite lookup_insert_eq, Hd. repeat case_decide; set_solver.
      - rewrite lookup_insert_ne by done. repeat case_decide; set_solver. }
    cbn [omap list_omap]. rewrite Hd. cbn [mbind option_bind]. unfold sent_by at 1, announced_by at 1.
    destruct (offer d) as [d' [[p e|w]|err| |]] eqn:Ho; cbn [snd fst] in *; try done.
    + apply Hnext in H as (-> & -> & Hs). cbn. rewrite <- !app_assoc. by destruct e.
    + by apply Hnext in H.
  - apply IH in H as (-> & -> & Hs). cbn. rewrite Hd. cbn. split_and!; [done..|]. intros i. rewrite Hs.
    destruct (decide (i = id)) as [->|Hne]; [rewrite Hd; by repeat case_decide|]. repeat case_decide; set_solver.
Qed.
End Fanout.

Lemma parse_payload_slice input p : rust_slice input -> RtpPacket.parse input = Ok p ->
  rust_slice (RtpPacket.payload p).
Proof.
  intros [Hok Hl] Hp. apply RtpPacket.parse_Ok in Hp as (_ & first & _ & _ & Ht).
  apply RtpPacket.parse_tail_Ok in Ht as (pos0 & body & _ & _ & Hbody & _ & _ & Hpl).
  apply get_range_Some in Hbody as (l1 & l2 & -> & _ & _). apply get_range_Some in Hpl as (b1 & b2 & -> & _ & _).
  rewrite !bytes_ok_app in Hok. rewrite !len_app in Hl. split; [apply Hok|]. pose_len. lia.
Qed.

Lemma returns_admit_rtp publisher input r : rust_slice input -> returns (admit_rtp publisher input r).
Proof.
  intros Hin. unfold admit_rtp. apply returns_bind; [apply returns_map_err, RtpPacket.returns_parse|]. intros p Hp%map_err_Ok.
  apply returns_bind; [auto with returns|]. intros [tid layer] _.
  apply returns_bind; [auto with returns|]. intros t _.
  apply returns_bind; [auto with returns|]. intros ? _.
  apply returns_bind; [auto with returns|]. intros ? _.
  apply returns_bind; [|intros ? _; done]. apply returns_map_err, MediaCodec.returns_inspect_payload.
  by eapply parse_payload_slice.
Qed.

Lemma forward_loop_returns now track layer info input ids out b r : rust_slice input ->
  (forall id d, subscriptions r !! id = Some d -> down_ok d) ->
  returns (forward_loop now track layer info input ids out b r).2.
Proof.
  intros Hin. revert out b r. induction ids as [|id ids IH]; intros out b r Hr; cbn [forward_loop]; [done|].
  destruct (subscriptions r !! id) as [d|] eqn:Hd; [|by apply IH].
  pose proof (DownTrack.forward_returns now track layer info input d (Hr _ _ Hd) Hin) as Hf.
  pose proof (DownTrack.preserves_forward now track layer info input d (Hr _ _ Hd)) as Hok.
  destruct (DownTrack.forward _ _ _ _ _ d) as [d' [[p e|w]|e| |]]; cbn [fst snd] in *; try done;
    apply IH; intros i x Hx; cbn in Hx; (destruct (decide (i = id)) as [->|Hne];
      [rewrite lookup_insert_eq in Hx; by injection Hx as <-|rewrite lookup_insert_ne in Hx by done; eauto]).
Qed.

Lemma sent_by_owner now track layer info input d p : down_ok d -> rust_slice input ->
  sent_by (DownTrack.forward now track layer info input d) = Some p -> DownTrack.from_track d p.
Proof.
  intros Hd Hin. unfold sent_by. destruct (DownTrack.forward _ _ _ _ _ d) as [d' [[q e|w]|e| |]] eqn:Hf; cbn; try done.
  intros [= <-]. apply DownTrack.forward_output in Hf as (a & c & Ho & _); [|done..]. apply Ho.
Qed.

(** What is true of a call of [handle_rtp] that succeeds. *)
Record fanned_out (r : Room) (now : Duration) (publisher : ParticipantId) (input : bytes)
    (r' : Room) (out : ForwardOutcome) (tid : TrackId) (track : PublishedTrack) (layer : Z)
    (info : MediaCodec.PayloadInfo) : Prop := {
  fan_admitted : admit_rtp publisher input r = Ok (tid, track, layer, info);
  fan_owner : tracks r !! tid = Some track /\ owner track = publisher;
  fan_packets : packets out =
    omap (fun id => d ← subscriptions r !! id; sent_by (DownTrack.forward now track layer info input d))
      (default [] (track_subscriptions r !! tid));
  fan_updates id : subscriptions r' !! id = d ← subscriptions r !! id;
    Some (if sub_track_id (configuration d) =? tid
          then (DownTrack.forward now track layer info input d).1 else d);
  fan_addressed p : p ∈ packets out -> exists d, subscriptions r !! fp_subscription_id p = Some d /\
    sub_track_id (configuration d) = tid /\ fp_subscriber p = subscriber (configuration d);
  fan_frame : tracks r' = tracks r /\ ssrc_index r' = ssrc_index r }.

Section Rtp.
Context {hash_order : HashOrder}.

Lemma maybe_pli_frame now tid ssrc r : let r' := (maybe_pli now tid ssrc r).1 in
  room_config r' = room_config r /\ tracks r' = tracks r /\ ssrc_index r' = ssrc_index r /\
  subscriptions r' = subscriptions r.
Proof. unfold maybe_pli. by case_match. Qed.

Lemma request_keyframe_frame now track tid out b r :
  exists evs, let '(r', o) := request_keyframe now track tid out b r in
    o = Ok {| packets := packets out; fo_events := fo_events out ++ evs |} /\
    room_config r' = room_config r /\ tracks r' = tracks r /\
    ssrc_index r' = ssrc_index r /\ subscriptions r' = subscriptions r.
Proof.
  unfold request_keyframe. destruct (if b then _ else _) as [e|].
  - pose proof (maybe_pli_frame now tid (enc_ssrc e) r) as Hf. destruct (maybe_pli _ _ _ r) as [r' ev].
    exists (option_list ev). by split.
  - exists []. rewrite app_nil_r. by destruct out.
Qed.

Lemma listed_ids r tid id d : room_ok r -> subscriptions r !! id = Some d ->
  id ∈ default [] (track_subscriptions r !! tid) <-> sub_track_id (configuration d) = tid.
Proof.
  intros Hr Hd. rewrite (ro_listed _ Hr). split; [intros (e & He & <-); congruence|eauto].
Qed.

Lemma listed_NoDup r tid : room_ok r -> NoDup (default [] (track_subscriptions r !! tid)).
Proof.
  intros Hr. destruct (track_subscriptions r !! tid) eqn:Ht; [|constructor]. apply (proj1 (ro_lists _ Hr _ _ Ht)).
Qed.

Lemma handle_rtp_fans_out now publisher input r r' out : room_ok r -> rust_slice input ->
  handle_rtp now publisher input r = (r', Ok out) ->
  exists tid track layer info, fanned_out r now publisher input r' out tid track layer info.
Proof.
  intros Hr Hin H. unfold handle_rtp in H.
  destruct (admit_rtp publisher input r) as [[[[tid track] layer] info]|e| |] eqn:Ha; try done.
  pose proof (admit_rtp_Ok _ _ _ _ _ _ _ Ha) as (p & Hp & Hi & Ht & Hown & _).
  apply prog_bind_Ok in H as (r1 & [o1 b1] & Hl & Hk).
  destruct (request_keyframe_frame now track tid o1 b1 r1) as (evs & Hf). rewrite Hk in Hf.
  destruct Hf as (Hout & _ & Htr & Hidx & Hsub). apply Ok_inj in Hout as ->.
  destruct (forward_loop_ok now track layer info input (default [] (track_subscriptions r !! tid))
    {| packets := []; fo_events := [] |} false r p tid Hr Hp Hi) as (_ & _ & Htr1 & Hidx1 & _).
  { intros id d Hid Hd. by eapply listed_ids. }
  rewrite Hl in Htr1, Hidx1. cbn [fst] in *.
  apply forward_loop_spec in Hl as (Hps & _ & Hs); [|by apply listed_NoDup]. cbn [packets app] in Hps.
  exists tid, track, layer, info. split; [done|done|done|..|by rewrite Htr, Hidx, Htr1, Hidx1]; cbn [packets].
  - intros id. rewrite Hsub, Hs. destruct (subscriptions r !! id) as [d|] eqn:Hd; [|by case_decide].
    pose proof (listed_ids r tid id d Hr Hd). cbn. destruct (Z.eqb_spec (sub_track_id (configuration d)) tid);
      case_decide; cbn; naive_solver.
  - intros q Hq. rewrite Hps in Hq. apply list_elem_of_omap in Hq as (id & Hid & Hd).
    apply bind_Some in Hd as (d & Hd & Hsent). destruct (ro_sub _ Hr _ _ Hd) as (Hid' & Hok & _).
    apply sent_by_owner in Hsent as [Hwho Hwhere]; [|done..]. rewrite Hwhere, Hid'. exists d. split_and!; [done| |done].
    by eapply listed_ids.
Qed.

Lemma handle_rtp_returns now publisher input r : room_ok r -> rust_slice input ->
  returns (handle_rtp now publisher input r).2.
Proof.
  intros Hr Hin. unfold handle_rtp. pose proof (returns_admit_rtp publisher input r Hin) as Ha.
  destruct (admit_rtp _ _ _) as [[[[tid track] layer] info]|e| |]; [|done..].
  unfold mbind, prog_bind.
  pose proof (forward_loop_returns now track layer info input (default [] (track_subscriptions r !! tid))
    {| packets := []; fo_events := [] |} false r Hin (fun id d Hd => proj1 (proj2 (ro_sub _ Hr id d Hd)))) as Hl.
  destruct (forward_loop _ _ _ _ _ _ _ _ r) as [r1 [[o1 b1]|e| |]]; [|done..].
  destruct (request_keyframe_frame now track tid o1 b1 r1) as (evs & Hf).
  destruct (request_keyframe now track tid o1 b1 r1) as [r' o]. by destruct Hf as [-> _].
Qed.

(** C5: a media packet reaches exactly the subscribers of its track.  [handle_rtp] comes
    back on every datagram; a packet it accepts belongs to a track owned by the sender, and
    the output is, in subscription order, what [forward] sends on each subscription of that
    track, addressed to the subscriber of that subscription; the subscriptions of other
    tracks do not change. *)
Theorem handle_rtp_routes now publisher input r : room_ok r -> rust_slice input ->
  returns (handle_rtp now publisher input r).2 /\
  forall r' out, handle_rtp now publisher input r = (r', Ok out) ->
    exists tid track layer info, fanned_out r now publisher input r' out tid track layer info.
Proof.
  intros Hr Hin. split; [by apply handle_rtp_returns|]. intros r' out. by apply handle_rtp_fans_out.
Qed.

(** nobody can inject media into a track of another participant: a packet whose SSRC
    belongs to a track of somebody else is refused, and no counter, cache or index changes. *)
Theorem publisher_isolation now publisher input r p tid layer track : rust_slice input ->
  RtpPacket.parse input = Ok p -> ssrc_index r !! RtpPacket.ssrc (RtpPacket.header p) = Some (tid, layer) ->
  tracks r !! tid = Some track -> owner track <> publisher ->
  handle_rtp now publisher input r = (r, Err (UnauthorizedParticipant publisher)).
Proof.
  intros Hin Hp Hi Ht Ho. unfold handle_rtp, admit_rtp. rewrite Hp. cbn [map_err mbind outcome_bind].
  rewrite Hi. cbn [ok_or mbind outcome_bind]. rewrite Ht. cbn [ok_or mbind outcome_bind].
  by rewrite (proj2 (Z.eqb_neq _ _) Ho).
Qed.
End Rtp.

(** ** Feedback *)
(** The sequence numbers a NACK entry names. *)
Definition nacked (entry : RtcpModel.NackEntry) (s : Z) : Prop :=
  s = RtcpModel.packet_id entry \/
  exists bit, 0 <= bit < 16 /\ Z.testbit (RtcpModel.lost_packet_bitmask entry) bit = true /\
    s = (RtcpModel.packet_id entry + bit + 1) mod 2 ^ 16.

(** [seen] is the set of the elements of [requested], each listed once. *)
Definition nack_acc_ok (acc : list Z * gset Z) : Prop := NoDup acc.1 /\ forall s, s ∈ acc.2 <-> s ∈ acc.1.

Lemma push_new_spec acc s : nack_acc_ok acc ->
  nack_acc_ok (push_new acc s) /\ forall x, x ∈ (push_new acc s).1 <-> x ∈ acc.1 \/ x = s.
Proof.
  intros [Hnd Hset]. unfold push_new. case_bool_decide as Hin.
  - split; [by split|]. intros x. apply Hset in Hin. naive_solver.
  - split; [split|]; cbn [fst snd].
    + apply NoDup_app. rewrite Hset in Hin. split_and!; [done| |apply NoDup_singleton]. set_solver.
    + intros x. rewrite elem_of_union, elem_of_app, Hset. set_solver.
    + set_solver.
Qed.

Lemma has_bit_testbit x bit : 0 <= bit -> has_bit x (Z.shiftl 1 bit) = Z.testbit x bit.
Proof.
  intros Hb. unfold has_bit. rewrite Z.shiftl_1_l. destruct (Z.testbit x bit) eqn:Ht.
  - apply negb_true_iff, Z.eqb_neq. intros H0. assert (Z.testbit (Z.land x (2 ^ bit)) bit = false) as Hf by (rewrite H0; apply Z.testbit_0_l).
    rewrite Z.land_spec, Ht, Z.pow2_bits_true in Hf by done. done.
  - apply negb_false_iff, Z.eqb_eq, Z.bits_inj'. intros n Hn. rewrite Z.land_spec, Z.testbit_0_l.
    destruct (decide (n = bit)) as [->|Hne]; [by rewrite Ht|]. rewrite Z.pow2_bits_false by done. apply andb_false_r.
Qed.

Lemma expand_bits_spec entry bits acc : nack_acc_ok acc -> Forall (fun b => 0 <= b < 16) bits ->
  let acc' := foldl (fun acc bit =>
    if has_bit (RtcpModel.lost_packet_bitmask entry) (Z.shiftl 1 bit)
    then push_new acc (wrapping_add 16 (RtcpModel.packet_id entry) (default 0 (try_from 16 (bit + 1))))
    else acc) acc bits in
  nack_acc_ok acc' /\ forall s, s ∈ acc'.1 <-> s ∈ acc.1 \/ exists bit, bit ∈ bits /\
    Z.testbit (RtcpModel.lost_packet_bitmask entry) bit = true /\
    s = (RtcpModel.packet_id entry + bit + 1) mod 2 ^ 16.
Proof.
  intros Hacc Hb. revert acc Hacc. induction Hb as [|b bits Hb _ IH]; intros acc Hacc; cbn.
  { split; [done|]. set_solver. }
  rewrite has_bit_testbit by lia.
  assert (default 0 (try_from 16 (b + 1)) = b + 1) as ->.
  { by rewrite try_from_fits by mlia. }
  unfold wrapping_add. rewrite Z.add_assoc. destruct (Z.testbit _ b) eqn:Ht.
  - destruct (push_new_spec acc ((RtcpModel.packet_id entry + b + 1) mod 2 ^ 16) Hacc) as [Hok Hin].
    destruct (IH _ Hok) as [Hok' Hin']. split; [done|]. intros s. rewrite Hin', Hin, Init.Logic.or_assoc. setoid_rewrite elem_of_cons. f_equiv.
    split; [intros [->|(x & Hx & ?)]; eauto|]. intros (x & [->|Hx] & ? & ->); [by left|right; eauto].
  - destruct (IH _ Hacc) as [Hok' Hin']. split; [done|]. intros s. rewrite Hin'. setoid_rewrite elem_of_cons. f_equiv.
    split; intros (x & Hx & Hx' & Heq); exists x; [by auto|]. destruct Hx as [->|Hx]; [congruence|done].
Qed.

Lemma expand_entry_spec entry acc : nack_acc_ok acc ->
  nack_acc_ok (expand_nack_entry acc entry) /\
  forall s, s ∈ (expand_nack_entry acc entry).1 <-> s ∈ acc.1 \/ nacked entry s.
Proof.
  intros Hacc. unfold expand_nack_entry.
  destruct (push_new_spec acc (RtcpModel.packet_id entry) Hacc) as [Hok Hin].
  destruct (expand_bits_spec entry (seqZ 0 16) _ Hok) as [Hok' Hin'].
  { apply Forall_forall. intros b Hb%elem_of_seqZ. lia. }
  split; [done|]. intros s. rewrite Hin', Hin, Init.Logic.or_assoc. unfold nacked. do 2 f_equiv.
  split; intros (b & Hb & ?); exists b; rewrite elem_of_seqZ in *; (split; [lia|done]).
Qed.

(** a NACK is expanded to exactly the sequence numbers it names (the packet identifier
    and the bits of the mask, modulo 2^16), each of them once, whatever the entries repeat. *)
Theorem expand_nack_exact entries : NoDup (expand_nack entries) /\
  forall s, s ∈ expand_nack entries <-> exists entry, entry ∈ entries /\ nacked entry s.
Proof.
  unfold expand_nack. assert (forall acc, nack_acc_ok acc -> let acc' := foldl expand_nack_entry acc entries in
    nack_acc_ok acc' /\ forall s, s ∈ acc'.1 <-> s ∈ acc.1 \/ exists entry, entry ∈ entries /\ nacked entry s) as H.
  { induction entries as [|e es IH]; intros acc Hacc; cbn; [split; [done|]; set_solver|].
    destruct (expand_entry_spec e acc Hacc) as [Hok Hin]. destruct (IH _ Hok) as [Hok' Hin']. split; [done|].
    intros s. rewrite Hin', Hin. setoid_rewrite elem_of_cons. naive_solver. }
  destruct (H ([], ∅)) as [[Hnd _] Hin]; [split; [constructor|set_solver]|]. split; [done|].
  intros s. rewrite Hin. set_solver.
Qed.

(** What the feedback of [who] may do to one subscription: its cache may lose old packets. *)
Definition touched_by (who : ParticipantId) (before after : option DownTrack) : Prop :=
  match before, after with
  | Some d, Some d' => configuration d' = configuration d /\
      (forall c, c ∈ DownTrack.cache d' -> c ∈ DownTrack.cache d) /\
      (subscriber (configuration d) <> who -> d' = d)
  | None, None => True
  | _, _ => False
  end.

Definition event_allowed (r : Room) (who : ParticipantId) (e : SfuEvent) : Prop :=
  match e with
  | TransportFeedback who' _ => who' = who
  | PictureLossIndication tid ssrc => exists id d t enc, subscriptions r !! id = Some d /\
      subscriber (configuration d) = who /\ sub_track_id (configuration d) = tid /\
      tracks r !! tid = Some t /\ enc ∈ encodings t /\ enc_ssrc enc = ssrc
  | LayerSwitched _ _ _ => False
  end.

Definition answer_allowed (r : Room) (who : ParticipantId) (p : ForwardedPacket) : Prop :=
  fp_subscriber p = who /\ fp_retransmission p = true /\
  exists d c, subscriptions r !! fp_subscription_id p = Some d /\ subscriber (configuration d) = who /\
    c ∈ DownTrack.cache d /\ p = DownTrack.mark_retransmission (DownTrack.cached c).

(** The effect of the feedback of [who] on a room [r]. *)
Record fed (r : Room) (who : ParticipantId) (s : Room * ControlOutput) : Prop := {
  fed_ok : room_ok s.1;
  fed_tracks : tracks s.1 = tracks r;
  fed_subs id : touched_by who (subscriptions r !! id) (subscriptions s.1 !! id);
  fed_answers p : p ∈ retransmissions s.2 -> answer_allowed r who p;
  fed_events e : e ∈ co_events s.2 -> event_allowed r who e }.

Lemma touched_by_refl who o : touched_by who o o.
Proof. by destruct o. Qed.

Lemma touched_by_trans who a b c : touched_by who a b -> touched_by who b c -> touched_by who a c.
Proof.
  destruct a as [d|], b as [d1|], c as [d2|]; cbn; try done.
  intros (H1 & H2 & H3) (H4 & H5 & H6). split_and!; [congruence|auto|]. intros Hne. rewrite H6 by congruence. auto.
Qed.

Lemma touched_back who r s id d' : (forall id, touched_by who (subscriptions r !! id) (subscriptions s !! id)) ->
  subscriptions s !! id = Some d' ->
  exists d, subscriptions r !! id = Some d /\ configuration d' = configuration d /\
    forall c, c ∈ DownTrack.cache d' -> c ∈ DownTrack.cache d.
Proof.
  intros Ht Hd. specialize (Ht id). rewrite Hd in Ht. destruct (subscriptions r !! id) as [d|]; [|done].
  destruct Ht as (Hc & Hcache & _). eauto.
Qed.

Lemma retransmit_answers now requested d : down_ok d ->
  let '(d', ps) := DownTrack.retransmit now requested d in
  configuration d' = configuration d /\ (forall c, c ∈ DownTrack.cache d' -> c ∈ DownTrack.cache d) /\
  forall p, p ∈ ps -> DownTrack.from_track d p /\
    exists c, c ∈ DownTrack.cache d /\ p = DownTrack.mark_retransmission (DownTrack.cached c).
Proof.
  intros Hd. unfold DownTrack.retransmit. cbn [DownTrack.cache DownTrack.configuration DownTrack.expire_cache DownTrack.set_cache].
  destruct (DownTrack.expire_suffix now (DownTrack.cache_age d) (DownTrack.cache d)) as (old & Hold).
  assert (forall c, c ∈ DownTrack.expire now (DownTrack.cache_age d) (DownTrack.cache d) -> c ∈ DownTrack.cache d) as Hsub.
  { intros c Hc. rewrite Hold. apply elem_of_app. by right. }
  split_and!; [done..|]. intros p (s & _ & Hf)%list_elem_of_omap.
  apply DownTrack.find_map_Some in Hf as (c & Hc & Hp). rewrite elem_of_reverse in Hc.
  unfold DownTrack.matches in Hp. destruct (RtpPacket.parse _) as [q|e| |]; try done. case_match; [|done].
  injection Hp as <-. split; [|eauto]. pose proof (DownTrack.ok_cache_owner _ Hd) as Ho.
  rewrite (@Forall_forall DownTrack.CachedPacket) in Ho. by apply (Ho c), Hsub.
Qed.

Lemma nack_fed now who r s nack : fed r who s -> fed r who (handle_control now who s (RtcpModel.PGenericNack nack)).
Proof.
  intros Hf. pose proof (handle_control_ok now who s (RtcpModel.PGenericNack nack) (fed_ok _ _ _ Hf)) as Hok'.
  revert Hok'. destruct s as [r1 out], Hf as [Hok Htr Hsub Hans Hev]. cbn [fst snd] in *. cbn [handle_control].
  destruct (authorized_down_track _ _ r1) as [[id d]|] eqn:Ha; [|by intros _; split].
  apply authorized_Some in Ha as (_ & Hd & Hwho).
  pose proof (retransmit_answers now (expand_nack (RtcpModel.entries nack)) d (proj1 (proj2 (ro_sub _ Hok _ _ Hd)))) as Hre.
  destruct (ro_sub _ Hok _ _ Hd) as (Hid & _).
  destruct (touched_back _ _ _ _ _ Hsub Hd) as (d0 & Hd0 & Hc0 & Hcache0).
  destruct (DownTrack.retransmit _ _ d) as [d' ps]. destruct Hre as (Hc & Hcache & Hps). intros Hok'.
  split; [done|done|..]; cbn.
  - intros i. destruct (decide (i = id)) as [->|Hne]; [|by rewrite lookup_insert_ne].
    rewrite lookup_insert_eq, Hd0. cbn. split_and!; [congruence|eauto|congruence].
  - intros p [Hp|Hp]%elem_of_app; [by apply Hans|]. destruct (Hps p Hp) as ([Hs Hi] & c & Hcc & Hpc).
    unfold answer_allowed. split_and!; [congruence|by rewrite Hpc|]. exists d0, c. rewrite Hi, Hid. split_and!; try done; [congruence|eauto].
  - done.
Qed.

Lemma pli_fed now who r s pli : fed r who s ->
  fed r who (handle_control now who s (RtcpModel.PPictureLossIndication pli)).
Proof.
  intros Hf. pose proof (handle_control_ok now who s (RtcpModel.PPictureLossIndication pli) (fed_ok _ _ _ Hf)) as Hok'.
  revert Hok'. destruct s as [r1 out], Hf as [Hok Htr Hsub Hans Hev]. cbn [fst snd] in *. cbn [handle_control]. cbv zeta.
  destruct (mbind _ _) as [[tid ssrc]|] eqn:Hup; [|by intros _; split].
  apply bind_Some in Hup as ([id d] & (_ & Hd & Hwho)%authorized_Some & Hup). apply bind_Some in Hup as (t & Ht & Hup).
  apply bind_Some in Hup as (e & He & Hup). injection Hup as <- <-.
  destruct (touched_back _ _ _ _ _ Hsub Hd) as (d0 & Hd0 & Hc0 & _).
  pose proof (maybe_pli_frame now (track_id t) (enc_ssrc e) r1) as (_ & Hft & _ & Hfs).
  assert (forall ev, (maybe_pli now (track_id t) (enc_ssrc e) r1).2 = Some ev ->
    ev = PictureLossIndication (track_id t) (enc_ssrc e)) as Hpe by (unfold maybe_pli; case_match; cbn; naive_solver).
  destruct (maybe_pli _ _ _ r1) as [r2 ev]. cbn [fst snd] in *. intros Hok'. split; cbn; try done.
  - congruence.
  - intros i. rewrite Hfs. apply Hsub.
  - intros x [Hx|Hx]%elem_of_app; [by apply Hev|]. destruct ev as [ev|]; [|by apply not_elem_of_nil in Hx].
    apply list_elem_of_singleton in Hx as ->. rewrite (Hpe _ eq_refl). cbn.
    destruct (ro_track _ Hok _ _ Ht) as [Hid _]. apply List.find_some in He as [He%list_elem_of_In _].
    exists id, d0, t, e. rewrite <- Htr, <- Hc0. split_and!; try done. by rewrite Hid.
Qed.

Lemma control_fed now who r s packet : fed r who s -> fed r who (handle_control now who s packet).
Proof.
  intros Hf. destruct packet as [?|?|?|nack|pli|fb|?]; [by destruct s..|by apply nack_fed|by apply pli_fed| |by destruct s].
  destruct s as [r1 out], Hf as [Hok Htr Hsub Hans Hev]. split; cbn in *; try done.
  intros x [Hx|Hx]%elem_of_app; [by apply Hev|]. by apply list_elem_of_singleton in Hx as ->.
Qed.

Lemma handle_rtcp_fed now who input r r' out : room_ok r -> handle_rtcp now who input r = (r', Ok out) ->
  fed r who (r', out).
Proof.
  intros Hr H. unfold handle_rtcp in H. destruct (map_err _ _) as [ps|e| |]; try done.
  assert (forall s, fed r who s -> fed r who (foldl (handle_control now who) s ps)) as Hfold.
  { clear H. induction ps as [|p ps IH]; intros s Hs; [done|]. by apply IH, control_fed. }
  specialize (Hfold (r, {| retransmissions := []; co_events := [] |})).
  destruct (foldl _ _ _) as [r1 o1]. injection H as <- <-. apply Hfold. split; cbn; try done; try set_solver.
  intros id. apply touched_by_refl.
Qed.

(** RTCP feedback only reaches what its sender is entitled to.  [handle_rtcp] comes
    back on every datagram; every retransmission it produces is a cached packet of one of
    the sender's own subscriptions, a key frame is only asked of a track the sender is
    subscribed to, transport feedback is attributed to its sender, and the subscriptions of
    the other participants do not change. *)
Theorem feedback_isolation now who input r : room_ok r -> rust_slice input ->
  returns (handle_rtcp now who input r).2 /\
  forall r' out, handle_rtcp now who input r = (r', Ok out) ->
    (forall p, p ∈ retransmissions out -> answer_allowed r who p) /\
    (forall e, e ∈ co_events out -> event_allowed r who e) /\
    (forall id d, subscriptions r !! id = Some d -> subscriber (configuration d) <> who ->
       subscriptions r' !! id = Some d).
Proof.
  intros Hr Hin. split.
  - unfold handle_rtcp. pose proof (returns_map_err Rtcp _ (Rtcp.returns_parse_compound _ Hin)) as Hp.
    destruct (map_err _ _); [by destruct (foldl _ _ _)|done..].
  - intros r' out H. destruct (handle_rtcp_fed _ _ _ _ _ _ Hr H) as [_ _ Hsub Hans Hev]. split_and!; [done..|].
    intros id d Hd Hne. specialize (Hsub id). cbn in Hsub. rewrite Hd in Hsub.
    destruct (subscriptions r' !! id); [|done]. destruct Hsub as (_ & _ & Heq). by rewrite Heq.
Qed.

(** ** Failed layer changes *)
(** [set_target_layer] with a spatial layer the track does not have answers
    [UnknownSpatialLayer], but the subscription already points at that layer: the failed
    call is not without effect.  A subscription that has not received anything yet then
    drops every packet of its track, on every layer the track has. *)
Theorem failed_layer_change_sticks now who id layer r d t :
  subscriptions r !! id = Some d -> subscriber (configuration d) = who ->
  tracks r !! sub_track_id (configuration d) = Some t -> encoding t (spatial layer) = None ->
  target_layer d <> layer ->
  let '(r', o) := set_target_layer now who id layer r in
  o = Err (UnknownSpatialLayer (spatial layer)) /\
  exists d', subscriptions r' !! id = Some d' /\ target_layer d' = layer /\
    (selected_spatial d = None -> forall now l info input, is_Some (encoding t l) ->
       DownTrack.forward now t l info input d' = (d', Ok (Dropped true))).
Proof.
  intros Hd Hwho Ht He Hne. unfold set_target_layer. rewrite Hd, (proj2 (Z.eqb_eq _ _) Hwho). cbn [negb].
  unfold DownTrack.set_target_layer. rewrite (bool_decide_eq_false_2 _ Hne). cbn [tracks set_subscriptions].
  rewrite Ht, He. split; [done|]. exists (DownTrack.set_target layer d). cbn [subscriptions set_subscriptions].
  split; [apply lookup_insert_eq|]. split; [done|]. intros Hsel now' l info input [e Hl].
  unfold DownTrack.forward, DownTrack.forward_gate. cbn. rewrite Hsel. cbn.
  destruct (Z.eqb_spec l (spatial layer)) as [->|]; [congruence|done].
Qed.

(** ** A concrete room: one track, two subscribers *)
#[export] Instance key_order : HashOrder := {
  values m := (map_to_list m).*2; values_perm m := Permutation_refl _ }.

Definition example_calls : list Call :=
  [Publish DownTrack.example_track; Subscribe DownTrack.example_config;
   Subscribe {| sub_id := 41; subscriber := 3; sub_track_id := 9; output_ssrc := 78; output_payload_type := 101;
     initial_layer := {| spatial := 1; temporal := 2 |}; initial_sequence_number := 7;
     initial_timestamp := 0; extension_rewrites := [] |}].
Definition example_room : Room :=
  foldl (fun r c => (exec c r).1) (new default_room_config) example_calls.

Lemma example_reachable : reachable default_room_config example_room.
Proof.
  unfold example_room, example_calls. cbn [foldl].
  repeat (apply reach_call; [|unfold call_typed, track_typed, config_typed; eval_facts]).
  apply reach_new. unfold limits_typed. eval_facts.
Qed.
Lemma example_room_ok : room_ok example_room.
Proof.
  unfold example_room, example_calls. cbn [foldl].
  repeat (apply exec_ok; [unfold call_typed, track_typed, config_typed; eval_facts|]).
  apply new_room_ok. unfold limits_typed. eval_facts.
Qed.

Lemma reachable_room_ok_witness : map_len (subscriptions example_room) = 2 /\ room_ok example_room.
Proof. split; [vm_compute; reflexivity|]. exact (reachable_room_ok default_room_config _ example_reachable). Defined.

Lemma handle_rtp_routes_witness : exists r' out,
  handle_rtp 5 1 (DownTrack.example_input 1) example_room = (r', Ok out) /\
  exists p, packets out = [p] /\ fp_subscriber p = 2.
Proof.
  eexists _, _. split; [vm_compute; reflexivity|]. eexists. split; [reflexivity|].
  edestruct (proj2 (handle_rtp_routes 5 1 (DownTrack.example_input 1) example_room example_room_ok
    DownTrack.example_input_ok)) as (tid & track & layer & info & _); [vm_compute; reflexivity|].
  reflexivity.
Defined.

Lemma publisher_isolation_witness :
  handle_rtp 5 2 (DownTrack.example_input 1) example_room = (example_room, Err (UnauthorizedParticipant 2)).
Proof.
  eapply (publisher_isolation 5 2 (DownTrack.example_input 1) example_room _ 9 0 DownTrack.example_track
    DownTrack.example_input_ok); [vm_compute; reflexivity..|discriminate].
Defined.

Definition example_nack : bytes := [0x81; 205; 0; 3; 0; 0; 0; 1; 0; 0; 0; 77; 255; 255; 0; 0].
Lemma feedback_isolation_witness : exists r' out,
  handle_rtcp 6 2 example_nack (exec (HandleRtp 5 1 (DownTrack.example_input 1)) example_room).1 = (r', Ok out) /\
  exists p, retransmissions out = [p] /\ fp_subscriber p = 2.
Proof.
  eexists _, _. split; [vm_compute; reflexivity|]. eexists. split; [reflexivity|].
  edestruct (proj2 (feedback_isolation 6 2 example_nack (exec (HandleRtp 5 1 (DownTrack.example_input 1)) example_room).1
    (exec_ok (HandleRtp 5 1 (DownTrack.example_input 1)) _ DownTrack.example_input_ok example_room_ok)
    ltac:(split; [repeat constructor; eval_facts|eval_facts]))) as [H _]; [vm_compute; reflexivity|].
  apply H. left.
Defined.

Lemma failed_layer_change_sticks_witness :
  (set_target_layer 5 2 40 {| spatial := 7; temporal := 0 |} example_room).2 = Err (UnknownSpatialLayer 7).
Proof.
  pose proof (failed_layer_change_sticks 5 2 40 {| spatial := 7; temporal := 0 |} example_room _ _
    ltac:(vm_compute; reflexivity) ltac:(vm_compute; reflexivity) ltac:(vm_compute; reflexivity)
    ltac:(vm_compute; reflexivity) ltac:(vm_compute; discriminate)) as H.
  destruct (set_target_layer _ _ _ _ _) as [r' o]. exact (proj1 H).
Defined.
