(* ===== verification/RoomPacing.v ===== *)
(** * webrtc/sfu-core: the pacing of upstream key-frame requests

    Over any sequence of calls with a clock that does not go back, two picture-loss
    indications for one encoding are at least [pli_throttle] apart, as long as the track
    stays published; and unpublishing leaves nothing of a track behind. *)
From S2P Require Import Prelude Words Slices SfuModel Room RoomInvariant RoomSafety.
From S2P Require RtpExtension RtpPacket RtpRewrite RtcpModel Rtcp MediaCodec Datagram DownTrack.
Import DownTrack (DownTrack, ForwardDecision, Forwarded, Dropped, configuration, target_layer,
  selected_spatial, current_input_ssrc, down_ok).

(** ** Clocks and logs *)
Definition call_time (c : Call) : option Duration :=
  match c with
  | SetTargetLayer now _ _ _ | HandleRtp now _ _ | HandleRtcp now _ _ => Some now
  | _ => None
  end.

Definition logged (now : Duration) (es : list SfuEvent) : list (Duration * SfuEvent) := pair now <$> es.

Section Runs.
Context {hash_order : HashOrder}.

(** The events of a sequence of calls, each with the time of its call. *)
Fixpoint run (now : Duration) (r : Room) (calls : list Call) : Room * list (Duration * SfuEvent) :=
  match calls with
  | [] => (r, [])
  | c :: calls =>
      let now := default now (call_time c) in
      let '(r, es) := exec c r in
      let '(r, log) := run now r calls in (r, logged now es ++ log)
  end.
End Runs.

Fixpoint chronological (now : Duration) (calls : list Call) : Prop :=
  match calls with
  | [] => True
  | c :: calls => now <= default now (call_time c) /\ chronological (default now (call_time c)) calls
  end.

Section Pacing.
Context {hash_order : HashOrder} (config : RoomConfig) (tid : TrackId) (ssrc : Z).

Abbreviation request := (PictureLossIndication tid ssrc).

Definition paced (throttle : Duration) (log : list (Duration * SfuEvent)) : Prop :=
  forall i j t1 t2, (i < j)%nat -> log !! i = Some (t1, request) -> log !! j = Some (t2, request) ->
    t1 + throttle <= t2.

(** What the room remembers of the requests in the log so far. *)
Record pacing (now : Duration) (r : Room) (log : list (Duration * SfuEvent)) : Prop := {
  pc_config : room_config r = config;
  pc_clock s t : last_pli r !! s = Some t -> t <= now;
  pc_last t : (t, request) ∈ log -> exists t' layer, last_pli r !! ssrc = Some t' /\ t <= t' /\
    ssrc_index r !! ssrc = Some (tid, layer);
  pc_paced : paced (pli_throttle config) log }.

Lemma pacing_later now now' r log : pacing now r log -> now <= now' -> pacing now' r log.
Proof. intros [H0 H1 H2 H3] Hn. split; [done| |done..]. intros s t Ht%H1. lia. Qed.

Lemma pacing_ext now r r' log : pacing now r log -> room_config r' = room_config r ->
  (forall s t, last_pli r' !! s = Some t -> last_pli r !! s = Some t) ->
  (forall layer t, ssrc_index r !! ssrc = Some (tid, layer) -> last_pli r !! ssrc = Some t ->
     last_pli r' !! ssrc = Some t /\ ssrc_index r' !! ssrc = Some (tid, layer)) ->
  pacing now r' log.
Proof.
  intros [H0 H1 H2 H3] Hc Hsub Hkeep. split; [congruence|eauto| |done].
  intros t (t' & layer & Hl & Hle & Hi)%H2. destruct (Hkeep _ _ Hi Hl). eauto.
Qed.

Lemma paced_snoc throttle log t e : paced throttle log ->
  (e = request -> forall t1, (t1, request) ∈ log -> t1 + throttle <= t) -> paced throttle (log ++ [(t, e)]).
Proof.
  intros Hp He i j t1 t2 Hij Hi Hj. apply lookup_app_Some in Hj as [Hj|[Hge Hj]].
  - rewrite lookup_app_l in Hi by (apply lookup_lt_Some in Hj; lia). by eapply (Hp i j).
  - apply list_lookup_singleton_Some in Hj as [Hj0 Hj]. injection Hj as -> ->.
    rewrite lookup_app_l in Hi by lia. apply He; [done|]. by eapply list_elem_of_lookup_2.
Qed.

Lemma pacing_snoc now r log t e : pacing now r log -> e <> request -> pacing now r (log ++ [(t, e)]).
Proof.
  intros [H0 H1 H2 H3] He. split; [done..| |by apply paced_snoc].
  intros t' [Hin|Hin]%elem_of_app; [by apply H2|]. apply list_elem_of_singleton in Hin. congruence.
Qed.

Lemma pacing_others now r log es : pacing now r log -> (forall e, e ∈ es -> e <> request) ->
  pacing now r (log ++ logged now es).
Proof.
  revert log. induction es as [|e es IH]; intros log Hp He; cbn; [by rewrite app_nil_r|].
  rewrite cons_middle, app_assoc. apply IH; [apply pacing_snoc; [done|]; apply He; by left|].
  intros x Hx. apply He. by right.
Qed.

Lemma maybe_pli_pacing now r log t s layer : pacing now r log -> ssrc_index r !! s = Some (t, layer) ->
  pacing now (maybe_pli now t s r).1 (log ++ logged now (option_list (maybe_pli now t s r).2)).
Proof.
  intros Hp Hi. unfold maybe_pli. destruct (from_option _ _ _) eqn:Hlast; cbn [fst snd option_list logged fmap list_fmap].
  { by rewrite app_nil_r. }
  destruct Hp as [H0 H1 H2 H3]. split; cbn [last_pli set_last_pli ssrc_index room_config]; [done|..].
  - intros s' t'. destruct (decide (s' = s)) as [->|Hne].
    + rewrite lookup_insert_eq. intros [= <-]. lia.
    + rewrite lookup_insert_ne by done. apply H1.
  - intros t' [Hin|Hin]%elem_of_app.
    + destruct (H2 _ Hin) as (u & l & Hu & Hle & Hl). destruct (decide (s = ssrc)) as [->|Hne].
      * rewrite lookup_insert_eq. exists now, l. split_and!; [done| |done]. apply H1 in Hu. lia.
      * rewrite lookup_insert_ne by done. eauto.
    + apply list_elem_of_singleton in Hin. injection Hin as -> -> ->. rewrite lookup_insert_eq.
      exists now, layer. split_and!; [done|lia|done].
  - apply paced_snoc; [done|]. intros [= -> ->] t1 Hin. destruct (H2 _ Hin) as (u & l & Hu & Hle & _).
    rewrite Hu in Hlast. cbn [from_option] in Hlast. apply H1 in Hu. rewrite H0 in Hlast.
    unfold saturating_sub in Hlast. lia.
Qed.

(** ** Each call keeps the pacing *)
Lemma encoding_indexed r id t layer e : room_ok r -> tracks r !! id = Some t -> encoding t layer = Some e ->
  ssrc_index r !! enc_ssrc e = Some (id, spatial_layer e).
Proof.
  intros Hr Ht He. apply List.find_some in He as [He%list_elem_of_In _]. apply (ro_ssrc _ Hr). eauto 10.
Qed.

Lemma pacing_set_target_layer now who id layer r log : room_ok r -> pacing now r log ->
  let '(r', o) := set_target_layer now who id layer r in
  pacing now r' (log ++ logged now (events_of Datatypes.id o)).
Proof.
  intros Hr Hp. unfold set_target_layer. destruct (subscriptions r !! id) as [d|]; [|by rewrite app_nil_r].
  destruct (negb _); [by rewrite app_nil_r|]. destruct (DownTrack.set_target_layer layer d) as [d' changed].
  set (r1 := set_subscriptions _ r). assert (pacing now r1 log) as Hp1 by (by eapply pacing_ext).
  cbn [tracks set_subscriptions]. change (tracks r1) with (tracks r).
  destruct (tracks r !! _) as [t|] eqn:Ht; [|by rewrite app_nil_r].
  destruct (encoding t (spatial layer)) as [e|] eqn:He; [|by rewrite app_nil_r].
  destruct (changed && _); [|by rewrite app_nil_r].
  pose proof (maybe_pli_pacing now r1 log _ _ _ Hp1 (encoding_indexed r _ t _ e Hr Ht He)) as Hm.
  by destruct (maybe_pli _ _ _ r1).
Qed.

Lemma pacing_control now who s log packet : room_ok s.1 -> pacing now s.1 (log ++ logged now (co_events s.2)) ->
  let s' := handle_control now who s packet in pacing now s'.1 (log ++ logged now (co_events s'.2)).
Proof.
  destruct s as [r out]. cbn [fst snd]. intros Hr Hp. destruct packet as [?|?|?|nack|pli|fb|?]; cbn [handle_control]; try done.
  - destruct (authorized_down_track _ _ r) as [[id d]|]; [|done]. by eapply pacing_ext.
  - cbv zeta. destruct (mbind _ _) as [[t s]|] eqn:Hup; [|done].
    apply bind_Some in Hup as ([id d] & _ & Hup). apply bind_Some in Hup as (tr & Ht & Hup).
    apply bind_Some in Hup as (e & He & Hup). injection Hup as <- <-.
    destruct (ro_track _ Hr _ _ Ht) as [Hid _]. rewrite <- Hid in Ht.
    pose proof (maybe_pli_pacing now r _ _ _ _ Hp (encoding_indexed r _ tr _ e Hr Ht He)) as Hm.
    destruct (maybe_pli _ _ _ r) as [r' ev]. cbn [fst snd co_events] in *. unfold logged in *.
    by rewrite fmap_app, app_assoc.
  - unfold logged in *. cbn [fst snd co_events]. rewrite fmap_app, app_assoc. by apply pacing_snoc.
Qed.

Lemma pacing_handle_rtcp now who input r log : room_ok r -> pacing now r log ->
  let '(r', o) := handle_rtcp now who input r in pacing now r' (log ++ logged now (events_of co_events o)).
Proof.
  intros Hr Hp. unfold handle_rtcp. destruct (map_err _ _) as [ps|e| |]; [|by rewrite app_nil_r..].
  assert (forall s, room_ok s.1 -> pacing now s.1 (log ++ logged now (co_events s.2)) ->
    let s' := foldl (handle_control now who) s ps in pacing now s'.1 (log ++ logged now (co_events s'.2))) as Hfold.
  { induction ps as [|p ps IH]; intros s Hs Hl; [done|]. cbn [foldl]. apply IH; [by apply handle_control_ok|].
    by apply pacing_control. }
  specialize (Hfold (r, {| retransmissions := []; co_events := [] |}) Hr). cbn in Hfold. rewrite app_nil_r in Hfold.
  specialize (Hfold Hp). by destruct (foldl _ _ _).
Qed.

Lemma announced_switch now track layer info input d e :
  announced_by (DownTrack.forward now track layer info input d) = Some e -> exists a b c, e = LayerSwitched a b c.
Proof.
  unfold announced_by. destruct (DownTrack.forward_gate track layer info d) as [dec|] eqn:Hg.
  { unfold DownTrack.forward. rewrite Hg. cbn. destruct dec; [|done]. by apply DownTrack.gate_not_forwarded in Hg. }
  destruct (RtpPacket.parse input) as [p|x| |] eqn:Hp.
  2-4: (unfold DownTrack.forward; by rewrite Hg, Hp).
  rewrite (DownTrack.forward_spec _ _ _ _ _ _ p) by done. cbv zeta.
  destruct (DownTrack.apply_rewrite _ _) as [q|x| |]; try done.
  destruct (RtpPacket.rewrite_header_extensions _ _) as [q'|x| |]; try done. cbn. case_match; naive_solver.
Qed.

Lemma pacing_handle_rtp now publisher input r log : room_ok r -> pacing now r log ->
  let '(r', o) := handle_rtp now publisher input r in pacing now r' (log ++ logged now (events_of fo_events o)).
Proof.
  intros Hr Hp. unfold handle_rtp.
  destruct (admit_rtp publisher input r) as [[[[t track] layer] info]|e| |] eqn:Ha; [|by rewrite app_nil_r..].
  apply admit_rtp_Ok in Ha as (p & Hparse & Hi & Ht & _). unfold mbind, prog_bind.
  destruct (forward_loop_ok now track layer info input (default [] (track_subscriptions r !! t))
    {| packets := []; fo_events := [] |} false r p t Hr Hparse Hi) as (Hr1 & Hc1 & Htr1 & Hi1 & Hl1).
  { intros id d Hid Hd. by eapply listed_ids. }
  destruct (forward_loop _ _ _ _ _ _ _ _ r) as [r1 [[o1 b1]|e| |]] eqn:Hloop; cbn [fst] in *;
    (assert (pacing now r1 log) as Hp1; [eapply pacing_ext; [done|done|by rewrite Hl1|by rewrite Hl1, Hi1]|]);
    [|by rewrite app_nil_r..].
  apply forward_loop_spec in Hloop as (_ & Hev & _); [|by apply listed_NoDup]. cbn [fo_events app] in Hev.
  assert (pacing now r1 (log ++ logged now (fo_events o1))) as Hp2.
  { apply pacing_others; [done|]. rewrite Hev. intros e (id & _ & Hd)%list_elem_of_omap.
    apply bind_Some in Hd as (d & _ & (? & ? & ? & ->)%announced_switch). done. }
  unfold request_keyframe. destruct (if b1 then _ else _) as [e|] eqn:He; [|done].
  destruct b1; [|done]. apply bind_Some in He as (w & _ & He). rewrite <- Htr1 in Ht.
  pose proof (maybe_pli_pacing now r1 _ _ _ _ Hp2 (encoding_indexed r1 _ track _ e Hr1 Ht He)) as Hm.
  destruct (maybe_pli _ _ _ r1) as [r2 ev]. cbn [events_of fo_events]. unfold logged in *. by rewrite fmap_app, app_assoc.
Qed.
End Pacing.

(** ** The calls that change the structure of the room *)
(** The part of a room the pacing depends on. *)
Definition same_pacing (r r' : Room) : Prop :=
  room_config r' = room_config r /\ last_pli r' = last_pli r /\ ssrc_index r' = ssrc_index r.

Lemma same_pacing_trans r1 r2 r3 : same_pacing r1 r2 -> same_pacing r2 r3 -> same_pacing r1 r3.
Proof. unfold same_pacing. intros (-> & -> & ->) (-> & -> & ->). done. Qed.

Lemma subscribe_same c r : same_pacing r (subscribe c r).1.
Proof.
  unfold subscribe, mbind, prog_bind, lift, gets, modify, Datatypes.id, reject_if, ok_or.
  by repeat (case_match; try done).
Qed.

Lemma remove_subscription_same id r : same_pacing r (remove_subscription id r).1.
Proof. unfold remove_subscription. by repeat case_match. Qed.

Lemma remove_subscriptions_same ids r : same_pacing r (remove_subscriptions ids r).
Proof.
  unfold remove_subscriptions. revert r. induction ids as [|id ids IH]; intros r; [done|].
  cbn [foldl]. eapply same_pacing_trans; [apply remove_subscription_same|apply IH].
Qed.

Lemma index_encodings_other id es m s : s ∉ enc_ssrc <$> es -> index_encodings id es m !! s = m !! s.
Proof.
  unfold index_encodings. revert m. induction es as [|e es IH]; intros m Hs; cbn; [done|].
  cbn in Hs. rewrite IH by set_solver. rewrite lookup_insert_ne; [done|]. set_solver.
Qed.

Lemma publish_keeps t r : let r' := (publish t r).1 in
  room_config r' = room_config r /\ last_pli r' = last_pli r /\
  forall s x, ssrc_index r !! s = Some x -> ssrc_index r' !! s = Some x.
Proof.
  unfold publish, mbind, prog_bind, lift, gets, modify, Datatypes.id.
  destruct (validate_track t); try done. destruct (contains (tracks r) _); [done|]. cbn [reject_if].
  destruct (_ <=? _); [done|]. cbn [reject_if]. destruct (existsb _ _) eqn:Hex; [done|]. cbn.
  split_and!; [done..|]. intros s x Hs. rewrite index_encodings_other; [done|]. intros (e & -> & He)%list_elem_of_fmap.
  assert (existsb (fun e => contains (ssrc_index r) (enc_ssrc e)) (encodings t) = true) as Hx; [|congruence].
  apply existsb_exists. exists e. split; [by apply list_elem_of_In|]. unfold contains. rewrite Hs. done.
Qed.

Lemma forget_encodings_pli es r s : last_pli (forget_encodings es r) !! s =
  if decide (s ∈ enc_ssrc <$> es) then None else last_pli r !! s.
Proof.
  unfold forget_encodings. revert r. induction es as [|e es IH]; intros r; cbn [foldl fmap list_fmap]; [done|].
  cbv zeta. rewrite IH. cbn. destruct (decide (s = enc_ssrc e)) as [->|Hne].
  - rewrite lookup_delete_eq. repeat case_decide; set_solver.
  - rewrite lookup_delete_ne by done. repeat case_decide; set_solver.
Qed.

Lemma unpublish_keeps id r : room_ok r -> let r' := (unpublish id r).1 in
  room_config r' = room_config r /\
  (forall s t, last_pli r' !! s = Some t -> last_pli r !! s = Some t) /\
  forall s tid layer, tid <> id -> ssrc_index r !! s = Some (tid, layer) ->
    ssrc_index r' !! s = Some (tid, layer) /\ last_pli r' !! s = last_pli r !! s.
Proof.
  intros Hr. destruct (tracks r !! id) as [t|] eqn:Ht; [|unfold unpublish; by rewrite Ht].
  rewrite (unpublish_eq id t) by done. cbv zeta.
  destruct (forget_encodings_spec (encodings t) (set_tracks (delete id (tracks r)) r)) as (Hc & _ & _ & _ & _ & Hi).
  pose proof (forget_encodings_pli (encodings t) (set_tracks (delete id (tracks r)) r)) as Hl.
  match goal with |- context [remove_subscriptions ?ids ?r0] =>
    destruct (remove_subscriptions_same ids r0) as (Hc' & Hl' & Hi') end.
  rewrite Hc', Hl', Hi'. cbn in *. split_and!; [done| |].
  - intros s u. rewrite Hl. by case_decide.
  - intros s tid layer Hne Hs. rewrite Hl, Hi, !decide_False; [done|..];
      (intros (e & -> & He)%list_elem_of_fmap;
       assert (ssrc_index r !! enc_ssrc e = Some (id, spatial_layer e)) by (apply (ro_ssrc _ Hr); eauto 10); congruence).
Qed.

Lemma unpublish_pli id r t : tracks r !! id = Some t -> forall e, e ∈ encodings t ->
  last_pli (unpublish id r).1 !! enc_ssrc e = None.
Proof.
  intros Ht e He. rewrite (unpublish_eq id t) by done. cbv zeta.
  match goal with |- context [remove_subscriptions ?ids ?r0] =>
    destruct (remove_subscriptions_same ids r0) as (_ & -> & _) end.
  cbn. rewrite forget_encodings_pli, decide_True; [done|]. by apply list_elem_of_fmap_2.
Qed.

Section Paced.
Context {hash_order : HashOrder} (config : RoomConfig) (tid : TrackId) (ssrc : Z).

Lemma exec_pacing now c r log : room_ok r -> pacing config tid ssrc now r log -> now <= default now (call_time c) ->
  c <> Unpublish tid ->
  pacing config tid ssrc (default now (call_time c)) (exec c r).1 (log ++ logged (default now (call_time c)) (exec c r).2).
Proof.
  intros Hr Hp Hnow Hc. apply (pacing_later _ _ _ _ (default now (call_time c))) in Hp; [|done].
  destruct c as [t|id|c|id|at_ who id layer|at_ who input|at_ who input]; cbn [exec call_time default] in *.
  - cbn. rewrite app_nil_r. destruct (publish_keeps t r) as (H1 & H2 & H3).
    eapply pacing_ext; [done|done|by rewrite H2|]. rewrite H2. eauto.
  - cbn. rewrite app_nil_r. destruct (unpublish_keeps id r Hr) as (H1 & H2 & H3).
    eapply pacing_ext; [done|done|done|]. intros layer u Hi Hu.
    destruct (H3 ssrc tid layer) as [-> ->]; [|done..]. congruence.
  - cbn. rewrite app_nil_r. destruct (subscribe_same c r) as (H1 & H2 & H3). eapply pacing_ext; [done|done|..]; by rewrite H2, ?H3.
  - cbn. rewrite app_nil_r. destruct (remove_subscription_same id r) as (H1 & H2 & H3).
    eapply pacing_ext; [done|done|..]; unfold unsubscribe; by rewrite H2, ?H3.
  - pose proof (pacing_set_target_layer config tid ssrc at_ who id layer r log Hr Hp). by destruct (set_target_layer _ _ _ _ r).
  - pose proof (pacing_handle_rtp config tid ssrc at_ who input r log Hr Hp). by destruct (handle_rtp _ _ _ r).
  - pose proof (pacing_handle_rtcp config tid ssrc at_ who input r log Hr Hp). by destruct (handle_rtcp _ _ _ r).
Qed.

Lemma run_pacing calls now r log : room_ok r -> pacing config tid ssrc now r log -> chronological now calls ->
  Forall call_typed calls -> Unpublish tid ∉ calls ->
  paced tid ssrc (pli_throttle config) (log ++ (run now r calls).2).
Proof.
  revert now r log. induction calls as [|c calls IH]; intros now r log Hr Hp Hch Hty Hun; cbn [run].
  { rewrite app_nil_r. apply Hp. }
  destruct Hch as [Hnow Hch]. apply Forall_cons in Hty as [Hc Hty]. apply not_elem_of_cons in Hun as [Hne Hun].
  pose proof (exec_pacing now c r log Hr Hp Hnow (not_eq_sym Hne)) as Hp'. pose proof (exec_ok c r Hc Hr) as Hr'.
  destruct (exec c r) as [r1 es]. cbn [fst snd] in *. specialize (IH _ _ _ Hr' Hp' Hch Hty Hun).
  rewrite <- app_assoc in IH. by destruct (run _ r1 calls).
Qed.

(** the publisher is never flooded with key-frame requests.  From [Room::new], over any
    calls with a clock that does not go back, two picture-loss indications for one encoding
    of a track are at least [pli_throttle] apart, as long as that track is not unpublished. *)
Theorem pli_throttled start calls i j t1 t2 : limits_typed config -> chronological start calls ->
  Forall call_typed calls -> Unpublish tid ∉ calls -> (i < j)%nat ->
  (run start (new config) calls).2 !! i = Some (t1, PictureLossIndication tid ssrc) ->
  (run start (new config) calls).2 !! j = Some (t2, PictureLossIndication tid ssrc) ->
  t1 + pli_throttle config <= t2.
Proof.
  intros Hl Hch Hty Hun. apply (run_pacing calls start (new config) []); [by apply new_room_ok| |done..].
  split; [done|..]; cbn; [by intros s t Hs; rewrite lookup_empty in Hs|by intros t Ht%not_elem_of_nil|].
  by intros a b u v _ Ha.
Qed.
End Paced.

(** unpublishing a track leaves nothing of it behind: its SSRCs, its key-frame clock and
    every subscription to it (with the output SSRC) are gone, the other tracks and their
    subscriptions are untouched, and the room stays consistent. *)
Theorem unpublish_complete id r t : room_ok r -> tracks r !! id = Some t ->
  let '(r', found) := unpublish id r in
  found = true /\ room_ok r' /\ tracks r' = delete id (tracks r) /\
  (forall s layer, ssrc_index r' !! s <> Some (id, layer)) /\
  (forall e, e ∈ encodings t -> last_pli r' !! enc_ssrc e = None) /\
  (forall sid d, subscriptions r' !! sid = Some d <->
     subscriptions r !! sid = Some d /\ sub_track_id (configuration d) <> id).
Proof.
  intros Hr Ht. pose proof (unpublish_ok id r Hr) as Hr'. pose proof (unpublish_effect id t r Hr Ht) as [_ Htr _ _ Hs _].
  pose proof (unpublish_pli id r t Ht) as Hp.
  assert ((unpublish id r).2 = true) as Hf by (unfold unpublish; rewrite Ht; cbv zeta; by case_match).
  destruct (unpublish id r) as [r' found]. cbn [fst snd] in *. split_and!; try done.
  intros s layer (t' & e & Ht' & _)%(ro_ssrc _ Hr'). by rewrite Htr, lookup_delete_eq in Ht'.
Qed.


(** ** A concrete run: two packets while a subscriber waits for a key frame *)
Definition example_run : list Call :=
  example_calls ++ [HandleRtp 5 1 (DownTrack.example_input 1); HandleRtp 400000000 1 (DownTrack.example_input 2);
    HandleRtp 500000005 1 (DownTrack.example_input 3)].

Lemma pli_throttled_witness : exists t1 t2,
  (run 0 (new default_room_config) example_run).2 !! 1%nat = Some (t1, PictureLossIndication 9 6) /\
  (run 0 (new default_room_config) example_run).2 !! 2%nat = Some (t2, PictureLossIndication 9 6) /\
  t1 + 500000000 <= t2.
Proof.
  eexists _, _. split; [vm_compute; reflexivity|]. split; [vm_compute; reflexivity|].
  apply (pli_throttled default_room_config 9 6 0 example_run 1 2).
  - unfold limits_typed. eval_facts.
  - cbn. eval_facts.
  - repeat constructor; unfold call_typed, track_typed, config_typed, rust_slice, bytes_ok; eval_facts.
  - intros H. unfold example_run, example_calls in H. cbn in H.
    repeat (apply elem_of_cons in H as [H|H]; [discriminate H|]). by apply not_elem_of_nil in H.
  - lia.
  - vm_compute. reflexivity.
  - vm_compute. reflexivity.
Defined.

Lemma unpublish_complete_witness : tracks (unpublish 9 example_room).1 = delete 9 (tracks example_room).
Proof.
  pose proof (unpublish_complete 9 example_room DownTrack.example_track example_room_ok
    ltac:(vm_compute; reflexivity)) as H.
  destruct (unpublish 9 example_room) as [r' found]. exact (proj1 (proj2 (proj2 H))).
Defined.
