(* ===== verification/BandwidthEstimator.v ===== *)
(** * webrtc/congestion-control: the TWCC bandwidth estimator (src/estimator.rs)

    The bounded send history, the matching of feedback against it, and the additive-
    increase multiplicative-decrease target.  Times are nanoseconds.  Signed 64-bit
    arithmetic that the source leaves unchecked is checked here: an overflow is [Panic],
    which is what it is in a build with overflow checks. *)
From S2P Require Import Prelude Words Slices.
From S2P Require RtcpModel.
Import RtcpModel (TwccStatus, NotReceived, ReceivedSmallDelta, ReceivedLargeDelta,
  TransportWideFeedback, base_sequence_number, statuses).

Abbreviation Duration := Z.
Definition as_micros (d : Duration) : Z := d / 1000.
Definition as_millis (d : Duration) : Z := d / 1000000.

Record SentPacket := { sequence_number : Z; sent_at : Duration; size_bytes : Z }.

Inductive BandwidthUsage := Underusing | Normal | Overusing.
#[export] Instance BandwidthUsage_eq_dec : EqDecision BandwidthUsage.
Proof. solve_decision. Defined.

Record Estimate := {
  est_target_bitrate_bps : Z;
  est_delivery_rate_bps : Z;
  est_loss_per_mille : Z;
  est_delay_trend_micros : Z;
  usage : BandwidthUsage;
  matched_packets : Z }.

Record BandwidthEstimatorConfig := {
  initial_bitrate_bps : Z;
  minimum_bitrate_bps : Z;
  maximum_bitrate_bps : Z;
  history_packets : Z;
  history_age : Duration }.

Definition default_estimator_config : BandwidthEstimatorConfig := {|
  initial_bitrate_bps := 800000;
  minimum_bitrate_bps := 50000;
  maximum_bitrate_bps := 20000000;
  history_packets := 16384;
  history_age := 10 * 10 ^ 9 |}.

Record BandwidthEstimator := {
  est_configuration : BandwidthEstimatorConfig;
  history : list SentPacket;
  target_bitrate_bps : Z;
  delay_trend_micros : Z;
  last_update : option Duration }.

Definition set_history (h : list SentPacket) (e : BandwidthEstimator) : BandwidthEstimator :=
  {| est_configuration := est_configuration e; history := h; target_bitrate_bps := target_bitrate_bps e;
     delay_trend_micros := delay_trend_micros e; last_update := last_update e |}.
Definition set_target (t : Z) (e : BandwidthEstimator) : BandwidthEstimator :=
  {| est_configuration := est_configuration e; history := history e; target_bitrate_bps := t;
     delay_trend_micros := delay_trend_micros e; last_update := last_update e |}.
Definition set_trend (t : Z) (e : BandwidthEstimator) : BandwidthEstimator :=
  {| est_configuration := est_configuration e; history := history e; target_bitrate_bps := target_bitrate_bps e;
     delay_trend_micros := t; last_update := last_update e |}.
Definition set_last_update (t : option Duration) (e : BandwidthEstimator) : BandwidthEstimator :=
  {| est_configuration := est_configuration e; history := history e; target_bitrate_bps := target_bitrate_bps e;
     delay_trend_micros := delay_trend_micros e; last_update := t |}.

(** [Ord::clamp] panics when the bounds are crossed. *)
Definition clamp {E} (x lo hi : Z) : outcome E Z := if lo <=? hi then Ok (Z.max lo (Z.min x hi)) else Panic.

(** Checked and saturating [i64]. *)
Definition i64 {E} (x : Z) : outcome E Z := if (- 2 ^ 63 <=? x) && (x <? 2 ^ 63) then Ok x else Panic.
Definition isat (x : Z) : Z := Z.max (- 2 ^ 63) (Z.min x (2 ^ 63 - 1)).
(** [i64::try_from(u128).unwrap_or(i64::MAX)] *)
Definition i64_or_max (x : Z) : Z := Z.min x (2 ^ 63 - 1).

Definition new (c : BandwidthEstimatorConfig) : outcome Empty_set BandwidthEstimator :=
  target ← clamp (initial_bitrate_bps c) (minimum_bitrate_bps c) (maximum_bitrate_bps c);
  Ok {| est_configuration := c; history := []; target_bitrate_bps := target;
        delay_trend_micros := 0; last_update := None |}.

(** ** Send history *)
Fixpoint expire (now age : Duration) (h : list SentPacket) : list SentPacket :=
  match h with
  | [] => []
  | p :: h' => if age <? saturating_sub now (sent_at p) then expire now age h' else h
  end.
Definition expire_history (now : Duration) (e : BandwidthEstimator) : BandwidthEstimator :=
  set_history (expire now (history_age (est_configuration e)) (history e)) e.

(** [while self.history.len() >= history_packets { self.history.pop_front(); }] *)
Fixpoint drop_oldest (fuel : nat) (bound : Z) (h : list SentPacket) : outcome Empty_set (list SentPacket) :=
  match fuel with
  | O => Diverge
  | S fuel => if bound <=? len h then drop_oldest fuel bound (tail h) else Ok h
  end.

Definition register_sent (fuel : nat) (packet : SentPacket) : prog BandwidthEstimator Empty_set unit :=
  _ ← modify (expire_history (sent_at packet));
  _ ← try_modify (fun e => h ← drop_oldest fuel (history_packets (est_configuration e)) (history e);
                           Ok (set_history h e));
  modify (fun e => if 0 <? history_packets (est_configuration e)
                   then set_history (history e ++ [packet]) e else e).

(** ** Matching feedback *)
Record Observation := { obs_sent_at : Duration; obs_size_bytes : Z; received_at_micros : option Z }.

(** One status: the running receive time, and the receive time of this packet. *)
Definition receive_ticks (ticks : Z) (status : TwccStatus) : outcome Empty_set (Z * option Z) :=
  match status with
  | NotReceived => Ok (ticks, None)
  | ReceivedSmallDelta delta | ReceivedLargeDelta delta => t ← i64 (ticks + delta); Ok (t, Some t)
  end.
Definition ticks_to_micros (ticks : option Z) : outcome Empty_set (option Z) :=
  match ticks with None => Ok None | Some t => Some <$> i64 (t * 250) end.

Fixpoint match_loop (h : list SentPacket) (base offset ticks : Z) (ss : list TwccStatus)
    (observations : list Observation) : outcome Empty_set (list Observation) :=
  match ss with
  | [] => Ok observations
  | status :: ss =>
      let sequence := wrapping_add 16 base (default 0 (try_from 16 offset)) in
      let sent := List.find (fun packet => sequence_number packet =? sequence) (reverse h) in
      '(ticks, received_at_ticks) ← receive_ticks ticks status;
      match sent with
      | Some sent =>
          micros ← ticks_to_micros received_at_ticks;
          match_loop h base (offset + 1) ticks ss
            (observations ++ [{| obs_sent_at := sent_at sent; obs_size_bytes := size_bytes sent;
                                 received_at_micros := micros |}])
      | None => match_loop h base (offset + 1) ticks ss observations
      end
  end.
Definition match_feedback (feedback : TransportWideFeedback) (e : BandwidthEstimator)
    : outcome Empty_set (list Observation) :=
  match_loop (history e) (base_sequence_number feedback) 0 0 (statuses feedback) [].

(** ** Metrics *)
Record Metrics := { delivery_rate_bps : Z; loss_per_mille : Z; delay_sample_micros : option Z }.

Definition delivery_rate (received : list (Observation * Z)) : Z :=
  match head received, last received with
  | Some first, Some last =>
      let receive_span := isat (last.2 - first.2) in
      let send_span := i64_or_max (as_micros (saturating_sub (obs_sent_at last.1) (obs_sent_at first.1))) in
      let span_micros := Z.max (Z.max receive_span send_span) 1 in
      let bytes := foldr Z.add 0 ((fun r => obs_size_bytes r.1) <$> received) in
      default (umax 64) (try_from 64 (saturating_mul 128 bytes 8000000 / span_micros))
  | _, _ => 0
  end.

(** [for pair in received.windows(2)]: the sum and the number of samples. *)
Fixpoint delay_loop (received : list (Observation * Z)) (sum samples : Z) : Z * Z :=
  match received with
  | a :: (b :: _) as rest =>
      let send_delta := i64_or_max (as_micros (saturating_sub (obs_sent_at b.1) (obs_sent_at a.1))) in
      let receive_delta := isat (b.2 - a.2) in
      delay_loop rest (isat (sum + isat (receive_delta - send_delta))) (samples + 1)
  | _ => (sum, samples)
  end.
Definition delay_sample (received : list (Observation * Z)) : option Z :=
  let '(sum, samples) := delay_loop received 0 0 in
  if 0 <? samples then Some (Z.quot sum samples) else None.

Definition calculate_metrics (observations : list Observation) : Metrics :=
  match observations with
  | [] => {| delivery_rate_bps := 0; loss_per_mille := 0; delay_sample_micros := None |}
  | _ =>
      let received := omap (fun o => (fun r => (o, r)) <$> received_at_micros o) observations in
      let lost := len observations - len received in
      {| delivery_rate_bps := delivery_rate received;
         loss_per_mille := default (umax 16) (try_from 16 (saturating_mul 64 lost 1000 / len observations));
         delay_sample_micros := delay_sample received |}
  end.

Definition classify (loss_per_mille delay_trend_micros : Z) : BandwidthUsage :=
  if (100 <? loss_per_mille) || (15000 <? delay_trend_micros) then Overusing
  else if (loss_per_mille <? 20) && (delay_trend_micros <? 5000) then Underusing
  else Normal.

(** ** The target *)
Definition update_target (now : Duration) (delivery_rate_bps : Z) (usage : BandwidthUsage)
    : prog BandwidthEstimator Empty_set unit := fun e =>
  let target := target_bitrate_bps e in
  let target :=
    match usage with
    | Overusing =>
        let baseline := if 0 <? delivery_rate_bps then Z.min target delivery_rate_bps else target in
        saturating_mul 64 baseline 85 / 100
    | Underusing =>
        let elapsed_millis := from_option (fun last =>
          Z.max 1 (Z.min (as_millis (saturating_sub now last)) 5000)) 1000 (last_update e) in
        let per_second := Z.max (target / 20) 10000 in
        let increase := default (umax 64) (try_from 64 (saturating_mul 128 per_second elapsed_millis / 1000)) in
        let target := saturating_add 64 target increase in
        if 0 <? delivery_rate_bps
        then Z.min target (saturating_mul 64 delivery_rate_bps 11 / 10) else target
    | Normal => target
    end in
  let c := est_configuration e in
  match clamp target (minimum_bitrate_bps c) (maximum_bitrate_bps c) with
  | Ok t => (set_target t e, Ok tt)
  | Err x => (set_target target e, Err x)
  | Panic => (set_target target e, Panic)
  | Diverge => (set_target target e, Diverge)
  end.

Definition smooth (trend sample : Z) : outcome Empty_set Z :=
  x ← i64 (trend * 7); y ← i64 (x + sample); Ok (Z.quot y 8).

Definition process_feedback (now : Duration) (feedback : TransportWideFeedback)
    : prog BandwidthEstimator Empty_set Estimate :=
  _ ← modify (expire_history now);
  observations ← (fun e => (e, match_feedback feedback e));
  let metrics := calculate_metrics observations in
  _ ← match delay_sample_micros metrics with
      | Some sample => try_modify (fun e => t ← smooth (delay_trend_micros e) sample; Ok (set_trend t e))
      | None => mret tt
      end;
  trend ← gets delay_trend_micros;
  let usage := classify (loss_per_mille metrics) trend in
  _ ← update_target now (delivery_rate_bps metrics) usage;
  _ ← modify (set_last_update (Some now));
  e ← gets id;
  mret {| est_target_bitrate_bps := target_bitrate_bps e;
          est_delivery_rate_bps := delivery_rate_bps metrics;
          est_loss_per_mille := loss_per_mille metrics;
          est_delay_trend_micros := delay_trend_micros e;
          usage := usage;
          matched_packets := len observations |}.

(** ** Values *)
(** Times of a monotonic clock that has been running for less than 2^59 microseconds. *)
Definition time_ok (d : Duration) : Prop := 0 <= d < 2 ^ 59 * 1000.
Definition packet_ok (p : SentPacket) : Prop := time_ok (sent_at p) /\ usize (size_bytes p).
Definition status_ok (s : TwccStatus) : Prop :=
  match s with
  | NotReceived => True
  | ReceivedSmallDelta delta => u8 delta
  | ReceivedLargeDelta delta => sfits 16 delta
  end.
Definition feedback_ok (f : TransportWideFeedback) : Prop :=
  len (statuses f) <= 65535 /\ Forall status_ok (statuses f).
Definition config_ok (c : BandwidthEstimatorConfig) : Prop :=
  0 <= minimum_bitrate_bps c <= maximum_bitrate_bps c /\ maximum_bitrate_bps c < 2 ^ 64 /\ 0 < history_packets c.

Definition trend_bound : Z := 2 ^ 60 - 1.

Record est_ok (e : BandwidthEstimator) : Prop := {
  eo_config : config_ok (est_configuration e);
  eo_target : minimum_bitrate_bps (est_configuration e) <= target_bitrate_bps e
                <= maximum_bitrate_bps (est_configuration e);
  eo_history : len (history e) <= history_packets (est_configuration e);
  eo_packets : Forall packet_ok (history e);
  eo_trend : - trend_bound <= delay_trend_micros e <= trend_bound }.

Lemma i64_Ok {E} x : - 2 ^ 63 <= x < 2 ^ 63 -> @i64 E x = Ok x.
Proof. intros H. unfold i64. by rewrite (proj2 (Z.leb_le _ _) (proj1 H)), (proj2 (Z.ltb_lt _ _) (proj2 H)). Qed.

Lemma as_micros_bound d : time_ok d -> 0 <= as_micros d < 2 ^ 59.
Proof.
  unfold time_ok, as_micros. intros H. split; [apply Z.div_pos; lia|apply Z.div_lt_upper_bound; lia].
Qed.

(** ** History *)
Lemma expire_history_suffix now age h : exists old, h = old ++ expire now age h.
Proof.
  induction h as [|p h [old IH]]; cbn; [by exists []|]. case_match; [|by exists []].
  exists (p :: old). cbn. by rewrite <- IH.
Qed.

Lemma drop_oldest_Ok fuel bound h : 0 < bound -> (length h < fuel)%nat ->
  exists h' old, drop_oldest fuel bound h = Ok h' /\ h = old ++ h' /\ len h' < bound.
Proof.
  intros Hb. revert h. induction fuel as [|fuel IH]; intros h Hf; [lia|]. cbn [drop_oldest].
  destruct (Z.leb_spec bound (len h)) as [Hl|]; [|by exists h, []].
  destruct h as [|p h]; [rewrite len_nil in Hl; lia|]. cbn [tail length] in *.
  destruct (IH h) as (h' & old & -> & -> & Hlt); [lia|]. by exists h', (p :: old).
Qed.

Lemma suffix_ok (h old h' : list SentPacket) : h = old ++ h' -> Forall packet_ok h -> Forall packet_ok h'.
Proof. intros ->. by intros [_ ?]%Forall_app. Qed.

Lemma suffix_len (h old h' : list SentPacket) : h = old ++ h' -> len h' <= len h.
Proof. intros ->. rewrite len_app. pose_len. lia. Qed.

Lemma expire_history_ok now e : est_ok e -> est_ok (expire_history now e).
Proof.
  intros [H1 H2 H3 H4 H5]. destruct (expire_history_suffix now (history_age (est_configuration e)) (history e)) as [old Ho].
  split; cbn; try done; [|by eapply suffix_ok]. apply suffix_len in Ho. lia.
Qed.

Lemma register_sent_spec fuel p e : est_ok e -> packet_ok p -> (length (history e) < fuel)%nat ->
  exists e' old h', register_sent fuel p e = (e', Ok tt) /\ est_ok e' /\
    history e = old ++ h' /\ e' = set_history (h' ++ [p]) e.
Proof.
  intros He Hp Hf. pose proof (expire_history_ok (sent_at p) e He) as He1.
  destruct (expire_history_suffix (sent_at p) (history_age (est_configuration e)) (history e)) as [old1 Ho1].
  pose proof He as [(_ & _ & Hpos) _ _ _ _].
  destruct (drop_oldest_Ok fuel (history_packets (est_configuration e)) (history (expire_history (sent_at p) e)))
    as (h' & old2 & Hd & Ho2 & Hl); [done| |].
  { cbn. rewrite Ho1, length_app in Hf. lia. }
  exists (set_history (h' ++ [p]) e), (old1 ++ old2), h'.
  split; [|split; [|split; [|done]]].
  - unfold register_sent, mbind, prog_bind, modify, try_modify. cbn [est_configuration expire_history set_history].
    rewrite Hd. cbn -[Z.ltb]. by rewrite (proj2 (Z.ltb_lt _ _) Hpos).
  - destruct He as [H1 H2 H3 H4 H5]. split; cbn; try done.
    + rewrite len_app, len_cons, len_nil. lia.
    + apply Forall_app. split; [|by constructor]. eapply suffix_ok; [exact Ho2|]. apply He1.
  - rewrite <- app_assoc, <- Ho2. exact Ho1.
Qed.

(** ** Matching *)
Definition obs_ok (o : Observation) : Prop :=
  time_ok (obs_sent_at o) /\ usize (obs_size_bytes o) /\
  forall r, received_at_micros o = Some r -> - 2 ^ 40 <= r <= 2 ^ 40.

Lemma receive_ticks_Ok ticks s n : status_ok s -> - (n * 32768) <= ticks <= n * 32768 -> 0 <= n <= 65535 ->
  exists t r, receive_ticks ticks s = Ok (t, r) /\ - ((n + 1) * 32768) <= t <= (n + 1) * 32768 /\
    (forall x, r = Some x -> x = t).
Proof.
  intros Hs Ht Hn. destruct s as [|d|d]; cbn [receive_ticks status_ok] in *; width.
  - exists ticks, None. split_and!; [done|lia..|done].
  - rewrite i64_Ok by mlia. eexists _, _. split; [reflexivity|]. split; [lia|]. by intros x [= <-].
  - rewrite i64_Ok by mlia. eexists _, _. split; [reflexivity|]. split; [lia|]. by intros x [= <-].
Qed.

Lemma ticks_to_micros_Ok t r n : (forall x, r = Some x -> x = t) -> - (n * 32768) <= t <= n * 32768 ->
  0 <= n <= 65536 -> exists m, ticks_to_micros r = Ok m /\ forall x, m = Some x -> - 2 ^ 40 <= x <= 2 ^ 40.
Proof.
  intros Hr Ht Hn. destruct r as [x|]; cbn [ticks_to_micros]; [|by exists None].
  rewrite (Hr x eq_refl), i64_Ok by mlia. eexists. split; [reflexivity|]. intros y [= <-]. mlia.
Qed.

Lemma match_loop_Ok h base offset ticks ss acc : Forall packet_ok h -> Forall status_ok ss ->
  0 <= offset -> offset + len ss <= 65535 -> - (offset * 32768) <= ticks <= offset * 32768 ->
  exists os, match_loop h base offset ticks ss acc = Ok (acc ++ os) /\ len os <= len ss /\ Forall obs_ok os.
Proof.
  intros Hh Hss. revert offset ticks acc. induction Hss as [|s ss Hs _ IH]; intros offset ticks acc H0 Hl Ht.
  { exists []. cbn [match_loop]. rewrite app_nil_r. by split_and!. }
  rewrite len_cons in *. pose proof (len_nonneg ss) as Hn. cbn [match_loop].
  destruct (receive_ticks_Ok ticks s offset Hs Ht) as (t & r & -> & Ht' & Hr); [lia|]. cbn [mbind outcome_bind].
  destruct (List.find _ _) as [p|] eqn:Hf.
  - destruct (ticks_to_micros_Ok t r (offset + 1) Hr Ht') as (m & -> & Hm); [lia|]. cbn [mbind outcome_bind].
    edestruct (IH (offset + 1) t) as (os & -> & Hlen & Hos); [lia..|]. rewrite <- app_assoc. cbn [app].
    eexists (_ :: os). split; [reflexivity|]. rewrite len_cons. split; [lia|]. constructor; [|done].
    apply List.find_some in Hf as [Hin _]. rewrite <- list_elem_of_In, elem_of_reverse in Hin.
    rewrite (@Forall_forall SentPacket) in Hh. destruct (Hh p Hin). done.
  - destruct (IH (offset + 1) t acc) as (os & -> & Hlen & Hos); [lia..|]. exists os. split_and!; [done|lia|done].
Qed.

(** ** The delay trend *)
Lemma isat_abs x b : 0 <= b -> - b <= x <= b -> - b <= isat x <= b.
Proof. unfold isat. mlia. Qed.

Definition pair_ok (r : Observation * Z) : Prop := obs_ok r.1 /\ received_at_micros r.1 = Some r.2.
Definition sample_bound : Z := 2 ^ 59 + 2 ^ 41.

Lemma pair_sample a b : pair_ok a -> pair_ok b ->
  - sample_bound <= isat (isat (b.2 - a.2) -
      i64_or_max (as_micros (saturating_sub (obs_sent_at b.1) (obs_sent_at a.1)))) <= sample_bound.
Proof.
  intros [(Ha & _ & Har) Hra] [(Hb & _ & Hbr) Hrb]. specialize (Har _ Hra). specialize (Hbr _ Hrb).
  assert (time_ok (saturating_sub (obs_sent_at b.1) (obs_sent_at a.1))) as Ht
    by (unfold time_ok, saturating_sub in *; lia).
  apply as_micros_bound in Ht. apply isat_abs; [by unfold sample_bound|].
  pose proof (isat_abs (b.2 - a.2) (2 ^ 41)). unfold i64_or_max, sample_bound in *. mlia.
Qed.

Lemma delay_loop_bound received sum samples : Forall pair_ok received -> 0 <= samples ->
  - (samples * sample_bound) <= sum <= samples * sample_bound ->
  let '(sum', samples') := delay_loop received sum samples in
  samples <= samples' /\ - (samples' * sample_bound) <= sum' <= samples' * sample_bound.
Proof.
  intros Hr. revert sum samples. induction Hr as [|a received Ha Hr IH]; intros sum samples H0 Hs; cbn [delay_loop]; [lia|].
  destruct Hr as [|b received Hb Hr]; [lia|]. pose proof (pair_sample a b Ha Hb) as Hab.
  set (d := isat (_ - i64_or_max _)) in *.
  specialize (IH (isat (sum + d)) (samples + 1)). destruct (delay_loop _ _ _) as [sum' samples'].
  assert (0 <= (samples + 1) * sample_bound) by (unfold sample_bound; lia).
  destruct IH as [? ?]; [lia|apply isat_abs; lia|]. lia.
Qed.

Lemma delay_sample_bound received s : Forall pair_ok received -> delay_sample received = Some s ->
  - sample_bound <= s <= sample_bound.
Proof.
  intros Hr H. unfold delay_sample in H. pose proof (delay_loop_bound received 0 0 Hr) as Hb.
  destruct (delay_loop received 0 0) as [sum samples]. destruct Hb as [_ Hb]; [lia..|].
  case_match; [|done]. injection H as <-.
  assert (0 < samples) by lia. assert (0 <= sample_bound) by (by unfold sample_bound).
  pose proof (Z.quot_abs sum samples ltac:(lia)) as Habs.
  assert (Z.abs sum ÷ Z.abs samples <= sample_bound); [|lia].
  apply Z.quot_le_upper_bound; lia.
Qed.

Lemma smooth_Ok trend sample : - trend_bound <= trend <= trend_bound -> - sample_bound <= sample <= sample_bound ->
  exists t, smooth trend sample = Ok t /\ - trend_bound <= t <= trend_bound.
Proof.
  unfold trend_bound, sample_bound. intros Ht Hs. unfold smooth.
  rewrite i64_Ok by mlia. cbn [mbind outcome_bind]. rewrite i64_Ok by mlia. cbn [mbind outcome_bind].
  eexists. split; [reflexivity|]. zdiv.
Qed.

(** ** Metrics *)
Definition received_of (os : list Observation) : list (Observation * Z) :=
  omap (fun o => (fun r => (o, r)) <$> received_at_micros o) os.

Lemma received_ok os : Forall obs_ok os -> Forall pair_ok (received_of os) /\ len (received_of os) <= len os.
Proof.
  induction 1 as [|o os Ho _ [IH1 IH2]]; [split; [constructor|done]|]. unfold received_of in *. cbn [omap list_omap].
  rewrite len_cons. destruct (received_at_micros o) as [r|] eqn:Hr; cbn [fmap option_fmap option_map]; [|split; [done|lia]].
  rewrite len_cons. split; [by constructor|lia].
Qed.

Record metrics_ok (m : Metrics) : Prop := {
  mo_delivery : u64 (delivery_rate_bps m);
  mo_loss : 0 <= loss_per_mille m <= 1000;
  mo_delay s : delay_sample_micros m = Some s -> - sample_bound <= s <= sample_bound }.

Lemma rate_u64 x y : 0 <= x -> 0 < y -> u64 (default (umax 64) (try_from 64 (saturating_mul 128 x 8000000 / y))).
Proof.
  intros Hx Hy. unfold try_from. destruct (_ && _) eqn:H; cbn [from_option]; unfold id; [mlia|by vm_compute].
Qed.

Lemma sum_sizes_nonneg r : Forall pair_ok r -> 0 <= foldr Z.add 0 ((fun r => obs_size_bytes r.1) <$> r).
Proof. induction 1 as [|x r [(_ & Hs & _) _] _ IH]; cbn; [lia|]. width. lia. Qed.

Lemma delivery_rate_u64 r : Forall pair_ok r -> u64 (delivery_rate r).
Proof.
  intros Hr. unfold delivery_rate. destruct (head r), (last r); [|by vm_compute..].
  apply rate_u64; [by apply sum_sizes_nonneg|lia].
Qed.

Lemma loss_bound lost n : 0 <= lost <= n -> 0 < n ->
  0 <= default (umax 16) (try_from 16 (saturating_mul 64 lost 1000 / n)) <= 1000.
Proof.
  intros Hl Hn. assert (0 <= saturating_mul 64 lost 1000 / n <= 1000) as H.
  { unfold saturating_mul. split; [apply Z.div_pos; mlia|]. apply Z.div_le_upper_bound; lia. }
  rewrite try_from_fits by mlia. exact H.
Qed.

Lemma calculate_metrics_ok os : Forall obs_ok os -> metrics_ok (calculate_metrics os).
Proof.
  intros Hos. destruct (received_ok os Hos) as [Hr Hl]. destruct os as [|o os]; [by split; cbn|].
  unfold calculate_metrics. fold (received_of (o :: os)). pose proof (len_nonneg (received_of (o :: os))) as H0.
  pose proof (len_nonneg os) as H1.
  split; cbn [delivery_rate_bps loss_per_mille delay_sample_micros].
  - by apply delivery_rate_u64.
  - apply loss_bound; rewrite len_cons in *; lia.
  - intros s. by apply delay_sample_bound.
Qed.

(** ** The controller *)
(** What one update may do to a target [t], with floor [lo] and delivery rate [d]. *)
Definition aimd (lo t d : Z) (u : BandwidthUsage) (t' : Z) : Prop :=
  match u with
  | Overusing => t' <= Z.max lo (t * 85 / 100) /\ (0 < d -> t' <= Z.max lo (d * 85 / 100))
  | Normal => t' = t
  | Underusing => t' <= Z.max lo (t + 5 * Z.max (t / 20) 10000) /\
      (0 < d -> t' <= Z.max lo (d * 11 / 10)) /\ (d = 0 -> t <= t')
  end.

Lemma sat_mul_div x y w a b : 0 <= x <= y -> 0 < b -> 0 <= a -> saturating_mul w x a / b <= y * a / b.
Proof. intros H Hb Ha. unfold saturating_mul. apply Z.div_le_mono; [done|]. nia. Qed.

Lemma increase_bound ps ms : 0 < ps -> 1 <= ms <= 5000 ->
  let inc := default (umax 64) (try_from 64 (saturating_mul 128 ps ms / 1000)) in
  0 <= inc /\ inc <= 5 * ps.
Proof.
  intros Hp Hm. cbv zeta. set (v := saturating_mul 128 ps ms / 1000).
  assert (0 <= v <= 5 * ps) as Hv.
  { unfold v, saturating_mul. split; [apply Z.div_pos; [|lia]; width; nia|]. apply Z.div_le_upper_bound; [lia|]. nia. }
  unfold try_from. destruct (_ && _) eqn:Hc; cbn [from_option]; unfold id; [lia|]. mlia.
Qed.

Lemma elapsed_bound now last : 1 <= from_option (fun last =>
  Z.max 1 (Z.min (as_millis (saturating_sub now last)) 5000)) 1000 last <= 5000.
Proof. destruct last; cbn [from_option]; lia. Qed.

Lemma update_target_spec now d u e : est_ok e -> u64 d ->
  exists t, update_target now d u e = (set_target t e, Ok tt) /\
    minimum_bitrate_bps (est_configuration e) <= t <= maximum_bitrate_bps (est_configuration e) /\
    aimd (minimum_bitrate_bps (est_configuration e)) (target_bitrate_bps e) d u t.
Proof.
  intros [(Hlo & Hhi & _) Ht _ _ _] Hd. unfold update_target. set (c := est_configuration e) in *.
  set (x := match u with Overusing => _ | Normal => _ | Underusing => _ end).
  unfold clamp. rewrite (proj2 (Z.leb_le _ _) (proj2 Hlo)).
  eexists. split; [reflexivity|]. split; [lia|]. destruct u; cbn [aimd]; unfold x; clear x.
  - pose proof (elapsed_bound now (last_update e)) as Hms. set (ms := from_option _ _ (last_update e)) in *.
    destruct (increase_bound (Z.max (target_bitrate_bps e / 20) 10000) ms) as [Hi0 Hi]; [lia..|].
    set (inc := default _ _) in *. unfold saturating_add.
    pose proof (sat_mul_div d d 64 11 10) as Hs. destruct (Z.ltb_spec 0 d); width; split_and!; lia.
  - lia.
  - pose proof (sat_mul_div (target_bitrate_bps e) (target_bitrate_bps e) 64 85 100) as Hs.
    pose proof (fun y => sat_mul_div (Z.min (target_bitrate_bps e) d) y 64 85 100) as Hs'.
    pose proof (Hs' d). pose proof (Hs' (target_bitrate_bps e)). destruct (Z.ltb_spec 0 d); width; split; lia.
Qed.

(** The effect of one report. *)
Record responds (e : BandwidthEstimator) (feedback : TransportWideFeedback) (e' : BandwidthEstimator)
    (r : Estimate) : Prop := {
  rs_ok : est_ok e';
  rs_config : est_configuration e' = est_configuration e;
  rs_target : est_target_bitrate_bps r = target_bitrate_bps e';
  rs_loss : 0 <= est_loss_per_mille r <= 1000;
  rs_matched : matched_packets r <= len (statuses feedback);
  rs_usage : usage r = classify (est_loss_per_mille r) (est_delay_trend_micros r);
  rs_aimd : aimd (minimum_bitrate_bps (est_configuration e)) (target_bitrate_bps e)
              (est_delivery_rate_bps r) (usage r) (target_bitrate_bps e') }.

Lemma process_feedback_spec now feedback e : est_ok e -> feedback_ok feedback ->
  exists e' r, process_feedback now feedback e = (e', Ok r) /\ responds e feedback e' r.
Proof.
  intros He [Hl Hst]. pose proof (expire_history_ok now e He) as He1. set (e1 := expire_history now e) in *.
  destruct (match_loop_Ok (history e1) (base_sequence_number feedback) 0 0 (statuses feedback) [])
    as (os & Hm & Hlen & Hos); [apply He1|done|lia..|]. cbn [app] in Hm.
  pose proof (calculate_metrics_ok os Hos) as [Hd Hloss Hdelay]. set (m := calculate_metrics os) in *.
  assert (exists trend, - trend_bound <= trend <= trend_bound /\
    (match delay_sample_micros m with
     | Some sample => try_modify (fun e => t ← smooth (delay_trend_micros e) sample; Ok (set_trend t e))
     | None => mret tt
     end : prog BandwidthEstimator Empty_set unit) e1 = (set_trend trend e1, Ok tt)) as (trend & Htr & Hsm).
  { destruct (delay_sample_micros m) as [s|].
    - destruct (smooth_Ok (delay_trend_micros e1) s (eo_trend _ He1) (Hdelay s eq_refl)) as (t & Ht & Hb).
      exists t. split; [done|]. unfold try_modify. by rewrite Ht.
    - exists (delay_trend_micros e1). split; [apply He1|]. by destruct e1. }
  assert (est_ok (set_trend trend e1)) as He2 by (destruct He1; by split).
  set (u := classify (loss_per_mille m) trend).
  destruct (update_target_spec now (delivery_rate_bps m) u (set_trend trend e1) He2 Hd) as (t & Hu & Hb & Ha).
  unfold process_feedback. rewrite (prog_step _ _ e e1 tt) by done.
  rewrite (prog_step _ _ e1 e1 os) by (unfold match_feedback; by rewrite Hm). cbv zeta. fold m.
  rewrite (prog_step _ _ _ _ _ Hsm), (prog_step _ _ _ (set_trend trend e1) trend) by done. fold u.
  rewrite (prog_step _ _ _ _ _ Hu).
  eexists _, _. split; [reflexivity|]. split; cbn; try done. destruct He1. by split.
Qed.

(** ** Runs of the estimator *)
Inductive Input :=
| Sent (packet : SentPacket)
| Feedback (now : Duration) (feedback : TransportWideFeedback).
Definition input_ok (i : Input) : Prop :=
  match i with Sent p => packet_ok p | Feedback _ f => feedback_ok f end.

Fixpoint run (e : BandwidthEstimator) (inputs : list Input) : outcome Empty_set (BandwidthEstimator * list Estimate) :=
  match inputs with
  | [] => Ok (e, [])
  | Sent p :: inputs =>
      match register_sent (S (length (history e))) p e with
      | (e, Ok _) => run e inputs
      | (_, Err x) => match x with end
      | (_, Panic) => Panic
      | (_, Diverge) => Diverge
      end
  | Feedback now f :: inputs =>
      match process_feedback now f e with
      | (e, Ok r) => '(e, rs) ← run e inputs; Ok (e, r :: rs)
      | (_, Err x) => match x with end
      | (_, Panic) => Panic
      | (_, Diverge) => Diverge
      end
  end.

Definition within (c : BandwidthEstimatorConfig) (r : Estimate) : Prop :=
  minimum_bitrate_bps c <= est_target_bitrate_bps r <= maximum_bitrate_bps c.

Lemma run_spec e inputs : est_ok e -> Forall input_ok inputs ->
  exists e' rs, run e inputs = Ok (e', rs) /\ est_ok e' /\ Forall (within (est_configuration e)) rs.
Proof.
  intros He Hin. revert e He. induction Hin as [|i inputs Hi _ IH]; intros e He; cbn [run].
  { by exists e, []. }
  destruct i as [p|now f].
  - destruct (register_sent_spec (S (length (history e))) p e He Hi) as (e' & old & h' & -> & He' & _ & Heq); [lia|].
    destruct (IH e' He') as (e2 & rs & -> & ? & Hrs). exists e2, rs. by rewrite Heq in Hrs.
  - destruct (process_feedback_spec now f e He Hi) as (e' & r & -> & Hr). destruct Hr as [He' Hc Ht _ _ _ _].
    destruct (IH e' He') as (e2 & rs & -> & ? & Hrs). cbn [mbind outcome_bind]. exists e2, (r :: rs).
    split_and!; [done..|]. constructor; [|by rewrite <- Hc]. unfold within. rewrite Ht, <- Hc. apply He'.
Qed.


(** the controller is additive-increase, multiplicative-decrease.  Overuse cuts the
    target to at most 85% of itself and of the delivered rate; normal use keeps it; underuse
    raises it by at most 5% (or 10 kb/s) per second over at most five seconds and never past
    110% of the delivered rate; the floor always holds.  The classification is the one of
    the loss and the delay trend it reports. *)
Theorem feedback_response now feedback e : est_ok e -> feedback_ok feedback ->
  exists e' r, process_feedback now feedback e = (e', Ok r) /\ responds e feedback e' r.
Proof. apply process_feedback_spec. Qed.

(** a history of size zero is accepted by the configuration and then hangs the sender:
    [register_sent] never comes back, however long it is left running. *)
Theorem zero_history_hangs fuel packet e : history_packets (est_configuration e) = 0 ->
  (register_sent fuel packet e).2 = Diverge.
Proof.
  intros H0. unfold register_sent, mbind, prog_bind, modify, try_modify. cbn [est_configuration expire_history set_history].
  rewrite H0. assert (forall h, drop_oldest fuel 0 h = Diverge) as Hd.
  { induction fuel as [|fuel IH]; intros h; [done|]. cbn [drop_oldest]. rewrite (proj2 (Z.leb_le _ _) (len_nonneg h)). apply IH. }
  by rewrite Hd.
Qed.

(** ** A concrete exchange *)
Definition example_sent (n : Z) : SentPacket :=
  {| sequence_number := n; sent_at := n * 10000000; size_bytes := 1000 |}.
Definition example_feedback : TransportWideFeedback :=
  {| RtcpModel.tw_sender_ssrc := 1; RtcpModel.tw_media_ssrc := 2; RtcpModel.base_sequence_number := 0;
     RtcpModel.reference_time := 0; RtcpModel.feedback_packet_count := 0;
     RtcpModel.statuses := [ReceivedSmallDelta 40; NotReceived; ReceivedLargeDelta 300] |}.
Definition example_inputs : list Input :=
  [Sent (example_sent 0); Sent (example_sent 1); Sent (example_sent 2); Feedback 100000000 example_feedback].


Definition example_estimator : BandwidthEstimator :=
  {| est_configuration := default_estimator_config; history := [example_sent 0; example_sent 1; example_sent 2];
     target_bitrate_bps := 800000; delay_trend_micros := 0; last_update := None |}.

Lemma feedback_response_witness : exists e' r,
  process_feedback 100000000 example_feedback example_estimator = (e', Ok r) /\
  usage r = Overusing /\ target_bitrate_bps e' <= 680000.
Proof.
  destruct (feedback_response 100000000 example_feedback example_estimator) as (e' & r & H & Hr).
  - split; [unfold config_ok; eval_facts|cbn; eval_facts|cbn; eval_facts| |unfold trend_bound; cbn; eval_facts].
    repeat constructor; unfold time_ok; eval_facts.
  - split; [eval_facts|]. repeat constructor; unfold status_ok, sfits; eval_facts.
  - exists e', r. split; [exact H|]. assert (usage r = Overusing) as Hu.
    { vm_compute in H. injection H as _ <-. reflexivity. }
    split; [exact Hu|]. pose proof (rs_aimd _ _ _ _ Hr) as Ha. rewrite Hu in Ha. exact (proj1 Ha).
Defined.

Lemma zero_history_hangs_witness :
  (register_sent 1000 (example_sent 0) {| est_configuration :=
     {| initial_bitrate_bps := 1; minimum_bitrate_bps := 1; maximum_bitrate_bps := 1; history_packets := 0;
        history_age := 1 |}; history := []; target_bitrate_bps := 1; delay_trend_micros := 0;
     last_update := None |}).2 = Diverge.
Proof. apply zero_history_hangs. reflexivity. Defined.
