(* ===== verification/LayerSelector.v ===== *)
(** * webrtc/congestion-control: layer selection (src/layer.rs)

    The allocator that turns a target bitrate into a layer, with immediate downgrades and
    delayed upgrades. *)
From stdpp Require Import sorting.
From S2P Require Import Prelude Words Slices SfuModel.

Record LayerOption := { layer : Layer; minimum_bitrate_bps : Z }.
#[export] Instance LayerOption_eq_dec : EqDecision LayerOption.
Proof. solve_decision. Defined.

Record LayerSelector := {
  current : option Layer;
  upgrade_candidate : option (Layer * Duration);
  upgrade_hold : Duration;
  upgrade_headroom_percent : Z }.

(** [LayerSelector::default]. *)
Definition default_selector : LayerSelector := {|
  current := None; upgrade_candidate := None; upgrade_hold := 2 * 10 ^ 9; upgrade_headroom_percent := 120 |}.

Definition set_current (l : option Layer) (s : LayerSelector) : LayerSelector :=
  {| current := l; upgrade_candidate := upgrade_candidate s; upgrade_hold := upgrade_hold s;
     upgrade_headroom_percent := upgrade_headroom_percent s |}.
Definition set_candidate (c : option (Layer * Duration)) (s : LayerSelector) : LayerSelector :=
  {| current := current s; upgrade_candidate := c; upgrade_hold := upgrade_hold s;
     upgrade_headroom_percent := upgrade_headroom_percent s |}.

(** [sort_unstable_by_key]: the order of options with the same bitrate is unspecified. *)
Definition by_rate (a b : LayerOption) : Prop := minimum_bitrate_bps a <= minimum_bitrate_bps b.
Class UnstableSort := {
  sort_unstable : list LayerOption -> list LayerOption;
  sort_perm l : sort_unstable l ≡ₚ l;
  sort_sorted l : StronglySorted by_rate (sort_unstable l) }.

Definition layer_rate (options : list LayerOption) (l : Layer) : option Z :=
  minimum_bitrate_bps <$> List.find (fun option => bool_decide (layer option = l)) options.

(** The best option within the target, or the cheapest one. *)
Definition affordable (sorted : list LayerOption) (target : Z) : option LayerOption :=
  match List.find (fun option => minimum_bitrate_bps option <=? target) (reverse sorted) with
  | Some option => Some option
  | None => head sorted
  end.

Section Select.
Context {unstable_sort : UnstableSort}.

Definition select (now : Duration) (options : list LayerOption) (target_bitrate_bps : Z) (self : LayerSelector)
    : LayerSelector * option Layer :=
  let sorted := sort_unstable options in
  match affordable sorted target_bitrate_bps with
  | None => (self, None)
  | Some affordable =>
      match current self with
      | None => let self := set_current (Some (layer affordable)) self in (self, current self)
      | Some c =>
          let current_rate := default (umax 64) (layer_rate sorted c) in
          let affordable_rate := minimum_bitrate_bps affordable in
          if affordable_rate <? current_rate then
            let self := set_candidate None (set_current (Some (layer affordable)) self) in (self, current self)
          else if affordable_rate =? current_rate then
            let self := set_candidate None self in (self, current self)
          else
            let required := saturating_mul 64 affordable_rate (upgrade_headroom_percent self) / 100 in
            if target_bitrate_bps <? required then
              let self := set_candidate None self in (self, current self)
            else
              let self :=
                match upgrade_candidate self with
                | Some (l, since) =>
                    if bool_decide (l = layer affordable) && (upgrade_hold self <=? saturating_sub now since)
                    then set_candidate None (set_current (Some (layer affordable)) self)
                    else if bool_decide (l = layer affordable) then self
                    else set_candidate (Some (layer affordable, now)) self
                | None => set_candidate (Some (layer affordable, now)) self
                end in
              (self, current self)
      end
  end.
End Select.

(** ** The affordable option *)
Definition options_ok (options : list LayerOption) : Prop :=
  NoDup (layer <$> options) /\ Forall (fun o => 0 <= minimum_bitrate_bps o < umax 64) options.

Lemma sorted_head_least l o : StronglySorted by_rate l -> head l = Some o ->
  forall x, x ∈ l -> minimum_bitrate_bps o <= minimum_bitrate_bps x.
Proof.
  intros [|a l' _ Hf]; [done|]. cbn. intros [= <-] x [->|Hx]%elem_of_cons; [lia|].
  rewrite (@Forall_forall LayerOption) in Hf. by apply Hf.
Qed.

(** The last option within the target is the most expensive of those. *)
Lemma find_last_spec l (target : Z) : StronglySorted by_rate l ->
  match List.find (fun o => minimum_bitrate_bps o <=? target) (reverse l) with
  | Some o => o ∈ l /\ minimum_bitrate_bps o <= target /\
      forall x, x ∈ l -> minimum_bitrate_bps x <= target -> minimum_bitrate_bps x <= minimum_bitrate_bps o
  | None => forall x, x ∈ l -> target < minimum_bitrate_bps x
  end.
Proof.
  induction l as [|o l IH] using rev_ind; intros Hs; [set_solver|].
  rewrite reverse_app. change (reverse [o]) with [o]. cbn [app List.find].
  assert (StronglySorted by_rate l) as Hl by (by apply StronglySorted_app_1_l in Hs).
  destruct (Z.leb_spec (minimum_bitrate_bps o) target) as [Ho|Ho].
  - split_and!; [set_solver|done|]. intros x [Hx|Hx%list_elem_of_singleton]%elem_of_app _; [|by subst].
    change (by_rate x o). eapply StronglySorted_app_1_elem_of; [exact Hs|done|by left].
  - specialize (IH Hl). destruct (List.find _ (reverse l)) as [o'|].
    + destruct IH as (H1 & H2 & H3). split_and!; [set_solver|done|].
      intros x [Hx|Hx%list_elem_of_singleton]%elem_of_app Hle; [by apply H3|subst; lia].
    + intros x [Hx|Hx%list_elem_of_singleton]%elem_of_app; [by apply IH|by subst].
Qed.

Lemma affordable_spec sorted target o : StronglySorted by_rate sorted -> affordable sorted target = Some o ->
  o ∈ sorted /\
  (minimum_bitrate_bps o <= target \/ forall x, x ∈ sorted -> minimum_bitrate_bps o <= minimum_bitrate_bps x) /\
  (forall x, x ∈ sorted -> minimum_bitrate_bps x <= target -> minimum_bitrate_bps x <= minimum_bitrate_bps o).
Proof.
  intros Hs. unfold affordable. pose proof (find_last_spec sorted target Hs) as Hf.
  destruct (List.find _ _) as [o'|].
  - intros [= ->]. destruct Hf as (H1 & H2 & H3). split_and!; [done|by left|done].
  - intros Hh. split_and!.
    + destruct sorted; [done|]. injection Hh as ->. by left.
    + right. by apply sorted_head_least.
    + intros x Hx Hle. apply Hf in Hx. lia.
Qed.

Lemma affordable_None sorted target : affordable sorted target = None -> sorted = [].
Proof. unfold affordable. case_match; [done|]. by destruct sorted. Qed.

Lemma layer_rate_member options o : NoDup (layer <$> options) -> o ∈ options ->
  layer_rate options (layer o) = Some (minimum_bitrate_bps o).
Proof.
  unfold layer_rate. induction options as [|a l IH]; [set_solver|]. intros [Hni Hnd]%NoDup_cons Hin. cbn.
  case_bool_decide as Heq.
  - apply elem_of_cons in Hin as [->|Hin]; [done|]. destruct Hni. rewrite Heq. by apply list_elem_of_fmap_2.
  - apply elem_of_cons in Hin as [->|Hin]; [done|]. by apply IH.
Qed.

Lemma layer_rate_Some options l r : layer_rate options l = Some r ->
  exists o, o ∈ options /\ layer o = l /\ minimum_bitrate_bps o = r.
Proof.
  unfold layer_rate. intros (o & Hf & ->)%fmap_Some. apply List.find_some in Hf as [Hin Heq].
  apply bool_decide_eq_true in Heq. exists o. split_and!; [by apply list_elem_of_In|done..].
Qed.

(** ** Selection *)
Section Correct.
Context {unstable_sort : UnstableSort}.

(** Within the target, or the cheapest there is. *)
Definition sustainable (options : list LayerOption) (target : Z) (o : LayerOption) : Prop :=
  o ∈ options /\ (minimum_bitrate_bps o <= target \/
    forall x, x ∈ options -> minimum_bitrate_bps o <= minimum_bitrate_bps x).

Lemma sort_elem l o : o ∈ sort_unstable l <-> o ∈ l.
Proof. by rewrite (sort_perm l). Qed.

Lemma affordable_sustainable options target a : affordable (sort_unstable options) target = Some a ->
  sustainable options target a.
Proof.
  intros (Hin & Hs & _)%affordable_spec; [|apply sort_sorted]. split; [by rewrite sort_elem in Hin|].
  destruct Hs as [?|Hs]; [by left|right]. intros x Hx. by apply Hs, sort_elem.
Qed.

Lemma sorted_rate options o : NoDup (layer <$> options) -> o ∈ options ->
  layer_rate (sort_unstable options) (layer o) = Some (minimum_bitrate_bps o).
Proof.
  intros Hnd Hin. apply layer_rate_member; [by rewrite (sort_perm options)|by apply sort_elem].
Qed.

(** What one call does to the committed layer: nothing, or the affordable layer. *)
Lemma select_current now options target s a : affordable (sort_unstable options) target = Some a ->
  let '(s', res) := select now options target s in
  res = current s' /\ (current s' = Some (layer a) \/
    (current s' = current s /\ exists c, current s = Some c /\
       default (umax 64) (layer_rate (sort_unstable options) c) <= minimum_bitrate_bps a)).
Proof.
  intros Ha. unfold select. rewrite Ha. destruct (current s) as [c|] eqn:Hc; [|by split; [|left]].
  destruct (Z.ltb_spec (minimum_bitrate_bps a) (default (umax 64) (layer_rate (sort_unstable options) c))); [by split; [|left]|].
  destruct (_ =? _); [cbn; rewrite Hc; split; [done|right; eauto]|].
  destruct (target <? _); [cbn; rewrite Hc; split; [done|right; eauto]|].
  split; [done|]. destruct (upgrade_candidate s) as [[l since]|]; [|cbn; rewrite Hc; right; eauto].
  destruct (_ && _); [by left|]. destruct (bool_decide _); cbn; rewrite Hc; right; eauto.
Qed.

(** the selector always answers with a layer the options offer and the target can carry
    (or the cheapest one when nothing fits), whatever layer it had committed to before, even
    one that is no longer offered. *)
Theorem select_sustainable now options target s : options_ok options -> options <> [] ->
  exists o, (select now options target s).2 = Some (layer o) /\
    (select now options target s).1.(current) = Some (layer o) /\ sustainable options target o.
Proof.
  intros [Hnd Hr] Hne. destruct (affordable (sort_unstable options) target) as [a|] eqn:Ha.
  2: { apply affordable_None in Ha. pose proof (sort_perm options) as Hp. rewrite Ha in Hp.
       by apply Permutation_nil_l in Hp. }
  pose proof (affordable_sustainable _ _ _ Ha) as Hsus. pose proof (select_current now options target s a Ha) as Hsel.
  destruct (select now options target s) as [s' res]. cbn [fst snd].
  destruct Hsel as [-> [Hcur|(Hsame & c & Hc & Hle)]]; [by exists a|].
  destruct (layer_rate (sort_unstable options) c) as [rc|] eqn:Hrc; cbn [from_option] in Hle; unfold id in Hle.
  - apply layer_rate_Some in Hrc as (o & Ho & <- & <-). rewrite sort_elem in Ho. exists o. rewrite Hsame, Hc.
    split; [done|]. split; [done|]. split; [done|]. destruct Hsus as [_ [Ht|Hmin]]; [left; lia|right]. intros x Hx. specialize (Hmin x Hx). lia.
  - exfalso. rewrite (@Forall_forall LayerOption) in Hr. destruct Hsus as [Hin _]. specialize (Hr a Hin). lia.
Qed.

(** ** Upgrades *)
Record SelectCall := { at_time : Duration; with_options : list LayerOption; with_target : Z }.

(** The selectors reachable from the default one; the newest call comes first. *)
Inductive reaches : list SelectCall -> LayerSelector -> Prop :=
| reach_default : reaches [] default_selector
| reach_select calls s call : reaches calls s ->
    reaches (call :: calls) (select (at_time call) (with_options call) (with_target call) s).1.

(** The call could afford layer [l] with the required headroom. *)
Definition favours (l : Layer) (call : SelectCall) : Prop :=
  exists a, affordable (sort_unstable (with_options call)) (with_target call) = Some a /\ layer a = l /\
    saturating_mul 64 (minimum_bitrate_bps a) 120 / 100 <= with_target call.

(** A call without options (the track has none at the moment) leaves the candidate alone. *)
Definition tolerates (l : Layer) (call : SelectCall) : Prop := favours l call \/ with_options call = [].

Definition favoured_since (calls : list SelectCall) (l : Layer) (since : Duration) : Prop :=
  exists recent first older, calls = recent ++ first :: older /\ at_time first = since /\
    favours l first /\ Forall (tolerates l) recent.

Lemma favoured_step call calls l since : tolerates l call -> favoured_since calls l since ->
  favoured_since (call :: calls) l since.
Proof. intros Hf (recent & first & older & -> & <- & ? & ?). exists (call :: recent), first, older.
  split_and!; [done..|]. by constructor.
Qed.

Lemma favoured_start call calls l : favours l call -> favoured_since (call :: calls) l (at_time call).
Proof. intros Hf. exists [], call, calls. split_and!; [done..|constructor]. Qed.

(** One call, as far as the candidate is concerned. *)
Lemma select_candidate call s s' res : upgrade_headroom_percent s = 120 ->
  select (at_time call) (with_options call) (with_target call) s = (s', res) ->
  upgrade_hold s' = upgrade_hold s /\ upgrade_headroom_percent s' = 120 /\
  (upgrade_candidate s' = None \/
   (current s = None /\ upgrade_candidate s' = upgrade_candidate s) \/
   (affordable (sort_unstable (with_options call)) (with_target call) = None /\ s' = s) \/
   exists l since, upgrade_candidate s' = Some (l, since) /\ favours l call /\
     (upgrade_candidate s = Some (l, since) \/ since = at_time call)).
Proof.
  intros H120 H. unfold select in H. destruct (affordable _ _) as [a|] eqn:Ha; [|injection H as <- <-; split_and!; auto 6].
  destruct (current s) as [c|] eqn:Hc; [|injection H as <- <-; split_and!; auto 6].
  destruct (_ <? _); [injection H as <- <-; by auto|]. destruct (_ =? _); [injection H as <- <-; by auto|].
  rewrite H120 in H. destruct (Z.ltb_spec (with_target call) (saturating_mul 64 (minimum_bitrate_bps a) 120 / 100)) as [|Hreq];
    [injection H as <- <-; by auto|].
  assert (favours (layer a) call) as Hf by (exists a; by auto).
  destruct (upgrade_candidate s) as [[l since]|] eqn:Hcand.
  2: { injection H as <- <-. split_and!; [done..|]. do 3 right. eauto 10. }
  destruct (decide (l = layer a)) as [->|Hne].
  - rewrite (bool_decide_eq_true_2 _ eq_refl) in H. cbn [andb] in H. destruct (_ <=? _); injection H as <- <-; [split_and!; auto|].
    split_and!; [done..|]. do 3 right. eauto 10.
  - rewrite (bool_decide_eq_false_2 _ Hne) in H. injection H as <- <-. split_and!; [done..|]. do 3 right. eauto 10.
Qed.

Lemma reaches_candidate calls s : reaches calls s ->
  upgrade_hold s = 2 * 10 ^ 9 /\ upgrade_headroom_percent s = 120 /\
  (current s = None -> upgrade_candidate s = None) /\
  forall l since, upgrade_candidate s = Some (l, since) -> favoured_since calls l since.
Proof.
  induction 1 as [|calls s call _ (Hh & H120 & Hnone & IH)]; [done|].
  destruct (select _ _ _ s) as [s' res] eqn:Hsel. cbn [fst].
  destruct (select_candidate call s s' res H120 Hsel) as (Hh' & H120' & Hcases).
  assert (current s' = None -> upgrade_candidate s' = None) as Hnone'.
  { unfold select in Hsel. destruct (affordable _ _); [|injection Hsel as <- _; done].
    destruct (current s) as [c|] eqn:Hc; [|injection Hsel as <- _; done].
    repeat (case_match; simplify_eq/=; try congruence). }
  split_and!; [congruence|done|done|]. intros l since Hcand.
  destruct Hcases as [?|[[Hc ?]|[[Ha ->]|(l' & since' & Heq & Hf & Hcase)]]].
  - congruence.
  - rewrite (Hnone Hc) in *. congruence.
  - apply favoured_step; [|by apply IH]. right. apply affordable_None in Ha. pose proof (sort_perm (with_options call)) as Hp.
    rewrite Ha in Hp. by apply Permutation_nil_l in Hp.
  - rewrite Hcand in Heq. injection Heq as <- <-. destruct Hcase as [Hold| ->]; [|by apply favoured_start].
    apply favoured_step; [by left|]. by apply IH.
Qed.

(** upgrades are never rushed.  When a selector that started from the default moves to a
    more expensive layer, the target carries that layer with 20% of headroom now, it did at
    some call two seconds or more before, and at every call in between (calls without options
    apart); a layer that was out of reach at any moment starts its two seconds again. *)
Theorem upgrade_needs_hold calls s call c l rc rl : reaches calls s -> current s = Some c ->
  (select (at_time call) (with_options call) (with_target call) s).2 = Some l ->
  layer_rate (sort_unstable (with_options call)) c = Some rc ->
  layer_rate (sort_unstable (with_options call)) l = Some rl -> rc < rl -> options_ok (with_options call) ->
  favours l call /\ exists since, favoured_since calls l since /\ since + 2 * 10 ^ 9 <= at_time call.
Proof.
  intros Hreach Hc Hsel Hrc Hrl Hlt [Hnd _]. pose proof (reaches_candidate _ _ Hreach) as (Hh & H120 & _ & Hcand).
  unfold select in Hsel. destruct (affordable _ _) as [a|] eqn:Ha; [|done]. rewrite Hc, Hrc, H120 in Hsel.
  pose proof (affordable_sustainable _ _ _ Ha) as [Hin _]. pose proof (sorted_rate _ a Hnd Hin) as Hra.
  cbn [from_option] in Hsel. unfold id in Hsel.
  destruct (Z.ltb_spec (minimum_bitrate_bps a) rc); [cbn in Hsel; injection Hsel as <-; simplify_eq; lia|].
  destruct (Z.eqb_spec (minimum_bitrate_bps a) rc); [cbn in Hsel; rewrite Hc in Hsel; simplify_eq; lia|].
  destruct (Z.ltb_spec (with_target call) (saturating_mul 64 (minimum_bitrate_bps a) 120 / 100));
    [cbn in Hsel; rewrite Hc in Hsel; simplify_eq; lia|].
  destruct (upgrade_candidate s) as [[l0 since]|] eqn:Hup; [|cbn in Hsel; rewrite Hc in Hsel; simplify_eq; lia].
  destruct (bool_decide_reflect (l0 = layer a)) as [->|Hne]; [|cbn in Hsel; rewrite Hc in Hsel; simplify_eq; lia].
  cbn [andb] in Hsel. destruct (Z.leb_spec (upgrade_hold s) (saturating_sub (at_time call) since)) as [Hhold|];
    [|cbn in Hsel; rewrite Hc in Hsel; simplify_eq; lia].
  cbn in Hsel. injection Hsel as <-. split; [by exists a|]. exists since. split; [by apply Hcand|].
  rewrite Hh in Hhold. unfold saturating_sub in Hhold. lia.
Qed.
End Correct.

(** ** A concrete selector *)
#[export] Instance by_rate_dec : RelDecision by_rate.
Proof. intros a b. unfold by_rate. apply _. Defined.
#[export] Instance by_rate_total : Total by_rate.
Proof. intros a b. unfold by_rate. lia. Qed.
#[export] Instance by_rate_trans : Transitive by_rate.
Proof. intros a b c. unfold by_rate. lia. Qed.
#[export] Instance merge_sorting : UnstableSort := {
  sort_unstable := merge_sort by_rate;
  sort_perm := merge_sort_Permutation by_rate;
  sort_sorted := StronglySorted_merge_sort by_rate }.

Definition low : Layer := {| spatial := 0; temporal := 0 |}.
Definition high : Layer := {| spatial := 1; temporal := 0 |}.
Definition example_options : list LayerOption :=
  [{| layer := high; minimum_bitrate_bps := 1000000 |}; {| layer := low; minimum_bitrate_bps := 200000 |}].
Definition example_call (t target : Z) : SelectCall :=
  {| at_time := t; with_options := example_options; with_target := target |}.
Definition example_selector : LayerSelector :=
  foldr (fun c s => (select (at_time c) (with_options c) (with_target c) s).1) default_selector
    [example_call 1000 1300000; example_call 0 300000].

Lemma example_options_ok : options_ok example_options.
Proof. split; [by vm_compute; repeat constructor; set_solver|repeat constructor; eval_facts]. Qed.

Lemma select_sustainable_witness : exists o, (select 0 example_options 300000 default_selector).2 = Some (layer o) /\
  sustainable example_options 300000 o.
Proof.
  destruct (select_sustainable 0 example_options 300000 default_selector example_options_ok) as (o & H & _ & Hs);
    [discriminate|]. exists o. split; [exact H|exact Hs].
Defined.

Lemma upgrade_needs_hold_witness :
  (select 2000001000 example_options 1300000 example_selector).2 = Some high /\
  exists since, since + 2 * 10 ^ 9 <= 2000001000.
Proof.
  split; [vm_compute; reflexivity|].
  destruct (upgrade_needs_hold [example_call 1000 1300000; example_call 0 300000] example_selector
    (example_call 2000001000 1300000) low high 200000 1000000) as (_ & since & _ & H).
  - unfold example_selector. cbn [foldr]. repeat apply reach_select. apply reach_default.
  - vm_compute. reflexivity.
  - vm_compute. reflexivity.
  - vm_compute. reflexivity.
  - vm_compute. reflexivity.
  - lia.
  - exact example_options_ok.
  - exists since. exact H.
Defined.

