(* ===== verification/SfuRuntime.v ===== *)
(** * services/media-node: the rooms of a media node (src/sfu_runtime.rs)

    [SfuRegistry] keeps one forwarding core per room together with the tables that tie it to the transport sessions:
    which session a participant uses, who owns a track, which encoder a source belongs to, the estimator and the layer
    selectors of each subscriber, and the loopback sinks of the recorder.  A method locks the room for its whole body,
    and is one step here.  [Core(error.to_string())] carries the error instead of its text. *)
From S2P Require Import Prelude Words Slices RustStd RustStr SfuModel.
From S2P Require RtpExtension RtpPacket RtcpModel Rtcp MediaCodec DownTrack Room BandwidthEstimator LayerSelector.
Import Room (Room, HashOrder).
Import BandwidthEstimator (BandwidthEstimator).
Import LayerSelector (LayerSelector, LayerOption, UnstableSort).

(** [HashMap::iter] visits every entry once, in an unspecified order. *)
Class HashIteration := {
  iter : forall {K : Type} `{Countable K} {V : Type}, gmap K V -> list (K * V);
  iter_perm : forall {K : Type} `{Countable K} {V : Type} (m : gmap K V), iter m ≡ₚ map_to_list m }.

Record PublishTrack := {
  pt_room_id : bytes;
  pt_participant_id : bytes;
  pt_track_id : Z;
  pt_kind : MediaKind;
  pt_codec : MediaCodec.Codec;
  pt_clock_rate : Z;
  pt_payload_type : Z;
  pt_encodings : list Encoding }.

Record SubscribeTrack := {
  st_room_id : bytes;
  st_participant_id : bytes;
  st_subscription_id : Z;
  st_track_id : Z;
  st_output_ssrc : Z;
  st_output_payload_type : Z;
  st_spatial_layer : Z;
  st_temporal_layer : Z;
  st_initial_sequence_number : Z;
  st_initial_timestamp : Z;
  st_extension_rewrites : list RtpPacket.ExtensionRewrite;
  st_transport_wide_extension_id : option Z }.

Inductive SfuRoute :=
| RouteRtp (session_id room_id : bytes) (subscriber : ParticipantId) (subscription_id : SubscriptionId) (register_twcc : bool) (packet : bytes)
| RouteRtcp (session_id packet : bytes)
| RecorderRtp (destination : SocketAddr) (packet : bytes).

Inductive CoreError := FromRoom (error : SfuError) | FromRtcp (error : RtcpModel.RtcpError).
Inductive SfuRuntimeError :=
| InvalidIdentifier
| UnknownRoom
| UnknownParticipant
| UnknownTrack
| TrackOwnedByAnotherParticipant
| UnknownSubscription
| UnknownSourceSsrc
| UnsafeRecordingDestination
| Core (error : CoreError).

Record SubscriptionCongestion := { selector : LayerSelector; options : list LayerOption }.
Record ParticipantCongestion := {
  estimator : BandwidthEstimator;
  transport_wide_extension_id : Z;
  cong_subscriptions : gmap SubscriptionId SubscriptionCongestion }.
Record ManagedRoom := {
  room : Room;
  participant_sessions : gmap ParticipantId bytes;
  track_owners : gmap TrackId ParticipantId;
  input_tracks : gmap Z TrackId;
  subscriptions : gmap SubscriptionId (ParticipantId * TrackId);
  congestion : gmap ParticipantId ParticipantCongestion }.
Record RecordingSink := { destination : SocketAddr; source_ssrc : option Z }.
Record SfuRegistry := {
  rooms : gmap bytes ManagedRoom;
  recording_sinks : gmap (bytes * TrackId * SocketAddr) RecordingSink }.
(** [SfuRegistry::default] *)
Definition default_registry : SfuRegistry := {| rooms := ∅; recording_sinks := ∅ |}.

Definition set_room (r : Room) (m : ManagedRoom) : ManagedRoom :=
  {| room := r; participant_sessions := participant_sessions m; track_owners := track_owners m; input_tracks := input_tracks m;
     subscriptions := subscriptions m; congestion := congestion m |}.
Definition set_sessions (s : gmap ParticipantId bytes) (m : ManagedRoom) : ManagedRoom :=
  {| room := room m; participant_sessions := s; track_owners := track_owners m; input_tracks := input_tracks m;
     subscriptions := subscriptions m; congestion := congestion m |}.
Definition set_owners (o : gmap TrackId ParticipantId) (m : ManagedRoom) : ManagedRoom :=
  {| room := room m; participant_sessions := participant_sessions m; track_owners := o; input_tracks := input_tracks m;
     subscriptions := subscriptions m; congestion := congestion m |}.
Definition set_inputs (i : gmap Z TrackId) (m : ManagedRoom) : ManagedRoom :=
  {| room := room m; participant_sessions := participant_sessions m; track_owners := track_owners m; input_tracks := i;
     subscriptions := subscriptions m; congestion := congestion m |}.
Definition set_subscriptions (s : gmap SubscriptionId (ParticipantId * TrackId)) (m : ManagedRoom) : ManagedRoom :=
  {| room := room m; participant_sessions := participant_sessions m; track_owners := track_owners m; input_tracks := input_tracks m;
     subscriptions := s; congestion := congestion m |}.
Definition set_congestion (c : gmap ParticipantId ParticipantCongestion) (m : ManagedRoom) : ManagedRoom :=
  {| room := room m; participant_sessions := participant_sessions m; track_owners := track_owners m; input_tracks := input_tracks m;
     subscriptions := subscriptions m; congestion := c |}.
Definition set_rooms (r : gmap bytes ManagedRoom) (self : SfuRegistry) : SfuRegistry :=
  {| rooms := r; recording_sinks := recording_sinks self |}.
Definition set_sinks (s : gmap (bytes * TrackId * SocketAddr) RecordingSink) (self : SfuRegistry) : SfuRegistry :=
  {| rooms := rooms self; recording_sinks := s |}.
Definition with_estimator (e : BandwidthEstimator) (c : ParticipantCongestion) : ParticipantCongestion :=
  {| estimator := e; transport_wide_extension_id := transport_wide_extension_id c; cong_subscriptions := cong_subscriptions c |}.
Definition with_subscriptions (s : gmap SubscriptionId SubscriptionCongestion) (c : ParticipantCongestion) : ParticipantCongestion :=
  {| estimator := estimator c; transport_wide_extension_id := transport_wide_extension_id c; cong_subscriptions := s |}.

Abbreviation registry := (prog SfuRegistry SfuRuntimeError).
Abbreviation managed := (prog ManagedRoom SfuRuntimeError).

(** ** Identifiers *)
Definition is_ascii_alphanumeric (c : Z) : bool := in_range 48 57 c || in_range 65 90 c || in_range 97 122 c.
Definition validate_identifier (value : bytes) : outcome SfuRuntimeError unit :=
  reject_if ((len value =? 0) || (128 <? len value) || negb (forallb (fun byte => is_ascii_alphanumeric byte || (byte =? 45) || (byte =? 95)) value))
    InvalidIdentifier.
Definition parse_participant (value : bytes) : outcome SfuRuntimeError ParticipantId :=
  _ ← validate_identifier value;
  ok_or (from_str_radix 128 16 value) InvalidIdentifier.

(** ** Rooms *)
(** [Result::ok] *)
Definition ok {E F A} (o : outcome E A) : outcome F (option A) :=
  match o with Ok a => Ok (Some a) | Err _ => Ok None | Panic => Panic | Diverge => Diverge end.
(** The estimator has no errors. *)
Definition never {E} (e : Empty_set) : E := match e with end.

(** [self.room(room_id)?] and the lock: the body runs on the room of that name. *)
Definition on_room {A} (room_id : bytes) (body : managed A) : registry A := fun self =>
  match rooms self !! room_id with
  | None => (self, Err UnknownRoom)
  | Some room => let '(room, result) := body room in (set_rooms (<[room_id := room]> (rooms self)) self, result)
  end.
(** A call of the forwarding core, with [.map_err(|error| SfuRuntimeError::Core(..))]. *)
Definition on_core {A} (body : prog Room SfuError A) : managed A := fun m =>
  let '(r, result) := body (room m) in (set_room r m, map_err (fun e => Core (FromRoom e)) result).

Definition new_managed : ManagedRoom :=
  {| room := Room.new default_room_config; participant_sessions := ∅; track_owners := ∅; input_tracks := ∅; subscriptions := ∅; congestion := ∅ |}.

Definition bind_session (room_id participant_id session_id : bytes) : registry unit :=
  _ ← lift (validate_identifier room_id);
  participant ← lift (parse_participant participant_id);
  _ ← lift (validate_identifier session_id);
  modify (fun self =>
    let room := default new_managed (rooms self !! room_id) in
    set_rooms (<[room_id := set_sessions (<[participant := session_id]> (participant_sessions room)) room]> (rooms self)) self).

Definition require_session (participant : ParticipantId) : managed unit := fun m =>
  (m, reject_if (negb (bool_decide (is_Some (participant_sessions m !! participant)))) UnknownParticipant).

(** ** Publishing *)
Definition track_of (participant : ParticipantId) (input : PublishTrack) : PublishedTrack :=
  {| track_id := pt_track_id input; owner := participant; kind := pt_kind input; codec := pt_codec input;
     clock_rate := pt_clock_rate input; track_payload_type := pt_payload_type input; encodings := pt_encodings input |}.
Definition publish (input : PublishTrack) : registry unit :=
  participant ← lift (parse_participant (pt_participant_id input));
  on_room (pt_room_id input)
    (_ ← require_session participant;
     let input_ssrcs := enc_ssrc <$> pt_encodings input in
     _ ← on_core (Room.publish (track_of participant input));
     _ ← modify (fun m => set_owners (<[pt_track_id input := participant]> (track_owners m)) m);
     modify (fun m => set_inputs (foldl (fun i ssrc => <[ssrc := pt_track_id input]> i) (input_tracks m) input_ssrcs) m)).
Definition publish_transcoded (input : PublishTrack) : registry unit := publish input.

(** [congestion.subscriptions.remove(&subscription)], where the subscriber has an entry. *)
Definition forget_layers (participant : ParticipantId) (subscription : SubscriptionId)
    (c : gmap ParticipantId ParticipantCongestion) : gmap ParticipantId ParticipantCongestion :=
  alter (fun p => with_subscriptions (delete subscription (cong_subscriptions p)) p) participant c.

(** [recording_sinks.retain(..)] *)
Definition drop_sinks (room_id : bytes) (track : TrackId) (s : gmap (bytes * TrackId * SocketAddr) RecordingSink)
    : gmap (bytes * TrackId * SocketAddr) RecordingSink :=
  filter (fun kv => kv.1.1.1 <> room_id \/ kv.1.1.2 <> track) s.

Section Runtime.
Context `{!HashIteration}.

Definition drop_subscription (m : ManagedRoom) (subscription : SubscriptionId) : ManagedRoom :=
  match subscriptions m !! subscription with
  | Some (subscriber, _) =>
      set_congestion (forget_layers subscriber subscription (congestion m)) (set_subscriptions (delete subscription (subscriptions m)) m)
  | None => m
  end.
Definition unpublish_in (track : TrackId) (m : ManagedRoom) : ManagedRoom * bool :=
  let '(r, removed) := Room.unpublish track (room m) in
  let m := set_room r m in
  if negb removed then (m, false)
  else
    let m := set_owners (delete track (track_owners m)) m in
    let m := set_inputs (filter (fun kv => kv.2 <> track) (input_tracks m)) m in
    let dropped := omap (fun kv => if kv.2.2 =? track then Some kv.1 else None) (iter (subscriptions m)) in
    (foldl drop_subscription m dropped, true).
Definition unpublish (room_id : bytes) (track : TrackId) (self : SfuRegistry) : SfuRegistry * bool :=
  match rooms self !! room_id with
  | None => (self, false)
  | Some m =>
      let '(m, removed) := unpublish_in track m in
      let self := set_rooms (<[room_id := m]> (rooms self)) self in
      if negb removed then (self, false) else (set_sinks (drop_sinks room_id track (recording_sinks self)) self, true)
  end.
Definition removed_or_unknown (room_id : bytes) (track : TrackId) : registry unit := fun self =>
  let '(self, removed) := unpublish room_id track self in (self, if removed then Ok tt else Err UnknownTrack).
Definition unpublish_owned (room_id participant_id : bytes) (track : TrackId) : registry unit :=
  participant ← lift (parse_participant participant_id);
  owner ← on_room room_id (fun m => (m, ok_or (track_owners m !! track) UnknownTrack));
  _ ← lift (reject_if (negb (owner =? participant)) TrackOwnedByAnotherParticipant);
  removed_or_unknown room_id track.

(** ** Recording *)
Definition add_recording_sink_for_ssrc (room_id : bytes) (track : TrackId) (destination : SocketAddr) (source_ssrc : option Z) : registry unit :=
  _ ← lift (reject_if (negb (is_loopback (ip destination))) UnsafeRecordingDestination);
  _ ← on_room room_id (fun m => (m,
        published ← ok_or (Room.published_track track (room m)) UnknownTrack;
        reject_if (from_option (fun ssrc => negb (existsb (fun e => enc_ssrc e =? ssrc) (encodings published))) false source_ssrc) UnknownSourceSsrc));
  modify (fun self => set_sinks (<[(room_id, track, destination) := {| destination := destination; source_ssrc := source_ssrc |}]> (recording_sinks self)) self).
Definition add_recording_sink (room_id : bytes) (track : TrackId) (destination : SocketAddr) : registry unit :=
  add_recording_sink_for_ssrc room_id track destination None.
Definition remove_recording_sink (room_id : bytes) (track : TrackId) (self : SfuRegistry) : SfuRegistry * bool :=
  let before := size (recording_sinks self) in
  let sinks := drop_sinks room_id track (recording_sinks self) in
  (set_sinks sinks self, negb (Nat.eqb (size sinks) before)).
Definition remove_recording_sink_destination (room_id : bytes) (track : TrackId) (destination : SocketAddr) (self : SfuRegistry) : SfuRegistry * bool :=
  (set_sinks (delete (room_id, track, destination) (recording_sinks self)) self,
   bool_decide (is_Some (recording_sinks self !! (room_id, track, destination)))).

(** [max_by_key]: the last of the greatest. *)
Definition highest (es : list Encoding) : option Encoding :=
  foldl (fun best e => match best with Some b => if spatial_layer b <=? spatial_layer e then Some e else Some b | None => Some e end) None es.
Definition pli_packet (media_ssrc : Z) : outcome SfuRuntimeError bytes :=
  map_err (fun e => Core (FromRtcp e))
    (Rtcp.encode_compound [RtcpModel.PPictureLossIndication {| RtcpModel.pli_sender_ssrc := 0; RtcpModel.pli_media_ssrc := media_ssrc |}]).
Definition request_keyframe (room_id : bytes) (track : TrackId) (source_ssrc : option Z) : registry (option SfuRoute) :=
  on_room room_id (fun m => (m,
    published ← ok_or (Room.published_track track (room m)) UnknownTrack;
    if bool_decide (kind published = Audio) then Ok None
    else
      let chosen := match source_ssrc with Some ssrc => Some ssrc | None => enc_ssrc <$> highest (encodings published) end in
      media_ssrc ← ok_or (ssrc ← chosen; if existsb (fun e => enc_ssrc e =? ssrc) (encodings published) then Some ssrc else None) UnknownSourceSsrc;
      owner ← ok_or (track_owners m !! track) UnknownTrack;
      session_id ← ok_or (participant_sessions m !! owner) UnknownParticipant;
      packet ← pli_packet media_ssrc;
      Ok (Some (RouteRtcp session_id packet)))).

(** ** Subscribing *)
Definition config_of (participant : ParticipantId) (input : SubscribeTrack) : SubscriptionConfig :=
  {| sub_id := st_subscription_id input; subscriber := participant; sub_track_id := st_track_id input; output_ssrc := st_output_ssrc input;
     output_payload_type := st_output_payload_type input;
     initial_layer := {| spatial := st_spatial_layer input; temporal := st_temporal_layer input |};
     initial_sequence_number := st_initial_sequence_number input; initial_timestamp := st_initial_timestamp input;
     extension_rewrites := st_extension_rewrites input |}.
Definition layer_options (temporal_layer : Z) (track : PublishedTrack) : list LayerOption :=
  (fun e => {| LayerSelector.layer := {| spatial := spatial_layer e; temporal := temporal_layer |};
               LayerSelector.minimum_bitrate_bps := max_bitrate_bps e |}) <$> encodings track.
(** [room.congestion.entry(participant).or_insert_with(..)] and the new selector. *)
Definition adapt_subscription (participant : ParticipantId) (subscription : SubscriptionId) (extension_id : Z) (options : list LayerOption)
    : managed unit :=
  m ← gets id;
  entry ← lift match congestion m !! participant with
    | Some c => Ok c
    | None =>
        e ← map_err never (BandwidthEstimator.new BandwidthEstimator.default_estimator_config);
        Ok {| estimator := e; transport_wide_extension_id := extension_id; cong_subscriptions := ∅ |}
    end;
  modify (set_congestion (<[participant :=
    {| estimator := estimator entry; transport_wide_extension_id := extension_id;
       cong_subscriptions := <[subscription := {| selector := LayerSelector.default_selector; options := options |}]> (cong_subscriptions entry) |}]>
    (congestion m))).
Definition subscribe (input : SubscribeTrack) : registry unit :=
  participant ← lift (parse_participant (st_participant_id input));
  on_room (st_room_id input)
    (_ ← require_session participant;
     m ← gets id;
     track ← lift (ok_or (Room.published_track (st_track_id input) (room m)) UnknownTrack);
     let options := layer_options (st_temporal_layer input) track in
     _ ← on_core (Room.subscribe (config_of participant input));
     _ ← modify (fun m => set_subscriptions (<[st_subscription_id input := (participant, st_track_id input)]> (subscriptions m)) m);
     match st_transport_wide_extension_id input with
     | Some extension_id => adapt_subscription participant (st_subscription_id input) extension_id options
     | None => mret tt
     end).

Definition unsubscribe (room_id participant_id : bytes) (subscription : SubscriptionId) : registry unit :=
  participant ← lift (parse_participant participant_id);
  on_room room_id
    (m ← gets id;
     '(owner, _) ← lift (ok_or (subscriptions m !! subscription) UnknownSubscription);
     _ ← lift (reject_if (negb (owner =? participant)) UnknownSubscription);
     _ ← modify (fun m => set_room (Room.unsubscribe subscription (room m)).1 m);
     _ ← modify (fun m => set_subscriptions (delete subscription (subscriptions m)) m);
     modify (fun m => set_congestion (forget_layers participant subscription (congestion m)) m)).

(** ** The end of a transport *)
Definition release_subscription (m : ManagedRoom) (entry : SubscriptionId * ParticipantId) : ManagedRoom :=
  let m := set_room (Room.unsubscribe entry.1 (room m)).1 m in
  let m := set_subscriptions (delete entry.1 (subscriptions m)) m in
  set_congestion (forget_layers entry.2 entry.1 (congestion m)) m.
Definition release_track (m : ManagedRoom) (track : TrackId) : ManagedRoom :=
  let m := set_room (Room.unpublish track (room m)).1 m in
  set_owners (delete track (track_owners m)) m.
Definition unbind_in (participant : ParticipantId) (m : ManagedRoom) : ManagedRoom * list TrackId :=
  let m := set_sessions (delete participant (participant_sessions m)) m in
  let owned_tracks := omap (fun kv => if kv.2 =? participant then Some kv.1 else None) (iter (track_owners m)) in
  let removed_subscriptions := omap (fun kv =>
      if (kv.2.1 =? participant) || bool_decide (kv.2.2 ∈ owned_tracks) then Some (kv.1, kv.2.1) else None) (iter (subscriptions m)) in
  let m := foldl release_subscription m removed_subscriptions in
  let m := foldl release_track m owned_tracks in
  let m := set_inputs (filter (fun kv => kv.2 ∉ owned_tracks) (input_tracks m)) m in
  (set_congestion (delete participant (congestion m)) m, owned_tracks).

(** The room found in the table at the end is the one that was locked. *)
Definition unbind_session (room_id participant_id session_id : bytes) (self : SfuRegistry) : SfuRegistry * bool :=
  match parse_participant participant_id, rooms self !! room_id with
  | Ok participant, Some m =>
      if negb (bool_decide (participant_sessions m !! participant = Some session_id)) then (self, false)
      else
        let '(m, owned_tracks) := unbind_in participant m in
        let self := set_rooms (<[room_id := m]> (rooms self)) self in
        let self := set_sinks (foldl (fun sinks track => drop_sinks room_id track sinks) (recording_sinks self) owned_tracks) self in
        (if bool_decide (participant_sessions m = ∅) then set_rooms (delete room_id (rooms self)) self else self, true)
  | _, _ => (self, false)
  end.

(** ** Routing *)
Definition event_request (e : SfuEvent) : option (TrackId * Z) :=
  match e with
  | PictureLossIndication track_id media_ssrc => Some (track_id, media_ssrc)
  | LayerSwitched _ _ _ | TransportFeedback _ _ => None
  end.
Definition owner_session (m : ManagedRoom) (request : TrackId * Z) : option (bytes * Z) :=
  owner ← track_owners m !! request.1;
  session_id ← participant_sessions m !! owner;
  Some (session_id, request.2).
(** [map(..).collect::<Result<Vec<_>, _>>()] *)
Fixpoint pli_routes (requests : list (bytes * Z)) : outcome SfuRuntimeError (list SfuRoute) :=
  match requests with
  | [] => Ok []
  | (session_id, media_ssrc) :: requests =>
      packet ← pli_packet media_ssrc;
      routes ← pli_routes requests;
      Ok (RouteRtcp session_id packet :: routes)
  end.
Definition events_to_rtcp (m : ManagedRoom) (events : list SfuEvent) : outcome SfuRuntimeError (list SfuRoute) :=
  pli_routes (omap (owner_session m) (omap event_request events)).

Definition packet_routes (room_id : bytes) (register_twcc : bool) (m : ManagedRoom) (ps : list ForwardedPacket) : list SfuRoute :=
  omap (fun p => session_id ← participant_sessions m !! fp_subscriber p;
    Some (RouteRtp session_id room_id (fp_subscriber p) (fp_subscription_id p) register_twcc (fp_packet p))) ps.

Definition set_layer (now : Duration) (room_id participant_id : bytes) (subscription : SubscriptionId) (spatial temporal : Z) : registry (list SfuRoute) :=
  participant ← lift (parse_participant participant_id);
  on_room room_id
    (events ← on_core (Room.set_target_layer now participant subscription {| spatial := spatial; temporal := temporal |});
     m ← gets id;
     lift (events_to_rtcp m events)).

Definition sink_routes (sinks : gmap (bytes * TrackId * SocketAddr) RecordingSink) (room_id packet : bytes) (track : TrackId) (packet_ssrc : Z) : list SfuRoute :=
  omap (fun kv =>
    if bool_decide (kv.1.1.1 = room_id) && (kv.1.1.2 =? track) && from_option (fun ssrc => ssrc =? packet_ssrc) true (source_ssrc kv.2)
    then Some (RecorderRtp (destination kv.2) packet) else None) (iter sinks).
Definition recording_routes (sinks : gmap (bytes * TrackId * SocketAddr) RecordingSink) (room_id packet : bytes) (m : ManagedRoom)
    : outcome SfuRuntimeError (list SfuRoute) :=
  parsed ← ok (RtpPacket.parse packet);
  Ok (default []
    (parsed ← parsed;
     let ssrc := RtpPacket.ssrc (RtpPacket.header parsed) in
     track ← input_tracks m !! ssrc;
     Some (sink_routes sinks room_id packet track ssrc))).

Section Media.
Context `{!HashOrder} {unstable_sort : UnstableSort}.

(** The part of [handle_rtp] under the lock of the room. *)
Definition route_rtp (now : Duration) (room_id : bytes) (publisher : ParticipantId) (packet : bytes)
    (sinks : gmap (bytes * TrackId * SocketAddr) RecordingSink) : managed (list SfuRoute) :=
  output ← on_core (Room.handle_rtp now publisher packet);
  m ← gets id;
  recording ← lift (recording_routes sinks room_id packet m);
  let routes := packet_routes room_id true m (packets output) in
  requests ← lift (events_to_rtcp m (fo_events output));
  mret (routes ++ requests ++ recording).
Definition handle_rtp (now : Duration) (room_id participant_id packet : bytes) : registry (list SfuRoute) :=
  publisher ← lift (parse_participant participant_id);
  self ← gets id;
  on_room room_id (route_rtp now room_id publisher packet (recording_sinks self)).
Definition handle_transcoded_rtp (now : Duration) (room_id publisher_id packet : bytes) : registry (list SfuRoute) :=
  handle_rtp now room_id publisher_id packet.

(** One turn of [congestion.subscriptions.iter_mut().filter_map(..)]. *)
Definition select_layer (now : Duration) (target_bitrate_bps : Z)
    (acc : gmap SubscriptionId SubscriptionCongestion * list (SubscriptionId * Layer)) (entry : SubscriptionId * SubscriptionCongestion)
    : gmap SubscriptionId SubscriptionCongestion * list (SubscriptionId * Layer) :=
  let '(id, s) := entry in
  let previous := LayerSelector.current (selector s) in
  let '(chosen, selected) := LayerSelector.select now (options s) target_bitrate_bps (selector s) in
  (<[id := {| selector := chosen; options := options s |}]> acc.1,
   acc.2 ++ match selected with
            | Some selected => if bool_decide (previous <> Some selected) then [(id, selected)] else []
            | None => []
            end).

(** [for (subscription_id, layer) in decisions { events.extend(room.set_target_layer(..)?) }] *)
Fixpoint apply_decisions (now : Duration) (who : ParticipantId) (decisions : list (SubscriptionId * Layer)) (events : list SfuEvent) : managed (list SfuEvent) :=
  match decisions with
  | [] => mret events
  | (subscription, layer) :: decisions =>
      new ← on_core (Room.set_target_layer now who subscription layer);
      apply_decisions now who decisions (events ++ new)
  end.

(** A call of the estimator of one participant. *)
Definition on_estimator {A} (participant : ParticipantId) (c : ParticipantCongestion) (body : prog BandwidthEstimator Empty_set A) : managed A := fun m =>
  let '(e, result) := body (estimator c) in
  (set_congestion (<[participant := with_estimator e c]> (congestion m)) m, map_err never result).

Definition apply_transport_feedback (now : Duration) (who : ParticipantId) (feedback : RtcpModel.TransportWideFeedback) : managed (list SfuEvent) :=
  m ← gets id;
  match congestion m !! who with
  | None => mret []
  | Some c =>
      estimate ← on_estimator who c (BandwidthEstimator.process_feedback now feedback);
      if BandwidthEstimator.matched_packets estimate =? 0 then mret []
      else
        let '(chosen, decisions) :=
          foldl (select_layer now (BandwidthEstimator.est_target_bitrate_bps estimate)) (cong_subscriptions c, []) (iter (cong_subscriptions c)) in
        _ ← modify (fun m => set_congestion (alter (with_subscriptions chosen) who (congestion m)) m);
        apply_decisions now who decisions []
  end.

(** [for event in output.events] *)
Fixpoint adapt (now : Duration) (events adaptive_events : list SfuEvent) : managed (list SfuEvent) :=
  match events with
  | [] => mret adaptive_events
  | TransportFeedback who feedback :: events =>
      new ← apply_transport_feedback now who feedback;
      adapt now events (adaptive_events ++ new)
  | event :: events => adapt now events (adaptive_events ++ [event])
  end.

(** The part of [handle_rtcp] under the lock of the room. *)
Definition route_rtcp (now : Duration) (room_id : bytes) (who : ParticipantId) (packet : bytes) : managed (list SfuRoute) :=
  output ← on_core (Room.handle_rtcp now who packet);
  adaptive_events ← adapt now (co_events output) [];
  m ← gets id;
  let routes := packet_routes room_id false m (retransmissions output) in
  requests ← lift (events_to_rtcp m adaptive_events);
  mret (routes ++ requests).
Definition handle_rtcp (now : Duration) (room_id participant_id packet : bytes) : registry (list SfuRoute) :=
  who ← lift (parse_participant participant_id);
  on_room room_id (route_rtcp now room_id who packet).

(** ** Transmissions *)
Definition sent_packet (now : Duration) (extension_id : Z) (packet : bytes) : outcome SfuRuntimeError (option BandwidthEstimator.SentPacket) :=
  parsed ← ok (RtpPacket.parse packet);
  Ok (parsed ← parsed;
      extension ← List.find (fun e => RtpExtension.ext_id e =? extension_id) (RtpPacket.extensions parsed);
      if len (RtpExtension.ext_value extension) =? 2 then
        Some {| BandwidthEstimator.sequence_number := from_be_bytes (RtpExtension.ext_value extension); BandwidthEstimator.sent_at := now;
                BandwidthEstimator.size_bytes := RtpPacket.header_len parsed + len (RtpPacket.payload parsed) + RtpPacket.padding_len parsed |}
      else None).
(** Every [return false] is [false] here; the loop of the estimator has one turn more than its history. *)
Definition register_sent (now : Duration) (room_id : bytes) (who : ParticipantId) (packet : bytes) : registry bool := fun self =>
  match rooms self !! room_id with
  | None => (self, Ok false)
  | Some _ => on_room room_id
      (m ← gets id;
       match congestion m !! who with
       | None => mret false
       | Some c =>
           sent ← lift (sent_packet now (transport_wide_extension_id c) packet);
           match sent with
           | None => mret false
           | Some sent =>
               _ ← on_estimator who c (BandwidthEstimator.register_sent (S (length (BandwidthEstimator.history (estimator c)))) sent);
               mret true
           end
       end) self
  end.
End Media.

(** ** Counts *)
Record SfuStats := { stats_rooms : Z; publisher_tracks : Z; subscriber_tracks : Z }.
Definition stats (self : SfuRegistry) : SfuStats :=
  foldl (fun s kv =>
    {| stats_rooms := saturating_add 64 (stats_rooms s) 1;
       publisher_tracks := saturating_add 64 (publisher_tracks s) (Z.of_nat (size (track_owners kv.2)));
       subscriber_tracks := saturating_add 64 (subscriber_tracks s) (Z.of_nat (size (subscriptions kv.2))) |})
    {| stats_rooms := 0; publisher_tracks := 0; subscriber_tracks := 0 |} (iter (rooms self)).
End Runtime.
