(* ===== verification/SfuRuntimeInvariant.v ===== *)
(** * services/media-node: the tables of a room follow its forwarding core

    The media node keeps its own tables of owners, sources and subscriptions beside the forwarding core.  Here the
    effect of each call of the core on what those tables record, and the invariant that ties them together. *)
From S2P Require Import Prelude Words Slices RustStd RustStr SfuModel RoomInvariant SfuRuntime.
From S2P Require RtpExtension RtpPacket RtcpModel Twcc Rtcp MediaCodec DownTrack Room RoomSafety BandwidthEstimator LayerSelector.
Import Room (Room, HashOrder).
Import DownTrack (DownTrack, configuration).
Import LayerSelector (LayerSelector, LayerOption, UnstableSort).

(** ** What the tables record of the core *)
Definition sub_pair (d : DownTrack) : ParticipantId * TrackId := (subscriber (configuration d), sub_track_id (configuration d)).
Record same_view (r r' : Room) : Prop := {
  sv_tracks : Room.tracks r' = Room.tracks r;
  sv_ssrcs : Room.ssrc_index r' = Room.ssrc_index r;
  sv_subs : sub_pair <$> Room.subscriptions r' = sub_pair <$> Room.subscriptions r }.

Lemma same_view_refl r : same_view r r.
Proof. by split. Qed.
Lemma same_view_trans r1 r2 r3 : same_view r1 r2 -> same_view r2 r3 -> same_view r1 r3.
Proof. intros [A1 A2 A3] [B1 B2 B3]. split; congruence. Qed.

Lemma view_update r id d d' : Room.subscriptions r !! id = Some d -> configuration d' = configuration d ->
  same_view r (Room.set_subscriptions (<[id := d']> (Room.subscriptions r)) r).
Proof.
  intros Hd Hc. split; cbn; [done..|]. rewrite fmap_insert. apply insert_id. rewrite lookup_fmap, Hd. cbn. unfold sub_pair. by rewrite Hc.
Qed.
Lemma view_pli r m : same_view r (Room.set_last_pli m r).
Proof. by split. Qed.
Lemma maybe_pli_view now tid ssrc r : same_view r (Room.maybe_pli now tid ssrc r).1.
Proof. unfold Room.maybe_pli. case_match; [apply same_view_refl|apply view_pli]. Qed.

Lemma set_target_layer_view now who id layer r : same_view r (Room.set_target_layer now who id layer r).1.
Proof.
  unfold Room.set_target_layer. destruct (Room.subscriptions r !! id) as [d|] eqn:Hd; [|apply same_view_refl].
  destruct (negb _); [apply same_view_refl|].
  assert (configuration (DownTrack.set_target_layer layer d).1 = configuration d) as Hc by (unfold DownTrack.set_target_layer; by case_match).
  destruct (DownTrack.set_target_layer layer d) as [d' changed]. cbn [fst] in Hc.
  pose proof (view_update r id d d' Hd Hc) as Hv. set (r1 := Room.set_subscriptions _ r) in *.
  destruct (Room.tracks r1 !! _) as [t|]; [|done]. destruct (encoding t _) as [e|]; [|done].
  destruct (changed && _); [|done].
  pose proof (maybe_pli_view now (sub_track_id (configuration d)) (enc_ssrc e) r1) as Hp.
  destruct (Room.maybe_pli _ _ _ r1) as [r2 ev]. by eapply same_view_trans.
Qed.

Lemma forward_config now track layer info input d : configuration (DownTrack.forward now track layer info input d).1 = configuration d.
Proof.
  destruct (DownTrack.forward_gate track layer info d) as [dec|] eqn:Hg; [unfold DownTrack.forward; by rewrite Hg|].
  destruct (RtpPacket.parse input) as [p|e| |] eqn:Hp; [|unfold DownTrack.forward; by rewrite Hg, Hp..].
  rewrite (DownTrack.forward_spec _ _ _ _ _ _ p) by done. cbv zeta.
  destruct (DownTrack.advanced_frame layer (RtpPacket.header p) d) as (Hc & _).
  destruct (DownTrack.apply_rewrite _ _) as [packet|e| |]; [|done..].
  destruct (RtpPacket.rewrite_header_extensions _ _) as [packet'|e| |]; [|done..].
  cbn [fst]. match goal with |- context [DownTrack.cache_packet ?n ?p ?d] => destruct (DownTrack.cache_packet_frame n p d) as (Hc2 & _) end.
  congruence.
Qed.

Lemma forward_loop_view now track layer info input ids out b r :
  same_view r (Room.forward_loop now track layer info input ids out b r).1.
Proof.
  revert out b r. induction ids as [|id ids IH]; intros out b r; cbn [Room.forward_loop]; [apply same_view_refl|].
  destruct (Room.subscriptions r !! id) as [d|] eqn:Hd; [|apply IH].
  pose proof (forward_config now track layer info input d) as Hc. destruct (DownTrack.forward _ _ _ _ _ d) as [d' dec]. cbn [fst] in Hc.
  pose proof (view_update r id d d' Hd Hc) as Hv.
  destruct dec as [[packet ev|w]|e| |]; [..|done|done|done]; (eapply same_view_trans; [exact Hv|apply IH]).
Qed.

Lemma handle_rtp_view `{!HashOrder} now who input r : same_view r (Room.handle_rtp now who input r).1.
Proof.
  unfold Room.handle_rtp. destruct (Room.admit_rtp who input r) as [[[[tid track] layer] info]|e| |]; [|apply same_view_refl..].
  pose proof (forward_loop_view now track layer info input (default [] (Room.track_subscriptions r !! tid)) {| packets := []; fo_events := [] |} false r) as Hv.
  unfold mbind, prog_bind. destruct (Room.forward_loop _ _ _ _ _ _ _ _ r) as [r' [[out b]|e| |]]; cbn [fst] in *; [|done..].
  unfold Room.request_keyframe. destruct (if b then _ else _) as [e|]; [|done].
  pose proof (maybe_pli_view now tid (enc_ssrc e) r') as Hp. destruct (Room.maybe_pli _ _ _ r'). by eapply same_view_trans.
Qed.

Lemma handle_control_view now who s packet : same_view s.1 (Room.handle_control now who s packet).1.
Proof.
  destruct s as [r out]. destruct packet as [?|?|?|nack|pli|fb|?]; cbn [Room.handle_control fst]; try apply same_view_refl.
  - destruct (Room.authorized_down_track _ _ r) as [[id d]|] eqn:Ha; [|apply same_view_refl].
    apply authorized_Some in Ha as (_ & Hd & _). cbn. by eapply view_update.
  - cbv zeta. destruct (mbind _ _) as [[tid ssrc]|]; [|apply same_view_refl].
    pose proof (maybe_pli_view now tid ssrc r) as Hp. by destruct (Room.maybe_pli _ _ _ r).
Qed.
Lemma handle_rtcp_view now who input r : same_view r (Room.handle_rtcp now who input r).1.
Proof.
  unfold Room.handle_rtcp. destruct (map_err _ _) as [ps|e| |]; [|apply same_view_refl..].
  assert (forall s, same_view s.1 (foldl (Room.handle_control now who) s ps).1) as H.
  { induction ps as [|p ps IH]; intros s; [apply same_view_refl|]. cbn. eapply same_view_trans; [apply handle_control_view|apply IH]. }
  specialize (H (r, {| retransmissions := []; co_events := [] |})). by destruct (foldl _ _ _).
Qed.

Lemma unsubscribe_view id r :
  Room.tracks (Room.unsubscribe id r).1 = Room.tracks r /\ Room.ssrc_index (Room.unsubscribe id r).1 = Room.ssrc_index r /\
  Room.subscriptions (Room.unsubscribe id r).1 = delete id (Room.subscriptions r).
Proof.
  unfold Room.unsubscribe, Room.remove_subscription. destruct (Room.subscriptions r !! id) as [d|] eqn:Hd; cbv zeta.
  - case_match; by split_and!.
  - split_and!; [done..|]. by rewrite delete_id.
Qed.

Lemma publish_cases t r : (exists o, Room.publish t r = (r, o) /\ (forall u, o <> Ok u)) \/
  (exists r', Room.publish t r = (r', Ok tt) /\ Room.tracks r !! track_id t = None /\ Room.tracks r' = <[track_id t := t]> (Room.tracks r) /\
    Room.ssrc_index r' = Room.index_encodings (track_id t) (encodings t) (Room.ssrc_index r) /\ Room.subscriptions r' = Room.subscriptions r).
Proof.
  unfold Room.publish. unfold mbind, prog_bind, lift, gets, modify, id. destruct (Room.validate_track t) as [u|e| |]; [|left; by eexists..].
  destruct (Room.contains (Room.tracks r) (track_id t)) eqn:Hid; cbn [reject_if]; [left; by eexists|].
  destruct (_ <=? _); cbn [reject_if]; [left; by eexists|]. destruct (existsb _ (encodings t)); cbn [reject_if]; [left; by eexists|].
  apply contains_false in Hid. right. by eexists.
Qed.

Lemma subscribe_cases c r : (exists o, Room.subscribe c r = (r, o) /\ (forall u, o <> Ok u)) \/
  (exists r' d, Room.subscribe c r = (r', Ok tt) /\ Room.subscriptions r !! sub_id c = None /\ is_Some (Room.tracks r !! sub_track_id c) /\
    Room.tracks r' = Room.tracks r /\ Room.ssrc_index r' = Room.ssrc_index r /\ Room.subscriptions r' = <[sub_id c := d]> (Room.subscriptions r) /\
    configuration d = c).
Proof.
  unfold Room.subscribe. unfold mbind, prog_bind, lift, gets, modify, id.
  destruct (Room.contains (Room.subscriptions r) (sub_id c)) eqn:Hid; cbn [reject_if]; [left; by eexists|].
  destruct (Room.contains (Room.output_ssrc_index r) _); cbn [reject_if]; [left; by eexists|].
  destruct (negb _); cbn [reject_if]; [left; by eexists|]. destruct (_ <=? _); cbn [reject_if]; [left; by eexists|].
  destruct (Room.tracks r !! sub_track_id c) as [t|] eqn:Ht; cbn [ok_or]; [|left; by eexists].
  destruct (encoding t _) as [e|]; cbn [ok_or]; [|left; by eexists]. apply contains_false in Hid. right. eexists _, _. by split_and!; eauto.
Qed.

(** ** Reported feedback *)
Lemma read_deltas_status body symbols p acc p' ss : bytes_ok body -> Forall BandwidthEstimator.status_ok acc ->
  Twcc.read_deltas body symbols p acc = Ok (p', ss) -> Forall BandwidthEstimator.status_ok ss.
Proof.
  intros Hb. revert p acc. induction symbols as [|s symbols IH]; intros p acc Hacc H; cbn in H; [by simplify_eq|].
  destruct (s =? 0); [eapply IH; [|exact H]; apply Forall_app; split; [done|by repeat constructor]|].
  destruct (s =? 1).
  - apply bind_Ok in H as (d & Hd%ok_or_Ok & H). eapply IH; [|exact H]. apply Forall_app. split; [done|]. constructor; [|constructor].
    unfold get in Hd. destruct (0 <=? p); [|done]. exact (Forall_lookup_1 _ _ _ _ Hb Hd).
  - destruct (s =? 2); [|done]. apply bind_Ok in H as (d & Hd & H). eapply IH; [|exact H]. apply Forall_app. split; [done|]. constructor; [|constructor].
    unfold RtcpModel.read_i16 in Hd. destruct (read_be 2 _ body p) as [x|e| |] eqn:Hx; try done. apply Ok_inj in Hd as <-.
    apply read_be_Ok in Hx as (l1 & b & l2 & -> & _ & Hl & _ & ->). rewrite !bytes_ok_app in Hb.
    pose proof (from_be_bytes_bound b (proj1 (proj2 Hb))) as B. rewrite Hl in B. change (256 ^ Z.of_nat 2) with (2 ^ 16) in B.
    unfold BandwidthEstimator.status_ok, sfits, to_signed. change (2 ^ (16 - 1)) with 32768. destruct (Z.ltb_spec (from_be_bytes b) 32768); lia.
Qed.
Lemma twcc_reported body f : rust_slice body -> Twcc.parse body = Ok f -> BandwidthEstimator.feedback_ok f.
Proof.
  intros Hs Hp. split; [exact (proj2 (proj2 (Twcc.twcc_parse_bounded body Hs) f Hp))|]. unfold Twcc.parse in Hp.
  do 7 (apply bind_Ok in Hp as (? & _ & Hp)). apply bind_Ok in Hp as ([p ss] & _ & Hp). apply bind_Ok in Hp as ([p' sts] & Hd & Hp).
  do 2 (apply bind_Ok in Hp as (? & _ & Hp)). apply Ok_inj in Hp as <-. cbn. eapply read_deltas_status; [apply Hs|constructor|exact Hd].
Qed.

Definition reported (p : RtcpModel.Packet) : Prop :=
  match p with RtcpModel.PTransportWideFeedback f => BandwidthEstimator.feedback_ok f | _ => True end.
Lemma parse_one_reported remaining p n : rust_slice remaining -> Rtcp.parse_one remaining = Ok (p, n) -> reported p.
Proof.
  intros Hs H. unfold Rtcp.parse_one in H. do 6 (apply bind_Ok in H as (? & _ & H)). apply bind_Ok in H as (n' & _ & H).
  apply bind_Ok in H as (pb & Hpb%ok_or_Ok & H). apply bind_Ok in H as (bp & Hbp%ok_or_Ok & H). apply bind_Ok in H as (body & Hbody & H).
  apply bind_Ok in H as (q & Hq & H). apply Ok_inj in H. injection H as <- <-.
  assert (rust_slice body) as Hb.
  { apply Rtcp.strip_padding_range in Hbody as (k & Hr). eapply Rtcp.rust_slice_range; [|exact Hr].
    eapply Rtcp.rust_slice_range; [|exact Hbp]. by eapply Rtcp.rust_slice_range. }
  unfold Rtcp.parse_packet in Hq. repeat (match type of Hq with context [if ?b then _ else _] => destruct b end).
  all: try (match type of Hq with _ <$> ?m = _ => destruct m eqn:Hm; cbn in Hq end); try done; apply Ok_inj in Hq as <-; try done.
  by eapply twcc_reported.
Qed.
Lemma parse_loop_reported fuel input p acc ps : rust_slice input -> Forall reported acc -> Rtcp.parse_loop fuel input p acc = Ok ps -> Forall reported ps.
Proof.
  intros Hs. revert p acc. induction fuel as [|fuel IH]; intros p acc Hacc H; cbn in H; [done|].
  destruct (p <? len input); [|by simplify_eq]. apply bind_Ok in H as (rest & Hr%ok_or_Ok & H). apply bind_Ok in H as ([q n] & Hq & H).
  eapply IH; [|exact H]. apply Forall_app. split; [done|]. constructor; [|constructor]. eapply parse_one_reported; [|exact Hq].
  by eapply Rtcp.rust_slice_range.
Qed.
Lemma compound_reported input ps : rust_slice input -> Rtcp.parse_compound input = Ok ps -> Forall reported ps.
Proof.
  intros Hs H. unfold Rtcp.parse_compound in H. apply bind_Ok in H as (qs & Hq & H).
  assert (qs = ps) as -> by (destruct qs; [done|by apply Ok_inj in H]). eapply parse_loop_reported; [done|constructor|exact Hq].
Qed.

Definition event_reported (e : SfuEvent) : Prop := match e with TransportFeedback _ f => BandwidthEstimator.feedback_ok f | _ => True end.
Lemma handle_control_reported now who s p : reported p -> Forall event_reported (co_events s.2) ->
  Forall event_reported (co_events (Room.handle_control now who s p).2).
Proof.
  intros Hp Hs. destruct s as [r out]. destruct p as [?|?|?|nack|pli|fb|?]; cbn [Room.handle_control snd] in *; try done.
  - destruct (Room.authorized_down_track _ _ r) as [[id d]|]; [|done]. by destruct (DownTrack.retransmit _ _ d).
  - cbv zeta. destruct (mbind _ _) as [[tid ssrc]|]; [|done]. unfold Room.maybe_pli. destruct (from_option _ _ _); cbn; [by rewrite app_nil_r|].
    apply Forall_app. split; [done|by repeat constructor].
  - cbn. apply Forall_app. split; [done|]. constructor; [exact Hp|constructor].
Qed.
Lemma handle_rtcp_reported now who input r r' out : rust_slice input -> Room.handle_rtcp now who input r = (r', Ok out) ->
  Forall event_reported (co_events out).
Proof.
  intros Hs H. unfold Room.handle_rtcp in H. destruct (map_err Rtcp (Rtcp.parse_compound input)) as [ps|e| |] eqn:Hp; try done.
  apply map_err_Ok in Hp. apply compound_reported in Hp; [|done].
  assert (forall s, Forall event_reported (co_events s.2) -> Forall event_reported (co_events (foldl (Room.handle_control now who) s ps).2)) as Hf.
  { clear H. induction Hp as [|p ps Hp1 _ IH]; intros s Hacc; [done|]. cbn. by apply IH, handle_control_reported. }
  specialize (Hf (r, {| retransmissions := []; co_events := [] |}) ltac:(constructor)). destruct (foldl _ _ _). by simplify_eq.
Qed.

(** ** The invariant of a room *)
Definition layers_offered (options : list LayerOption) (track : PublishedTrack) : Prop :=
  forall o, o ∈ options -> is_Some (encoding track (spatial (LayerSelector.layer o))).
Record congestion_ok (m : ManagedRoom) (p : ParticipantId) (c : ParticipantCongestion) : Prop := {
  co_bound : is_Some (participant_sessions m !! p);
  co_estimator : BandwidthEstimator.est_ok (estimator c);
  co_layers id s : cong_subscriptions c !! id = Some s -> exists tid track,
    subscriptions m !! id = Some (p, tid) /\ Room.tracks (room m) !! tid = Some track /\ layers_offered (options s) track }.

(** Owners, sources and subscriptions are those of the core; whoever owns a track, subscribes or is measured has a session. *)
Record managed_ok (m : ManagedRoom) : Prop := {
  mo_room : room_ok (room m);
  mo_owners : track_owners m = owner <$> Room.tracks (room m);
  mo_inputs : input_tracks m = fst <$> Room.ssrc_index (room m);
  mo_subs : subscriptions m = sub_pair <$> Room.subscriptions (room m);
  mo_owner tid p : track_owners m !! tid = Some p -> is_Some (participant_sessions m !! p);
  mo_subscriber id p tid : subscriptions m !! id = Some (p, tid) -> is_Some (participant_sessions m !! p);
  mo_congestion p c : congestion m !! p = Some c -> congestion_ok m p c }.

Record sink_ok (rs : gmap bytes ManagedRoom) (key : bytes * TrackId * SocketAddr) (s : RecordingSink) : Prop := {
  sk_loopback : is_loopback (ip key.2) = true;
  sk_destination : destination s = key.2;
  sk_track : exists m track, rs !! key.1.1 = Some m /\ Room.tracks (room m) !! key.1.2 = Some track /\
    forall ssrc, source_ssrc s = Some ssrc -> ssrc ∈ enc_ssrc <$> encodings track }.
Record registry_ok (self : SfuRegistry) : Prop := {
  go_rooms name m : rooms self !! name = Some m -> managed_ok m /\ participant_sessions m <> ∅;
  go_sinks key s : recording_sinks self !! key = Some s -> sink_ok (rooms self) key s }.

Lemma default_registry_ok : registry_ok default_registry.
Proof. split; intros ? ? H; cbn in H; by rewrite lookup_empty in H. Qed.

(** A call of the core that the tables do not have to follow. *)
Lemma managed_same m r : managed_ok m -> room_ok r -> same_view (room m) r -> managed_ok (set_room r m).
Proof.
  intros [H1 H2 H3 H4 H5 H6 H7] Hr [Ht Hs Hd]. split; cbn; try done; [by rewrite Ht|by rewrite Hs|by rewrite Hd|].
  intros p c Hc. destruct (H7 p c Hc) as [C1 C2 C3]. split; cbn; [done..|]. by rewrite Ht.
Qed.

Definition core_keeps {A} (body : prog Room SfuError A) : Prop := forall r, room_ok r -> room_ok (body r).1 /\ same_view r (body r).1.
(** What every call that only routes leaves alone: who has a session, and the published tracks. *)
Record routed (m m' : ManagedRoom) : Prop := {
  rt_sessions : participant_sessions m' = participant_sessions m;
  rt_view : same_view (room m) (room m');
  rt_owners : track_owners m' = track_owners m }.
Lemma routed_refl m : routed m m.
Proof. split; [done|apply same_view_refl|done]. Qed.
Lemma routed_trans m1 m2 m3 : routed m1 m2 -> routed m2 m3 -> routed m1 m3.
Proof. intros [A1 A2 A3] [B1 B2 B3]. split; [congruence|by eapply same_view_trans|congruence]. Qed.

Lemma on_core_keeps {A} (body : prog Room SfuError A) m : core_keeps body -> managed_ok m ->
  managed_ok (on_core body m).1 /\ routed m (on_core body m).1.
Proof.
  intros Hb Hm. unfold on_core. destruct (Hb (room m) (mo_room _ Hm)) as [Hr Hv]. destruct (body (room m)) as [r o]. cbn [fst] in *.
  split; [by apply managed_same|by split].
Qed.
Lemma on_core_Ok {A} (body : prog Room SfuError A) m m' a : on_core body m = (m', Ok a) <-> exists r, body (room m) = (r, Ok a) /\ m' = set_room r m.
Proof.
  unfold on_core. destruct (body (room m)) as [r o]. split.
  - intros H. injection H as <- Ho. apply map_err_Ok in Ho as ->. by exists r.
  - intros (r' & H & ->). by injection H as -> ->.
Qed.

(** The registry after one room has changed without losing a track. *)
Lemma registry_update self name m m' : registry_ok self -> rooms self !! name = Some m -> managed_ok m' -> participant_sessions m' <> ∅ ->
  (forall tid t, Room.tracks (room m) !! tid = Some t -> Room.tracks (room m') !! tid = Some t) ->
  registry_ok (set_rooms (<[name := m']> (rooms self)) self).
Proof.
  intros [Hr Hs] Hm Hm' Hne Ht. split; cbn.
  - intros n x. rewrite lookup_insert_Some. intros [[_ <-]|[_ Hx]]; [done|exact (Hr n x Hx)].
  - intros key s [K1 K2 (m1 & t & K3 & K4 & K5)]%Hs. split; [done..|]. destruct (decide (key.1.1 = name)) as [Hk|Hn].
    + rewrite Hk in *. exists m', t. rewrite lookup_insert_eq. split_and!; [done| |done]. apply Ht. congruence.
    + exists m1, t. by rewrite lookup_insert_ne.
Qed.
Lemma registry_routed self name m m' : registry_ok self -> rooms self !! name = Some m -> managed_ok m' -> routed m m' ->
  registry_ok (set_rooms (<[name := m']> (rooms self)) self).
Proof.
  intros Hok Hm Hm' [R1 [R2 _ _] _]. eapply registry_update; [done..| |].
  - rewrite R1. by apply (go_rooms _ Hok _ _ Hm).
  - intros tid t. by rewrite R2.
Qed.

(** ** Sessions *)
Lemma new_managed_ok : managed_ok new_managed.
Proof.
  split; cbn; rewrite ?fmap_empty; try done; [apply new_room_ok; cbn; unfold limits_typed; cbn; lia|..]; intros *; rewrite lookup_empty; done.
Qed.
Lemma bound_insert (s : gmap ParticipantId bytes) p q x : is_Some (s !! p) -> is_Some (<[q := x]> s !! p).
Proof. intros Hp. destruct (decide (p = q)) as [->|]; [by rewrite lookup_insert_eq|by rewrite lookup_insert_ne]. Qed.
Lemma set_sessions_ok m p x : managed_ok m -> managed_ok (set_sessions (<[p := x]> (participant_sessions m)) m).
Proof.
  intros [H1 H2 H3 H4 H5 H6 H7]. split; cbn; try done.
  - intros tid q Hq. eapply bound_insert, H5, Hq.
  - intros id q tid Hq. eapply bound_insert, H6, Hq.
  - intros q c [C1 C2 C3]%H7. split; cbn; [by apply bound_insert|done..].
Qed.
Lemma bind_session_ok room_id participant_id session_id self : registry_ok self -> registry_ok (bind_session room_id participant_id session_id self).1.
Proof.
  intros Hok. unfold bind_session, mbind, prog_bind, lift, modify. destruct (validate_identifier room_id); [|done..].
  destruct (parse_participant participant_id) as [p|e| |]; [|done..]. destruct (validate_identifier session_id); [|done..]. cbn [fst].
  set (m := default new_managed (rooms self !! room_id)).
  assert (managed_ok m) as Hm by (unfold m; destruct (rooms self !! room_id) as [x|] eqn:Hx; [by eapply go_rooms|apply new_managed_ok]).
  split; cbn.
  - intros n x. rewrite lookup_insert_Some. intros [[_ <-]|[_ Hx]]; [|exact (go_rooms _ Hok n x Hx)].
    split; [by apply set_sessions_ok|]. cbn. apply insert_non_empty.
  - intros key s [K1 K2 (m1 & t & K3 & K4 & K5)]%(go_sinks _ Hok). split; [done..|]. destruct (decide (key.1.1 = room_id)) as [Hk|Hn].
    + rewrite Hk in *. eexists _, t. rewrite lookup_insert_eq. split_and!; [done| |done]. cbn. unfold m. by rewrite K3.
    + exists m1, t. by rewrite lookup_insert_ne.
Qed.

(** A method of one room: nothing happens when the room does not exist. *)
Lemma on_room_ok {A} name (body : prog ManagedRoom SfuRuntimeError A) self : registry_ok self ->
  (forall m, rooms self !! name = Some m -> managed_ok m -> participant_sessions m <> ∅ ->
     registry_ok (set_rooms (<[name := (body m).1]> (rooms self)) self)) ->
  registry_ok (on_room name body self).1.
Proof.
  intros Hok Hb. unfold on_room. destruct (rooms self !! name) as [m|] eqn:Hm; [|done]. destruct (go_rooms _ Hok _ _ Hm) as [H1 H2].
  specialize (Hb m eq_refl H1 H2). by destruct (body m).
Qed.
Lemma on_room_routed {A} name (body : prog ManagedRoom SfuRuntimeError A) self : registry_ok self ->
  (forall m, managed_ok m -> managed_ok (body m).1 /\ routed m (body m).1) -> registry_ok (on_room name body self).1.
Proof. intros Hok Hb. apply on_room_ok; [done|]. intros m Hm H1 _. destruct (Hb m H1) as [H2 H3]. by eapply registry_routed. Qed.

(** ** Publishing *)
Lemma inputs_fold (tid : TrackId) es : forall (i : gmap Z TrackId) (x : gmap Z (TrackId * Z)), i = fst <$> x ->
  foldl (fun i ssrc => <[ssrc := tid]> i) i (enc_ssrc <$> es) = fst <$> Room.index_encodings tid es x.
Proof.
  unfold Room.index_encodings. induction es as [|e es IH]; intros i x Hi; [done|]. cbn. apply IH. by rewrite fmap_insert, Hi.
Qed.
Lemma publish_in_ok input p m : track_typed (track_of p input) -> managed_ok m -> is_Some (participant_sessions m !! p) ->
  forall r, room_ok r -> Room.publish (track_of p input) (room m) = (r, Ok tt) ->
  Room.tracks (room m) !! pt_track_id input = None /\ Room.tracks r = <[pt_track_id input := track_of p input]> (Room.tracks (room m)) /\
  managed_ok (set_inputs (foldl (fun i ssrc => <[ssrc := pt_track_id input]> i) (input_tracks m) (enc_ssrc <$> pt_encodings input))
    (set_owners (<[pt_track_id input := p]> (track_owners m)) (set_room r m))).
Proof.
  intros Hty [H1 H2 H3 H4 H5 H6 H7] Hp r Hr H. destruct (publish_cases (track_of p input) (room m)) as [(o & Ho & Hno)|(r' & Hr' & Hf & Ht & Hs & Hsub)].
  { rewrite H in Ho. injection Ho as <- <-. by destruct (Hno tt). }
  rewrite H in Hr'. injection Hr' as <-. cbn in Hf, Ht, Hs. split_and!; [done..|]. split; cbn; try done.
  - by rewrite Ht, H2, fmap_insert.
  - rewrite Hs. by apply inputs_fold.
  - by rewrite Hsub.
  - intros tid q. rewrite lookup_insert_Some. intros [[_ <-]|[_ Hq]]; [done|]. by eapply H5.
  - intros q c [C1 C2 C3]%H7. split; cbn; [done..|]. intros id s (tid & t & S1 & S2 & S3)%C3. exists tid, t. split_and!; [done| |done].
    rewrite Ht, lookup_insert_ne; [done|]. intros <-. congruence.
Qed.

Lemma require_session_cases p m : (require_session p m = (m, Err UnknownParticipant) /\ participant_sessions m !! p = None) \/
  (require_session p m = (m, Ok tt) /\ is_Some (participant_sessions m !! p)).
Proof.
  unfold require_session. destruct (participant_sessions m !! p) as [s|] eqn:Hs.
  - right. rewrite bool_decide_eq_true_2 by done. by split.
  - left. rewrite bool_decide_eq_false_2 by (intros [? ?]; done). by split.
Qed.

(** The typed values of a request, whoever makes it. *)
Definition publish_typed (input : PublishTrack) : Prop := u32 (pt_clock_rate input) /\ u8 (pt_payload_type input).
Lemma publish_registry_ok input self : publish_typed input -> registry_ok self -> registry_ok (publish input self).1.
Proof.
  intros Hty Hok. unfold publish. unfold mbind at 1, prog_bind, lift. destruct (parse_participant _) as [p|e| |]; [|done..].
  apply on_room_ok; [done|]. intros m Hm Hmo Hne. unfold mbind, prog_bind.
  destruct (require_session_cases p m) as [[-> _]|[-> Hp]]; [by eapply registry_routed; [| |done|apply routed_refl]|].
  unfold on_core. pose proof (publish_ok (track_of p input) Hty (room m) (mo_room _ Hmo)) as Hr.
  pose proof (publish_in_ok input p m Hty Hmo Hp) as Hpub.
  destruct (publish_cases (track_of p input) (room m)) as [(o & Ho & Hno)|(r' & Ho & _)]; rewrite Ho in *; cbn [fst] in Hr.
  - assert (set_room (room m) m = m) as -> by by destruct m. destruct o as [u|e| |]; [by destruct (Hno u)|..]; (by eapply registry_routed; [| |done|apply routed_refl]).
  - destruct (Hpub r' Hr eq_refl) as (Hf & Ht & Hmo'). cbn. eapply registry_update; [done..|]. intros tid t Htid. cbn. rewrite Ht, lookup_insert_ne; [done|].
    intros <-. congruence.
Qed.

(** ** Removing subscriptions from the tables *)
Record dropped (ids : list SubscriptionId) (m m' : ManagedRoom) : Prop := {
  dr_sessions : participant_sessions m' = participant_sessions m;
  dr_owners : track_owners m' = track_owners m;
  dr_inputs : input_tracks m' = input_tracks m;
  dr_subs id : subscriptions m' !! id = if decide (id ∈ ids) then None else subscriptions m !! id;
  dr_bound p : is_Some (congestion m' !! p) -> is_Some (congestion m !! p);
  dr_congestion p c' : congestion m' !! p = Some c' -> exists c, congestion m !! p = Some c /\ estimator c' = estimator c /\
    forall id s, cong_subscriptions c' !! id = Some s -> cong_subscriptions c !! id = Some s /\ forall tid, subscriptions m !! id = Some (p, tid) -> id ∉ ids }.

Lemma dropped_nil m m' : participant_sessions m' = participant_sessions m -> track_owners m' = track_owners m -> input_tracks m' = input_tracks m ->
  subscriptions m' = subscriptions m -> congestion m' = congestion m -> dropped [] m m'.
Proof.
  intros H1 H2 H3 H4 H5. split; rewrite ?H1, ?H2, ?H3, ?H4, ?H5; try done.
  intros p c' Hc. exists c'. split_and!; [done..|]. intros id s Hs. split; [done|]. intros tid _. apply not_elem_of_nil.
Qed.
Lemma dropped_app a b m1 m2 m3 : dropped a m1 m2 -> dropped b m2 m3 -> dropped (a ++ b) m1 m3.
Proof.
  intros [A1 A2 A3 A4 A5 A6] [B1 B2 B3 B4 B5 B6]. split; [congruence..| | |].
  - intros id. rewrite B4, A4. repeat case_decide; set_solver.
  - intros p Hp. by apply A5, B5.
  - intros p c' (c1 & Hc1 & He1 & Hs1)%B6. destruct (A6 p c1 Hc1) as (c & Hc & He & Hs). exists c. split_and!; [done|congruence|].
    intros id s [Hid Hb]%Hs1. destruct (Hs id s Hid) as [Hid' Ha]. split; [done|]. intros tid Ht. specialize (Ha tid Ht).
    apply not_elem_of_app. split; [done|]. apply (Hb tid). by rewrite A4, decide_False.
Qed.
Lemma forget_layers_spec p id c q c' : forget_layers p id c !! q = Some c' -> exists c0, c !! q = Some c0 /\ estimator c' = estimator c0 /\
  forall i s, cong_subscriptions c' !! i = Some s -> cong_subscriptions c0 !! i = Some s /\ ~ (q = p /\ i = id).
Proof.
  unfold forget_layers. rewrite lookup_alter_Some. intros [(<- & c0 & Hc & ->)|[Hne Hc]].
  - exists c0. split_and!; [done..|]. intros i s. cbn. rewrite lookup_delete_Some. intros [Hn Hi]. split; [done|]. by intros [_ ->].
  - exists c'. split_and!; [done..|]. intros i s Hi. split; [done|]. by intros [-> _].
Qed.
Lemma forget_layers_bound p id c q : is_Some (forget_layers p id c !! q) -> is_Some (c !! q).
Proof. intros [c' (c0 & Hc & _)%forget_layers_spec]. by exists c0. Qed.

Lemma dropped_one m r p id : (forall q tid, subscriptions m !! id = Some (q, tid) -> q = p) ->
  dropped [id] m (set_congestion (forget_layers p id (congestion m)) (set_subscriptions (delete id (subscriptions m)) (set_room r m))).
Proof.
  intros Hp. split; cbn; try done.
  - intros i. case_decide as Hi; [apply list_elem_of_singleton in Hi as ->; by rewrite lookup_delete_eq|]. rewrite lookup_delete_ne; [done|]. set_solver.
  - apply forget_layers_bound.
  - intros q c' (c & Hc & He & Hs)%forget_layers_spec. exists c. split_and!; [done..|]. intros i s [Hi Hn]%Hs. split; [done|].
    intros tid Ht Hin%list_elem_of_singleton. subst i. apply Hn. split; [|done]. by eapply Hp.
Qed.
Lemma drop_subscription_dropped m id : room (drop_subscription m id) = room m /\ dropped [id] m (drop_subscription m id).
Proof.
  unfold drop_subscription. destruct (subscriptions m !! id) as [[p tid]|] eqn:Hid.
  - split; [done|]. pose proof (dropped_one m (room m) p id) as H. assert (set_room (room m) m = m) as Heq by by destruct m. rewrite Heq in H. apply H.
    intros q t Hq. rewrite Hid in Hq. by simplify_eq.
  - split; [done|]. split; try done.
    + intros i. case_decide as Hi; [by apply list_elem_of_singleton in Hi as ->|done].
    + intros p c Hc. exists c. split_and!; [done..|]. intros i s Hi. split; [done|]. intros tid Ht Hin%list_elem_of_singleton. congruence.
Qed.
Lemma drop_subscriptions_dropped ids m : room (foldl drop_subscription m ids) = room m /\ dropped ids m (foldl drop_subscription m ids).
Proof.
  revert m. induction ids as [|id ids IH]; intros m; cbn [foldl]; [split; [done|by apply dropped_nil]|].
  destruct (drop_subscription_dropped m id) as [H1 H2], (IH (drop_subscription m id)) as [H3 H4]. split; [congruence|].
  exact (dropped_app [id] ids _ _ _ H2 H4).
Qed.

(** Subscriptions that also leave the core, each with its subscriber. *)
Record released (ids : list SubscriptionId) (m m' : ManagedRoom) : Prop := {
  re_dropped : dropped ids m m';
  re_room : room_ok (room m) -> room_ok (room m');
  re_tracks : Room.tracks (room m') = Room.tracks (room m);
  re_ssrcs : Room.ssrc_index (room m') = Room.ssrc_index (room m);
  re_subs id : Room.subscriptions (room m') !! id = if decide (id ∈ ids) then None else Room.subscriptions (room m) !! id }.
Lemma release_one m id p : (forall q tid, subscriptions m !! id = Some (q, tid) -> q = p) -> released [id] m (release_subscription m (id, p)).
Proof.
  intros Hp. destruct (unsubscribe_view id (room m)) as (V1 & V2 & V3). split; cbn.
  - exact (dropped_one m (Room.unsubscribe id (room m)).1 p id Hp).
  - apply remove_subscription_ok.
  - done.
  - done.
  - intros i. rewrite V3. case_decide as Hi; [apply list_elem_of_singleton in Hi as ->; by rewrite lookup_delete_eq|]. rewrite lookup_delete_ne; [done|]. set_solver.
Qed.
Lemma release_all entries m : (forall id p q tid, (id, p) ∈ entries -> subscriptions m !! id = Some (q, tid) -> q = p) ->
  released entries.*1 m (foldl release_subscription m entries).
Proof.
  revert m. induction entries as [|[id p] entries IH]; intros m Hp; cbn [foldl fmap list_fmap].
  { split; [by apply dropped_nil|done..]. }
  assert (released [id] m (release_subscription m (id, p))) as H1 by (apply release_one; intros q tid; apply (Hp id p q tid); by left).
  assert (released entries.*1 (release_subscription m (id, p)) (foldl release_subscription (release_subscription m (id, p)) entries)) as H2.
  { apply IH. intros i q q' tid Hin Hsub. apply (Hp i q q' tid); [by right|]. rewrite (dr_subs _ _ _ (re_dropped _ _ _ H1)) in Hsub. by case_decide. }
  destruct H1 as [A1 A2 A3 A4 A5], H2 as [B1 B2 B3 B4 B5]. split; [exact (dropped_app [id] _ _ _ _ A1 B1)|by auto|congruence|congruence|].
  intros i. cbn [fst]. rewrite B5, A5. repeat case_decide; set_solver.
Qed.

(** ** Removing tracks *)
Record room_without (tids : list TrackId) (r r' : Room) : Prop := {
  rw_ok : room_ok r';
  rw_tracks t : Room.tracks r' !! t = if decide (t ∈ tids) then None else Room.tracks r !! t;
  rw_ssrcs s : Room.ssrc_index r' !! s = x ← Room.ssrc_index r !! s; if decide (x.1 ∈ tids) then None else Some x;
  rw_subs id : Room.subscriptions r' !! id = d ← Room.subscriptions r !! id; if decide (sub_track_id (configuration d) ∈ tids) then None else Some d }.

Lemma room_without_one tid r : room_ok r -> room_without [tid] r (Room.unpublish tid r).1.
Proof.
  intros Hr. destruct (Room.tracks r !! tid) as [t|] eqn:Ht.
  - pose proof (unpublish_effect tid t r Hr Ht) as [_ U1 U2 _ U3 _]. split; [by apply unpublish_ok|..].
    + intros u. rewrite U1. case_decide as Hu; [apply list_elem_of_singleton in Hu as ->; by rewrite lookup_delete_eq|]. rewrite lookup_delete_ne; [done|]. set_solver.
    + intros s. rewrite U2. destruct (Room.ssrc_index r !! s) as [[u l]|] eqn:Hs; cbn; [|by case_decide].
      apply (ro_ssrc _ Hr) in Hs as (t' & e & Ht' & He & <- & _). destruct (decide (u ∈ [tid])) as [Hu|Hu].
      * apply list_elem_of_singleton in Hu as ->. rewrite Ht in Ht'. simplify_eq. rewrite decide_True; [done|]. by apply list_elem_of_fmap_2.
      * rewrite decide_False; [done|]. intros (e' & Heq & He')%list_elem_of_fmap.
        assert (Room.ssrc_index r !! enc_ssrc e = Some (tid, spatial_layer e')) as H1 by (apply (ro_ssrc _ Hr); by exists t, e').
        assert (Room.ssrc_index r !! enc_ssrc e = Some (u, spatial_layer e)) as H2 by (apply (ro_ssrc _ Hr); by exists t', e).
        rewrite H1 in H2. simplify_eq. set_solver.
    + intros id. apply option_eq. intros d. rewrite U3, bind_Some. split.
      * intros [Hd Hne]. exists d. split; [done|]. rewrite decide_False; [done|]. set_solver.
      * intros (d' & Hd & Hx). case_decide; [done|]. simplify_eq. split; [done|]. set_solver.
  - assert ((Room.unpublish tid r).1 = r) as -> by (unfold Room.unpublish; by rewrite Ht). split; [done|..].
    + intros u. case_decide as Hu; [|done]. by apply list_elem_of_singleton in Hu as ->.
    + intros s. destruct (Room.ssrc_index r !! s) as [[u l]|] eqn:Hs; cbn; [|done]. rewrite decide_False; [done|].
      apply (ro_ssrc _ Hr) in Hs as (t' & e & Ht' & _). intros ->%list_elem_of_singleton. congruence.
    + intros id. destruct (Room.subscriptions r !! id) as [d|] eqn:Hd; cbn; [|done]. rewrite decide_False; [done|].
      intros Hin%list_elem_of_singleton. destruct (ro_sub _ Hr _ _ Hd) as (_ & _ & _ & [x Hx]). congruence.
Qed.
Lemma room_without_app a b r1 r2 r3 : room_without a r1 r2 -> room_without b r2 r3 -> room_without (a ++ b) r1 r3.
Proof.
  intros [_ A1 A2 A3] [B0 B1 B2 B3]. split; [done|..].
  - intros t. rewrite B1, A1. repeat case_decide; set_solver.
  - intros s. rewrite B2, A2. destruct (Room.ssrc_index r1 !! s) as [x|]; cbn; [|done]. repeat (case_decide; cbn); set_solver.
  - intros id. rewrite B3, A3. destruct (Room.subscriptions r1 !! id) as [d|]; cbn; [|done]. repeat (case_decide; cbn); set_solver.
Qed.
Lemma room_without_nil r : room_ok r -> room_without [] r r.
Proof.
  intros Hr. split; [done|..]; intros k; [done|destruct (Room.ssrc_index r !! k); cbn; [by rewrite decide_False by apply not_elem_of_nil|done]|].
  destruct (Room.subscriptions r !! k); cbn; [by rewrite decide_False by apply not_elem_of_nil|done].
Qed.

Lemma release_tracks tids m : room_ok (room m) -> let m' := foldl release_track m tids in
  room_without tids (room m) (room m') /\ (forall t, track_owners m' !! t = if decide (t ∈ tids) then None else track_owners m !! t) /\
  participant_sessions m' = participant_sessions m /\ input_tracks m' = input_tracks m /\ subscriptions m' = subscriptions m /\ congestion m' = congestion m.
Proof.
  revert m. induction tids as [|tid tids IH]; intros m Hr; cbn [foldl]; [split_and!; [by apply room_without_nil|done..]|].
  pose proof (room_without_one tid (room m) Hr) as H1. destruct (IH (release_track m tid)) as (A1 & A2 & A3 & A4 & A5 & A6); [apply H1|]. cbv zeta.
  split_and!; [exact (room_without_app [tid] tids _ _ _ H1 A1)| |done..]. intros t. rewrite A2. cbn.
  destruct (decide (t = tid)) as [->|Hne]; [rewrite lookup_delete_eq; repeat case_decide; set_solver|]. rewrite lookup_delete_ne by done. repeat case_decide; set_solver.
Qed.

(** A room whose tables lost the tracks [tids], the subscriptions [ids] and everything of the participants in [gone]. *)
Record rebuilt (gone : ParticipantId -> Prop) (tids : list TrackId) (ids : list SubscriptionId) (m m' : ManagedRoom) : Prop := {
  rb_room : room_ok (room m');
  rb_tracks t : Room.tracks (room m') !! t = if decide (t ∈ tids) then None else Room.tracks (room m) !! t;
  rb_ssrcs s : Room.ssrc_index (room m') !! s = x ← Room.ssrc_index (room m) !! s; if decide (x.1 ∈ tids) then None else Some x;
  rb_core id : Room.subscriptions (room m') !! id = if decide (id ∈ ids) then None else Room.subscriptions (room m) !! id;
  rb_owners t : track_owners m' !! t = if decide (t ∈ tids) then None else track_owners m !! t;
  rb_inputs : input_tracks m' = filter (fun kv => kv.2 ∉ tids) (input_tracks m);
  rb_subs id : subscriptions m' !! id = if decide (id ∈ ids) then None else subscriptions m !! id;
  rb_of_tracks id q t : subscriptions m !! id = Some (q, t) -> t ∈ tids -> id ∈ ids;
  rb_sessions q : is_Some (participant_sessions m !! q) -> gone q \/ is_Some (participant_sessions m' !! q);
  rb_gone q : gone q -> (forall t, track_owners m !! t = Some q -> t ∈ tids) /\ (forall id t, subscriptions m !! id = Some (q, t) -> id ∈ ids) /\ congestion m' !! q = None;
  rb_congestion p c' : congestion m' !! p = Some c' -> exists c, congestion m !! p = Some c /\ estimator c' = estimator c /\
    forall id s, cong_subscriptions c' !! id = Some s -> cong_subscriptions c !! id = Some s /\ forall tid, subscriptions m !! id = Some (p, tid) -> id ∉ ids }.

Lemma rebuilt_ok gone tids ids m m' : managed_ok m -> rebuilt gone tids ids m m' -> managed_ok m'.
Proof.
  intros [H1 H2 H3 H4 H5 H6 H7] [R1 R2 R3 R4 R5 R6 R7 R8 R9 R10 R11]. split; [done|..].
  - apply map_eq. intros t. rewrite R5, H2, !lookup_fmap, R2. by case_decide.
  - rewrite R6, H3. apply map_eq. intros s. rewrite lookup_fmap, R3. apply option_eq. intros t. rewrite map_lookup_filter_Some, lookup_fmap.
    destruct (Room.ssrc_index (room m) !! s) as [x|]; cbn; [|naive_solver]. case_decide; cbn; naive_solver.
  - apply map_eq. intros id. rewrite R7, H4, !lookup_fmap, R4. by case_decide.
  - intros t q. rewrite R5. case_decide as Ht; [done|]. intros Hq. destruct (R9 q (H5 _ _ Hq)) as [Hg|]; [|done]. destruct (R10 q Hg) as [Hall _].
    by destruct Ht; eapply Hall.
  - intros id q t. rewrite R7. case_decide as Hid; [done|]. intros Hq. destruct (R9 q (H6 _ _ _ Hq)) as [Hg|]; [|done]. destruct (R10 q Hg) as (_ & Hall & _).
    by destruct Hid; eapply Hall.
  - intros q c' Hc'. destruct (R11 q c' Hc') as (c & Hc & He & Hs). destruct (H7 q c Hc) as [C1 C2 C3]. split.
    + destruct (R9 q C1) as [Hg|]; [|done]. destruct (R10 q Hg) as (_ & _ & Hn). congruence.
    + by rewrite He.
    + intros id s [Hid Hni]%Hs. destruct (C3 id s Hid) as (t & tr & S1 & S2 & S3). exists t, tr. specialize (Hni t S1). split_and!; [| |done].
      * by rewrite R7, decide_False.
      * rewrite R2, decide_False; [done|]. intros Hin. by apply Hni, (R8 id q t).
Qed.

(** The sinks that remain belong to tracks that remain. *)
Lemma drop_sinks_Some name tid sinks key s : drop_sinks name tid sinks !! key = Some s <-> sinks !! key = Some s /\ ~ (key.1.1 = name /\ key.1.2 = tid).
Proof. unfold drop_sinks. rewrite map_lookup_filter_Some. cbn. split; intros [H1 H2]; (split; [done|]); destruct (decide (key.1.1 = name)), (decide (key.1.2 = tid)); tauto. Qed.
Lemma drop_all_sinks name tids sinks key s : foldl (fun sinks t => drop_sinks name t sinks) sinks tids !! key = Some s <->
  sinks !! key = Some s /\ ~ (key.1.1 = name /\ key.1.2 ∈ tids).
Proof.
  revert sinks. induction tids as [|t tids IH]; intros sinks; cbn [foldl]; [set_solver|]. rewrite IH, drop_sinks_Some, elem_of_cons. tauto.
Qed.
Lemma registry_rebuilt gone tids ids self name m m' sinks : registry_ok self -> rooms self !! name = Some m -> rebuilt gone tids ids m m' ->
  participant_sessions m' <> ∅ -> (forall key s, sinks !! key = Some s <-> recording_sinks self !! key = Some s /\ ~ (key.1.1 = name /\ key.1.2 ∈ tids)) ->
  registry_ok {| rooms := <[name := m']> (rooms self); recording_sinks := sinks |}.
Proof.
  intros Hok Hm Hb Hne Hs. destruct (go_rooms _ Hok _ _ Hm) as [Hmo _]. split; cbn.
  - intros n x. rewrite lookup_insert_Some. intros [[_ <-]|[_ Hx]]; [|exact (go_rooms _ Hok n x Hx)]. split; [by eapply rebuilt_ok|done].
  - intros key s [Hk Hn]%Hs. destruct (go_sinks _ Hok key s Hk) as [K1 K2 (m1 & t & K3 & K4 & K5)]. split; [done..|].
    destruct (decide (key.1.1 = name)) as [Heq|Hneq]; [|exists m1, t; by rewrite lookup_insert_ne].
    rewrite Heq in *. exists m', t. rewrite lookup_insert_eq. split_and!; [done| |done]. rewrite (rb_tracks _ _ _ _ _ Hb), decide_False; [congruence|tauto].
Qed.

Section Calls.
Context `{!HashIteration}.

Lemma elem_of_iter {K V} `{Countable K} (m : gmap K V) k v : (k, v) ∈ iter m <-> m !! k = Some v.
Proof. rewrite (iter_perm m). apply elem_of_map_to_list. Qed.
Lemma omap_iter {K V B} `{Countable K} (f : K * V -> option B) (m : gmap K V) b :
  b ∈ omap f (iter m) <-> exists k v, m !! k = Some v /\ f (k, v) = Some b.
Proof.
  rewrite list_elem_of_omap. split.
  - intros ([k v] & Hin & Hf). apply elem_of_iter in Hin. by exists k, v.
  - intros (k & v & Hk & Hf). exists (k, v). by rewrite elem_of_iter.
Qed.

Lemma of_track id tid (m : ManagedRoom) :
  id ∈ omap (fun kv => if kv.2.2 =? tid then Some kv.1 else None) (iter (subscriptions m)) <-> exists p, subscriptions m !! id = Some (p, tid).
Proof.
  rewrite omap_iter. split.
  - intros (k & [p t] & Hk & Hf). cbn in Hf. destruct (Z.eqb_spec t tid) as [->|]; simplify_eq. by exists p.
  - intros [p Hp]. exists id, (p, tid). cbn. by rewrite Z.eqb_refl.
Qed.

Lemma unpublish_in_cases tid m : managed_ok m ->
  (unpublish_in tid m = (m, false) /\ Room.tracks (room m) !! tid = None) \/
  exists m' ids, unpublish_in tid m = (m', true) /\ is_Some (Room.tracks (room m) !! tid) /\ rebuilt (fun _ => False) [tid] ids m m' /\
    participant_sessions m' = participant_sessions m.
Proof.
  intros Hm. unfold unpublish_in. pose proof (room_without_one tid (room m) (mo_room _ Hm)) as Hw.
  destruct (Room.tracks (room m) !! tid) as [t|] eqn:Ht.
  2: { left. split; [|done]. unfold Room.unpublish. rewrite Ht. cbn. by destruct m. }
  assert ((Room.unpublish tid (room m)).2 = true) as Hf by (unfold Room.unpublish; rewrite Ht; cbv zeta; by case_match).
  destruct (Room.unpublish tid (room m)) as [r b]. cbn [fst snd] in *. subst b. cbn [negb]. right.
  set (m1 := set_inputs _ _). set (ids := omap _ _). destruct (drop_subscriptions_dropped ids m1) as [D1 D2]. eexists _, ids.
  assert (forall id, id ∈ ids <-> exists p, subscriptions m !! id = Some (p, tid)) as Hids by (intros id; exact (of_track id tid m)).
  split_and!; [done|by exists t| |by rewrite (dr_sessions _ _ _ D2)]. destruct D2 as [E1 E2 E3 E4 E5 E6], Hw as [W1 W2 W3 W4]. split.
  - by rewrite D1.
  - intros u. by rewrite D1.
  - intros s. by rewrite D1.
  - intros id. rewrite D1. cbn. rewrite W4. destruct (Room.subscriptions (room m) !! id) as [d|] eqn:Hd; cbn; [|by case_decide].
    assert (subscriptions m !! id = Some (sub_pair d)) as Hsub by by rewrite (mo_subs _ Hm), lookup_fmap, Hd.
    destruct (decide (sub_track_id (configuration d) ∈ [tid])) as [Hin|Hni].
    + apply list_elem_of_singleton in Hin. rewrite decide_True; [done|]. apply Hids. exists (subscriber (configuration d)). by rewrite Hsub, <- Hin.
    + rewrite decide_False; [done|]. intros [p Hp]%Hids. rewrite Hsub in Hp. injection Hp as _ Hp. apply Hni. rewrite Hp. by left.
  - intros u. rewrite E2. cbn. case_decide as Hu; [apply list_elem_of_singleton in Hu as ->; by rewrite lookup_delete_eq|]. rewrite lookup_delete_ne; [done|]. set_solver.
  - rewrite E3. cbn. apply map_filter_ext. intros k v _. cbn. rewrite list_elem_of_singleton. done.
  - intros id. by rewrite E4.
  - intros id q u Hq Hu%list_elem_of_singleton. subst u. apply Hids. by exists q.
  - intros q Hq. right. by rewrite E1.
  - done.
  - done.
Qed.

Lemma unpublish_registry_ok name tid self : registry_ok self -> registry_ok (unpublish name tid self).1.
Proof.
  intros Hok. unfold unpublish. destruct (rooms self !! name) as [m|] eqn:Hm; [|done]. destruct (go_rooms _ Hok _ _ Hm) as [Hmo Hne].
  destruct (unpublish_in_cases tid m Hmo) as [[-> _]|(m' & ids & -> & _ & Hb & Hs)]; cbn [negb fst].
  - eapply registry_routed; [done..|apply routed_refl].
  - cbn. eapply registry_rebuilt; [done..|by rewrite Hs|]. intros key s. rewrite drop_sinks_Some, list_elem_of_singleton. done.
Qed.
Lemma unpublish_owned_ok name pid tid self : registry_ok self -> registry_ok (unpublish_owned name pid tid self).1.
Proof.
  intros Hok. unfold unpublish_owned, mbind, prog_bind, lift, removed_or_unknown, on_room. destruct (parse_participant pid) as [p|e| |]; [|done..].
  destruct (rooms self !! name) as [m|] eqn:Hm; [|done].
  assert (registry_ok (set_rooms (<[name := m]> (rooms self)) self)) as Hok' by (eapply registry_routed; [done..|by eapply go_rooms|apply routed_refl]).
  destruct (ok_or _ _) as [q|e| |]; [|done..]. destruct (reject_if _ _); [|done..].
  pose proof (unpublish_registry_ok name tid _ Hok') as Hu. by destruct (unpublish name tid _).
Qed.

(** ** Unsubscribing *)
Lemma released_rebuilt id m m' : managed_ok m -> released [id] m m' -> rebuilt (fun _ => False) [] [id] m m'.
Proof.
  intros Hm [[E1 E2 E3 E4 E5 E6] R1 R2 R3 R4]. split; try done.
  - apply R1, Hm.
  - intros t. rewrite R2. by rewrite decide_False by apply not_elem_of_nil.
  - intros s. rewrite R3. destruct (Room.ssrc_index (room m) !! s); cbn; [by rewrite decide_False by apply not_elem_of_nil|done].
  - intros t. rewrite E2. by rewrite decide_False by apply not_elem_of_nil.
  - rewrite E3. symmetry. apply map_filter_id. intros k v _. apply not_elem_of_nil.
  - intros i q t _ Ht. by apply not_elem_of_nil in Ht.
  - intros q Hq. right. by rewrite E1.
Qed.
Lemma unsubscribe_ok name pid sid self : registry_ok self -> registry_ok (unsubscribe name pid sid self).1.
Proof.
  intros Hok. unfold unsubscribe. unfold mbind at 1, prog_bind, lift. destruct (parse_participant pid) as [p|e| |]; [|done..].
  apply on_room_ok; [done|]. intros m Hm Hmo Hne. unfold mbind, prog_bind, gets, modify, lift, id.
  assert (registry_ok (set_rooms (<[name := m]> (rooms self)) self)) as Hsame by (eapply registry_routed; [done..|apply routed_refl]).
  destruct (subscriptions m !! sid) as [[q t]|] eqn:Hid; cbn [ok_or]; [|done]. destruct (Z.eqb_spec q p) as [->|]; cbn [negb reject_if]; [|done]. cbn [fst].
  assert (released [sid] m (release_subscription m (sid, p))) as Hr by (apply release_one; intros q t'; rewrite Hid; by intros [= -> _]).
  apply released_rebuilt in Hr; [|done]. eapply registry_rebuilt in Hr; [exact Hr|done..|].
  intros key s. rewrite elem_of_nil. naive_solver.
Qed.

(** ** The end of a transport *)
Lemma owned_by tid p (m : ManagedRoom) :
  tid ∈ omap (fun kv => if kv.2 =? p then Some kv.1 else None) (iter (track_owners m)) <-> track_owners m !! tid = Some p.
Proof.
  rewrite omap_iter. split.
  - intros (k & q & Hk & Hf). cbn in Hf. destruct (Z.eqb_spec q p) as [->|]; by simplify_eq.
  - intros Hp. exists tid, p. cbn. by rewrite Z.eqb_refl.
Qed.
Lemma to_remove id q p (owned : list TrackId) (m : ManagedRoom) :
  (id, q) ∈ omap (fun kv => if (kv.2.1 =? p) || bool_decide (kv.2.2 ∈ owned) then Some (kv.1, kv.2.1) else None) (iter (subscriptions m)) <->
  exists t, subscriptions m !! id = Some (q, t) /\ (q = p \/ t ∈ owned).
Proof.
  rewrite omap_iter. split.
  - intros (k & [q' t] & Hk & Hf). cbn in Hf. destruct (Z.eqb_spec q' p) as [->|]; cbn in Hf; [simplify_eq; exists t; by split; [|left]|].
    case_bool_decide; simplify_eq. exists t. by split; [|right].
  - intros (t & Hk & Hq). exists id, (q, t). split; [done|]. cbn. destruct Hq as [->|Ht]; [by rewrite Z.eqb_refl|].
    rewrite (bool_decide_eq_true_2 _ Ht). by rewrite orb_true_r.
Qed.

Lemma unbind_in_rebuilt p m : managed_ok m -> let '(m', owned) := unbind_in p m in
  exists ids, rebuilt (eq p) owned ids m m' /\ participant_sessions m' = delete p (participant_sessions m) /\
    (forall tid, tid ∈ owned <-> track_owners m !! tid = Some p) /\
    (forall id, id ∈ ids <-> exists q t, subscriptions m !! id = Some (q, t) /\ (q = p \/ track_owners m !! t = Some p)).
Proof.
  intros Hm. unfold unbind_in. set (m0 := set_sessions _ m). set (owned := omap _ (iter (track_owners m0))).
  set (entries := omap _ (iter (subscriptions m0))). set (m1 := foldl release_subscription m0 entries). set (m2 := foldl release_track m1 owned).
  assert (forall tid, tid ∈ owned <-> track_owners m !! tid = Some p) as Hown by (intros tid; exact (owned_by tid p m)).
  assert (forall id q, (id, q) ∈ entries <-> exists t, subscriptions m !! id = Some (q, t) /\ (q = p \/ t ∈ owned)) as Hent by (intros id q; exact (to_remove id q p owned m)).
  assert (forall id, id ∈ entries.*1 <-> exists q t, subscriptions m !! id = Some (q, t) /\ (q = p \/ track_owners m !! t = Some p)) as Hids.
  { intros id. rewrite list_elem_of_fmap. setoid_rewrite <- Hown. split.
    - intros ([i q] & -> & (t & Ht)%Hent). by exists q, t.
    - intros (q & t & Ht). exists (id, q). split; [done|]. apply Hent. by exists t. }
  exists entries.*1.
  assert (released entries.*1 m0 m1) as [[E1 E2 E3 E4 E5 E6] R1 R2 R3 R4].
  { apply release_all. intros id q q' t (t' & Ht & _)%Hent Hs. cbn in Hs. rewrite Ht in Hs. by simplify_eq. }
  destruct (release_tracks owned m1) as ([W1 W2 W3 W4] & T1 & T2 & T3 & T4 & T5); [apply R1, Hm|]. fold m2 in W1, W2, W3, W4, T1, T2, T3, T4, T5.
  split_and!; [|cbn; rewrite T2, E1; done|done|done]. split; cbn.
  - done.
  - intros t. by rewrite W2, R2.
  - intros s. by rewrite W3, R3.
  - intros id. rewrite W4, R4. case_decide as Hid; [done|]. cbn. destruct (Room.subscriptions (room m) !! id) as [d|] eqn:Hd; cbn; [|done].
    rewrite decide_False; [done|]. intros Hin. apply Hid, Hids. exists (subscriber (configuration d)), (sub_track_id (configuration d)).
    rewrite <- Hown. split; [|by right]. by rewrite (mo_subs _ Hm), lookup_fmap, Hd.
  - intros t. by rewrite T1, E2.
  - by rewrite T3, E3.
  - intros id. by rewrite T4, E4.
  - intros id q t Hq Ht. apply Hids. exists q, t. rewrite <- Hown. auto.
  - intros q Hq. destruct (decide (p = q)) as [->|Hne]; [by left|right]. rewrite T2, E1. cbn. by rewrite lookup_delete_ne.
  - intros q <-. split_and!; [intros t; apply Hown| |apply lookup_delete_eq]. intros id t Ht. apply Hids. exists p, t. auto.
  - intros q c' [_ Hc']%lookup_delete_Some. rewrite T5 in Hc'. by apply E6.
Qed.

Lemma unbind_session_ok name pid session self : registry_ok self -> registry_ok (unbind_session name pid session self).1.
Proof.
  intros Hok. unfold unbind_session. destruct (parse_participant pid) as [p|e| |]; [|done..]. destruct (rooms self !! name) as [m|] eqn:Hm; [|done].
  destruct (bool_decide _); cbn [negb]; [|done]. destruct (go_rooms _ Hok _ _ Hm) as [Hmo _]. pose proof (unbind_in_rebuilt p m Hmo) as Hu.
  destruct (unbind_in p m) as [m' owned]. destruct Hu as (ids & Hb & Hs & Hown & _). cbn [fst]. case_bool_decide as He.
  - split; cbn.
    + intros n x. rewrite delete_insert_eq, lookup_delete_Some. intros [_ Hx]. exact (go_rooms _ Hok n x Hx).
    + intros key s [Hk Hn]%drop_all_sinks. destruct (go_sinks _ Hok key s Hk) as [K1 K2 (m1 & t & K3 & K4 & K5)]. split; [done..|]. exists m1, t.
      rewrite delete_insert_eq. destruct (decide (key.1.1 = name)) as [Heq|Hneq]; [|by rewrite lookup_delete_ne].
      exfalso. rewrite Heq, Hm in K3. simplify_eq. apply Hn. split; [done|]. apply Hown.
      assert (track_owners m1 !! key.1.2 = Some (owner t)) as Ho by by rewrite (mo_owners _ Hmo), lookup_fmap, K4.
      destruct (mo_owner _ Hmo _ _ Ho) as [x Hx]. assert (participant_sessions m' !! owner t = None) as Hno by (rewrite He; apply lookup_empty).
      rewrite Hs in Hno. destruct (decide (p = owner t)) as [->|Hne]; [done|]. by rewrite lookup_delete_ne, Hx in Hno.
  - eapply registry_rebuilt; [done..|]. intros key s. apply drop_all_sinks.
Qed.
End Calls.
