(* ===== verification/SfuRuntimeSafety.v ===== *)
(** * services/media-node: what the rooms of a media node guarantee

    The invariant of the registry over any sequence of calls; media reaches exactly the sessions of the subscribers, the
    publisher and the loopback sinks; feedback is answered to its sender and adapts only its own layers; the end of a
    transport leaves nothing of it behind. *)
From S2P Require Import Prelude Words Slices RustStd RustStr SfuModel RoomInvariant SfuRuntime SfuRuntimeInvariant.
From S2P Require RtpExtension RtpPacket RtcpModel Twcc Rtcp MediaCodec DownTrack Room RoomSafety BandwidthEstimator LayerSelector.
Import Room (Room, HashOrder).
Import DownTrack (DownTrack, configuration).
Import LayerSelector (LayerSelector, LayerOption, UnstableSort).

(** ** Subscribing *)
Lemma offered_layers temporal track : layers_offered (layer_options temporal track) track.
Proof.
  intros o (e & -> & He)%list_elem_of_fmap. cbn. unfold encoding. destruct (List.find _ _) eqn:Hf; [by eexists|].
  apply list_elem_of_In in He. pose proof (List.find_none _ _ Hf e He) as Hn. cbn in Hn. lia.
Qed.
Lemma fresh_estimator : exists e, BandwidthEstimator.new BandwidthEstimator.default_estimator_config = Ok e /\ BandwidthEstimator.est_ok e.
Proof.
  eexists. split; [vm_compute; reflexivity|]. split; cbn;
    [unfold BandwidthEstimator.config_ok; cbn; lia|lia|vm_compute; discriminate|constructor|unfold BandwidthEstimator.trend_bound; lia].
Qed.

Definition subscribe_typed (input : SubscribeTrack) : Prop :=
  u8 (st_output_payload_type input) /\ u32 (st_output_ssrc input) /\ u16 (st_initial_sequence_number input) /\ u32 (st_initial_timestamp input).

(** The room with the new subscription in core and tables. *)
Lemma subscribed_ok p input m r d : managed_ok m -> is_Some (participant_sessions m !! p) -> room_ok r ->
  Room.subscriptions (room m) !! st_subscription_id input = None -> Room.tracks r = Room.tracks (room m) -> Room.ssrc_index r = Room.ssrc_index (room m) ->
  Room.subscriptions r = <[st_subscription_id input := d]> (Room.subscriptions (room m)) -> configuration d = config_of p input ->
  managed_ok (set_subscriptions (<[st_subscription_id input := (p, st_track_id input)]> (subscriptions m)) (set_room r m)).
Proof.
  intros [H1 H2 H3 H4 H5 H6 H7] Hp Hr Hn Ht Hs Hd Hc. split; cbn; try done.
  - by rewrite Ht.
  - by rewrite Hs.
  - rewrite Hd, fmap_insert, H4. f_equal. unfold sub_pair. by rewrite Hc.
  - intros i q t. rewrite lookup_insert_Some. intros [[_ Heq]|[_ Hi]]; [by simplify_eq|by eapply H6].
  - intros q c [C1 C2 C3]%H7. split; cbn; [done..|]. intros i s (t & tr & S1 & S2 & S3)%C3. exists t, tr. rewrite Ht. split_and!; [|done..].
    rewrite lookup_insert_ne; [done|]. intros <-. by rewrite H4, lookup_fmap, Hn in S1.
Qed.
Lemma adapt_subscription_ok p sid ext opts m tid track : managed_ok m -> is_Some (participant_sessions m !! p) ->
  subscriptions m !! sid = Some (p, tid) -> Room.tracks (room m) !! tid = Some track -> layers_offered opts track ->
  exists m', adapt_subscription p sid ext opts m = (m', Ok tt) /\ managed_ok m' /\ routed m m'.
Proof.
  intros Hm Hp Hid Ht Ho.
  assert (exists c, BandwidthEstimator.est_ok (estimator c) /\
    (forall i s, cong_subscriptions c !! i = Some s -> exists t tr, subscriptions m !! i = Some (p, t) /\ Room.tracks (room m) !! t = Some tr /\ layers_offered (options s) tr) /\
    match congestion m !! p with
    | Some c => Ok c
    | None => e ← map_err never (BandwidthEstimator.new BandwidthEstimator.default_estimator_config);
        Ok {| estimator := e; transport_wide_extension_id := ext; cong_subscriptions := ∅ |}
    end = (Ok c : outcome SfuRuntimeError _)) as (c & Ce & Cs & Hc).
  { destruct (congestion m !! p) as [c|] eqn:Hc; [destruct (mo_congestion _ Hm _ _ Hc) as [_ C2 C3]; by exists c|].
    destruct fresh_estimator as (e & -> & He). eexists. split; [|split; [|done]]; [done|]. cbn. intros i s Hi. by rewrite lookup_empty in Hi. }
  eexists. split.
  { unfold adapt_subscription. rewrite (prog_step _ _ m m m) by done. rewrite (prog_step _ _ m m c) by (unfold lift; by rewrite Hc). reflexivity. }
  split; [|by split].
  destruct Hm as [H1 H2 H3 H4 H5 H6 H7]. split; cbn; try done. intros q c'. rewrite lookup_insert_Some. intros [[<- <-]|[_ Hq]].
  - split; cbn; [done..|]. intros i s. rewrite lookup_insert_Some. intros [[<- <-]|[_ Hi]]; [by exists tid, track|by apply Cs].
  - destruct (H7 q c' Hq) as [C1 C2 C3]. by split.
Qed.

Lemma subscribe_registry_ok input self : subscribe_typed input -> registry_ok self -> registry_ok (subscribe input self).1.
Proof.
  intros Hty Hok. unfold subscribe. unfold mbind at 1, prog_bind at 1, lift at 1. destruct (parse_participant _) as [p|e| |]; [|done..].
  apply on_room_ok; [done|]. intros m Hm Hmo Hne.
  assert (registry_ok (set_rooms (<[st_room_id input := m]> (rooms self)) self)) as Hsame by (eapply registry_routed; [done..|apply routed_refl]).
  unfold mbind at 1, prog_bind at 1. destruct (require_session_cases p m) as [[-> _]|[-> Hp]]; [done|].
  unfold mbind, prog_bind, gets, lift, modify, id. unfold Room.published_track.
  destruct (Room.tracks (room m) !! st_track_id input) as [track|] eqn:Ht; cbn [ok_or]; [|done].
  unfold on_core. pose proof (subscribe_ok (config_of p input) Hty (room m) (mo_room _ Hmo)) as Hr.
  destruct (subscribe_cases (config_of p input) (room m)) as [(o & Ho & Hno)|(r & d & Ho & Hn & _ & Htr & Hss & Hsub & Hc)]; rewrite Ho in *; cbn [fst] in Hr.
  { assert (set_room (room m) m = m) as -> by by destruct m. destruct o as [u|e| |]; [by destruct (Hno u)|done..]. }
  cbn [map_err]. pose proof (subscribed_ok p input m r d Hmo Hp Hr Hn Htr Hss Hsub Hc) as Hmo'. set (m1 := set_subscriptions _ _) in *.
  assert (forall m2, managed_ok m2 -> routed m1 m2 -> registry_ok (set_rooms (<[st_room_id input := m2]> (rooms self)) self)) as Hdone.
  { intros m2 Hm2 [R1 [R2 _ _] _]. eapply registry_update; [done..|by rewrite R1|]. intros tid t. rewrite R2. cbn. by rewrite Htr. }
  destruct (st_transport_wide_extension_id input) as [ext|]; [|apply Hdone; [done|apply routed_refl]].
  destruct (adapt_subscription_ok p (st_subscription_id input) ext (layer_options (st_temporal_layer input) track) m1 (st_track_id input) track) as (m2 & -> & Hm2 & Hrt).
  - done.
  - done.
  - apply lookup_insert_eq.
  - cbn. by rewrite Htr.
  - apply offered_layers.
  - by apply Hdone.
Qed.

(** ** Recording *)
Lemma add_sink_ok name tid dest src self : registry_ok self -> registry_ok (add_recording_sink_for_ssrc name tid dest src self).1.
Proof.
  intros Hok. unfold add_recording_sink_for_ssrc, mbind, prog_bind, lift, modify, on_room.
  destruct (is_loopback (ip dest)) eqn:Hl; cbn [negb reject_if]; [|done]. destruct (rooms self !! name) as [m|] eqn:Hm; [|done].
  assert (<[name := m]> (rooms self) = rooms self) as Hid by by apply insert_id.
  assert (set_rooms (<[name := m]> (rooms self)) self = self) as -> by (rewrite Hid; by destruct self).
  unfold Room.published_track. destruct (Room.tracks (room m) !! tid) as [t|] eqn:Ht; cbn [ok_or outcome_bind]; [|done].
  match goal with |- context [reject_if ?b _] => destruct b eqn:Hb end; cbn [reject_if]; [done|]. cbn [fst]. split; cbn; [apply Hok|].
  intros key s. rewrite lookup_insert_Some. intros [[<- <-]|[_ Hs]]; [|by apply Hok]. split; cbn; [done..|]. exists m, t. split_and!; [done..|].
  intros x ->. cbn in Hb. apply negb_false_iff, existsb_exists in Hb as (e & He & Heq%Z.eqb_eq). subst x. by apply list_elem_of_fmap_2, list_elem_of_In.
Qed.
Lemma fewer_sinks_ok self sinks : registry_ok self -> (forall key s, sinks !! key = Some s -> recording_sinks self !! key = Some s) -> registry_ok (set_sinks sinks self).
Proof. intros [H1 H2] Hs. split; cbn; [done|]. intros key s Hk. by apply H2, Hs. Qed.

(** ** Requests for key frames *)
Lemma pli_packet_Ok ssrc : exists packet, pli_packet ssrc = Ok packet.
Proof. by eexists. Qed.
Lemma pli_routes_Ok requests : exists routes, pli_routes requests = Ok routes /\
  forall route, route ∈ routes -> exists session ssrc packet, (session, ssrc) ∈ requests /\ pli_packet ssrc = Ok packet /\ route = RouteRtcp session packet.
Proof.
  induction requests as [|[session ssrc] requests (routes & IH1 & IH2)]; cbn [pli_routes]; [exists []; split; [done|]; intros r Hr; by apply not_elem_of_nil in Hr|].
  destruct (pli_packet_Ok ssrc) as [packet Hp]. rewrite Hp. cbn [mbind outcome_bind]. rewrite IH1. cbn [mbind outcome_bind]. eexists. split; [done|].
  intros route [->|Hr]%elem_of_cons; [exists session, ssrc, packet; set_solver|]. destruct (IH2 route Hr) as (s & x & q & H1 & H2 & H3). exists s, x, q. set_solver.
Qed.
(** Every request for a published track is routed to the session of its owner. *)
Lemma events_to_rtcp_Ok m events : exists routes, events_to_rtcp m events = Ok routes /\
  forall route, route ∈ routes -> exists tid ssrc t session packet, PictureLossIndication tid ssrc ∈ events /\ track_owners m !! tid = Some t /\
    participant_sessions m !! t = Some session /\ pli_packet ssrc = Ok packet /\ route = RouteRtcp session packet.
Proof.
  destruct (pli_routes_Ok (omap (owner_session m) (omap event_request events))) as (routes & H1 & H2). exists routes. split; [done|].
  intros route (session & ssrc & packet & Hin & Hp & ->)%H2. apply list_elem_of_omap in Hin as ([tid s] & Hin & Ho).
  apply list_elem_of_omap in Hin as (e & He & Hr). unfold owner_session in Ho. apply bind_Some in Ho as (t & Ht & Ho). apply bind_Some in Ho as (x & Hx & Ho).
  destruct e as [| |]; cbn in Hr; try done. simplify_eq. cbn in *. eexists _, _, _, _, _. by split_and!.
Qed.

(** ** Media *)
Definition to_session (m : ManagedRoom) (name : bytes) (twcc : bool) (q : ForwardedPacket) (route : SfuRoute) : Prop :=
  exists session, participant_sessions m !! fp_subscriber q = Some session /\
    route = RouteRtp session name (fp_subscriber q) (fp_subscription_id q) twcc (fp_packet q).
Lemma packet_routes_all m name twcc ps : Forall (fun q => is_Some (participant_sessions m !! fp_subscriber q)) ps ->
  Forall2 (to_session m name twcc) ps (packet_routes name twcc m ps).
Proof.
  induction 1 as [|q ps [session Hs] _ IH]; unfold packet_routes; cbn; [constructor|]. rewrite Hs. cbn. constructor; [by exists session|exact IH].
Qed.

Lemma subscribed_session m id d : managed_ok m -> Room.subscriptions (room m) !! id = Some d -> is_Some (participant_sessions m !! subscriber (configuration d)).
Proof. intros Hm Hd. eapply (mo_subscriber _ Hm id). by rewrite (mo_subs _ Hm), lookup_fmap, Hd. Qed.

(** The events of a forwarded packet are layer switches and at most a request to the publisher of that very track. *)
Lemma encoding_Some t layer e : encoding t layer = Some e -> e ∈ encodings t /\ spatial_layer e = layer.
Proof. intros [H1 H2%Z.eqb_eq]%List.find_some. split; [by apply list_elem_of_In|done]. Qed.
Lemma maybe_pli_request now tid ssrc r t s : PictureLossIndication t s ∈ option_list (Room.maybe_pli now tid ssrc r).2 -> t = tid /\ s = ssrc.
Proof.
  unfold Room.maybe_pli. case_match; cbn; [by intros ?%not_elem_of_nil|]. intros Hs%list_elem_of_singleton. by simplify_eq.
Qed.
Lemma forward_announces now track layer info input d e : RoomSafety.announced_by (DownTrack.forward now track layer info input d) = Some e -> event_request e = None.
Proof.
  destruct (DownTrack.forward_gate track layer info d) as [dec|] eqn:Hg.
  { unfold DownTrack.forward, RoomSafety.announced_by. rewrite Hg. cbn. unfold DownTrack.forward_gate in Hg. repeat case_match; by simplify_eq. }
  destruct (RtpPacket.parse input) as [p|x| |] eqn:Hp; [|unfold DownTrack.forward, RoomSafety.announced_by; by rewrite Hg, Hp..].
  rewrite (DownTrack.forward_spec _ _ _ _ _ _ p) by done. cbv zeta. unfold RoomSafety.announced_by.
  destruct (DownTrack.apply_rewrite _ _) as [packet|x| |]; [|done..]. destruct (RtpPacket.rewrite_header_extensions _ _) as [packet'|x| |]; [|done..].
  cbn [snd]. case_match; by intros [= <-].
Qed.
Lemma handle_rtp_requests {hash_order : HashOrder} now p input r r' out tid track layer info t s : room_ok r ->
  Room.handle_rtp now p input r = (r', Ok out) -> Room.admit_rtp p input r = Ok (tid, track, layer, info) ->
  PictureLossIndication t s ∈ fo_events out -> t = tid /\ s ∈ enc_ssrc <$> encodings track.
Proof.
  intros Hr H Ha Hin. unfold Room.handle_rtp in H. rewrite Ha in H. apply prog_bind_Ok in H as (r1 & [out1 b] & Hf & Hk).
  apply RoomSafety.forward_loop_spec in Hf as (_ & Hev & _); [|by apply RoomSafety.listed_NoDup]. cbn [fo_events app] in Hev.
  unfold Room.request_keyframe in Hk.
  assert (forall x, x ∈ fo_events out1 -> event_request x = None) as Hno.
  { intros x Hx. rewrite Hev in Hx. apply list_elem_of_omap in Hx as (id & _ & Hx). apply bind_Some in Hx as (d & _ & Hx). by eapply forward_announces. }
  destruct (if b then _ else None) as [e|] eqn:He.
  - pose proof (maybe_pli_request now tid (enc_ssrc e) r1 t s) as Hm. destruct (Room.maybe_pli _ _ _ r1) as [r2 ev]. simplify_eq. cbn in Hin, Hm.
    apply elem_of_app in Hin as [Hx%Hno|Hx%Hm]; [done|]. destruct Hx as [-> ->]. split; [done|]. destruct b; [|done]. unfold Room.pli_target in He.
    apply bind_Some in He as (w & _ & [Hin _]%encoding_Some). by apply list_elem_of_fmap_2.
  - simplify_eq. by apply Hno in Hin.
Qed.

Lemma NoDup_omap_keys {K V B} (f : K * V -> option B) l : NoDup l.*1 ->
  (forall k v k' v' b, (k, v) ∈ l -> (k', v') ∈ l -> f (k, v) = Some b -> f (k', v') = Some b -> k = k') -> NoDup (omap f l).
Proof.
  induction l as [|[k v] l IH]; cbn; intros Hnd Hf; [constructor|]. apply NoDup_cons in Hnd as [Hni Hnd].
  assert (NoDup (omap f l)) as Hl by (apply IH; [done|]; intros a b a' b' c Ha Ha'; apply (Hf a b a' b' c); by right).
  destruct (f (k, v)) as [b|] eqn:Hb; [|exact Hl]. constructor; [|exact Hl]. intros ([k' v'] & Hin & Hb')%list_elem_of_omap. apply Hni.
  rewrite (Hf k v k' v' b); [by apply (list_elem_of_fmap_2 fst) in Hin|by left|by right|done|done].
Qed.

Section Runtime.
Context {iteration : HashIteration} {hash_order : HashOrder} {unstable_sort : UnstableSort}.

(** The sinks of a track that listen to this source. *)
Definition listens (sinks : gmap (bytes * TrackId * SocketAddr) RecordingSink) (name : bytes) (tid : TrackId) (ssrc : Z) (dest : SocketAddr) : Prop :=
  exists s, sinks !! (name, tid, dest) = Some s /\ (source_ssrc s = None \/ source_ssrc s = Some ssrc).
Definition dest_of (route : SfuRoute) : option SocketAddr := match route with RecorderRtp dest _ => Some dest | _ => None end.

Lemma sink_routes_spec self name packet tid ssrc : registry_ok self -> let recs := sink_routes (recording_sinks self) name packet tid ssrc in
  (forall route, route ∈ recs <-> exists dest, route = RecorderRtp dest packet /\ listens (recording_sinks self) name tid ssrc dest) /\ NoDup recs /\
  (forall dest q, RecorderRtp dest q ∈ recs -> is_loopback (ip dest) = true).
Proof.
  intros Hok. cbv zeta. unfold sink_routes.
  assert (forall route, route ∈ sink_routes (recording_sinks self) name packet tid ssrc <-> exists dest, route = RecorderRtp dest packet /\ listens (recording_sinks self) name tid ssrc dest) as Hspec.
  { intros route. unfold sink_routes. rewrite omap_iter. split.
    - intros ([[n t] dest] & s & Hk & Hf). cbn in Hf. destruct (go_sinks _ Hok _ _ Hk) as [_ Hd _]. cbn in Hd.
      case_bool_decide as Hn; cbn in Hf; [|done]. destruct (Z.eqb_spec t tid) as [->|]; cbn in Hf; [|done]. subst n.
      exists dest. rewrite Hd in Hf. destruct (source_ssrc s) as [x|] eqn:Hx; cbn in Hf.
      + destruct (Z.eqb_spec x ssrc) as [->|]; simplify_eq. split; [done|]. exists s. auto.
      + simplify_eq. split; [done|]. exists s. auto.
    - intros (dest & -> & s & Hs & Hl). exists (name, tid, dest), s. split; [done|]. cbn. destruct (go_sinks _ Hok _ _ Hs) as [_ Hd _]. cbn in Hd.
      rewrite bool_decide_eq_true_2, Z.eqb_refl by done. destruct Hl as [-> | ->]; cbn; rewrite ?Z.eqb_refl; by rewrite Hd. }
  split_and!; [exact Hspec| |].
  - apply NoDup_omap_keys; [rewrite (iter_perm (recording_sinks self)); apply NoDup_fst_map_to_list|].
    intros [[n t] dest] s [[n' t'] dest'] s' b Hin%elem_of_iter Hin'%elem_of_iter Hf Hf'. cbn in Hf, Hf'.
    destruct (go_sinks _ Hok _ _ Hin) as [_ Hd _], (go_sinks _ Hok _ _ Hin') as [_ Hd' _]. cbn in Hd, Hd'. rewrite Hd in Hf. rewrite Hd' in Hf'.
    destruct (bool_decide (n = name)) eqn:H1, (bool_decide (n' = name)) eqn:H2, (Z.eqb_spec t tid), (Z.eqb_spec t' tid); cbn in Hf, Hf'; try done.
    apply bool_decide_eq_true in H1, H2. destruct (from_option _ true (source_ssrc s)), (from_option _ true (source_ssrc s')); try done. assert (dest = dest') by congruence. congruence.
  - intros dest q (dest' & Heq & s & Hs & _)%Hspec. simplify_eq. exact (sk_loopback _ _ _ (go_sinks _ Hok _ _ Hs)).
Qed.

(** What one accepted packet of [p] is turned into: every packet the core forwards goes to the session of its subscriber, key
    frames are only asked of the session of [p], and each sink of the track gets the packet as it came. *)
Record delivered (self : SfuRegistry) (now : Duration) (name : bytes) (p : ParticipantId) (packet : bytes) (m m' : ManagedRoom) (routes : list SfuRoute) : Prop := {
  de_core : exists out tid track layer info parsed rtp requests recs,
    Room.handle_rtp now p packet (room m) = (room m', Ok out) /\
    RoomSafety.fanned_out (room m) now p packet (room m') out tid track layer info /\
    RtpPacket.parse packet = Ok parsed /\
    routes = rtp ++ requests ++ recs /\
    Forall2 (to_session m name true) (packets out) rtp /\
    (forall route, route ∈ requests -> exists session ssrc pli, participant_sessions m !! p = Some session /\
       ssrc ∈ enc_ssrc <$> encodings track /\ pli_packet ssrc = Ok pli /\ route = RouteRtcp session pli) /\
    NoDup recs /\
    (forall route, route ∈ recs <-> exists dest, route = RecorderRtp dest packet /\
       listens (recording_sinks self) name tid (RtpPacket.ssrc (RtpPacket.header parsed)) dest) /\
    (forall dest q, RecorderRtp dest q ∈ recs -> is_loopback (ip dest) = true);
  de_routed : routed m m' }.

Lemma handle_rtp_keeps now p packet : core_keeps (Room.handle_rtp now p packet).
Proof. intros r Hr. split; [by apply handle_rtp_ok|apply handle_rtp_view]. Qed.

Lemma route_rtp_spec self now name p packet m : registry_ok self -> managed_ok m -> rust_slice packet ->
  let '(m', o) := route_rtp now name p packet (recording_sinks self) m in
  returns o /\ managed_ok m' /\ routed m m' /\ forall routes, o = Ok routes -> delivered self now name p packet m m' routes.
Proof.
  intros Hok Hm Hs. unfold route_rtp. unfold mbind at 1, prog_bind at 1.
  destruct (on_core_keeps (Room.handle_rtp now p packet) m (handle_rtp_keeps now p packet) Hm) as [Hm' Hrt].
  pose proof (RoomSafety.handle_rtp_returns now p packet (room m) (mo_room _ Hm) Hs) as Hret. unfold on_core in *.
  destruct (Room.handle_rtp now p packet (room m)) as [r o] eqn:Hcore. cbn [fst snd] in *.
  destruct o as [out|e| |]; cbn [map_err] in *; [|by split_and!|done..].
  destruct (RoomSafety.handle_rtp_fans_out _ _ _ _ _ _ (mo_room _ Hm) Hs Hcore) as (tid & track & layer & info & Hfan).
  pose proof (fan_admitted' := RoomSafety.fan_admitted _ _ _ _ _ _ _ _ _ _ Hfan).
  destruct (admit_rtp_Ok _ _ _ _ _ _ _ fan_admitted') as (parsed & Hparse & Hidx & Ht & Hown & _).
  set (m' := set_room r m) in *.
  assert (input_tracks m' !! RtpPacket.ssrc (RtpPacket.header parsed) = Some tid) as Hin by by cbn; rewrite (mo_inputs _ Hm), lookup_fmap, Hidx.
  rewrite (prog_step _ _ m' m' m') by done.
  rewrite (prog_step _ _ m' m' (sink_routes (recording_sinks self) name packet tid (RtpPacket.ssrc (RtpPacket.header parsed))))
    by (unfold lift, recording_routes; rewrite Hparse; cbn [ok mbind outcome_bind option_bind]; by rewrite Hin).
  destruct (events_to_rtcp_Ok m' (fo_events out)) as (requests & Hreq & Hreqs). cbv zeta.
  rewrite (prog_step _ _ m' m' requests) by (unfold lift; by rewrite Hreq). cbn. split_and!; [done..|]. intros routes [= <-].
  destruct (sink_routes_spec self name packet tid (RtpPacket.ssrc (RtpPacket.header parsed)) Hok) as (S1 & S2 & S3). split; [|done].
  exists out, tid, track, layer, info, parsed. eexists _, _, _. split_and!; [done|done|done|reflexivity| | |done|done|done].
  - refine (packet_routes_all m name true (packets out) _). apply Forall_forall. intros q Hq. destruct (RoomSafety.fan_addressed _ _ _ _ _ _ _ _ _ _ Hfan q Hq) as (d & Hd & _ & ->).
    by eapply subscribed_session.
  - intros route (t & ssrc & q & session & pli & He & Ho & Hse & Hp & ->)%Hreqs.
    destruct (handle_rtp_requests now p packet (room m) r out tid track layer info t ssrc (mo_room _ Hm) Hcore fan_admitted' He) as [-> Henc].
    cbn in Ho, Hse. rewrite (mo_owners _ Hm), lookup_fmap, Ht in Ho. cbn in Ho. exists session, ssrc, pli. split_and!; [|done..]. congruence.
Qed.

(** ** Feedback *)
(** A key frame asked of a track that [who] subscribes to. *)
Definition asked (m : ManagedRoom) (who : ParticipantId) (e : SfuEvent) : Prop :=
  exists id tid track ssrc, e = PictureLossIndication tid ssrc /\ subscriptions m !! id = Some (who, tid) /\
    Room.tracks (room m) !! tid = Some track /\ ssrc ∈ enc_ssrc <$> encodings track.
Definition others_same (who : ParticipantId) (m m' : ManagedRoom) : Prop :=
  forall id d, Room.subscriptions (room m) !! id = Some d -> subscriber (configuration d) <> who -> Room.subscriptions (room m') !! id = Some d.
(** What adapting to the feedback of [who] does. *)
Record adapted (who : ParticipantId) (m m' : ManagedRoom) (events : list SfuEvent) : Prop := {
  ad_ok : managed_ok m';
  ad_routed : routed m m';
  ad_others : others_same who m m';
  ad_events e : e ∈ events -> asked m who e }.

Lemma routed_subs m m' : managed_ok m -> managed_ok m' -> routed m m' -> subscriptions m' = subscriptions m.
Proof. intros Hm Hm' [_ [_ _ V] _]. by rewrite (mo_subs _ Hm), (mo_subs _ Hm'). Qed.
Lemma asked_back who m m' e : managed_ok m -> managed_ok m' -> routed m m' -> asked m' who e -> asked m who e.
Proof.
  intros Hm Hm' Hr (id & tid & t & ssrc & -> & Hs & Ht & He). exists id, tid, t, ssrc. rewrite <- (routed_subs m m') by done.
  split_and!; [done..| |done]. by rewrite <- (sv_tracks _ _ (rt_view _ _ Hr)).
Qed.
Lemma adapted_nil who m : managed_ok m -> adapted who m m [].
Proof. intros Hm. split; [done|apply routed_refl|by intros id d|]. intros e He. by apply not_elem_of_nil in He. Qed.
Lemma adapted_app who m1 m2 m3 e1 e2 : managed_ok m1 -> adapted who m1 m2 e1 -> adapted who m2 m3 e2 -> adapted who m1 m3 (e1 ++ e2).
Proof.
  intros Hm [A1 A2 A3 A4] [B1 B2 B3 B4]. split; [done|by eapply routed_trans|by intros id d Hd Hn; apply B3; [apply A3|]|].
  intros e [He|He]%elem_of_app; [by apply A4|]. by eapply asked_back, B4.
Qed.

Lemma set_target_Ok now who id layer m tid track : managed_ok m -> subscriptions m !! id = Some (who, tid) -> Room.tracks (room m) !! tid = Some track ->
  is_Some (encoding track (spatial layer)) ->
  exists m' events, on_core (Room.set_target_layer now who id layer) m = (m', Ok events) /\ adapted who m m' events.
Proof.
  intros Hm Hid Ht [e He]. pose proof Hid as Hsub. rewrite (mo_subs _ Hm), lookup_fmap in Hid. destruct (Room.subscriptions (room m) !! id) as [d|] eqn:Hd; [|done].
  cbn in Hid. injection Hid as Hwho Htid.
  destruct (on_core_keeps (Room.set_target_layer now who id layer) m) as [Hm' Hrt]; [|done|].
  { intros r Hr. split; [by apply set_target_layer_room_ok|apply set_target_layer_view]. }
  unfold on_core in *. unfold Room.set_target_layer in *. rewrite Hd in *. rewrite Hwho, Z.eqb_refl in *. cbn [negb] in *.
  assert (configuration (DownTrack.set_target_layer layer d).1 = configuration d) as Hc by (unfold DownTrack.set_target_layer; by destruct (bool_decide _)).
  destruct (DownTrack.set_target_layer layer d) as [d' changed]. cbn [fst] in Hc. rewrite Htid in *. cbn [Room.tracks Room.set_subscriptions] in *. rewrite Ht, He in *.
  assert (forall r, Room.subscriptions r = <[id := d']> (Room.subscriptions (room m)) -> others_same who m (set_room r m)) as Hoth.
  { intros r Hr i x Hx Hn. cbn. rewrite Hr, lookup_insert_ne; [done|]. intros ->. rewrite Hd in Hx. simplify_eq. }
  destruct (changed && _).
  - unfold Room.maybe_pli in *. destruct (from_option _ _ _); cbn [map_err option_list] in *; (eexists _, _; split; [reflexivity|]); (split; [done..|by apply Hoth|]);
      intros x Hx; cbn in Hx; [by apply not_elem_of_nil in Hx|]. apply list_elem_of_singleton in Hx as ->. exists id, tid, track, (enc_ssrc e). split_and!; [done..|].
    apply list_elem_of_fmap_2. by apply encoding_Some in He as [? _].
  - eexists _, _. split; [reflexivity|]. split; [done..|by apply Hoth|]. intros x Hx. by apply not_elem_of_nil in Hx.
Qed.

Definition decided (m : ManagedRoom) (who : ParticipantId) (decision : SubscriptionId * Layer) : Prop :=
  exists tid track, subscriptions m !! decision.1 = Some (who, tid) /\ Room.tracks (room m) !! tid = Some track /\ is_Some (encoding track (spatial decision.2)).
Lemma apply_decisions_Ok now who decisions : forall m events, managed_ok m -> Forall (decided m who) decisions ->
  exists m' new, apply_decisions now who decisions events m = (m', Ok (events ++ new)) /\ adapted who m m' new.
Proof.
  induction decisions as [|[id layer] decisions IH]; intros m events Hm Hd; cbn [apply_decisions].
  { exists m, []. rewrite app_nil_r. split; [done|by apply adapted_nil]. }
  apply Forall_cons in Hd as [(tid & t & H1 & H2 & H3) Hd]. destruct (set_target_Ok now who id layer m tid t Hm H1 H2 H3) as (m1 & e1 & Hset & Ha).
  rewrite (prog_step _ _ _ _ _ Hset). destruct (IH m1 (events ++ e1) (ad_ok _ _ _ _ Ha)) as (m2 & e2 & -> & Hb).
  { eapply Forall_impl; [exact Hd|]. intros [i l] (u & x & U1 & U2 & U3). exists u, x. rewrite (routed_subs m m1) by apply Hm || apply Ha.
    rewrite (sv_tracks _ _ (rt_view _ _ (ad_routed _ _ _ _ Ha))). done. }
  exists m2, (e1 ++ e2). rewrite app_assoc. split; [done|]. by eapply adapted_app.
Qed.

(** The selectors only ever choose among the offered layers. *)
Definition chosen_ok (original : gmap SubscriptionId SubscriptionCongestion) (acc : gmap SubscriptionId SubscriptionCongestion * list (SubscriptionId * Layer)) : Prop :=
  (forall id s', acc.1 !! id = Some s' -> exists s, original !! id = Some s /\ options s' = options s) /\
  (forall decision, decision ∈ acc.2 -> exists s o, original !! decision.1 = Some s /\ o ∈ options s /\ LayerSelector.layer o = decision.2).
Lemma select_layer_ok now target original acc entry : original !! entry.1 = Some entry.2 -> chosen_ok original acc ->
  chosen_ok original (select_layer now target acc entry).
Proof.
  destruct entry as [id s], acc as [mm ds]. cbn [fst snd]. intros Hs [A1 A2]. unfold select_layer.
  assert (forall l, (LayerSelector.select now (options s) target (selector s)).2 = Some l -> LayerSelector.current (selector s) <> Some l ->
    exists o, o ∈ options s /\ LayerSelector.layer o = l) as Hsel.
  { intros l Hl Hcur. destruct (LayerSelector.affordable (LayerSelector.sort_unstable (options s)) target) as [a|] eqn:Ha.
    - pose proof (LayerSelector.select_current now (options s) target (selector s) a Ha) as Hc.
      destruct (LayerSelector.select _ _ _ _) as [s' res]. cbn [snd] in Hl. destruct Hc as [-> [Hc|[Hc _]]]; [|congruence].
      exists a. split; [|congruence]. by apply LayerSelector.affordable_sustainable in Ha as [? _].
    - unfold LayerSelector.select in Hl. by rewrite Ha in Hl. }
  destruct (LayerSelector.select _ _ _ _) as [s' res]. cbn [snd] in Hsel. split; cbn [fst snd].
  - intros i x. rewrite lookup_insert_Some. intros [[<- <-]|[_ Hx]]; [by exists s|by apply A1].
  - intros decision [Hd|Hd]%elem_of_app; [by apply A2|]. destruct res as [l|]; [|by apply not_elem_of_nil in Hd].
    case_bool_decide as Hn; [|by apply not_elem_of_nil in Hd]. apply list_elem_of_singleton in Hd as ->. destruct (Hsel l eq_refl Hn) as (o & Ho & Hl). by exists s, o.
Qed.
Lemma select_layers_ok now target original entries acc : (forall entry, entry ∈ entries -> original !! entry.1 = Some entry.2) -> chosen_ok original acc ->
  chosen_ok original (foldl (select_layer now target) acc entries).
Proof.
  revert acc. induction entries as [|entry entries IH]; intros acc He Hacc; cbn; [done|]. apply IH; [intros x Hx; apply He; by right|].
  apply select_layer_ok; [apply He; by left|done].
Qed.

Lemma congestion_update m p c : managed_ok m -> congestion_ok m p c ->
  managed_ok (set_congestion (<[p := c]> (congestion m)) m) /\ routed m (set_congestion (<[p := c]> (congestion m)) m).
Proof.
  intros [H1 H2 H3 H4 H5 H6 H7] Hc. split; [|split; [done|apply same_view_refl|done]]. split; cbn; try done.
  intros q c'. rewrite lookup_insert_Some. intros [[<- <-]|[_ Hq]]; [|apply H7 in Hq as [C1 C2 C3]; by split]. destruct Hc as [C1 C2 C3]. by split.
Qed.

(** Transport feedback of [who] moves only the layers of [who]; it cannot fail. *)
Lemma transport_feedback_Ok now who feedback m : managed_ok m -> BandwidthEstimator.feedback_ok feedback ->
  exists m' events, apply_transport_feedback now who feedback m = (m', Ok events) /\ adapted who m m' events.
Proof.
  intros Hm Hf. unfold apply_transport_feedback. rewrite (prog_step _ _ m m m) by done.
  destruct (congestion m !! who) as [c|] eqn:Hc; [|exists m, []; split; [done|by apply adapted_nil]].
  destruct (mo_congestion _ Hm _ _ Hc) as [C1 C2 C3].
  destruct (BandwidthEstimator.process_feedback_spec now feedback (estimator c) C2 Hf) as (e & r & Hp & Hr).
  rewrite (prog_step _ _ m (set_congestion (<[who := with_estimator e c]> (congestion m)) m) r) by (unfold on_estimator; by rewrite Hp).
  destruct (BandwidthEstimator.matched_packets r =? 0).
  { destruct (congestion_update m who (with_estimator e c) Hm) as [U1 U2]; [split; cbn; [done|apply Hr|done]|].
    eexists _, []. split; [reflexivity|]. split; [done..|by intros id d|]. intros x Hx. by apply not_elem_of_nil in Hx. }
  pose proof (select_layers_ok now (BandwidthEstimator.est_target_bitrate_bps r) (cong_subscriptions c) (iter (cong_subscriptions c)) (cong_subscriptions c, [])) as Hsel.
  destruct (foldl _ _ _) as [chosen decisions]. destruct Hsel as [S1 S2].
  { intros [id s] Hin. by apply elem_of_iter. }
  { split; cbn; [intros id s Hs; by exists s|]. intros d Hd. by apply not_elem_of_nil in Hd. }
  cbn [fst snd] in S1, S2. set (c' := with_subscriptions chosen (with_estimator e c)).
  rewrite (prog_step _ _ _ (set_congestion (<[who := c']> (congestion m)) m) tt) by (unfold modify; cbn; by rewrite alter_insert_eq).
  destruct (congestion_update m who c' Hm) as [U1 U2].
  { split; cbn; [done|apply Hr|]. intros id s' (s & Hs & ->)%S1. by apply C3. }
  destruct (apply_decisions_Ok now who decisions (set_congestion (<[who := c']> (congestion m)) m) [] U1) as (m' & new & -> & [A1 A2 A3 A4]).
  { apply Forall_forall. intros d (s & o & Hs & Ho & Hl)%S2. destruct (C3 _ _ Hs) as (tid & t & T1 & T2 & T3). exists tid, t. split_and!; [done..|].
    rewrite <- Hl. by apply T3. }
  exists m', new. split; [done|]. split; [done|by eapply routed_trans|exact A3|]. intros x Hx. eapply asked_back, A4; done.
Qed.

(** The events of one report: feedback of its sender, and requests for what the sender subscribes to. *)
Definition own_event (m : ManagedRoom) (who : ParticipantId) (e : SfuEvent) : Prop :=
  match e with TransportFeedback w f => w = who /\ BandwidthEstimator.feedback_ok f | _ => asked m who e end.
Lemma asked_forth who m m' e : managed_ok m -> managed_ok m' -> routed m m' -> asked m who e -> asked m' who e.
Proof.
  intros Hm Hm' Hr (id & tid & t & ssrc & -> & Hs & Ht & He). exists id, tid, t, ssrc. rewrite (routed_subs m m') by done.
  split_and!; [done..| |done]. by rewrite (sv_tracks _ _ (rt_view _ _ Hr)).
Qed.
Lemma adapt_Ok now who events : forall acc m, managed_ok m -> Forall (own_event m who) events ->
  exists m' new, adapt now events acc m = (m', Ok (acc ++ new)) /\ adapted who m m' new.
Proof.
  induction events as [|e events IH]; intros acc m Hm He; cbn [adapt].
  { exists m, []. rewrite app_nil_r. split; [done|by apply adapted_nil]. }
  apply Forall_cons in He as [He Hes].
  assert (forall m1 e1, adapted who m m1 e1 -> exists m' new, adapt now events (acc ++ e1) m1 = (m', Ok (acc ++ new)) /\ adapted who m m' new) as Hnext.
  { intros m1 e1 Ha. destruct (IH (acc ++ e1) m1 (ad_ok _ _ _ _ Ha)) as (m2 & e2 & -> & Hb).
    - eapply Forall_impl; [exact Hes|]. intros x Hx. destruct x as [| |w f]; cbn in *; [..|done]; eapply asked_forth; done || apply Ha.
    - exists m2, (e1 ++ e2). rewrite app_assoc. split; [done|]. by eapply adapted_app. }
  assert (asked m who e -> adapted who m m [e]) as Hkeep.
  { intros Hask. destruct (adapted_nil who m Hm) as [A1 A2 A3 _]. split; [done..|]. by intros x ->%list_elem_of_singleton. }
  destruct e as [| |w f]; [by apply Hnext, Hkeep..|]. destruct He as [-> Hf].
  destruct (transport_feedback_Ok now who f m Hm Hf) as (m1 & e1 & H1 & Ha). rewrite (prog_step _ _ _ _ _ H1). by apply Hnext.
Qed.

(** What one report of [who] is turned into: cached packets of the subscriptions of [who], to the session of [who], and
    requests to the owners of tracks [who] subscribes to. *)
Definition answered (m : ManagedRoom) (name : bytes) (who : ParticipantId) (route : SfuRoute) : Prop :=
  (exists session q, participant_sessions m !! who = Some session /\ RoomSafety.answer_allowed (room m) who q /\
     route = RouteRtp session name who (fp_subscription_id q) false (fp_packet q)) \/
  (exists tid ssrc p session pli, asked m who (PictureLossIndication tid ssrc) /\ track_owners m !! tid = Some p /\
     participant_sessions m !! p = Some session /\ pli_packet ssrc = Ok pli /\ route = RouteRtcp session pli).

Lemma fed_others r who s id d : RoomSafety.fed r who s -> Room.subscriptions r !! id = Some d -> subscriber (configuration d) <> who ->
  Room.subscriptions s.1 !! id = Some d.
Proof.
  intros Hf Hd Hn. pose proof (RoomSafety.fed_subs _ _ _ Hf id) as Ht. rewrite Hd in Ht.
  destruct (Room.subscriptions s.1 !! id); [|done]. destruct Ht as (_ & _ & Heq). by rewrite Heq.
Qed.
Lemma own_events m who m1 r out : managed_ok m -> RoomSafety.fed (room m) who (r, out) -> Forall event_reported (co_events out) ->
  m1 = set_room r m -> managed_ok m1 -> routed m m1 -> Forall (own_event m1 who) (co_events out).
Proof.
  intros Hm Hf Hrep -> Hm1 Hrt. apply Forall_forall. intros e He. pose proof (RoomSafety.fed_events _ _ _ Hf e He) as Ha.
  rewrite Forall_forall in Hrep. specialize (Hrep e He). destruct e as [|tid ssrc|w f]; cbn in Ha; [done| |by split].
  destruct Ha as (id & d & t & enc & Hd & Hw & Htid & Ht & Hen & Hss). apply (asked_forth who m); [done..|].
  exists id, tid, t, ssrc. split_and!; [done| |done|subst ssrc; by apply list_elem_of_fmap_2].
  rewrite (mo_subs _ Hm), lookup_fmap, Hd. cbn. unfold sub_pair. by rewrite Hw, Htid.
Qed.

Lemma handle_rtcp_keeps now who packet : core_keeps (Room.handle_rtcp now who packet).
Proof. intros r Hr. split; [by apply handle_rtcp_ok|apply handle_rtcp_view]. Qed.

Lemma route_rtcp_spec now name who packet m : managed_ok m -> rust_slice packet ->
  let '(m', o) := route_rtcp now name who packet m in
  managed_ok m' /\ routed m m' /\ others_same who m m' /\
  match o with
  | Ok routes => forall route, route ∈ routes -> answered m name who route
  | Err e => m' = m /\ exists x, Rtcp.parse_compound packet = Err x /\ e = Core (FromRoom (Rtcp x))
  | _ => False
  end.
Proof.
  intros Hm Hs. unfold route_rtcp. unfold mbind at 1, prog_bind at 1.
  destruct (on_core_keeps (Room.handle_rtcp now who packet) m (handle_rtcp_keeps now who packet) Hm) as [Hm1 Hr1]. unfold on_core in *.
  destruct (Rtcp.parse_compound packet) as [ps|x| |] eqn:Hp; pose proof (Rtcp.returns_parse_compound packet Hs) as Hret; rewrite Hp in Hret; [| |done..]; last first.
  { assert (Room.handle_rtcp now who packet (room m) = (room m, Err (Rtcp x))) as -> by (unfold Room.handle_rtcp; by rewrite Hp).
    assert (set_room (room m) m = m) as -> by by destruct m. cbn. split_and!; [done|apply routed_refl|by intros id d|done|by exists x]. }
  assert (exists r out, Room.handle_rtcp now who packet (room m) = (r, Ok out)) as (r & out & Hc).
  { unfold Room.handle_rtcp. rewrite Hp. cbn [map_err]. destruct (foldl _ _ _) as [r out]. by exists r, out. }
  rewrite Hc in *. cbn [fst map_err] in *. set (m1 := set_room r m) in *.
  pose proof (RoomSafety.handle_rtcp_fed _ _ _ _ _ _ (mo_room _ Hm) Hc) as Hfed.
  destruct (adapt_Ok now who (co_events out) [] m1 Hm1) as (m2 & new & Ha & [A1 A2 A3 A4]).
  { apply (own_events m who m1 r out); [done|done| |done..]. by eapply handle_rtcp_reported. }
  rewrite (prog_step _ _ m1 m2 new Ha). rewrite (prog_step _ _ m2 m2 m2) by done. cbv zeta.
  destruct (events_to_rtcp_Ok m2 new) as (requests & Hreq & Hreqs). rewrite (prog_step _ _ m2 m2 requests) by (unfold lift; by rewrite Hreq). cbn.
  pose proof (routed_trans _ _ _ Hr1 A2) as Hr2. split_and!; [done|done| |].
  { intros id d Hd Hn. apply A3; [|done]. exact (fed_others _ _ (r, out) id d Hfed Hd Hn). }
  intros route [Hin|Hin]%elem_of_app.
  - left. apply list_elem_of_omap in Hin as (q & Hq & Hq'). pose proof (RoomSafety.fed_answers _ _ _ Hfed q Hq) as Hall.
    apply bind_Some in Hq' as (session & Hse & [= <-]). destruct Hall as (Hsub & _). exists session, q. rewrite <- (rt_sessions _ _ Hr2), Hsub in *.
    split_and!; [done|by apply (RoomSafety.fed_answers _ _ _ Hfed)|done].
  - right. destruct (Hreqs route Hin) as (tid & ssrc & p & session & pli & He & Ho & Hse & Hpl & ->). exists tid, ssrc, p, session, pli.
    rewrite <- (rt_owners _ _ Hr2), <- (rt_sessions _ _ Hr2). split_and!; [|done..]. eapply asked_back, A4; done.
Qed.

(** ** Transmissions *)
Lemma parsed_size packet p : RtpPacket.parse packet = Ok p ->
  RtpPacket.header_len p + len (RtpPacket.payload p) + RtpPacket.padding_len p = len packet.
Proof.
  intros (_ & first & _ & _ & Ht)%RtpPacket.parse_Ok. apply RtpPacket.parse_tail_Ok in Ht as (pos0 & body & _ & _ & Hb & _ & _ & Hp).
  apply get_range_len in Hb, Hp. lia.
Qed.
(** The packets that are measured: those of a participant with an estimator that carry the transport-wide number. *)
Definition measured (m : ManagedRoom) (who : ParticipantId) (packet : bytes) (c : ParticipantCongestion) (number : bytes) : Prop :=
  congestion m !! who = Some c /\ exists p x, RtpPacket.parse packet = Ok p /\
    List.find (fun e => RtpExtension.ext_id e =? transport_wide_extension_id c) (RtpPacket.extensions p) = Some x /\ RtpExtension.ext_value x = number /\ len number = 2.
End Runtime.
