(* ===== verification/SfuRuntimeSteps.v ===== *)
(** * services/media-node: the calls of the registry of rooms, and what holds in every reachable registry

    Every public method of [SfuRegistry] that changes it is a step; the arguments are what the types of the source allow.
    The theorems say that media, feedback and removal do, from any reachable registry, exactly what they should. *)
From S2P Require Import Prelude Words Slices RustStd RustStr SfuModel RoomInvariant SfuRuntime SfuRuntimeInvariant SfuRuntimeSafety.
From S2P Require RtpExtension RtpPacket RtcpModel Rtcp MediaCodec DownTrack Room RoomSafety BandwidthEstimator LayerSelector.
Import Room (Room, HashOrder).
Import DownTrack (DownTrack, configuration).
Import LayerSelector (LayerSelector, LayerOption, UnstableSort).

Section Steps.
Context {iteration : HashIteration} {hash_order : HashOrder} {unstable_sort : UnstableSort}.

(** ** Calls that route *)
Lemma on_room_Some {A} name (body : prog ManagedRoom SfuRuntimeError A) self m : rooms self !! name = Some m ->
  on_room name body self = (set_rooms (<[name := (body m).1]> (rooms self)) self, (body m).2).
Proof. intros Hm. unfold on_room. rewrite Hm. by destruct (body m). Qed.

Lemma set_layer_ok now name pid sid spatial temporal self : registry_ok self -> registry_ok (set_layer now name pid sid spatial temporal self).1.
Proof.
  intros Hok. unfold set_layer. unfold mbind at 1, prog_bind at 1, lift at 1. destruct (parse_participant pid) as [p|e| |]; [|done..].
  apply on_room_routed; [done|]. intros m Hm.
  destruct (on_core_keeps (Room.set_target_layer now p sid {| spatial := spatial; temporal := temporal |}) m) as [H1 H2]; [|done|].
  { intros r Hr. split; [by apply set_target_layer_room_ok|apply set_target_layer_view]. }
  unfold mbind, prog_bind, gets, lift. by destruct (on_core _ m) as [m' [events|e| |]].
Qed.
Lemma handle_rtp_registry_ok now name pid packet self : rust_slice packet -> registry_ok self -> registry_ok (handle_rtp now name pid packet self).1.
Proof.
  intros Hs Hok. unfold handle_rtp. unfold mbind at 1, prog_bind at 1, lift at 1. destruct (parse_participant pid) as [p|e| |]; [|done..].
  rewrite (prog_step _ _ self self self) by done. apply on_room_routed; [done|]. intros m Hm. pose proof (route_rtp_spec self now name p packet m Hok Hm Hs) as Hr.
  destruct (route_rtp _ _ _ _ _ m) as [m' o]. by destruct Hr as (_ & ? & ? & _).
Qed.
Lemma handle_rtcp_registry_ok now name pid packet self : rust_slice packet -> registry_ok self -> registry_ok (handle_rtcp now name pid packet self).1.
Proof.
  intros Hs Hok. unfold handle_rtcp. unfold mbind at 1, prog_bind at 1, lift at 1. destruct (parse_participant pid) as [p|e| |]; [|done..].
  apply on_room_routed; [done|]. intros m Hm. pose proof (route_rtcp_spec now name p packet m Hm Hs) as Hr.
  destruct (route_rtcp _ _ _ _ m) as [m' o]. by destruct Hr as (? & ? & _).
Qed.

(** ** Transmissions *)
(** The room after a packet of [who] has been measured: the history of the estimator ends with it. *)
Definition remembered (now : Duration) (who : ParticipantId) (packet number : bytes) (c : ParticipantCongestion) (m m' : ManagedRoom) : Prop :=
  exists e, m' = set_congestion (<[who := with_estimator e c]> (congestion m)) m /\ BandwidthEstimator.est_ok e /\
    last (BandwidthEstimator.history e) =
      Some {| BandwidthEstimator.sequence_number := from_be_bytes number; BandwidthEstimator.sent_at := now; BandwidthEstimator.size_bytes := len packet |}.
Lemma sent_packet_cases now m who packet c : congestion m !! who = Some c ->
  exists o, sent_packet now (transport_wide_extension_id c) packet = Ok o /\
    match o with
    | None => ~ exists number, measured m who packet c number
    | Some sent => exists number, measured m who packet c number /\
        sent = {| BandwidthEstimator.sequence_number := from_be_bytes number; BandwidthEstimator.sent_at := now; BandwidthEstimator.size_bytes := len packet |}
    end.
Proof.
  intros Hc. unfold sent_packet. destruct (RtpPacket.parse packet) as [p|e| |] eqn:Hp; cbn [ok mbind outcome_bind].
  - pose proof (parsed_size packet p Hp) as Hsz. cbn [option_bind mbind]. destruct (List.find _ _) as [x|] eqn:Hx; cbn [option_bind mbind].
    + destruct (Z.eqb_spec (len (RtpExtension.ext_value x)) 2) as [Hl|Hn]; (eexists; split; [reflexivity|]).
      * exists (RtpExtension.ext_value x). rewrite Hsz. split; [|done]. split; [done|]. by exists p, x.
      * intros (number & _ & p' & x' & Hp' & Hx' & <- & Hl). rewrite Hp in Hp'; apply Ok_inj in Hp' as <-. rewrite Hx in Hx'. by injection Hx' as <-.
    + eexists. split; [reflexivity|]. intros (number & _ & p' & x' & Hp' & Hx' & _). rewrite Hp in Hp'; apply Ok_inj in Hp' as <-. by rewrite Hx in Hx'.
  - eexists. split; [reflexivity|]. intros (number & _ & p' & x' & Hp' & _). by rewrite Hp in Hp'.
  - by pose proof (RtpPacket.returns_parse packet) as Hr; rewrite Hp in Hr.
  - by pose proof (RtpPacket.returns_parse packet) as Hr; rewrite Hp in Hr.
Qed.

Lemma register_sent_cases now name who packet self : registry_ok self -> len packet < 2 ^ 63 -> BandwidthEstimator.time_ok now ->
  exists self' b, register_sent now name who packet self = (self', Ok b) /\ registry_ok self' /\
  if b then exists m c number m', rooms self !! name = Some m /\ measured m who packet c number /\ remembered now who packet number c m m' /\
    self' = set_rooms (<[name := m']> (rooms self)) self
  else self' = self /\ forall m c number, rooms self !! name = Some m -> ~ measured m who packet c number.
Proof.
  intros Hok Hs Hn. unfold register_sent. destruct (rooms self !! name) as [m|] eqn:Hm; [|by exists self, false].
  destruct (go_rooms _ Hok _ _ Hm) as [Hmo _]. rewrite (on_room_Some _ _ _ _ Hm). rewrite (prog_step _ _ m m m) by done.
  assert (set_rooms (<[name := m]> (rooms self)) self = self) as Hsame by (rewrite insert_id by done; by destruct self).
  destruct (congestion m !! who) as [c|] eqn:Hc; cbn [mret prog_ret fst snd].
  2: { eexists _, false. split; [reflexivity|]. rewrite Hsame. split_and!; [done..|]. intros m0 c0 number Hm0 [Hc0 _]. by simplify_eq. }
  destruct (sent_packet_cases now m who packet c Hc) as (o & Ho & Hcase). rewrite (prog_step _ _ m m o) by (unfold lift; by rewrite Ho).
  destruct o as [sent|]; cbn [mret prog_ret fst snd].
  2: { eexists _, false. split; [reflexivity|]. rewrite Hsame. split_and!; [done..|]. intros m0 c0 number Hm0 Hme. simplify_eq. apply Hcase. exists number.
       pose proof Hme as [Hc0 _]. by simplify_eq. }
  destruct Hcase as (number & Hme & Hsent). destruct (mo_congestion _ Hmo _ _ Hc) as [C1 C2 C3].
  destruct (BandwidthEstimator.register_sent_spec (S (length (BandwidthEstimator.history (estimator c)))) sent (estimator c)) as (e & old & h & Hreg & He & Hh & Heq);
    [done| |lia|].
  { subst sent. split; [done|]. cbn. unfold usize, fits. pose_len. lia. }
  set (m' := set_congestion (<[who := with_estimator e c]> (congestion m)) m).
  rewrite (prog_step _ _ m m' tt) by (unfold on_estimator; by rewrite Hreg). cbn [mret prog_ret fst snd]. eexists _, true. split; [reflexivity|].
  destruct (congestion_update m who (with_estimator e c) Hmo) as [U1 U2]; [by split|]. split; [by eapply registry_routed|].
  exists m, c, number, m'. split_and!; [done..| |done]. exists e. split_and!; [done..|]. subst e sent. cbn. by rewrite last_snoc.
Qed.

(** ** Steps *)
Inductive step (self : SfuRegistry) : SfuRegistry -> Prop :=
| step_bind room_id pid session : step self (bind_session room_id pid session self).1
| step_publish input : publish_typed input -> step self (publish input self).1
| step_publish_transcoded input : publish_typed input -> step self (publish_transcoded input self).1
| step_unpublish room_id track : step self (unpublish room_id track self).1
| step_unpublish_owned room_id pid track : step self (unpublish_owned room_id pid track self).1
| step_add_sink room_id track dest source : step self (add_recording_sink_for_ssrc room_id track dest source self).1
| step_remove_sinks room_id track : step self (remove_recording_sink room_id track self).1
| step_remove_sink room_id track dest : step self (remove_recording_sink_destination room_id track dest self).1
| step_keyframe room_id track source : step self (request_keyframe room_id track source self).1
| step_subscribe input : subscribe_typed input -> step self (subscribe input self).1
| step_unsubscribe room_id pid sub : step self (unsubscribe room_id pid sub self).1
| step_unbind room_id pid session : step self (unbind_session room_id pid session self).1
| step_layer now room_id pid sub spatial temporal : step self (set_layer now room_id pid sub spatial temporal self).1
| step_rtp now room_id pid packet : rust_slice packet -> step self (handle_rtp now room_id pid packet self).1
| step_transcoded_rtp now room_id pid packet : rust_slice packet -> step self (handle_transcoded_rtp now room_id pid packet self).1
| step_rtcp now room_id pid packet : rust_slice packet -> step self (handle_rtcp now room_id pid packet self).1
| step_sent now room_id who packet : rust_slice packet -> BandwidthEstimator.time_ok now -> step self (register_sent now room_id who packet self).1.

Lemma step_ok self self' : step self self' -> registry_ok self -> registry_ok self'.
Proof.
  intros Hs Hok. destruct Hs.
  - by apply bind_session_ok.
  - by apply publish_registry_ok.
  - by apply publish_registry_ok.
  - by apply unpublish_registry_ok.
  - by apply unpublish_owned_ok.
  - by apply add_sink_ok.
  - apply fewer_sinks_ok; [done|]. intros key s Hk. by apply drop_sinks_Some in Hk as [? _].
  - apply fewer_sinks_ok; [done|]. intros key s Hk. by apply lookup_delete_Some in Hk as [_ ?].
  - apply on_room_routed; [done|]. intros m Hm. split; [done|apply routed_refl].
  - by apply subscribe_registry_ok.
  - by apply unsubscribe_ok.
  - by apply unbind_session_ok.
  - by apply set_layer_ok.
  - by apply handle_rtp_registry_ok.
  - by apply handle_rtp_registry_ok.
  - by apply handle_rtcp_registry_ok.
  - destruct (register_sent_cases now room_id who packet self) as (self' & b & -> & ? & _); [done|by destruct H|done|done].
Qed.
Definition reachable (self : SfuRegistry) : Prop := rtc step default_registry self.
Lemma runtime_reachable_ok self : reachable self -> registry_ok self.
Proof.
  intros Hr. assert (forall a b, rtc step a b -> registry_ok a -> registry_ok b) as H.
  { induction 1 as [|a b c Hab _ IH]; [done|]. intros Ha. by apply IH, (step_ok a). }
  eapply H; [exact Hr|apply default_registry_ok].
Qed.

(** ** Theorems *)
(** C6: the tables of a media node agree with its forwarding core at all times.  After any sequence of calls, in every room
    the owners, the sources and the subscriptions recorded beside the core are those of the core; every owner, every
    subscriber and every measured participant has a transport session; the layers a selector may choose exist on the track it
    adapts; no room without sessions remains; and every recording sink is a loopback address of a published track, with a
    source of that track. *)
Theorem runtime_invariant self : reachable self -> registry_ok self.
Proof. apply runtime_reachable_ok. Qed.

(** C7: media goes exactly where it should.  A packet of a bound participant never panics the node and touches no other room
    and no sink; when the core accepts it, the routes are, in this order, one packet per forwarded copy to the session of its
    subscriber, requests for key frames to the session of the publisher alone and for sources of that very track, and the
    packet as it came, once per loopback sink that listens to its source. *)
Theorem media_routed now name pid packet self p m : reachable self -> rust_slice packet -> parse_participant pid = Ok p -> rooms self !! name = Some m ->
  let '(self', o) := handle_rtp now name pid packet self in
  returns o /\ recording_sinks self' = recording_sinks self /\ (forall n, n <> name -> rooms self' !! n = rooms self !! n) /\
  exists m', rooms self' !! name = Some m' /\ routed m m' /\ forall routes, o = Ok routes -> delivered self now name p packet m m' routes.
Proof.
  intros Hok%runtime_reachable_ok Hs Hp Hm. unfold handle_rtp. unfold mbind at 1, prog_bind at 1, lift at 1. rewrite Hp. rewrite (prog_step _ _ self self self) by done.
  rewrite (on_room_Some _ _ _ _ Hm). destruct (go_rooms _ Hok _ _ Hm) as [Hmo _]. pose proof (route_rtp_spec self now name p packet m Hok Hmo Hs) as Hr.
  destruct (route_rtp _ _ _ _ _ m) as [m' o]. destruct Hr as (R1 & R2 & R3 & R4). cbn [fst snd]. split_and!; [done|done| |].
  - intros n Hn. cbn. by rewrite lookup_insert_ne.
  - exists m'. cbn. by rewrite lookup_insert_eq.
Qed.

(** C8: feedback is answered to its sender and moves only its sender.  A report of a bound participant never panics the node;
    it fails only when the RTCP compound does not parse, and then changes nothing.  Otherwise every route is a cached packet
    of one of the sender's own subscriptions, to the session of the sender, or a request for a key frame of a track the
    sender subscribes to, to the session of the track's owner; the subscriptions of every other participant, all other rooms
    and the sinks stay as they were, whatever the estimator and the selectors decide. *)
Theorem feedback_routed now name pid packet self who m : reachable self -> rust_slice packet -> parse_participant pid = Ok who -> rooms self !! name = Some m ->
  let '(self', o) := handle_rtcp now name pid packet self in
  recording_sinks self' = recording_sinks self /\ (forall n, n <> name -> rooms self' !! n = rooms self !! n) /\
  exists m', rooms self' !! name = Some m' /\ routed m m' /\ others_same who m m' /\
  match o with
  | Ok routes => forall route, route ∈ routes -> answered m name who route
  | Err e => m' = m /\ exists x, Rtcp.parse_compound packet = Err x /\ e = Core (FromRoom (Rtcp x))
  | _ => False
  end.
Proof.
  intros Hok%runtime_reachable_ok Hs Hp Hm. unfold handle_rtcp. unfold mbind at 1, prog_bind at 1, lift at 1. rewrite Hp.
  rewrite (on_room_Some _ _ _ _ Hm). destruct (go_rooms _ Hok _ _ Hm) as [Hmo _]. pose proof (route_rtcp_spec now name who packet m Hmo Hs) as Hr.
  destruct (route_rtcp _ _ _ _ m) as [m' o]. destruct Hr as (_ & R2 & R3 & R4). cbn [fst snd]. split_and!; [done| |].
  - intros n Hn. cbn. by rewrite lookup_insert_ne.
  - exists m'. cbn. by rewrite lookup_insert_eq.
Qed.

(** What is left of a room after [p] is gone. *)
Record without (p : ParticipantId) (m m' : ManagedRoom) : Prop := {
  wo_sessions : participant_sessions m' = delete p (participant_sessions m);
  wo_tracks tid : Room.tracks (room m') !! tid = if decide (track_owners m !! tid = Some p) then None else Room.tracks (room m) !! tid;
  wo_subs id : Room.subscriptions (room m') !! id =
    d ← Room.subscriptions (room m) !! id;
    if decide (subscriber (configuration d) = p \/ track_owners m !! sub_track_id (configuration d) = Some p) then None else Some d;
  wo_congestion : congestion m' !! p = None }.


(** exactly the packets that carry the number of their subscriber are measured.  [register_sent] never panics; it answers
    true exactly when the subscriber has an estimator and the packet parses and has the transport-wide extension with two
    bytes, and then the history of that estimator ends with that number, the time of sending and the size of the whole
    packet; otherwise the node is unchanged. *)
Theorem transmission_measured now name who packet self : reachable self -> rust_slice packet -> BandwidthEstimator.time_ok now ->
  exists self' b, register_sent now name who packet self = (self', Ok b) /\ 
  if b then exists m c number m', rooms self !! name = Some m /\ measured m who packet c number /\ remembered now who packet number c m m' /\
    self' = set_rooms (<[name := m']> (rooms self)) self
  else self' = self /\ forall m c number, rooms self !! name = Some m -> ~ measured m who packet c number.
Proof. intros Hok%runtime_reachable_ok [_ Hs] Hn. destruct (register_sent_cases now name who packet self Hok Hs Hn) as (self' & b & H & _ & Hb). by exists self', b. Qed.
End Steps.

(** ** A concrete node: a publisher with a recorded track, and a subscriber *)
#[export] Instance listing : HashIteration := { iter K EqK CountableK V m := map_to_list m; iter_perm K EqK CountableK V m := Permutation_refl _ }.
#[local] Existing Instance RoomSafety.key_order.
#[local] Existing Instance LayerSelector.merge_sorting.
Definition lobby : bytes := octets "lobby".
Definition example_publish : PublishTrack :=
  {| pt_room_id := lobby; pt_participant_id := octets "1"; pt_track_id := 9; pt_kind := Video; pt_codec := MediaCodec.H264; pt_clock_rate := 90000;
     pt_payload_type := 96; pt_encodings := encodings DownTrack.example_track |}.
Definition example_subscribe : SubscribeTrack :=
  {| st_room_id := lobby; st_participant_id := octets "2"; st_subscription_id := 40; st_track_id := 9; st_output_ssrc := 77; st_output_payload_type := 100;
     st_spatial_layer := 0; st_temporal_layer := 2; st_initial_sequence_number := 65535; st_initial_timestamp := 1000; st_extension_rewrites := [];
     st_transport_wide_extension_id := Some 3 |}.
Definition recorder : SocketAddr := SocketAddrV4 0x7f000001 5004.
Definition node0 : SfuRegistry := (bind_session lobby (octets "1") (octets "alpha") default_registry).1.
Definition node1 : SfuRegistry := (bind_session lobby (octets "2") (octets "beta") node0).1.
Definition node2 : SfuRegistry := (publish example_publish node1).1.
Definition node3 : SfuRegistry := (subscribe example_subscribe node2).1.
Definition node4 : SfuRegistry := (add_recording_sink_for_ssrc lobby 9 recorder (Some 5) node3).1.
Definition node5 : SfuRegistry := (handle_rtp 5 lobby (octets "1") (DownTrack.example_input 1) node4).1.

Lemma node4_reachable : reachable node4.
Proof.
  unfold reachable. eapply rtc_r; [|exact (step_add_sink node3 lobby 9 recorder (Some 5))]. eapply rtc_r; [|apply (step_subscribe node2 example_subscribe); unfold subscribe_typed; eval_facts].
  eapply rtc_r; [|apply (step_publish node1 example_publish); unfold publish_typed; eval_facts].
  eapply rtc_r; [|exact (step_bind node0 lobby (octets "2") (octets "beta"))]. apply rtc_once. exact (step_bind default_registry lobby (octets "1") (octets "alpha")).
Qed.
Lemma node5_reachable : reachable node5.
Proof. eapply rtc_r; [exact node4_reachable|]. apply step_rtp, DownTrack.example_input_ok. Qed.

Lemma runtime_invariant_witness : bool_decide (is_Some (recording_sinks node5 !! (lobby, 9, recorder))) = true /\ registry_ok node5.
Proof. split; [vm_compute; reflexivity|]. exact (runtime_invariant node5 node5_reachable). Defined.

Lemma media_routed_witness : exists routed_packet, (handle_rtp 5 lobby (octets "1") (DownTrack.example_input 1) node4).2 =
  Ok [RouteRtp (octets "beta") lobby 2 40 true routed_packet; RecorderRtp recorder (DownTrack.example_input 1)].
Proof.
  pose proof (media_routed 5 lobby (octets "1") (DownTrack.example_input 1) node4 1 _ node4_reachable DownTrack.example_input_ok
    ltac:(vm_compute; reflexivity) ltac:(vm_compute; reflexivity)) as H.
  destruct (handle_rtp _ _ _ _ _) as [self' o] eqn:Ho. destruct H as (H & _). eexists. apply (f_equal snd) in Ho. vm_compute in Ho. symmetry in Ho. exact Ho.
Defined.

Lemma feedback_routed_witness : exists cached,
  (handle_rtcp 6 lobby (octets "2") RoomSafety.example_nack node5).2 = Ok [RouteRtp (octets "beta") lobby 2 40 false cached] /\
  rooms (handle_rtcp 6 lobby (octets "2") RoomSafety.example_nack node5).1 !! octets "other" = rooms node5 !! octets "other".
Proof.
  pose proof (feedback_routed 6 lobby (octets "2") RoomSafety.example_nack node5 2 _ node5_reachable
    ltac:(split; [repeat constructor; eval_facts|eval_facts]) ltac:(vm_compute; reflexivity) ltac:(vm_compute; reflexivity)) as H.
  destruct (handle_rtcp _ _ _ _ _) as [self' o] eqn:Ho. destruct H as (_ & H & _). eexists. split; [|by apply H].
  apply (f_equal snd) in Ho. vm_compute in Ho. symmetry in Ho. exact Ho.
Defined.


Definition numbered : bytes := [0x90; 100; 0; 1; 0; 0; 0; 7; 0; 0; 0; 77; 0xbe; 0xde; 0; 1; 0x31; 2; 1; 0; 0x65; 11].
Lemma transmission_measured_witness : (register_sent 7 lobby 2 numbered node5).2 = Ok true /\ (register_sent 7 lobby 1 numbered node5).1 = node5.
Proof.
  assert (rust_slice numbered) as Hs by (split; [repeat constructor; eval_facts|eval_facts]).
  split; [vm_compute; reflexivity|]. destruct (transmission_measured 7 lobby 1 numbered node5 node5_reachable Hs) as (self' & b & H & Hb); [unfold BandwidthEstimator.time_ok; lia|].
  assert ((register_sent 7 lobby 1 numbered node5).2 = Ok false) as Hf by (vm_compute; reflexivity). rewrite H in *. cbn [fst snd] in *. injection Hf as ->. apply Hb.
Defined.
