(* ===== verification/Stun.v ===== *)
(** * webrtc/stun: the STUN message codec (src/lib.rs)

    [Message::parse] with the attribute accessors and verifiers, and [MessageBuilder].  The newtypes
    [Method], [AttributeType] and [TransactionId] are their contents.  HMAC-SHA1, HMAC-SHA256 and
    CRC-32 come from the packages [hmac], [sha1], [sha2] and [crc32fast]: they are the parameters of
    the class [StunCrypto].  [new_from_slice] gives [None] for a key it refuses. *)
From S2P Require Import Prelude Words Slices RustStd BytesCodec.

Class StunCrypto := {
  hmac_sha1 : bytes -> option (bytes -> bytes);
  hmac_sha256 : bytes -> option (bytes -> bytes);
  crc32 : bytes -> Z;
  hmac_sha1_output key mac message : hmac_sha1 key = Some mac -> bytes_ok (mac message) /\ len (mac message) = 20;
  hmac_sha256_output key mac message : hmac_sha256 key = Some mac -> bytes_ok (mac message) /\ len (mac message) = 32;
  hmac_sha1_any_key key : is_Some (hmac_sha1 key);
  hmac_sha256_any_key key : is_Some (hmac_sha256 key);
  crc32_u32 message : u32 (crc32 message) }.

Definition HEADER_LEN : Z := 20.
Definition MAGIC_COOKIE : Z := 0x2112a442.
Definition FINGERPRINT_XOR : Z := 0x5354554e.
Definition MAX_MESSAGE_LEN : Z := HEADER_LEN + 65535.

Inductive AttributeLength :=
| Exact (n : Z)
| Range (minimum maximum multiple : Z).

Inductive StunError :=
| MessageTooShort (n : Z)
| InvalidMessageType (v : Z)
| InvalidMethod (v : Z)
| InvalidMessageLength (declared actual : Z)
| LengthNotAligned (n : Z)
| InvalidMagicCookie (v : Z)
| MessageTooLarge
| InvalidAttributeLength (attribute_type : Z) (expected : AttributeLength) (actual : Z)
| DuplicateAttribute (attribute_type : Z)
| AttributeAfterIntegrity (attribute_type : Z)
| FingerprintNotLast
| InvalidUtf8 (attribute_type : Z)
| UnsupportedAddressFamily (family : Z)
| InvalidErrorCode (code : Z)
| ReasonPhraseTooLong (n : Z)
| MissingAttribute (attribute_type : Z)
| InvalidIntegrityKey
| IntegrityMismatch
| FingerprintMismatch
| Decode (error : DecodeError)
| Encode (error : EncodeError).

Module Method.
Definition BINDING : Z := 0x001.
Definition ALLOCATE : Z := 0x003.
Definition REFRESH : Z := 0x004.
Definition SEND : Z := 0x006.
Definition DATA : Z := 0x007.
Definition CREATE_PERMISSION : Z := 0x008.
Definition CHANNEL_BIND : Z := 0x009.
Definition new (value : Z) : outcome StunError Z :=
  if value <=? 0x0fff then Ok value else Err (InvalidMethod value).
End Method.

Inductive MessageClass := Request | Indication | SuccessResponse | ErrorResponse.
#[export] Instance MessageClass_eq_dec : EqDecision MessageClass.
Proof. solve_decision. Defined.
Definition class_value (c : MessageClass) : Z :=
  match c with Request => 0 | Indication => 1 | SuccessResponse => 2 | ErrorResponse => 3 end.
Definition from_raw (value : Z) : MessageClass :=
  if value =? 0 then Request else if value =? 1 then Indication
  else if value =? 2 then SuccessResponse else ErrorResponse.

Module MessageType.
Record t := { method : Z; class : MessageClass }.
Definition new (method : Z) (class : MessageClass) : t := {| method := method; class := class |}.

Definition encode (self : t) : Z :=
  let method := method self in
  let class := class_value (class self) in
  Z.lor (Z.lor (Z.lor (Z.lor (Z.land method 0x000f)
    (Z.shiftl (Z.land method 0x0070) 1))
    (Z.shiftl (Z.land method 0x0f80) 2))
    (Z.shiftl (Z.land class 0x01) 4))
    (Z.shiftl (Z.land class 0x02) 7).

Definition decode (value : Z) : outcome StunError t :=
  if negb (Z.land value 0xc000 =? 0) then Err (InvalidMessageType value)
  else
    let method := Z.lor (Z.lor (Z.land value 0x000f) (Z.shiftr (Z.land value 0x00e0) 1))
      (Z.shiftr (Z.land value 0x3e00) 2) in
    let class := Z.lor (Z.land (Z.shiftr value 4) 0x01) (Z.land (Z.shiftr value 7) 0x02) in
    Ok (new method (from_raw class)).
End MessageType.

Module AttributeType.
Definition MAPPED_ADDRESS : Z := 0x0001.
Definition USERNAME : Z := 0x0006.
Definition MESSAGE_INTEGRITY : Z := 0x0008.
Definition ERROR_CODE : Z := 0x0009.
Definition UNKNOWN_ATTRIBUTES : Z := 0x000a.
Definition CHANNEL_NUMBER : Z := 0x000c.
Definition LIFETIME : Z := 0x000d.
Definition XOR_PEER_ADDRESS : Z := 0x0012.
Definition DATA : Z := 0x0013.
Definition REALM : Z := 0x0014.
Definition NONCE : Z := 0x0015.
Definition XOR_RELAYED_ADDRESS : Z := 0x0016.
Definition REQUESTED_ADDRESS_FAMILY : Z := 0x0017.
Definition REQUESTED_TRANSPORT : Z := 0x0019.
Definition DONT_FRAGMENT : Z := 0x001a.
Definition MESSAGE_INTEGRITY_SHA256 : Z := 0x001c.
Definition XOR_MAPPED_ADDRESS : Z := 0x0020.
Definition RESERVATION_TOKEN : Z := 0x0022.
Definition PRIORITY : Z := 0x0024.
Definition USE_CANDIDATE : Z := 0x0025.
Definition SOFTWARE : Z := 0x8022.
Definition ALTERNATE_SERVER : Z := 0x8023.
Definition FINGERPRINT : Z := 0x8028.
Definition ICE_CONTROLLED : Z := 0x8029.
Definition ICE_CONTROLLING : Z := 0x802a.

Definition is_comprehension_required (self : Z) : bool := self <? 0x8000.
Definition is_known (self : Z) : bool :=
  bool_decide (self ∈ [MAPPED_ADDRESS; USERNAME; MESSAGE_INTEGRITY; ERROR_CODE; UNKNOWN_ATTRIBUTES;
    CHANNEL_NUMBER; LIFETIME; XOR_PEER_ADDRESS; DATA; REALM; NONCE; XOR_RELAYED_ADDRESS;
    REQUESTED_ADDRESS_FAMILY; REQUESTED_TRANSPORT; DONT_FRAGMENT; MESSAGE_INTEGRITY_SHA256;
    XOR_MAPPED_ADDRESS; RESERVATION_TOKEN; PRIORITY; USE_CANDIDATE; SOFTWARE; ALTERNATE_SERVER;
    FINGERPRINT; ICE_CONTROLLED; ICE_CONTROLLING]).
End AttributeType.
Import AttributeType.

Record RawAttribute := { attribute_type : Z; value : bytes; start : Z }.

(** The reason phrase is a [&str]: its octets. *)
Record ErrorCode := { code : Z; reason : bytes }.

Record Message := {
  raw : bytes;
  kind : MessageType.t;
  transaction_id : bytes;
  attributes : list RawAttribute }.

Definition require_len (attribute_type : Z) (value : bytes) (expected : Z) : outcome StunError unit :=
  if len value =? expected then Ok tt
  else Err (InvalidAttributeLength attribute_type (Exact expected) (len value)).

(** ** The parser *)
Definition read_header (input : bytes) : prog ReadCursor.t StunError (MessageType.t * bytes * bytes) :=
  v ← with_err Decode ReadCursor.read_u16;
  message_type ← lift (MessageType.decode v);
  body_len ← with_err Decode ReadCursor.read_u16;
  _ ← lift (reject_if (negb (body_len mod 4 =? 0)) (LengthNotAligned body_len));
  cookie ← with_err Decode ReadCursor.read_u32;
  _ ← lift (reject_if (negb (cookie =? MAGIC_COOKIE)) (InvalidMagicCookie cookie));
  id ← with_err Decode (ReadCursor.take 12);
  _ ← lift (reject_if (negb (len id =? 12)) (MessageTooShort (len input)));
  declared_len ← lift (ok_or (checked_add 64 HEADER_LEN body_len) (InvalidMessageLength body_len (len input)));
  _ ← lift (reject_if (negb (declared_len =? len input)) (InvalidMessageLength declared_len (len input)));
  rest ← gets ReadCursor.rest;
  mret (message_type, id, rest).

Definition parse_header (input : bytes) : outcome StunError (MessageType.t * bytes * bytes) :=
  if len input <? HEADER_LEN then Err (MessageTooShort (len input))
  else (read_header input (ReadCursor.new input)).2.

(** The local variables [seen_sha1], [seen_sha256] and [seen_fingerprint]. *)
Record Seen := { seen_sha1 : bool; seen_sha256 : bool; seen_fingerprint : bool }.

Definition address_shape (attribute_type : Z) (value : bytes) : outcome StunError unit :=
  reject_if (negb ((len value =? 8) || (len value =? 20)))
    (InvalidAttributeLength attribute_type (Range 8 20 4) (len value)).

Definition check_attribute (seen : Seen) (attribute_type : Z) (value : bytes) : outcome StunError Seen :=
  let ty t := attribute_type =? t in
  _ ← reject_if (seen_fingerprint seen) FingerprintNotLast;
  _ ← reject_if ((seen_sha1 seen || seen_sha256 seen) &&
        negb (ty MESSAGE_INTEGRITY_SHA256 || ty FINGERPRINT)) (AttributeAfterIntegrity attribute_type);
  if ty MESSAGE_INTEGRITY then
    _ ← reject_if (seen_sha1 seen) (DuplicateAttribute attribute_type);
    _ ← require_len attribute_type value 20;
    Ok {| seen_sha1 := true; seen_sha256 := seen_sha256 seen; seen_fingerprint := seen_fingerprint seen |}
  else if ty MESSAGE_INTEGRITY_SHA256 then
    _ ← reject_if (seen_sha256 seen) (DuplicateAttribute attribute_type);
    _ ← reject_if (negb ((16 <=? len value) && (len value <=? 32)) || negb (len value mod 4 =? 0))
          (InvalidAttributeLength attribute_type (Range 16 32 4) (len value));
    Ok {| seen_sha1 := seen_sha1 seen; seen_sha256 := true; seen_fingerprint := seen_fingerprint seen |}
  else if ty FINGERPRINT then
    _ ← require_len attribute_type value 4;
    Ok {| seen_sha1 := seen_sha1 seen; seen_sha256 := seen_sha256 seen; seen_fingerprint := true |}
  else if ty PRIORITY || ty CHANNEL_NUMBER || ty LIFETIME || ty REQUESTED_ADDRESS_FAMILY ||
          ty REQUESTED_TRANSPORT then
    _ ← require_len attribute_type value 4; Ok seen
  else if ty DONT_FRAGMENT || ty USE_CANDIDATE then
    _ ← require_len attribute_type value 0; Ok seen
  else if ty RESERVATION_TOKEN then
    _ ← require_len attribute_type value 8; Ok seen
  else if ty XOR_MAPPED_ADDRESS || ty XOR_PEER_ADDRESS || ty XOR_RELAYED_ADDRESS then
    _ ← address_shape attribute_type value; Ok seen
  else if ty ICE_CONTROLLED || ty ICE_CONTROLLING then
    _ ← require_len attribute_type value 8; Ok seen
  else Ok seen.

Definition padding_of (value_len : Z) : Z := (4 - value_len mod 4) mod 4.

(** One attribute of the wire. *)
Definition read_attribute : prog ReadCursor.t StunError RawAttribute :=
  position ← gets ReadCursor.position;
  attribute_type ← with_err Decode ReadCursor.read_u16;
  value_len ← with_err Decode ReadCursor.read_u16;
  value ← with_err Decode (ReadCursor.take value_len);
  _ ← with_err Decode (ReadCursor.take (padding_of value_len));
  mret {| attribute_type := attribute_type; value := value; start := HEADER_LEN + position |}.

Fixpoint parse_attributes_loop (fuel : nat) (seen : Seen) (attributes : list RawAttribute)
    : prog ReadCursor.t StunError (list RawAttribute) :=
  match fuel with
  | O => lift Diverge
  | S fuel =>
      empty ← gets ReadCursor.is_empty;
      if (empty : bool) then mret attributes
      else
        attribute ← read_attribute;
        seen ← lift (check_attribute seen (attribute_type attribute) (value attribute));
        parse_attributes_loop fuel seen (attributes ++ [attribute])
  end.

Definition nothing_seen : Seen :=
  {| seen_sha1 := false; seen_sha256 := false; seen_fingerprint := false |}.

Definition parse_attributes (body_bytes : bytes) : outcome StunError (list RawAttribute) :=
  (parse_attributes_loop (S (length body_bytes)) nothing_seen [] (ReadCursor.new body_bytes)).2.

Definition parse (input : bytes) : outcome StunError Message :=
  '(kind, transaction_id, body) ← parse_header input;
  attributes ← parse_attributes body;
  Ok {| raw := input; kind := kind; transaction_id := transaction_id; attributes := attributes |}.

(** ** Addresses *)
Definition xor_mask (transaction_id : bytes) : bytes := to_be_bytes 4 MAGIC_COOKIE ++ transaction_id.
Definition xor_port (port : Z) : Z := Z.lxor port (default 0 (try_from 16 (Z.shiftr MAGIC_COOKIE 16))).

Definition encode_xor_address (address : SocketAddr) (transaction_id : bytes) : bytes :=
  match ip address with
  | V4 ip => [0; 0x01] ++ to_be_bytes 2 (xor_port (port address)) ++ to_be_bytes 4 (Z.lxor ip MAGIC_COOKIE)
  | V6 octets => [0; 0x02] ++ to_be_bytes 2 (xor_port (port address)) ++ xor_bytes octets (xor_mask transaction_id)
  end.

Definition read_xor_address (value transaction_id : bytes) : prog ReadCursor.t StunError SocketAddr :=
  _ ← with_err Decode ReadCursor.read_u8;
  family ← with_err Decode ReadCursor.read_u8;
  port ← with_err Decode ReadCursor.read_u16;
  let port := xor_port port in
  if family =? 0x01 then
    _ ← lift (require_len XOR_MAPPED_ADDRESS value 8);
    address ← with_err Decode ReadCursor.read_u32;
    mret (socket_new (V4 (Z.lxor address MAGIC_COOKIE)) port)
  else if family =? 0x02 then
    _ ← lift (require_len XOR_MAPPED_ADDRESS value 20);
    encoded ← with_err Decode (ReadCursor.take 16);
    mret (socket_new (V6 (xor_bytes encoded (xor_mask transaction_id))) port)
  else fail (UnsupportedAddressFamily family).
Definition decode_xor_address (value transaction_id : bytes) : outcome StunError SocketAddr :=
  (read_xor_address value transaction_id (ReadCursor.new value)).2.

(** ** Accessors of a parsed message *)
Definition attribute (self : Message) (type_ : Z) : option RawAttribute :=
  snd <$> list_find (fun a => attribute_type a = type_) (attributes self).

Definition unknown_required_attributes (self : Message) : list Z :=
  filter (fun t => is_comprehension_required t = true /\ is_known t = false) (attribute_type <$> attributes self).

Definition error_code (self : Message) : outcome StunError (option ErrorCode) :=
  match attribute self ERROR_CODE with
  | None => Ok None
  | Some attribute =>
      let value := value attribute in
      _ ← reject_if (len value <? 4) (InvalidAttributeLength ERROR_CODE (Range 4 763 1) (len value));
      reserved ← ok_or (get_to value 2) (InvalidErrorCode 0);
      _ ← reject_if (negb (bool_decide (reserved = [0; 0]))) (InvalidErrorCode 0);
      b2 ← index value 2;
      number ← index value 3;
      let code := Z.land b2 0x07 * 100 + number in
      _ ← reject_if (negb ((300 <=? code) && (code <=? 699)) || (99 <? number)) (InvalidErrorCode code);
      reason ← ok_or (get_from value 4) (InvalidErrorCode code);
      _ ← reject_if (negb (from_utf8 reason)) (InvalidUtf8 ERROR_CODE);
      Ok (Some {| code := code; reason := reason |})
  end.

(** [chunks_exact(2)] and [u16::from_be_bytes]. *)
Fixpoint u16_chunks (l : bytes) : list Z :=
  match l with
  | a :: b :: l => from_be_bytes [a; b] :: u16_chunks l
  | _ => []
  end.
Definition unknown_attributes (self : Message) : outcome StunError (list Z) :=
  match attribute self UNKNOWN_ATTRIBUTES with
  | None => Ok []
  | Some attribute =>
      _ ← reject_if (negb (len (value attribute) mod 2 =? 0))
            (InvalidAttributeLength UNKNOWN_ATTRIBUTES (Range 0 65535 2) (len (value attribute)));
      Ok (u16_chunks (value attribute))
  end.

(** [self.attribute(t).map(f).transpose()] *)
Definition typed {A} (self : Message) (type_ : Z) (f : bytes -> outcome StunError A) : outcome StunError (option A) :=
  match attribute self type_ with
  | None => Ok None
  | Some attribute => Some <$> f (value attribute)
  end.

Definition read_exact_u32 (value : bytes) (attribute_type : Z) : outcome StunError Z :=
  _ ← require_len attribute_type value 4;
  map_err Decode (ReadCursor.read_u32 (ReadCursor.new value)).2.
Definition utf8_attribute (self : Message) (type_ : Z) : outcome StunError (option bytes) :=
  typed self type_ (fun value => if from_utf8 value then Ok value else Err (InvalidUtf8 type_)).
Definition u32_attribute (self : Message) (type_ : Z) : outcome StunError (option Z) :=
  typed self type_ (fun value => read_exact_u32 value type_).
Definition read_u64_attribute (value : bytes) (type_ : Z) : prog ReadCursor.t StunError Z :=
  v ← with_err Decode ReadCursor.read_u64;
  empty ← gets ReadCursor.is_empty;
  _ ← lift (reject_if (negb empty) (InvalidAttributeLength type_ (Exact 8) (len value)));
  mret v.
Definition u64_attribute (self : Message) (type_ : Z) : outcome StunError (option Z) :=
  typed self type_ (fun value => (read_u64_attribute value type_ (ReadCursor.new value)).2).

Definition username (self : Message) : outcome StunError (option bytes) := utf8_attribute self USERNAME.
Definition realm (self : Message) : outcome StunError (option bytes) := utf8_attribute self REALM.
Definition nonce (self : Message) : outcome StunError (option bytes) := utf8_attribute self NONCE.
Definition software (self : Message) : outcome StunError (option bytes) := utf8_attribute self SOFTWARE.
Definition priority (self : Message) : outcome StunError (option Z) := u32_attribute self PRIORITY.
Definition use_candidate (self : Message) : bool := bool_decide (is_Some (attribute self USE_CANDIDATE)).
Definition ice_controlling (self : Message) : outcome StunError (option Z) := u64_attribute self ICE_CONTROLLING.
Definition ice_controlled (self : Message) : outcome StunError (option Z) := u64_attribute self ICE_CONTROLLED.
Definition xor_address (self : Message) (type_ : Z) : outcome StunError (option SocketAddr) :=
  typed self type_ (fun value => decode_xor_address value (transaction_id self)).
Definition xor_mapped_address (self : Message) : outcome StunError (option SocketAddr) :=
  xor_address self XOR_MAPPED_ADDRESS.

(** [collect] into a [Result] stops at the first error. *)
Fixpoint collect {E A B} (f : A -> outcome E B) (l : list A) : outcome E (list B) :=
  match l with
  | [] => Ok []
  | x :: l => y ← f x; ys ← collect f l; Ok (y :: ys)
  end.
Definition xor_addresses (self : Message) (type_ : Z) : outcome StunError (list SocketAddr) :=
  collect (fun a => decode_xor_address (value a) (transaction_id self))
    (filter (fun a => attribute_type a = type_) (attributes self)).

(** ** Integrity and fingerprint *)
Definition integrity_input (self : Message) (attribute : RawAttribute) : outcome StunError bytes :=
  e ← ok_or (v ← checked_add 64 (start attribute) 4; checked_add 64 v (len (value attribute))) MessageTooLarge;
  adjusted_len ← ok_or (v ← checked_sub e HEADER_LEN; try_from 16 v) MessageTooLarge;
  input ← ok_or (get_to (raw self) (start attribute)) IntegrityMismatch;
  _ ← ok_or (get_range input 2 4) IntegrityMismatch;
  copy_at input 2 (to_be_bytes 2 adjusted_len).

Section Verification.
Context {crypto : StunCrypto}.

Definition verify_message_integrity_sha1 (self : Message) (key : bytes) : outcome StunError unit :=
  attribute ← ok_or (attribute self MESSAGE_INTEGRITY) (MissingAttribute MESSAGE_INTEGRITY);
  input ← integrity_input self attribute;
  mac ← ok_or (hmac_sha1 key) InvalidIntegrityKey;
  reject_if (negb (bool_decide (mac input = value attribute))) IntegrityMismatch.

Definition verify_message_integrity_sha256 (self : Message) (key : bytes) : outcome StunError unit :=
  attribute ← ok_or (attribute self MESSAGE_INTEGRITY_SHA256) (MissingAttribute MESSAGE_INTEGRITY_SHA256);
  input ← integrity_input self attribute;
  mac ← ok_or (hmac_sha256 key) InvalidIntegrityKey;
  output ← index_range (mac input) 0 (len (value attribute));
  reject_if (negb (bool_decide (value attribute = output))) IntegrityMismatch.

Definition verify_fingerprint (self : Message) : outcome StunError unit :=
  attribute ← ok_or (attribute self FINGERPRINT) (MissingAttribute FINGERPRINT);
  expected ← read_exact_u32 (value attribute) (attribute_type attribute);
  covered ← ok_or (get_to (raw self) (start attribute)) FingerprintMismatch;
  let actual := Z.lxor (crc32 covered) FINGERPRINT_XOR in
  reject_if (negb (actual =? expected)) FingerprintMismatch.
End Verification.

(** ** The builder *)
Inductive Integrity := Sha1 (key : bytes) | Sha256 (key : bytes).

Record MessageBuilder := {
  message_type : MessageType.t;
  builder_transaction_id : bytes;
  builder_attributes : list (Z * bytes);
  integrity : option Integrity;
  with_fingerprint : bool }.

Module Builder.
Definition new (message_type : MessageType.t) (transaction_id : bytes) : MessageBuilder :=
  {| message_type := message_type; builder_transaction_id := transaction_id; builder_attributes := [];
     integrity := None; with_fingerprint := false |}.
Definition raw_attribute (attribute_type : Z) (value : bytes) (self : MessageBuilder) : MessageBuilder :=
  {| message_type := message_type self; builder_transaction_id := builder_transaction_id self;
     builder_attributes := builder_attributes self ++ [(attribute_type, value)];
     integrity := integrity self; with_fingerprint := with_fingerprint self |}.
Definition username (value : bytes) := raw_attribute USERNAME value.
Definition software (value : bytes) := raw_attribute SOFTWARE value.
Definition priority (value : Z) := raw_attribute PRIORITY (to_be_bytes 4 value).
Definition use_candidate := raw_attribute USE_CANDIDATE [].
Definition ice_controlling (tie_breaker : Z) := raw_attribute ICE_CONTROLLING (to_be_bytes 8 tie_breaker).
Definition ice_controlled (tie_breaker : Z) := raw_attribute ICE_CONTROLLED (to_be_bytes 8 tie_breaker).
Definition xor_address (attribute_type : Z) (address : SocketAddr) (self : MessageBuilder) : MessageBuilder :=
  raw_attribute attribute_type (encode_xor_address address (builder_transaction_id self)) self.
Definition xor_mapped_address (address : SocketAddr) := xor_address XOR_MAPPED_ADDRESS address.

Definition error_code (code : Z) (reason : bytes) (self : MessageBuilder) : outcome StunError MessageBuilder :=
  let class := code / 100 in
  let number := code mod 100 in
  _ ← reject_if (negb ((3 <=? class) && (class <=? 6))) (InvalidErrorCode code);
  _ ← reject_if (759 <? len reason) (ReasonPhraseTooLong (len reason));
  Ok (raw_attribute ERROR_CODE
        ([0; 0; default 0 (try_from 8 class)] ++ [default 0 (try_from 8 number)] ++ reason) self).

Definition unknown_attributes (attribute_types : list Z) : MessageBuilder -> MessageBuilder :=
  raw_attribute UNKNOWN_ATTRIBUTES (dedup (sort_unstable attribute_types) ≫= to_be_bytes 2).

Definition message_integrity_sha1 (key : bytes) (self : MessageBuilder) : MessageBuilder :=
  {| message_type := message_type self; builder_transaction_id := builder_transaction_id self;
     builder_attributes := builder_attributes self; integrity := Some (Sha1 key);
     with_fingerprint := with_fingerprint self |}.
Definition message_integrity_sha256 (key : bytes) (self : MessageBuilder) : MessageBuilder :=
  {| message_type := message_type self; builder_transaction_id := builder_transaction_id self;
     builder_attributes := builder_attributes self; integrity := Some (Sha256 key);
     with_fingerprint := with_fingerprint self |}.
Definition fingerprint (self : MessageBuilder) : MessageBuilder :=
  {| message_type := message_type self; builder_transaction_id := builder_transaction_id self;
     builder_attributes := builder_attributes self; integrity := integrity self; with_fingerprint := true |}.
End Builder.

Definition encode_attribute (attribute_type : Z) (value : bytes) : prog WriteBuffer.t StunError unit :=
  value_len ← lift (ok_or (try_from 16 (len value)) MessageTooLarge);
  _ ← with_err Encode (WriteBuffer.write_u16 attribute_type);
  _ ← with_err Encode (WriteBuffer.write_u16 value_len);
  _ ← with_err Encode (WriteBuffer.extend_from_slice value);
  padding ← lift (index_range [0; 0; 0] 0 (padding_of (len value)));
  with_err Encode (WriteBuffer.extend_from_slice padding).

Definition set_wire_length (complete_len : Z) : prog WriteBuffer.t StunError unit :=
  body_len ← lift (ok_or (v ← checked_sub complete_len HEADER_LEN; try_from 16 v) MessageTooLarge);
  with_err Encode (WriteBuffer.set_u16 2 body_len).
Definition set_length_through_attribute (value_len : Z) : prog WriteBuffer.t StunError unit :=
  additional ← lift (ok_or (v ← checked_add 64 4 value_len; checked_add 64 v (padding_of value_len)) MessageTooLarge);
  length ← gets (fun b => len (WriteBuffer.as_slice b));
  complete ← lift (ok_or (checked_add 64 length additional) MessageTooLarge);
  set_wire_length complete.
Definition set_current_length : prog WriteBuffer.t StunError unit :=
  length ← gets (fun b => len (WriteBuffer.as_slice b));
  set_wire_length length.

Section Building.
Context {crypto : StunCrypto}.

Definition write_header (self : MessageBuilder) : prog WriteBuffer.t StunError unit :=
  _ ← with_err Encode (WriteBuffer.write_u16 (MessageType.encode (message_type self)));
  _ ← with_err Encode (WriteBuffer.write_u16 0);
  _ ← with_err Encode (WriteBuffer.write_u32 MAGIC_COOKIE);
  with_err Encode (WriteBuffer.extend_from_slice (builder_transaction_id self)).

Definition write_integrity (integrity : option Integrity) : prog WriteBuffer.t StunError unit :=
  match integrity with
  | None => mret tt
  | Some (Sha1 key) =>
      _ ← set_length_through_attribute 20;
      mac ← lift (ok_or (hmac_sha1 key) InvalidIntegrityKey);
      output ← gets WriteBuffer.as_slice;
      encode_attribute MESSAGE_INTEGRITY (mac output)
  | Some (Sha256 key) =>
      _ ← set_length_through_attribute 32;
      mac ← lift (ok_or (hmac_sha256 key) InvalidIntegrityKey);
      output ← gets WriteBuffer.as_slice;
      encode_attribute MESSAGE_INTEGRITY_SHA256 (mac output)
  end.

Definition write_fingerprint (fingerprint : bool) : prog WriteBuffer.t StunError unit :=
  if fingerprint then
    _ ← set_length_through_attribute 4;
    output ← gets WriteBuffer.as_slice;
    encode_attribute FINGERPRINT (to_be_bytes 4 (Z.lxor (crc32 output) FINGERPRINT_XOR))
  else set_current_length.

Definition write_message (self : MessageBuilder) : prog WriteBuffer.t StunError unit :=
  _ ← write_header self;
  _ ← for_each (builder_attributes self) (fun a => encode_attribute a.1 a.2);
  _ ← write_integrity (integrity self);
  write_fingerprint (with_fingerprint self).

Definition build (self : MessageBuilder) : outcome StunError bytes :=
  let '(output, result) := write_message self (WriteBuffer.with_limit MAX_MESSAGE_LEN) in
  (fun _ => WriteBuffer.as_slice output) <$> result.
End Building.
