(* ===== verification/StunCodec.v ===== *)
(** * webrtc/stun: what is parsed, what is built, and that they agree

    The wire image of a message, the parser as its inverse, the builder as its constructor, and what
    the integrity check covers. *)
From S2P Require Import Prelude Words Slices RustStd BytesCodec Stun.
Import AttributeType.

(** ** A cursor at a position: [suffix] is what is left of [input]. *)
Section Positions.
Context (input : bytes).

Definition at_ (suffix : bytes) (c : ReadCursor.t) : Prop :=
  ReadCursor.wf c /\ ReadCursor.input c = input /\ ReadCursor.rest c = suffix.

Lemma at_new : at_ input (ReadCursor.new input).
Proof. split_and!; [apply cursor_new_wf|done|apply cursor_new_rest]. Qed.

Lemma at_position suffix c : at_ suffix c -> ReadCursor.position c = len input - len suffix.
Proof.
  intros (Hwf & <- & <-). rewrite len_rest by done. unfold ReadCursor.remaining, ReadCursor.position. lia.
Qed.

Lemma at_is_empty suffix c : at_ suffix c -> ReadCursor.is_empty c = (len suffix =? 0).
Proof. intros (Hwf & _ & <-). by rewrite len_rest. Qed.

Lemma at_rest suffix c : at_ suffix c -> ReadCursor.rest c = suffix.
Proof. by intros (_ & _ & ->). Qed.

Lemma take_cases n suffix c : at_ suffix c -> 0 <= n ->
  (len suffix < n /\ exists e, ReadCursor.take n c = (c, Err e)) \/
  (exists b suffix' c', suffix = b ++ suffix' /\ len b = n /\ ReadCursor.take n c = (c', Ok b) /\ at_ suffix' c').
Proof.
  intros (Hwf & Hi & Hr) Hn. pose proof (take_refines n c Hn Hwf) as H. rewrite Hr in H. unfold take_spec in H.
  destruct (Z.leb_spec n (len suffix)).
  - right. destruct H as (c' & Ht & Hwf' & Hr' & Hi' & _).
    exists (take (Z.to_nat n) suffix), (drop (Z.to_nat n) suffix), c'. rewrite take_drop.
    split; [done|]. split; [slia|]. split; [exact Ht|]. split_and!; [done|congruence|done].
  - left. split; [lia|]. by eexists.
Qed.

Lemma read_array_cases n suffix c : at_ suffix c ->
  (len suffix < Z.of_nat n /\ exists e, ReadCursor.read_array n c = (c, Err e)) \/
  (exists b suffix' c', suffix = b ++ suffix' /\ length b = n /\
     ReadCursor.read_array n c = (c', Ok (from_be_bytes b)) /\ at_ suffix' c').
Proof.
  intros Hat. destruct (take_cases (Z.of_nat n) suffix c Hat ltac:(lia)) as [(Hlt & e & He)|(b & s' & c' & Hs & Hb & Ht & Hc')].
  - left. split; [done|]. exists e. unfold ReadCursor.read_array, mbind, prog_bind, gets. by rewrite He.
  - right. exists b, s', c'. assert (length b = n) as Hn by (unfold len in Hb; lia).
    split_and!; [done|done| |done]. unfold ReadCursor.read_array, mbind, prog_bind, gets. rewrite Ht.
    unfold lift. by rewrite Hn, Nat.eqb_refl.
Qed.

Lemma read_u8_cases suffix c : at_ suffix c ->
  (len suffix < 1 /\ exists e, ReadCursor.read_u8 c = (c, Err e)) \/
  (exists b suffix' c', suffix = b :: suffix' /\ ReadCursor.read_u8 c = (c', Ok b) /\ at_ suffix' c').
Proof.
  intros Hat. destruct (take_cases 1 suffix c Hat ltac:(lia)) as [(Hlt & e & He)|(b & s' & c' & Hs & Hb & Ht & Hc')].
  - left. split; [done|]. exists e. unfold ReadCursor.read_u8, mbind, prog_bind, gets. by rewrite He.
  - right. destruct b as [|b [|? ?]]; try (exfalso; revert Hb; slia). exists b, s', c'.
    split_and!; [done| |done]. unfold ReadCursor.read_u8, mbind, prog_bind, gets. by rewrite Ht.
Qed.

Lemma take_at b suffix c : at_ (b ++ suffix) c -> exists c', ReadCursor.take (len b) c = (c', Ok b) /\ at_ suffix c'.
Proof.
  intros Hat. destruct (take_cases (len b) _ c Hat ltac:(slia)) as [(H & _)|(b' & s' & c' & Hs & Hb & Ht & Hc')]; [slia|].
  apply app_inj_1 in Hs as [<- <-]; [|unfold len in Hb; lia]. eauto.
Qed.

Lemma read_array_at n v suffix c : at_ (to_be_bytes n v ++ suffix) c -> fits (8 * Z.of_nat n) v ->
  exists c', ReadCursor.read_array n c = (c', Ok v) /\ at_ suffix c'.
Proof.
  intros Hat Hv. destruct (read_array_cases n _ c Hat) as [(H & _)|(b' & s' & c' & Hs & Hb & Ht & Hc')]; [slia|].
  apply app_inj_1 in Hs as [<- <-]; [|by rewrite length_to_be_bytes]. rewrite from_to_be_bytes in Ht by done. eauto.
Qed.
End Positions.

(** The octets of an integer that was read. *)
Lemma octets_of b n : bytes_ok b -> length b = n -> b = to_be_bytes n (from_be_bytes b) /\ fits (8 * Z.of_nat n) (from_be_bytes b).
Proof.
  intros Hb <-. split; [by rewrite to_from_be_bytes|]. unfold fits. rewrite <- pow256. by apply from_be_bytes_bound.
Qed.

(** ** Message types *)
Definition type_ok (t : MessageType.t) : Prop := 0 <= MessageType.method t <= 0x0fff.

Lemma from_raw_class c : from_raw (class_value c) = c.
Proof. by destruct c. Qed.

(** Take the positions [k..15] one by one, then all the positions above. *)
Ltac bits_from n k :=
  lazymatch eval vm_compute in (k <? 16) with
  | true => destruct (Z.eq_dec n k) as [->|?];
      [|let next := eval vm_compute in (k + 1) in bits_from n next]
  | false => assert (16 <= n) by lia
  end.
Ltac bit_cases n Hn := bits_from n 0.
Ltac bit_specs := rewrite ?Z.lor_spec, ?Z.land_spec, ?Z.shiftl_spec, ?Z.shiftr_spec, ?Z.land_spec by lia.

Lemma top_bits_clear v : 0 <= v -> Z.land v 0xc000 = 0 -> v < 2 ^ 16 -> v < 0x4000.
Proof.
  intros H0 Hz Hlt. destruct (Z_lt_le_dec v 0x4000); [done|exfalso].
  assert (Z.testbit v 14 = false /\ Z.testbit v 15 = false) as [B14 B15].
  { split; [assert (Z.testbit (Z.land v 0xc000) 14 = false) as H by (by rewrite Hz)
           |assert (Z.testbit (Z.land v 0xc000) 15 = false) as H by (by rewrite Hz)];
    rewrite Z.land_spec in H; by destruct (Z.testbit v _). }
  apply (f_equal Z.b2z) in B14, B15. rewrite Z.testbit_spec' in B14, B15 by lia.
  change (Z.b2z false) with 0 in *. zdiv.
Qed.

Lemma high_bits w x n : 0 <= w -> fits w x -> w <= n -> Z.testbit x n = false.
Proof. intros Hw Hx Hn. by apply (proj1 (fits_bits w x Hw (proj1 Hx))). Qed.

Ltac is_literal k := lazymatch isZcst k with true => idtac end.

(** Evaluate the bits of constants and the positions of the others. *)
Ltac eval_bits := repeat match goal with
  | |- context [Z.testbit ?k ?i] => is_literal k; is_literal i;
      let v := eval vm_compute in (Z.testbit k i) in change (Z.testbit k i) with v
  | |- context [Z.testbit ?k (?a - ?b)] => is_literal a; is_literal b;
      let v := eval vm_compute in (a - b) in change (a - b) with v
  | |- context [Z.testbit ?k (?a + ?b)] => is_literal a; is_literal b;
      let v := eval vm_compute in (a + b) in change (a + b) with v
  | |- context [?a <? ?b] => is_literal a; is_literal b;
      let v := eval vm_compute in (a <? b) in change (a <? b) with v
  | |- context [?a =? ?b] => is_literal a; is_literal b;
      let v := eval vm_compute in (a =? b) in change (a =? b) with v
  end; cbv iota.
Ltac flip_bits := repeat match goal with |- context [Z.testbit ?x ?i] => destruct (Z.testbit x i) end; reflexivity.
(** A constant has no bit at a position above 15. *)
Ltac no_high_bits n := repeat match goal with
  | |- context [Z.testbit ?k ?i] => is_literal k;
      let w := eval vm_compute in (Z.log2 k + 1) in
      rewrite (high_bits w k i) by (lia || (split; vm_compute; done)) end.

Lemma encode_bits m c n : 0 <= n ->
  Z.testbit (MessageType.encode (MessageType.new m c)) n =
  if n <? 4 then Z.testbit m n else if n =? 4 then Z.testbit (class_value c) 0
  else if n <? 8 then Z.testbit m (n - 1) else if n =? 8 then Z.testbit (class_value c) 1
  else if n <? 14 then Z.testbit m (n - 2) else false.
Proof.
  intros Hn. unfold MessageType.encode, MessageType.new. cbn [MessageType.method MessageType.class].
  bit_cases n Hn; bit_specs; [eval_bits; flip_bits..|].
  replace (n <? 4) with false by lia. replace (n =? 4) with false by lia.
  replace (n <? 8) with false by lia. replace (n =? 8) with false by lia.
  replace (n <? 14) with false by lia. no_high_bits n. by rewrite !andb_false_r.
Qed.

Lemma encode_fits m c : 0 <= m -> 0 <= MessageType.encode (MessageType.new m c) < 0x4000.
Proof.
  intros Hm. change 0x4000 with (2 ^ 14). apply fits_bits; [lia| |].
  - unfold MessageType.encode, MessageType.new. cbn [MessageType.method MessageType.class].
    rewrite !Z.lor_nonneg, !Z.shiftl_nonneg, !Z.land_nonneg. lia.
  - intros n Hn. rewrite encode_bits by lia. repeat case_match; lia || done.
Qed.

Lemma land_zero_bits v mask : (forall n, 0 <= n -> Z.testbit v n && Z.testbit mask n = false) -> Z.land v mask = 0.
Proof. intros H. apply Z.bits_inj'. intros n Hn. rewrite Z.land_spec, Z.testbit_0_l. by apply H. Qed.

Lemma decode_encode t : type_ok t -> MessageType.decode (MessageType.encode t) = Ok t /\ 0 <= MessageType.encode t < 0x4000.
Proof.
  destruct t as [m c]. unfold type_ok. cbn [MessageType.method]. intros Hm.
  change {| MessageType.method := m; MessageType.class := c |} with (MessageType.new m c).
  split; [|apply encode_fits; lia]. unfold MessageType.decode.
  rewrite land_zero_bits; cbn [Z.eqb negb].
  2:{ intros n Hn. rewrite encode_bits by done. bit_cases n Hn; [eval_bits; by rewrite ?andb_false_r..|].
      no_high_bits n. by rewrite andb_false_r. }
  do 2 f_equal.
  - apply Z.bits_inj'. intros n Hn. bit_specs.
    bit_cases n Hn; rewrite ?encode_bits by lia; [eval_bits; rewrite ?andb_false_r, ?andb_true_r, ?orb_false_r; try done..|].
    1-4: symmetry; apply (high_bits 12); mlia.
    no_high_bits n. rewrite !andb_false_r. symmetry; apply (high_bits 12); mlia.
  - transitivity (from_raw (class_value c)); [f_equal|by destruct c]. apply Z.bits_inj'. intros n Hn. bit_specs.
    bit_cases n Hn; rewrite ?encode_bits by lia; [eval_bits; rewrite ?andb_false_r, ?andb_true_r, ?orb_false_r; by destruct c..|].
    no_high_bits n. rewrite !andb_false_r. symmetry. apply (high_bits 16); [lia|by destruct c|lia].
Qed.

Lemma class_from_raw c : fits 2 c -> class_value (from_raw c) = c.
Proof. intros Hc. assert (c = 0 \/ c = 1 \/ c = 2 \/ c = 3) as [-> | [-> | [-> | -> ]]] by mlia; done. Qed.

Lemma decoded_class v : fits 2 (Z.lor (Z.land (Z.shiftr v 4) 1) (Z.land (Z.shiftr v 7) 2)).
Proof.
  apply fits_bits; [lia|rewrite Z.lor_nonneg, !Z.land_nonneg; lia|]. intros n Hn. bit_specs. no_high_bits n.
  by rewrite !andb_false_r.
Qed.

Lemma decoded_method v : 0 <= v ->
  fits 12 (Z.lor (Z.lor (Z.land v 0xf) (Z.shiftr (Z.land v 0xe0) 1)) (Z.shiftr (Z.land v 0x3e00) 2)).
Proof.
  intros Hv. apply fits_bits; [lia|rewrite !Z.lor_nonneg, !Z.shiftr_nonneg, !Z.land_nonneg; lia|].
  intros n Hn. bit_specs. no_high_bits n. by rewrite !andb_false_r.
Qed.

Lemma encode_decode v t : u16 v -> MessageType.decode v = Ok t -> MessageType.encode t = v /\ type_ok t.
Proof.
  intros [H0 H1] Hd. unfold MessageType.decode in Hd. destruct (Z.land v 0xc000 =? 0) eqn:E; [|discriminate].
  apply Z.eqb_eq in E. pose proof (top_bits_clear v H0 E H1) as Hv. cbn [negb] in Hd. injection Hd as <-. split.
  - apply Z.bits_inj'. intros n Hn. rewrite encode_bits, class_from_raw by (done || apply decoded_class).
    bit_cases n Hn; [eval_bits; bit_specs; eval_bits; rewrite ?andb_false_r, ?andb_true_r, ?orb_false_r; try done..|].
    + symmetry. apply (high_bits 14); mlia.
    + symmetry. apply (high_bits 14); mlia.
    + replace (n <? 4) with false by lia. replace (n =? 4) with false by lia.
      replace (n <? 8) with false by lia. replace (n =? 8) with false by lia.
      replace (n <? 14) with false by lia. symmetry. apply (high_bits 14); mlia.
  - pose proof (decoded_method v H0). unfold type_ok. cbn [MessageType.method MessageType.new]. mlia.
Qed.

(** ** The wire image of attributes

    [wire s attrs b]: the octets [b], which start at offset [s] of the message, are the attributes
    [attrs]; the padding is arbitrary. *)
Inductive wire : Z -> list RawAttribute -> bytes -> Prop :=
| wire_nil s : wire s [] []
| wire_cons s t v p attrs b :
    u16 t -> len v <= 65535 -> len p = padding_of (len v) ->
    wire (s + 4 + len v + len p) attrs b ->
    wire s ({| attribute_type := t; value := v; start := s |} :: attrs)
      (to_be_bytes 2 t ++ to_be_bytes 2 (len v) ++ v ++ p ++ b).

(** The order and shape rules, for a whole list. *)
Fixpoint check_all (seen : Seen) (attrs : list RawAttribute) : outcome StunError Seen :=
  match attrs with
  | [] => Ok seen
  | a :: attrs => seen ← check_attribute seen (attribute_type a) (value a); check_all seen attrs
  end.

Lemma padding_bound n : 0 <= padding_of n <= 3.
Proof. unfold padding_of. pose proof (Z.mod_pos_bound (4 - n mod 4) 4). lia. Qed.

Lemma padding_aligns n : (n + padding_of n) mod 4 = 0.
Proof. unfold padding_of. zdiv. Qed.

Lemma returns_require_len t v n : returns (require_len t v n).
Proof. unfold require_len. by case_match. Qed.
Lemma returns_address_shape t v : returns (address_shape t v).
Proof. unfold address_shape. auto with returns. Qed.
#[export] Hint Resolve returns_require_len returns_address_shape : returns.

Lemma returns_check_attribute seen t v : returns (check_attribute seen t v).
Proof. unfold check_attribute. returns_steps. Qed.

Section ParseAttributes.
Context (input : bytes).

Lemma read_attribute_at t v p b c :
  u16 t -> len v <= 65535 -> len p = padding_of (len v) ->
  at_ input (to_be_bytes 2 t ++ to_be_bytes 2 (len v) ++ v ++ p ++ b) c ->
  exists c', read_attribute c =
    (c', Ok {| attribute_type := t; value := v; start := 20 + ReadCursor.position c |}) /\ at_ input b c'.
Proof.
  intros Ht Hv Hp Hat. destruct (read_array_at input 2 t _ c Hat Ht) as (c1 & H1 & Hat1).
  destruct (read_array_at input 2 (len v) _ c1 Hat1) as (c2 & H2 & Hat2); [slia|].
  destruct (take_at input v _ c2 Hat2) as (c3 & H3 & Hat3). destruct (take_at input p _ c3 Hat3) as (c4 & H4 & Hat4).
  exists c4. split; [|done]. unfold read_attribute. rewrite (prog_step _ _ c c (ReadCursor.position c)) by done.
  rewrite (prog_step _ _ c c1 t) by (by apply with_err_Ok).
  rewrite (prog_step _ _ c1 c2 (len v)) by (by apply with_err_Ok).
  rewrite (prog_step _ _ c2 c3 v) by (by apply with_err_Ok).
  rewrite (prog_step _ _ c3 c4 p) by (rewrite <- Hp; by apply with_err_Ok). done.
Qed.

Lemma with_err_fails {S E F A} (f : E -> F) (m : prog S E A) s s' e :
  m s = (s', Err e) -> with_err f m s = (s', Err (f e)).
Proof. unfold with_err. by intros ->. Qed.

Lemma prog_fails {S E A B} (m : prog S E A) (f : A -> prog S E B) s s' e :
  m s = (s', Err e) -> (m ≫= f) s = (s', Err e).
Proof. unfold mbind, prog_bind. by intros ->. Qed.

Lemma read_attribute_cases suffix c : bytes_ok suffix -> at_ input suffix c ->
  (exists c' e, read_attribute c = (c', Err e)) \/
  (exists t v p b c', u16 t /\ len v <= 65535 /\ len p = padding_of (len v) /\
     suffix = to_be_bytes 2 t ++ to_be_bytes 2 (len v) ++ v ++ p ++ b /\ at_ input b c' /\
     read_attribute c = (c', Ok {| attribute_type := t; value := v; start := 20 + ReadCursor.position c |})).
Proof.
  intros Hok Hat. unfold read_attribute. rewrite (prog_step _ _ c c (ReadCursor.position c)) by done.
  destruct (read_array_cases input 2 suffix c Hat) as [(_ & e & He)|(bt & s1 & c1 & -> & Ht & H1 & Hat1)].
  { left. exists c, (Decode e). by apply prog_fails, with_err_fails. }
  apply bytes_ok_app in Hok as [Hbt Hok]. destruct (octets_of bt 2 Hbt Ht) as [Et Ft].
  rewrite (prog_step _ _ c c1 (from_be_bytes bt)) by (by apply with_err_Ok).
  destruct (read_array_cases input 2 s1 c1 Hat1) as [(_ & e & He)|(bl & s2 & c2 & -> & Hl & H2 & Hat2)].
  { left. exists c1, (Decode e). by apply prog_fails, with_err_fails. }
  apply bytes_ok_app in Hok as [Hbl Hok]. destruct (octets_of bl 2 Hbl Hl) as [El Fl].
  rewrite (prog_step _ _ c1 c2 (from_be_bytes bl)) by (by apply with_err_Ok).
  destruct (take_cases input (from_be_bytes bl) s2 c2 Hat2) as [(_ & e & He)|(v & s3 & c3 & -> & Hv & H3 & Hat3)]; [mlia| |].
  { left. exists c2, (Decode e). by apply prog_fails, with_err_fails. }
  rewrite (prog_step _ _ c2 c3 v) by (by apply with_err_Ok).
  pose proof (padding_bound (from_be_bytes bl)) as Hpad.
  destruct (take_cases input (padding_of (from_be_bytes bl)) s3 c3 Hat3) as [(_ & e & He)|(p & s4 & c4 & -> & Hp & H4 & Hat4)]; [lia| |].
  { left. exists c3, (Decode e). by apply prog_fails, with_err_fails. }
  rewrite (prog_step _ _ c3 c4 p) by (by apply with_err_Ok). right.
  exists (from_be_bytes bt), v, p, s4, c4. rewrite Hv, <- Et, <- El. split_and!; try done; mlia.
Qed.

Lemma stun_wire_len s attrs b : wire s attrs b -> 4 * len attrs <= len b.
Proof. induction 1; [done|]. pose proof (padding_bound (len v)). slia. Qed.

Lemma loop_accepts fuel seen seen' acc suffix attrs c :
  (length suffix < fuel)%nat -> at_ input suffix c -> wire (20 + len input - len suffix) attrs suffix ->
  check_all seen attrs = Ok seen' ->
  (parse_attributes_loop fuel seen acc c).2 = Ok (acc ++ attrs).
Proof.
  revert seen acc suffix attrs c. induction fuel as [|fuel IH]; intros seen acc suffix attrs c Hf Hat Hw Hc; [lia|].
  cbn [parse_attributes_loop]. rewrite (prog_step _ _ c c (len suffix =? 0)) by (unfold gets; by rewrite (at_is_empty input suffix)).
  remember (20 + len input - len suffix) as s eqn:Hs. destruct Hw as [s|s t v p attrs b Ht Hv Hp Hw]; [by rewrite app_nil_r|].
  destruct (Z.eqb_spec (len (to_be_bytes 2 t ++ to_be_bytes 2 (len v) ++ v ++ p ++ b)) 0); [exfalso; slia|].
  pose proof (at_position input _ c Hat) as Hpos.
  destruct (read_attribute_at t v p b c Ht Hv Hp Hat) as (c' & Hr & Hat').
  rewrite (prog_step _ _ _ _ _ Hr). cbn [check_all attribute_type value] in Hc. inv_ok Hc.
  erewrite prog_step by (unfold lift; cbn [attribute_type value]; by rewrite Hstep).
  rewrite (IH _ _ b attrs c'); [| |done| |done].
  - replace (20 + ReadCursor.position c) with s by lia. by rewrite <- app_assoc.
  - rewrite !length_app, !length_to_be_bytes in Hf. lia.
  - replace (20 + len input - len b) with (s + 4 + len v + len p); [done|]. slia.
Qed.

Lemma loop_cases fuel seen acc suffix c :
  (length suffix < fuel)%nat -> bytes_ok suffix -> at_ input suffix c ->
  match (parse_attributes_loop fuel seen acc c).2 with
  | Ok r => exists attrs seen', r = acc ++ attrs /\ wire (20 + len input - len suffix) attrs suffix /\
      check_all seen attrs = Ok seen'
  | Err _ => True
  | Panic | Diverge => False
  end.
Proof.
  revert seen acc suffix c. induction fuel as [|fuel IH]; intros seen acc suffix c Hf Hok Hat; [lia|].
  cbn [parse_attributes_loop]. rewrite (prog_step _ _ c c (len suffix =? 0)) by (unfold gets; by rewrite (at_is_empty input suffix)).
  destruct (Z.eqb_spec (len suffix) 0) as [Hz|Hz].
  { apply len_zero_nil in Hz as ->. cbn. exists [], seen. rewrite app_nil_r. split_and!; [done|constructor|done]. }
  pose proof (at_position input _ c Hat) as Hpos.
  destruct (read_attribute_cases suffix c Hok Hat) as [(c' & e & He)|(t & v & p & b & c' & Ht & Hv & Hp & -> & Hat' & Hr)].
  { by rewrite (prog_fails _ _ _ _ _ He). }
  rewrite (prog_step _ _ _ _ _ Hr). unfold mbind at 1, prog_bind at 1, lift. cbn [attribute_type value].
  destruct (check_attribute seen t v) as [seen1|e| |] eqn:Hcheck; [|done| |].
  2,3: pose proof (returns_check_attribute seen t v) as Hret; by rewrite Hcheck in Hret.
  assert (bytes_ok b) as Hb by (rewrite !bytes_ok_app in Hok; tauto).
  specialize (IH seen1 (acc ++ [{| attribute_type := t; value := v; start := 20 + ReadCursor.position c |}]) b c'
    ltac:(rewrite !length_app, !length_to_be_bytes in Hf; lia) Hb Hat').
  destruct (parse_attributes_loop fuel seen1 _ c').2 as [r|e| |]; [|done..].
  destruct IH as (attrs & seen' & -> & Hw & Hc). eexists (_ :: attrs), seen'. rewrite <- app_assoc. split; [done|].
  split; [|cbn [check_all attribute_type value]; by rewrite Hcheck].
  replace (20 + ReadCursor.position c) with (20 + len input - len (to_be_bytes 2 t ++ to_be_bytes 2 (len v) ++ v ++ p ++ b)) by lia.
  constructor; [done..|]. replace (_ + 4 + _ + _) with (20 + len input - len b) by slia. done.
Qed.
End ParseAttributes.

(** [parse_attributes] accepts exactly the wire images that follow the rules. *)
Lemma parse_attributes_Ok body attrs : bytes_ok body ->
  parse_attributes body = Ok attrs <-> wire 20 attrs body /\ exists seen, check_all nothing_seen attrs = Ok seen.
Proof.
  intros Hok. unfold parse_attributes. split.
  - intros H. pose proof (loop_cases body (S (length body)) nothing_seen [] body _ ltac:(lia) Hok (at_new body)) as Hl.
    rewrite H in Hl. destruct Hl as (attrs' & seen & -> & Hw & Hc). cbn. replace (20 + len body - len body) with 20 in Hw by lia. eauto.
  - intros [Hw [seen Hc]]. change attrs with ([] ++ attrs) at 1. eapply (loop_accepts body _ _ _ _ body); [lia|apply at_new| |done].
    by replace (20 + len body - len body) with 20 by lia.
Qed.

Lemma returns_parse_attributes body : bytes_ok body -> returns (parse_attributes body).
Proof.
  intros Hok. pose proof (loop_cases body (S (length body)) nothing_seen [] body _ ltac:(lia) Hok (at_new body)) as Hl.
  unfold parse_attributes. by destruct (_.2).
Qed.

(** ** The header *)
Definition header (message_type length : Z) (id : bytes) : bytes :=
  to_be_bytes 2 message_type ++ to_be_bytes 2 length ++ to_be_bytes 4 MAGIC_COOKIE ++ id.

Lemma len_header ty n id : len (header ty n id) = 8 + len id.
Proof. unfold header. slia. Qed.

Section ParseHeader.
Context (input : bytes) (Hinput : rust_slice input).

Lemma read_header_accepts t id body :
  type_ok t -> len id = 12 -> len body <= 65535 -> len body mod 4 = 0 ->
  input = header (MessageType.encode t) (len body) id ++ body ->
  parse_header input = Ok (t, id, body).
Proof.
  intros Ht Hid Hlen Hmod Hin. destruct (decode_encode t Ht) as [Hdec Henc].
  assert (len input = 20 + len body) as Hlin by (rewrite Hin, len_app, len_header; lia).
  unfold parse_header, HEADER_LEN. pose proof (len_nonneg body) as Hb. replace (len input <? 20) with false by lia.
  pose proof (at_new input) as Hat. rewrite Hin in Hat at 2. unfold header in Hat. rewrite <- !app_assoc in Hat.
  unfold read_header.
  destruct (read_array_at input 2 _ _ _ Hat) as (c1 & H1 & Hat1); [mlia|].
  rewrite (prog_step _ _ _ c1 (MessageType.encode t)) by (by apply with_err_Ok).
  rewrite (prog_step _ _ c1 c1 t) by (unfold lift; by rewrite Hdec).
  destruct (read_array_at input 2 _ _ _ Hat1) as (c2 & H2 & Hat2); [mlia|].
  rewrite (prog_step _ _ _ c2 (len body)) by (by apply with_err_Ok).
  rewrite (prog_step _ _ c2 c2 tt) by (unfold lift; by rewrite Hmod).
  destruct (read_array_at input 4 _ _ _ Hat2) as (c3 & H3 & Hat3); [split; vm_compute; done|].
  rewrite (prog_step _ _ _ c3 MAGIC_COOKIE) by (by apply with_err_Ok).
  rewrite (prog_step _ _ c3 c3 tt) by done.
  destruct (take_at input id _ _ Hat3) as (c4 & H4 & Hat4).
  rewrite (prog_step _ _ _ c4 id) by (rewrite <- Hid; by apply with_err_Ok).
  rewrite (prog_step _ _ c4 c4 tt) by (unfold lift; by rewrite Hid).
  rewrite (prog_step _ _ c4 c4 (HEADER_LEN + len body)) by (unfold lift, HEADER_LEN; rewrite checked_add_fits; [done|mlia]).
  rewrite (prog_step _ _ c4 c4 tt) by (unfold lift, HEADER_LEN; by replace (_ =? len input) with true by lia).
  rewrite (prog_step _ _ c4 c4 body) by (unfold gets; by rewrite (at_rest input body)). done.
Qed.

(** A check that came out negative ends the parser with its error. *)
Ltac reject_step := unfold mbind at 1, prog_bind at 1, lift at 1;
  match goal with |- context [reject_if ?b _] => destruct b eqn:?; [done|]; cbn [reject_if] end.

Lemma parse_header_cases :
  match parse_header input with
  | Ok (t, id, body) => type_ok t /\ len id = 12 /\ len body <= 65535 /\ len body mod 4 = 0 /\
      input = header (MessageType.encode t) (len body) id ++ body
  | Err _ => True
  | Panic | Diverge => False
  end.
Proof.
  destruct Hinput as [Hok Hlen]. unfold parse_header. destruct (len input <? HEADER_LEN); [done|]. unfold read_header.
  pose proof (at_new input) as Hat. generalize dependent (ReadCursor.new input). intros c Hat.
  destruct (read_array_cases input 2 _ c Hat) as [(_ & e & He)|(bt & s1 & c1 & Es & Ht & H1 & Hat1)].
  { rewrite (prog_fails _ _ c c (Decode e)); [done|by apply with_err_fails]. }
  rewrite Es in Hok. apply bytes_ok_app in Hok as [Hbt Hok]. destruct (octets_of bt 2 Hbt Ht) as [Et Ft].
  rewrite (prog_step _ _ c c1 (from_be_bytes bt)) by (by apply with_err_Ok).
  unfold mbind at 1, prog_bind at 1, lift at 1.
  destruct (MessageType.decode (from_be_bytes bt)) as [t|e| |] eqn:Hdec; [|done|..].
  2,3: unfold MessageType.decode in Hdec; by case_match.
  destruct (encode_decode _ _ Ft Hdec) as [Henc Htok].
  destruct (read_array_cases input 2 _ c1 Hat1) as [(_ & e & He)|(bl & s2 & c2 & -> & Hl & H2 & Hat2)].
  { rewrite (prog_fails _ _ c1 c1 (Decode e)); [done|by apply with_err_fails]. }
  apply bytes_ok_app in Hok as [Hbl Hok]. destruct (octets_of bl 2 Hbl Hl) as [El Fl].
  rewrite (prog_step _ _ c1 c2 (from_be_bytes bl)) by (by apply with_err_Ok). reject_step.
  destruct (read_array_cases input 4 _ c2 Hat2) as [(_ & e & He)|(bc & s3 & c3 & -> & Hc & H3 & Hat3)].
  { rewrite (prog_fails _ _ c2 c2 (Decode e)); [done|by apply with_err_fails]. }
  apply bytes_ok_app in Hok as [Hbc Hok]. destruct (octets_of bc 4 Hbc Hc) as [Ec Fc].
  rewrite (prog_step _ _ c2 c3 (from_be_bytes bc)) by (by apply with_err_Ok). reject_step.
  destruct (take_cases input 12 _ c3 Hat3) as [(_ & e & He)|(id & body & c4 & -> & Hid & H4 & Hat4)]; [lia| |].
  { rewrite (prog_fails _ _ c3 c3 (Decode e)); [done|by apply with_err_fails]. }
  rewrite (prog_step _ _ c3 c4 id) by (by apply with_err_Ok). reject_step.
  unfold HEADER_LEN. rewrite checked_add_fits by mlia. rewrite (prog_step _ _ c4 c4 (20 + from_be_bytes bl)) by done.
  reject_step. rewrite (prog_step _ _ c4 c4 body) by (unfold gets; by rewrite (at_rest input body)). cbn.
  assert (len body = from_be_bytes bl) as Hbody.
  { assert (len input = 20 + len body); [|lia]. rewrite Es. autorewrite with len. unfold len at 1 2 3. rewrite Ht, Hl, Hc. lia. }
  split_and!; [apply Htok..|done|mlia|rewrite Hbody; lia|].
  unfold header. rewrite Henc, Hbody, <- Et, <- El. replace MAGIC_COOKIE with (from_be_bytes bc) by lia.
  rewrite <- Ec, <- !app_assoc. done.
Qed.
End ParseHeader.

(** ** [Message::parse] *)
Definition is_message (m : Message) : Prop :=
  exists body, type_ok (kind m) /\ len (transaction_id m) = 12 /\ len body <= 65535 /\ len body mod 4 = 0 /\
    raw m = header (MessageType.encode (kind m)) (len body) (transaction_id m) ++ body /\
    wire 20 (attributes m) body /\ exists seen, check_all nothing_seen (attributes m) = Ok seen.

Lemma returns_stun_parse input : rust_slice input -> returns (parse input).
Proof.
  intros Hin. unfold parse. pose proof (parse_header_cases input Hin) as Hh.
  destruct (parse_header input) as [[[t id] body]|e| |]; [|done..]. cbn.
  destruct Hh as (_ & _ & _ & _ & E). apply returns_bind; [|done]. apply returns_parse_attributes.
  destruct Hin as [Hok _]. rewrite E in Hok. by apply bytes_ok_app in Hok as [_ ?].
Qed.

(** The parser accepts exactly the messages, and reads off their parts. *)
Lemma stun_parse_Ok input m : rust_slice input -> parse input = Ok m <-> raw m = input /\ is_message m.
Proof.
  intros Hin. unfold parse. pose proof (parse_header_cases input Hin) as Hh. split.
  - destruct (parse_header input) as [[[t id] body]|e| |]; cbn; try discriminate. intros H. inv_ok H. subst m. cbn.
    destruct Hh as (Ht & Hid & Hl & Hm & E). split; [done|]. exists body. cbn. split_and!; try done; [apply Ht..| |].
    all: apply parse_attributes_Ok in Hstep as [? ?]; try done; destruct Hin as [Hok _]; rewrite E in Hok; by apply bytes_ok_app in Hok as [_ ?].
  - intros (Hraw & body & Ht & Hid & Hl & Hm & E & Hw & Hc). rewrite Hraw in E.
    rewrite (read_header_accepts input _ _ body Ht Hid Hl Hm E). cbn.
    assert (bytes_ok body) by (destruct Hin as [Hok _]; rewrite E in Hok; by apply bytes_ok_app in Hok as [_ ?]).
    rewrite (proj2 (parse_attributes_Ok body (attributes m) ltac:(done)) (conj Hw Hc)). cbn. subst input. by destruct m.
Qed.
