(* ===== verification/StunBuild.v ===== *)
(** * webrtc/stun: what the builder produces

    A message that [build] accepts is the wire image of its attributes followed by the integrity and
    fingerprint attributes, and it parses back to them. *)
From S2P Require Import Prelude Words Slices RustStd BytesCodec Stun StunCodec.
Import AttributeType.

(** ** The octets of attributes *)
Definition attribute_bytes (a : Z * bytes) : bytes :=
  to_be_bytes 2 a.1 ++ to_be_bytes 2 (len a.2) ++ a.2 ++ replicateZ (padding_of (len a.2)) 0.
Definition body_bytes (l : list (Z * bytes)) : bytes := l ≫= attribute_bytes.

Definition attribute_size (value_len : Z) : Z := 4 + value_len + padding_of value_len.

Lemma len_attribute_bytes a : len (attribute_bytes a) = attribute_size (len a.2).
Proof. unfold attribute_bytes, attribute_size. pose proof (padding_bound (len a.2)). slia. Qed.

Lemma body_bytes_app l1 l2 : body_bytes (l1 ++ l2) = body_bytes l1 ++ body_bytes l2.
Proof. unfold body_bytes. apply bind_app. Qed.

Lemma body_bytes_one a : body_bytes [a] = attribute_bytes a.
Proof. unfold body_bytes. cbn. apply app_nil_r. Qed.

Lemma body_aligned l : len (body_bytes l) mod 4 = 0.
Proof.
  induction l as [|a l IH]; [done|]. change (a :: l) with ([a] ++ l).
  rewrite body_bytes_app, body_bytes_one, len_app, len_attribute_bytes. unfold attribute_size.
  pose proof (padding_aligns (len a.2)). rewrite Z.add_mod, IH by lia. zdiv.
Qed.

(** ** The writer *)
Definition grow (b : WriteBuffer.t) (v : bytes) : WriteBuffer.t :=
  {| WriteBuffer.bytes_ := WriteBuffer.bytes_ b ++ v; WriteBuffer.limit := WriteBuffer.limit b |}.

Section Writes.
Implicit Types b : WriteBuffer.t.

Lemma extend_Ok v b b' : WriteBuffer.limit b < 2 ^ 63 ->
  WriteBuffer.extend_from_slice v b = (b', Ok tt) <->
  len (WriteBuffer.bytes_ b) + len v <= WriteBuffer.limit b /\ b' = grow b v.
Proof.
  intros Hl. unfold WriteBuffer.extend_from_slice, checked_add. split.
  - repeat case_match; try discriminate. simplify_eq. intros [= <-]. split; [lia|done].
  - intros [Hle ->]. pose_len. replace (_ <=? umax 64) with true by mlia. by replace (_ <? _) with false by lia.
Qed.

Lemma write_Ok (m : prog WriteBuffer.t EncodeError unit) v b b' :
  m = WriteBuffer.extend_from_slice v -> WriteBuffer.limit b < 2 ^ 63 ->
  with_err Encode m b = (b', Ok tt) <->
  len (WriteBuffer.bytes_ b) + len v <= WriteBuffer.limit b /\ b' = grow b v.
Proof. intros -> Hl. rewrite with_err_Ok. by apply extend_Ok. Qed.

Lemma grow_grow b v w : grow (grow b v) w = grow b (v ++ w).
Proof. unfold grow. cbn. by rewrite app_assoc. Qed.

Lemma padding_slice n : index_range (E:=StunError) [0; 0; 0] 0 (padding_of n) = Ok (replicateZ (padding_of n) 0).
Proof.
  pose proof (padding_bound n). assert (padding_of n = 0 \/ padding_of n = 1 \/ padding_of n = 2 \/ padding_of n = 3)
    as [-> | [-> | [-> | -> ]]] by lia; reflexivity.
Qed.

Lemma encode_attribute_Ok t v b b' : WriteBuffer.limit b < 2 ^ 63 ->
  encode_attribute t v b = (b', Ok tt) <->
  len v <= 65535 /\ len (WriteBuffer.bytes_ b) + attribute_size (len v) <= WriteBuffer.limit b /\
  b' = grow b (attribute_bytes (t, v)).
Proof.
  intros Hl. pose proof (padding_bound (len v)) as Hp. unfold encode_attribute, attribute_size. split.
  - intros H. apply prog_bind_Ok in H as (b0 & n & H0 & H). injection H0 as <- Hn.
    apply ok_or_Ok, try_from_Some in Hn as [-> Hn].
    apply prog_bind_Ok in H as (b1 & [] & H1 & H). apply (write_Ok _ (to_be_bytes 2 t)) in H1 as [L1 ->]; [|done..].
    apply prog_bind_Ok in H as (b2 & [] & H2 & H). apply (write_Ok _ (to_be_bytes 2 (len v))) in H2 as [L2 ->]; [|done..].
    apply prog_bind_Ok in H as (b3 & [] & H3 & H). apply (write_Ok _ v) in H3 as [L3 ->]; [|done..].
    apply prog_bind_Ok in H as (b4 & p & H4 & H). unfold lift in H4. rewrite padding_slice in H4. injection H4 as <- <-.
    apply (write_Ok _ (replicateZ (padding_of (len v)) 0)) in H as [L4 ->]; [|done..].
    rewrite !grow_grow. split; [mlia|]. split; [|done]. cbn in L4. slia.
  - intros (Hv & Hsize & ->). pose proof (len_nonneg v) as Hv0.
    rewrite (prog_step _ _ b b (len v)) by (unfold lift; rewrite try_from_fits; [done|mlia]).
    rewrite (prog_step _ _ b (grow b (to_be_bytes 2 t)) tt) by (apply (write_Ok _ (to_be_bytes 2 t)); [done..|]; split; [slia|done]).
    erewrite prog_step by (apply (write_Ok _ (to_be_bytes 2 (len v))); [done..|]; split; [cbn; slia|done]).
    erewrite prog_step by (apply (write_Ok _ v); [done..|]; split; [cbn; slia|done]).
    erewrite prog_step by (unfold lift; by rewrite padding_slice).
    apply (write_Ok _ (replicateZ (padding_of (len v)) 0)); [done..|]. split; [cbn; slia|].
    rewrite !grow_grow. done.
Qed.

Lemma encode_attributes_Ok l b b' : WriteBuffer.limit b < 2 ^ 63 -> len (WriteBuffer.bytes_ b) <= WriteBuffer.limit b ->
  for_each l (fun a => encode_attribute a.1 a.2) b = (b', Ok tt) <->
  Forall (fun a => len a.2 <= 65535) l /\
  len (WriteBuffer.bytes_ b) + len (body_bytes l) <= WriteBuffer.limit b /\ b' = grow b (body_bytes l).
Proof.
  revert b b'. induction l as [|[t v] l IH]; intros b b' Hl Hb.
  - unfold grow, body_bytes. cbn. rewrite app_nil_r. destruct b as [by_ li]. cbn in *. split.
    + intros [= <-]. split_and!; [constructor|slia|done].
    + by intros (_ & _ & ->).
  - change ((t, v) :: l) with ([(t, v)] ++ l). rewrite body_bytes_app, body_bytes_one, len_app, len_attribute_bytes.
    cbn [app for_each fst snd]. rewrite prog_bind_Ok, Forall_cons. cbn [snd]. pose proof (len_nonneg (body_bytes l)) as Hb0.
    split.
    + intros (b1 & [] & H1 & H). apply encode_attribute_Ok in H1 as (Hv & Hs & ->); [|done].
      apply IH in H as (Hf & Hn & ->); [|done|cbn; rewrite len_app, len_attribute_bytes; cbn; lia]. cbn in Hn.
      rewrite len_app, len_attribute_bytes in Hn. cbn in Hn. rewrite grow_grow. split_and!; [done|done|lia|done].
    + intros ([Hv Hf] & Hn & ->). exists (grow b (attribute_bytes (t, v))), tt. rewrite <- grow_grow.
      split; [apply encode_attribute_Ok; [done|]; split_and!; [done|lia|done]|].
      apply IH; [done|cbn; rewrite len_app, len_attribute_bytes; cbn; lia|]. split_and!; [done| |done].
      cbn. rewrite len_app, len_attribute_bytes. cbn. lia.
Qed.
End Writes.

(** ** The message under construction: a header with some length, and attributes *)
Section Build.
Context {crypto : StunCrypto} (ty : Z) (id : bytes) (Hid : len id = 12).

Definition buffer (length : Z) (body : bytes) : WriteBuffer.t :=
  {| WriteBuffer.bytes_ := header ty length id ++ body; WriteBuffer.limit := MAX_MESSAGE_LEN |}.

Lemma buffer_len n body : len (WriteBuffer.bytes_ (buffer n body)) = 20 + len body.
Proof. cbn. rewrite len_app, len_header. lia. Qed.

Lemma buffer_grow n body v : grow (buffer n body) v = buffer n (body ++ v).
Proof. unfold grow, buffer. cbn. by rewrite app_assoc. Qed.

Lemma set_wire_length_Ok k n body b' : 0 <= k ->
  set_wire_length (20 + k) (buffer n body) = (b', Ok tt) <-> k <= 65535 /\ b' = buffer k body.
Proof.
  intros Hk. unfold set_wire_length, checked_sub, HEADER_LEN. replace (20 <=? 20 + k) with true by lia. cbn [mbind option_bind].
  replace (20 + k - 20) with k by lia. unfold try_from. replace (0 <=? k) with true by lia. cbn [andb].
  destruct (Z.leb_spec k (umax 16)).
  - rewrite (prog_step _ _ _ (buffer n body) k) by done. rewrite with_err_Ok.
    assert (WriteBuffer.set_u16 2 k (buffer n body) = (buffer k body, Ok tt)) as ->.
    { unfold WriteBuffer.set_u16, WriteBuffer.set_slice. rewrite len_to_be_bytes. change (checked_add 64 2 (Z.of_nat 2)) with (Some 4).
      cbn [buffer WriteBuffer.bytes_]. unfold header. rewrite <- !app_assoc.
      rewrite (proj2 (get_range_Some _ 2 4 (to_be_bytes 2 n))) by (eexists (to_be_bytes 2 ty), _; split; [done|by rewrite !len_to_be_bytes]).
      rewrite copy_at_middle by (by rewrite !len_to_be_bytes). unfold buffer, header. by rewrite <- !app_assoc. }
    split; [intros [= <-]; split; [mlia|done]|by intros [_ ->]].
  - split; [discriminate|]. intros [? _]. mlia.
Qed.

Lemma set_length_through_Ok v n body b' : 0 <= v < 2 ^ 32 -> len body < 2 ^ 32 ->
  set_length_through_attribute v (buffer n body) = (b', Ok tt) <->
  len body + attribute_size v <= 65535 /\ b' = buffer (len body + attribute_size v) body.
Proof.
  intros Hv Hb. pose proof (padding_bound v) as Hp. pose proof (len_nonneg body) as Hb0.
  unfold set_length_through_attribute. rewrite checked_add_fits by mlia. cbn [mbind option_bind].
  rewrite checked_add_fits by mlia. rewrite (prog_step _ _ _ (buffer n body) (attribute_size v)) by done.
  rewrite (prog_step _ _ _ (buffer n body) (20 + len body)) by (unfold gets, WriteBuffer.as_slice; by rewrite buffer_len).
  unfold attribute_size. rewrite (prog_step _ _ _ (buffer n body) (20 + (len body + (4 + v + padding_of v))))
    by (unfold lift; rewrite checked_add_fits by mlia; do 2 f_equal; cbn; f_equal; lia).
  apply set_wire_length_Ok. lia.
Qed.

Lemma set_current_length_Ok n body b' :
  set_current_length (buffer n body) = (b', Ok tt) <-> len body <= 65535 /\ b' = buffer (len body) body.
Proof.
  unfold set_current_length.
  rewrite (prog_step _ _ _ (buffer n body) (20 + len body)) by (unfold gets, WriteBuffer.as_slice; by rewrite buffer_len).
  apply set_wire_length_Ok. slia.
Qed.

(** What the integrity and fingerprint attributes are computed from. *)
Definition covered (l : list (Z * bytes)) (value_len : Z) : bytes :=
  header ty (len (body_bytes l) + attribute_size value_len) id ++ body_bytes l.
Definition sign (l : list (Z * bytes)) (i : option Integrity) : option (list (Z * bytes)) :=
  match i with
  | None => Some l
  | Some (Sha1 key) => mac ← hmac_sha1 key; Some (l ++ [(MESSAGE_INTEGRITY, mac (covered l 20))])
  | Some (Sha256 key) => mac ← hmac_sha256 key; Some (l ++ [(MESSAGE_INTEGRITY_SHA256, mac (covered l 32))])
  end.
Definition stamp (l : list (Z * bytes)) (fingerprint : bool) : list (Z * bytes) :=
  if fingerprint then l ++ [(FINGERPRINT, to_be_bytes 4 (Z.lxor (crc32 (covered l 4)) FINGERPRINT_XOR))] else l.

(** One protected attribute: the length through it is set, then it is appended. *)
Lemma append_covered t v n l b' k : len v = k -> 0 <= k <= 65535 -> len (body_bytes l) < 2 ^ 32 ->
  (exists b1, set_length_through_attribute k (buffer n (body_bytes l)) = (b1, Ok tt) /\ encode_attribute t v b1 = (b', Ok tt)) <->
  len (body_bytes (l ++ [(t, v)])) <= 65535 /\ b' = buffer (len (body_bytes (l ++ [(t, v)]))) (body_bytes (l ++ [(t, v)])).
Proof.
  intros Hv Hk Hb. rewrite body_bytes_app, body_bytes_one, len_app, len_attribute_bytes. cbn [snd]. rewrite Hv. split.
  - intros (b1 & H1 & H2). apply set_length_through_Ok in H1 as [H1 ->]; [|mlia..].
    apply encode_attribute_Ok in H2 as (_ & _ & ->); [|done]. by rewrite buffer_grow.
  - intros [H1 ->]. eexists. split; [apply set_length_through_Ok; [mlia..|done]|].
    apply encode_attribute_Ok; [done|]. rewrite buffer_grow, buffer_len, Hv. split_and!; [lia| |done].
    cbn [buffer WriteBuffer.limit]. unfold MAX_MESSAGE_LEN, HEADER_LEN. lia.
Qed.

Lemma set_length_covers k n l b1 : 0 <= k <= 65535 -> len (body_bytes l) < 2 ^ 32 ->
  set_length_through_attribute k (buffer n (body_bytes l)) = (b1, Ok tt) -> WriteBuffer.as_slice b1 = covered l k.
Proof. intros Hk Hb H. apply set_length_through_Ok in H as [_ ->]; [done|mlia..]. Qed.

Lemma append_mac_Ok t (f : option (bytes -> bytes)) k n l b' :
  (forall mac, f = Some mac -> len (mac (covered l k)) = k) -> 0 <= k <= 65535 -> len (body_bytes l) < 2 ^ 32 ->
  (_ ← set_length_through_attribute k;
   mac ← lift (ok_or f InvalidIntegrityKey);
   output ← gets WriteBuffer.as_slice;
   encode_attribute t (mac output)) (buffer n (body_bytes l)) = (b', Ok tt) <->
  exists l', (mac ← f; Some (l ++ [(t, mac (covered l k))])) = Some l' /\ len (body_bytes l') <= 65535 /\
    b' = buffer (len (body_bytes l')) (body_bytes l').
Proof.
  intros Hlen Hk Hb. split.
  - intros H. apply prog_bind_Ok in H as (b1 & [] & H1 & H). apply prog_bind_Ok in H as (? & mac & H2 & H).
    injection H2 as <- H2%ok_or_Ok. apply prog_bind_Ok in H as (? & out & [= <- <-] & H). subst f.
    rewrite (set_length_covers k n l b1 Hk Hb H1) in H. eexists. split; [done|].
    apply (append_covered t _ n l b' k (Hlen mac eq_refl) Hk Hb). eauto.
  - intros (l' & H & Hl'). destruct f as [mac|]; [|done]. cbn in H. injection H as <-.
    apply (append_covered t _ n l b' k (Hlen mac eq_refl) Hk Hb) in Hl' as (b1 & H1 & H2).
    rewrite (prog_step _ _ _ _ _ H1), (prog_step _ _ b1 b1 mac) by done.
    rewrite (prog_step _ _ b1 b1 (covered l k)); [done|]. unfold gets. by rewrite (set_length_covers k n l b1 Hk Hb H1).
Qed.

(** The length field after the integrity attribute. *)
Definition signed_length (i : option Integrity) (n : Z) (l' : list (Z * bytes)) : Z :=
  match i with Some _ => len (body_bytes l') | None => n end.

Lemma write_integrity_Ok i n l b' : len (body_bytes l) <= 65535 ->
  write_integrity i (buffer n (body_bytes l)) = (b', Ok tt) <->
  exists l', sign l i = Some l' /\ len (body_bytes l') <= 65535 /\ b' = buffer (signed_length i n l') (body_bytes l').
Proof.
  intros Hl. unfold write_integrity, sign, signed_length. destruct i as [[key|key]|].
  - apply append_mac_Ok; [|mlia..]. intros mac Hmac. by apply (hmac_sha1_output key mac).
  - apply append_mac_Ok; [|mlia..]. intros mac Hmac. by apply (hmac_sha256_output key mac).
  - split; [intros [= <-]; by exists l|]. by intros (l' & [= <-] & _ & ->).
Qed.

Lemma write_fingerprint_Ok f n l b' : len (body_bytes l) < 2 ^ 32 ->
  write_fingerprint f (buffer n (body_bytes l)) = (b', Ok tt) <->
  len (body_bytes (stamp l f)) <= 65535 /\ b' = buffer (len (body_bytes (stamp l f))) (body_bytes (stamp l f)).
Proof.
  intros Hb. unfold write_fingerprint, stamp. destruct f; [|apply set_current_length_Ok].
  rewrite <- (append_covered FINGERPRINT _ n l b' 4); [|by rewrite len_to_be_bytes|lia|done].
  rewrite prog_bind_Ok. split.
  - intros (b1 & [] & H1 & H2). apply prog_bind_Ok in H2 as (? & out & [= <- <-] & H2). rewrite (set_length_covers 4 n l b1 ltac:(lia) Hb H1) in H2. eauto.
  - intros (b1 & H1 & H2). exists b1, tt. split; [done|]. rewrite (prog_step _ _ b1 b1 (covered l 4)); [done|].
    unfold gets. by rewrite (set_length_covers 4 n l b1 ltac:(lia) Hb H1).
Qed.

Lemma write_header_Ok self : MessageType.encode (message_type self) = ty -> builder_transaction_id self = id ->
  write_header self (WriteBuffer.with_limit MAX_MESSAGE_LEN) = (buffer 0 [], Ok tt).
Proof.
  intros Ht Hi. unfold write_header. rewrite Ht, Hi.
  erewrite prog_step by (apply (write_Ok _ _ _ _ eq_refl); [done|]; split; [by rewrite len_to_be_bytes|done]).
  erewrite prog_step by (apply (write_Ok _ _ _ _ eq_refl); [done|]; split; [cbn; by rewrite len_to_be_bytes|done]).
  erewrite prog_step by (apply (write_Ok _ _ _ _ eq_refl); [done|]; split; [cbn; by rewrite len_app, !len_to_be_bytes|done]).
  apply (write_Ok _ _ _ _ eq_refl); [done|]. rewrite !grow_grow. split.
  - cbn. rewrite !len_app, !len_to_be_bytes, Hid. done.
  - unfold buffer, header, grow. cbn. by rewrite app_nil_r.
Qed.

Lemma sign_prefix l i l' : sign l i = Some l' -> exists mac, l' = l ++ mac.
Proof.
  unfold sign. destruct i as [[key|key]|].
  - destruct (hmac_sha1 key); intros [= <-]. by eexists.
  - destruct (hmac_sha256 key); intros [= <-]. by eexists.
  - intros [= <-]. exists []. by rewrite app_nil_r.
Qed.

Lemma stamp_prefix l f : exists mark, stamp l f = l ++ mark.
Proof. unfold stamp. destruct f; [by eexists|]. exists []. by rewrite app_nil_r. Qed.

(** [build] succeeds exactly on messages that fit, with their wire image. *)
Lemma build_Ok self out : MessageType.encode (message_type self) = ty -> builder_transaction_id self = id ->
  build self = Ok out <->
  exists l, sign (builder_attributes self) (integrity self) = Some l /\
    Forall (fun a => len a.2 <= 65535) (builder_attributes self) /\
    len (body_bytes (stamp l (with_fingerprint self))) <= 65535 /\
    out = header ty (len (body_bytes (stamp l (with_fingerprint self)))) id ++ body_bytes (stamp l (with_fingerprint self)).
Proof.
  intros Ht Hi. assert (build self = Ok out <-> exists b, write_message self (WriteBuffer.with_limit MAX_MESSAGE_LEN) = (b, Ok tt) /\ WriteBuffer.as_slice b = out) as ->.
  { unfold build. destruct (write_message _ _) as [b [[]|e| |]]; cbn; naive_solver. }
  unfold write_message. rewrite (prog_step _ _ _ _ _ (write_header_Ok self Ht Hi)). setoid_rewrite prog_bind_Ok.
  pose proof (fun b1 => encode_attributes_Ok (builder_attributes self) (buffer 0 []) b1 eq_refl ltac:(by rewrite buffer_len)) as Hattr.
  split.
  - intros (b & (b1 & [] & H1 & H) & <-). apply Hattr in H1 as (Hf & H1 & ->). rewrite buffer_len, buffer_grow, app_nil_l in *.
    cbn [buffer WriteBuffer.limit] in H1. unfold MAX_MESSAGE_LEN, HEADER_LEN in H1. rewrite len_nil in H1.
    apply prog_bind_Ok in H as (b2 & [] & H2 & H3). apply write_integrity_Ok in H2 as (l & Hs & Hl & ->); [|lia].
    apply write_fingerprint_Ok in H3 as [H3 ->]; [|mlia]. exists l. done.
  - intros (l & Hs & Hf & Hl & ->). destruct (sign_prefix _ _ _ Hs) as [mac Hmac]. destruct (stamp_prefix l (with_fingerprint self)) as [mark Hmark].
    assert (len (body_bytes (builder_attributes self)) <= len (body_bytes l) /\ len (body_bytes l) <= 65535) as [Hle1 Hle2].
    { rewrite Hmark, body_bytes_app in Hl. rewrite Hmac, body_bytes_app in *. slia. }
    eexists. split.
    + exists (buffer 0 (body_bytes (builder_attributes self))), tt. split.
      * apply Hattr. rewrite buffer_len, buffer_grow, app_nil_l. split_and!; [done| |done]. cbn [buffer WriteBuffer.limit].
        unfold MAX_MESSAGE_LEN, HEADER_LEN. rewrite len_nil. lia.
      * erewrite prog_step; [|apply write_integrity_Ok; [lia|]; by exists l]. apply write_fingerprint_Ok; [mlia|done].
    + done.
Qed.
End Build.
