(* ===== verification/StunSafety.v ===== *)
(** * webrtc/stun: a built message parses and verifies, and what verification covers *)
From S2P Require Import Prelude Words Slices RustStd BytesCodec Stun StunCodec StunBuild.
Import AttributeType.

(** ** Attributes at their offsets *)
Fixpoint located (s : Z) (l : list (Z * bytes)) : list RawAttribute :=
  match l with
  | [] => []
  | a :: l => {| attribute_type := a.1; value := a.2; start := s |} :: located (s + attribute_size (len a.2)) l
  end.
Definition contents (a : RawAttribute) : Z * bytes := (attribute_type a, value a).

Lemma contents_located s l : contents <$> located s l = l.
Proof. revert s. induction l as [|[t v] l IH]; intros s; [done|]. cbn. by rewrite IH. Qed.

Lemma wire_located s l : Forall (fun a => u16 a.1 /\ len a.2 <= 65535) l -> wire s (located s l) (body_bytes l).
Proof.
  intros Hl. revert s. induction Hl as [|[t v] l [Ht Hv] Hl IH]; intros s; [constructor|].
  change (body_bytes ((t, v) :: l)) with (attribute_bytes (t, v) ++ body_bytes l). unfold attribute_bytes.
  cbn [located fst snd] in *. rewrite <- !app_assoc. pose proof (padding_bound (len v)).
  constructor; [done|done|slia|]. replace (s + 4 + len v + len (replicateZ (padding_of (len v)) 0)) with (s + attribute_size (len v)); [done|].
  unfold attribute_size. slia.
Qed.

Section Find.
Context (t : Z).

Lemma find_skip (l1 l2 : list RawAttribute) : Forall (fun a => attribute_type a <> t) l1 ->
  snd <$> list_find (fun a => attribute_type a = t) (l1 ++ l2) = snd <$> list_find (fun a => attribute_type a = t) l2.
Proof.
  induction 1 as [|a l1 Ha Hl1 IH]; [done|]. cbn. rewrite decide_False by done. rewrite <- IH.
  by destruct (list_find _ _) as [[? ?]|].
Qed.

Lemma find_here (a : RawAttribute) l : attribute_type a = t ->
  snd <$> list_find (fun a => attribute_type a = t) (a :: l) = Some a.
Proof. intros Ha. cbn. by rewrite decide_True. Qed.

Lemma find_nowhere (l : list RawAttribute) : Forall (fun a => attribute_type a <> t) l ->
  snd <$> list_find (fun a => attribute_type a = t) l = None.
Proof. intros H. rewrite <- (app_nil_r l), find_skip by done. done. Qed.

Lemma find_split (l : list RawAttribute) a :
  snd <$> list_find (fun a => attribute_type a = t) l = Some a ->
  attribute_type a = t /\ exists l1 l2, l = l1 ++ a :: l2 /\ Forall (fun a => attribute_type a <> t) l1.
Proof.
  induction l as [|b l IH]; [done|]. destruct (decide (attribute_type b = t)) as [Hb|Hb].
  - rewrite find_here by done. intros [= <-]. split; [done|]. by exists [], l.
  - change (b :: l) with ([b] ++ l). rewrite find_skip by (by constructor). intros (Ha & l1 & l2 & -> & Hl)%IH. split; [done|]. exists (b :: l1), l2. split; [done|]. by constructor.
Qed.
End Find.

Lemma located_app s l1 l2 : located s (l1 ++ l2) = located s l1 ++ located (s + len (body_bytes l1)) l2.
Proof.
  revert s. induction l1 as [|a l1 IH]; intros s; [cbn; rewrite Z.add_0_r; done|].
  cbn [app located]. rewrite IH. cbn [app]. do 3 f_equal. change (a :: l1) with ([a] ++ l1).
  rewrite body_bytes_app, body_bytes_one, len_app, len_attribute_bytes. lia.
Qed.

Lemma located_types s l t : Forall (fun a => a.1 <> t) l -> Forall (fun a => attribute_type a <> t) (located s l).
Proof. intros H. revert s. induction H; intros s; constructor; auto. Qed.

(** ** The rules of the parser on built messages *)
Definition plain (a : Z * bytes) : Prop :=
  u16 a.1 /\ bytes_ok a.2 /\ check_attribute nothing_seen a.1 a.2 = Ok nothing_seen.

Lemma plain_type a t : plain a -> t ∈ [MESSAGE_INTEGRITY; MESSAGE_INTEGRITY_SHA256; FINGERPRINT] -> a.1 <> t.
Proof.
  intros (_ & _ & Hc) Ht Heq. subst t. set_unfold. unfold check_attribute in Hc. cbn [seen_fingerprint seen_sha1 seen_sha256 nothing_seen orb andb reject_if] in Hc.
  destruct Ht as [Ht|[Ht|[Ht|[]]]]; rewrite Ht in Hc; cbn in Hc; inv_ok Hc; discriminate.
Qed.

Lemma check_plain s l : Forall plain l -> check_all nothing_seen (located s l) = Ok nothing_seen.
Proof.
  intros H. revert s. induction H as [|a l (_ & _ & Ha) Hl IH]; intros s; [done|].
  cbn [located check_all attribute_type value]. rewrite Ha. cbn. apply IH.
Qed.

Lemma check_all_app seen l1 l2 : check_all seen (l1 ++ l2) = (seen ← check_all seen l1; check_all seen l2).
Proof.
  revert seen. induction l1 as [|a l1 IH]; intros seen; [done|]. cbn. destruct (check_attribute _ _ _); cbn; [apply IH|done..].
Qed.

(** ** The input of the integrity check *)
Lemma integrity_input_spec m a ty n id b1 b2 : len id = 12 ->
  raw m = header ty n id ++ b1 ++ b2 -> start a = 20 + len b1 -> len b1 + 4 + len (value a) <= 65535 ->
  integrity_input m a = Ok (header ty (len b1 + 4 + len (value a)) id ++ b1).
Proof.
  intros Hid Hraw Hs Hlen. pose proof (len_nonneg b1) as Hb. pose proof (len_nonneg (value a)) as Hv.
  unfold integrity_input. rewrite Hs, checked_add_fits by mlia. cbn [mbind option_bind]. rewrite checked_add_fits by mlia.
  cbn [ok_or mbind outcome_bind]. unfold checked_sub, HEADER_LEN. replace (20 <=? _) with true by lia. cbn [mbind option_bind].
  rewrite try_from_fits by mlia. cbn [ok_or mbind outcome_bind]. unfold get_to. rewrite Hraw, app_assoc.
  rewrite get_range_exact by (rewrite len_app, len_header; lia). cbn [ok_or mbind outcome_bind].
  unfold header. rewrite <- !app_assoc.
  rewrite (proj2 (get_range_Some _ 2 4 (to_be_bytes 2 n))) by (eexists (to_be_bytes 2 ty), _; split; [done|by rewrite !len_to_be_bytes]).
  cbn [ok_or mbind outcome_bind]. rewrite copy_at_middle by (by rewrite !len_to_be_bytes).
  replace (20 + len b1 + 4 + len (value a) - 20) with (len b1 + 4 + len (value a)) by lia. done.
Qed.

Lemma read_exact_u32_bytes x t : u32 x -> read_exact_u32 (to_be_bytes 4 x) t = Ok x.
Proof.
  intros Hx. unfold read_exact_u32, require_len. rewrite len_to_be_bytes. cbn [Z.of_nat Z.eqb Pos.eqb Pos.of_succ_nat mbind outcome_bind].
  pose proof (at_new (to_be_bytes 4 x)) as Hat. rewrite <- (app_nil_r (to_be_bytes 4 x)) in Hat at 2.
  destruct (read_array_at _ 4 x [] _ Hat Hx) as (c & Hc & _). unfold ReadCursor.read_u32. by rewrite Hc.
Qed.

Section Signed.
Context {crypto : StunCrypto}.
Context (self : MessageBuilder).
Context (Htype : type_ok (message_type self)) (Hid : len (builder_transaction_id self) = 12).
Context (Hidb : bytes_ok (builder_transaction_id self)) (Hplain : Forall plain (builder_attributes self)).
Abbreviation ty := (MessageType.encode (message_type self)).
Abbreviation id := (builder_transaction_id self).
Abbreviation attrs := (builder_attributes self).

Lemma fingerprint_value_u32 b : u32 (Z.lxor (crc32 b) FINGERPRINT_XOR).
Proof. apply fits_lxor; [lia|apply crc32_u32|by vm_compute]. Qed.

(** What follows the caller's attributes. *)
Definition trailer (a : Z * bytes) : Prop :=
  u16 a.1 /\ bytes_ok a.2 /\ a.1 ∈ [MESSAGE_INTEGRITY; MESSAGE_INTEGRITY_SHA256; FINGERPRINT].

Lemma check_fingerprint seen s x : seen_fingerprint seen = false ->
  exists seen', check_all seen (located s [(FINGERPRINT, to_be_bytes 4 x)]) = Ok seen'.
Proof.
  intros Hs. unfold located, check_all, check_attribute, require_len. cbn [attribute_type value fst snd].
  rewrite Hs, len_to_be_bytes. destruct seen as [[] [] []]; cbn in *; (done || by eexists).
Qed.

Lemma fingerprint_trailer x : trailer (FINGERPRINT, to_be_bytes 4 x).
Proof. split_and!; [by vm_compute..|apply to_be_bytes_ok|cbn; set_solver]. Qed.

Lemma stamp_shape a seen f : trailer a -> check_attribute nothing_seen a.1 a.2 = Ok seen -> seen_fingerprint seen = false ->
  exists tail, stamp ty id (attrs ++ [a]) f = attrs ++ tail /\ Forall trailer tail /\
    forall s, exists seen', check_all nothing_seen (located s tail) = Ok seen'.
Proof.
  intros Ha Hc Hs. unfold stamp. destruct f.
  - eexists. rewrite <- app_assoc. split; [done|]. cbn [app]. rewrite !Forall_cons, Forall_nil. split; [auto using fingerprint_trailer|].
    intros s. cbn [app located check_all attribute_type value]. rewrite Hc. by apply (check_fingerprint seen s).
  - exists [a]. rewrite Forall_cons, Forall_nil. split; [done|]. split; [done|]. intros s. cbn [located check_all attribute_type value]. rewrite Hc. by eexists.
Qed.

Lemma signed_shape l : sign ty id attrs (integrity self) = Some l ->
  exists tail, stamp ty id l (with_fingerprint self) = attrs ++ tail /\ Forall trailer tail /\
    forall s, exists seen, check_all nothing_seen (located s tail) = Ok seen.
Proof.
  unfold sign. destruct (integrity self) as [[key|key]|].
  - destruct (hmac_sha1 key) as [mac|] eqn:Hmac; intros [= <-].
    destruct (hmac_sha1_output key mac (covered ty id attrs 20) Hmac) as [Hok Hlen].
    eapply stamp_shape; [split_and!; [by vm_compute..|done|cbn; set_solver]| |].
    + unfold check_attribute, require_len. cbn [fst snd]. rewrite Hlen. reflexivity.
    + done.
  - destruct (hmac_sha256 key) as [mac|] eqn:Hmac; intros [= <-].
    destruct (hmac_sha256_output key mac (covered ty id attrs 32) Hmac) as [Hok Hlen].
    eapply stamp_shape; [split_and!; [by vm_compute..|done|cbn; set_solver]| |].
    + unfold check_attribute, require_len. cbn [fst snd]. rewrite Hlen. reflexivity.
    + done.
  - intros [= <-]. unfold stamp. destruct (with_fingerprint self).
    + eexists. split; [done|]. rewrite Forall_cons, Forall_nil. split; [auto using fingerprint_trailer|]. intros s. by apply (check_fingerprint nothing_seen s).
    + exists []. rewrite app_nil_r. split_and!; [done|constructor|]. intros s. by eexists.
Qed.

Lemma body_bytes_ok l : Forall (fun a => bytes_ok a.2) l -> bytes_ok (body_bytes l).
Proof.
  induction 1 as [|a l Ha Hl IH]; [constructor|]. change (a :: l) with ([a] ++ l). rewrite body_bytes_app, body_bytes_one.
  unfold attribute_bytes. repeat (apply bytes_ok_app; split); auto with bytes. apply bytes_ok_replicate.
Qed.

(** The parse of a built message. *)
Lemma build_parses out : build self = Ok out ->
  exists l tail, sign ty id attrs (integrity self) = Some l /\
    stamp ty id l (with_fingerprint self) = attrs ++ tail /\ Forall trailer tail /\
    len (body_bytes (attrs ++ tail)) <= 65535 /\ out = header ty (len (body_bytes (attrs ++ tail))) id ++ body_bytes (attrs ++ tail) /\
    parse out = Ok {| raw := out; kind := message_type self; transaction_id := id; attributes := located 20 (attrs ++ tail) |}.
Proof.
  intros H. apply (build_Ok ty id Hid self out eq_refl eq_refl) in H as (l & Hsign & Hsizes & Hlen & Hout).
  destruct (signed_shape l Hsign) as (tail & Hst & Htail & Hcheck). exists l, tail. rewrite Hst in *.
  split_and!; try done. assert (Hall : Forall (fun a => bytes_ok a.2) (attrs ++ tail)).
  { apply Forall_app. split; [apply (Forall_impl plain)|apply (Forall_impl trailer)]; try done; by intros a (_ & ? & _). }
  apply stun_parse_Ok.
  { subst out. split; [|rewrite len_app, len_header; mlia]. apply bytes_ok_app. split; [|by apply body_bytes_ok].
    unfold header. repeat (apply bytes_ok_app; split); auto with bytes. }
  split; [done|]. exists (body_bytes (attrs ++ tail)). cbn. split_and!; [apply Htype..|done|done|apply body_aligned|done| |].
  - apply wire_located. apply Forall_app. split.
    + apply Forall_forall. intros a Ha. rewrite Forall_forall in Hsizes, Hplain. split; [by apply Hplain|by apply Hsizes].
    + apply Forall_forall. intros a Ha. rewrite Forall_forall in Htail. split; [by apply Htail|].
      apply list_elem_of_split in Ha as (l1 & l2 & ->). rewrite !body_bytes_app in Hlen. change (a :: l2) with ([a] ++ l2) in Hlen.
      rewrite body_bytes_app, body_bytes_one, !len_app, len_attribute_bytes in Hlen. unfold attribute_size in Hlen.
      pose proof (padding_bound (len a.2)). slia.
  - destruct (Hcheck (20 + len (body_bytes attrs))) as [seen Hseen]. exists seen.
    rewrite located_app, check_all_app, check_plain by done. done.
Qed.
(** The first attribute of its type is found where it was written. *)
Lemma found_at (whole l1 l2 : list (Z * bytes)) a out : whole = l1 ++ a :: l2 -> Forall (fun b => b.1 <> a.1) l1 ->
  attribute {| raw := out; kind := message_type self; transaction_id := id; attributes := located 20 whole |} a.1 =
  Some {| attribute_type := a.1; value := a.2; start := 20 + len (body_bytes l1) |}.
Proof.
  intros -> Hl1. unfold attribute. cbn [attributes]. rewrite located_app. cbn [located].
  rewrite find_skip by (by apply located_types). by apply find_here.
Qed.

Lemma found_nowhere (whole : list (Z * bytes)) t out : Forall (fun b => b.1 <> t) whole ->
  attribute {| raw := out; kind := message_type self; transaction_id := id; attributes := located 20 whole |} t = None.
Proof. intros H. unfold attribute. cbn [attributes]. by apply find_nowhere, located_types. Qed.

Lemma plain_types t : t ∈ [MESSAGE_INTEGRITY; MESSAGE_INTEGRITY_SHA256; FINGERPRINT] -> Forall (fun b => b.1 <> t) attrs.
Proof. intros Ht. eapply Forall_impl; [exact Hplain|]. intros a Ha. by apply plain_type. Qed.

(** The input of the check is what the builder computed the attribute from. *)
Lemma covered_input whole mark t v : whole = attrs ++ (t, v) :: mark -> len (body_bytes whole) <= 65535 -> padding_of (len v) = 0 ->
  integrity_input {| raw := header ty (len (body_bytes whole)) id ++ body_bytes whole; kind := message_type self;
                     transaction_id := id; attributes := located 20 whole |}
    {| attribute_type := t; value := v; start := 20 + len (body_bytes attrs) |} = Ok (covered ty id attrs (len v)).
Proof.
  intros -> Hlen Hpad. change ((t, v) :: mark) with ([(t, v)] ++ mark) in *. rewrite !body_bytes_app, body_bytes_one in *.
  rewrite !len_app, len_attribute_bytes in Hlen. unfold attribute_size in Hlen. cbn [snd] in Hlen. rewrite Hpad in Hlen.
  pose proof (len_nonneg (body_bytes mark)).
  erewrite (integrity_input_spec _ _ ty _ id (body_bytes attrs) (attribute_bytes (t, v) ++ body_bytes mark) Hid); [|done|done|cbn; lia].
  unfold covered, attribute_size. rewrite Hpad. cbn [value]. do 3 f_equal. lia.
Qed.

Definition verifies (m : Message) : Prop :=
  match integrity self with
  | Some (Sha1 key) => verify_message_integrity_sha1 m key = Ok tt
  | Some (Sha256 key) => verify_message_integrity_sha256 m key = Ok tt
  | None => attribute m MESSAGE_INTEGRITY = None /\ attribute m MESSAGE_INTEGRITY_SHA256 = None
  end /\
  if with_fingerprint self then verify_fingerprint m = Ok tt else attribute m FINGERPRINT = None.

Lemma integrity_verifies whole l mark :
  sign ty id attrs (integrity self) = Some l -> whole = l ++ mark -> Forall (fun a => a.1 = FINGERPRINT) mark ->
  len (body_bytes whole) <= 65535 ->
  let m := {| raw := header ty (len (body_bytes whole)) id ++ body_bytes whole; kind := message_type self;
              transaction_id := id; attributes := located 20 whole |} in
  match integrity self with
  | Some (Sha1 key) => verify_message_integrity_sha1 m key = Ok tt
  | Some (Sha256 key) => verify_message_integrity_sha256 m key = Ok tt
  | None => attribute m MESSAGE_INTEGRITY = None /\ attribute m MESSAGE_INTEGRITY_SHA256 = None
  end.
Proof.
  intros Hs Hw Hmark Hlen m. subst m. unfold sign in Hs. destruct (integrity self) as [[key|key]|].
  - destruct (hmac_sha1 key) as [mac|] eqn:Hmac; [|done]. injection Hs as <-. rewrite <- app_assoc in Hw. cbn [app] in Hw.
    destruct (hmac_sha1_output key mac (covered ty id attrs 20) Hmac) as [_ Hl]. unfold verify_message_integrity_sha1.
    rewrite (found_at _ _ _ _ _ Hw) by (apply plain_types; set_solver). cbn [ok_or mbind outcome_bind fst snd].
    rewrite (covered_input whole mark) by (try done; by rewrite Hl). rewrite Hl, Hmac. cbn. by rewrite bool_decide_eq_true_2.
  - destruct (hmac_sha256 key) as [mac|] eqn:Hmac; [|done]. injection Hs as <-. rewrite <- app_assoc in Hw. cbn [app] in Hw.
    destruct (hmac_sha256_output key mac (covered ty id attrs 32) Hmac) as [_ Hl]. unfold verify_message_integrity_sha256.
    rewrite (found_at _ _ _ _ _ Hw) by (apply plain_types; set_solver). cbn [ok_or mbind outcome_bind fst snd].
    rewrite (covered_input whole mark) by (try done; by rewrite Hl). rewrite Hl, Hmac. cbn [ok_or mbind outcome_bind value].
    unfold index_range. rewrite Hl, get_range_all by done. cbn. by rewrite bool_decide_eq_true_2.
  - injection Hs as <-. subst whole. split; apply found_nowhere, Forall_app; split; (apply plain_types; set_solver) ||
      (eapply Forall_impl; [exact Hmark|]; intros a ->; done).
Qed.

Lemma signed_types l : sign ty id attrs (integrity self) = Some l -> Forall (fun a => a.1 <> FINGERPRINT) l.
Proof.
  assert (Forall (fun a => a.1 <> FINGERPRINT) attrs) by (apply plain_types; set_solver).
  unfold sign. destruct (integrity self) as [[key|key]|].
  - destruct (hmac_sha1 key); intros [= <-]. apply Forall_app. split; [done|]. by repeat constructor.
  - destruct (hmac_sha256 key); intros [= <-]. apply Forall_app. split; [done|]. by repeat constructor.
  - by intros [= <-].
Qed.

Lemma fingerprint_verifies l : sign ty id attrs (integrity self) = Some l ->
  let whole := stamp ty id l (with_fingerprint self) in
  let m := {| raw := header ty (len (body_bytes whole)) id ++ body_bytes whole; kind := message_type self;
              transaction_id := id; attributes := located 20 whole |} in
  if with_fingerprint self then verify_fingerprint m = Ok tt else attribute m FINGERPRINT = None.
Proof.
  intros Hs whole m. subst whole m. unfold stamp. pose proof (signed_types l Hs) as Hl. destruct (with_fingerprint self); [|by apply found_nowhere].
  unfold verify_fingerprint. erewrite (found_at _ l [] (FINGERPRINT, _) _ eq_refl Hl). cbn [ok_or mbind outcome_bind fst snd value attribute_type start raw].
  rewrite read_exact_u32_bytes by apply fingerprint_value_u32. cbn [mbind outcome_bind]. unfold get_to.
  rewrite body_bytes_app, body_bytes_one, app_assoc, get_range_exact by (rewrite len_app, len_header; lia). cbn [ok_or mbind outcome_bind].
  rewrite len_app, len_attribute_bytes. cbn [snd]. rewrite len_to_be_bytes. unfold covered. change (Z.of_nat 4) with 4. by rewrite Z.eqb_refl.
Qed.

End Signed.

Lemma built_message_verifies {crypto : StunCrypto} self out :
  type_ok (message_type self) ->
  bytes_ok (builder_transaction_id self) -> len (builder_transaction_id self) = 12 ->
  Forall plain (builder_attributes self) ->
  build self = Ok out ->
  exists m tail, parse out = Ok m /\ kind m = message_type self /\ transaction_id m = builder_transaction_id self /\
    contents <$> attributes m = builder_attributes self ++ tail /\ Forall trailer tail /\ verifies self m.
Proof.
  intros Ht Hidb Hid Hp Hb. destruct (build_parses self Ht Hid Hidb Hp out Hb) as (l & tail & Hs & Hst & Htail & Hlen & Hout & Hparse).
  eexists _, tail. split; [exact Hparse|]. cbn. rewrite contents_located. split_and!; [done..|].
  destruct (stamp_prefix (MessageType.encode (message_type self)) (builder_transaction_id self) l (with_fingerprint self)) as [mark Hmark].
  rewrite <- Hst in *. subst out. split; [|by apply fingerprint_verifies].
  apply (integrity_verifies self Ht Hid Hidb Hp _ l mark Hs Hmark); [|done].
  unfold stamp in Hmark. destruct (with_fingerprint self).
  - apply app_inv_head in Hmark. subst mark. by repeat constructor.
  - rewrite <- (app_nil_r l) in Hmark at 1. apply app_inv_head in Hmark. subst mark. constructor.
Qed.

(** a message that [MessageBuilder::build] produced is accepted by [Message::parse]; the
    parsed message has the type, the transaction identifier and the attributes the builder was given,
    in order, followed only by integrity and fingerprint attributes; it verifies under the key it was
    signed with, and its fingerprint verifies. *)
Theorem stun_build_parse {crypto : StunCrypto} self out :
  type_ok (message_type self) ->
  bytes_ok (builder_transaction_id self) -> len (builder_transaction_id self) = 12 ->
  Forall plain (builder_attributes self) ->
  build self = Ok out ->
  exists m tail, parse out = Ok m /\ kind m = message_type self /\ transaction_id m = builder_transaction_id self /\
    contents <$> attributes m = builder_attributes self ++ tail /\ Forall trailer tail /\ verifies self m.
Proof. apply built_message_verifies. Qed.

(** ** What an accepted message looks like, and what its integrity attribute covers *)
Lemma wire_app s l1 l2 b : wire s (l1 ++ l2) b ->
  exists b1 b2, b = b1 ++ b2 /\ wire s l1 b1 /\ wire (s + len b1) l2 b2.
Proof.
  revert s b. induction l1 as [|a l1 IH]; intros s b Hw.
  - exists [], b. rewrite Z.add_0_r. split_and!; [done|constructor|done].
  - cbn in Hw. inversion Hw as [|? t v p attrs b' Ht Hv Hp Hw']; subst. apply IH in Hw' as (b1 & b2 & -> & H1 & H2).
    exists (to_be_bytes 2 t ++ to_be_bytes 2 (len v) ++ v ++ p ++ b1), b2. split_and!; [by rewrite <- !app_assoc|by constructor|].
    replace (s + _) with (s + 4 + len v + len p + len b1); [done|]. slia.
Qed.

Lemma check_attribute_order seen seen' t v : check_attribute seen t v = Ok seen' ->
  (seen_sha1 seen || seen_sha256 seen = true -> t ∈ [MESSAGE_INTEGRITY_SHA256; FINGERPRINT]) /\
  (seen_sha1 seen || seen_sha256 seen = true \/ t ∈ [MESSAGE_INTEGRITY; MESSAGE_INTEGRITY_SHA256] ->
     seen_sha1 seen' || seen_sha256 seen' = true) /\
  seen_fingerprint seen = false /\ (t = FINGERPRINT -> seen_fingerprint seen' = true).
Proof.
  unfold check_attribute. intros H. apply bind_Ok in H as ([] & Hf%reject_if_Ok & H). apply bind_Ok in H as ([] & Ho%reject_if_Ok & H).
  assert (seen_sha1 seen || seen_sha256 seen = true -> t ∈ [MESSAGE_INTEGRITY_SHA256; FINGERPRINT]) as Hord.
  { intros Hs. rewrite Hs in Ho. cbn in Ho. apply negb_false_iff, orb_true_iff in Ho. set_unfold. lia. }
  split; [done|].
  destruct (Z.eqb_spec t MESSAGE_INTEGRITY) as [->|N1]; [inv_ok H; subst seen'; cbn; by split_and!|].
  destruct (Z.eqb_spec t MESSAGE_INTEGRITY_SHA256) as [->|N2]; [inv_ok H; subst seen'; cbn; rewrite orb_true_r; by split_and!|].
  destruct (Z.eqb_spec t FINGERPRINT) as [->|N3].
  { inv_ok H. subst seen'. cbn. split_and!; try done. intros [?|Hin]; [done|]. set_unfold. by destruct Hin as [|[|[]]]. }
  assert (seen' = seen) as -> by (repeat case_match; inv_ok H; by subst).
  split_and!; [|done..]. intros [?|Hin]; [done|]. set_unfold. by destruct Hin as [|[|[]]].
Qed.

Lemma check_all_order seen seen' attrs : check_all seen attrs = Ok seen' -> seen_sha1 seen || seen_sha256 seen = true ->
  Forall (fun a => attribute_type a ∈ [MESSAGE_INTEGRITY_SHA256; FINGERPRINT]) attrs.
Proof.
  revert seen. induction attrs as [|a attrs IH]; intros seen H Hs; [constructor|]. cbn in H. inv_ok H.
  destruct (check_attribute_order _ _ _ _ Hstep) as (H1 & H2 & _). constructor; [by apply H1|]. eapply IH; [done|]. apply H2. by left.
Qed.

Lemma check_mac_value seen seen' t v : check_attribute seen t v = Ok seen' ->
  (t = MESSAGE_INTEGRITY -> len v = 20) /\ (t = MESSAGE_INTEGRITY_SHA256 -> 16 <= len v <= 32).
Proof.
  unfold check_attribute. intros H. apply bind_Ok in H as ([] & _ & H). apply bind_Ok in H as ([] & _ & H).
  split; intros ->; cbn in H; inv_ok H.
  - unfold require_len in Hstep0. case_match; [lia|done].
  - lia.
Qed.

(** An integrity attribute of an accepted message, with what comes before and after it. *)
Lemma integrity_position input m t a : rust_slice input -> parse input = Ok m -> attribute m t = Some a ->
  t ∈ [MESSAGE_INTEGRITY; MESSAGE_INTEGRITY_SHA256] ->
  exists before after body n rest,
    attributes m = before ++ a :: after /\ attribute_type a = t /\
    Forall (fun x => attribute_type x ∈ [MESSAGE_INTEGRITY_SHA256; FINGERPRINT]) after /\
    wire 20 before body /\
    input = header (MessageType.encode (kind m)) n (transaction_id m) ++ body ++ rest /\
    integrity_input m a = Ok (header (MessageType.encode (kind m)) (len body + 4 + len (value a)) (transaction_id m) ++ body) /\
    (t = MESSAGE_INTEGRITY -> len (value a) = 20) /\ (t = MESSAGE_INTEGRITY_SHA256 -> 16 <= len (value a) <= 32).
Proof.
  intros Hin Hparse Hfound Ht. apply stun_parse_Ok in Hparse as (Hraw & body & _ & Hid & Hlen & _ & Hwire & Hw & seen & Hc); [|done].
  apply find_split in Hfound as (Hat & before & after & Hattrs & _). rewrite Hattrs in *.
  apply wire_app in Hw as (b1 & b2 & -> & Hw1 & Hw2). inversion Hw2 as [|? t' v p attrs b' Ht' Hv Hp Hw' Ea Eb]; subst a b2.
  rewrite check_all_app in Hc. inv_ok Hc. cbn [check_all] in Hc. inv_ok Hc. cbn [attribute_type value] in *. subst t'.
  destruct (check_attribute_order _ _ _ _ Hstep0) as (_ & Hseen & _).
  exists before, after, b1, (len (b1 ++ to_be_bytes 2 t ++ to_be_bytes 2 (len v) ++ v ++ p ++ b')), (to_be_bytes 2 t ++ to_be_bytes 2 (len v) ++ v ++ p ++ b').
  split_and!; try done.
  - eapply check_all_order; [done|]. apply Hseen. by right.
  - by rewrite <- Hraw.
  - eapply integrity_input_spec; [done|exact Hwire|done|]. cbn. revert Hlen. slia.
  - eapply check_mac_value; done.
  - intros E. eapply check_mac_value; done.
Qed.

(** [Message::parse] comes back on every datagram without a panic, and accepts it exactly
    when it is a header with the magic cookie and its own length, followed by attributes that fill the
    body, each padded to four octets, of the shapes of their types, with nothing but
    MESSAGE-INTEGRITY-SHA256 and FINGERPRINT after an integrity attribute and nothing after a
    fingerprint; the message it returns has these parts. *)
Theorem stun_parse_exact input : rust_slice input ->
  returns (parse input) /\ (forall m, parse input = Ok m <-> raw m = input /\ is_message m).
Proof. intros Hin. split; [by apply returns_stun_parse|]. intros m. by apply stun_parse_Ok. Qed.

(** when the integrity of an accepted message verifies, the key's MAC of the message up
    to the integrity attribute (with the length field set to end after it) is in the attribute, untruncated
    for SHA-1 and at least 16 octets for SHA-256; every attribute outside that prefix is a
    MESSAGE-INTEGRITY-SHA256 or FINGERPRINT attribute, so that nothing the caller reads is unprotected. *)
Theorem stun_integrity_covers {crypto : StunCrypto} input m key :
  rust_slice input -> parse input = Ok m ->
  verify_message_integrity_sha1 m key = Ok tt \/ verify_message_integrity_sha256 m key = Ok tt ->
  exists before a after body n rest mac,
    attributes m = before ++ a :: after /\
    Forall (fun x => attribute_type x ∈ [MESSAGE_INTEGRITY_SHA256; FINGERPRINT]) after /\
    wire 20 before body /\
    input = header (MessageType.encode (kind m)) n (transaction_id m) ++ body ++ rest /\
    (attribute_type a = MESSAGE_INTEGRITY /\ hmac_sha1 key = Some mac /\ len (value a) = 20 \/
     attribute_type a = MESSAGE_INTEGRITY_SHA256 /\ hmac_sha256 key = Some mac /\ 16 <= len (value a)) /\
    value a = take (length (value a))
      (mac (header (MessageType.encode (kind m)) (len body + 4 + len (value a)) (transaction_id m) ++ body)).
Proof.
  intros Hin Hparse [Hv|Hv].
  - unfold verify_message_integrity_sha1 in Hv. apply bind_Ok in Hv as (a & Ha%ok_or_Ok & Hv).
    destruct (integrity_position input m _ a Hin Hparse Ha ltac:(set_solver)) as (before & after & body & n & rest & H1 & H2 & H3 & H4 & H5 & H6 & H7 & _).
    rewrite H6 in Hv. cbn [mbind outcome_bind] in Hv. apply bind_Ok in Hv as (mac & Hm%ok_or_Ok & Hv).
    apply reject_if_Ok, negb_false_iff, bool_decide_eq_true in Hv. exists before, a, after, body, n, rest, mac.
    split_and!; try done; [left; auto|]. rewrite Hv. by rewrite firstn_all.
  - unfold verify_message_integrity_sha256 in Hv. apply bind_Ok in Hv as (a & Ha%ok_or_Ok & Hv).
    destruct (integrity_position input m _ a Hin Hparse Ha ltac:(set_solver)) as (before & after & body & n & rest & H1 & H2 & H3 & H4 & H5 & H6 & _ & H7).
    rewrite H6 in Hv. cbn [mbind outcome_bind] in Hv. apply bind_Ok in Hv as (mac & Hm%ok_or_Ok & Hv).
    apply bind_Ok in Hv as (out & Hout & Hv). apply reject_if_Ok, negb_false_iff, bool_decide_eq_true in Hv.
    exists before, a, after, body, n, rest, mac. split_and!; try done; [right; by split_and!; [..|apply H7]|].
    subst out. unfold index_range, get_range, or_panic in Hout. case_match eqn:E; [|done]. case_match; [|done]. simplify_eq.
    rewrite <- Hout at 1. rewrite drop_0. f_equal. unfold len. lia.
Qed.

(** ** Typed attributes *)
Lemma xor_port_twice p : xor_port (xor_port p) = p.
Proof. apply lxor_twice. Qed.

Lemma xor_port_fits p : u16 p -> u16 (xor_port p).
Proof. intros Hp. apply fits_lxor; [lia|done|by vm_compute]. Qed.

Lemma encoded_ip_len a id : addr_ok a -> len id = 12 ->
  len (encode_xor_address a id) = match ip a with V4 _ => 8 | V6 _ => 20 end.
Proof.
  intros [Hip _] Hid. unfold encode_xor_address. destruct (ip a) as [x|o]; [slia|]. destruct Hip as [_ Hl].
  rewrite !len_app, len_to_be_bytes, len_xor_bytes, Hl; [done|]. unfold xor_mask. rewrite length_app, length_to_be_bytes. unfold len in *. lia.
Qed.

Lemma encode_xor_address_ok a id : addr_ok a -> bytes_ok id -> bytes_ok (encode_xor_address a id).
Proof.
  intros [Hip _] Hid. unfold encode_xor_address. destruct (ip a) as [x|o].
  all: repeat (apply bytes_ok_app; split); auto with bytes; try (repeat constructor; mlia).
  apply xor_bytes_ok; [apply Hip|]. apply bytes_ok_app. auto with bytes.
Qed.

(** An address comes back from its encoding (without flow label and scope, which are not encoded). *)
Lemma xor_address_roundtrip a id : addr_ok a -> len id = 12 ->
  decode_xor_address (encode_xor_address a id) id = Ok (socket_new (ip a) (port a)).
Proof.
  intros Ha Hid. pose proof (encoded_ip_len a id Ha Hid) as Hlen. destruct Ha as [Hip Hp].
  unfold decode_xor_address, read_xor_address. pose proof (at_new (encode_xor_address a id)) as Hat.
  generalize dependent (ReadCursor.new (encode_xor_address a id)). intros c Hat.
  assert (exists f payload, encode_xor_address a id = [0; f] ++ to_be_bytes 2 (xor_port (port a)) ++ payload /\
    match ip a with V4 x => f = 1 /\ payload = to_be_bytes 4 (Z.lxor x MAGIC_COOKIE)
    | V6 o => f = 2 /\ payload = xor_bytes o (xor_mask id) end) as (f & payload & Henc & Hf).
  { unfold encode_xor_address. destruct (ip a); by eexists _, _. }
  rewrite Henc in Hat at 2. cbn [app] in Hat.
  destruct (read_u8_cases _ _ _ Hat) as [(? & _)|(x0 & s1 & c1 & [= <- <-] & H1 & Hat1)]; [exfalso; slia|].
  rewrite (prog_step _ _ c c1 0) by (by apply with_err_Ok).
  destruct (read_u8_cases _ _ _ Hat1) as [(? & _)|(x1 & s2 & c2 & [= <- <-] & H2 & Hat2)]; [exfalso; slia|].
  rewrite (prog_step _ _ c1 c2 f) by (by apply with_err_Ok).
  destruct (read_array_at _ 2 _ _ _ Hat2 (xor_port_fits _ Hp)) as (c3 & H3 & Hat3).
  rewrite (prog_step _ _ c2 c3 (xor_port (port a))) by (by apply with_err_Ok). rewrite xor_port_twice.
  unfold require_len. rewrite Hlen. destruct (ip a) as [x|o] eqn:Eip; destruct Hf as [-> ->]; cbn [Z.eqb Pos.eqb].
  - rewrite (prog_step _ _ c3 c3 tt) by done. rewrite <- (app_nil_r (to_be_bytes 4 _)) in Hat3.
    destruct (read_array_at _ 4 _ _ _ Hat3) as (c4 & H4 & _); [apply fits_lxor; [lia|done|by vm_compute]|].
    rewrite (prog_step _ _ c3 c4 (Z.lxor x MAGIC_COOKIE)) by (by apply with_err_Ok). cbn. by rewrite lxor_twice.
  - rewrite (prog_step _ _ c3 c3 tt) by done. destruct Hip as [_ Hol].
    assert (length o = length (xor_mask id)) as Hm by (unfold xor_mask; rewrite length_app, length_to_be_bytes; unfold len in *; lia).
    rewrite <- (app_nil_r (xor_bytes _ _)) in Hat3. destruct (take_at _ _ _ _ Hat3) as (c4 & H4 & _).
    rewrite len_xor_bytes, Hol in H4 by done.
    rewrite (prog_step _ _ c3 c4 (xor_bytes o (xor_mask id))) by (by apply with_err_Ok). cbn. by rewrite xor_bytes_twice.
Qed.

Lemma u16_chunks_bytes l : Forall u16 l -> u16_chunks (l ≫= to_be_bytes 2) = l /\ len (l ≫= to_be_bytes 2) mod 2 = 0.
Proof.
  induction 1 as [|x l Hx Hl [IH1 IH2]]; [done|]. change ((x :: l) ≫= to_be_bytes 2) with (to_be_bytes 2 x ++ (l ≫= to_be_bytes 2)).
  split; [|rewrite len_app, len_to_be_bytes; revert IH2; zdiv].
  pose proof (from_to_be_bytes 2 x Hx) as Hrt. destruct (to_be_bytes 2 x) as [|a [|b [|? ?]]] eqn:E;
    try (pose proof (length_to_be_bytes 2 x) as Hl2; rewrite E in Hl2; discriminate).
  cbn [app u16_chunks]. by rewrite Hrt, IH1.
Qed.

Lemma error_code_value m a class number reason_ :
  attribute m ERROR_CODE = Some a -> value a = [0; 0; class; number] ++ reason_ ->
  3 <= class <= 6 -> 0 <= number <= 99 -> from_utf8 reason_ = true ->
  error_code m = Ok (Some {| code := class * 100 + number; reason := reason_ |}).
Proof.
  intros Ha Hv Hc Hn Hu. unfold error_code. rewrite Ha. cbv zeta. rewrite Hv.
  assert (Z.land class 7 = class) as Hland by (change 7 with (Z.ones 3); rewrite Z.land_ones by lia; apply Z.mod_small; change (2 ^ 3) with 8; lia).
  replace (len ([0; 0; class; number] ++ reason_) <? 4) with false by slia. cbn [reject_if mbind outcome_bind].
  assert (get_to ([0; 0; class; number] ++ reason_) 2 = Some [0; 0]) as -> by (apply (get_range_exact [0; 0] (class :: number :: reason_)); done).
  cbn [app ok_or mbind outcome_bind]. rewrite bool_decide_eq_true_2 by done. cbn [negb reject_if mbind outcome_bind].
  change (index (0 :: 0 :: class :: number :: reason_) 2) with (Ok (E:=StunError) class).
  change (index (0 :: 0 :: class :: number :: reason_) 3) with (Ok (E:=StunError) number). cbn [mbind outcome_bind]. rewrite Hland.
  replace (_ && _) with true by lia. replace (99 <? number) with false by lia. cbn [negb orb reject_if mbind outcome_bind].
  assert (get_from (0 :: 0 :: class :: number :: reason_) 4 = Some reason_) as -> by (apply (get_from_app [0; 0; class; number] reason_); done).
  cbn [ok_or mbind outcome_bind]. by rewrite Hu.
Qed.

(** ** A concrete check: CRC-32 as specified, a checksum in place of the two MACs *)
Definition checksum_mac (n : nat) (key message : bytes) : bytes :=
  to_be_bytes n (foldl (fun h b => (h * 257 + b + 1) mod 2 ^ 64) 7 (key ++ message)).
Definition crc32_bit (c : Z) : Z := Z.lxor (Z.shiftr c 1) (if Z.odd c then 0xedb88320 else 0).
Definition crc32_ieee (message : bytes) : Z :=
  Z.lxor 0xffffffff (foldl (fun c b => Nat.iter 8 crc32_bit (Z.lxor c b)) 0xffffffff message) mod 2 ^ 32.

Definition example_stun_crypto : StunCrypto.
Proof.
  refine {| hmac_sha1 := fun key => Some (checksum_mac 20 key); hmac_sha256 := fun key => Some (checksum_mac 32 key);
            crc32 := crc32_ieee |}.
  - intros key mac message [= <-]. unfold checksum_mac. rewrite len_to_be_bytes. auto using to_be_bytes_ok.
  - intros key mac message [= <-]. unfold checksum_mac. rewrite len_to_be_bytes. auto using to_be_bytes_ok.
  - by eexists.
  - by eexists.
  - intros message. apply Z.mod_pos_bound. by vm_compute.
Defined.

Definition example_check : MessageBuilder :=
  Builder.fingerprint (Builder.message_integrity_sha256 [1; 2; 3]
    (Builder.priority 7 (Builder.username [97; 58; 98]
      (Builder.new (MessageType.new Method.BINDING Request) [1; 2; 3; 4; 5; 6; 7; 8; 9; 10; 11; 12])))).

Definition example_octets : bytes :=
  Eval vm_compute in match build (crypto:=example_stun_crypto) example_check with Ok b => b | _ => [] end.

Lemma example_octets_built : build (crypto:=example_stun_crypto) example_check = Ok example_octets.
Proof. vm_compute. reflexivity. Qed.

Lemma example_plain : Forall plain (builder_attributes example_check).
Proof. repeat constructor; try (vm_compute; done); eval_facts. Qed.

Lemma stun_build_parse_witness : exists m, build (crypto:=example_stun_crypto) example_check = Ok example_octets /\
  parse example_octets = Ok m /\ verifies (crypto:=example_stun_crypto) example_check m.
Proof.
  destruct (stun_build_parse (crypto:=example_stun_crypto) example_check example_octets) as (m & tail & Hp & _ & _ & _ & _ & Hv).
  - split; vm_compute; done.
  - repeat constructor; mlia.
  - vm_compute. reflexivity.
  - exact example_plain.
  - exact example_octets_built.
  - exists m. split; [exact example_octets_built|]. split; [exact Hp|exact Hv].
Defined.

Lemma example_octets_slice : rust_slice example_octets.
Proof. apply rust_slice_check. vm_compute. reflexivity. Qed.

Lemma stun_parse_exact_witness : returns (parse example_octets).
Proof. exact (proj1 (stun_parse_exact example_octets example_octets_slice)). Defined.

Definition example_message : Message :=
  Eval vm_compute in match parse example_octets with Ok m => m | _ => {| raw := []; kind := MessageType.new 0 Request; transaction_id := []; attributes := [] |} end.

Lemma stun_integrity_covers_witness : exists before a after, attributes example_message = before ++ a :: after /\
  attribute_type a ∈ [MESSAGE_INTEGRITY; MESSAGE_INTEGRITY_SHA256].
Proof.
  destruct (stun_integrity_covers (crypto:=example_stun_crypto) example_octets example_message [1; 2; 3] example_octets_slice)
    as (before & a & after & body & n & rest & mac & H1 & _ & _ & _ & H2 & _).
  - vm_compute. reflexivity.
  - right. vm_compute. reflexivity.
  - exists before, a, after. split; [exact H1|]. destruct H2 as [(-> & _)|(-> & _)]; [left|right; left].
Defined.
