(* ===== verification/IceLite.v ===== *)
(** * webrtc/ice-lite: the ICE-lite agent (src/config.rs, src/agent.rs)

    Credentials and configuration, the connectivity checks and the consent timers.  Strings are their
    octets, times are durations in nanoseconds. *)
From S2P Require Import Prelude Words Slices RustStd BytesCodec Stun.
Import AttributeType.

Definition MIN_PASSWORD_BYTES : Z := 22.
Definition MAX_CREDENTIAL_BYTES : Z := 256.

Record Credentials := { username_fragment : bytes; password : bytes }.
Inductive CredentialError :=
| InvalidUsernameFragmentLength (n : Z)
| UsernameFragmentContainsColon
| InvalidPasswordLength (n : Z).

Module CredentialsNew.
Definition new (username_fragment password : bytes) : outcome CredentialError Credentials :=
  _ ← reject_if ((len username_fragment =? 0) || (MAX_CREDENTIAL_BYTES <? len username_fragment))
        (InvalidUsernameFragmentLength (len username_fragment));
  _ ← reject_if (bool_decide (0x3a ∈ username_fragment)) UsernameFragmentContainsColon;
  _ ← reject_if (negb ((MIN_PASSWORD_BYTES <=? len password) && (len password <=? MAX_CREDENTIAL_BYTES)))
        (InvalidPasswordLength (len password));
  Ok {| username_fragment := username_fragment; password := password |}.
End CredentialsNew.

Record Configuration := {
  local_credentials : Credentials;
  remote_credentials : Credentials;
  tie_breaker : Z;
  consent_timeout : Z;
  failure_timeout : Z;
  max_candidate_pairs : Z }.

Module ConfigurationNew.
Definition new (local_credentials remote_credentials : Credentials) (tie_breaker : Z) : Configuration :=
  {| local_credentials := local_credentials; remote_credentials := remote_credentials;
     tie_breaker := tie_breaker; consent_timeout := from_secs 30; failure_timeout := from_secs 60;
     max_candidate_pairs := 64 |}.
End ConfigurationNew.

Inductive IceState := New | Connected | Completed | Disconnected | Failed.
#[export] Instance IceState_eq_dec : EqDecision IceState.
Proof. solve_decision. Defined.

Inductive IntegrityAlgorithm := AlgSha1 | AlgSha256.

Record CandidatePair := {
  local : SocketAddr;
  remote : SocketAddr;
  pair_priority : Z;
  nominated : bool;
  pair_authenticated : Z }.
#[export] Instance CandidatePair_eq_dec : EqDecision CandidatePair.
Proof. solve_decision. Defined.

Inductive Event :=
| StateChanged (from to : IceState)
| SelectedPair (pair : CandidatePair).

Record Transmit := { source : SocketAddr; destination : SocketAddr; payload : bytes }.
Record HandleOutput := { transmit : Transmit; events : list Event }.

Inductive IceError :=
| Stun (error : StunError)
| NotBindingRequest
| InvalidUsername
| MissingPriority
| CandidatePairLimit
| RestartRequired.

Record Agent := {
  configuration : Configuration;
  state : IceState;
  pairs : list CandidatePair;
  selected_pair : option CandidatePair;
  last_authenticated : option Z }.

Definition set_state (s : IceState) (a : Agent) : Agent :=
  {| configuration := configuration a; state := s; pairs := pairs a; selected_pair := selected_pair a;
     last_authenticated := last_authenticated a |}.
Definition set_pairs (l : list CandidatePair) (a : Agent) : Agent :=
  {| configuration := configuration a; state := state a; pairs := l; selected_pair := selected_pair a;
     last_authenticated := last_authenticated a |}.
Definition set_selected_pair (p : option CandidatePair) (a : Agent) : Agent :=
  {| configuration := configuration a; state := state a; pairs := pairs a; selected_pair := p;
     last_authenticated := last_authenticated a |}.
Definition set_last_authenticated (t : option Z) (a : Agent) : Agent :=
  {| configuration := configuration a; state := state a; pairs := pairs a; selected_pair := selected_pair a;
     last_authenticated := t |}.

Definition new (configuration : Configuration) : Agent :=
  {| configuration := configuration; state := New; pairs := []; selected_pair := None; last_authenticated := None |}.

(** [Option::into_iter().collect()] *)
Definition collect_event (e : option Event) : list Event := match e with Some e => [e] | None => [] end.

Definition transition (target : IceState) (a : Agent) : Agent * option Event :=
  if bool_decide (state a = target) then (a, None)
  else (set_state target a, Some (StateChanged (state a) target)).

Definition transition_after_check (nominated : bool) (a : Agent) : Agent * list Event :=
  let target := if nominated || bool_decide (is_Some (selected_pair a)) then Completed else Connected in
  let '(a, e) := transition target a in (a, collect_event e).

Definition tick (now : Z) (a : Agent) : Agent * list Event :=
  match last_authenticated a with
  | None => (a, [])
  | Some last_authenticated =>
      let elapsed := saturating_sub now last_authenticated in
      if failure_timeout (configuration a) <=? elapsed then
        let '(a, e) := transition Failed a in (a, collect_event e)
      else if consent_timeout (configuration a) <=? elapsed then
        let '(a, e) := transition Disconnected a in (a, collect_event e)
      else (a, [])
  end.

Definition restart (configuration : Configuration) (a : Agent) : Agent := new configuration.

Definition record_valid_pair (now : Z) (local_ remote_ : SocketAddr) (priority : Z) (nominated_ : bool)
    : prog Agent IceError (list Event) :=
  _ ← modify (set_last_authenticated (Some now));
  pairs_ ← gets pairs;
  pair ← match list_find (fun pair => local pair = local_ /\ remote pair = remote_) pairs_ with
         | Some (i, found) =>
             let pair := {| local := local found; remote := remote found; pair_priority := priority;
                            nominated := nominated found || nominated_; pair_authenticated := now |} in
             _ ← modify (set_pairs (<[i := pair]> pairs_));
             mret pair
         | None =>
             limit ← gets (fun a => max_candidate_pairs (configuration a));
             if limit <=? len pairs_ then fail CandidatePairLimit
             else
               let pair := {| local := local_; remote := remote_; pair_priority := priority;
                              nominated := nominated_; pair_authenticated := now |} in
               _ ← modify (set_pairs (pairs_ ++ [pair]));
               mret pair
         end;
  selected ← gets selected_pair;
  if nominated_ && bool_decide (selected <> Some pair) then
    _ ← modify (set_selected_pair (Some pair));
    mret [SelectedPair pair]
  else mret [].

Definition validate_message_type (message : Message) : outcome IceError unit :=
  if bool_decide (MessageType.method (kind message) = Method.BINDING) &&
     bool_decide (MessageType.class (kind message) = Request)
  then Ok tt else Err NotBindingRequest.

Definition add_integrity (builder : MessageBuilder) (algorithm : IntegrityAlgorithm) (password : bytes) : MessageBuilder :=
  match algorithm with
  | AlgSha1 => Builder.message_integrity_sha1 password builder
  | AlgSha256 => Builder.message_integrity_sha256 password builder
  end.

(** [format!("{}:{}", local, remote)] *)
Definition expected_username (c : Configuration) : bytes :=
  username_fragment (local_credentials c) ++ [0x3a] ++ username_fragment (remote_credentials c).

(** The reason phrases, in octets. *)
Definition UNKNOWN_ATTRIBUTE_REASON : bytes :=
  [0x55; 0x6e; 0x6b; 0x6e; 0x6f; 0x77; 0x6e; 0x20; 0x41; 0x74; 0x74; 0x72; 0x69; 0x62; 0x75; 0x74; 0x65].
Definition ROLE_CONFLICT_REASON : bytes :=
  [0x52; 0x6f; 0x6c; 0x65; 0x20; 0x43; 0x6f; 0x6e; 0x66; 0x6c; 0x69; 0x63; 0x74].
Definition BAD_REQUEST_REASON : bytes := [0x42; 0x61; 0x64; 0x20; 0x52; 0x65; 0x71; 0x75; 0x65; 0x73; 0x74].

Definition error_builder (transaction_id : bytes) (code : Z) (reason : bytes) : outcome IceError MessageBuilder :=
  map_err Stun (Builder.error_code code reason
    (Builder.new (MessageType.new Method.BINDING ErrorResponse) transaction_id)).

Section Agent.
Context {crypto : StunCrypto}.

Definition authenticate (self : Agent) (message : Message) : outcome IceError IntegrityAlgorithm :=
  let key := password (local_credentials (configuration self)) in
  username ← map_err Stun (username message);
  _ ← reject_if (negb (bool_decide (username = Some (expected_username (configuration self))))) InvalidUsername;
  algorithm ←
    (if bool_decide (is_Some (attribute message MESSAGE_INTEGRITY_SHA256)) then
       _ ← map_err Stun (verify_message_integrity_sha256 message key); Ok AlgSha256
     else
       _ ← map_err Stun (verify_message_integrity_sha1 message key); Ok AlgSha1);
  _ ← (if bool_decide (is_Some (attribute message FINGERPRINT))
       then map_err Stun (verify_fingerprint message) else Ok tt);
  Ok algorithm.

Definition error_output (self : Agent) (builder : MessageBuilder) (algorithm : IntegrityAlgorithm)
    (local remote : SocketAddr) : outcome IceError HandleOutput :=
  payload ← map_err Stun (build (Builder.fingerprint
    (add_integrity builder algorithm (password (local_credentials (configuration self))))));
  Ok {| transmit := {| source := local; destination := remote; payload := payload |}; events := [] |}.

Definition semantic_error_response (self : Agent) (message : Message) (algorithm : IntegrityAlgorithm)
    (local remote : SocketAddr) : outcome IceError (option HandleOutput) :=
  let unknown := unknown_required_attributes message in
  if negb (bool_decide (unknown = [])) then
    builder ← error_builder (transaction_id message) 420 UNKNOWN_ATTRIBUTE_REASON;
    Some <$> error_output self (Builder.unknown_attributes unknown builder) algorithm local remote
  else
    controlling ← map_err Stun (ice_controlling message);
    controlled ← map_err Stun (ice_controlled message);
    if bool_decide (is_Some controlled) || negb (bool_decide (is_Some controlling)) then
      builder ← error_builder (transaction_id message) 487 ROLE_CONFLICT_REASON;
      Some <$> error_output self (Builder.ice_controlled (tie_breaker (configuration self)) builder) algorithm local remote
    else
      priority ← map_err Stun (priority message);
      if bool_decide (priority = None) then
        builder ← error_builder (transaction_id message) 400 BAD_REQUEST_REASON;
        Some <$> error_output self builder algorithm local remote
      else Ok None.

Definition success_response (self : Agent) (message : Message) (remote : SocketAddr) (algorithm : IntegrityAlgorithm)
    : outcome IceError bytes :=
  let builder := Builder.xor_mapped_address remote
    (Builder.new (MessageType.new Method.BINDING SuccessResponse) (transaction_id message)) in
  map_err Stun (build (Builder.fingerprint
    (add_integrity builder algorithm (password (local_credentials (configuration self)))))).

(** The part of [handle_datagram] after the check for semantic errors. *)
Definition accept_check (now : Z) (local remote : SocketAddr) (message : Message) (algorithm : IntegrityAlgorithm)
    : prog Agent IceError HandleOutput :=
  priority ← lift (map_err Stun (priority message));
  priority ← lift (ok_or priority MissingPriority);
  let nominated := use_candidate message in
  events_ ← record_valid_pair now local remote priority nominated;
  self ← gets id;
  payload ← lift (success_response self message remote algorithm);
  let '(self, more) := transition_after_check nominated self in
  _ ← modify (fun _ => self);
  mret {| transmit := {| source := local; destination := remote; payload := payload |};
          events := events_ ++ more |}.

Definition handle_datagram (now : Z) (local remote : SocketAddr) (input : bytes) : prog Agent IceError HandleOutput :=
  self ← gets id;
  _ ← lift (reject_if (bool_decide (state self = Failed)) RestartRequired);
  message ← lift (map_err Stun (parse input));
  _ ← lift (validate_message_type message);
  algorithm ← lift (authenticate self message);
  output ← lift (semantic_error_response self message algorithm local remote);
  match output with
  | Some output => mret output
  | None => accept_check now local remote message algorithm
  end.
End Agent.
