(* ===== verification/IceResponse.v ===== *)
(** * webrtc/ice-lite: what an agent answers

    Every authenticated Binding request is answered with a signed response that the peer can parse
    and verify, and that says what the agent decided. *)
From S2P Require Import Prelude Words Slices RustStd BytesCodec Stun StunCodec StunBuild StunSafety IceLite.
Import AttributeType.

(** ** Attributes of a message by their contents *)
Lemma attribute_contents m t : value <$> attribute m t = snd ∘ snd <$> list_find (fun a => a.1 = t) (contents <$> attributes m).
Proof.
  unfold attribute. induction (attributes m) as [|a l IH]; [done|]. cbn.
  destruct (decide (attribute_type a = t)); [done|].
  destruct (list_find (fun a => attribute_type a = t) l) as [[i x]|], (list_find (fun a => a.1 = t) (contents <$> l)) as [[j y]|]; cbn in *; done.
Qed.

Lemma attribute_first m l1 t v l2 : contents <$> attributes m = l1 ++ (t, v) :: l2 -> Forall (fun a => a.1 <> t) l1 ->
  exists a, attribute m t = Some a /\ value a = v.
Proof.
  intros Hm Hl1. pose proof (attribute_contents m t) as H. rewrite Hm in H.
  assert (snd ∘ snd <$> list_find (fun a => a.1 = t) (l1 ++ (t, v) :: l2) = Some v) as E.
  { clear H Hm. induction Hl1 as [|b l1 Hb Hl1 IH]; cbn; [by rewrite decide_True|]. rewrite decide_False by done.
    destruct (list_find _ _) as [[i x]|]; done. }
  rewrite E in H. destruct (attribute m t) as [a|]; [|done]. injection H as H. by exists a.
Qed.

(** ** Signed responses *)
Section Respond.
Context {crypto : StunCrypto}.

Definition verified_by (algorithm : IntegrityAlgorithm) (m : Message) (key : bytes) : Prop :=
  match algorithm with
  | AlgSha1 => verify_message_integrity_sha1 m key = Ok tt
  | AlgSha256 => verify_message_integrity_sha256 m key = Ok tt
  end.

(** [payload] is a message of class [class] about [id], with [attrs] in front, signed and fingerprinted. *)
Definition response (payload : bytes) (class : MessageClass) (id : bytes) (attrs : list (Z * bytes))
    (algorithm : IntegrityAlgorithm) (key : bytes) (m : Message) : Prop :=
  parse payload = Ok m /\ kind m = MessageType.new Method.BINDING class /\ transaction_id m = id /\
  (exists tail, contents <$> attributes m = attrs ++ tail) /\
  verified_by algorithm m key /\ verify_fingerprint m = Ok tt.

Definition base_builder (class : MessageClass) (id : bytes) (attrs : list (Z * bytes)) : MessageBuilder :=
  {| message_type := MessageType.new Method.BINDING class; builder_transaction_id := id; builder_attributes := attrs;
     integrity := None; with_fingerprint := false |}.

Lemma signed_size ty id l i l' f : sign ty id l i = Some l' -> len (body_bytes (stamp ty id l' f)) <= len (body_bytes l) + 44.
Proof.
  intros Hs. assert (len (body_bytes l') <= len (body_bytes l) + 36) as Hl'.
  { unfold sign in Hs. destruct i as [[key|key]|].
    - destruct (hmac_sha1 key) as [mac|] eqn:E; [|done]. injection Hs as <-.
      rewrite body_bytes_app, body_bytes_one, len_app, len_attribute_bytes. cbn [snd].
      rewrite (proj2 (hmac_sha1_output key mac _ E)). change (attribute_size 20) with 24. lia.
    - destruct (hmac_sha256 key) as [mac|] eqn:E; [|done]. injection Hs as <-.
      rewrite body_bytes_app, body_bytes_one, len_app, len_attribute_bytes. cbn [snd].
      rewrite (proj2 (hmac_sha256_output key mac _ E)). change (attribute_size 32) with 36. lia.
    - injection Hs as <-. lia. }
  unfold stamp. destruct f; [|lia]. rewrite body_bytes_app, body_bytes_one, len_app, len_attribute_bytes. cbn [snd].
  rewrite len_to_be_bytes. change (attribute_size (Z.of_nat 4)) with 8. lia.
Qed.

Lemma sign_any ty id l i : is_Some (sign ty id l i).
Proof.
  unfold sign. destruct i as [[key|key]|]; [destruct (hmac_sha1_any_key key) as [mac ->]|destruct (hmac_sha256_any_key key) as [mac ->]|]; by eexists.
Qed.

Lemma respond class id attrs algorithm key :
  bytes_ok id -> len id = 12 -> Forall plain attrs -> Forall (fun a => len a.2 <= 65535) attrs ->
  len (body_bytes attrs) + 44 <= 65535 ->
  exists payload m, build (Builder.fingerprint (add_integrity (base_builder class id attrs) algorithm key)) = Ok payload /\
    response payload class id attrs algorithm key m.
Proof.
  intros Hidb Hid Hp Hsz Hlen. set (b := Builder.fingerprint _).
  assert (message_type b = MessageType.new Method.BINDING class /\ builder_transaction_id b = id /\ builder_attributes b = attrs /\
    with_fingerprint b = true /\ integrity b = Some (match algorithm with AlgSha1 => Sha1 key | AlgSha256 => Sha256 key end)) as (E1 & E2 & E3 & E4 & E5)
    by (by destruct algorithm).
  clearbody b. set (ty := MessageType.encode (message_type b)).
  destruct (sign_any ty id attrs (integrity b)) as [l Hs].
  pose proof (signed_size ty id attrs _ l (with_fingerprint b) Hs) as Hsize.
  eassert (build b = Ok _) as Hb.
  { apply (build_Ok ty id Hid b _ eq_refl E2). exists l. rewrite E3. split_and!; [exact Hs|done|lia|reflexivity]. }
  destruct (built_message_verifies b _ ltac:(rewrite E1; done) ltac:(by rewrite E2) ltac:(by rewrite E2) ltac:(by rewrite E3) Hb)
    as (m & tail & Hparse & Hk & Ht & Hc & _ & Hv & Hf).
  eexists _, m. split; [exact Hb|]. rewrite E4 in Hf. rewrite E5 in Hv. unfold response. rewrite Hk, Ht, E1, E2, Hc, E3.
  split_and!; [done..|by exists tail| |done]. by destruct algorithm.
Qed.
End Respond.

(** ** Typed attributes of an accepted message are well-formed *)
Lemma check_all_each seen seen' attrs a : check_all seen attrs = Ok seen' -> a ∈ attrs ->
  exists s s', check_attribute s (attribute_type a) (value a) = Ok s'.
Proof.
  revert seen. induction attrs as [|b attrs IH]; intros seen H Ha; [by apply not_elem_of_nil in Ha|].
  cbn in H. inv_ok H. apply elem_of_cons in Ha as [->|Ha]; eauto.
Qed.

Lemma attribute_elem m t a : attribute m t = Some a -> attribute_type a = t /\ a ∈ attributes m.
Proof. intros H%find_split. destruct H as (Ht & l1 & l2 & E & _). split; [done|]. rewrite E. set_solver. Qed.

Lemma check_value_len s s' t v : check_attribute s t v = Ok s' ->
  (t = PRIORITY -> len v = 4) /\ (t = ICE_CONTROLLED \/ t = ICE_CONTROLLING -> len v = 8).
Proof.
  unfold check_attribute. intros H. apply bind_Ok in H as ([] & _ & H). apply bind_Ok in H as ([] & _ & H).
  split; [intros ->|intros [-> | ->]]; cbn in H; apply bind_Ok in H as ([] & H & _); unfold require_len in H; case_match; lia || done.
Qed.

Section Accepted.
Context (input : bytes) (m : Message) (Hin : rust_slice input) (Hparse : parse input = Ok m).

Lemma accepted_value t a : attribute m t = Some a ->
  (t = PRIORITY -> len (value a) = 4) /\ (t = ICE_CONTROLLED \/ t = ICE_CONTROLLING -> len (value a) = 8).
Proof.
  intros Ha. apply stun_parse_Ok in Hparse as (_ & body & _ & _ & _ & _ & _ & _ & seen & Hc); [|done].
  apply attribute_elem in Ha as [<- Hel]. destruct (check_all_each _ _ _ _ Hc Hel) as (s & s' & H). by eapply check_value_len.
Qed.

Lemma read_array_whole n v : len v = Z.of_nat n -> exists c, ReadCursor.read_array n (ReadCursor.new v) = (c, Ok (from_be_bytes v)) /\ at_ v [] c.
Proof.
  intros Hv. destruct (read_array_cases v n v _ (at_new v)) as [(H & _)|(b & s & c & E & Hb & H & Hat)]; [lia|].
  assert (s = []) as -> by (apply len_zero_nil; unfold len in *; rewrite E, length_app in Hv; lia).
  rewrite app_nil_r in E. subst b. eauto.
Qed.

Lemma priority_Ok : priority m = Ok ((fun a => from_be_bytes (value a)) <$> attribute m PRIORITY).
Proof.
  unfold priority, u32_attribute, typed. destruct (attribute m PRIORITY) as [a|] eqn:Ha; [|done].
  pose proof (proj1 (accepted_value _ _ Ha) eq_refl) as Hl. unfold read_exact_u32, require_len. rewrite Hl. cbn [Z.eqb Pos.eqb mbind outcome_bind].
  destruct (read_array_whole 4 (value a) Hl) as (c & Hc & _). unfold ReadCursor.read_u32. rewrite Hc. done.
Qed.

Lemma ice_role_Ok t : t = ICE_CONTROLLED \/ t = ICE_CONTROLLING ->
  u64_attribute m t = Ok ((fun a => from_be_bytes (value a)) <$> attribute m t).
Proof.
  intros Ht. unfold u64_attribute, typed. destruct (attribute m t) as [a|] eqn:Ha; [|done].
  pose proof (proj2 (accepted_value _ _ Ha) Ht) as Hl. destruct (read_array_whole 8 (value a) Hl) as (c & Hc & Hat).
  unfold read_u64_attribute. rewrite (prog_step _ _ _ c (from_be_bytes (value a))) by (by apply with_err_Ok).
  rewrite (prog_step _ _ c c true) by (unfold gets; by rewrite (at_is_empty (value a) []) by done). done.
Qed.

Lemma wire_types s attrs b : wire s attrs b -> Forall (fun a => u16 (attribute_type a)) attrs.
Proof. induction 1; by constructor. Qed.

Lemma unknown_small : Forall u16 (unknown_required_attributes m) /\ len (unknown_required_attributes m) <= 16383.
Proof.
  apply stun_parse_Ok in Hparse as (_ & body & _ & _ & Hlen & _ & _ & Hw & _); [|done]. pose proof (wire_types _ _ _ Hw) as Hty.
  pose proof (stun_wire_len _ _ _ Hw) as Hn. unfold unknown_required_attributes. split.
  - apply Forall_forall. intros t [_ Ht]%list_elem_of_filter. apply list_elem_of_fmap in Ht as (a & -> & Ha).
    by rewrite Forall_forall in Hty; apply Hty.
  - pose proof (length_filter (fun t => is_comprehension_required t = true /\ is_known t = false) (attribute_type <$> attributes m)) as Hf.
    rewrite length_fmap in Hf. unfold len in *. lia.
Qed.

Lemma accepted_id : bytes_ok (transaction_id m) /\ len (transaction_id m) = 12.
Proof.
  apply stun_parse_Ok in Hparse as (Hraw & body & _ & Hid & _ & _ & E & _); [|done]. split; [|done].
  destruct Hin as [Hok _]. rewrite <- Hraw, E in Hok. unfold header in Hok. rewrite !bytes_ok_app in Hok. tauto.
Qed.
End Accepted.

(** ** The answer to an authenticated request *)
Definition role_conflict (m : Message) : bool :=
  bool_decide (is_Some (attribute m ICE_CONTROLLED)) || negb (bool_decide (is_Some (attribute m ICE_CONTROLLING))).

Section Answer.
Context {crypto : StunCrypto}.

Definition key_of (a : Agent) : bytes := password (local_credentials (configuration a)).

(** What leaves the agent: one datagram back to the sender, a signed response to the request [m]. *)
Definition replies (a : Agent) (m : Message) (algorithm : IntegrityAlgorithm) (local_ remote_ : SocketAddr)
    (class : MessageClass) (out : HandleOutput) (resp : Message) : Prop :=
  source (transmit out) = local_ /\ destination (transmit out) = remote_ /\
  parse (payload (transmit out)) = Ok resp /\ kind resp = MessageType.new Method.BINDING class /\
  transaction_id resp = transaction_id m /\ verified_by algorithm resp (key_of a) /\ verify_fingerprint resp = Ok tt.

Lemma plain_other t v : u16 t -> bytes_ok v -> check_attribute nothing_seen t v = Ok nothing_seen -> plain (t, v).
Proof. done. Qed.

Context (input : bytes) (m : Message) (Hin : rust_slice input) (Hparse : parse input = Ok m).

Lemma error_output_replies a attrs algorithm l r :
  Forall plain attrs -> Forall (fun x => len x.2 <= 65535) attrs -> len (body_bytes attrs) + 44 <= 65535 ->
  exists out resp, error_output a (base_builder ErrorResponse (transaction_id m) attrs) algorithm l r = Ok out /\
    events out = [] /\ replies a m algorithm l r ErrorResponse out resp /\
    exists tail, contents <$> attributes resp = attrs ++ tail.
Proof.
  intros Hp Hsz Hlen. destruct (accepted_id input m Hin Hparse) as [Hidb Hid].
  destruct (respond ErrorResponse (transaction_id m) attrs algorithm (key_of a) Hidb Hid Hp Hsz Hlen) as (p & resp & Hb & Hr).
  unfold error_output. fold (key_of a). rewrite Hb. cbn. eexists _, resp. split; [done|]. cbn. split; [done|].
  destruct Hr as (H1 & H2 & H3 & H4 & H5 & H6). done.
Qed.

Lemma error_attribute_plain c n reason_ : u8 c -> u8 n -> bytes_ok reason_ -> plain (ERROR_CODE, [0; 0; c; n] ++ reason_).
Proof.
  intros Hc Hn Hr. apply plain_other; [by vm_compute| |done]. cbn. repeat (apply bytes_ok_cons; split); (done || mlia).
Qed.

Lemma error_attribute_code resp c n reason_ tail :
  contents <$> attributes resp = (ERROR_CODE, [0; 0; c; n] ++ reason_) :: tail -> 3 <= c <= 6 -> 0 <= n <= 99 -> from_utf8 reason_ = true ->
  error_code resp = Ok (Some {| code := c * 100 + n; reason := reason_ |}).
Proof.
  intros E Hc Hn Hu. destruct (attribute_first resp [] _ _ _ E) as (a & Ha & Hv); [constructor|].
  by apply (error_code_value resp a).
Qed.

Lemma unknown_values_small : let values := dedup (sort_unstable (unknown_required_attributes m)) in
  Forall u16 values /\ len values <= 16383.
Proof.
  destruct (unknown_small input m Hin Hparse) as [Hu Hl]. cbv zeta. split.
  - apply Forall_forall. intros x Hx. rewrite elem_of_dedup, elem_of_sort in Hx. by rewrite Forall_forall in Hu; apply Hu.
  - pose proof (dedup_le (sort_unstable (unknown_required_attributes m))) as H. rewrite len_sort in H. lia.
Qed.

Lemma values_bytes (l : list Z) : bytes_ok (l ≫= to_be_bytes 2) /\ len (l ≫= to_be_bytes 2) = 2 * len l.
Proof.
  induction l as [|x l [IH1 IH2]]; [split; [constructor|done]|]. change ((x :: l) ≫= to_be_bytes 2) with (to_be_bytes 2 x ++ (l ≫= to_be_bytes 2)).
  split; [apply bytes_ok_app; auto with bytes|]. rewrite len_app, len_to_be_bytes, len_cons, IH2. lia.
Qed.

Lemma unknown_answer a algorithm l r : unknown_required_attributes m <> [] ->
  exists out resp, semantic_error_response a m algorithm l r = Ok (Some out) /\ events out = [] /\
    replies a m algorithm l r ErrorResponse out resp /\
    error_code resp = Ok (Some {| code := 420; reason := UNKNOWN_ATTRIBUTE_REASON |}) /\
    unknown_attributes resp = Ok (dedup (sort_unstable (unknown_required_attributes m))).
Proof.
  intros Hu. unfold semantic_error_response. rewrite bool_decide_eq_false_2 by done. cbn [negb].
  destruct unknown_values_small as [Hv16 Hvl]. destruct (values_bytes (dedup (sort_unstable (unknown_required_attributes m)))) as [Hvb Hvlen].
  set (values := dedup (sort_unstable _)) in *.
  set (attrs := [(ERROR_CODE, [0; 0; 4; 20] ++ UNKNOWN_ATTRIBUTE_REASON); (UNKNOWN_ATTRIBUTES, values ≫= to_be_bytes 2)]).
  change (error_builder (transaction_id m) 420 UNKNOWN_ATTRIBUTE_REASON) with
    (Ok (E:=IceError) (base_builder ErrorResponse (transaction_id m) [(ERROR_CODE, [0; 0; 4; 20] ++ UNKNOWN_ATTRIBUTE_REASON)])).
  cbn [mbind outcome_bind]. change (Builder.unknown_attributes _ _) with (base_builder ErrorResponse (transaction_id m) attrs).
  destruct (error_output_replies a attrs algorithm l r) as (out & resp & Ho & He & Hr & tail & Hc).
  - repeat apply Forall_cons_2; [|apply plain_other; [by vm_compute|done|done]|constructor].
    apply error_attribute_plain; [by vm_compute..|]. repeat constructor; mlia.
  - repeat apply Forall_cons_2; [by vm_compute|cbn; lia|constructor].
  - unfold attrs. change [?x; ?y] with ([x] ++ [y]). rewrite body_bytes_app, !body_bytes_one, len_app, !len_attribute_bytes. cbn [snd].
    rewrite Hvlen. unfold attribute_size at 2. pose proof (padding_bound (2 * len values)). change (attribute_size _) with 28. lia.
  - exists out, resp. rewrite Ho. split_and!; try done; [by apply Hr..| |].
    + by apply (error_attribute_code resp 4 20 _ _ Hc).
    + unfold unknown_attributes. destruct (attribute_first resp [_] _ _ _ Hc) as (x & Hx & Hxv); [by repeat constructor|].
      rewrite Hx, Hxv. destruct (u16_chunks_bytes values Hv16) as [E1 E2]. by rewrite E2, E1.
Qed.

(** One of the two error responses with a fixed list of attributes. *)
Lemma fixed_answer a algorithm l r c n reason_ more :
  u8 c -> u8 n -> 3 <= c <= 6 -> 0 <= n <= 99 -> bytes_ok reason_ -> from_utf8 reason_ = true -> len reason_ <= 100 ->
  Forall plain more -> Forall (fun x => len x.2 <= 65535) more -> len (body_bytes more) <= 1000 ->
  exists out resp,
    error_output a (base_builder ErrorResponse (transaction_id m) ((ERROR_CODE, [0; 0; c; n] ++ reason_) :: more)) algorithm l r = Ok out /\
    events out = [] /\ replies a m algorithm l r ErrorResponse out resp /\
    error_code resp = Ok (Some {| code := c * 100 + n; reason := reason_ |}) /\
    exists tail, contents <$> attributes resp = (ERROR_CODE, [0; 0; c; n] ++ reason_) :: more ++ tail.
Proof.
  intros Hc Hn Hc' Hn' Hr Hu Hl Hp Hsz Hlen.
  destruct (error_output_replies a ((ERROR_CODE, [0; 0; c; n] ++ reason_) :: more) algorithm l r) as (out & resp & Ho & He & Hrep & tail & Ht).
  - constructor; [by apply error_attribute_plain|done].
  - constructor; [cbn; slia|done].
  - change (?x :: more) with ([x] ++ more). rewrite body_bytes_app, body_bytes_one, len_app, len_attribute_bytes. cbn [snd].
    unfold attribute_size. pose proof (padding_bound (4 + len reason_)). rewrite len_app. change (len [0; 0; c; n]) with 4. lia.
  - exists out, resp. split_and!; try done; [by apply Hrep..| |by exists tail]. by eapply error_attribute_code.
Qed.

Lemma roles_Ok : ice_controlling m = Ok ((fun x => from_be_bytes (value x)) <$> attribute m ICE_CONTROLLING) /\
  ice_controlled m = Ok ((fun x => from_be_bytes (value x)) <$> attribute m ICE_CONTROLLED).
Proof. split; apply (ice_role_Ok input m Hin Hparse); auto. Qed.

Lemma is_Some_fmap_bool {A B} (f : A -> B) (o : option A) : bool_decide (is_Some (f <$> o)) = bool_decide (is_Some o).
Proof. by destruct o. Qed.

Lemma conflict_answer a algorithm l r : u64 (tie_breaker (configuration a)) ->
  unknown_required_attributes m = [] -> role_conflict m = true ->
  exists out resp, semantic_error_response a m algorithm l r = Ok (Some out) /\ events out = [] /\
    replies a m algorithm l r ErrorResponse out resp /\
    error_code resp = Ok (Some {| code := 487; reason := ROLE_CONFLICT_REASON |}) /\
    ice_controlled resp = Ok (Some (tie_breaker (configuration a))).
Proof.
  intros Htie Hu Hrole. unfold semantic_error_response. rewrite Hu. cbn [bool_decide decide_rel negb]. rewrite bool_decide_eq_true_2 by done. cbn [negb].
  destruct roles_Ok as [-> ->]. cbn [map_err mbind outcome_bind]. rewrite !is_Some_fmap_bool. fold (role_conflict m). rewrite Hrole.
  change (error_builder (transaction_id m) 487 ROLE_CONFLICT_REASON) with
    (Ok (E:=IceError) (base_builder ErrorResponse (transaction_id m) [(ERROR_CODE, [0; 0; 4; 87] ++ ROLE_CONFLICT_REASON)])).
  cbn [mbind outcome_bind]. set (tie := tie_breaker (configuration a)) in *.
  change (Builder.ice_controlled _ _) with (base_builder ErrorResponse (transaction_id m)
    ((ERROR_CODE, [0; 0; 4; 87] ++ ROLE_CONFLICT_REASON) :: [(ICE_CONTROLLED, to_be_bytes 8 tie)])).
  destruct (fixed_answer a algorithm l r 4 87 ROLE_CONFLICT_REASON [(ICE_CONTROLLED, to_be_bytes 8 tie)]) as (out & resp & Ho & He & Hrep & Hcode & tail & Ht);
    [by vm_compute|by vm_compute|lia|lia|repeat constructor; mlia|by vm_compute|by vm_compute|..].
  - constructor; [|constructor]. apply plain_other; [by vm_compute|apply to_be_bytes_ok|]. unfold check_attribute, require_len. by rewrite len_to_be_bytes.
  - constructor; [cbn [snd]; by rewrite len_to_be_bytes|constructor].
  - rewrite body_bytes_one, len_attribute_bytes. cbn [snd]. by rewrite len_to_be_bytes.
  - exists out, resp. rewrite Ho. split_and!; try done; [by apply Hrep..|].
    unfold ice_controlled, u64_attribute, typed. destruct (attribute_first resp [_] _ _ _ Ht) as (x & Hx & Hxv); [by repeat constructor|].
    rewrite Hx, Hxv. destruct (read_array_whole 8 (to_be_bytes 8 tie)) as (c & Hc & Hat); [by rewrite len_to_be_bytes|].
    unfold read_u64_attribute. rewrite from_to_be_bytes in Hc by done. rewrite (prog_step _ _ _ c tie) by (by apply with_err_Ok).
    rewrite (prog_step _ _ c c true) by (unfold gets; by rewrite (at_is_empty (to_be_bytes 8 tie) []) by done). done.
Qed.

Lemma no_priority_answer a algorithm l r :
  unknown_required_attributes m = [] -> role_conflict m = false -> attribute m PRIORITY = None ->
  exists out resp, semantic_error_response a m algorithm l r = Ok (Some out) /\ events out = [] /\
    replies a m algorithm l r ErrorResponse out resp /\
    error_code resp = Ok (Some {| code := 400; reason := BAD_REQUEST_REASON |}).
Proof.
  intros Hu Hrole Hpr. unfold semantic_error_response. rewrite Hu, bool_decide_eq_true_2 by done. cbn [negb].
  destruct roles_Ok as [-> ->]. cbn [map_err mbind outcome_bind]. rewrite !is_Some_fmap_bool. fold (role_conflict m).
  rewrite Hrole, (priority_Ok input m Hin Hparse), Hpr. cbn [fmap option_fmap option_map map_err mbind outcome_bind].
  rewrite bool_decide_eq_true_2 by done.
  change (error_builder (transaction_id m) 400 BAD_REQUEST_REASON) with
    (Ok (E:=IceError) (base_builder ErrorResponse (transaction_id m) ((ERROR_CODE, [0; 0; 4; 0] ++ BAD_REQUEST_REASON) :: []))).
  cbn [mbind outcome_bind].
  destruct (fixed_answer a algorithm l r 4 0 BAD_REQUEST_REASON []) as (out & resp & Ho & He & Hrep & Hcode & _);
    [by vm_compute|by vm_compute|lia|lia|repeat constructor; mlia|by vm_compute|by vm_compute|constructor|constructor|by vm_compute|].
  exists out, resp. rewrite Ho. split_and!; try done; by apply Hrep.
Qed.

Lemma no_semantic_error a algorithm l r x :
  unknown_required_attributes m = [] -> role_conflict m = false -> attribute m PRIORITY = Some x ->
  semantic_error_response a m algorithm l r = Ok None.
Proof.
  intros Hu Hrole Hpr. unfold semantic_error_response. rewrite Hu, bool_decide_eq_true_2 by done. cbn [negb].
  destruct roles_Ok as [-> ->]. cbn [map_err mbind outcome_bind]. rewrite !is_Some_fmap_bool. fold (role_conflict m).
  by rewrite Hrole, (priority_Ok input m Hin Hparse), Hpr.
Qed.

Lemma success_answer a algorithm r : addr_ok r ->
  exists p resp, success_response a m r algorithm = Ok p /\
    response p SuccessResponse (transaction_id m) [(XOR_MAPPED_ADDRESS, encode_xor_address r (transaction_id m))] algorithm (key_of a) resp /\
    xor_mapped_address resp = Ok (Some (socket_new (ip r) (port r))).
Proof.
  intros Hr. destruct (accepted_id input m Hin Hparse) as [Hidb Hid]. pose proof (encoded_ip_len r _ Hr Hid) as Hlen.
  assert (len (encode_xor_address r (transaction_id m)) <= 20 /\ ((len (encode_xor_address r (transaction_id m)) =? 8) || (len (encode_xor_address r (transaction_id m)) =? 20)) = true) as [Hle Hshape]
    by (rewrite Hlen; by destruct (ip r)).
  destruct (respond SuccessResponse (transaction_id m) [(XOR_MAPPED_ADDRESS, encode_xor_address r (transaction_id m))] algorithm (key_of a) Hidb Hid)
    as (p & resp & Hb & Hresp).
  - constructor; [|constructor]. apply plain_other; [by vm_compute|by apply encode_xor_address_ok|].
    unfold check_attribute, address_shape. cbn [reject_if negb nothing_seen seen_sha1 seen_sha256 seen_fingerprint]. by rewrite Hshape.
  - constructor; [cbn [snd]; lia|constructor].
  - rewrite body_bytes_one, len_attribute_bytes. cbn [snd]. unfold attribute_size. pose proof (padding_bound (len (encode_xor_address r (transaction_id m)))). lia.
  - exists p, resp. unfold success_response. fold (key_of a).
    change (Builder.xor_mapped_address _ _) with (base_builder SuccessResponse (transaction_id m) [(XOR_MAPPED_ADDRESS, encode_xor_address r (transaction_id m))]).
    rewrite Hb. split; [done|]. split; [done|]. destruct Hresp as (_ & _ & Hid' & (tail & Ht) & _).
    unfold xor_mapped_address, xor_address, typed. destruct (attribute_first resp [] _ _ _ Ht) as (x & Hx & Hxv); [constructor|].
    rewrite Hx, Hxv, Hid'. by rewrite xor_address_roundtrip.
Qed.
End Answer.
