(* ===== verification/IceSafety.v ===== *)
(** * webrtc/ice-lite: the state machine of an agent

    Which datagrams an agent listens to, the invariant of its candidate pairs and its state, the
    transitions it can make, and what happens when the peer falls silent. *)
From S2P Require Import Prelude Words Slices RustStd BytesCodec Stun StunCodec StunBuild StunSafety IceLite IceResponse.
Import AttributeType.

Section Agents.
Context {crypto : StunCrypto}.

(** ** Authentication comes back *)
Lemma returns_read_exact_u32 v t : returns (read_exact_u32 v t).
Proof.
  unfold read_exact_u32. apply returns_bind; [auto with returns|]. intros _ _. apply returns_map_err. unfold ReadCursor.read_u32.
  by destruct (read_array_cases v 4 v _ (at_new v)) as [(_ & e & ->)|(b & s & c & _ & _ & -> & _)].
Qed.

Lemma returns_utf8_attribute m t : returns (utf8_attribute m t).
Proof. unfold utf8_attribute, typed. case_match; [|done]. apply returns_fmap. by case_match. Qed.

Lemma returns_verify_fingerprint m : returns (verify_fingerprint m).
Proof.
  unfold verify_fingerprint. apply returns_bind; [auto with returns|]. intros a _.
  apply returns_bind; [apply returns_read_exact_u32|]. intros x _. returns_steps.
Qed.

Section Accepted.
Context (input : bytes) (m : Message) (Hin : rust_slice input) (Hparse : parse input = Ok m).

Lemma returns_verify_sha1 key : returns (verify_message_integrity_sha1 m key).
Proof.
  unfold verify_message_integrity_sha1. destruct (attribute m MESSAGE_INTEGRITY) as [a|] eqn:Ha; [|done]. cbn [ok_or mbind outcome_bind].
  destruct (integrity_position input m _ a Hin Hparse Ha ltac:(set_solver)) as (? & ? & ? & ? & ? & _ & _ & _ & _ & _ & -> & _).
  cbn [mbind outcome_bind]. returns_steps.
Qed.

Lemma returns_verify_sha256 key : returns (verify_message_integrity_sha256 m key).
Proof.
  unfold verify_message_integrity_sha256. destruct (attribute m MESSAGE_INTEGRITY_SHA256) as [a|] eqn:Ha; [|done]. cbn [ok_or mbind outcome_bind].
  destruct (integrity_position input m _ a Hin Hparse Ha ltac:(set_solver)) as (? & ? & ? & ? & ? & _ & _ & _ & _ & _ & -> & _ & Hl).
  specialize (Hl eq_refl). cbn [mbind outcome_bind]. destruct (hmac_sha256 key) as [mac|] eqn:Hm; [|done]. cbn [ok_or mbind outcome_bind].
  apply returns_bind; [|auto with returns]. apply returns_index_range; [lia|]. rewrite (proj2 (hmac_sha256_output key mac _ Hm)). lia.
Qed.

Lemma returns_authenticate a : returns (authenticate a m).
Proof.
  unfold authenticate. apply returns_bind; [apply returns_map_err, returns_utf8_attribute|]. intros u _.
  apply returns_bind; [auto with returns|]. intros _ _. apply returns_bind.
  - case_match; (apply returns_bind; [apply returns_map_err; (apply returns_verify_sha256 || apply returns_verify_sha1)|done]).
  - intros alg _. apply returns_bind; [|done]. case_match; [apply returns_map_err, returns_verify_fingerprint|done].
Qed.
End Accepted.

(** ** The datagrams an agent listens to *)
Definition authentic (a : Agent) (input : bytes) (m : Message) (algorithm : IntegrityAlgorithm) : Prop :=
  state a <> Failed /\ parse input = Ok m /\ validate_message_type m = Ok tt /\ authenticate a m = Ok algorithm.

(** What it does with them. *)
Definition respond_to (now : Z) (l r : SocketAddr) (m : Message) (algorithm : IntegrityAlgorithm) (a : Agent)
    : Agent * outcome IceError HandleOutput :=
  match semantic_error_response a m algorithm l r with
  | Ok (Some out) => (a, Ok out)
  | Ok None => accept_check now l r m algorithm a
  | Err e => (a, Err e)
  | Panic => (a, Panic)
  | Diverge => (a, Diverge)
  end.

Lemma handle_authentic now l r input m algorithm a : authentic a input m algorithm ->
  handle_datagram now l r input a = respond_to now l r m algorithm a.
Proof.
  intros (Hs & Hp & Hv & Ha). unfold handle_datagram, respond_to. rewrite (prog_step _ _ a a a) by done.
  rewrite (prog_step _ _ a a tt) by (unfold lift; by rewrite bool_decide_eq_false_2).
  rewrite (prog_step _ _ a a m) by (unfold lift; by rewrite Hp). rewrite (prog_step _ _ a a tt) by (unfold lift; by rewrite Hv).
  rewrite (prog_step _ _ a a algorithm) by (unfold lift; by rewrite Ha).
  unfold mbind at 1, prog_bind at 1, lift. by destruct (semantic_error_response _ _ _ _ _) as [[out|]|e| |].
Qed.

(** Everything else is refused without an answer and without a trace. *)
Lemma handle_cases now l r input a : rust_slice input ->
  (exists m algorithm, authentic a input m algorithm) \/ (exists e, handle_datagram now l r input a = (a, Err e)).
Proof.
  intros Hin. unfold authentic, handle_datagram. rewrite (prog_step _ _ a a a) by done.
  destruct (decide (state a = Failed)) as [Hf|Hf].
  { right. exists RestartRequired. apply prog_fails. unfold lift. by rewrite bool_decide_eq_true_2. }
  rewrite (prog_step _ _ a a tt) by (unfold lift; by rewrite bool_decide_eq_false_2).
  pose proof (returns_stun_parse input Hin) as Hrp. destruct (parse input) as [m|e| |] eqn:Hp; [|right; by exists (Stun e)|done|done].
  rewrite (prog_step _ _ a a m) by done.
  destruct (validate_message_type m) as [[]|e| |] eqn:Hv; [|right; by exists e|unfold validate_message_type in Hv; by case_match..].
  rewrite (prog_step _ _ a a tt) by done.
  pose proof (returns_authenticate input m Hin Hp a) as Hra. destruct (authenticate a m) as [algorithm|e| |] eqn:Ha; [|right; by exists e|done|done].
  left. by exists m, algorithm.
Qed.

(** ** Recording a pair *)
Definition same_pair (l r : SocketAddr) (p : CandidatePair) : Prop := local p = l /\ remote p = r.

Definition finish_record (n : bool) (pair : CandidatePair) (a : Agent) : Agent * outcome IceError (list Event) :=
  if n && bool_decide (selected_pair a <> Some pair)
  then (set_selected_pair (Some pair) a, Ok [SelectedPair pair]) else (a, Ok []).

Lemma record_spec now l r p n a :
  record_valid_pair now l r p n a =
  match list_find (same_pair l r) (pairs a) with
  | Some (i, old) =>
      let pair := {| local := local old; remote := remote old; pair_priority := p;
                     nominated := nominated old || n; pair_authenticated := now |} in
      finish_record n pair (set_pairs (<[i := pair]> (pairs a)) (set_last_authenticated (Some now) a))
  | None =>
      if max_candidate_pairs (configuration a) <=? len (pairs a)
      then (set_last_authenticated (Some now) a, Err CandidatePairLimit)
      else let pair := {| local := l; remote := r; pair_priority := p; nominated := n; pair_authenticated := now |} in
        finish_record n pair (set_pairs (pairs a ++ [pair]) (set_last_authenticated (Some now) a))
  end.
Proof.
  unfold record_valid_pair. rewrite (prog_step _ _ a (set_last_authenticated (Some now) a) tt) by done.
  rewrite (prog_step _ _ (set_last_authenticated (Some now) a) (set_last_authenticated (Some now) a) (pairs a)) by done.
  unfold same_pair. destruct (list_find _ (pairs a)) as [[i old]|].
  - unfold finish_record. cbv zeta. unfold mbind, prog_bind, modify, gets, mret, prog_ret. cbn [fst snd]. by case_match.
  - unfold mbind at 1, prog_bind at 1. unfold mbind at 1, prog_bind at 1. unfold gets at 1. cbn [configuration set_last_authenticated].
    destruct (_ <=? _); [done|]. unfold finish_record. cbv zeta. unfold mbind, prog_bind, modify, gets, mret, prog_ret. cbn [fst snd]. by case_match.
Qed.

Definition pair_key (p : CandidatePair) : SocketAddr * SocketAddr := (local p, remote p).

(** The events [es] tell which pair became the selected one, if any did. *)
Definition selection (key : SocketAddr * SocketAddr) (a a' : Agent) (es : list Event) : Prop :=
  (es = [] /\ selected_pair a' = selected_pair a) \/
  (exists p, es = [SelectedPair p] /\ selected_pair a' = Some p /\ pair_key p = key).

(** ** The invariant *)
Definition config_ok (c : Configuration) : Prop :=
  0 <= max_candidate_pairs c /\ 0 <= consent_timeout c /\ 0 <= failure_timeout c /\ u64 (tie_breaker c).

(** The pairs and the selection: bounded, distinct, and the selected pair is one of them and nominated. *)
Record pairs_ok (a : Agent) : Prop := {
  ok_limit : len (pairs a) <= max_candidate_pairs (configuration a);
  ok_distinct : NoDup (pair_key <$> pairs a);
  ok_selected s : selected_pair a = Some s ->
    nominated s = true /\ exists p, p ∈ pairs a /\ pair_key p = pair_key s /\ nominated p = true;
  ok_unselected : selected_pair a = None -> Forall (fun p => nominated p = false) (pairs a) }.

(** The state agrees with them, and with the clock. *)
Record agent_ok (t : Z) (a : Agent) : Prop := {
  ok_config : config_ok (configuration a);
  ok_pairs : pairs_ok a;
  ok_state : match state a with
    | New => pairs a = []
    | Connected => selected_pair a = None /\ pairs a <> []
    | Completed => is_Some (selected_pair a)
    | Disconnected => True
    | Failed => exists s, last_authenticated a = Some s /\ failure_timeout (configuration a) <= t - s
    end;
  ok_clock s : last_authenticated a = Some s -> s <= t;
  ok_heard : pairs a <> [] -> is_Some (last_authenticated a) }.

Lemma new_agent_ok t c : config_ok c -> agent_ok t (new c).
Proof.
  intros Hc. split; cbn; try done. split; cbn; [change (len (@nil CandidatePair)) with 0; apply Hc|constructor|done|constructor].
Qed.

Lemma finish_record_ok n pair a : pairs_ok (set_selected_pair (selected_pair a) a) \/ n = true ->
  len (pairs a) <= max_candidate_pairs (configuration a) -> NoDup (pair_key <$> pairs a) ->
  pair ∈ pairs a -> (n = true -> nominated pair = true) ->
  exists a' es, finish_record n pair a = (a', Ok es) /\ pairs_ok a' /\
    configuration a' = configuration a /\ pairs a' = pairs a /\ state a' = state a /\ last_authenticated a' = last_authenticated a /\
    (is_Some (selected_pair a') <-> is_Some (selected_pair a) \/ n = true) /\
    selection (pair_key pair) a a' es /\ (n = true -> selected_pair a' = Some pair).
Proof.
  intros Hok Hl Hd Hel Hn. unfold finish_record. destruct n; cbn [andb].
  - case_bool_decide as Hsel.
    + eexists _, _. split; [done|]. cbn. split_and!; try done; [|naive_solver|right; by exists pair].
      split; cbn; [done|done|intros s [= <-]; split; [by apply Hn|by exists pair; auto]|done].
    + assert (selected_pair a = Some pair) as E by (destruct (decide (selected_pair a = Some pair)); [done|by contradict Hsel]).
      eexists _, _. split; [done|]. split_and!; try done; [|naive_solver|by left].
      split; [done|done|intros s Hs; rewrite E in Hs; injection Hs as <-; split; [by apply Hn|by exists pair; auto]|by rewrite E].
  - destruct Hok as [Hok|]; [|done]. eexists _, _. split; [done|]. split_and!; try done; [|naive_solver|by left].
    destruct Hok as [H1 H2 H3 H4]. split; cbn in *; done.
Qed.

Lemma find_same l r (ps : list CandidatePair) i old : list_find (same_pair l r) ps = Some (i, old) ->
  ps !! i = Some old /\ pair_key old = (l, r).
Proof. intros (H & [H1 H2] & _)%list_find_Some. unfold pair_key. by rewrite H1, H2. Qed.

Lemma find_none l r (ps : list CandidatePair) : list_find (same_pair l r) ps = None -> (l, r) ∉ pair_key <$> ps.
Proof.
  intros H Hin. apply list_find_None in H. rewrite Forall_forall in H. apply list_elem_of_fmap in Hin as (p & E & Hp).
  apply (H p Hp). unfold pair_key in E. by injection E as -> ->.
Qed.

(** [record_valid_pair] keeps the pairs consistent; when it succeeds the pair is among them. *)
Lemma record_ok now l r p n a : pairs_ok a ->
  exists a', configuration a' = configuration a /\ state a' = state a /\ last_authenticated a' = Some now /\ pairs_ok a' /\
    ((record_valid_pair now l r p n a = (a', Err CandidatePairLimit) /\ pairs a' = pairs a /\ selected_pair a' = selected_pair a /\
        ((l, r) ∉ pair_key <$> pairs a) /\ max_candidate_pairs (configuration a) <= len (pairs a)) \/
     (exists es q, record_valid_pair now l r p n a = (a', Ok es) /\ selection (l, r) a a' es /\
        (n = true -> selected_pair a' = Some q) /\ q ∈ pairs a' /\ pair_key q = (l, r) /\ pair_priority q = p /\ pair_authenticated q = now /\
        (is_Some (selected_pair a') <-> is_Some (selected_pair a) \/ n = true))).
Proof.
  intros Hok. pose proof Hok as [H1 H2 H3 H4]. rewrite record_spec. destruct (list_find (same_pair l r) (pairs a)) as [[i old]|] eqn:Hfind.
  - apply find_same in Hfind as [Hi Hk]. cbv zeta.
    set (q := {| local := local old; remote := remote old; pair_priority := p; nominated := nominated old || n; pair_authenticated := now |}).
    assert (pair_key q = pair_key old) as Hq by done.
    assert (pair_key <$> <[i := q]> (pairs a) = pair_key <$> pairs a) as Hkeys.
    { rewrite list_fmap_insert. apply list_insert_id. rewrite list_lookup_fmap, Hi. cbn. by rewrite Hq. }
    assert (q ∈ <[i := q]> (pairs a)) as Hin by (apply list_elem_of_lookup_2 with i, list_lookup_insert_eq; by apply lookup_lt_Some in Hi).
    destruct (finish_record_ok n q (set_pairs (<[i := q]> (pairs a)) (set_last_authenticated (Some now) a))) as (a' & es & Ha' & Hok' & E1 & E2 & E3 & E4 & E5 & E6 & E7); cbn.
    + destruct n; [by right|left]. split; cbn; [by rewrite len_insert|by rewrite Hkeys| |].
      * intros s Hs. destruct (H3 s Hs) as (Hn & x & Hx & Hxk & Hxn). split; [done|].
        apply list_elem_of_lookup_1 in Hx as [j Hj]. destruct (decide (i = j)) as [<-|Hij].
        -- exists q. rewrite Hi in Hj. injection Hj as ->. split_and!; [done|by rewrite Hq|unfold q; cbn; by rewrite Hxn].
        -- exists x. split_and!; try done. apply list_elem_of_lookup_2 with j. by rewrite list_lookup_insert_ne.
      * intros Hs. specialize (H4 Hs). apply Forall_insert; [done|]. unfold q. cbn. rewrite (Forall_lookup_1 _ _ _ _ H4 Hi). done.
    + by rewrite len_insert.
    + by rewrite Hkeys.
    + done.
    + intros ->. unfold q. cbn. apply orb_true_r.
    + exists a'. rewrite E1, E3, E4. split_and!; try done. right. exists es, q. rewrite E2, Ha'. rewrite Hq, Hk in E6. cbn in *. split_and!; try done.
  - destruct (Z.leb_spec (max_candidate_pairs (configuration a)) (len (pairs a))).
    + exists (set_last_authenticated (Some now) a). split; [done|]. split; [done|]. split; [done|]. split; [by split|]. left. split_and!; try done. by apply find_none.
    + apply find_none in Hfind. cbv zeta. set (q := {| local := l; remote := r; pair_priority := p; nominated := n; pair_authenticated := now |}).
      destruct (finish_record_ok n q (set_pairs (pairs a ++ [q]) (set_last_authenticated (Some now) a))) as (a' & es & Ha' & Hok' & E1 & E2 & E3 & E4 & E5 & E6 & E7); cbn.
      * destruct n; [by right|left]. split; cbn; [rewrite len_app; change (len [q]) with 1; lia| | |].
        -- rewrite fmap_app. apply NoDup_app. split_and!; [done|cbn; set_solver|apply NoDup_singleton].
        -- intros s Hs. destruct (H3 s Hs) as (Hn & x & Hx & Hxk & Hxn). split; [done|]. exists x. split_and!; try done. set_solver.
        -- intros Hs. apply Forall_app. split; [by apply H4|by repeat constructor].
      * rewrite len_app. change (len [q]) with 1. lia.
      * rewrite fmap_app. apply NoDup_app. split_and!; [done|cbn; set_solver|apply NoDup_singleton].
      * set_solver.
      * by intros ->.
      * exists a'. rewrite E1, E3, E4. split_and!; try done. right. exists es, q. rewrite E2, Ha'. cbn in *. split_and!; try done. set_solver.
Qed.

(** ** State changes and the events that report them *)
Definition is_state_change (e : Event) : bool := match e with StateChanged _ _ => true | SelectedPair _ => false end.
Definition state_events (es : list Event) : list Event := filter is_state_change es.
Definition changed (s s' : IceState) : list Event := if bool_decide (s = s') then [] else [StateChanged s s'].

Lemma transition_cases target a : exists a' e, transition target a = (a', e) /\ state a' = target /\
  configuration a' = configuration a /\ pairs a' = pairs a /\ selected_pair a' = selected_pair a /\
  last_authenticated a' = last_authenticated a /\ collect_event e = changed (state a) target.
Proof.
  unfold transition, changed. case_bool_decide as H; [exists a, None|exists (set_state target a), (Some (StateChanged (state a) target))]; done.
Qed.

Lemma selected_events key a a' es : selection key a a' es -> state_events es = [].
Proof. by intros [[-> _]|(p & -> & _)]. Qed.

Lemma changed_events s s' : state_events (changed s s') = changed s s'.
Proof. unfold changed, state_events. by case_bool_decide. Qed.

Section Accept.
Context (input : bytes) (m : Message) (Hin : rust_slice input) (Hparse : parse input = Ok m).

Definition completed_if (a : Agent) : IceState := if bool_decide (is_Some (selected_pair a)) then Completed else Connected.

Lemma accept_check_ok now l r algorithm a x : pairs_ok a -> addr_ok r -> attribute m PRIORITY = Some x ->
  exists a', configuration a' = configuration a /\ last_authenticated a' = Some now /\ pairs_ok a' /\
    ((accept_check now l r m algorithm a = (a', Err CandidatePairLimit) /\ state a' = state a /\ pairs a' = pairs a /\
        selected_pair a' = selected_pair a /\ ((l, r) ∉ pair_key <$> pairs a) /\ max_candidate_pairs (configuration a) <= len (pairs a)) \/
     (exists out resp q, accept_check now l r m algorithm a = (a', Ok out) /\
        replies a m algorithm l r SuccessResponse out resp /\ xor_mapped_address resp = Ok (Some (socket_new (ip r) (port r))) /\
        state a' = completed_if a' /\ (exists es, events out = es ++ changed (state a) (state a') /\ selection (l, r) a a' es) /\
        (use_candidate m = true -> selected_pair a' = Some q) /\ (is_Some (selected_pair a') <-> is_Some (selected_pair a) \/ use_candidate m = true) /\
        q ∈ pairs a' /\ pair_key q = (l, r) /\ pair_priority q = from_be_bytes (value x) /\ pair_authenticated q = now)).
Proof.
  intros Hok Hr Hx. unfold accept_check.
  rewrite (prog_step _ _ a a (Some (from_be_bytes (value x)))) by (unfold lift; by rewrite (priority_Ok input m Hin Hparse), Hx).
  rewrite (prog_step _ _ a a (from_be_bytes (value x))) by done. cbv zeta.
  destruct (record_ok now l r (from_be_bytes (value x)) (use_candidate m) a Hok) as (a1 & E1 & E2 & E3 & Hok1 & Hrec).
  destruct Hrec as [(Hrec & Hp & Hs & Hnew & Hlim)|(es & q & Hrec & Hes & Hnom & Hq & Hqk & Hqp & Hqa & Hsel)].
  { exists a1. split_and!; try done. left. split_and!; try done. by apply prog_fails. }
  rewrite (prog_step _ _ _ _ _ Hrec), (prog_step _ _ a1 a1 a1) by done.
  destruct (success_answer input m Hin Hparse a1 algorithm r Hr) as (pl & resp & Hsucc & Hresp & Hxor).
  rewrite (prog_step _ _ a1 a1 pl) by (unfold lift; by rewrite Hsucc).
  assert ((if use_candidate m || bool_decide (is_Some (selected_pair a1)) then Completed else Connected) = completed_if a1) as Htarget.
  { unfold completed_if. destruct (use_candidate m); [|done]. rewrite bool_decide_eq_true_2; [done|]. apply Hsel. by right. }
  unfold transition_after_check. rewrite Htarget. destruct (transition_cases (completed_if a1) a1) as (a' & e & Ht & Hst & F1 & F2 & F3 & F4 & Hev).
  rewrite Ht. exists a'. rewrite F1, F4, E1. split_and!; try done.
  { destruct Hok1 as [O1 O2 O3 O4]. split; rewrite ?F1, ?F2, ?F3; done. }
  right. eexists _, resp, q. split; [done|]. destruct Hresp as (P1 & P2 & P3 & _ & P5 & P6). unfold key_of in P5. rewrite E1 in P5.
  split_and!; try done; cbn [events].
  - unfold completed_if. by rewrite Hst, F3.
  - exists es. rewrite Hev, E2, Hst. split; [done|]. unfold selection. by rewrite F3.
  - by rewrite F3.
  - by rewrite F3, <- Hsel.
  - by rewrite F2.
Qed.
End Accept.

(** ** Reachable agents

    [reachable t a]: the calls so far left [a] behind, the last one at time [t] of a clock that does not run
    backwards. *)
Inductive reachable : Z -> Agent -> Prop :=
| reach_new t c : config_ok c -> reachable t (new c)
| reach_datagram t a now l r input : reachable t a -> t <= now -> rust_slice input -> addr_ok r ->
    reachable now (handle_datagram now l r input a).1
| reach_tick t a now : reachable t a -> t <= now -> reachable now (tick now a).1
| reach_restart t a c : reachable t a -> config_ok c -> reachable t (restart c a).

Lemma pairs_ok_same a a' : configuration a' = configuration a -> pairs a' = pairs a -> selected_pair a' = selected_pair a ->
  pairs_ok a -> pairs_ok a'.
Proof. intros E1 E2 E3 [O1 O2 O3 O4]. split; rewrite ?E1, ?E2, ?E3; done. Qed.

Lemma agent_ok_later t now a : agent_ok t a -> t <= now -> agent_ok now a.
Proof.
  intros [O1 O2 O3 O4 O5] Hle. split; try done.
  - destruct (state a); try done. destruct O3 as (s & Hs & H). exists s. split; [done|lia].
  - intros s Hs. specialize (O4 s Hs). lia.
Qed.

(** Transitions of the state that a call can make. *)
Inductive legal : IceState -> IceState -> Prop :=
| legal_same s : legal s s
| legal_first s : s = New \/ s = Disconnected -> legal s Connected
| legal_nominated s : s = New \/ s = Connected \/ s = Disconnected -> legal s Completed
| legal_consent s : s <> Failed -> legal s Disconnected
| legal_failure s : legal s Failed.

Lemma ice_tick_ok t now a : agent_ok t a -> t <= now ->
  exists a', tick now a = (a', changed (state a) (state a')) /\ agent_ok now a' /\ legal (state a) (state a') /\ selected_pair a' = selected_pair a.
Proof.
  intros Hok Hle. pose proof (agent_ok_later _ _ _ Hok Hle) as Hok'. unfold tick.
  assert (changed (state a) (state a) = []) as Hnil by (unfold changed; by rewrite bool_decide_eq_true_2).
  destruct (last_authenticated a) as [s|] eqn:Hs; [|exists a; rewrite Hnil; split_and!; try done; constructor].
  pose proof (ok_clock _ _ Hok s Hs) as Hst. unfold saturating_sub. rewrite Z.max_r by lia.
  destruct Hok' as [O1 O2 O3 O4 O5].
  destruct (Z.leb_spec (failure_timeout (configuration a)) (now - s)).
  - destruct (transition_cases Failed a) as (a' & e & -> & Hst' & F1 & F2 & F3 & F4 & Hev). exists a'.
    rewrite Hev, Hst'. split_and!; [done| |constructor|done].
    split; rewrite ?F1, ?F2, ?F4, ?Hst'; try done; [by eapply pairs_ok_same|by exists s].
  - destruct (Z.leb_spec (consent_timeout (configuration a)) (now - s)); [|exists a; rewrite Hnil; split_and!; try done; constructor].
    destruct (transition_cases Disconnected a) as (a' & e & -> & Hst' & F1 & F2 & F3 & F4 & Hev). exists a'.
    rewrite Hev, Hst'. split_and!; [done| |constructor|done].
    + split; rewrite ?F1, ?F2, ?F4, ?Hst'; try done. by eapply pairs_ok_same.
    + intros Hf. rewrite Hf in O3. destruct O3 as (s' & Hs' & Hlong). rewrite Hs in Hs'. injection Hs' as <-. lia.
Qed.

(** How the answer to an authenticated request is chosen. *)
Definition answered (a : Agent) (m : Message) (algorithm : IntegrityAlgorithm) (now : Z) (l r : SocketAddr)
    (a' : Agent) (result : outcome IceError HandleOutput) : Prop :=
  if negb (bool_decide (unknown_required_attributes m = [])) then
    a' = a /\ exists out resp, result = Ok out /\ events out = [] /\ replies a m algorithm l r ErrorResponse out resp /\
      error_code resp = Ok (Some {| code := 420; reason := UNKNOWN_ATTRIBUTE_REASON |}) /\
      unknown_attributes resp = Ok (dedup (sort_unstable (unknown_required_attributes m)))
  else if role_conflict m then
    a' = a /\ exists out resp, result = Ok out /\ events out = [] /\ replies a m algorithm l r ErrorResponse out resp /\
      error_code resp = Ok (Some {| code := 487; reason := ROLE_CONFLICT_REASON |}) /\
      ice_controlled resp = Ok (Some (tie_breaker (configuration a)))
  else match attribute m PRIORITY with
  | None =>
      a' = a /\ exists out resp, result = Ok out /\ events out = [] /\ replies a m algorithm l r ErrorResponse out resp /\
        error_code resp = Ok (Some {| code := 400; reason := BAD_REQUEST_REASON |})
  | Some x =>
      last_authenticated a' = Some now /\
      ((result = Err CandidatePairLimit /\ pairs a' = pairs a /\ state a' = state a /\ selected_pair a' = selected_pair a /\
        ((l, r) ∉ pair_key <$> pairs a) /\ max_candidate_pairs (configuration a) <= len (pairs a)) \/
       (exists out resp q, result = Ok out /\ replies a m algorithm l r SuccessResponse out resp /\
        xor_mapped_address resp = Ok (Some (socket_new (ip r) (port r))) /\
        state a' = completed_if a' /\ (exists es, events out = es ++ changed (state a) (state a') /\ selection (l, r) a a' es) /\
        (use_candidate m = true -> selected_pair a' = Some q) /\
        (is_Some (selected_pair a') <-> is_Some (selected_pair a) \/ use_candidate m = true) /\
        q ∈ pairs a' /\ pair_key q = (l, r) /\ pair_priority q = from_be_bytes (value x) /\ pair_authenticated q = now))
  end.

Definition result_events (result : outcome IceError HandleOutput) : list Event :=
  match result with Ok out => events out | _ => [] end.

Lemma respond_ok t now l r input m algorithm a : agent_ok t a -> t <= now -> rust_slice input -> addr_ok r ->
  authentic a input m algorithm ->
  exists a' result, respond_to now l r m algorithm a = (a', result) /\ returns result /\ agent_ok now a' /\
    legal (state a) (state a') /\ state_events (result_events result) = changed (state a) (state a') /\
    answered a m algorithm now l r a' result.
Proof.
  intros Hok Hle Hin Hr (Hnf & Hparse & _ & _). pose proof (agent_ok_later _ _ _ Hok Hle) as Hok'.
  assert (changed (state a) (state a) = []) as Hnil by (unfold changed; by rewrite bool_decide_eq_true_2).
  unfold respond_to, answered. destruct (decide (unknown_required_attributes m = [])) as [Hu|Hu].
  2:{ destruct (unknown_answer input m Hin Hparse a algorithm l r Hu) as (out & resp & -> & He & Hrest).
      exists a, (Ok out). rewrite bool_decide_eq_false_2 by done. cbn. rewrite He, Hnil. split_and!; try done; [constructor|by exists out, resp]. }
  rewrite bool_decide_eq_true_2 by done. cbn [negb]. destruct (role_conflict m) eqn:Hrole.
  { destruct (conflict_answer input m Hin Hparse a algorithm l r ltac:(apply Hok) Hu Hrole) as (out & resp & -> & He & Hrest).
    exists a, (Ok out). cbn. rewrite He, Hnil. split_and!; try done; [constructor|by exists out, resp]. }
  destruct (attribute m PRIORITY) as [x|] eqn:Hx.
  2:{ destruct (no_priority_answer input m Hin Hparse a algorithm l r Hu Hrole Hx) as (out & resp & -> & He & Hrest).
      exists a, (Ok out). cbn. rewrite He, Hnil. split_and!; try done; [constructor|by exists out, resp]. }
  rewrite (no_semantic_error input m Hin Hparse a algorithm l r x Hu Hrole Hx).
  destruct (accept_check_ok input m Hin Hparse now l r algorithm a x (ok_pairs _ _ Hok) Hr Hx) as (a' & E1 & E2 & Hpok & Hcase).
  destruct Hok' as [O1 O2 O3 O4 O5].
  destruct Hcase as [(-> & Es & Ep & Esel & Hnew & Hlim)|(out & resp & q & -> & Hrep & Hxor & Est & Hev & Hnom & Hsel & Hq & Hqk & Hqp & Hqa)].
  - exists a', (Err CandidatePairLimit). split; [done|]. split; [done|]. cbn. rewrite Es, Hnil. split_and!; try done; [|constructor|by left].
    split; rewrite ?E1, ?E2, ?Es, ?Ep, ?Esel; try done; [by destruct (state a)|by intros s [= <-]].
  - exists a', (Ok out). split; [done|]. split; [done|]. cbn. split_and!; try done; [| | |right; by exists out, resp, q].
    + split; rewrite ?E1, ?E2, ?Est; try done; [|by intros s [= <-]]. unfold completed_if. case_bool_decide as Hs; [done|].
      split; [by destruct (selected_pair a'); [contradict Hs|]|]. intros Hnone. rewrite Hnone in Hq. by apply not_elem_of_nil in Hq.
    + rewrite Est. unfold completed_if. case_bool_decide as Hs.
      * destruct (state a) eqn:Esa; [constructor; auto|constructor; auto|constructor|constructor; auto|done].
      * assert (~ is_Some (selected_pair a)) as Hnot by (intros H; apply Hs, Hsel; by left).
        destruct (state a) eqn:Esa; [constructor; auto|constructor|done|constructor; auto|done].
    + destruct Hev as (es & -> & Hes). unfold state_events. rewrite filter_app. fold (state_events es) (state_events (changed (state a) (state a'))).
      by rewrite (selected_events _ _ _ _ Hes), changed_events.
Qed.

Lemma reachable_agent_ok t a : reachable t a -> agent_ok t a.
Proof.
  induction 1 as [t c Hc|t a now l r input Hr IH Hle Hin Hr'|t a now Hr IH Hle|t a c Hr IH Hc].
  - by apply new_agent_ok.
  - destruct (handle_cases now l r input a Hin) as [(m & algorithm & Ha)|[e ->]]; [|by eapply agent_ok_later].
    rewrite (handle_authentic _ _ _ _ _ _ _ Ha).
    destruct (respond_ok t now l r input m algorithm a IH Hle Hin Hr' Ha) as (a' & result & -> & _ & Hok & _). done.
  - destruct (ice_tick_ok t now a IH Hle) as (a' & -> & Hok & _). done.
  - by apply new_agent_ok.
Qed.

(** What authentication has checked. *)
Lemma authenticate_Ok a m algorithm : authenticate a m = Ok algorithm ->
  username m = Ok (Some (expected_username (configuration a))) /\ verified_by algorithm m (key_of a) /\
  (attribute m MESSAGE_INTEGRITY_SHA256 = None <-> algorithm = AlgSha1) /\
  (attribute m FINGERPRINT = None \/ verify_fingerprint m = Ok tt).
Proof.
  unfold authenticate. intros H. apply bind_Ok in H as (u & Hu%map_err_Ok & H). apply bind_Ok in H as ([] & Hn%reject_if_Ok & H).
  apply negb_false_iff, bool_decide_eq_true in Hn as ->. apply bind_Ok in H as (alg & Halg & H).
  apply bind_Ok in H as ([] & Hf & [= ->]). split; [done|].
  assert (attribute m FINGERPRINT = None \/ verify_fingerprint m = Ok tt) as Hfp.
  { clear Halg. case_bool_decide as Hs; [right; by apply map_err_Ok in Hf|left]. by destruct (attribute m FINGERPRINT); [contradict Hs|]. }
  clear Hf. case_bool_decide as Hs; apply bind_Ok in Halg as ([] & Hv%map_err_Ok & [= <-]).
  - split_and!; [done| |done]. split; [by intros Hnone; rewrite Hnone in Hs; destruct Hs|done].
  - split_and!; [done| |done]. split; [done|]. intros _. by destruct (attribute m MESSAGE_INTEGRITY_SHA256); [contradict Hs|].
Qed.

Lemma validate_Ok m : validate_message_type m = Ok tt -> kind m = MessageType.new Method.BINDING Request.
Proof.
  unfold validate_message_type. case_match eqn:E; [|done]. intros _. apply andb_true_iff in E as [E1%bool_decide_eq_true E2%bool_decide_eq_true].
  destruct (kind m) as [me cl]. cbn in *. by subst.
Qed.

(** C35: an agent sends a datagram or changes its state only for a Binding request that carries
    the user name of this generation and a message integrity attribute that verifies under the local
    password (the SHA-256 one when there is one), with a correct fingerprint if it has any, while the
    generation has not failed.  Whatever else arrives is refused with an error, nothing is sent and the
    agent stays as it was. *)
Theorem ice_unauthenticated_ignored a now l r input a' result :
  rust_slice input -> handle_datagram now l r input a = (a', result) ->
  (a' = a /\ exists e, result = Err e) \/
  exists m algorithm, state a <> Failed /\ parse input = Ok m /\ kind m = MessageType.new Method.BINDING Request /\
    username m = Ok (Some (expected_username (configuration a))) /\ verified_by algorithm m (key_of a) /\
    (attribute m MESSAGE_INTEGRITY_SHA256 = None <-> algorithm = AlgSha1) /\
    (attribute m FINGERPRINT = None \/ verify_fingerprint m = Ok tt).
Proof.
  intros Hin H. destruct (handle_cases now l r input a Hin) as [(m & algorithm & Ha)|[e He]].
  - right. destruct Ha as (Hs & Hp & Hv & Ha). exists m, algorithm. split; [done|]. split; [done|]. split; [by apply validate_Ok|]. by apply authenticate_Ok.
  - left. rewrite He in H. injection H as <- <-. eauto.
Qed.


(** in every reachable agent the candidate pairs are within the limit and have distinct
    addresses, the selected pair is one of them and was nominated, no pair is nominated while none is
    selected, the state agrees with them (new: no pair; connected: pairs but no selection; completed: a
    selection; failed: the failure timeout has passed since the last check). *)
Theorem ice_reachable_ok t a : reachable t a -> agent_ok t a.
Proof. apply reachable_agent_ok. Qed.

(** the calls of a reachable agent make only the documented transitions: connected and
    completed are entered by checks, completed is never left for connected, disconnected and failed are
    entered by the timers, and a failed generation stays failed until it is restarted; every transition is
    reported by exactly one event. *)
Theorem ice_state_machine t a now l r input :
  reachable t a -> t <= now -> rust_slice input -> addr_ok r ->
  (let '(a', result) := handle_datagram now l r input a in
   returns result /\ legal (state a) (state a') /\ state_events (result_events result) = changed (state a) (state a')) /\
  (let '(a', es) := tick now a in
   legal (state a) (state a') /\ state_events es = changed (state a) (state a')).
Proof.
  intros Hr Hle Hin Ha. pose proof (reachable_agent_ok _ _ Hr) as Hok. split.
  - destruct (handle_cases now l r input a Hin) as [(m & algorithm & Hauth)|[e ->]].
    + rewrite (handle_authentic _ _ _ _ _ _ _ Hauth).
      by destruct (respond_ok t now l r input m algorithm a Hok Hle Hin Ha Hauth) as (a' & result & -> & Hret & _ & Hl & He & _).
    + unfold changed. rewrite bool_decide_eq_true_2 by done. by split_and!; [|constructor|].
  - destruct (ice_tick_ok t now a Hok Hle) as (a' & -> & _ & Hl & _). by rewrite changed_events.
Qed.

(** ** Silence *)
Inductive silence (a : Agent) : Agent -> Prop :=
| silence_start : silence a a
| silence_tick b now : silence a b -> silence a (tick now b).1
| silence_noise b now l r input : silence a b -> rust_slice input -> (forall m algorithm, ~ authentic b input m algorithm) ->
    silence a (handle_datagram now l r input b).1.

Lemma tick_keeps now a : last_authenticated (tick now a).1 = last_authenticated a /\ configuration (tick now a).1 = configuration a.
Proof.
  unfold tick. destruct (last_authenticated a) as [s|] eqn:Hs; [|done].
  destruct (transition_cases Failed a) as (a1 & e1 & -> & _ & E1 & _ & _ & L1 & _).
  destruct (transition_cases Disconnected a) as (a2 & e2 & -> & _ & E2 & _ & _ & L2 & _).
  destruct (_ <=? _); [cbn; by rewrite L1, E1|]. destruct (_ <=? _); cbn; [by rewrite L2, E2|done].
Qed.

Lemma silence_keeps a b : silence a b -> last_authenticated b = last_authenticated a /\ configuration b = configuration a.
Proof.
  induction 1 as [|b now H [IH1 IH2]|b now l r input H [IH1 IH2] Hin Hno]; [done| |].
  - destruct (tick_keeps now b) as [E1 E2]. by rewrite E1, E2.
  - destruct (handle_cases now l r input b Hin) as [(m & algorithm & Ha)|[e He]]; [by destruct (Hno m algorithm)|]. by rewrite He.
Qed.

Lemma tick_consent now a s : last_authenticated a = Some s -> 0 <= consent_timeout (configuration a) ->
  s + consent_timeout (configuration a) <= now < s + failure_timeout (configuration a) -> state (tick now a).1 = Disconnected.
Proof.
  intros Hs Hc Hnow. unfold tick. rewrite Hs. unfold saturating_sub.
  replace (failure_timeout (configuration a) <=? Z.max 0 (now - s)) with false by lia.
  replace (consent_timeout (configuration a) <=? Z.max 0 (now - s)) with true by lia.
  by destruct (transition_cases Disconnected a) as (a' & e & -> & ? & _).
Qed.

End Agents.

(** ** A concrete generation: one check with USE-CANDIDATE *)
Definition example_credentials (c : Z) : Credentials := {| username_fragment := [c]; password := replicate 22 c |}.
Definition example_config : Configuration := ConfigurationNew.new (example_credentials 97) (example_credentials 98) 5.
Definition example_peer : SocketAddr := SocketAddrV4 0xc0000201 4000.
Definition example_local : SocketAddr := SocketAddrV4 0xc0000202 5000.

Definition example_request : MessageBuilder :=
  Builder.fingerprint (Builder.message_integrity_sha256 (replicate 22 97)
    (Builder.use_candidate (Builder.ice_controlling 9 (Builder.priority 7 (Builder.username [97; 58; 98]
      (Builder.new (MessageType.new Method.BINDING Request) [1; 2; 3; 4; 5; 6; 7; 8; 9; 10; 11; 12])))))).
Definition request_octets : bytes :=
  Eval vm_compute in match build (crypto:=example_stun_crypto) example_request with Ok b => b | _ => [] end.
Definition request_message : Message :=
  Eval vm_compute in match parse request_octets with Ok m => m
    | _ => {| raw := []; kind := MessageType.new 0 Request; transaction_id := []; attributes := [] |} end.
Definition example_agent : Agent :=
  Eval vm_compute in (handle_datagram (crypto:=example_stun_crypto) 10 example_local example_peer request_octets (new example_config)).1.

Lemma ice_config_example_ok : config_ok example_config.
Proof. split_and!; vm_compute; done. Qed.
Lemma request_slice : rust_slice request_octets.
Proof. apply rust_slice_check. vm_compute. reflexivity. Qed.
Lemma example_peer_ok : addr_ok example_peer.
Proof. split; split; vm_compute; done. Qed.

Lemma example_agent_reachable : reachable (crypto:=example_stun_crypto) 10 example_agent.
Proof.
  assert (example_agent = (handle_datagram (crypto:=example_stun_crypto) 10 example_local example_peer request_octets (new example_config)).1) as ->
    by (vm_compute; reflexivity).
  apply (reach_datagram 0); [apply reach_new, ice_config_example_ok|lia|exact request_slice|exact example_peer_ok].
Qed.

Lemma example_authentic : authentic (crypto:=example_stun_crypto) example_agent request_octets request_message AlgSha256.
Proof. split; [done|]. split_and!; vm_compute; reflexivity. Qed.

Lemma ice_unauthenticated_ignored_witness :
  (exists e, handle_datagram (crypto:=example_stun_crypto) 20 example_local example_peer [0; 1] example_agent = (example_agent, Err e)).
Proof.
  destruct (ice_unauthenticated_ignored (crypto:=example_stun_crypto) example_agent 20 example_local example_peer [0; 1]
    example_agent (Err (Stun (MessageTooShort 2)))) as [(_ & e & He)|(m & alg & _ & Hp & _)].
  - apply rust_slice_check. vm_compute. reflexivity.
  - vm_compute. reflexivity.
  - exists e. rewrite <- He. vm_compute. reflexivity.
  - vm_compute in Hp. discriminate Hp.
Defined.


Lemma ice_reachable_ok_witness : agent_ok 10 example_agent.
Proof. exact (ice_reachable_ok (crypto:=example_stun_crypto) 10 example_agent example_agent_reachable). Defined.

Lemma ice_state_machine_witness : legal (state example_agent) (state (tick 100 example_agent).1).
Proof.
  destruct (ice_state_machine (crypto:=example_stun_crypto) 10 example_agent 100 example_local example_peer request_octets
    example_agent_reachable ltac:(lia) request_slice example_peer_ok) as [_ H].
  destruct (tick 100 example_agent) as [a' es]. exact (proj1 H).
Defined.

