(* ===== verification/RtcSession.v ===== *)
(** * webrtc/rtc-session: the composite transport session (src/lib.rs)

    One ICE generation, the selected tuple and the SRTP context.  A session routes each datagram to
    ICE, to the DTLS backend or through SRTP; its methods call the agent of [IceLite], the classifier of
    [Datagram], the context of [Srtp] and the parsers of [RtpPacket] and [Rtcp]. *)
From S2P Require Import Prelude Words Slices RustStd.
From S2P Require RtpExtension RtpPacket RtcpModel Rtcp Replay Srtp Datagram DtlsAdapter Stun IceLite.

Inductive SessionState := New | DtlsHandshaking | Connected | Disconnected | Failed | Closed.
#[export] Instance SessionState_eq_dec : EqDecision SessionState.
Proof. solve_decision. Defined.

Record Transmit := { source : SocketAddr; destination : SocketAddr; payload : bytes }.

Module SessionAction.
Inductive t :=
| Transmit (transmit : RtcSession.Transmit)
| DtlsInput (record : bytes)
| InboundRtp (packet : bytes)
| InboundRtcp (octets : bytes) (packets : list RtcpModel.Packet)
| StateChanged (from to : SessionState).
End SessionAction.

Module SessionError.
Inductive t :=
| Ice (error : IceLite.IceError)
| Srtp (error : Replay.SrtpError)
| Rtp (error : RtpExtension.RtpError)
| Rtcp (error : RtcpModel.RtcpError)
| UnexpectedDatagram (kind : Datagram.DatagramKind)
| TupleMismatch
| SrtpNotReady
| NoSelectedPair
| InvalidState (state : SessionState)
| Closed.
End SessionError.

Record Session := {
  ice : IceLite.Agent;
  state : SessionState;
  selected_local : option SocketAddr;
  selected_remote : option SocketAddr;
  srtp : option Srtp.SrtpContext }.

Definition set_ice (a : IceLite.Agent) (s : Session) : Session :=
  {| ice := a; state := state s; selected_local := selected_local s; selected_remote := selected_remote s; srtp := srtp s |}.
Definition set_state (st : SessionState) (s : Session) : Session :=
  {| ice := ice s; state := st; selected_local := selected_local s; selected_remote := selected_remote s; srtp := srtp s |}.
Definition set_selected (l r : option SocketAddr) (s : Session) : Session :=
  {| ice := ice s; state := state s; selected_local := l; selected_remote := r; srtp := srtp s |}.
Definition set_srtp (c : option Srtp.SrtpContext) (s : Session) : Session :=
  {| ice := ice s; state := state s; selected_local := selected_local s; selected_remote := selected_remote s; srtp := c |}.

Definition new (ice : IceLite.Agent) : Session :=
  {| ice := ice; state := New; selected_local := None; selected_remote := None; srtp := None |}.

(** [Option::into_iter().collect()] *)
Definition collect (a : option SessionAction.t) : list SessionAction.t := match a with Some a => [a] | None => [] end.

Definition transition (target : SessionState) (self : Session) : Session * option SessionAction.t :=
  if bool_decide (target = state self) then (self, None)
  else (set_state target self, Some (SessionAction.StateChanged (state self) target)).

(** The target of the state change reported by ICE. *)
Definition ice_target (self : Session) (to : IceLite.IceState) : SessionState :=
  match to with
  | IceLite.New => New
  | IceLite.Completed =>
      if bool_decide (state self = New \/ state self = Disconnected) then
        if bool_decide (is_Some (srtp self)) then Connected else DtlsHandshaking
      else state self
  | IceLite.Connected => state self
  | IceLite.Disconnected => Disconnected
  | IceLite.Failed => Failed
  end.

Definition apply_ice_event (self_actions : Session * list SessionAction.t) (event : IceLite.Event)
    : Session * list SessionAction.t :=
  let '(self, actions) := self_actions in
  match event with
  | IceLite.SelectedPair pair_ => (set_selected (Some (IceLite.local pair_)) (Some (IceLite.remote pair_)) self, actions)
  | IceLite.StateChanged _ to =>
      let '(self, action) := transition (ice_target self to) self in (self, actions ++ collect action)
  end.

Definition require_selected_tuple (self : Session) (local remote : SocketAddr) : outcome SessionError.t unit :=
  if bool_decide (selected_local self = Some local) && bool_decide (selected_remote self = Some remote)
  then Ok tt else Err SessionError.TupleMismatch.

Definition selected_transmit (self : Session) (payload : bytes) : outcome SessionError.t Transmit :=
  source ← ok_or (selected_local self) SessionError.NoSelectedPair;
  destination ← ok_or (selected_remote self) SessionError.NoSelectedPair;
  Ok {| source := source; destination := destination; payload := payload |}.

Definition map_ice_transmit (transmit : IceLite.Transmit) : Transmit :=
  {| source := IceLite.source transmit; destination := IceLite.destination transmit; payload := IceLite.payload transmit |}.

Definition tick (now : Z) (self : Session) : Session * list SessionAction.t :=
  let '(agent, events) := IceLite.tick now (ice self) in
  foldl apply_ice_event (set_ice agent self, []) events.

Definition close (self : Session) : Session * list SessionAction.t :=
  let '(self, action) := transition Closed (set_srtp None self) in (self, collect action).

Definition restart_ice (configuration : IceLite.Configuration) (self : Session) : Session :=
  set_state New (set_selected None None (set_ice (IceLite.restart configuration (ice self)) self)).

Definition transmit_dtls (self : Session) (payload : bytes) : outcome SessionError.t Transmit :=
  selected_transmit self payload.

(** [self.srtp.as_mut().ok_or(SessionError::SrtpNotReady)?] and a call of the context. *)
Definition with_srtp {A} (m : prog Srtp.SrtpContext Replay.SrtpError A) : prog Session SessionError.t A := fun self =>
  match srtp self with
  | None => (self, Err SessionError.SrtpNotReady)
  | Some context =>
      let '(context, r) := m context in (set_srtp (Some context) self, map_err SessionError.Srtp r)
  end.

(** The context encrypts the caller's vector in place; the vector is then moved into the datagram. *)
Definition in_place (m : prog (Srtp.SrtpContext * bytes) Replay.SrtpError unit) (packet : bytes)
    : prog Srtp.SrtpContext Replay.SrtpError bytes := fun context =>
  let '((context, packet), r) := m (context, packet) in (context, (fun _ => packet) <$> r).

Section Session.
Context {stun_crypto : Stun.StunCrypto} {srtp_crypto : Srtp.SrtpCrypto}.

Definition handle_stun (now : Z) (local remote : SocketAddr) (input : bytes)
    : prog Session SessionError.t (list SessionAction.t) := fun self =>
  let '(agent, r) := IceLite.handle_datagram now local remote input (ice self) in
  let self := set_ice agent self in
  match r with
  | Ok output =>
      let actions := [SessionAction.Transmit (map_ice_transmit (IceLite.transmit output))] in
      let '(self, actions) := foldl apply_ice_event (self, actions) (IceLite.events output) in
      (self, Ok actions)
  | Err e => (self, Err (SessionError.Ice e))
  | Panic => (self, Panic)
  | Diverge => (self, Diverge)
  end.

Definition handle_datagram (now : Z) (local remote : SocketAddr) (input : bytes)
    : prog Session SessionError.t (list SessionAction.t) :=
  self ← gets id;
  _ ← lift (reject_if (bool_decide (state self = Closed)) SessionError.Closed);
  kind ← lift (Datagram.classify input);
  match kind with
  | Datagram.Stun => handle_stun now local remote input
  | Datagram.Dtls =>
      _ ← lift (require_selected_tuple self local remote);
      _ ← lift (reject_if (negb (bool_decide (state self = DtlsHandshaking \/ state self = Connected)))
            (SessionError.UnexpectedDatagram Datagram.Dtls));
      mret [SessionAction.DtlsInput input]
  | Datagram.Rtp =>
      _ ← lift (require_selected_tuple self local remote);
      plaintext ← with_srtp (Srtp.unprotect_rtp input);
      _ ← lift (map_err SessionError.Rtp (RtpPacket.parse plaintext));
      mret [SessionAction.InboundRtp plaintext]
  | Datagram.Rtcp =>
      _ ← lift (require_selected_tuple self local remote);
      plaintext ← with_srtp (Srtp.unprotect_rtcp input);
      packets ← lift (map_err SessionError.Rtcp (Rtcp.parse_compound plaintext));
      mret [SessionAction.InboundRtcp plaintext packets]
  | kind => fail (SessionError.UnexpectedDatagram kind)
  end.

Definition install_dtls_keying_material (keying : DtlsAdapter.DirectionalKeyingMaterial)
    : prog Session SessionError.t (list SessionAction.t) := fun self =>
  if negb (bool_decide (state self = DtlsHandshaking)) then (self, Err (SessionError.InvalidState (state self)))
  else
    let self := set_srtp (Some (Srtp.new (DtlsAdapter.keying_profile keying) (DtlsAdapter.outbound keying)
      (DtlsAdapter.inbound keying))) self in
    let '(self, action) := transition Connected self in (self, Ok (collect action)).

Definition protect_rtp (packet : bytes) : prog Session SessionError.t Transmit :=
  packet ← with_srtp (in_place Srtp.protect_rtp packet);
  self ← gets id;
  lift (selected_transmit self packet).

Definition protect_rtcp (packet : bytes) : prog Session SessionError.t Transmit :=
  packet ← with_srtp (in_place Srtp.protect_rtcp packet);
  self ← gets id;
  lift (selected_transmit self packet).
End Session.
