(* ===== verification/RtcSessionSafety.v ===== *)
(** * webrtc/rtc-session: what a session lets through

    The selected tuple and the state of a session follow its ICE agent, its keys follow its state, and
    a datagram reaches the application only from the nominated pair and through SRTP. *)
From S2P Require Import Prelude Words Slices RustStd RtcSession RustStr.
From S2P Require RtpExtension RtpPacket RtpRewrite RtcpModel Rtcp Replay Srtp Datagram DtlsAdapter Stun StunCodec StunSafety IceLite IceResponse IceSafety.

Import (hints) IceLite.

(** ** Events of the agent *)
Definition moved (st st' : SessionState) : list SessionAction.t :=
  if bool_decide (st = st') then [] else [SessionAction.StateChanged st st'].

Lemma set_state_same s : set_state (state s) s = s.
Proof. by destruct s. Qed.

Lemma transition_spec target s :
  exists action, transition target s = (set_state target s, action) /\ collect action = moved (state s) target.
Proof.
  unfold transition, moved. case_bool_decide as H.
  - exists None. by rewrite H, set_state_same, bool_decide_eq_true_2.
  - eexists. split; [done|]. by rewrite bool_decide_eq_false_2 by congruence.
Qed.

(** The session once the agent has become [a'] and its events have been applied. *)
Definition after_ice (a' : IceLite.Agent) (s : Session) : Session :=
  {| ice := a';
     state := if bool_decide (IceLite.state (ice s) = IceLite.state a') then state s else ice_target s (IceLite.state a');
     selected_local := IceLite.local <$> IceLite.selected_pair a';
     selected_remote := IceLite.remote <$> IceLite.selected_pair a';
     srtp := srtp s |}.

(** The tuple of the session is the agent's selected pair. *)
Definition tuple_agrees (s : Session) : Prop :=
  selected_local s = IceLite.local <$> IceLite.selected_pair (ice s) /\
  selected_remote s = IceLite.remote <$> IceLite.selected_pair (ice s).

Lemma follow_selection s acts key a' es : tuple_agrees s -> IceSafety.selection key (ice s) a' es ->
  foldl apply_ice_event (set_ice a' s, acts) es =
    (set_selected (IceLite.local <$> IceLite.selected_pair a') (IceLite.remote <$> IceLite.selected_pair a') (set_ice a' s), acts).
Proof.
  intros [H1 H2] [[-> Hs]|(p & -> & Hs & _)]; cbn; rewrite Hs; [|done].
  unfold set_selected, set_ice. cbn. by rewrite <- H1, <- H2.
Qed.

Lemma follow_events s acts key a' es : tuple_agrees s -> IceSafety.selection key (ice s) a' es ->
  foldl apply_ice_event (set_ice a' s, acts) (es ++ IceSafety.changed (IceLite.state (ice s)) (IceLite.state a')) =
    (after_ice a' s, acts ++ moved (state s) (state (after_ice a' s))).
Proof.
  intros Ht Hs. rewrite foldl_app, (follow_selection s acts key a' es Ht Hs). unfold IceSafety.changed, after_ice. cbn [state].
  case_bool_decide as E; cbn [foldl].
  - unfold moved. by rewrite bool_decide_eq_true_2, app_nil_r.
  - cbn [apply_ice_event].
    set (s1 := set_selected _ _ _). destruct (transition_spec (ice_target s1 (IceLite.state a')) s1) as (action & -> & ->). done.
Qed.

Lemma unchanged_ice s a' : tuple_agrees s -> IceLite.state a' = IceLite.state (ice s) ->
  IceLite.selected_pair a' = IceLite.selected_pair (ice s) -> after_ice a' s = set_ice a' s.
Proof.
  intros [H1 H2] E1 E2. unfold after_ice, set_ice. rewrite E1, E2, bool_decide_eq_true_2 by done. by rewrite <- H1, <- H2.
Qed.

(** ** The invariant *)
Record session_ok (t : Z) (s : Session) : Prop := {
  ok_agent : IceSafety.agent_ok t (ice s);
  ok_tuple : tuple_agrees s;
  ok_phase : match state s with
    | New => IceLite.state (ice s) = IceLite.New \/ IceLite.state (ice s) = IceLite.Connected
    | DtlsHandshaking => IceLite.state (ice s) = IceLite.Completed /\ srtp s = None
    | Connected => IceLite.state (ice s) = IceLite.Completed /\ is_Some (srtp s)
    | Disconnected => IceLite.state (ice s) = IceLite.Disconnected \/ IceLite.state (ice s) = IceLite.Connected
    | Failed => IceLite.state (ice s) = IceLite.Failed
    | Closed => True
    end }.

Lemma target_phase s b : ice_target s b =
  match b with
  | IceLite.New => New
  | IceLite.Connected => state s
  | IceLite.Completed => match state s with
      | New | Disconnected => match srtp s with Some _ => Connected | None => DtlsHandshaking end
      | st => st end
  | IceLite.Disconnected => Disconnected
  | IceLite.Failed => Failed
  end.
Proof.
  unfold ice_target. destruct b; try done. destruct (state s); cbn;
    try (rewrite bool_decide_eq_true_2 by auto; by destruct (srtp s)); by rewrite bool_decide_eq_false_2 by (intros []; done).
Qed.

Lemma after_ice_ok t now s a' : session_ok t s -> IceSafety.agent_ok now a' ->
  IceSafety.legal (IceLite.state (ice s)) (IceLite.state a') -> session_ok now (after_ice a' s).
Proof.
  intros [_ _ Hp] Ha Hl. split; [done|done|]. unfold after_ice. cbn [state ice srtp].
  case_bool_decide as E; [by rewrite <- E|]. rewrite target_phase. destruct Hl as [st|st H|st H|st H|st]; [done|..].
  - destruct H as [->| ->]; destruct (state s); naive_solver.
  - destruct (srtp s), (state s); naive_solver.
  - by left.
  - done.
Qed.

Section Sessions.
Context {stun_crypto : Stun.StunCrypto} {srtp_crypto : Srtp.SrtpCrypto}.

(** ** ICE as the session sees it *)
Definition ice_accepts (a : IceLite.Agent) (input : bytes) : Prop := exists m algorithm, IceSafety.authentic a input m algorithm.

Lemma ice_handled t now l r input a : IceSafety.agent_ok t a -> t <= now -> rust_slice input -> addr_ok r ->
  exists a' result, IceLite.handle_datagram now l r input a = (a', result) /\ returns result /\ IceSafety.agent_ok now a' /\
    IceSafety.legal (IceLite.state a) (IceLite.state a') /\
    match result with
    | Ok out => ice_accepts a input /\ IceLite.source (IceLite.transmit out) = l /\ IceLite.destination (IceLite.transmit out) = r /\
        exists es, IceLite.events out = es ++ IceSafety.changed (IceLite.state a) (IceLite.state a') /\ IceSafety.selection (l, r) a a' es
    | _ => IceLite.state a' = IceLite.state a /\ IceLite.selected_pair a' = IceLite.selected_pair a
    end.
Proof.
  intros Hok Hle Hin Hr. destruct (IceSafety.handle_cases now l r input a Hin) as [(m & alg & Ha)|[e ->]].
  2:{ exists a, (Err e). split_and!; try done; [by eapply IceSafety.agent_ok_later|constructor]. }
  rewrite (IceSafety.handle_authentic _ _ _ _ _ _ _ Ha).
  destruct (IceSafety.respond_ok t now l r input m alg a Hok Hle Hin Hr Ha) as (a' & result & -> & Hret & Hok' & Hl & _ & Hans).
  exists a', result. split_and!; try done. unfold IceSafety.answered in Hans.
  assert (forall out, a' = a -> IceLite.events out = [] -> exists es,
    IceLite.events out = es ++ IceSafety.changed (IceLite.state a) (IceLite.state a') /\ IceSafety.selection (l, r) a a' es) as Hsame.
  { intros out -> ->. exists []. unfold IceSafety.changed. rewrite bool_decide_eq_true_2 by done. split; [done|by left]. }
  destruct (negb _); [|destruct (IceResponse.role_conflict m); [|destruct (Stun.attribute m _) as [x|]]];
    try (destruct Hans as (E & out & resp & -> & He & (P1 & P2 & _) & _); split_and!; [by exists m, alg|done..|by apply Hsame]).
  destruct Hans as (_ & [(-> & _ & E1 & E2 & _)|(out & resp & q & -> & (P1 & P2 & _) & _ & _ & Hes & _)]); [done|].
  split_and!; [by exists m, alg|done..].
Qed.

Lemma handle_stun_spec t now l r input s : session_ok t s -> t <= now -> rust_slice input -> addr_ok r ->
  exists a' result, handle_stun now l r input s = (after_ice a' s, result) /\ returns result /\ session_ok now (after_ice a' s) /\
    match result with
    | Ok actions => ice_accepts (ice s) input /\ exists reply,
        actions = SessionAction.Transmit {| source := l; destination := r; payload := reply |} :: moved (state s) (state (after_ice a' s))
    | _ => after_ice a' s = set_ice a' s /\ IceLite.state a' = IceLite.state (ice s) /\ IceLite.selected_pair a' = IceLite.selected_pair (ice s)
    end.
Proof.
  intros Hok Hle Hin Hr. pose proof (ok_tuple _ _ Hok) as Ht.
  destruct (ice_handled t now l r input (ice s) (ok_agent _ _ Hok) Hle Hin Hr) as (a' & result & E & Hret & Hok' & Hl & Hres).
  pose proof (after_ice_ok t now s a' Hok Hok' Hl) as Hafter. unfold handle_stun. rewrite E.
  destruct result as [out|e| |]; [|destruct Hres as [E1 E2]|done|done].
  - destruct Hres as (Hacc & P1 & P2 & es & Hes & Hsel). rewrite Hes, (follow_events s _ _ a' es Ht Hsel).
    eexists a', _. split; [done|]. split_and!; [done..|]. exists (IceLite.payload (IceLite.transmit out)).
    cbn [app]. unfold map_ice_transmit. by rewrite P1, P2.
  - exists a', (Err (SessionError.Ice e)). rewrite (unchanged_ice s a' Ht E1 E2) in *. done.
Qed.
(** ** The calls of a session *)
Lemma with_srtp_spec {A} (m : prog Srtp.SrtpContext Replay.SrtpError A) s : with_srtp m s =
  match srtp s with
  | None => (s, Err SessionError.SrtpNotReady)
  | Some c => (set_srtp (Some (m c).1) s, map_err SessionError.Srtp (m c).2)
  end.
Proof. unfold with_srtp. destruct (srtp s) as [c|]; [|done]. by destruct (m c). Qed.

Lemma set_srtp_same c s : srtp s = Some c -> set_srtp (Some c) s = s.
Proof. intros E. destruct s. cbn in *. unfold set_srtp. cbn. by rewrite E. Qed.

Lemma require_selected_Ok s l r : require_selected_tuple s l r = Ok tt <-> selected_local s = Some l /\ selected_remote s = Some r.
Proof.
  unfold require_selected_tuple. repeat case_bool_decide; cbn; naive_solver.
Qed.

Lemma returns_require_selected s l r : returns (require_selected_tuple s l r).
Proof. unfold require_selected_tuple. by case_match. Qed.

(** The datagram came over the pair that the peer nominated in an authenticated check. *)
Definition from_nominated (s : Session) (l r : SocketAddr) : Prop :=
  exists p, IceLite.selected_pair (ice s) = Some p /\ IceLite.nominated p = true /\ IceSafety.pair_key p = (l, r).

Lemma selected_nominated t s l r : session_ok t s -> require_selected_tuple s l r = Ok tt -> from_nominated s l r.
Proof.
  intros Hok [H1 H2]%require_selected_Ok. destruct (ok_tuple _ _ Hok) as [E1 E2]. rewrite E1 in H1. rewrite E2 in H2.
  apply fmap_Some in H1 as (p & Hp & ->). rewrite Hp in H2. injection H2 as <-. exists p. split_and!; [done| |done].
  by apply (IceSafety.ok_selected _ (IceSafety.ok_pairs _ _ (ok_agent _ _ Hok))).
Qed.

(** What a session hands over for a datagram, and what it becomes. *)
Inductive delivered (s : Session) (l r : SocketAddr) (input : bytes) : Session -> list SessionAction.t -> Prop :=
| delivered_check a' reply : ice_accepts (ice s) input ->
    delivered s l r input (after_ice a' s)
      (SessionAction.Transmit {| source := l; destination := r; payload := reply |} :: moved (state s) (state (after_ice a' s)))
| delivered_dtls : from_nominated s l r -> state s = DtlsHandshaking \/ state s = Connected ->
    delivered s l r input s [SessionAction.DtlsInput input]
| delivered_rtp c c' packet p : from_nominated s l r -> srtp s = Some c ->
    Srtp.unprotect_rtp input c = (c', Ok packet) -> RtpPacket.parse packet = Ok p ->
    delivered s l r input (set_srtp (Some c') s) [SessionAction.InboundRtp packet]
| delivered_rtcp c c' packet packets : from_nominated s l r -> srtp s = Some c ->
    Srtp.unprotect_rtcp input c = (c', Ok packet) -> Rtcp.parse_compound packet = Ok packets ->
    delivered s l r input (set_srtp (Some c') s) [SessionAction.InboundRtcp packet packets].

(** A refused datagram: at most the agent has noted the time of the check. *)
Definition unmoved (s s' : Session) : Prop := s' = set_ice (ice s') s /\
  IceLite.state (ice s') = IceLite.state (ice s) /\ IceLite.selected_pair (ice s') = IceLite.selected_pair (ice s).

Lemma unmoved_refl s : unmoved s s.
Proof. by destruct s. Qed.

Definition gated (s : Session) (l r : SocketAddr) (input : bytes) (s' : Session) (result : outcome SessionError.t (list SessionAction.t)) : Prop :=
  match result with
  | Ok actions => state s <> Closed /\ delivered s l r input s' actions
  | Err _ => unmoved s s'
  | Panic | Diverge => False
  end.

Lemma protected_gated {A} t s l r input (m : prog Srtp.SrtpContext Replay.SrtpError bytes) (parse : bytes -> outcome SessionError.t A) action :
  session_ok t s -> state s <> Closed ->
  (forall c, returns (m c).2) -> (forall c c' x, m c = (c', x) -> (forall p, x <> Ok p) -> c' = c) ->
  (forall c c' packet, srtp s = Some c -> m c = (c', Ok packet) -> from_nominated s l r ->
     exists a, parse packet = Ok a /\ delivered s l r input (set_srtp (Some c') s) (action packet a)) ->
  let '(s', result) := (_ ← lift (require_selected_tuple s l r); plaintext ← with_srtp m; a ← lift (parse plaintext); mret (action plaintext a)) s in
  session_ok t s' /\ gated s l r input s' result.
Proof.
  intros Hok Hopen Hret Hsame Hdel. destruct (require_selected_tuple s l r) as [[]|e| |] eqn:Hreq;
    [|split; [done|apply unmoved_refl]|pose proof (returns_require_selected s l r) as H; by rewrite Hreq in H..].
  rewrite (prog_step _ _ s s tt) by done. unfold mbind at 1, prog_bind at 1. rewrite with_srtp_spec.
  destruct (srtp s) as [c|] eqn:Hc; [|split; [done|apply unmoved_refl]]. specialize (Hret c).
  destruct (m c) as [c' [packet|e| |]] eqn:Hm; cbn [fst snd map_err] in *; [|rewrite (Hsame c c' _ Hm) by done|done|done].
  - destruct (Hdel c c' packet eq_refl Hm (selected_nominated t s l r Hok Hreq)) as (a & Ha & Hd).
    unfold lift, mbind, prog_bind. rewrite Ha. cbn. split; [|done]. destruct Hok as [O1 O2 O3]. split; [done|done|].
    cbn. destruct (state s); naive_solver.
  - rewrite set_srtp_same by done. split; [done|apply unmoved_refl].
Qed.

Lemma handle_datagram_gated t now l r input s : session_ok t s -> t <= now -> rust_slice input -> addr_ok r ->
  let '(s', result) := handle_datagram now l r input s in session_ok now s' /\ gated s l r input s' result.
Proof.
  intros Hok Hle Hin Hr.
  assert (session_ok now s) as Hok' by (destruct Hok; split; [by eapply IceSafety.agent_ok_later|done..]).
  assert (forall e, session_ok now s /\ gated s l r input s (Err e)) as Hrefuse by (intros e; split; [done|apply unmoved_refl]).
  unfold handle_datagram. rewrite (prog_step _ _ s s s) by done. destruct (decide (state s = Closed)) as [Hc|Hopen].
  { unfold mbind at 1, prog_bind at 1, lift at 1. rewrite bool_decide_eq_true_2 by done. apply Hrefuse. }
  rewrite (prog_step _ _ s s tt) by (unfold lift; by rewrite bool_decide_eq_false_2).
  pose proof (Datagram.returns_classify (E:=SessionError.t) input) as Hrc.
  destruct (Datagram.classify input) as [kind|e| |] eqn:Hk; [|apply Hrefuse|done|done].
  rewrite (prog_step _ _ s s kind) by (unfold lift; by rewrite ?Hk). destruct kind; try apply Hrefuse.
  - destruct (handle_stun_spec t now l r input s Hok Hle Hin Hr) as (a' & result & -> & Hret & Hafter & Hres).
    split; [done|]. destruct result as [actions|e| |]; [|destruct Hres as (-> & E1 & E2); by split_and!|done|done].
    destruct Hres as (Hacc & reply & ->). split; [done|by constructor].
  - destruct (require_selected_tuple s l r) as [[]|e| |] eqn:Hreq; [|apply Hrefuse|by pose proof (returns_require_selected s l r) as H; rewrite Hreq in H..].
    rewrite (prog_step _ _ s s tt) by done. case_bool_decide as Hst; [|apply Hrefuse].
    split; [done|]. split; [done|]. constructor; [|done]. by eapply selected_nominated.
  - apply (protected_gated now s l r input (Srtp.unprotect_rtp input) (fun p => map_err SessionError.Rtp (RtpPacket.parse p))
      (fun p _ => [SessionAction.InboundRtp p])); try done.
    + apply Srtp.returns_unprotect_rtp.
    + intros c c' x. apply Srtp.unprotect_rtp_same.
    + intros c c' packet Hsc Hm Hn. destruct (Srtp.unprotect_rtp_parses _ _ _ _ Hm) as [p Hp]. exists p. rewrite Hp. split; [done|by eapply delivered_rtp].
  - apply (protected_gated now s l r input (Srtp.unprotect_rtcp input) (fun p => map_err SessionError.Rtcp (Rtcp.parse_compound p))
      (fun p ps => [SessionAction.InboundRtcp p ps])); try done.
    + intros c. by apply Srtp.returns_unprotect_rtcp.
    + intros c c' x. apply Srtp.unprotect_rtcp_same.
    + intros c c' packet Hsc Hm Hn. destruct (Srtp.unprotect_rtcp_parses _ _ _ _ Hm) as [p Hp]. exists p. rewrite Hp. split; [done|by eapply delivered_rtcp].
Qed.

Lemma tick_spec t now s : session_ok t s -> t <= now ->
  exists a', IceLite.tick now (ice s) = (a', IceSafety.changed (IceLite.state (ice s)) (IceLite.state a')) /\
    tick now s = (after_ice a' s, moved (state s) (state (after_ice a' s))) /\ session_ok now (after_ice a' s).
Proof.
  intros Hok Hle. destruct (IceSafety.ice_tick_ok t now (ice s) (ok_agent _ _ Hok) Hle) as (a' & E & Ha & Hl & Hs). exists a'. split; [done|].
  unfold tick. rewrite E. split; [|by eapply after_ice_ok].
  pose proof (follow_events s [] (SocketAddrV4 0 0, SocketAddrV4 0 0) a' [] (ok_tuple _ _ Hok)) as H. apply H. by left.
Qed.

Lemma set_srtp_ok t c c' s : session_ok t s -> srtp s = Some c -> session_ok t (set_srtp (Some c') s).
Proof. intros [O1 O2 O3] Hc. split; [done|done|]. cbn. destruct (state s); naive_solver. Qed.

Lemma with_srtp_ok {A} (m : prog Srtp.SrtpContext Replay.SrtpError A) t : preserves (session_ok t) (with_srtp m).
Proof.
  intros s Hok. rewrite with_srtp_spec. destruct (srtp s) as [c|] eqn:Hc; [|done]. by eapply set_srtp_ok.
Qed.

Lemma protect_rtp_keeps t packet : preserves (session_ok t) (protect_rtp packet).
Proof. apply preserves_bind; [apply with_srtp_ok|auto with preserves]. Qed.
Lemma protect_rtcp_keeps t packet : preserves (session_ok t) (protect_rtcp packet).
Proof. apply preserves_bind; [apply with_srtp_ok|auto with preserves]. Qed.

Lemma install_spec keying s : state s = DtlsHandshaking ->
  install_dtls_keying_material keying s = (set_state Connected (set_srtp (Some (Srtp.new (DtlsAdapter.keying_profile keying)
    (DtlsAdapter.outbound keying) (DtlsAdapter.inbound keying))) s), Ok [SessionAction.StateChanged DtlsHandshaking Connected]).
Proof.
  intros Hs. unfold install_dtls_keying_material. rewrite bool_decide_eq_true_2 by done. cbn [negb].
  unfold transition. cbn [state set_srtp]. rewrite Hs, bool_decide_eq_false_2 by done. done.
Qed.

Lemma install_keeps t keying : preserves (session_ok t) (install_dtls_keying_material keying).
Proof.
  intros s Hok. destruct (decide (state s = DtlsHandshaking)) as [Hs|Hs].
  - rewrite (install_spec keying s Hs). destruct Hok as [O1 O2 O3]. rewrite Hs in O3. split; [done|done|]. cbn. naive_solver.
  - unfold install_dtls_keying_material. by rewrite bool_decide_eq_false_2.
Qed.

Lemma close_spec s : close s = (set_state Closed (set_srtp None s), moved (state s) Closed).
Proof. unfold close. destruct (transition_spec Closed (set_srtp None s)) as (action & -> & ->). done. Qed.

(** ** Reachable sessions *)
Inductive session_reachable : Z -> Session -> Prop :=
| session_new t c : IceSafety.config_ok c -> session_reachable t (new (IceLite.new c))
| session_datagram t s now l r input : session_reachable t s -> t <= now -> rust_slice input -> addr_ok r ->
    session_reachable now (handle_datagram now l r input s).1
| session_tick t s now : session_reachable t s -> t <= now -> session_reachable now (tick now s).1
| session_install t s keying : session_reachable t s -> session_reachable t (install_dtls_keying_material keying s).1
| session_protect_rtp t s packet : session_reachable t s -> session_reachable t (protect_rtp packet s).1
| session_protect_rtcp t s packet : session_reachable t s -> session_reachable t (protect_rtcp packet s).1
| session_close t s : session_reachable t s -> session_reachable t (close s).1
| session_restart t s c : session_reachable t s -> IceSafety.config_ok c -> session_reachable t (restart_ice c s).

Lemma session_reachable_ok t s : session_reachable t s -> session_ok t s.
Proof.
  induction 1 as [t c Hc|t s now l r input _ IH Hle Hin Hr|t s now _ IH Hle|t s keying _ IH|t s packet _ IH|t s packet _ IH|t s _ IH|t s c _ IH Hc].
  - split; [by apply IceSafety.new_agent_ok|done|by left].
  - pose proof (handle_datagram_gated t now l r input s IH Hle Hin Hr) as H. destruct (handle_datagram _ _ _ _ _). apply H.
  - destruct (tick_spec t now s IH Hle) as (a' & _ & -> & H). exact H.
  - by apply install_keeps.
  - by apply protect_rtp_keeps.
  - by apply protect_rtcp_keeps.
  - rewrite close_spec. destruct IH as [O1 O2 O3]. by split.
  - split; [by apply IceSafety.new_agent_ok|done|by left].
Qed.

(** in every reachable session, whatever the calls and their outcome, the selected tuple is the
    one of the ICE agent's selected pair, keys are installed exactly when the session is connected after
    nomination and never while it waits for the handshake, and the state agrees with the state of the agent
    (which is consistent itself); only a closed session is unrelated to it. *)
Theorem session_invariant t s : session_reachable t s -> session_ok t s.
Proof. apply session_reachable_ok. Qed.

(** a session comes back from every datagram.  It hands anything over only while it is not
    closed, and then a DTLS record, an RTP or an RTCP packet only when the datagram came over the pair that
    was nominated in an authenticated check; media only when the SRTP context accepted it, as the plaintext,
    which parses; a DTLS record only while handshaking or connected; and a reply only to an authenticated
    check, with the change of the session's state reported.  A refused datagram changes neither state, tuple
    nor keys. *)
Theorem session_gate t s now l r input :
  session_reachable t s -> t <= now -> rust_slice input -> addr_ok r ->
  let '(s', result) := handle_datagram now l r input s in gated s l r input s' result.
Proof.
  intros Hr Hle Hin Ha. pose proof (handle_datagram_gated t now l r input s (session_reachable_ok _ _ Hr) Hle Hin Ha) as H.
  destruct (handle_datagram now l r input s). apply H.
Qed.

(** ** Nomination *)
Lemma authentic_is_stun a input m algorithm : rust_slice input -> IceSafety.authentic a input m algorithm ->
  Datagram.classify (E:=SessionError.t) input = Ok Datagram.Stun.
Proof.
  intros Hin (_ & Hp & Hv & _). apply IceSafety.validate_Ok in Hv. apply (StunCodec.stun_parse_Ok input m Hin) in Hp as [<- (body & _ & Hid & _ & _ & -> & _)].
  set (rest := to_be_bytes 2 (len body) ++ [0x21; 0x12; 0xa4; 0x42] ++ Stun.transaction_id m ++ body).
  assert (StunCodec.header (Stun.MessageType.encode (Stun.kind m)) (len body) (Stun.transaction_id m) ++ body = 0 :: 1 :: rest) as ->.
  { rewrite Hv. unfold StunCodec.header, rest. by rewrite <- !app_assoc. }
  unfold Datagram.classify, Datagram.is_stun. rewrite get_cons_0.
  assert (20 <= len (0 :: 1 :: rest)) as Hl by (unfold rest; autorewrite with len; change (len [33; 18; 164; 66]) with 4; pose_len; lia).
  rewrite (proj2 (Z.leb_le _ _) Hl).
  assert (get_range (0 :: 1 :: rest) 4 8 = Some [0x21; 0x12; 0xa4; 0x42]) as ->; [|done].
  unfold rest. change (0 :: 1 :: ?x) with ([0; 1] ++ x). rewrite get_range_skip by (change (len [0; 1]) with 2; lia).
  rewrite get_range_skip by (rewrite len_to_be_bytes; change (len [0; 1]) with 2; lia).
  by apply get_range_exact.
Qed.

(** A check that nominates its pair and that the agent has no reason to refuse. *)
Definition nominating (a : IceLite.Agent) (l r : SocketAddr) (input : bytes) : Prop := exists m algorithm x,
  IceSafety.authentic a input m algorithm /\ Stun.use_candidate m = true /\
  Stun.unknown_required_attributes m = [] /\ IceResponse.role_conflict m = false /\
  Stun.attribute m Stun.AttributeType.PRIORITY = Some x /\
  (len (IceLite.pairs a) < IceLite.max_candidate_pairs (IceLite.configuration a) \/ (l, r) ∈ IceSafety.pair_key <$> IceLite.pairs a).

Lemma nominated_ice t now l r input a : IceSafety.agent_ok t a -> t <= now -> rust_slice input -> addr_ok r -> nominating a l r input ->
  exists a' out es q, IceLite.handle_datagram now l r input a = (a', Ok out) /\ IceSafety.agent_ok now a' /\
    IceLite.source (IceLite.transmit out) = l /\ IceLite.destination (IceLite.transmit out) = r /\
    IceLite.events out = es ++ IceSafety.changed (IceLite.state a) (IceLite.state a') /\ IceSafety.selection (l, r) a a' es /\
    IceLite.state a' = IceLite.Completed /\ IceLite.selected_pair a' = Some q /\ IceSafety.pair_key q = (l, r).
Proof.
  intros Hok Hle Hin Hr (m & alg & x & Ha & Huse & Hunk & Hrole & Hx & Hroom).
  rewrite (IceSafety.handle_authentic _ _ _ _ _ _ _ Ha).
  destruct (IceSafety.respond_ok t now l r input m alg a Hok Hle Hin Hr Ha) as (a' & result & -> & _ & Hok' & _ & _ & Hans).
  unfold IceSafety.answered in Hans. rewrite Hunk, Hrole, Hx, bool_decide_eq_true_2 in Hans by done. cbn [negb] in Hans.
  destruct Hans as (_ & [(_ & _ & _ & _ & Hnot & Hfull)|(out & resp & q & -> & (P1 & P2 & _) & _ & Hst & (es & Hes & Hsel) & Hq & _ & _ & Hk & _)]).
  { exfalso. destruct Hroom as [|]; [lia|done]. }
  specialize (Hq Huse). exists a', out, es, q. split_and!; try done. rewrite Hst. unfold IceSafety.completed_if. by rewrite Hq.
Qed.

(** a check that nominates its pair connects a session that is new, restarted or
    disconnected: the tuple becomes that of the check, the reply goes back over it, and the session waits
    for the DTLS handshake if it has no keys yet; if it has (after an ICE restart or an interruption) it is
    connected again at once, with the same keys and replay state and without a second handshake. *)
Theorem session_nominated t s now l r input :
  session_reachable t s -> t <= now -> rust_slice input -> addr_ok r ->
  state s = New \/ state s = Disconnected -> nominating (ice s) l r input ->
  exists s' reply, let target := match srtp s with Some _ => Connected | None => DtlsHandshaking end in
    handle_datagram now l r input s = (s', Ok [SessionAction.Transmit {| source := l; destination := r; payload := reply |};
      SessionAction.StateChanged (state s) target]) /\
    state s' = target /\ srtp s' = srtp s /\ selected_local s' = Some l /\ selected_remote s' = Some r.
Proof.
  intros Hreach Hle Hin Hr Hst Hnom. pose proof (session_reachable_ok _ _ Hreach) as Hok.
  destruct (nominated_ice t now l r input (ice s) (ok_agent _ _ Hok) Hle Hin Hr Hnom)
    as (a' & out & es & q & E & _ & P1 & P2 & Hes & Hsel & Hcomp & Hq & Hk).
  assert (state (after_ice a' s) = match srtp s with Some _ => Connected | None => DtlsHandshaking end) as Htarget.
  { unfold after_ice. cbn [state]. rewrite bool_decide_eq_false_2, Hcomp, target_phase; [by destruct Hst as [-> | ->]|].
    intros H. pose proof (ok_phase _ _ Hok) as Hp. rewrite Hcomp in H. destruct Hst as [Hs|Hs]; rewrite Hs, H in Hp; naive_solver. }
  exists (after_ice a' s), (IceLite.payload (IceLite.transmit out)). cbv zeta. split_and!; [|done|done|..].
  2-3: unfold after_ice; cbn; rewrite Hq; cbn; unfold IceSafety.pair_key in Hk; by injection Hk as <- <-.
  unfold handle_datagram. rewrite (prog_step _ _ s s s) by done.
  rewrite (prog_step _ _ s s tt) by (unfold lift; rewrite bool_decide_eq_false_2; [done|by destruct Hst as [-> | ->]]).
  destruct Hnom as (m & alg & _ & Ha & _). rewrite (prog_step _ _ s s Datagram.Stun) by (unfold lift; by rewrite (authentic_is_stun _ _ _ _ Hin Ha)).
  unfold handle_stun. rewrite E, Hes, (follow_events s _ _ a' es (ok_tuple _ _ Hok) Hsel), Htarget. unfold moved, map_ice_transmit. rewrite P1, P2.
  rewrite bool_decide_eq_false_2 by (destruct Hst as [-> | ->]; by destruct (srtp s)). done.
Qed.

(** ** Closing *)
(** C40: closing erases the keys, and as long as only datagrams arrive the session refuses each of
    them; but a timer call after the consent timeout moves a closed session to disconnected, and a restart
    moves it to new, from where a nomination opens it for another handshake: closed is not permanent. *)
Theorem session_close_not_permanent t s now c h :
  session_reachable t s -> t <= now -> IceLite.state (ice s) = IceLite.Completed -> IceLite.last_authenticated (ice s) = Some h ->
  h + IceLite.consent_timeout (IceLite.configuration (ice s)) <= now < h + IceLite.failure_timeout (IceLite.configuration (ice s)) ->
  let closed := (close s).1 in
  srtp closed = None /\
  (forall now' l r input, handle_datagram now' l r input closed = (closed, Err SessionError.Closed)) /\
  state (tick now closed).1 = Disconnected /\ (tick now closed).2 = [SessionAction.StateChanged Closed Disconnected] /\
  state (restart_ice c closed) = New.
Proof.
  intros Hreach Hle Hcomp Hh Hnow. cbv zeta.
  assert (session_ok t (close s).1) as Hok by (apply session_reachable_ok; by constructor).
  rewrite close_spec in *. cbn [fst] in *. set (closed := set_state Closed (set_srtp None s)) in *.
  assert (exists s', tick now closed = (s', [SessionAction.StateChanged Closed Disconnected]) /\ state s' = Disconnected) as (s' & Htick & Hs').
  { destruct (tick_spec t now closed Hok Hle) as (a' & Hice & -> & _).
    assert (IceLite.state a' = IceLite.Disconnected) as Ha'.
    { change (ice closed) with (ice s) in Hice. apply (f_equal fst) in Hice. cbn [fst] in Hice. rewrite <- Hice.
      apply (IceSafety.tick_consent now (ice s) h); [done| |done]. apply (IceSafety.ok_config _ _ (ok_agent _ _ Hok)). }
    exists (after_ice a' closed). assert (state (after_ice a' closed) = Disconnected) as ->; [|done].
    unfold after_ice. cbn [state]. rewrite Ha'. change (ice closed) with (ice s). by rewrite Hcomp. }
  split_and!; [done| | | |done].
  - intros now' l r input. unfold handle_datagram. rewrite (prog_step _ _ closed closed closed) by done. done.
  - by rewrite Htick.
  - by rewrite Htick.
Qed.
End Sessions.

(** ** A concrete session: one nomination *)
#[local] Existing Instance StunSafety.example_stun_crypto.
#[local] Existing Instance Srtp.toy_crypto.

Definition example_start : Session := new (IceLite.new IceSafety.example_config).
Definition example_session : Session := Eval vm_compute in
  (handle_datagram 10 IceSafety.example_local IceSafety.example_peer IceSafety.request_octets example_start).1.

Lemma example_start_reachable : session_reachable 0 example_start.
Proof. constructor. apply IceSafety.ice_config_example_ok. Qed.

Lemma example_session_reachable : session_reachable 10 example_session.
Proof.
  assert (example_session = (handle_datagram 10 IceSafety.example_local IceSafety.example_peer IceSafety.request_octets example_start).1) as ->
    by (vm_compute; reflexivity).
  apply (session_datagram 0); [apply example_start_reachable|lia|exact IceSafety.request_slice|exact IceSafety.example_peer_ok].
Qed.

Lemma session_invariant_witness : session_ok 10 example_session.
Proof. exact (session_invariant 10 example_session example_session_reachable). Defined.

Lemma session_gate_witness : gated example_session IceSafety.example_local IceSafety.example_peer [22; 254; 253]
  example_session (Ok [SessionAction.DtlsInput [22; 254; 253]]).
Proof.
  pose proof (session_gate 10 example_session 20 IceSafety.example_local IceSafety.example_peer [22; 254; 253]
    example_session_reachable ltac:(lia) ltac:(apply rust_slice_check; vm_compute; reflexivity) IceSafety.example_peer_ok) as H.
  assert (handle_datagram 20 IceSafety.example_local IceSafety.example_peer [22; 254; 253] example_session
    = (example_session, Ok [SessionAction.DtlsInput [22; 254; 253]])) as E by (vm_compute; reflexivity).
  rewrite E in H. exact H.
Defined.

Lemma example_nominating : nominating (ice example_start) IceSafety.example_local IceSafety.example_peer IceSafety.request_octets.
Proof.
  destruct (Stun.attribute IceSafety.request_message Stun.AttributeType.PRIORITY) as [x|] eqn:Hx; [|vm_compute in Hx; discriminate].
  exists IceSafety.request_message, IceLite.AlgSha256, x.
  split; [split; [done|split_and!; vm_compute; reflexivity]|]. split_and!; [vm_compute; reflexivity..|done|]. left. vm_compute. reflexivity.
Qed.

Lemma session_nominated_witness : exists s', state s' = DtlsHandshaking /\ selected_remote s' = Some IceSafety.example_peer.
Proof.
  destruct (session_nominated 0 example_start 10 IceSafety.example_local IceSafety.example_peer IceSafety.request_octets
    example_start_reachable ltac:(lia) IceSafety.request_slice IceSafety.example_peer_ok ltac:(left; reflexivity) example_nominating)
    as (s' & reply & _ & H1 & _ & _ & H2).
  exists s'. split; [exact H1|exact H2].
Defined.

Lemma session_close_not_permanent_witness : state (tick (from_secs 31) (close example_session).1).1 = Disconnected.
Proof.
  apply (session_close_not_permanent 10 example_session (from_secs 31) IceSafety.example_config 10 example_session_reachable);
    [vm_compute; discriminate|reflexivity|reflexivity|split; vm_compute; [discriminate|reflexivity]].
Defined.

(** * webrtc/rtc-session: media between two sessions

    Two sessions whose DTLS handshake exported the same octets exchange RTP: the exporter split, the
    classifier, SRTP and the sessions put together. *)

(** ** RTP is taken for RTP *)
Definition second_check (b : Z) : bool := Bool.eqb (Datagram.within 192 223 b)
  (negb (Datagram.is_rtcp_mux_safe_payload_type (Z.land b 0x7f) || negb (has_bit b 0x80))).

Lemma second_octet b : u8 b -> Datagram.within 192 223 b =
  negb (Datagram.is_rtcp_mux_safe_payload_type (Z.land b 0x7f) || negb (has_bit b 0x80)).
Proof.
  assert (forallb second_check (seqZ 0 256) = true) as H by (vm_compute; reflexivity).
  intros [H0 H1]. pose proof (forallb_seqZ _ _ _ b H ltac:(lia)) as Hb. by apply eqb_prop in Hb.
Qed.

(** The payload type can share the port with RTCP, or the marker is clear. *)
Definition mux_safe (packet : bytes) : Prop := forall p, RtpPacket.parse packet = Ok p ->
  Datagram.is_rtcp_mux_safe_payload_type (RtpPacket.payload_type (RtpPacket.header p)) || negb (RtpPacket.marker (RtpPacket.header p)) = true.

Lemma parse_front packet p : bytes_ok packet -> RtpPacket.parse packet = Ok p ->
  exists first second rest, packet = first :: second :: rest /\ u8 second /\ Datagram.within 128 191 first = true /\
    RtpPacket.marker (RtpPacket.header p) = has_bit second 0x80 /\ RtpPacket.payload_type (RtpPacket.header p) = Z.land second 0x7f.
Proof.
  intros Hok H. unfold RtpPacket.parse in H. apply bind_Ok in H as ([] & Hl%reject_if_Ok & H). unfold RtpPacket.FIXED_HEADER_LEN in Hl.
  destruct packet as [|first [|second rest]]; [done|done|]. unfold index in H.
  apply bind_Ok in H as (f & Hf & H). rewrite get_cons_0 in Hf. injection Hf as <-. cbv zeta in H.
  apply bind_Ok in H as ([] & Hv%reject_if_Ok & H). apply bind_Ok in H as (tail & _ & H). open_tuples.
  apply bind_Ok in H as (s & Hs & H). rewrite get_cons_S, get_cons_0 in Hs by lia. injection Hs as <-.
  do 3 (apply bind_Ok in H as (? & _ & H)). apply Ok_inj in H as <-.
  apply bytes_ok_cons in Hok as [H1 [H2 _]%bytes_ok_cons]. exists first, second, rest. split_and!; try done.
  apply negb_false_iff, Z.eqb_eq in Hv. rewrite Z.shiftr_div_pow2 in Hv by lia. unfold Datagram.within. zdiv.
Qed.

Section Media.
Context {stun_crypto : Stun.StunCrypto} {srtp_crypto : Srtp.SrtpCrypto}.

Lemma protected_is_rtp S packet S' wire : rust_slice packet -> mux_safe packet ->
  Srtp.protect_rtp (S, packet) = ((S', wire), Ok tt) -> Datagram.classify (E:=SessionError.t) wire = Ok Datagram.Rtp.
Proof.
  intros Hs Hmux (parsed & head & body & tag & ssrc & idx & [Hparse Hsplit Hhl _ _ _ _ _ ->])%Srtp.protect_rtp_Ok.
  pose proof (RtpPacket.header_length_agrees _ _ Hs Hparse) as Hhead. rewrite <- Hhl in Hhead. destruct Hs as [Hok _].
  pose proof (Srtp.header_length_bounds _ _ Hok Hhead) as Hb.
  destruct (parse_front packet parsed Hok Hparse) as (first & second & rest & Hp & H2 & H1 & Hm & Hpt).
  specialize (Hmux parsed Hparse). rewrite Hm, Hpt in Hmux.
  assert (exists rest', head = first :: second :: rest') as [rest' ->].
  { rewrite Hsplit in Hp. destruct head as [|x [|y head]]; [slia|slia|]. injection Hp as -> -> _. by exists head. }
  cbn [app]. rewrite Datagram.classify_media by done. by rewrite second_octet, Hmux.
Qed.

(** ** One packet *)
Lemma session_protect_Ok packet s s' out : protect_rtp packet s = (s', Ok out) ->
  exists S S', srtp s = Some S /\ Srtp.protect_rtp (S, packet) = ((S', payload out), Ok tt) /\ s' = set_srtp (Some S') s /\
    selected_local s = Some (source out) /\ selected_remote s = Some (destination out).
Proof.
  unfold protect_rtp. intros (s1 & wire & Hw & H)%prog_bind_Ok. rewrite with_srtp_spec in Hw. destruct (srtp s) as [S|]; [|done].
  unfold in_place in Hw. destruct (Srtp.protect_rtp (S, packet)) as [[S' w] [[]|e| |]] eqn:Hp; cbn in Hw; try done.
  injection Hw as <- ->. apply prog_bind_Ok in H as (s2 & self & Hg & H). injection Hg as <- <-. injection H as <- H.
  unfold selected_transmit, id in H. cbn in H. apply bind_Ok in H as (a & Ha%ok_or_Ok & H). apply bind_Ok in H as (b & Hb%ok_or_Ok & [= <-]).
  exists S, S'. cbn. split_and!; done.
Qed.

Lemma session_unprotect now l r wire s R R' packet : state s <> Closed -> selected_local s = Some l -> selected_remote s = Some r ->
  srtp s = Some R -> Datagram.classify (E:=SessionError.t) wire = Ok Datagram.Rtp -> Srtp.unprotect_rtp wire R = (R', Ok packet) ->
  handle_datagram now l r wire s = (set_srtp (Some R') s, Ok [SessionAction.InboundRtp packet]).
Proof.
  intros Hopen Hl Hr HR Hc Hu. unfold handle_datagram. rewrite (prog_step _ _ s s s) by done.
  rewrite (prog_step _ _ s s tt) by (unfold lift; by rewrite bool_decide_eq_false_2).
  rewrite (prog_step _ _ s s Datagram.Rtp) by (unfold lift; by rewrite Hc).
  rewrite (prog_step _ _ s s tt) by (unfold lift; by rewrite (proj2 (require_selected_Ok s l r) (conj Hl Hr))).
  rewrite (prog_step _ _ s (set_srtp (Some R') s) packet) by (rewrite with_srtp_spec, HR, Hu; done).
  destruct (Srtp.unprotect_rtp_parses _ _ _ _ Hu) as [p Hp]. unfold lift, mbind, prog_bind. by rewrite Hp.
Qed.

(** ** Streams *)
Fixpoint send_rtp (packets : list bytes) (s : Session) : option (Session * list Transmit) :=
  match packets with
  | [] => Some (s, [])
  | packet :: packets =>
      match protect_rtp packet s with
      | (s, Ok out) => '(s, outs) ← send_rtp packets s; Some (s, out :: outs)
      | _ => None
      end
  end.
Fixpoint receive (now : Z) (l r : SocketAddr) (wires : list bytes) (s : Session)
    : Session * list (outcome SessionError.t (list SessionAction.t)) :=
  match wires with
  | [] => (s, [])
  | wire :: wires =>
      let '(s, result) := handle_datagram now l r wire s in
      let '(s, results) := receive now l r wires s in
      (s, result :: results)
  end.

Lemma stream_delivered now l r packets : Forall rust_slice packets -> Forall mux_safe packets -> forall a b a' outs S R,
  srtp a = Some S -> srtp b = Some R -> Srtp.in_step S R -> state b <> Closed -> selected_local b = Some l -> selected_remote b = Some r ->
  send_rtp packets a = Some (a', outs) ->
  (receive now l r (payload <$> outs) b).2 = (fun p => Ok [SessionAction.InboundRtp p]) <$> packets /\
  Forall (fun out => selected_local a = Some (source out) /\ selected_remote a = Some (destination out)) outs.
Proof.
  intros Hs. induction Hs as [|packet packets Hp _ IH]; intros Hm a b a' outs S R Ha Hb Hstep Hopen Hl Hr Hsend; cbn in Hsend.
  { injection Hsend as <- <-. split; [done|constructor]. }
  inversion Hm as [|? ? Hmux Hrest]; subst.
  destruct (protect_rtp packet a) as [a1 [out|e| |]] eqn:Hpr; try done. apply bind_Some in Hsend as ([a2 outs'] & Hsend & [= <- <-]).
  apply session_protect_Ok in Hpr as (S0 & S1 & HS0 & Hpr & -> & Hl0 & Hr0). rewrite Ha in HS0. injection HS0 as <-.
  destruct (Srtp.in_step_packet _ _ _ _ _ Hp Hstep Hpr) as (R1 & Hun & Hstep1).
  destruct (IH Hrest (set_srtp (Some S1) a) (set_srtp (Some R1) b) a2 outs' S1 R1) as [IH1 IH2]; try done.
  split; [|by constructor]. rewrite !fmap_cons. cbn [receive].
  rewrite (session_unprotect now l r (payload out) b R R1 packet) by (done || by eapply protected_is_rtp).
  destruct (receive now l r (payload <$> outs') (set_srtp (Some R1) b)) as [b' rs]. cbn [snd] in *. by rewrite IH1.
Qed.
End Media.

(** The material of the two ends of one handshake. *)
Definition peer_of (role : DtlsAdapter.DtlsRole) : DtlsAdapter.DtlsRole :=
  match role with DtlsAdapter.Client => DtlsAdapter.Server | DtlsAdapter.Server => DtlsAdapter.Client end.

Lemma exporter_mirrored profile role exported k1 k2 :
  DtlsAdapter.split_srtp_exporter profile role exported = Ok k1 ->
  DtlsAdapter.split_srtp_exporter profile (peer_of role) exported = Ok k2 ->
  DtlsAdapter.keying_profile k2 = DtlsAdapter.keying_profile k1 /\ DtlsAdapter.outbound k2 = DtlsAdapter.inbound k1 /\
  DtlsAdapter.inbound k2 = DtlsAdapter.outbound k1.
Proof.
  intros H1 H2. assert (len exported = DtlsAdapter.EXPORTER_LEN) as Hl.
  { apply bind_Ok in H1 as ([] & H%reject_if_Ok & _). apply negb_false_iff in H. lia. }
  destruct (DtlsAdapter.split_exporter_spec profile exported Hl) as (c & s & _ & _ & _ & _ & _ & Hspec).
  rewrite Hspec in H1, H2. injection H1 as <-. injection H2 as <-. by destruct role.
Qed.

Section Ends.
Context {stun_crypto : Stun.StunCrypto} {srtp_crypto : Srtp.SrtpCrypto}.

End Ends.

(** ** A concrete stream *)
#[local] Existing Instance StunSafety.example_stun_crypto.
#[local] Existing Instance Srtp.toy_crypto.

Definition example_exported : bytes := seqZ 0 60.
Definition example_keying (role : DtlsAdapter.DtlsRole) : DtlsAdapter.DirectionalKeyingMaterial :=
  match DtlsAdapter.split_srtp_exporter DtlsAdapter.DtlsSrtpProfile.Aes128CmSha1_80 role example_exported with
  | Ok k => k
  | _ => {| DtlsAdapter.keying_profile := Srtp.Aes128CmSha1_80; DtlsAdapter.outbound := Srtp.example_key; DtlsAdapter.inbound := Srtp.example_key |}
  end.
Definition example_packets : list bytes := [Srtp.example_rtp 255 255; Srtp.example_rtp 0 0].
Definition example_sent : Session * list Transmit :=
  default (example_session, []) (send_rtp example_packets (install_dtls_keying_material (example_keying DtlsAdapter.Client) example_session).1).

Lemma example_nominated : from_nominated example_session IceSafety.example_local IceSafety.example_peer.
Proof. eexists. split; [reflexivity|split; reflexivity]. Qed.
Lemma example_packets_slice : Forall rust_slice example_packets.
Proof. repeat constructor; eval_facts. Qed.
Lemma example_packets_safe : Forall mux_safe example_packets.
Proof. repeat constructor; intros p Hp; vm_compute in Hp; injection Hp as <-; reflexivity. Qed.

