(* ===== verification/SessionRegistry.v ===== *)
(** * services/media-node: the transport sessions of a media node (src/lib.rs)

    [SessionRegistry] routes the datagrams of one UDP port to sessions: STUN by the user name fragment of the answer it was
    sent to, everything else by the address that the session's peer nominated.  A call, with the locks it takes one after the
    other, is one step here.  Errors that the source turns into text ([Stun], [Transport], [InvalidIceCredentials]) are
    carried as values. *)
From S2P Require Import Prelude Words Slices RustStd RustStr RustText.
From S2P Require Stun IceLite Srtp Datagram DtlsAdapter RtcSession SfuRuntime.
Import RtcSession (Session, SessionState).
Import SfuRuntime (HashIteration, iter).

Definition MAX_SESSIONS : Z := 100000.

Record SessionProvision := {
  sp_session_id : bytes;
  sp_room_id : bytes;
  sp_participant_id : bytes;
  sp_local_username_fragment : bytes;
  sp_local_password : bytes;
  sp_remote_username_fragment : bytes;
  sp_remote_password : bytes;
  sp_expected_peer_fingerprint : bytes;
  sp_tie_breaker : Z }.

Record SessionIceRestart := {
  sr_session_id : bytes;
  sr_local_username_fragment : bytes;
  sr_local_password : bytes;
  sr_remote_username_fragment : bytes;
  sr_remote_password : bytes;
  sr_tie_breaker : Z }.

Record ManagedSession := {
  room_id : bytes;
  participant_id : bytes;
  expected_peer_fingerprint : bytes;
  session : Session }.

(** The metrics the registry writes: a saturating gauge and two saturating counters. *)
Record MediaNodeMetrics := { active_sessions : Z; media_bytes_received : Z; rtp_packets_received : Z }.
Definition gauge_add (delta g : Z) : Z := Z.max (- 2 ^ 63) (Z.min (2 ^ 63 - 1) (g + delta)).

Record SessionRegistry := {
  sessions : gmap bytes ManagedSession;
  local_ufrag_to_session : gmap bytes bytes;
  remote_to_session : gmap SocketAddr bytes;
  metrics : MediaNodeMetrics;
  capacity : Z }.

Record RoutedActions := {
  ra_session_id : bytes;
  ra_room_id : bytes;
  ra_participant_id : bytes;
  ra_expected_peer_fingerprint : bytes;
  ra_actions : list RtcSession.SessionAction.t }.

Record SessionSnapshot := { ss_session_id : bytes; ss_room_id : bytes; ss_participant_id : bytes; ss_state : SessionState }.

Inductive RegistryError :=
| InvalidIdentifier
| InvalidFingerprint
| InvalidIceCredentials (error : IceLite.CredentialError)
| DuplicateSession
| DuplicateUsernameFragment
| Capacity
| UnknownRemote
| UnknownSession
| Stun (error : Stun.StunError)
| MissingUsername
| UnknownUsernameFragment
| RemoteCollision
| Transport (error : RtcSession.SessionError.t).

Definition set_sessions (s : gmap bytes ManagedSession) (self : SessionRegistry) : SessionRegistry :=
  {| sessions := s; local_ufrag_to_session := local_ufrag_to_session self; remote_to_session := remote_to_session self;
     metrics := metrics self; capacity := capacity self |}.
Definition set_ufrags (u : gmap bytes bytes) (self : SessionRegistry) : SessionRegistry :=
  {| sessions := sessions self; local_ufrag_to_session := u; remote_to_session := remote_to_session self;
     metrics := metrics self; capacity := capacity self |}.
Definition set_remotes (r : gmap SocketAddr bytes) (self : SessionRegistry) : SessionRegistry :=
  {| sessions := sessions self; local_ufrag_to_session := local_ufrag_to_session self; remote_to_session := r;
     metrics := metrics self; capacity := capacity self |}.
Definition set_metrics (m : MediaNodeMetrics) (self : SessionRegistry) : SessionRegistry :=
  {| sessions := sessions self; local_ufrag_to_session := local_ufrag_to_session self; remote_to_session := remote_to_session self;
     metrics := m; capacity := capacity self |}.
Definition with_session (s : Session) (m : ManagedSession) : ManagedSession :=
  {| room_id := room_id m; participant_id := participant_id m; expected_peer_fingerprint := expected_peer_fingerprint m; session := s |}.
Definition count_sessions (delta : Z) (m : MediaNodeMetrics) : MediaNodeMetrics :=
  {| active_sessions := gauge_add delta (active_sessions m); media_bytes_received := media_bytes_received m;
     rtp_packets_received := rtp_packets_received m |}.

Definition new (metrics : MediaNodeMetrics) (capacity : Z) : SessionRegistry :=
  {| sessions := ∅; local_ufrag_to_session := ∅; remote_to_session := ∅; metrics := metrics; capacity := Z.min capacity MAX_SESSIONS |}.

Abbreviation registry := (prog SessionRegistry RegistryError).

(** This one also allows colons. *)
Definition validate_identifier (value : bytes) (maximum : Z) : outcome RegistryError unit :=
  reject_if ((len value =? 0) || (maximum <? len value) ||
             negb (forallb (fun byte => SfuRuntime.is_ascii_alphanumeric byte || (byte =? 45) || (byte =? 95) || (byte =? 58)) value))
    InvalidIdentifier.

Definition credentials (username_fragment password : bytes) : outcome RegistryError IceLite.Credentials :=
  map_err InvalidIceCredentials (IceLite.CredentialsNew.new username_fragment password).

(** ** Provisioning *)
Definition provision (input : SessionProvision) : registry unit :=
  _ ← lift (validate_identifier (sp_session_id input) 128);
  _ ← lift (validate_identifier (sp_room_id input) 128);
  _ ← lift (validate_identifier (sp_participant_id input) 128);
  _ ← lift (reject_if ((len (sp_expected_peer_fingerprint input) =? 0) || (256 <? len (sp_expected_peer_fingerprint input))) InvalidFingerprint);
  local_credentials ← lift (credentials (sp_local_username_fragment input) (sp_local_password input));
  remote_credentials ← lift (credentials (sp_remote_username_fragment input) (sp_remote_password input));
  let session := RtcSession.new (IceLite.new (IceLite.ConfigurationNew.new local_credentials remote_credentials (sp_tie_breaker input))) in
  self ← gets id;
  _ ← lift (reject_if (bool_decide (is_Some (sessions self !! sp_session_id input))) DuplicateSession);
  _ ← lift (reject_if (bool_decide (is_Some (local_ufrag_to_session self !! sp_local_username_fragment input))) DuplicateUsernameFragment);
  _ ← lift (reject_if (capacity self <=? Z.of_nat (size (sessions self))) Capacity);
  _ ← modify (fun self => set_ufrags (<[sp_local_username_fragment input := sp_session_id input]> (local_ufrag_to_session self)) self);
  _ ← modify (fun self => set_sessions (<[sp_session_id input :=
        {| room_id := sp_room_id input; participant_id := sp_participant_id input;
           expected_peer_fingerprint := sp_expected_peer_fingerprint input; session := session |}]> (sessions self)) self);
  modify (fun self => set_metrics (count_sessions 1 (metrics self)) self).

(** [retain(|_, owner| owner != session_id)] *)
Definition forget {K} `{Countable K} (session_id : bytes) (m : gmap K bytes) : gmap K bytes := filter (fun kv => kv.2 <> session_id) m.

Definition restart_ice (input : SessionIceRestart) : registry unit :=
  _ ← lift (validate_identifier (sr_session_id input) 128);
  local_credentials ← lift (credentials (sr_local_username_fragment input) (sr_local_password input));
  remote_credentials ← lift (credentials (sr_remote_username_fragment input) (sr_remote_password input));
  self ← gets id;
  managed ← lift (ok_or (sessions self !! sr_session_id input) UnknownSession);
  _ ← lift (reject_if (from_option (fun owner => negb (bool_decide (owner = sr_session_id input))) false
        (local_ufrag_to_session self !! sr_local_username_fragment input)) DuplicateUsernameFragment);
  let restarted := RtcSession.restart_ice (IceLite.ConfigurationNew.new local_credentials remote_credentials (sr_tie_breaker input)) (session managed) in
  _ ← modify (fun self => set_sessions (<[sr_session_id input := with_session restarted managed]> (sessions self)) self);
  _ ← modify (fun self => set_ufrags (forget (sr_session_id input) (local_ufrag_to_session self)) self);
  _ ← modify (fun self => set_ufrags (<[sr_local_username_fragment input := sr_session_id input]> (local_ufrag_to_session self)) self);
  modify (fun self => set_remotes (forget (sr_session_id input) (remote_to_session self)) self).

Definition remove (session_id : bytes) (self : SessionRegistry) : SessionRegistry * bool :=
  match sessions self !! session_id with
  | None => (self, false)
  | Some _ =>
      let self := set_sessions (delete session_id (sessions self)) self in
      let self := set_ufrags (forget session_id (local_ufrag_to_session self)) self in
      let self := set_remotes (forget session_id (remote_to_session self)) self in
      (set_metrics (count_sessions (-1) (metrics self)) self, true)
  end.

(** ** Datagrams *)
Definition route_stun (input : bytes) (self : SessionRegistry) : outcome RegistryError bytes :=
  message ← map_err Stun (Stun.parse input);
  username ← map_err Stun (Stun.username message);
  username ← ok_or username MissingUsername;
  let local_ufrag := match split_once 0x3a username with Some (local, _) => local | None => username end in
  ok_or (local_ufrag_to_session self !! local_ufrag) UnknownUsernameFragment.

Definition is_media (a : RtcSession.SessionAction.t) : bool :=
  match a with RtcSession.SessionAction.InboundRtp _ | RtcSession.SessionAction.InboundRtcp _ _ => true | _ => false end.
Definition is_rtp (a : RtcSession.SessionAction.t) : bool :=
  match a with RtcSession.SessionAction.InboundRtp _ => true | _ => false end.
Definition count_media (input : bytes) (actions : list RtcSession.SessionAction.t) (m : MediaNodeMetrics) : MediaNodeMetrics :=
  {| active_sessions := active_sessions m;
     media_bytes_received := if existsb is_media actions
       then saturating_add 64 (media_bytes_received m) (default (2 ^ 64 - 1) (try_from 64 (len input))) else media_bytes_received m;
     rtp_packets_received := if existsb is_rtp actions then saturating_add 64 (rtp_packets_received m) 1 else rtp_packets_received m |}.

Definition routed (session_id : bytes) (managed : ManagedSession) (actions : list RtcSession.SessionAction.t) : RoutedActions :=
  {| ra_session_id := session_id; ra_room_id := room_id managed; ra_participant_id := participant_id managed;
     ra_expected_peer_fingerprint := expected_peer_fingerprint managed; ra_actions := actions |}.

(** [if session.selected_remote() == Some(remote) { .. }] *)
Definition claim_route (remote : SocketAddr) (session_id : bytes) : registry unit :=
  self ← gets id;
  _ ← lift (reject_if (from_option (fun existing => negb (bool_decide (existing = session_id))) false (remote_to_session self !! remote)) RemoteCollision);
  modify (fun self => set_remotes (<[remote := session_id]> (remote_to_session self)) self).

(** [managed.session.lock()] and a call of the session, which fails with [Transport]. *)
Definition on_session {A} (session_id : bytes) (managed : ManagedSession) (body : prog Session RtcSession.SessionError.t A)
    : registry (Session * A) := fun self =>
  let '(s, result) := body (session managed) in
  (set_sessions (<[session_id := with_session s managed]> (sessions self)) self, (fun a => (s, a)) <$> map_err Transport result).

Section Registry.
Context {stun_crypto : Stun.StunCrypto} {srtp_crypto : Srtp.SrtpCrypto}.

Definition handle_datagram (now : Z) (local remote : SocketAddr) (input : bytes) : registry RoutedActions :=
  kind ← lift (Datagram.classify input);
  self ← gets id;
  session_id ← lift match kind with
    | Datagram.Stun => route_stun input self
    | _ => ok_or (remote_to_session self !! remote) UnknownRemote
    end;
  managed ← lift (ok_or (sessions self !! session_id) UnknownSession);
  '(session, actions) ← on_session session_id managed (RtcSession.handle_datagram now local remote input);
  _ ← (if bool_decide (RtcSession.selected_remote session = Some remote) then claim_route remote session_id else mret tt);
  _ ← modify (fun self => set_metrics (count_media input actions (metrics self)) self);
  mret (routed session_id managed actions).

(** A call of one session by its identifier. *)
Definition by_id {A} (session_id : bytes) (body : prog Session RtcSession.SessionError.t A) : registry A :=
  self ← gets id;
  managed ← lift (ok_or (sessions self !! session_id) UnknownSession);
  '(_, a) ← on_session session_id managed body;
  mret a.
Definition install_dtls_keying_material (session_id : bytes) (keying : DtlsAdapter.DirectionalKeyingMaterial)
    : registry (list RtcSession.SessionAction.t) :=
  by_id session_id (RtcSession.install_dtls_keying_material keying).
Definition transmit_dtls (session_id payload : bytes) : registry RtcSession.Transmit :=
  by_id session_id (fun s => (s, RtcSession.transmit_dtls s payload)).
Definition protect_rtp (session_id packet : bytes) : registry RtcSession.Transmit := by_id session_id (RtcSession.protect_rtp packet).
Definition protect_rtcp (session_id packet : bytes) : registry RtcSession.Transmit := by_id session_id (RtcSession.protect_rtcp packet).
End Registry.

(** ** Timers and views *)
Section Iteration.
Context {iteration : HashIteration}.

(** One turn of the loop over the sessions. *)
Definition tick_one (now : Z) (acc : SessionRegistry * list RoutedActions) (entry : bytes * ManagedSession) : SessionRegistry * list RoutedActions :=
  let '(session_id, managed) := entry in
  let '(s, actions) := RtcSession.tick now (session managed) in
  (set_sessions (<[session_id := with_session s managed]> (sessions acc.1)) acc.1,
   acc.2 ++ match actions with [] => [] | _ => [routed session_id managed actions] end).
Definition tick (now : Z) (self : SessionRegistry) : SessionRegistry * list RoutedActions :=
  foldl (tick_one now) (self, []) (iter (sessions self)).

Definition session_snapshot (self : SessionRegistry) (session_id : bytes) : option SessionSnapshot :=
  (fun managed => {| ss_session_id := session_id; ss_room_id := room_id managed; ss_participant_id := participant_id managed;
                     ss_state := RtcSession.state (session managed) |}) <$> sessions self !! session_id.
Definition session_count (self : SessionRegistry) : Z := Z.of_nat (size (sessions self)).
Definition is_empty (self : SessionRegistry) : bool := session_count self =? 0.
Definition session_ids_in_room (self : SessionRegistry) (room : bytes) : list bytes :=
  omap (fun kv => if bool_decide (room_id kv.2 = room) then Some kv.1 else None) (iter (sessions self)).
End Iteration.
