(* ===== verification/SessionRegistrySafety.v ===== *)
(** * services/media-node: what the registry of transport sessions guarantees

    Its three tables agree over any sequence of calls; a datagram reaches only the session it belongs to, with the room and
    the participant of that session; addresses cannot be taken over; removal and restart leave no alias behind. *)
From S2P Require Import Prelude Words Slices RustStd RustStr RustText SessionRegistry.
From S2P Require Stun StunCodec IceLite IceResponse IceSafety Srtp Datagram DtlsAdapter RtcSession RtcSessionSafety SfuRuntime SfuRuntimeInvariant StunSafety SfuRuntimeSteps.
Import RtcSession (Session).
Import SfuRuntime (HashIteration, iter).

(** ** What the agent of a session keeps between restarts *)
Definition nominated_key (a : IceLite.Agent) (k : SocketAddr * SocketAddr) : Prop :=
  exists p, p ∈ IceLite.pairs a /\ IceSafety.pair_key p = k /\ IceLite.nominated p = true.
Definition keeps (a a' : IceLite.Agent) : Prop :=
  IceLite.configuration a' = IceLite.configuration a /\ forall k, nominated_key a k -> nominated_key a' k.
Lemma keeps_refl a : keeps a a.
Proof. done. Qed.
Lemma keeps_trans a b c : keeps a b -> keeps b c -> keeps a c.
Proof. intros [A1 A2] [B1 B2]. split; [congruence|auto]. Qed.
Lemma keeps_fields a b b' : keeps a b -> IceLite.configuration b' = IceLite.configuration b -> IceLite.pairs b' = IceLite.pairs b -> keeps a b'.
Proof. intros [A1 A2] E1 E2. split; [congruence|]. intros k (p & Hp)%A2. exists p. by rewrite E2. Qed.

Lemma insert_pair_keeps (ps : list IceLite.CandidatePair) i found pair p : ps !! i = Some found -> IceSafety.pair_key pair = IceSafety.pair_key found ->
  (IceLite.nominated found = true -> IceLite.nominated pair = true) -> p ∈ ps -> IceLite.nominated p = true ->
  exists q, q ∈ <[i := pair]> ps /\ IceSafety.pair_key q = IceSafety.pair_key p /\ IceLite.nominated q = true.
Proof.
  intros Hi Hk Hn (j & Hj)%list_elem_of_lookup Hp. destruct (decide (i = j)) as [<-|Hne].
  - assert (found = p) as -> by congruence. exists pair. split_and!; [|done|auto]. eapply list_elem_of_lookup_2. apply list_lookup_insert_eq. by eapply lookup_lt_Some.
  - exists p. split_and!; [|done..]. eapply list_elem_of_lookup_2. by rewrite list_lookup_insert_ne.
Qed.
Lemma finish_record_keeps n pair a b : keeps a b -> keeps a (IceSafety.finish_record n pair b).1.
Proof. intros H. unfold IceSafety.finish_record. case_match; [by eapply keeps_fields|done]. Qed.
Lemma record_keeps now l r pr nom a : preserves (keeps a) (IceLite.record_valid_pair now l r pr nom).
Proof.
  intros s [H1 H2]. rewrite IceSafety.record_spec. destruct (list_find _ _) as [[i old]|] eqn:Hf.
  - apply IceSafety.find_same in Hf as [Hi _]. cbv zeta. apply finish_record_keeps. split; [done|]. intros k (p & Hp & Hk & Hn)%H2.
    destruct (insert_pair_keeps (IceLite.pairs s) i old
      {| IceLite.local := IceLite.local old; IceLite.remote := IceLite.remote old; IceLite.pair_priority := pr;
         IceLite.nominated := IceLite.nominated old || nom; IceLite.pair_authenticated := now |} p) as (q & Q1 & Q2 & Q3); [done|done|cbn; by intros ->|done|done|].
    exists q. split_and!; [done|congruence|done].
  - destruct (_ <=? _); [by split|]. cbv zeta. apply finish_record_keeps. split; [done|]. intros k (p & Hp & Hk)%H2. exists p. split; [|done]. cbn. set_solver.
Qed.

Lemma transition_keeps target a b : keeps a b -> keeps a (IceLite.transition target b).1.
Proof. intros H. destruct (IceSafety.transition_cases target b) as (b' & e & -> & _ & E1 & E2 & _). by eapply keeps_fields. Qed.

Section Kept.
Context {stun_crypto : Stun.StunCrypto} {srtp_crypto : Srtp.SrtpCrypto}.

Lemma ice_datagram_keeps now l r input a : keeps a (IceLite.handle_datagram now l r input a).1.
Proof.
  assert (preserves (keeps a) (IceLite.handle_datagram now l r input)) as H; [|by apply H, keeps_refl].
  unfold IceLite.handle_datagram. do 6 (apply preserves_bind; [auto with preserves|intros ?]). destruct a5 as [out|]; [auto with preserves|].
  unfold IceLite.accept_check. do 2 (apply preserves_bind; [auto with preserves|intros ?]). apply preserves_bind; [apply record_keeps|intros events].
  intros b Hb. rewrite (prog_step _ _ b b b) by done. unfold mbind at 1, prog_bind at 1, lift at 1. destruct (IceLite.success_response _ _ _ _); [|done..].
  unfold IceLite.transition_after_check. pose proof (transition_keeps (if Stun.use_candidate a2 || bool_decide (is_Some (IceLite.selected_pair b)) then IceLite.Completed else IceLite.Connected) a b Hb) as Ht.
  by destruct (IceLite.transition _ b) as [b' e].
Qed.

Lemma ice_tick_keeps now a : keeps a (IceLite.tick now a).1.
Proof.
  unfold IceLite.tick. destruct (IceLite.last_authenticated a); [|done].
  pose proof (transition_keeps IceLite.Failed a a (keeps_refl a)). pose proof (transition_keeps IceLite.Disconnected a a (keeps_refl a)).
  repeat case_match; by simplify_eq.
Qed.

(** ** And what a session keeps *)
Lemma apply_events_ice es : forall sa, RtcSession.ice (foldl RtcSession.apply_ice_event sa es).1 = RtcSession.ice sa.1.
Proof.
  induction es as [|e es IH]; intros [s acts]; [done|]. cbn [foldl]. rewrite IH. destruct e as [? to|pair]; cbn; [|done].
  destruct (RtcSessionSafety.transition_spec (RtcSession.ice_target s to) s) as (action & -> & _). done.
Qed.
Definition same_agent (a : IceLite.Agent) (s : Session) : Prop := keeps a (RtcSession.ice s).
Lemma with_srtp_agent {A} a (m : prog Srtp.SrtpContext Replay.SrtpError A) : preserves (same_agent a) (RtcSession.with_srtp m).
Proof. intros s Hs. rewrite RtcSessionSafety.with_srtp_spec. by destruct (RtcSession.srtp s). Qed.
Lemma session_datagram_keeps now l r input s : keeps (RtcSession.ice s) (RtcSession.ice (RtcSession.handle_datagram now l r input s).1).
Proof.
  assert (preserves (same_agent (RtcSession.ice s)) (RtcSession.handle_datagram now l r input)) as H; [|by apply H, keeps_refl].
  unfold RtcSession.handle_datagram. do 3 (apply preserves_bind; [auto with preserves|intros ?]). destruct a1; auto using with_srtp_agent with preserves.
  intros s1 Hs1. unfold RtcSession.handle_stun. pose proof (ice_datagram_keeps now l r input (RtcSession.ice s1)) as Hk.
  destruct (IceLite.handle_datagram _ _ _ _ _) as [a' o]. cbn [fst] in Hk.
  assert (same_agent (RtcSession.ice s) (RtcSession.set_ice a' s1)) as Hs2 by by eapply keeps_trans. destruct o as [out|e| |]; [|done..].
  pose proof (apply_events_ice (IceLite.events out) (RtcSession.set_ice a' s1, [RtcSession.SessionAction.Transmit (RtcSession.map_ice_transmit (IceLite.transmit out))])) as He.
  destruct (foldl _ _ _) as [s2 acts]. cbn in He |- *. unfold same_agent. by rewrite He.
Qed.
Lemma session_tick_keeps now s : keeps (RtcSession.ice s) (RtcSession.ice (RtcSession.tick now s).1).
Proof.
  unfold RtcSession.tick. pose proof (ice_tick_keeps now (RtcSession.ice s)) as Hk. destruct (IceLite.tick _ _) as [a' es]. by rewrite apply_events_ice.
Qed.
Lemma install_agent keying s : RtcSession.ice (RtcSession.install_dtls_keying_material keying s).1 = RtcSession.ice s.
Proof.
  unfold RtcSession.install_dtls_keying_material. destruct (negb _); [done|].
  destruct (RtcSessionSafety.transition_spec RtcSession.Connected (RtcSession.set_srtp (Some (Srtp.new (DtlsAdapter.keying_profile keying) (DtlsAdapter.outbound keying) (DtlsAdapter.inbound keying))) s)) as (action & -> & _).
  done.
Qed.
Lemma protect_rtp_agent packet s : keeps (RtcSession.ice s) (RtcSession.ice (RtcSession.protect_rtp packet s).1).
Proof. apply (preserves_bind (same_agent (RtcSession.ice s))); [apply with_srtp_agent|auto with preserves|apply keeps_refl]. Qed.
Lemma protect_rtcp_agent packet s : keeps (RtcSession.ice s) (RtcSession.ice (RtcSession.protect_rtcp packet s).1).
Proof. apply (preserves_bind (same_agent (RtcSession.ice s))); [apply with_srtp_agent|auto with preserves|apply keeps_refl]. Qed.
End Kept.

(** ** The invariant *)
Definition ufrag (m : ManagedSession) : bytes :=
  IceLite.username_fragment (IceLite.local_credentials (IceLite.configuration (RtcSession.ice (session m)))).

(** Every session is consistent; the fragment table names each session once, by the fragment of its present generation; an
    address leads to a session whose peer nominated it; the registry is bounded and the gauge counts it. *)
Record registry_ok (t : Z) (self : SessionRegistry) : Prop := {
  ro_session id m : sessions self !! id = Some m -> RtcSessionSafety.session_ok t (session m);
  ro_ufrag u id : local_ufrag_to_session self !! u = Some id <-> exists m, sessions self !! id = Some m /\ ufrag m = u;
  ro_remote r id : remote_to_session self !! r = Some id ->
    exists m l, sessions self !! id = Some m /\ nominated_key (RtcSession.ice (session m)) (l, r);
  ro_capacity : Z.of_nat (size (sessions self)) <= capacity self <= MAX_SESSIONS;
  ro_gauge : active_sessions (metrics self) = Z.of_nat (size (sessions self)) }.

Lemma new_registry_ok t m c : active_sessions m = 0 -> 0 <= c -> registry_ok t (new m c).
Proof.
  intros Hm Hc. split; cbn; try (intros *; rewrite lookup_empty); [done| |done|rewrite map_size_empty; unfold MAX_SESSIONS; lia|by rewrite map_size_empty].
  split; [done|]. intros (x & Hx & _). by rewrite lookup_empty in Hx.
Qed.

Lemma session_ok_later t now s : RtcSessionSafety.session_ok t s -> t <= now -> RtcSessionSafety.session_ok now s.
Proof. intros [O1 O2 O3] Hle. split; [by eapply IceSafety.agent_ok_later|done..]. Qed.
Lemma registry_ok_later t now self : registry_ok t self -> t <= now -> registry_ok now self.
Proof. intros [O1 O2 O3 O4 O5] Hle. split; try done. intros id m Hm. eapply session_ok_later; [by eapply O1|done]. Qed.

(** One session has moved on without a restart. *)
Lemma registry_touch t self id m s : registry_ok t self -> sessions self !! id = Some m -> RtcSessionSafety.session_ok t s ->
  keeps (RtcSession.ice (session m)) (RtcSession.ice s) -> registry_ok t (set_sessions (<[id := with_session s m]> (sessions self)) self).
Proof.
  intros [O1 O2 O3 O4 O5] Hm Hs [K1 K2]. assert (size (<[id := with_session s m]> (sessions self)) = size (sessions self)) as Hsz by by rewrite map_size_insert_Some.
  split; cbn.
  - intros i x. rewrite lookup_insert_Some. intros [[_ <-]|[_ Hx]]; [done|by eapply O1].
  - intros u i. rewrite O2. destruct (decide (i = id)) as [->|Hne]; [|by setoid_rewrite lookup_insert_ne; [|done]].
    setoid_rewrite lookup_insert_eq. rewrite Hm. unfold ufrag. split; intros (x & [= <-] & Hu); eexists; (split; [reflexivity|]); cbn in *; by rewrite ?K1 in *.
  - intros r i (x & l & Hx & Hk)%O3. destruct (decide (i = id)) as [->|Hne]; [|exists x, l; by rewrite lookup_insert_ne].
    eexists _, l. rewrite lookup_insert_eq. split; [reflexivity|]. cbn. apply K2. by simplify_eq.
  - by rewrite Hsz.
  - by rewrite Hsz.
Qed.

Lemma on_session_ok {A} t self id m (body : prog Session RtcSession.SessionError.t A) : registry_ok t self -> sessions self !! id = Some m ->
  preserves (RtcSessionSafety.session_ok t) body -> keeps (RtcSession.ice (session m)) (RtcSession.ice (body (session m)).1) ->
  registry_ok t (on_session id m body self).1.
Proof.
  intros Hok Hm Hb Hk. unfold on_session. specialize (Hb (session m) (ro_session _ _ Hok _ _ Hm)). destruct (body (session m)) as [s o]. by apply registry_touch.
Qed.
Lemma by_id_ok {A} t self id (body : prog Session RtcSession.SessionError.t A) : registry_ok t self -> preserves (RtcSessionSafety.session_ok t) body ->
  (forall s, keeps (RtcSession.ice s) (RtcSession.ice (body s).1)) -> registry_ok t (by_id id body self).1.
Proof.
  intros Hok Hb Hk. unfold by_id. rewrite (prog_step _ _ self self self) by done. unfold mbind at 1, prog_bind at 1, lift at 1.
  destruct (sessions self !! id) as [m|] eqn:Hm; [|done]. cbn [ok_or]. pose proof (on_session_ok t self id m body Hok Hm Hb (Hk _)) as Ho.
  unfold mbind, prog_bind. by destruct (on_session id m body self) as [self' [[s a]|e| |]].
Qed.

(** ** Provisioning, restart and removal *)
Lemma forget_Some {K} `{Countable K} (id : bytes) (m : gmap K bytes) k v : forget id m !! k = Some v <-> m !! k = Some v /\ v <> id.
Proof. unfold forget. by rewrite map_lookup_filter_Some. Qed.

Lemma credentials_ufrag u p c : credentials u p = Ok c -> IceLite.username_fragment c = u.
Proof.
  unfold credentials. intros H%map_err_Ok. unfold IceLite.CredentialsNew.new in H. do 3 (apply bind_Ok in H as (? & _ & H)). by apply Ok_inj in H as <-.
Qed.
Lemma fresh_config_ok l r tie : u64 tie -> IceSafety.config_ok (IceLite.ConfigurationNew.new l r tie).
Proof. intros H. unfold IceSafety.config_ok. split_and!; [by vm_compute..|done]. Qed.
Lemma fresh_session_ok t c : IceSafety.config_ok c -> RtcSessionSafety.session_ok t (RtcSession.new (IceLite.new c)).
Proof. intros Hc. split; [by apply IceSafety.new_agent_ok|done|by left]. Qed.

(** What [provision] asks for, and the registry it leaves. *)
Record provisionable (self : SessionRegistry) (input : SessionProvision) (l r : IceLite.Credentials) : Prop := {
  pv_session : validate_identifier (sp_session_id input) 128 = Ok tt;
  pv_room : validate_identifier (sp_room_id input) 128 = Ok tt;
  pv_participant : validate_identifier (sp_participant_id input) 128 = Ok tt;
  pv_fingerprint : 1 <= len (sp_expected_peer_fingerprint input) <= 256;
  pv_local : credentials (sp_local_username_fragment input) (sp_local_password input) = Ok l;
  pv_remote : credentials (sp_remote_username_fragment input) (sp_remote_password input) = Ok r;
  pv_fresh : sessions self !! sp_session_id input = None;
  pv_ufrag : local_ufrag_to_session self !! sp_local_username_fragment input = None;
  pv_capacity : Z.of_nat (size (sessions self)) < capacity self }.
Definition provisioned (input : SessionProvision) (l r : IceLite.Credentials) (self : SessionRegistry) : SessionRegistry :=
  {| sessions := <[sp_session_id input := {| room_id := sp_room_id input; participant_id := sp_participant_id input;
       expected_peer_fingerprint := sp_expected_peer_fingerprint input;
       session := RtcSession.new (IceLite.new (IceLite.ConfigurationNew.new l r (sp_tie_breaker input))) |}]> (sessions self);
     local_ufrag_to_session := <[sp_local_username_fragment input := sp_session_id input]> (local_ufrag_to_session self);
     remote_to_session := remote_to_session self; metrics := count_sessions 1 (metrics self); capacity := capacity self |}.

(** A check either lets the call go on or ends it. *)
Lemma guard_cases {S E A B} (o : outcome E A) (f : A -> prog S E B) s : returns o ->
  (exists a, o = Ok a /\ (lift o ≫= f) s = f a s) \/ (exists e, o = Err e /\ (lift o ≫= f) s = (s, Err e)).
Proof. intros H. destruct o as [a|e| |]; [left; by exists a|right; by exists e|done..]. Qed.
Ltac refused := match goal with H : _ = Err _ |- _ => right; eexists; split; [reflexivity|]; intros ? ? []; rewrite ?bool_decide_eq_false_2 in H by (by rewrite eq_None_not_Some in *); congruence || (cbn in H; lia) end.
Ltac check_step Hok H := let e := fresh "e" in
  match goal with |- context [(lift ?o ≫= ?f) ?s] =>
    destruct (guard_cases o f s) as [(Hok & H & ->)|(e & H & ->)]; [auto with returns|..] end.

Lemma returns_validate v n : returns (validate_identifier v n).
Proof. apply returns_reject_if. Qed.
Lemma returns_credentials u p : returns (credentials u p).
Proof. apply returns_map_err. unfold IceLite.CredentialsNew.new. returns_steps. Qed.
#[local] Hint Resolve returns_validate returns_credentials : returns.

Lemma provision_cases input self :
  (exists l r, provisionable self input l r /\ provision input self = (provisioned input l r self, Ok tt)) \/
  (exists e, provision input self = (self, Err e) /\ forall l r, ~ provisionable self input l r).
Proof.
  unfold provision. check_step v1 H1; [destruct v1|refused]. check_step v2 H2; [destruct v2|refused]. check_step v3 H3; [destruct v3|refused].
  check_step v4 H4; [apply reject_if_Ok in H4; clear v4|right; eexists; split; [reflexivity|]; intros ? ? []; unfold reject_if in H4; case_match; [lia|done]].
  check_step l H5; [|refused]. check_step r H6; [|refused]. cbv zeta. rewrite (prog_step _ _ self self self) by done.
  check_step v7 H7; [apply reject_if_Ok, bool_decide_eq_false, eq_None_not_Some in H7; clear v7|
    right; eexists; split; [reflexivity|]; intros ? ? [? ? ? ? ? ? P7 ? ?]; rewrite bool_decide_eq_false_2 in H7; [done|by apply eq_None_not_Some]].
  check_step v8 H8; [apply reject_if_Ok, bool_decide_eq_false, eq_None_not_Some in H8; clear v8|
    right; eexists; split; [reflexivity|]; intros ? ? [? ? ? ? ? ? ? P8 ?]; rewrite bool_decide_eq_false_2 in H8; [done|by apply eq_None_not_Some]].
  check_step v9 H9; [apply reject_if_Ok in H9; clear v9|right; eexists; split; [reflexivity|]; intros ? ? []; unfold reject_if in H9; case_match; [lia|done]].
  left. exists l, r. split; [|reflexivity]. split; try done; pose_len; lia.
Qed.
Lemma provisioned_ok t input l r self : registry_ok t self -> provisionable self input l r -> u64 (sp_tie_breaker input) ->
  registry_ok t (provisioned input l r self).
Proof.
  intros [O1 O2 O3 O4 O5] [P1 P2 P3 P4 P5 P6 P7 P8 P9] Htie. unfold provisioned. set (m := {| room_id := _; participant_id := _; expected_peer_fingerprint := _; session := _ |}).
  assert (ufrag m = sp_local_username_fragment input) as Hu by (unfold ufrag; cbn; by eapply credentials_ufrag).
  assert (size (<[sp_session_id input := m]> (sessions self)) = S (size (sessions self))) as Hsz by by rewrite map_size_insert_None.
  split; cbn [sessions local_ufrag_to_session remote_to_session metrics capacity].
  - intros i x. rewrite lookup_insert_Some. intros [[_ <-]|[_ Hx]]; [by apply fresh_session_ok, fresh_config_ok|by eapply O1].
  - intros u i. rewrite lookup_insert_Some, O2. split.
    + intros [[<- <-]|[Hne (x & Hx & Hxu)]]; [exists m; by rewrite lookup_insert_eq|]. exists x. split; [|done]. rewrite lookup_insert_ne; [done|]. intros <-. by simplify_eq.
    + intros (x & Hx & <-). apply lookup_insert_Some in Hx as [[<- <-]|[Hne Hx]]; [by left|]. right. split; [|by exists x]. intros E.
      assert (is_Some (local_ufrag_to_session self !! ufrag x)) as [? Hs] by (exists i; apply O2; by exists x). rewrite <- E, P8 in Hs. done.
  - intros a i (x & k & Hx & Hk)%O3. exists x, k. split; [|done]. rewrite lookup_insert_ne; [done|]. intros <-. by simplify_eq.
  - rewrite Hsz. lia.
  - rewrite Hsz. cbn. unfold gauge_add. rewrite O5. unfold MAX_SESSIONS in O4. lia.
Qed.

Record restartable (self : SessionRegistry) (input : SessionIceRestart) (l r : IceLite.Credentials) (m : ManagedSession) : Prop := {
  rs_session : validate_identifier (sr_session_id input) 128 = Ok tt;
  rs_local : credentials (sr_local_username_fragment input) (sr_local_password input) = Ok l;
  rs_remote : credentials (sr_remote_username_fragment input) (sr_remote_password input) = Ok r;
  rs_known : sessions self !! sr_session_id input = Some m;
  rs_ufrag id : local_ufrag_to_session self !! sr_local_username_fragment input = Some id -> id = sr_session_id input }.
Definition restarted (input : SessionIceRestart) (l r : IceLite.Credentials) (m : ManagedSession) (self : SessionRegistry) : SessionRegistry :=
  let id := sr_session_id input in
  {| sessions := <[id := with_session (RtcSession.restart_ice (IceLite.ConfigurationNew.new l r (sr_tie_breaker input)) (session m)) m]> (sessions self);
     local_ufrag_to_session := <[sr_local_username_fragment input := id]> (forget id (local_ufrag_to_session self));
     remote_to_session := forget id (remote_to_session self); metrics := metrics self; capacity := capacity self |}.
Lemma restart_cases input self :
  (exists l r m, restartable self input l r m /\ restart_ice input self = (restarted input l r m self, Ok tt)) \/
  (exists e, restart_ice input self = (self, Err e) /\ forall l r m, ~ restartable self input l r m).
Proof.
  unfold restart_ice. check_step v1 H1; [destruct v1|right; eexists; split; [reflexivity|]; intros ? ? ? []; congruence].
  check_step l H2; [|right; eexists; split; [reflexivity|]; intros ? ? ? []; congruence].
  check_step r H3; [|right; eexists; split; [reflexivity|]; intros ? ? ? []; congruence]. rewrite (prog_step _ _ self self self) by done.
  check_step m H4; [apply ok_or_Ok in H4|right; eexists; split; [reflexivity|]; intros ? ? m []; destruct (sessions self !! _); done].
  check_step v5 H5.
  - apply reject_if_Ok in H5. clear v5. left. exists l, r, m. split; [|reflexivity]. split; try done. intros i Hi. rewrite Hi in H5. cbn in H5. by case_bool_decide.
  - right. eexists. split; [reflexivity|]. intros ? ? ? [_ _ _ _ R]. destruct (local_ufrag_to_session self !! _) as [i|]; [|done].
    cbn in H5. rewrite (R i eq_refl), bool_decide_eq_true_2 in H5; done.
Qed.
Lemma restarted_ok t input l r m self : registry_ok t self -> restartable self input l r m -> u64 (sr_tie_breaker input) ->
  registry_ok t (restarted input l r m self).
Proof.
  intros [O1 O2 O3 O4 O5] [R1 R2 R3 R4 R5] Htie. unfold restarted. set (id := sr_session_id input) in *. set (m' := with_session _ m).
  assert (ufrag m' = sr_local_username_fragment input) as Hu by (unfold ufrag; cbn; by eapply credentials_ufrag).
  assert (size (<[id := m']> (sessions self)) = size (sessions self)) as Hsz by by rewrite map_size_insert_Some.
  split; cbn [sessions local_ufrag_to_session remote_to_session metrics capacity]; [| | |by rewrite Hsz|by rewrite Hsz].
  - intros i x. rewrite lookup_insert_Some. intros [[_ <-]|[_ Hx]]; [|by eapply O1]. split; cbn; [by apply IceSafety.new_agent_ok, fresh_config_ok|done|by left].
  - intros u i. rewrite lookup_insert_Some, forget_Some, O2. split.
    + intros [[<- <-]|(Hne & (x & Hx & Hxu) & Hi)]; [exists m'; by rewrite lookup_insert_eq|]. exists x. by rewrite lookup_insert_ne.
    + intros (x & Hx & <-). apply lookup_insert_Some in Hx as [[<- <-]|[Hne Hx]]; [by left|]. right. split_and!; [|by exists x|done]. intros E. apply Hne. symmetry. apply R5.
      apply O2. by exists x.
  - intros a i [Hi Hne]%forget_Some. destruct (O3 a i Hi) as (x & k & Hx & Hk). exists x, k. by rewrite lookup_insert_ne.
Qed.

Definition removed (id : bytes) (self : SessionRegistry) : SessionRegistry :=
  {| sessions := delete id (sessions self); local_ufrag_to_session := forget id (local_ufrag_to_session self);
     remote_to_session := forget id (remote_to_session self); metrics := count_sessions (-1) (metrics self); capacity := capacity self |}.
Lemma remove_spec id self : remove id self = match sessions self !! id with Some _ => (removed id self, true) | None => (self, false) end.
Proof. unfold remove. by destruct (sessions self !! id). Qed.
Lemma remove_ok t id self : registry_ok t self -> registry_ok t (remove id self).1.
Proof.
  intros Hok. rewrite remove_spec. destruct (sessions self !! id) as [m|] eqn:Hm; [|done]. destruct Hok as [O1 O2 O3 O4 O5]. cbn [fst].
  assert (Z.of_nat (size (delete id (sessions self))) = Z.of_nat (size (sessions self)) - 1) as Hsz.
  { rewrite map_size_delete_Some by done. assert (size (sessions self) <> 0%nat); [|lia]. intros E%map_size_empty_inv. by rewrite E, lookup_empty in Hm. }
  split; cbn.
  - intros i x [_ Hx]%lookup_delete_Some. by eapply O1.
  - intros u i. rewrite forget_Some, O2. setoid_rewrite lookup_delete_Some. naive_solver.
  - intros a i [Hi Hne]%forget_Some. destruct (O3 a i Hi) as (x & k & Hx & Hk). exists x, k. by rewrite lookup_delete_ne.
  - rewrite Hsz. lia.
  - rewrite Hsz. unfold gauge_add. rewrite O5. unfold MAX_SESSIONS in O4. lia.
Qed.

(** ** Datagrams *)
Section Datagrams.
Context {stun_crypto : Stun.StunCrypto} {srtp_crypto : Srtp.SrtpCrypto}.

(** The session a datagram belongs to: STUN by the fragment before the colon of its user name, the rest by its source. *)
Definition addressed_to (self : SessionRegistry) (remote : SocketAddr) (input id : bytes) : Prop :=
  match Datagram.classify (E:=RegistryError) input with
  | Ok Datagram.Stun => exists message username, Stun.parse input = Ok message /\ Stun.username message = Ok (Some username) /\
      local_ufrag_to_session self !! (match split_once 0x3a username with Some (l, _) => l | None => username end) = Some id
  | Ok _ => remote_to_session self !! remote = Some id
  | _ => False
  end.

(** The effect of a datagram on the session [m] it belongs to and on the routes. *)
Record dispatched (self : SessionRegistry) (l r : SocketAddr) (input id : bytes) (m : ManagedSession) (s : Session)
    (result : outcome RtcSession.SessionError.t (list RtcSession.SessionAction.t)) (self' : SessionRegistry) (o : outcome RegistryError RoutedActions) : Prop := {
  di_gated : RtcSessionSafety.gated (session m) l r input s result;
  di_sessions : sessions self' = <[id := with_session s m]> (sessions self);
  di_ufrags : local_ufrag_to_session self' = local_ufrag_to_session self;
  di_outcome : match result with
    | Ok actions =>
        if bool_decide (RtcSession.selected_remote s = Some r) then
          if bool_decide (remote_to_session self !! r = None \/ remote_to_session self !! r = Some id)
          then remote_to_session self' = <[r := id]> (remote_to_session self) /\ o = Ok (routed id m actions)
          else remote_to_session self' = remote_to_session self /\ o = Err RemoteCollision
        else remote_to_session self' = remote_to_session self /\ o = Ok (routed id m actions)
    | Err e => remote_to_session self' = remote_to_session self /\ o = Err (Transport e)
    | Panic | Diverge => False
    end }.

Lemma returns_route_stun input self : rust_slice input -> returns (route_stun input self).
Proof.
  intros Hin. unfold route_stun. apply returns_bind; [by apply returns_map_err, StunCodec.returns_stun_parse|]. intros m _.
  apply returns_bind; [apply returns_map_err, IceSafety.returns_utf8_attribute|]. intros u _. apply returns_bind; [apply returns_ok_or|]. intros x _. apply returns_ok_or.
Qed.
Lemma route_stun_Ok input self id : route_stun input self = Ok id <-> exists message username, Stun.parse input = Ok message /\
  Stun.username message = Ok (Some username) /\ local_ufrag_to_session self !! (match split_once 0x3a username with Some (l, _) => l | None => username end) = Some id.
Proof.
  unfold route_stun. split.
  - intros H. apply bind_Ok in H as (m & Hm%map_err_Ok & H). apply bind_Ok in H as (o & Ho%map_err_Ok & H). apply bind_Ok in H as (u & Hu%ok_or_Ok & H).
    apply ok_or_Ok in H. subst o. by exists m, u.
  - intros (m & u & -> & Hu & Hid). cbn [map_err mbind outcome_bind]. rewrite Hu. cbn [map_err mbind outcome_bind ok_or]. by rewrite Hid.
Qed.
Lemma addressed_known t self r input id : registry_ok t self -> addressed_to self r input id -> exists m, sessions self !! id = Some m.
Proof.
  intros Hok H. unfold addressed_to in H. assert (remote_to_session self !! r = Some id -> exists m, sessions self !! id = Some m) as Hroute.
  { intros Hr. apply (ro_remote _ _ Hok) in Hr as (m & _ & Hm & _). by exists m. }
  destruct (Datagram.classify input) as [[]|e| |]; auto; try done.
  destruct H as (? & ? & _ & _ & H). apply (ro_ufrag _ _ Hok) in H as (m & Hm & _). by exists m.
Qed.

(** The selected address of a session is one its peer nominated. *)
Lemma selected_nominated_key t s r : RtcSessionSafety.session_ok t s -> RtcSession.selected_remote s = Some r ->
  exists l, nominated_key (RtcSession.ice s) (l, r).
Proof.
  intros [Ha [_ Ht] _] Hr. rewrite Ht in Hr. apply fmap_Some in Hr as (p & Hp & ->).
  destruct (IceSafety.ok_selected _ (IceSafety.ok_pairs _ _ Ha) p Hp) as [_ (q & Hq & Hk & Hn)]. exists (IceLite.local p), q. split_and!; [done| |done].
  rewrite Hk. done.
Qed.

Lemma claim_route_cases r id self :
  (remote_to_session self !! r = None \/ remote_to_session self !! r = Some id) /\ claim_route r id self = (set_remotes (<[r := id]> (remote_to_session self)) self, Ok tt) \/
  ~ (remote_to_session self !! r = None \/ remote_to_session self !! r = Some id) /\ claim_route r id self = (self, Err RemoteCollision).
Proof.
  unfold claim_route. rewrite (prog_step _ _ self self self) by done. unfold mbind, prog_bind, lift, modify.
  destruct (remote_to_session self !! r) as [x|]; cbn; [|left; auto]. case_bool_decide as E; cbn; [left; subst; auto|right]. split; [|done]. intros [|]; congruence.
Qed.
Lemma claimed_ok t self r id m : registry_ok t self -> sessions self !! id = Some m -> RtcSession.selected_remote (session m) = Some r ->
  registry_ok t (set_remotes (<[r := id]> (remote_to_session self)) self).
Proof.
  intros [O1 O2 O3 O4 O5] Hm Hr. split; cbn; try done. intros a i. rewrite lookup_insert_Some. intros [[<- <-]|[_ Hi]]; [|by apply O3].
  destruct (selected_nominated_key t (session m) r (O1 _ _ Hm) Hr) as [l Hl]. by exists m, l.
Qed.
Lemma counted_ok t self m : registry_ok t self -> active_sessions m = active_sessions (metrics self) -> registry_ok t (set_metrics m self).
Proof. intros [O1 O2 O3 O4 O5] Hm. split; cbn; try done. by rewrite Hm. Qed.

(** Past the routing: the session, the route and the counters. *)
Definition deliver (now : Z) (l r : SocketAddr) (input id : bytes) (m : ManagedSession) : registry RoutedActions :=
  '(s, actions) ← on_session id m (RtcSession.handle_datagram now l r input);
  _ ← (if bool_decide (RtcSession.selected_remote s = Some r) then claim_route r id else mret tt);
  _ ← modify (fun self => set_metrics (count_media input actions (metrics self)) self);
  mret (routed id m actions).
Lemma deliver_spec t now l r input id m self : registry_ok t self -> t <= now -> rust_slice input -> addr_ok r -> sessions self !! id = Some m ->
  let '(self', o) := deliver now l r input id m self in
  registry_ok now self' /\ exists s result, dispatched self l r input id m s result self' o.
Proof.
  intros Hok Hle Hin Hr Hm. pose proof (registry_ok_later _ _ _ Hok Hle) as Hok'. unfold deliver, on_session.
  pose proof (RtcSessionSafety.handle_datagram_gated t now l r input (session m) (ro_session _ _ Hok _ _ Hm) Hle Hin Hr) as Hg.
  pose proof (session_datagram_keeps now l r input (session m)) as Hk.
  unfold mbind at 1, prog_bind at 1. destruct (RtcSession.handle_datagram now l r input (session m)) as [s result]. cbn [fst] in Hk. destruct Hg as [Hs Hg].
  pose proof (registry_touch now self id m s Hok' Hm Hs Hk) as Ht. set (self1 := set_sessions _ self) in *.
  destruct result as [actions|e| |]; cbn [map_err fmap outcome_fmap]; [|split; [done|]; exists s, (Err e); by split|done|done].
  assert (sessions self1 !! id = Some (with_session s m)) as Hm1 by apply lookup_insert_eq.
  case_bool_decide as Hsel.
  - destruct (claim_route_cases r id self1) as [[Hfree Hc]|[Hbusy Hc]]; unfold mbind at 1, prog_bind at 1; rewrite Hc; cbn.
    + split; [apply (counted_ok now (set_remotes (<[r := id]> (remote_to_session self1)) self1)); [|done]; by apply (claimed_ok now self1 r id (with_session s m))|]. exists s, (Ok actions). split; [done..|]. cbn. rewrite !bool_decide_eq_true_2; done.
    + split; [done|]. exists s, (Ok actions). split; [done..|]. cbn. rewrite bool_decide_eq_true_2, bool_decide_eq_false_2; done.
  - cbn. split; [by apply (counted_ok now self1)|]. exists s, (Ok actions). split; [done..|]. cbn. by rewrite bool_decide_eq_false_2.
Qed.

Lemma handle_datagram_cases t now l r input self : registry_ok t self -> t <= now -> rust_slice input -> addr_ok r ->
  let '(self', o) := handle_datagram now l r input self in
  registry_ok now self' /\
  ((self' = self /\ (exists e, o = Err e) /\ forall id, ~ addressed_to self r input id) \/
   exists id m s result, addressed_to self r input id /\ sessions self !! id = Some m /\ dispatched self l r input id m s result self' o).
Proof.
  intros Hok Hle Hin Hr. pose proof (registry_ok_later _ _ _ Hok Hle) as Hok'. unfold handle_datagram.
  pose proof (Datagram.returns_classify (E:=RegistryError) input) as Hc. unfold mbind at 1, prog_bind at 1, lift at 1.
  destruct (Datagram.classify input) as [kind|e| |] eqn:Hkind; [|split; [done|]; left; split_and!; [done|by exists e|]; intros id Hid; unfold addressed_to in Hid; by rewrite Hkind in Hid|done..].
  rewrite (prog_step _ _ self self self) by done.
  set (route := match kind with Datagram.Stun => route_stun input self | _ => ok_or (remote_to_session self !! r) UnknownRemote end).
  assert (returns route) as Hret by (unfold route; destruct kind; (by apply returns_route_stun) || apply returns_ok_or).
  assert (forall id, route = Ok id <-> addressed_to self r input id) as Hroute.
  { intros id. unfold route, addressed_to. rewrite Hkind. destruct kind; first [apply route_stun_Ok|by rewrite ok_or_Ok]. }
  destruct route as [id|e| |]; [|..|done|done]; last first.
  { split; [done|]. left. split_and!; [done|by exists e|]. intros id Hid%Hroute. done. }
  assert (addressed_to self r input id) as Hto by by apply Hroute. destruct (addressed_known t self r input id Hok Hto) as [m Hm].
  rewrite (prog_step _ _ self self id) by done. rewrite (prog_step _ _ self self m) by (unfold lift; by rewrite Hm).
  pose proof (deliver_spec t now l r input id m self Hok Hle Hin Hr Hm) as Hd.
  match goal with |- let '(_, _) := ?x in _ => change x with (deliver now l r input id m self) end. destruct (deliver now l r input id m self) as [self' o]. destruct Hd as (H1 & s & result & H2). split; [done|]. right. by exists id, m, s, result.
Qed.
End Datagrams.

(** ** Timers *)
Definition ticked (now : Z) (m : ManagedSession) : ManagedSession := with_session (RtcSession.tick now (session m)).1 m.
Section Timers.
Context {stun_crypto : Stun.StunCrypto} {srtp_crypto : Srtp.SrtpCrypto} {iteration : HashIteration}.

Lemma tick_fold now entries : forall acc, NoDup entries.*1 ->
  let acc' := foldl (tick_one now) acc entries in
  (forall id, sessions acc'.1 !! id = match list_to_map (M:=gmap bytes ManagedSession) entries !! id with Some m => Some (ticked now m) | None => sessions acc.1 !! id end) /\
  local_ufrag_to_session acc'.1 = local_ufrag_to_session acc.1 /\ remote_to_session acc'.1 = remote_to_session acc.1 /\
  metrics acc'.1 = metrics acc.1 /\ capacity acc'.1 = capacity acc.1 /\
  acc'.2 = acc.2 ++ omap (fun kv => match (RtcSession.tick now (session kv.2)).2 with [] => None | actions => Some (routed kv.1 kv.2 actions) end) entries.
Proof.
  induction entries as [|[id m] entries IH]; intros acc Hnd; cbn [foldl]; [by rewrite app_nil_r|].
  apply NoDup_cons in Hnd as [Hni Hnd]. set (acc1 := tick_one now acc (id, m)).
  assert (sessions acc1.1 = <[id := ticked now m]> (sessions acc.1) /\ local_ufrag_to_session acc1.1 = local_ufrag_to_session acc.1 /\
    remote_to_session acc1.1 = remote_to_session acc.1 /\ metrics acc1.1 = metrics acc.1 /\ capacity acc1.1 = capacity acc.1 /\
    acc1.2 = acc.2 ++ match (RtcSession.tick now (session m)).2 with [] => [] | actions => [routed id m actions] end) as (F1 & F2 & F3 & F4 & F5 & F6).
  { unfold acc1, tick_one, ticked. destruct (RtcSession.tick now (session m)) as [s []]; by split_and!. }
  destruct (IH acc1 Hnd) as (H1 & H2 & H3 & H4 & H5 & H6). cbv zeta. rewrite H2, H3, H4, H5, H6, F2, F3, F4, F5, F6. split_and!; [|done..|].
  - intros i. rewrite H1, F1. cbn. destruct (decide (i = id)) as [->|Hne]; [|by rewrite !lookup_insert_ne].
    rewrite not_elem_of_list_to_map_1 by done. by rewrite !lookup_insert_eq.
  - cbn. rewrite <- app_assoc. by destruct (RtcSession.tick now (session m)).2.
Qed.

(** Every session is ticked once, and those with something to report are listed. *)
Lemma registry_tick_spec now self : let '(self', out) := tick now self in
  sessions self' = ticked now <$> sessions self /\ local_ufrag_to_session self' = local_ufrag_to_session self /\ remote_to_session self' = remote_to_session self /\
  metrics self' = metrics self /\ capacity self' = capacity self /\
  forall ra, ra ∈ out <-> exists id m, sessions self !! id = Some m /\ (RtcSession.tick now (session m)).2 <> [] /\ ra = routed id m (RtcSession.tick now (session m)).2.
Proof.
  unfold tick. pose proof (tick_fold now (iter (sessions self)) (self, [])) as H.
  assert (NoDup (iter (sessions self)).*1) as Hnd by (rewrite (SfuRuntime.iter_perm (sessions self)); apply NoDup_fst_map_to_list).
  specialize (H Hnd). destruct (foldl _ _ _) as [self' out]. cbn [fst snd app] in H. destruct H as (H1 & H2 & H3 & H4 & H5 & H6). split_and!; [|done..|].
  - apply map_eq. intros id. rewrite H1, lookup_fmap. rewrite (list_to_map_proper _ _ Hnd (SfuRuntime.iter_perm _)), list_to_map_to_list. by destruct (sessions self !! id).
  - intros ra. rewrite H6, SfuRuntimeInvariant.omap_iter. split.
    + intros (id & m & Hm & Hf). exists id, m. cbn in Hf. destruct (RtcSession.tick now (session m)) as [s acts]. cbn in *. destruct acts; by simplify_eq.
    + intros (id & m & Hm & Hne & ->). exists id, m. split; [done|]. cbn. by destruct (RtcSession.tick now (session m)) as [s []].
Qed.
Lemma registry_tick_ok t now self : registry_ok t self -> t <= now -> registry_ok now (tick now self).1.
Proof.
  intros Hok Hle. pose proof (registry_tick_spec now self) as H. destruct (tick now self) as [self' out]. destruct H as (H1 & H2 & H3 & H4 & H5 & _). cbn [fst].
  destruct Hok as [O1 O2 O3 O4 O5]. split; rewrite ?H1, ?H2, ?H3, ?H4, ?H5, ?map_size_fmap; try done.
  - intros id m Hm. rewrite lookup_fmap in Hm. apply fmap_Some in Hm as (x & Hx & ->).
    destruct (RtcSessionSafety.tick_spec t now (session x) (O1 _ _ Hx) Hle) as (a' & _ & Ht & Hs). cbn. by rewrite Ht.
  - intros u id. rewrite O2, lookup_fmap. split.
    + intros (m & Hm & <-). exists (ticked now m). rewrite Hm. split; [done|]. unfold ufrag, ticked. cbn. by rewrite (proj1 (session_tick_keeps now (session m))).
    + intros (x & Hx & <-). apply fmap_Some in Hx as (m & Hm & ->). exists m. split; [done|]. unfold ufrag, ticked. cbn. by rewrite (proj1 (session_tick_keeps now (session m))).
  - intros r id (m & l & Hm & Hk)%O3. exists (ticked now m), l. rewrite lookup_fmap, Hm. split; [done|]. cbn. by apply (session_tick_keeps now (session m)).
Qed.
End Timers.

(** * services/media-node: the calls of the registry of transport sessions

    Every public method that changes the registry is a step.  The theorems hold from every reachable registry. *)

Section Steps.
Context {stun_crypto : Stun.StunCrypto} {srtp_crypto : Srtp.SrtpCrypto} {iteration : HashIteration}.

Inductive reachable : Z -> SessionRegistry -> Prop :=
| reach_new t m c : active_sessions m = 0 -> 0 <= c -> reachable t (new m c)
| reach_provision t self input : reachable t self -> u64 (sp_tie_breaker input) -> reachable t (provision input self).1
| reach_restart t self input : reachable t self -> u64 (sr_tie_breaker input) -> reachable t (restart_ice input self).1
| reach_remove t self id : reachable t self -> reachable t (remove id self).1
| reach_datagram t self now l r input : reachable t self -> t <= now -> rust_slice input -> addr_ok r -> reachable now (handle_datagram now l r input self).1
| reach_tick t self now : reachable t self -> t <= now -> reachable now (tick now self).1
| reach_install t self id keying : reachable t self -> reachable t (install_dtls_keying_material id keying self).1
| reach_transmit t self id payload : reachable t self -> reachable t (transmit_dtls id payload self).1
| reach_protect_rtp t self id packet : reachable t self -> reachable t (protect_rtp id packet self).1
| reach_protect_rtcp t self id packet : reachable t self -> reachable t (protect_rtcp id packet self).1.

Lemma sessions_reachable_ok t self : reachable t self -> registry_ok t self.
Proof.
  induction 1 as [t m c Hm Hc|t self input _ IH Htie|t self input _ IH Htie|t self id _ IH|t self now l r input _ IH Hle Hin Hr|t self now _ IH Hle|
    t self id keying _ IH|t self id payload _ IH|t self id packet _ IH|t self id packet _ IH].
  - by apply new_registry_ok.
  - destruct (provision_cases input self) as [(l & r & Hp & ->)|(e & -> & _)]; [by apply provisioned_ok|done].
  - destruct (restart_cases input self) as [(l & r & m & Hp & ->)|(e & -> & _)]; [by apply restarted_ok|done].
  - by apply remove_ok.
  - pose proof (handle_datagram_cases t now l r input self IH Hle Hin Hr) as H. destruct (handle_datagram _ _ _ _ _). apply H.
  - by eapply registry_tick_ok.
  - apply by_id_ok; [done|apply RtcSessionSafety.install_keeps|]. intros s. by rewrite install_agent.
  - apply by_id_ok; [done|by intros s Hs|]. intros s. apply keeps_refl.
  - apply by_id_ok; [done|apply RtcSessionSafety.protect_rtp_keeps|]. intros s. apply protect_rtp_agent.
  - apply by_id_ok; [done|apply RtcSessionSafety.protect_rtcp_keeps|]. intros s. apply protect_rtcp_agent.
Qed.

(** C12: the routing tables of a media node agree at all times.  After any sequence of calls every session is consistent with
    its ICE agent; a user name fragment leads to a session exactly when it is the fragment of that session's present ICE
    generation; an address leads only to a session whose peer nominated it in an authenticated check of that generation; the
    number of sessions is within the capacity of the node, at most 100000, and is what the gauge shows. *)
Theorem sessions_invariant t self : reachable t self -> registry_ok t self.
Proof. apply sessions_reachable_ok. Qed.

(** C11: a datagram reaches the one session it is addressed to, and nothing else.  The registry comes back on every datagram
    and every other session, every fragment and every established route stay as they were: an address cannot be taken over.
    What is handed on is exactly what the session let through ([RtcSessionSafety.gated]: a reply to an authenticated check, a
    DTLS record or decrypted media of the nominated pair), under the room, the participant and the fingerprint that session
    was provisioned with.  A datagram addressed to no session changes nothing. *)
Theorem datagram_isolated t now l r input self : reachable t self -> t <= now -> rust_slice input -> addr_ok r ->
  let '(self', o) := handle_datagram now l r input self in
  returns o /\ local_ufrag_to_session self' = local_ufrag_to_session self /\
  (forall id, ~ addressed_to self r input id -> sessions self' !! id = sessions self !! id) /\
  (forall a id, remote_to_session self !! a = Some id -> remote_to_session self' !! a = Some id) /\
  (forall ra, o = Ok ra -> exists m s, addressed_to self r input (ra_session_id ra) /\ sessions self !! ra_session_id ra = Some m /\
     ra = routed (ra_session_id ra) m (ra_actions ra) /\ RtcSessionSafety.gated (session m) l r input s (Ok (ra_actions ra)) /\
     sessions self' !! ra_session_id ra = Some (with_session s m)) /\
  ((forall id, ~ addressed_to self r input id) -> self' = self).
Proof.
  intros Hok%sessions_reachable_ok Hle Hin Hr. pose proof (handle_datagram_cases t now l r input self Hok Hle Hin Hr) as H.
  destruct (handle_datagram now l r input self) as [self' o]. destruct H as [_ [(-> & [e ->] & _)|(id & m & s & result & Hto & Hm & [D1 D2 D3 D4])]]; [by split_and!|].
  assert (forall i, i <> id -> sessions self' !! i = sessions self !! i) as Hothers by (intros i Hi; by rewrite D2, lookup_insert_ne).
  assert (sessions self' !! id = Some (with_session s m)) as Hself by (rewrite D2; apply lookup_insert_eq).
  split_and!; [|done| | | |by intros Hno; destruct (Hno id)].
  - destruct result as [actions|e| |]; [repeat case_bool_decide|..]; try done; by destruct D4 as [_ ->].
  - intros i Hi. apply Hothers. by intros ->.
  - intros a i Ha. destruct result as [actions|e| |]; [|by destruct D4 as [-> _]|done|done]. repeat case_bool_decide; [|by destruct D4 as [-> _]..].
    destruct D4 as [-> _]. destruct (decide (a = r)) as [->|]; [|by rewrite lookup_insert_ne]. rewrite lookup_insert_eq. destruct H0; congruence.
  - intros ra ->. destruct result as [actions|e| |]; [|by destruct D4|done|done].
    assert (ra = routed id m actions) as -> by (repeat case_bool_decide; destruct D4 as [_ D4]; by simplify_eq). by exists m, s.
Qed.

(** Every session but [id], with everything that leads to it, is as before. *)
Record others_kept (id : bytes) (self self' : SessionRegistry) : Prop := {
  ok_sessions i : i <> id -> sessions self' !! i = sessions self !! i;
  ok_ufrags u i : i <> id -> local_ufrag_to_session self' !! u = Some i <-> local_ufrag_to_session self !! u = Some i;
  ok_remotes a i : i <> id -> remote_to_session self' !! a = Some i <-> remote_to_session self !! a = Some i }.

Lemma restarted_others t input l r m self : registry_ok t self -> restartable self input l r m -> others_kept (sr_session_id input) self (restarted input l r m self).
Proof.
  intros Hok Hr. split; cbn.
  - intros i Hi. by rewrite lookup_insert_ne.
  - intros u i Hi. rewrite lookup_insert_Some, forget_Some. split; [intros [[_ E]|[_ [H _]]]; [by destruct Hi|done]|].
    intros H. right. split_and!; [|done..]. intros <-. apply Hi. by apply (rs_ufrag _ _ _ _ _ Hr).
  - intros a i Hi. rewrite forget_Some. tauto.
Qed.
Lemma removed_others id self : others_kept id self (removed id self).
Proof. split; cbn; [intros i Hi; by rewrite lookup_delete_ne|intros u i Hi; rewrite forget_Some; tauto..]. Qed.

(** removal and restart leave no alias behind.  After [remove] no datagram, whatever its source or user name, is addressed
    to the session.  After a successful [restart_ice] STUN is addressed to the session exactly by its new fragment and nothing
    else is until a new nomination; the keys and the identity of the session are kept, it is new again and has no address.  In
    both cases every other session is as reachable as before; a refused call changes nothing. *)
Theorem generation_replaced t self : reachable t self ->
  (forall id, let '(self', known) := remove id self in
     if known then (forall r input, ~ addressed_to self' r input id) /\ others_kept id self self' /\ sessions self' !! id = None
     else self' = self /\ sessions self !! id = None) /\
  (forall input, let '(self', o) := restart_ice input self in let id := sr_session_id input in
     match o with
     | Ok _ => others_kept id self self' /\ (forall u, local_ufrag_to_session self' !! u = Some id <-> u = sr_local_username_fragment input) /\
         (forall a, remote_to_session self' !! a <> Some id) /\
         exists m m', sessions self !! id = Some m /\ sessions self' !! id = Some m' /\ room_id m' = room_id m /\ participant_id m' = participant_id m /\
           RtcSession.srtp (session m') = RtcSession.srtp (session m) /\ RtcSession.state (session m') = RtcSession.New /\ RtcSession.selected_remote (session m') = None
     | Err _ => self' = self
     | _ => False
     end).
Proof.
  intros Hok%sessions_reachable_ok. split.
  - intros id. rewrite remove_spec. destruct (sessions self !! id) as [m|] eqn:Hm; [|done]. split_and!; [|apply removed_others|cbn; apply lookup_delete_eq].
    intros r input Hto. assert (forall {K} `{Countable K} (x : gmap K bytes) k, forget id x !! k <> Some id) as Hno by (intros * [_ E]%forget_Some; done).
    unfold addressed_to in Hto. cbn in Hto. destruct (Datagram.classify input) as [[]|e| |]; try done; try (by apply Hno in Hto).
    destruct Hto as (? & ? & _ & _ & Hto). by apply Hno in Hto.
  - intros input. destruct (restart_cases input self) as [(l & r & m & Hr & ->)|(e & -> & _)]; [|done]. cbv zeta.
    split_and!; [by eapply restarted_others| | |].
    + intros u. cbn. rewrite lookup_insert_Some, forget_Some. split; [intros [[-> _]|(_ & _ & E)]; done|by left].
    + intros a. cbn. by intros [_ E]%forget_Some.
    + eexists m, _. split; [apply Hr|]. cbn. rewrite lookup_insert_eq. by split_and!.
Qed.

(** a session whose peer nominates an address that an older session once used is lost.  While a route for the address
    leads to another session (routes outlive a renomination: they go only with the removal or the restart of their session),
    the check that selects the address moves the session on, but the call fails with [RemoteCollision]: the reply to the check
    and the report of the new state are dropped, and no route is made, so that every other datagram from that address still
    goes to the other session. *)
Theorem stale_route_collides t now l r input self id other m s actions : reachable t self -> t <= now -> rust_slice input -> addr_ok r ->
  addressed_to self r input id -> sessions self !! id = Some m -> remote_to_session self !! r = Some other -> other <> id ->
  RtcSession.handle_datagram now l r input (session m) = (s, Ok actions) -> RtcSession.selected_remote s = Some r ->
  exists self', handle_datagram now l r input self = (self', Err RemoteCollision) /\ sessions self' !! id = Some (with_session s m) /\
    remote_to_session self' !! r = Some other.
Proof.
  intros Hok%sessions_reachable_ok Hle Hin Hr Hto Hm Hroute Hne Hs Hsel. unfold addressed_to in Hto. unfold handle_datagram, on_session.
  assert (exists kind, Datagram.classify (E:=RegistryError) input = Ok kind /\
    match kind with Datagram.Stun => route_stun input self | _ => ok_or (remote_to_session self !! r) UnknownRemote end = Ok id) as (kind & Hk & Hid).
  { destruct (Datagram.classify input) as [[]|e| |]; try done; (eexists; split; [reflexivity|]); first [by apply route_stun_Ok|by rewrite Hto]. }
  rewrite (prog_step _ _ self self kind) by (unfold lift; by rewrite Hk). rewrite (prog_step _ _ self self self) by done.
  rewrite (prog_step _ _ self self id) by (unfold lift; by rewrite Hid). rewrite (prog_step _ _ self self m) by (unfold lift; by rewrite Hm).
  set (self1 := set_sessions (<[id := with_session s m]> (sessions self)) self).
  rewrite (prog_step _ _ self self1 (s, actions)) by by rewrite Hs. rewrite bool_decide_eq_true_2 by done.
  destruct (claim_route_cases r id self1) as [[[H|H] _]|[_ Hc]]; [cbn in H; congruence..|]. unfold mbind at 1, prog_bind at 1. rewrite Hc.
  exists self1. split_and!; [done|apply lookup_insert_eq|done].
Qed.
End Steps.

(** ** A concrete node with two sessions *)
#[local] Existing Instance StunSafety.example_stun_crypto.
#[local] Existing Instance Srtp.toy_crypto.
#[local] Existing Instance SfuRuntimeSteps.listing.
Definition zero_metrics : MediaNodeMetrics := {| active_sessions := 0; media_bytes_received := 0; rtp_packets_received := 0 |}.
Definition example_provision (name : string) (u : Z) : SessionProvision :=
  {| sp_session_id := octets name; sp_room_id := octets "lobby"; sp_participant_id := octets name; sp_local_username_fragment := [u];
     sp_local_password := replicate 22 u; sp_remote_username_fragment := [98]; sp_remote_password := replicate 22 98;
     sp_expected_peer_fingerprint := octets "AA:BB"; sp_tie_breaker := 5 |}.
Definition check_of (u : Z) : bytes :=
  match Stun.build (Stun.Builder.fingerprint (Stun.Builder.message_integrity_sha256 (replicate 22 u)
    (Stun.Builder.use_candidate (Stun.Builder.ice_controlling 9 (Stun.Builder.priority 7 (Stun.Builder.username [u; 58; 98]
      (Stun.Builder.new (Stun.MessageType.new Stun.Method.BINDING Stun.Request) [1; 2; 3; 4; 5; 6; 7; 8; 9; 10; 11; 12]))))))) with Ok b => b | _ => [] end.
Definition registry0 : SessionRegistry := (provision (example_provision "anna" 97) (new zero_metrics 10)).1.
Definition registry1 : SessionRegistry := (provision (example_provision "carl" 99) registry0).1.
Definition registry2 : SessionRegistry := (handle_datagram 10 IceSafety.example_local IceSafety.example_peer (check_of 97) registry1).1.

Lemma check_slice u : u = 97 \/ u = 99 -> rust_slice (check_of u).
Proof. intros [-> | ->]; apply rust_slice_check; vm_compute; reflexivity. Qed.
Lemma registry1_reachable : reachable 0 registry1.
Proof. do 2 (apply reach_provision; [|by vm_compute]). by apply reach_new. Qed.
Lemma registry2_reachable : reachable 10 registry2.
Proof. apply (reach_datagram 0); [apply registry1_reachable|lia|apply check_slice; auto|exact IceSafety.example_peer_ok]. Qed.

Lemma sessions_invariant_witness : size (sessions registry2) = 2%nat /\ registry_ok 10 registry2.
Proof. split; [vm_compute; reflexivity|]. exact (sessions_invariant 10 registry2 registry2_reachable). Defined.

Lemma datagram_isolated_witness : sessions registry2 !! octets "carl" = sessions registry1 !! octets "carl" /\
  remote_to_session registry2 !! IceSafety.example_peer = Some (octets "anna").
Proof.
  split; [|vm_compute; reflexivity].
  pose proof (datagram_isolated 0 10 IceSafety.example_local IceSafety.example_peer (check_of 97) registry1 registry1_reachable ltac:(lia)
    (check_slice 97 ltac:(auto)) IceSafety.example_peer_ok) as H. unfold registry2.
  destruct (handle_datagram _ _ _ _ registry1) as [self' o]. destruct H as (_ & _ & H & _). apply H. unfold addressed_to.
  assert (Datagram.classify (E:=RegistryError) (check_of 97) = Ok Datagram.Stun) as -> by (vm_compute; reflexivity).
  intros (m & u & H1 & H2 & H3). vm_compute in H1. injection H1 as <-. vm_compute in H2. injection H2 as <-. vm_compute in H3. discriminate.
Defined.

Lemma generation_replaced_witness : addressed_to registry2 IceSafety.example_peer [22; 254; 253] (octets "anna") /\
  ~ addressed_to (remove (octets "anna") registry2).1 IceSafety.example_peer [22; 254; 253] (octets "anna").
Proof.
  split; [vm_compute; reflexivity|]. destruct (generation_replaced 10 registry2 registry2_reachable) as [H _]. specialize (H (octets "anna")).
  assert ((remove (octets "anna") registry2).2 = true) as Hk by (vm_compute; reflexivity).
  destruct (remove _ registry2) as [self' known]. cbn [snd fst] in *. subst known. apply H.
Defined.

Lemma stale_route_collides_witness :
  (handle_datagram 20 IceSafety.example_local IceSafety.example_peer (check_of 99) registry2).2 = Err RemoteCollision.
Proof.
  edestruct (stale_route_collides 10 20 IceSafety.example_local IceSafety.example_peer (check_of 99) registry2 (octets "carl") (octets "anna"))
    as (self' & -> & _); [exact registry2_reachable|lia|apply check_slice; auto|exact IceSafety.example_peer_ok| |vm_compute; reflexivity|vm_compute; reflexivity|
      discriminate|vm_compute; reflexivity|reflexivity|reflexivity].
  unfold addressed_to. assert (Datagram.classify (E:=RegistryError) (check_of 99) = Ok Datagram.Stun) as -> by (vm_compute; reflexivity).
  apply route_stun_Ok. vm_compute. reflexivity.
Defined.
