(* ===== verification/Turn.v ===== *)
(** * webrtc/turn: relay allocations and ChannelData (src/lib.rs)

    MD5 and base64 come from the packages [md5] and [base64], HMAC-SHA1 is that of [StunCrypto].  The
    iteration order of the [HashMap] of channels is an interface. *)
From stdpp Require Import fin_maps fin_map_dom.
From S2P Require Import Prelude Words Slices RustStd BytesCodec Stun StunCodec.

Definition DEFAULT_ALLOCATION_LIFETIME : Z := from_secs (10 * 60).
Definition MAX_ALLOCATION_LIFETIME : Z := from_secs 3600.
Definition PERMISSION_LIFETIME : Z := from_secs (5 * 60).
Definition CHANNEL_LIFETIME : Z := from_secs (10 * 60).
Definition MIN_CHANNEL_NUMBER : Z := 0x4000.
Definition MAX_CHANNEL_NUMBER : Z := 0x4fff.
Definition MAX_PERMISSIONS : Z := 64.
Definition MAX_CHANNELS : Z := 64.

Inductive TurnError :=
| TruncatedChannelData
| TrailingChannelData
| InvalidChannelNumber (n : Z)
| DataTooLarge
| PeerAddressFamilyMismatch
| ChannelConflict
| Capacity
| InvalidCredential.

Definition in_channel_range (n : Z) : bool := (MIN_CHANNEL_NUMBER <=? n) && (n <=? MAX_CHANNEL_NUMBER).

(** ** Credentials *)
Class TurnCrypto := {
  md5 : bytes -> bytes;
  base64_encode : bytes -> bytes;
  md5_output message : bytes_ok (md5 message) /\ len (md5 message) = 16 }.

Definition long_term_key {turn_crypto : TurnCrypto} (username realm password : bytes) : bytes :=
  md5 (username ++ [0x3a] ++ realm ++ [0x3a] ++ password).
Definition rest_credential_password {crypto : StunCrypto} {turn_crypto : TurnCrypto} (secret username : bytes)
    : outcome TurnError bytes :=
  _ ← reject_if ((len secret <? 32) || (len username =? 0) || (512 <? len username)) InvalidCredential;
  mac ← ok_or (hmac_sha1 secret) InvalidCredential;
  Ok (base64_encode (mac username)).

(** ** ChannelData *)
Record ChannelData := { channel_number : Z; data : bytes }.

Definition parse_channel_data (datagram : bytes) : outcome TurnError ChannelData :=
  header ← ok_or (get_to datagram 4) TruncatedChannelData;
  h0 ← index header 0; h1 ← index header 1;
  let channel_number := from_be_bytes [h0; h1] in
  _ ← reject_if (negb (in_channel_range channel_number)) (InvalidChannelNumber channel_number);
  h2 ← index header 2; h3 ← index header 3;
  let length := from_be_bytes [h2; h3] in
  e ← ok_or (checked_add 64 4 length) TruncatedChannelData;
  data ← ok_or (get_range datagram 4 e) TruncatedChannelData;
  padding ← ok_or (get_from datagram e) TruncatedChannelData;
  _ ← reject_if ((3 <? len padding) || existsb (fun b => negb (b =? 0)) padding) TrailingChannelData;
  Ok {| channel_number := channel_number; data := data |}.

Definition encode_channel_data (channel_number : Z) (data : bytes) : outcome TurnError bytes :=
  _ ← reject_if (negb (in_channel_range channel_number)) (InvalidChannelNumber channel_number);
  length ← ok_or (try_from 16 (len data)) DataTooLarge;
  Ok (to_be_bytes 2 channel_number ++ to_be_bytes 2 length ++ data).

(** ** Allocations *)
Record ChannelBinding := { binding_peer : SocketAddr; binding_expires_at : Z }.
Record Allocation := {
  username : bytes;
  client_address : SocketAddr;
  relayed_address : SocketAddr;
  expires_at : Z;
  permissions : gmap IpAddr Z;
  channels : gmap Z ChannelBinding }.

Inductive PeerRoute := Channel (n : Z) | DataIndication.

Class BindingOrder := {
  bindings : gmap Z ChannelBinding -> list (Z * ChannelBinding);
  bindings_perm m : bindings m ≡ₚ map_to_list m }.

Definition set_expires_at (t : Z) (a : Allocation) : Allocation :=
  {| username := username a; client_address := client_address a; relayed_address := relayed_address a; expires_at := t;
     permissions := permissions a; channels := channels a |}.
Definition set_children (p : gmap IpAddr Z) (c : gmap Z ChannelBinding) (a : Allocation) : Allocation :=
  {| username := username a; client_address := client_address a; relayed_address := relayed_address a;
     expires_at := expires_at a; permissions := p; channels := c |}.

Definition new (now : Z) (username : bytes) (client_address relayed_address : SocketAddr) : Allocation :=
  {| username := username; client_address := client_address; relayed_address := relayed_address;
     expires_at := duration_add now DEFAULT_ALLOCATION_LIFETIME; permissions := ∅; channels := ∅ |}.

Definition remaining_lifetime (a : Allocation) (now : Z) : Z :=
  default (umax 32) (try_from 32 (as_secs (saturating_sub (expires_at a) now))).
Definition expired (a : Allocation) (now : Z) : bool := expires_at a <=? now.
Definition refresh (now : Z) (requested_seconds : option Z) (a : Allocation) : Allocation * Z :=
  let requested := Z.min (match requested_seconds with None => DEFAULT_ALLOCATION_LIFETIME | Some s => from_secs s end)
    MAX_ALLOCATION_LIFETIME in
  (set_expires_at (duration_add now requested) a, default (umax 32) (try_from 32 (as_secs requested))).

Definition same_family (left right : IpAddr) : bool :=
  match left, right with V4 _, V4 _ | V6 _, V6 _ => true | _, _ => false end.

Definition expire_children (now : Z) (a : Allocation) : Allocation :=
  set_children (filter (fun kv => now < kv.2) (permissions a))
    (filter (fun kv => now < binding_expires_at kv.2) (channels a)) a.

(** The distinct addresses among [peers] that have no permission yet. *)
Definition additional (peers : list SocketAddr) (a : Allocation) : gset IpAddr :=
  list_to_set (filter (fun i => permissions a !! i = None) (ip <$> peers)).

Definition create_permissions (now : Z) (peers : list SocketAddr) : prog Allocation TurnError unit :=
  _ ← modify (expire_children now);
  a ← gets id;
  _ ← lift (reject_if (bool_decide (peers = []) ||
        existsb (fun peer => negb (same_family (ip peer) (ip (relayed_address a)))) peers) PeerAddressFamilyMismatch);
  _ ← lift (reject_if (MAX_PERMISSIONS <? saturating_add 64 (Z.of_nat (size (permissions a))) (Z.of_nat (size (additional peers a)))) Capacity);
  let expires_at := duration_add now PERMISSION_LIFETIME in
  modify (set_children (foldl (fun m peer => <[ip peer := expires_at]> m) (permissions a) peers) (channels a)).

Section Channels.
Context {order : BindingOrder}.

Definition bind_channel (now channel_number : Z) (peer : SocketAddr) : prog Allocation TurnError unit :=
  _ ← modify (expire_children now);
  a ← gets id;
  _ ← lift (reject_if (negb (in_channel_range channel_number)) (InvalidChannelNumber channel_number));
  _ ← lift (reject_if (negb (same_family (ip peer) (ip (relayed_address a)))) PeerAddressFamilyMismatch);
  _ ← lift (reject_if
        (match channels a !! channel_number with Some b => negb (bool_decide (binding_peer b = peer)) | None => false end ||
         existsb (fun kv => negb (kv.1 =? channel_number) && bool_decide (binding_peer kv.2 = peer)) (bindings (channels a)))
        ChannelConflict);
  _ ← lift (reject_if (bool_decide (channels a !! channel_number = None) && (MAX_CHANNELS <=? Z.of_nat (size (channels a)))) Capacity);
  _ ← create_permissions now [peer];
  modify (fun a => set_children (permissions a)
    (<[channel_number := {| binding_peer := peer; binding_expires_at := duration_add now CHANNEL_LIFETIME |}]> (channels a)) a).

Definition channel_peer (now channel_number : Z) (a : Allocation) : Allocation * option SocketAddr :=
  let a := expire_children now a in
  (a, binding ← channels a !! channel_number;
      if bool_decide (is_Some (permissions a !! ip (binding_peer binding))) then Some (binding_peer binding) else None).

Definition permits (now : Z) (peer : SocketAddr) (a : Allocation) : Allocation * bool :=
  let a := expire_children now a in
  (a, bool_decide (is_Some (permissions a !! ip peer)) && same_family (ip peer) (ip (relayed_address a))).

(** [find_map] over the map *)
Definition find_channel (peer : SocketAddr) (l : list (Z * ChannelBinding)) : option PeerRoute :=
  (fun x => Channel x.2.1) <$> list_find (fun kv => binding_peer kv.2 = peer) l.
Definition peer_route (now : Z) (peer : SocketAddr) (a : Allocation) : Allocation * option PeerRoute :=
  let '(a, permitted) := permits now peer a in
  (a, if permitted then
        match find_channel peer (bindings (channels a)) with Some route => Some route | None => Some DataIndication end
      else None).
End Channels.

(** * webrtc/turn: permissions and channels against the history of the allocation *)

(** ** ChannelData *)
Lemma index_cons_0 {E A} (x : A) l : index (E:=E) (x :: l) 0 = Ok x.
Proof. done. Qed.

(** A ChannelData frame: number, length, payload and up to three zero octets. *)
Definition frame (c : ChannelData) (padding : bytes) : bytes :=
  to_be_bytes 2 (channel_number c) ++ to_be_bytes 2 (len (data c)) ++ data c ++ padding.
Definition frame_ok (c : ChannelData) (padding : bytes) : Prop :=
  in_channel_range (channel_number c) = true /\ len (data c) <= 65535 /\ len padding <= 3 /\ Forall (fun b => b = 0) padding.

Lemma zero_padding padding : existsb (fun b => negb (b =? 0)) padding = false <-> Forall (fun b => b = 0) padding.
Proof.
  induction padding as [|b l IH]; [done|]. cbn. rewrite orb_false_iff, IH, Forall_cons. split; intros [H1 H2]; (split; [lia|done]).
Qed.

Lemma channel_range n : in_channel_range n = true -> u16 n.
Proof. unfold in_channel_range, MIN_CHANNEL_NUMBER, MAX_CHANNEL_NUMBER. intros H. mlia. Qed.

Lemma parse_frame c padding : frame_ok c padding -> parse_channel_data (frame c padding) = Ok c.
Proof.
  destruct c as [n d]. unfold frame_ok, frame. cbn [channel_number data]. intros (Hn & Hd & Hp & Hz). unfold parse_channel_data, get_to.
  pose proof (channel_range n Hn) as Hn16. pose proof (len_nonneg d) as Hd0.
  rewrite app_assoc, get_range_exact by (rewrite len_app, !len_to_be_bytes; done). cbn [ok_or mbind outcome_bind].
  pose proof (from_to_be_bytes 2 n Hn16) as En. pose proof (from_to_be_bytes 2 (len d) ltac:(mlia)) as Ed.
  pose proof (length_to_be_bytes 2 n) as Ln. pose proof (length_to_be_bytes 2 (len d)) as Ld.
  destruct (to_be_bytes 2 n) as [|h0 [|h1 [|? ?]]]; try discriminate. destruct (to_be_bytes 2 (len d)) as [|h2 [|h3 [|? ?]]]; try discriminate.
  change (index (([h0; h1] ++ [h2; h3])) 0) with (Ok (E:=TurnError) h0). change (index (([h0; h1] ++ [h2; h3])) 1) with (Ok (E:=TurnError) h1).
  change (index (([h0; h1] ++ [h2; h3])) 2) with (Ok (E:=TurnError) h2). change (index (([h0; h1] ++ [h2; h3])) 3) with (Ok (E:=TurnError) h3).
  cbn [mbind outcome_bind]. rewrite En, Hn. cbn [negb reject_if mbind outcome_bind]. rewrite Ed, checked_add_fits by mlia. cbn [ok_or mbind outcome_bind].
  rewrite (proj2 (get_range_Some _ 4 (4 + len d) d)) by (exists ([h0; h1] ++ [h2; h3]), padding; done). cbn [ok_or mbind outcome_bind].
  rewrite app_assoc, get_from_app by (rewrite len_app; done). cbn [ok_or mbind outcome_bind].
  replace (3 <? len padding) with false by lia. by rewrite (proj2 (zero_padding padding) Hz).
Qed.

Lemma parse_frame_inv datagram c : bytes_ok datagram -> parse_channel_data datagram = Ok c ->
  exists padding, datagram = frame c padding /\ frame_ok c padding.
Proof.
  intros Hok H. unfold parse_channel_data in H. apply bind_Ok in H as (h & Hh%ok_or_Ok & H). unfold get_to in Hh.
  pose proof (get_range_len _ _ _ _ Hh) as (Hhl & _ & _). apply get_range_Some in Hh as (l1 & rest & E & Hl1 & _). apply len_zero_nil in Hl1 as ->. cbn in E.
  destruct h as [|h0 [|h1 [|h2 [|h3 [|? ?]]]]]; try (exfalso; revert Hhl; slia).
  cbn [index get] in H. change (index [h0; h1; h2; h3] 0) with (Ok (E:=TurnError) h0) in H. change (index [h0; h1; h2; h3] 1) with (Ok (E:=TurnError) h1) in H.
  change (index [h0; h1; h2; h3] 2) with (Ok (E:=TurnError) h2) in H. change (index [h0; h1; h2; h3] 3) with (Ok (E:=TurnError) h3) in H.
  cbn [mbind outcome_bind] in H. apply bind_Ok in H as ([] & Hr%reject_if_Ok & H). apply bind_Ok in H as (e & He%ok_or_Ok & H).
  apply checked_add_Some in He as [-> He]. apply bind_Ok in H as (d & Hd%ok_or_Ok & H). apply bind_Ok in H as (p & Hp%ok_or_Ok & H).
  apply bind_Ok in H as ([] & Hz%reject_if_Ok & H). injection H as <-. apply orb_false_iff in Hz as [Hz1 Hz2%zero_padding].
  assert (bytes_ok [h0; h1] /\ bytes_ok [h2; h3]) as [B1 B2] by (rewrite E in Hok; do 4 (apply bytes_ok_cons in Hok as [? Hok]); split; by repeat (constructor; [done|])).
  destruct (octets_of [h0; h1] 2 B1 eq_refl) as [E1 _]. destruct (octets_of [h2; h3] 2 B2 eq_refl) as [E2 F2].
  apply get_range_Some in Hd as (a & b & Ed & Ha & Hlen). assert (a = [h0; h1; h2; h3] /\ rest = d ++ b) as [-> ->].
  { rewrite E in Ed. change (h0 :: h1 :: h2 :: h3 :: rest) with ([h0; h1; h2; h3] ++ rest) in Ed.
    apply app_inj_1 in Ed as [-> ->]; [done|]. unfold len in Ha. cbn. lia. }
  assert (len d = from_be_bytes [h2; h3]) as Hdl by lia.
  assert (p = b) as ->.
  { rewrite Ed, app_assoc, get_from_app in Hp; [by injection Hp|]. rewrite len_app, Ha. lia. }
  exists b. split; [unfold frame; cbn [channel_number data]; rewrite Hdl, <- E1, <- E2; exact Ed|].
  split; cbn [channel_number data]; [by apply negb_false_iff|]. split_and!; [mlia|lia|done].
Qed.

Lemma returns_parse_channel_data datagram : bytes_ok datagram -> returns (parse_channel_data datagram).
Proof.
  intros Hok. unfold parse_channel_data. apply returns_bind; [auto with returns|]. intros h Hh%ok_or_Ok. apply get_range_len in Hh as (Hl & _).
  repeat (apply returns_bind; [(apply returns_index; lia) || auto with returns|]; intros ? _; cbv zeta). done.
Qed.

(** the ChannelData parser comes back on every datagram; it accepts exactly the frames with a
    channel number of the TURN range, a payload of the declared length and at most three zero octets of
    padding, with that number and payload; what [ChannelData::encode] builds is such a frame, and encoding
    fails only outside the range or above 65535 octets. *)
Theorem channel_data_roundtrip datagram : bytes_ok datagram ->
  returns (parse_channel_data datagram) /\
  (forall c, parse_channel_data datagram = Ok c <-> exists padding, datagram = frame c padding /\ frame_ok c padding) /\
  (forall n d, encode_channel_data n d =
     if in_channel_range n then if len d <=? 65535 then Ok (frame {| channel_number := n; data := d |} []) else Err DataTooLarge
     else Err (InvalidChannelNumber n)).
Proof.
  intros Hok. split_and!; [by apply returns_parse_channel_data|intros c; split|intros n d].
  - by apply parse_frame_inv.
  - intros (padding & -> & Hf). by apply parse_frame.
  - unfold encode_channel_data, try_from, frame. pose proof (len_nonneg d). cbn [channel_number data]. rewrite app_nil_r.
    destruct (in_channel_range n); [|done]. cbn [negb reject_if mbind outcome_bind]. replace (0 <=? len d) with true by lia. change (umax 16) with 65535.
    by destruct (len d <=? 65535).
Qed.

Lemma channel_data_roundtrip_witness : parse_channel_data [0x40; 0; 0; 1; 7; 0; 0; 0] = Ok {| channel_number := 0x4000; data := [7] |}.
Proof.
  destruct (channel_data_roundtrip [0x40; 0; 0; 1; 7; 0; 0; 0]) as (_ & H & _); [repeat constructor; mlia|].
  apply H. exists [0; 0; 0]. split; [vm_compute; reflexivity|]. repeat split; vm_compute; try done. repeat constructor.
Defined.

(** ** The history of an allocation

    [Installed t i]: a permission for address [i] was installed at time [t]; [Bound t n p]: channel [n] was
    bound to peer [p].  A permission is live for five minutes after an installation, a binding for ten. *)
Inductive entry := Installed (t : Z) (i : IpAddr) | Bound (t n : Z) (p : SocketAddr).

Definition permitted_at (log : list entry) (now : Z) (i : IpAddr) : Prop :=
  exists t, Installed t i ∈ log /\ now < duration_add t PERMISSION_LIFETIME.
Definition bound_at (log : list entry) (now n : Z) (p : SocketAddr) : Prop :=
  exists t, Bound t n p ∈ log /\ now < duration_add t CHANNEL_LIFETIME.
Definition entry_time (e : entry) : Z := match e with Installed t _ | Bound t _ _ => t end.

(** What an allocation keeps within bounds. *)
Record children_ok (a : Allocation) : Prop := {
  ok_permissions : Z.of_nat (size (permissions a)) <= MAX_PERMISSIONS;
  ok_channels : Z.of_nat (size (channels a)) <= MAX_CHANNELS;
  ok_range n b : channels a !! n = Some b -> in_channel_range n = true;
  ok_family i e : permissions a !! i = Some e -> same_family i (ip (relayed_address a)) = true;
  ok_one_channel n n' b b' : channels a !! n = Some b -> channels a !! n' = Some b' -> binding_peer b = binding_peer b' -> n = n' }.

(** How it represents the history up to [t]. *)
Record represents (t : Z) (log : list entry) (a : Allocation) : Prop := {
  rep_times : Forall (fun e => entry_time e <= t) log;
  rep_permission i e : permissions a !! i = Some e -> exists t0, Installed t0 i ∈ log /\ e = duration_add t0 PERMISSION_LIFETIME;
  rep_installed t0 i : Installed t0 i ∈ log -> t < duration_add t0 PERMISSION_LIFETIME ->
    exists e, permissions a !! i = Some e /\ duration_add t0 PERMISSION_LIFETIME <= e;
  rep_channel n b : channels a !! n = Some b -> exists t0, Bound t0 n (binding_peer b) ∈ log /\ binding_expires_at b = duration_add t0 CHANNEL_LIFETIME;
  rep_bound t0 n p : Bound t0 n p ∈ log -> t < duration_add t0 CHANNEL_LIFETIME ->
    exists b, channels a !! n = Some b /\ binding_peer b = p /\ duration_add t0 CHANNEL_LIFETIME <= binding_expires_at b }.

Lemma duration_add_mono a b d : a <= b -> duration_add a d <= duration_add b d.
Proof. unfold duration_add. lia. Qed.

Lemma expire_permission_Some now a i e : permissions (expire_children now a) !! i = Some e <-> permissions a !! i = Some e /\ now < e.
Proof. cbn. by rewrite map_lookup_filter_Some. Qed.

Lemma expire_channel_Some now a n b : channels (expire_children now a) !! n = Some b <-> channels a !! n = Some b /\ now < binding_expires_at b.
Proof. cbn. by rewrite map_lookup_filter_Some. Qed.

Lemma expire_children_ok now a : children_ok a -> children_ok (expire_children now a).
Proof.
  intros [O1 O2 O3 O4 O5]. split.
  - cbn. pose proof (map_size_filter (fun kv => now < kv.2) (permissions a)) as H. lia.
  - cbn. pose proof (map_size_filter (fun kv => now < binding_expires_at kv.2) (channels a)) as H. lia.
  - intros n b [H _]%expire_channel_Some. eauto.
  - intros i e [H _]%expire_permission_Some. eauto.
  - intros n n' b b' [H _]%expire_channel_Some [H' _]%expire_channel_Some. eauto.
Qed.

Lemma expire_represents t now log a : represents t log a -> t <= now -> represents now log (expire_children now a).
Proof.
  intros [R1 R2 R3 R4 R5] Hle. split.
  - eapply Forall_impl; [exact R1|]. intros e He. cbn in He. lia.
  - intros i e [H _]%expire_permission_Some. eauto.
  - intros t0 i H0 Hlive. destruct (R3 t0 i H0 ltac:(lia)) as (e & He & Hle'). exists e. rewrite expire_permission_Some. split; [split; [done|lia]|done].
  - intros n b [H _]%expire_channel_Some. eauto.
  - intros t0 n p H0 Hlive. destruct (R5 t0 n p H0 ltac:(lia)) as (b & Hb & Hp & Hle'). exists b. rewrite expire_channel_Some. split_and!; [done|lia|done|done].
Qed.

(** ** Installing permissions *)
Definition install (t : Z) (peers : list SocketAddr) (m : gmap IpAddr Z) : gmap IpAddr Z :=
  foldl (fun m peer => <[ip peer := t]> m) m peers.

Lemma install_lookup t peers m i :
  install t peers m !! i = if bool_decide (i ∈ ip <$> peers) then Some t else m !! i.
Proof.
  unfold install. revert m. induction peers as [|p peers IH]; intros m; [done|]. cbn. rewrite IH.
  destruct (decide (i ∈ ip <$> peers)) as [Hin|Hin].
  - by rewrite !bool_decide_eq_true_2 by (rewrite ?elem_of_cons; auto).
  - rewrite bool_decide_eq_false_2 by done. destruct (decide (i = ip p)) as [->|Hne].
    + rewrite lookup_insert_eq, bool_decide_eq_true_2 by (rewrite elem_of_cons; auto). done.
    + rewrite lookup_insert_ne by done. rewrite bool_decide_eq_false_2 by (rewrite elem_of_cons; naive_solver). done.
Qed.

Lemma install_size t peers a : Z.of_nat (size (install t peers (permissions a))) <= Z.of_nat (size (permissions a)) + Z.of_nat (size (additional peers a)).
Proof.
  assert (dom (install t peers (permissions a)) ⊆ dom (permissions a) ∪ additional peers a) as Hdom.
  { intros i Hi. apply elem_of_dom in Hi as [e He]. rewrite install_lookup in He. apply elem_of_union. rewrite elem_of_dom.
    destruct (permissions a !! i) as [e'|] eqn:Hp; [left; by eexists|right]. case_bool_decide as Hin; [|done].
    unfold additional. rewrite elem_of_list_to_set, list_elem_of_filter. done. }
  apply subseteq_size in Hdom. rewrite size_dom in Hdom. pose proof (size_union_alt (dom (permissions a)) (additional peers a)) as Hu. rewrite size_dom in Hu.
  assert (size (additional peers a ∖ dom (permissions a)) <= size (additional peers a))%nat by (apply subseteq_size; set_solver). lia.
Qed.

Lemma create_cases now peers a :
  let a1 := expire_children now a in
  (exists e, create_permissions now peers a = (a1, Err e)) \/
  (create_permissions now peers a = (set_children (install (duration_add now PERMISSION_LIFETIME) peers (permissions a1)) (channels a1) a1, Ok tt) /\
   Forall (fun p => same_family (ip p) (ip (relayed_address a)) = true) peers /\
   Z.of_nat (size (permissions a1)) + Z.of_nat (size (additional peers a1)) <= MAX_PERMISSIONS).
Proof.
  intros a1. unfold create_permissions. rewrite (prog_step _ _ a a1 tt) by done. rewrite (prog_step _ _ a1 a1 a1) by done.
  destruct (bool_decide (peers = []) || existsb _ peers) eqn:Hfam; [left; by eexists|]. rewrite (prog_step _ _ a1 a1 tt) by done.
  destruct (MAX_PERMISSIONS <? _) eqn:Hcap; [left; by eexists|]. rewrite (prog_step _ _ a1 a1 tt) by done. right. split; [done|]. split.
  - apply orb_false_iff in Hfam as [_ Hfam]. apply Forall_forall. intros p Hp. apply not_false_iff_true. intros Hf.
    rewrite <- not_true_iff_false, existsb_exists in Hfam. apply Hfam. exists p. split; [by apply list_elem_of_In|]. change (relayed_address a1) with (relayed_address a). by rewrite Hf.
  - unfold saturating_add, MAX_PERMISSIONS in *. mlia.
Qed.

Definition entries (now : Z) (peers : list SocketAddr) : list entry := (fun p => Installed now (ip p)) <$> peers.

Lemma install_ok now peers a1 :
  children_ok a1 -> Forall (fun p => same_family (ip p) (ip (relayed_address a1)) = true) peers ->
  Z.of_nat (size (permissions a1)) + Z.of_nat (size (additional peers a1)) <= MAX_PERMISSIONS ->
  children_ok (set_children (install (duration_add now PERMISSION_LIFETIME) peers (permissions a1)) (channels a1) a1).
Proof.
  intros [O1 O2 O3 O4 O5] Hf Hs. split; cbn; try done.
  - pose proof (install_size (duration_add now PERMISSION_LIFETIME) peers a1). lia.
  - intros i e. rewrite install_lookup. case_bool_decide as Hin; [|apply O4]. intros _. apply list_elem_of_fmap in Hin as (p & -> & Hp).
    by rewrite Forall_forall in Hf; apply Hf.
Qed.

Lemma install_represents now log peers a1 : represents now log a1 ->
  represents now (log ++ entries now peers) (set_children (install (duration_add now PERMISSION_LIFETIME) peers (permissions a1)) (channels a1) a1).
Proof.
  intros [R1 R2 R3 R4 R5]. assert (forall i, Installed now i ∈ entries now peers <-> i ∈ ip <$> peers) as Hent.
  { intros i. unfold entries. rewrite !list_elem_of_fmap. naive_solver. }
  split; cbn.
  - apply Forall_app. split; [done|]. apply Forall_forall. intros e He. apply list_elem_of_fmap in He as (p & -> & _). cbn. lia.
  - intros i e. rewrite install_lookup. case_bool_decide as Hin.
    + intros [= <-]. exists now. split; [|done]. apply elem_of_app. right. by apply Hent.
    + intros He. destruct (R2 i e He) as (t0 & H0 & ->). exists t0. split; [|done]. apply elem_of_app. by left.
  - intros t0 i H0 Hlive. rewrite install_lookup. apply elem_of_app in H0 as [H0|H0].
    + destruct (R3 t0 i H0 Hlive) as (e & He & Hle). case_bool_decide; [|by exists e]. eexists. split; [done|]. apply duration_add_mono.
      rewrite Forall_forall in R1. apply (R1 _ H0).
    + apply list_elem_of_fmap in H0 as (p & [= -> ->] & Hp). rewrite bool_decide_eq_true_2 by (apply list_elem_of_fmap; eauto). eexists. by split.
  - intros n b Hb. destruct (R4 n b Hb) as (t0 & H0 & E). exists t0. split; [|done]. apply elem_of_app. by left.
  - intros t0 n p H0 Hlive. apply elem_of_app in H0 as [H0|H0]; [by apply R5|]. apply list_elem_of_fmap in H0 as (q & ? & _). discriminate.
Qed.

(** ** Binding channels *)
Section Channels.
Context {order : BindingOrder}.

Lemma bindings_elem m n b : (n, b) ∈ bindings m <-> m !! n = Some b.
Proof. rewrite bindings_perm. apply elem_of_map_to_list. Qed.

(** The refusals of [bind_channel] exclude every conflict with the live bindings. *)
Definition bindable (now n : Z) (peer : SocketAddr) (a : Allocation) : Prop :=
  let a1 := expire_children now a in
  in_channel_range n = true /\ (forall b, channels a1 !! n = Some b -> binding_peer b = peer) /\
  (forall n' b, channels a1 !! n' = Some b -> binding_peer b = peer -> n' = n) /\
  (channels a1 !! n = None -> Z.of_nat (size (channels a1)) < MAX_CHANNELS).

Definition bind (now n : Z) (peer : SocketAddr) (a : Allocation) : Allocation :=
  set_children (permissions a) (<[n := {| binding_peer := peer; binding_expires_at := duration_add now CHANNEL_LIFETIME |}]> (channels a)) a.

Lemma bind_cases now n peer a :
  let a1 := expire_children now a in
  (exists a' e, bind_channel now n peer a = (a', Err e) /\ (a' = a1 \/ a' = expire_children now a1)) \/
  (exists a2, create_permissions now [peer] a1 = (a2, Ok tt) /\ bind_channel now n peer a = (bind now n peer a2, Ok tt) /\ bindable now n peer a).
Proof.
  intros a1. unfold bind_channel, bindable. fold a1. rewrite (prog_step _ _ a a1 tt) by done. rewrite (prog_step _ _ a1 a1 a1) by done.
  destruct (in_channel_range n); [|left; eexists _, _; eauto]. rewrite (prog_step _ _ a1 a1 tt) by done.
  destruct (same_family _ _); [|left; eexists _, _; eauto]. rewrite (prog_step _ _ a1 a1 tt) by done.
  destruct (_ || existsb _ _) eqn:Hconf; [left; eexists _, _; eauto|]. rewrite (prog_step _ _ a1 a1 tt) by done.
  destruct (bool_decide (channels a1 !! n = None) && _) eqn:Hcap; [left; eexists _, _; eauto|]. rewrite (prog_step _ _ a1 a1 tt) by done.
  destruct (create_cases now [peer] a1) as [[e He]|(Hc & _)].
  { left. eexists _, e. split; [by apply prog_fails|auto]. }
  right. eexists. split; [exact Hc|]. rewrite (prog_step _ _ _ _ _ Hc). split; [done|]. split; [done|].
  apply orb_false_iff in Hconf as [H1 H2]. split_and!.
  - intros b Hb. rewrite Hb in H1. by apply negb_false_iff, bool_decide_eq_true in H1.
  - intros n' b Hb Hp. rewrite <- not_true_iff_false, existsb_exists in H2. destruct (Z.eq_dec n' n); [done|exfalso]. apply H2.
    exists (n', b). split; [by apply list_elem_of_In, bindings_elem|]. cbn. rewrite bool_decide_eq_true_2 by done. lia.
  - intros Hnone. rewrite bool_decide_eq_true_2 in Hcap by done. cbn [andb] in Hcap. lia.
Qed.

Lemma expire_twice now a : permissions (expire_children now (expire_children now a)) = permissions (expire_children now a) /\
  channels (expire_children now (expire_children now a)) = channels (expire_children now a).
Proof. split; cbn; apply map_eq; intros i; apply option_eq; intros x; rewrite !map_lookup_filter_Some; naive_solver. Qed.

Lemma bind_ok now n peer a a2 : bindable now n peer a -> channels a2 = channels (expire_children now a) -> children_ok a2 ->
  children_ok (bind now n peer a2).
Proof.
  intros (Hr & Hsame & Hother & Hcap) Hch [O1 O2 O3 O4 O5]. rewrite <- Hch in *. split; cbn; try done.
  - rewrite map_size_insert. destruct (channels a2 !! n) eqn:E; [done|]. specialize (Hcap eq_refl). unfold MAX_CHANNELS in *. lia.
  - intros n' b. destruct (decide (n = n')) as [<-|Hne]; [done|]. rewrite lookup_insert_ne by done. apply O3.
  - intros n1 n2 b1 b2. destruct (decide (n = n1)) as [<-|H1], (decide (n = n2)) as [<-|H2]; [done|..].
    + rewrite lookup_insert_eq, lookup_insert_ne by done. intros [= <-] Hb2 Hp. cbn in Hp. symmetry. by eapply Hother.
    + rewrite lookup_insert_eq, lookup_insert_ne by done. intros Hb1 [= <-] Hp. cbn in Hp. by eapply Hother.
    + rewrite !lookup_insert_ne by done. apply O5.
Qed.

Lemma bind_represents now n peer a a2 log : bindable now n peer a -> channels a2 = channels (expire_children now a) ->
  represents now log a2 -> represents now (log ++ [Bound now n peer]) (bind now n peer a2).
Proof.
  intros (Hr & Hsame & Hother & Hcap) Hch [R1 R2 R3 R4 R5]. rewrite <- Hch in *. split; cbn.
  - apply Forall_app. split; [done|]. repeat constructor. cbn. lia.
  - intros i e He. destruct (R2 i e He) as (t0 & H0 & ->). exists t0. split; [|done]. apply elem_of_app. by left.
  - intros t0 i H0 Hlive. apply elem_of_app in H0 as [H0|H0]; [by apply R3|]. apply list_elem_of_singleton in H0. discriminate.
  - intros n' b. destruct (decide (n = n')) as [<-|Hne].
    + rewrite lookup_insert_eq. intros [= <-]. exists now. split; [|done]. apply elem_of_app. right. by apply list_elem_of_singleton.
    + rewrite lookup_insert_ne by done. intros Hb. destruct (R4 n' b Hb) as (t0 & H0 & E). exists t0. split; [|done]. apply elem_of_app. by left.
  - intros t0 n' p H0 Hlive. apply elem_of_app in H0 as [H0|H0].
    + destruct (R5 t0 n' p H0 Hlive) as (b & Hb & Hp & Hle). destruct (decide (n = n')) as [<-|Hne].
      * rewrite lookup_insert_eq. eexists. split; [done|]. cbn. split; [rewrite <- Hp; symmetry; by apply Hsame|].
        apply duration_add_mono. rewrite Forall_forall in R1. apply (R1 _ H0).
      * rewrite lookup_insert_ne by done. by exists b.
    + apply list_elem_of_singleton in H0. injection H0 as -> -> ->. rewrite lookup_insert_eq. eexists. by split_and!.
Qed.

(** ** Reachable allocations *)
Inductive turn_call :=
| Refresh (now : Z) (requested : option Z)
| CreatePermissions (now : Z) (peers : list SocketAddr)
| BindChannel (now n : Z) (peer : SocketAddr)
| ChannelPeer (now n : Z)
| Permits (now : Z) (peer : SocketAddr)
| Route (now : Z) (peer : SocketAddr).

Definition call_time (c : turn_call) : Z :=
  match c with Refresh now _ | CreatePermissions now _ | BindChannel now _ _ | ChannelPeer now _ | Permits now _ | Route now _ => now end.
Definition succeeded {A} (o : outcome TurnError A) : bool := match o with Ok _ => true | _ => false end.

(** The state a call leaves behind, and what it adds to the history. *)
Definition call_turn (c : turn_call) (a : Allocation) : Allocation * list entry :=
  match c with
  | Refresh now requested => ((refresh now requested a).1, [])
  | CreatePermissions now peers =>
      ((create_permissions now peers a).1, if succeeded (create_permissions now peers a).2 then entries now peers else [])
  | BindChannel now n peer =>
      ((bind_channel now n peer a).1, if succeeded (bind_channel now n peer a).2 then entries now [peer] ++ [Bound now n peer] else [])
  | ChannelPeer now n => ((channel_peer now n a).1, [])
  | Permits now peer => ((permits now peer a).1, [])
  | Route now peer => ((peer_route now peer a).1, [])
  end.

Inductive turn_reachable : Z -> list entry -> Allocation -> Prop :=
| turn_new now u c r : turn_reachable now [] (new now u c r)
| turn_step t log a c : turn_reachable t log a -> t <= call_time c ->
    turn_reachable (call_time c) (log ++ (call_turn c a).2) (call_turn c a).1.

Lemma represents_same t log a a' : permissions a' = permissions a -> channels a' = channels a -> represents t log a -> represents t log a'.
Proof. intros E1 E2 [R1 R2 R3 R4 R5]. split; rewrite ?E1, ?E2; done. Qed.

Lemma represents_later t now log a : represents t log a -> t <= now -> represents now log a.
Proof.
  intros [R1 R2 R3 R4 R5] Hle. split; try done.
  - eapply Forall_impl; [exact R1|]. intros e He. cbn in He. lia.
  - intros t0 i H0 Hlive. apply R3; [done|lia].
  - intros t0 n p H0 Hlive. apply R5; [done|lia].
Qed.

Lemma create_keeps t now log peers a : t <= now -> children_ok a -> represents t log a ->
  let a' := (create_permissions now peers a).1 in
  children_ok a' /\ represents now (log ++ if succeeded (create_permissions now peers a).2 then entries now peers else []) a' /\
  channels a' = channels (expire_children now a).
Proof.
  intros Hle Hok Hrep. pose proof (expire_children_ok now a Hok) as Hok1. pose proof (expire_represents t now log a Hrep Hle) as Hrep1.
  destruct (create_cases now peers a) as [[e ->]|(-> & Hfam & Hsz)]; cbn [fst snd succeeded].
  - by rewrite app_nil_r.
  - split_and!; [by apply install_ok|by apply install_represents|done].
Qed.

Lemma turn_call_keeps t log a c : t <= call_time c -> children_ok a -> represents t log a ->
  children_ok (call_turn c a).1 /\ represents (call_time c) (log ++ (call_turn c a).2) (call_turn c a).1.
Proof.
  intros Hle Hok Hrep. destruct c as [now rq|now peers|now n peer|now n|now peer|now peer]; cbn [call_turn call_time fst snd] in *.
  - rewrite app_nil_r. split; [by destruct Hok; split|]. apply (represents_same _ _ a); [done..|]. by apply (represents_later t).
  - by destruct (create_keeps t now log peers a Hle Hok Hrep) as (H1 & H2 & _).
  - pose proof (expire_children_ok now a Hok) as Hok1. pose proof (expire_represents t now log a Hrep Hle) as Hrep1.
    destruct (bind_cases now n peer a) as [(a' & e & -> & Ha')|(a2 & Hc & -> & Hb)]; cbn [fst snd succeeded].
    + rewrite app_nil_r. destruct Ha' as [-> | ->]; [done|]. split; [by apply expire_children_ok|]. by apply (expire_represents now).
    + destruct (create_keeps now now log [peer] (expire_children now a) ltac:(lia) Hok1 Hrep1) as (H1 & H2 & H3). rewrite Hc in H1, H2, H3. cbn [fst snd succeeded] in H1, H2, H3.
      rewrite (proj2 (expire_twice now a)) in H3. rewrite app_assoc. split; [by eapply bind_ok|by eapply bind_represents].
  - rewrite app_nil_r. split; [by apply expire_children_ok|by apply (expire_represents t)].
  - rewrite app_nil_r. split; [by apply expire_children_ok|by apply (expire_represents t)].
  - rewrite app_nil_r. split; [by apply expire_children_ok|by apply (expire_represents t)].
Qed.

Lemma turn_reachable_ok t log a : turn_reachable t log a -> children_ok a /\ represents t log a.
Proof.
  induction 1 as [now u c r|t log a c Hr [IH1 IH2] Hle]; [|by apply (turn_call_keeps t)].
  split; split; cbn; try done; intros *; rewrite ?lookup_empty; try done; by intros ?%not_elem_of_nil.
Qed.

Section History.
Context (t now : Z) (log : list entry) (a : Allocation) (Hrep : represents t log a) (Hle : t <= now).

Lemma live_permission i : is_Some (permissions (expire_children now a) !! i) <-> permitted_at log now i.
Proof.
  destruct (expire_represents t now log a Hrep Hle) as [_ R2 R3 _ _]. split.
  - intros [e He]. destruct (R2 i e He) as (t0 & H0 & ->). apply expire_permission_Some in He as [_ Hlive]. by exists t0.
  - intros (t0 & H0 & Hlive). destruct (R3 t0 i H0 Hlive) as (e & He & _). by exists e.
Qed.

Lemma live_channel n p : (exists b, channels (expire_children now a) !! n = Some b /\ binding_peer b = p) <-> bound_at log now n p.
Proof.
  destruct (expire_represents t now log a Hrep Hle) as [_ _ _ R4 R5]. split.
  - intros (b & Hb & <-). destruct (R4 n b Hb) as (t0 & H0 & E). apply expire_channel_Some in Hb as [_ Hlive]. rewrite E in Hlive. by exists t0.
  - intros (t0 & H0 & Hlive). destruct (R5 t0 n p H0 Hlive) as (b & Hb & Hp & _). by exists b.
Qed.
End History.

Lemma channel_peer_Some now n p a : (channel_peer now n a).2 = Some p <->
  (exists b, channels (expire_children now a) !! n = Some b /\ binding_peer b = p) /\ is_Some (permissions (expire_children now a) !! ip p).
Proof.
  unfold channel_peer. cbn [fst snd]. destruct (channels (expire_children now a) !! n) as [b|]; cbn [mbind option_bind].
  - case_bool_decide as Hp; split; [intros [= <-]; eauto|by intros [(b' & [= <-] & <-) _]|done|by intros [(b' & [= <-] & <-) ?]].
  - split; [done|]. by intros [(b & ? & _) _].
Qed.

Lemma find_channel_Some peer l n : find_channel peer l = Some (Channel n) -> exists b, (n, b) ∈ l /\ binding_peer b = peer.
Proof.
  unfold find_channel. destruct (list_find _ l) as [[i [n' b]]|] eqn:E; [|done]. cbn. intros [= <-].
  apply list_find_Some in E as (Hi & Hb & _). exists b. split; [by eapply list_elem_of_lookup_2|done].
Qed.

Lemma find_channel_None peer l : find_channel peer l = None <-> Forall (fun kv => binding_peer kv.2 <> peer) l.
Proof. unfold find_channel. rewrite fmap_None. apply list_find_None. Qed.

Lemma find_channel_shape peer l r : find_channel peer l = Some r -> exists n, r = Channel n.
Proof. unfold find_channel. destruct (list_find _ l) as [[i x]|]; [|done]. intros [= <-]. by eexists. Qed.

Lemma permits_spec now peer a : children_ok a ->
  (permits now peer a).2 = bool_decide (is_Some (permissions (expire_children now a) !! ip peer)).
Proof.
  intros Hok. unfold permits. cbn [fst snd]. case_bool_decide as H; [|done]. destruct H as [e He].
  apply (ok_family _ (expire_children_ok now a Hok) _ _ He).
Qed.

Lemma route_channel now n p a : children_ok a -> (peer_route now p a).2 = Some (Channel n) <-> (channel_peer now n a).2 = Some p.
Proof.
  intros Hok. rewrite channel_peer_Some. unfold peer_route. pose proof (permits_spec now p a Hok) as Hp.
  destruct (permits now p a) as [a1 permitted] eqn:E. cbn [snd] in Hp. assert (a1 = expire_children now a) as -> by (unfold permits in E; by injection E).
  subst permitted. cbn [snd]. case_bool_decide as Hperm; [|split; [done|by intros [_ ?]]]. split.
  - destruct (find_channel p _) as [r|] eqn:Hf; [|done]. intros [= ->]. apply find_channel_Some in Hf as (b & Hb & Hpeer).
    apply bindings_elem in Hb. eauto.
  - intros [(b & Hb & Hpeer) _]. destruct (find_channel p _) as [r|] eqn:Hf.
    + destruct (find_channel_shape _ _ _ Hf) as [n' ->]. apply find_channel_Some in Hf as (b' & Hb' & Hpeer'). apply bindings_elem in Hb'.
      do 2 f_equal. eapply (ok_one_channel _ (expire_children_ok now a Hok)); [exact Hb'|exact Hb|congruence].
    + apply find_channel_None in Hf. rewrite Forall_forall in Hf. exfalso. by apply (Hf (n, b)); [apply bindings_elem|].
Qed.

(** over any history of calls with a clock that does not run backwards, an allocation
    relays to and from exactly the peers whose address got a permission within the last five minutes; a
    channel number resolves to exactly the peer it was bound to within the last ten minutes, if that peer
    is permitted; and a datagram from a peer is sent on a channel exactly when that channel resolves to it,
    so that both directions of a channel agree. *)
Theorem turn_follows_history t log a now : turn_reachable t log a -> t <= now ->
  (forall peer, (permits now peer a).2 = true <-> permitted_at log now (ip peer)) /\
  (forall n p, (channel_peer now n a).2 = Some p <-> bound_at log now n p /\ permitted_at log now (ip p)) /\
  (forall n p, (peer_route now p a).2 = Some (Channel n) <-> (channel_peer now n a).2 = Some p) /\
  (forall p, (peer_route now p a).2 = None <-> ~ permitted_at log now (ip p)).
Proof.
  intros Hr Hle. destruct (turn_reachable_ok _ _ _ Hr) as [Hok Hrep].
  assert (forall peer, (permits now peer a).2 = true <-> permitted_at log now (ip peer)) as Hperm.
  { intros peer. rewrite permits_spec, bool_decide_eq_true by done. by apply (live_permission t). }
  split_and!; [done|..].
  - intros n p. rewrite channel_peer_Some. by rewrite (live_channel t now log a Hrep Hle), (live_permission t now log a Hrep Hle).
  - intros n p. by apply route_channel.
  - intros p. rewrite <- Hperm. unfold peer_route. destruct (permits now p a) as [a1 []]; cbn [snd]; [|naive_solver].
    split; [by case_match|]. intros H. by contradict H.
Qed.

(** whatever the calls, an allocation holds at most 64 permissions and 64 channels, all channel
    numbers are in the TURN range, permissions are of the address family of the relay, and no peer has two
    channels. *)
Theorem turn_bounded t log a : turn_reachable t log a -> children_ok a.
Proof. intros Hr. by destruct (turn_reachable_ok _ _ _ Hr). Qed.
End Channels.

Definition list_bindings : BindingOrder := {| bindings := map_to_list; bindings_perm := fun m => reflexivity _ |}.
Definition relay_peer : SocketAddr := SocketAddrV4 0xc0000214 50000.
Definition example_allocation : Allocation :=
  (call_turn (order:=list_bindings) (BindChannel (from_secs 1) 0x4000 relay_peer)
     (new (from_secs 1) [] (SocketAddrV4 1 40000) (SocketAddrV4 2 60000))).1.
Definition example_log : list entry := [Installed (from_secs 1) (V4 0xc0000214); Bound (from_secs 1) 0x4000 relay_peer].

Lemma example_allocation_reachable : turn_reachable (order:=list_bindings) (from_secs 1) example_log example_allocation.
Proof.
  assert (example_log = [] ++ (call_turn (order:=list_bindings) (BindChannel (from_secs 1) 0x4000 relay_peer)
     (new (from_secs 1) [] (SocketAddrV4 1 40000) (SocketAddrV4 2 60000))).2) as -> by (vm_compute; reflexivity).
  unfold example_allocation. apply (turn_step (order:=list_bindings) (from_secs 1) [] _ (BindChannel (from_secs 1) 0x4000 relay_peer)); [apply turn_new|apply Z.le_refl].
Qed.

Lemma turn_follows_history_witness : (channel_peer (from_secs 300) 0x4000 example_allocation).2 = Some relay_peer /\
  (permits (from_secs 301) relay_peer example_allocation).2 = false.
Proof.
  split.
  - destruct (turn_follows_history (order:=list_bindings) (from_secs 1) example_log example_allocation (from_secs 300) example_allocation_reachable) as (_ & H & _); [vm_compute; done|].
    apply (proj2 (H 0x4000 relay_peer)). split; (exists (from_secs 1); split; [|vm_compute; reflexivity]).
    + right. left.
    + left.
  - destruct (turn_follows_history (order:=list_bindings) (from_secs 1) example_log example_allocation (from_secs 301) example_allocation_reachable) as [H _]; [vm_compute; done|].
    specialize (H relay_peer). destruct (permits (from_secs 301) relay_peer example_allocation).2 eqn:E; [|reflexivity].
    exfalso. destruct (proj1 H eq_refl) as (t & Ht & Hlive). unfold example_log in Ht. apply elem_of_cons in Ht as [[= -> ]|Ht]; [vm_compute in Hlive; discriminate|].
    apply list_elem_of_singleton in Ht. discriminate.
Defined.

Lemma turn_bounded_witness : children_ok example_allocation.
Proof. exact (turn_bounded (order:=list_bindings) (from_secs 1) example_log example_allocation example_allocation_reachable). Defined.
