(* ===== verification/Auth.v ===== *)
(** * control-plane/auth: access tokens authenticated by HMAC (src/lib.rs)

    Claims of a fixed width, a signature over them, and a ring of keys of which the first issues and all
    verify.  HMAC-SHA-256 and the base64 alphabet come from other crates and are parameters. *)
From S2P Require Import Prelude Words Slices RustStd RustStr BytesCodec StunCodec StunBuild.

Definition MAGIC : bytes := octets "FLAT".
Definition VERSION : Z := 1.
Definition CLAIMS_LEN : Z := 57.
Definition SIGNATURE_LEN : Z := 32.
Definition TOKEN_BYTES : Z := CLAIMS_LEN + SIGNATURE_LEN.

(** The [hmac] and [base64] crates: a key is accepted or not ([InvalidLength]), a tag has 32 octets, and the
    URL-safe alphabet without padding is decoded strictly, so that each octet string has one encoding. *)
Class AuthCrypto := {
  hmac_sha256 : bytes -> option (bytes -> bytes);
  hmac_any_key key : bytes_ok key -> is_Some (hmac_sha256 key);
  hmac_output key mac m : hmac_sha256 key = Some mac -> bytes_ok m -> bytes_ok (mac m) /\ len (mac m) = SIGNATURE_LEN;
  base64_encode : bytes -> bytes;
  base64_decode : bytes -> option bytes;
  base64_decode_encode b : bytes_ok b -> base64_decode (base64_encode b) = Some b;
  base64_strict t b : base64_decode t = Some b -> bytes_ok b /\ base64_encode b = t }.

Module Scopes.
Definition ROOM_CREATE : Z := 1.
Definition ROOM_JOIN : Z := 2.
Definition MEDIA_PUBLISH : Z := 4.
Definition ROOM_MODERATE : Z := 8.
Definition GIFT_VERIFY : Z := 16.
Definition NODE_STATUS_WRITE : Z := 32.
Definition VOD_MANAGE : Z := 64.
Definition LIVE_MANAGE : Z := 128.
Definition TOKEN_REVOKE : Z := 256.
Definition empty : Z := 0.
Definition union (self other : Z) : Z := Z.lor self other.
Definition contains (self requested : Z) : bool := Z.land self requested =? requested.
End Scopes.

Record Claims := { subject : Z; room_id : Z; expires_at_millis : Z; nonce : Z; scopes : Z }.

Inductive TokenError :=
| WeakSecret (n : Z)
| InvalidKeyCount (n : Z)
| InvalidSecret
| Malformed
| UnsupportedVersion (version : Z)
| InvalidSignature
| Expired
| Decode (e : DecodeError)
| Encode (e : EncodeError).

(** ** Claims on the wire *)
(** [u64::try_from(value).unwrap_or_default()] *)
Definition u64_or_default (value : Z) : Z := if value <=? umax 64 then value else 0.

Definition write_u128 (value : Z) : prog WriteBuffer.t EncodeError unit :=
  _ ← WriteBuffer.write_u64 (u64_or_default (Z.shiftr value 64));
  WriteBuffer.write_u64 (u64_or_default (Z.land value (umax 64))).
Definition read_u128 : prog ReadCursor.t DecodeError Z :=
  high ← ReadCursor.read_u64;
  low ← ReadCursor.read_u64;
  mret (Z.lor (Z.shiftl high 64 mod 2 ^ 128) low).

Definition write_claims (claims : Claims) : prog WriteBuffer.t EncodeError unit :=
  _ ← WriteBuffer.extend_from_slice MAGIC;
  _ ← WriteBuffer.write_u8 VERSION;
  _ ← write_u128 (subject claims);
  _ ← write_u128 (room_id claims);
  _ ← WriteBuffer.write_u64 (expires_at_millis claims);
  _ ← WriteBuffer.write_u64 (nonce claims);
  WriteBuffer.write_u32 (scopes claims).
Definition encode_claims (claims : Claims) : outcome TokenError bytes :=
  let '(output, result) := write_claims claims (WriteBuffer.with_limit CLAIMS_LEN) in
  _ ← map_err Encode result;
  Ok (WriteBuffer.as_slice output).

Definition read_claims : prog ReadCursor.t TokenError Claims :=
  magic ← with_err Decode (ReadCursor.take 4);
  _ ← lift (reject_if (negb (bool_decide (magic = MAGIC))) Malformed);
  version ← with_err Decode ReadCursor.read_u8;
  _ ← lift (reject_if (negb (version =? VERSION)) (UnsupportedVersion version));
  subject ← with_err Decode read_u128;
  room_id ← with_err Decode read_u128;
  expires_at_millis ← with_err Decode ReadCursor.read_u64;
  nonce ← with_err Decode ReadCursor.read_u64;
  scopes ← with_err Decode ReadCursor.read_u32;
  is_empty ← gets ReadCursor.is_empty;
  _ ← lift (reject_if (negb is_empty) Malformed);
  mret {| subject := subject; room_id := room_id; expires_at_millis := expires_at_millis; nonce := nonce; scopes := scopes |}.
Definition decode_claims (input : bytes) : outcome TokenError Claims := (read_claims (ReadCursor.new input)).2.

(** ** Codecs and key rings *)
Module TokenCodec.
Section Codec.
Context `{AuthCrypto}.
Record t := { secret : bytes }.

Definition new (secret : bytes) : outcome TokenError t :=
  _ ← reject_if (len secret <? 32) (WeakSecret (len secret));
  Ok {| secret := secret |}.

Definition sign (self : t) (bytes : bytes) : outcome TokenError Words.bytes :=
  mac ← ok_or (hmac_sha256 (secret self)) InvalidSecret;
  Ok (mac bytes).

Definition issue (self : t) (claims : Claims) : outcome TokenError bytes :=
  bytes ← encode_claims claims;
  signature ← sign self bytes;
  Ok (base64_encode (bytes ++ signature)).

(** [verify_slice] compares the whole tag. *)
Definition verify (self : t) (token : bytes) (now_millis : Z) : outcome TokenError Claims :=
  bytes ← ok_or (base64_decode token) Malformed;
  _ ← reject_if (negb (len bytes =? TOKEN_BYTES)) Malformed;
  let encoded_claims := take (Z.to_nat CLAIMS_LEN) bytes in
  let signature := drop (Z.to_nat CLAIMS_LEN) bytes in
  mac ← ok_or (hmac_sha256 (secret self)) InvalidSecret;
  _ ← reject_if (negb (bool_decide (mac encoded_claims = signature))) InvalidSignature;
  claims ← decode_claims encoded_claims;
  _ ← reject_if (expires_at_millis claims <=? now_millis) Expired;
  Ok claims.
End Codec.
End TokenCodec.

Module TokenKeyRing.
Section Ring.
Context `{AuthCrypto}.
Record t := { codecs : list TokenCodec.t }.

(** [collect::<Result<Vec<_>, _>>()?]: the first weak secret is reported. *)
Fixpoint collect (secrets : list bytes) : outcome TokenError (list TokenCodec.t) :=
  match secrets with
  | [] => Ok []
  | secret :: secrets => codec ← TokenCodec.new secret; codecs ← collect secrets; Ok (codec :: codecs)
  end.

Definition new (secrets : list bytes) : outcome TokenError t :=
  codecs ← collect secrets;
  _ ← reject_if ((len codecs =? 0) || (8 <? len codecs)) (InvalidKeyCount (len codecs));
  Ok {| codecs := codecs |}.

Definition issue (self : t) (claims : Claims) : outcome TokenError bytes :=
  codec ← ok_or (head (codecs self)) (InvalidKeyCount 0);
  TokenCodec.issue codec claims.

Fixpoint verify_loop (codecs : list TokenCodec.t) (token : bytes) (now_millis : Z) (expired : bool) : outcome TokenError Claims :=
  match codecs with
  | [] => if expired then Err Expired else Err InvalidSignature
  | codec :: codecs =>
      match TokenCodec.verify codec token now_millis with
      | Ok claims => Ok claims
      | Err Expired => verify_loop codecs token now_millis true
      | Err _ => verify_loop codecs token now_millis expired
      | Panic => Panic
      | Diverge => Diverge
      end
  end.
Definition verify (self : t) (token : bytes) (now_millis : Z) : outcome TokenError Claims := verify_loop (codecs self) token now_millis false.
Definition len (self : t) : Z := Slices.len (codecs self).
Definition is_empty (self : t) : bool := Slices.len (codecs self) =? 0.
End Ring.
End TokenKeyRing.

(** ** The layout of claims *)
Record claims_ok (c : Claims) : Prop := {
  ok_subject : fits 128 (subject c);
  ok_room : fits 128 (room_id c);
  ok_expires : fits 64 (expires_at_millis c);
  ok_nonce : fits 64 (nonce c);
  ok_scopes : fits 32 (scopes c) }.

Definition claims_bytes (c : Claims) : bytes :=
  MAGIC ++ [VERSION] ++ to_be_bytes 16 (subject c) ++ to_be_bytes 16 (room_id c) ++ to_be_bytes 8 (expires_at_millis c) ++
  to_be_bytes 8 (nonce c) ++ to_be_bytes 4 (scopes c).

Lemma claims_bytes_spec c : bytes_ok (claims_bytes c) /\ len (claims_bytes c) = CLAIMS_LEN.
Proof.
  unfold claims_bytes. split.
  - assert (bytes_ok MAGIC) by (repeat constructor; done). assert (bytes_ok [VERSION]) by (repeat constructor; done).
    rewrite !bytes_ok_app. auto 10 using to_be_bytes_ok.
  - rewrite !len_app, !len_to_be_bytes. reflexivity.
Qed.

(** A wide integer is its two halves. *)
Lemma to_be_bytes_halves v : fits 128 v ->
  to_be_bytes 16 v = to_be_bytes 8 (Z.shiftr v 64) ++ to_be_bytes 8 (Z.land v (umax 64)) /\
  fits 64 (Z.shiftr v 64) /\ fits 64 (Z.land v (umax 64)) /\ Z.lor (Z.shiftl (Z.shiftr v 64) 64 mod 2 ^ 128) (Z.land v (umax 64)) = v.
Proof.
  intros [H0 H1]. change (umax 64) with (Z.ones 64). rewrite Z.land_ones, Z.shiftr_div_pow2 by lia.
  pose proof (Z.mod_pos_bound v (2 ^ 64) ltac:(lia)) as Hlow. pose proof (Z.div_mod v (2 ^ 64) ltac:(lia)) as Hv.
  assert (fits 64 (v / 2 ^ 64)) as Hhigh by (split; [by apply Z.div_pos|apply Z.div_lt_upper_bound; lia]).
  split_and!; [|done|done|].
  - apply from_be_bytes_inj; [apply to_be_bytes_ok|apply bytes_ok_app; split; apply to_be_bytes_ok|by rewrite length_app, !length_to_be_bytes|].
    rewrite from_to_be_bytes by done. unfold from_be_bytes. rewrite foldl_app, from_be_bytes_acc, length_to_be_bytes.
    fold (from_be_bytes (to_be_bytes 8 (v / 2 ^ 64))). rewrite !from_to_be_bytes by done. change (256 ^ Z.of_nat 8) with (2 ^ 64). lia.
  - rewrite Z.shiftl_mul_pow2, Z.mod_small by (destruct Hhigh; lia). rewrite <- (Z.shiftl_mul_pow2 _ 64) by lia.
    rewrite <- (Z.land_ones v 64) by lia. rewrite <- Z.shiftr_div_pow2, <- Z.ldiff_ones_r by lia. 
    apply Z.bits_inj'. intros n _. rewrite Z.lor_spec, Z.land_spec, Z.ldiff_spec. by destruct (Z.testbit v n), (Z.testbit _ n).
Qed.

Lemma u64_or_default_fits v : fits 64 v -> u64_or_default v = v.
Proof. intros [_ H]. unfold u64_or_default. replace (v <=? umax 64) with true by (unfold umax; lia). done. Qed.

Lemma write_u128_Ok v b : fits 128 v -> WriteBuffer.limit b < 2 ^ 63 -> len (WriteBuffer.bytes_ b) + 16 <= WriteBuffer.limit b ->
  write_u128 v b = (grow b (to_be_bytes 16 v), Ok tt).
Proof.
  intros Hv Hl Hb. destruct (to_be_bytes_halves v Hv) as (-> & Hh & Hlo & _). unfold write_u128. rewrite !u64_or_default_fits by done.
  rewrite <- grow_grow. erewrite prog_step by (apply extend_Ok; [done|]; split; [|done]; rewrite len_to_be_bytes; lia).
  apply extend_Ok; [done|]. split; [|done]. cbn [grow WriteBuffer.bytes_ WriteBuffer.limit]. rewrite len_app, !len_to_be_bytes. lia.
Qed.

Lemma read_u128_at input v suffix c : fits 128 v -> at_ input (to_be_bytes 16 v ++ suffix) c ->
  exists c', read_u128 c = (c', Ok v) /\ at_ input suffix c'.
Proof.
  intros Hv Hc. destruct (to_be_bytes_halves v Hv) as (E & Hh & Hlo & Hsum). rewrite E, <- app_assoc in Hc.
  apply read_array_at in Hc as (c1 & H1 & Hc); [|done]. apply read_array_at in Hc as (c2 & H2 & Hc); [|done].
  exists c2. split; [|done]. unfold read_u128. rewrite (prog_step _ _ _ _ _ H1), (prog_step _ _ _ _ _ H2). unfold mret, prog_ret. by rewrite Hsum.
Qed.

Ltac claims_room := cbn [grow WriteBuffer.bytes_ WriteBuffer.limit WriteBuffer.with_limit];
  rewrite ?len_app, ?len_to_be_bytes; vm_compute; discriminate.
Ltac claims_write := erewrite prog_step by (apply extend_Ok; [done|]; split; [claims_room|done]).

Lemma encode_claims_Ok c : claims_ok c -> encode_claims c = Ok (claims_bytes c).
Proof.
  intros [H1 H2 H3 H4 H5]. unfold encode_claims. assert (write_claims c (WriteBuffer.with_limit CLAIMS_LEN) =
    (grow (WriteBuffer.with_limit CLAIMS_LEN) (claims_bytes c), Ok tt)) as ->; [|done].
  unfold write_claims. do 2 claims_write. do 2 (erewrite prog_step by (apply write_u128_Ok; [done|done|claims_room])). do 2 claims_write.
  apply extend_Ok; [done|]. split; [claims_room|]. by rewrite !grow_grow.
Qed.

Lemma read_u8_at input v suffix c : at_ input ([v] ++ suffix) c -> exists c', ReadCursor.read_u8 c = (c', Ok v) /\ at_ input suffix c'.
Proof.
  intros H. cbn [app] in H. destruct (read_u8_cases _ _ _ H) as [[Hlt _]|(b & s' & c1 & E & Hr & Hc)]; [rewrite len_cons in Hlt; pose_len; lia|].
  injection E as <- <-. eauto.
Qed.

Ltac claims_read H := let c := fresh "c" in let Hc := fresh "Hc" in destruct H as (c & Hc & H); rewrite (prog_step _ _ _ _ _ (proj2 (with_err_Ok _ _ _ _ _) Hc)).

Lemma decode_claims_bytes c : claims_ok c -> decode_claims (claims_bytes c) = Ok c.
Proof.
  intros [H1 H2 H3 H4 H5]. unfold decode_claims, read_claims. 
  assert (exists input start, ReadCursor.new (claims_bytes c) = start /\ at_ input (claims_bytes c) start) as (input & start & -> & H)
    by (do 2 eexists; split; [done|apply at_new]).
  unfold claims_bytes in H.
  apply take_at in H. change (len MAGIC) with 4 in H. claims_read H. cbn [bool_decide].
  rewrite bool_decide_eq_true_2 by done. cbn [negb reject_if lift].
  erewrite prog_step by reflexivity.
  apply read_u8_at in H. claims_read H. cbn [VERSION Z.eqb Pos.eqb negb reject_if]. erewrite prog_step by reflexivity.
  apply read_u128_at in H; [|done]. claims_read H. apply read_u128_at in H; [|done]. claims_read H.
  apply read_array_at in H; [|done]. claims_read H. apply read_array_at in H; [|done]. claims_read H.
  rewrite <- (app_nil_r (to_be_bytes 4 _)) in H. apply read_array_at in H; [|done]. claims_read H.
  erewrite prog_step by reflexivity. rewrite (at_is_empty _ _ _ H). cbn [len Z.eqb]. by destruct c.
Qed.

(** Reading backwards: what a successful read found. *)
Definition reads (input s : bytes) (c' : ReadCursor.t) (field : bytes) : Prop :=
  exists s', s = field ++ s' /\ at_ input s' c' /\ bytes_ok s'.

Lemma take_inv input s c c' n b : at_ input s c -> bytes_ok s -> 0 <= n -> ReadCursor.take n c = (c', Ok b) -> reads input s c' b.
Proof.
  intros H Hs Hn Ht. destruct (take_cases _ n s c H Hn) as [(_ & e & He)|(b' & s' & c1 & -> & _ & Hr & Hc)]; rewrite Ht in *; [discriminate|].
  simplify_eq. apply bytes_ok_app in Hs as [_ Hs]. by exists s'.
Qed.

Lemma read_array_inv input s c c' n v : at_ input s c -> bytes_ok s -> ReadCursor.read_array n c = (c', Ok v) ->
  reads input s c' (to_be_bytes n v) /\ fits (8 * Z.of_nat n) v.
Proof.
  intros H Hs Ht. destruct (read_array_cases _ n s c H) as [(_ & e & He)|(b' & s' & c1 & -> & Hb & Hr & Hc)]; rewrite Ht in *; [discriminate|].
  apply bytes_ok_app in Hs as [Hb' Hs]. destruct (octets_of b' n Hb' Hb) as [E Hf]. simplify_eq. split; [|done]. exists s'. by rewrite <- E.
Qed.

Lemma read_u8_inv input s c c' v : at_ input s c -> bytes_ok s -> ReadCursor.read_u8 c = (c', Ok v) -> reads input s c' [v].
Proof.
  intros H Hs Ht. destruct (read_u8_cases _ s c H) as [(_ & e & He)|(b' & s' & c1 & -> & Hr & Hc)]; rewrite Ht in *; [discriminate|].
  simplify_eq. apply bytes_ok_cons in Hs as [_ Hs]. by exists s'.
Qed.

Lemma halves_value high low : fits 64 high -> fits 64 low ->
  let v := Z.lor (Z.shiftl high 64 mod 2 ^ 128) low in fits 128 v /\ to_be_bytes 8 high ++ to_be_bytes 8 low = to_be_bytes 16 v.
Proof.
  intros [Hh0 Hh1] [Hl0 Hl1] v. assert (v = high * 2 ^ 64 + low) as Hv.
  { unfold v. rewrite Z.shiftl_mul_pow2, Z.mod_small by lia. rewrite <- Z.add_lor_land.
    assert (Z.land (high * 2 ^ 64) low = 0) as ->; [|lia]. rewrite <- (Z.mod_small low (2 ^ 64)), <- Z.land_ones by lia.
    rewrite <- Z.shiftl_mul_pow2 by lia. apply Z.bits_inj'. intros n Hn. rewrite !Z.land_spec, Z.shiftl_spec, Z.bits_0 by done.
    destruct (decide (n < 64)); [by rewrite Z.testbit_neg_r by lia|]. rewrite Z.ones_spec_high by lia. by rewrite !andb_false_r. }
  assert (fits 128 v) as Hf by (rewrite Hv; unfold fits; lia). split; [done|].
  destruct (to_be_bytes_halves v Hf) as (-> & _). change (umax 64) with (Z.ones 64). rewrite Z.land_ones, Z.shiftr_div_pow2, Hv by lia.
  rewrite Z.div_add_l, Z.div_small, Z.add_0_r, Z.add_comm, Z.mod_add, Z.mod_small by lia. done.
Qed.

Lemma read_u128_inv input s c c' v : at_ input s c -> bytes_ok s -> read_u128 c = (c', Ok v) -> reads input s c' (to_be_bytes 16 v) /\ fits 128 v.
Proof.
  intros H Hs Ht. unfold read_u128 in Ht. apply prog_bind_Ok in Ht as (c1 & high & H1 & Ht). apply prog_bind_Ok in Ht as (c2 & low & H2 & Ht).
  injection Ht as <- <-. destruct (read_array_inv _ _ _ _ _ _ H Hs H1) as [(s1 & -> & Hc1 & Hs1) Hh].
  destruct (read_array_inv _ _ _ _ _ _ Hc1 Hs1 H2) as [(s2 & -> & Hc2 & Hs2) Hl]. destruct (halves_value high low Hh Hl) as [Hf E].
  split; [|done]. exists s2. by rewrite app_assoc, E.
Qed.

Ltac claims_step H x Hx := apply prog_bind_Ok in H as (? & x & Hx & H); rewrite ?with_err_Ok in Hx.

Lemma decode_claims_inv b c : bytes_ok b -> decode_claims b = Ok c -> b = claims_bytes c /\ claims_ok c.
Proof.
  unfold decode_claims. intros Hb H. pose proof (at_new b) as Hat. destruct (read_claims _) as [cur res] eqn:Hr. cbn in H. subst res. unfold read_claims in Hr.
  claims_step Hr magic H1. destruct (take_inv _ _ _ _ 4 _ Hat Hb ltac:(lia) H1) as (s1 & -> & Hc1 & Hs1). clear H1.
  claims_step Hr u H2. injection H2 as -> H2. apply reject_if_Ok, negb_false_iff, bool_decide_eq_true in H2 as ->.
  claims_step Hr version H3. destruct (read_u8_inv _ _ _ _ _ Hc1 Hs1 H3) as (s2 & -> & Hc2 & Hs2).
  claims_step Hr u' H4. injection H4 as -> H4. apply reject_if_Ok, negb_false_iff in H4. assert (version = VERSION) as -> by lia.
  claims_step Hr subj H5. destruct (read_u128_inv _ _ _ _ _ Hc2 Hs2 H5) as [(s3 & -> & Hc3 & Hs3) F1].
  claims_step Hr room H6. destruct (read_u128_inv _ _ _ _ _ Hc3 Hs3 H6) as [(s4 & -> & Hc4 & Hs4) F2].
  claims_step Hr exp H7. destruct (read_array_inv _ _ _ _ _ _ Hc4 Hs4 H7) as [(s5 & -> & Hc5 & Hs5) F3].
  claims_step Hr non H8. destruct (read_array_inv _ _ _ _ _ _ Hc5 Hs5 H8) as [(s6 & -> & Hc6 & Hs6) F4].
  claims_step Hr sco H9. destruct (read_array_inv _ _ _ _ _ _ Hc6 Hs6 H9) as [(s7 & -> & Hc7 & Hs7) F5].
  claims_step Hr e H10. injection H10 as -> <-. claims_step Hr u'' H11. injection H11 as -> H11. apply reject_if_Ok, negb_false_iff in H11.
  rewrite (at_is_empty _ _ _ Hc7) in H11. injection Hr as _ <-. split; [|by split].
  assert (s7 = []) as -> by (destruct s7; [done|rewrite len_cons in H11; pose_len; lia]). by rewrite app_nil_r.
Qed.

(** Reading claims comes back, and never with [Expired]. *)
Section Reads.
Context (input : bytes).
Definition plain {A} (m : prog ReadCursor.t TokenError A) : Prop := forall s c, at_ input s c ->
  match m c with
  | (c', Ok _) => exists s', at_ input s' c'
  | (_, Err e) => e <> Expired
  | _ => False
  end.

Lemma plain_bind {A B} (m : prog ReadCursor.t TokenError A) (f : A -> prog ReadCursor.t TokenError B) :
  plain m -> (forall a, plain (f a)) -> plain (m ≫= f).
Proof.
  intros Hm Hf s c Hc. specialize (Hm s c Hc). unfold mbind, prog_bind. destruct (m c) as [c' [a|e| |]]; [|done..].
  destruct Hm as [s' Hs']. by apply (Hf a s').
Qed.

Lemma plain_array n : plain (with_err Decode (ReadCursor.read_array n)).
Proof.
  intros s c Hc. unfold with_err. destruct (read_array_cases _ n s c Hc) as [(_ & e & ->)|(b & s' & c' & _ & _ & -> & Hc')]; cbn; [done|by exists s'].
Qed.

Lemma plain_u128 : plain (with_err Decode read_u128).
Proof.
  intros s c Hc. unfold with_err, read_u128, ReadCursor.read_u64, mbind, prog_bind.
  destruct (read_array_cases _ 8 s c Hc) as [(_ & e & ->)|(b & s' & c' & _ & _ & -> & Hc')]; cbn; [done|].
  destruct (read_array_cases _ 8 s' c' Hc') as [(_ & e & ->)|(b' & s'' & c'' & _ & _ & -> & Hc'')]; cbn; [done|by exists s''].
Qed.

Lemma plain_reject b e : e <> Expired -> plain (lift (reject_if b e)).
Proof. intros He s c Hc. destruct b; cbn; [done|by exists s]. Qed.

Lemma plain_read_claims : plain read_claims.
Proof.
  unfold read_claims. apply plain_bind.
  { intros s c Hc. unfold with_err. destruct (take_cases _ 4 s c Hc ltac:(lia)) as [(_ & e & ->)|(b & s' & c' & _ & _ & -> & Hc')]; cbn; [done|by exists s']. }
  intros magic. apply plain_bind; [by apply plain_reject|intros _]. apply plain_bind.
  { intros s c Hc. unfold with_err. destruct (read_u8_cases _ s c Hc) as [(_ & e & ->)|(b & s' & c' & _ & -> & Hc')]; cbn; [done|by exists s']. }
  intros version. apply plain_bind; [by apply plain_reject|intros _].
  do 2 (apply plain_bind; [apply plain_u128|intros ?]). do 3 (apply plain_bind; [apply plain_array|intros ?]).
  apply plain_bind; [intros s c Hc; by exists s|intros is_empty]. apply plain_bind; [by apply plain_reject|intros _ s c Hc; by exists s].
Qed.
End Reads.

Lemma decode_claims_plain b : returns (decode_claims b) /\ decode_claims b <> Err Expired.
Proof.
  pose proof (plain_read_claims b b (ReadCursor.new b) (at_new b)) as Hp. unfold decode_claims.
  destruct (read_claims _) as [c' [a|e| |]]; cbn; [done| |done|done]. split; [done|congruence].
Qed.

(** ** Authentic tokens *)
Section Tokens.
Context `{AuthCrypto}.

(** The one token that a secret gives to some claims. *)
Definition signed (secret token : bytes) (c : Claims) : Prop :=
  claims_ok c /\ exists mac, hmac_sha256 secret = Some mac /\ token = base64_encode (claims_bytes c ++ mac (claims_bytes c)).
Definition authentic (secrets : list bytes) (token : bytes) (c : Claims) : Prop := exists secret, secret ∈ secrets /\ signed secret token c.

Lemma claims_bytes_inj c c' : claims_ok c -> claims_ok c' -> claims_bytes c = claims_bytes c' -> c = c'.
Proof. intros H1 H2 E. pose proof (decode_claims_bytes c H1) as D. rewrite E, decode_claims_bytes in D by done. congruence. Qed.

Lemma signed_bytes secret token c : signed secret token c -> exists tag, base64_decode token = Some (claims_bytes c ++ tag) /\ len tag = SIGNATURE_LEN /\
  exists mac, hmac_sha256 secret = Some mac /\ tag = mac (claims_bytes c).
Proof.
  intros (Hc & mac & Hm & ->). destruct (claims_bytes_spec c) as [Hb _]. destruct (hmac_output _ _ (claims_bytes c) Hm Hb) as [Ht Hl].
  exists (mac (claims_bytes c)). split_and!; [|done|by exists mac]. apply base64_decode_encode, bytes_ok_app. by split.
Qed.

Lemma signed_unique s s' token c c' : signed s token c -> signed s' token c' -> c = c'.
Proof.
  intros Hs Hs'. pose proof (proj1 Hs) as Hc. pose proof (proj1 Hs') as Hc'.
  apply signed_bytes in Hs as (t & E & _). apply signed_bytes in Hs' as (t' & E' & _). rewrite E in E'. apply (inj Some) in E'.
  apply app_inj_1 in E' as [E' _]; [by apply claims_bytes_inj|]. pose proof (proj2 (claims_bytes_spec c)). pose proof (proj2 (claims_bytes_spec c')).
  unfold len in *. lia.
Qed.

Lemma verify_signed codec token now c : signed (TokenCodec.secret codec) token c ->
  TokenCodec.verify codec token now = if expires_at_millis c <=? now then Err Expired else Ok c.
Proof.
  intros Hs. pose proof (proj1 Hs) as Hc. apply signed_bytes in Hs as (tag & E & Hl & mac & Hm & Ht). destruct (claims_bytes_spec c) as [Hb Hlen].
  unfold TokenCodec.verify. rewrite E. cbn [ok_or mbind outcome_bind]. rewrite len_app, Hlen, Hl. cbn [Z.eqb negb reject_if mbind outcome_bind].
  rewrite take_app_length', drop_app_length' by (unfold len in Hlen; lia). rewrite Hm. cbn [ok_or mbind outcome_bind].
  rewrite bool_decide_eq_true_2 by done. cbn [negb reject_if mbind outcome_bind].
  rewrite decode_claims_bytes by done. cbn [mbind outcome_bind]. by destruct (_ <=? _).
Qed.

Lemma verify_unsigned codec token now : (exists c, signed (TokenCodec.secret codec) token c) \/
  (exists e, TokenCodec.verify codec token now = Err e /\ e <> Expired).
Proof.
  unfold TokenCodec.verify. destruct (base64_decode token) as [b|] eqn:Hb; [|right; by eexists]. cbn [ok_or mbind outcome_bind].
  destruct (Z.eqb_spec (len b) TOKEN_BYTES) as [Hlen|]; [|right; by eexists]. cbn [negb reject_if mbind outcome_bind].
  destruct (hmac_sha256 _) as [mac|] eqn:Hm; [|right; by eexists]. cbn [ok_or mbind outcome_bind].
  case_bool_decide as Htag; [|right; by eexists]. cbn [negb reject_if mbind outcome_bind].
  destruct (base64_strict _ _ Hb) as [Hok Henc]. assert (bytes_ok (take (Z.to_nat CLAIMS_LEN) b)) as Hok' by by apply bytes_ok_take.
  destruct (decode_claims _) as [c|e| |] eqn:Hd; cbn [mbind outcome_bind].
  - left. apply decode_claims_inv in Hd as [E Hc]; [|done]. exists c. split; [done|]. exists mac. split; [done|].
    rewrite <- E, Htag, take_drop. done.
  - right. exists e. split; [done|]. intros ->. by destruct (decode_claims_plain (take (Z.to_nat CLAIMS_LEN) b)) as [_ []].
  - destruct (decode_claims_plain (take (Z.to_nat CLAIMS_LEN) b)) as [Hr _]. by rewrite Hd in Hr.
  - destruct (decode_claims_plain (take (Z.to_nat CLAIMS_LEN) b)) as [Hr _]. by rewrite Hd in Hr.
Qed.

Lemma ring_loop_cases codecs token now expired :
  (exists codec c, codec ∈ codecs /\ signed (TokenCodec.secret codec) token c /\
     TokenKeyRing.verify_loop codecs token now expired = if expires_at_millis c <=? now then Err Expired else Ok c) \/
  ((forall codec c, codec ∈ codecs -> ~ signed (TokenCodec.secret codec) token c) /\
     TokenKeyRing.verify_loop codecs token now expired = Err (if expired then Expired else InvalidSignature)).
Proof.
  revert expired. induction codecs as [|codec codecs IH]; intros expired; cbn [TokenKeyRing.verify_loop].
  { right. split; [by intros ? ? ?%not_elem_of_nil|by destruct expired]. }
  destruct (verify_unsigned codec token now) as [[c Hs]|(e & He & Hne)].
  - left. exists codec, c. split_and!; [left|done|]. rewrite (verify_signed codec token now c Hs).
    destruct (expires_at_millis c <=? now) eqn:Hx; [|done].
    destruct (IH true) as [(k' & c' & _ & Hs' & ->)|[_ ->]]; [|done]. by rewrite <- (signed_unique _ _ _ _ _ Hs Hs'), Hx.
  - rewrite He. assert (forall c, ~ signed (TokenCodec.secret codec) token c) as Hno.
    { intros c Hs. rewrite (verify_signed codec token now c Hs) in He. destruct (_ <=? _); congruence. }
    destruct (IH expired) as [(k' & c' & Hin & Hs' & E)|[Hall E]].
    + left. exists k', c'. split_and!; [by right|done|]. rewrite <- E. by destruct e.
    + right. split; [|rewrite <- E; by destruct e]. intros k' c' [->|Hin]%elem_of_cons; [apply Hno|by apply Hall].
Qed.

Lemma collect_Ok secrets codecs : TokenKeyRing.collect secrets = Ok codecs ->
  TokenCodec.secret <$> codecs = secrets /\ Forall (fun s => 32 <= len s) secrets.
Proof.
  revert codecs. induction secrets as [|s secrets IH]; intros codecs Hc; cbn in Hc; [by simplify_eq|].
  apply bind_Ok in Hc as (codec & Hn & Hc). unfold TokenCodec.new in Hn. inv_ok Hn. apply bind_Ok in Hc as (rest & Hr & Hc).
  apply Ok_inj in Hc as <-. subst codec. destruct (IH rest Hr) as [<- Hf]. split; [done|]. constructor; [lia|done].
Qed.

Lemma new_ring_Ok secrets ring : TokenKeyRing.new secrets = Ok ring <->
  ring = {| TokenKeyRing.codecs := TokenCodec.Build_t <$> secrets |} /\ Forall (fun s => 32 <= len s) secrets /\ 1 <= len secrets <= 8.
Proof.
  split.
  - unfold TokenKeyRing.new. intros Hn. inv_ok Hn. apply collect_Ok in Hstep as [<- Hf]. rewrite len_map. subst ring. split_and!; [|done|pose_len; lia..].
    f_equal. rewrite <- list_fmap_compose. rewrite <- (list_fmap_id a) at 1. apply list_fmap_ext. by intros ? [] ?.
  - intros (-> & Hf & Hl). unfold TokenKeyRing.new.
    assert (TokenKeyRing.collect secrets = Ok (TokenCodec.Build_t <$> secrets)) as ->.
    { clear Hl. induction Hf as [|s secrets Hs _ IH]; [done|]. cbn [TokenKeyRing.collect]. unfold TokenCodec.new.
      rewrite (proj2 (Z.ltb_ge _ _) Hs). cbn [reject_if mbind outcome_bind]. rewrite IH. done. }
    cbn [mbind outcome_bind]. rewrite len_map. replace (_ || _) with false by lia. done.
Qed.

Lemma ring_authentic secrets ring token now : TokenKeyRing.new secrets = Ok ring ->
  (exists c, authentic secrets token c /\ TokenKeyRing.verify ring token now = if expires_at_millis c <=? now then Err Expired else Ok c) \/
  ((forall c, ~ authentic secrets token c) /\ TokenKeyRing.verify ring token now = Err InvalidSignature).
Proof.
  intros (-> & _ & _)%new_ring_Ok. unfold TokenKeyRing.verify. cbn [TokenKeyRing.codecs].
  destruct (ring_loop_cases (TokenCodec.Build_t <$> secrets) token now false) as [(codec & c & Hin & Hs & ->)|[Hno ->]].
  - left. exists c. split; [|done]. apply list_elem_of_fmap in Hin as (s & -> & Hin). by exists s.
  - right. split; [|done]. intros c (s & Hin & Hs). apply (Hno (TokenCodec.Build_t s) c); [|done]. by apply list_elem_of_fmap_2.
Qed.

Lemma authentic_unique secrets token c c' : authentic secrets token c -> authentic secrets token c' -> c = c'.
Proof. intros (s & _ & Hs) (s' & _ & Hs'). by eapply signed_unique. Qed.

(** C25: The key ring accepts a token exactly when it is the base64 form of well-formed claims followed by their HMAC under one of the
    configured secrets and the claims have not expired, and then returns those claims; it answers [Expired] exactly when such a token
    has expired, and [InvalidSignature] exactly when no configured secret signed it; no other answer exists. *)
Theorem tokens_exact secrets ring token now : TokenKeyRing.new secrets = Ok ring ->
  (forall c, TokenKeyRing.verify ring token now = Ok c <-> authentic secrets token c /\ now < expires_at_millis c) /\
  (TokenKeyRing.verify ring token now = Err Expired <-> exists c, authentic secrets token c /\ expires_at_millis c <= now) /\
  (TokenKeyRing.verify ring token now = Err InvalidSignature <-> forall c, ~ authentic secrets token c).
Proof.
  intros Hn. destruct (ring_authentic secrets ring token now Hn) as [(c & Ha & ->)|[Hno ->]].
  - destruct (Z.leb_spec (expires_at_millis c) now) as [Hle|Hgt]; split_and!.
    + intros c'. split; [done|]. intros [Ha' Hlt]. rewrite (authentic_unique _ _ _ _ Ha' Ha) in Hlt. lia.
    + split; [by exists c|done].
    + split; [done|]. intros Hno. by destruct (Hno c).
    + intros c'. split; [by intros [= <-]|]. intros [Ha' _]. by rewrite (authentic_unique _ _ _ _ Ha' Ha).
    + split; [done|]. intros (c' & Ha' & Hle). rewrite (authentic_unique _ _ _ _ Ha' Ha) in Hle. lia.
    + split; [done|]. intros Hno. by destruct (Hno c).
  - split_and!; [intros c|..]; split; try done; [intros [Ha _]|intros (c & Ha & _)]; by destruct (Hno c).
Qed.

(** Key rotation works: a token issued by one ring is accepted, with its claims unchanged, by every ring that still holds the
    issuing ring's first key, wherever it holds it, until the claims expire, and from then on is answered [Expired]. *)
Theorem token_rotation active old secrets ring ring' c now :
  TokenKeyRing.new (active :: old) = Ok ring -> TokenKeyRing.new secrets = Ok ring' -> active ∈ secrets -> bytes_ok active -> claims_ok c ->
  exists token, TokenKeyRing.issue ring c = Ok token /\
    TokenKeyRing.verify ring' token now = if expires_at_millis c <=? now then Err Expired else Ok c.
Proof.
  intros (-> & _ & _)%new_ring_Ok Hn Hin Hok Hc. destruct (hmac_any_key active Hok) as [mac Hm].
  exists (base64_encode (claims_bytes c ++ mac (claims_bytes c))). split.
  - unfold TokenKeyRing.issue, TokenCodec.issue, TokenCodec.sign. cbn [fmap list_fmap TokenKeyRing.codecs head ok_or mbind outcome_bind TokenCodec.secret].
    rewrite encode_claims_Ok by done. cbn [mbind outcome_bind]. by rewrite Hm.
  - set (token := base64_encode _). assert (authentic secrets token c) as Ha by (exists active; split; [done|]; split; [done|]; by exists mac).
    destruct (ring_authentic secrets ring' token now Hn) as [(c' & Ha' & ->)|[Hno _]]; [|by destruct (Hno c)].
    by rewrite (authentic_unique _ _ _ _ Ha' Ha).
Qed.
End Tokens.

(** A stand-in for the two crates, for the examples: the tag is the key and message modulo 2{^256}, and octets encode themselves. *)
Definition demo_mac (key message : bytes) : bytes := to_be_bytes 32 (from_be_bytes (key ++ message)).
Definition is_octet (b : Z) : bool := in_range 0 255 b.
#[refine] Definition demo_crypto : AuthCrypto :=
  {| hmac_sha256 key := Some (demo_mac key); base64_encode b := b; base64_decode t := if forallb is_octet t then Some t else None |}.
Proof.
  - by eexists.
  - intros key mac m [= <-] _. unfold demo_mac. split; [apply to_be_bytes_ok|by rewrite len_to_be_bytes].
  - intros b Hb. assert (forallb is_octet b = true) as ->; [|done]. apply forallb_forall. intros x Hx%list_elem_of_In.
    unfold bytes_ok in Hb. rewrite Forall_forall in Hb. destruct (Hb x Hx). unfold is_octet, in_range. lia.
  - intros t b Ht. case_match; [|done]. injection Ht as <-. split; [|done]. apply Forall_forall. intros x Hx%list_elem_of_In.
    rewrite forallb_forall in *. specialize (H x Hx). unfold is_octet, in_range in H. split; lia.
Defined.

Definition demo_key (n : Z) : bytes := replicate 32 n.
Definition demo_claims : Claims := {| subject := 2 ^ 100 + 7; room_id := 0; expires_at_millis := 1000; nonce := 3; scopes := 6 |}.
Definition demo_ring (keys : list Z) : TokenKeyRing.t := {| TokenKeyRing.codecs := (fun n => TokenCodec.Build_t (demo_key n)) <$> keys |}.
Definition demo_token : bytes := claims_bytes demo_claims ++ demo_mac (demo_key 1) (claims_bytes demo_claims).

Lemma demo_claims_ok : claims_ok demo_claims.
Proof. split; vm_compute; split; (discriminate || reflexivity). Qed.

Lemma tokens_exact_witness : TokenKeyRing.verify (H:=demo_crypto) (demo_ring [2; 1]) demo_token 999 = Ok demo_claims.
Proof.
  refine (proj2 (proj1 (tokens_exact (H:=demo_crypto) [demo_key 2; demo_key 1] (demo_ring [2; 1]) demo_token 999 eq_refl) demo_claims) _).
  split; [|reflexivity]. exists (demo_key 1). split; [right; left|]. split; [exact demo_claims_ok|]. by exists (demo_mac (demo_key 1)).
Defined.

Lemma token_rotation_witness : exists token, TokenKeyRing.issue (H:=demo_crypto) (demo_ring [1]) demo_claims = Ok token /\
  TokenKeyRing.verify (H:=demo_crypto) (demo_ring [2; 1]) token 1000 = Err Expired.
Proof.
  refine (token_rotation (H:=demo_crypto) (demo_key 1) [] [demo_key 2; demo_key 1] (demo_ring [1]) (demo_ring [2; 1]) demo_claims 1000 eq_refl eq_refl _ _ demo_claims_ok).
  - right; left.
  - apply Forall_replicate. split; lia.
Defined.

(** Capabilities are sets of bits: [contains] is inclusion, and a union grants what either side grants. *)
Lemma contains_spec s r : Scopes.contains s r = true <-> forall n, Z.testbit r n = true -> Z.testbit s n = true.
Proof.
  unfold Scopes.contains. rewrite Z.eqb_eq. split.
  - intros E n Hn. rewrite <- E, Z.land_spec, andb_true_iff in Hn. tauto.
  - intros Hb. apply Z.bits_inj. intros n. rewrite Z.land_spec. specialize (Hb n). destruct (Z.testbit r n); [by rewrite Hb|by rewrite andb_false_r].
Qed.
Lemma contains_union s s' r : Scopes.contains s r = true -> Scopes.contains (Scopes.union s s') r = true.
Proof. rewrite !contains_spec. intros Hb n Hn. unfold Scopes.union. by rewrite Z.lor_spec, (Hb n Hn). Qed.
