(* ===== verification/TurnNonce.v ===== *)
(** * services/turn-server: nonces that the server can check without remembering them (src/nonce.rs)

    A nonce is a time stamp and the address of the client, followed by their HMAC-SHA256, in base64; the two crates are those
    of [Auth.AuthCrypto]. *)
From S2P Require Import Prelude Words Slices RustStd.
From S2P Require Auth.
Import Auth (AuthCrypto).

Definition TAG_BYTES : Z := 32.

Record NonceManager := { secret : bytes; lifetime : Z }.
Inductive NonceError := InvalidConfiguration | Invalid | Stale.
#[export] Instance NonceError_eq_dec : EqDecision NonceError.
Proof. solve_decision. Defined.

Definition new (secret : bytes) (lifetime : Z) : outcome NonceError NonceManager :=
  _ ← reject_if ((len secret <? 32) || (lifetime =? 0) || (from_secs 3600 <? lifetime)) InvalidConfiguration;
  Ok {| secret := secret; lifetime := lifetime |}.

Definition nonce_payload (timestamp : Z) (client_ip : IpAddr) : bytes :=
  to_be_bytes 8 timestamp ++ match client_ip with V4 address => 4 :: to_be_bytes 4 address | V6 octets => 6 :: octets end.

Section Nonce.
Context {crypto : AuthCrypto}.

Definition issue (self : NonceManager) (now_seconds : Z) (client_ip : IpAddr) : outcome NonceError bytes :=
  let payload := nonce_payload now_seconds client_ip in
  mac ← ok_or (Auth.hmac_sha256 (secret self)) InvalidConfiguration;
  Ok (Auth.base64_encode (payload ++ mac payload)).

(** [decoded.split_at(payload_length)] cannot fail after the comparison of the length. *)
Definition validate (self : NonceManager) (nonce : bytes) (now_seconds : Z) (client_ip : IpAddr) : outcome NonceError unit :=
  decoded ← ok_or (Auth.base64_decode nonce) Invalid;
  let payload_length := len (nonce_payload 0 client_ip) in
  _ ← reject_if (negb (len decoded =? payload_length + TAG_BYTES)) Invalid;
  let payload := take (Z.to_nat payload_length) decoded in
  let tag := drop (Z.to_nat payload_length) decoded in
  timestamp_bytes ← ok_or (get_to payload 8) Invalid;
  let timestamp := from_be_bytes timestamp_bytes in
  _ ← reject_if (negb (bool_decide (payload = nonce_payload timestamp client_ip))) Invalid;
  mac ← ok_or (Auth.hmac_sha256 (secret self)) InvalidConfiguration;
  _ ← reject_if (negb (bool_decide (tag = mac payload))) Invalid;
  reject_if ((now_seconds <? timestamp) || (as_secs (lifetime self) <? saturating_sub now_seconds timestamp)) Stale.

(** ** What a nonce is good for *)
Definition manager_ok (self : NonceManager) : Prop := bytes_ok (secret self) /\ 0 <= lifetime self.

Lemma nonce_payload_len t i : ip_ok i -> len (nonce_payload t i) = match i with V4 _ => 13 | V6 _ => 25 end.
Proof. unfold nonce_payload. destruct i as [a|o]; intros Hi; rewrite len_app, len_to_be_bytes, len_cons, ?len_to_be_bytes; [lia|]. destruct Hi as [_ ->]. lia. Qed.
Lemma nonce_payload_ok t i : ip_ok i -> bytes_ok (nonce_payload t i).
Proof.
  intros Hi. unfold nonce_payload. apply bytes_ok_app. split; [apply to_be_bytes_ok|].
  destruct i as [a|o]; (constructor; [by vm_compute|]); [apply to_be_bytes_ok|apply Hi].
Qed.
Lemma nonce_payload_inj t t' i i' : u64 t -> u64 t' -> ip_ok i -> ip_ok i' -> nonce_payload t i = nonce_payload t' i' -> t = t' /\ i = i'.
Proof.
  intros Ht Ht' Hi Hi' E. unfold nonce_payload in E. apply app_inj_1 in E as [E1 E2]; [|by rewrite !length_to_be_bytes].
  split; [exact (to_be_bytes_inj 8 t t' Ht Ht' E1)|]. destruct i as [a|o], i' as [a'|o']; [|discriminate E2..|]; apply (f_equal tail) in E2; cbn [tail] in E2; [|by subst].
  f_equal. exact (to_be_bytes_inj 4 a a' Hi Hi' E2).
Qed.
Lemma payload_time t i : u64 t -> get_to (nonce_payload t i) 8 = Some (to_be_bytes 8 t).
Proof. intros _. unfold nonce_payload. apply get_range_exact. by rewrite len_to_be_bytes. Qed.

Definition in_window (self : NonceManager) (t now : Z) : Prop := t <= now <= t + as_secs (lifetime self).

Lemma issue_Ok self t i : manager_ok self -> exists mac, Auth.hmac_sha256 (secret self) = Some mac /\
  issue self t i = Ok (Auth.base64_encode (nonce_payload t i ++ mac (nonce_payload t i))).
Proof. intros [Hs _]. destruct (Auth.hmac_any_key _ Hs) as [mac Hm]. exists mac. split; [done|]. unfold issue. by rewrite Hm. Qed.

(** The verdict on a nonce that was issued for this address. *)
Lemma validate_issued self t now i nonce : manager_ok self -> u64 t -> ip_ok i -> issue self t i = Ok nonce ->
  validate self nonce now i = if bool_decide (in_window self t now) then Ok tt else Err Stale.
Proof.
  intros Hm Ht Hi Hn. destruct (issue_Ok self t i Hm) as (mac & Hmac & E). rewrite E in Hn. apply Ok_inj in Hn as <-. unfold validate.
  pose proof (nonce_payload_ok t i Hi) as Hpo. destruct (Auth.hmac_output _ _ _ Hmac Hpo) as [Hto Htl].
  rewrite Auth.base64_decode_encode by (apply bytes_ok_app; by split). cbn [ok_or mbind outcome_bind].
  assert (len (nonce_payload 0 i) = len (nonce_payload t i)) as Hl by by rewrite !nonce_payload_len.
  assert ((len (nonce_payload t i ++ mac (nonce_payload t i)) =? len (nonce_payload 0 i) + TAG_BYTES) = true) as -> by (rewrite len_app, Htl, Hl; apply Z.eqb_eq; done).
  cbn [negb reject_if mbind outcome_bind]. rewrite Hl. assert (Z.to_nat (len (nonce_payload t i)) = length (nonce_payload t i)) as -> by (unfold len; lia).
  rewrite take_app_length, drop_app_length, payload_time by done.
  cbn [ok_or mbind outcome_bind]. rewrite from_to_be_bytes by exact Ht. rewrite bool_decide_eq_true_2 by done. cbn [negb reject_if mbind outcome_bind].
  rewrite Hmac. cbn [ok_or mbind outcome_bind]. rewrite bool_decide_eq_true_2 by done. cbn [negb reject_if mbind outcome_bind].
  unfold in_window, saturating_sub. case_bool_decide as Hw; unfold reject_if; case_match; try done; lia.
Qed.
(** Anything else is invalid. *)
Lemma validate_cases self nonce now i : manager_ok self -> ip_ok i ->
  (exists t, u64 t /\ issue self t i = Ok nonce) \/ validate self nonce now i = Err Invalid.
Proof.
  intros Hm Hi. unfold validate. destruct (Auth.base64_decode nonce) as [decoded|] eqn:Hd; [|by right]. cbn [ok_or mbind outcome_bind].
  apply Auth.base64_strict in Hd as [Hdo <-]. destruct (Z.eqb_spec (len decoded) (len (nonce_payload 0 i) + TAG_BYTES)) as [Hl|]; [|by right].
  cbn [negb reject_if mbind outcome_bind]. set (n := Z.to_nat (len (nonce_payload 0 i))). destruct (get_to (take n decoded) 8) as [tb|] eqn:Ht; [|by right].
  cbn [ok_or mbind outcome_bind]. case_bool_decide as Hp; [|by right]. cbn [negb reject_if mbind outcome_bind].
  destruct (issue_Ok self (from_be_bytes tb) i Hm) as (mac & Hmac & E). rewrite Hmac. cbn [ok_or mbind outcome_bind].
  case_bool_decide as Htag; [|by right]. left. exists (from_be_bytes tb).
  assert (bytes_ok tb /\ len tb = 8) as [Htb Htl].
  { apply get_range_Some in Ht as (l1 & l2 & E2 & E3 & E4). split; [|lia]. assert (bytes_ok (take n decoded)) as Hok by (by apply Forall_take).
    rewrite E2 in Hok. by apply bytes_ok_app in Hok as [_ [? _]%bytes_ok_app]. }
  split; [pose proof (from_be_bytes_bound tb Htb) as B; replace (length tb) with 8%nat in B by (unfold len in Htl; lia); exact B|].
  rewrite E, <- Hp, <- Htag. f_equal. f_equal. by rewrite take_drop.
Qed.

(** a nonce is good exactly for the address it was issued to and for its lifetime.  A nonce is accepted exactly when the
    server issued it, for this very client address, at a second that is neither in the future nor older than the lifetime;
    it is reported stale exactly when it was issued for this address at another time; everything else is invalid. *)
Theorem nonce_exact self nonce now i : manager_ok self -> ip_ok i ->
  (validate self nonce now i = Ok tt <-> exists t, u64 t /\ issue self t i = Ok nonce /\ in_window self t now) /\
  (validate self nonce now i = Err Stale <-> exists t, u64 t /\ issue self t i = Ok nonce /\ ~ in_window self t now) /\
  (validate self nonce now i = Err Invalid <-> forall t, u64 t -> issue self t i <> Ok nonce).
Proof.
  intros Hm Hi. assert (forall t t', u64 t -> u64 t' -> issue self t i = Ok nonce -> issue self t' i = Ok nonce -> t = t') as Huniq.
  { intros t t' Ht Ht' E E'. destruct (issue_Ok self t i Hm) as (mac & Hmac & F). destruct (issue_Ok self t' i Hm) as (mac' & Hmac' & F').
    rewrite F in E. rewrite F' in E'. apply Ok_inj in E as <-. apply Ok_inj in E'.
    assert (forall x, bytes_ok (nonce_payload x i ++ mac (nonce_payload x i))) as Hb.
    { intros x. apply bytes_ok_app. split; [by apply nonce_payload_ok|]. by apply (Auth.hmac_output _ _ _ Hmac), nonce_payload_ok. }
    assert (mac' = mac) as -> by congruence. apply (f_equal Auth.base64_decode) in E'. rewrite !Auth.base64_decode_encode in E' by done. apply (inj Some) in E'.
    apply app_inj_1 in E' as [E' _]; [by apply nonce_payload_inj in E' as [-> _]|]. apply Nat2Z.inj. change (len (nonce_payload t' i) = len (nonce_payload t i)). by rewrite !nonce_payload_len. }
  destruct (validate_cases self nonce now i Hm Hi) as [(t & Ht & Hn)|Hbad].
  - rewrite (validate_issued self t now i nonce) by done. case_bool_decide as Hw; split_and!; split; try done; try naive_solver.
    all: intros (t' & Ht' & Hn' & Hw'); assert (t' = t) as -> by (by apply Huniq); done.
  - rewrite Hbad. split_and!; split; try done.
    1-2: intros (t & Ht & Hn & _); exfalso; rewrite (validate_issued self t now i nonce) in Hbad by done; by case_bool_decide.
    intros _ t Ht Hn. rewrite (validate_issued self t now i nonce) in Hbad by done. by case_bool_decide.
Qed.
End Nonce.

Definition example_manager : NonceManager := {| secret := replicate 32 7; lifetime := from_secs 600 |}.
Lemma nonce_exact_witness : exists nonce, issue (crypto:=Auth.demo_crypto) example_manager 1000 (V4 0xc0000201) = Ok nonce /\
  validate (crypto:=Auth.demo_crypto) example_manager nonce 1600 (V4 0xc0000201) = Ok tt.
Proof.
  eexists. split; [reflexivity|]. apply (nonce_exact (crypto:=Auth.demo_crypto) example_manager _ 1600 (V4 0xc0000201)).
  - split; [repeat constructor; by vm_compute|by vm_compute].
  - by vm_compute.
  - exists 1000. split; [by vm_compute|]. split; [reflexivity|]. by vm_compute.
Defined.
