(* ===== verification/TurnServer.v ===== *)
(** * services/turn-server: the relay around the allocations of [webrtc/turn] (src/server.rs)

    Clients ask over UDP, TCP or TLS for allocations, permissions and channels, in STUN messages with long-term credentials;
    the server relays datagrams between the client and the peers it has permitted, within a rate.  The sockets are an
    environment of each call: the clocks, what the operating system answers to a bind, which transmissions succeed, and the
    random octets.  A handler gives the datagrams it sends back as its result; in the source the transmission is always the last
    thing that can fail.  The task of a relay is told to stop when its allocation goes, so [relay_one] (a turn of its loop) is
    called only for the relay of a present allocation. *)
From S2P Require Import Prelude Words Slices RustStd RustStr RustText.
From S2P Require Stun Turn Auth TurnNonce.
From S2P Require SfuRuntime.
Import Stun (StunCrypto).
Import (hints) Stun.
Import Turn (TurnCrypto, BindingOrder, Allocation).
Import Auth (AuthCrypto).
Import SfuRuntime (HashIteration, iter).

(** ** Addresses of the standard library *)
Definition v4_octet (a : Z) (n : Z) : Z := Z.land (Z.shiftr a (8 * (3 - n))) 255.
Definition ip_is_unspecified (a : IpAddr) : bool := match a with V4 a => a =? 0 | V6 o => bool_decide (o = replicate 16 0) end.
Definition v4_is_multicast (a : Z) : bool := in_range 224 239 (v4_octet a 0).
Definition v4_is_link_local (a : Z) : bool := (v4_octet a 0 =? 169) && (v4_octet a 1 =? 254).
Definition v4_is_private (a : Z) : bool :=
  (v4_octet a 0 =? 10) || ((v4_octet a 0 =? 172) && in_range 16 31 (v4_octet a 1)) || ((v4_octet a 0 =? 192) && (v4_octet a 1 =? 168)).
Definition v6_segment (o : bytes) (n : nat) : Z := from_be_bytes (take 2 (drop (2 * n) o)).
Definition v6_is_multicast (o : bytes) : bool := Z.shiftr (v6_segment o 0) 8 =? 255.
Definition v6_is_unicast_link_local (o : bytes) : bool := Z.land (v6_segment o 0) 0xffc0 =? 0xfe80.
Definition v6_is_unique_local (o : bytes) : bool := Z.land (v6_segment o 0) 0xfe00 =? 0xfc00.
Definition to_ipv4_mapped (o : bytes) : option Z :=
  if bool_decide (take 12 o = replicate 10 0 ++ [255; 255]) then Some (from_be_bytes (drop 12 o)) else None.

(** ** Data *)
Definition MAX_DATAGRAM_BYTES : Z := 65535.
Definition MAX_RELAY_DATA_BYTES : Z := 65000.
Definition SOFTWARE : bytes := octets "Fluvora TURN 0.1".

Record TlsConfiguration := { tls_bind : SocketAddr; certificate_pem : bytes; private_key_pem : bytes }.
Record ServerConfig := {
  control_bind : SocketAddr;
  status_bind : SocketAddr;
  advertised_ip : IpAddr;
  relay_bind_ip : IpAddr;
  relay_port_min : Z;
  relay_port_max : Z;
  allow_private_peers : bool;
  maximum_relay_bytes_per_second : Z;
  cfg_username : bytes;
  cfg_password : bytes;
  cfg_realm : bytes;
  nonce_secret : bytes;
  rest_secret : bytes;
  maximum_allocations : Z;
  maximum_allocations_per_ip : Z;
  tls : option TlsConfiguration }.

Record BandwidthLimiter := { available_bytes : Z; updated_at : Z }.

Inductive ClientKey := Udp (address : SocketAddr) | Tcp (connection_id : Z) (address : SocketAddr).
#[export] Instance ClientKey_eq_dec : EqDecision ClientKey.
Proof. solve_decision. Defined.
#[export] Instance ClientKey_countable : Countable ClientKey.
Proof.
  apply (inj_countable' (fun k => match k with Udp a => inl a | Tcp i a => inr (i, a) end)
           (fun s => match s with inl a => Udp a | inr (i, a) => Tcp i a end)). by intros [].
Defined.
Definition address (k : ClientKey) : SocketAddr := match k with Udp a | Tcp _ a => a end.

(** The queue of a TCP connection is named by the connection. *)
Inductive ClientSender := SenderUdp (address : SocketAddr) | SenderTcp (connection_id : Z).

(** A relay socket is named by its port; the handle that cancels its task is left out. *)
Record ManagedAllocation := {
  allocation : Allocation;
  relay_socket : Z;
  allocate_transaction : bytes;
  allocate_response : bytes;
  control_sender : ClientSender;
  bandwidth : BandwidthLimiter }.

Record Metrics := {
  allocations_created : Z;
  allocations_rejected : Z;
  client_bytes_relayed : Z;
  peer_bytes_relayed : Z;
  dropped_datagrams : Z;
  authentication_failures : Z;
  rate_limited_datagrams : Z }.
Definition default_metrics : Metrics :=
  {| allocations_created := 0; allocations_rejected := 0; client_bytes_relayed := 0; peer_bytes_relayed := 0; dropped_datagrams := 0;
     authentication_failures := 0; rate_limited_datagrams := 0 |}.

Record TurnServer := {
  configuration : ServerConfig;
  allocations : gmap ClientKey ManagedAllocation;
  nonce : TurnNonce.NonceManager;
  server_key : bytes;
  metrics : Metrics;
  next_relay_port : Z }.

Inductive IoError := BrokenPipe | AddrNotAvailable | UnexpectedEof | OtherIo.
Inductive ServerError :=
| InvalidConfiguration
| MalformedRequest
| Io (error : IoError)
| FromStun (error : Stun.StunError)
| FromTurn (error : Turn.TurnError).

Record Authentication := { auth_username : bytes; key : bytes }.
Inductive AuthRejection := Unauthorized | StaleNonce.

(** What leaves the server. *)
Inductive Output :=
| ToClient (sender : ClientSender) (frame : bytes)
| ToPeer (socket : Z) (destination : SocketAddr) (data : bytes).

Inductive BindResult := Bound (port : Z) | AddrInUse | BindFailed.
(** The outside world during one call. *)
Record Env := {
  now : Z;
  unix_seconds : Z;
  bind_udp : Z -> BindResult;
  accepts : ClientSender -> bool;
  sends : Z -> SocketAddr -> bool;
  random : option bytes }.

Definition set_allocations (a : gmap ClientKey ManagedAllocation) (self : TurnServer) : TurnServer :=
  {| configuration := configuration self; allocations := a; nonce := nonce self; server_key := server_key self; metrics := metrics self;
     next_relay_port := next_relay_port self |}.
Definition set_metrics (m : Metrics) (self : TurnServer) : TurnServer :=
  {| configuration := configuration self; allocations := allocations self; nonce := nonce self; server_key := server_key self; metrics := m;
     next_relay_port := next_relay_port self |}.
Definition set_next_relay_port (p : Z) (self : TurnServer) : TurnServer :=
  {| configuration := configuration self; allocations := allocations self; nonce := nonce self; server_key := server_key self; metrics := metrics self;
     next_relay_port := p |}.
Definition with_allocation (a : Allocation) (m : ManagedAllocation) : ManagedAllocation :=
  {| allocation := a; relay_socket := relay_socket m; allocate_transaction := allocate_transaction m; allocate_response := allocate_response m;
     control_sender := control_sender m; bandwidth := bandwidth m |}.
Definition with_bandwidth (b : BandwidthLimiter) (m : ManagedAllocation) : ManagedAllocation :=
  {| allocation := allocation m; relay_socket := relay_socket m; allocate_transaction := allocate_transaction m; allocate_response := allocate_response m;
     control_sender := control_sender m; bandwidth := b |}.

(** [fetch_add] of the seven counters wraps. *)
Inductive Counter := Created | Rejected | ClientBytes | PeerBytes | Dropped | AuthFailures | RateLimited.
Definition bump (c : Counter) (n : Z) (m : Metrics) : Metrics :=
  let add x d := wrapping_add 64 x d in
  let d k := if match c, k with
      | Created, Created | Rejected, Rejected | ClientBytes, ClientBytes | PeerBytes, PeerBytes | Dropped, Dropped
      | AuthFailures, AuthFailures | RateLimited, RateLimited => true | _, _ => false end then n else 0 in
  {| allocations_created := add (allocations_created m) (d Created); allocations_rejected := add (allocations_rejected m) (d Rejected);
     client_bytes_relayed := add (client_bytes_relayed m) (d ClientBytes); peer_bytes_relayed := add (peer_bytes_relayed m) (d PeerBytes);
     dropped_datagrams := add (dropped_datagrams m) (d Dropped); authentication_failures := add (authentication_failures m) (d AuthFailures);
     rate_limited_datagrams := add (rate_limited_datagrams m) (d RateLimited) |}.
Definition count (c : Counter) (n : Z) (self : TurnServer) : TurnServer := set_metrics (bump c n (metrics self)) self.

Abbreviation server := (prog TurnServer ServerError).

(** ** The rate of an allocation *)
Definition new_limiter (bytes_per_second now : Z) : BandwidthLimiter :=
  {| available_bytes := saturating_mul 64 bytes_per_second 2; updated_at := now |}.
Definition consume (now bytes bytes_per_second : Z) (self : BandwidthLimiter) : BandwidthLimiter * bool :=
  let elapsed := saturating_sub now (updated_at self) in
  let replenished := saturating_mul 128 bytes_per_second elapsed / NANOS in
  let self := if negb (replenished =? 0)
    then {| available_bytes := Z.min (saturating_add 64 (available_bytes self) (default (umax 64) (try_from 64 replenished)))
                                 (saturating_mul 64 bytes_per_second 2);
            updated_at := now |}
    else self in
  let bytes := default (umax 64) (try_from 64 bytes) in
  if available_bytes self <? bytes then (self, false)
  else ({| available_bytes := available_bytes self - bytes; updated_at := updated_at self |}, true).

(** ** Configuration and peers *)
Definition valid_relay_port_range (minimum maximum allocations : Z) : bool :=
  if (minimum =? 0) || (maximum =? 0) then (minimum =? 0) && (maximum =? 0)
  else (minimum <=? maximum) && (allocations <=? saturating_add 16 (saturating_sub maximum minimum) 1).

Definition is_multicast (a : IpAddr) : bool :=
  match a with
  | V4 a => v4_is_multicast a || (a =? 0xffffffff)
  | V6 o => v6_is_multicast o || bool_decide (o = replicate 16 0)
  end.
Definition v4_is_private_peer (a : Z) : bool :=
  let first := v4_octet a 0 in
  let second := v4_octet a 1 in
  let third := v4_octet a 2 in
  is_loopback (V4 a) || v4_is_link_local a || v4_is_private a || (first =? 0)
  || ((first =? 100) && in_range 64 127 second)
  || ((first =? 192) && (second =? 0) && (third =? 0))
  || ((first =? 192) && (second =? 0) && (third =? 2))
  || ((first =? 192) && (second =? 88) && (third =? 99))
  || ((first =? 198) && ((second =? 18) || (second =? 19)))
  || ((first =? 198) && (second =? 51) && (third =? 100))
  || ((first =? 203) && (second =? 0) && (third =? 113))
  || (240 <=? first).
Definition is_private_peer (a : IpAddr) : bool :=
  match a with
  | V4 a => v4_is_private_peer a
  | V6 o =>
      is_loopback (V6 o) || v6_is_unicast_link_local o || v6_is_unique_local o
      || ((v6_segment o 0 =? 0x2001) && (v6_segment o 1 =? 0x0db8))
      || (Z.land (v6_segment o 0) 0xffc0 =? 0xfec0)
      || from_option v4_is_private_peer false (to_ipv4_mapped o)
  end.
Definition concrete_ip_matches (candidate configured : IpAddr) : bool :=
  negb (ip_is_unspecified configured) && bool_decide (candidate = configured).
Definition is_server_endpoint (c : ServerConfig) (peer : SocketAddr) : bool :=
  let local_address :=
    bool_decide (ip peer = advertised_ip c) || concrete_ip_matches (ip peer) (ip (control_bind c))
    || concrete_ip_matches (ip peer) (ip (status_bind c)) || concrete_ip_matches (ip peer) (relay_bind_ip c)
    || from_option (fun t => concrete_ip_matches (ip peer) (ip (tls_bind t))) false (tls c) in
  if negb local_address then false
  else if (port peer =? port (control_bind c)) || (port peer =? port (status_bind c))
          || from_option (fun t => port peer =? port (tls_bind t)) false (tls c) then true
  else negb (relay_port_min c =? 0) && ((relay_port_min c <=? port peer) && (port peer <=? relay_port_max c)).
Definition safe_peer (c : ServerConfig) (peer : SocketAddr) : bool :=
  if (port peer =? 0) || ip_is_unspecified (ip peer) || is_multicast (ip peer)
     || (negb (allow_private_peers c) && is_private_peer (ip peer)) || is_server_endpoint c peer
  then false else true.

(** ** Attributes *)
(** [<[u8; 4]>::try_from(attribute.value())] *)
Definition four_octets (attribute : Stun.RawAttribute) : outcome ServerError bytes :=
  if len (Stun.value attribute) =? 4 then Ok (Stun.value attribute) else Err MalformedRequest.
Definition requested_transport (message : Stun.Message) : outcome ServerError (option Z) :=
  match Stun.attribute message Stun.AttributeType.REQUESTED_TRANSPORT with
  | None => Ok None
  | Some attribute =>
      value ← four_octets attribute;
      _ ← reject_if (negb (bool_decide (drop 1 value = [0; 0; 0]))) MalformedRequest;
      Some <$> index value 0
  end.
Definition u32_attribute (message : Stun.Message) (attribute_type : Z) : outcome ServerError (option Z) :=
  match Stun.attribute message attribute_type with
  | None => Ok None
  | Some attribute => value ← four_octets attribute; Ok (Some (from_be_bytes value))
  end.
Definition channel_number (message : Stun.Message) : outcome ServerError (option Z) :=
  match Stun.attribute message Stun.AttributeType.CHANNEL_NUMBER with
  | None => Ok None
  | Some attribute =>
      value ← four_octets attribute;
      _ ← reject_if (negb (bool_decide (drop 2 value = [0; 0]))) MalformedRequest;
      Ok (Some (from_be_bytes (take 2 value)))
  end.

(** ** Frames on TCP *)
Definition is_channel_data (frame : bytes) : bool :=
  match frame with first :: _ => Z.land first 0xc0 =? 0x40 | [] => false end.
(** [ClientSender::send]: ChannelData is padded to four octets on a stream. *)
Definition client_frame (sender : ClientSender) (frame : bytes) : bytes :=
  match sender with
  | SenderUdp _ => frame
  | SenderTcp _ => if is_channel_data frame then frame ++ repeat 0 (Z.to_nat ((4 - len frame mod 4) mod 4)) else frame
  end.
Definition send (env : Env) (sender : ClientSender) (frame : bytes) : outcome ServerError (list Output) :=
  if accepts env sender then Ok [ToClient sender (client_frame sender frame)]
  else Err (Io match sender with SenderUdp _ => OtherIo | SenderTcp _ => BrokenPipe end).

(** The stream is what the client sends until it closes; the rest of it is given back. *)
Definition read_turn_tcp_frame (stream : bytes) : outcome ServerError (option (bytes * bytes)) :=
  match get_to stream 4 with
  | None => Ok None
  | Some prefix =>
      p0 ← index prefix 0; p2 ← index prefix 2; p3 ← index prefix 3;
      let body_length := from_be_bytes [p2; p3] in
      let channel_data := Z.land p0 0xc0 =? 0x40 in
      let stun := Z.land p0 0xc0 =? 0 in
      _ ← reject_if (negb channel_data && negb stun) MalformedRequest;
      _ ← reject_if (negb channel_data && negb (body_length mod 4 =? 0)) MalformedRequest;
      let total_length := if channel_data then 4 + Z.ldiff (body_length + 3) 3 else 20 + body_length in
      _ ← reject_if (negb ((4 <=? total_length) && (total_length <=? MAX_DATAGRAM_BYTES + 4))) MalformedRequest;
      frame ← ok_or (get_to stream total_length) (Io UnexpectedEof);
      rest ← ok_or (get_from stream total_length) (Io UnexpectedEof);
      Ok (Some (frame, rest))
  end.
(** [while let Ok(Some(frame)) = read_turn_tcp_frame(..)] *)
Fixpoint frames (fuel : nat) (stream : bytes) : outcome ServerError (list bytes) :=
  match fuel with
  | O => Diverge
  | S fuel =>
      match read_turn_tcp_frame stream with
      | Ok (Some (frame, rest)) => fs ← frames fuel rest; Ok (frame :: fs)
      | Panic => Panic
      | Diverge => Diverge
      | _ => Ok []
      end
  end.

Section Server.
Context {stun_crypto : StunCrypto} {turn_crypto : TurnCrypto} {auth_crypto : AuthCrypto} {order : BindingOrder} {iteration : HashIteration}.

(** [TurnServer::bind], without the sockets. *)
Definition bind (c : ServerConfig) : outcome ServerError TurnServer :=
  _ ← reject_if (negb (Turn.same_family (advertised_ip c) (relay_bind_ip c)) || (maximum_allocations c =? 0) || (maximum_allocations_per_ip c =? 0)
        || (maximum_allocations c <? maximum_allocations_per_ip c) || (maximum_relay_bytes_per_second c <? MAX_RELAY_DATA_BYTES)
        || negb (valid_relay_port_range (relay_port_min c) (relay_port_max c) (maximum_allocations c))) InvalidConfiguration;
  nonce ← map_err (fun _ => InvalidConfiguration) (TurnNonce.new (nonce_secret c) (from_secs 600));
  Ok {| configuration := c; allocations := ∅; nonce := nonce; server_key := Turn.long_term_key (cfg_username c) (cfg_realm c) (cfg_password c);
        metrics := default_metrics; next_relay_port := relay_port_min c |}.

(** ** Responses *)
Definition response_to (message : Stun.Message) (class : Stun.MessageClass) : Stun.MessageBuilder :=
  Stun.Builder.new (Stun.MessageType.new (Stun.MessageType.method (Stun.kind message)) class) (Stun.transaction_id message).
Definition finish (b : Stun.MessageBuilder) : outcome ServerError bytes := map_err FromStun (Stun.build (Stun.Builder.fingerprint b)).
Definition binding_response (message : Stun.Message) (client : SocketAddr) : outcome ServerError bytes :=
  finish (Stun.Builder.software SOFTWARE (Stun.Builder.xor_mapped_address client
    (Stun.Builder.new (Stun.MessageType.new Stun.Method.BINDING Stun.SuccessResponse) (Stun.transaction_id message)))).
Definition allocation_success (message : Stun.Message) (relayed mapped : SocketAddr) (lifetime : Z) (key : bytes) : outcome ServerError bytes :=
  finish (Stun.Builder.message_integrity_sha1 key (Stun.Builder.software SOFTWARE
    (Stun.Builder.raw_attribute Stun.AttributeType.LIFETIME (to_be_bytes 4 lifetime) (Stun.Builder.xor_mapped_address mapped
      (Stun.Builder.xor_address Stun.AttributeType.XOR_RELAYED_ADDRESS relayed
        (Stun.Builder.new (Stun.MessageType.new Stun.Method.ALLOCATE Stun.SuccessResponse) (Stun.transaction_id message))))))).
Definition lifetime_success (message : Stun.Message) (lifetime : Z) (key : bytes) : outcome ServerError bytes :=
  finish (Stun.Builder.message_integrity_sha1 key (Stun.Builder.software SOFTWARE
    (Stun.Builder.raw_attribute Stun.AttributeType.LIFETIME (to_be_bytes 4 lifetime)
      (Stun.Builder.new (Stun.MessageType.new Stun.Method.REFRESH Stun.SuccessResponse) (Stun.transaction_id message))))).
Definition empty_success (message : Stun.Message) (key : bytes) : outcome ServerError bytes :=
  finish (Stun.Builder.message_integrity_sha1 key (Stun.Builder.software SOFTWARE (response_to message Stun.SuccessResponse))).
(** Every caller has a key. *)
Definition authenticated_error (message : Stun.Message) (code : Z) (reason : bytes) (key : bytes) (unknown : option (list Z)) : outcome ServerError bytes :=
  builder ← map_err FromStun (Stun.Builder.error_code code reason (response_to message Stun.ErrorResponse));
  let builder := match unknown with Some unknown => Stun.Builder.unknown_attributes unknown builder | None => builder end in
  finish (Stun.Builder.message_integrity_sha1 key (Stun.Builder.software SOFTWARE builder)).
Definition data_indication (env : Env) (peer : SocketAddr) (data : bytes) : outcome Stun.StunError bytes :=
  transaction ← ok_or (random env) Stun.InvalidIntegrityKey;
  Stun.build (Stun.Builder.fingerprint (Stun.Builder.raw_attribute Stun.AttributeType.DATA data
    (Stun.Builder.xor_address Stun.AttributeType.XOR_PEER_ADDRESS peer
      (Stun.Builder.new (Stun.MessageType.new Stun.Method.DATA Stun.Indication) transaction)))).

(** ** Authentication *)
Definition is_ascii_hexdigit (c : Z) : bool := in_range 48 57 c || in_range 65 70 c || in_range 97 102 c.
Definition credential_key (self : TurnServer) (unix : Z) (username : bytes) : option bytes :=
  if bool_decide (username = cfg_username (configuration self)) then Some (server_key self)
  else
    '(expires, subject) ← split_once 0x3a username;
    expires ← parse_int 64 expires;
    if (len subject =? 0) || (128 <? len subject) || negb (forallb is_ascii_hexdigit subject)
       || (expires <=? unix) || (saturating_add 64 unix 86400 <? expires)
    then None
    else match Turn.rest_credential_password (rest_secret (configuration self)) username with
         | Ok password => Some (Turn.long_term_key username (cfg_realm (configuration self)) password)
         | _ => None
         end.

Definition text_attribute (o : outcome Stun.StunError (option bytes)) : outcome AuthRejection bytes :=
  v ← map_err (fun _ => Unauthorized) o;
  ok_or v Unauthorized.
Definition authenticate (self : TurnServer) (unix : Z) (client : SocketAddr) (message : Stun.Message) : outcome AuthRejection Authentication :=
  username ← text_attribute (Stun.username message);
  realm ← text_attribute (Stun.realm message);
  nonce_ ← text_attribute (Stun.nonce message);
  _ ← reject_if (negb (bool_decide (realm = cfg_realm (configuration self)))) Unauthorized;
  key ← ok_or (credential_key self unix username) Unauthorized;
  _ ← map_err (fun e => match e with TurnNonce.Stale => StaleNonce | _ => Unauthorized end) (TurnNonce.validate (nonce self) nonce_ unix (ip client));
  _ ← map_err (fun _ => Unauthorized) (Stun.verify_message_integrity_sha1 message key);
  _ ← (if bool_decide (is_Some (Stun.attribute message Stun.AttributeType.FINGERPRINT))
       then map_err (fun _ => Unauthorized) (Stun.verify_fingerprint message) else Ok tt);
  Ok {| auth_username := username; key := key |}.

Definition challenge_response (self : TurnServer) (unix : Z) (client : SocketAddr) (message : Stun.Message) (rejection : AuthRejection)
    : outcome ServerError bytes :=
  let '(code, reason) := match rejection with
    | Unauthorized => (401, octets "Unauthorized")
    | StaleNonce => (438, octets "Stale Nonce")
    end in
  nonce_ ← map_err (fun _ => InvalidConfiguration) (TurnNonce.issue (nonce self) unix (ip client));
  builder ← map_err FromStun (Stun.Builder.error_code code reason (response_to message Stun.ErrorResponse));
  finish (Stun.Builder.software SOFTWARE (Stun.Builder.raw_attribute Stun.AttributeType.NONCE nonce_
    (Stun.Builder.raw_attribute Stun.AttributeType.REALM (cfg_realm (configuration self)) builder))).

(** ** Allocations *)
Definition mismatch (message : Stun.Message) (key : bytes) : outcome ServerError bytes :=
  authenticated_error message 437 (octets "Allocation Mismatch") key None.

(** The first block of [handle_allocate], under the lock: an answer ends the call. *)
Definition from_ip (client : ClientKey) (a : gmap ClientKey ManagedAllocation) : Z :=
  Z.of_nat (size (filter (fun kv => ip (address kv.1) = ip (address client)) a)).
Definition allocate_check (client : ClientKey) (message : Stun.Message) (authentication : Authentication) : server (option bytes) := fun self =>
  match allocations self !! client with
  | Some existing =>
      if bool_decide (allocate_transaction existing = Stun.transaction_id message) then (self, Ok (Some (allocate_response existing)))
      else (self, Some <$> mismatch message (key authentication))
  | None =>
      if (maximum_allocations (configuration self) <=? Z.of_nat (size (allocations self)))
         || (maximum_allocations_per_ip (configuration self) <=? from_ip client (allocations self))
      then (count Rejected 1 self, Some <$> authenticated_error message 486 (octets "Allocation Quota Reached") (key authentication) None)
      else (self, Ok None)
  end.

(** The loop of [bind_relay_socket]: [attempts] candidates, from the shared counter. *)
Fixpoint try_ports (attempts : nat) (env : Env) (c : ServerConfig) (port_count : Z) : server Z :=
  match attempts with
  | O => fail (Io AddrNotAvailable)
  | S attempts =>
      candidate ← gets next_relay_port;
      _ ← modify (fun self => set_next_relay_port (wrapping_add 16 candidate 1) self);
      let offset := wrapping_sub 16 candidate (relay_port_min c) mod port_count in
      match bind_udp env (relay_port_min c + offset) with
      | Bound port => mret port
      | AddrInUse => try_ports attempts env c port_count
      | BindFailed => fail (Io OtherIo)
      end
  end.
Definition port_count (c : ServerConfig) : Z := saturating_add 16 (saturating_sub (relay_port_max c) (relay_port_min c)) 1.
Definition bind_relay_socket (env : Env) : server Z :=
  self ← gets id;
  let c := configuration self in
  if relay_port_min c =? 0 then
    match bind_udp env 0 with Bound port => mret port | _ => fail (Io OtherIo) end
  else try_ports (Z.to_nat (port_count c)) env c (port_count c).

(** The rest of [handle_allocate]: the table is locked again only to insert. *)
Definition allocate_commit (env : Env) (client : ClientKey) (sender : ClientSender) (message : Stun.Message) (authentication : Authentication)
    (relay_port : Z) : server bytes := fun self =>
  let relayed_address := socket_new (advertised_ip (configuration self)) relay_port in
  let a := Turn.new (now env) (auth_username authentication) (address client) relayed_address in
  match allocation_success message relayed_address (address client) (Turn.remaining_lifetime a (now env)) (key authentication) with
  | Ok response =>
      match allocations self !! client with
      | Some _ => (self, mismatch message (key authentication))
      | None =>
          let managed := {| allocation := a; relay_socket := relay_port; allocate_transaction := Stun.transaction_id message;
            allocate_response := response; control_sender := sender;
            bandwidth := new_limiter (maximum_relay_bytes_per_second (configuration self)) (now env) |} in
          (count Created 1 (set_allocations (<[client := managed]> (allocations self)) self), Ok response)
      end
  | Err e => (self, Err e)
  | Panic => (self, Panic)
  | Diverge => (self, Diverge)
  end.
Definition handle_allocate (env : Env) (client : ClientKey) (sender : ClientSender) (message : Stun.Message) (authentication : Authentication) : server bytes :=
  transport ← lift (requested_transport message);
  if negb (bool_decide (transport = Some 17)) then
    lift (authenticated_error message 442 (octets "Unsupported Transport Protocol") (key authentication) None)
  else
    early ← allocate_check client message authentication;
    match early with
    | Some response => mret response
    | None =>
        relay_port ← bind_relay_socket env;
        allocate_commit env client sender message authentication relay_port
    end.

(** [allocations.get_mut(client)] and the check of the user name: [body] runs on the allocation, or the answer is an error. *)
Definition on_allocation (client : ClientKey) (message : Stun.Message) (authentication : Authentication)
    (body : ManagedAllocation -> server bytes) : server bytes := fun self =>
  match allocations self !! client with
  | None => (self, mismatch message (key authentication))
  | Some existing =>
      if negb (bool_decide (Turn.username (allocation existing) = auth_username authentication))
      then (self, authenticated_error message 441 (octets "Wrong Credentials") (key authentication) None)
      else body existing self
  end.
Definition put (client : ClientKey) (existing : ManagedAllocation) (self : TurnServer) : TurnServer :=
  set_allocations (<[client := existing]> (allocations self)) self.

Definition handle_refresh (env : Env) (client : ClientKey) (message : Stun.Message) (authentication : Authentication) : server bytes :=
  requested_lifetime ← lift (u32_attribute message Stun.AttributeType.LIFETIME);
  on_allocation client message authentication (fun existing =>
    let '(a, lifetime) := if bool_decide (requested_lifetime = Some 0) then (allocation existing, 0)
                          else Turn.refresh (now env) requested_lifetime (allocation existing) in
    _ ← modify (put client (with_allocation a existing));
    response ← lift (lifetime_success message lifetime (key authentication));
    _ ← (if lifetime =? 0 then modify (fun self => set_allocations (delete client (allocations self)) self) else mret tt);
    mret response).

(** The answers to the errors of an allocation that the request can cause. *)
Definition turn_answer (message : Stun.Message) (key : bytes) (binding : bool) (result : outcome Turn.TurnError unit) : outcome ServerError bytes :=
  match result with
  | Ok _ => empty_success message key
  | Err Turn.PeerAddressFamilyMismatch => authenticated_error message 443 (octets "Peer Address Family Mismatch") key None
  | Err Turn.Capacity => authenticated_error message 508 (octets "Insufficient Capacity") key None
  | Err (Turn.InvalidChannelNumber _ as e) | Err (Turn.ChannelConflict as e) =>
      if binding then authenticated_error message 400 (octets "Bad Request") key None else Err (FromTurn e)
  | Err e => Err (FromTurn e)
  | Panic => Panic
  | Diverge => Diverge
  end.
Definition on_turn (client : ClientKey) (message : Stun.Message) (key : bytes) (binding : bool) (existing : ManagedAllocation)
    (body : prog Allocation Turn.TurnError unit) : server bytes := fun self =>
  let '(a, result) := body (allocation existing) in
  (put client (with_allocation a existing) self, turn_answer message key binding result).

Definition handle_create_permission (env : Env) (client : ClientKey) (message : Stun.Message) (authentication : Authentication) : server bytes :=
  peers ← lift (map_err FromStun (Stun.xor_addresses message Stun.AttributeType.XOR_PEER_ADDRESS));
  self ← gets id;
  if bool_decide (peers = []) || existsb (fun peer => negb (safe_peer (configuration self) peer)) peers then
    lift (authenticated_error message 400 (octets "Bad Request") (key authentication) None)
  else on_allocation client message authentication (fun existing =>
    on_turn client message (key authentication) false existing (Turn.create_permissions (now env) peers)).

Definition handle_channel_bind (env : Env) (client : ClientKey) (message : Stun.Message) (authentication : Authentication) : server bytes :=
  channel ← lift (channel_number message);
  peer ← lift (map_err FromStun (Stun.xor_address message Stun.AttributeType.XOR_PEER_ADDRESS));
  self ← gets id;
  match channel, peer with
  | Some channel, Some peer =>
      if negb (safe_peer (configuration self) peer) then
        lift (authenticated_error message 403 (octets "Forbidden Peer Address") (key authentication) None)
      else on_allocation client message authentication (fun existing =>
        on_turn client message (key authentication) true existing (Turn.bind_channel (now env) channel peer))
  | _, _ => lift (authenticated_error message 400 (octets "Bad Request") (key authentication) None)
  end.

Definition handle_authenticated_request (env : Env) (client : ClientKey) (sender : ClientSender) (message : Stun.Message) : server bytes := fun self =>
  match authenticate self (unix_seconds env) (address client) message with
  | Ok authentication =>
      let unknown := Stun.unknown_required_attributes message in
      if negb (bool_decide (unknown = [])) then
        (self, authenticated_error message 420 (octets "Unknown Attribute") (key authentication) (Some unknown))
      else
        let method := Stun.MessageType.method (Stun.kind message) in
        (if method =? Stun.Method.ALLOCATE then handle_allocate env client sender message authentication
         else if method =? Stun.Method.REFRESH then handle_refresh env client message authentication
         else if method =? Stun.Method.CREATE_PERMISSION then handle_create_permission env client message authentication
         else if method =? Stun.Method.CHANNEL_BIND then handle_channel_bind env client message authentication
         else lift (authenticated_error message 400 (octets "Bad Request") (key authentication) None)) self
  | Err rejection => (count AuthFailures 1 self, challenge_response self (unix_seconds env) (address client) message rejection)
  | Panic => (self, Panic)
  | Diverge => (self, Diverge)
  end.

(** ** Relaying *)
(** The decision under the lock: [body] prunes the allocation and names the peer; the rate is only charged for a known one. *)
Definition charge (env : Env) (client : ClientKey) (existing : ManagedAllocation) {A} (route : Allocation * option A) (bytes : Z) (self : TurnServer)
    : TurnServer * option A :=
  let existing := with_allocation route.1 existing in
  match route.2 with
  | None => (put client existing self, None)
  | Some target =>
      let '(b, allowed) := consume (now env) bytes (maximum_relay_bytes_per_second (configuration self)) (bandwidth existing) in
      let self := put client (with_bandwidth b existing) self in
      if allowed then (self, Some target) else (count RateLimited 1 self, None)
  end.
(** [socket.send_to(data, peer).await?] and the counter. *)
Definition relay_to_peer (env : Env) (socket : Z) (peer : SocketAddr) (data : bytes) : server (list Output) :=
  if sends env socket peer then
    _ ← modify (count ClientBytes (default (umax 64) (try_from 64 (len data))));
    mret [ToPeer socket peer data]
  else fail (Io OtherIo).

Definition handle_send_indication (env : Env) (client : ClientKey) (message : Stun.Message) : server (list Output) :=
  peer ← lift (map_err FromStun (Stun.xor_address message Stun.AttributeType.XOR_PEER_ADDRESS));
  self ← gets id;
  match peer, Stun.attribute message Stun.AttributeType.DATA with
  | Some peer, Some data_attribute =>
      let data := Stun.value data_attribute in
      if (MAX_RELAY_DATA_BYTES <? len data) || negb (safe_peer (configuration self) peer) then mret []
      else
        match allocations self !! client with
        | None => mret []
        | Some existing =>
            let '(a, permitted) := Turn.permits (now env) peer (allocation existing) in
            let '(self, route) := charge env client existing (a, if permitted then Some peer else None) (len data) self in
            _ ← modify (fun _ => self);
            match route with Some peer => relay_to_peer env (relay_socket existing) peer data | None => mret [] end
        end
  | _, _ => mret []
  end.

Definition handle_channel_data (env : Env) (client : ClientKey) (datagram : bytes) : server (list Output) :=
  channel_data ← lift (map_err FromTurn (Turn.parse_channel_data datagram));
  _ ← lift (reject_if (MAX_RELAY_DATA_BYTES <? len (Turn.data channel_data)) (FromTurn Turn.DataTooLarge));
  self ← gets id;
  match allocations self !! client with
  | None => mret []
  | Some existing =>
      let '(self, route) := charge env client existing (Turn.channel_peer (now env) (Turn.channel_number channel_data) (allocation existing))
                              (len (Turn.data channel_data)) self in
      _ ← modify (fun _ => self);
      match route with Some peer => relay_to_peer env (relay_socket existing) peer (Turn.data channel_data) | None => mret [] end
  end.

(** One turn of the loop of [relay_peer_datagrams]: [data] came from [peer] on the relay of [client]. *)
Definition relay_one (env : Env) (client : ClientKey) (peer : SocketAddr) (data : bytes) (self : TurnServer) : outcome ServerError (TurnServer * list Output) :=
  if MAX_RELAY_DATA_BYTES <? len data then Ok (count Dropped 1 self, [])
  else
    match allocations self !! client with
    | None => Ok (self, [])
    | Some existing =>
        let '(self, route) := charge env client existing (Turn.peer_route (now env) peer (allocation existing)) (len data) self in
        match route with
        | None => Ok (self, [])
        | Some route =>
            let packet := match route with
              | Turn.Channel channel => map_err FromTurn (Turn.encode_channel_data channel data)
              | Turn.DataIndication => map_err FromStun (data_indication env peer data)
              end in
            match packet with
            | Ok packet =>
                match send env (control_sender existing) packet with
                | Ok out => Ok (count PeerBytes (default (umax 64) (try_from 64 (len data))) self, out)
                | _ => Ok (self, [])
                end
            | Err _ => Ok (self, [])
            | Panic => Panic
            | Diverge => Diverge
            end
        end
    end.

(** ** Clients *)
Definition handle_stun (env : Env) (client : ClientKey) (sender : ClientSender) (datagram : bytes) : server (list Output) :=
  message ← lift (map_err FromStun (Stun.parse datagram));
  let method := Stun.MessageType.method (Stun.kind message) in
  let class := Stun.MessageType.class (Stun.kind message) in
  if (method =? Stun.Method.BINDING) && bool_decide (class = Stun.Request) then
    response ← lift (binding_response message (address client));
    lift (send env sender response)
  else if bool_decide (class = Stun.Indication) && (method =? Stun.Method.SEND) then handle_send_indication env client message
  else if bool_decide (class = Stun.Request) then
    response ← handle_authenticated_request env client sender message;
    lift (send env sender response)
  else mret [].

Definition handle_client_frame (env : Env) (client : ClientKey) (sender : ClientSender) (datagram : bytes) (self : TurnServer)
    : outcome ServerError (TurnServer * list Output) :=
  let '(self, result) := (if is_channel_data datagram then handle_channel_data env client datagram
                          else handle_stun env client sender datagram) self in
  match result with
  | Ok out => Ok (self, out)
  | Err _ => Ok (count Dropped 1 self, [])
  | Panic => Panic
  | Diverge => Diverge
  end.

(** The end of [handle_control_stream]. *)
Definition disconnect (client : ClientKey) (self : TurnServer) : TurnServer := set_allocations (delete client (allocations self)) self.

Definition remove_expired (env : Env) (self : TurnServer) : TurnServer :=
  let expired := omap (fun kv => if Turn.expired (allocation kv.2) (now env) then Some kv.1 else None) (iter (allocations self)) in
  set_allocations (foldl (fun a client => delete client a) (allocations self) expired) self.
Definition active_allocations (self : TurnServer) : Z := Z.of_nat (size (allocations self)).
Definition allocation_limit (self : TurnServer) : Z := maximum_allocations (configuration self).
End Server.
