(* ===== verification/TurnServerSafety.v ===== *)
(** * services/turn-server: the rate of an allocation, and calls that come back *)
From S2P Require Import Prelude Words Slices RustStd RustStr RustText TurnServer BytesCodec.
From S2P Require Stun StunCodec StunBuild StunSafety IceSafety Turn Auth TurnNonce SfuRuntime SfuRuntimeInvariant.
Import Stun (StunCrypto).
Import (hints) Stun.
Import Turn (TurnCrypto, BindingOrder, Allocation).
Import Auth (AuthCrypto).
Import SfuRuntime (HashIteration, iter).

(** ** The rate of an allocation *)
Section Rate.
Context (rate : Z) (rate_u64 : u64 rate).

Definition burst : Z := saturating_mul 64 rate 2.
Record limiter_ok (t : Z) (b : BandwidthLimiter) : Prop := {
  lo_available : 0 <= available_bytes b <= burst;
  lo_clock : 0 <= updated_at b <= t }.
Lemma new_limiter_ok now : 0 <= now -> limiter_ok now (new_limiter rate now).
Proof. intros Hn. unfold u64, fits in rate_u64. split; cbn; [unfold burst, saturating_mul, umax; lia|lia]. Qed.

(** One request: the credit it finds is at most what it had plus what the time since the last grant is worth. *)
Lemma consume_spec t now n b : limiter_ok t b -> t <= now -> usize n ->
  let '(b', allowed) := consume now n rate b in
  limiter_ok now b' /\ updated_at b <= updated_at b' /\
  (if allowed then n else 0) * NANOS + available_bytes b' * NANOS <= available_bytes b * NANOS + rate * (updated_at b' - updated_at b).
Proof.
  intros [H1 H2] Hle Hn. unfold consume, saturating_sub. rewrite Z.max_r by lia.
  set (r := saturating_mul 128 rate (now - updated_at b) / NANOS).
  assert (0 <= r /\ r * NANOS <= rate * (now - updated_at b)) as [Hr0 Hr].
  { unfold u64, fits in rate_u64. assert (0 <= rate * (now - updated_at b)) by (apply Z.mul_nonneg_nonneg; lia).
    unfold r, saturating_mul, umax. split; [apply Z.div_pos; [lia|done]|]. pose proof (Z.mul_div_le (Z.min (rate * (now - updated_at b)) (2 ^ 128 - 1)) NANOS ltac:(done)). lia. }
  rewrite (try_from_fits 64 n) by (unfold usize, fits, umax in *; lia). cbn [default from_option id].
  assert (0 <= burst) as Hb0 by lia. unfold usize, fits in Hn.
  destruct (Z.eqb_spec r 0) as [E|E]; cbn [negb].
  - destruct (Z.ltb_spec (available_bytes b) n); cbn; (split_and!; [split; cbn; lia|lia|lia]).
  - set (credit := default (umax 64) (try_from 64 r)). assert (0 <= credit <= r) as Hc.
    { unfold credit, try_from, umax in *. case_match; cbn; lia. }
    set (av := Z.min (saturating_add 64 (available_bytes b) credit) (saturating_mul 64 rate 2)).
    assert (0 <= av <= burst /\ av <= available_bytes b + r) as [Hav Hav2].
    { unfold av. fold burst. unfold saturating_add, umax. lia. }
    cbn [available_bytes updated_at]. destruct (Z.ltb_spec av n); cbn; (split_and!; [split; cbn; lia|lia|]); unfold NANOS in *; nia.
Qed.

(** Any sequence of requests, with a clock that does not run backwards. *)
Fixpoint granted (b : BandwidthLimiter) (requests : list (Z * Z)) : Z * BandwidthLimiter :=
  match requests with
  | [] => (0, b)
  | (now, n) :: requests =>
      let '(b, allowed) := consume now n rate b in
      let '(total, b) := granted b requests in ((if allowed then n else 0) + total, b)
  end.
Fixpoint in_order (t : Z) (requests : list (Z * Z)) : Prop :=
  match requests with [] => True | (now, n) :: requests => t <= now /\ usize n /\ in_order now requests end.
Definition last_time (t : Z) (requests : list (Z * Z)) : Z := foldl (fun _ r => r.1) t requests.

Lemma granted_spec t b requests : limiter_ok t b -> in_order t requests ->
  let '(total, b') := granted b requests in
  limiter_ok (last_time t requests) b' /\ updated_at b <= updated_at b' /\
  total * NANOS + available_bytes b' * NANOS <= available_bytes b * NANOS + rate * (updated_at b' - updated_at b).
Proof.
  revert t b. induction requests as [|[now n] requests IH]; intros t b Hb Ho; cbn [granted]; [cbn; split_and!; [done|lia..]|].
  destruct Ho as (Hle & Hn & Ho). pose proof (consume_spec t now n b Hb Hle Hn) as Hc. destruct (consume now n rate b) as [b1 allowed].
  destruct Hc as (C1 & C2 & C3). specialize (IH now b1 C1 Ho). destruct (granted b1 requests) as [total b2]. destruct IH as (I1 & I2 & I3).
  change (last_time t ((now, n) :: requests)) with (last_time now requests). split_and!; [done|lia|]. unfold NANOS in *. destruct allowed; nia.
Qed.

(** A second without traffic pays for any datagram of at most [rate] octets. *)
Lemma consume_after_idle t now n b : limiter_ok t b -> updated_at b + NANOS <= now -> 0 <= n <= rate -> (consume now n rate b).2 = true.
Proof.
  intros [H1 H2] Hidle Hn. unfold u64, fits in rate_u64. unfold consume, saturating_sub. rewrite Z.max_r by (unfold NANOS in *; lia).
  rewrite (try_from_fits 64 n) by (unfold fits, umax in *; lia). cbn [default from_option id].
  set (r := saturating_mul 128 rate (now - updated_at b) / NANOS).
  assert (rate <= r) as Hr.
  { apply Z.div_le_lower_bound; [done|]. unfold saturating_mul, umax. assert (NANOS * rate <= rate * (now - updated_at b)) by nia. unfold NANOS in *. lia. }
  set (self := if negb (r =? 0) then _ else b). assert (n <= available_bytes self) as Hav; [|by replace (available_bytes self <? n) with false by lia].
  unfold self. destruct (Z.eqb_spec r 0) as [E|E]; cbn [negb]; [lia|]. cbn [available_bytes].
  assert (rate <= default (umax 64) (try_from 64 r)) as Hc by (unfold try_from, umax; case_match; cbn; lia).
  unfold saturating_add, saturating_mul, umax in *. lia.
Qed.
End Rate.


Definition example_requests : list (Z * Z) := [(7, 65000); (8, 65000); (9, 1); (2000000009, 130000)].

(** * services/turn-server: the calls of a handler come back

    No frame can stop the server: building a response, reading an address and checking the credentials neither panic nor diverge. *)

(** ** Programs that come back from every state *)
Definition total {S E A} (m : prog S E A) : Prop := forall s, returns (m s).2.

Section Total.
Context {S E : Type}.
Lemma total_bind {A B} (m : prog S E A) (f : A -> prog S E B) : total m -> (forall a, total (f a)) -> total (m ≫= f).
Proof. intros Hm Hf s. specialize (Hm s). unfold mbind, prog_bind. destruct (m s) as [s' [a|e| |]]; [apply Hf|done..]. Qed.
Lemma total_lift {A} (o : outcome E A) : returns o -> total (S:=S) (lift o).
Proof. by intros Ho s. Qed.
Lemma total_gets {A} (f : S -> A) : total (E:=E) (gets f).
Proof. by intros s. Qed.
Lemma total_ret {A} (a : A) : total (S:=S) (E:=E) (mret a).
Proof. by intros s. Qed.
Lemma total_with_err {F A} (f : E -> F) (m : prog S E A) : total m -> total (with_err f m).
Proof. intros Hm s. apply returns_map_err, Hm. Qed.
Lemma total_for_each {A} (l : list A) (body : A -> prog S E unit) : (forall x, total (body x)) -> total (for_each l body).
Proof. intros Hb. induction l as [|x l IH]; [apply total_ret|]. by apply total_bind. Qed.
End Total.

Lemma total_extend v : total (WriteBuffer.extend_from_slice v).
Proof. intros b. by destruct (extend_cases v b) as [-> | [_ ->]]. Qed.
Lemma total_set_u16 offset v : total (WriteBuffer.set_u16 offset v).
Proof. intros b. unfold WriteBuffer.set_u16. by destruct (set_slice_cases offset (to_be_bytes 2 v) b) as [[e ->]|(l & -> & _)]. Qed.

Create HintDb total discriminated.
#[export] Hint Resolve total_bind total_lift total_gets total_ret total_with_err total_for_each total_extend total_set_u16 : total.
Ltac total_steps :=
  repeat (cbv beta zeta;
    first
      [ solve [auto with total returns nocore]
      | apply total_bind; [|intros ?]
      | match goal with |- total (match ?x with _ => _ end) => destruct x end ]).

(** ** Messages *)
Lemma total_encode_attribute t v : total (Stun.encode_attribute t v).
Proof.
  unfold Stun.encode_attribute, WriteBuffer.write_u16. total_steps. apply total_lift.
  pose proof (StunCodec.padding_bound (len v)). apply returns_index_range; [lia|]. change (len [0; 0; 0]) with 3. lia.
Qed.
Lemma total_set_wire_length n : total (Stun.set_wire_length n).
Proof. unfold Stun.set_wire_length. total_steps. Qed.
Lemma total_set_length_through n : total (Stun.set_length_through_attribute n).
Proof. unfold Stun.set_length_through_attribute. total_steps. Qed.
#[export] Hint Resolve total_encode_attribute total_set_wire_length total_set_length_through : total.

Section Codec.
Context {stun_crypto : StunCrypto} {turn_crypto : TurnCrypto} {auth_crypto : AuthCrypto}.

Lemma returns_stun_build b : returns (Stun.build b).
Proof.
  assert (total (Stun.write_message b)) as H.
  { unfold Stun.write_message, Stun.write_header, Stun.write_integrity, Stun.write_fingerprint, Stun.set_current_length, WriteBuffer.write_u16, WriteBuffer.write_u32.
    total_steps. }
  unfold Stun.build. specialize (H (WriteBuffer.with_limit Stun.MAX_MESSAGE_LEN)). destruct (Stun.write_message _ _) as [o r]. by apply returns_fmap.
Qed.

Lemma returns_finish b : returns (finish b).
Proof. apply returns_map_err, returns_stun_build. Qed.
Lemma returns_builder_error code reason b : returns (Stun.Builder.error_code code reason b).
Proof. unfold Stun.Builder.error_code. returns_steps. Qed.
Hint Resolve returns_stun_build returns_finish returns_builder_error : returns.

Lemma returns_authenticated_error m code reason k u : returns (authenticated_error m code reason k u).
Proof. unfold authenticated_error. returns_steps. Qed.
Lemma returns_responses m a b l k :
  returns (binding_response m a) /\ returns (allocation_success m a b l k) /\ returns (lifetime_success m l k) /\ returns (empty_success m k).
Proof. split_and!; apply returns_finish. Qed.
Lemma returns_data_indication env peer data : returns (data_indication env peer data).
Proof. unfold data_indication. returns_steps. Qed.
Lemma returns_challenge self unix client m r : returns (challenge_response self unix client m r).
Proof.
  unfold challenge_response, TurnNonce.issue. destruct r; (apply returns_bind; [apply returns_map_err; returns_steps|intros n _; returns_steps]).
Qed.

(** ** What a request carries *)
Lemma returns_decode_xor_address v id : returns (Stun.decode_xor_address v id).
Proof.
  unfold Stun.decode_xor_address.
  assert (triple (fun c => exists s, StunCodec.at_ v s c) (fun c => exists s, StunCodec.at_ v s c) (Stun.read_xor_address v id) (fun _ _ => True)) as H.
  { unfold Stun.read_xor_address.
    assert (triple (S:=ReadCursor.t) (fun c => exists s, StunCodec.at_ v s c) (fun c => exists s, StunCodec.at_ v s c) (with_err Stun.Decode ReadCursor.read_u8) (fun _ c => exists s, StunCodec.at_ v s c)) as Hu8.
    { intros c (s & Hc). unfold with_err. destruct (StunCodec.read_u8_cases _ s c Hc) as [(_ & e & ->)|(b & s' & c' & _ & -> & Hc')]; cbn; eauto. }
    assert (forall n, triple (S:=ReadCursor.t) (fun c => exists s, StunCodec.at_ v s c) (fun c => exists s, StunCodec.at_ v s c) (with_err Stun.Decode (ReadCursor.read_array n)) (fun _ c => exists s, StunCodec.at_ v s c)) as Hn.
    { intros n c (s & Hc). unfold with_err. destruct (StunCodec.read_array_cases _ n s c Hc) as [(_ & e & ->)|(b & s' & c' & _ & _ & -> & Hc')]; cbn; eauto. }
    eapply triple_bind; [exact Hu8|intros ?]. eapply triple_bind; [exact Hu8|intros family]. eapply triple_bind; [apply Hn|intros port]. cbv zeta.
    destruct (family =? 1); [|destruct (family =? 2); [|intros c Hc; exact Hc]].
    all: eapply triple_bind; [apply triple_lift; [done|apply StunCodec.returns_require_len]|intros ?].
    - eapply triple_bind; [eapply triple_pre; [apply Hn|by intros ? [? _]]|intros w]. by intros c Hc.
    - intros c [(s & Hc) _]. unfold mbind, prog_bind, with_err. destruct (StunCodec.take_cases _ 16 s c Hc ltac:(lia)) as [(_ & e & ->)|(b & s' & c' & _ & _ & -> & Hc')]; cbn; eauto. }
  specialize (H (ReadCursor.new v) (ex_intro _ v (StunCodec.at_new v))). by destruct (Stun.read_xor_address _ _ _) as [c [a|e| |]].
Qed.
Lemma returns_collect {E A B} (f : A -> outcome E B) l : (forall x, returns (f x)) -> returns (Stun.collect f l).
Proof. intros Hf. induction l as [|x l IH]; [done|]. cbn. apply returns_bind; [apply Hf|intros y _]. by apply returns_bind. Qed.
Lemma returns_xor_address m t : returns (Stun.xor_address m t) /\ returns (Stun.xor_addresses m t).
Proof.
  split; [|by apply returns_collect; intros; apply returns_decode_xor_address].
  unfold Stun.xor_address, Stun.typed. case_match; [|done]. apply returns_fmap, returns_decode_xor_address.
Qed.
Lemma returns_attributes m t : returns (requested_transport m) /\ returns (u32_attribute m t) /\ returns (channel_number m).
Proof.
  assert (forall a, returns (four_octets a)) as H4 by (intros a; unfold four_octets; by case_match).
  unfold requested_transport, u32_attribute, channel_number. split_and!; (case_match; [|done]); (apply returns_bind; [apply H4|intros w Hw]); [|done|returns_steps].
  apply returns_bind; [auto with returns|intros _ _]. apply returns_fmap, returns_index.
  revert Hw. unfold four_octets. destruct (Z.eqb_spec (len (Stun.value r)) 4); [|done]. intros [= <-]. lia.
Qed.

Section Accepted.
Context (datagram : bytes) (message : Stun.Message) (Hin : rust_slice datagram) (Hp : Stun.parse datagram = Ok message).
Lemma returns_server_authenticate self unix client : returns (authenticate self unix client message).
Proof.
  assert (forall t, returns (text_attribute (Stun.utf8_attribute message t))) as Ht.
  { intros t. unfold text_attribute. apply returns_bind; [apply returns_map_err, IceSafety.returns_utf8_attribute|auto with returns]. }
  unfold authenticate, Stun.username, Stun.realm, Stun.nonce. do 3 (apply returns_bind; [apply Ht|intros ? _]).
  do 2 (apply returns_bind; [auto with returns|intros ? _]). apply returns_bind; [|intros _ _].
  - apply returns_map_err. unfold TurnNonce.validate. returns_steps.
  - apply returns_bind; [by eapply returns_map_err, IceSafety.returns_verify_sha1|intros _ _]. apply returns_bind; [|done].
    case_match; [apply returns_map_err, IceSafety.returns_verify_fingerprint|done].
Qed.
End Accepted.
End Codec.
#[export] Hint Resolve returns_stun_build returns_finish returns_builder_error returns_authenticated_error returns_data_indication returns_challenge : returns.
