(* ===== verification/TurnServerSteps.v ===== *)
(** * services/turn-server: what one frame changes and sends *)
From stdpp Require Import fin_maps fin_map_dom.
From S2P Require Import Prelude Words Slices RustStd RustStr RustText TurnServer TurnServerSafety.
From S2P Require Stun StunCodec IceSafety Turn Auth TurnNonce SfuRuntime.
Import Stun (StunCrypto).
Import (hints) Stun.
Import Turn (TurnCrypto, BindingOrder, Allocation).
Import Turn (call_turn, call_time, entry, Installed, Refresh, CreatePermissions, BindChannel, ChannelPeer, Permits, Route).
Import Auth (AuthCrypto).
Import SfuRuntime (HashIteration, iter).

(** Where a client is answered. *)
Definition sender_of (client : ClientKey) : ClientSender := match client with Udp a => SenderUdp a | Tcp i _ => SenderTcp i end.

(** An entry of an allocation's history that names a peer the server may talk to. *)
Definition safe_entry (c : ServerConfig) (e : entry) : Prop :=
  match e with
  | Installed _ i => exists p, safe_peer c p = true /\ ip p = i
  | Turn.Bound _ _ p => safe_peer c p = true
  end.
Definition granting (call : Turn.turn_call) : bool :=
  match call with Refresh _ _ | CreatePermissions _ _ | BindChannel _ _ _ => true | _ => false end.

Section Frames.
Context {stun_crypto : StunCrypto} {turn_crypto : TurnCrypto} {auth_crypto : AuthCrypto} {order : BindingOrder}.
Context (env : Env) (client : ClientKey) (users : bytes -> Prop).

(** ** The allocation of the asking client; [users] are the names the frame has proved. *)
Inductive own_step (self : TurnServer) : option ManagedAllocation -> option ManagedAllocation -> Prop :=
| own_same o : own_step self o o
| own_created m : users (Turn.username (allocation m)) ->
    Z.of_nat (size (allocations self)) < maximum_allocations (configuration self) ->
    from_ip client (allocations self) < maximum_allocations_per_ip (configuration self) ->
    allocation m = Turn.new (now env) (Turn.username (allocation m)) (address client) (socket_new (advertised_ip (configuration self)) (relay_socket m)) ->
    control_sender m = sender_of client ->
    bandwidth m = new_limiter (maximum_relay_bytes_per_second (configuration self)) (now env) ->
    own_step self None (Some m)
| own_called m call b : call_time call = now env ->
    Forall (safe_entry (configuration self)) (call_turn call (allocation m)).2 ->
    (granting call = true -> users (Turn.username (allocation m))) ->
    b = bandwidth m \/ (exists n, usize n /\ b = (consume (now env) n (maximum_relay_bytes_per_second (configuration self)) (bandwidth m)).1) ->
    own_step self (Some m) (Some (with_bandwidth b (with_allocation (call_turn call (allocation m)).1 m)))
| own_removed m : users (Turn.username (allocation m)) -> own_step self (Some m) None.

Record kept (self self' : TurnServer) : Prop := {
  k_configuration : configuration self' = configuration self;
  k_nonce : nonce self' = nonce self;
  k_key : server_key self' = server_key self;
  k_allocations : allocations self' = allocations self }.
Record changed (self self' : TurnServer) : Prop := {
  c_configuration : configuration self' = configuration self;
  c_nonce : nonce self' = nonce self;
  c_key : server_key self' = server_key self;
  c_others c : c <> client -> allocations self' !! c = allocations self !! c;
  c_own : own_step self (allocations self !! client) (allocations self' !! client) }.

Lemma kept_refl self : kept self self.
Proof. by split. Qed.
Lemma kept_changed self self' : kept self self' -> changed self self'.
Proof. intros [K1 K2 K3 K4]. split; rewrite ?K4; try done. apply own_same. Qed.
Lemma kept_count self s c n : kept self s -> kept self (count c n s).
Proof. by intros [K1 K2 K3 K4]. Qed.
Lemma changed_count self s c n : changed self s -> changed self (count c n s).
Proof. by intros [C1 C2 C3 C4 C5]. Qed.
Lemma changed_put self s m : kept self s -> own_step self (allocations self !! client) (Some m) -> changed self (put client m s).
Proof.
  intros [K1 K2 K3 K4] Ho. split; cbn; try done; rewrite K4; [intros c Hc; by rewrite lookup_insert_ne|]. by rewrite lookup_insert_eq.
Qed.
Lemma changed_delete self s : kept self s -> own_step self (allocations self !! client) None ->
  changed self (set_allocations (delete client (allocations s)) s).
Proof.
  intros [K1 K2 K3 K4] Ho. split; cbn; try done; rewrite K4; [intros c Hc; by rewrite lookup_delete_ne|]. by rewrite lookup_delete_eq.
Qed.

Lemma kept_then self s s' : kept self s -> changed s s' -> changed self s'.
Proof.
  intros [K1 K2 K3 K4] [C1 C2 C3 C4 C5]. split; [congruence..| |].
  - intros c Hc. rewrite C4 by done. by rewrite K4.
  - rewrite K4 in C5. revert C5. inversion 1; rewrite ?K1, ?K4 in *; econstructor; eauto.
Qed.

(** A handler that comes back with a change of this kind. *)
Definition handler {A} (self : TurnServer) (m : server A) (R : A -> Prop) : Prop :=
  triple (changed self) (kept self) m (fun a s => changed self s /\ R a).
Lemma handler_lift {A} self (o : outcome ServerError A) (R : A -> Prop) : returns o -> (forall a, o = Ok a -> R a) -> handler self (lift o) R.
Proof. intros Ho HR s Hs. cbn. destruct o; [|by apply kept_changed|done..]. split; [by apply kept_changed|by apply HR]. Qed.
Lemma handler_post {A} self (m : server A) (R R' : A -> Prop) : handler self m R -> (forall a, R a -> R' a) -> handler self m R'.
Proof. intros H HR. eapply triple_post; [exact H|]. intros a s [? ?]. auto. Qed.
Lemma handler_step {A B} self (o : outcome ServerError A) (f : A -> server B) R : returns o -> (forall a, o = Ok a -> handler self (f a) R) -> handler self (lift o ≫= f) R.
Proof. intros Ho Hf s Hs. unfold mbind, prog_bind, lift. destruct o as [a|e| |]; [by apply Hf|by apply kept_changed|done..]. Qed.
Lemma handler_read {B} self (f : TurnServer -> server B) R : (forall s, kept self s -> handler self (f s) R) -> handler self (gets id ≫= f) R.
Proof. intros Hf s Hs. by apply Hf. Qed.
Lemma handler_answer {A} self (m : server A) (o : outcome ServerError A) (f : TurnServer -> TurnServer) : returns o -> (forall s, kept self s -> changed self (f s)) ->
  (forall s, kept self s -> m s = (f s, o)) -> handler self m (fun _ => True).
Proof. intros Ho Hf Hm s Hs. rewrite (Hm s Hs). specialize (Hf s Hs). by destruct o. Qed.

(** ** Allocations *)
Lemma returns_mismatch message k : returns (mismatch message k).
Proof. apply returns_authenticated_error. Qed.
Hint Resolve returns_mismatch returns_authenticated_error : returns.

Lemma allocate_check_spec self message a : triple (changed self) (kept self) (allocate_check client message a) (fun r s => kept self s /\
  (r = None -> allocations self !! client = None /\ Z.of_nat (size (allocations self)) < maximum_allocations (configuration self) /\
     from_ip client (allocations self) < maximum_allocations_per_ip (configuration self))).
Proof.
  intros s Hs. pose proof Hs as [K1 _ _ K4]. unfold allocate_check. rewrite K1, K4. destruct (allocations self !! client) as [m|] eqn:E.
  - case_bool_decide; [done|]. pose proof (returns_mismatch message (key a)) as Hr. destruct (mismatch _ _); cbn; [done|by apply kept_changed|done..].
  - destruct (_ || _) eqn:Hq; [|split; [done|]; intros _; split; [done|lia]].
    pose proof (returns_authenticated_error message 486 (octets "Allocation Quota Reached") (key a) None) as Hr.
    destruct (authenticated_error _ _ _ _ _); cbn; [split; [by apply kept_count|done]|by apply kept_changed, kept_count|done..].
Qed.
Lemma try_ports_spec self attempts c n : triple (changed self) (kept self) (try_ports attempts env c n) (fun _ => kept self).
Proof.
  induction attempts as [|attempts IH]; intros s Hs; [by apply kept_changed|]. cbn [try_ports]. unfold mbind, prog_bind, gets, modify.
  assert (kept self (set_next_relay_port (wrapping_add 16 (next_relay_port s) 1) s)) as Hs' by (by destruct Hs).
  destruct (bind_udp env _); [done|by apply IH|by apply kept_changed].
Qed.
Lemma bind_relay_socket_spec self : triple (changed self) (kept self) (bind_relay_socket env) (fun _ => kept self).
Proof.
  intros s Hs. unfold bind_relay_socket, mbind, prog_bind, gets, id. cbv zeta. destruct (relay_port_min _ =? 0); [|by apply try_ports_spec].
  destruct (bind_udp env 0); [done|by apply kept_changed..].
Qed.
Lemma allocate_commit_spec self message a port : allocations self !! client = None ->
  Z.of_nat (size (allocations self)) < maximum_allocations (configuration self) ->
  from_ip client (allocations self) < maximum_allocations_per_ip (configuration self) -> users (auth_username a) ->
  handler self (allocate_commit env client (sender_of client) message a port) (fun _ => True).
Proof.
  intros Hn Hq Hq' Hu s Hs. pose proof Hs as [K1 K2 K3 K4]. unfold allocate_commit. cbv zeta. rewrite K1. assert (allocations s !! client = None) as -> by by rewrite K4.
  match goal with |- context [allocation_success ?m ?x ?y ?l ?k] => destruct (returns_responses m x y l k) as (_ & Hr & _); destruct (allocation_success m x y l k) end;
    [|by apply kept_changed|done..].
  split; [|done]. apply changed_count. eapply (changed_put self s _ Hs). rewrite Hn. apply own_created; done.
Qed.
Lemma handle_allocate_spec self message a : users (auth_username a) -> handler self (handle_allocate env client (sender_of client) message a) (fun _ => True).
Proof.
  intros Hu. unfold handle_allocate. apply handler_step; [apply (returns_attributes message 0)|intros transport _]. case_match.
  { by apply handler_lift; [auto with returns|]. }
  eapply triple_bind; [apply allocate_check_spec|]. intros [response|]; [intros s [Hs _]; split; [by apply kept_changed|done]|].
  intros s [Hs Hq]. destruct (Hq eq_refl) as (Q1 & Q2 & Q3). revert s Hs. change (triple (changed self) (kept self) (bind_relay_socket env ≫= allocate_commit env client (sender_of client) message a) (fun a0 s => changed self s /\ True)).
  eapply triple_bind; [apply bind_relay_socket_spec|]. intros port. by apply allocate_commit_spec.
Qed.

(** ** Permissions, channels and refreshes *)
Lemma on_allocation_spec self message a body : (forall m, allocations self !! client = Some m -> Turn.username (allocation m) = auth_username a ->
    handler self (body m) (fun _ => True)) ->
  handler self (on_allocation client message a body) (fun _ => True).
Proof.
  intros Hb s Hs. pose proof Hs as [_ _ _ K4]. unfold on_allocation. rewrite K4. destruct (allocations self !! client) as [m|] eqn:E.
  - case_bool_decide as Hu; cbn [negb]; [by apply (Hb m eq_refl Hu)|]. by apply (handler_lift self); [auto with returns|..].
  - by apply (handler_lift self); [auto with returns|..].
Qed.

(** A granting call on the allocation, by the user that owns it. *)
Lemma changed_call self s m call b : kept self s -> allocations self !! client = Some m -> call_time call = now env ->
  Forall (safe_entry (configuration self)) (call_turn call (allocation m)).2 -> (granting call = true -> users (Turn.username (allocation m))) ->
  b = bandwidth m \/ (exists n, usize n /\ b = (consume (now env) n (maximum_relay_bytes_per_second (configuration self)) (bandwidth m)).1) ->
  changed self (put client (with_bandwidth b (with_allocation (call_turn call (allocation m)).1 m)) s).
Proof. intros Hs Hm Ht Hsafe Hu Hb. apply changed_put; [done|]. rewrite Hm. by apply own_called. Qed.

Lemma handle_refresh_spec self message a : users (auth_username a) -> handler self (handle_refresh env client message a) (fun _ => True).
Proof.
  intros Hu. unfold handle_refresh. apply handler_step; [apply (returns_attributes message)|intros requested _].
  apply on_allocation_spec. intros m Hm Hname s Hs. set (r := if bool_decide (requested = Some 0) then _ else _).
  assert (changed self (put client (with_allocation r.1 m) s)) as Hput.
  { unfold r. case_bool_decide.
    - apply changed_put; [done|]. rewrite Hm. destruct m. apply own_same.
    - apply (changed_call self s m (Refresh (now env) requested) (bandwidth m)); try done; [intros _; by rewrite Hname|by left]. }
  destruct r as [al lifetime]. cbn [fst] in Hput. unfold mbind, prog_bind, modify, lift.
  destruct (returns_responses message (address client) (address client) lifetime (key a)) as (_ & _ & Hr & _).
  destruct (lifetime_success message lifetime (key a)); [|done..]. destruct (lifetime =? 0); [|done]. split; [|done].
  destruct Hput as [P1 P2 P3 P4 _]. split; cbn in *; try done.
  - intros c Hc. rewrite lookup_delete_ne by done. by apply P4.
  - rewrite lookup_delete_eq, Hm. apply own_removed. by rewrite Hname.
Qed.

Lemma turn_answer_returns message k b (o : outcome Turn.TurnError unit) : returns o -> returns (turn_answer message k b o).
Proof.
  destruct o as [[]|e| |]; [intros _; apply returns_finish| |done..]. destruct e; cbn [turn_answer]; try destruct b; intros _; first [exact I|apply returns_authenticated_error].
Qed.
Lemma on_turn_spec self message k b m body call : allocations self !! client = Some m -> users (Turn.username (allocation m)) ->
  call_time call = now env -> Forall (safe_entry (configuration self)) (call_turn call (allocation m)).2 ->
  (body (allocation m)).1 = (call_turn call (allocation m)).1 -> returns (body (allocation m)).2 ->
  handler self (on_turn client message k b m body) (fun _ => True).
Proof.
  intros Hm Hu Ht Hsafe Hcall Hret s Hs. unfold on_turn. destruct (body (allocation m)) as [al o]. cbn in Hcall, Hret. subst al.
  pose proof (changed_call self s m call (bandwidth m) Hs Hm Ht Hsafe (fun _ => Hu) (or_introl eq_refl)) as Hc.
  pose proof (turn_answer_returns message k b o Hret) as Hr. by destruct (turn_answer message k b o).
Qed.

Lemma returns_create t peers a : returns (Turn.create_permissions t peers a).2.
Proof. by destruct (Turn.create_cases t peers a) as [[e ->]|[-> _]]. Qed.
Lemma returns_bind_channel t n peer a : returns (Turn.bind_channel t n peer a).2.
Proof. by destruct (Turn.bind_cases t n peer a) as [(a' & e & -> & _)|(a2 & _ & -> & _)]. Qed.

Lemma handle_create_permission_spec self message a : users (auth_username a) -> handler self (handle_create_permission env client message a) (fun _ => True).
Proof.
  intros Hu. unfold handle_create_permission. apply handler_step; [apply returns_map_err, returns_xor_address|intros peers _].
  apply handler_read. intros s Hs. destruct (_ || existsb _ _) eqn:Hbad; [by apply handler_lift; [auto with returns|]|].
  apply orb_false_iff in Hbad as [_ Hbad]. apply on_allocation_spec. intros m Hm Hname.
  apply (on_turn_spec self message (key a) false m _ (CreatePermissions (now env) peers)); try done; [by rewrite Hname| |apply returns_create].
  cbn [call_turn snd]. case_match; [|done]. apply Forall_fmap, Forall_forall. intros p Hp. exists p. split; [|done].
  rewrite <- (k_configuration _ _ Hs). apply not_false_iff_true. intros Hf. rewrite <- not_true_iff_false, existsb_exists in Hbad.
  apply Hbad. exists p. split; [by apply list_elem_of_In|by rewrite Hf].
Qed.

Lemma handle_channel_bind_spec self message a : users (auth_username a) -> handler self (handle_channel_bind env client message a) (fun _ => True).
Proof.
  intros Hu. unfold handle_channel_bind. apply handler_step; [apply (returns_attributes message 0)|intros channel _].
  apply handler_step; [apply returns_map_err, returns_xor_address|intros peer _]. apply handler_read. intros s Hs.
  destruct channel as [n|], peer as [peer|]; [|by apply handler_lift; [auto with returns|]..].
  destruct (safe_peer (configuration s) peer) eqn:Hsafe; cbn [negb]; [|by apply handler_lift; [auto with returns|]].
  rewrite (k_configuration _ _ Hs) in Hsafe. apply on_allocation_spec. intros m Hm Hname.
  apply (on_turn_spec self message (key a) true m _ (BindChannel (now env) n peer)); try done; [by rewrite Hname| |apply returns_bind_channel].
  cbn [call_turn snd]. case_match; [|done]. cbn. repeat constructor; [by exists peer|done].
Qed.

(** ** Relaying *)
(** What leaves towards a peer comes from the relay of the client, to a peer the allocation permits now. *)
Definition sent (self : TurnServer) (datagram : bytes) (o : Output) : Prop :=
  match o with
  | ToClient s _ => s = sender_of client
  | ToPeer socket peer data => exists m, allocations self !! client = Some m /\ socket = relay_socket m /\ len data <= MAX_RELAY_DATA_BYTES /\
      ((exists n, Turn.parse_channel_data datagram = Ok {| Turn.channel_number := n; Turn.data := data |} /\
         (Turn.channel_peer (now env) n (allocation m)).2 = Some peer) \/
       (exists message a, Stun.parse datagram = Ok message /\ Stun.xor_address message Stun.AttributeType.XOR_PEER_ADDRESS = Ok (Some peer) /\
         Stun.attribute message Stun.AttributeType.DATA = Some a /\ Stun.value a = data /\ safe_peer (configuration self) peer = true /\
         (Turn.permits (now env) peer (allocation m)).2 = true))
  end.

Lemma charge_spec {A} self s m call (route : Allocation * option A) n : kept self s -> allocations self !! client = Some m ->
  call_time call = now env -> (call_turn call (allocation m)).2 = [] -> granting call = false -> route.1 = (call_turn call (allocation m)).1 -> usize n ->
  changed self (charge env client m route n s).1 /\ (forall x, (charge env client m route n s).2 = Some x -> route.2 = Some x).
Proof.
  intros Hs Hm Ht He Hg Hr Hn. destruct route as [al target]. cbn in Hr. subst al. unfold charge. cbv zeta. cbn [fst snd].
  assert (forall b, b = bandwidth m \/ (exists n, usize n /\ b = (consume (now env) n (maximum_relay_bytes_per_second (configuration self)) (bandwidth m)).1) ->
    changed self (put client (with_bandwidth b (with_allocation (call_turn call (allocation m)).1 m)) s)) as Hc.
  { intros b Hb. apply changed_call; try done; [by rewrite He|by rewrite Hg]. }
  destruct target as [x|]; [|split; [apply (Hc (bandwidth m)); by left|done]]. rewrite (k_configuration _ _ Hs). cbn [bandwidth with_allocation].
  assert (changed self (put client (with_bandwidth (consume (now env) n (maximum_relay_bytes_per_second (configuration self)) (bandwidth m)).1
    (with_allocation (call_turn call (allocation m)).1 m)) s)) as Hc' by (apply Hc; right; by exists n).
  destruct (consume _ _ _ _) as [b []]; cbn [fst snd] in *; (split; [|done]); [done|by apply changed_count].
Qed.

(** The transmission after the charge. *)
Lemma relay_to_peer_spec (R : list Output -> Prop) self s socket peer data : changed self s -> R [ToPeer socket peer data] ->
  match relay_to_peer env socket peer data s with
  | (s', Ok out) => changed self s' /\ R out | (s', Err _) => changed self s' | _ => False end.
Proof. intros Hs HR. unfold relay_to_peer. destruct (sends env socket peer); [|done]. split; [by apply changed_count|done]. Qed.

Lemma handle_send_indication_spec self datagram message : rust_slice datagram -> Stun.parse datagram = Ok message ->
  handler self (handle_send_indication env client message) (Forall (sent self datagram)).
Proof.
  intros Hin Hp. unfold handle_send_indication. apply handler_step; [apply returns_map_err, returns_xor_address|intros peer Hx%map_err_Ok].
  apply handler_read. intros s0 Hs0 s Hs.
  assert (handler self (mret []) (Forall (sent self datagram))) as Hnothing by (intros s' Hs'; split; [by apply kept_changed|done]).
  destruct peer as [peer|]; [|by apply Hnothing]. destruct (Stun.attribute message Stun.AttributeType.DATA) as [at_|] eqn:Hd; [|by apply Hnothing]. cbv zeta.
  destruct (_ || _) eqn:Hbad; [by apply Hnothing|]. apply orb_false_iff in Hbad as [Hlen Hsafe]. apply negb_false_iff in Hsafe.
  rewrite (k_configuration _ _ Hs0) in Hsafe. rewrite (k_allocations _ _ Hs0). destruct (allocations self !! client) as [m|] eqn:Hm; [|by apply Hnothing].
  destruct (Turn.permits (now env) peer (allocation m)) as [al permitted] eqn:Hper.
  assert (usize (len (Stun.value at_))) as Hu by (pose proof (len_nonneg (Stun.value at_)); unfold usize, fits, MAX_RELAY_DATA_BYTES in *; lia).
  pose proof (charge_spec self s0 m (Permits (now env) peer) (al, if permitted then Some peer else None) (len (Stun.value at_)) Hs0 Hm eq_refl eq_refl eq_refl) as Hc.
  cbn [call_turn fst snd] in Hc. rewrite Hper in Hc. specialize (Hc eq_refl Hu). destruct (charge _ _ _ _ _ _) as [s1 [x|]]; cbn [fst snd] in Hc; [|split; [apply Hc|done]].
  destruct Hc as [Hc Hx']. specialize (Hx' x eq_refl). destruct permitted; [|done]. injection Hx' as <-.
  unfold mbind, prog_bind, modify. apply relay_to_peer_spec; [done|]. constructor; [|done]. exists m. split_and!; [done..|lia|]. right. exists message, at_.
  split_and!; try done. by rewrite Hper.
Qed.

Lemma handle_channel_data_spec self datagram : rust_slice datagram -> handler self (handle_channel_data env client datagram) (Forall (sent self datagram)).
Proof.
  intros Hin. unfold handle_channel_data. apply handler_step; [apply returns_map_err, Turn.returns_parse_channel_data, Hin|intros [n data] Hp%map_err_Ok].
  apply handler_step; [auto with returns|intros _ Hlen%reject_if_Ok]. cbn [Turn.data Turn.channel_number] in *. apply handler_read. intros s0 Hs0 s Hs.
  rewrite (k_allocations _ _ Hs0). destruct (allocations self !! client) as [m|] eqn:Hm; [|split; [by apply kept_changed|done]].
  assert (usize (len data)) as Hu by (pose proof (len_nonneg data); unfold usize, fits, MAX_RELAY_DATA_BYTES in *; lia).
  pose proof (charge_spec self s0 m (ChannelPeer (now env) n) (Turn.channel_peer (now env) n (allocation m)) (len data) Hs0 Hm eq_refl eq_refl eq_refl eq_refl Hu) as [Hc Hx].
  destruct (charge _ _ _ _ _ _) as [s1 [x|]]; cbn [fst snd] in *; [|by split]. specialize (Hx x eq_refl).
  unfold mbind, prog_bind, modify. apply relay_to_peer_spec; [done|]. constructor; [|done]. exists m. split_and!; [done..|lia|]. left. by exists n.
Qed.

Lemma send_spec self datagram frame : handler self (lift (send env (sender_of client) frame)) (Forall (sent self datagram)).
Proof. unfold send. apply handler_lift; [by case_match|]. intros out. case_match; [|done]. intros [= <-]. by repeat constructor. Qed.
(** A response after a handler that only changes the asker's allocation. *)
Lemma handler_then {A} self (m : server A) (f : A -> outcome ServerError (list Output)) R : handler self m (fun _ => True) ->
  (forall a, handler self (lift (f a)) R) -> handler self (a ← m; lift (f a)) R.
Proof.
  intros Hm Hf s Hs. specialize (Hm s Hs). unfold mbind, prog_bind, lift. destruct (m s) as [s' [a|e| |]]; [|done..]. destruct Hm as [Hc _].
  specialize (Hf a self (kept_refl self)). cbn in Hf. destruct (f a); [by destruct Hf|done..].
Qed.
End Frames.

(** ** One frame *)
Section Server.
Context {stun_crypto : StunCrypto} {turn_crypto : TurnCrypto} {auth_crypto : AuthCrypto} {order : BindingOrder} {iteration : HashIteration}.

(** The user names a frame proves: the credentials, the nonce of this client's address and the integrity of the whole message. *)
Definition proved (env : Env) (client : ClientKey) (self : TurnServer) (datagram user : bytes) : Prop :=
  exists message k nonce_, Stun.parse datagram = Ok message /\ Stun.username message = Ok (Some user) /\
    Stun.realm message = Ok (Some (cfg_realm (configuration self))) /\ Stun.nonce message = Ok (Some nonce_) /\
    credential_key self (unix_seconds env) user = Some k /\
    TurnNonce.validate (nonce self) nonce_ (unix_seconds env) (ip (address client)) = Ok tt /\
    Stun.verify_message_integrity_sha1 message k = Ok tt.
Lemma authenticate_proves env client self datagram message a : Stun.parse datagram = Ok message ->
  authenticate self (unix_seconds env) (address client) message = Ok a -> proved env client self datagram (auth_username a).
Proof.
  intros Hp H. unfold authenticate, text_attribute in H. inv_ok H. simplify_eq. cbn [auth_username].
  repeat match goal with H : negb (bool_decide _) = false |- _ => apply negb_false_iff, bool_decide_eq_true in H end. subst.
  eexists message, _, _. split_and!; eauto. all: repeat match goal with u : unit |- _ => destruct u end; done.
Qed.

Lemma turn_stun_spec env client self datagram : rust_slice datagram ->
  handler env client (proved env client self datagram) self (handle_stun env client (sender_of client) datagram) (Forall (sent env client self datagram)).
Proof.
  intros Hin. unfold handle_stun. apply handler_step; [by apply returns_map_err, StunCodec.returns_stun_parse|intros message Hp%map_err_Ok]. cbv zeta.
  destruct (_ && _). { apply handler_step; [apply returns_finish|intros response _]. apply send_spec. }
  destruct (_ && _); [by apply handle_send_indication_spec|]. case_bool_decide; [|intros s Hs; split; [by apply kept_changed|done]].
  apply handler_then; [|intros; apply send_spec]. intros s Hs. unfold handle_authenticated_request.
  assert (authenticate s (unix_seconds env) (address client) message = authenticate self (unix_seconds env) (address client) message) as ->.
  { destruct Hs as [K1 K2 K3 _]. unfold authenticate, credential_key. by rewrite K1, K2, K3. }
  pose proof (returns_server_authenticate datagram message Hin Hp self (unix_seconds env) (address client)) as Hr.
  destruct (authenticate self _ _ message) as [a|rejection| |] eqn:Ha; [|..|done|done].
  - apply (authenticate_proves env client self datagram message a Hp) in Ha. case_bool_decide; cbn [negb]; [|by apply (handler_lift env client _ self); [apply returns_authenticated_error|..]].
    cbv zeta. destruct (_ =? Stun.Method.ALLOCATE); [by apply (handle_allocate_spec env client _ self message a Ha)|].
    destruct (_ =? Stun.Method.REFRESH); [by apply (handle_refresh_spec env client _ self message a Ha)|].
    destruct (_ =? Stun.Method.CREATE_PERMISSION); [by apply (handle_create_permission_spec env client _ self message a Ha)|].
    destruct (_ =? Stun.Method.CHANNEL_BIND); [by apply (handle_channel_bind_spec env client _ self message a Ha)|].
    by apply (handler_lift env client _ self); [apply returns_authenticated_error|..].
  - pose proof (returns_challenge s (unix_seconds env) (address client) message rejection) as Hc.
    assert (changed env client (proved env client self datagram) self (count AuthFailures 1 s)) by (by apply kept_changed, kept_count). by destruct (challenge_response _ _ _ _ _).
Qed.

Lemma frame_handled env client self datagram : rust_slice datagram -> exists self' out,
  handle_client_frame env client (sender_of client) datagram self = Ok (self', out) /\
  changed env client (proved env client self datagram) self self' /\ Forall (sent env client self datagram) out.
Proof.
  intros Hin. unfold handle_client_frame.
  assert (handler env client (proved env client self datagram) self (if is_channel_data datagram then handle_channel_data env client datagram
    else handle_stun env client (sender_of client) datagram) (Forall (sent env client self datagram))) as H.
  { case_match; [by apply handle_channel_data_spec|by apply turn_stun_spec]. }
  specialize (H self (kept_refl self)). set (run := if is_channel_data datagram then _ else _) in *. destruct (run self) as [s [out|e| |]]; [|..|done|done].
  - exists s, out. by destruct H.
  - eexists _, []. split; [done|]. split; [by apply changed_count|done].
Qed.

(** ** A datagram from a peer *)
Definition received (client : ClientKey) (m : ManagedAllocation) (peer : SocketAddr) (env : Env) (o : Output) : Prop :=
  match o with
  | ToClient s _ => s = control_sender m /\ (Turn.peer_route (now env) peer (allocation m)).2 <> None
  | ToPeer _ _ _ => False
  end.
Lemma peer_handled env client self peer data : 0 <= len data -> exists self' out, relay_one env client peer data self = Ok (self', out) /\
  changed env client (fun _ => False) self self' /\
  (forall o, o ∈ out -> exists m, allocations self !! client = Some m /\ received client m peer env o).
Proof.
  intros H0. unfold relay_one. destruct (Z.ltb_spec MAX_RELAY_DATA_BYTES (len data)) as [|Hlen].
  { eexists _, []. split; [done|]. split; [by apply changed_count, kept_changed, kept_refl|by intros o ?%not_elem_of_nil]. }
  destruct (allocations self !! client) as [m|] eqn:Hm; [|eexists _, []; split; [done|]; split; [apply kept_changed, kept_refl|by intros o ?%not_elem_of_nil]].
  assert (usize (len data)) as Hu by (unfold usize, fits, MAX_RELAY_DATA_BYTES in *; lia).
  pose proof (charge_spec env client (fun _ => False) self self m (Route (now env) peer) (Turn.peer_route (now env) peer (allocation m)) (len data)
    (kept_refl self) Hm eq_refl eq_refl eq_refl eq_refl Hu) as [Hc Hx].
  destruct (charge _ _ _ _ _ _) as [s1 [route|]]; cbn [fst snd] in *; [|eexists _, []; split; [done|]; split; [done|by intros o ?%not_elem_of_nil]].
  specialize (Hx route eq_refl). cbv zeta. set (packet := match route with Turn.Channel c => _ | Turn.DataIndication => _ end).
  assert (returns packet) as Hp.
  { unfold packet. destruct route; apply returns_map_err; [|apply returns_data_indication]. unfold Turn.encode_channel_data. returns_steps. }
  destruct packet as [packet'|e| |]; [|eexists _, []; split; [done|]; split; [done|by intros o ?%not_elem_of_nil]|done..].
  unfold send. destruct (accepts env (control_sender m)); [|eexists _, []; split; [done|]; split; [done|by intros o ?%not_elem_of_nil]].
  eexists _, _. split; [done|]. split; [by apply changed_count|]. intros o ->%list_elem_of_singleton. exists m. split; [done|]. split; [done|]. by rewrite Hx.
Qed.
End Server.
