(* ===== verification/TurnServerRelay.v ===== *)
(** * services/turn-server: the invariant of the server and what the relay guarantees *)
From stdpp Require Import fin_maps fin_map_dom.
From S2P Require Import Prelude Words Slices RustStd RustStr RustText TurnServer TurnServerSafety TurnServerSteps.
From S2P Require Stun StunCodec StunSafety IceSafety Turn Auth TurnNonce SfuRuntime SfuRuntimeInvariant SfuRuntimeSteps.
Import Stun (StunCrypto).
Import (hints) Stun.
Import Turn (TurnCrypto, BindingOrder, Allocation).
Import Turn (call_turn, call_time, entry, turn_reachable, permitted_at, bound_at).
Import Auth (AuthCrypto).
Import SfuRuntime (HashIteration, iter).

Section Relay.
Context {stun_crypto : StunCrypto} {turn_crypto : TurnCrypto} {auth_crypto : AuthCrypto} {order : BindingOrder} {iteration : HashIteration}.

(** ** What every allocation keeps *)
Lemma create_fixed t peers a : let a' := (Turn.create_permissions t peers a).1 in
  Turn.username a' = Turn.username a /\ Turn.client_address a' = Turn.client_address a /\ Turn.relayed_address a' = Turn.relayed_address a.
Proof. by destruct (Turn.create_cases t peers a) as [[e ->]|[-> _]]. Qed.
Lemma call_turn_fixed call a : let a' := (call_turn call a).1 in
  Turn.username a' = Turn.username a /\ Turn.client_address a' = Turn.client_address a /\ Turn.relayed_address a' = Turn.relayed_address a.
Proof.
  destruct call as [t r|t peers|t n peer|t n|t peer|t peer]; cbn [call_turn fst]; try done; [apply create_fixed|].
  destruct (Turn.bind_cases t n peer a) as [(a' & e & -> & [-> | ->])|(a2 & Hc & -> & _)]; cbn [fst]; [done..|].
  pose proof (create_fixed t [peer] (Turn.expire_children t a)) as Hf. rewrite Hc in Hf. cbn [fst] in Hf. exact Hf.
Qed.

Record managed_ok (t : Z) (c : ServerConfig) (client : ClientKey) (log : list entry) (m : ManagedAllocation) : Prop := {
  mo_history : exists t0, t0 <= t /\ turn_reachable t0 log (allocation m);
  mo_safe : Forall (safe_entry c) log;
  mo_client : Turn.client_address (allocation m) = address client;
  mo_relayed : Turn.relayed_address (allocation m) = socket_new (advertised_ip c) (relay_socket m);
  mo_sender : control_sender m = sender_of client;
  mo_rate : limiter_ok (maximum_relay_bytes_per_second c) t (bandwidth m) }.
Record server_ok (t : Z) (self : TurnServer) : Prop := {
  so_time : 0 <= t;
  so_rate : u64 (maximum_relay_bytes_per_second (configuration self));
  so_total : Z.of_nat (size (allocations self)) <= maximum_allocations (configuration self);
  so_per_ip client : from_ip client (allocations self) <= maximum_allocations_per_ip (configuration self);
  so_managed client m : allocations self !! client = Some m -> exists log, managed_ok t (configuration self) client log m }.

Lemma managed_later t t' c client log m : t <= t' -> managed_ok t c client log m -> managed_ok t' c client log m.
Proof. intros Hle [(t0 & H0 & H1) M2 M3 M4 M5 [L1 L2]]. split; try done; [exists t0; split; [lia|done]|split; [done|lia]]. Qed.

(** The number of allocations of an address depends on the keys only. *)
Lemma from_ip_subseteq client (a b : gmap ClientKey ManagedAllocation) : dom a ⊆ dom b -> from_ip client a <= from_ip client b.
Proof.
  intros Hd. unfold from_ip. apply inj_le. rewrite <- !size_dom. apply subseteq_size. intros k Hk.
  apply elem_of_dom in Hk as [m Hm]. apply map_lookup_filter_Some in Hm as [Hm HP]. apply elem_of_dom.
  destruct (proj1 (elem_of_dom b k)) as [m' Hm']; [apply Hd, elem_of_dom; by exists m|]. exists m'. by apply map_lookup_filter_Some.
Qed.
Lemma from_ip_insert client k m a : a !! k = None ->
  from_ip client (<[k := m]> a) = from_ip client a + (if bool_decide (ip (address k) = ip (address client)) then 1 else 0).
Proof.
  intros Hk. unfold from_ip. case_bool_decide as Hip.
  - rewrite map_filter_insert_True by done. rewrite map_size_insert_None; [lia|]. apply map_lookup_filter_None. by left.
  - rewrite map_filter_insert_False by done. rewrite delete_id by done. lia.
Qed.
Lemma from_ip_same client k a : ip (address k) = ip (address client) -> from_ip k a = from_ip client a.
Proof. intros E. unfold from_ip. by rewrite E. Qed.

Lemma size_subseteq (a b : gmap ClientKey ManagedAllocation) : dom a ⊆ dom b -> Z.of_nat (size a) <= Z.of_nat (size b).
Proof. intros Hd. rewrite <- !size_dom. apply inj_le. by apply subseteq_size. Qed.

(** ** Every step keeps the invariant *)
Lemma own_step_managed env client users self t o m' : server_ok t self -> t <= now env -> own_step env client users self o (Some m') ->
  (forall m, o = Some m -> exists log, managed_ok t (configuration self) client log m) ->
  exists log, managed_ok (now env) (configuration self) client log m'.
Proof.
  intros [S0 S1 _ _ _] Hle Hstep Hold. inversion Hstep as [o' E|m Hu Hq Hq' Ha Hsend Hb|m call b Ht Hsafe Hu Hb|]; subst.
  - destruct (Hold m' eq_refl) as [log Hm]. exists log. by apply (managed_later t).
  - exists []. split; [|constructor|by rewrite Ha|by rewrite Ha|exact Hsend|rewrite Hb; apply new_limiter_ok; [done|lia]].
    exists (now env). split; [lia|]. rewrite Ha. apply Turn.turn_new.
  - destruct (Hold m eq_refl) as [log [(t0 & H0 & Hr) M2 M3 M4 M5 M6]]. exists (log ++ (call_turn call (allocation m)).2).
    destruct (call_turn_fixed call (allocation m)) as (F1 & F2 & F3).
    split; cbn [allocation relay_socket control_sender bandwidth with_bandwidth with_allocation]; [..|by rewrite F2|by rewrite F3|exact M5|].
    + exists (now env). split; [lia|]. rewrite <- Ht. apply (Turn.turn_step t0); [done|lia].
    + by apply Forall_app.
    + destruct Hb as [-> | (n & Hn & ->)].
      * destruct M6 as [L1 L2]. split; [done|lia].
      * pose proof (consume_spec _ S1 t (now env) n (bandwidth m) M6 Hle Hn) as Hc. destruct (consume _ _ _ _). by destruct Hc.
Qed.

(** A step adds at most the allocation of the asker, and then within the quotas. *)
Lemma changed_keys env client users self self' : changed env client users self self' ->
  dom (allocations self') ⊆ dom (allocations self) \/
  (exists m, allocations self' = <[client := m]> (allocations self) /\ allocations self !! client = None /\
     Z.of_nat (size (allocations self)) < maximum_allocations (configuration self) /\
     from_ip client (allocations self) < maximum_allocations_per_ip (configuration self)).
Proof.
  intros [_ _ _ C4 C5].
  assert (is_Some (allocations self' !! client) -> is_Some (allocations self !! client) -> dom (allocations self') ⊆ dom (allocations self)) as Hsub.
  { intros _ Hc k Hk. destruct (decide (k = client)) as [->|Hne]; [by apply elem_of_dom|]. by rewrite elem_of_dom, <- C4, <- elem_of_dom. }
  assert (allocations self' !! client = None -> dom (allocations self') ⊆ dom (allocations self)) as Hgone.
  { intros Hn k Hk. destruct (decide (k = client)) as [->|Hne]; [|by rewrite elem_of_dom, <- C4, <- elem_of_dom]. apply elem_of_dom in Hk as [x Hx]. congruence. }
  inversion C5 as [o E E'|m Hu Hq Hq' Ha Hsend Hb E E'|m call b Ht Hsafe Hu Hb E E'|m Hu E E']; [left|right|left|left].
  - destruct o; [apply Hsub; [rewrite <- E'|rewrite <- E]; eauto|apply Hgone; congruence].
  - exists m. split_and!; [|done..]. apply map_eq. intros k. destruct (decide (k = client)) as [->|Hne]; [by rewrite lookup_insert_eq|]. by rewrite lookup_insert_ne, C4.
  - apply Hsub; [rewrite <- E'|rewrite <- E]; eauto.
  - by apply Hgone.
Qed.
Lemma changed_ok env client users self self' t : server_ok t self -> t <= now env -> changed env client users self self' -> server_ok (now env) self'.
Proof.
  intros Hok Hle Hc. pose proof Hok as [S0 S1 S2 S3 S4]. pose proof (changed_keys _ _ _ _ _ Hc) as Hkeys. destruct Hc as [C1 _ _ C4 C5].
  split; rewrite ?C1; [lia|done|..|].
  - destruct Hkeys as [Hd|(m & -> & Hn & Hq & _)]; [pose proof (size_subseteq _ _ Hd); lia|]. rewrite map_size_insert_None by done. lia.
  - intros k. specialize (S3 k). destruct Hkeys as [Hd|(m & -> & Hn & _ & Hq)]; [pose proof (from_ip_subseteq k _ _ Hd); lia|].
    rewrite from_ip_insert by done. case_bool_decide as Hip; [rewrite <- (from_ip_same k client) by done; lia|lia].
  - intros k m Hm. destruct (decide (k = client)) as [->|Hne].
    + rewrite Hm in C5. eapply own_step_managed; eauto.
    + rewrite C4 in Hm by done. destruct (S4 k m Hm) as [log Hk]. exists log. by apply (managed_later t).
Qed.

(** ** Reachable servers *)
Definition config_ok (c : ServerConfig) : Prop :=
  u64 (maximum_relay_bytes_per_second c) /\ usize (maximum_allocations c) /\ usize (maximum_allocations_per_ip c).
Inductive reachable : Z -> TurnServer -> Prop :=
| server_bound c self t : bind c = Ok self -> config_ok c -> 0 <= t -> reachable t self
| server_frame t env client datagram self self' out : reachable t self -> t <= now env -> rust_slice datagram ->
    handle_client_frame env client (sender_of client) datagram self = Ok (self', out) -> reachable (now env) self'
| server_peer t env client peer data self self' out : reachable t self -> t <= now env ->
    relay_one env client peer data self = Ok (self', out) -> reachable (now env) self'
| server_disconnected t client self : reachable t self -> reachable t (disconnect client self)
| server_swept t env self : reachable t self -> t <= now env -> reachable (now env) (remove_expired env self).

Lemma fewer_ok t t' self self' : server_ok t self -> t <= t' -> configuration self' = configuration self -> allocations self' ⊆ allocations self -> server_ok t' self'.
Proof.
  intros [S0 S1 S2 S3 S4] Hle Hc Hsub. pose proof (subseteq_dom _ _ Hsub) as Hd. split; rewrite ?Hc; [lia|done|..|].
  - pose proof (size_subseteq _ _ Hd). lia.
  - intros k. pose proof (from_ip_subseteq k _ _ Hd). specialize (S3 k). lia.
  - intros k m Hm. destruct (S4 k m) as [log Hk]; [by eapply lookup_weaken|]. exists log. by apply (managed_later t).
Qed.
Lemma foldl_delete_fewer (l : list ClientKey) (a : gmap ClientKey ManagedAllocation) : foldl (fun a client => delete client a) a l ⊆ a.
Proof. revert a. induction l as [|k l IH]; intros a; [done|]. cbn. etransitivity; [apply IH|apply delete_subseteq]. Qed.
Lemma turn_reachable_server_ok t self : reachable t self -> server_ok t self.
Proof.
  induction 1 as [c self t Hb Hr Ht|t env client datagram self self' out _ IH Hle Hin Hf|t env client peer data self self' out _ IH Hle Hf|t client self _ IH|t env self _ IH Hle].
  - unfold bind in Hb. inv_ok Hb. subst. apply orb_false_iff in Hstep as [[[[[_ H1]%orb_false_iff H2]%orb_false_iff _]%orb_false_iff _]%orb_false_iff _].
    destruct Hr as (R1 & R2 & R3). split; [done|done|apply R2| |intros k m Hm; cbn in Hm; by rewrite lookup_empty in Hm].
    intros k. unfold from_ip. cbn [allocations]. rewrite map_filter_empty. apply R3.
  - destruct (frame_handled env client self datagram Hin) as (s & o & E & Hc & _). rewrite E in Hf. injection Hf as <- <-. by eapply changed_ok.
  - destruct (peer_handled env client self peer data (len_nonneg data)) as (s & o & E & Hc & _). rewrite E in Hf. injection Hf as <- <-. by eapply changed_ok.
  - apply (fewer_ok t t self); [done|lia|done|]. apply delete_subseteq.
  - apply (fewer_ok t (now env) self); [done|lia|done|]. apply foldl_delete_fewer.
Qed.


(** What the history of a managed allocation says about a live permission or channel. *)
Lemma managed_follows t c client log m t' : managed_ok t c client log m -> t <= t' ->
  (forall peer, (Turn.permits t' peer (allocation m)).2 = true -> permitted_at log t' (ip peer)) /\
  (forall n p, (Turn.channel_peer t' n (allocation m)).2 = Some p -> bound_at log t' n p /\ permitted_at log t' (ip p)).
Proof.
  intros [(t0 & H0 & Hr) _ _ _ _ _] Hle. destruct (Turn.turn_reachable_ok _ _ _ Hr) as [Hok Hrep]. split.
  - intros peer. rewrite Turn.permits_spec, bool_decide_eq_true by done. by apply (Turn.live_permission t0); [|lia].
  - intros n p. rewrite Turn.channel_peer_Some. rewrite (Turn.live_channel t0 t' log (allocation m) Hrep ltac:(lia)).
    by rewrite (Turn.live_permission t0 t' log (allocation m) Hrep ltac:(lia)).
Qed.

(** C13: whatever frame a client sends, the server comes back from it with no change to the allocation of any other client, and what it
    sends goes to that client or leaves through the relay socket of the client's own allocation: at most 65000 octets, carried by the
    frame, to a peer that passes the server's filter and whose address was permitted within the last five minutes.  Whatever arrives from a peer on a
    relay, only the client of that allocation is sent anything, and only when the peer is permitted. *)
Theorem relay_safe t self env client : reachable t self -> t <= now env ->
  (forall datagram, rust_slice datagram -> exists self' out, handle_client_frame env client (sender_of client) datagram self = Ok (self', out) /\
     (forall c, c <> client -> allocations self' !! c = allocations self !! c) /\
     (forall s frame, ToClient s frame ∈ out -> s = sender_of client) /\
     (forall socket peer data, ToPeer socket peer data ∈ out -> exists m log, allocations self !! client = Some m /\ managed_ok t (configuration self) client log m /\
        socket = relay_socket m /\ len data <= MAX_RELAY_DATA_BYTES /\ safe_peer (configuration self) peer = true /\ permitted_at log (now env) (ip peer))) /\
  (forall peer data, exists self' out, relay_one env client peer data self = Ok (self', out) /\
     (forall c, c <> client -> allocations self' !! c = allocations self !! c) /\
     (forall o, o ∈ out -> exists m log frame, o = ToClient (sender_of client) frame /\ allocations self !! client = Some m /\
        managed_ok t (configuration self) client log m /\ permitted_at log (now env) (ip peer))).
Proof.
  intros Hr Hle. pose proof (turn_reachable_server_ok t self Hr) as Hok. split.
  - intros datagram Hin. destruct (frame_handled env client self datagram Hin) as (self' & out & Hf & Hc & Hout). exists self', out. rewrite Forall_forall in Hout.
    split_and!; [done|apply Hc|intros s frame Ho; by apply (Hout (ToClient s frame))|]. intros socket peer data Ho.
    destruct (Hout _ Ho) as (m & Hm & -> & Hlen & Hcases). destruct (so_managed _ _ Hok client m Hm) as [log Hmo]. exists m, log.
    destruct (managed_follows t _ client log m (now env) Hmo Hle) as [Hper Hch]. split_and!; try done.
    + destruct Hcases as [(n & _ & Hp)|(message & a & _ & _ & _ & _ & Hs & _)]; [|done].
      destruct (Hch n peer Hp) as [(t1 & Hin1 & _) _]. pose proof (mo_safe _ _ _ _ _ Hmo) as Hs. rewrite Forall_forall in Hs. exact (Hs _ Hin1).
    + destruct Hcases as [(n & _ & Hp)|(message & a & _ & _ & _ & _ & _ & Hp)]; [by apply (Hch n)|by apply Hper].
  - intros peer data. destruct (peer_handled env client self peer data (len_nonneg data)) as (self' & out & Hf & Hc & Hout). exists self', out.
    split_and!; [done|apply Hc|]. intros o Ho. destruct (Hout o Ho) as (m & Hm & Hrec). destruct (so_managed _ _ Hok client m Hm) as [log Hmo].
    destruct o as [s frame|]; [|done]. destruct Hrec as [-> Hroute]. exists m, log, frame. rewrite (mo_sender _ _ _ _ _ Hmo). split_and!; try done.
    apply (managed_follows t _ client log m (now env) Hmo Hle). revert Hroute. unfold Turn.peer_route. destruct (Turn.permits _ _ _) as [a []]; done.
Qed.

(** C14: only proved credentials grant anything.  When a frame makes an allocation, ends one, prolongs it, or adds or renews a permission or a
    channel, the frame is a request whose nonce the server issued to this very address and whose integrity covers the message under the key of the user
    that owns the allocation; any other frame leaves the client's allocation with the same owner, expiry and at most the permissions and
    channels it had. *)
Theorem credentials_required env client self datagram : rust_slice datagram -> exists self' out,
  handle_client_frame env client (sender_of client) datagram self = Ok (self', out) /\
  match allocations self !! client, allocations self' !! client with
  | None, None => True
  | None, Some m' => proved env client self datagram (Turn.username (allocation m'))
  | Some m, None => proved env client self datagram (Turn.username (allocation m))
  | Some m, Some m' => Turn.username (allocation m') = Turn.username (allocation m) /\
      (proved env client self datagram (Turn.username (allocation m)) \/
       (Turn.expires_at (allocation m') = Turn.expires_at (allocation m) /\ Turn.permissions (allocation m') ⊆ Turn.permissions (allocation m) /\
        Turn.channels (allocation m') ⊆ Turn.channels (allocation m)))
  end.
Proof.
  intros Hin. destruct (frame_handled env client self datagram Hin) as (self' & out & Hf & Hc & _). exists self', out. split; [done|].
  destruct Hc as [_ _ _ _ C5]. inversion C5 as [o E E'|m Hu Hq Hq' Ha Hsend Hb E E'|m call b Ht Hsafe Hu Hb E E'|m Hu E E']; [|done| |done].
  - destruct (allocations self !! client); [|done]. split; [done|]. by right.
  - cbn [allocation with_bandwidth with_allocation]. split; [apply call_turn_fixed|].
    destruct call; cbn [granting] in Hu; try (left; by apply Hu); right; (split; [done|]); (split; apply map_filter_subseteq).
Qed.
End Relay.

(** * services/turn-server: relay ports, two defects, and a server at work

    The search for a relay port; the ports it can miss and the quota that concurrent requests can exceed; a run of a small server. *)

(** ** The search for a relay port *)
Section Ports.
Context (env : Env) (c : ServerConfig) (n : Z) (Hn : 0 < n).
Context (usable : forall k, 0 <= k < n -> bind_udp env (relay_port_min c + k) <> BindFailed).

Definition offset_of (candidate : Z) : Z := wrapping_sub 16 candidate (relay_port_min c) mod n.
Lemma offset_range candidate : 0 <= offset_of candidate < n.
Proof. apply Z.mod_pos_bound. lia. Qed.

(** A port that one of the candidates names is found, or an earlier free one. *)
Lemma try_ports_finds attempts self j p : (j < attempts)%nat ->
  bind_udp env (relay_port_min c + offset_of ((next_relay_port self + Z.of_nat j) mod 2 ^ 16)) = Bound p -> u16 (next_relay_port self) ->
  exists self' q, try_ports attempts env c n self = (self', Ok q).
Proof.
  revert self j. induction attempts as [|attempts IH]; intros self j Hj Hb Hs; [lia|]. cbn [try_ports]. unfold mbind, prog_bind, gets, modify, mret, prog_ret.
  pose proof (usable _ (offset_range (next_relay_port self))) as Hu. fold (offset_of (next_relay_port self)).
  destruct (bind_udp env (relay_port_min c + offset_of (next_relay_port self))) as [q| |] eqn:E; [by eexists _, q| |done].
  destruct j as [|j].
  - exfalso. rewrite Z.add_0_r, Z.mod_small in Hb by exact Hs. congruence.
  - apply (IH _ j); [lia| |apply Z.mod_pos_bound; lia]. cbn [next_relay_port set_next_relay_port]. unfold wrapping_add.
    rewrite Zplus_mod_idemp_l. rewrite <- Hb. do 3 f_equal. f_equal. lia.
Qed.

(** Without a wrap of the counter the candidates are all the ports of the range. *)
Lemma candidates_cover next k : u16 next -> 0 <= k < n -> (next - relay_port_min c) mod 2 ^ 16 + n <= 2 ^ 16 ->
  exists j, (j < Z.to_nat n)%nat /\ offset_of ((next + Z.of_nat j) mod 2 ^ 16) = k.
Proof.
  intros Hnext Hk Hwrap. set (o := (next - relay_port_min c) mod 2 ^ 16) in *. assert (0 <= o < 2 ^ 16) as Ho by (apply Z.mod_pos_bound; lia).
  exists (Z.to_nat ((k - o) mod n)). pose proof (Z.mod_pos_bound (k - o) n Hn) as Hj. split; [lia|].
  unfold offset_of, wrapping_sub. rewrite Z2Nat.id by lia. rewrite Zminus_mod_idemp_l.
  replace (next + (k - o) mod n - relay_port_min c) with ((next - relay_port_min c) + (k - o) mod n) by lia.
  rewrite <- Zplus_mod_idemp_l. fold o. rewrite (Z.mod_small (o + _)) by lia. rewrite Zplus_mod_idemp_r.
  replace (o + (k - o)) with k by lia. by apply Z.mod_small.
Qed.
End Ports.

(** The search finds a relay port whenever a port of the range is free, as long as the shared counter does not wrap while it
    searches. *)
Theorem relay_port_found env self k p : let c := configuration self in relay_port_min c <> 0 -> u16 (next_relay_port self) ->
  (forall k, 0 <= k < port_count c -> bind_udp env (relay_port_min c + k) <> BindFailed) ->
  0 <= k < port_count c -> bind_udp env (relay_port_min c + k) = Bound p ->
  (next_relay_port self - relay_port_min c) mod 2 ^ 16 + port_count c <= 2 ^ 16 ->
  exists self' q, bind_relay_socket env self = (self', Ok q).
Proof.
  intros c Hmin Hnext Husable Hk Hb Hwrap. unfold bind_relay_socket, mbind, prog_bind, gets, id. cbv zeta. fold c.
  rewrite (proj2 (Z.eqb_neq _ _) Hmin). destruct (candidates_cover c (port_count c) ltac:(lia) (next_relay_port self) k Hnext Hk Hwrap) as (j & Hj & Ej).
  apply (try_ports_finds env c (port_count c) ltac:(lia) Husable _ self j p); [done| |done]. by rewrite Ej.
Qed.

(** ** A small server *)
Definition example_turn_crypto : Turn.TurnCrypto.
Proof. refine {| Turn.md5 m := replicate 16 5; Turn.base64_encode m := [] |}. intros m. split; [by apply Forall_replicate|reflexivity]. Defined.
#[local] Existing Instances StunSafety.example_stun_crypto Auth.demo_crypto Turn.list_bindings SfuRuntimeSteps.listing example_turn_crypto.

Definition example_config : ServerConfig :=
  {| control_bind := SocketAddrV4 0 3478; status_bind := SocketAddrV4 0x7f000001 9000; advertised_ip := V4 0x08080808; relay_bind_ip := V4 0x0a000001;
     relay_port_min := 50000; relay_port_max := 50002; allow_private_peers := false; maximum_relay_bytes_per_second := 65000;
     cfg_username := octets "anna"; cfg_password := octets "secret"; cfg_realm := octets "fluvora"; nonce_secret := replicate 32 7;
     rest_secret := replicate 32 8; maximum_allocations := 3; maximum_allocations_per_ip := 1; tls := None |}.
Definition example_env (t : Z) : Env :=
  {| now := t; unix_seconds := 100; bind_udp p := Bound p; accepts _ := true; sends _ _ := true; random := Some (replicate 12 9) |}.
Definition laptop : ClientKey := Udp (SocketAddrV4 0x01020304 40000).
Definition phone : ClientKey := Tcp 1 (SocketAddrV4 0x01020304 40001).
Definition remote : SocketAddr := SocketAddrV4 0x05060708 6000.
Definition server0 : TurnServer :=
  {| configuration := example_config; allocations := ∅; nonce := {| TurnNonce.secret := replicate 32 7; TurnNonce.lifetime := from_secs 600 |};
     server_key := replicate 16 5; metrics := default_metrics; next_relay_port := 50000 |}.

Definition signed_request (method : Z) (attributes : Stun.MessageBuilder -> Stun.MessageBuilder) : bytes :=
  match TurnNonce.issue (nonce server0) 100 (V4 0x01020304) with
  | Ok n =>
      match Stun.build (Stun.Builder.message_integrity_sha1 (server_key server0) (attributes (Stun.Builder.raw_attribute Stun.AttributeType.NONCE n
              (Stun.Builder.raw_attribute Stun.AttributeType.REALM (octets "fluvora") (Stun.Builder.username (octets "anna")
                (Stun.Builder.new (Stun.MessageType.new method Stun.Request) (replicate 12 3))))))) with
      | Ok b => b | _ => [] end
  | _ => []
  end.
Definition allocate_frame : bytes := Eval vm_compute in
  signed_request Stun.Method.ALLOCATE (Stun.Builder.raw_attribute Stun.AttributeType.REQUESTED_TRANSPORT [17; 0; 0; 0]).
Definition permission_frame : bytes := Eval vm_compute in
  signed_request Stun.Method.CREATE_PERMISSION (Stun.Builder.xor_address Stun.AttributeType.XOR_PEER_ADDRESS remote).
Definition send_frame : bytes := Eval vm_compute in
  match Stun.build (Stun.Builder.raw_attribute Stun.AttributeType.DATA [1; 2; 3] (Stun.Builder.xor_address Stun.AttributeType.XOR_PEER_ADDRESS remote
          (Stun.Builder.new (Stun.MessageType.new Stun.Method.SEND Stun.Indication) (replicate 12 3)))) with
  | Ok b => b | _ => [] end.
Definition after (t : Z) (client : ClientKey) (frame : bytes) (self : TurnServer) : TurnServer * list Output :=
  match handle_client_frame (example_env t) client (sender_of client) frame self with Ok r => r | _ => (self, []) end.
Definition server1 : TurnServer := (after 5 laptop allocate_frame server0).1.
Definition server2 : TurnServer := (after 6 laptop permission_frame server1).1.

Lemma frames_slices : rust_slice allocate_frame /\ rust_slice permission_frame /\ rust_slice send_frame.
Proof. split_and!; apply rust_slice_check; vm_compute; reflexivity. Qed.
Lemma server0_reachable : reachable 0 server0.
Proof. apply (server_bound example_config); [vm_compute; reflexivity|by vm_compute|lia]. Qed.
Lemma after_reachable t t' client frame self : reachable t self -> t <= t' -> rust_slice frame -> reachable t' (after t' client frame self).1.
Proof.
  intros Hr Hle Hf. unfold after. destruct (frame_handled (example_env t') client self frame Hf) as (s & out & E & _). rewrite E. cbn [fst].
  by apply (server_frame t (example_env t') client frame self s out).
Qed.
Lemma server2_reachable : reachable 6 server2.
Proof.
  destruct frames_slices as (F1 & F2 & _). apply (after_reachable 5); [|lia|done]. apply (after_reachable 0); [exact server0_reachable|lia|done].
Qed.


Lemma relay_safe_witness : (after 7 laptop send_frame server2).2 = [ToPeer 50000 remote [1; 2; 3]] /\
  safe_peer example_config remote = true.
Proof.
  assert ((after 7 laptop send_frame server2).2 = [ToPeer 50000 remote [1; 2; 3]]) as E by (vm_compute; reflexivity). split; [exact E|].
  destruct (relay_safe 6 server2 (example_env 7) laptop server2_reachable ltac:(cbn; lia)) as [H _].
  destruct (H send_frame (proj2 (proj2 frames_slices))) as (self' & out & Hf & _ & _ & Hpeer). unfold after in E. rewrite Hf in E. cbn [snd] in E.
  rewrite E in Hpeer. destruct (Hpeer 50000 remote [1; 2; 3]) as (m & log & _ & _ & _ & _ & Hs & _); [left|].
  assert (configuration server2 = example_config) as Ec by (vm_compute; reflexivity). rewrite Ec in Hs. exact Hs.
Defined.

Lemma credentials_required_witness : exists self' out m, handle_client_frame (example_env 5) laptop (sender_of laptop) allocate_frame server0 = Ok (self', out) /\
  allocations self' !! laptop = Some m /\ proved (example_env 5) laptop server0 allocate_frame (Turn.username (allocation m)).
Proof.
  destruct (credentials_required (example_env 5) laptop server0 allocate_frame (proj1 frames_slices)) as (self' & out & Hf & Hm).
  assert (allocations server0 !! laptop = None) as E0 by (vm_compute; reflexivity).
  assert (bool_decide (is_Some (allocations (after 5 laptop allocate_frame server0).1 !! laptop)) = true) as E1 by (vm_compute; reflexivity).
  apply bool_decide_eq_true in E1 as [m E1]. unfold after in E1. rewrite Hf in E1. cbn [fst] in E1. rewrite E0, E1 in Hm. exists self', out, m. split_and!; done.
Defined.

(** ** Two defects *)
(** A port of the range is free, yet the search reports the range exhausted: the counter wraps in the middle of the search and 65536 is
    not a multiple of the number of ports. *)
Definition one_free : Env :=
  {| now := 0; unix_seconds := 0; bind_udp p := if p =? 50002 then Bound p else AddrInUse; accepts _ := true; sends _ _ := true; random := None |}.
Theorem free_port_missed : bind_udp one_free 50002 = Bound 50002 /\
  (bind_relay_socket one_free (set_next_relay_port 49999 server0)).2 = Err (Io AddrNotAvailable).
Proof. split; vm_compute; reflexivity. Qed.

(** Two requests of one address, each checked before either is committed: both get an allocation although one is the limit. *)
Definition allocate_message : Stun.Message := match Stun.parse allocate_frame with Ok m => m | _ => {| Stun.kind := Stun.MessageType.new 0 Stun.Request; Stun.transaction_id := []; Stun.attributes := []; Stun.raw := [] |} end.
Definition anna : Authentication := {| auth_username := octets "anna"; key := replicate 16 5 |}.
Theorem quota_race :
  let commit client port := allocate_commit (example_env 5) client (sender_of client) allocate_message anna port in
  (allocate_check laptop allocate_message anna server0).2 = Ok None /\ (allocate_check phone allocate_message anna server0).2 = Ok None /\
  from_ip laptop (allocations (commit phone 50001 (commit laptop 50000 server0).1).1) = 2 /\ maximum_allocations_per_ip example_config = 1.
Proof. split_and!; vm_compute; reflexivity. Qed.
