(* ===== verification/TranscodeBridge.v ===== *)
(** * media/transcode-bridge: shared transcoder jobs and the choice of a media path (src/lib.rs)

    The coordinator keeps one job per distinct output and counts its consumers; [negotiate] chooses between forwarding, a shared
    transcoder output and HTTP playback.  A lookup by job identifier walks the hash map in its iteration order. *)
From stdpp Require Import fin_maps.
From S2P Require Import Prelude Words Slices RustStd RustStr.
From S2P Require SfuRuntime SfuRuntimeSteps.
Import SfuRuntime (HashIteration, iter, iter_perm).

(** ** Data *)
Inductive MediaCodec := Opus | Aac | Vp8 | Vp9 | H264 | Av1.
#[export] Instance MediaCodec_eq_dec : EqDecision MediaCodec.
Proof. solve_decision. Defined.
Definition codec_code (c : MediaCodec) : Z := match c with Opus => 0 | Aac => 1 | Vp8 => 2 | Vp9 => 3 | H264 => 4 | Av1 => 5 end.
Definition code_codec (n : Z) : MediaCodec :=
  if n =? 0 then Opus else if n =? 1 then Aac else if n =? 2 then Vp8 else if n =? 3 then Vp9 else if n =? 4 then H264 else Av1.
Definition is_audio (self : MediaCodec) : bool := match self with Opus | Aac => true | _ => false end.

Record SourceDescriptor := { source_id : bytes; codec : MediaCodec; src_width : Z; src_height : Z; src_frames_per_second : Z }.
#[export] Instance SourceDescriptor_eq_dec : EqDecision SourceDescriptor.
Proof. solve_decision. Defined.
Record TranscodeSpec := { source : SourceDescriptor; target_codec : MediaCodec; width : Z; height : Z; frames_per_second : Z; bitrate_bps : Z }.
#[export] Instance TranscodeSpec_eq_dec : EqDecision TranscodeSpec.
Proof. solve_decision. Defined.
#[export] Instance TranscodeSpec_countable : Countable TranscodeSpec.
Proof.
  apply (inj_countable (fun s => [codec_code (codec (source s)); src_width (source s); src_height (source s); src_frames_per_second (source s);
      codec_code (target_codec s); width s; height s; frames_per_second s; bitrate_bps s] ++ source_id (source s))
    (fun l => match l with
      | c :: w :: h :: f :: c' :: w' :: h' :: f' :: b :: i =>
          Some {| source := {| source_id := i; codec := code_codec c; src_width := w; src_height := h; src_frames_per_second := f |};
                  target_codec := code_codec c'; width := w'; height := h'; frames_per_second := f'; bitrate_bps := b |}
      | _ => None end)).
  intros [[i c w h f] c' w' h' f' b]. by destruct c, c'.
Defined.

Abbreviation JobId := Z (only parsing).
Inductive TranscodeError :=
| InvalidSpec (field : bytes)
| UpscaleNotAllowed
| InvalidTenant
| GlobalQuota
| TenantQuota
| JobIdExhausted
| UnknownJob (id : JobId).

Inductive JobState := Queued | Running | Ready (output_id : bytes) | Failed (reason : bytes) (attempts : Z).
Record Allocation := { job_id : JobId; reused : bool; alloc_state : JobState }.
Record Job := { id : JobId; tenant_id : bytes; job_references : Z; state : JobState }.
Record Quotas := { global_jobs : Z; jobs_per_tenant : Z }.
Record Coordinator := { quotas : Quotas; next_job_id : Z; jobs : gmap TranscodeSpec Job }.

Definition set_references (n : Z) (job : Job) : Job := {| id := id job; tenant_id := tenant_id job; job_references := n; state := state job |}.
Definition set_state (s : JobState) (job : Job) : Job := {| id := id job; tenant_id := tenant_id job; job_references := job_references job; state := s |}.
Definition set_jobs (j : gmap TranscodeSpec Job) (self : Coordinator) : Coordinator := {| quotas := quotas self; next_job_id := next_job_id self; jobs := j |}.

(** ** Output specifications *)
Definition validate (self : TranscodeSpec) : outcome TranscodeError unit :=
  _ ← reject_if ((len (source_id (source self)) =? 0) || (256 <? len (source_id (source self)))) (InvalidSpec (octets "source id"));
  _ ← reject_if ((bitrate_bps self =? 0) || (100000000 <? bitrate_bps self)) (InvalidSpec (octets "bitrate"));
  let source_is_audio := (src_width (source self) =? 0) && (src_height (source self) =? 0) in
  let target_is_audio := (width self =? 0) && (height self =? 0) in
  _ ← reject_if (negb (Bool.eqb source_is_audio target_is_audio) || negb (Bool.eqb source_is_audio (is_audio (codec (source self))))
        || negb (Bool.eqb target_is_audio (is_audio (target_codec self)))) (InvalidSpec (octets "media kind"));
  _ ← reject_if (source_is_audio && (negb (src_frames_per_second (source self) =? 0) || negb (frames_per_second self =? 0)))
        (InvalidSpec (octets "audio dimensions"));
  reject_if (negb source_is_audio
        && ((width self =? 0) || (height self =? 0) || (frames_per_second self =? 0) || (src_width (source self) <? width self)
            || (src_height (source self) <? height self) || (src_frames_per_second (source self) <? frames_per_second self))) UpscaleNotAllowed.

(** ** The coordinator *)
Definition new (quotas : Quotas) : Coordinator := {| quotas := quotas; next_job_id := 1; jobs := ∅ |}.
Definition tenant_jobs (tenant : bytes) (jobs : gmap TranscodeSpec Job) : Z := Z.of_nat (size (filter (fun kv => tenant_id kv.2 = tenant) jobs)).

Definition acquire (tenant_id : bytes) (spec : TranscodeSpec) : prog Coordinator TranscodeError Allocation :=
  _ ← lift (validate spec);
  self ← gets (fun self => self);
  match jobs self !! spec with
  | Some job =>
      let job := set_references (saturating_add 64 (job_references job) 1) job in
      _ ← modify (fun self => set_jobs (<[spec := job]> (jobs self)) self);
      mret {| job_id := id job; reused := true; alloc_state := state job |}
  | None =>
      _ ← lift (reject_if ((len tenant_id =? 0) || (128 <? len tenant_id)) InvalidTenant);
      _ ← lift (reject_if (global_jobs (quotas self) <=? Z.of_nat (size (jobs self))) GlobalQuota);
      _ ← lift (reject_if (jobs_per_tenant (quotas self) <=? tenant_jobs tenant_id (jobs self)) TenantQuota);
      let fresh := next_job_id self in
      next ← lift (ok_or (checked_add 64 fresh 1) JobIdExhausted);
      _ ← modify (fun self => {| quotas := quotas self; next_job_id := next;
            jobs := <[spec := {| id := fresh; tenant_id := tenant_id; job_references := 1; state := Queued |}]> (jobs self) |});
      mret {| job_id := fresh; reused := false; alloc_state := Queued |}
  end.

Section Lookup.
Context {iteration : HashIteration}.

(** [iter().find_map] by identifier *)
Definition find_job (job_id : JobId) (jobs : gmap TranscodeSpec Job) : option (TranscodeSpec * Job) :=
  snd <$> list_find (fun kv => id kv.2 = job_id) (iter jobs).

(** [get_mut] of the key found cannot fail. *)
Definition release (job_id : JobId) (self : Coordinator) : Coordinator * bool :=
  match find_job job_id (jobs self) with
  | None => (self, false)
  | Some (key, _) =>
      match jobs self !! key with
      | Some job =>
          let job := set_references (saturating_sub (job_references job) 1) job in
          let self := set_jobs (<[key := job]> (jobs self)) self in
          (if job_references job =? 0 then set_jobs (delete key (jobs self)) self else self, true)
      | None => (self, true)
      end
  end.
Definition update_state (job_id : JobId) (s : JobState) : prog Coordinator TranscodeError unit := fun self =>
  match find_job job_id (jobs self) with
  | Some (key, job) => (set_jobs (<[key := set_state s job]> (jobs self)) self, Ok tt)
  | None => (self, Err (UnknownJob job_id))
  end.
Definition active_jobs (self : Coordinator) : Z := Z.of_nat (size (jobs self)).
Definition specification (self : Coordinator) (job_id : JobId) : option TranscodeSpec := fst <$> find_job job_id (jobs self).
Definition references (self : Coordinator) (job_id : JobId) : option Z := (fun kv => job_references kv.2) <$> find_job job_id (jobs self).
End Lookup.

(** ** The choice of a media path *)
Inductive NetworkQuality := Good | Constrained | Critical.
#[export] Instance NetworkQuality_eq_dec : EqDecision NetworkQuality.
Proof. solve_decision. Defined.
Record NegotiationRequest := {
  req_source : SourceDescriptor;
  subscriber_codecs : list MediaCodec;
  network_quality : NetworkQuality;
  allow_transcoding : bool;
  hls_fallback_url : option bytes;
  target_width : Z;
  target_height : Z;
  target_frames_per_second : Z;
  target_bitrate_bps : Z }.
Inductive NegotiationDecision :=
| DirectForward (codec : MediaCodec)
| Transcode (spec : TranscodeSpec)
| HlsFallback (url : bytes)
| RejectCodecIncompatible.

Definition transcode_to (request : NegotiationRequest) (target : MediaCodec) : TranscodeSpec :=
  {| source := req_source request; target_codec := target;
     width := Z.min (target_width request) (src_width (req_source request));
     height := Z.min (target_height request) (src_height (req_source request));
     frames_per_second := Z.min (target_frames_per_second request) (src_frames_per_second (req_source request));
     bitrate_bps := target_bitrate_bps request |}.
Definition is_ok {E A} (o : outcome E A) : bool := match o with Ok _ => true | _ => false end.
Definition negotiate (request : NegotiationRequest) : NegotiationDecision :=
  match (if bool_decide (network_quality request = Critical) then hls_fallback_url request else None) with
  | Some url => HlsFallback url
  | None =>
      if bool_decide (codec (req_source request) ∈ subscriber_codecs request) then DirectForward (codec (req_source request))
      else
        match (if allow_transcoding request then head (subscriber_codecs request) else None) with
        | Some target =>
            if is_ok (validate (transcode_to request target)) then Transcode (transcode_to request target)
            else match hls_fallback_url request with Some url => HlsFallback url | None => RejectCodecIncompatible end
        | None => match hls_fallback_url request with Some url => HlsFallback url | None => RejectCodecIncompatible end
        end
  end.

(** * media/transcode-bridge: jobs live exactly while they are held, and the chosen path works *)

Section Jobs.
Context {iteration : HashIteration}.

(** How often [i] is held. *)
Definition holds (i : Z) (held : list Z) : Z := Z.of_nat (length (filter (fun x => x = i) held)).
Fixpoint drop_one (i : Z) (held : list Z) : list Z :=
  match held with [] => [] | x :: held => if bool_decide (x = i) then held else x :: drop_one i held end.
Lemma holds_nonneg i held : 0 <= holds i held.
Proof. unfold holds. lia. Qed.
Lemma holds_cons i x held : holds i (x :: held) = (if bool_decide (x = i) then 1 else 0) + holds i held.
Proof. unfold holds. rewrite filter_cons. case_decide; [rewrite bool_decide_eq_true_2 by done; cbn; lia|]. by rewrite bool_decide_eq_false_2. Qed.
Lemma holds_drop_one i j held : holds j (drop_one i held) = if bool_decide (i = j) then Z.max 0 (holds j held - 1) else holds j held.
Proof.
  induction held as [|x held IH]; [by case_bool_decide|]. cbn [drop_one]. pose proof (holds_nonneg j held). rewrite holds_cons.
  destruct (decide (x = i)) as [->|Hx].
  - rewrite (bool_decide_eq_true_2 (i = i)) by done. case_bool_decide; lia.
  - rewrite (bool_decide_eq_false_2 (x = i)) by done. rewrite holds_cons, IH. destruct (decide (i = j)) as [->|Hij].
    + rewrite (bool_decide_eq_true_2 (j = j)), (bool_decide_eq_false_2 (x = j)) by done. lia.
    + by rewrite (bool_decide_eq_false_2 (i = j)) by done.
Qed.
Lemma holds_le i held : holds i held <= Z.of_nat (length held).
Proof. unfold holds. pose proof (length_filter (fun x => x = i) held). lia. Qed.

Lemma holds_zero i held : i ∉ held -> holds i held = 0.
Proof.
  induction held as [|x held IH]; [done|]. intros Hn%not_elem_of_cons. rewrite holds_cons, bool_decide_eq_false_2 by (destruct Hn; congruence). apply IH, Hn.
Qed.

(** ** The invariant *)
Record coordinator_ok (held : list Z) (self : Coordinator) : Prop := {
  co_next : 1 <= next_job_id self <= umax 64;
  co_valid spec job : jobs self !! spec = Some job -> validate spec = Ok tt;
  co_id spec job : jobs self !! spec = Some job -> 1 <= id job < next_job_id self;
  co_unique spec spec' job job' : jobs self !! spec = Some job -> jobs self !! spec' = Some job' -> id job = id job' -> spec = spec';
  co_counted spec job : jobs self !! spec = Some job -> job_references job = holds (id job) held /\ 1 <= holds (id job) held;
  co_held i : i ∈ held -> exists spec job, jobs self !! spec = Some job /\ id job = i;
  co_global : Z.of_nat (size (jobs self)) <= global_jobs (quotas self);
  co_tenant tenant : tenant_jobs tenant (jobs self) <= jobs_per_tenant (quotas self) }.

Lemma find_job_spec held self i spec job : coordinator_ok held self ->
  find_job i (jobs self) = Some (spec, job) <-> jobs self !! spec = Some job /\ id job = i.
Proof.
  intros Hok. unfold find_job.
  assert (forall k j, (k, j) ∈ iter (jobs self) <-> jobs self !! k = Some j) as Hiter by (intros k j; by rewrite (iter_perm (jobs self)), elem_of_map_to_list).
  split.
  - destruct (list_find _ _) as [[n [k j]]|] eqn:E; [|done]. cbn. intros [= <- <-]. apply list_find_Some in E as (Hn & Hi & _).
    split; [|done]. apply Hiter. by eapply list_elem_of_lookup_2.
  - intros [Hj Hi]. destruct (list_find (fun kv => id kv.2 = i) (iter (jobs self))) as [[n [k j]]|] eqn:E.
    + apply list_find_Some in E as (Hn & Hi' & _). apply list_elem_of_lookup_2, Hiter in Hn. cbn in *. assert (k = spec) as -> by (eapply co_unique; eauto; congruence).
      congruence.
    + apply list_find_None in E. rewrite Forall_forall in E. exfalso. by apply (E (spec, job)); [apply Hiter|].
Qed.
Lemma found_job held self i spec job : coordinator_ok held self -> jobs self !! spec = Some job -> id job = i ->
  specification self i = Some spec /\ references self i = Some (job_references job).
Proof. intros Hok Hj Hi. unfold specification, references. by rewrite (proj2 (find_job_spec held self i spec job Hok) (conj Hj Hi)). Qed.
Lemma find_job_None held self i : coordinator_ok held self -> find_job i (jobs self) = None -> holds i held = 0.
Proof.
  intros Hok Hf. destruct (decide (i ∈ held)) as [Hin|Hin].
  - destruct (co_held _ _ Hok i Hin) as (spec & job & Hj & Hi). assert (find_job i (jobs self) = Some (spec, job)) by (by apply (find_job_spec held)). congruence.
  - by apply holds_zero.
Qed.

(** ** The operations *)
Lemma tenant_jobs_insert t spec job (j : gmap TranscodeSpec Job) : j !! spec = None ->
  tenant_jobs t (<[spec := job]> j) = tenant_jobs t j + (if bool_decide (tenant_id job = t) then 1 else 0).
Proof.
  intros Hn. unfold tenant_jobs. case_bool_decide as Ht.
  - rewrite map_filter_insert_True by done. rewrite map_size_insert_None; [lia|]. apply map_lookup_filter_None. by left.
  - rewrite map_filter_insert_False by done. rewrite delete_id by done. lia.
Qed.
Lemma tenant_jobs_delete t spec job (j : gmap TranscodeSpec Job) : j !! spec = Some job ->
  tenant_jobs t j = tenant_jobs t (delete spec j) + (if bool_decide (tenant_id job = t) then 1 else 0).
Proof. intros Hj. rewrite <- (insert_delete_id j spec job Hj) at 1. apply tenant_jobs_insert. apply lookup_delete_eq. Qed.
Lemma tenant_jobs_update t spec job job' (j : gmap TranscodeSpec Job) : j !! spec = Some job -> tenant_id job' = tenant_id job ->
  tenant_jobs t (<[spec := job']> j) = tenant_jobs t j.
Proof.
  intros Hj Ht. rewrite (tenant_jobs_delete t spec job j Hj), <- insert_delete_eq, tenant_jobs_insert by apply lookup_delete_eq. by rewrite Ht.
Qed.

(** A job is rewritten in place; only its count and state may change. *)
Lemma update_ok held held' self spec job job' : coordinator_ok held self -> jobs self !! spec = Some job -> id job' = id job -> tenant_id job' = tenant_id job ->
  job_references job' = holds (id job) held' -> 1 <= holds (id job) held' -> (forall i, i <> id job -> holds i held' = holds i held) ->
  (forall i, i ∈ held' -> i = id job \/ i ∈ held) -> coordinator_ok held' (set_jobs (<[spec := job']> (jobs self)) self).
Proof.
  intros [O1 O2 O3 O4 O5 O6 O7 O8] Hj Hi Ht Hr Hr' Hother Hin.
  assert (forall k j, <[spec := job']> (jobs self) !! k = Some j -> exists j0, jobs self !! k = Some j0 /\ id j = id j0) as Hold.
  { intros k j. destruct (decide (spec = k)) as [->|Hne]; [rewrite lookup_insert_eq; intros [= <-]; by exists job|rewrite lookup_insert_ne by done; by exists j]. }
  split; cbn [set_jobs jobs quotas next_job_id]; [done|..].
  - intros k j Hk. destruct (Hold k j Hk) as (j0 & H0 & _). eauto.
  - intros k j Hk. destruct (Hold k j Hk) as (j0 & H0 & ->). eauto.
  - intros k k' j j' Hk Hk' E. destruct (Hold k j Hk) as (j0 & H0 & E0), (Hold k' j' Hk') as (j0' & H0' & E0'). apply (O4 k k' j0 j0'); congruence.
  - intros k j. destruct (decide (spec = k)) as [->|Hne]; [rewrite lookup_insert_eq; intros [= <-]; by rewrite Hi|rewrite lookup_insert_ne by done].
    intros Hk. rewrite Hother; [by apply O5 in Hk|]. intros E. apply Hne. by apply (O4 spec k job j).
  - intros i Hi'. destruct (Hin i Hi') as [->|Hold']; [exists spec, job'; by rewrite lookup_insert_eq|].
    destruct (O6 i Hold') as (k & j & Hk & Ek). destruct (decide (spec = k)) as [<-|Hne]; [exists spec, job'; rewrite lookup_insert_eq; split; [done|congruence]|].
    exists k, j. by rewrite lookup_insert_ne.
  - rewrite map_size_insert_Some by (by eexists). done.
  - intros t. by rewrite (tenant_jobs_update t spec job job').
Qed.

Lemma acquire_cases tenant spec held self : coordinator_ok held self -> Z.of_nat (length held) < umax 64 ->
  (exists e, acquire tenant spec self = (self, Err e)) \/
  (exists self' a, acquire tenant spec self = (self', Ok a) /\ coordinator_ok (job_id a :: held) self' /\ specification self' (job_id a) = Some spec /\
     (if reused a then job_id a ∈ held else job_id a ∉ held) /\ quotas self' = quotas self).
Proof.
  intros Hok Hmany. pose proof Hok as [O1 O2 O3 O4 O5 O6 O7 O8]. unfold acquire, mbind, prog_bind, lift, gets, modify, mret, prog_ret.
  destruct (validate spec) as [[]|e| |] eqn:Hv; [|by left; exists e|..].
  2,3: exfalso; revert Hv; unfold validate; repeat (match goal with |- context [reject_if ?b _] => destruct b; [done|] end; cbn [mbind outcome_bind reject_if]); done.
  destruct (jobs self !! spec) as [job|] eqn:Hj.
  - right. eexists _, _. split; [done|]. cbn [job_id reused]. destruct (O5 spec job Hj) as [Hr1 Hr2]. pose proof (holds_le (id job) held).
    assert (coordinator_ok (id job :: held) (set_jobs (<[spec := set_references (saturating_add 64 (job_references job) 1) job]> (jobs self)) self)) as Hok'.
    { apply (update_ok held _ self spec job); try done.
      - cbn [job_references set_references]. unfold saturating_add. rewrite holds_cons, bool_decide_eq_true_2 by done. lia.
      - rewrite holds_cons, bool_decide_eq_true_2 by done. lia.
      - intros i Hi. by rewrite holds_cons, bool_decide_eq_false_2 by done.
      - intros i [->|]%elem_of_cons; auto. }
    split_and!; [done| | |done].
    + eapply found_job; [exact Hok'|cbn; by rewrite lookup_insert_eq|done].
    + apply dec_stable. intros Hn. apply (holds_zero (id job)) in Hn. lia.
  - destruct ((len tenant =? 0) || _); cbn [reject_if]; [left; by eexists|]. destruct (global_jobs (quotas self) <=? _) eqn:Hg; cbn [reject_if]; [left; by eexists|].
    destruct (jobs_per_tenant (quotas self) <=? _) eqn:Ht; cbn [reject_if]; [left; by eexists|].
    destruct (checked_add 64 (next_job_id self) 1) as [next|] eqn:Hn; cbn [ok_or]; [|left; by eexists]. apply checked_add_Some in Hn as [-> Hn].
    right. eexists _, _. split; [done|]. cbn [job_id reused].
    assert (next_job_id self ∉ held) as Hfresh.
    { intros Hin. destruct (O6 _ Hin) as (k & j & Hk & Ek). apply O3 in Hk. lia. }
    set (job := {| id := next_job_id self; tenant_id := tenant; job_references := 1; state := Queued |}).
    assert (forall k j, <[spec := job]> (jobs self) !! k = Some j -> (k = spec /\ j = job) \/ (k <> spec /\ jobs self !! k = Some j)) as Hcases.
    { intros k j. destruct (decide (spec = k)) as [->|Hne]; [rewrite lookup_insert_eq; intros [= <-]; auto|rewrite lookup_insert_ne by done; auto]. }
    assert (holds (next_job_id self) held = 0) as Hzero by by apply holds_zero.
    assert (coordinator_ok (next_job_id self :: held) {| quotas := quotas self; next_job_id := next_job_id self + 1; jobs := <[spec := job]> (jobs self) |}) as Hok'.
    { split; cbn [jobs quotas next_job_id]; [lia|..].
      - intros k j [[-> _]|[_ Hk]]%Hcases; [done|eauto].
      - intros k j [[_ ->]|[_ Hk]]%Hcases; [cbn; lia|apply O3 in Hk; lia].
      - intros k k' j j' [[-> ->]|[Hk0 Hk]]%Hcases [[-> ->]|[Hk0' Hk']]%Hcases E; [done|apply O3 in Hk'; cbn in E; lia|apply O3 in Hk; cbn in E; lia|eauto].
      - intros k j [[-> ->]|[_ Hk]]%Hcases; rewrite holds_cons.
        + cbn [id job job_references]. rewrite bool_decide_eq_true_2 by done. rewrite Hzero. done.
        + rewrite bool_decide_eq_false_2; [by apply O5 in Hk|]. apply O3 in Hk. lia.
      - intros i [->|Hi]%elem_of_cons; [exists spec, job; by rewrite lookup_insert_eq|]. destruct (O6 i Hi) as (k & j & Hk & Ek). exists k, j.
        rewrite lookup_insert_ne; [done|]. intros ->. congruence.
      - rewrite map_size_insert_None by done. lia.
      - intros t. rewrite tenant_jobs_insert by done. cbn [tenant_id job]. specialize (O8 t). case_bool_decide; subst; lia. }
    split_and!; [done| |done|done]. eapply found_job; [exact Hok'|cbn; by rewrite lookup_insert_eq|done].
Qed.

Lemma drop_one_elem i j held : j ∈ drop_one i held -> j ∈ held.
Proof. induction held as [|x held IH]; [done|]. cbn [drop_one]. case_bool_decide; rewrite ?elem_of_cons; [auto|]. intros [->|H']; auto. Qed.
Lemma holds_elem i held : i ∈ held <-> 1 <= holds i held.
Proof.
  induction held as [|x held IH]; [split; [by intros ?%not_elem_of_nil|unfold holds; cbn; lia]|]. rewrite elem_of_cons, holds_cons, IH. pose proof (holds_nonneg i held).
  case_bool_decide; split; intros; lia.
Qed.

Lemma release_cases i held self : coordinator_ok held self ->
  coordinator_ok (drop_one i held) (release i self).1 /\ (release i self).2 = bool_decide (i ∈ held) /\ quotas (release i self).1 = quotas self.
Proof.
  intros Hok. unfold release. destruct (find_job i (jobs self)) as [[spec job]|] eqn:Hf.
  - apply (find_job_spec held self i spec job Hok) in Hf as [Hj Hi]. rewrite Hj. cbv zeta. cbn [fst snd]. destruct (co_counted _ _ Hok _ _ Hj) as [Hr Hr1]. rewrite Hi in Hr, Hr1.
    rewrite bool_decide_eq_true_2 by (by apply holds_elem). split; [|split; [done|by case_match]].
    assert (saturating_sub (job_references job) 1 = holds i held - 1) as -> by (unfold saturating_sub; lia). cbn [job_references set_references].
    pose proof (holds_drop_one i i held) as Hd. rewrite bool_decide_eq_true_2 in Hd by done.
    destruct (Z.eqb_spec (holds i held - 1) 0) as [Hz|Hz].
    + cbn [jobs set_jobs]. rewrite delete_insert_eq. destruct Hok as [O1 O2 O3 O4 O5 O6 O7 O8].
      assert (forall k j, delete spec (jobs self) !! k = Some j -> jobs self !! k = Some j /\ k <> spec) as Hdel by (intros k j [? ?]%lookup_delete_Some; done).
      split; cbn [jobs set_jobs quotas next_job_id]; [done|..].
      * intros k j [Hk _]%Hdel. eauto.
      * intros k j [Hk _]%Hdel. eauto.
      * intros k k' j j' [Hk _]%Hdel [Hk' _]%Hdel. eauto.
      * intros k j [Hk Hne]%Hdel. rewrite holds_drop_one, bool_decide_eq_false_2; [eauto|]. intros E. apply Hne. apply (O4 k spec j job); congruence.
      * intros j Hj'. assert (j <> i) as Hne.
        { intros ->. apply holds_elem in Hj'. lia. }
        destruct (O6 j (drop_one_elem _ _ _ Hj')) as (k & x & Hk & Ek). exists k, x. rewrite lookup_delete_ne; [done|]. intros ->. congruence.
      * rewrite map_size_delete_Some by (by eexists). lia.
      * intros t. specialize (O8 t). rewrite (tenant_jobs_delete t spec job) in O8 by done. case_bool_decide; lia.
    + apply (update_ok held _ self spec job); try done; cbn [job_references set_references]; rewrite ?Hi; try lia.
      * intros j Hne. by rewrite holds_drop_one, bool_decide_eq_false_2 by done.
      * intros j Hj'. right. by eapply drop_one_elem.
  - assert (i ∉ held) as Hn. { rewrite holds_elem. rewrite (find_job_None held self i Hok Hf). lia. }
    cbn [fst snd]. rewrite bool_decide_eq_false_2 by done. split_and!; [|done|done].
    assert (drop_one i held = held) as ->; [|done]. clear -Hn. induction held as [|x held IH]; [done|]. apply not_elem_of_cons in Hn as [H1 H2]. cbn [drop_one].
    rewrite bool_decide_eq_false_2 by congruence. by rewrite IH.
Qed.

Lemma update_state_ok i s held self : coordinator_ok held self -> coordinator_ok held (update_state i s self).1 /\
  ((update_state i s self).2 = Ok tt <-> i ∈ held) /\ (forall k, specification (update_state i s self).1 k = specification self k).
Proof.
  intros Hok. unfold update_state. destruct (find_job i (jobs self)) as [[spec job]|] eqn:Hf; cbn [fst snd].
  - apply (find_job_spec held self i spec job Hok) in Hf as [Hj Hi]. destruct (co_counted _ _ Hok _ _ Hj) as [Hr Hr1].
    assert (coordinator_ok held (set_jobs (<[spec := set_state s job]> (jobs self)) self)) as Hok' by (apply (update_ok held held self spec job); auto).
    split; [done|]. split; [split; [intros _; apply holds_elem; by rewrite <- Hi|done]|]. intros k. unfold specification. apply option_eq. intros x. rewrite !fmap_Some.
    assert (forall y, (exists j, find_job k (jobs self) = Some (y, j)) <-> (exists j, find_job k (<[spec := set_state s job]> (jobs self)) = Some (y, j))) as Hiff.
    { intros y. split; intros [j Hx].
      - apply (find_job_spec held self k y j Hok) in Hx as [H1 H2]. destruct (decide (spec = y)) as [<-|Hne].
        + exists (set_state s job). apply (find_job_spec held _ k spec _ Hok'). cbn. rewrite lookup_insert_eq. split; [done|]. congruence.
        + exists j. apply (find_job_spec held _ k y _ Hok'). cbn. by rewrite lookup_insert_ne.
      - apply (find_job_spec held _ k y j Hok') in Hx as [H1 H2]. cbn in H1. destruct (decide (spec = y)) as [<-|Hne].
        + exists job. apply (find_job_spec held self k spec job Hok). rewrite lookup_insert_eq in H1. injection H1 as <-. done.
        + exists j. apply (find_job_spec held self k y j Hok). by rewrite lookup_insert_ne in H1. }
    split; intros ([y j] & Hx & ->); cbn [fst] in *; [destruct (proj2 (Hiff y)) as [j' Hj']|destruct (proj1 (Hiff y)) as [j' Hj']]; eauto; exists (y, j'); done.
  - split_and!; [done| |done]. split; [done|]. intros Hin%holds_elem. rewrite (find_job_None held self i Hok Hf) in Hin. lia.
Qed.

(** ** Histories: [held] are the allocations that were given out and not released *)
Inductive reachable : list Z -> Coordinator -> Prop :=
| bridge_new q : usize (global_jobs q) -> usize (jobs_per_tenant q) -> reachable [] (new q)
| bridge_acquired tenant spec held self self' a : reachable held self -> Z.of_nat (length held) < umax 64 ->
    acquire tenant spec self = (self', Ok a) -> reachable (job_id a :: held) self'
| bridge_refused tenant spec held self self' e : reachable held self -> Z.of_nat (length held) < umax 64 ->
    acquire tenant spec self = (self', Err e) -> reachable held self'
| bridge_released i held self : reachable held self -> reachable (drop_one i held) (release i self).1
| bridge_updated i s held self : reachable held self -> reachable held (update_state i s self).1.

Lemma bridge_reachable_ok held self : reachable held self -> coordinator_ok held self.
Proof.
  induction 1 as [q H1 H2|tenant spec held self self' a _ IH Hm Ha|tenant spec held self self' e _ IH Hm Ha|i held self _ IH|i s held self _ IH].
  - split; cbn; try (intros *; by rewrite lookup_empty); [unfold umax; lia|by intros i ?%not_elem_of_nil|apply H1|]. intros t. unfold tenant_jobs. rewrite map_filter_empty. apply H2.
  - destruct (acquire_cases tenant spec held self IH Hm) as [[e E]|(s & b & E & Hok & _)]; rewrite E in Ha; [done|]. by injection Ha as <- <-.
  - destruct (acquire_cases tenant spec held self IH Hm) as [[e' E]|(s & b & E & Hok & _)]; rewrite E in Ha; [|done]. by injection Ha as <- _.
  - by apply release_cases.
  - by apply update_state_ok.
Qed.

(** C27: a transcoder job lives exactly while somebody holds it.  Over any history of requests, releases and worker reports, a job
    has a consumer count, and exists, exactly when its identifier is held, and then the count is the number of holders; equal outputs share one job,
    a request is marked as reused exactly when its job was already held and always gets a job with the output it asked for; a release
    succeeds exactly for a held identifier; and the number of jobs stays within the global quota and the quota of each tenant. *)
Theorem jobs_shared held self : reachable held self ->
  (forall i, references self i = if bool_decide (i ∈ held) then Some (holds i held) else None) /\
  (forall i j spec, specification self i = Some spec -> specification self j = Some spec -> i = j) /\
  (forall tenant spec self' a, Z.of_nat (length held) < umax 64 -> acquire tenant spec self = (self', Ok a) ->
     specification self' (job_id a) = Some spec /\ (reused a = true <-> job_id a ∈ held)) /\
  (forall i, (release i self).2 = true <-> i ∈ held) /\
  active_jobs self <= global_jobs (quotas self) /\ (forall tenant, tenant_jobs tenant (jobs self) <= jobs_per_tenant (quotas self)).
Proof.
  intros Hok%bridge_reachable_ok. split_and!.
  - intros i. unfold references. destruct (find_job i (jobs self)) as [[spec job]|] eqn:Hf.
    + apply (find_job_spec held self i spec job Hok) in Hf as [Hj Hi]. destruct (co_counted _ _ Hok _ _ Hj) as [Hr Hr1]. rewrite Hi in Hr, Hr1.
      rewrite bool_decide_eq_true_2 by (by apply holds_elem). cbn. by rewrite Hr.
    + rewrite bool_decide_eq_false_2; [done|]. rewrite holds_elem, (find_job_None held self i Hok Hf). lia.
  - intros i j spec. unfold specification. rewrite !fmap_Some. intros ([k x] & Hx & ->) ([k' y] & Hy & E). cbn in E. subst k'.
    apply (find_job_spec held _ _ _ _ Hok) in Hx as [Hx <-]. apply (find_job_spec held _ _ _ _ Hok) in Hy as [Hy <-]. congruence.
  - intros tenant spec self' a Hm Ha. destruct (acquire_cases tenant spec held self Hok Hm) as [[e E]|(s & b & E & _ & Hs & Hr & _)]; rewrite E in Ha; [done|].
    injection Ha as <- <-. split; [done|]. destruct (reused b); [done|]. split; [done|]. by intros ?.
  - intros i. destruct (release_cases i held self Hok) as (_ & -> & _). apply bool_decide_eq_true.
  - apply Hok.
  - apply Hok.
Qed.
End Jobs.

(** ** The chosen path *)
(** the chosen media path works.  Media is forwarded as it is only to a subscriber that decodes the source codec, and always then
    unless the path is critical and HTTP playback is offered; a transcoder is only asked for when that is allowed, for the
    subscriber's first codec, with an output that [acquire] accepts and that is nowhere larger than the source; HTTP playback uses the offered address;
    and nothing is offered only when there is no such address, the source codec is not decoded and transcoding to the first codec is
    not allowed or not valid. *)
Theorem negotiation_sound request :
  match negotiate request with
  | DirectForward c => c = codec (req_source request) /\ c ∈ subscriber_codecs request /\
      (network_quality request = Critical -> hls_fallback_url request = None)
  | Transcode spec => allow_transcoding request = true /\ (codec (req_source request) ∉ subscriber_codecs request) /\
      head (subscriber_codecs request) = Some (target_codec spec) /\ source spec = req_source request /\ bitrate_bps spec = target_bitrate_bps request /\
      width spec <= src_width (req_source request) /\ height spec <= src_height (req_source request) /\
      frames_per_second spec <= src_frames_per_second (req_source request) /\
      (forall tenant self, (acquire tenant spec self).2 <> Err UpscaleNotAllowed /\ (forall field, (acquire tenant spec self).2 <> Err (InvalidSpec field)))
  | HlsFallback url => hls_fallback_url request = Some url /\ (network_quality request = Critical \/ (codec (req_source request) ∉ subscriber_codecs request))
  | RejectCodecIncompatible => hls_fallback_url request = None /\ (codec (req_source request) ∉ subscriber_codecs request) /\
      (allow_transcoding request = false \/ (forall target, head (subscriber_codecs request) = Some target -> validate (transcode_to request target) <> Ok tt))
  end.
Proof.
  unfold negotiate. destruct (if bool_decide (network_quality request = Critical) then hls_fallback_url request else None) as [url|] eqn:Hq.
  { case_bool_decide; [|done]. split; [done|]. by left. }
  assert (network_quality request = Critical -> hls_fallback_url request = None) as Hcrit by (intros Hc; by rewrite bool_decide_eq_true_2 in Hq).
  clear Hq. case_bool_decide as Hd; [split; [done|]; split; [done|exact Hcrit]|].
  assert (forall o, (allow_transcoding request = false \/ (forall target, head (subscriber_codecs request) = Some target -> validate (transcode_to request target) <> Ok tt)) ->
    o = hls_fallback_url request -> match match o with Some url => HlsFallback url | None => RejectCodecIncompatible end with
    | HlsFallback url => hls_fallback_url request = Some url /\ (network_quality request = Critical \/ (codec (req_source request) ∉ subscriber_codecs request))
    | RejectCodecIncompatible => hls_fallback_url request = None /\ (codec (req_source request) ∉ subscriber_codecs request) /\
      (allow_transcoding request = false \/ (forall target, head (subscriber_codecs request) = Some target -> validate (transcode_to request target) <> Ok tt))
    | _ => True end) as Hrest by (intros [url|] H1 H2; [split; [done|by right]|by split_and!]).
  destruct (allow_transcoding request) eqn:Ha; [|specialize (Hrest _ (or_introl eq_refl) eq_refl); by destruct (hls_fallback_url request)].
  destruct (head (subscriber_codecs request)) as [target|] eqn:Hh.
  - destruct (validate (transcode_to request target)) as [[]|e| |] eqn:Hv; cbn [is_ok].
    2-4: assert (forall t, Some target = Some t -> validate (transcode_to request t) <> Ok tt) as Hno by (intros t [= <-]; by rewrite Hv);
      specialize (Hrest _ (or_intror Hno) eq_refl); by destruct (hls_fallback_url request).
    split_and!; try done; cbn; [lia..|]. intros tenant self. unfold acquire, mbind, prog_bind, lift. rewrite Hv. unfold gets, modify, mret, prog_ret.
      split; [|intros field]; destruct (jobs self !! _); [done| |done|]; repeat (match goal with |- context [reject_if ?b _] => destruct b; cbn [reject_if]; [done|] end);
        by destruct (checked_add _ _ _).
  - specialize (Hrest _ (or_intror (fun t (H : None = Some t) => match H with end)) eq_refl); by destruct (hls_fallback_url request).
Qed.

(** ** Examples *)
Definition camera : SourceDescriptor := {| source_id := octets "track-1"; codec := Vp9; src_width := 1920; src_height := 1080; src_frames_per_second := 30 |}.
Definition small_h264 : TranscodeSpec := {| source := camera; target_codec := H264; width := 1280; height := 720; frames_per_second := 30; bitrate_bps := 1500000 |}.
Definition bridge0 : Coordinator := new {| global_jobs := 2; jobs_per_tenant := 1 |}.
Definition bridge1 : Coordinator := (acquire (octets "a") small_h264 bridge0).1.
Definition bridge2 : Coordinator := (acquire (octets "b") small_h264 bridge1).1.
Lemma bridge2_reachable : reachable (iteration:=SfuRuntimeSteps.listing) [1; 1] bridge2.
Proof.
  assert (acquire (octets "a") small_h264 bridge0 = (bridge1, Ok {| job_id := 1; reused := false; alloc_state := Queued |})) as E1 by (vm_compute; reflexivity).
  assert (acquire (octets "b") small_h264 bridge1 = (bridge2, Ok {| job_id := 1; reused := true; alloc_state := Queued |})) as E2 by (vm_compute; reflexivity).
  refine (bridge_acquired _ _ [1] bridge1 bridge2 _ (bridge_acquired _ _ [] bridge0 bridge1 _ _ _ E1) _ E2); [|unfold umax; cbn; lia..].
  apply bridge_new; split; cbn; lia.
Qed.
Lemma jobs_shared_witness : references (iteration:=SfuRuntimeSteps.listing) bridge2 1 = Some 2 /\ active_jobs bridge2 = 1.
Proof. split; [exact (proj1 (jobs_shared [1; 1] bridge2 bridge2_reachable) 1)|by vm_compute]. Defined.

(** A video subscriber that lists an audio codec first is refused, although its second codec could be transcoded to. *)
Theorem later_codecs_not_tried :
  let request := {| req_source := camera; subscriber_codecs := [Opus; H264]; network_quality := Good; allow_transcoding := true; hls_fallback_url := None;
                    target_width := 1280; target_height := 720; target_frames_per_second := 30; target_bitrate_bps := 1500000 |} in
  negotiate request = RejectCodecIncompatible /\ validate (transcode_to request H264) = Ok tt.
Proof. split; vm_compute; reflexivity. Qed.
