(* ===== verification/WorkerFences.v ===== *)
(** * services/media-worker: placement fences and their snapshots (src/main.rs, src/assignment_state.rs)

    A coordinator places a resource on a worker under a generation.  The worker accepts a generation once, remembers it in a
    snapshot file before it answers, and reads the newest snapshot back when it starts.  The directory of the snapshots is explicit state;
    the operating system is an environment of each call that decides which operations fail, and a call gives back every state of the
    directory on its way, where the process can die.  JSON is an interface. *)
From stdpp Require Import sorting.
From S2P Require Import Prelude Words Slices RustStd RustStr RustText.
From S2P Require SfuRuntime.
Import SfuRuntime (HashIteration, iter).

(** ** Data *)
Inductive JobState := Queued | Running | Succeeded (finished_at_millis : Z) | Failed (finished_at_millis : Z) (reason : bytes) | Stopped (finished_at_millis : Z).
Record Job := { job_id_ : Z; asset_id : bytes; created_at_millis : Z; job_state : JobState }.
Record LiveDestination := { track_id : Z; destination : SocketAddr }.
Inductive AssignmentResponse :=
| Vod (job_id : Z)
| Live (job_id : Z) (destinations : list LiveDestination)
| Realtime (job_id : Z) (source_destination : SocketAddr).
Definition job_id (r : AssignmentResponse) : Z := match r with Vod i | Live i _ | Realtime i _ => i end.
Record WorkerAssignment := { generation : Z; job_key : bytes; response : AssignmentResponse }.
Inductive AssignmentOutcome := Accepted (replaced_job_id : option Z) | Duplicate (r : AssignmentResponse).
Record FenceRecord := { fence_generation : Z; fence_job_key : bytes }.
Record FenceSnapshot := { revision : Z; records : gmap bytes FenceRecord }.
Definition default_snapshot : FenceSnapshot := {| revision := 0; records := ∅ |}.
Record AssignmentRegistry := { snapshot : FenceSnapshot; active : gmap bytes WorkerAssignment }.

(** An error is named by its code. *)
Inductive ApiError :=
| AssignmentStateInvalid
| AssignmentStateTooLarge
| AssignmentRevisionConflict
| AssignmentStateIoError
| StalePlacementGeneration (current : Z)
| PlacementGenerationConflict
| PlacementGenerationConsumed
| AssignmentRevisionExhausted
| PlacementResourceTypeConflict
| InvalidPlacementGeneration
| InvalidAssetId
| JobIdExhausted
| JobRegistryFull.

Class SnapshotJson := {
  to_vec : FenceSnapshot -> option bytes;
  from_slice : bytes -> option FenceSnapshot;
  from_to s b : to_vec s = Some b -> from_slice b = Some s }.

(** ** The directory *)
Inductive Entry := File (content : bytes) | Other.
Abbreviation Directory := (gmap bytes Entry) (only parsing).

(** What the operating system does during one call: the last field is the process identifier. *)
Record Os := {
  opens : bool;
  partial : bytes;
  writes : bool;
  renames : bool;
  removes : bytes -> bool;
  lists : bool;
  pid : Z }.

Definition MAX_FENCE_SNAPSHOT_BYTES : Z := 4 * 1024 * 1024.
(** [format!("{:020}")] *)
Definition padded (n : Z) : bytes := replicate (20 - length (show n)) 48 ++ show n.
Definition snapshot_name (revision : Z) : bytes := padded revision ++ octets ".json".
Definition temporary_name (revision pid : Z) : bytes := octets "." ++ padded revision ++ octets "." ++ show pid ++ octets ".tmp".

(** [Path::file_stem] and [Path::extension] of a file name: the text around the last dot, unless that is the first character. *)
Definition last_dot (name : bytes) : option (bytes * bytes) :=
  '(extension, stem) ← split_once 46 (reverse name);
  if len stem =? 0 then None else Some (reverse stem, reverse extension).
Definition file_stem (name : bytes) : bytes := match last_dot name with Some (stem, _) => stem | None => name end.
Definition extension (name : bytes) : option bytes := snd <$> last_dot name.

Definition is_ascii_digit (c : Z) : bool := in_range 48 57 c.
Definition fence_snapshot_revision (name : bytes) : option Z :=
  let stem := file_stem name in
  if (len stem =? 20) && forallb is_ascii_digit stem then
    r ← parse_int 64 stem;
    if 0 <? r then Some r else None
  else None.

Definition read_bounded_fence_snapshot (d : Directory) (name : bytes) : option bytes :=
  match d !! name with
  | Some (File content) => if len content <=? MAX_FENCE_SNAPSHOT_BYTES then Some content else None
  | _ => None
  end.

(** ** Identifiers *)
Definition is_identifier_byte (c : Z) : bool := in_range 48 57 c || in_range 65 90 c || in_range 97 122 c || (c =? 45) || (c =? 95).
Definition validate_identifier (value : bytes) : outcome ApiError unit :=
  reject_if ((len value =? 0) || (128 <? len value) || negb (forallb is_identifier_byte value)) InvalidAssetId.
Definition is_ok {E A} (o : outcome E A) : bool := match o with Ok _ => true | _ => false end.
Definition valid_record (kv : bytes * FenceRecord) : bool :=
  match split_once 58 kv.1 with
  | None => false
  | Some (kind, resource_id) =>
      (bool_decide (kind = octets "vod") || bool_decide (kind = octets "live") || bool_decide (kind = octets "realtime"))
      && is_ok (validate_identifier resource_id) && is_ok (validate_identifier (fence_job_key kv.2)) && (0 <? fence_generation kv.2)
  end.
Definition job_placement (resource_id : option bytes) (generation : option Z) (default_resource_id : bytes) : outcome ApiError (bytes * Z) :=
  let resource_id := default default_resource_id resource_id in
  _ ← validate_identifier resource_id;
  let generation := default 1 generation in
  if generation =? 0 then Err InvalidPlacementGeneration else Ok (resource_id, generation).

Section Worker.
Context {json : SnapshotJson} {iteration : HashIteration}.

Definition valid_fence_snapshot (s : FenceSnapshot) (file_revision : Z) : bool :=
  (revision s =? file_revision) && (Z.of_nat (size (records s)) <=? 50000) && forallb valid_record (iter (records s)).

(** ** Reading the newest snapshot; [readable] are the files that can be read.  A directory that cannot be listed ends the process. *)
Definition snapshot_in (readable : bytes -> bool) (d : Directory) (name : bytes) : option FenceSnapshot :=
  if negb (bool_decide (extension name = Some (octets "json"))) then None
  else
    file_revision ← fence_snapshot_revision name;
    content ← (if readable name then read_bounded_fence_snapshot d name else None);
    candidate ← from_slice content;
    if valid_fence_snapshot candidate file_revision then Some candidate else None.
Definition load_assignment_registry (readable : bytes -> bool) (d : Directory) : AssignmentRegistry :=
  let newest := foldl (fun s entry =>
    match snapshot_in readable d entry.1 with
    | Some candidate => if revision s <? revision candidate then candidate else s
    | None => s
    end) default_snapshot (iter d) in
  {| snapshot := newest; active := ∅ |}.

(** ** Writing a snapshot *)
Definition newer_first : relation (Z * bytes) := fun a b => b.1 <= a.1.
#[export] Instance newer_first_dec : RelDecision newer_first.
Proof. intros a b. unfold newer_first. apply _. Defined.
#[export] Instance newer_first_total : Total newer_first.
Proof. intros a b. unfold newer_first. lia. Qed.
#[export] Instance newer_first_trans : Transitive newer_first.
Proof. intros a b c. unfold newer_first. lia. Qed.
(** The older snapshots in the order in which they are removed. *)
Definition prunable (d : Directory) (current_revision : Z) : list bytes :=
  let snapshots := omap (fun entry => revision ← fence_snapshot_revision entry.1;
    if revision <=? current_revision then Some (revision, entry.1) else None) (iter d) in
  snd <$> drop 2 (merge_sort newer_first snapshots).
(** The states of the directory after each removal. *)
Fixpoint remove_files (os : Os) (names : list bytes) (d : Directory) : list Directory :=
  match names with
  | [] => []
  | name :: names => let d := if removes os name then delete name d else d in d :: remove_files os names d
  end.
Definition prune_fence_snapshots (os : Os) (d : Directory) (current_revision : Z) : list Directory :=
  if lists os then remove_files os (prunable d current_revision) d else [].

Definition remove_temporary (os : Os) (name : bytes) (d : Directory) : Directory := if removes os name then delete name d else d.
(** The directory after each operation, the last one at the end, and the result. *)
Definition persist_fence_snapshot (os : Os) (s : FenceSnapshot) (d : Directory) : list Directory * outcome ApiError unit :=
  match to_vec s with
  | None => ([], Err AssignmentStateInvalid)
  | Some content =>
      if MAX_FENCE_SNAPSHOT_BYTES <? len content then ([], Err AssignmentStateTooLarge)
      else
        let path := snapshot_name (revision s) in
        if bool_decide (is_Some (d !! path)) then
          ([], if bool_decide (read_bounded_fence_snapshot d path = Some content) then Ok tt else Err AssignmentRevisionConflict)
        else
          let temporary := temporary_name (revision s) (pid os) in
          if negb (opens os) then ([], Err AssignmentStateIoError)
          else
            let truncated := <[temporary := File []]> d in
            let half := <[temporary := File (partial os)]> d in
            if negb (writes os) then ([truncated; half; remove_temporary os temporary half], Err AssignmentStateIoError)
            else
              let written := <[temporary := File content]> d in
              if negb (renames os) then
                ([truncated; half; written; remove_temporary os temporary written],
                 if bool_decide (read_bounded_fence_snapshot written path = Some content) then Ok tt else Err AssignmentStateIoError)
              else
                let renamed := <[path := File content]> (delete temporary written) in
                ([truncated; half; written; renamed] ++ prune_fence_snapshots os renamed (revision s), Ok tt)
  end.

(** ** Accepting a placement *)
Definition assignment_id (kind resource_id : bytes) : bytes := kind ++ [58] ++ resource_id.
Definition refused_by_active (current : WorkerAssignment) (g : Z) (key : bytes) : option (outcome ApiError AssignmentOutcome) :=
  if g <? generation current then Some (Err (StalePlacementGeneration (generation current)))
  else if g =? generation current then
    Some (if bool_decide (job_key current = key) then Ok (Duplicate (response current)) else Err PlacementGenerationConflict)
  else None.
Definition refused_by_fence (fence : FenceRecord) (g : Z) : option (outcome ApiError AssignmentOutcome) :=
  if g <? fence_generation fence then Some (Err (StalePlacementGeneration (fence_generation fence)))
  else if g =? fence_generation fence then Some (Err PlacementGenerationConsumed) else None.
Definition fenced (id : bytes) (g : Z) (key : bytes) (s : FenceSnapshot) (revision : Z) : FenceSnapshot :=
  {| revision := revision; records := <[id := {| fence_generation := g; fence_job_key := key |}]> (records s) |}.

(** The registry and the directory are the state; the first part of the result lists the directory on its way. *)
Definition commit_assignment (os : Os) (kind resource_id : bytes) (g : Z) (key : bytes) (r : AssignmentResponse) (self : AssignmentRegistry) (d : Directory)
    : list Directory * AssignmentRegistry * outcome ApiError AssignmentOutcome :=
  let id := assignment_id kind resource_id in
  match (current ← active self !! id; refused_by_active current g key) with
  | Some answer => ([], self, answer)
  | None =>
      match (fence ← records (snapshot self) !! id; refused_by_fence fence g) with
      | Some answer => ([], self, answer)
      | None =>
          match checked_add 64 (revision (snapshot self)) 1 with
          | None => ([], self, Err AssignmentRevisionExhausted)
          | Some next =>
              let next_snapshot := fenced id g key (snapshot self) next in
              match persist_fence_snapshot os next_snapshot d with
              | (visited, Ok _) =>
                  (visited, {| snapshot := next_snapshot; active := <[id := {| generation := g; job_key := key; response := r |}]> (active self) |},
                   Ok (Accepted ((fun a => job_id (response a)) <$> active self !! id)))
              | (visited, Err e) => (visited, self, Err e)
              | (visited, Panic) => (visited, self, Panic)
              | (visited, Diverge) => (visited, self, Diverge)
              end
          end
      end
  end.
End Worker.

(** ** Jobs *)
Definition MAX_JOBS_RETAINED : Z := 10000.
Record AppState := { jobs : gmap Z Job; next_job_id : Z; cancellations : gset Z }.
Definition set_jobs (j : gmap Z Job) (s : AppState) : AppState := {| jobs := j; next_job_id := next_job_id s; cancellations := cancellations s |}.
Definition set_cancellations (c : gset Z) (s : AppState) : AppState := {| jobs := jobs s; next_job_id := next_job_id s; cancellations := c |}.

Definition allocate_job_id : prog AppState ApiError Z :=
  id ← gets next_job_id;
  _ ← modify (fun s => {| jobs := jobs s; next_job_id := wrapping_add 64 id 1; cancellations := cancellations s |});
  if id =? umax 64 then fail JobIdExhausted else mret id.
Definition insert_job (now : Z) (id : Z) (asset : bytes) : prog AppState ApiError unit :=
  s ← gets (fun s => s);
  _ ← lift (reject_if (MAX_JOBS_RETAINED <=? Z.of_nat (size (jobs s))) JobRegistryFull);
  modify (fun s => set_jobs (<[id := {| job_id_ := id; asset_id := asset; created_at_millis := now; job_state := Queued |}]> (jobs s)) s).
Definition remove_job (id : Z) (s : AppState) : AppState := set_jobs (delete id (jobs s)) s.
(** [set_state]; [set_failed] keeps 512 characters of its reason. *)
Definition set_job_state (id : Z) (state : JobState) (s : AppState) : AppState :=
  set_jobs (alter (fun job => {| job_id_ := job_id_ job; asset_id := asset_id job; created_at_millis := created_at_millis job; job_state := state |}) id (jobs s)) s.
Definition finish_job_task (id : Z) (s : AppState) : AppState := set_cancellations (cancellations s ∖ {[id]}) s.
(** The job that was told to stop, if it still runs. *)
Definition cancel_replaced_job (id : option Z) (s : AppState) : AppState * option Z :=
  match id with
  | Some id => if bool_decide (id ∈ cancellations s) then (set_cancellations (cancellations s ∖ {[id]}) s, Some id) else (s, None)
  | None => (s, None)
  end.
