(* ===== verification/WorkerFencesSafety.v ===== *)
(** * services/media-worker: fences survive restarts

    Names of snapshot files; the newest snapshot of a directory; every state of the directory on the way of a commit; histories with
    crashes. *)
From stdpp Require Import fin_maps sorting.
From S2P Require Import Prelude Words Slices RustStd RustStr RustText WorkerFences.
From S2P Require SfuRuntime SfuRuntimeSteps.
Import SfuRuntime (HashIteration, iter, iter_perm).

(** ** File names *)
Lemma digits_value_unique w a b l m v : 0 <= a -> 0 <= b -> length l = length m -> Forall (fun c => is_ascii_digit c = true) l -> Forall (fun c => is_ascii_digit c = true) m ->
  digits_value w 10 a l = Some v -> digits_value w 10 b m = Some v -> a = b /\ l = m.
Proof.
  revert a b m. induction l as [|c l IH]; intros a b [|e m] Ha Hb Hlen Hl Hm; try discriminate Hlen.
  { cbn. intros [= ->] [= ->]. done. }
  apply Forall_cons in Hl as [Hc Hl]. apply Forall_cons in Hm as [He Hm]. cbn [digits_value]. intros H1 H2.
  apply bind_Some in H1 as (x & [-> _]%checked_mul_Some & H1). apply bind_Some in H1 as (d & Hd & H1). apply bind_Some in H1 as (y & [-> _]%checked_add_Some & H1).
  apply bind_Some in H2 as (x & [-> _]%checked_mul_Some & H2). apply bind_Some in H2 as (d' & Hd' & H2). apply bind_Some in H2 as (y & [-> _]%checked_add_Some & H2).
  assert (forall z q, is_ascii_digit z = true -> to_digit 10 z = Some q -> q = z - 48 /\ 0 <= q < 10) as Hdig.
  { intros z q Hz. unfold is_ascii_digit, in_range in Hz. unfold to_digit. replace ((48 <=? z) && (z <=? 57)) with true by lia. cbn [mbind option_bind]. case_match; [|done]. intros [= <-]. lia. }
  apply Hdig in Hd as [-> Hd]; [|done]. apply Hdig in Hd' as [-> Hd']; [|done]. cbn in Hlen. destruct (IH (a * 10 + (c - 48)) (b * 10 + (e - 48)) m) as [E ->]; try done; [lia..|].
  split; [lia|]. f_equal. lia.
Qed.

Lemma decimal_length fuel n k : 0 <= n < 10 ^ Z.of_nat k -> (length (decimal fuel n) <= S k)%nat /\ ((0 < k)%nat -> (length (decimal fuel n) <= k)%nat).
Proof.
  revert n k. induction fuel as [|fuel IH]; intros n k Hn; [cbn; lia|]. cbn [decimal]. destruct (Z.ltb_spec n 10); [cbn; lia|]. rewrite length_app. cbn [length].
  destruct k as [|k]; [cbn in Hn; lia|]. assert (0 <= n / 10 < 10 ^ Z.of_nat k) as Hd.
  { split; [apply Z.div_pos; lia|]. apply Z.div_lt_upper_bound; [lia|]. rewrite Nat2Z.inj_succ, Z.pow_succ_r in Hn by lia. lia. }
  destruct (IH (n / 10) k Hd) as [H1 H2]. destruct k as [|k]; [cbn in Hd; assert (n / 10 >= 1) by (apply Z.le_ge, Z.div_le_lower_bound; lia); lia|]. specialize (H2 ltac:(lia)). lia.
Qed.
Lemma padded_spec n : u64 n -> length (padded n) = 20%nat /\ Forall (fun c => is_ascii_digit c = true) (padded n) /\ parse_int 64 (padded n) = Some n.
Proof.
  intros Hn. assert (length (show n) <= 20)%nat as Hl.
  { unfold show. apply (decimal_length 39 n 20); [|lia]. unfold fits in Hn. split; [lia|]. change (10 ^ Z.of_nat 20) with 100000000000000000000. lia. }
  assert (Forall (fun c => is_ascii_digit c = true) (show n)) as Hd.
  { eapply Forall_impl; [apply (decimal_digits 39 n), Hn|]. intros c Hc. cbn in Hc. unfold is_ascii_digit, in_range. lia. }
  unfold padded. split_and!.
  - rewrite length_app, length_replicate. lia.
  - apply Forall_app. split; [by apply Forall_replicate|done].
  - assert (forall k, digits_value 64 10 0 (replicate k 48 ++ show n) = digits_value 64 10 0 (show n)) as Hz.
    { induction k as [|k IH]; [done|]. exact IH. }
    assert (digits_value 64 10 0 (show n) = Some n) as Hv.
    { unfold show. apply digits_value_decimal; [|unfold umax; unfold fits in Hn; lia]. unfold fits in Hn. split; [lia|].
      change (10 ^ Z.of_nat 39) with 1000000000000000000000000000000000000000. lia. }
    unfold parse_int, from_str_radix. rewrite <- (Hz (20 - length (show n))%nat) in Hv. destruct (replicate _ 48 ++ show n) as [|c l] eqn:E.
    + exfalso. apply (f_equal length) in E. rewrite length_app, length_replicate in E. cbn in E. lia.
    + assert (is_ascii_digit c = true) as Hc.
      { assert (c ∈ c :: l) as Hin by left. rewrite <- E in Hin. apply elem_of_app in Hin as [Hin|Hin]; [by apply elem_of_replicate in Hin as [-> _]|]. rewrite Forall_forall in Hd. by apply Hd. }
      unfold is_ascii_digit, in_range in Hc. replace ((c =? 0x2b) || (c =? 0x2d)) with false by lia. exact Hv.
Qed.

Lemma last_dot_app stem ext : stem <> [] -> 46 ∉ ext -> last_dot (stem ++ 46 :: ext) = Some (stem, ext).
Proof.
  intros Hs He. unfold last_dot. rewrite reverse_app, reverse_cons, <- app_assoc. cbn [app].
  rewrite (proj2 (split_once_Some 46 _ (reverse ext) (reverse stem))) by (split; [done|by rewrite elem_of_reverse]). cbn [mbind option_bind].
  destruct (Z.eqb_spec (len (reverse stem)) 0) as [Hz|_]; [|by rewrite !reverse_involutive].
  apply len_zero_nil in Hz. by apply (f_equal reverse) in Hz; rewrite reverse_involutive in Hz.
Qed.
Lemma last_dot_Some name stem ext : last_dot name = Some (stem, ext) -> name = stem ++ 46 :: ext.
Proof.
  unfold last_dot. intros H. apply bind_Some in H as ([e s] & H & E). apply split_once_Some in H as [H _]. case_match; [done|]. injection E as <- <-.
  by rewrite <- (reverse_involutive name), H, reverse_app, reverse_cons, <- app_assoc.
Qed.

Lemma snapshot_name_parts r : u64 r -> 0 < r -> file_stem (snapshot_name r) = padded r /\ extension (snapshot_name r) = Some (octets "json") /\
  fence_snapshot_revision (snapshot_name r) = Some r.
Proof.
  intros Hr H0. destruct (padded_spec r Hr) as (Hl & Hd & Hp). assert (last_dot (snapshot_name r) = Some (padded r, octets "json")) as Hld.
  { unfold snapshot_name. change (octets ".json") with (46 :: octets "json"). apply last_dot_app; [by destruct (padded r)|]. by apply (bool_decide_unpack (46 ∉ octets "json")). }
  unfold fence_snapshot_revision, file_stem, extension. rewrite Hld. split_and!; [done|done|]. cbv zeta. unfold len. rewrite Hl.
  assert (forallb is_ascii_digit (padded r) = true) as ->; [|rewrite Hp; cbn; by replace (0 <? r) with true by lia].
  apply forallb_forall. intros c Hc%list_elem_of_In. rewrite Forall_forall in Hd. by apply Hd.
Qed.
Lemma revision_Some name r : fence_snapshot_revision name = Some r -> u64 r /\ 0 < r /\ file_stem name = padded r.
Proof.
  unfold fence_snapshot_revision. cbv zeta. destruct (_ && _) eqn:Hs; [|done]. apply andb_true_iff in Hs as [Hl Hd]. intros H. apply bind_Some in H as (v & Hv & E).
  case_match; [|done]. injection E as ->. assert (Forall (fun c => is_ascii_digit c = true) (file_stem name)) as Hd'.
  { apply Forall_forall. intros c Hc. rewrite forallb_forall in Hd. by apply Hd, list_elem_of_In. }
  assert (digits_value 64 10 0 (file_stem name) = Some r) as Hdv.
  { unfold parse_int, from_str_radix in Hv. destruct (file_stem name) as [|c l]; [done|]. apply Forall_cons in Hd' as [Hc _]. unfold is_ascii_digit, in_range in Hc.
    by replace ((c =? 0x2b) || (c =? 0x2d)) with false in Hv by lia. }
  assert (u64 r) as Hr by (eapply (digits_value_fits 64 10 0); [lia..| |exact Hdv]; unfold fits; lia). split_and!; [done|lia|].
  destruct (padded_spec r Hr) as (Hpl & Hpd & Hpp). apply (digits_value_unique 64 0 0 (file_stem name) (padded r) r); try done.
  - unfold len in Hl. lia.
  - unfold parse_int, from_str_radix in Hpp. destruct (padded r) as [|c l]; [done|]. apply Forall_cons in Hpd as [Hc _]. unfold is_ascii_digit, in_range in Hc.
    by replace ((c =? 0x2b) || (c =? 0x2d)) with false in Hpp by lia.
Qed.
Lemma json_name name r : fence_snapshot_revision name = Some r -> extension name = Some (octets "json") -> name = snapshot_name r.
Proof.
  intros (_ & _ & Hs)%revision_Some He. unfold extension, file_stem in *. destruct (last_dot name) as [[stem ext]|] eqn:E; [|done]. cbn in He. injection He as ->.
  apply last_dot_Some in E as ->. by rewrite Hs.
Qed.
Lemma temporary_not_snapshot r pid : u64 pid -> fence_snapshot_revision (temporary_name r pid) = None.
Proof.
  intros Hpid. unfold fence_snapshot_revision, file_stem. assert (last_dot (temporary_name r pid) = Some (octets "." ++ padded r ++ octets "." ++ show pid, octets "tmp")) as ->.
  { unfold temporary_name. replace (octets "." ++ padded r ++ octets "." ++ show pid ++ octets ".tmp") with ((octets "." ++ padded r ++ octets "." ++ show pid) ++ 46 :: octets "tmp") by (by rewrite <- !app_assoc).
    apply last_dot_app; [done|]. by apply (bool_decide_unpack (46 ∉ octets "tmp")). }
  cbv zeta. cbn [app octets]. change (forallb is_ascii_digit (octets "." ++ padded r ++ octets "." ++ show pid)) with false. by rewrite andb_false_r.
Qed.

Section Directories.
Context {json : SnapshotJson} {iteration : HashIteration}.
Implicit Types d : gmap bytes Entry.

(** ** The newest snapshot of a directory *)
Definition all (name : bytes) : bool := true.
Definition tidy d : Prop := forall name r, is_Some (d !! name) -> fence_snapshot_revision name = Some r -> name = snapshot_name r.
Record newest d (s : FenceSnapshot) : Prop := {
  ne_max name c : snapshot_in all d name = Some c -> revision c <= revision s;
  ne_here : s = default_snapshot \/ snapshot_in all d (snapshot_name (revision s)) = Some s }.

Lemma snapshot_in_Some d name c : snapshot_in all d name = Some c -> exists content, d !! name = Some (File content) /\ len content <= MAX_FENCE_SNAPSHOT_BYTES /\
  from_slice content = Some c /\ valid_fence_snapshot c (revision c) = true /\ fence_snapshot_revision name = Some (revision c) /\ name = snapshot_name (revision c).
Proof.
  unfold snapshot_in. case_bool_decide as He; [|done]. cbn [negb all]. intros H. apply bind_Some in H as (r & Hr & H). apply bind_Some in H as (content & Hc & H).
  apply bind_Some in H as (x & Hx & H). destruct (valid_fence_snapshot x r) eqn:Hv; [|done]. injection H as ->. unfold read_bounded_fence_snapshot in Hc.
  destruct (d !! name) as [[content'|]|]; [|done..]. destruct (Z.leb_spec (len content') MAX_FENCE_SNAPSHOT_BYTES); [|done]. injection Hc as ->.
  assert (revision c = r) as <- by (unfold valid_fence_snapshot in Hv; lia). exists content. split_and!; try done. by apply json_name.
Qed.
Lemma snapshot_in_here d c content : u64 (revision c) -> 0 < revision c -> d !! snapshot_name (revision c) = Some (File content) -> len content <= MAX_FENCE_SNAPSHOT_BYTES ->
  from_slice content = Some c -> valid_fence_snapshot c (revision c) = true -> snapshot_in all d (snapshot_name (revision c)) = Some c.
Proof.
  intros Hr H0 Hd Hl Hf Hv. destruct (snapshot_name_parts (revision c) Hr H0) as (_ & He & Hrev). unfold snapshot_in. rewrite bool_decide_eq_true_2 by done. cbn [negb all].
  rewrite Hrev. cbn [mbind option_bind]. unfold read_bounded_fence_snapshot. rewrite Hd. replace (len content <=? MAX_FENCE_SNAPSHOT_BYTES) with true by lia. cbn [mbind option_bind].
  by rewrite Hf; cbn [mbind option_bind]; rewrite Hv.
Qed.
Lemma newest_unique d s s' : 0 <= revision s -> 0 <= revision s' -> newest d s -> newest d s' -> s = s'.
Proof.
  intros H0 H0' [N1 [->|N2]] [N1' [->|N2']]; [done|..].
  - pose proof (N1 _ _ N2'). cbn in *. destruct (snapshot_in_Some _ _ _ N2') as (_ & _ & _ & _ & _ & (_ & Hp & _)%revision_Some & _). lia.
  - pose proof (N1' _ _ N2). cbn in *. destruct (snapshot_in_Some _ _ _ N2) as (_ & _ & _ & _ & _ & (_ & Hp & _)%revision_Some & _). lia.
  - pose proof (N1 _ _ N2'). pose proof (N1' _ _ N2). assert (revision s = revision s') as E by lia. rewrite E in N2. congruence.
Qed.

Lemma load_newest d : newest d (snapshot (load_assignment_registry all d)).
Proof.
  unfold load_assignment_registry. cbn [snapshot]. set (f := fun s (entry : bytes * Entry) => match snapshot_in all d entry.1 with Some c => if revision s <? revision c then c else s | None => s end).
  assert (forall l s, (s = default_snapshot \/ snapshot_in all d (snapshot_name (revision s)) = Some s) ->
    let s' := foldl f s l in (s' = default_snapshot \/ snapshot_in all d (snapshot_name (revision s')) = Some s') /\ revision s <= revision s' /\
    (forall e c, e ∈ l -> snapshot_in all d e.1 = Some c -> revision c <= revision s')) as Hfold.
  { induction l as [|e l IH]; intros s Hs; cbn [foldl]; [split_and!; [done|lia|by intros e c ?%not_elem_of_nil]|].
    assert ((f s e = default_snapshot \/ snapshot_in all d (snapshot_name (revision (f s e))) = Some (f s e)) /\ revision s <= revision (f s e) /\
      (forall c, snapshot_in all d e.1 = Some c -> revision c <= revision (f s e))) as (F1 & F2 & F3).
    { unfold f. destruct (snapshot_in all d e.1) as [c|] eqn:E; [|split_and!; [done|lia|done]]. destruct (Z.ltb_spec (revision s) (revision c)).
      - split_and!; [right|lia|intros x [= ->]; lia]. destruct (snapshot_in_Some _ _ _ E) as (_ & _ & _ & _ & _ & _ & En). by rewrite <- En.
      - split_and!; [done|lia|intros x [= ->]; lia]. }
    destruct (IH (f s e) F1) as (I1 & I2 & I3). split_and!; [done|lia|]. intros e' c [->|Hin]%elem_of_cons Hc; [specialize (F3 c Hc); lia|by eapply I3]. }
  destruct (Hfold (iter d) default_snapshot (or_introl eq_refl)) as (H1 & _ & H3). split; [|done]. intros name c Hc.
  destruct (snapshot_in_Some _ _ _ Hc) as (content & Hd & _). apply (H3 (name, File content)); [|done]. by rewrite (iter_perm d), elem_of_map_to_list.
Qed.
Lemma load_spec d s : 0 <= revision s -> newest d s -> load_assignment_registry all d = {| snapshot := s; active := ∅ |}.
Proof.
  intros H0 Hs. pose proof (load_newest d) as Hl. assert (0 <= revision (snapshot (load_assignment_registry all d))) as Hp.
  { destruct (ne_here _ _ Hl) as [->|H]; [done|]. destruct (snapshot_in_Some _ _ _ H) as (_ & _ & _ & _ & _ & (_ & Hp & _)%revision_Some & _). lia. }
  pose proof (newest_unique d _ _ Hp H0 Hl Hs) as E. unfold load_assignment_registry in *. cbn [snapshot] in E. by rewrite E.
Qed.

(** Files that are not snapshots, and older snapshots, do not matter. *)
Lemma snapshot_in_local d d' name : d !! name = d' !! name -> snapshot_in all d name = snapshot_in all d' name.
Proof. intros E. unfold snapshot_in, read_bounded_fence_snapshot. by rewrite E. Qed.
Lemma newest_other d d' s : newest d s -> (forall name, is_Some (fence_snapshot_revision name) -> d' !! name = d !! name \/ (d' !! name = None /\ name <> snapshot_name (revision s))) ->
  newest d' s.
Proof.
  intros [N1 N2] Hd. split.
  - intros name c Hc. destruct (snapshot_in_Some _ _ _ Hc) as (content & Hl & _ & _ & _ & Hr & _). destruct (Hd name) as [E|[E _]]; [by eexists| |congruence].
    apply (N1 name). by rewrite <- (snapshot_in_local d' d).
  - destruct N2 as [->|H]; [by left|right]. destruct (snapshot_in_Some _ _ _ H) as (content & Hl & _ & _ & _ & Hr & _). destruct (Hd (snapshot_name (revision s))) as [E|[_ E]]; [by eexists| |done].
    by rewrite (snapshot_in_local d' d).
Qed.
Lemma newest_delete d s name : newest d s -> name <> snapshot_name (revision s) -> newest (delete name d) s.
Proof.
  intros Hn Hne. apply (newest_other d); [done|]. intros x _. destruct (decide (x = name)) as [->|Hx]; [right; by rewrite lookup_delete_eq|left; by rewrite lookup_delete_ne].
Qed.
Lemma tidy_delete d name : tidy d -> tidy (delete name d).
Proof. intros Ht x r [e He] Hr. apply lookup_delete_Some in He as [_ He]. apply Ht; [by eexists|done]. Qed.
Definition not_snapshot (name : bytes) : Prop := fence_snapshot_revision name = None.
Lemma insert_other d s name e : not_snapshot name -> newest d s -> tidy d -> newest (<[name := e]> d) s /\ tidy (<[name := e]> d).
Proof.
  intros Hn Hs Ht. split.
  - apply (newest_other d); [done|]. intros x [r Hx]. left. rewrite lookup_insert_ne; [done|]. intros ->. unfold not_snapshot in Hn. congruence.
  - intros x r Hx Hr. apply Ht; [|done]. rewrite lookup_insert_ne in Hx; [done|]. intros ->. unfold not_snapshot in Hn. congruence.
Qed.
Lemma newest_insert d s c content : newest d s -> tidy d -> 0 <= revision s < revision c -> u64 (revision c) -> len content <= MAX_FENCE_SNAPSHOT_BYTES ->
  from_slice content = Some c -> valid_fence_snapshot c (revision c) = true ->
  newest (<[snapshot_name (revision c) := File content]> d) c /\ tidy (<[snapshot_name (revision c) := File content]> d).
Proof.
  intros [N1 N2] Ht Hlt Hr Hl Hf Hv. assert (snapshot_in all (<[snapshot_name (revision c) := File content]> d) (snapshot_name (revision c)) = Some c) as Hhere.
  { apply (snapshot_in_here _ _ content); try done; [lia|by rewrite lookup_insert_eq]. }
  split; [split; [|by right]|].
  - intros name x Hx. destruct (decide (name = snapshot_name (revision c))) as [->|Hne]; [rewrite Hhere in Hx; injection Hx as <-; lia|].
    rewrite (snapshot_in_local _ d) in Hx by (by rewrite lookup_insert_ne). apply N1 in Hx. lia.
  - intros x r Hx Hrx. destruct (decide (x = snapshot_name (revision c))) as [->|Hne].
    + destruct (snapshot_name_parts (revision c) Hr ltac:(lia)) as (_ & _ & E). congruence.
    + rewrite lookup_insert_ne in Hx by done. by apply Ht.
Qed.

(** ** Pruning keeps the newest snapshot *)
Lemma NoDup_omap {A B} (f : A -> option B) (l : list A) : NoDup l -> (forall x y z, x ∈ l -> y ∈ l -> f x = Some z -> f y = Some z -> x = y) -> NoDup (omap f l).
Proof.
  induction 1 as [|x l Hx Hl IH]; intros Hinj; [constructor|]. cbn. destruct (f x) as [z|] eqn:Hf.
  - constructor; [|apply IH; intros; apply (Hinj _ _ z0); by try (right; done)]. intros (y & Hy & Hfy)%list_elem_of_omap.
    apply Hx. rewrite (Hinj x y z); [done|left|by right|done|done].
  - apply IH. intros u v w Hu Hv. apply Hinj; by right.
Qed.
Lemma prunable_older d r : tidy d -> u64 r -> 0 < r -> snapshot_name r ∉ prunable d r.
Proof.
  intros Ht Hr H0 Hin. unfold prunable in Hin. cbv zeta in Hin. set (f := fun entry : bytes * Entry => _) in Hin. set (l := omap f (iter d)) in Hin.
  assert (forall x, x ∈ l -> exists e, (x.2, e) ∈ iter d /\ fence_snapshot_revision x.2 = Some x.1 /\ x.1 <= r) as Hl.
  { intros x (e & He & Hf)%list_elem_of_omap. unfold f in Hf. apply bind_Some in Hf as (v & Hv & Hf). destruct (Z.leb_spec v r); [|done]. injection Hf as <-. exists e.2. cbn. split_and!; [by destruct e|done|done]. }
  assert (NoDup l) as Hnd.
  { apply NoDup_omap; [rewrite (iter_perm d); apply NoDup_map_to_list|]. intros [k e] [k' e'] z Hk Hk' Hf Hf'. unfold f in *. cbn in *.
    apply bind_Some in Hf as (v & _ & Hf). apply bind_Some in Hf' as (v' & _ & Hf'). case_match; [|done]. case_match; [|done]. simplify_eq.
    rewrite (iter_perm d), elem_of_map_to_list in Hk, Hk'. congruence. }
  apply list_elem_of_fmap in Hin as (x & Ex & Hx). pose proof (StronglySorted_merge_sort newer_first l) as Hs. pose proof (merge_sort_Permutation newer_first l) as Hp.
  destruct (merge_sort newer_first l) as [|a rest] eqn:E; [by apply not_elem_of_nil in Hx|]. cbn [drop] in Hx.
  assert (x ∈ rest) as Hxr by (destruct rest; [by apply not_elem_of_nil in Hx|right; exact Hx]).
  apply StronglySorted_inv in Hs as [_ Hs]. rewrite Forall_forall in Hs. specialize (Hs x Hxr). unfold newer_first in Hs.
  assert (a ∈ l /\ x ∈ l) as [Ha Hxl] by (rewrite <- Hp; split; [left|by right]). destruct (Hl a Ha) as (e & He & Hra & Hle). destruct (Hl x Hxl) as (_ & _ & Hrx & _).
  rewrite <- Ex in Hrx. destruct (snapshot_name_parts r Hr H0) as (_ & _ & Er). assert (x.1 = r) as Exr by congruence. assert (a.1 = r) as Ear by lia.
  assert (a.2 = snapshot_name r) as Ean. { rewrite Ear in Hra. apply Ht; [|done]. rewrite (iter_perm d), elem_of_map_to_list in He. by eexists. }
  assert (a = x) as -> by (destruct a, x; cbn in *; congruence). rewrite <- Hp in Hnd. by apply NoDup_cons in Hnd as [? _].
Qed.
Lemma remove_files_keep os names d s : newest d s -> tidy d -> snapshot_name (revision s) ∉ names ->
  Forall (fun d' => newest d' s /\ tidy d') (remove_files os names d).
Proof.
  revert d. induction names as [|name names IH]; intros d Hn Ht Hin; [constructor|]. apply not_elem_of_cons in Hin as [Hne Hin]. cbn [remove_files].
  assert (newest (if removes os name then delete name d else d) s /\ tidy (if removes os name then delete name d else d)) as [Hn' Ht'].
  { case_match; [|done]. split; [apply newest_delete; [done|congruence]|by apply tidy_delete]. }
  constructor; [done|]. by apply IH.
Qed.

(** ** Every state of the directory on the way of a write *)
Definition final d (visited : list (gmap bytes Entry)) : gmap bytes Entry := List.last visited d.
Lemma final_Forall (P : gmap bytes Entry -> Prop) d visited : P d -> Forall P visited -> P (final d visited).
Proof.
  intros Hd Hv. unfold final. revert d Hd. induction Hv as [|x l Hx _ IH]; intros d Hd; [done|]. cbn [List.last]. destruct l; [done|]. by apply IH.
Qed.
Lemma final_app d visited x : final d (visited ++ [x]) = x.
Proof. unfold final. apply last_last. Qed.

Definition between (s c : FenceSnapshot) d : Prop := tidy d /\ (newest d s \/ newest d c).
Lemma persist_cases os s c d visited res : newest d s -> tidy d -> 0 <= revision s < revision c -> u64 (revision c) -> u64 (pid os) -> valid_fence_snapshot c (revision c) = true ->
  persist_fence_snapshot os c d = (visited, res) ->
  Forall (between s c) visited /\ tidy (final d visited) /\
  match res with Ok _ => newest (final d visited) c | Err _ => newest (final d visited) s | _ => False end.
Proof.
  intros Hn Ht Hlt Hr Hpid Hv. unfold persist_fence_snapshot. destruct (to_vec c) as [content|] eqn:Hto; [|intros [= <- <-]; done]. pose proof (from_to c content Hto) as Hfrom.
  destruct (Z.ltb_spec MAX_FENCE_SNAPSHOT_BYTES (len content)); [intros [= <- <-]; done|]. cbv zeta. set (path := snapshot_name (revision c)). set (tmp := temporary_name (revision c) (pid os)).
  assert (not_snapshot tmp) as Htmp by (by apply temporary_not_snapshot). destruct (snapshot_name_parts (revision c) Hr ltac:(lia)) as (_ & _ & Erev).
  assert (tmp <> path) as Hne by (intros E; unfold not_snapshot in Htmp; rewrite E in Htmp; unfold path in Htmp; congruence).
  case_bool_decide as Hex.
  { intros [= <- <-]. split; [done|]. split; [done|]. case_bool_decide as Hsame; [|done]. exfalso. unfold read_bounded_fence_snapshot in Hsame.
    destruct (d !! path) as [[x|]|] eqn:Hd; [|done..]. destruct (len x <=? MAX_FENCE_SNAPSHOT_BYTES) eqn:Hlx; [|done]. injection Hsame as ->.
    pose proof (ne_max _ _ Hn path c (snapshot_in_here d c content Hr ltac:(lia) Hd ltac:(lia) Hfrom Hv)). lia. }
  destruct (opens os); cbn [negb]; [|intros [= <- <-]; done].
  assert (forall e, between s c (<[tmp := e]> d)) as Hb by (intros e; destruct (insert_other d s tmp e Htmp Hn Ht); split; [done|by left]).
  assert (forall e, newest (remove_temporary os tmp (<[tmp := e]> d)) s /\ tidy (remove_temporary os tmp (<[tmp := e]> d))) as Hrm.
  { intros e. destruct (insert_other d s tmp e Htmp Hn Ht) as [Hn' Ht']. unfold remove_temporary. case_match; [|done]. split; [|by apply tidy_delete].
    apply (newest_other d); [done|]. intros x [r Hx]. left. assert (x <> tmp) by (intros ->; unfold not_snapshot in Htmp; congruence). by rewrite lookup_delete_ne, lookup_insert_ne by congruence. }
  assert (forall e, between s c (remove_temporary os tmp (<[tmp := e]> d))) as Hrb by (intros e; destruct (Hrm e); split; [done|by left]).
  destruct (writes os); cbn [negb]; [|intros [= <- <-]; split; [rewrite !Forall_cons; split_and!; auto|]; split; cbn [final List.last]; apply Hrm].
  destruct (renames os); cbn [negb].
  - assert (delete tmp (<[tmp := File content]> d) = delete tmp d) as -> by apply delete_insert_eq.
    assert (newest (delete tmp d) s /\ tidy (delete tmp d)) as [Hn1 Ht1].
    { split; [|by apply tidy_delete]. apply (newest_other d); [done|]. intros x [r Hx]. left. rewrite lookup_delete_ne; [done|]. intros ->. unfold not_snapshot in Htmp. congruence. }
    destruct (newest_insert (delete tmp d) s c content Hn1 Ht1 Hlt Hr ltac:(lia) Hfrom Hv) as [Hn2 Ht2]. fold path in Hn2, Ht2. set (renamed := <[path := File content]> (delete tmp d)) in *.
    intros [= <- <-]. assert (Forall (fun d' => newest d' c /\ tidy d') (prune_fence_snapshots os renamed (revision c))) as Hprune.
    { unfold prune_fence_snapshots. destruct (lists os); [|done]. apply remove_files_keep; [done|done|]. by apply prunable_older; [..|lia]. }
    assert (forall pre, final d (pre ++ renamed :: prune_fence_snapshots os renamed (revision c)) = final renamed (prune_fence_snapshots os renamed (revision c))) as Hfin.
    { intros pre. unfold final. induction pre as [|x pre IH]; cbn [app List.last].
      - generalize (prune_fence_snapshots os renamed (revision c)). intros l. destruct l; [done|]. revert g. induction l as [|y l IHl]; intros g; [done|]. cbn [List.last] in *. apply IHl.
      - destruct (pre ++ _) eqn:Ep; [by destruct pre|]. exact IH. }
    pose proof (Hfin [<[tmp := File []]> d; <[tmp := File (partial os)]> d; <[tmp := File content]> d]) as Hfin'. cbn [app] in *.
    rewrite Hfin'. split; [|apply (final_Forall (fun d' => tidy d' /\ newest d' c)); [done|eapply Forall_impl; [exact Hprune|by intros ? []]]].
    rewrite !Forall_cons. split_and!; [auto..|split; [done|by right]|]. eapply Forall_impl; [exact Hprune|]. intros x [? ?]. split; [done|by right].
  - intros [= <- <-]. split; [rewrite !Forall_cons; split_and!; auto|]. split; [cbn [final List.last]; apply Hrm|]. rewrite bool_decide_eq_false_2; [cbn [final List.last]; apply Hrm|].
    unfold read_bounded_fence_snapshot. rewrite lookup_insert_ne by done. destruct (d !! path) eqn:Hd; [|done]. exfalso. apply Hex. by eexists.
Qed.
End Directories.

(** * services/media-worker: no placement generation is accepted twice

    Histories of commits, crashes in the middle of a commit, and restarts. *)

Section Histories.
Context {json : SnapshotJson} {iteration : HashIteration}.
Implicit Types d : gmap bytes Entry.

(** What the handlers have checked before they commit. *)
Record placement_ok (kind resource_id : bytes) (g : Z) (key : bytes) : Prop := {
  po_kind : kind = octets "vod" \/ kind = octets "live" \/ kind = octets "realtime";
  po_resource : validate_identifier resource_id = Ok tt;
  po_key : validate_identifier key = Ok tt;
  po_generation : 0 < g }.

Definition room_for (id : bytes) (s : FenceSnapshot) : Prop := is_Some (records s !! id) \/ Z.of_nat (size (records s)) < 50000.

(** [history] are the accepted placements, the latest first. *)
Inductive worker : list (bytes * Z) -> AssignmentRegistry -> gmap bytes Entry -> Prop :=
| worker_started d : tidy d -> worker [] (load_assignment_registry all d) d
| worker_committed history self d os kind resource_id g key r visited self' result : worker history self d -> u64 (pid os) ->
    placement_ok kind resource_id g key -> room_for (assignment_id kind resource_id) (snapshot self) ->
    commit_assignment os kind resource_id g key r self d = (visited, self', result) ->
    worker (match result with Ok (Accepted _) => (assignment_id kind resource_id, g) :: history | _ => history end) self' (final d visited)
| worker_crashed history self d os kind resource_id g key r visited self' result d' : worker history self d -> u64 (pid os) ->
    placement_ok kind resource_id g key -> room_for (assignment_id kind resource_id) (snapshot self) ->
    commit_assignment os kind resource_id g key r self d = (visited, self', result) -> d' ∈ visited ->
    worker history (load_assignment_registry all d') d'
| worker_restarted history self d : worker history self d -> worker history (load_assignment_registry all d) d.

(** ** The invariant *)
Definition fenced_by (s : FenceSnapshot) (history : list (bytes * Z)) : Prop :=
  forall id g, (id, g) ∈ history -> exists f, records s !! id = Some f /\ g <= fence_generation f.
Record worker_ok (history : list (bytes * Z)) (self : AssignmentRegistry) d : Prop := {
  wo_tidy : tidy d;
  wo_newest : newest d (snapshot self);
  wo_revision : 0 <= revision (snapshot self);
  wo_fenced : fenced_by (snapshot self) history;
  wo_active id a : active self !! id = Some a -> exists f, records (snapshot self) !! id = Some f /\ fence_generation f = generation a }.

Lemma valid_snapshot_spec s r : valid_fence_snapshot s r = true <-> revision s = r /\ Z.of_nat (size (records s)) <= 50000 /\
  (forall k f, records s !! k = Some f -> valid_record (k, f) = true).
Proof.
  unfold valid_fence_snapshot. rewrite !andb_true_iff, Z.eqb_eq, Z.leb_le, forallb_forall. split.
  - intros [[H1 H2] H3]. split_and!; [done|done|]. intros k f Hk. apply H3, list_elem_of_In. by rewrite (iter_perm (records s)), elem_of_map_to_list.
  - intros (H1 & H2 & H3). split; [done|]. intros [k f] Hk%list_elem_of_In. apply H3. by rewrite (iter_perm (records s)), elem_of_map_to_list in Hk.
Qed.
Lemma newest_valid d s : newest d s -> (forall k f, records s !! k = Some f -> valid_record (k, f) = true) /\ Z.of_nat (size (records s)) <= 50000.
Proof.
  intros [_ [->|H]]; [split; [by intros k f; cbn; rewrite lookup_empty|done]|].
  destruct (snapshot_in_Some _ _ _ H) as (_ & _ & _ & _ & (_ & H2 & H3)%valid_snapshot_spec & _). done.
Qed.
Lemma placed_record kind resource_id g key : placement_ok kind resource_id g key ->
  valid_record (assignment_id kind resource_id, {| fence_generation := g; fence_job_key := key |}) = true.
Proof.
  intros [P1 P2 P3 P4]. unfold valid_record, assignment_id. cbn [fst snd fence_job_key fence_generation].
  assert (58 ∉ kind) as Hk by (destruct P1 as [->|[->| ->]]; by apply (bool_decide_unpack _)).
  rewrite (proj2 (split_once_Some 58 (kind ++ [58] ++ resource_id) kind resource_id)) by done. rewrite P2, P3. cbn [is_ok]. rewrite !andb_true_r.
  apply andb_true_iff. split; [|lia]. rewrite !orb_true_iff, !bool_decide_eq_true. tauto.
Qed.

(** One commit: an answer without effect, or a newer fence that is on disk before it is accepted. *)
Lemma commit_cases history self d os kind resource_id g key r visited self' result : worker_ok history self d -> u64 (pid os) ->
  placement_ok kind resource_id g key -> room_for (assignment_id kind resource_id) (snapshot self) ->
  commit_assignment os kind resource_id g key r self d = (visited, self', result) ->
  let id := assignment_id kind resource_id in
  (self' = self /\ visited = [] /\ (forall replaced, result <> Ok (Accepted replaced)) /\ returns result /\
     (forall existing, result = Ok (Duplicate existing) -> exists a, active self !! id = Some a /\ generation a = g /\ job_key a = key /\ response a = existing)) \/
  (exists c, revision c = revision (snapshot self) + 1 /\ records c = <[id := {| fence_generation := g; fence_job_key := key |}]> (records (snapshot self)) /\
     (forall f, records (snapshot self) !! id = Some f -> fence_generation f < g) /\
     Forall (between (snapshot self) c) visited /\ tidy (final d visited) /\
     ((exists e, result = Err e /\ self' = self /\ newest (final d visited) (snapshot self)) \/
      (result = Ok (Accepted ((fun a => job_id (response a)) <$> active self !! id)) /\ newest (final d visited) c /\
       self' = {| snapshot := c; active := <[id := {| generation := g; job_key := key; response := r |}]> (active self) |}))).
Proof.
  intros [W1 W2 W3 W4 W5] Hpid Hpl Hroom Hc id. unfold commit_assignment in Hc. cbv zeta in Hc. fold id in Hc. destruct (newest_valid _ _ W2) as [V1 V2].
  destruct (active self !! id ≫= fun current => refused_by_active current g key) as [answer|] eqn:Hact.
  { injection Hc as <- <- <-. left. apply bind_Some in Hact as (a & Ha & Hr). unfold refused_by_active in Hr. split_and!; [done|done|..].
    - intros replaced. repeat case_match; simplify_eq; done.
    - repeat case_match; simplify_eq; done.
    - intros existing ->. destruct (g <? generation a); [done|]. destruct (Z.eqb_spec g (generation a)); [|done]. case_bool_decide; [|done]. injection Hr as <-. eauto 10. }
  destruct (records (snapshot self) !! id ≫= fun fence => refused_by_fence fence g) as [answer|] eqn:Hfen.
  { injection Hc as <- <- <-. left. apply bind_Some in Hfen as (f & Hf & Hr). unfold refused_by_fence in Hr. split_and!; [done|done|..].
    - intros replaced. repeat case_match; simplify_eq; done.
    - repeat case_match; simplify_eq; done.
    - intros existing ->. repeat case_match; simplify_eq. }
  destruct (checked_add 64 (revision (snapshot self)) 1) as [next|] eqn:Hnext; [|injection Hc as <- <- <-; by left].
  apply checked_add_Some in Hnext as [-> Hnext]. set (c := fenced id g key (snapshot self) (revision (snapshot self) + 1)) in *.
  assert (valid_fence_snapshot c (revision c) = true) as Hvc.
  { apply valid_snapshot_spec. split_and!; [done|..].
    - cbn [records c fenced]. destruct (records (snapshot self) !! id) as [f|] eqn:Ef.
      + rewrite map_size_insert_Some by (by eexists). done.
      + rewrite map_size_insert_None by done. destruct Hroom as [[f Hf]|Hlt]; [fold id in Hf; congruence|lia].
    - cbn. intros k f. destruct (decide (id = k)) as [<-|Hne]; [rewrite lookup_insert_eq; intros [= <-]; by apply placed_record|rewrite lookup_insert_ne by done; apply V1]. }
  destruct (persist_fence_snapshot os c d) as [vis res] eqn:Hper.
  destruct (persist_cases os (snapshot self) c d vis res W2 W1 ltac:(cbn; lia) ltac:(cbn; unfold fits, umax in *; lia) Hpid Hvc Hper) as (P1 & P2 & P3).
  right. exists c. assert (forall f, records (snapshot self) !! id = Some f -> fence_generation f < g) as Hnewer.
  { intros f Hf. rewrite Hf in Hfen. cbn in Hfen. unfold refused_by_fence in Hfen. destruct (Z.ltb_spec g (fence_generation f)); [done|]. destruct (Z.eqb_spec g (fence_generation f)); [done|lia]. }
  destruct res as [u|e| |]; [..|done|done]; injection Hc as <- <- <-; split_and!; try done; [by right|left; by exists e].
Qed.

Lemma between_ok history s c d : fenced_by s history -> fenced_by c history -> 0 <= revision s -> 0 <= revision c -> between s c d ->
  worker_ok history (load_assignment_registry all d) d.
Proof.
  intros Fs Fc Hs Hc [Ht [Hn|Hn]]; [rewrite (load_spec d s Hs Hn)|rewrite (load_spec d c Hc Hn)]; (split; cbn; [done|done|done|done|by intros id a; cbn; rewrite lookup_empty]).
Qed.
Lemma worker_invariant history self d : worker history self d -> worker_ok history self d.
Proof.
  induction 1 as [d Ht|history self d os kind resource_id g key r visited self' result _ IH Hpid Hpl Hroom Hc|history self d os kind resource_id g key r visited self' result d' _ IH Hpid Hpl Hroom Hc Hd'|history self d _ IH].
  - pose proof (load_newest d) as Hn. split; [done|done|..|by intros id g ?%not_elem_of_nil|by intros id a; cbn; rewrite lookup_empty].
    destruct (ne_here _ _ Hn) as [->|H]; [done|]. destruct (snapshot_in_Some _ _ _ H) as (_ & _ & _ & _ & _ & (_ & Hp & _)%revision_Some & _). lia.
  - pose proof IH as [W1 W2 W3 W4 W5]. destruct (commit_cases _ _ _ _ _ _ _ _ _ _ _ _ IH Hpid Hpl Hroom Hc) as [(-> & -> & Hno & _)|(c & C1 & C2 & C3 & C4 & C5 & [(e & -> & -> & C6)|(-> & C6 & ->)])].
    + destruct result as [[replaced|]| | |]; [by destruct (Hno replaced)|done..].
    + by split.
    + assert (fenced_by c history) as Fc.
      { intros i g' Hin. rewrite C2. destruct (W4 i g' Hin) as (f & Hf & Hle). destruct (decide (assignment_id kind resource_id = i)) as [<-|Hne].
        - rewrite lookup_insert_eq. eexists. split; [done|]. cbn. specialize (C3 f Hf). lia.
        - rewrite lookup_insert_ne by done. eauto. }
      split; cbn [snapshot active]; [done|done|lia|..].
      * intros i g' [[= -> ->]|Hin]%elem_of_cons; [rewrite C2, lookup_insert_eq; eexists; split; [done|cbn; lia]|by apply Fc].
      * intros i a. rewrite C2. destruct (decide (assignment_id kind resource_id = i)) as [<-|Hne]; [rewrite !lookup_insert_eq; intros [= <-]; eauto|].
        rewrite !lookup_insert_ne by done. apply W5.
  - pose proof IH as [W1 W2 W3 W4 W5]. destruct (commit_cases _ _ _ _ _ _ _ _ _ _ _ _ IH Hpid Hpl Hroom Hc) as [(_ & -> & _)|(c & C1 & C2 & C3 & C4 & _)]; [by apply not_elem_of_nil in Hd'|].
    rewrite Forall_forall in C4. apply (between_ok history (snapshot self) c); [done| |done|lia|by apply C4].
    intros i g' Hin. rewrite C2. destruct (W4 i g' Hin) as (f & Hf & Hle). destruct (decide (assignment_id kind resource_id = i)) as [<-|Hne].
    + rewrite lookup_insert_eq. eexists. split; [done|]. cbn. specialize (C3 f Hf). lia.
    + rewrite lookup_insert_ne by done. eauto.
  - destruct IH as [W1 W2 W3 W4 W5]. rewrite (load_spec d _ W3 W2). split; cbn; done.
Qed.


(** ** Two defects *)
(** Nothing limits the records of a snapshot that is written, and a snapshot of more than 50000 records is ignored when it is read: a worker
    whose retained snapshots are that large starts without any fence. *)
Theorem fences_lost d : (forall name content s, d !! name = Some (File content) -> from_slice content = Some s -> 50000 < Z.of_nat (size (records s))) ->
  load_assignment_registry all d = {| snapshot := default_snapshot; active := ∅ |}.
Proof.
  intros Hbig. apply (load_spec d default_snapshot); [done|]. split; [|by left]. intros name c Hc. exfalso.
  destruct (snapshot_in_Some _ _ _ Hc) as (content & Hd & _ & Hf & (_ & Hle & _)%valid_snapshot_spec & _). specialize (Hbig _ _ _ Hd Hf). lia.
Qed.

(** A file at the next revision that cannot be read as a snapshot is ignored at the start, but blocks every later placement. *)
Theorem revision_blocked os kind resource_id g key r self d content : d !! snapshot_name (revision (snapshot self) + 1) = Some (File content) -> from_slice content = None ->
  forall visited self' replaced, commit_assignment os kind resource_id g key r self d <> (visited, self', Ok (Accepted replaced)).
Proof.
  intros Hd Hf visited self' replaced. unfold commit_assignment. cbv zeta.
  destruct (_ ≫= fun current => refused_by_active current g key) as [answer|] eqn:Hact.
  { intros [= _ _ ->]. apply bind_Some in Hact as (a & _ & Hr). unfold refused_by_active in Hr. repeat case_match; simplify_eq. }
  destruct (_ ≫= fun fence => refused_by_fence fence g) as [answer|] eqn:Hfen.
  { intros [= _ _ ->]. apply bind_Some in Hfen as (a & _ & Hr). unfold refused_by_fence in Hr. repeat case_match; simplify_eq. }
  destruct (checked_add 64 (revision (snapshot self)) 1) as [next|] eqn:Hnext; [|done]. apply checked_add_Some in Hnext as [-> _].
  unfold persist_fence_snapshot. destruct (to_vec _) as [bytes_|] eqn:Hto; [|done]. destruct (MAX_FENCE_SNAPSHOT_BYTES <? len bytes_); [done|]. cbv zeta. cbn [revision fenced].
  rewrite bool_decide_eq_true_2 by (rewrite Hd; by eexists). case_bool_decide as Hsame; [|done]. exfalso. unfold read_bounded_fence_snapshot in Hsame. rewrite Hd in Hsame.
  case_match; [|done]. injection Hsame as ->. apply from_to in Hto. congruence.
Qed.
End Histories.

(** Finished jobs are never forgotten: once 10000 are retained, no job is accepted any more. *)
Inductive settled : AppState -> AppState -> Prop :=
| settled_refl s : settled s s
| settled_state s s' id state : settled s s' -> settled s (set_job_state id state s')
| settled_finished s s' id : settled s s' -> settled s (finish_job_task id s')
| settled_cancelled s s' id : settled s s' -> settled s (cancel_replaced_job id s').1.
Theorem job_registry_stays_full s s' now id asset : Z.of_nat (size (jobs s)) = MAX_JOBS_RETAINED -> settled s s' ->
  (insert_job now id asset s').2 = Err JobRegistryFull.
Proof.
  intros Hfull Hs. assert (size (jobs s') = size (jobs s)) as Hsize.
  { clear Hfull. induction Hs as [s|s s' i st _ IH|s s' i _ IH|s s' i _ IH]; [done|..|done|].
    - rewrite <- IH. cbn. rewrite <- !size_dom. by rewrite dom_alter_L.
    - rewrite <- IH. unfold cancel_replaced_job. destruct i; [|done]. by case_bool_decide. }
  unfold insert_job, mbind, prog_bind, gets, lift. cbv beta. rewrite Hsize, Hfull. done.
Qed.

(** ** A worker that crashes after the write and is asked again *)
#[export] Instance FenceRecord_eq_dec : EqDecision FenceRecord.
Proof. solve_decision. Defined.
#[export] Instance FenceRecord_countable : Countable FenceRecord.
Proof.
  apply (inj_countable' (fun f => (fence_generation f, fence_job_key f)) (fun '(g, k) => {| fence_generation := g; fence_job_key := k |})). by intros [].
Defined.
Definition example_json : SnapshotJson.
Proof.
  refine {| to_vec s := Some [revision s; Z.pos (encode (records s))];
            from_slice content := match content with [r; Z.pos p] => (fun m => {| revision := r; records := m |}) <$> decode p | _ => None end |}.
  intros [r m] b [= <-]. cbn. by rewrite decode_encode.
Defined.
#[local] Existing Instances example_json SfuRuntimeSteps.listing.
Definition healthy_os : Os := {| opens := true; partial := []; writes := true; renames := true; removes _ := true; lists := true; pid := 7 |}.
Definition committed (g : Z) (job : Z) (self : AssignmentRegistry) (d : gmap bytes Entry) :=
  commit_assignment healthy_os (octets "vod") (octets "a") g (octets "k") (Vod job) self d.
Definition registry0 : AssignmentRegistry := load_assignment_registry all ∅.
Definition directory1 : gmap bytes Entry := final ∅ (committed 1 100 registry0 ∅).1.1.
Definition registry1 : AssignmentRegistry := (committed 1 100 registry0 ∅).1.2.

Lemma example_placement g : 0 < g -> placement_ok (octets "vod") (octets "a") g (octets "k").
Proof. intros Hg. split; [by left|reflexivity|reflexivity|done]. Qed.
Lemma example_committed : committed 1 100 registry0 ∅ = ((committed 1 100 registry0 ∅).1.1, registry1, Ok (Accepted None)).
Proof. vm_compute. reflexivity. Qed.
Lemma example_worker : worker [(octets "vod:a", 1)] (load_assignment_registry all directory1) directory1.
Proof.
  apply (worker_restarted _ registry1).
  refine (worker_committed [] registry0 ∅ healthy_os (octets "vod") (octets "a") 1 (octets "k") (Vod 100) _ registry1 (Ok (Accepted None)) _ _ _ _ example_committed).
  - apply worker_started. intros name r [e He]. by rewrite lookup_empty in He.
  - split; cbn; lia.
  - by apply example_placement.
  - right. by vm_compute.
Qed.
