(* ===== verification/Protocol.v ===== *)
(** * foundation/protocol: the envelope of realtime data (src/lib.rs)

    A frame has a header of 60 octets and the payload; it is read and written with the cursors of [bytes-codec]. *)
From S2P Require Import Prelude Words Slices RustStr BytesCodec.

Definition MAGIC : bytes := [0x46; 0x4c; 0x55; 0x56].
Definition VERSION : Z := 1.
Definition HEADER_LEN : Z := 60.
Definition MAX_WIRE_LEN : Z := HEADER_LEN + umax 16 * 16.
Definition ENVELOPE_HEADER_BYTES : Z := HEADER_LEN.

Inductive DataKind := Presence | Chat | Gift | Control | Custom (value : Z) | Unknown (value : Z).
Definition to_wire (self : DataKind) : Z :=
  match self with Presence => 1 | Chat => 2 | Gift => 3 | Control => 4 | Custom value | Unknown value => value end.
Definition from_wire (value : Z) : DataKind :=
  if value =? 1 then Presence else if value =? 2 then Chat else if value =? 3 then Gift else if value =? 4 then Control
  else if (0x8000 <=? value) && (value <=? umax 16) then Custom value else Unknown value.

(** [EnvelopeFlags] is its octet. *)
Definition RELIABLE : Z := 0x01.
Definition ORDERED : Z := 0x02.
Definition ACK_REQUIRED : Z := 0x04.
Definition ALLOWED : Z := Z.lor (Z.lor RELIABLE ORDERED) ACK_REQUIRED.
Definition flags_new (reliable ordered acknowledgement_required : bool) : Z :=
  Z.lor (Z.lor (Z.b2z reliable * RELIABLE) (Z.b2z ordered * ORDERED)) (Z.b2z acknowledgement_required * ACK_REQUIRED).
Definition reliable (flags : Z) : bool := negb (Z.land flags RELIABLE =? 0).
Definition ordered (flags : Z) : bool := negb (Z.land flags ORDERED =? 0).
Definition acknowledgement_required (flags : Z) : bool := negb (Z.land flags ACK_REQUIRED =? 0).

Record Envelope := { flags : Z; kind : DataKind; room_id : Z; sender_id : Z; sequence : Z; timestamp_millis : Z; payload : bytes }.

Inductive ProtocolError :=
| FrameTooShort (length : Z)
| InvalidMagic
| UnsupportedVersion (version : Z)
| UnknownFlags (flags : Z)
| PayloadTooLarge (actual maximum : Z)
| FrameTooLarge
| TrailingBytes (length : Z)
| Decode (error : DecodeError)
| Encode (error : EncodeError).

Definition write_u128 (value : Z) : prog WriteBuffer.t EncodeError unit :=
  _ ← WriteBuffer.write_u64 (default 0 (try_from 64 (Z.shiftr value 64)));
  WriteBuffer.write_u64 (default 0 (try_from 64 (Z.land value (umax 64)))).
Definition read_u128 : prog ReadCursor.t DecodeError Z :=
  high ← ReadCursor.read_u64;
  low ← ReadCursor.read_u64;
  mret (Z.lor (Z.shiftl high 64) low).

Definition write_envelope (self : Envelope) (payload_len : Z) : prog WriteBuffer.t EncodeError unit :=
  _ ← WriteBuffer.extend_from_slice MAGIC;
  _ ← WriteBuffer.write_u8 VERSION;
  _ ← WriteBuffer.write_u8 (flags self);
  _ ← WriteBuffer.write_u16 (to_wire (kind self));
  _ ← write_u128 (room_id self);
  _ ← write_u128 (sender_id self);
  _ ← WriteBuffer.write_u64 (sequence self);
  _ ← WriteBuffer.write_u64 (timestamp_millis self);
  _ ← WriteBuffer.write_u32 payload_len;
  WriteBuffer.extend_from_slice (payload self).
Definition encode (self : Envelope) (maximum_payload : Z) : outcome ProtocolError bytes :=
  _ ← reject_if (maximum_payload <? len (payload self)) (PayloadTooLarge (len (payload self)) maximum_payload);
  payload_len ← ok_or (try_from 32 (len (payload self))) (PayloadTooLarge (len (payload self)) (umax 32));
  let '(output, result) := write_envelope self payload_len (WriteBuffer.with_limit MAX_WIRE_LEN) in
  _ ← map_err Encode result;
  Ok (WriteBuffer.as_slice output).

Definition read_envelope (maximum_payload : Z) : prog ReadCursor.t ProtocolError Envelope :=
  magic ← with_err Decode (ReadCursor.take 4);
  _ ← lift (reject_if (negb (bool_decide (magic = MAGIC))) InvalidMagic);
  version ← with_err Decode ReadCursor.read_u8;
  _ ← lift (reject_if (negb (version =? VERSION)) (UnsupportedVersion version));
  flags ← with_err Decode ReadCursor.read_u8;
  _ ← lift (reject_if (negb (Z.land flags (Z.lxor ALLOWED 0xff) =? 0)) (UnknownFlags flags));
  kind ← with_err Decode ReadCursor.read_u16;
  room_id ← with_err Decode read_u128;
  sender_id ← with_err Decode read_u128;
  sequence ← with_err Decode ReadCursor.read_u64;
  timestamp_millis ← with_err Decode ReadCursor.read_u64;
  payload_len ← with_err Decode ReadCursor.read_u32;
  _ ← lift (reject_if (maximum_payload <? payload_len) (PayloadTooLarge payload_len maximum_payload));
  payload ← with_err Decode (ReadCursor.take payload_len);
  c ← gets id;
  _ ← lift (reject_if (negb (ReadCursor.is_empty c)) (TrailingBytes (ReadCursor.remaining c)));
  mret {| flags := flags; kind := from_wire kind; room_id := room_id; sender_id := sender_id; sequence := sequence;
          timestamp_millis := timestamp_millis; payload := payload |}.
Definition decode (input : bytes) (maximum_payload : Z) : outcome ProtocolError Envelope :=
  _ ← reject_if (len input <? HEADER_LEN) (FrameTooShort (len input));
  (read_envelope maximum_payload (ReadCursor.new input)).2.

(** ** The format *)
Record envelope_ok (e : Envelope) : Prop := {
  eo_flags : exists r o a, flags e = flags_new r o a;
  eo_kind : u16 (to_wire (kind e)) /\ from_wire (to_wire (kind e)) = kind e;
  eo_room : fits 128 (room_id e);
  eo_sender : fits 128 (sender_id e);
  eo_sequence : u64 (sequence e);
  eo_timestamp : u64 (timestamp_millis e);
  eo_payload : bytes_ok (payload e) /\ u32 (len (payload e)) }.
Definition frame (e : Envelope) : bytes :=
  MAGIC ++ [VERSION; flags e] ++ to_be_bytes 2 (to_wire (kind e)) ++ to_be_bytes 16 (room_id e) ++ to_be_bytes 16 (sender_id e) ++
  to_be_bytes 8 (sequence e) ++ to_be_bytes 8 (timestamp_millis e) ++ to_be_bytes 4 (len (payload e)) ++ payload e.

(** ** Reading is the inverse of writing, field by field *)
Record codec {A} (m : prog ReadCursor.t DecodeError A) (enc : A -> bytes) (ok : A -> Prop) : Prop := {
  co_inv c : ReadCursor.wf c -> bytes_ok (ReadCursor.rest c) -> (exists c' e, m c = (c', Err e)) \/
    exists c' a, m c = (c', Ok a) /\ ReadCursor.wf c' /\ ReadCursor.rest c = enc a ++ ReadCursor.rest c' /\ ok a;
  co_here c a suffix : ReadCursor.wf c -> ok a -> ReadCursor.rest c = enc a ++ suffix ->
    exists c', m c = (c', Ok a) /\ ReadCursor.wf c' /\ ReadCursor.rest c' = suffix }.

Lemma codec_array n : codec (ReadCursor.read_array n) (to_be_bytes n) (fits (8 * Z.of_nat n)).
Proof.
  split.
  - intros c Hwf Hb. pose proof (read_array_refines n c Hwf) as H. unfold take_spec in H. destruct (Z.leb_spec (Z.of_nat n) (len (ReadCursor.rest c))); [|left; by eexists _, _].
    destruct H as (c' & -> & Hwf' & Hr). right. eexists _, _. split_and!; [done..| |].
    + rewrite Hr. pose proof (take_drop n (ReadCursor.rest c)) as E. assert (length (take n (ReadCursor.rest c)) = n) as Hl by (rewrite length_take; unfold len in *; lia).
      rewrite Nat2Z.id. rewrite <- Hl at 1. rewrite to_from_be_bytes; [by rewrite E|]. by apply bytes_ok_take.
    + rewrite Nat2Z.id. assert (length (take n (ReadCursor.rest c)) = n) as Hl by (rewrite length_take; unfold len in *; lia).
      pose proof (from_be_bytes_bound (take n (ReadCursor.rest c)) ltac:(by apply bytes_ok_take)) as B. rewrite Hl, pow256 in B. exact B.
  - intros c a suffix Hwf Ha Hr. by apply (read_array_here n a suffix).
Qed.
Lemma codec_u8 : codec ReadCursor.read_u8 (fun v => [v]) u8.
Proof.
  split.
  - intros c Hwf Hb. pose proof (take_refines 1 c ltac:(lia) Hwf) as H. unfold take_spec in H. unfold ReadCursor.read_u8, mbind, prog_bind, gets. cbn.
    destruct (ReadCursor.rest c) as [|v rest] eqn:Hr; cbn in H; [rewrite H; left; by eexists _, _|].
    replace (1 <=? len (v :: rest)) with true in H by slia. destruct H as (c' & -> & Hwf' & Hr' & _). right. eexists _, v. split_and!; [done..|by rewrite Hr'|].
    by inversion Hb.
  - intros c a suffix Hwf _ Hr. destruct (take_here [a] suffix c Hwf Hr) as (c' & Ht & Hc'). exists c'. split; [|done]. change (len [a]) with 1 in Ht.
    unfold ReadCursor.read_u8, mbind, prog_bind, gets. cbn. by rewrite Ht.
Qed.
Lemma codec_take n : 0 <= n -> codec (ReadCursor.take n) id (fun b => len b = n).
Proof.
  intros Hn. split.
  - intros c Hwf _. pose proof (take_refines n c Hn Hwf) as H. unfold take_spec in H. destruct (Z.leb_spec n (len (ReadCursor.rest c))); [|left; by eexists _, _].
    destruct H as (c' & -> & Hwf' & Hr & _). right. eexists _, _. split_and!; [done..| |rewrite len_take; lia]. rewrite Hr. cbn. by rewrite take_drop.
  - intros c a suffix Hwf <- Hr. by apply take_here.
Qed.

(** 128 bits in two halves *)
Lemma join_halves h l : fits 64 l -> Z.lor (Z.shiftl h 64) l = h * 2 ^ 64 + l.
Proof.
  intros Hl. pose proof (Z.add_lor_land (Z.shiftl h 64) l) as E. rewrite Z.shiftl_mul_pow2 in E |- * by lia.
  assert (Z.land (h * 2 ^ 64) l = 0) as H0; [|lia]. apply Z.bits_inj'. intros i Hi. rewrite Z.land_spec, Z.bits_0, <- Z.shiftl_mul_pow2 by lia.
  destruct (Z_lt_ge_dec i 64); [by rewrite Z.shiftl_spec_low|]. unfold fits in Hl. destruct (decide (l = 0)) as [->|]; [by rewrite Z.bits_0, andb_false_r|].
  rewrite (Z.bits_above_log2 l i), andb_false_r; [done|lia|]. apply Z.log2_lt_pow2; [lia|]. eapply Z.lt_le_trans; [apply Hl|]. apply Z.pow_le_mono_r; lia.
Qed.
Lemma u128_join h l : fits 64 h -> fits 64 l ->
  fits 128 (Z.lor (Z.shiftl h 64) l) /\ to_be_bytes 16 (Z.lor (Z.shiftl h 64) l) = to_be_bytes 8 h ++ to_be_bytes 8 l.
Proof.
  intros Hh Hl. rewrite join_halves by done. assert (fits 128 (h * 2 ^ 64 + l)) as Hf by (unfold fits in *; lia). split; [done|].
  apply from_be_bytes_inj; [apply to_be_bytes_ok|apply Forall_app; split; apply to_be_bytes_ok|by rewrite length_app, !length_to_be_bytes|].
  rewrite from_to_be_bytes by done. unfold from_be_bytes at 1. rewrite foldl_app. fold (from_be_bytes (to_be_bytes 8 h)). rewrite from_be_bytes_acc, length_to_be_bytes, !from_to_be_bytes by done. done.
Qed.
Lemma u128_halves v : fits 128 v -> fits 64 (Z.shiftr v 64) /\ fits 64 (Z.land v (umax 64)) /\ Z.lor (Z.shiftl (Z.shiftr v 64) 64) (Z.land v (umax 64)) = v.
Proof.
  intros Hv. unfold umax. replace (2 ^ 64 - 1) with (Z.ones 64) by done. rewrite Z.land_ones, Z.shiftr_div_pow2 by lia. unfold fits in *.
  assert (0 <= v mod 2 ^ 64 < 2 ^ 64) by (apply Z.mod_pos_bound; lia).
  assert (0 <= v / 2 ^ 64 < 2 ^ 64) by (split; [apply Z.div_pos; lia|apply Z.div_lt_upper_bound; lia]).
  split_and!; [lia..|]. rewrite join_halves by done. pose proof (Z.div_mod v (2 ^ 64)). lia.
Qed.
Lemma codec_u128 : codec read_u128 (to_be_bytes 16) (fits 128).
Proof.
  split.
  - intros c Hwf Hb. unfold read_u128, mbind, prog_bind. destruct (co_inv _ _ _ (codec_array 8) c Hwf Hb) as [(c' & e & H)|(c1 & h & H1 & Hwf1 & Hr1 & Hh)].
    { left. unfold ReadCursor.read_u64. rewrite H. by eexists _, _. }
    assert (bytes_ok (ReadCursor.rest c1)) as Hb1 by (rewrite Hr1 in Hb; by apply Forall_app in Hb as [_ ?]). unfold ReadCursor.read_u64. rewrite H1.
    destruct (co_inv _ _ _ (codec_array 8) c1 Hwf1 Hb1) as [(c' & e & ->)|(c2 & l & -> & Hwf2 & Hr2 & Hl)]; [left; by eexists _, _|]. right.
    destruct (u128_join h l Hh Hl) as [Hf Hj]. eexists _, _. split_and!; [done..| |done]. by rewrite Hj, Hr1, Hr2, app_assoc.
  - intros c a suffix Hwf Ha Hr. destruct (u128_halves a Ha) as (Hh & Hl & Hj). destruct (u128_join _ _ Hh Hl) as [_ Hb]. rewrite Hj in Hb. rewrite Hb, <- app_assoc in Hr.
    destruct (co_here _ _ _ (codec_array 8) c _ _ Hwf Hh Hr) as (c1 & H1 & Hwf1 & Hr1). destruct (co_here _ _ _ (codec_array 8) c1 _ _ Hwf1 Hl Hr1) as (c2 & H2 & Hwf2 & Hr2).
    exists c2. split; [|done]. unfold read_u128, mbind, prog_bind, ReadCursor.read_u64. rewrite H1, H2. unfold mret, prog_ret. by rewrite Hj.
Qed.

(** The header as a sequence of steps. *)
Lemma step_inv {A B} (m : prog ReadCursor.t DecodeError A) enc ok (k : A -> prog ReadCursor.t ProtocolError B) c b : codec m enc ok ->
  ReadCursor.wf c -> bytes_ok (ReadCursor.rest c) -> ((with_err Decode m ≫= k) c).2 = Ok b ->
  exists c' a, ReadCursor.wf c' /\ bytes_ok (ReadCursor.rest c') /\ ReadCursor.rest c = enc a ++ ReadCursor.rest c' /\ ok a /\ (k a c').2 = Ok b.
Proof.
  intros Hm Hwf Hb Hk. unfold mbind, prog_bind, with_err in Hk. destruct (co_inv _ _ _ Hm c Hwf Hb) as [(c' & e & H)|(c' & a & H & Hwf' & Hr & Ha)]; rewrite H in Hk; [done|].
  exists c', a. split_and!; [done| |done..]. rewrite Hr in Hb. by apply Forall_app in Hb as [_ ?].
Qed.
Lemma guard_inv {A} g e (k : unit -> prog ReadCursor.t ProtocolError A) c b : ((lift (reject_if g e) ≫= k) c).2 = Ok b -> g = false /\ (k tt c).2 = Ok b.
Proof. unfold mbind, prog_bind, lift, reject_if. by destruct g. Qed.
Lemma step_here {A B} (m : prog ReadCursor.t DecodeError A) enc ok (k : A -> prog ReadCursor.t ProtocolError B) c a suffix r : codec m enc ok ->
  ReadCursor.wf c -> ok a -> ReadCursor.rest c = enc a ++ suffix -> (forall c', ReadCursor.wf c' -> ReadCursor.rest c' = suffix -> (k a c').2 = r) ->
  ((with_err Decode m ≫= k) c).2 = r.
Proof.
  intros Hm Hwf Ha Hr Hk. destruct (co_here _ _ _ Hm c a suffix Hwf Ha Hr) as (c' & H & Hwf' & Hr'). unfold mbind, prog_bind, with_err. rewrite H. by apply Hk.
Qed.

Lemma flags_allowed f : u8 f -> Z.land f (Z.lxor ALLOWED 0xff) = 0 <-> exists r o a, f = flags_new r o a.
Proof.
  intros Hf. split.
  - intros H0. assert (forallb (fun x => implb (Z.land x (Z.lxor ALLOWED 0xff) =? 0) (x <=? 7)) (seqZ 0 256) = true) as Hall by (vm_compute; reflexivity).
    rewrite forallb_forall in Hall. specialize (Hall f). rewrite H0 in Hall. assert (f <= 7) as Hle by (apply Z.leb_le, Hall, list_elem_of_In, elem_of_seqZ; unfold fits in Hf; lia).
    unfold fits in Hf. assert (f = 0 \/ f = 1 \/ f = 2 \/ f = 3 \/ f = 4 \/ f = 5 \/ f = 6 \/ f = 7) as Hc by lia.
    exists (Z.testbit f 0), (Z.testbit f 1), (Z.testbit f 2). by destruct Hc as [-> | [-> | [-> | [-> | [-> | [-> | [-> | -> ]]]]]]].
  - by intros ([] & [] & [] & ->).
Qed.
Lemma wire_canonical v : u16 v -> to_wire (from_wire v) = v.
Proof. intros Hv. unfold from_wire. repeat case_match; cbn; lia. Qed.

Lemma len_frame e : len (frame e) = HEADER_LEN + len (payload e).
Proof. unfold frame. rewrite !len_app, !len_to_be_bytes. cbn [MAGIC]. change (len MAGIC) with 4. change (len [VERSION; flags e]) with 2. unfold HEADER_LEN. lia. Qed.

Lemma frame_octets e : envelope_ok e -> bytes_ok (frame e).
Proof.
  intros He. destruct (eo_flags _ He) as (r & o & a & Hf). unfold frame. rewrite !bytes_ok_app, Hf. split_and!; try apply to_be_bytes_ok.
  - repeat constructor; eval_facts.
  - repeat constructor; [eval_facts..|destruct r, o, a; eval_facts|destruct r, o, a; eval_facts].
  - apply He.
Qed.
Lemma read_envelope_inv maximum c e : ReadCursor.wf c -> bytes_ok (ReadCursor.rest c) -> (read_envelope maximum c).2 = Ok e ->
  envelope_ok e /\ len (payload e) <= maximum /\ ReadCursor.rest c = frame e.
Proof.
  intros Hwf Hb H. unfold read_envelope in H.
  apply (step_inv _ _ _ _ _ _ (codec_take 4 ltac:(lia))) in H as (c1 & magic & Hwf1 & Hb1 & Hr1 & _ & H); [|done..].
  apply guard_inv in H as [Hmagic H]. apply negb_false_iff, bool_decide_eq_true in Hmagic as ->.
  apply (step_inv _ _ _ _ _ _ codec_u8) in H as (c2 & version & Hwf2 & Hb2 & Hr2 & _ & H); [|done..]. apply guard_inv in H as [Hv H]. assert (version = VERSION) as -> by lia.
  apply (step_inv _ _ _ _ _ _ codec_u8) in H as (c3 & f & Hwf3 & Hb3 & Hr3 & Hf & H); [|done..]. apply guard_inv in H as [Hallowed H].
  assert (Z.land f (Z.lxor ALLOWED 0xff) = 0) as Hflags%(flags_allowed f Hf) by lia. clear Hallowed.
  apply (step_inv _ _ _ _ _ _ (codec_array 2)) in H as (c4 & k & Hwf4 & Hb4 & Hr4 & Hk & H); [|done..].
  apply (step_inv _ _ _ _ _ _ codec_u128) in H as (c5 & room & Hwf5 & Hb5 & Hr5 & Hroom & H); [|done..].
  apply (step_inv _ _ _ _ _ _ codec_u128) in H as (c6 & sender & Hwf6 & Hb6 & Hr6 & Hsender & H); [|done..].
  apply (step_inv _ _ _ _ _ _ (codec_array 8)) in H as (c7 & seq & Hwf7 & Hb7 & Hr7 & Hseq & H); [|done..].
  apply (step_inv _ _ _ _ _ _ (codec_array 8)) in H as (c8 & ts & Hwf8 & Hb8 & Hr8 & Hts & H); [|done..].
  apply (step_inv _ _ _ _ _ _ (codec_array 4)) in H as (c9 & n & Hwf9 & Hb9 & Hr9 & Hn & H); [|done..]. apply guard_inv in H as [Hmax H].
  change (fits 32 n) in Hn. assert (0 <= n) as Hn0 by (unfold fits in Hn; lia).
  apply (step_inv _ _ _ _ _ _ (codec_take n Hn0)) in H as (c10 & data & Hwf10 & Hb10 & Hr10 & <- & H); [|done..].
  rewrite (prog_step _ _ c10 c10 c10) in H by done. apply guard_inv in H as [Hempty H]. apply negb_false_iff, Z.eqb_eq in Hempty.
  rewrite <- len_rest in Hempty by done. destruct (ReadCursor.rest c10) eqn:Hlast; [|rewrite len_cons in Hempty; pose proof (len_nonneg l); lia].
  cbn in H. injection H as <-. unfold id in *. rewrite app_nil_r in Hr10. change (fits 16 k) in Hk. pose proof (wire_canonical k Hk) as Hw.
  split_and!; [split; cbn; rewrite ?Hw; try done; [by rewrite <- Hr10 in *; split]|cbn; lia|].
  unfold frame. cbn. rewrite Hw. by rewrite Hr1, Hr2, Hr3, Hr4, Hr5, Hr6, Hr7, Hr8, Hr9, Hr10.
Qed.
Lemma read_envelope_here maximum c e : ReadCursor.wf c -> envelope_ok e -> len (payload e) <= maximum -> ReadCursor.rest c = frame e ->
  (read_envelope maximum c).2 = Ok e.
Proof.
  intros Hwf [Hflags [Hk Hkind] Hroom Hsender Hseq Hts [Hp Hlen]] Hmax Hr. unfold read_envelope, frame in *.
  eapply (step_here _ id (fun b => len b = 4) _ _ MAGIC); [apply (codec_take 4); lia|done|done|exact Hr|]. intros c1 Hwf1 Hr1. rewrite (prog_step _ _ c1 c1 tt) by done.
  eapply (step_here _ (fun v => [v]) u8 _ _ VERSION); [apply codec_u8|done|done|exact Hr1|]. intros c2 Hwf2 Hr2. rewrite (prog_step _ _ c2 c2 tt) by done.
  assert (u8 (flags e)) as Hf by (destruct Hflags as ([] & [] & [] & ->); done). apply (flags_allowed _ Hf) in Hflags.
  eapply (step_here _ (fun v => [v])); [apply codec_u8|done|exact Hf|exact Hr2|]. intros c3 Hwf3 Hr3. rewrite (prog_step _ _ c3 c3 tt) by (unfold lift; by rewrite Hflags).
  eapply step_here; [apply (codec_array 2)|done|exact Hk|exact Hr3|]. intros c4 Hwf4 Hr4.
  eapply step_here; [apply codec_u128|done|exact Hroom|exact Hr4|]. intros c5 Hwf5 Hr5.
  eapply step_here; [apply codec_u128|done|exact Hsender|exact Hr5|]. intros c6 Hwf6 Hr6.
  eapply step_here; [apply (codec_array 8)|done|exact Hseq|exact Hr6|]. intros c7 Hwf7 Hr7.
  eapply step_here; [apply (codec_array 8)|done|exact Hts|exact Hr7|]. intros c8 Hwf8 Hr8.
  eapply step_here; [apply (codec_array 4)|done|exact Hlen|exact Hr8|]. intros c9 Hwf9 Hr9.
  rewrite (prog_step _ _ c9 c9 tt) by (unfold lift, reject_if; by replace (maximum <? len (payload e)) with false by lia).
  eapply (step_here _ id (fun b => len b = len (payload e)) _ _ (payload e) []); [apply codec_take, len_nonneg|done|done|by rewrite app_nil_r|]. intros c10 Hwf10 Hr10.
  rewrite (prog_step _ _ c10 c10 c10) by done.
  assert (ReadCursor.is_empty c10 = true) as He by (unfold ReadCursor.is_empty; rewrite <- len_rest, Hr10 by done; done).
  rewrite (prog_step _ _ c10 c10 tt) by (unfold lift; by rewrite He). cbn. rewrite Hkind. by destruct e.
Qed.

Lemma step_returns {A B} (m : prog ReadCursor.t DecodeError A) enc ok (k : A -> prog ReadCursor.t ProtocolError B) c : codec m enc ok -> ReadCursor.wf c -> bytes_ok (ReadCursor.rest c) ->
  (forall a c', ok a -> ReadCursor.wf c' -> bytes_ok (ReadCursor.rest c') -> returns (k a c').2) -> returns ((with_err Decode m ≫= k) c).2.
Proof.
  intros Hm Hwf Hb Hk. unfold mbind, prog_bind, with_err. destruct (co_inv _ _ _ Hm c Hwf Hb) as [(c' & e & ->)|(c' & a & -> & Hwf' & Hr & Ha)]; [done|].
  apply Hk; [done..|]. rewrite Hr in Hb. by apply Forall_app in Hb as [_ ?].
Qed.
Lemma returns_guard {A} g e (k : unit -> prog ReadCursor.t ProtocolError A) c : returns (k tt c).2 -> returns ((lift (reject_if g e) ≫= k) c).2.
Proof. unfold mbind, prog_bind, lift, reject_if. by destruct g. Qed.
Lemma returns_read_envelope maximum c : ReadCursor.wf c -> bytes_ok (ReadCursor.rest c) -> returns (read_envelope maximum c).2.
Proof.
  intros Hwf Hb. unfold read_envelope. eapply step_returns; [apply (codec_take 4); lia|done..|]. intros magic c1 _ Hwf1 Hb1. apply returns_guard.
  eapply step_returns; [apply codec_u8|done..|]. intros version c2 _ Hwf2 Hb2. apply returns_guard.
  eapply step_returns; [apply codec_u8|done..|]. intros f c3 _ Hwf3 Hb3. apply returns_guard.
  eapply step_returns; [apply (codec_array 2)|done..|]. intros k c4 _ Hwf4 Hb4. eapply step_returns; [apply codec_u128|done..|]. intros room c5 _ Hwf5 Hb5.
  eapply step_returns; [apply codec_u128|done..|]. intros sender c6 _ Hwf6 Hb6. eapply step_returns; [apply (codec_array 8)|done..|]. intros seq c7 _ Hwf7 Hb7.
  eapply step_returns; [apply (codec_array 8)|done..|]. intros ts c8 _ Hwf8 Hb8. eapply step_returns; [apply (codec_array 4)|done..|]. intros n c9 Hn Hwf9 Hb9. apply returns_guard.
  eapply step_returns; [apply (codec_take n); unfold fits in Hn; lia|done..|]. intros data c10 _ Hwf10 Hb10. rewrite (prog_step _ _ c10 c10 c10) by done. by apply returns_guard.
Qed.

(** The writer is a list of fields. *)
Definition envelope_fields (e : Envelope) : list field :=
  [FBytes MAGIC; FU8 VERSION; FU8 (flags e); FU16 (to_wire (kind e)); FU64 (Z.shiftr (room_id e) 64); FU64 (Z.land (room_id e) (umax 64));
   FU64 (Z.shiftr (sender_id e) 64); FU64 (Z.land (sender_id e) (umax 64)); FU64 (sequence e); FU64 (timestamp_millis e); FU32 (len (payload e)); FBytes (payload e)].
Lemma extend_exact value b : 0 <= WriteBuffer.limit b <= umax 64 ->
  if len (WriteBuffer.bytes_ b) + len value <=? WriteBuffer.limit b
  then WriteBuffer.extend_from_slice value b = ({| WriteBuffer.bytes_ := WriteBuffer.bytes_ b ++ value; WriteBuffer.limit := WriteBuffer.limit b |}, Ok tt)
  else WriteBuffer.extend_from_slice value b = (b, Err (WriteBuffer.error b (len value))).
Proof.
  intros Hl. destruct (extend_cases value b) as [H|[Hle H]]; [|by replace (_ <=? _) with true by lia].
  destruct (Z.leb_spec (len (WriteBuffer.bytes_ b) + len value) (WriteBuffer.limit b)) as [Hle|]; [|done]. exfalso. unfold WriteBuffer.extend_from_slice in H.
  destruct (checked_add 64 _ _) as [n|] eqn:Hn; [|unfold checked_add, umax in *; case_match; [done|lia]].
  apply checked_add_Some in Hn as [-> _]. by replace (WriteBuffer.limit b <? _) with false in H by lia.
Qed.
Lemma write_fields_exact fs : forall b, 0 <= WriteBuffer.limit b <= umax 64 ->
  if len (WriteBuffer.bytes_ b) + len (fs ≫= field_bytes) <=? WriteBuffer.limit b
  then for_each fs write_field b = ({| WriteBuffer.bytes_ := WriteBuffer.bytes_ b ++ (fs ≫= field_bytes); WriteBuffer.limit := WriteBuffer.limit b |}, Ok tt)
  else fs <> [] -> exists b' e, for_each fs write_field b = (b', Err e).
Proof.
  induction fs as [|f fs IH]; intros b Hl.
  - cbn. case_match; [|done]. rewrite app_nil_r. by destruct b.
  - change ((f :: fs) ≫= field_bytes) with (field_bytes f ++ (fs ≫= field_bytes)). specialize (fun b => IH b). set (rest := fs ≫= field_bytes) in *.
    cbn [for_each]. unfold mbind, prog_bind. rewrite len_app, write_field_extend. pose proof (extend_exact (field_bytes f) b Hl) as H.
    pose proof (len_nonneg rest).
    destruct (Z.leb_spec (len (WriteBuffer.bytes_ b) + len (field_bytes f)) (WriteBuffer.limit b)) as [Hf|Hf]; rewrite H.
    + specialize (IH {| WriteBuffer.bytes_ := WriteBuffer.bytes_ b ++ field_bytes f; WriteBuffer.limit := WriteBuffer.limit b |} Hl). cbn in IH. rewrite len_app in IH.
      rewrite Z.add_assoc. case_match eqn:Hle; [by rewrite IH, <- app_assoc|]. intros _. apply IH. intros ->. change (len rest) with 0 in Hle. lia.
    + replace (_ <=? _) with false by lia. intros _. by eexists _, _.
Qed.
Lemma write_envelope_fields e b : envelope_ok e -> write_envelope e (len (payload e)) b = for_each (envelope_fields e) write_field b.
Proof.
  intros He. destruct (u128_halves _ (eo_room _ He)) as (Hh & Hl & _). destruct (u128_halves _ (eo_sender _ He)) as (Hh' & Hl' & _).
  unfold write_envelope, write_u128. rewrite !try_from_fits by (unfold fits, umax in *; lia). cbn [default from_option id envelope_fields for_each write_field].
  unfold mbind, prog_bind. repeat match goal with |- context [match ?x with (_, _) => _ end] =>
    lazymatch x with context [match _ with _ => _ end] => fail | _ => destruct x as [? [[]| | |]]; try done end end.
Qed.
Lemma envelope_fields_bytes e : envelope_ok e -> envelope_fields e ≫= field_bytes = frame e.
Proof.
  intros He. destruct (u128_halves _ (eo_room _ He)) as (Hh & Hl & Hj). destruct (u128_join _ _ Hh Hl) as [_ Hb]. rewrite Hj in Hb.
  destruct (u128_halves _ (eo_sender _ He)) as (Hh' & Hl' & Hj'). destruct (u128_join _ _ Hh' Hl') as [_ Hb']. rewrite Hj' in Hb'.
  cbn [envelope_fields mbind list_bind field_bytes]. unfold frame. rewrite Hb, Hb'. by rewrite <- !app_assoc, app_nil_r.
Qed.

Lemma decode_exact maximum input e : bytes_ok input -> decode input maximum = Ok e <-> envelope_ok e /\ len (payload e) <= maximum /\ input = frame e.
Proof.
  intros Hb. unfold decode. pose proof (cursor_new_wf input) as Hwf. pose proof (cursor_new_rest input) as Hr. split.
  - intros H. destruct (reject_if _ _) as [[]| | |] eqn:Hg; [|done..]. cbn in H. rewrite <- Hr in Hb |- *. by apply read_envelope_inv in H.
  - intros (He & Hmax & ->). unfold reject_if. rewrite len_frame. replace (_ <? HEADER_LEN) with false by (pose proof (len_nonneg (payload e)); lia). cbn.
    by apply read_envelope_here.
Qed.
Lemma encode_exact maximum e : envelope_ok e -> if (len (payload e) <=? maximum) && (len (frame e) <=? MAX_WIRE_LEN) then encode e maximum = Ok (frame e)
  else exists error, encode e maximum = Err error.
Proof.
  intros He. rewrite len_frame. unfold encode. pose proof (eo_payload _ He) as [_ Hp]. rewrite try_from_fits by (unfold fits, umax in *; lia). unfold reject_if.
  destruct (Z.leb_spec (len (payload e)) maximum) as [Hle|Hgt]; [|replace (maximum <? _) with true by lia; by eexists].
  replace (maximum <? _) with false by lia. cbn [mbind outcome_bind ok_or andb]. rewrite write_envelope_fields by done.
  pose proof (write_fields_exact (envelope_fields e) (WriteBuffer.with_limit MAX_WIRE_LEN) ltac:(done)) as H. rewrite envelope_fields_bytes in H by done.
  cbn [WriteBuffer.with_limit WriteBuffer.bytes_ WriteBuffer.limit] in H. change (len [] + len (frame e)) with (len (frame e)) in H. rewrite len_frame in H.
  destruct (_ <=? MAX_WIRE_LEN); [by rewrite H|]. destruct (H ltac:(done)) as (b' & e' & ->). by eexists.
Qed.
Lemma returns_decode maximum input : bytes_ok input -> returns (decode input maximum).
Proof.
  intros Hb. unfold decode. destruct (reject_if _ _) as [[]| | |] eqn:Hg; [|done|by unfold reject_if in Hg; case_match..].
  apply returns_read_envelope; [apply cursor_new_wf|by rewrite cursor_new_rest].
Qed.


Definition example_envelope : Envelope :=
  {| flags := flags_new true true false; kind := Chat; room_id := 2 ^ 128 - 2; sender_id := 42; sequence := 99; timestamp_millis := 1700000000000; payload := octets "hello" |}.
Lemma example_envelope_ok : envelope_ok example_envelope.
Proof. split; try (by exists true, true, false); try (split; [repeat constructor; eval_facts|eval_facts]); try (split; eval_facts); eval_facts. Qed.
