(* ===== verification/StatusService.v ===== *)
(** * control-plane/status-service: heartbeats and the status of the platform (src/lib.rs)

    Every process reports itself; the registry keeps the last report of each and forgets those that are too old.  A [BTreeMap] is a
    finite map with its values in the order of the keys; the parser of the [url] crate is an interface. *)
From stdpp Require Import sorting.
From S2P Require Import Prelude Words Slices RustStd RustStr.

(** ** [BTreeMap<String, _>] *)
Fixpoint bytes_le (a b : bytes) : bool :=
  match a, b with
  | [], _ => true
  | _ :: _, [] => false
  | x :: a, y :: b => (x <? y) || ((x =? y) && bytes_le a b)
  end.
Definition by_key {V} : relation (bytes * V) := fun a b => bytes_le a.1 b.1 = true.
#[export] Instance by_key_dec {V} : RelDecision (@by_key V).
Proof. intros a b. unfold by_key. apply _. Defined.
Definition values {V} (m : gmap bytes V) : list V := snd <$> merge_sort by_key (map_to_list m).

(** ** Data *)
Inductive ServiceKind := Api | MediaNode | MediaWorker | MediaGateway | TurnRelay | EventDispatcher.
#[export] Instance ServiceKind_eq_dec : EqDecision ServiceKind.
Proof. solve_decision. Defined.
Definition as_str (k : ServiceKind) : bytes :=
  match k with
  | Api => octets "api" | MediaNode => octets "media_node" | MediaWorker => octets "media_worker" | MediaGateway => octets "media_gateway"
  | TurnRelay => octets "turn" | EventDispatcher => octets "event_dispatcher"
  end.
Record NodeCapacity := {
  rooms_limit : Z; rooms_used : Z; sessions_limit : Z; sessions_used : Z; publisher_tracks : Z; subscriber_tracks : Z; cpu_per_mille : Z;
  memory_bytes : Z; jobs_limit : Z; jobs_used : Z; assets : Z; live_streams : Z; turn_allocations : Z }.
Record NodeHeartbeatInput := {
  in_service : ServiceKind; in_region : bytes; in_version : bytes; in_control_endpoint : option bytes; in_media_candidate : option bytes;
  in_healthy : bool; in_draining : bool; in_capacity : NodeCapacity }.
Record NodeStatus := {
  node_id : bytes; service : ServiceKind; region : bytes; version : bytes; control_endpoint : option bytes; media_candidate : option bytes;
  healthy : bool; draining : bool; node_capacity : NodeCapacity; observed_at_millis : Z }.
Record AggregateCapacity := {
  agg_rooms_limit : Z; agg_rooms_used : Z; agg_sessions_limit : Z; agg_sessions_used : Z; agg_publisher_tracks : Z; agg_subscriber_tracks : Z;
  agg_jobs_limit : Z; agg_jobs_used : Z; agg_assets : Z; agg_live_streams : Z; agg_turn_allocations : Z }.
Definition default_capacity : AggregateCapacity :=
  {| agg_rooms_limit := 0; agg_rooms_used := 0; agg_sessions_limit := 0; agg_sessions_used := 0; agg_publisher_tracks := 0; agg_subscriber_tracks := 0;
     agg_jobs_limit := 0; agg_jobs_used := 0; agg_assets := 0; agg_live_streams := 0; agg_turn_allocations := 0 |}.
Record ServiceSummary := { total : Z; available : Z; summary_draining : Z }.
Definition default_summary : ServiceSummary := {| total := 0; available := 0; summary_draining := 0 |}.
Record PlatformStatus := {
  status_available : bool; nodes : gmap bytes NodeStatus; services : gmap bytes ServiceSummary; capacity : AggregateCapacity; generated_at_millis : Z }.
Record StatusRegistry := { registered : gmap bytes NodeStatus; heartbeat_ttl_millis : Z }.
Inductive RegistryError := InvalidNodeId | InvalidRegion | InvalidVersion | InvalidControlEndpoint | InvalidMediaCandidate | InvalidCapacity.

(** What the code asks of a parsed URL. *)
Record Url := { scheme : bytes; host_str : option bytes; url_username : bytes; url_password : option bytes; path : bytes; query : option bytes; fragment : option bytes }.
Class UrlParser := { url_parse : bytes -> option Url }.

(** ** Validation *)
Definition is_ascii_control (c : Z) : bool := (c <? 32) || (c =? 127).
Definition is_ascii_alphanumeric (c : Z) : bool := in_range 48 57 c || in_range 65 90 c || in_range 97 122 c.
Definition valid_identifier (value : bytes) (maximum : Z) : bool :=
  negb (len value =? 0) && (len value <=? maximum)
  && forallb (fun byte => is_ascii_alphanumeric byte || (byte =? 0x2d) || (byte =? 0x5f) || (byte =? 0x2e)) value.
Definition bounded_text (maximum : Z) (value : bytes) : bool :=
  negb ((len value =? 0) || (maximum <? len value) || existsb is_ascii_control value).

Section Registry.
Context {urls : UrlParser}.

Definition valid_http_origin (value : bytes) : bool :=
  if negb (bounded_text 2048 value) then false
  else
    match url_parse value with
    | None => false
    | Some parsed =>
        (bool_decide (scheme parsed = octets "http") || bool_decide (scheme parsed = octets "https"))
        && bool_decide (is_Some (host_str parsed)) && (len (url_username parsed) =? 0) && bool_decide (url_password parsed = None)
        && (bool_decide (path parsed = []) || bool_decide (path parsed = octets "/")) && bool_decide (query parsed = None)
        && bool_decide (fragment parsed = None)
    end.
Definition validate_heartbeat (node_id : bytes) (input : NodeHeartbeatInput) : outcome RegistryError unit :=
  _ ← reject_if (negb (valid_identifier node_id 128)) InvalidNodeId;
  _ ← reject_if (negb (valid_identifier (in_region input) 64)) InvalidRegion;
  _ ← reject_if (negb (bounded_text 128 (in_version input))) InvalidVersion;
  _ ← reject_if (from_option (fun e => negb (valid_http_origin e)) false (in_control_endpoint input)) InvalidControlEndpoint;
  _ ← reject_if (from_option (fun c => negb (bounded_text 2048 c)) false (in_media_candidate input)) InvalidMediaCandidate;
  reject_if ((rooms_limit (in_capacity input) <? rooms_used (in_capacity input)) || (sessions_limit (in_capacity input) <? sessions_used (in_capacity input))
    || (jobs_limit (in_capacity input) <? jobs_used (in_capacity input)) || (1000 <? cpu_per_mille (in_capacity input))) InvalidCapacity.

(** ** The registry *)
Definition new (heartbeat_ttl_millis : Z) : StatusRegistry := {| registered := ∅; heartbeat_ttl_millis := heartbeat_ttl_millis |}.
Definition status_of (node_id : bytes) (input : NodeHeartbeatInput) (observed_at_millis : Z) : NodeStatus :=
  {| node_id := node_id; service := in_service input; region := in_region input; version := in_version input; control_endpoint := in_control_endpoint input;
     media_candidate := in_media_candidate input; healthy := in_healthy input; draining := in_draining input; node_capacity := in_capacity input;
     observed_at_millis := observed_at_millis |}.
Definition upsert (node_id : bytes) (input : NodeHeartbeatInput) (observed_at_millis : Z) : prog StatusRegistry RegistryError unit :=
  _ ← lift (validate_heartbeat node_id input);
  modify (fun self => {| registered := <[node_id := status_of node_id input observed_at_millis]> (registered self);
                         heartbeat_ttl_millis := heartbeat_ttl_millis self |}).

Definition add_capacity (aggregate : AggregateCapacity) (node : NodeStatus) : AggregateCapacity :=
  let add := saturating_add 64 in
  let c := node_capacity node in
  {| agg_rooms_limit := add (agg_rooms_limit aggregate) (rooms_limit c); agg_rooms_used := add (agg_rooms_used aggregate) (rooms_used c);
     agg_sessions_limit := add (agg_sessions_limit aggregate) (sessions_limit c); agg_sessions_used := add (agg_sessions_used aggregate) (sessions_used c);
     agg_publisher_tracks := add (agg_publisher_tracks aggregate) (publisher_tracks c);
     agg_subscriber_tracks := add (agg_subscriber_tracks aggregate) (subscriber_tracks c);
     agg_jobs_limit := add (agg_jobs_limit aggregate) (jobs_limit c); agg_jobs_used := add (agg_jobs_used aggregate) (jobs_used c);
     agg_assets := add (agg_assets aggregate) (assets c); agg_live_streams := add (agg_live_streams aggregate) (live_streams c);
     agg_turn_allocations := add (agg_turn_allocations aggregate) (turn_allocations c) |}.
Definition serves (node : NodeStatus) : bool := healthy node && negb (draining node).
Definition add_summary (s : ServiceSummary) (node : NodeStatus) : ServiceSummary :=
  {| total := saturating_add 64 (total s) 1; available := if serves node then saturating_add 64 (available s) 1 else available s;
     summary_draining := if draining node then saturating_add 64 (summary_draining s) 1 else summary_draining s |}.
Definition add_service (services : gmap bytes ServiceSummary) (node : NodeStatus) : gmap bytes ServiceSummary :=
  <[as_str (service node) := add_summary (default default_summary (services !! as_str (service node))) node]> services.
Definition fresh (now_millis ttl : Z) (node : NodeStatus) : bool := saturating_sub now_millis (observed_at_millis node) <=? ttl.

Definition snapshot (now_millis : Z) (self : StatusRegistry) : StatusRegistry * PlatformStatus :=
  let retained := filter (fun kv => fresh now_millis (heartbeat_ttl_millis self) kv.2 = true) (registered self) in
  ({| registered := retained; heartbeat_ttl_millis := heartbeat_ttl_millis self |},
   {| status_available := existsb (fun node => bool_decide (service node = MediaNode) && serves node) (values retained);
      nodes := retained;
      services := foldl add_service ∅ (values retained);
      capacity := foldl add_capacity default_capacity (values retained);
      generated_at_millis := now_millis |}).
End Registry.

(** ** What a status says *)
Lemma values_elem {V} (m : gmap bytes V) x : x ∈ values m <-> exists k, m !! k = Some x.
Proof.
  unfold values. rewrite list_elem_of_fmap. split.
  - intros ([k y] & -> & Hy). rewrite (merge_sort_Permutation by_key (map_to_list m)), elem_of_map_to_list in Hy. by exists k.
  - intros [k Hk]. exists (k, x). split; [done|]. by rewrite (merge_sort_Permutation by_key (map_to_list m)), elem_of_map_to_list.
Qed.
Lemma values_length {V} (m : gmap bytes V) : length (values m) = size m.
Proof. unfold values. rewrite length_fmap, (merge_sort_Permutation by_key (map_to_list m)). apply length_map_to_list. Qed.

(** A saturating sum over the nodes. *)
Definition sum_of {A} (f : A -> Z) (l : list A) : Z := foldr (fun x s => f x + s) 0 l.
Lemma saturating_sum {A B} (add : B -> A -> B) (get : B -> Z) (f : A -> Z) l b : (forall b x, get (add b x) = saturating_add 64 (get b) (f x)) ->
  Forall (fun x => 0 <= f x) l -> 0 <= get b <= umax 64 -> get (foldl add b l) = Z.min (umax 64) (get b + sum_of f l).
Proof.
  intros Hadd Hl. revert b. induction Hl as [|x l Hx Hl IH]; intros b Hb; cbn [foldl sum_of foldr]; [lia|]. fold (sum_of f l).
  assert (0 <= sum_of f l) by (clear -Hl; induction Hl; cbn; [lia|fold (sum_of f l); lia]). rewrite IH; rewrite Hadd; unfold saturating_add in *; lia.
Qed.

Definition capacity_ok (c : NodeCapacity) : Prop :=
  u64 (rooms_limit c) /\ u64 (rooms_used c) /\ u64 (sessions_limit c) /\ u64 (sessions_used c) /\ u64 (publisher_tracks c) /\ u64 (subscriber_tracks c) /\
  u64 (jobs_limit c) /\ u64 (jobs_used c) /\ u64 (assets c) /\ u64 (live_streams c) /\ u64 (turn_allocations c).
Definition totals (l : list NodeStatus) : AggregateCapacity :=
  let sum f := Z.min (umax 64) (sum_of (fun node => f (node_capacity node)) l) in
  {| agg_rooms_limit := sum rooms_limit; agg_rooms_used := sum rooms_used; agg_sessions_limit := sum sessions_limit; agg_sessions_used := sum sessions_used;
     agg_publisher_tracks := sum publisher_tracks; agg_subscriber_tracks := sum subscriber_tracks; agg_jobs_limit := sum jobs_limit; agg_jobs_used := sum jobs_used;
     agg_assets := sum assets; agg_live_streams := sum live_streams; agg_turn_allocations := sum turn_allocations |}.
Lemma capacity_totals l : Forall (fun node => capacity_ok (node_capacity node)) l -> foldl add_capacity default_capacity l = totals l.
Proof.
  intros Hl. assert (forall get (f : NodeCapacity -> Z), (forall b x, get (add_capacity b x) = saturating_add 64 (get b) (f (node_capacity x))) -> get default_capacity = 0 ->
    (forall c, capacity_ok c -> 0 <= f c) -> get (foldl add_capacity default_capacity l) = Z.min (umax 64) (sum_of (fun node => f (node_capacity node)) l)) as H.
  { intros get f Hadd H0 Hf. rewrite (saturating_sum add_capacity get (fun node => f (node_capacity node))); [by rewrite H0|done| |rewrite H0; done].
    eapply Forall_impl; [exact Hl|]. intros node Hn. by apply Hf. }
  assert (forall x y, agg_rooms_limit x = agg_rooms_limit y -> agg_rooms_used x = agg_rooms_used y -> agg_sessions_limit x = agg_sessions_limit y ->
    agg_sessions_used x = agg_sessions_used y -> agg_publisher_tracks x = agg_publisher_tracks y -> agg_subscriber_tracks x = agg_subscriber_tracks y ->
    agg_jobs_limit x = agg_jobs_limit y -> agg_jobs_used x = agg_jobs_used y -> agg_assets x = agg_assets y -> agg_live_streams x = agg_live_streams y ->
    agg_turn_allocations x = agg_turn_allocations y -> x = y) as Hext by (intros [] []; cbn; congruence).
  apply Hext; apply H; try done; intros c Hc; unfold capacity_ok, fits in Hc; lia.
Qed.

(** The summary of a kind counts its nodes. *)
Definition counted (k : ServiceKind) (P : NodeStatus -> bool) (l : list NodeStatus) : Z := len (filter (fun node => service node = k /\ P node = true) l).
Lemma as_str_inj k k' : as_str k = as_str k' -> k = k'.
Proof. by destruct k, k'. Qed.
Lemma counted_app k P l x : counted k P (l ++ [x]) = counted k P l + if bool_decide (service x = k /\ P x = true) then 1 else 0.
Proof. unfold counted. rewrite filter_app, len_app. f_equal. rewrite filter_cons, filter_nil. case_decide; case_bool_decide; try done; tauto. Qed.
Lemma service_counts l k : Z.of_nat (length l) <= umax 64 ->
  default default_summary (foldl add_service ∅ l !! as_str k) =
  {| total := counted k (fun _ => true) l; available := counted k serves l; summary_draining := counted k draining l |}.
Proof.
  induction l as [|x l IH] using rev_ind; intros Hlen; [cbn; by rewrite lookup_empty|]. rewrite length_app in Hlen. cbn [length] in Hlen. specialize (IH ltac:(lia)).
  rewrite foldl_app. cbn [foldl]. unfold add_service at 1. rewrite !counted_app. assert (forall P, 0 <= counted k P l <= Z.of_nat (length l)) as Hb.
  { intros P. unfold counted, len. pose proof (length_filter (fun node => service node = k /\ P node = true) l). lia. }
  destruct (decide (service x = k)) as [<-|Hne].
  - rewrite lookup_insert_eq. cbn [default from_option id]. rewrite IH. unfold add_summary. cbn [total available summary_draining]. unfold saturating_add.
    pose proof (Hb (fun _ => true)). pose proof (Hb serves). pose proof (Hb draining).
    f_equal; [rewrite bool_decide_eq_true_2 by done; lia|destruct (serves x)|destruct (draining x)]; case_bool_decide as H'; try lia; try tauto; exfalso; naive_solver.
  - rewrite lookup_insert_ne by (intros E; by apply as_str_inj in E). rewrite IH. f_equal; rewrite bool_decide_eq_false_2 by tauto; lia.
Qed.

(** * status-service: what a status reports

    The registry under every sequence of requests, against the log of the accepted heartbeats. *)

Section Reports.
Context {urls : UrlParser}.

(** ** The requests of the service, and the log of what the processes said *)
Inductive Request :=
  | Heartbeat (node_id : bytes) (input : NodeHeartbeatInput) (now : Z)
  | Status (now : Z).
Definition serve (self : StatusRegistry) (r : Request) : StatusRegistry :=
  match r with
  | Heartbeat node_id input now => (upsert node_id input now self).1
  | Status now => (snapshot now self).1
  end.
Definition serve_all (ttl : Z) (requests : list Request) : StatusRegistry := foldl serve (new ttl) requests.

Definition said (id : bytes) (r : Request) : option NodeStatus :=
  match r with
  | Heartbeat node_id input now =>
      if bool_decide (node_id = id) then match validate_heartbeat node_id input with Ok _ => Some (status_of node_id input now) | _ => None end else None
  | Status _ => None
  end.
(** The last accepted report of a node. *)
Definition last_said (requests : list Request) (id : bytes) : option NodeStatus :=
  foldl (fun last r => match said id r with Some node => Some node | None => last end) None requests.
Definition asked_before (now : Z) (r : Request) : Prop := match r with Status t => t <= now | _ => True end.
Definition reports_capacity (r : Request) : Prop := match r with Heartbeat _ input _ => capacity_ok (in_capacity input) | _ => True end.

Lemma said_valid id r node : said id r = Some node -> exists input now, r = Heartbeat id input now /\ validate_heartbeat id input = Ok tt /\ node = status_of id input now.
Proof.
  destruct r as [node_id input now|now]; cbn; [|done]. case_bool_decide as Hid; [|done]. subst node_id. destruct (validate_heartbeat id input) as [[]| | |] eqn:Hv; [|done..].
  intros [= <-]. by exists input, now.
Qed.
Lemma last_said_app requests r id : last_said (requests ++ [r]) id = match said id r with Some node => Some node | None => last_said requests id end.
Proof. unfold last_said. by rewrite foldl_app. Qed.

(** Time only makes a report older. *)
Lemma fresh_earlier t now ttl node : t <= now -> fresh now ttl node = true -> fresh t ttl node = true.
Proof. unfold fresh, saturating_sub. rewrite !Z.leb_le. lia. Qed.

(** ** One request *)
Lemma serve_heartbeat self node_id input now : serve self (Heartbeat node_id input now) =
  match validate_heartbeat node_id input with
  | Ok _ => {| registered := <[node_id := status_of node_id input now]> (registered self); heartbeat_ttl_millis := heartbeat_ttl_millis self |}
  | _ => self
  end.
Proof. cbn -[validate_heartbeat]. unfold upsert. cbn -[validate_heartbeat]. by destruct (validate_heartbeat node_id input) as [[]| | |]. Qed.
Lemma serve_ttl self r : heartbeat_ttl_millis (serve self r) = heartbeat_ttl_millis self.
Proof. destruct r as [node_id input now|now]; [|done]. rewrite serve_heartbeat. by destruct (validate_heartbeat node_id input) as [[]| | |]. Qed.
Lemma upsert_step self node_id input now id :
  registered (serve self (Heartbeat node_id input now)) !! id = match said id (Heartbeat node_id input now) with Some node => Some node | None => registered self !! id end.
Proof.
  rewrite serve_heartbeat. unfold said. destruct (validate_heartbeat node_id input) as [[]| | |]; cbn [registered]; [|by case_bool_decide..].
  case_bool_decide as Hid; [by subst; rewrite lookup_insert_eq|by rewrite lookup_insert_ne].
Qed.
Lemma snapshot_step self now id :
  registered (serve self (Status now)) !! id = (node ← registered self !! id; if fresh now (heartbeat_ttl_millis self) node then Some node else None).
Proof.
  cbn. rewrite map_lookup_filter. destruct (registered self !! id) as [node|]; [|done]. cbn. by destruct (fresh now _ node) eqn:Hf; case_guard; cbn in *; congruence.
Qed.

(** ** The registry is the log without what was already too old when somebody asked *)
Definition registry_of (ttl now : Z) (requests : list Request) (self : StatusRegistry) : Prop :=
  heartbeat_ttl_millis self = ttl /\
  forall id, registered self !! id = last_said requests id \/
    (registered self !! id = None /\ exists node, last_said requests id = Some node /\ fresh now ttl node = false).
Lemma serve_registry ttl now requests self r : asked_before now r -> registry_of ttl now requests self -> registry_of ttl now (requests ++ [r]) (serve self r).
Proof.
  intros Hr [Httl Hself]. split; [by rewrite serve_ttl|]. intros id. rewrite last_said_app. destruct r as [node_id input t|t].
  - rewrite upsert_step. destruct (said id (Heartbeat node_id input t)); [by left|]. apply Hself.
  - rewrite snapshot_step, Httl. cbn [said]. destruct (Hself id) as [->|[-> (node & Hn & Hf)]]; [|right; eauto].
    destruct (last_said requests id) as [node|]; [|by left]. cbn. destruct (fresh t ttl node) eqn:Hf; [by left|]. right. split; [done|]. exists node. split; [done|].
    apply not_true_is_false. intros Hn. by rewrite (fresh_earlier t now) in Hf.
Qed.
Lemma serve_all_registry ttl now requests : Forall (asked_before now) requests -> registry_of ttl now requests (serve_all ttl requests).
Proof.
  unfold serve_all. induction requests as [|r requests IH] using rev_ind; intros Hr; [split; [done|intros id; left; cbn; apply lookup_empty]|].
  apply Forall_app in Hr as [Hrs Hr]. rewrite foldl_app. apply serve_registry; [by inversion Hr|by apply IH].
Qed.
Lemma fresh_nodes ttl now requests id : Forall (asked_before now) requests ->
  nodes (snapshot now (serve_all ttl requests)).2 !! id = (node ← last_said requests id; if fresh now ttl node then Some node else None).
Proof.
  intros Hr. destruct (serve_all_registry ttl now requests Hr) as [Httl Hself].
  change (nodes (snapshot now (serve_all ttl requests)).2) with (registered (serve (serve_all ttl requests) (Status now))).
  rewrite snapshot_step, Httl. destruct (Hself id) as [->|[-> (node & -> & Hf)]]; [done|]. cbn. by rewrite Hf.
Qed.
Lemma last_said_capacity requests id node : Forall reports_capacity requests -> last_said requests id = Some node -> capacity_ok (node_capacity node).
Proof.
  induction requests as [|r requests IH] using rev_ind; intros Hr; [done|]. apply Forall_app in Hr as [Hrs Hr]. rewrite last_said_app.
  destruct (said id r) as [node'|] eqn:Hs; [|by apply IH]. intros [= <-]. apply said_valid in Hs as (input & now & -> & _ & ->). by inversion Hr.
Qed.

(** There is at most one node for every heartbeat. *)
Definition heartbeats (requests : list Request) : nat := foldr (fun r n => match r with Heartbeat _ _ _ => S n | Status _ => n end) 0%nat requests.
Lemma heartbeats_app l l' : heartbeats (l ++ l') = (heartbeats l + heartbeats l')%nat.
Proof. induction l as [|[] l IH]; cbn; [done|f_equal; exact IH|exact IH]. Qed.
Lemma heartbeats_length l : (heartbeats l <= length l)%nat.
Proof. induction l as [|[] l IH]; cbn; [done|by apply le_n_S|by apply Nat.le_le_succ_r]. Qed.
Lemma serve_all_size ttl requests : (size (registered (serve_all ttl requests)) <= heartbeats requests)%nat.
Proof.
  unfold serve_all. induction requests as [|r requests IH] using rev_ind; [done|]. rewrite foldl_app, heartbeats_app. cbn [foldl].
  set (self := foldl serve (new ttl) requests) in *. destruct r as [node_id input t|t]; cbn [heartbeats foldr].
  - rewrite serve_heartbeat. destruct (validate_heartbeat node_id input) as [[]| | |]; cbn [registered]; [|lia..]. rewrite map_size_insert. destruct (registered self !! node_id); cbn; lia.
  - cbn [serve snapshot fst registered]. etrans; [apply map_subseteq_size, map_filter_subseteq|lia].
Qed.

End Reports.

(** ** A registry at work *)
#[local] Instance no_urls : UrlParser := {| url_parse := fun _ => None |}.
Definition some_capacity : NodeCapacity :=
  {| rooms_limit := 100; rooms_used := 10; sessions_limit := 1000; sessions_used := 50; publisher_tracks := 20; subscriber_tracks := 100; cpu_per_mille := 250;
     memory_bytes := 1000000; jobs_limit := 0; jobs_used := 0; assets := 0; live_streams := 0; turn_allocations := 0 |}.
Definition heartbeat_of (k : ServiceKind) (healthy draining : bool) : NodeHeartbeatInput :=
  {| in_service := k; in_region := octets "cn-east"; in_version := octets "0.1.0"; in_control_endpoint := None; in_media_candidate := None;
     in_healthy := healthy; in_draining := draining; in_capacity := some_capacity |}.
(** A node that is overtaken by its own later report, one that is forgotten, one whose report is refused, and a query in between. *)
Definition some_requests : list Request :=
  [ Heartbeat (octets "node-a") (heartbeat_of MediaNode true true) 0; Heartbeat (octets "worker-b") (heartbeat_of MediaWorker true false) 100; Status 5000;
    Heartbeat (octets "node c") (heartbeat_of MediaNode true false) 9000; Heartbeat (octets "node-a") (heartbeat_of MediaNode true false) 12000; Status 12500 ].

(** A healthy worker that is not draining does not make the platform available. *)
Example other_services_do_not_count :
  status_available (snapshot 10 (serve_all 1000 [Heartbeat (octets "worker-b") (heartbeat_of MediaWorker true false) 10])).2 = false.
Proof. by vm_compute. Qed.
