(* ===== verification/ApiServer.v ===== *)
(** * services/api-server: rooms behind the HTTP interface (src/persistence.rs, services/, routes/rooms.rs, routes/signaling.rs, signals.rs, gift.rs)

    The API server keeps every room in memory and writes a snapshot file before it acknowledges a change; the variant with a directory
    ([RoomPersistence::Files]) is modelled, with the same operating system as the media worker's.  A program collects in [trail] every state of
    the directory on its way, where the process can die.  A call that holds the mutation lock is one program; the clock is read once per request.
    JSON is an interface. *)
From stdpp Require Import sorting.
From S2P Require Import Prelude Words Slices RustStd RustStr RustText.
From S2P Require Domain Auth WorkerFences SfuRuntime.
Import SfuRuntime (HashIteration, iter).
Import WorkerFences (Entry(..), Os, opens, partial, writes, renames, removes, lists, pid, extension, padded).
Import Domain (RoomMode(..), MemberRole(..), RoomPolicy, RoomEvent, RoomSnapshot, Room, RoomCommand(..)).
Import Auth (AuthCrypto, Claims).
#[local] Existing Instances Domain.RoomMode_eq_dec Domain.MemberRole_eq_dec.

Definition EVENT_CHANNEL_CAPACITY : Z := 128.
Definition MAX_ROOM_SNAPSHOT_BYTES : Z := 32 * 1024 * 1024.
Definition SIDE_EFFECT_HISTORY_LIMIT : Z := 4096.
Definition MAX_SIGNAL_PAGE_MESSAGES : Z := 128.
Definition MAX_SIGNAL_PAYLOAD_BYTES : Z := 64 * 1024.
Definition MAX_SIGNAL_CACHE_BYTES : Z := 8 * 1024 * 1024.
Definition SIGNAL_BACKLOG : Z := MAX_SIGNAL_PAGE_MESSAGES.
Definition EVENT_TICKET_TTL_MILLIS : Z := 30000.

(** [str::strip_prefix] and [str::strip_suffix] with a string *)
Definition strip_prefix_str (prefix value : bytes) : option bytes :=
  if bool_decide (take (length prefix) value = prefix) then Some (drop (length prefix) value) else None.
Definition strip_suffix_str (suffix value : bytes) : option bytes :=
  reverse <$> strip_prefix_str (reverse suffix) (reverse value).

(** ** Data *)
(** The values of [serde_json] and how they are written. *)
Class JsonValues := {
  Value : Type;
  json_string : bytes -> Value;
  json_number : Z -> Value;
  json_object : list (bytes * Value) -> Value;
  value_to_vec : Value -> option bytes }.

Section Data.
Context {values : JsonValues}.
Record SignalRecord := {
  sg_command_id : option Z; sg_sequence : Z; sg_from : bytes; sg_to : option bytes; sg_kind : bytes; sg_payload : Value; sg_timestamp_millis : Z }.
Record ManagedRoom := {
  room : Room;
  creation_event : RoomEvent;
  persistence_revision : Z;
  signals : list SignalRecord;
  signal_cache_bytes : Z;
  next_signal_sequence : Z;
  side_effect_commands : gset Z;
  side_effect_order : list Z }.
End Data.

Record PersistedRoom := {
  p_room_id : Z;
  p_mode : RoomMode;
  p_policy : RoomPolicy;
  p_events : list RoomEvent;
  p_state : option RoomSnapshot;
  p_creation_event : option RoomEvent;
  p_persistence_revision : Z;
  p_side_effect_order : list Z }.
Definition creation_event_of (self : PersistedRoom) : option RoomEvent :=
  match p_creation_event self with Some event => Some event | None => head (p_events self) end.
Definition creation_command_id (self : PersistedRoom) : option Z := Domain.command_id <$> creation_event_of self.

Class ApiJson {values : JsonValues} := {
  signal_to_vec : SignalRecord -> option bytes;
  signal_written signal : exists b, signal_to_vec signal = Some b /\ len b < 2 ^ 63;
  to_vec : PersistedRoom -> option bytes;
  from_slice : bytes -> option PersistedRoom;
  from_to p b : to_vec p = Some b -> from_slice b = Some p }.

(** An error is named by its code. *)
Inductive ApiError :=
| Unauthorized
| Forbidden
| RoomNotFound
| RoomCommandRejected (error : Domain.RoomError)
| PersistenceRevisionExhausted
| RoomRevisionConflict
| RoomSnapshotTooLarge
| RoomSnapshotRevisionConflict
| StatePersistenceFailed
| CorruptRoomSnapshot
| InternalError
| InvalidRoomMode
| InvalidMemberRole
| MissingIdempotencyKey
| InvalidId
| PublisherNotStarted
| WrongRoomMode
| SignalTooLarge
| InvalidSignalKind
| InvalidGiftReceiptSignature
| InvalidTokenRevocation
| EventTicketCapacity.

Record EventTicket := { et_room_id : Z; et_participant : Z; et_expires_at_millis : Z }.

Section Server.
Context {values : JsonValues} {json : ApiJson} {iteration : HashIteration} {crypto : AuthCrypto}.
Abbreviation Directory := (gmap bytes Entry) (only parsing).

(** ** The state

    [AppState] with the directory; a channel is what was sent on it. *)
Record AppState := {
  rooms : gmap Z ManagedRoom;
  room_creations : gmap Z Z;
  event_channels : gmap Z (list SignalRecord);
  event_tickets : gmap bytes EventTicket;
  revoked_tokens : gmap (Z * Z) Z;
  active_rooms : Z;
  directory : gmap bytes Entry;
  trail : list (gmap bytes Entry) }.
Abbreviation api := (prog AppState ApiError).
Definition set_rooms (r : gmap Z ManagedRoom) (s : AppState) : AppState :=
  {| rooms := r; room_creations := room_creations s; event_channels := event_channels s; event_tickets := event_tickets s; revoked_tokens := revoked_tokens s;
     active_rooms := active_rooms s; directory := directory s; trail := trail s |}.
Definition set_creations (c : gmap Z Z) (s : AppState) : AppState :=
  {| rooms := rooms s; room_creations := c; event_channels := event_channels s; event_tickets := event_tickets s; revoked_tokens := revoked_tokens s;
     active_rooms := active_rooms s; directory := directory s; trail := trail s |}.
Definition set_channels (c : gmap Z (list SignalRecord)) (s : AppState) : AppState :=
  {| rooms := rooms s; room_creations := room_creations s; event_channels := c; event_tickets := event_tickets s; revoked_tokens := revoked_tokens s;
     active_rooms := active_rooms s; directory := directory s; trail := trail s |}.
Definition set_tickets (t : gmap bytes EventTicket) (s : AppState) : AppState :=
  {| rooms := rooms s; room_creations := room_creations s; event_channels := event_channels s; event_tickets := t; revoked_tokens := revoked_tokens s;
     active_rooms := active_rooms s; directory := directory s; trail := trail s |}.
Definition set_revoked (t : gmap (Z * Z) Z) (s : AppState) : AppState :=
  {| rooms := rooms s; room_creations := room_creations s; event_channels := event_channels s; event_tickets := event_tickets s; revoked_tokens := t;
     active_rooms := active_rooms s; directory := directory s; trail := trail s |}.
Definition add_active_rooms (n : Z) (s : AppState) : AppState :=
  {| rooms := rooms s; room_creations := room_creations s; event_channels := event_channels s; event_tickets := event_tickets s; revoked_tokens := revoked_tokens s;
     active_rooms := active_rooms s + n; directory := directory s; trail := trail s |}.
(** One operation on the directory. *)
Definition visit (d : gmap bytes Entry) : api unit := modify (fun s =>
  {| rooms := rooms s; room_creations := room_creations s; event_channels := event_channels s; event_tickets := event_tickets s; revoked_tokens := revoked_tokens s;
     active_rooms := active_rooms s; directory := d; trail := trail s ++ [d] |}).

(** ** Snapshots of rooms *)
Definition format_id (value : Z) : bytes := Domain.serialize_id value.
Definition snapshot_file_name (room_id revision : Z) : bytes := format_id room_id ++ octets "-" ++ padded revision ++ octets ".json".
Definition temporary_file_name (file_name : bytes) (pid : Z) : bytes := octets "." ++ file_name ++ octets "." ++ show pid ++ octets ".tmp".

Definition persisted_room (room_id : Z) (managed : ManagedRoom) : PersistedRoom :=
  {| p_room_id := room_id; p_mode := Domain.mode (room managed); p_policy := Domain.policy (room managed); p_events := [];
     p_state := Some (Domain.snapshot (room managed)); p_creation_event := Some (creation_event managed);
     p_persistence_revision := persistence_revision managed; p_side_effect_order := side_effect_order managed |}.

#[local] Instance policy_eq_dec : EqDecision RoomPolicy.
Proof. solve_decision. Defined.
Definition valid_creation (event : RoomEvent) (r : Room) : bool :=
  match Domain.kind event with
  | Domain.Created host mode => (Domain.event_sequence event =? 1) && bool_decide (mode = Domain.mode r) && bool_decide (Domain.member_role r host = Some Host)
  | _ => false
  end.
Definition managed_from_persisted (persisted : PersistedRoom) : outcome ApiError ManagedRoom :=
  let order := p_side_effect_order persisted in
  _ ← reject_if ((SIDE_EFFECT_HISTORY_LIMIT <? len order) || negb (Z.of_nat (size (list_to_set order : gset Z)) =? len order)) CorruptRoomSnapshot;
  event ← ok_or (creation_event_of persisted) CorruptRoomSnapshot;
  r ← map_err (fun _ => CorruptRoomSnapshot)
        (match p_state persisted with
         | Some snapshot => Domain.restore_snapshot snapshot
         | None => Domain.restore (p_room_id persisted) (p_mode persisted) (p_policy persisted) (p_events persisted)
         end);
  _ ← reject_if (negb (Domain.id r =? p_room_id persisted) || negb (bool_decide (Domain.mode r = p_mode persisted)) ||
        negb (bool_decide (Domain.policy r = p_policy persisted)) || negb (Domain.sequence r =? p_persistence_revision persisted) ||
        negb (valid_creation event r)) CorruptRoomSnapshot;
  Ok {| room := r; creation_event := event; persistence_revision := p_persistence_revision persisted; signals := []; signal_cache_bytes := 0;
        next_signal_sequence := 1; side_effect_commands := list_to_set order; side_effect_order := order |}.

(** ** Reading the directory; [readable] are the files that can be read. *)
Definition read_bounded_room_snapshot (d : Directory) (name : bytes) : option bytes :=
  match d !! name with
  | Some (File content) => if len content <=? MAX_ROOM_SNAPSHOT_BYTES then Some content else None
  | _ => None
  end.
Definition is_ok {E A} (o : outcome E A) : bool := match o with Ok _ => true | _ => false end.
(** The snapshot in a file that is not ignored. *)
Definition room_in (readable : bytes -> bool) (d : Directory) (name : bytes) : option PersistedRoom :=
  if negb (bool_decide (extension name = Some (octets "json"))) then None
  else
    content ← (if readable name then read_bounded_room_snapshot d name else None);
    persisted ← from_slice content;
    if negb (bool_decide (name = snapshot_file_name (p_room_id persisted) (p_persistence_revision persisted))) then None
    else if is_ok (managed_from_persisted persisted) then Some persisted else None.
Definition keep_newer (latest : gmap Z PersistedRoom) (persisted : PersistedRoom) : gmap Z PersistedRoom :=
  match latest !! p_room_id persisted with
  | Some current => if p_persistence_revision current <? p_persistence_revision persisted then <[p_room_id persisted := persisted]> latest else latest
  | None => <[p_room_id persisted := persisted]> latest
  end.
Definition latest_rooms (readable : bytes -> bool) (d : Directory) : gmap Z PersistedRoom :=
  foldl (fun latest entry => match room_in readable d entry.1 with Some persisted => keep_newer latest persisted | None => latest end) ∅ (iter d).

Inductive LoadError := EmptyStream (room_id : Z) | NotRestored (error : ApiError) | RoomDuplicated (room_id : Z) | CreationDuplicated (command : Z).
Record LoadedRooms := { l_rooms : gmap Z ManagedRoom; l_room_creations : gmap Z Z; l_event_channels : gmap Z (list SignalRecord) }.
Fixpoint load_each (persisted_rooms : list PersistedRoom) (loaded : LoadedRooms) : outcome LoadError LoadedRooms :=
  match persisted_rooms with
  | [] => Ok loaded
  | persisted :: rest =>
      let room_id := p_room_id persisted in
      creation ← ok_or (creation_command_id persisted) (EmptyStream room_id);
      managed ← map_err NotRestored (managed_from_persisted persisted);
      _ ← reject_if (bool_decide (is_Some (l_rooms loaded !! room_id))) (RoomDuplicated room_id);
      _ ← reject_if (bool_decide (is_Some (l_room_creations loaded !! creation))) (CreationDuplicated creation);
      load_each rest {| l_rooms := <[room_id := managed]> (l_rooms loaded); l_room_creations := <[creation := room_id]> (l_room_creations loaded);
                        l_event_channels := <[room_id := []]> (l_event_channels loaded) |}
  end.
Definition loaded_rooms_from_persisted (persisted_rooms : list PersistedRoom) : outcome LoadError LoadedRooms :=
  load_each persisted_rooms {| l_rooms := ∅; l_room_creations := ∅; l_event_channels := ∅ |}.
Definition load_rooms (readable : bytes -> bool) (d : Directory) : outcome LoadError LoadedRooms :=
  loaded_rooms_from_persisted (snd <$> iter (latest_rooms readable d)).

(** [initialize_state]: what a process starts with. *)
Definition initialize_state (loaded : LoadedRooms) (d : Directory) : AppState :=
  {| rooms := l_rooms loaded; room_creations := l_room_creations loaded; event_channels := l_event_channels loaded; event_tickets := ∅; revoked_tokens := ∅;
     active_rooms := Z.of_nat (size (filter (fun kv => Domain.ended (room kv.2) = false) (l_rooms loaded))); directory := d; trail := [] |}.

(** ** Writing a snapshot *)
Definition newer_first : relation (Z * bytes) := fun a b => b.1 <= a.1.
#[local] Instance newer_first_dec : RelDecision newer_first.
Proof. intros a b. unfold newer_first. apply _. Defined.
Definition snapshot_revision (room_id : Z) (name : bytes) : option Z :=
  rest ← strip_prefix_str (format_id room_id ++ octets "-") name;
  digits ← strip_suffix_str (octets ".json") rest;
  parse_int 64 digits.
(** The older snapshots of a room in the order in which they are removed. *)
Definition prunable (d : Directory) (room_id current_revision : Z) : list bytes :=
  let snapshots := omap (fun entry => revision ← snapshot_revision room_id entry.1;
    if revision <=? current_revision then Some (revision, entry.1) else None) (iter d) in
  snd <$> drop 2 (merge_sort newer_first snapshots).
Definition remove_file (os : Os) (name : bytes) : api unit :=
  d ← gets directory;
  visit (if removes os name then delete name d else d).
Definition prune_room_snapshots (os : Os) (room_id current_revision : Z) : api unit :=
  d ← gets directory;
  if lists os then for_each (prunable d room_id current_revision) (remove_file os) else mret tt.

Definition persist_managed_room (os : Os) (room_id : Z) (managed : ManagedRoom) : api unit :=
  content ← lift (ok_or (to_vec (persisted_room room_id managed)) InternalError);
  _ ← lift (reject_if (MAX_ROOM_SNAPSHOT_BYTES <? len content) RoomSnapshotTooLarge);
  let path := snapshot_file_name room_id (persistence_revision managed) in
  d ← gets directory;
  if bool_decide (is_Some (d !! path)) then
    lift (reject_if (negb (bool_decide (read_bounded_room_snapshot d path = Some content))) RoomSnapshotRevisionConflict)
  else
    let temporary := temporary_file_name path (pid os) in
    _ ← lift (reject_if (negb (opens os)) StatePersistenceFailed);
    _ ← visit (<[temporary := File []]> d);
    _ ← visit (<[temporary := File (partial os)]> d);
    if negb (writes os) then
      _ ← remove_file os temporary;
      fail StatePersistenceFailed
    else
      _ ← visit (<[temporary := File content]> d);
      if negb (renames os) then
        identical_target ← gets (fun s => bool_decide (read_bounded_room_snapshot (directory s) path = Some content));
        _ ← remove_file os temporary;
        _ ← lift (reject_if (negb identical_target) StatePersistenceFailed);
        prune_room_snapshots os room_id (persistence_revision managed)
      else
        _ ← visit (<[path := File content]> (delete temporary (<[temporary := File content]> d)));
        prune_room_snapshots os room_id (persistence_revision managed).

(** The arm of [Files] of [persist_created_room] and [persist_appended_room]. *)
Definition persist_created_room (os : Os) (room_id : Z) (managed : ManagedRoom) : api (Z * ManagedRoom * bool) :=
  _ ← persist_managed_room os room_id managed;
  mret (room_id, managed, false).
Inductive PersistAppendOutcome := Applied | RevisionConflict.
Definition persist_appended_room (os : Os) (room_id expected_revision : Z) (managed : ManagedRoom) : api PersistAppendOutcome :=
  if negb (persistence_revision managed =? saturating_add 64 expected_revision 1) then mret RevisionConflict
  else
    _ ← persist_managed_room os room_id managed;
    mret Applied.

(** ** Commands *)
Record CommandResponse := { cr_sequence : Z; cr_duplicate : bool }.
Definition get_room_entry (room_id : Z) : api ManagedRoom := s ← gets rooms; lift (ok_or (s !! room_id) RoomNotFound).
Definition put_room (room_id : Z) (managed : ManagedRoom) : api unit := modify (fun s => set_rooms (<[room_id := managed]> (rooms s)) s).
Definition with_room (r : Room) (managed : ManagedRoom) : ManagedRoom :=
  {| room := r; creation_event := creation_event managed; persistence_revision := persistence_revision managed; signals := signals managed;
     signal_cache_bytes := signal_cache_bytes managed; next_signal_sequence := next_signal_sequence managed;
     side_effect_commands := side_effect_commands managed; side_effect_order := side_effect_order managed |}.
Definition with_revision (n : Z) (managed : ManagedRoom) : ManagedRoom :=
  {| room := room managed; creation_event := creation_event managed; persistence_revision := n; signals := signals managed;
     signal_cache_bytes := signal_cache_bytes managed; next_signal_sequence := next_signal_sequence managed;
     side_effect_commands := side_effect_commands managed; side_effect_order := side_effect_order managed |}.
Definition with_side_effects (c : gset Z) (o : list Z) (managed : ManagedRoom) : ManagedRoom :=
  {| room := room managed; creation_event := creation_event managed; persistence_revision := persistence_revision managed; signals := signals managed;
     signal_cache_bytes := signal_cache_bytes managed; next_signal_sequence := next_signal_sequence managed;
     side_effect_commands := c; side_effect_order := o |}.
Definition with_signals (l : list SignalRecord) (cached next : Z) (managed : ManagedRoom) : ManagedRoom :=
  {| room := room managed; creation_event := creation_event managed; persistence_revision := persistence_revision managed; signals := l;
     signal_cache_bytes := cached; next_signal_sequence := next; side_effect_commands := side_effect_commands managed; side_effect_order := side_effect_order managed |}.

(** The body of [for _ in 0..4]; [refresh_postgres_room] returns at once. *)
Fixpoint execute_attempts (attempts : nat) (os : Os) (now_millis room_id command_id : Z) (command : RoomCommand) : api CommandResponse :=
  match attempts with
  | O => fail RoomRevisionConflict
  | S attempts =>
      managed ← get_room_entry room_id;
      let '(r, result) := Domain.execute command_id now_millis command (room managed) in
      executed ← lift (map_err RoomCommandRejected result);
      match executed with
      | Domain.Applied event =>
          revision ← lift (ok_or (checked_add 64 (persistence_revision managed) 1) PersistenceRevisionExhausted);
          let candidate := with_revision revision (with_room r managed) in
          persisted ← persist_appended_room os room_id (persistence_revision managed) candidate;
          match persisted with
          | Applied => _ ← put_room room_id candidate; mret {| cr_sequence := Domain.event_sequence event; cr_duplicate := false |}
          | RevisionConflict => execute_attempts attempts os now_millis room_id command_id command
          end
      | Domain.Duplicate => mret {| cr_sequence := Domain.sequence r; cr_duplicate := true |}
      end
  end.
Definition execute_room_command (os : Os) (now_millis room_id command_id : Z) (command : RoomCommand) : api CommandResponse :=
  execute_attempts 4 os now_millis room_id command_id command.

(** ** Side effects *)
Definition side_effect_applied (room_id command_id : Z) : api bool :=
  managed ← get_room_entry room_id;
  mret (bool_decide (command_id ∈ side_effect_commands managed)).
Definition prune_side_effects (managed : ManagedRoom) : ManagedRoom :=
  let '(c, o) := Domain.trim SIDE_EFFECT_HISTORY_LIMIT (side_effect_order managed) (side_effect_commands managed) in with_side_effects c o managed.
Definition remember_side_effect (os : Os) (room_id command_id : Z) : api unit :=
  managed ← get_room_entry room_id;
  if bool_decide (command_id ∈ side_effect_commands managed) then put_room room_id (prune_side_effects managed)
  else
    let managed := with_side_effects ({[command_id]} ∪ side_effect_commands managed) (side_effect_order managed ++ [command_id]) managed in
    _ ← put_room room_id managed;
    revision ← lift (ok_or (checked_add 64 (persistence_revision managed) 1) PersistenceRevisionExhausted);
    let managed := prune_side_effects (with_revision revision managed) in
    _ ← put_room room_id managed;
    persist_managed_room os room_id managed.

(** ** Signals *)
Definition validate_signal_payload (payload : Value) : outcome ApiError unit :=
  encoded ← ok_or (value_to_vec payload) InternalError;
  reject_if (negb (len encoded <=? MAX_SIGNAL_PAYLOAD_BYTES)) SignalTooLarge.
Definition signal_cost (signal : SignalRecord) : Z := match signal_to_vec signal with Some encoded => len encoded | None => umax 64 end.
Definition by_sequence : relation SignalRecord := fun a b => sg_sequence a <= sg_sequence b.
#[local] Instance by_sequence_dec : RelDecision by_sequence := fun a b => Z_le_dec (sg_sequence a) (sg_sequence b).
(** [while signals.len() > SIGNAL_BACKLOG || *cached_bytes > MAX_SIGNAL_CACHE_BYTES] *)
Fixpoint trim_signal_cache (l : list SignalRecord) (cached_bytes : Z) : list SignalRecord * Z :=
  if (SIGNAL_BACKLOG <? len l) || (MAX_SIGNAL_CACHE_BYTES <? cached_bytes) then
    match l with
    | [] => (l, cached_bytes)
    | expired :: l => trim_signal_cache l (saturating_sub cached_bytes (signal_cost expired))
    end
  else (l, cached_bytes).
Definition cache_signal (room_id : Z) (signal : SignalRecord) : api unit :=
  managed ← get_room_entry room_id;
  if existsb (fun existing => sg_sequence existing =? sg_sequence signal) (signals managed) then mret tt
  else
    let next := Z.max (next_signal_sequence managed) (saturating_add 64 (sg_sequence signal) 1) in
    let cached := saturating_add 64 (signal_cache_bytes managed) (signal_cost signal) in
    let '(l, cached) := trim_signal_cache (merge_sort by_sequence (signals managed ++ [signal])) cached in
    _ ← put_room room_id (with_signals l cached next managed);
    modify (fun s => set_channels (alter (fun sent => sent ++ [signal]) room_id (event_channels s)) s).
Definition append_signal (now_millis room_id command_id from : Z) (to : option Z) (kind : bytes) (payload : Value) : api SignalRecord :=
  _ ← lift (validate_signal_payload payload);
  managed ← get_room_entry room_id;
  match List.find (fun signal => bool_decide (sg_command_id signal = Some command_id)) (signals managed) with
  | Some existing => mret existing
  | None =>
      let signal := {| sg_command_id := Some command_id; sg_sequence := next_signal_sequence managed; sg_from := format_id from; sg_to := format_id <$> to;
                       sg_kind := kind; sg_payload := payload; sg_timestamp_millis := now_millis |} in
      _ ← cache_signal room_id signal;
      mret signal
  end.
Record SignalResponse := { sr_signals : list SignalRecord; sr_latest_sequence : Z }.
Definition addressed_to (participant : bytes) (signal : SignalRecord) : bool :=
  match sg_to signal with Some to => bool_decide (to = participant) | None => true end.
Definition load_signal_page (room_id after limit participant : Z) : api SignalResponse :=
  managed ← get_room_entry room_id;
  mret {| sr_signals := take (Z.to_nat limit) (List.filter (fun signal => (after <? sg_sequence signal) && addressed_to (format_id participant) signal) (signals managed));
          sr_latest_sequence := saturating_sub (next_signal_sequence managed) 1 |}.

(** ** Gift receipts *)
Record GiftRequest := {
  provider : bytes; provider_timestamp_millis : Z; provider_signature : bytes; sender_id : bytes; g_transaction_id : bytes; g_gift_id : bytes;
  g_quantity : Z; g_unit_value : Z; g_currency : bytes; recipient_id : bytes }.
Definition RECEIPT_MAX_CLOCK_SKEW_MILLIS : Z := 5 * 60 * 1000.
Definition SHA256_BASE64URL_LENGTH : Z := 43.
Definition safe_identifier (value : bytes) (maximum : Z) : bool :=
  negb (len value =? 0) && (len value <=? maximum) && forallb WorkerFences.is_identifier_byte value.
Definition bounded_text (value : bytes) (maximum : Z) : bool := negb (len value =? 0) && (len value <=? maximum) && negb (Domain.any_control value).
Definition valid_hex_id (value : bytes) : bool := (len value =? 32) && forallb Domain.is_ascii_hexdigit value.
Definition valid_receipt_shape (request : GiftRequest) (now_millis : Z) : bool :=
  (Z.abs (now_millis - provider_timestamp_millis request) <=? RECEIPT_MAX_CLOCK_SKEW_MILLIS)
  && safe_identifier (provider request) 64 && bounded_text (g_transaction_id request) 512 && bounded_text (g_gift_id request) 256
  && valid_hex_id (sender_id request) && valid_hex_id (recipient_id request) && (0 <? g_quantity request)
  && bool_decide (is_Some (checked_mul 64 (g_unit_value request) (g_quantity request)))
  && (len (g_currency request) =? 3) && forallb (in_range 65 90) (g_currency request)
  && (len (provider_signature request) =? SHA256_BASE64URL_LENGTH).
Definition gift_mac_field (value : bytes) : bytes := to_be_bytes 8 (len value) ++ value.
(** What [gift_receipt_mac] feeds to the MAC. *)
Definition gift_mac_input (room_id : Z) (request : GiftRequest) : bytes :=
  octets "fluvora-gift-receipt-v1" ++ gift_mac_field (format_id room_id) ++ gift_mac_field (provider request) ++ gift_mac_field (g_transaction_id request) ++
  gift_mac_field (sender_id request) ++ gift_mac_field (recipient_id request) ++ gift_mac_field (g_gift_id request) ++
  to_be_bytes 4 (g_quantity request) ++ to_be_bytes 8 (g_unit_value request) ++ gift_mac_field (g_currency request) ++
  to_be_bytes 8 (provider_timestamp_millis request).
Definition gift_receipt_mac (secret : bytes) (room_id : Z) (request : GiftRequest) : outcome ApiError bytes :=
  mac ← ok_or (Auth.hmac_sha256 secret) InvalidGiftReceiptSignature;
  Ok (mac (gift_mac_input room_id request)).
Definition verify_gift_receipt (secret : bytes) (room_id : Z) (request : GiftRequest) (now_millis : Z) : outcome ApiError unit :=
  _ ← reject_if (negb (valid_receipt_shape request now_millis)) InvalidGiftReceiptSignature;
  signature ← ok_or (Auth.base64_decode (provider_signature request)) InvalidGiftReceiptSignature;
  mac ← gift_receipt_mac secret room_id request;
  reject_if (negb (bool_decide (mac = signature))) InvalidGiftReceiptSignature.

(** ** Requests *)
(** The headers of a request, if they are there and are text, the clock, the octets of [getrandom] and the operating system. *)
Record Request := { authorization : option bytes; idempotency_header : option bytes; now_millis : Z; random_u128 : option Z; os : Os }.
Record Config := { tokens : Auth.TokenKeyRing.t; gift_webhook_secret : bytes }.
Definition parse_id (value : bytes) : outcome ApiError Z := ok_or (from_str_radix 128 16 value) InvalidId.
Definition parse_room_id (value : bytes) : outcome ApiError Z := parse_id value.
Definition idempotency_key (q : Request) : outcome ApiError Z := value ← ok_or (idempotency_header q) MissingIdempotencyKey; parse_id value.
Definition parse_mode (value : bytes) : outcome ApiError RoomMode :=
  if bool_decide (value = octets "sfu") then Ok Sfu else if bool_decide (value = octets "p2p") then Ok P2p
  else if bool_decide (value = octets "live") then Ok Live else if bool_decide (value = octets "vod") then Ok Vod else Err InvalidRoomMode.
Definition mode_name (mode : RoomMode) : bytes :=
  match mode with Sfu => octets "sfu" | P2p => octets "p2p" | Live => octets "live" | Vod => octets "vod" end.
Definition parse_role (value : bytes) : outcome ApiError MemberRole :=
  if bool_decide (value = octets "co_host") then Ok CoHost else if bool_decide (value = octets "publisher") then Ok Publisher
  else if bool_decide (value = octets "audience") then Ok Audience else Err InvalidMemberRole.
Definition validate_signal_kind (kind : bytes) : outcome ApiError unit :=
  reject_if (negb (bool_decide (kind ∈ [octets "offer"; octets "answer"; octets "ice-candidate"; octets "ice-restart"; octets "renegotiate"; octets "bye"]))) InvalidSignalKind.
Definition bearer (q : Request) : option bytes := value ← authorization q; strip_prefix_str (octets "Bearer ") value.
Definition authenticate (c : Config) (q : Request) (scopes : Z) (room_id : option Z) : outcome ApiError Claims :=
  token ← ok_or (bearer q) Unauthorized;
  claims ← map_err (fun _ => Unauthorized) (Auth.TokenKeyRing.verify (tokens c) token (now_millis q));
  _ ← reject_if (negb (Auth.Scopes.contains (Auth.scopes claims) scopes) ||
        match room_id with Some r => negb (Auth.room_id claims =? 0) && negb (Auth.room_id claims =? r) | None => false end) Forbidden;
  Ok claims.
Definition access_token_revoked (now_millis : Z) (claims : Claims) : api bool :=
  _ ← modify (fun s => set_revoked (filter (fun kv => now_millis < kv.2) (revoked_tokens s)) s);
  revoked ← gets revoked_tokens;
  mret (bool_decide (is_Some (revoked !! (Auth.subject claims, Auth.nonce claims)))).
(** The middleware around every handler. *)
Definition reject_revoked_token {A} (c : Config) (q : Request) (next : api A) : api A :=
  match (token ← bearer q; match Auth.TokenKeyRing.verify (tokens c) token (now_millis q) with Ok claims => Some claims | _ => None end) with
  | None => next
  | Some claims =>
      revoked ← access_token_revoked (now_millis q) claims;
      match revoked with true => fail Unauthorized | false => next end
  end.
Definition require_room_member (room_id user_id : Z) : api unit :=
  managed ← get_room_entry room_id;
  lift (reject_if (negb (bool_decide (is_Some (Domain.member_role (room managed) user_id)))) Forbidden).
Definition require_publishing (room_id user_id : Z) : api unit :=
  managed ← get_room_entry room_id;
  lift (reject_if (negb (Domain.is_publishing (room managed) user_id)) PublisherNotStarted).
Definition require_room_mode (room_id : Z) (expected : RoomMode) : api unit :=
  managed ← get_room_entry room_id;
  lift (reject_if (negb (bool_decide (Domain.mode (room managed) = expected))) WrongRoomMode).
Definition require_realtime_server_room (room_id : Z) : api unit :=
  managed ← get_room_entry room_id;
  lift (reject_if (negb (bool_decide (Domain.mode (room managed) = Sfu \/ Domain.mode (room managed) = Live))) WrongRoomMode).

(** ** routes/rooms.rs *)
Record CreateRoomRequest := { c_mode : bytes; c_max_members : option Z; c_max_publishers : option Z }.
Record RoomResponse := { rr_room_id : bytes; rr_mode : bytes; rr_sequence : Z; rr_duplicate : bool }.
Definition clamp (low high n : Z) : Z := Z.max low (Z.min high n).
Definition requested_policy (request : CreateRoomRequest) : RoomPolicy :=
  let policy := Domain.default_policy in
  {| Domain.max_members := from_option (clamp 2 100000) (Domain.max_members policy) (c_max_members request);
     Domain.max_publishers := from_option (clamp 1 1024) (Domain.max_publishers policy) (c_max_publishers request);
     Domain.max_chat_bytes := Domain.max_chat_bytes policy; Domain.max_custom_data_bytes := Domain.max_custom_data_bytes policy |}.
Definition new_room (room_id : Z) (mode : RoomMode) (host : Z) (policy : RoomPolicy) (command_id now_millis : Z) : ManagedRoom :=
  let '(r, event) := Domain.create room_id mode host policy command_id now_millis in
  {| room := r; creation_event := event; persistence_revision := 1; signals := []; signal_cache_bytes := 0; next_signal_sequence := 1;
     side_effect_commands := ∅; side_effect_order := [] |}.
Definition room_response (room_id : Z) (managed : ManagedRoom) (duplicate : bool) : RoomResponse :=
  {| rr_room_id := format_id room_id; rr_mode := mode_name (Domain.mode (room managed)); rr_sequence := Domain.sequence (room managed); rr_duplicate := duplicate |}.
Definition create_room (c : Config) (q : Request) (request : CreateRoomRequest) : api RoomResponse :=
  claims ← lift (authenticate c q Auth.Scopes.ROOM_CREATE None);
  command_id ← lift (idempotency_key q);
  mode ← lift (parse_mode (c_mode request));
  creations ← gets room_creations;
  match creations !! command_id with
  | Some room_id => managed ← get_room_entry room_id; mret (room_response room_id managed true)
  | None =>
      room_id ← lift (ok_or (random_u128 q) InternalError);
      created ← persist_created_room (os q) room_id (new_room room_id mode (Auth.subject claims) (requested_policy request) command_id (now_millis q));
      let '(room_id, managed, duplicate) := created in
      _ ← put_room room_id managed;
      _ ← modify (fun s => set_channels (match event_channels s !! room_id with Some _ => event_channels s | None => <[room_id := []]> (event_channels s) end) s);
      _ ← modify (fun s => set_creations (<[command_id := room_id]> (room_creations s)) s);
      _ ← (if duplicate then mret tt else modify (add_active_rooms 1));
      mret (room_response room_id managed duplicate)
  end.
Record RoomSnapshotResponse := { rs_room_id : bytes; rs_mode : bytes; rs_sequence : Z; rs_ended : bool; rs_member_count : Z; rs_publisher_count : Z }.
Definition get_room (c : Config) (q : Request) (room_id : bytes) : api RoomSnapshotResponse :=
  room_id ← lift (parse_room_id room_id);
  claims ← lift (authenticate c q Auth.Scopes.ROOM_JOIN (Some room_id));
  _ ← require_room_member room_id (Auth.subject claims);
  managed ← get_room_entry room_id;
  mret {| rs_room_id := format_id room_id; rs_mode := mode_name (Domain.mode (room managed)); rs_sequence := Domain.sequence (room managed);
          rs_ended := Domain.ended (room managed); rs_member_count := Domain.member_count (room managed); rs_publisher_count := Domain.publisher_count (room managed) |}.

(** The handlers of commands: authentication, then the command under the idempotency key.  [leave_room], [end_room] and
    [stop_publishing] go on to clean up the media of the participant or the room at the media node, which does not change the
    response and whose catalogue of tracks is not modelled; here is what comes before. *)
Definition join_room (c : Config) (q : Request) (room_id : bytes) : api CommandResponse :=
  room_id ← lift (parse_room_id room_id);
  claims ← lift (authenticate c q Auth.Scopes.ROOM_JOIN (Some room_id));
  command_id ← lift (idempotency_key q);
  execute_room_command (os q) (now_millis q) room_id command_id (Join (Auth.subject claims)).
Definition leave_room_command (c : Config) (q : Request) (room_id : bytes) : api CommandResponse :=
  room_id ← lift (parse_room_id room_id);
  claims ← lift (authenticate c q Auth.Scopes.ROOM_JOIN (Some room_id));
  command_id ← lift (idempotency_key q);
  execute_room_command (os q) (now_millis q) room_id command_id (Leave (Auth.subject claims)).
Definition end_room_command (c : Config) (q : Request) (room_id : bytes) : api CommandResponse :=
  room_id ← lift (parse_room_id room_id);
  claims ← lift (authenticate c q (Auth.Scopes.union Auth.Scopes.ROOM_JOIN Auth.Scopes.ROOM_MODERATE) (Some room_id));
  command_id ← lift (idempotency_key q);
  response ← execute_room_command (os q) (now_millis q) room_id command_id (End_ (Auth.subject claims));
  _ ← (if cr_duplicate response then mret tt else modify (add_active_rooms (-1)));
  mret response.
Record RoleRequest := { ro_user_id : bytes; ro_role : bytes }.
Definition set_role (c : Config) (q : Request) (room_id : bytes) (request : RoleRequest) : api CommandResponse :=
  room_id ← lift (parse_room_id room_id);
  claims ← lift (authenticate c q (Auth.Scopes.union Auth.Scopes.ROOM_JOIN Auth.Scopes.ROOM_MODERATE) (Some room_id));
  command_id ← lift (idempotency_key q);
  user ← lift (parse_id (ro_user_id request));
  role ← lift (parse_role (ro_role request));
  execute_room_command (os q) (now_millis q) room_id command_id (SetRole (Auth.subject claims) user role).
Definition start_publishing (c : Config) (q : Request) (room_id : bytes) : api CommandResponse :=
  room_id ← lift (parse_room_id room_id);
  claims ← lift (authenticate c q (Auth.Scopes.union Auth.Scopes.ROOM_JOIN Auth.Scopes.MEDIA_PUBLISH) (Some room_id));
  command_id ← lift (idempotency_key q);
  execute_room_command (os q) (now_millis q) room_id command_id (StartPublishing (Auth.subject claims)).
Definition stop_publishing_command (c : Config) (q : Request) (room_id : bytes) : api CommandResponse :=
  room_id ← lift (parse_room_id room_id);
  claims ← lift (authenticate c q (Auth.Scopes.union Auth.Scopes.ROOM_JOIN Auth.Scopes.MEDIA_PUBLISH) (Some room_id));
  command_id ← lift (idempotency_key q);
  execute_room_command (os q) (now_millis q) room_id command_id (StopPublishing (Auth.subject claims)).
Definition record_gift (c : Config) (q : Request) (room_id : bytes) (request : GiftRequest) : api CommandResponse :=
  room_id ← lift (parse_room_id room_id);
  _ ← lift (authenticate c q Auth.Scopes.GIFT_VERIFY (Some room_id));
  _ ← lift (verify_gift_receipt (gift_webhook_secret c) room_id request (now_millis q));
  sender ← lift (parse_id (sender_id request));
  command_id ← lift (idempotency_key q);
  recipient ← lift (parse_id (recipient_id request));
  response ← execute_room_command (os q) (now_millis q) room_id command_id (RecordVerifiedGift sender
    {| Domain.transaction_id := g_transaction_id request; Domain.gift_id := g_gift_id request; Domain.quantity := g_quantity request;
       Domain.unit_value := g_unit_value request; Domain.currency := g_currency request; Domain.recipient := recipient |});
  _ ← append_signal (now_millis q) room_id command_id sender None (octets "room.gift") (json_object
    [(octets "sender_id", json_string (sender_id request)); (octets "recipient_id", json_string (recipient_id request));
     (octets "transaction_id", json_string (g_transaction_id request)); (octets "gift_id", json_string (g_gift_id request));
     (octets "quantity", json_number (g_quantity request)); (octets "unit_value", json_number (g_unit_value request));
     (octets "currency", json_string (g_currency request)); (octets "event_sequence", json_number (cr_sequence response))]);
  mret response.
Record ChatRequest := { ch_message_id : bytes; ch_text : bytes }.
Definition send_chat (c : Config) (q : Request) (room_id : bytes) (request : ChatRequest) : api CommandResponse :=
  room_id ← lift (parse_room_id room_id);
  claims ← lift (authenticate c q Auth.Scopes.ROOM_JOIN (Some room_id));
  command_id ← lift (idempotency_key q);
  message_id ← lift (parse_id (ch_message_id request));
  response ← execute_room_command (os q) (now_millis q) room_id command_id (SendChat (Auth.subject claims) message_id (ch_text request));
  _ ← append_signal (now_millis q) room_id command_id (Auth.subject claims) None (octets "room.chat") (json_object
    [(octets "message_id", json_string (ch_message_id request)); (octets "text", json_string (ch_text request));
     (octets "event_sequence", json_number (cr_sequence response))]);
  mret response.
Record CustomDataRequest := { cu_namespace : bytes; cu_schema_version : Z; cu_payload : Value }.
Definition custom_signal_payload (request : CustomDataRequest) (event_sequence : Z) : Value := json_object
  [(octets "namespace", json_string (cu_namespace request)); (octets "schema_version", json_number (cu_schema_version request));
   (octets "payload", cu_payload request); (octets "event_sequence", json_number event_sequence)].
Definition send_custom_data (c : Config) (q : Request) (room_id : bytes) (request : CustomDataRequest) : api CommandResponse :=
  room_id ← lift (parse_room_id room_id);
  claims ← lift (authenticate c q Auth.Scopes.ROOM_JOIN (Some room_id));
  command_id ← lift (idempotency_key q);
  _ ← lift (validate_signal_payload (custom_signal_payload request (umax 64)));
  payload ← lift (ok_or (value_to_vec (cu_payload request)) InternalError);
  response ← execute_room_command (os q) (now_millis q) room_id command_id (SendCustomData (Auth.subject claims)
    {| Domain.namespace := cu_namespace request; Domain.schema_version := cu_schema_version request; Domain.payload := payload |});
  _ ← append_signal (now_millis q) room_id command_id (Auth.subject claims) None (octets "room.custom") (custom_signal_payload request (cr_sequence response));
  mret response.
Record RevokeTokenRequest := { rv_subject_id : bytes; rv_nonce : Z; rv_expires_at_millis : Z; rv_reason : bytes }.
Definition revoke_token (c : Config) (q : Request) (request : RevokeTokenRequest) : api unit :=
  _ ← lift (authenticate c q Auth.Scopes.TOKEN_REVOKE None);
  subject ← lift (parse_id (rv_subject_id request));
  _ ← lift (reject_if ((rv_expires_at_millis request <=? now_millis q) || (len (rv_reason request) =? 0) || (512 <? len (rv_reason request)) ||
        Domain.any_control (rv_reason request)) InvalidTokenRevocation);
  modify (fun s => set_revoked (<[(subject, rv_nonce request) := rv_expires_at_millis request]> (revoked_tokens s)) s).

(** ** routes/signaling.rs *)
Record SignalRequest := { sq_to : option bytes; sq_kind : bytes; sq_payload : Value }.
Definition post_signal (c : Config) (q : Request) (room_id : bytes) (request : SignalRequest) : api SignalRecord :=
  room_id ← lift (parse_room_id room_id);
  claims ← lift (authenticate c q Auth.Scopes.ROOM_JOIN (Some room_id));
  _ ← require_room_mode room_id P2p;
  _ ← require_room_member room_id (Auth.subject claims);
  _ ← lift (validate_signal_kind (sq_kind request));
  command_id ← lift (idempotency_key q);
  to ← lift (match sq_to request with Some to => Some <$> parse_id to | None => Ok None end);
  append_signal (now_millis q) room_id command_id (Auth.subject claims) to (sq_kind request) (sq_payload request).
Definition get_signals (c : Config) (q : Request) (room_id : bytes) (after limit : option Z) : api SignalResponse :=
  room_id ← lift (parse_room_id room_id);
  claims ← lift (authenticate c q Auth.Scopes.ROOM_JOIN (Some room_id));
  _ ← require_room_member room_id (Auth.subject claims);
  load_signal_page room_id (default 0 after) (clamp 1 MAX_SIGNAL_PAGE_MESSAGES (default 100 limit)) (Auth.subject claims).
Definition issue_event_ticket (c : Config) (q : Request) (room_id : bytes) : api (bytes * Z) :=
  room_id ← lift (parse_room_id room_id);
  claims ← lift (authenticate c q Auth.Scopes.ROOM_JOIN (Some room_id));
  _ ← require_room_member room_id (Auth.subject claims);
  random ← lift (ok_or (random_u128 q) InternalError);
  let ticket := format_id random in
  let expires_at_millis := saturating_add 64 (now_millis q) EVENT_TICKET_TTL_MILLIS in
  _ ← modify (fun s => set_tickets (filter (fun kv => now_millis q < et_expires_at_millis kv.2) (event_tickets s)) s);
  tickets ← gets event_tickets;
  _ ← lift (reject_if (100000 <=? Z.of_nat (size tickets)) EventTicketCapacity);
  _ ← modify (set_tickets (<[ticket := {| et_room_id := room_id; et_participant := Auth.subject claims; et_expires_at_millis := expires_at_millis |}]> tickets));
  mret (ticket, expires_at_millis).
Definition consume_event_ticket (now_millis room_id : Z) (ticket : bytes) : api Z :=
  _ ← lift (reject_if (negb (valid_hex_id ticket)) Unauthorized);
  tickets ← gets event_tickets;
  _ ← modify (set_tickets (delete ticket tickets));
  event_ticket ← lift (ok_or (tickets !! ticket) Unauthorized);
  _ ← lift (reject_if (negb (et_room_id event_ticket =? room_id) || (et_expires_at_millis event_ticket <=? now_millis)) Unauthorized);
  mret (et_participant event_ticket).
End Server.
