(* ===== verification/ApiServerSafety.v ===== *)
(** * services/api-server: what survives a restart, and what members can read *)
From stdpp Require Import fin_maps sorting.
From S2P Require Import Prelude Words Slices RustStd RustStr RustText ApiServer.
From S2P Require Domain DomainSafety Auth WorkerFences WorkerFencesSafety SfuRuntime SfuRuntimeSteps.
Import SfuRuntime (HashIteration, iter, iter_perm).
Import WorkerFences (Entry(..), Os, opens, partial, writes, renames, removes, lists, pid, extension, padded).
Import Domain (Room, RoomEvent, RoomCommand).
Import Auth (AuthCrypto).

(** ** Names of snapshot files *)
Lemma strip_prefix_app p l : strip_prefix_str p (p ++ l) = Some l.
Proof. unfold strip_prefix_str. by rewrite take_app_length, drop_app_length, bool_decide_eq_true_2. Qed.
Lemma strip_prefix_Some p l r : strip_prefix_str p l = Some r -> l = p ++ r.
Proof. unfold strip_prefix_str. case_bool_decide as H; [|done]. intros [= <-]. by rewrite <- H at 1; rewrite take_drop. Qed.
Lemma strip_suffix_app p l : strip_suffix_str p (l ++ p) = Some l.
Proof. unfold strip_suffix_str. rewrite reverse_app, strip_prefix_app. cbn. by rewrite reverse_involutive. Qed.
Lemma strip_suffix_str_Some p l r : strip_suffix_str p l = Some r -> l = r ++ p.
Proof.
  unfold strip_suffix_str. intros (x & H%strip_prefix_Some & ->)%fmap_Some. apply (f_equal reverse) in H. by rewrite reverse_involutive, reverse_app, reverse_involutive in H.
Qed.

Section Names.
Implicit Types i r : Z.
Lemma format_id_spec i : length (format_id i) = 32%nat /\ Forall (fun c => Domain.is_ascii_hexdigit c = true) (format_id i).
Proof.
  destruct (DomainSafety.serialize_digits i) as [H1 H2]. split; [unfold len in H2; unfold format_id; lia|]. apply Forall_forall. intros c Hc%list_elem_of_In.
  rewrite forallb_forall in H1. by apply H1.
Qed.
Lemma format_id_inj i j : fits 128 i -> fits 128 j -> format_id i = format_id j -> i = j.
Proof.
  intros Hi Hj E. pose proof (DomainSafety.serialize_visit i Hi) as H. unfold format_id in E. rewrite E, DomainSafety.serialize_visit in H by done. by injection H.
Qed.
Lemma padded_inj r r' : u64 r -> u64 r' -> padded r = padded r' -> r = r'.
Proof.
  intros Hr Hr' E. destruct (WorkerFencesSafety.padded_spec r Hr) as (_ & _ & H). destruct (WorkerFencesSafety.padded_spec r' Hr') as (_ & _ & H'). rewrite E in H. congruence.
Qed.
Lemma snapshot_name_inj i j r r' : fits 128 i -> fits 128 j -> u64 r -> u64 r' -> snapshot_file_name i r = snapshot_file_name j r' -> i = j /\ r = r'.
Proof.
  intros Hi Hj Hr Hr' E. unfold snapshot_file_name in E. apply app_inj_1 in E as [E1 E2]; [|by rewrite !(proj1 (format_id_spec _))].
  split; [by apply format_id_inj|]. apply app_inv_head in E2. apply app_inv_tail in E2. by apply padded_inj.
Qed.
Lemma snapshot_name_revision i r : u64 r -> snapshot_revision i (snapshot_file_name i r) = Some r.
Proof.
  intros Hr. unfold snapshot_revision, snapshot_file_name. rewrite !app_assoc, <- (app_assoc (format_id i ++ octets "-")), strip_prefix_app. cbn [mbind option_bind].
  rewrite strip_suffix_app. cbn [mbind option_bind]. apply WorkerFencesSafety.padded_spec, Hr.
Qed.
Lemma snapshot_name_room i j r r' : fits 128 i -> fits 128 j -> snapshot_revision i (snapshot_file_name j r) = Some r' -> i = j.
Proof.
  intros Hi Hj H. unfold snapshot_revision in H. apply bind_Some in H as (rest & H%strip_prefix_Some & _). unfold snapshot_file_name in H. rewrite <- app_assoc in H.
  apply app_inj_1 in H as [H _]; [|by rewrite !(proj1 (format_id_spec _))]. by apply format_id_inj.
Qed.
Lemma snapshot_name_extension i r : extension (snapshot_file_name i r) = Some (octets "json").
Proof.
  unfold extension, snapshot_file_name. change (octets ".json") with (46 :: octets "json"). rewrite !app_assoc.
  rewrite WorkerFencesSafety.last_dot_app; [done| |by apply (bool_decide_unpack (46 ∉ octets "json"))].
  intros E. apply (f_equal length) in E. rewrite !length_app, (proj1 (format_id_spec _)) in E. cbn in E. lia.
Qed.
Lemma temporary_extension name p : extension (temporary_file_name name p) = Some (octets "tmp").
Proof.
  unfold extension, temporary_file_name. replace (octets "." ++ name ++ octets "." ++ show p ++ octets ".tmp") with ((octets "." ++ name ++ octets "." ++ show p) ++ 46 :: octets "tmp") by (by rewrite <- !app_assoc).
  rewrite WorkerFencesSafety.last_dot_app; [done|done|by apply (bool_decide_unpack (46 ∉ octets "tmp"))].
Qed.
Lemma temporary_revision i name p : snapshot_revision i (temporary_file_name name p) = None.
Proof.
  unfold snapshot_revision. destruct (strip_prefix_str _ _) as [rest|] eqn:E; [|done]. exfalso. apply strip_prefix_Some in E. destruct (format_id_spec i) as [Hl Hd].
  destruct (format_id i) as [|c l]; [done|]. apply Forall_cons in Hd as [Hc _]. unfold temporary_file_name in E. cbn [app] in E.
  change (octets ".") with [46] in E. cbn [app] in E. assert (c = 46) as -> by congruence. done.
Qed.
End Names.

(** ** The host that created a room stays its host *)
Lemma host_stays r cmd k h : Domain.members r !! h = Some Domain.Host -> DomainSafety.justified r cmd k -> Domain.members (Domain.apply_kind k r) !! h = Some Domain.Host.
Proof.
  intros Hh Hj. destruct cmd; cbn in Hj.
  - destruct Hj as (-> & Hn & _). cbn. rewrite lookup_insert_ne by (intros ->; congruence). done.
  - destruct Hj as (-> & role & Hr & Hne). cbn. rewrite lookup_delete_ne by (intros ->; congruence). done.
  - destruct Hj as (-> & Hm). destruct (DomainSafety.set_role_view user role r) as [E _]. cbn [Domain.apply_kind]. rewrite E. rewrite lookup_insert_ne; [done|].
    intros <-. destruct Hm as (_ & current & Hc & Hne & _). congruence.
  - destruct Hj as (-> & _). done.
  - by subst k.
  - by subst k.
  - destruct Hj as (-> & _). cbn. destruct (DomainSafety.remember_gift_fields (Domain.transaction_id receipt) r) as (_ & _ & _ & -> & _). done.
  - by subst k.
  - destruct Hj as (-> & _). done.
Qed.
Lemma history_host i mode p evs r : DomainSafety.history i mode p evs r ->
  exists e host, head evs = Some e /\ Domain.kind e = Domain.Created host mode /\ Domain.event_sequence e = 1 /\ Domain.members r !! host = Some Domain.Host.
Proof.
  induction 1 as [host c t|evs r c t cmd Hh (e & host & H1 & H2 & H3 & H4)].
  { exists (Domain.create i mode host p c t).2, host. split_and!; [done..|]. destruct (DomainSafety.create_ok i mode p host c t) as [_].
    unfold Domain.create, Domain.apply. cbn [fst]. destruct (DomainSafety.remember_command_fields c (Domain.set_sequence 1 (Domain.apply_kind (Domain.Created host mode) (Domain.empty i mode p)))) as (_ & _ & _ & E & _).
    cbn [Domain.command_id Domain.event_sequence Domain.kind]. rewrite E. cbn. by rewrite lookup_insert_eq. }
  exists e, host. assert (head (evs ++ DomainSafety.applied (Domain.execute c t cmd r).2) = Some e) as -> by (by destruct evs).
  split_and!; [done..|]. destruct (DomainSafety.execute_cases c t cmd r) as [[-> _]|[[x ->]|(k & Hc & He & Hk & Hn & ->)]]; [done|done|]. cbn [fst].
  unfold Domain.apply. cbn [Domain.event_sequence Domain.command_id Domain.kind].
  destruct (DomainSafety.remember_command_fields c (Domain.set_sequence (Domain.sequence r + 1) (Domain.apply_kind k r))) as (_ & _ & _ & -> & _).
  cbn. by eapply host_stays, DomainSafety.decide_justified.
Qed.

Section Directories.
Context {values : JsonValues} {json : ApiJson} {iteration : HashIteration} {crypto : AuthCrypto}.
Implicit Types d : gmap bytes Entry.
Implicit Types rm : gmap Z ManagedRoom.

(** ** What a restart finds *)
Definition all (name : bytes) : bool := true.
(** A managed room as it comes back: without its signals. *)
Definition restarted (m : ManagedRoom) : ManagedRoom := with_signals [] 0 1 m.

Lemma room_in_Some d name p : room_in all d name = Some p -> name = snapshot_file_name (p_room_id p) (p_persistence_revision p) /\
  exists content m, d !! name = Some (File content) /\ len content <= MAX_ROOM_SNAPSHOT_BYTES /\ from_slice content = Some p /\ managed_from_persisted p = Ok m.
Proof.
  unfold room_in. case_bool_decide; [|done]. cbn [negb all]. intros H1. apply bind_Some in H1 as (content & Hc & H1). apply bind_Some in H1 as (x & Hx & H1).
  case_bool_decide as Hn; [|done]. cbn [negb] in H1. destruct (managed_from_persisted x) as [m|e| |] eqn:Hm; [|done..]. injection H1 as ->. split; [done|].
  unfold read_bounded_room_snapshot in Hc. destruct (d !! name) as [[c|]|]; [|done..]. destruct (Z.leb_spec (len c) MAX_ROOM_SNAPSHOT_BYTES); [|done]. injection Hc as ->. by exists content, m.
Qed.
Lemma room_in_here d p content m : d !! snapshot_file_name (p_room_id p) (p_persistence_revision p) = Some (File content) -> len content <= MAX_ROOM_SNAPSHOT_BYTES ->
  from_slice content = Some p -> managed_from_persisted p = Ok m -> room_in all d (snapshot_file_name (p_room_id p) (p_persistence_revision p)) = Some p.
Proof.
  intros Hd Hl Hf Hm. unfold room_in. rewrite snapshot_name_extension, bool_decide_eq_true_2 by done. cbn [negb all]. unfold read_bounded_room_snapshot. rewrite Hd.
  replace (len content <=? MAX_ROOM_SNAPSHOT_BYTES) with true by lia. cbn [mbind option_bind]. rewrite Hf. cbn [mbind option_bind]. rewrite bool_decide_eq_true_2 by done. by rewrite Hm.
Qed.
Lemma room_in_local d d' name : d !! name = d' !! name -> room_in all d name = room_in all d' name.
Proof. intros E. unfold room_in, read_bounded_room_snapshot. by rewrite E. Qed.

(** Names that look like a snapshot of a room are the names that are written. *)
Definition tidy d : Prop := forall i name r, fits 128 i -> is_Some (d !! name) -> snapshot_revision i name = Some r -> name = snapshot_file_name i r /\ u64 r.
(** The newest snapshots are those of the rooms in memory. *)
Record durable rm d : Prop := {
  du_tidy : tidy d;
  du_rooms i m : rm !! i = Some m -> room_in all d (snapshot_file_name i (persistence_revision m)) = Some (persisted_room i m);
  du_newest name p : room_in all d name = Some p -> exists m, rm !! p_room_id p = Some m /\ p_persistence_revision p <= persistence_revision m }.

Definition gather d (latest : gmap Z PersistedRoom) (entry : bytes * Entry) : gmap Z PersistedRoom :=
  match room_in all d entry.1 with Some p => keep_newer latest p | None => latest end.
Lemma gather_spec d i l :
  match foldl (gather d) ∅ l !! i with
  | Some p => p_room_id p = i /\ (exists e, e ∈ l /\ room_in all d e.1 = Some p) /\
      forall e q, e ∈ l -> room_in all d e.1 = Some q -> p_room_id q = i -> p_persistence_revision q <= p_persistence_revision p
  | None => forall e q, e ∈ l -> room_in all d e.1 = Some q -> p_room_id q <> i
  end.
Proof.
  induction l as [|e l IH] using rev_ind; [cbn; rewrite lookup_empty; by intros e q ?%not_elem_of_nil|]. rewrite foldl_app. cbn [foldl]. set (acc := foldl (gather d) ∅ l) in *. unfold gather.
    assert (forall e' q, e' ∈ l ++ [e] -> room_in all d e'.1 = Some q -> e' ∈ l \/ room_in all d e.1 = Some q) as Hin.
    { intros e' q [H|H]%elem_of_app Hq; [by left|]. apply list_elem_of_singleton in H as ->. by right. }
    destruct (room_in all d e.1) as [p|] eqn:He.
    - unfold keep_newer. destruct (decide (p_room_id p = i)) as [Hi|Hi].
      + rewrite Hi. destruct (acc !! i) as [c|] eqn:Hacc.
        * destruct IH as (I1 & (e0 & I2 & I3) & I4). destruct (Z.ltb_spec (p_persistence_revision c) (p_persistence_revision p)).
          -- rewrite lookup_insert_eq. split_and!; [done|exists e; split; [set_solver|done]|]. intros e' q Hq1 Hq2 Hq3. destruct (Hin e' q Hq1 Hq2) as [H1|[= <-]]; [|lia].
             specialize (I4 e' q H1 Hq2 Hq3). lia.
          -- rewrite Hacc. split_and!; [done|exists e0; split; [set_solver|done]|]. intros e' q Hq1 Hq2 Hq3. destruct (Hin e' q Hq1 Hq2) as [H1|[= <-]]; [by apply (I4 e')|lia].
        * rewrite lookup_insert_eq. split_and!; [done|exists e; split; [set_solver|done]|]. intros e' q Hq1 Hq2 Hq3. destruct (Hin e' q Hq1 Hq2) as [H1|[= <-]]; [|lia]. by destruct (IH e' q H1 Hq2).
      + assert ((match acc !! p_room_id p with Some c => if p_persistence_revision c <? p_persistence_revision p then <[p_room_id p := p]> acc else acc | None => <[p_room_id p := p]> acc end) !! i = acc !! i) as ->.
        { destruct (acc !! p_room_id p); [destruct (_ <? _)|]; by rewrite ?lookup_insert_ne. }
        destruct (acc !! i) as [c|].
        * destruct IH as (I1 & (e0 & I2 & I3) & I4). split_and!; [done|exists e0; split; [set_solver|done]|]. intros e' q Hq1 Hq2 Hq3. destruct (Hin e' q Hq1 Hq2) as [H1|[= <-]]; [by apply (I4 e')|done].
        * intros e' q Hq1 Hq2. destruct (Hin e' q Hq1 Hq2) as [H1|[= <-]]; [by apply (IH e')|done].
    - destruct (acc !! i) as [c|].
      + destruct IH as (I1 & (e0 & I2 & I3) & I4). split_and!; [done|exists e0; split; [set_solver|done]|]. intros e' q Hq1 Hq2 Hq3. destruct (Hin e' q Hq1 Hq2) as [H1|?]; [by apply (I4 e')|done].
      + intros e' q Hq1 Hq2. destruct (Hin e' q Hq1 Hq2) as [H1|?]; [by apply (IH e')|done].
Qed.
Lemma latest_spec d rm : durable rm d -> forall i, latest_rooms all d !! i = persisted_room i <$> rm !! i.
Proof.
  intros [_ D2 D3] i. unfold latest_rooms. fold (gather d). pose proof (gather_spec d i (iter d)) as Hfold.
  assert (forall name p, room_in all d name = Some p -> exists c, (name, c) ∈ iter d) as Hiter.
  { intros name p Hp. destruct (room_in_Some _ _ _ Hp) as (_ & c & _ & Hc & _). exists (File c). by rewrite (iter_perm d), elem_of_map_to_list. }
  destruct (foldl (gather d) ∅ (iter d) !! i) as [p|].
  - destruct Hfold as (F1 & (e & _ & F2) & F3). destruct (D3 _ _ F2) as (m & Hm & Hle). rewrite F1 in Hm. rewrite Hm. cbn. f_equal. pose proof (D2 i m Hm) as Hnew.
    destruct (Hiter _ _ Hnew) as [c Hc]. pose proof (F3 _ _ Hc Hnew eq_refl) as Hge. cbn in Hge. destruct (room_in_Some _ _ _ F2) as [En _]. rewrite F1 in En.
    replace (p_persistence_revision p) with (persistence_revision m) in En by lia. rewrite En, Hnew in F2. by injection F2.
  - destruct (rm !! i) as [m|] eqn:Hm; [|done]. exfalso. pose proof (D2 i m Hm) as Hnew. destruct (Hiter _ _ Hnew) as [c Hc]. by apply (Hfold _ _ Hc Hnew).
Qed.

Lemma load_each_spec ps L : NoDup (p_room_id <$> ps) -> NoDup (creation_command_id <$> ps) ->
  (forall p, p ∈ ps -> (exists m, managed_from_persisted p = Ok m) /\ l_rooms L !! p_room_id p = None /\ exists c, creation_command_id p = Some c /\ l_room_creations L !! c = None) ->
  exists L', load_each ps L = Ok L' /\
    (forall i m, l_rooms L' !! i = Some m <-> l_rooms L !! i = Some m \/ exists p, p ∈ ps /\ p_room_id p = i /\ managed_from_persisted p = Ok m) /\
    (forall c i, l_room_creations L' !! c = Some i <-> l_room_creations L !! c = Some i \/ exists p, p ∈ ps /\ p_room_id p = i /\ creation_command_id p = Some c) /\
    (forall i, l_event_channels L' !! i = if bool_decide (i ∈ (p_room_id <$> ps)) then Some [] else l_event_channels L !! i).
Proof.
  revert L. induction ps as [|p ps IH]; intros L Hn1 Hn2 Hps.
  { exists L. split; [done|]. split_and!; [intros i m; split; [by left|]; intros [H|(p & Hp & _)]; [done|by apply not_elem_of_nil in Hp]..|]. intros i. by rewrite bool_decide_eq_false_2 by apply not_elem_of_nil. }
  apply NoDup_cons in Hn1 as [Hn1 Hn1']. apply NoDup_cons in Hn2 as [Hn2 Hn2']. destruct (Hps p ltac:(left)) as ((m & Hm) & Hr & c & Hc & Hcr).
  cbn [load_each]. rewrite Hc, Hm. cbn [ok_or map_err mbind outcome_bind]. rewrite Hr, Hcr. rewrite !bool_decide_eq_false_2 by (by intros [? ?]). cbn [reject_if mbind outcome_bind].
  destruct (IH {| l_rooms := <[p_room_id p := m]> (l_rooms L); l_room_creations := <[c := p_room_id p]> (l_room_creations L); l_event_channels := <[p_room_id p := []]> (l_event_channels L) |} Hn1' Hn2')
    as (L' & HL & L1 & L2 & L3).
  { intros q Hq. destruct (Hps q ltac:(by right)) as (Hqm & Hqr & c' & Hqc & Hqcr). split; [done|]. cbn. split.
    - rewrite lookup_insert_ne; [done|]. intros E. apply Hn1. rewrite E. by apply list_elem_of_fmap_2.
    - exists c'. split; [done|]. rewrite lookup_insert_ne; [done|]. intros <-. apply Hn2. rewrite Hc, <- Hqc. by apply list_elem_of_fmap_2. }
  exists L'. split; [done|]. cbn in L1, L2, L3. split_and!.
  - intros i x. rewrite L1. destruct (decide (p_room_id p = i)) as [<-|Hi].
    + rewrite lookup_insert_eq. rewrite Hr. split.
      * intros [[= <-]|(q & Hq & E & Hqm)]; [right; exists p; split; [left|done]|]. right. exists q. split; [by right|done].
      * intros [?|(q & [->|Hq]%elem_of_cons & E & Hqm)]; [done|left; congruence|right; by exists q].
    + rewrite lookup_insert_ne by done. split; (intros [?|(q & Hq & E & Hqm)]; [by left|right; exists q; split; [|done]]); [by right|by apply elem_of_cons in Hq as [->|]].
  - intros c' i. rewrite L2. destruct (decide (c = c')) as [<-|Hi].
    + rewrite lookup_insert_eq. rewrite Hcr. split.
      * intros [[= <-]|(q & Hq & E & Hqm)]; [right; exists p; split; [left|done]|]. right. exists q. split; [by right|done].
      * intros [?|(q & [->|Hq]%elem_of_cons & E & Hqm)]; [done|left; congruence|right; by exists q].
    + rewrite lookup_insert_ne by done. split; (intros [?|(q & Hq & E & Hqm)]; [by left|right; exists q; split; [|done]]); [by right|apply elem_of_cons in Hq as [->|]; [congruence|done]].
  - intros i. rewrite L3. cbn [fmap list_fmap]. destruct (decide (i ∈ (p_room_id <$> ps))) as [Hi|Hi].
    + rewrite !bool_decide_eq_true_2; [done|by right|done].
    + rewrite (bool_decide_eq_false_2 (i ∈ p_room_id <$> ps)) by done. destruct (decide (i = p_room_id p)) as [->|Hne].
      * by rewrite lookup_insert_eq, bool_decide_eq_true_2 by left.
      * by rewrite lookup_insert_ne, bool_decide_eq_false_2 by (done || by rewrite not_elem_of_cons).
Qed.
(** ** The rooms of a server *)
Record managed_ok (i : Z) (m : ManagedRoom) : Prop := {
  mk_id : fits 128 i;
  mk_history : exists mode p evs, DomainSafety.history i mode p evs (room m) /\ head evs = Some (creation_event m) /\ Domain.policy_valid p = true;
  mk_revision : persistence_revision m = Domain.sequence (room m);
  mk_side : len (side_effect_order m) <= SIDE_EFFECT_HISTORY_LIMIT /\ NoDup (side_effect_order m) /\ side_effect_commands m = list_to_set (side_effect_order m) }.
Lemma managed_revision i m : managed_ok i m -> u64 (persistence_revision m) /\ 0 < persistence_revision m.
Proof.
  intros [_ (mode & p & evs & Hh & _) -> _]. pose proof (DomainSafety.ok_sequence _ (DomainSafety.history_room_ok _ _ _ _ _ Hh)). unfold fits, umax in *. lia.
Qed.
Lemma managed_back i m : managed_ok i m -> managed_from_persisted (persisted_room i m) = Ok (restarted m).
Proof.
  intros [_ (mode & p & evs & Hh & Hhd & Hp) Hr (S1 & S2 & S3)]. unfold managed_from_persisted, persisted_room. cbn [p_side_effect_order p_state p_room_id p_mode p_policy p_events p_persistence_revision].
  rewrite DomainSafety.size_history by done. replace (SIDE_EFFECT_HISTORY_LIMIT <? len (side_effect_order m)) with false by lia. rewrite Z.eqb_refl. cbn [orb negb reject_if mbind outcome_bind creation_event_of p_creation_event ok_or].
  destruct (DomainSafety.st_same _ _ _ _ _ (DomainSafety.history_stream _ _ _ _ _ Hh)) as (E1 & E2 & E3).
  rewrite DomainSafety.restore_snapshot_ok by (by rewrite ?E3; eauto using DomainSafety.history_room_ok). cbn [map_err mbind outcome_bind].
  destruct (history_host _ _ _ _ _ Hh) as (e & host & H1 & H2 & H3 & H4). rewrite Hhd in H1. injection H1 as <-. rewrite E1, Hr, !Z.eqb_refl, !bool_decide_eq_true_2 by done.
  unfold valid_creation. rewrite H2, H3, E2. rewrite !bool_decide_eq_true_2 by done. cbn. f_equal. unfold restarted, with_signals. rewrite <- Hr, <- S3. by destruct m.
Qed.

Record rooms_ok rm : Prop := {
  ro_managed i m : rm !! i = Some m -> managed_ok i m;
  ro_creations i j m m' : rm !! i = Some m -> rm !! j = Some m' -> Domain.command_id (creation_event m) = Domain.command_id (creation_event m') -> i = j }.
(** A process that starts with the directory has exactly these rooms. *)
Record recovers d rm (L : LoadedRooms) : Prop := {
  re_load : load_rooms all d = Ok L;
  re_rooms : l_rooms L = restarted <$> rm;
  re_creations c i : l_room_creations L !! c = Some i <-> exists m, rm !! i = Some m /\ Domain.command_id (creation_event m) = c;
  re_channels : l_event_channels L = (fun _ => []) <$> rm }.
Lemma durable_recovers d rm : rooms_ok rm -> durable rm d -> exists L, recovers d rm L.
Proof.
  intros [R1 R2] Hd. pose proof (latest_spec d rm Hd) as Hl. set (ps := snd <$> iter (latest_rooms all d)).
  assert (forall p, p ∈ ps <-> exists i m, rm !! i = Some m /\ p = persisted_room i m) as Hps.
  { intros p. unfold ps. rewrite (iter_perm (latest_rooms all d)), list_elem_of_fmap. split.
    - intros ([i q] & -> & Hq%elem_of_map_to_list). rewrite Hl in Hq. apply fmap_Some in Hq as (m & Hm & ->). eauto.
    - intros (i & m & Hm & ->). exists (i, persisted_room i m). split; [done|]. apply elem_of_map_to_list. by rewrite Hl, Hm. }
  assert (NoDup ps /\ NoDup (p_room_id <$> ps) /\ NoDup (creation_command_id <$> ps)) as (_ & Hn1 & Hn2).
  { assert (NoDup ps) as Hn.
    { unfold ps. rewrite (iter_perm (latest_rooms all d)). apply NoDup_fmap_2_strong; [|apply NoDup_map_to_list]. intros [i p] [j q] Hi%elem_of_map_to_list Hj%elem_of_map_to_list E. cbn in E. subst q.
      rewrite Hl in Hi, Hj. apply fmap_Some in Hi as (m & _ & ->). apply fmap_Some in Hj as (m' & _ & E). apply (f_equal p_room_id) in E. cbn in E. by subst. }
    split_and!; [done|..]; apply NoDup_fmap_2_strong; try done; intros p q (i & m & Hm & ->)%Hps (j & m' & Hm' & ->)%Hps E.
    - cbn in E. subst. congruence.
    - unfold creation_command_id, creation_event_of in E. cbn in E. injection E as E. pose proof (R2 i j m m' Hm Hm' E) as ->. congruence. }
  destruct (load_each_spec ps {| l_rooms := ∅; l_room_creations := ∅; l_event_channels := ∅ |} Hn1 Hn2) as (L & HL & L1 & L2 & L3).
  { intros p (i & m & Hm & ->)%Hps. split_and!; [exists (restarted m); apply managed_back; eauto|by cbn; rewrite lookup_empty|]. eexists. split; [done|]. cbn. by rewrite lookup_empty. }
  exists L. split; [done|..].
  - apply map_eq. intros i. apply option_eq. intros m. rewrite L1, lookup_fmap, fmap_Some. cbn. rewrite lookup_empty. split.
    + intros [?|(p & (j & m' & Hm' & ->)%Hps & <- & Hp)]; [done|]. cbn. rewrite managed_back in Hp by eauto. injection Hp as <-. eauto.
    + intros (m' & Hm' & ->). right. exists (persisted_room i m'). split; [apply Hps; eauto|]. split; [done|]. apply managed_back. eauto.
  - intros c i. rewrite L2. cbn. rewrite lookup_empty. split.
    + intros [?|(p & (j & m' & Hm' & ->)%Hps & <- & Hp)]; [done|]. unfold creation_command_id, creation_event_of in Hp. cbn in Hp. injection Hp as <-. eauto.
    + intros (m' & Hm' & <-). right. exists (persisted_room i m'). split; [apply Hps; eauto|done].
  - apply map_eq. intros i. rewrite L3, lookup_fmap. cbn. rewrite lookup_empty. destruct (rm !! i) as [m|] eqn:Hm; cbn.
    + rewrite bool_decide_eq_true_2; [done|]. apply list_elem_of_fmap. exists (persisted_room i m). split; [done|]. apply Hps. eauto.
    + rewrite bool_decide_eq_false_2; [done|]. intros (p & -> & (j & m' & Hm' & ->)%Hps)%list_elem_of_fmap. cbn in Hm. congruence.
Qed.
(** ** One operation on the directory *)
(** A name that no reader of snapshots looks at. *)
Definition stray (name : bytes) : Prop := extension name <> Some (octets "json") /\ forall i, snapshot_revision i name = None.
Lemma temporary_stray name p : stray (temporary_file_name name p).
Proof. split; [rewrite temporary_extension; done|]. intros i. apply temporary_revision. Qed.
Lemma stray_not_in d name : stray name -> room_in all d name = None.
Proof. intros [H _]. unfold room_in. by rewrite bool_decide_eq_false_2. Qed.
Lemma durable_elsewhere d d' rm : durable rm d -> (forall name, stray name \/ d' !! name = d !! name) -> durable rm d'.
Proof.
  intros [D1 D2 D3] H.
  assert (forall name, ~ stray name -> room_in all d' name = room_in all d name) as Hin by (intros name Hn; apply room_in_local; by destruct (H name)).
  assert (forall i r, ~ stray (snapshot_file_name i r)) as Hns by (intros i r [Hs _]; by rewrite snapshot_name_extension in Hs). split.
  - intros i name r Hi Hd Hr. destruct (H name) as [[_ Hs]|E]; [specialize (Hs i); congruence|]. rewrite E in Hd. by apply D1.
  - intros i m Hm. rewrite Hin by apply Hns. by apply D2.
  - intros name p Hp. destruct (room_in_Some _ _ _ Hp) as [-> _]. rewrite Hin in Hp by apply Hns. by apply D3 in Hp.
Qed.
Lemma durable_stray d rm name e : stray name -> durable rm d -> durable rm (<[name := e]> d).
Proof. intros Hn Hd. apply (durable_elsewhere d); [done|]. intros x. destruct (decide (x = name)) as [->|]; [by left|right; by rewrite lookup_insert_ne]. Qed.
Lemma durable_stray_delete d rm name : stray name -> durable rm d -> durable rm (delete name d).
Proof. intros Hn Hd. apply (durable_elsewhere d); [done|]. intros x. destruct (decide (x = name)) as [->|]; [by left|right; by rewrite lookup_delete_ne]. Qed.
Lemma durable_forget d rm i r : rooms_ok rm -> fits 128 i -> u64 r -> (forall m, rm !! i = Some m -> persistence_revision m <> r) ->
  durable rm d -> durable rm (delete (snapshot_file_name i r) d).
Proof.
  intros [R1 _] Hi Hr Hne [D1 D2 D3]. split.
  - intros j name x Hj [e He] Hx. apply lookup_delete_Some in He as [_ He]. apply D1; [done|by eexists|done].
  - intros j m Hm. pose proof (R1 _ _ Hm) as Hok. rewrite (room_in_local _ d); [by apply D2|]. rewrite lookup_delete_ne; [done|]. intros E.
    apply snapshot_name_inj in E as [-> ->]; [by eapply Hne|done|apply Hok|done|by apply (managed_revision j m)].
  - intros name p Hp. destruct (room_in_Some _ _ _ Hp) as (_ & c & m & He & _). apply lookup_delete_Some in He as [Hn _]. apply (D3 name). rewrite (room_in_local _ (delete (snapshot_file_name i r) d)); [done|].
    by rewrite lookup_delete_ne.
Qed.
Lemma durable_write d rm i m content : rooms_ok rm -> managed_ok i m -> (forall m0, rm !! i = Some m0 -> persistence_revision m0 < persistence_revision m) ->
  to_vec (persisted_room i m) = Some content -> len content <= MAX_ROOM_SNAPSHOT_BYTES -> durable rm d ->
  durable (<[i := m]> rm) (<[snapshot_file_name i (persistence_revision m) := File content]> d).
Proof.
  intros [R1 _] Hm Hnew Hto Hl [D1 D2 D3]. set (path := snapshot_file_name i (persistence_revision m)). destruct (managed_revision i m Hm) as [Hu H0]. pose proof (mk_id _ _ Hm) as Hi.
  assert (room_in all (<[path := File content]> d) path = Some (persisted_room i m)) as Hhere.
  { apply (room_in_here _ (persisted_room i m) content (restarted m)); [by rewrite lookup_insert_eq|done|by apply from_to|by apply managed_back]. } split.
  - intros j name r Hj Hd Hr. destruct (decide (name = path)) as [->|Hne].
    + assert (j = i) as -> by (by eapply snapshot_name_room). unfold path in *. rewrite snapshot_name_revision in Hr by done. injection Hr as <-. done.
    + rewrite lookup_insert_ne in Hd by done. by apply D1.
  - intros j x. destruct (decide (j = i)) as [->|Hne]; [rewrite lookup_insert_eq; by intros [= <-]|]. rewrite lookup_insert_ne by done. intros Hx. pose proof (R1 _ _ Hx) as Hok.
    rewrite (room_in_local _ d); [by apply D2|]. rewrite lookup_insert_ne; [done|]. intros E. apply snapshot_name_inj in E as [E _]; [done|done|apply Hok|done|by apply (managed_revision j x)].
  - intros name p Hp. destruct (decide (name = path)) as [->|Hne].
    + rewrite Hhere in Hp. injection Hp as <-. exists m. cbn. by rewrite lookup_insert_eq.
    + rewrite (room_in_local _ d) in Hp by (by rewrite lookup_insert_ne). destruct (D3 _ _ Hp) as (x & Hx & Hle). destruct (decide (p_room_id p = i)) as [E|E].
      * exists m. rewrite E, lookup_insert_eq. rewrite E in Hx. specialize (Hnew x Hx). split; [done|lia].
      * exists x. by rewrite lookup_insert_ne.
Qed.

#[local] Existing Instance newer_first_dec.
#[local] Instance newer_first_total : Total newer_first.
Proof. intros a b. unfold newer_first. lia. Qed.
#[local] Instance newer_first_trans : Transitive newer_first.
Proof. intros a b c. unfold newer_first. lia. Qed.
Lemma api_prunable_older d i r name : tidy d -> fits 128 i -> u64 r -> is_Some (d !! snapshot_file_name i r) -> name ∈ prunable d i r ->
  exists r', name = snapshot_file_name i r' /\ u64 r' /\ r' <> r.
Proof.
  intros Ht Hi Hr Hhere Hin. unfold prunable in Hin. cbv zeta in Hin. set (f := fun entry : bytes * Entry => _) in Hin. set (l := omap f (iter d)) in Hin.
  assert (forall x, x ∈ l <-> x.1 <= r /\ is_Some (d !! x.2) /\ snapshot_revision i x.2 = Some x.1) as Hl.
  { intros [v n]. unfold l. rewrite list_elem_of_omap. cbn. split.
    - intros ([n' e] & He & Hf). unfold f in Hf. apply bind_Some in Hf as (w & Hw & Hf). destruct (Z.leb_spec w r); [|done]. injection Hf as -> ->.
      rewrite (iter_perm d), elem_of_map_to_list in He. cbn in *. split_and!; [done|by eexists|done].
    - intros (Hle & [e He] & Hv). exists (n, e). split; [by rewrite (iter_perm d), elem_of_map_to_list|]. unfold f. cbn. rewrite Hv. cbn. by replace (v <=? r) with true by lia. }
  assert (NoDup l) as Hnd.
  { apply WorkerFencesSafety.NoDup_omap; [rewrite (iter_perm d); apply NoDup_map_to_list|]. intros [k e] [k' e'] z Hk Hk' Hf Hf'. unfold f in *. cbn in *.
    apply bind_Some in Hf as (v & _ & Hf). apply bind_Some in Hf' as (v' & _ & Hf'). case_match; [|done]. case_match; [|done]. simplify_eq.
    rewrite (iter_perm d), elem_of_map_to_list in Hk, Hk'. congruence. }
  apply list_elem_of_fmap in Hin as (x & -> & Hx). pose proof (StronglySorted_merge_sort newer_first l) as Hs. pose proof (merge_sort_Permutation newer_first l) as Hp.
  destruct (merge_sort newer_first l) as [|a rest] eqn:E; [by apply not_elem_of_nil in Hx|]. cbn [drop] in Hx.
  assert (x ∈ rest) as Hxr by (destruct rest; [by apply not_elem_of_nil in Hx|right; exact Hx]).
  assert (x ∈ l) as Hxl by (rewrite <- Hp; by right). destruct (proj1 (Hl x) Hxl) as (Hle & Hd & Hrev). destruct (Ht i _ _ Hi Hd Hrev) as [En Hu]. exists x.1. split_and!; [done|done|].
  intros Exr. assert (a = x) as ->; [|rewrite <- Hp in Hnd; by apply NoDup_cons in Hnd as [? _]].
  assert (a ∈ l) as Hal by (rewrite <- Hp; left). destruct (proj1 (Hl a) Hal) as (Hale & Had & Harev). destruct (Ht i _ _ Hi Had Harev) as [Ean _].
  apply StronglySorted_inv in Hs as [_ Hs]. rewrite Forall_forall in Hs. specialize (Hs x Hxr). unfold newer_first in Hs. assert (a.1 = x.1) as E1 by lia. destruct a, x; cbn in *; congruence.
Qed.
(** ** Writing a snapshot *)
Implicit Types s : AppState.
(** The state with another directory, reached through some others. *)
Definition at_dir d (new : list (gmap bytes Entry)) s : AppState :=
  {| rooms := rooms s; room_creations := room_creations s; event_channels := event_channels s; event_tickets := event_tickets s; revoked_tokens := revoked_tokens s;
     active_rooms := active_rooms s; directory := d; trail := trail s ++ new |}.
Lemma at_dir_nil s : at_dir (directory s) [] s = s.
Proof. unfold at_dir. rewrite app_nil_r. by destruct s. Qed.
Lemma at_dir_again d d' new new' s : at_dir d' new' (at_dir d new s) = at_dir d' (new ++ new') s.
Proof. unfold at_dir. cbn. by rewrite app_assoc. Qed.
Definition removed (os : Os) (name : bytes) d : gmap bytes Entry := if removes os name then delete name d else d.
Lemma remove_run os name s : remove_file os name s = (at_dir (removed os name (directory s)) [removed os name (directory s)] s, Ok tt).
Proof. done. Qed.
Lemma prune_run os i m rm s : rooms_ok rm -> rm !! i = Some m -> durable rm (directory s) ->
  exists d new, prune_room_snapshots os i (persistence_revision m) s = (at_dir d new s, Ok tt) /\ durable rm d /\ Forall (durable rm) new.
Proof.
  intros Hrm Hm Hd. pose proof (ro_managed _ Hrm _ _ Hm) as Hok. destruct (managed_revision i m Hok) as [Hu _]. pose proof (mk_id _ _ Hok) as Hi.
  unfold prune_room_snapshots, mbind, prog_bind, gets. destruct (lists os); [|exists (directory s), []; by rewrite at_dir_nil].
  assert (Forall (fun name => exists r, name = snapshot_file_name i r /\ u64 r /\ r <> persistence_revision m) (prunable (directory s) i (persistence_revision m))) as Hnames.
  { apply Forall_forall. intros name Hin. apply (api_prunable_older (directory s)); [apply Hd|done|done| |done].
    destruct (room_in_Some _ _ _ (du_rooms _ _ Hd i m Hm)) as (_ & c & _ & Hc & _). by eexists. }
  set (names := prunable _ _ _) in *. clearbody names. revert s Hd. induction Hnames as [|name names (r & -> & Hr & Hne) _ IH]; intros s Hd.
  { exists (directory s), []. by rewrite at_dir_nil. }
  cbn [for_each]. unfold mbind, prog_bind. rewrite remove_run. set (d := removed os _ _).
  assert (durable rm d) as Hd'. { unfold d, removed. destruct (removes os _); [|done]. apply durable_forget; try done. intros x Hx. rewrite Hm in Hx. injection Hx as <-. congruence. }
  destruct (IH (at_dir d [d] s) Hd') as (d2 & new & -> & H1 & H2). exists d2, (d :: new). rewrite at_dir_again. split_and!; [done|done|by constructor].
Qed.
Lemma api_persist_cases os i m rm s : rooms_ok rm -> rooms_ok (<[i := m]> rm) -> (forall m0, rm !! i = Some m0 -> persistence_revision m0 < persistence_revision m) -> durable rm (directory s) ->
  exists d new res, persist_managed_room os i m s = (at_dir d new s, res) /\ Forall (fun x => durable rm x \/ durable (<[i := m]> rm) x) new /\
    match res with Ok _ => durable (<[i := m]> rm) d | Err _ => durable rm d /\ Forall (durable rm) new | _ => False end.
Proof.
  intros Hrm Hrm' Hnew Hd. pose proof (ro_managed _ Hrm' i m (lookup_insert_eq rm i m)) as Hm. unfold persist_managed_room. unfold mbind at 1, prog_bind at 1. unfold lift at 1.
  destruct (to_vec (persisted_room i m)) as [content|] eqn:Hto; cbn [ok_or]; [|exists (directory s), [], (Err InternalError); by rewrite at_dir_nil].
  unfold mbind at 1, prog_bind at 1. unfold lift at 1. destruct (Z.ltb_spec MAX_ROOM_SNAPSHOT_BYTES (len content)); cbn [reject_if]; [eexists (directory s), [], _; by rewrite at_dir_nil|].
  cbv zeta. set (path := snapshot_file_name i (persistence_revision m)). unfold mbind at 1, prog_bind at 1. unfold gets at 1. case_bool_decide as Hex.
  { exists (directory s), []. rewrite at_dir_nil. unfold lift. case_bool_decide as Hsame; [|eexists; split; [done|]; by split_and!]. exfalso. unfold read_bounded_room_snapshot in Hsame.
    destruct (directory s !! path) as [[x|]|] eqn:Hp; [|done..]. case_match; [|done]. injection Hsame as ->.
    assert (room_in all (directory s) path = Some (persisted_room i m)) as Hin by (apply (room_in_here _ (persisted_room i m) content (restarted m)); [done|lia|by apply from_to|by apply managed_back]).
    destruct (du_newest _ _ Hd _ _ Hin) as (m0 & Hm0 & Hle). cbn in *. specialize (Hnew _ Hm0). lia. }
  set (tmp := temporary_file_name path (pid os)). pose proof (temporary_stray path (pid os)) as Htmp. fold tmp in Htmp. unfold mbind at 1, prog_bind at 1. unfold lift at 1.
  destruct (opens os); cbn [negb reject_if]; [|eexists (directory s), [], _; by rewrite at_dir_nil].
  assert (forall e, durable rm (<[tmp := e]> (directory s))) as Hw by (intros e; by apply durable_stray).
  set (d := directory s) in *. set (d1 := <[tmp := File []]> d). set (d2 := <[tmp := File (partial os)]> d). set (d3 := <[tmp := File content]> d).
  unfold mbind at 1, prog_bind at 1. change (visit d1 s) with (at_dir d1 [d1] s, @Ok ApiError unit tt). cbv iota beta.
  unfold mbind at 1, prog_bind at 1. change (visit d2 (at_dir d1 [d1] s)) with (at_dir d2 [d2] (at_dir d1 [d1] s), @Ok ApiError unit tt). cbv iota beta. rewrite at_dir_again. cbn [app].
  assert (forall e, durable rm (removed os tmp (<[tmp := e]> d))) as Hrem by (intros e; unfold removed; destruct (removes os tmp); [by apply durable_stray_delete|done]).
  destruct (writes os); cbn [negb].
  2: { unfold mbind at 1, prog_bind at 1. unfold d2. rewrite remove_run. cbn [directory at_dir]. rewrite at_dir_again. unfold fail. eexists _, _, _. split; [done|]. cbn [app]. rewrite !Forall_cons, !Forall_nil. split_and!; try done; try left; (apply Hw || apply Hrem). }
  unfold mbind at 1, prog_bind at 1. change (visit d3 (at_dir d2 [d1; d2] s)) with (at_dir d3 [d3] (at_dir d2 [d1; d2] s), @Ok ApiError unit tt). cbv iota beta. rewrite at_dir_again. cbn [app].
  assert (tmp <> path) as Hne by (intros E; destruct Htmp as [Htmp _]; rewrite E in Htmp; unfold path in Htmp; by rewrite snapshot_name_extension in Htmp).
  destruct (renames os); cbn [negb].
  - unfold mbind at 1, prog_bind at 1. set (d4 := <[path := File content]> (delete tmp d3)).
    change (visit d4 (at_dir d3 [d1; d2; d3] s)) with (at_dir d4 [d4] (at_dir d3 [d1; d2; d3] s), @Ok ApiError unit tt). cbv iota beta. rewrite at_dir_again. cbn [app].
    assert (durable (<[i := m]> rm) d4) as Hd4 by (apply durable_write; [done|done|done|done|lia|apply durable_stray_delete; [done|apply Hw]]).
    destruct (prune_run os i m (<[i := m]> rm) (at_dir d4 [d1; d2; d3; d4] s) Hrm' (lookup_insert_eq rm i m) Hd4) as (d5 & new & -> & H1 & H2). rewrite at_dir_again. cbn [app].
    eexists _, _, _. split; [done|]. split; [|done]. rewrite !Forall_cons. split_and!; [by left; apply Hw..|by right|]. eapply Forall_impl; [exact H2|]. by right.
  - unfold mbind at 1, prog_bind at 1. unfold gets at 1. cbn [directory at_dir]. unfold mbind at 1, prog_bind at 1. rewrite remove_run. cbn [directory at_dir]. rewrite at_dir_again.
    rewrite bool_decide_eq_false_2. { unfold mbind, prog_bind, lift. cbn [negb reject_if]. eexists _, _, _. split; [done|]. cbn [app]. rewrite !Forall_cons, !Forall_nil. split_and!; try done; try left; (apply Hw || apply Hrem). }
    unfold read_bounded_room_snapshot. unfold d3. rewrite lookup_insert_ne by done. destruct (d !! path) eqn:E; [|done]. exfalso. apply Hex. by eexists.
Qed.
(** ** Signals *)
Definition total_cost (l : list SignalRecord) : Z := foldr (fun signal n => signal_cost signal + n) 0 l.
Lemma signal_cost_bound signal : 0 <= signal_cost signal < 2 ^ 63.
Proof. unfold signal_cost. destruct (signal_written signal) as (b & -> & Hb). pose_len. lia. Qed.
Lemma total_cost_app l l' : total_cost (l ++ l') = total_cost l + total_cost l'.
Proof. induction l as [|x l IH]; [done|]. cbn [app]. change (signal_cost x + total_cost (l ++ l') = signal_cost x + total_cost l + total_cost l'). lia. Qed.
Lemma total_cost_nonneg l : 0 <= total_cost l.
Proof. induction l as [|x l IH]; [done|]. change (0 <= signal_cost x + total_cost l). pose proof (signal_cost_bound x). lia. Qed.
Definition fits_cache (l : list SignalRecord) : Prop := len l <= SIGNAL_BACKLOG /\ total_cost l <= MAX_SIGNAL_CACHE_BYTES.
(** The longest end of the list within the limits. *)
Lemma api_trim_spec l : exists pre l', l = pre ++ l' /\ trim_signal_cache l (total_cost l) = (l', total_cost l') /\ fits_cache l' /\ (pre = [] \/ exists x pre', pre = pre' ++ [x] /\ ~ fits_cache (x :: l')).
Proof.
  induction l as [|x l IH]; cbn [trim_signal_cache].
  { exists [], []. split; [done|]. split; [done|]. split; [by split|by left]. }
  destruct ((SIGNAL_BACKLOG <? len (x :: l)) || (MAX_SIGNAL_CACHE_BYTES <? total_cost (x :: l))) eqn:Hover.
  - destruct IH as (pre & l' & -> & E & Hf & Hmax). replace (saturating_sub (total_cost (x :: pre ++ l')) (signal_cost x)) with (total_cost (pre ++ l')).
    2: { unfold saturating_sub. change (total_cost (x :: pre ++ l')) with (signal_cost x + total_cost (pre ++ l')). pose proof (total_cost_nonneg (pre ++ l')). lia. }
    exists (x :: pre), l'. split_and!; [done|exact E|exact Hf|right]. destruct Hmax as [->|(y & pre' & -> & Hn)]; [|by exists y, (x :: pre')].
    exists x, []. split; [done|]. unfold fits_cache. cbn [app] in Hover. lia.
  - exists [], (x :: l). split; [done|]. split; [done|]. split; [unfold fits_cache; lia|by left].
Qed.
(** What a channel has carried, and the part of it that is cached. *)
Record signals_ok (log : list SignalRecord) (m : ManagedRoom) : Prop := {
  so_suffix : exists dropped, log = dropped ++ signals m /\ (dropped = [] \/ exists x pre, dropped = pre ++ [x] /\ ~ fits_cache (x :: signals m));
  so_numbers : sg_sequence <$> log = seqZ 1 (len log);
  so_next : next_signal_sequence m = len log + 1;
  so_fits : fits_cache (signals m);
  so_bytes : signal_cache_bytes m = total_cost (signals m) }.
Lemma so_sequence log m signal : signals_ok log m -> signal ∈ signals m -> sg_sequence signal <= len log.
Proof.
  intros [(dropped & Hl & _) Hn _ _ _] Hin. assert (sg_sequence signal ∈ (sg_sequence <$> log)) as H by (apply list_elem_of_fmap_2; rewrite Hl; set_solver).
  rewrite Hn, elem_of_seqZ in H. lia.
Qed.

#[local] Existing Instance by_sequence_dec.
#[local] Instance by_sequence_total : Total by_sequence.
Proof. intros a b. unfold by_sequence. lia. Qed.
#[local] Instance by_sequence_trans : Transitive by_sequence.
Proof. intros a b c. unfold by_sequence. lia. Qed.
Lemma increasing_sorted l n k : sg_sequence <$> l = seqZ n k -> merge_sort by_sequence l = l.
Proof.
  intros Hl. assert (forall a b x y, l !! a = Some x -> l !! b = Some y -> sg_sequence x = n + Z.of_nat a /\ sg_sequence y = n + Z.of_nat b) as Hat.
  { intros a b x y Ha Hb. apply (f_equal (fun z => (z !! a, z !! b))) in Hl. rewrite !list_lookup_fmap, Ha, Hb in Hl. cbn in Hl. injection Hl as H1 H2.
    symmetry in H1, H2. apply lookup_seqZ in H1 as [H1 _]. apply lookup_seqZ in H2 as [H2 _]. lia. }
  apply (StronglySorted_unique_strong by_sequence); [|apply (StronglySorted_merge_sort by_sequence)| |apply merge_sort_Permutation].
  - intros x y Hx Hy H1 H2. rewrite (merge_sort_Permutation by_sequence) in Hx. apply list_elem_of_lookup_1 in Hx as [a Ha]. apply list_elem_of_lookup_1 in Hy as [b Hb].
    destruct (Hat a b x y Ha Hb) as [E1 E2]. unfold by_sequence in *. assert (a = b) as -> by lia. congruence.
  - clear Hat. revert n k Hl. induction l as [|x l IH]; intros n k Hl; [apply SSorted_nil|]. assert (0 < k) as Hk by (destruct (decide (0 < k)); [done|]; by rewrite seqZ_nil in Hl by lia).
    rewrite seqZ_cons in Hl by lia. cbn in Hl. injection Hl as Hx Hl. constructor; [by eapply IH|]. apply Forall_forall. intros y Hy. unfold by_sequence.
    assert (sg_sequence y ∈ (sg_sequence <$> l)) as H by (by apply list_elem_of_fmap_2). rewrite Hl, elem_of_seqZ in H. lia.
Qed.
(** ** The server *)
Record api_ok s : Prop := {
  ao_rooms : rooms_ok (rooms s);
  ao_durable : durable (rooms s) (directory s);
  ao_creations c i : room_creations s !! c = Some i <-> exists m, rooms s !! i = Some m /\ Domain.command_id (creation_event m) = c;
  ao_signals i m : rooms s !! i = Some m -> exists log, event_channels s !! i = Some log /\ signals_ok log m;
  ao_channels i : rooms s !! i = None -> event_channels s !! i = None }.

(** A room whose signals change is stored as before. *)
Lemma rooms_same_view rm i m m' : rm !! i = Some m -> persisted_room i m' = persisted_room i m -> room m' = room m -> side_effect_commands m' = side_effect_commands m -> rooms_ok rm -> rooms_ok (<[i := m']> rm).
Proof.
  intros Hm Ev Er Es [R1 R2]. assert (creation_event m' = creation_event m) as Ec by (apply (f_equal p_creation_event) in Ev; cbn in Ev; congruence).
  pose proof (f_equal p_persistence_revision Ev) as Erev. pose proof (f_equal p_side_effect_order Ev) as Eo. cbn in Erev, Eo. split.
  - intros j x. destruct (decide (j = i)) as [->|Hne]; [rewrite lookup_insert_eq; intros [= <-]|rewrite lookup_insert_ne by done; apply R1].
    destruct (R1 _ _ Hm) as [M1 M2 M3 M4]. split; rewrite ?Er, ?Ec, ?Erev, ?Eo, ?Es; done.
  - assert (forall j x, <[i := m']> rm !! j = Some x -> exists x0, rm !! j = Some x0 /\ creation_event x = creation_event x0) as Hback.
    { intros j x. destruct (decide (j = i)) as [->|Hne]; [rewrite lookup_insert_eq; intros [= <-]; by exists m|rewrite lookup_insert_ne by done; by exists x]. }
    intros j k x y (x0 & Hx & Ex)%Hback (y0 & Hy & Ey)%Hback E. apply (R2 j k x0 y0); [done|done|congruence].
Qed.
Lemma durable_same_view rm d i m m' : rm !! i = Some m -> persisted_room i m' = persisted_room i m -> durable rm d -> durable (<[i := m']> rm) d.
Proof.
  intros Hm Ev [D1 D2 D3]. pose proof (f_equal p_persistence_revision Ev) as Er. cbn in Er. split; [done|..].
  - intros j x. destruct (decide (j = i)) as [->|Hne]; [rewrite lookup_insert_eq; intros [= <-]; rewrite Er, Ev; by apply D2|rewrite lookup_insert_ne by done; apply D2].
  - intros name p Hp. destruct (D3 _ _ Hp) as (x & Hx & Hle). destruct (decide (p_room_id p = i)) as [E|E].
    + exists m'. rewrite E, lookup_insert_eq. split; [done|]. rewrite E, Hm in Hx. injection Hx as <-. lia.
    + exists x. by rewrite lookup_insert_ne.
Qed.
Lemma creations_same_view rm (cr : gmap Z Z) i m m' : rm !! i = Some m -> creation_event m' = creation_event m ->
  (forall c j, cr !! c = Some j <-> exists x, rm !! j = Some x /\ Domain.command_id (creation_event x) = c) ->
  forall c j, cr !! c = Some j <-> exists x, <[i := m']> rm !! j = Some x /\ Domain.command_id (creation_event x) = c.
Proof.
  intros Hm Ec Hcr c j. rewrite Hcr. destruct (decide (j = i)) as [->|Hne]; [|by rewrite lookup_insert_ne]. rewrite lookup_insert_eq, Hm. split; intros (x & [= <-] & <-); eexists; (split; [done|congruence]).
Qed.

(** *** Signals *)
Lemma get_room_run i m s : rooms s !! i = Some m -> get_room_entry i s = (s, Ok m).
Proof. intros Hm. unfold get_room_entry, mbind, prog_bind, gets, lift. by rewrite Hm. Qed.
(** The next signal goes to the end of the log, and the cache keeps the longest end of it that fits. *)
Lemma cache_next signal log m : signals_ok log m -> next_signal_sequence m < umax 64 -> sg_sequence signal = len log + 1 ->
  existsb (fun existing => sg_sequence existing =? sg_sequence signal) (signals m) = false /\
  exists l', trim_signal_cache (merge_sort by_sequence (signals m ++ [signal])) (saturating_add 64 (signal_cache_bytes m) (signal_cost signal)) = (l', total_cost l') /\
    signals_ok (log ++ [signal]) (with_signals l' (total_cost l') (Z.max (next_signal_sequence m) (saturating_add 64 (sg_sequence signal) 1)) m).
Proof.
  intros Hok Hlt Hseq. pose proof Hok as [(dropped & Hl & Hdrop) Hn Hnext [F1 F2] Hb]. split.
  { apply not_true_iff_false. intros (x & Hx%list_elem_of_In & E%Z.eqb_eq)%existsb_exists. pose proof (so_sequence log m x Hok Hx). lia. }
  pose proof (signal_cost_bound signal) as Hcost. assert (saturating_add 64 (signal_cache_bytes m) (signal_cost signal) = total_cost (signals m ++ [signal])) as ->.
  { rewrite total_cost_app, Hb. cbn [total_cost foldr]. unfold saturating_add, umax. unfold MAX_SIGNAL_CACHE_BYTES in F2. lia. }
  pose proof (len_nonneg dropped) as Hd0. pose proof (len_nonneg (signals m)) as Hm0. assert (sg_sequence <$> (log ++ [signal]) = seqZ 1 (len log + 1)) as Hnum.
  { pose proof (len_nonneg log). rewrite fmap_app, Hn. rewrite seqZ_app by lia. f_equal. cbn [fmap list_fmap]. rewrite Hseq. change (seqZ (1 + len log) 1) with [0 + (1 + len log)]. f_equal. lia. }
  rewrite (increasing_sorted (signals m ++ [signal]) (1 + len dropped) (len (signals m) + 1)).
  2: { rewrite Hl, len_app, <- app_assoc, fmap_app in Hnum. replace (len dropped + len (signals m) + 1) with (len dropped + (len (signals m) + 1)) in Hnum by lia.
       rewrite seqZ_app in Hnum by lia. apply app_inj_1 in Hnum as [_ H]; [done|]. rewrite length_fmap, length_seqZ. unfold len. lia. }
  destruct (api_trim_spec (signals m ++ [signal])) as (pre & l' & Epre & -> & Hfit & Hmax). exists l'. split; [done|].
  split; cbn [signals with_signals next_signal_sequence signal_cache_bytes]; [|rewrite len_app; exact Hnum| |done|done].
  2: { rewrite Hnext, Hseq, len_app. unfold saturating_add. change (len [signal]) with 1. lia. }
  exists (dropped ++ pre). split; [rewrite Hl, <- !app_assoc; by rewrite <- Epre|]. destruct Hmax as [->|(x & pre' & -> & Hnf)]; [|right; exists x, (dropped ++ pre'); by rewrite app_assoc].
  cbn [app] in Epre. subst l'. rewrite app_nil_r. destruct Hdrop as [->|(x & p0 & -> & Hnf)]; [by left|right]. exists x, p0. split; [done|]. intros [H1 H2]. apply Hnf.
  change (x :: signals m ++ [signal]) with ((x :: signals m) ++ [signal]) in H1, H2. rewrite len_app in H1. rewrite total_cost_app in H2. change (len [signal]) with 1 in H1.
  pose proof (total_cost_nonneg [signal]). split; lia.
Qed.
Lemma append_cases t i c from to kind payload s m : api_ok s -> rooms s !! i = Some m -> next_signal_sequence m < umax 64 ->
  let result := append_signal t i c from to kind payload s in
  (exists e, result = (s, Err e)) \/ (exists signal, result = (s, Ok signal) /\ signal ∈ signals m /\ sg_command_id signal = Some c) \/
  (exists m' log signal, result = (set_channels (<[i := log ++ [signal]]> (event_channels s)) (set_rooms (<[i := m']> (rooms s)) s), Ok signal) /\
     signal = {| sg_command_id := Some c; sg_sequence := len log + 1; sg_from := format_id from; sg_to := format_id <$> to; sg_kind := kind; sg_payload := payload; sg_timestamp_millis := t |} /\
     event_channels s !! i = Some log /\ signals_ok (log ++ [signal]) m' /\ (exists l n k, m' = with_signals l n k m)).
Proof.
  intros Hs Hm Hlt. destruct (ao_signals _ Hs i m Hm) as (log & Hlog & Hok). cbv zeta. unfold append_signal.
  assert (validate_signal_payload payload = Ok tt \/ exists e, validate_signal_payload payload = Err e) as [->|[e ->]]; [|..|by left; eexists].
  { unfold validate_signal_payload. destruct (value_to_vec payload); [|by right; eexists]. cbn [ok_or mbind outcome_bind]. destruct (negb _); [by right; eexists|by left]. }
  right. rewrite !(prog_step (lift (Ok tt)) _ s s tt eq_refl), !(prog_step _ _ s s m (get_room_run i m s Hm)).
  destruct (List.find _ (signals m)) as [existing|] eqn:Hf.
  { left. exists existing. apply find_some in Hf as [Hin%list_elem_of_In Hc%bool_decide_eq_true]. done. }
  right. set (signal := {| sg_command_id := Some c; sg_sequence := _ |}). assert (sg_sequence signal = len log + 1) as Hseq by apply Hok.
  destruct (cache_next signal log m Hok Hlt Hseq) as (Hfree & l' & Htrim & Hok').
  eexists _, log, signal. split; [|split; [unfold signal; by rewrite (so_next _ _ Hok)|split; [done|split; [exact Hok'|by eexists _, _, _]]]].
  assert (cache_signal i signal s = (set_channels (<[i := log ++ [signal]]> (event_channels s))
    (set_rooms (<[i := with_signals l' (total_cost l') (Z.max (next_signal_sequence m) (saturating_add 64 (sg_sequence signal) 1)) m]> (rooms s)) s), Ok tt)) as Hc.
  { unfold cache_signal. rewrite (prog_step _ _ s s m (get_room_run i m s Hm)), Hfree. cbv zeta. rewrite Htrim. unfold mbind, prog_bind, put_room, modify. f_equal.
    unfold set_channels. cbn. f_equal. apply map_eq. intros j. destruct (decide (i = j)) as [<-|Hne]; [by rewrite lookup_alter_eq, lookup_insert_eq, Hlog|by rewrite lookup_alter_ne, lookup_insert_ne]. }
  by rewrite (prog_step _ _ _ _ _ Hc).
Qed.
(** *** Commands *)
(** What has become of the directory during a call that turns the rooms [rm] into [rm']. *)
Definition on_the_way rm rm' (new : list (gmap bytes Entry)) : Prop := Forall (fun d => durable rm d \/ durable rm' d) new.
Lemma managed_next i m c t cmd e : managed_ok i m -> (Domain.execute c t cmd (room m)).2 = Ok (Domain.Applied e) ->
  managed_ok i (with_revision (persistence_revision m + 1) (with_room (Domain.execute c t cmd (room m)).1 m)) /\
  Domain.event_sequence e = persistence_revision m + 1 /\ persistence_revision m + 1 <= umax 64.
Proof.
  intros [M1 (mode & p & evs & Hh & Hhd & Hp) M3 M4] He. pose proof (DomainSafety.history_execute i mode p evs (room m) c t cmd Hh) as Hh'.
  destruct (DomainSafety.execute_cases c t cmd (room m)) as [[E _]|[[x E]|(k & Hc & Hend & Hk & Hn & E)]]; rewrite E in *; cbn [fst snd] in *; [done|done|].
  injection He as <-. split_and!; [|cbn; lia|lia]. split; cbn [room persistence_revision creation_event side_effect_order side_effect_commands with_revision with_room]; [done| |rewrite M3|done].
  - exists mode, p, (evs ++ DomainSafety.applied (Ok (Domain.Applied {| Domain.event_sequence := Domain.sequence (room m) + 1; Domain.command_id := c; Domain.timestamp_millis := t; Domain.kind := k |}))).
    split_and!; [exact Hh'| |done]. by destruct evs.
  - unfold Domain.apply. cbn [Domain.event_sequence Domain.command_id Domain.kind].
    destruct (DomainSafety.remember_command_fields c (Domain.set_sequence (Domain.sequence (room m) + 1) (Domain.apply_kind k (room m)))) as (_ & _ & _ & _ & _ & _ & -> & _). done.
Qed.
Lemma rooms_next rm i m m' : rooms_ok rm -> rm !! i = Some m -> managed_ok i m' -> creation_event m' = creation_event m -> rooms_ok (<[i := m']> rm).
Proof.
  intros [R1 R2] Hm Hm' Ec. split.
  - intros j x. destruct (decide (j = i)) as [->|Hne]; [rewrite lookup_insert_eq; by intros [= <-]|rewrite lookup_insert_ne by done; apply R1].
  - assert (forall j x, <[i := m']> rm !! j = Some x -> exists x0, rm !! j = Some x0 /\ creation_event x = creation_event x0) as Hback.
    { intros j x. destruct (decide (j = i)) as [->|Hne]; [rewrite lookup_insert_eq; intros [= <-]; by exists m|rewrite lookup_insert_ne by done; by exists x]. }
    intros j k x y (x0 & Hx & Ex)%Hback (y0 & Hy & Ey)%Hback E. apply (R2 j k x0 y0); [done|done|congruence].
Qed.
Lemma command_cases os t i c cmd s : api_ok s ->
  let result := execute_room_command os t i c cmd s in
  (exists e, result = (s, Err e) /\ forall m x, rooms s !! i = Some m -> Domain.execute c t cmd (room m) = (room m, Err x) -> e = RoomCommandRejected x) \/
  (exists m, rooms s !! i = Some m /\ c ∈ Domain.processed_commands (room m) /\ result = (s, Ok {| cr_sequence := Domain.sequence (room m); cr_duplicate := true |})) \/
  (exists m r e d new, rooms s !! i = Some m /\ Domain.execute c t cmd (room m) = (r, Ok (Domain.Applied e)) /\
     let m' := with_revision (persistence_revision m + 1) (with_room r m) in
     managed_ok i m' /\ on_the_way (rooms s) (<[i := m']> (rooms s)) new /\
     ((exists x, result = (at_dir d new s, Err x) /\ durable (rooms s) d /\ Forall (durable (rooms s)) new) \/
      (result = (set_rooms (<[i := m']> (rooms s)) (at_dir d new s), Ok {| cr_sequence := Domain.event_sequence e; cr_duplicate := false |}) /\ durable (<[i := m']> (rooms s)) d))).
Proof.
  intros Hs. cbv zeta. unfold execute_room_command. cbn [execute_attempts]. destruct (rooms s !! i) as [m|] eqn:Hm.
  2: { left. exists RoomNotFound. split; [|done]. unfold get_room_entry, mbind, prog_bind, gets, lift. by rewrite Hm. }
  rewrite !(prog_step _ _ s s m (get_room_run i m s Hm)). pose proof (ro_managed _ (ao_rooms _ Hs) _ _ Hm) as Hok. pose proof (managed_next i m c t cmd) as Hnext.
  destruct (Domain.execute c t cmd (room m)) as [r res] eqn:Hex. cbn [fst snd] in Hnext.
  destruct (DomainSafety.execute_cases c t cmd (room m)) as [[E Hc]|[[x E]|(k & Hc & Hend & Hk & Hn & E)]]; rewrite E in Hex; injection Hex as <- <-.
  { right. left. exists m. done. }
  { left. exists (RoomCommandRejected x). split; [done|]. intros m0 y [= <-] Hy. congruence. }
  set (e := {| Domain.event_sequence := _ |}) in *. destruct (Hnext e Hok eq_refl) as (Hok' & _ & Hle). set (r := Domain.apply e (room m)) in *.
  right. right. set (m' := with_revision (persistence_revision m + 1) (with_room r m)) in *.
  destruct (api_persist_cases os i m' (rooms s) s (ao_rooms _ Hs) (rooms_next _ i m m' (ao_rooms _ Hs) Hm Hok' eq_refl)) as (d & new & pres & Hp & Hway & Hres); [|apply Hs|].
  { intros m0 Hm0. rewrite Hm in Hm0. injection Hm0 as <-. cbn. lia. }
  exists m, r, e, d, new. split; [done|]. split; [done|]. split; [done|]. split; [done|].
  rewrite !(prog_step (lift (map_err RoomCommandRejected (Ok (Domain.Applied e)))) _ s s (Domain.Applied e) eq_refl). rewrite (checked_add_fits 64) by done.
  rewrite !(prog_step (lift (ok_or (Some (persistence_revision m + 1)) PersistenceRevisionExhausted)) _ s s _ eq_refl). cbv zeta. fold m'.
  assert ((persistence_revision m' =? saturating_add 64 (persistence_revision m) 1) = true) as Hrev by (unfold saturating_add; cbn; lia).
  assert (persist_appended_room os i (persistence_revision m) m' s = (at_dir d new s, _ ← pres; Ok Applied)) as Ha.
  { unfold persist_appended_room. rewrite Hrev. cbn [negb]. unfold mbind at 1, prog_bind at 1. rewrite Hp. by destruct pres. }
  destruct pres as [[]|x| |]; [right|left|done|done].
  - split; [|done]. by rewrite (prog_step _ _ _ _ _ Ha).
  - exists x. split; [|done]. unfold mbind at 1, prog_bind at 1. by rewrite Ha.
Qed.
(** *** New rooms *)
Lemma authenticate_returns c q scopes room_id : returns (authenticate c q scopes room_id).
Proof.
  unfold authenticate. apply returns_bind; [apply returns_ok_or|]. intros token _. apply returns_bind; [|intros claims _; apply returns_bind; [apply returns_reject_if|done]].
  apply returns_map_err. unfold Auth.TokenKeyRing.verify. destruct (Auth.ring_loop_cases (Auth.TokenKeyRing.codecs (tokens c)) token (now_millis q) false) as [(codec & x & _ & _ & ->)|[_ ->]]; [by destruct (_ <=? _)|done].
Qed.
Lemma requested_policy_valid request : Domain.policy_valid (requested_policy request) = true.
Proof.
  unfold Domain.policy_valid, requested_policy, in_range, clamp. cbn [Domain.max_members Domain.max_publishers Domain.max_chat_bytes Domain.max_custom_data_bytes].
  unfold Domain.default_policy, Domain.MAX_CHAT_BYTES, Domain.MAX_CUSTOM_DATA_BYTES. cbn [Domain.max_members Domain.max_publishers Domain.max_chat_bytes Domain.max_custom_data_bytes].
  destruct (c_max_members request), (c_max_publishers request); cbn [from_option]; lia.
Qed.
Lemma api_new_room_ok i mode host request command t : fits 128 i -> managed_ok i (new_room i mode host (requested_policy request) command t).
Proof.
  intros Hi. split; [done|..]; cbn.
  - exists mode, (requested_policy request), [(Domain.create i mode host (requested_policy request) command t).2]. split_and!; [apply DomainSafety.history_create|done|apply requested_policy_valid].
  - unfold Domain.apply. cbn [Domain.event_sequence Domain.command_id Domain.kind]. destruct (DomainSafety.remember_command_fields command (Domain.set_sequence 1
      (Domain.apply_kind (Domain.Created host mode) (Domain.empty i mode (requested_policy request))))) as (_ & _ & _ & _ & _ & _ & -> & _). done.
  - split_and!; [done|apply NoDup_nil_2|done].
Qed.
Definition with_new_room (i command : Z) (m : ManagedRoom) s : AppState :=
  add_active_rooms 1 (set_creations (<[command := i]> (room_creations s)) (set_channels (<[i := []]> (event_channels s)) (set_rooms (<[i := m]> (rooms s)) s))).
Lemma api_create_cases c q request s : api_ok s -> (forall i, random_u128 q = Some i -> fits 128 i /\ rooms s !! i = None) ->
  let result := create_room c q request s in
  (exists e, result = (s, Err e)) \/ (exists i m, rooms s !! i = Some m /\ result = (s, Ok (room_response i m true))) \/
  (exists i claims command mode d new, authenticate c q Auth.Scopes.ROOM_CREATE None = Ok claims /\ idempotency_key q = Ok command /\ random_u128 q = Some i /\ rooms s !! i = None /\
     let m := new_room i mode (Auth.subject claims) (requested_policy request) command (now_millis q) in
     managed_ok i m /\ rooms_ok (<[i := m]> (rooms s)) /\ room_creations s !! command = None /\ on_the_way (rooms s) (<[i := m]> (rooms s)) new /\
     ((exists x, result = (at_dir d new s, Err x) /\ durable (rooms s) d /\ Forall (durable (rooms s)) new) \/
      (result = (with_new_room i command m (at_dir d new s), Ok (room_response i m false)) /\ durable (<[i := m]> (rooms s)) d))).
Proof.
  intros Hs Hfresh. cbv zeta. unfold create_room. pose proof (authenticate_returns c q Auth.Scopes.ROOM_CREATE None) as Hret.
  destruct (authenticate c q Auth.Scopes.ROOM_CREATE None) as [claims|e| |] eqn:Hauth; [|left; by eexists|done|done]. rewrite !(prog_step (lift (Ok claims)) _ s s claims eq_refl).
  assert ((exists x, idempotency_key q = Ok x) \/ exists e, idempotency_key q = Err e) as [[command Hc]|[e Hc]]; rewrite ?Hc.
  { unfold idempotency_key, parse_id. destruct (idempotency_header q) as [v|]; [|by right; eexists]. cbn. destruct (from_str_radix 128 16 v); [left|right]; by eexists. }
  2: { left. by eexists. }
  rewrite !(prog_step (lift (Ok command)) _ s s command eq_refl). assert ((exists x, parse_mode (c_mode request) = Ok x) \/ exists e, parse_mode (c_mode request) = Err e) as [[mode ->]|[e ->]].
  { unfold parse_mode. repeat case_bool_decide; eauto. } 2: { left. by eexists. }
  rewrite !(prog_step (lift (Ok mode)) _ s s mode eq_refl), !(prog_step (gets room_creations) _ s s (room_creations s) eq_refl).
  destruct (room_creations s !! command) as [i|] eqn:Hcr.
  { right. left. destruct (proj1 (ao_creations _ Hs _ _) Hcr) as (m & Hm & _). exists i, m. split; [done|]. by rewrite (prog_step _ _ s s m (get_room_run i m s Hm)). }
  destruct (random_u128 q) as [i|] eqn:Hrand; [|left; by eexists]. destruct (Hfresh i eq_refl) as [Hi Hnone]. rewrite !(prog_step (lift (ok_or (Some i) InternalError)) _ s s i eq_refl).
  right. right. set (m := new_room i mode (Auth.subject claims) (requested_policy request) command (now_millis q)). pose proof (api_new_room_ok i mode (Auth.subject claims) request command (now_millis q) Hi) as Hm. fold m in Hm.
  assert (rooms_ok (<[i := m]> (rooms s))) as Hrm'.
  { assert (forall j x, rooms s !! j = Some x -> Domain.command_id (creation_event x) <> command) as Hnew.
    { intros j x Hx E. assert (room_creations s !! command = Some j) by (apply (ao_creations _ Hs); eauto). congruence. }
    destruct (ao_rooms _ Hs) as [R1 R2]. split.
    - intros j x. destruct (decide (j = i)) as [->|Hne]; [rewrite lookup_insert_eq; by intros [= <-]|rewrite lookup_insert_ne by done; apply R1].
    - intros j k x y Hx Hy E. apply lookup_insert_Some in Hx as [[<- <-]|[Hj Hx]]; apply lookup_insert_Some in Hy as [[<- <-]|[Hk Hy]]; [done|..|by eapply R2].
      + symmetry in E. by destruct (Hnew k y Hy).
      + by destruct (Hnew j x Hx). }
  destruct (api_persist_cases (os q) i m (rooms s) s (ao_rooms _ Hs) Hrm') as (d & new & pres & Hp & Hway & Hres); [intros m0 Hm0; congruence|apply Hs|].
  exists i, claims, command, mode, d, new. fold m. do 8 (split; [done|]).
  assert (persist_created_room (os q) i m s = (at_dir d new s, _ ← pres; Ok (i, m, false))) as Ha.
  { unfold persist_created_room. unfold mbind at 1, prog_bind at 1. rewrite Hp. by destruct pres. }
  destruct pres as [[]|x| |]; [right|left|done|done].
  - split; [|done]. rewrite (prog_step _ _ _ _ _ Ha). unfold mbind, prog_bind, put_room, modify. cbn [event_channels set_rooms at_dir]. by rewrite (ao_channels _ Hs i Hnone).
  - exists x. split; [|done]. unfold mbind at 1, prog_bind at 1. by rewrite Ha.
Qed.
(** ** The states a server reaches *)
Definition fresh q s : Prop := forall i, random_u128 q = Some i -> fits 128 i /\ rooms s !! i = None.
Definition room_for_signal i s : Prop := forall m, rooms s !! i = Some m -> next_signal_sequence m < umax 64.
(** The states of the directory during a call. *)
Definition during s s' : list (gmap bytes Entry) := drop (length (trail s)) (trail s').
Inductive reachable : AppState -> Prop :=
| installed d L : tidy d -> (forall name, room_in all d name = None) -> load_rooms all d = Ok L -> reachable (initialize_state L d)
| created s c q request : reachable s -> fresh q s -> reachable (create_room c q request s).1
| commanded s os t i c cmd : reachable s -> reachable (execute_room_command os t i c cmd s).1
| signalled s t i c from to kind payload : reachable s -> room_for_signal i s -> reachable (append_signal t i c from to kind payload s).1
| ticket_issued s c q i : reachable s -> reachable (issue_event_ticket c q i s).1
| ticket_consumed s t i ticket : reachable s -> reachable (consume_event_ticket t i ticket s).1
| token_revoked s c q request : reachable s -> reachable (revoke_token c q request s).1
| token_checked s t claims : reachable s -> reachable (access_token_revoked t claims s).1
| crashed_creating s c q request d L : reachable s -> fresh q s -> d ∈ during s (create_room c q request s).1 -> load_rooms all d = Ok L -> reachable (initialize_state L d)
| crashed_executing s os t i c cmd d L : reachable s -> d ∈ during s (execute_room_command os t i c cmd s).1 -> load_rooms all d = Ok L -> reachable (initialize_state L d)
| started_again s L : reachable s -> load_rooms all (directory s) = Ok L -> reachable (initialize_state L (directory s)).

Lemma api_restarted_ok rm d L : rooms_ok rm -> durable rm d -> load_rooms all d = Ok L -> api_ok (initialize_state L d).
Proof.
  intros Hrm Hd HL. destruct (durable_recovers d rm Hrm Hd) as [L' [E Er Ecr Ech]]. rewrite HL in E. injection E as <-. pose proof Hrm as [R1 R2]. pose proof Hd as [D1 D2 D3].
  unfold initialize_state. split; cbn.
  - rewrite Er. split.
    + intros i m. rewrite lookup_fmap, fmap_Some. intros (m0 & Hm0 & ->). destruct (R1 _ _ Hm0). by split.
    + intros i j m m'. rewrite !lookup_fmap, !fmap_Some. intros (m0 & Hm0 & ->) (m1 & Hm1 & ->) E. by apply (R2 i j m0 m1).
  - rewrite Er. split; [done|..].
    + intros i m. rewrite lookup_fmap, fmap_Some. intros (m0 & Hm0 & ->). exact (D2 i m0 Hm0).
    + intros name p Hp. destruct (D3 _ _ Hp) as (m & Hm & Hle). exists (restarted m). by rewrite lookup_fmap, Hm.
  - intros c i. rewrite Ecr, Er. split; intros (m & Hm & Hc); [exists (restarted m); by rewrite lookup_fmap, Hm|]. rewrite lookup_fmap, fmap_Some in Hm. destruct Hm as (m0 & Hm0 & ->). by exists m0.
  - intros i m. rewrite Er, lookup_fmap, fmap_Some. intros (m0 & Hm0 & ->). exists []. split; [by rewrite Ech, lookup_fmap, Hm0|].
    split; cbn; [exists []; split; [done|by left]|done|done|done|done].
  - intros i. rewrite Er, Ech, !lookup_fmap, !fmap_None. done.
Qed.
Lemma same_ok s s' : rooms s' = rooms s -> room_creations s' = room_creations s -> event_channels s' = event_channels s -> durable (rooms s) (directory s') -> api_ok s -> api_ok s'.
Proof. intros E1 E2 E3 E4 [A1 A2 A3 A4 A5]. split; rewrite ?E1, ?E2, ?E3; done. Qed.
Lemma room_replaced s s' i m m' : api_ok s -> rooms s !! i = Some m -> managed_ok i m' -> creation_event m' = creation_event m ->
  rooms s' = <[i := m']> (rooms s) -> room_creations s' = room_creations s -> durable (rooms s') (directory s') ->
  (exists log, event_channels s' !! i = Some log /\ signals_ok log m') -> (forall j, j <> i -> event_channels s' !! j = event_channels s !! j) -> api_ok s'.
Proof.
  intros [A1 A2 A3 A4 A5] Hm Hm' Ec E1 E2 E3 E4 E5. split; [rewrite E1; by eapply rooms_next|done|..].
  - intros c j. rewrite E1, E2. by apply (creations_same_view _ _ i m m').
  - intros j x. rewrite E1. destruct (decide (j = i)) as [->|Hne]; [rewrite lookup_insert_eq; by intros [= <-]|]. rewrite lookup_insert_ne, E5 by done. apply A4.
  - intros j. rewrite E1. destruct (decide (j = i)) as [->|Hne]; [by rewrite lookup_insert_eq|]. rewrite lookup_insert_ne, E5 by done. apply A5.
Qed.
Lemma during_at s d new : during s (at_dir d new s) = new.
Proof. unfold during, at_dir. cbn. by rewrite drop_app_length. Qed.
Lemma during_same s : during s s = [].
Proof. unfold during. by rewrite drop_all. Qed.

(** A call leaves a good server, and so does a process that starts with any directory on its way. *)
Definition crash_safe s s' : Prop := api_ok s' /\ Forall (fun d => durable (rooms s) d \/ durable (rooms s') d) (during s s').
Lemma create_safe c q request s : api_ok s -> fresh q s -> crash_safe s (create_room c q request s).1.
Proof.
  intros Hs Hf. destruct (api_create_cases c q request s Hs Hf) as [[e ->]|[(i & m & _ & ->)|(i & claims & command & mode & d & new & _ & _ & _ & Hnone & Hm & Hrm & Hcr & Hway & [(x & -> & Hd & Hn)|[-> Hd]])]]; cbn [fst].
  1,2: split; [done|by rewrite during_same].
  - split; [by apply (same_ok s)|]. rewrite during_at. eapply Forall_impl; [exact Hn|by left].
  - split; [|change (during s (with_new_room _ _ _ _)) with (during s (at_dir d new s)); by rewrite during_at]. destruct Hs as [A1 A2 A3 A4 A5]. set (m := new_room _ _ _ _ _ _) in *. split; cbn; [done|done|..].
    + intros c' j. destruct (decide (c' = command)) as [->|Hne].
      * rewrite lookup_insert_eq. split; [intros [= <-]; exists m; by rewrite lookup_insert_eq|]. intros (x & Hx & E). apply lookup_insert_Some in Hx as [[<- <-]|[Hj Hx]]; [done|].
        assert (room_creations s !! command = Some j) by (apply A3; eauto). congruence.
      * rewrite lookup_insert_ne, A3 by done. split; intros (x & Hx & E).
        -- exists x. rewrite lookup_insert_ne; [done|]. congruence.
        -- apply lookup_insert_Some in Hx as [[<- <-]|[Hj Hx]]; [by cbn in E; congruence|eauto].
    + intros j x Hx. apply lookup_insert_Some in Hx as [[<- <-]|[Hj Hx]]; [|rewrite lookup_insert_ne by done; by apply A4].
      exists []. rewrite lookup_insert_eq. split; [done|]. split; cbn; [exists []; split; [done|by left]|done|done|done|done].
    + intros j Hj. apply lookup_insert_None in Hj as [Hj Hne]. rewrite lookup_insert_ne by done. by apply A5.
Qed.
Lemma command_safe os t i c cmd s : api_ok s -> crash_safe s (execute_room_command os t i c cmd s).1.
Proof.
  intros Hs. destruct (command_cases os t i c cmd s Hs) as [(e & -> & _)|[(m & _ & _ & ->)|(m & r & e & d & new & Hm & Hex & Hm' & Hway & [(x & -> & Hd & Hn)|[-> Hd]])]]; cbn [fst].
  1,2: split; [done|by rewrite during_same].
  - split; [by apply (same_ok s)|]. rewrite during_at. eapply Forall_impl; [exact Hn|by left].
  - split; [|change (during s (set_rooms _ _)) with (during s (at_dir d new s)); by rewrite during_at]. set (m' := with_revision _ _) in *.
    destruct (ao_signals _ Hs i m Hm) as (log & Hlog & Hsig). apply (room_replaced s _ i m m'); try done. exists log. split; [done|]. destruct Hsig. by split.
Qed.
Lemma signal_safe t i c from to kind payload s : api_ok s -> room_for_signal i s -> api_ok (append_signal t i c from to kind payload s).1.
Proof.
  intros Hs Hroom. destruct (rooms s !! i) as [m|] eqn:Hm.
  - destruct (append_cases t i c from to kind payload s m Hs Hm (Hroom m Hm)) as [[e ->]|[(signal & -> & _)|(m' & log & signal & -> & _ & Hlog & Hok & l & n & k & ->)]]; cbn [fst]; [done|done|].
    pose proof (ro_managed _ (ao_rooms _ Hs) _ _ Hm) as [M1 M2 M3 M4]. apply (room_replaced s _ i m (with_signals l n k m)); cbn; [done|done|by split|done|done|done|..].
    + by apply (durable_same_view _ _ i m); [..|apply Hs].
    + exists (log ++ [signal]). by rewrite lookup_insert_eq.
    + intros j Hj. by rewrite lookup_insert_ne.
  - unfold append_signal, get_room_entry, mbind, prog_bind, lift, gets. rewrite Hm. by destruct (validate_signal_payload payload).
Qed.
(** Tickets and revocations leave the rooms alone. *)
Ltac beside_rooms :=
  repeat (apply preserves_bind; [|intros ?]);
  try first [apply preserves_lift | apply preserves_gets | apply preserves_ret | apply preserves_modify; intros ? Hs; by eapply same_ok; [..|apply (ao_durable _ Hs)|exact Hs]].
Lemma issue_ok c q i : preserves api_ok (issue_event_ticket c q i).
Proof. unfold issue_event_ticket, require_room_member, get_room_entry. beside_rooms. Qed.
Lemma consume_ok t i ticket : preserves api_ok (consume_event_ticket t i ticket).
Proof. unfold consume_event_ticket. beside_rooms. Qed.
Lemma revoke_ok c q request : preserves api_ok (revoke_token c q request).
Proof. unfold revoke_token. beside_rooms. Qed.
Lemma checked_ok t claims : preserves api_ok (access_token_revoked t claims).
Proof. unfold access_token_revoked. beside_rooms. Qed.
Lemma reachable_ok s : reachable s -> api_ok s.
Proof.
  induction 1 as [d L Ht Hno HL|s c q request _ IH Hf|s os t i c cmd _ IH|s t i c from to kind payload _ IH Hr|s c q i _ IH|s t i ticket _ IH|s c q request _ IH|s t claims _ IH
    |s c q request d L _ IH Hf Hd HL|s os t i c cmd d L _ IH Hd HL|s L _ IH HL].
  - apply (api_restarted_ok ∅); [split; by intros ? ?|split; [done|by intros ? ?|intros name p Hp; by rewrite Hno in Hp]|done].
  - by apply create_safe.
  - by apply command_safe.
  - by apply signal_safe.
  - by apply issue_ok.
  - by apply consume_ok.
  - by apply revoke_ok.
  - by apply checked_ok.
  - destruct (create_safe c q request s IH Hf) as [Hs' Hway]. rewrite Forall_forall in Hway. destruct (Hway d Hd); eapply api_restarted_ok; try done; [apply IH|apply Hs'].
  - destruct (command_safe os t i c cmd s IH) as [Hs' Hway]. rewrite Forall_forall in Hway. destruct (Hway d Hd); eapply api_restarted_ok; try done; [apply IH|apply Hs'].
  - by eapply api_restarted_ok; [apply IH..|].
Qed.
Lemma durable_loads rm d : rooms_ok rm -> durable rm d -> exists L, load_rooms all d = Ok L /\ l_rooms L = restarted <$> rm.
Proof. intros Hrm Hd. destruct (durable_recovers d rm Hrm Hd) as [L [H1 H2 _ _]]. by exists L. Qed.
Lemma crash_loads s s' d : api_ok s -> crash_safe s s' -> d ∈ during s s' -> exists L, load_rooms all d = Ok L /\ (l_rooms L = restarted <$> rooms s \/ l_rooms L = restarted <$> rooms s').
Proof.
  intros Hs [Hs' Hway] Hd. rewrite Forall_forall in Hway. destruct (Hway d Hd) as [H|H]; [destruct (durable_loads _ _ (ao_rooms _ Hs) H) as (L & H1 & H2)|destruct (durable_loads _ _ (ao_rooms _ Hs') H) as (L & H1 & H2)]; eauto.
Qed.


(** What a command answers. *)
Definition response_of (m : ManagedRoom) (outcome : Domain.CommandOutcome) : CommandResponse :=
  match outcome with
  | Domain.Applied e => {| cr_sequence := Domain.event_sequence e; cr_duplicate := false |}
  | Domain.Duplicate => {| cr_sequence := Domain.sequence (room m); cr_duplicate := true |}
  end.
(** C19: a command of the API is exactly the command of the domain.  In every reachable state it comes back, whatever the file system does; when it succeeds, the room
    has become what [Room::execute] makes of it and the answer carries that event's number, or reports the duplicate of a command that was applied before; when
    it is refused or cannot be stored, no room has changed.  Other rooms never do. *)
Theorem command_refines_room s os t i c cmd : reachable s ->
  let '(s', result) := execute_room_command os t i c cmd s in
  (forall j, j <> i -> rooms s' !! j = rooms s !! j) /\
  match result with
  | Ok response => exists m m' outcome, rooms s !! i = Some m /\ rooms s' !! i = Some m' /\ Domain.execute c t cmd (room m) = (room m', Ok outcome) /\
      response = response_of m outcome /\ signals m' = signals m
  | Err e => rooms s' = rooms s /\ (forall m x, rooms s !! i = Some m -> Domain.execute c t cmd (room m) = (room m, Err x) -> e = RoomCommandRejected x)
  | Panic | Diverge => False
  end.
Proof.
  intros Hs%reachable_ok. destruct (command_cases os t i c cmd s Hs) as [(e & -> & He)|[(m & Hm & Hc & ->)|(m & r & e & d & new & Hm & Hex & _ & _ & [(x & -> & _)|[-> _]])]].
  - done.
  - split; [done|]. exists m, m, Domain.Duplicate. split_and!; try done. unfold Domain.execute. by rewrite bool_decide_eq_true_2.
  - split; [done|]. split; [done|]. intros m0 y Hm0 Hy. rewrite Hm in Hm0. injection Hm0 as <-. congruence.
  - split; [intros j Hj; cbn; by rewrite lookup_insert_ne|]. eexists m, _, _. split_and!; [done|cbn; by rewrite lookup_insert_eq|exact Hex|done|done].
Qed.

(** ** Gifts *)
Record gift_ok (r : GiftRequest) : Prop := {
  go_quantity : u32 (g_quantity r);
  go_unit : u64 (g_unit_value r);
  go_time : u64 (provider_timestamp_millis r);
  go_texts : Forall (fun text => len text < 2 ^ 64) [provider r; g_transaction_id r; sender_id r; recipient_id r; g_gift_id r; g_currency r] }.
(** Everything but the signature. *)
Definition same_receipt (r r' : GiftRequest) : Prop :=
  provider r = provider r' /\ g_transaction_id r = g_transaction_id r' /\ sender_id r = sender_id r' /\ recipient_id r = recipient_id r' /\ g_gift_id r = g_gift_id r' /\
  g_quantity r = g_quantity r' /\ g_unit_value r = g_unit_value r' /\ g_currency r = g_currency r' /\ provider_timestamp_millis r = provider_timestamp_millis r'.
Lemma number_inj n a b x y : fits (8 * Z.of_nat n) a -> fits (8 * Z.of_nat n) b -> to_be_bytes n a ++ x = to_be_bytes n b ++ y -> a = b /\ x = y.
Proof.
  intros Ha Hb E. apply app_inj_1 in E as [E ->]; [|by rewrite !length_to_be_bytes]. split; [|done]. apply (f_equal from_be_bytes) in E. by rewrite !from_to_be_bytes in E.
Qed.
Lemma field_inj a b x y : len a < 2 ^ 64 -> len b < 2 ^ 64 -> gift_mac_field a ++ x = gift_mac_field b ++ y -> a = b /\ x = y.
Proof.
  intros Ha Hb E. unfold gift_mac_field in E. rewrite <- !app_assoc in E. pose proof (len_nonneg a). pose proof (len_nonneg b).
  apply number_inj in E as [El E]; [|unfold fits; lia..]. apply app_inj_1 in E as [-> ->]; [done|]. unfold len in El. lia.
Qed.
Lemma gift_input_inj i j r r' : fits 128 i -> fits 128 j -> gift_ok r -> gift_ok r' -> gift_mac_input i r = gift_mac_input j r' -> i = j /\ same_receipt r r'.
Proof.
  intros Hi Hj [Q U T X] [Q' U' T' X'] E. rewrite !Forall_cons in X, X'. destruct X as (X1 & X2 & X3 & X4 & X5 & X6 & _). destruct X' as (Y1 & Y2 & Y3 & Y4 & Y5 & Y6 & _).
  unfold gift_mac_input in E. apply app_inv_head in E. assert (forall k, len (format_id k) < 2 ^ 64) as Hid by (intros k; unfold len; rewrite (proj1 (format_id_spec k)); lia).
  apply field_inj in E as [E0 E]; [|apply Hid..]. apply format_id_inj in E0; [|done..]. split; [done|].
  apply field_inj in E as [E1 E]; [|done..]. apply field_inj in E as [E2 E]; [|done..]. apply field_inj in E as [E3 E]; [|done..]. apply field_inj in E as [E4 E]; [|done..].
  apply field_inj in E as [E5 E]; [|done..]. apply number_inj in E as [E6 E]; [|done..]. apply number_inj in E as [E7 E]; [|done..]. apply field_inj in E as [E8 E]; [|done..].
  rewrite <- (app_nil_r (to_be_bytes 8 (provider_timestamp_millis r))), <- (app_nil_r (to_be_bytes 8 (provider_timestamp_millis r'))) in E. apply number_inj in E as [E9 _]; [|done..]. by split_and!.
Qed.
Lemma verify_gift_Ok secret i r t u : verify_gift_receipt secret i r t = Ok u -> Z.abs (t - provider_timestamp_millis r) <= RECEIPT_MAX_CLOCK_SKEW_MILLIS /\ 0 < g_quantity r /\
  exists mac, Auth.hmac_sha256 secret = Some mac /\ Auth.base64_decode (provider_signature r) = Some (mac (gift_mac_input i r)).
Proof.
  unfold verify_gift_receipt, gift_receipt_mac. intros H. inv_ok H. apply negb_false_iff in Hstep. unfold valid_receipt_shape in Hstep. rewrite !andb_true_iff in Hstep.
  split; [lia|]. split; [lia|]. exists a2. apply negb_false_iff, bool_decide_eq_true in H. by rewrite Hstep1, H.
Qed.
Lemma lift_Ok {A} (o : outcome ApiError A) s s' a : lift o s = (s', Ok a) -> s' = s /\ o = Ok a.
Proof. by intros [= -> ->]. Qed.

(** C21: the gifts in a room are the gifts the provider signed.  In every reachable state, when a gift is accepted, the caller had a token for recording gifts in this room, the
    signature is the MAC, under the secret shared with the provider, of an encoding of the room, the provider, the transaction, both users, the gift, its amount and the
    time, the time is within five minutes, and exactly these values are what [Room::execute] was given.  The encoding is injective: no other receipt, and
    no other room, has the same one. *)
Theorem gifts_as_signed s c q rid r s' response : reachable s -> record_gift c q rid r s = (s', Ok response) ->
  exists i claims sender recipient mac m m' command outcome, parse_room_id rid = Ok i /\ authenticate c q Auth.Scopes.GIFT_VERIFY (Some i) = Ok claims /\
    Auth.hmac_sha256 (gift_webhook_secret c) = Some mac /\ Auth.base64_decode (provider_signature r) = Some (mac (gift_mac_input i r)) /\
    Z.abs (now_millis q - provider_timestamp_millis r) <= RECEIPT_MAX_CLOCK_SKEW_MILLIS /\ parse_id (sender_id r) = Ok sender /\ parse_id (recipient_id r) = Ok recipient /\
    idempotency_key q = Ok command /\ rooms s !! i = Some m /\ rooms s' !! i = Some m' /\
    Domain.execute command (now_millis q) (Domain.RecordVerifiedGift sender
      {| Domain.transaction_id := g_transaction_id r; Domain.gift_id := g_gift_id r; Domain.quantity := g_quantity r; Domain.unit_value := g_unit_value r;
         Domain.currency := g_currency r; Domain.recipient := recipient |}) (room m) = (room m', Ok outcome) /\ response = response_of m outcome /\
    (gift_ok r -> forall j r', fits 128 j -> gift_ok r' -> gift_mac_input j r' = gift_mac_input i r -> j = i /\ same_receipt r' r).
Proof.
  intros Hr H. pose proof (reachable_ok s Hr) as Hs. unfold record_gift in H. apply prog_bind_Ok in H as (s0 & i & [-> Hi]%lift_Ok & H). apply prog_bind_Ok in H as (s0 & claims & [-> Hc]%lift_Ok & H).
  apply prog_bind_Ok in H as (s0 & u & [-> Hv]%lift_Ok & H). apply prog_bind_Ok in H as (s0 & sender & [-> Hsend]%lift_Ok & H). apply prog_bind_Ok in H as (s0 & command & [-> Hk]%lift_Ok & H).
  apply prog_bind_Ok in H as (s0 & recipient & [-> Hrec]%lift_Ok & H). apply prog_bind_Ok in H as (s1 & resp & Hex & H). set (cmd := Domain.RecordVerifiedGift _ _) in Hex.
  apply prog_bind_Ok in H as (s2 & signal & Hsig & H). injection H as -> ->. destruct (verify_gift_Ok _ _ _ _ _ Hv) as (Ht & _ & mac & Hmac & Hsigned).
  assert (exists m m1 outcome, rooms s !! i = Some m /\ rooms s1 !! i = Some m1 /\ Domain.execute command (now_millis q) cmd (room m) = (room m1, Ok outcome) /\ response = response_of m outcome) as (m & m1 & outcome & Hm & Hm1 & He & Eresp).
  { destruct (command_cases (os q) (now_millis q) i command cmd s Hs) as [(e & E & _)|[(m & Hm & Hin & E)|(m & r1 & e & d & new & Hm & He & _ & _ & [(x & E & _)|[E _]])]]; rewrite E in Hex; [done| |done|].
    - injection Hex as <- <-. exists m, m, Domain.Duplicate. split_and!; try done. unfold Domain.execute. by rewrite bool_decide_eq_true_2.
    - injection Hex as <- <-. eexists m, _, _. split_and!; [done|cbn; by rewrite lookup_insert_eq|exact He|done]. }
  assert (exists m', rooms s' !! i = Some m' /\ room m' = room m1) as (m' & Hm' & Er).
  { clear -Hsig Hm1. unfold append_signal in Hsig. apply prog_bind_Ok in Hsig as (s0 & u & [-> _]%lift_Ok & H). rewrite (prog_step _ _ s1 s1 m1 (get_room_run i m1 s1 Hm1)) in H.
    destruct (List.find _ _); [injection H as <- <-; by exists m1|]. apply prog_bind_Ok in H as (s2 & u' & Hc & H). injection H as <- <-. unfold cache_signal in Hc.
    rewrite (prog_step _ _ s1 s1 m1 (get_room_run i m1 s1 Hm1)) in Hc. destruct (existsb _ _); [injection Hc as <-; by exists m1|]. cbv zeta in Hc. destruct (trim_signal_cache _ _) as [l n].
    unfold mbind, prog_bind, put_room, modify in Hc. injection Hc as <-. cbn. rewrite lookup_insert_eq. by eexists. }
  exists i, claims, sender, recipient, mac, m, m', command, outcome. rewrite Er. do 12 (split; [done|]). intros Hg j r' Hj Hg' E.
  assert (fits 128 i) as Hfi by (unfold parse_room_id, parse_id in Hi; apply ok_or_Ok in Hi; by eapply from_str_radix_fits; [..|exact Hi]). by apply gift_input_inj.
Qed.

(** ** Side effects *)
(** A room that a restart ignores: its revision is ahead of its events. *)
Definition ahead (m : ManagedRoom) : Prop := Domain.sequence (room m) < persistence_revision m.
Lemma ahead_ignored i m : ahead m -> managed_from_persisted (persisted_room i m) = Err CorruptRoomSnapshot.
Proof.
  intros Ha. unfold managed_from_persisted. cbn [persisted_room p_side_effect_order p_state p_room_id p_mode p_policy p_events p_persistence_revision]. cbv zeta.
  destruct (_ || _); [done|]. cbn [reject_if mbind outcome_bind creation_event_of p_creation_event ok_or persisted_room].
  destruct (Domain.restore_snapshot (Domain.snapshot (room m))) as [r|e| |] eqn:Hr; unfold Domain.restore_snapshot in Hr; destruct (_ || _ || _ || _ || _ || _) in Hr; try done.
  cbn in Hr. injection Hr as <-. cbn [map_err mbind outcome_bind]. cbn [Domain.sequence Domain.snapshot Domain.snapshot_sequence]. unfold ahead in Ha.
  replace (Domain.sequence (room m) =? persistence_revision m) with false by lia. cbn [negb]. by rewrite orb_true_r.
Qed.
Lemma persist_keeps_rooms os i m rm : preserves (fun s => rooms s = rm) (persist_managed_room os i m).
Proof.
  assert (forall d, preserves (fun s => rooms s = rm) (visit d)) as Hv by (intros d s <-; done).
  assert (forall name, preserves (fun s => rooms s = rm) (remove_file os name)) as Hrem by (intros name; apply preserves_bind; [apply preserves_gets|intros ?; apply Hv]).
  assert (preserves (fun s => rooms s = rm) (prune_room_snapshots os i (persistence_revision m))) as Hprune.
  { apply preserves_bind; [apply preserves_gets|]. intros d. destruct (lists os); [by apply preserves_for_each|apply preserves_ret]. }
  unfold persist_managed_room.
  repeat (cbv zeta; first [apply Hv | apply Hrem | apply Hprune | apply preserves_lift | apply preserves_gets | apply preserves_ret | apply preserves_fail | apply preserves_bind; [|intros ?]
    | match goal with |- preserves _ (if ?b then _ else _) => destruct b end]).
Qed.
(** registering a track makes a room unreadable.  In the variant with a directory, remembering a side effect raises the revision of a room without an event, and the loader
    takes only snapshots whose revision is the number of the last event: what is written from then on is ignored by every later start. *)
Theorem side_effect_unreadable s os i c m : rooms s !! i = Some m -> (c ∉ side_effect_commands m) -> Domain.sequence (room m) <= persistence_revision m < umax 64 ->
  exists m', rooms (remember_side_effect os i c s).1 !! i = Some m' /\ room m' = room m /\ ahead m' /\ managed_from_persisted (persisted_room i m') = Err CorruptRoomSnapshot.
Proof.
  intros Hm Hc Hr. unfold remember_side_effect. rewrite (prog_step _ _ s s m (get_room_run i m s Hm)). rewrite bool_decide_eq_false_2 by done. cbv zeta.
  set (m1 := with_side_effects _ _ m). rewrite (prog_step (put_room i m1) _ s _ tt eq_refl). rewrite (checked_add_fits 64) by (cbn; lia).
  rewrite (prog_step (lift (ok_or (Some (persistence_revision m1 + 1)) PersistenceRevisionExhausted)) _ _ _ _ eq_refl). set (m2 := prune_side_effects (with_revision (persistence_revision m1 + 1) m1)).
  rewrite (prog_step (put_room i m2) _ _ _ tt eq_refl).
  assert (room m2 = room m /\ persistence_revision m2 = persistence_revision m + 1) as [E1 E2] by (unfold m2, prune_side_effects; by destruct (Domain.trim _ _ _)).
  exists m2. assert (ahead m2) as Ha by (unfold ahead; rewrite E1, E2; lia). split_and!; [|done|done|by apply ahead_ignored].
  rewrite (persist_keeps_rooms os i m2 (<[i := m2]> (<[i := m1]> (rooms s)))) by done. by rewrite lookup_insert_eq.
Qed.
(** Commands do not help. *)
Theorem commands_stay_unreadable s os t i c cmd m : rooms s !! i = Some m -> ahead m ->
  exists m', rooms (execute_room_command os t i c cmd s).1 !! i = Some m' /\ ahead m'.
Proof.
  intros Hm Ha. unfold execute_room_command. generalize 4%nat. intros n. induction n as [|n IH]; [by exists m|]. cbn [execute_attempts]. rewrite (prog_step _ _ s s m (get_room_run i m s Hm)).
  destruct (DomainSafety.execute_cases c t cmd (room m)) as [[-> _]|[[x ->]|(k & _ & _ & _ & _ & ->)]]; [by exists m|by exists m|]. set (e := {| Domain.event_sequence := _ |}).
  rewrite (prog_step (lift (map_err RoomCommandRejected (Ok (Domain.Applied e)))) _ s s _ eq_refl). destruct (checked_add 64 (persistence_revision m) 1) as [v|] eqn:Hv; [|by exists m].
  apply checked_add_Some in Hv as [-> _]. rewrite (prog_step (lift (ok_or (Some (persistence_revision m + 1)) PersistenceRevisionExhausted)) _ s s _ eq_refl). cbv zeta. set (m' := with_revision _ _).
  unfold mbind at 1, prog_bind at 1. unfold persist_appended_room. destruct (negb _); [exact IH|]. unfold mbind at 1, prog_bind at 1.
  pose proof (persist_keeps_rooms os i m' (rooms s) s eq_refl) as Hk. destruct (persist_managed_room os i m' s) as [s1 [u|x| |]]; cbn [fst] in Hk; [|exists m; cbn; by rewrite Hk..].
  exists m'. split; [unfold mbind, prog_bind, put_room, modify; cbn; by rewrite lookup_insert_eq|]. unfold ahead in *. cbn [m' with_revision with_room room persistence_revision].
  unfold Domain.apply. cbn [Domain.event_sequence Domain.command_id Domain.kind e].
  destruct (DomainSafety.remember_command_fields c (Domain.set_sequence (Domain.sequence (room m) + 1) (Domain.apply_kind k (room m)))) as (_ & _ & _ & _ & _ & _ & -> & _). cbn. lia.
Qed.
End Directories.

(** ** A server at work

    User 10 creates a room, user 20 joins and sends a message and a gift.  A snapshot is written as one number, and the alphabet of signatures puts eleven zeros
    in front. *)
#[local] Existing Instances Domain.RoomMode_eq_dec Domain.MemberRole_eq_dec.
#[local] Instance mode_countable : Countable Domain.RoomMode.
Proof.
  refine (inj_countable (fun m => match m with Domain.Sfu => 0 | Domain.P2p => 1 | Domain.Live => 2 | Domain.Vod => 3 end)
    (fun n => match n with 0 => Some Domain.Sfu | 1 => Some Domain.P2p | 2 => Some Domain.Live | 3 => Some Domain.Vod | _ => None end) _). by intros [].
Defined.
#[local] Instance role_countable : Countable Domain.MemberRole.
Proof.
  refine (inj_countable (fun m => match m with Domain.Host => 0 | Domain.CoHost => 1 | Domain.Publisher => 2 | Domain.Audience => 3 end)
    (fun n => match n with 0 => Some Domain.Host | 1 => Some Domain.CoHost | 2 => Some Domain.Publisher | 3 => Some Domain.Audience | _ => None end) _). by intros [].
Defined.
Definition policy_parts (p : Domain.RoomPolicy) := (Domain.max_members p, Domain.max_publishers p, Domain.max_chat_bytes p, Domain.max_custom_data_bytes p).
Definition of_policy_parts (t : Z * Z * Z * Z) : Domain.RoomPolicy :=
  let '(a, b, c, d) := t in {| Domain.max_members := a; Domain.max_publishers := b; Domain.max_chat_bytes := c; Domain.max_custom_data_bytes := d |}.
Definition snapshot_parts (x : Domain.RoomSnapshot) :=
  (Domain.snapshot_schema_version x, Domain.snapshot_id x, Domain.snapshot_mode x, policy_parts (Domain.snapshot_policy x), Domain.snapshot_members x, Domain.snapshot_publishers x,
   Domain.snapshot_ended x, Domain.snapshot_sequence x, Domain.snapshot_command_order x, Domain.snapshot_gift_transaction_order x).
Definition of_snapshot_parts (t : Z * Z * Domain.RoomMode * (Z * Z * Z * Z) * list (Z * Domain.MemberRole) * list Z * bool * Z * list Z * list bytes) : Domain.RoomSnapshot :=
  let '(a, b, c, d, e, f, g, h, i, j) := t in
  {| Domain.snapshot_schema_version := a; Domain.snapshot_id := b; Domain.snapshot_mode := c; Domain.snapshot_policy := of_policy_parts d; Domain.snapshot_members := e;
     Domain.snapshot_publishers := f; Domain.snapshot_ended := g; Domain.snapshot_sequence := h; Domain.snapshot_command_order := i; Domain.snapshot_gift_transaction_order := j |}.
Definition example_encode (p : PersistedRoom) : option bytes :=
  match p_events p, p_state p, p_creation_event p with
  | [], Some x, Some {| Domain.event_sequence := n; Domain.command_id := c; Domain.timestamp_millis := t; Domain.kind := Domain.Created host mode |} =>
      Some [Z.pos (encode (p_room_id p, p_mode p, policy_parts (p_policy p), snapshot_parts x, (n, c, t, host, mode), p_persistence_revision p, p_side_effect_order p))]
  | _, _, _ => None
  end.
Definition example_decode (b : bytes) : option PersistedRoom :=
  match b with
  | [Z.pos n] =>
      '(i, mode, policy, x, (n, c, t, host, m), revision, order) ← decode n;
      Some {| p_room_id := i; p_mode := mode; p_policy := of_policy_parts policy; p_events := []; p_state := Some (of_snapshot_parts x);
              p_creation_event := Some {| Domain.event_sequence := n; Domain.command_id := c; Domain.timestamp_millis := t; Domain.kind := Domain.Created host m |};
              p_persistence_revision := revision; p_side_effect_order := order |}
  | _ => None
  end.
Lemma example_roundtrip p b : example_encode p = Some b -> example_decode b = Some p.
Proof.
  destruct p as [i mode policy events state event revision order]. unfold example_encode. cbn [p_events p_state p_creation_event p_room_id p_mode p_policy p_persistence_revision p_side_effect_order].
  destruct events; [|done]. destruct state as [x|]; [|done]. destruct event as [[n c t k]|]; [|done]. destruct k; try done. intros [= <-]. unfold example_decode. rewrite decode_encode. by destruct policy, x as [? ? ? [] ? ? ? ? ? ?].
Qed.
Definition example_values : JsonValues := {| Value := bytes; json_string b := b; json_number n := [n]; json_object _ := octets "{}"; value_to_vec b := Some b |}.
#[local] Existing Instance example_values.
#[refine] Definition example_api_json : ApiJson := {| signal_to_vec signal := Some (octets "signal"); to_vec := example_encode; from_slice := example_decode |}.
Proof. - by eexists. - exact example_roundtrip. Defined.
#[refine] Definition example_crypto : AuthCrypto :=
  {| Auth.hmac_sha256 key := Some (Auth.demo_mac key); Auth.base64_encode b := replicate 11 0 ++ b;
     Auth.base64_decode t := b ← strip_prefix_str (replicate 11 0) t; if forallb Auth.is_octet b then Some b else None |}.
Proof.
  - by eexists.
  - intros key mac m [= <-] _. unfold Auth.demo_mac. split; [apply to_be_bytes_ok|by rewrite len_to_be_bytes].
  - intros b Hb. rewrite strip_prefix_app. cbn [mbind option_bind]. exact (Auth.base64_decode_encode (AuthCrypto:=Auth.demo_crypto) b Hb).
  - intros t b (x & Hx & H)%bind_Some. apply strip_prefix_Some in Hx as ->. destruct (Auth.base64_strict (AuthCrypto:=Auth.demo_crypto) x b H) as [H1 H2]. cbn in H2. by subst.
Defined.
#[local] Existing Instances example_api_json example_crypto SfuRuntimeSteps.listing.
Definition working_os : Os := {| opens := true; partial := []; writes := true; renames := true; removes _ := true; lists := true; pid := 7 |}.
Definition example_config : Config := {| tokens := Auth.demo_ring [1]; gift_webhook_secret := Auth.demo_key 5 |}.
Definition token_of (user : Z) : bytes :=
  let claims := {| Auth.subject := user; Auth.room_id := 0; Auth.expires_at_millis := 1000000; Auth.nonce := 1; Auth.scopes := 511 |} in
  replicate 11 0 ++ Auth.claims_bytes claims ++ Auth.demo_mac (Auth.demo_key 1) (Auth.claims_bytes claims).
Definition request_of (user : Z) (key : string) (t : Z) : Request :=
  {| authorization := Some (octets "Bearer " ++ token_of user); idempotency_header := Some (octets key); now_millis := t; random_u128 := Some 7; os := working_os |}.
Definition create_request : CreateRoomRequest := {| c_mode := octets "live"; c_max_members := Some 5; c_max_publishers := None |}.
Definition api0 : AppState := initialize_state {| l_rooms := ∅; l_room_creations := ∅; l_event_channels := ∅ |} ∅.
Definition api1 : AppState := (create_room example_config (request_of 10 "1" 100) create_request api0).1.
Definition api2 : AppState := (execute_room_command working_os 101 7 2 (Domain.Join 20) api1).1.
Definition api3 : AppState := (append_signal 102 7 3 20 None (octets "room.chat") (octets "hello") api2).1.
Definition example_gift : GiftRequest :=
  let unsigned signature := {| provider := octets "pay"; provider_timestamp_millis := 100; provider_signature := signature; sender_id := format_id 20; g_transaction_id := octets "t1";
    g_gift_id := octets "rocket"; g_quantity := 2; g_unit_value := 500; g_currency := octets "EUR"; recipient_id := format_id 10 |} in
  unsigned (replicate 11 0 ++ Auth.demo_mac (Auth.demo_key 5) (gift_mac_input 7 (unsigned []))).

Lemma api1_reachable : reachable api1.
Proof.
  apply created.
  - apply installed; [by intros i name r _ [e He]|by intros name; unfold room_in, read_bounded_room_snapshot; rewrite lookup_empty; destruct (negb _)|vm_compute; reflexivity].
  - intros i [= <-]. split; [split; lia|reflexivity].
Qed.
Lemma api3_reachable : reachable api3.
Proof. apply signalled; [apply commanded, api1_reachable|]. intros m Hm. vm_compute in Hm. injection Hm as <-. vm_compute. reflexivity. Qed.

Lemma command_refines_room_witness : (execute_room_command working_os 101 7 2 (Domain.Join 20) api1).2 = Ok {| cr_sequence := 2; cr_duplicate := false |} /\
  exists m m', rooms api1 !! 7 = Some m /\ rooms api2 !! 7 = Some m' /\ (Domain.execute 2 101 (Domain.Join 20) (room m)).1 = room m'.
Proof.
  split; [vm_compute; reflexivity|]. pose proof (command_refines_room api1 working_os 101 7 2 (Domain.Join 20) api1_reachable) as H.
  assert ((execute_room_command working_os 101 7 2 (Domain.Join 20) api1).2 = Ok {| cr_sequence := 2; cr_duplicate := false |}) as E by (vm_compute; reflexivity).
  unfold api2. destruct (execute_room_command working_os 101 7 2 (Domain.Join 20) api1) as [s' result]. cbn [fst snd] in *. subst result. destruct H as (_ & m & m' & o & H1 & H2 & H3 & _).
  exists m, m'. split; [exact H1|]. split; [exact H2|]. by rewrite H3.
Defined.
Lemma gifts_as_signed_witness : exists s', record_gift example_config (request_of 20 "4" 103) (format_id 7) example_gift api3 = (s', Ok {| cr_sequence := 3; cr_duplicate := false |}) /\
  exists i, parse_room_id (format_id 7) = Ok i /\ Auth.base64_decode (provider_signature example_gift) = Some (Auth.demo_mac (Auth.demo_key 5) (gift_mac_input i example_gift)).
Proof.
  assert ((record_gift example_config (request_of 20 "4" 103) (format_id 7) example_gift api3).2 = Ok {| cr_sequence := 3; cr_duplicate := false |}) as E by (vm_compute; reflexivity).
  destruct (record_gift example_config (request_of 20 "4" 103) (format_id 7) example_gift api3) as [s' result] eqn:Hr. cbn [snd] in E. subst result. exists s'. split; [reflexivity|].
  destruct (gifts_as_signed api3 example_config (request_of 20 "4" 103) (format_id 7) example_gift s' _ api3_reachable Hr) as (i & _ & _ & _ & mac & _ & _ & _ & _ & H1 & _ & [= <-] & H2 & _).
  exists i. split; [exact H1|exact H2].
Defined.

(** Two registered tracks are enough: the snapshots that could be read have been pruned, and the room is gone after a restart. *)
Definition registered (c : Z) (s : AppState) : AppState := (remember_side_effect working_os 7 c s).1.
Example registered_room_lost : size (rooms (registered 9 (registered 8 api2))) = 1%nat /\ size (directory (registered 9 (registered 8 api2))) = 2%nat /\
  (l_rooms <$> load_rooms all (directory (registered 9 (registered 8 api2)))) = Ok ∅.
Proof. vm_compute. done. Qed.
Lemma side_effect_unreadable_witness : exists m', rooms (registered 8 api2) !! 7 = Some m' /\ managed_from_persisted (persisted_room 7 m') = Err CorruptRoomSnapshot.
Proof.
  destruct (rooms api2 !! 7) as [m|] eqn:Hm; [|vm_compute in Hm; discriminate].
  destruct (side_effect_unreadable api2 working_os 7 8 m Hm) as (m' & H1 & _ & _ & H2); [vm_compute in Hm; injection Hm as <-; by apply (bool_decide_unpack _)|vm_compute in Hm; injection Hm as <-; vm_compute; done|].
  exists m'. split; [exact H1|exact H2].
Defined.
