(* ===== verification/SctpPacket.v ===== *)
(** * webrtc/data-channel: SCTP packets on the wire (src/lib.rs)

    The common header with its CRC32C, chunks, parameters, serial-number comparison and
    UTF-8 validation, as the association uses them. *)
From S2P Require Import Prelude Words Slices RustStd.
From S2P Require RtcpModel.

Inductive DataChannelError :=
| InvalidConfiguration
| MalformedPacket
| InvalidChecksum
| UnexpectedPort
| MalformedChunk
| InvalidVerificationTag
| UnexpectedState
| InvalidCookie
| ReceiveWindowExceeded
| InvalidFragmentSequence
| InvalidDcep
| InvalidUtf8
| MessageTooLarge
| UnsupportedPpid (ppid : Z)
| UnknownChannel
| AssociationNotEstablished
| SendWindowFull.

Definition COMMON_HEADER_LEN : Z := 12.
Definition CHUNK_HEADER_LEN : Z := 4.

Definition read_u16 : bytes -> Z -> outcome DataChannelError Z := read_be 2 MalformedPacket.
Definition read_u32 : bytes -> Z -> outcome DataChannelError Z := read_be 4 MalformedPacket.
Definition read_u32_le (input : bytes) (offset : Z) : outcome DataChannelError Z :=
  b ← ok_or (get_range input offset (saturating_add 64 offset 4)) MalformedPacket;
  if Nat.eqb (length b) 4 then Ok (from_le_bytes b) else Err MalformedPacket.

(** [(length + 3) & !3] *)
Definition round4 (length : Z) : Z := Z.land (length + 3) (Z.lnot 3).

(** ** Checksum *)
Definition crc_bit (crc : Z) : Z :=
  Z.lxor (Z.shiftr crc 1) (Z.land 0x82f63b78 (wrapping_sub 32 0 (Z.land crc 1))).
Definition crc_byte (crc byte : Z) : Z := Nat.iter 8 crc_bit (Z.lxor crc byte).
(** The checksum field itself counts as zero. *)
Definition blank_checksum (index : nat) (supplied : Z) : Z :=
  if (8 <=? Z.of_nat index) && (Z.of_nat index <? 12) then 0 else supplied.
Definition checksum (input : bytes) : Z :=
  Z.lxor (foldl crc_byte (umax 32) (imap blank_checksum input)) (umax 32).

(** ** Packets *)
Record ParsedChunk := { chunk_kind : Z; chunk_flags : Z; chunk_value : bytes }.
Record ParsedPacket := {
  source_port : Z;
  destination_port : Z;
  packet_tag : Z;
  packet_chunks : list ParsedChunk }.

(** [while offset < input.len()] *)
Fixpoint parse_chunks (fuel : nat) (input : bytes) (offset : Z) (chunks : list ParsedChunk)
    : outcome DataChannelError (list ParsedChunk) :=
  match fuel with
  | O => Diverge
  | S fuel =>
      if offset <? len input then
        _ ← reject_if (len input - offset <? CHUNK_HEADER_LEN) MalformedChunk;
        length ← read_u16 input (offset + 2);
        _ ← reject_if ((length <? CHUNK_HEADER_LEN) || (len input - offset <? length)) MalformedChunk;
        kind ← index input offset;
        flags ← index input (offset + 1);
        value ← index_range input (offset + 4) (offset + length);
        let chunks := chunks ++ [{| chunk_kind := kind; chunk_flags := flags; chunk_value := value |}] in
        offset ← ok_or (checked_add 64 offset (round4 length)) MalformedChunk;
        _ ← reject_if (len input <? offset) MalformedChunk;
        parse_chunks fuel input offset chunks
      else Ok chunks
  end.

(** [ParsedPacket::parse] *)
Definition parse_packet (input : bytes) : outcome DataChannelError ParsedPacket :=
  _ ← reject_if (negb ((COMMON_HEADER_LEN + CHUNK_HEADER_LEN <=? len input) && (len input <=? 65535)))
        MalformedPacket;
  expected_checksum ← read_u32_le input 8;
  _ ← reject_if (negb (checksum input =? expected_checksum)) InvalidChecksum;
  chunks ← parse_chunks (S (length input)) input COMMON_HEADER_LEN [];
  _ ← reject_if (bool_decide (chunks = [])) MalformedPacket;
  source ← read_u16 input 0;
  destination ← read_u16 input 2;
  tag ← read_u32 input 4;
  Ok {| source_port := source; destination_port := destination; packet_tag := tag; packet_chunks := chunks |}.

Definition build_packet (source_port destination_port verification_tag kind flags : Z) (value : bytes)
    : outcome DataChannelError bytes :=
  chunk_length ← ok_or (checked_add 64 CHUNK_HEADER_LEN (len value)) MessageTooLarge;
  chunk_length_u16 ← ok_or (try_from 16 chunk_length) MessageTooLarge;
  let padded_length := round4 chunk_length in
  packet_length ← ok_or (checked_add 64 COMMON_HEADER_LEN padded_length) MessageTooLarge;
  _ ← reject_if (65535 <? packet_length) MessageTooLarge;
  let packet := replicateZ packet_length 0 in
  packet ← copy_at packet 0 (to_be_bytes 2 source_port);
  packet ← copy_at packet 2 (to_be_bytes 2 destination_port);
  packet ← copy_at packet 4 (to_be_bytes 4 verification_tag);
  packet ← set_at packet 12 kind;
  packet ← set_at packet 13 flags;
  packet ← copy_at packet 14 (to_be_bytes 2 chunk_length_u16);
  packet ← copy_at packet 16 value;
  copy_at packet 8 (to_le_bytes 4 (checksum packet)).

(** ** Parameters *)
Record SctpParameter := { param_kind : Z; param_value : bytes }.

Definition push_parameter (kind : Z) (value : bytes) (output : bytes) : outcome DataChannelError bytes :=
  length ← ok_or (checked_add 64 4 (len value)) MessageTooLarge;
  let output := output ++ to_be_bytes 2 kind in
  length_u16 ← ok_or (try_from 16 length) MessageTooLarge;
  let output := output ++ to_be_bytes 2 length_u16 in
  let output := output ++ value in
  Ok (resize output (len output + (4 - length mod 4) mod 4) 0).

Fixpoint parse_parameters_loop (fuel : nat) (input : bytes) (offset : Z) (parameters : list SctpParameter)
    : outcome DataChannelError (Z * list SctpParameter) :=
  match fuel with
  | O => Diverge
  | S fuel =>
      if offset <? len input then
        _ ← reject_if (saturating_sub (len input) offset <? 4) MalformedChunk;
        kind ← read_u16 input offset;
        length ← read_u16 input (offset + 2);
        _ ← reject_if ((length <? 4) || (len input <? saturating_add 64 offset length)) MalformedChunk;
        value ← index_range input (offset + 4) (offset + length);
        let parameters := parameters ++ [{| param_kind := kind; param_value := value |}] in
        if offset + length =? len input then Ok (len input, parameters)
        else
          offset ← ok_or (checked_add 64 offset (round4 length)) MalformedChunk;
          parse_parameters_loop fuel input offset parameters
      else Ok (offset, parameters)
  end.
Definition parse_parameters (input : bytes) : outcome DataChannelError (list SctpParameter) :=
  '(offset, parameters) ← parse_parameters_loop (S (length input)) input 0 [];
  _ ← reject_if (negb (offset =? len input)) MalformedChunk;
  Ok parameters.

(** [input.chunks_exact(2)] as big-endian numbers. *)
Fixpoint u16_pairs (input : bytes) : list Z :=
  match input with
  | a :: b :: input => from_be_bytes [a; b] :: u16_pairs input
  | _ => []
  end.
Definition parse_stream_numbers (input : bytes) (stream_limit : Z)
    : outcome DataChannelError (option (list Z)) :=
  if bool_decide (input = []) then Ok None
  else
    _ ← reject_if (negb (len input mod 2 =? 0)) MalformedChunk;
    let streams := u16_pairs input in
    _ ← reject_if (existsb (fun stream => stream_limit <=? stream) streams) MalformedChunk;
    Ok (Some streams).

(** ** Serial numbers, cookies and text *)
Definition sequence_less_or_equal (candidate reference : Z) : bool :=
  wrapping_sub 32 reference candidate <? Z.shiftl 1 31.
Definition sequence_less_or_equal_u16 (candidate reference : Z) : bool :=
  wrapping_sub 16 reference candidate <? Z.shiftl 1 15.

Definition constant_time_equal (left right : bytes) : bool :=
  if negb (len left =? len right) then false
  else foldl (fun difference p => Z.lor difference (Z.lxor p.1 p.2)) 0 (zip left right) =? 0.

(** ** Rounding and checksums *)
Lemma round4_spec x : 0 <= x -> round4 x = x + (- x) mod 4.
Proof.
  intros Hx. unfold round4. rewrite <- Z.ldiff_land. change 3 with (Z.ones 2) at 2.
  rewrite Z.ldiff_ones_r, Z.shiftl_mul_pow2, Z.shiftr_div_pow2 by lia. change (2 ^ 2) with 4. zdiv.
Qed.

Lemma crc_bit_fits crc : u32 crc -> u32 (crc_bit crc).
Proof.
  intros Hc. unfold crc_bit. apply fits_lxor; [lia|by apply fits_shiftr|].
  apply fits_land; [lia|mlia|]. apply (wrapping_sub_fits 32). lia.
Qed.

Lemma checksum_fits input : bytes_ok input -> u32 (checksum input).
Proof.
  intros Hi. unfold checksum. apply fits_lxor; [lia| |by vm_compute].
  assert (Forall u8 (imap blank_checksum input)) as Hb.
  { apply Forall_forall. intros x (i & y & -> & Hy)%elem_of_lookup_imap_1. unfold blank_checksum. case_match; [mlia|].
    by eapply (Forall_lookup_1 _ _ _ _ Hi). }
  assert (forall l c, Forall u8 l -> u32 c -> u32 (foldl crc_byte c l)) as H.
  { induction l as [|b l IH]; intros c Hl Hc; [done|]. apply Forall_cons in Hl as [Hb0 Hl]. cbn. apply IH; [done|].
    unfold crc_byte. cbn. do 8 apply crc_bit_fits. apply fits_lxor; [lia|done|mlia]. }
  apply H; [done|by vm_compute].
Qed.

(** The checksum does not depend on its own field. *)
Lemma checksum_blank h sum sum' rest : len h = 8 -> len sum = 4 -> len sum' = 4 ->
  checksum (h ++ sum ++ rest) = checksum (h ++ sum' ++ rest).
Proof.
  intros Hh Hs Hs'. unfold checksum. do 2 f_equal. rewrite !imap_app. f_equal. f_equal; [|].
  - assert (length sum = 4%nat /\ length sum' = 4%nat /\ length h = 8%nat) as (E1 & E2 & E3) by (unfold len in *; lia).
    destruct sum as [|? [|? [|? [|? [|? ?]]]]]; try discriminate E1.
    destruct sum' as [|? [|? [|? [|? [|? ?]]]]]; try discriminate E2. cbn. rewrite E3. done.
  - assert (length sum = length sum') as -> by (unfold len in *; lia). done.
Qed.

(** ** The parser returns *)
Lemma returns_read_u32_le input p : returns (read_u32_le input p).
Proof. unfold read_u32_le. apply returns_bind; [apply returns_ok_or|]. intros b _. by destruct (Nat.eqb _ _). Qed.

Lemma returns_parse_chunks fuel input offset chunks : rust_slice input -> 0 <= offset ->
  len input < offset + Z.of_nat fuel -> (0 < fuel)%nat -> returns (parse_chunks fuel input offset chunks).
Proof.
  intros [Hok Hlen]. revert offset chunks. induction fuel as [|fuel IH]; intros offset chunks H0 Hf Hp; [lia|].
  cbn [parse_chunks]. destruct (Z.ltb_spec offset (len input)); [|done]. unfold CHUNK_HEADER_LEN.
  apply returns_bind; [auto with returns|]. intros _ H4%reject_if_Ok.
  apply returns_bind; [apply returns_read_be|]. intros l _.
  apply returns_bind; [auto with returns|]. intros _ Hl%reject_if_Ok.
  apply orb_false_iff in Hl as [Hl1 Hl2].
  apply returns_bind; [apply returns_index; lia|]. intros k _.
  apply returns_bind; [apply returns_index; lia|]. intros f _.
  apply returns_bind; [apply returns_index_range; lia|]. intros v _. cbv zeta.
  apply returns_bind; [auto with returns|]. intros o [-> _]%ok_or_Ok%checked_add_Some.
  apply returns_bind; [auto with returns|]. intros _ Ho%reject_if_Ok.
  rewrite round4_spec in * by lia. apply IH; zdiv.
Qed.

Lemma returns_sctp_packet input : rust_slice input -> returns (parse_packet input).
Proof.
  intros Hi. unfold parse_packet. apply returns_bind; [auto with returns|]. intros _ _.
  apply returns_bind; [apply returns_read_u32_le|]. intros s _.
  apply returns_bind; [auto with returns|]. intros _ _.
  apply returns_bind; [apply returns_parse_chunks; [done|..]; unfold COMMON_HEADER_LEN, len; lia|]. intros cs _.
  apply returns_bind; [auto with returns|]. intros _ _.
  repeat (apply returns_bind; [apply returns_read_be|intros ? _]). done.
Qed.

Lemma returns_parse_parameters input : rust_slice input -> returns (parse_parameters input).
Proof.
  intros [Hok Hlen]. unfold parse_parameters. apply returns_bind.
  - assert (forall fuel offset ps, 0 <= offset -> len input < offset + Z.of_nat fuel -> (0 < fuel)%nat ->
      returns (parse_parameters_loop fuel input offset ps)) as H; [|apply H; unfold len; lia].
    induction fuel as [|fuel IH]; intros offset ps H0 Hf Hp; [lia|].
    cbn [parse_parameters_loop]. destruct (Z.ltb_spec offset (len input)); [|done].
    apply returns_bind; [auto with returns|]. intros _ H4%reject_if_Ok. unfold saturating_sub in H4.
    apply returns_bind; [apply returns_read_be|]. intros k _. apply returns_bind; [apply returns_read_be|]. intros l _.
    apply returns_bind; [auto with returns|]. intros _ Hl%reject_if_Ok. apply orb_false_iff in Hl as [Hl1 Hl2].
    unfold saturating_add in Hl2. apply returns_bind; [apply returns_index_range; mlia|]. intros v _. cbv zeta.
    case_match; [done|]. apply returns_bind; [auto with returns|]. intros o [-> _]%ok_or_Ok%checked_add_Some.
    rewrite round4_spec by lia. apply IH; zdiv.
  - intros [o ps] _. apply returns_bind; [auto with returns|done].
Qed.

(** ** Building *)
Section Head.
Context {E A : Type} (h tail : list A).

Lemma copy_at_head i v : 0 <= i -> i + len v <= len h ->
  copy_at (E:=E) (h ++ tail) i v = Ok ((take (Z.to_nat i) h ++ v ++ drop (Z.to_nat (i + len v)) h) ++ tail).
Proof.
  intros H0 Hi. unfold copy_at. rewrite len_app. pose_len. replace (_ && _) with true by lia.
  rewrite take_app_le, drop_app_le by (unfold len in *; lia). by rewrite <- !app_assoc.
Qed.

Lemma set_at_head i x : 0 <= i < len h -> set_at (E:=E) (h ++ tail) i x = Ok (<[Z.to_nat i := x]> h ++ tail).
Proof.
  intros Hi. unfold set_at. rewrite len_app. pose_len. replace (_ && _) with true by lia.
  by rewrite insert_app_l by (unfold len in *; lia).
Qed.
End Head.

Lemma to_be_2 v : exists a b, to_be_bytes 2 v = [a; b].
Proof. by eexists _, _. Qed.
Lemma to_be_4 v : exists a b c d, to_be_bytes 4 v = [a; b; c; d].
Proof. by eexists _, _, _, _. Qed.
Lemma to_le_4 v : exists a b c d, to_le_bytes 4 v = [a; b; c; d].
Proof. unfold to_le_bytes. destruct (to_be_4 v) as (a & b & c & d & ->). by exists d, c, b, a. Qed.

Lemma replicateZ_add {A} n m (x : A) : 0 <= n -> 0 <= m -> replicateZ (n + m) x = replicateZ n x ++ replicateZ m x.
Proof. intros. unfold replicateZ. rewrite Z2Nat.inj_add by lia. apply replicate_add. Qed.

Definition packet_bytes (s d t sum k f : Z) (value : bytes) : bytes :=
  (to_be_bytes 2 s ++ to_be_bytes 2 d ++ to_be_bytes 4 t) ++ to_le_bytes 4 sum ++
  [k; f] ++ to_be_bytes 2 (4 + len value) ++ value ++ RtcpModel.pad4 (len value).

Lemma len_to_le_bytes n z : len (to_le_bytes n z) = Z.of_nat n.
Proof. unfold to_le_bytes. by rewrite len_reverse, len_to_be_bytes. Qed.

(** Steps one write into the fixed header of a buffer. *)
Ltac head_write :=
  first [rewrite copy_at_head by done | rewrite set_at_head by done];
  cbn [mbind outcome_bind];
  match goal with |- context [?h ++ ?tl] =>
    is_var tl; let h' := eval vm_compute in h in change h with h' end.

Definition packet_length (value : bytes) : Z := 16 + len value + (- len value) mod 4.

Lemma build_packet_spec s d t k f value :
  build_packet s d t k f value =
    if 65535 <? packet_length value then Err MessageTooLarge
    else Ok (packet_bytes s d t (checksum (packet_bytes s d t 0 k f value)) k f value).
Proof.
  unfold build_packet, packet_length, checked_add, try_from, CHUNK_HEADER_LEN, COMMON_HEADER_LEN.
  pose_len. pose proof (Z.mod_pos_bound (- len value) 4 ltac:(lia)) as Hm.
  assert (round4 (4 + len value) = 4 + len value + (- len value) mod 4) as Hr
    by (rewrite round4_spec by lia; zdiv).
  destruct (Z.leb_spec (4 + len value) (umax 64)) as [H64|H64]; cbn [ok_or mbind outcome_bind];
    [|by replace (65535 <? _) with true by mlia].
  destruct (andb _ _) eqn:H16; cbn [ok_or mbind outcome_bind];
    [|by replace (65535 <? _) with true by mlia].
  cbv zeta. rewrite Hr. replace (_ <=? umax 64) with true by mlia. cbn [ok_or mbind outcome_bind].
  replace (65535 <? 12 + _) with (65535 <? 16 + len value + (- len value) mod 4) by (f_equal; lia).
  destruct (Z.ltb_spec 65535 (16 + len value + (- len value) mod 4)) as [Hl|Hl]; [done|].
  cbn [reject_if mbind outcome_bind].
  replace (replicateZ _ _) with (replicate 16 0 ++ replicateZ (len value) 0 ++ RtcpModel.pad4 (len value)).
  2:{ unfold RtcpModel.pad4. rewrite <- replicateZ_add by lia.
      replace (12 + (4 + len value + (- len value) mod 4)) with ((12 + 4) + (len value + (- len value) mod 4)) by lia.
      by rewrite (replicateZ_add (12 + 4)) by lia. }
  set (tail := replicateZ (len value) 0 ++ _). unfold packet_bytes.
  destruct (to_be_2 s) as (s0 & s1 & ->), (to_be_2 d) as (d0 & d1 & ->), (to_be_4 t) as (t0 & t1 & t2 & t3 & ->).
  destruct (to_be_2 (4 + len value)) as (c0 & c1 & ->).
  do 6 head_write. subst tail.
  rewrite (copy_at_middle [s0;s1;d0;d1;t0;t1;t2;t3;0;0;0;0;k;f;c0;c1]);
    [|done|unfold replicateZ, len; rewrite length_replicate; lia]. cbn [mbind outcome_bind].
  change ([s0;s1;d0;d1;t0;t1;t2;t3;0;0;0;0;k;f;c0;c1] ++ ?x) with
    ([s0;s1;d0;d1;t0;t1;t2;t3] ++ [0;0;0;0] ++ ([k; f; c0; c1] ++ x)).
  by rewrite copy_at_middle by first [done | by rewrite len_to_le_bytes].
Qed.

Lemma from_to_le_bytes n z : fits (8 * Z.of_nat n) z -> from_le_bytes (to_le_bytes n z) = z.
Proof. intros H. unfold from_le_bytes, to_le_bytes. rewrite reverse_involutive. by apply from_to_be_bytes. Qed.

Lemma read_u32_le_off pre sum rest : u32 sum -> len pre + 4 < 2 ^ 64 ->
  read_u32_le (pre ++ to_le_bytes 4 sum ++ rest) (len pre) = Ok sum.
Proof.
  intros Hs Hp. unfold read_u32_le. pose_len.
  rewrite (proj2 (get_range_Some _ _ _ (to_le_bytes 4 sum))).
  - cbn [ok_or mbind outcome_bind].
    replace (Nat.eqb _ 4) with true by (pose proof (len_to_le_bytes 4 sum); unfold len in *; symmetry; apply Nat.eqb_eq; lia).
    f_equal. by apply (from_to_le_bytes 4).
  - exists pre, rest. rewrite len_to_le_bytes. unfold saturating_add. split_and!; [done|done|mlia].
Qed.

Section PacketBytes.
Context (s d t k f : Z) (value : bytes).

Lemma packet_bytes_head sum : exists h,
  len h = 8 /\ h = to_be_bytes 2 s ++ to_be_bytes 2 d ++ to_be_bytes 4 t /\
  packet_bytes s d t sum k f value =
    h ++ to_le_bytes 4 sum ++ [k; f] ++ to_be_bytes 2 (4 + len value) ++ value ++ RtcpModel.pad4 (len value).
Proof. eexists. split_and!; [|reflexivity|reflexivity]. by rewrite !len_app, !len_to_be_bytes. Qed.

Lemma packet_bytes_checksum sum sum' :
  checksum (packet_bytes s d t sum k f value) = checksum (packet_bytes s d t sum' k f value).
Proof.
  destruct (packet_bytes_head sum) as (h & Hh & -> & ->), (packet_bytes_head sum') as (h' & _ & -> & ->).
  apply checksum_blank; [done|by rewrite len_to_le_bytes..].
Qed.

Lemma packet_bytes_len sum : len (packet_bytes s d t sum k f value) = packet_length value.
Proof.
  unfold packet_bytes, packet_length. rewrite !len_app, !len_to_be_bytes, len_to_le_bytes.
  unfold RtcpModel.pad4. rewrite len_replicateZ. change (len [k; f]) with 2.
  pose proof (Z.mod_pos_bound (- len value) 4 ltac:(lia)). lia.
Qed.

Lemma packet_bytes_ok sum : u8 k -> u8 f -> bytes_ok value -> bytes_ok (packet_bytes s d t sum k f value).
Proof.
  intros. unfold packet_bytes, RtcpModel.pad4, to_le_bytes, replicateZ.
  rewrite !bytes_ok_app, !bytes_ok_cons. split_and!; auto using to_be_bytes_ok, bytes_ok_nil, bytes_ok_replicate.
  apply Forall_reverse, to_be_bytes_ok.
Qed.
End PacketBytes.

Lemma parse_chunks_one fuel pre k f value : (2 <= fuel)%nat -> len pre = 12 -> packet_length value <= 65535 ->
  parse_chunks fuel (pre ++ [k; f] ++ to_be_bytes 2 (4 + len value) ++ value ++ RtcpModel.pad4 (len value)) 12 [] =
    Ok [{| chunk_kind := k; chunk_flags := f; chunk_value := value |}].
Proof.
  intros Hf Hpre Hl. unfold packet_length in Hl. pose_len. destruct fuel as [|[|fuel]]; [lia..|].
  pose proof (Z.mod_pos_bound (- len value) 4 ltac:(lia)) as Hm.
  set (input := pre ++ _). cbn [parse_chunks]. unfold CHUNK_HEADER_LEN.
  assert (len input = 16 + len value + (- len value) mod 4) as Hi.
  { unfold input. rewrite !len_app, len_to_be_bytes, Hpre. unfold RtcpModel.pad4. rewrite len_replicateZ.
    change (len [k; f]) with 2. lia. }
  rewrite Hi. replace (12 <? _) with true by lia. replace (_ - 12 <? 4) with false by lia.
  cbn [reject_if mbind outcome_bind]. unfold read_u16.
  assert (read_be 2 MalformedPacket input (12 + 2) = Ok (4 + len value)) as ->.
  { unfold input. rewrite (RtcpModel.read_be_off _ _ _ _ _ 2) by lia. cbn [app].
    rewrite !RtcpModel.read_be_cons by lia. apply RtcpModel.read_be_first; [done|mlia|lia]. }
  cbn [mbind outcome_bind]. replace (_ || _) with false by lia. cbn [reject_if mbind outcome_bind].
  assert (forall E, index (E:=E) input 12 = Ok k) as ->.
  { intros E. unfold index, input. rewrite get_app_skip by lia. by rewrite Hpre. }
  assert (forall E, index (E:=E) input (12 + 1) = Ok f) as ->.
  { intros E. unfold index, input. rewrite get_app_skip by lia. by rewrite Hpre. }
  assert (forall E, index_range (E:=E) input (12 + 4) (12 + (4 + len value)) = Ok value) as ->.
  { intros E. unfold index_range.
    rewrite (proj2 (get_range_Some input _ _ value)); [done|].
    exists (pre ++ [k; f] ++ to_be_bytes 2 (4 + len value)), (RtcpModel.pad4 (len value)).
    unfold input. rewrite <- !app_assoc. split_and!; [done| |lia].
    rewrite !len_app, Hpre, len_to_be_bytes. done. }
  cbn [mbind outcome_bind]. rewrite round4_spec by lia.
  replace ((- (4 + len value)) mod 4) with ((- len value) mod 4) by zdiv.
  rewrite checked_add_fits by mlia. cbn [ok_or mbind outcome_bind].
  replace (_ <? 12 + _) with false by lia. cbn [reject_if mbind outcome_bind parse_chunks].
  by replace (_ <? _) with false by lia.
Qed.

Lemma parse_built s d t k f value : u16 s -> u16 d -> u32 t -> u8 k -> u8 f -> bytes_ok value ->
  packet_length value <= 65535 ->
  parse_packet (packet_bytes s d t (checksum (packet_bytes s d t 0 k f value)) k f value) =
    Ok {| source_port := s; destination_port := d; packet_tag := t;
          packet_chunks := [{| chunk_kind := k; chunk_flags := f; chunk_value := value |}] |}.
Proof.
  intros Hs Hd Ht Hk Hf Hv Hl. set (sum := checksum _).
  assert (u32 sum) as Hsum by (by apply checksum_fits, packet_bytes_ok).
  unfold parse_packet. rewrite packet_bytes_len.
  assert (16 <= packet_length value) as H16
    by (unfold packet_length; pose_len; pose proof (Z.mod_pos_bound (- len value) 4 ltac:(lia)); lia).
  unfold COMMON_HEADER_LEN, CHUNK_HEADER_LEN. replace (negb _) with false by lia. cbn [reject_if mbind outcome_bind].
  rewrite (packet_bytes_checksum _ _ _ _ _ _ sum 0). fold sum.
  assert (read_u32_le (packet_bytes s d t sum k f value) 8 = Ok sum) as ->.
  { unfold packet_bytes. rewrite <- (read_u32_le_off (to_be_bytes 2 s ++ to_be_bytes 2 d ++ to_be_bytes 4 t) sum
      ([k; f] ++ to_be_bytes 2 (4 + len value) ++ value ++ RtcpModel.pad4 (len value)));
      rewrite ?len_app, ?len_to_be_bytes; [by f_equal|done|lia]. }
  cbn [mbind outcome_bind]. rewrite Z.eqb_refl. cbn [negb reject_if mbind outcome_bind].
  pose proof (packet_bytes_len s d t k f value sum) as Hlen.
  replace (parse_chunks _ _ _ _) with (Ok (E:=DataChannelError) [{| chunk_kind := k; chunk_flags := f; chunk_value := value |}]).
  2:{ symmetry. assert (2 <= S (length (packet_bytes s d t sum k f value)))%nat as Hfuel by (unfold len in Hlen; lia).
      revert Hfuel. generalize (S (length (packet_bytes s d t sum k f value))). intros fuel Hfuel.
      unfold packet_bytes. rewrite (app_assoc (_ ++ _) (to_le_bytes 4 sum)).
      apply parse_chunks_one; [done| |done].
      by rewrite !len_app, !len_to_be_bytes, len_to_le_bytes. }
  cbn [mbind outcome_bind reject_if bool_decide decide_rel]. unfold packet_bytes, read_u16, read_u32. rewrite <- !app_assoc.
  do 3 RtcpModel.read_field. done.
Qed.

(** ** Comparisons *)
Lemma constant_time_equal_spec a b : bytes_ok a -> bytes_ok b -> constant_time_equal a b = true <-> a = b.
Proof.
  intros Ha Hb. unfold constant_time_equal. destruct (Z.eqb_spec (len a) (len b)) as [Hl|Hl]; cbn [negb];
    [|split; [done|by intros ->]].
  assert (forall a b d, bytes_ok a -> bytes_ok b -> length a = length b -> 0 <= d ->
    foldl (fun difference p => Z.lor difference (Z.lxor p.1 p.2)) d (zip a b) = 0 <-> d = 0 /\ a = b) as H.
  { clear. induction a as [|x a IH]; intros [|y b] d Ha Hb Hl Hd; try done; [cbn; naive_solver|].
    apply bytes_ok_cons in Ha as [Hx Ha], Hb as [Hy Hb]. cbn [zip_with foldl fst snd]. injection Hl as Hl.
    rewrite IH; [|done..|apply Z.lor_nonneg; split; [done|apply Z.lxor_nonneg; mlia]].
    rewrite Z.lor_eq_0_iff, Z.lxor_eq_0_iff. naive_solver. }
  rewrite Z.eqb_eq, H by (done || unfold len in Hl; lia). naive_solver.
Qed.
