(* ===== verification/SctpAssociation.v ===== *)
(** * webrtc/data-channel: the SCTP association (src/lib.rs)

    The server side of one association as the state machine of the source: handshake, ordered
    reception, reassembly, DCEP channels, stream resets, the send window with partial
    reliability, and the timer.  Times are nanoseconds; the texts of a channel are octets that
    passed UTF-8 validation.  A handler writes its packets and events to the output next to the
    association; [handle_packet] drops that output when it fails, and keeps the association. *)
From stdpp Require Import sorting.
From S2P Require Import Prelude Words Slices RustStd SctpPacket.

Abbreviation Duration := Z.
Definition from_millis (ms : Z) : Duration := ms * 1000000.

Definition DATA_FIXED_LEN : Z := 16.
Definition INIT_FIXED_LEN : Z := 20.
Definition SACK_FIXED_LEN : Z := 16.
Definition TYPE_DATA : Z := 0.
Definition TYPE_INIT : Z := 1.
Definition TYPE_INIT_ACK : Z := 2.
Definition TYPE_SACK : Z := 3.
Definition TYPE_HEARTBEAT : Z := 4.
Definition TYPE_HEARTBEAT_ACK : Z := 5.
Definition TYPE_ABORT : Z := 6.
Definition TYPE_SHUTDOWN : Z := 7.
Definition TYPE_SHUTDOWN_ACK : Z := 8.
Definition TYPE_COOKIE_ECHO : Z := 10.
Definition TYPE_COOKIE_ACK : Z := 11.
Definition TYPE_RE_CONFIG : Z := 130.
Definition TYPE_FORWARD_TSN : Z := 192.
Definition PARAMETER_STATE_COOKIE : Z := 7.
Definition PARAMETER_OUTGOING_RESET : Z := 13.
Definition PARAMETER_INCOMING_RESET : Z := 14.
Definition PARAMETER_RECONFIG_RESPONSE : Z := 16.
Definition PARAMETER_FORWARD_TSN_SUPPORTED : Z := 0xc000.
Definition RECONFIG_SUCCESS_PERFORMED : Z := 1.
Definition RECONFIG_ERROR_BAD_SEQUENCE : Z := 5.
Definition FLAG_DATA_END : Z := 0x01.
Definition FLAG_DATA_BEGIN : Z := 0x02.
Definition FLAG_DATA_UNORDERED : Z := 0x04.
Definition PPID_DCEP : Z := 50.
Definition PPID_STRING : Z := 51.
Definition PPID_BINARY : Z := 53.
Definition PPID_STRING_EMPTY : Z := 56.
Definition PPID_BINARY_EMPTY : Z := 57.
Definition DCEP_ACK : Z := 0x02.
Definition DCEP_OPEN : Z := 0x03.
Definition DEFAULT_RECEIVE_WINDOW : Z := 1048576.
Definition MAX_PACKET_BYTES : Z := 1200.
Definition MAX_DATA_PAYLOAD : Z := MAX_PACKET_BYTES - COMMON_HEADER_LEN - DATA_FIXED_LEN.
Definition MAX_PENDING_TSN : Z := 1024.
Definition MAX_OUTSTANDING : Z := 256.
Definition RETRANSMIT_AFTER : Duration := from_millis 500.
Definition MAX_RETRANSMISSIONS : Z := 8.
Definition MAX_PARTIAL_RETRANSMISSIONS : Z := 1024.
Definition MAX_PARTIAL_LIFETIME : Duration := from_millis (24 * 60 * 60 * 1000).

(** ** Data *)
Record AssociationConfig := {
  local_port : Z;
  remote_port : Z;
  verification_tag : Z;
  initial_tsn : Z;
  cookie : bytes;
  maximum_channels : Z;
  maximum_message_bytes : Z }.

Definition validate (c : AssociationConfig) : outcome DataChannelError unit :=
  reject_if ((local_port c =? 0) || (remote_port c =? 0) || (verification_tag c =? 0) ||
      negb ((16 <=? len (cookie c)) && (len (cookie c) <=? 256)) ||
      negb ((1 <=? maximum_channels c) && (maximum_channels c <=? 1024)) ||
      negb ((1 <=? maximum_message_bytes c) && (maximum_message_bytes c <=? 256 * 1024)))
    InvalidConfiguration.

Inductive AssociationState := Listen | CookieWait | Established | Closed | Failed.
#[export] Instance state_eq_dec : EqDecision AssociationState.
Proof. solve_decision. Defined.

Inductive MessageKind := Text | Binary.
#[export] Instance kind_eq_dec : EqDecision MessageKind.
Proof. solve_decision. Defined.

Inductive ChannelReliability :=
| Reliable
| MaxRetransmissions (maximum : Z)
| MaxPacketLifetime (lifetime : Duration).
#[export] Instance reliability_eq_dec : EqDecision ChannelReliability.
Proof. solve_decision. Defined.

Inductive AssociationEvent :=
| EvEstablished
| ChannelOpened (stream_id : Z) (label protocol : bytes) (ordered : bool) (reliability : ChannelReliability)
| ChannelClosed (stream_id : Z)
| Message (stream_id : Z) (kind : MessageKind) (payload : bytes)
| EvClosed
| DeliveryFailed (tsn : Z)
| MessageAbandoned (stream_id stream_sequence : Z).

Record AssociationOutput := {
  packets : list bytes;
  events : list AssociationEvent;
  retransmitted_packets : Z }.
Definition default_output : AssociationOutput :=
  {| packets := []; events := []; retransmitted_packets := 0 |}.

Record Channel := {
  channel_ordered : bool;
  channel_reliability : ChannelReliability;
  next_outgoing_sequence : Z }.
Record DataChunk := {
  data_flags : Z;
  data_tsn : Z;
  data_stream_id : Z;
  data_stream_sequence : Z;
  data_ppid : Z;
  data_payload : bytes }.
Record Reassembly := { asm_stream_sequence : Z; asm_ppid : Z; asm_payload : bytes }.
Record Outstanding := {
  out_packet : bytes;
  out_message_id : Z;
  out_stream_id : Z;
  out_stream_sequence : Z;
  out_ordered : bool;
  out_reliability : ChannelReliability;
  first_sent_at : Duration;
  sent_at : Duration;
  retransmissions : Z }.
Record Abandoned := { ab_stream_id : Z; ab_stream_sequence : Z; ab_ordered : bool }.
Record PendingForwardTsn := {
  new_cumulative_tsn : Z;
  skipped_streams : list (Z * Z);
  fwd_sent_at : Duration }.
Record OutboundMessage := {
  msg_stream_id : Z;
  msg_stream_sequence : Z;
  msg_ppid : Z;
  msg_ordered : bool;
  msg_reliability : ChannelReliability }.

Record Association := {
  config : AssociationConfig;
  state : AssociationState;
  peer_verification_tag : option Z;
  peer_initial_tsn : option Z;
  cumulative_peer_tsn : option Z;
  next_tsn : Z;
  outbound_cumulative_tsn : Z;
  next_message_id : Z;
  next_reconfig_sequence : Z;
  next_peer_reconfig_sequence : option Z;
  peer_outbound_streams : Z;
  channels : gmap Z Channel;
  pending_data : gmap Z DataChunk;
  reassembly : gmap Z Reassembly;
  outstanding : gmap Z Outstanding;
  abandoned : gmap Z Abandoned;
  pending_forward_tsn : option PendingForwardTsn;
  peer_forward_tsn_supported : bool }.

Definition set_state (x : AssociationState) (a : Association) : Association :=
  {| config := config a; state := x; peer_verification_tag := peer_verification_tag a; peer_initial_tsn
     := peer_initial_tsn a; cumulative_peer_tsn := cumulative_peer_tsn a; next_tsn := next_tsn a;
     outbound_cumulative_tsn := outbound_cumulative_tsn a; next_message_id := next_message_id a;
     next_reconfig_sequence := next_reconfig_sequence a; next_peer_reconfig_sequence :=
     next_peer_reconfig_sequence a; peer_outbound_streams := peer_outbound_streams a; channels :=
     channels a; pending_data := pending_data a; reassembly := reassembly a; outstanding := outstanding
     a; abandoned := abandoned a; pending_forward_tsn := pending_forward_tsn a;
     peer_forward_tsn_supported := peer_forward_tsn_supported a |}.
Definition set_cumulative_peer_tsn (x : option Z) (a : Association) : Association :=
  {| config := config a; state := state a; peer_verification_tag := peer_verification_tag a;
     peer_initial_tsn := peer_initial_tsn a; cumulative_peer_tsn := x; next_tsn := next_tsn a;
     outbound_cumulative_tsn := outbound_cumulative_tsn a; next_message_id := next_message_id a;
     next_reconfig_sequence := next_reconfig_sequence a; next_peer_reconfig_sequence :=
     next_peer_reconfig_sequence a; peer_outbound_streams := peer_outbound_streams a; channels :=
     channels a; pending_data := pending_data a; reassembly := reassembly a; outstanding := outstanding
     a; abandoned := abandoned a; pending_forward_tsn := pending_forward_tsn a;
     peer_forward_tsn_supported := peer_forward_tsn_supported a |}.
Definition set_next_tsn (x : Z) (a : Association) : Association :=
  {| config := config a; state := state a; peer_verification_tag := peer_verification_tag a;
     peer_initial_tsn := peer_initial_tsn a; cumulative_peer_tsn := cumulative_peer_tsn a; next_tsn := x;
     outbound_cumulative_tsn := outbound_cumulative_tsn a; next_message_id := next_message_id a;
     next_reconfig_sequence := next_reconfig_sequence a; next_peer_reconfig_sequence :=
     next_peer_reconfig_sequence a; peer_outbound_streams := peer_outbound_streams a; channels :=
     channels a; pending_data := pending_data a; reassembly := reassembly a; outstanding := outstanding
     a; abandoned := abandoned a; pending_forward_tsn := pending_forward_tsn a;
     peer_forward_tsn_supported := peer_forward_tsn_supported a |}.
Definition set_outbound_cumulative_tsn (x : Z) (a : Association) : Association :=
  {| config := config a; state := state a; peer_verification_tag := peer_verification_tag a;
     peer_initial_tsn := peer_initial_tsn a; cumulative_peer_tsn := cumulative_peer_tsn a; next_tsn :=
     next_tsn a; outbound_cumulative_tsn := x; next_message_id := next_message_id a;
     next_reconfig_sequence := next_reconfig_sequence a; next_peer_reconfig_sequence :=
     next_peer_reconfig_sequence a; peer_outbound_streams := peer_outbound_streams a; channels :=
     channels a; pending_data := pending_data a; reassembly := reassembly a; outstanding := outstanding
     a; abandoned := abandoned a; pending_forward_tsn := pending_forward_tsn a;
     peer_forward_tsn_supported := peer_forward_tsn_supported a |}.
Definition set_next_message_id (x : Z) (a : Association) : Association :=
  {| config := config a; state := state a; peer_verification_tag := peer_verification_tag a;
     peer_initial_tsn := peer_initial_tsn a; cumulative_peer_tsn := cumulative_peer_tsn a; next_tsn :=
     next_tsn a; outbound_cumulative_tsn := outbound_cumulative_tsn a; next_message_id := x;
     next_reconfig_sequence := next_reconfig_sequence a; next_peer_reconfig_sequence :=
     next_peer_reconfig_sequence a; peer_outbound_streams := peer_outbound_streams a; channels :=
     channels a; pending_data := pending_data a; reassembly := reassembly a; outstanding := outstanding
     a; abandoned := abandoned a; pending_forward_tsn := pending_forward_tsn a;
     peer_forward_tsn_supported := peer_forward_tsn_supported a |}.
Definition set_next_reconfig_sequence (x : Z) (a : Association) : Association :=
  {| config := config a; state := state a; peer_verification_tag := peer_verification_tag a;
     peer_initial_tsn := peer_initial_tsn a; cumulative_peer_tsn := cumulative_peer_tsn a; next_tsn :=
     next_tsn a; outbound_cumulative_tsn := outbound_cumulative_tsn a; next_message_id := next_message_id
     a; next_reconfig_sequence := x; next_peer_reconfig_sequence := next_peer_reconfig_sequence a;
     peer_outbound_streams := peer_outbound_streams a; channels := channels a; pending_data :=
     pending_data a; reassembly := reassembly a; outstanding := outstanding a; abandoned := abandoned a;
     pending_forward_tsn := pending_forward_tsn a; peer_forward_tsn_supported :=
     peer_forward_tsn_supported a |}.
Definition set_next_peer_reconfig_sequence (x : option Z) (a : Association) : Association :=
  {| config := config a; state := state a; peer_verification_tag := peer_verification_tag a;
     peer_initial_tsn := peer_initial_tsn a; cumulative_peer_tsn := cumulative_peer_tsn a; next_tsn :=
     next_tsn a; outbound_cumulative_tsn := outbound_cumulative_tsn a; next_message_id := next_message_id
     a; next_reconfig_sequence := next_reconfig_sequence a; next_peer_reconfig_sequence := x;
     peer_outbound_streams := peer_outbound_streams a; channels := channels a; pending_data :=
     pending_data a; reassembly := reassembly a; outstanding := outstanding a; abandoned := abandoned a;
     pending_forward_tsn := pending_forward_tsn a; peer_forward_tsn_supported :=
     peer_forward_tsn_supported a |}.
Definition set_channels (x : gmap Z Channel) (a : Association) : Association :=
  {| config := config a; state := state a; peer_verification_tag := peer_verification_tag a;
     peer_initial_tsn := peer_initial_tsn a; cumulative_peer_tsn := cumulative_peer_tsn a; next_tsn :=
     next_tsn a; outbound_cumulative_tsn := outbound_cumulative_tsn a; next_message_id := next_message_id
     a; next_reconfig_sequence := next_reconfig_sequence a; next_peer_reconfig_sequence :=
     next_peer_reconfig_sequence a; peer_outbound_streams := peer_outbound_streams a; channels := x;
     pending_data := pending_data a; reassembly := reassembly a; outstanding := outstanding a; abandoned
     := abandoned a; pending_forward_tsn := pending_forward_tsn a; peer_forward_tsn_supported :=
     peer_forward_tsn_supported a |}.
Definition set_pending_data (x : gmap Z DataChunk) (a : Association) : Association :=
  {| config := config a; state := state a; peer_verification_tag := peer_verification_tag a;
     peer_initial_tsn := peer_initial_tsn a; cumulative_peer_tsn := cumulative_peer_tsn a; next_tsn :=
     next_tsn a; outbound_cumulative_tsn := outbound_cumulative_tsn a; next_message_id := next_message_id
     a; next_reconfig_sequence := next_reconfig_sequence a; next_peer_reconfig_sequence :=
     next_peer_reconfig_sequence a; peer_outbound_streams := peer_outbound_streams a; channels :=
     channels a; pending_data := x; reassembly := reassembly a; outstanding := outstanding a; abandoned
     := abandoned a; pending_forward_tsn := pending_forward_tsn a; peer_forward_tsn_supported :=
     peer_forward_tsn_supported a |}.
Definition set_reassembly (x : gmap Z Reassembly) (a : Association) : Association :=
  {| config := config a; state := state a; peer_verification_tag := peer_verification_tag a;
     peer_initial_tsn := peer_initial_tsn a; cumulative_peer_tsn := cumulative_peer_tsn a; next_tsn :=
     next_tsn a; outbound_cumulative_tsn := outbound_cumulative_tsn a; next_message_id := next_message_id
     a; next_reconfig_sequence := next_reconfig_sequence a; next_peer_reconfig_sequence :=
     next_peer_reconfig_sequence a; peer_outbound_streams := peer_outbound_streams a; channels :=
     channels a; pending_data := pending_data a; reassembly := x; outstanding := outstanding a; abandoned
     := abandoned a; pending_forward_tsn := pending_forward_tsn a; peer_forward_tsn_supported :=
     peer_forward_tsn_supported a |}.
Definition set_outstanding (x : gmap Z Outstanding) (a : Association) : Association :=
  {| config := config a; state := state a; peer_verification_tag := peer_verification_tag a;
     peer_initial_tsn := peer_initial_tsn a; cumulative_peer_tsn := cumulative_peer_tsn a; next_tsn :=
     next_tsn a; outbound_cumulative_tsn := outbound_cumulative_tsn a; next_message_id := next_message_id
     a; next_reconfig_sequence := next_reconfig_sequence a; next_peer_reconfig_sequence :=
     next_peer_reconfig_sequence a; peer_outbound_streams := peer_outbound_streams a; channels :=
     channels a; pending_data := pending_data a; reassembly := reassembly a; outstanding := x; abandoned
     := abandoned a; pending_forward_tsn := pending_forward_tsn a; peer_forward_tsn_supported :=
     peer_forward_tsn_supported a |}.
Definition set_abandoned (x : gmap Z Abandoned) (a : Association) : Association :=
  {| config := config a; state := state a; peer_verification_tag := peer_verification_tag a;
     peer_initial_tsn := peer_initial_tsn a; cumulative_peer_tsn := cumulative_peer_tsn a; next_tsn :=
     next_tsn a; outbound_cumulative_tsn := outbound_cumulative_tsn a; next_message_id := next_message_id
     a; next_reconfig_sequence := next_reconfig_sequence a; next_peer_reconfig_sequence :=
     next_peer_reconfig_sequence a; peer_outbound_streams := peer_outbound_streams a; channels :=
     channels a; pending_data := pending_data a; reassembly := reassembly a; outstanding := outstanding
     a; abandoned := x; pending_forward_tsn := pending_forward_tsn a; peer_forward_tsn_supported :=
     peer_forward_tsn_supported a |}.
Definition set_pending_forward_tsn (x : option PendingForwardTsn) (a : Association) : Association :=
  {| config := config a; state := state a; peer_verification_tag := peer_verification_tag a;
     peer_initial_tsn := peer_initial_tsn a; cumulative_peer_tsn := cumulative_peer_tsn a; next_tsn :=
     next_tsn a; outbound_cumulative_tsn := outbound_cumulative_tsn a; next_message_id := next_message_id
     a; next_reconfig_sequence := next_reconfig_sequence a; next_peer_reconfig_sequence :=
     next_peer_reconfig_sequence a; peer_outbound_streams := peer_outbound_streams a; channels :=
     channels a; pending_data := pending_data a; reassembly := reassembly a; outstanding := outstanding
     a; abandoned := abandoned a; pending_forward_tsn := x; peer_forward_tsn_supported :=
     peer_forward_tsn_supported a |}.

(** The literal of [Association::new]. *)
Definition fresh (c : AssociationConfig) : Association :=
  let next_tsn := initial_tsn c in
  {| config := c; state := Listen; peer_verification_tag := None; peer_initial_tsn := None;
     cumulative_peer_tsn := None; next_tsn := next_tsn;
     outbound_cumulative_tsn := wrapping_sub 32 next_tsn 1; next_message_id := 0;
     next_reconfig_sequence := next_tsn; next_peer_reconfig_sequence := None;
     peer_outbound_streams := 0; channels := ∅; pending_data := ∅; reassembly := ∅;
     outstanding := ∅; abandoned := ∅; pending_forward_tsn := None;
     peer_forward_tsn_supported := false |}.
Definition new (c : AssociationConfig) : outcome DataChannelError Association :=
  _ ← validate c; Ok (fresh c).

(** A [BTreeMap] is visited in the order of its keys. *)
Definition btree_keys {A} (m : gmap Z A) : list Z := merge_sort Z.le (map_to_list m).*1.
Definition btree_entries {A} (m : gmap Z A) : list (Z * A) :=
  omap (fun k => pair k <$> m !! k) (btree_keys m).

(** [HashMap::keys] visits the keys in an unspecified order. *)
Class KeyOrder := {
  hash_keys : gmap Z Channel -> list Z;
  hash_keys_perm m : hash_keys m ≡ₚ (map_to_list m).*1 }.

Abbreviation method := (prog Association DataChannelError).
(** A handler that also writes to [output: &mut AssociationOutput]. *)
Abbreviation handler := (prog (Association * AssociationOutput) DataChannelError).

Definition on_self {A} (m : method A) : handler A := fun s =>
  let '(a, r) := m s.1 in ((a, s.2), r).
Definition push_packet (p : bytes) : handler unit := modify (fun s =>
  (s.1, {| packets := packets s.2 ++ [p]; events := events s.2; retransmitted_packets := retransmitted_packets s.2 |})).
Definition push_packets (ps : list bytes) : handler unit := modify (fun s =>
  (s.1, {| packets := packets s.2 ++ ps; events := events s.2; retransmitted_packets := retransmitted_packets s.2 |})).
Definition push_event (e : AssociationEvent) : handler unit := modify (fun s =>
  (s.1, {| packets := packets s.2; events := events s.2 ++ [e]; retransmitted_packets := retransmitted_packets s.2 |})).
Definition check {A} (f : A -> bool) (e : DataChannelError) : prog A DataChannelError unit := fun s =>
  (s, reject_if (f s) e).
Definition try_gets {S A} (f : S -> outcome DataChannelError A) : prog S DataChannelError A := fun s => (s, f s).

(** ** Sending *)
Definition require_verification_tag (supplied : Z) : method unit :=
  check (fun a => negb (supplied =? verification_tag (config a))) InvalidVerificationTag.
Definition peer_tag (a : Association) : outcome DataChannelError Z :=
  ok_or (peer_verification_tag a) UnexpectedState.
Definition packet_with_chunk (a : Association) (tag kind flags : Z) (value : bytes)
    : outcome DataChannelError bytes :=
  build_packet (local_port (config a)) (remote_port (config a)) tag kind flags value.
(** [self.packet_with_chunk(self.peer_tag()?, ..)?] *)
Definition packet_to_peer (kind flags : Z) (value : bytes) : method bytes :=
  try_gets (fun a => tag ← peer_tag a; packet_with_chunk a tag kind flags value).

(** [payload.chunks(n)] *)
Fixpoint chunks_of (fuel : nat) (n : Z) (payload : bytes) : list bytes :=
  match fuel, payload with
  | S fuel, _ :: _ => take (Z.to_nat n) payload :: chunks_of fuel n (drop (Z.to_nat n) payload)
  | _, _ => []
  end.
Definition payload_chunks (n : Z) (payload : bytes) : list bytes := chunks_of (length payload) n payload.

Definition fragment_flags (ordered : bool) (index fragment_count : Z) : Z :=
  let flags := (if negb ordered then 1 else 0) * FLAG_DATA_UNORDERED in
  let flags := if index =? 0 then Z.lor flags FLAG_DATA_BEGIN else flags in
  if index + 1 =? fragment_count then Z.lor flags FLAG_DATA_END else flags.
Definition data_value (tsn : Z) (message : OutboundMessage) (fragment : bytes) : bytes :=
  to_be_bytes 4 tsn ++ to_be_bytes 2 (msg_stream_id message) ++
  to_be_bytes 2 (msg_stream_sequence message) ++ to_be_bytes 4 (msg_ppid message) ++ fragment.

(** [for (index, fragment) in fragments.into_iter().enumerate()] *)
Fixpoint enqueue_fragments (now : Duration) (message : OutboundMessage) (message_id fragment_count index : Z)
    (fragments : list bytes) : method (list bytes) :=
  match fragments with
  | [] => mret []
  | fragment :: fragments =>
      let flags := fragment_flags (msg_ordered message) index fragment_count in
      tsn ← gets next_tsn;
      _ ← modify (fun a => set_next_tsn (wrapping_add 32 (next_tsn a) 1) a);
      packet ← packet_to_peer TYPE_DATA flags (data_value tsn message fragment);
      _ ← modify (fun a => set_outstanding
        (<[tsn := {| out_packet := packet; out_message_id := message_id;
                     out_stream_id := msg_stream_id message;
                     out_stream_sequence := msg_stream_sequence message;
                     out_ordered := msg_ordered message;
                     out_reliability := msg_reliability message;
                     first_sent_at := now; sent_at := now; retransmissions := 0 |}]> (outstanding a)) a);
      packets ← enqueue_fragments now message message_id fragment_count (index + 1) fragments;
      mret (packet :: packets)
  end.
Definition enqueue_message (now : Duration) (message : OutboundMessage) (payload : bytes) : method (list bytes) :=
  let fragments := payload_chunks MAX_DATA_PAYLOAD payload in
  _ ← check (fun a =>
        let flight_span := saturating_sub (wrapping_sub 32 (next_tsn a) (outbound_cumulative_tsn a)) 1 in
        (MAX_OUTSTANDING <? saturating_add 64 (Z.of_nat (size (outstanding a))) (len fragments)) ||
        (MAX_OUTSTANDING <? saturating_add 64 flight_span (len fragments))) SendWindowFull;
  message_id ← gets next_message_id;
  _ ← modify (fun a => set_next_message_id (wrapping_add 64 (next_message_id a) 1) a);
  enqueue_fragments now message message_id (len fragments) 0 fragments.

Definition send_message (now : Duration) (stream_id : Z) (kind : MessageKind) (payload : bytes)
    : method (list bytes) :=
  _ ← check (fun a => negb (bool_decide (state a = Established))) AssociationNotEstablished;
  _ ← check (fun a => maximum_message_bytes (config a) <? len payload) MessageTooLarge;
  _ ← check (fun _ => bool_decide (kind = Text) && negb (from_utf8 payload)) InvalidUtf8;
  channel ← try_gets (fun a => ok_or (channels a !! stream_id) UnknownChannel);
  _ ← modify (fun a => set_channels
        (<[stream_id := {| channel_ordered := channel_ordered channel;
                           channel_reliability := channel_reliability channel;
                           next_outgoing_sequence := wrapping_add 16 (next_outgoing_sequence channel) 1 |}]>
          (channels a)) a);
  let '(ppid, wire_payload) :=
    match kind, bool_decide (payload = []) with
    | Text, false => (PPID_STRING, payload)
    | Binary, false => (PPID_BINARY, payload)
    | Text, true => (PPID_STRING_EMPTY, [0])
    | Binary, true => (PPID_BINARY_EMPTY, [0])
    end in
  enqueue_message now
    {| msg_stream_id := stream_id; msg_stream_sequence := next_outgoing_sequence channel; msg_ppid := ppid;
       msg_ordered := channel_ordered channel; msg_reliability := channel_reliability channel |} wire_payload.

(** ** Acknowledgements *)
Definition handle_sack (value : bytes) : method unit :=
  _ ← lift (reject_if (len value <? SACK_FIXED_LEN - 4) MalformedChunk);
  cumulative ← lift (read_u32 value 0);
  gap_count ← lift (read_u16 value 8);
  duplicate_count ← lift (read_u16 value 10);
  expected ← lift (ok_or (length ← checked_add 64 12 (saturating_mul 64 gap_count 4);
                          checked_add 64 length (saturating_mul 64 duplicate_count 4)) MalformedChunk);
  _ ← lift (reject_if (len value <? expected) MalformedChunk);
  _ ← modify (fun a =>
        if negb (sequence_less_or_equal cumulative (outbound_cumulative_tsn a))
        then set_outbound_cumulative_tsn cumulative a else a);
  _ ← modify (fun a => set_outstanding
        (filter (fun p => sequence_less_or_equal p.1 cumulative = false) (outstanding a)) a);
  _ ← modify (fun a => set_abandoned
        (filter (fun p => sequence_less_or_equal p.1 cumulative = false) (abandoned a)) a);
  _ ← modify (fun a =>
        if from_option (fun pending => sequence_less_or_equal (new_cumulative_tsn pending) cumulative) false
             (pending_forward_tsn a)
        then set_pending_forward_tsn None a else a);
  for_each (seqZ 0 gap_count) (fun index =>
    let offset := 12 + index * 4 in
    start ← lift (read_u16 value offset);
    end_ ← lift (read_u16 value (offset + 2));
    _ ← lift (reject_if ((start =? 0) || (end_ <? start)) MalformedChunk);
    modify (fun a => set_outstanding
      (foldl (fun m delta => delete (wrapping_add 32 cumulative delta) m) (outstanding a)
        (seqZ start (end_ - start + 1))) a)).

(** [deltas] folded into runs: the last run grows or a new one starts. *)
Definition push_gap (gaps : list (Z * Z)) (delta : Z) : list (Z * Z) :=
  match last gaps with
  | Some (start, end_) =>
      if delta =? saturating_add 16 end_ 1 then removelast gaps ++ [(start, delta)] else gaps ++ [(delta, delta)]
  | None => gaps ++ [(delta, delta)]
  end.
Definition sack_gaps (cumulative : Z) (pending : gmap Z DataChunk) : list (Z * Z) :=
  let deltas := omap (try_from 16) ((fun tsn => wrapping_sub 32 tsn cumulative) <$> (map_to_list pending).*1) in
  foldl push_gap [] (merge_sort Z.le deltas).
Definition sack_value (cumulative : Z) (gaps : list (Z * Z)) : bytes :=
  to_be_bytes 4 cumulative ++ to_be_bytes 4 DEFAULT_RECEIVE_WINDOW ++
  to_be_bytes 2 (default (umax 16) (try_from 16 (len gaps))) ++ to_be_bytes 2 0 ++
  concat ((fun g => to_be_bytes 2 g.1 ++ to_be_bytes 2 g.2) <$> gaps).
Definition build_sack : method bytes :=
  cumulative ← try_gets (fun a => ok_or (cumulative_peer_tsn a) UnexpectedState);
  gaps ← gets (fun a => sack_gaps cumulative (pending_data a));
  packet_to_peer TYPE_SACK 0 (sack_value cumulative gaps).

(** ** Partial reliability *)
(** [while next != self.next_tsn]: the TSN after the last one that is settled, whether an
    abandoned one was seen, and the highest abandoned sequence of each ordered stream. *)
Fixpoint forward_scan (fuel : nat) (a : Association) (next : Z) (saw_abandoned : bool) (skipped : gmap Z Z)
    : outcome DataChannelError (Z * bool * gmap Z Z) :=
  if next =? next_tsn a then Ok (next, saw_abandoned, skipped)
  else match fuel with
  | O => Diverge
  | S fuel =>
      match outstanding a !! next with
      | Some _ => Ok (next, saw_abandoned, skipped)
      | None =>
          match abandoned a !! next with
          | Some ab => forward_scan fuel a (wrapping_add 32 next 1) true
              (if ab_ordered ab then <[ab_stream_id ab := ab_stream_sequence ab]> skipped else skipped)
          | None => forward_scan fuel a (wrapping_add 32 next 1) saw_abandoned skipped
          end
      end
  end.
Definition forward_value (cumulative : Z) (streams : list (Z * Z)) : bytes :=
  to_be_bytes 4 cumulative ++ concat ((fun s => to_be_bytes 2 s.1 ++ to_be_bytes 2 s.2) <$> streams).
Definition build_forward_tsn (now : Duration) : method (option bytes) :=
  '(next, saw_abandoned, skipped) ← try_gets (fun a =>
    let next := wrapping_add 32 (outbound_cumulative_tsn a) 1 in
    forward_scan (Z.to_nat (wrapping_sub 32 (next_tsn a) next)) a next false ∅);
  if negb saw_abandoned then mret None
  else
    let cumulative := wrapping_sub 32 next 1 in
    let streams := btree_entries skipped in
    should_send ← gets (fun a => from_option (fun pending =>
        negb (new_cumulative_tsn pending =? cumulative) ||
        negb (bool_decide (skipped_streams pending = streams)) ||
        (RETRANSMIT_AFTER <=? saturating_sub now (fwd_sent_at pending))) true (pending_forward_tsn a));
    if negb should_send then mret None
    else
      packet ← packet_to_peer TYPE_FORWARD_TSN 0 (forward_value cumulative streams);
      _ ← modify (set_pending_forward_tsn
            (Some {| new_cumulative_tsn := cumulative; skipped_streams := streams; fwd_sent_at := now |}));
      mret (Some packet).

(** ** The timer *)
Definition should_abandon (now : Duration) (o : Outstanding) : bool :=
  let overdue := RETRANSMIT_AFTER <=? saturating_sub now (sent_at o) in
  match out_reliability o with
  | Reliable => false
  | MaxRetransmissions maximum => overdue && (maximum <=? retransmissions o)
  | MaxPacketLifetime lifetime => lifetime <=? saturating_sub now (first_sent_at o)
  end.
Definition retransmit (now : Duration) (o : Outstanding) : Outstanding :=
  {| out_packet := out_packet o; out_message_id := out_message_id o; out_stream_id := out_stream_id o;
     out_stream_sequence := out_stream_sequence o; out_ordered := out_ordered o;
     out_reliability := out_reliability o; first_sent_at := first_sent_at o; sent_at := now;
     retransmissions := saturating_add 32 (retransmissions o) 1 |}.
(** [for (tsn, outstanding) in &mut self.outstanding] *)
Fixpoint tick_scan (now : Duration) (tsns : list Z) (a : Association) (output : AssociationOutput)
    (abandoned_messages : gmap Z (Z * Z)) : Association * AssociationOutput * gmap Z (Z * Z) :=
  match tsns with
  | [] => (a, output, abandoned_messages)
  | tsn :: tsns =>
      match outstanding a !! tsn with
      | None => tick_scan now tsns a output abandoned_messages
      | Some o =>
          let overdue := RETRANSMIT_AFTER <=? saturating_sub now (sent_at o) in
          if should_abandon now o then
            tick_scan now tsns a output
              (match abandoned_messages !! out_message_id o with
               | Some _ => abandoned_messages
               | None => <[out_message_id o := (out_stream_id o, out_stream_sequence o)]> abandoned_messages
               end)
          else if negb overdue then tick_scan now tsns a output abandoned_messages
          else if bool_decide (out_reliability o = Reliable) && (MAX_RETRANSMISSIONS <=? retransmissions o) then
            (set_state Failed a,
             {| packets := packets output; events := events output ++ [DeliveryFailed tsn];
                retransmitted_packets := retransmitted_packets output |}, abandoned_messages)
          else
            tick_scan now tsns (set_outstanding (<[tsn := retransmit now o]> (outstanding a)) a)
              {| packets := packets output ++ [out_packet o]; events := events output;
                 retransmitted_packets := saturating_add 64 (retransmitted_packets output) 1 |}
              abandoned_messages
      end
  end.
Definition abandon_tsn (a : Association) (tsn : Z) : Association :=
  match outstanding a !! tsn with
  | None => a
  | Some o =>
      set_abandoned (<[tsn := {| ab_stream_id := out_stream_id o; ab_stream_sequence := out_stream_sequence o;
                                 ab_ordered := out_ordered o |}]> (abandoned a))
        (set_outstanding (delete tsn (outstanding a)) a)
  end.
Definition abandon_message (s : Association * AssociationOutput) (m : Z * (Z * Z)) : Association * AssociationOutput :=
  let '(a, output) := s in let '(message_id, (stream_id, stream_sequence)) := m in
  let tsns := omap (fun p => if out_message_id p.2 =? message_id then Some p.1 else None)
                (btree_entries (outstanding a)) in
  (foldl abandon_tsn a tsns,
   {| packets := packets output; events := events output ++ [MessageAbandoned stream_id stream_sequence];
      retransmitted_packets := retransmitted_packets output |}).
Definition tick (now : Duration) : method AssociationOutput := fun a =>
  if negb (bool_decide (state a = Established)) then (a, Ok default_output)
  else
    let '(a, output, abandoned_messages) :=
      tick_scan now (btree_keys (outstanding a)) a default_output ∅ in
    if bool_decide (state a = Failed) then (a, Ok output)
    else
      let '(a, output) := foldl abandon_message (a, output) (btree_entries abandoned_messages) in
      if peer_forward_tsn_supported a then
        match build_forward_tsn now a with
        | (a, Ok (Some packet)) =>
            (a, Ok {| packets := packets output ++ [packet]; events := events output;
                      retransmitted_packets := retransmitted_packets output |})
        | (a, Ok None) | (a, Err _) => (a, Ok output)
        | (a, Panic) => (a, Panic)
        | (a, Diverge) => (a, Diverge)
        end
      else (a, Ok output).

(** ** Handshake *)
Definition accept_init (peer_tag outbound_streams initial : Z) (forward_tsn : bool) (a : Association) : Association :=
  {| config := config a; state := CookieWait; peer_verification_tag := Some peer_tag;
     peer_initial_tsn := Some initial; cumulative_peer_tsn := Some (wrapping_sub 32 initial 1);
     next_tsn := initial_tsn (config a);
     outbound_cumulative_tsn := wrapping_sub 32 (initial_tsn (config a)) 1; next_message_id := 0;
     next_reconfig_sequence := initial_tsn (config a); next_peer_reconfig_sequence := Some initial;
     peer_outbound_streams := outbound_streams; channels := ∅; pending_data := ∅; reassembly := ∅;
     outstanding := ∅; abandoned := ∅; pending_forward_tsn := None;
     peer_forward_tsn_supported := forward_tsn |}.
Definition init_ack_value (a : Association) (inbound_streams : Z) : outcome DataChannelError bytes :=
  let streams := Z.max (Z.min (default (umax 16) (try_from 16 (maximum_channels (config a)))) inbound_streams) 1 in
  let init_ack := to_be_bytes 4 (verification_tag (config a)) ++ to_be_bytes 4 DEFAULT_RECEIVE_WINDOW ++
    to_be_bytes 2 streams ++ to_be_bytes 2 streams ++ to_be_bytes 4 (initial_tsn (config a)) in
  init_ack ← push_parameter PARAMETER_STATE_COOKIE (cookie (config a)) init_ack;
  if peer_forward_tsn_supported a then push_parameter PARAMETER_FORWARD_TSN_SUPPORTED [] init_ack
  else Ok init_ack.
Definition handle_init (tag : Z) (value : bytes) : handler unit :=
  _ ← lift (reject_if (negb (tag =? 0) || (len value <? INIT_FIXED_LEN - CHUNK_HEADER_LEN)) MalformedChunk);
  peer_tag ← lift (read_u32 value 0);
  outbound_streams ← lift (read_u16 value 8);
  inbound_streams ← lift (read_u16 value 10);
  initial ← lift (read_u32 value 12);
  _ ← lift (reject_if ((peer_tag =? 0) || (outbound_streams =? 0) || (inbound_streams =? 0)) MalformedChunk);
  tail ← lift (index_range value 16 (len value));
  parameters ← lift (parse_parameters tail);
  let forward_tsn := existsb (fun p =>
    (param_kind p =? PARAMETER_FORWARD_TSN_SUPPORTED) && bool_decide (param_value p = [])) parameters in
  _ ← on_self (modify (accept_init peer_tag outbound_streams initial forward_tsn));
  init_ack ← on_self (try_gets (fun a => init_ack_value a inbound_streams));
  packet ← on_self (try_gets (fun a => packet_with_chunk a peer_tag TYPE_INIT_ACK 0 init_ack));
  push_packet packet.
Definition handle_cookie_echo (tag : Z) (supplied : bytes) : handler unit :=
  _ ← on_self (check (fun a => negb (bool_decide (state a = CookieWait))) UnexpectedState);
  _ ← on_self (require_verification_tag tag);
  _ ← on_self (check (fun a => negb (constant_time_equal supplied (cookie (config a)))) InvalidCookie);
  _ ← on_self (modify (set_state Established));
  packet ← on_self (packet_to_peer TYPE_COOKIE_ACK 0 []);
  _ ← push_packet packet;
  push_event EvEstablished.

(** ** Receiving *)
(** [while let Some(data) = self.pending_data.remove(&next)] *)
Fixpoint drain (fuel : nat) (next : Z) (deliverable : list DataChunk) : method (list DataChunk) := fun a =>
  match pending_data a !! next with
  | None => (a, Ok deliverable)
  | Some data =>
      match fuel with
      | O => (a, Diverge)
      | S fuel =>
          drain fuel (wrapping_add 32 next 1) (deliverable ++ [data])
            (set_cumulative_peer_tsn (Some next) (set_pending_data (delete next (pending_data a)) a))
      end
  end.
Definition accept_data (data : DataChunk) : method (list DataChunk) :=
  cumulative ← try_gets (fun a => ok_or (cumulative_peer_tsn a) UnexpectedState);
  let delta := wrapping_sub 32 (data_tsn data) cumulative in
  if (delta =? 0) || (Z.shiftl 1 31 <=? delta) then mret []
  else
    _ ← lift (reject_if (MAX_PENDING_TSN <? delta) ReceiveWindowExceeded);
    _ ← check (fun a => (MAX_PENDING_TSN <=? Z.of_nat (size (pending_data a))) &&
                        negb (bool_decide (is_Some (pending_data a !! data_tsn data)))) ReceiveWindowExceeded;
    _ ← modify (fun a => match pending_data a !! data_tsn data with
                         | Some _ => a
                         | None => set_pending_data (<[data_tsn data := data]> (pending_data a)) a
                         end);
    fuel ← gets (fun a => size (pending_data a));
    drain fuel (wrapping_add 32 cumulative 1) [].
Definition reassemble (data : DataChunk) (begin_ end_ : bool) : method (option bytes) :=
  _ ← modify (fun a => if begin_ then set_reassembly
        (<[data_stream_id data := {| asm_stream_sequence := data_stream_sequence data; asm_ppid := data_ppid data;
                                     asm_payload := [] |}]> (reassembly a)) a else a);
  assembly ← try_gets (fun a => ok_or (reassembly a !! data_stream_id data) InvalidFragmentSequence);
  _ ← lift (reject_if (negb (asm_stream_sequence assembly =? data_stream_sequence data) ||
                       negb (asm_ppid assembly =? data_ppid data)) InvalidFragmentSequence);
  maximum ← gets (fun a => maximum_message_bytes (config a));
  if maximum <? saturating_add 64 (len (asm_payload assembly)) (len (data_payload data)) then
    _ ← modify (fun a => set_reassembly (delete (data_stream_id data) (reassembly a)) a);
    fail MessageTooLarge
  else
    let payload := asm_payload assembly ++ data_payload data in
    _ ← modify (fun a => set_reassembly
          (<[data_stream_id data := {| asm_stream_sequence := asm_stream_sequence assembly;
                                       asm_ppid := asm_ppid assembly; asm_payload := payload |}]> (reassembly a)) a);
    if end_ then
      _ ← modify (fun a => set_reassembly (delete (data_stream_id data) (reassembly a)) a);
      mret (Some payload)
    else mret None.

(** The delivery policy that a DCEP OPEN asks for. *)
Definition dcep_reliability (channel_type parameter : Z) (forward_tsn : bool) : option (bool * ChannelReliability) :=
  if channel_type =? 0x00 then Some (true, Reliable)
  else if channel_type =? 0x80 then Some (false, Reliable)
  else if ((channel_type =? 0x01) || (channel_type =? 0x81)) && forward_tsn &&
          (parameter <=? MAX_PARTIAL_RETRANSMISSIONS)
  then Some (channel_type =? 0x01, MaxRetransmissions parameter)
  else if ((channel_type =? 0x02) || (channel_type =? 0x82)) && forward_tsn &&
          (from_millis parameter <=? MAX_PARTIAL_LIFETIME)
  then Some (channel_type =? 0x02, MaxPacketLifetime (from_millis parameter))
  else None.
Definition handle_dcep (now : Duration) (stream_id : Z) (payload : bytes) : handler unit :=
  _ ← on_self (check (fun a =>
        negb (bool_decide (get payload 0 = Some DCEP_OPEN)) || (len payload <? 12) || negb (stream_id mod 2 =? 0) ||
        bool_decide (is_Some (channels a !! stream_id)) ||
        (maximum_channels (config a) <=? Z.of_nat (size (channels a)))) InvalidDcep);
  channel_type ← lift (index payload 1);
  reliability_parameter ← lift (read_u32 payload 4);
  '(ordered, reliability) ← on_self (try_gets (fun a =>
    ok_or (dcep_reliability channel_type reliability_parameter (peer_forward_tsn_supported a)) InvalidDcep));
  label_length ← lift (read_u16 payload 8);
  protocol_length ← lift (read_u16 payload 10);
  expected ← lift (ok_or (length ← checked_add 64 12 label_length; checked_add 64 length protocol_length)
                     MessageTooLarge);
  _ ← lift (reject_if (negb (expected =? len payload) || (1024 <? label_length) || (1024 <? protocol_length))
              InvalidDcep);
  label ← lift (index_range payload 12 (12 + label_length));
  _ ← lift (reject_if (negb (from_utf8 label)) InvalidUtf8);
  protocol ← lift (index_range payload (12 + label_length) (len payload));
  _ ← lift (reject_if (negb (from_utf8 protocol)) InvalidUtf8);
  _ ← on_self (modify (fun a => set_channels
        (<[stream_id := {| channel_ordered := ordered; channel_reliability := reliability;
                           next_outgoing_sequence := 0 |}]> (channels a)) a));
  acknowledgement ← on_self (enqueue_message now
    {| msg_stream_id := stream_id; msg_stream_sequence := 0; msg_ppid := PPID_DCEP; msg_ordered := true;
       msg_reliability := Reliable |} [DCEP_ACK]);
  _ ← push_packets acknowledgement;
  push_event (ChannelOpened stream_id label protocol ordered reliability).
Definition handle_user_message (stream_id ppid : Z) (payload : bytes) : handler unit :=
  _ ← on_self (check (fun a => negb (bool_decide (is_Some (channels a !! stream_id)))) UnknownChannel);
  kind ← (if (ppid =? PPID_STRING) || (ppid =? PPID_STRING_EMPTY) then mret Text
          else if (ppid =? PPID_BINARY) || (ppid =? PPID_BINARY_EMPTY) then mret Binary
          else fail (UnsupportedPpid ppid));
  let payload := if (ppid =? PPID_STRING_EMPTY) || (ppid =? PPID_BINARY_EMPTY) then [] else payload in
  _ ← lift (reject_if (bool_decide (kind = Text) && negb (from_utf8 payload)) InvalidUtf8);
  _ ← on_self (check (fun a => maximum_message_bytes (config a) <? len payload) MessageTooLarge);
  push_event (Message stream_id kind payload).
Definition process_data_message (now : Duration) (data : DataChunk) : handler unit :=
  _ ← on_self (check (fun a => peer_outbound_streams a <=? data_stream_id data) UnknownChannel);
  let begin_ := negb (Z.land (data_flags data) FLAG_DATA_BEGIN =? 0) in
  let end_ := negb (Z.land (data_flags data) FLAG_DATA_END =? 0) in
  payload ← (if begin_ && end_ then mret (data_payload data)
             else assembled ← on_self (reassemble data begin_ end_); mret (default [] assembled));
  if negb end_ then mret tt
  else if data_ppid data =? PPID_DCEP then handle_dcep now (data_stream_id data) payload
  else if (data_ppid data =? PPID_STRING) || (data_ppid data =? PPID_BINARY) ||
          (data_ppid data =? PPID_STRING_EMPTY) || (data_ppid data =? PPID_BINARY_EMPTY)
  then handle_user_message (data_stream_id data) (data_ppid data) payload
  else fail (UnsupportedPpid (data_ppid data)).
Definition parse_data (flags : Z) (value : bytes) : outcome DataChannelError DataChunk :=
  tsn ← read_u32 value 0;
  stream_id ← read_u16 value 4;
  stream_sequence ← read_u16 value 6;
  ppid ← read_u32 value 8;
  payload ← index_range value 12 (len value);
  Ok {| data_flags := flags; data_tsn := tsn; data_stream_id := stream_id;
        data_stream_sequence := stream_sequence; data_ppid := ppid; data_payload := payload |}.
Definition handle_data (now : Duration) (flags : Z) (value : bytes) : handler unit :=
  _ ← on_self (check (fun a => negb (bool_decide (state a = Established)) || (len value <? DATA_FIXED_LEN - 4))
        UnexpectedState);
  data ← lift (parse_data flags value);
  deliverable ← on_self (accept_data data);
  _ ← for_each deliverable (process_data_message now);
  sack ← on_self build_sack;
  push_packet sack.

(** [for offset in (4..value.len()).step_by(4)] *)
Definition skip_streams (value : bytes) : method unit :=
  for_each ((fun i => 4 + i * 4) <$> seqZ 0 ((len value - 4 + 3) / 4)) (fun offset =>
    stream_id ← lift (read_u16 value offset);
    stream_sequence ← lift (read_u16 value (offset + 2));
    modify (fun a => match reassembly a !! stream_id with
                     | Some assembly =>
                         if sequence_less_or_equal_u16 (asm_stream_sequence assembly) stream_sequence
                         then set_reassembly (delete stream_id (reassembly a)) a else a
                     | None => a
                     end)).
(** The loop at the end of [handle_forward_tsn]: a chunk leaves the buffer, is processed, and
    only then counts as received. *)
Fixpoint drain_processing (fuel : nat) (now : Duration) (next : Z) : handler unit := fun s =>
  match pending_data s.1 !! next with
  | None => (s, Ok tt)
  | Some data =>
      match fuel with
      | O => (s, Diverge)
      | S fuel =>
          (_ ← process_data_message now data;
           _ ← on_self (modify (set_cumulative_peer_tsn (Some next)));
           drain_processing fuel now (wrapping_add 32 next 1))
            (set_pending_data (delete next (pending_data s.1)) s.1, s.2)
      end
  end.
Definition handle_forward_tsn (now : Duration) (value : bytes) : handler unit :=
  _ ← on_self (check (fun a =>
        negb (bool_decide (state a = Established)) || negb (peer_forward_tsn_supported a) || (len value <? 4) ||
        negb ((len value - 4) mod 4 =? 0)) MalformedChunk);
  cumulative ← lift (read_u32 value 0);
  current ← on_self (try_gets (fun a => ok_or (cumulative_peer_tsn a) UnexpectedState));
  if sequence_less_or_equal cumulative current then
    sack ← on_self build_sack;
    push_packet sack
  else
    _ ← on_self (skip_streams value);
    _ ← on_self (modify (fun a => set_pending_data
          (filter (fun p => sequence_less_or_equal p.1 cumulative = false) (pending_data a)) a));
    _ ← on_self (modify (set_cumulative_peer_tsn (Some cumulative)));
    fuel ← on_self (gets (fun a => size (pending_data a)));
    _ ← drain_processing fuel now (wrapping_add 32 cumulative 1);
    sack ← on_self build_sack;
    push_packet sack.

(** ** Stream resets *)
Section Association.
Context {key_order : KeyOrder}.

Definition close_streams (streams : option (list Z)) : handler unit :=
  stream_ids ← on_self (gets (fun a => match streams with Some ids => ids | None => hash_keys (channels a) end));
  for_each stream_ids (fun stream_id =>
    channel ← on_self (gets (fun a => channels a !! stream_id));
    _ ← on_self (modify (fun a => set_channels (delete stream_id (channels a)) a));
    if bool_decide (is_Some channel) then
      _ ← on_self (modify (fun a => set_reassembly (delete stream_id (reassembly a)) a));
      push_event (ChannelClosed stream_id)
    else mret tt).

Definition handle_outgoing_reset (value response : bytes) : handler bytes :=
  _ ← lift (reject_if ((len value <? 12) || negb ((len value - 12) mod 2 =? 0)) MalformedChunk);
  request_sequence ← lift (read_u32 value 0);
  expected ← on_self (try_gets (fun a => ok_or (next_peer_reconfig_sequence a) UnexpectedState));
  result ← (if request_sequence =? expected then
      _ ← on_self (modify (set_next_peer_reconfig_sequence (Some (wrapping_add 32 expected 1))));
      listed ← lift (index_range value 12 (len value));
      streams ← on_self (try_gets (fun a => parse_stream_numbers listed (peer_outbound_streams a)));
      _ ← close_streams streams;
      mret RECONFIG_SUCCESS_PERFORMED
    else mret RECONFIG_ERROR_BAD_SEQUENCE);
  lift (push_parameter PARAMETER_RECONFIG_RESPONSE (to_be_bytes 4 request_sequence ++ to_be_bytes 4 result) response).

Definition handle_incoming_reset (value response : bytes) : handler bytes :=
  _ ← lift (reject_if ((len value <? 4) || negb ((len value - 4) mod 2 =? 0)) MalformedChunk);
  peer_request_sequence ← lift (read_u32 value 0);
  expected ← on_self (try_gets (fun a => ok_or (next_peer_reconfig_sequence a) UnexpectedState));
  if negb (peer_request_sequence =? expected) then
    lift (push_parameter PARAMETER_RECONFIG_RESPONSE
            (to_be_bytes 4 peer_request_sequence ++ to_be_bytes 4 RECONFIG_ERROR_BAD_SEQUENCE) response)
  else
    _ ← on_self (modify (set_next_peer_reconfig_sequence (Some (wrapping_add 32 expected 1))));
    listed ← lift (index_range value 4 (len value));
    streams ← on_self (try_gets (fun a => parse_stream_numbers listed (peer_outbound_streams a)));
    _ ← close_streams streams;
    outgoing ← on_self (gets (fun a =>
      to_be_bytes 4 (next_reconfig_sequence a) ++ to_be_bytes 4 peer_request_sequence ++
      to_be_bytes 4 (wrapping_sub 32 (next_tsn a) 1) ++ concat (to_be_bytes 2 <$> default [] streams)));
    _ ← on_self (modify (fun a => set_next_reconfig_sequence (wrapping_add 32 (next_reconfig_sequence a) 1) a));
    lift (push_parameter PARAMETER_OUTGOING_RESET outgoing response).

(** [for parameter in parameters], left by [break] on an unknown kind. *)
Fixpoint reconfigure (parameters : list SctpParameter) (response : bytes) : handler bytes :=
  match parameters with
  | [] => mret response
  | parameter :: parameters =>
      if param_kind parameter =? PARAMETER_OUTGOING_RESET then
        response ← handle_outgoing_reset (param_value parameter) response; reconfigure parameters response
      else if param_kind parameter =? PARAMETER_INCOMING_RESET then
        response ← handle_incoming_reset (param_value parameter) response; reconfigure parameters response
      else if param_kind parameter =? PARAMETER_RECONFIG_RESPONSE then
        _ ← lift (reject_if (negb ((len (param_value parameter) =? 8) || (len (param_value parameter) =? 16)))
                    MalformedChunk);
        reconfigure parameters response
      else mret response
  end.
Definition handle_reconfiguration (value : bytes) : handler unit :=
  _ ← on_self (check (fun a => negb (bool_decide (state a = Established)) || bool_decide (value = [])) UnexpectedState);
  parameters ← lift (parse_parameters value);
  _ ← lift (reject_if (bool_decide (parameters = []) || (2 <? len parameters)) MalformedChunk);
  response ← reconfigure parameters [];
  if bool_decide (response = []) then mret tt
  else
    packet ← on_self (packet_to_peer TYPE_RE_CONFIG 0 response);
    push_packet packet.

(** ** Packets *)
(** One turn of the loop in [handle_packet]. *)
Definition handle_chunk (now : Duration) (tag : Z) (chunk : ParsedChunk) : handler unit :=
  let kind := chunk_kind chunk in let value := chunk_value chunk in
  if kind =? TYPE_INIT then handle_init tag value
  else if kind =? TYPE_COOKIE_ECHO then handle_cookie_echo tag value
  else if kind =? TYPE_DATA then
    _ ← on_self (require_verification_tag tag); handle_data now (chunk_flags chunk) value
  else if kind =? TYPE_SACK then
    _ ← on_self (require_verification_tag tag); on_self (handle_sack value)
  else if kind =? TYPE_HEARTBEAT then
    _ ← on_self (require_verification_tag tag);
    packet ← on_self (packet_to_peer TYPE_HEARTBEAT_ACK 0 value); push_packet packet
  else if kind =? TYPE_ABORT then
    _ ← on_self (modify (set_state Closed)); push_event EvClosed
  else if kind =? TYPE_SHUTDOWN then
    _ ← on_self (require_verification_tag tag);
    _ ← on_self (modify (set_state Closed));
    packet ← on_self (packet_to_peer TYPE_SHUTDOWN_ACK 0 []);
    _ ← push_packet packet;
    push_event EvClosed
  else if kind =? TYPE_RE_CONFIG then
    _ ← on_self (require_verification_tag tag); handle_reconfiguration value
  else if kind =? TYPE_FORWARD_TSN then
    _ ← on_self (require_verification_tag tag); handle_forward_tsn now value
  else mret tt.

(** A local [output] that is returned on success. *)
Definition with_output (m : handler unit) : method AssociationOutput := fun a =>
  let '((a', output), r) := m (a, default_output) in (a', _ ← r; Ok output).
Definition handle_packet (now : Duration) (packet : bytes) : method AssociationOutput :=
  parsed ← lift (parse_packet packet);
  _ ← check (fun a => negb (source_port parsed =? remote_port (config a)) ||
                      negb (destination_port parsed =? local_port (config a))) UnexpectedPort;
  with_output (for_each (packet_chunks parsed) (handle_chunk now (packet_tag parsed))).
End Association.
