(* ===== verification/SctpInvariant.v ===== *)
(** * webrtc/data-channel: the resource invariant of an association

    What an association holds is bounded whatever a peer sends: the reorder buffer, the
    reassembly buffers, the channels, the chunks in flight and the abandoned ones. *)
From stdpp Require Import sorting fin_maps fin_map_dom.
From S2P Require Import Prelude Words Slices RustStd SctpPacket SctpAssociation.
From S2P Require RtpRewrite.

(** ** Serial arithmetic *)
Definition dist (a b : Z) : Z := wrapping_sub 32 a b.

Definition data_ok (d : DataChunk) : Prop :=
  u32 (data_tsn d) /\ u16 (data_stream_id d) /\ rust_slice (data_payload d).

(** A key of the reorder buffer lies in the window after the last TSN received in order. *)
Definition pending_ok (cumulative : option Z) (pending : gmap Z DataChunk) : Prop :=
  map_Forall (fun tsn data => data_ok data /\ data_tsn data = tsn /\
    exists c, cumulative = Some c /\ 1 <= dist tsn c <= MAX_PENDING_TSN) pending.
(** A TSN in flight was sent recently and lies after the cumulative acknowledgement. *)
Definition flight_ok (next cumulative tsn : Z) : Prop :=
  u32 tsn /\ 1 <= dist next tsn <= 257 /\ (tsn = cumulative \/ 2 ^ 31 <= dist cumulative tsn).
Definition window_ok {A} (next cumulative : Z) (m : gmap Z A) : Prop :=
  map_Forall (fun tsn _ => flight_ok next cumulative tsn) m.

Definition config_ok (c : AssociationConfig) : Prop :=
  validate c = Ok tt /\ u16 (local_port c) /\ u16 (remote_port c) /\ u32 (verification_tag c) /\
  u32 (initial_tsn c) /\ bytes_ok (cookie c).

(** ** Counting *)
(** Keys within [n] steps after [c] are at most [n]. *)
Lemma window_size {A} (m : gmap Z A) (f : Z -> Z) (n : nat) :
  (forall k x, m !! k = Some x -> 1 <= f k <= Z.of_nat n) ->
  (forall k k' x x', m !! k = Some x -> m !! k' = Some x' -> f k = f k' -> k = k') ->
  (size m <= n)%nat.
Proof.
  intros Hr Hi. rewrite <- length_map_to_list.
  assert (f <$> (map_to_list m).*1 ⊆+ seqZ 1 (Z.of_nat n)) as H%submseteq_length.
  { apply NoDup_submseteq.
    - apply NoDup_fmap_2_strong; [|apply NoDup_fst_map_to_list].
      intros k k' ([? x] & -> & Hx)%list_elem_of_fmap ([? x'] & -> & Hx')%list_elem_of_fmap.
      apply elem_of_map_to_list in Hx, Hx'. by eapply Hi.
    - intros y (k & -> & ([? x] & -> & Hx%elem_of_map_to_list)%list_elem_of_fmap)%list_elem_of_fmap.
      apply elem_of_seqZ. specialize (Hr _ _ Hx). cbn in *. lia. }
  rewrite !length_fmap, length_seqZ in H. lia.
Qed.

Ltac serial :=
  unfold dist, MAX_PENDING_TSN, wrapping_sub, wrapping_add in *;
  change (2 ^ 32) with 4294967296 in *; change (2 ^ 31) with 2147483648 in *;
  change (Z.shiftl 1 31) with 2147483648 in *; zdiv.

Section Serial.
Context (n c t u : Z) (Hn : u32 n) (Hc : u32 c) (Ht : u32 t) (Hu : u32 u).

Lemma dist_inj_l : dist t c = dist u c -> t = u.
Proof. clear - Hc Ht Hu. serial. Qed.
Lemma dist_inj_r : dist c t = dist c u -> t = u.
Proof. clear - Hc Ht Hu. serial. Qed.

(** One more TSN sent while the window has room. *)
Lemma flight_advance : dist n c <= 256 -> flight_ok n c t -> flight_ok (wrapping_add 32 n 1) c t.
Proof. clear u Hu. unfold flight_ok. intros H (_ & H1 & H2). split; [done|]; serial. Qed.
Lemma flight_insert : dist n c <= 256 -> flight_ok (wrapping_add 32 n 1) c n.
Proof. clear t Ht u Hu. unfold flight_ok. intros H. split_and!; serial. Qed.
(** The acknowledgement moves: what it does not cover stays in the window. *)
Lemma flight_ack : sequence_less_or_equal t u = false -> flight_ok n c t -> flight_ok n u t.
Proof.
  clear Hn Hc Hu. unfold flight_ok, sequence_less_or_equal. intros H%Z.ltb_ge (_ & H1 & _).
  split; [done|]. split; [done|]. right. exact H.
Qed.

(** The in-order point moves to [u]: what lies after it stays in the reorder window. *)
Lemma pending_forward : sequence_less_or_equal u c = false -> sequence_less_or_equal t u = false ->
  1 <= dist t c <= MAX_PENDING_TSN -> 1 <= dist t u <= MAX_PENDING_TSN.
Proof. clear n Hn. unfold sequence_less_or_equal. intros ?%Z.ltb_ge ?%Z.ltb_ge ?. serial. Qed.
Lemma pending_next : t <> wrapping_add 32 c 1 -> 1 <= dist t c <= MAX_PENDING_TSN ->
  1 <= dist t (wrapping_add 32 c 1) <= MAX_PENDING_TSN.
Proof. clear n Hn u Hu. intros. serial. Qed.
End Serial.

(** ** Triples of methods and handlers *)
Section MethodRules.
Context {S : Type} (I : S -> Prop).
Lemma triple_check (P : S -> Prop) f e : (forall s, P s -> I s) ->
  triple I P (check f e) (fun _ s => P s /\ f s = false).
Proof. intros HI s HP. unfold check, reject_if. cbn. destruct (f s) eqn:?; auto. Qed.
Lemma triple_try_gets {A} (P : S -> Prop) (f : S -> outcome DataChannelError A) : (forall s, P s -> I s) ->
  (forall s, P s -> returns (f s)) -> triple I P (try_gets f) (fun a s => P s /\ f s = Ok a).
Proof. intros HI Hr s HP. unfold try_gets. specialize (Hr s HP). destruct (f s) eqn:?; cbn; auto. Qed.
End MethodRules.

(** A predicate on the association, seen from a handler. *)
Definition inside (P : Association -> Prop) (s : Association * AssociationOutput) : Prop := P s.1.

Section HandlerRules.
Context (I : Association -> Prop).
Lemma triple_on_self {A} P (m : method A) Q : triple I P m Q ->
  triple (inside I) (inside P) (on_self m) (fun a => inside (Q a)).
Proof.
  intros Hm [a o] HP. specialize (Hm a HP). unfold on_self, inside in *. cbn in *.
  destruct (m a) as [a' [x|e| |]]; done.
Qed.
Lemma triple_hlift {A} P (o : outcome DataChannelError A) : (forall s, P s -> I s) -> returns o ->
  triple (inside I) (inside P) (lift o) (fun a => inside (fun s => P s /\ o = Ok a)).
Proof. intros HI. apply (triple_lift (inside I) (inside P)). intros s. apply HI. Qed.
Lemma triple_push_packet P p : triple (inside I) (inside P) (push_packet p) (fun _ => inside P).
Proof. by intros s ?. Qed.
Lemma triple_push_packets P ps : triple (inside I) (inside P) (push_packets ps) (fun _ => inside P).
Proof. by intros s ?. Qed.
Lemma triple_push_event P e : triple (inside I) (inside P) (push_event e) (fun _ => inside P).
Proof. by intros s ?. Qed.
End HandlerRules.

(** ** Calls that come back *)
Lemma returns_build_packet s d t k f value : returns (build_packet s d t k f value).
Proof. rewrite build_packet_spec. by case_match. Qed.
Lemma returns_push_parameter kind value output : returns (push_parameter kind value output).
Proof. unfold push_parameter. returns_steps. Qed.
Lemma returns_read_u16 input p : returns (read_u16 input p).
Proof. apply returns_read_be. Qed.
Lemma returns_read_u32 input p : returns (read_u32 input p).
Proof. apply returns_read_be. Qed.
#[export] Hint Resolve returns_build_packet returns_push_parameter returns_read_u16 returns_read_u32 : returns.

Lemma returns_init_ack_value a n : returns (init_ack_value a n).
Proof. unfold init_ack_value. returns_steps. Qed.
Lemma returns_packet_with_chunk a tag kind flags value : returns (packet_with_chunk a tag kind flags value).
Proof. apply returns_build_packet. Qed.
#[export] Hint Resolve returns_init_ack_value returns_packet_with_chunk : returns.

Lemma returns_parse_stream_numbers input limit : returns (parse_stream_numbers input limit).
Proof. unfold parse_stream_numbers. returns_steps. Qed.
#[export] Hint Resolve returns_parse_stream_numbers : returns.

Lemma packet_to_peer_keeps (I P : Association -> Prop) kind flags value : (forall a, P a -> I a) ->
  triple I P (packet_to_peer kind flags value) (fun _ => P).
Proof.
  intros HP. unfold packet_to_peer. eapply triple_conseq; [apply triple_try_gets; [done|]| |]; [|done|naive_solver].
  intros a Ha. unfold peer_tag, packet_with_chunk. returns_steps.
Qed.

(** Steps through a method or a handler, one bind at a time; what is left are the
    preconditions of the rules that automation does not see. *)
Ltac holds := first [done | by intros ? | (intros; cbn in *; tauto) | (intros; cbn in *; naive_solver)].
Ltac method_step :=
  first [ apply triple_check; holds
        | apply triple_gets
        | apply triple_modify
        | apply triple_lift; [holds|solve [auto with returns nocore]]
        | apply triple_try_gets; [holds|intros; solve [auto with returns nocore]]
        | apply packet_to_peer_keeps; holds ].
Ltac handler_step :=
  first [ apply triple_hlift; [holds|solve [auto with returns nocore]]
        | apply triple_on_self; method_step
        | apply triple_push_packet | apply triple_push_packets | apply triple_push_event
        | method_step ].
(** The state that a [modify] of the association left. *)
Ltac came_from b0 Hb :=
  let b := fresh "b" in let ob := fresh "ob" in let Heq := fresh "Heq" in
  intros [b ob] (b0 & Hb & Heq); cbn in Heq; subst b.
Ltac no_units := repeat match goal with u : unit |- _ => destruct u end.
Ltac steps := repeat (cbv zeta; eapply triple_bind; [handler_step|intros ?; no_units]).

(** ** The invariant *)
Section Invariant.
Context (conf : AssociationConfig).

Record assoc_ok (a : Association) : Prop := {
  ok_same : config a = conf;
  ok_config : config_ok (config a);
  ok_channels : Z.of_nat (size (channels a)) <= maximum_channels (config a);
  ok_cumulative : forall c, cumulative_peer_tsn a = Some c -> u32 c;
  ok_pending : pending_ok (cumulative_peer_tsn a) (pending_data a);
  ok_streams : u16 (peer_outbound_streams a);
  ok_reassembly : map_Forall (fun stream r => 0 <= stream < peer_outbound_streams a /\
    bytes_ok (asm_payload r) /\ len (asm_payload r) <= maximum_message_bytes (config a)) (reassembly a);
  ok_next : u32 (next_tsn a);
  ok_sent : u32 (outbound_cumulative_tsn a);
  ok_flight : Z.of_nat (size (outstanding a)) <= MAX_OUTSTANDING;
  ok_outstanding : window_ok (next_tsn a) (outbound_cumulative_tsn a) (outstanding a);
  ok_abandoned : window_ok (next_tsn a) (outbound_cumulative_tsn a) (abandoned a) }.

Definition receive_view (a : Association) := (cumulative_peer_tsn a, pending_data a).


(** ** Sending *)
Lemma payload_chunks_fuel fuel n payload : 0 < n -> (length payload <= fuel)%nat ->
  concat (chunks_of fuel n payload) = payload.
Proof.
  intros Hn. revert payload. induction fuel as [|fuel IH]; intros [|x l] Hl; cbn in *; try done; [lia|].
  rewrite IH; [by rewrite take_drop|]. rewrite length_drop. cbn. lia.
Qed.

Definition room_for (r : Z) (a : Association) : Prop :=
  assoc_ok a /\ Z.of_nat (size (outstanding a)) + r <= MAX_OUTSTANDING /\
  dist (next_tsn a) (outbound_cumulative_tsn a) <= 257 - r /\ r <= 256.

Lemma enqueue_step r o a : 0 <= r -> room_for (1 + r) a ->
  assoc_ok (set_next_tsn (wrapping_add 32 (next_tsn a) 1) a) /\
  room_for r (set_outstanding (<[next_tsn a := o]> (outstanding a)) (set_next_tsn (wrapping_add 32 (next_tsn a) 1) a)).
Proof.
  intros Hr ([] & Hs & Hd & H256). unfold room_for, MAX_OUTSTANDING in *.
  assert (u32 (wrapping_add 32 (next_tsn a) 1)) by (apply wrapping_add_fits; lia).
  assert (forall A (m : gmap Z A), window_ok (next_tsn a) (outbound_cumulative_tsn a) m ->
    window_ok (wrapping_add 32 (next_tsn a) 1) (outbound_cumulative_tsn a) m) as Hadv.
  { intros A m Hm k x Hx. specialize (Hm _ _ Hx). cbn in *. apply flight_advance; first [done | apply Hm | lia]. }
  assert (size (<[next_tsn a:=o]> (outstanding a)) <= S (size (outstanding a)))%nat 
    by (rewrite map_size_insert; case_match; cbn; lia).
  split; [split; cbn; auto; lia|]. split; [|cbn; split_and!; [lia| |lia]].
  - split; cbn; auto; [unfold MAX_OUTSTANDING; lia|]. apply map_Forall_insert_2; [|by apply Hadv].
    apply flight_insert; [done|done|lia].
  - clear - ok_next0 ok_sent0 Hd Hr. serial.
Qed.

(** What enqueueing leaves alone. *)
Definition enqueue_view (a : Association) :=
  (receive_view a, config a, state a, peer_outbound_streams a, peer_verification_tag a, channels a, reassembly a,
   peer_forward_tsn_supported a, abandoned a, outbound_cumulative_tsn a).

Lemma enqueue_fragments_ok now m id count index fragments v :
  triple assoc_ok (fun a => room_for (len fragments) a /\ enqueue_view a = v)
    (enqueue_fragments now m id count index fragments) (fun _ a => assoc_ok a /\ enqueue_view a = v).
Proof.
  revert index. induction fragments as [|fragment fragments IH]; intros index.
  { intros a [[Ha _] Hv]. done. }
  cbn [enqueue_fragments]. cbv zeta. apply triple_frame. intros a [Hr Hv].
  rewrite len_cons in Hr. pose proof (len_nonneg fragments) as Hl.
  eapply triple_bind; [apply triple_gets|]. intros tsn.
  eapply triple_bind; [apply triple_modify|]. intros u.
  eapply triple_bind.
  { eapply triple_pre; [apply (packet_to_peer_keeps assoc_ok
      (fun b => b = set_next_tsn (wrapping_add 32 (next_tsn a) 1) a /\ tsn = next_tsn a))|naive_solver].
    intros b [-> _]. by apply (enqueue_step _ (Build_Outstanding [] 0 0 0 true Reliable 0 0 0) _ Hl Hr). }
  intros packet. eapply triple_bind; [apply triple_modify|]. intros u'.
  eapply triple_bind; [eapply triple_pre; [apply IH|]|].
  - intros b (b0 & [-> ->] & ->). split; [exact (proj2 (enqueue_step _ _ _ Hl Hr))|]. by rewrite <- Hv.
  - by intros packets b Hb.
Qed.

Lemma enqueue_message_ok now m payload v :
  triple assoc_ok (fun a => assoc_ok a /\ enqueue_view a = v) (enqueue_message now m payload)
    (fun _ a => assoc_ok a /\ enqueue_view a = v).
Proof.
  unfold enqueue_message. set (fragments := payload_chunks _ _). cbv zeta.
  eapply triple_bind; [apply triple_check; naive_solver|]. intros u.
  eapply triple_bind; [apply triple_gets|]. intros id.
  eapply triple_bind; [apply triple_modify|]. intros u'.
  eapply triple_pre; [apply enqueue_fragments_ok|].
  intros b (a & [[[Ha Hv] Hroom] _] & ->). split; [|by rewrite <- Hv]. unfold room_for. cbn.
  apply orb_false_iff in Hroom as [H1 H2]. unfold saturating_add, saturating_sub, MAX_OUTSTANDING in *.
  pose proof (len_nonneg fragments). fold (dist (next_tsn a) (outbound_cumulative_tsn a)) in H2.
  split; [destruct Ha; by split|]. split_and!; [mlia..| ]. mlia.
Qed.

(** ** Receiving *)
Lemma build_sack_ok (P : Association -> Prop) : (forall a, P a -> assoc_ok a) ->
  triple assoc_ok P build_sack (fun _ => P).
Proof.
  intros HP. unfold build_sack. steps.
  eapply triple_pre; [by apply (packet_to_peer_keeps assoc_ok P)|naive_solver].
Qed.

(** The in-order point moves by one when its chunk is taken from the buffer. *)
Lemma pending_take c p d : u32 c -> pending_ok (Some c) p -> p !! wrapping_add 32 c 1 = Some d ->
  pending_ok (Some (wrapping_add 32 c 1)) (delete (wrapping_add 32 c 1) p).
Proof.
  intros Hc Hp Hd k x [Hne Hx]%lookup_delete_Some. destruct (Hp _ _ Hx) as (Hk & Hd' & c' & [= <-] & Hw).
  split; [done|]. split; [done|]. eexists. split; [done|]. apply pending_next; [done| |congruence|done]. rewrite <- Hd'. apply Hk.
Qed.

Lemma pending_delete c p k : pending_ok c p -> pending_ok c (delete k p).
Proof. intros Hp. by apply map_Forall_delete. Qed.

Definition drain_view (a : Association) :=
  (config a, state a, peer_outbound_streams a, peer_verification_tag a, channels a, reassembly a,
   peer_forward_tsn_supported a, abandoned a, outbound_cumulative_tsn a, outstanding a, next_tsn a).

Lemma drain_ok fuel next l v : Forall data_ok l ->
  triple assoc_ok (fun a => assoc_ok a /\ drain_view a = v /\ (size (pending_data a) <= fuel)%nat /\
      exists c, cumulative_peer_tsn a = Some c /\ next = wrapping_add 32 c 1)
    (drain fuel next l) (fun l a => Forall data_ok l /\ assoc_ok a /\ drain_view a = v).
Proof.
  revert next l. induction fuel as [|fuel IH]; intros next l Hl a (Ha & Hv & Hf & c & Hc & ->); cbn [drain].
  - destruct (pending_data a !! _) as [d|] eqn:Hd; [|done].
    rewrite (map_size_empty_inv (pending_data a)) in Hd by lia. done.
  - destruct (pending_data a !! _) as [d|] eqn:Hd; [|done].
    apply IH; [apply Forall_app; split; [done|]; apply Forall_singleton, (ok_pending _ Ha _ _ Hd)|].
    assert (u32 c) as Hcu by (by eapply ok_cumulative).
    split_and!; [|by rewrite <- Hv|cbn|by eexists].
    + destruct Ha. split; cbn; auto.
      * intros ? [= <-]. apply wrapping_add_fits. lia.
      * eapply pending_take; [done| |done]. by rewrite Hc in ok_pending0.
    + rewrite map_size_delete_Some by (by eexists). lia.
Qed.

Lemma accept_data_ok data v : data_ok data ->
  triple assoc_ok (fun a => assoc_ok a /\ drain_view a = v) (accept_data data)
    (fun l a => Forall data_ok l /\ assoc_ok a /\ drain_view a = v).
Proof.
  intros Hdata. pose proof (proj1 Hdata) as Ht. unfold accept_data. eapply triple_bind; [handler_step|]. intros c. cbv zeta.
  destruct (_ || _) eqn:Hnew; [by intros a [? _]; cbn|]. apply orb_false_iff in Hnew as [Hn0 Hn31].
  steps. eapply triple_pre; [by apply drain_ok|].
  intros b ((s & (((([Ha Hv] & Hc%ok_or_Ok) & Hwin) & Hfull) & ->)) & ->).
  assert (dist (data_tsn data) c <= MAX_PENDING_TSN /\ 1 <= dist (data_tsn data) c) as Hd
    by (unfold dist in *; assert (u32 c) by (by eapply ok_cumulative); clear - Hwin Hn0 Hn31 Ht H; serial).
  destruct (pending_data s !! data_tsn data) as [d|] eqn:Hp; (split_and!; [|by rewrite <- Hv|done|by eexists]); [done|].
  destruct Ha. split; cbn; auto. apply map_Forall_insert_2; [|done]. split; [done|]. split; [done|].
  exists c. split; [done|lia].
Qed.

Lemma read_u16_fits input p v : bytes_ok input -> read_u16 input p = Ok v -> u16 v.
Proof. intros Hi. by apply (RtpRewrite.read_be_fits 2). Qed.
Lemma read_u32_fits input p v : bytes_ok input -> read_u32 input p = Ok v -> u32 v.
Proof. intros Hi. by apply (RtpRewrite.read_be_fits 4). Qed.

Lemma config_maximum a : assoc_ok a -> maximum_message_bytes (config a) <= 256 * 1024 /\ maximum_channels (config a) <= 1024.
Proof. intros Ha. destruct (ok_config _ Ha) as (Hv%reject_if_Ok & _). lia. Qed.

(** Only the reassembly buffers differ, and they are within bounds. *)
Lemma set_reassembly_ok a m : assoc_ok a ->
  map_Forall (fun stream r => 0 <= stream < peer_outbound_streams a /\ bytes_ok (asm_payload r) /\
    len (asm_payload r) <= maximum_message_bytes (config a)) m -> assoc_ok (set_reassembly m a).
Proof. intros [] Hm. by split. Qed.
Lemma delete_reassembly_ok a stream : assoc_ok a -> assoc_ok (set_reassembly (delete stream (reassembly a)) a).
Proof. intros Ha. apply set_reassembly_ok; [done|]. apply map_Forall_delete, Ha. Qed.

Lemma reassemble_ok data begin_ end_ v : data_ok data ->
  triple assoc_ok
    (fun a => (assoc_ok a /\ receive_view a = v) /\ data_stream_id data < peer_outbound_streams a)
    (reassemble data begin_ end_)
    (fun p a => rust_slice (default [] p) /\ assoc_ok a /\ receive_view a = v).
Proof.
  intros (_ & Hs & Hp). unfold reassemble.
  assert (forall a r, assoc_ok a -> data_stream_id data < peer_outbound_streams a -> bytes_ok (asm_payload r) ->
    len (asm_payload r) <= maximum_message_bytes (config a) ->
    assoc_ok (set_reassembly (<[data_stream_id data := r]> (reassembly a)) a)) as Hins.
  { intros a r Ha Hlt Hr Hl. apply set_reassembly_ok; [done|]. apply map_Forall_insert_2; [|apply Ha].
    split_and!; [apply Hs|done..]. }
  eapply triple_bind; [apply triple_modify|]. intros u.
  eapply triple_pre with (P' := fun a => (assoc_ok a /\ receive_view a = v) /\ data_stream_id data < peer_outbound_streams a).
  2:{ intros b (a & [[Ha Hv] Hlt] & ->). destruct begin_; [|done]. split; [split; [|done]|done].
      apply Hins; [done..|apply bytes_ok_nil|]. cbn. rewrite len_nil. destruct (ok_config _ Ha) as (Hval%reject_if_Ok & _). lia. }
  eapply triple_bind; [handler_step|]. intros r. eapply triple_bind; [handler_step|]. intros u'.
  eapply triple_bind; [handler_step|]. intros maximum.
  destruct (Z.ltb_spec maximum (saturating_add 64 (len (asm_payload r)) (len (data_payload data)))) as [Hbig|Hfit].
  { eapply triple_bind; [apply triple_modify|]. intros u''. apply triple_fail.
    intros b (a & Ha & ->). apply delete_reassembly_ok. apply Ha. }
  apply triple_frame. intros a ((([[Ha Hv] Hlt] & Hr%ok_or_Ok) & _) & ->).
  destruct (ok_reassembly _ Ha _ _ Hr) as (_ & Hok & Hlen). destruct Hp as [Hpok Hplen].
  pose proof (config_maximum _ Ha) as [Hmax _]. pose_len. unfold saturating_add in Hfit.
  eapply triple_bind; [apply triple_modify|]. intros u''. cbv zeta.
  assert (assoc_ok (set_reassembly (<[data_stream_id data := {| asm_stream_sequence := asm_stream_sequence r;
    asm_ppid := asm_ppid r; asm_payload := asm_payload r ++ data_payload data |}]> (reassembly a)) a)) as Ha'.
  { apply Hins; [done..|by apply bytes_ok_app|]. cbn. rewrite len_app. mlia. }
  destruct end_.
  - intros b (? & -> & ->). cbn. split_and!; [|by apply delete_reassembly_ok|done].
    split; [by apply bytes_ok_app|]. change (len (asm_payload r ++ data_payload data) < 2 ^ 63). rewrite len_app. mlia.
  - intros b (? & -> & ->). cbn. split_and!; [|done..]. split; [apply bytes_ok_nil|done].
Qed.

Lemma handle_user_message_ok (P : Association -> Prop) stream ppid payload : (forall a, P a -> assoc_ok a) ->
  triple (inside assoc_ok) (inside P) (handle_user_message stream ppid payload) (fun _ => inside P).
Proof.
  intros HP. unfold handle_user_message. eapply triple_bind; [handler_step|]. intros u.
  eapply triple_bind with (Q := fun _ => inside P).
  { repeat case_match; [by intros ? []..|]. apply triple_fail. intros s [Hs _]. by apply HP. }
  intros kind. steps. eapply triple_post; [apply triple_push_event|]. intros ? s Hs. apply Hs.
Qed.

Lemma handle_dcep_ok now stream payload v : rust_slice payload ->
  triple (inside assoc_ok) (inside (fun a => assoc_ok a /\ receive_view a = v)) (handle_dcep now stream payload)
    (fun _ => inside (fun a => assoc_ok a /\ receive_view a = v)).
Proof.
  intros [Hok Hlen]. unfold handle_dcep. pose proof (len_nonneg payload) as H0.
  eapply triple_bind; [handler_step|]. intros u. apply triple_frame. intros [a o] [[Ha Hv] Hc].
  rewrite !orb_false_iff in Hc. destruct Hc as [[[[_ H12] _] Hnew] Hroom].
  set (P := inside (fun s => s = a)). eapply triple_pre with (P' := P); [|by intros ? ->].
  assert (forall s, s = a -> assoc_ok s) as HI by (by intros ? ->).
  eapply triple_bind; [apply triple_hlift; [done|apply returns_index; lia]|]. intros ct.
  eapply triple_bind; [handler_step|]. intros rp.
  eapply triple_bind; [handler_step|]. intros [ordered reliability].
  eapply triple_bind; [handler_step|]. intros ll. eapply triple_bind; [handler_step|]. intros pl.
  eapply triple_bind; [handler_step|]. intros expected. eapply triple_bind; [handler_step|]. intros u'.
  apply triple_frame. intros [a' o'] [[[[HP Hll] Hpl] He%ok_or_Ok] Hx%reject_if_Ok].
  assert (a' = a) as -> by (by destruct HP as [[[? _] _] _]).
  apply read_u16_fits in Hll, Hpl; [|done..].
  apply bind_Some in He as (l12 & [-> _]%checked_add_Some & [-> _]%checked_add_Some).
  rewrite !orb_false_iff, negb_false_iff, Z.eqb_eq in Hx. destruct Hx as [[Hx _] _].
  eapply triple_pre with (P' := P); [|by intros ? ->].
  eapply triple_bind; [apply triple_hlift; [done|apply returns_index_range; mlia]|]. intros label.
  eapply triple_bind; [handler_step|]. intros u1.
  eapply triple_bind; [apply triple_hlift; [holds|apply returns_index_range; mlia]|]. intros protocol.
  eapply triple_bind; [handler_step|]. intros u2. eapply triple_bind; [handler_step|]. intros u3.
  eapply triple_bind; [apply triple_on_self; eapply triple_pre; [apply enqueue_message_ok|]|].
  - intros b (? & [[[[-> _] _] _] _] & ->). split; [|reflexivity].
    destruct Ha. split; cbn; auto. cbn in Hroom. rewrite map_size_insert. case_match; cbn; lia.
  - intros ack. eapply triple_bind; [handler_step|]. intros u4.
    eapply triple_post; [apply triple_push_event|]. intros ? [b ob] [Hb Hview].
    split; [done|]. rewrite <- Hv. apply (f_equal (fun w => w.1.1.1.1.1.1.1.1.1)) in Hview. exact Hview.
Qed.

Lemma process_data_message_ok now data v : data_ok data ->
  triple (inside assoc_ok) (inside (fun a => assoc_ok a /\ receive_view a = v)) (process_data_message now data)
    (fun _ => inside (fun a => assoc_ok a /\ receive_view a = v)).
Proof.
  intros Hd. unfold process_data_message. eapply triple_bind; [handler_step|]. intros u. cbv zeta.
  eapply triple_bind with (Q := fun p s => rust_slice p /\ inside (fun a => assoc_ok a /\ receive_view a = v) s).
  { case_match; [intros s [Hs _]; split; [apply Hd|done]|].
    eapply triple_bind; [apply triple_on_self; eapply triple_pre; [by apply reassemble_ok|]|by intros p s (? & ? & ?)].
    intros a [Ha Hlt]. split; [done|lia]. }
  intros payload. apply triple_frame. intros s [Hp Hs].
  case_match; [by intros ? ->|]. case_match; [|case_match; [|apply triple_fail; intros ? ->; apply Hs]].
  - eapply triple_pre; [by apply handle_dcep_ok|by intros ? ->].
  - eapply triple_pre; [apply (handle_user_message_ok (fun a => assoc_ok a /\ receive_view a = v)); naive_solver|].
    by intros ? ->.
Qed.

Lemma index_range_slice {E} (value v : bytes) a b : rust_slice value -> index_range (E:=E) value a b = Ok v -> rust_slice v.
Proof.
  intros [Hok Hlen]. unfold index_range, or_panic. case_match eqn:Hg; [|done]. intros [= <-].
  apply get_range_Some in Hg as (l1 & l2 & -> & _ & _).
  rewrite !bytes_ok_app, !len_app in *. pose_len. split; [apply Hok|lia].
Qed.

Lemma parse_data_ok flags value data : rust_slice value -> parse_data flags value = Ok data -> data_ok data.
Proof.
  intros Hs. pose proof Hs as [Hok _]. unfold parse_data. intros H. inv_ok H. subst data. unfold data_ok. cbn.
  apply read_u32_fits in Hstep; [|done]. apply read_u16_fits in Hstep0; [|done].
  split; [done|]. split; [done|]. by eapply index_range_slice.
Qed.

Lemma returns_parse_data flags value : 12 <= len value -> returns (parse_data flags value).
Proof.
  intros. unfold parse_data. do 4 (apply returns_bind; [apply returns_read_be|intros ? _]).
  apply returns_bind; [apply returns_index_range; lia|done].
Qed.

Lemma handle_data_ok now flags value : rust_slice value ->
  triple (inside assoc_ok) (inside assoc_ok) (handle_data now flags value) (fun _ => inside assoc_ok).
Proof.
  intros Hv. unfold handle_data. eapply triple_bind; [handler_step|]. intros u.
  apply triple_frame. intros [a o] [Ha [_ Hlen]%orb_false_iff]. unfold DATA_FIXED_LEN in Hlen.
  set (P := fun b => assoc_ok b /\ drain_view b = drain_view a).
  eapply triple_pre with (P' := inside P); [|by intros ? ->].
  eapply triple_bind; [apply triple_hlift; [by intros ? []|apply returns_parse_data; lia]|]. intros data.
  apply triple_frame. intros s [Hs Hd%parse_data_ok]; [|done]. eapply triple_pre with (P' := inside P); [|by intros ? ->].
  eapply triple_bind; [apply triple_on_self; by apply accept_data_ok|]. intros l.
  apply triple_frame. intros s' (Hl & Ha' & _).
  eapply triple_bind with (Q := fun _ => inside assoc_ok).
  { eapply triple_pre with (P' := inside assoc_ok); [|by intros ? ->]. apply triple_for_each. intros d Hd'.
    apply triple_frame. intros [b ob] Hb.
    eapply triple_conseq; [apply (process_data_message_ok now d (receive_view b))|by intros ? ->|by intros ? ? []].
    by eapply Forall_forall. }
  intros u'. eapply triple_bind; [apply triple_on_self; by apply (build_sack_ok assoc_ok)|]. intros sack. handler_step.
Qed.

(** ** FORWARD-TSN *)
Lemma skip_streams_ok value v :
  triple assoc_ok (fun a => assoc_ok a /\ receive_view a = v) (skip_streams value)
    (fun _ a => assoc_ok a /\ receive_view a = v).
Proof.
  unfold skip_streams. apply triple_for_each. intros offset _. steps.
  eapply triple_post; [apply triple_modify|]. intros u b (a' & [[[Ha Hv] _] _] & ->).
  repeat case_match; [|done..]. split; [by apply delete_reassembly_ok|done].
Qed.

Lemma drain_processing_ok fuel now next :
  triple (inside assoc_ok) (inside (fun a => assoc_ok a /\ (size (pending_data a) <= fuel)%nat /\
      exists c, cumulative_peer_tsn a = Some c /\ next = wrapping_add 32 c 1))
    (drain_processing fuel now next) (fun _ => inside assoc_ok).
Proof.
  revert next. induction fuel as [|fuel IH]; intros next [a o] (Ha & Hf & c & Hc & ->); cbn [drain_processing fst] in *.
  - destruct (pending_data a !! _) as [d|] eqn:Hd; [|done].
    rewrite (map_size_empty_inv (pending_data a)) in Hd by lia. done.
  - destruct (pending_data a !! _) as [d|] eqn:Hd; [|done].
    assert (u32 c) as Hcu by (by eapply ok_cumulative). cbn [snd]. set (p := delete _ _).
    assert (assoc_ok (set_pending_data p a)) as Ha'.
    { destruct Ha. split; cbn; auto. by apply pending_delete. }
    set (m := _ ≫= _). cut (triple (inside assoc_ok) (fun s => s = (set_pending_data p a, o)) m (fun _ => inside assoc_ok));
      [intros Hm; by apply Hm|]. unfold m.
    eapply triple_bind; [eapply triple_pre; [apply (process_data_message_ok now d (Some c, p)), (ok_pending _ Ha _ _ Hd)|]|].
    { intros ? ->. split; [done|]. unfold receive_view. cbn. by rewrite Hc. }
    intros u. eapply triple_bind; [handler_step|]. intros u'. eapply triple_pre; [apply IH|].
    intros [b ob] (b0 & [Hb [= Hbc Hbp]] & Heq). cbn in Heq. subst b. split_and!; [|cbn; rewrite Hbp|by eexists].
    + destruct Hb. split; cbn; auto; [intros ? [= <-]; apply wrapping_add_fits; lia|].
      rewrite Hbp. eapply pending_take; [done| |done]. rewrite <- Hc. apply Ha.
    + unfold p. rewrite map_size_delete_Some by (by eexists). lia.
Qed.

Lemma handle_forward_tsn_ok now value : rust_slice value ->
  triple (inside assoc_ok) (inside assoc_ok) (handle_forward_tsn now value) (fun _ => inside assoc_ok).
Proof.
  intros [Hok Hlen]. unfold handle_forward_tsn.
  eapply triple_bind; [handler_step|]. intros u. eapply triple_bind; [handler_step|]. intros cumulative.
  eapply triple_bind; [handler_step|]. intros current.
  apply triple_frame. intros [a o] [[[Ha _] Hcum%read_u32_fits] Hcur%ok_or_Ok]; [|done].
  assert (triple (inside assoc_ok) (inside assoc_ok) (sack ← on_self build_sack; push_packet sack) (fun _ => inside assoc_ok)) as Hsack.
  { eapply triple_bind; [apply triple_on_self; by apply (build_sack_ok assoc_ok)|]. intros sack. handler_step. }
  case_match eqn:Hold; [eapply triple_pre; [apply Hsack|by intros ? ->]|].
  eapply triple_pre with (P' := inside (fun b => assoc_ok b /\ receive_view b = receive_view a)); [|by intros ? ->].
  eapply triple_bind; [apply triple_on_self, skip_streams_ok|]. intros u1.
  eapply triple_bind; [handler_step|]. intros u2. eapply triple_bind; [handler_step|]. intros u3.
  eapply triple_bind; [handler_step|]. intros fuel.
  eapply triple_bind; [|intros u4; exact Hsack]. eapply triple_pre; [apply drain_processing_ok|].
  intros [b ob] ((b1 & (b0 & [Hb [= Hbc Hbp]] & ->) & Heq) & ->). cbn in *. subst b.
  split_and!; [|done|by eexists]. pose proof (ok_cumulative _ Ha _ Hcur) as Hcu.
  pose proof (ok_pending _ Hb) as Hpend. destruct Hb. split; cbn; auto; [by intros ? [= <-]|].
  intros k x [Hx Hk]%map_lookup_filter_Some. destruct (Hpend _ _ Hx) as (Hd & Hkey & c & Hc & Hw). rewrite Hbc, Hcur in Hc.
  injection Hc as <-. split; [done|]. split; [done|]. eexists. split; [done|].
  apply (pending_forward current k cumulative); [done|rewrite <- Hkey; apply Hd|done..].
Qed.

(** ** Acknowledgements *)
Lemma flight_filter {A} n c u (m : gmap Z A) : u32 u -> window_ok n c m ->
  window_ok n u (filter (fun p => sequence_less_or_equal p.1 u = false) m).
Proof.
  intros Hu Hm k x [Hx Hk]%map_lookup_filter_Some. specialize (Hm _ _ Hx). cbn in *.
  apply (flight_ack n c k u); [apply Hm|done..].
Qed.

Lemma delete_outstanding_ok a m : assoc_ok a -> m ⊆ outstanding a -> assoc_ok (set_outstanding m a).
Proof.
  intros [] Hm. split; cbn; auto; [|intros k x Hx; by eapply ok_outstanding0, lookup_weaken].
  pose proof (map_subseteq_size _ _ Hm). lia.
Qed.

Lemma foldl_delete_subseteq {A} (ks : list Z) (m : gmap Z A) f : foldl (fun m k => delete (f k) m) m ks ⊆ m.
Proof.
  revert m. induction ks as [|k ks IH]; intros m; cbn; [done|]. etrans; [apply IH|]. apply delete_subseteq.
Qed.

Definition unsettled {A} (c : Z) (m : gmap Z A) : gmap Z A :=
  filter (fun p => sequence_less_or_equal p.1 c = false) m.

Lemma sack_window_ok a c : assoc_ok a -> u32 c ->
  let b := if negb (sequence_less_or_equal c (outbound_cumulative_tsn a)) then set_outbound_cumulative_tsn c a else a in
  assoc_ok (set_abandoned (unsettled c (abandoned b)) (set_outstanding (unsettled c (outstanding b)) b)).
Proof.
  intros Ha Hc b.
  assert (forall A (m : gmap Z A), window_ok (next_tsn a) (outbound_cumulative_tsn a) m ->
    window_ok (next_tsn b) (outbound_cumulative_tsn b) (unsettled c m)) as Hw.
  { intros A m Hm. unfold b. destruct (negb _); cbn; [by eapply flight_filter|].
    intros k x [Hx _]%map_lookup_filter_Some. by apply (Hm _ _ Hx). }
  assert (size (unsettled c (outstanding b)) <= size (outstanding b))%nat as Hs by apply map_subseteq_size, map_filter_subseteq.
  assert (outstanding b = outstanding a /\ abandoned b = abandoned a) as [Ho Hab] by (unfold b; by case_match).
  destruct Ha. split; try (unfold b in *; case_match; cbn in *; by auto).
  cbn. rewrite Ho in *. lia.
Qed.

Lemma handle_sack_ok value : rust_slice value ->
  triple assoc_ok assoc_ok (handle_sack value) (fun _ => assoc_ok).
Proof.
  intros [Hok Hlen]. unfold handle_sack. eapply triple_bind; [handler_step|]. intros u.
  eapply triple_bind; [handler_step|]. intros c. eapply triple_bind; [handler_step|]. intros gaps.
  eapply triple_bind; [handler_step|]. intros dups. eapply triple_bind; [handler_step|]. intros expected.
  eapply triple_bind; [handler_step|]. intros u0. apply triple_frame.
  intros a [[[[[[Ha _] Hc%read_u32_fits] _] _] _] _]; [|done].
  do 4 (eapply triple_bind; [apply triple_modify|]; intros ?).
  eapply triple_pre; [apply (triple_for_each assoc_ok assoc_ok)|].
  - intros index _. cbv zeta. steps. eapply triple_post; [apply triple_modify|].
    intros u4 b (b0 & Hb & ->). apply delete_outstanding_ok; [apply Hb|apply foldl_delete_subseteq].
  - intros b (b3 & (b2 & (b1 & (b0 & -> & ->) & ->) & ->) & ->).
    pose proof (sack_window_ok a c Ha Hc) as Hb. cbv zeta in Hb.
    set (w := if negb _ then _ else _) in *. clearbody w. case_match; [|exact Hb]. destruct Hb. by split.
Qed.

(** ** Handshake *)
Lemma accept_init_ok a tag streams initial fwd : assoc_ok a -> u16 streams -> u32 initial ->
  assoc_ok (accept_init tag streams initial fwd a).
Proof.
  intros Ha Hs Hi. pose proof (ok_config _ Ha) as Hc. destruct Hc as (Hval & _ & _ & _ & Ht & _).
  pose proof Hval as Hv%reject_if_Ok. split; cbn; rewrite ?map_size_empty; try done; try lia;
    try lazymatch goal with |- pending_ok _ _ => apply map_Forall_empty | |- window_ok _ _ _ => apply map_Forall_empty
        | |- map_Forall _ _ => apply map_Forall_empty end.
  - by apply ok_same.
  - by apply ok_config.
  - intros c [= <-]. apply wrapping_sub_fits. lia.
  - apply wrapping_sub_fits. lia.
Qed.

Lemma handle_init_ok tag value : rust_slice value ->
  triple (inside assoc_ok) (inside assoc_ok) (handle_init tag value) (fun _ => inside assoc_ok).
Proof.
  intros [Hok Hlen]. unfold handle_init. eapply triple_bind; [handler_step|]. intros u.
  apply triple_frame. intros [a o] [Ha [_ H16]%reject_if_Ok%orb_false_iff]. unfold INIT_FIXED_LEN, CHUNK_HEADER_LEN in H16.
  eapply triple_pre with (P' := inside assoc_ok); [|by intros ? ->].
  eapply triple_bind; [handler_step|]. intros ptag. eapply triple_bind; [handler_step|]. intros out.
  eapply triple_bind; [handler_step|]. intros inb. eapply triple_bind; [handler_step|]. intros initial.
  eapply triple_bind; [handler_step|]. intros u0.
  eapply triple_bind; [apply triple_hlift; [holds|apply returns_index_range; lia]|]. intros tail.
  apply triple_frame. intros [a' o'] [[[[[[Ha' Htag] Hout%read_u16_fits] _] Hi%read_u32_fits] _] Htail]; [|done..].
  apply index_range_slice in Htail; [|done]. eapply triple_pre with (P' := inside assoc_ok); [|by intros ? ->].
  eapply triple_bind; [apply triple_hlift; [holds|by apply returns_parse_parameters]|]. intros ps. cbv zeta.
  eapply triple_bind; [handler_step|]. intros u1.
  eapply triple_pre with (P' := inside assoc_ok); [|came_from b0 Hb; destruct Hb as [Hb _]; by apply accept_init_ok].
  steps. eapply triple_post; [apply triple_push_packet|]. intros ? s Hs. apply Hs.
Qed.

Lemma set_state_ok a x : assoc_ok a -> assoc_ok (set_state x a).
Proof. intros []. by split. Qed.

Lemma handle_cookie_echo_ok tag value :
  triple (inside assoc_ok) (inside assoc_ok) (handle_cookie_echo tag value) (fun _ => inside assoc_ok).
Proof.
  unfold handle_cookie_echo. do 4 (eapply triple_bind; [handler_step|]; intros ?).
  eapply triple_pre with (P' := inside assoc_ok); [|came_from b0 Hb; apply set_state_ok, Hb].
  steps. handler_step.
Qed.

(** ** Resets *)
Section Handlers.
Context {key_order : KeyOrder}.

Lemma set_channels_delete_ok a k : assoc_ok a -> assoc_ok (set_channels (delete k (channels a)) a).
Proof.
  intros []. split; cbn; auto. pose proof (map_subseteq_size _ _ (delete_subseteq (channels a) k)). lia.
Qed.

Lemma close_streams_ok streams :
  triple (inside assoc_ok) (inside assoc_ok) (close_streams streams) (fun _ => inside assoc_ok).
Proof.
  unfold close_streams. eapply triple_bind; [handler_step|]. intros ids.
  eapply triple_pre with (P' := inside assoc_ok); [|by intros [b ob] [Hb _]].
  apply triple_for_each. intros k _. eapply triple_bind; [handler_step|]. intros ch.
  eapply triple_bind; [handler_step|]. intros u.
  eapply triple_pre with (P' := inside assoc_ok).
  2:{ came_from b0 Hb; destruct Hb as [Hb _]. by apply set_channels_delete_ok. }
  case_match; [|by intros ??]. eapply triple_bind; [handler_step|]. intros u'.
  eapply triple_pre; [handler_step|]. came_from b0 Hb. by apply delete_reassembly_ok.
Qed.

Lemma set_peer_reconfig_ok a x : assoc_ok a -> assoc_ok (set_next_peer_reconfig_sequence x a).
Proof. intros []. by split. Qed.
Lemma set_reconfig_ok a x : assoc_ok a -> assoc_ok (set_next_reconfig_sequence x a).
Proof. intros []. by split. Qed.

(** The common part of both resets, and what follows it. *)
Lemma perform_reset_ok {A} value from expected (k : option (list Z) -> handler A) Q : 0 <= from <= len value ->
  (forall streams, triple (inside assoc_ok) (inside assoc_ok) (k streams) Q) ->
  triple (inside assoc_ok) (inside assoc_ok)
    (_ ← on_self (modify (set_next_peer_reconfig_sequence (Some (wrapping_add 32 expected 1))));
     listed ← lift (index_range value from (len value));
     streams ← on_self (try_gets (fun a => parse_stream_numbers listed (peer_outbound_streams a)));
     _ ← close_streams streams; k streams) Q.
Proof.
  intros Hf Hk. eapply triple_bind; [handler_step|]. intros u.
  eapply triple_pre with (P' := inside assoc_ok); [|came_from b0 Hb; by apply set_peer_reconfig_ok].
  eapply triple_bind; [apply triple_hlift; [done|apply returns_index_range; lia]|]. intros listed.
  eapply triple_bind; [handler_step|]. intros streams.
  eapply triple_bind; [eapply triple_pre; [apply close_streams_ok|by intros [? ?] [[? _] _]]|]. intros u'. apply Hk.
Qed.

Lemma reset_guard_ok {A} c e (value : bytes) n (k : unit -> handler A) Q :
  (c = false -> n <= len value) ->
  (n <= len value -> triple (inside assoc_ok) (inside assoc_ok) (k tt) Q) ->
  triple (inside assoc_ok) (inside assoc_ok) (lift (reject_if c e) ≫= k) Q.
Proof.
  intros Hc Hk s Hs. unfold mbind, prog_bind, lift, reject_if. destruct c; [done|]. apply Hk; [by apply Hc|done].
Qed.

Lemma handle_outgoing_reset_ok value response :
  triple (inside assoc_ok) (inside assoc_ok) (handle_outgoing_reset value response) (fun _ => inside assoc_ok).
Proof.
  unfold handle_outgoing_reset. apply (reset_guard_ok _ _ value 12); [lia|]. intros Hl.
  eapply triple_bind; [handler_step|]. intros sequence. eapply triple_bind; [handler_step|]. intros expected.
  eapply triple_bind with (Q := fun _ => inside assoc_ok).
  { eapply triple_pre with (P' := inside assoc_ok); [|by intros [? ?] [[? _] _]].
    case_match; [|by intros ??]. apply perform_reset_ok; [lia|]. by intros ???. }
  intros result. eapply triple_post; [handler_step|]. by intros ? [? ?] [? _].
Qed.

Lemma handle_incoming_reset_ok value response :
  triple (inside assoc_ok) (inside assoc_ok) (handle_incoming_reset value response) (fun _ => inside assoc_ok).
Proof.
  unfold handle_incoming_reset. apply (reset_guard_ok _ _ value 4); [lia|]. intros Hl.
  eapply triple_bind; [handler_step|]. intros sequence. eapply triple_bind; [handler_step|]. intros expected.
  eapply triple_pre with (P' := inside assoc_ok); [|by intros [? ?] [[? _] _]].
  case_match; [eapply triple_post; [handler_step|]; by intros ? [? ?] [? _]|].
  apply perform_reset_ok; [lia|]. intros streams. eapply triple_bind; [handler_step|]. intros outgoing.
  eapply triple_bind; [handler_step|]. intros u.
  eapply triple_pre with (P' := inside assoc_ok); [|came_from b0 Hb; apply set_reconfig_ok, Hb].
  eapply triple_post; [handler_step|]. by intros ? [? ?] [? _].
Qed.

Lemma reconfigure_ok parameters response :
  triple (inside assoc_ok) (inside assoc_ok) (reconfigure parameters response) (fun _ => inside assoc_ok).
Proof.
  revert response. induction parameters as [|p ps IH]; intros response; cbn [reconfigure]; [by intros ??|].
  repeat case_match; [..|by intros ??].
  - eapply triple_bind; [apply handle_outgoing_reset_ok|]. intros r. apply IH.
  - eapply triple_bind; [apply handle_incoming_reset_ok|]. intros r. apply IH.
  - apply (reset_guard_ok _ _ (param_value p) 0); [intros; apply len_nonneg|]. intros _. apply IH.
Qed.

Lemma handle_reconfiguration_ok value : rust_slice value ->
  triple (inside assoc_ok) (inside assoc_ok) (handle_reconfiguration value) (fun _ => inside assoc_ok).
Proof.
  intros Hv. unfold handle_reconfiguration. eapply triple_bind; [handler_step|]. intros u.
  eapply triple_bind; [apply triple_hlift; [holds|by apply returns_parse_parameters]|]. intros ps.
  eapply triple_bind; [handler_step|]. intros u'.
  eapply triple_bind; [eapply triple_pre; [apply reconfigure_ok|by intros [? ?] [[[? _] _] _]]|]. intros response.
  case_match; [by intros ??|]. steps. handler_step.
Qed.

(** ** Packets *)
Lemma handle_chunk_ok now tag chunk : rust_slice (chunk_value chunk) ->
  triple (inside assoc_ok) (inside assoc_ok) (handle_chunk now tag chunk) (fun _ => inside assoc_ok).
Proof.
  intros Hv. unfold handle_chunk. cbv zeta.
  assert (forall {A} (m : handler A), triple (inside assoc_ok) (inside assoc_ok) m (fun _ => inside assoc_ok) ->
    triple (inside assoc_ok) (inside assoc_ok) (_ ← on_self (require_verification_tag tag); m) (fun _ => inside assoc_ok)) as Hreq.
  { intros A m Hm. eapply triple_bind; [apply triple_on_self; unfold require_verification_tag; handler_step|].
    intros u. eapply triple_pre; [apply Hm|]. by intros [? ?] [? _]. }
  repeat case_match; [..|by intros ??].
  - by apply handle_init_ok.
  - apply handle_cookie_echo_ok.
  - by apply Hreq, handle_data_ok.
  - apply Hreq, triple_on_self. by apply handle_sack_ok.
  - apply Hreq. steps. handler_step.
  - eapply triple_bind; [handler_step|]. intros u. eapply triple_pre; [handler_step|].
    came_from b0 Hb. by apply set_state_ok.
  - apply Hreq. eapply triple_bind; [handler_step|]. intros u.
    eapply triple_pre with (P' := inside assoc_ok); [|came_from b0 Hb; by apply set_state_ok]. steps. handler_step.
  - by apply Hreq, handle_reconfiguration_ok.
  - by apply Hreq, handle_forward_tsn_ok.
Qed.
End Handlers.
End Invariant.
Arguments ok_same {conf} a _.
Arguments ok_config {conf} a _.
Arguments ok_channels {conf} a _.
Arguments ok_cumulative {conf} a _.
Arguments ok_pending {conf} a _.
Arguments ok_streams {conf} a _.
Arguments ok_reassembly {conf} a _.
Arguments ok_next {conf} a _.
Arguments ok_sent {conf} a _.
Arguments ok_flight {conf} a _.
Arguments ok_outstanding {conf} a _.
Arguments ok_abandoned {conf} a _.
