(* ===== verification/SctpSafety.v ===== *)
(** * webrtc/data-channel: theorems about every sequence of calls

    The public calls of an association, what holds after any sequence of them, and how the
    association gets established. *)
From stdpp Require Import sorting fin_maps.
From S2P Require Import Prelude Words Slices RustStd SctpPacket SctpAssociation SctpInvariant.

(** ** What the parser hands out *)
Lemma parse_chunks_slices fuel input offset chunks result : rust_slice input ->
  Forall (fun c => rust_slice (chunk_value c)) chunks -> parse_chunks fuel input offset chunks = Ok result ->
  Forall (fun c => rust_slice (chunk_value c)) result.
Proof.
  intros Hi. revert offset chunks. induction fuel as [|fuel IH]; intros offset chunks Hc; cbn [parse_chunks]; [done|].
  case_match eqn:Hmore; [|by intros [= <-]]. intros H.
  apply bind_Ok in H as (? & _ & H). apply bind_Ok in H as (l & _ & H). apply bind_Ok in H as (? & _ & H).
  apply bind_Ok in H as (k & _ & H). apply bind_Ok in H as (f & _ & H). apply bind_Ok in H as (v & Hv & H).
  cbv zeta in H. apply bind_Ok in H as (o & _ & H). apply bind_Ok in H as (? & _ & H).
  eapply IH; [|exact H]. apply Forall_app. split; [done|]. apply Forall_singleton. by eapply index_range_slice.
Qed.

Lemma parse_packet_slices input p : rust_slice input -> parse_packet input = Ok p ->
  Forall (fun c => rust_slice (chunk_value c)) (packet_chunks p).
Proof.
  intros Hi H. unfold parse_packet in H. inv_ok H. subst p. cbn. by eapply parse_chunks_slices; [done| |exact Hstep2].
Qed.

(** ** The calls keep the invariant and come back *)
Section Calls.
Context {key_order : KeyOrder} (conf : AssociationConfig).
#[local] Abbreviation assoc_ok := (assoc_ok conf).

Lemma with_output_ok m : triple (inside assoc_ok) (inside assoc_ok) m (fun _ => inside assoc_ok) ->
  triple assoc_ok assoc_ok (with_output m) (fun _ => assoc_ok).
Proof.
  intros Hm a Ha. specialize (Hm (a, default_output) Ha). unfold with_output.
  destruct (m (a, default_output)) as [[a' o] [[]|e| |]]; done.
Qed.

Lemma handle_packet_ok now packet : rust_slice packet ->
  triple assoc_ok assoc_ok (handle_packet now packet) (fun _ => assoc_ok).
Proof.
  intros Hp. unfold handle_packet.
  eapply triple_bind; [apply triple_lift; [done|by apply returns_sctp_packet]|]. intros parsed.
  eapply triple_bind; [handler_step|]. intros u. apply triple_frame. intros a [[Ha Hparse] _].
  eapply triple_pre; [apply with_output_ok, triple_for_each|by intros ? ->].
  intros c Hc. apply handle_chunk_ok. eapply parse_packet_slices in Hparse; [|done]. rewrite Forall_forall in Hparse. by apply Hparse.
Qed.

Lemma send_message_ok now stream kind payload :
  triple assoc_ok assoc_ok (send_message now stream kind payload) (fun _ => assoc_ok).
Proof.
  unfold send_message. do 3 (eapply triple_bind; [handler_step|]; intros ?).
  eapply triple_bind; [handler_step|]. intros ch. eapply triple_bind; [handler_step|]. intros u.
  case_match. apply triple_frame. intros b (a2 & (((Ha & _) & _) & Hch%ok_or_Ok) & ->).
  eapply triple_conseq; [apply enqueue_message_ok|intros ? ->; split; [|reflexivity]|by intros ?? []].
  destruct Ha as [Ha _]. destruct Ha. split; cbn; auto. by rewrite map_size_insert_Some.
Qed.

Lemma returns_forward_scan fuel a next saw skipped : u32 next -> u32 (next_tsn a) ->
  dist (next_tsn a) next <= Z.of_nat fuel -> returns (forward_scan fuel a next saw skipped).
Proof.
  intros Hx Hn. revert next saw skipped Hx. induction fuel as [|fuel IH]; intros next saw skipped Hx Hd; cbn [forward_scan];
    (destruct (Z.eqb_spec next (next_tsn a)) as [|Hne]; [done|]).
  - exfalso. serial.
  - assert (u32 (wrapping_add 32 next 1)) by (apply wrapping_add_fits; lia).
    assert (dist (next_tsn a) (wrapping_add 32 next 1) <= Z.of_nat fuel) by serial.
    repeat case_match; [done|by apply IH..].
Qed.

Lemma build_forward_tsn_ok now : triple assoc_ok assoc_ok (build_forward_tsn now) (fun _ => assoc_ok).
Proof.
  unfold build_forward_tsn. eapply triple_bind; [apply triple_try_gets; [done|]|].
  { intros a Ha. cbv zeta. apply returns_forward_scan; [apply wrapping_add_fits; lia|exact (ok_next _ Ha)|].
    unfold dist. apply Z.eq_le_incl. symmetry. apply Z2Nat.id. apply (wrapping_sub_fits 32). lia. }
  intros [[next saw] skipped]. eapply triple_pre with (P' := assoc_ok); [|by intros ? []].
  case_match; [by intros ??|]. eapply triple_bind; [handler_step|]. intros send. case_match; [by intros ? []|].
  steps. intros b (b0 & [Ha _] & ->). destruct Ha. by split.
Qed.

Lemma tick_scan_ok now tsns a output ab : assoc_ok a -> assoc_ok (tick_scan now tsns a output ab).1.1.
Proof.
  revert a output ab. induction tsns as [|tsn tsns IH]; intros a output ab Ha; cbn [tick_scan]; [done|].
  destruct (outstanding a !! tsn) as [o|] eqn:Ho; [|by apply IH].
  repeat case_match; try (by apply IH); [by apply set_state_ok|].
  apply IH. pose proof (ok_outstanding _ Ha _ _ Ho). destruct Ha. split; cbn; auto; [by rewrite map_size_insert_Some|].
  by apply map_Forall_insert_2.
Qed.

Lemma abandon_tsn_ok a tsn : assoc_ok a -> assoc_ok (abandon_tsn a tsn).
Proof.
  intros Ha. unfold abandon_tsn. destruct (outstanding a !! tsn) as [o|] eqn:Ho; [|done].
  pose proof (ok_outstanding _ Ha _ _ Ho) as Hw. destruct Ha. split; cbn; auto.
  - pose proof (map_subseteq_size _ _ (delete_subseteq (outstanding a) tsn)). lia.
  - by apply map_Forall_delete.
  - by apply map_Forall_insert_2.
Qed.

Lemma abandon_message_ok s m : inside assoc_ok s -> inside assoc_ok (abandon_message s m).
Proof.
  destruct s as [a o], m as [id [st sq]]. unfold inside. cbn. generalize (omap (fun p : Z * Outstanding =>
    if out_message_id p.2 =? id then Some p.1 else None) (btree_entries (outstanding a))). intros l Ha.
  revert a Ha. induction l as [|t l IH]; intros a Ha; cbn; [done|]. by apply IH, abandon_tsn_ok.
Qed.

Lemma tick_ok now : triple assoc_ok assoc_ok (tick now) (fun _ => assoc_ok).
Proof.
  intros a Ha. unfold tick. destruct (negb _); [done|].
  pose proof (tick_scan_ok now (btree_keys (outstanding a)) a default_output ∅ Ha) as Hs.
  destruct (tick_scan _ _ _ _ _) as [[b out] ab]. cbn in Hs. destruct (bool_decide _); [done|].
  assert (forall l s, inside assoc_ok s -> inside assoc_ok (foldl abandon_message s l)) as Hfold.
  { induction l as [|m l IH]; intros s Hs'; cbn; [done|]. by apply IH, abandon_message_ok. }
  specialize (Hfold (btree_entries ab) (b, out) Hs). destruct (foldl _ _ _) as [b' out']. cbn in Hfold.
  destruct (peer_forward_tsn_supported b'); [|done]. pose proof (build_forward_tsn_ok now b' Hfold) as Hf.
  destruct (build_forward_tsn now b') as [b'' [[p|]|e| |]]; done.
Qed.
End Calls.

(** ** Sequences of calls *)
Inductive Call :=
| HandlePacket (now : Duration) (packet : bytes)
| SendMessage (now : Duration) (stream_id : Z) (kind : MessageKind) (payload : bytes)
| Tick (now : Duration).

Definition call_ok (c : Call) : Prop :=
  match c with
  | HandlePacket _ packet => rust_slice packet
  | SendMessage _ _ _ payload => rust_slice payload
  | Tick _ => True
  end.

Lemma pending_size c p : (forall x, c = Some x -> u32 x) -> pending_ok c p -> Z.of_nat (size p) <= MAX_PENDING_TSN.
Proof.
  intros Hc Hp. destruct c as [c|].
  - cut (size p <= 1024)%nat; [unfold MAX_PENDING_TSN; lia|]. apply (window_size p (fun k => dist k c)).
    + intros k x Hx. destruct (Hp _ _ Hx) as (_ & _ & c' & [= <-] & Hw). exact Hw.
    + intros k k' x x' Hx Hx' Heq. apply (dist_inj_l c k k'); [by apply Hc|..|done].
      * destruct (Hp _ _ Hx) as (Hd & <- & _). apply Hd.
      * destruct (Hp _ _ Hx') as (Hd & <- & _). apply Hd.
  - destruct (decide (p = ∅)) as [->|(k & x & Hx)%map_choose]; [by rewrite map_size_empty|].
    by destruct (Hp _ _ Hx) as (_ & _ & c & [=] & _).
Qed.

Lemma flight_size {A} next c (m : gmap Z A) : u32 next -> window_ok next c m -> Z.of_nat (size m) <= 257.
Proof.
  intros Hn Hm. cut (size m <= 257)%nat; [lia|]. apply (window_size m (fun k => dist next k)).
  - intros k x Hx. destruct (Hm _ _ Hx) as (_ & Hw & _). exact Hw.
  - intros k k' x x' Hx Hx' Heq. apply (dist_inj_r next k k'); [done|apply (Hm _ _ Hx)|apply (Hm _ _ Hx')|done].
Qed.

Section Sequences.
Context {key_order : KeyOrder}.

(** The state a call leaves and what came back, without the value. *)
Definition call (c : Call) (a : Association) : Association * outcome DataChannelError AssociationOutput :=
  match c with
  | HandlePacket now packet => handle_packet now packet a
  | SendMessage now stream_id kind payload =>
      let '(a, r) := send_message now stream_id kind payload a in
      (a, ps ← r; Ok {| packets := ps; events := []; retransmitted_packets := 0 |})
  | Tick now => tick now a
  end.
Definition run (calls : list Call) (a : Association) : Association := foldl (fun a c => (call c a).1) a calls.

Lemma association_new_ok c a : config_ok c -> new c = Ok a -> assoc_ok c a.
Proof.
  intros Hc H. unfold new in H. inv_ok H. subst a. pose proof Hc as (_ & _ & _ & _ & Ht & _).
  pose proof Hstep as Hv%reject_if_Ok. split; cbn; rewrite ?map_size_empty; try done; try lia;
    try lazymatch goal with |- pending_ok _ _ => apply map_Forall_empty | |- window_ok _ _ _ => apply map_Forall_empty
        | |- map_Forall _ _ => apply map_Forall_empty end.
  apply wrapping_sub_fits. lia.
Qed.

Lemma call_keeps conf c a : call_ok c -> assoc_ok conf a -> assoc_ok conf (call c a).1 /\ returns (call c a).2.
Proof.
  intros Hc Ha. destruct c as [now p|now st k p|now]; cbn.
  - pose proof (handle_packet_ok conf now p Hc a Ha). by destruct (handle_packet now p a) as [b [?|?| |]].
  - pose proof (send_message_ok conf now st k p a Ha). by destruct (send_message now st k p a) as [b [?|?| |]].
  - pose proof (tick_ok conf now a Ha). by destruct (tick now a) as [b [?|?| |]].
Qed.

Lemma run_ok conf calls a : Forall call_ok calls -> assoc_ok conf a -> assoc_ok conf (run calls a).
Proof.
  intros Hc. revert a. induction Hc as [|c calls Hc _ IH]; intros a Ha; [done|]. cbn. by apply IH, call_keeps.
Qed.

(** C32: whatever the packets, messages and timer calls are, an association keeps what it holds
    within its limits (channels and reassembled octets within the configuration, at most 1024
    chunks out of order, 256 chunks in flight and 257 abandoned ones), its configuration never
    changes, and the next call comes back without a panic. *)
Theorem association_bounded c a0 calls next : config_ok c -> new c = Ok a0 -> Forall call_ok calls -> call_ok next ->
  let a := run calls a0 in
  config a = c /\
  Z.of_nat (size (channels a)) <= maximum_channels c /\
  Z.of_nat (size (pending_data a)) <= MAX_PENDING_TSN /\
  (forall stream r, reassembly a !! stream = Some r ->
    0 <= stream < peer_outbound_streams a /\ len (asm_payload r) <= maximum_message_bytes c) /\
  Z.of_nat (size (outstanding a)) <= MAX_OUTSTANDING /\
  Z.of_nat (size (abandoned a)) <= 257 /\
  returns (call next a).2.
Proof.
  intros Hc Hnew Hcalls Hnext a. assert (assoc_ok c a) as Ha by (apply run_ok; [done|by apply association_new_ok]).
  pose proof (ok_same _ Ha) as Hsame. split_and!.
  - done.
  - rewrite <- Hsame. apply Ha.
  - exact (pending_size _ _ (ok_cumulative _ Ha) (ok_pending _ Ha)).
  - intros stream r Hr. destruct (ok_reassembly _ Ha _ _ Hr) as (? & _ & ?). rewrite <- Hsame. done.
  - apply Ha.
  - exact (flight_size _ _ _ (ok_next _ Ha) (ok_abandoned _ Ha)).
  - by apply (call_keeps c).
Qed.

(** ** Establishment *)
Definition not_established (a : Association) : Prop := state a <> Established.

Lemma preserves_on_self {A} P (m : method A) : preserves P m -> preserves (inside P) (on_self m).
Proof. intros Hm [a o] HP. unfold on_self, inside in *. cbn. specialize (Hm a HP). by destruct (m a). Qed.
Lemma preserves_same {S A} (P : S -> Prop) (m : prog S DataChannelError A) : (forall s, (m s).1 = s) -> preserves P m.
Proof. intros Hm s HP. by rewrite Hm. Qed.

Ltac keeps :=
  repeat (cbv beta zeta; first
    [ apply preserves_bind; [|intros ?]
    | apply preserves_on_self
    | apply preserves_for_each; intros ?
    | apply preserves_lift | apply preserves_fail | apply preserves_gets | apply preserves_ret
    | apply preserves_modify; by intros ? ?
    | apply preserves_same; by intros ?
    | case_match ]).

Lemma sack_keeps_state value : preserves not_established (handle_sack value).
Proof. unfold handle_sack. keeps; apply preserves_modify; intros x Hx; by case_match. Qed.
Lemma init_keeps_state tag value : preserves (inside not_established) (handle_init tag value).
Proof. unfold handle_init. keeps. Qed.

(** A handler that wants an established association fails at once. *)
Lemma refused {A} f e (k : unit -> handler A) s : f s.1 = true -> ((on_self (check f e) ≫= k) s).1 = s.
Proof. destruct s as [a o]. unfold mbind, prog_bind, on_self, check, reject_if. cbn. by intros ->. Qed.

Lemma chunk_keeps_state now tag chunk : chunk_kind chunk <> TYPE_COOKIE_ECHO ->
  preserves (inside not_established) (handle_chunk now tag chunk).
Proof.
  intros Hk. unfold handle_chunk. cbv zeta.
  assert (forall {A} (m : handler A), preserves (inside not_established) m ->
    preserves (inside not_established) (_ ← on_self (require_verification_tag tag); m)) as Hreq.
  { intros A m Hm. unfold require_verification_tag. by keeps. }
  repeat case_match; [..|by intros ??].
  - apply init_keeps_state.
  - lia.
  - apply Hreq. intros s Hs. unfold handle_data. rewrite refused; [done|]. by rewrite bool_decide_eq_false_2.
  - apply Hreq, preserves_on_self, sack_keeps_state.
  - apply Hreq. keeps.
  - keeps.
  - apply Hreq. keeps.
  - apply Hreq. intros s Hs. unfold handle_reconfiguration. rewrite refused; [done|]. by rewrite bool_decide_eq_false_2.
  - apply Hreq. intros s Hs. unfold handle_forward_tsn. rewrite refused; [done|]. by rewrite bool_decide_eq_false_2.
Qed.

Lemma cookie_establishes tag value s : not_established s.1 -> state (handle_cookie_echo tag value s).1.1 = Established ->
  tag = verification_tag (config s.1) /\ constant_time_equal value (cookie (config s.1)) = true.
Proof.
  destruct s as [a o]. intros Hn. cbn in Hn.
  unfold handle_cookie_echo, mbind, prog_bind, on_self, require_verification_tag, check, reject_if. cbn -[constant_time_equal].
  destruct (negb (bool_decide (state a = CookieWait))); [done|].
  destruct (tag =? verification_tag (config a)) eqn:Ht; [|done]. cbn -[constant_time_equal].
  destruct (constant_time_equal value (cookie (config a))); [|done]. split; [lia|done].
Qed.

(** The packet has the local verification tag and a COOKIE ECHO chunk with the issued cookie. *)
Definition carries_cookie (c : AssociationConfig) (packet : bytes) : Prop := exists parsed chunk,
  parse_packet packet = Ok parsed /\ packet_tag parsed = verification_tag c /\
  chunk ∈ packet_chunks parsed /\ chunk_kind chunk = TYPE_COOKIE_ECHO /\ chunk_value chunk = cookie c.

Lemma chunk_establishes conf now tag chunk s : rust_slice (chunk_value chunk) -> assoc_ok conf s.1 -> not_established s.1 ->
  state (handle_chunk now tag chunk s).1.1 = Established ->
  tag = verification_tag conf /\ chunk_kind chunk = TYPE_COOKIE_ECHO /\ chunk_value chunk = cookie conf.
Proof.
  intros [Hv _] Ha Hn Hs. destruct (decide (chunk_kind chunk = TYPE_COOKIE_ECHO)) as [Hk|Hk].
  - unfold handle_chunk in Hs. rewrite Hk in Hs. apply cookie_establishes in Hs as [Ht Hc]; [|done].
    destruct (ok_config _ Ha) as (_ & _ & _ & _ & _ & Hcookie). rewrite (ok_same _ Ha) in *.
    by apply constant_time_equal_spec in Hc.
  - by pose proof (chunk_keeps_state now tag chunk Hk s Hn).
Qed.

Lemma chunks_establish conf now tag chunks s : Forall (fun c => rust_slice (chunk_value c)) chunks -> assoc_ok conf s.1 ->
  not_established s.1 -> state (for_each chunks (handle_chunk now tag) s).1.1 = Established ->
  exists chunk, chunk ∈ chunks /\ tag = verification_tag conf /\ chunk_kind chunk = TYPE_COOKIE_ECHO /\
    chunk_value chunk = cookie conf.
Proof.
  intros Hc. revert s. induction Hc as [|c chunks Hc _ IH]; intros s Ha Hn Hs; [done|].
  pose proof (handle_chunk_ok conf now tag c Hc s Ha) as Hok. pose proof (chunk_establishes conf now tag c s Hc Ha Hn) as Hone.
  cbn in Hs. unfold mbind, prog_bind in Hs. destruct (decide (state (handle_chunk now tag c s).1.1 = Established)) as [He|Hne].
  { exists c. split; [by left|]. by apply Hone. }
  destruct (handle_chunk now tag c s) as [s' [[]|e| |]]; [|done..].
  destruct (IH s' Hok Hne Hs) as (d & Hd & Hrest). exists d. split; [by right|done].
Qed.

Lemma packet_establishes conf now packet a : rust_slice packet -> assoc_ok conf a -> not_established a ->
  state (handle_packet now packet a).1 = Established -> carries_cookie conf packet.
Proof.
  intros Hp Ha Hn Hs. unfold handle_packet, mbind, prog_bind, lift in Hs. cbn in Hs.
  destruct (parse_packet packet) as [parsed|e| |] eqn:Hparse; [|done..]. unfold check, reject_if in Hs.
  destruct (_ || _); [done|]. cbn in Hs. unfold with_output in Hs.
  destruct (for_each _ _ _) as [[a' o] r] eqn:Hrun. cbn in Hs.
  pose proof (parse_packet_slices _ _ Hp Hparse) as Hsl.
  destruct (chunks_establish conf now (packet_tag parsed) (packet_chunks parsed) (a, default_output) Hsl Ha Hn)
    as (chunk & Hin & Ht & Hk & Hv); [by rewrite Hrun|].
  by exists parsed, chunk.
Qed.

(** an association is established only after a packet with its verification tag brought
    back the cookie that it issued. *)
Theorem established_by_cookie c a0 calls : config_ok c -> new c = Ok a0 -> Forall call_ok calls ->
  state (run calls a0) = Established ->
  exists now packet, HandlePacket now packet ∈ calls /\ carries_cookie c packet.
Proof.
  intros Hc Hnew Hcalls. induction calls as [|x calls IH] using rev_ind.
  { intros H. unfold new in Hnew. inv_ok Hnew. by subst a0. }
  apply Forall_app in Hcalls as [Hcalls Hx]. rewrite Forall_singleton in Hx. unfold run in *. rewrite foldl_snoc. intros Hs.
  assert (assoc_ok c (run calls a0)) as Ha by (apply run_ok; [done|by apply association_new_ok]). fold (run calls a0) in *.
  destruct (decide (state (run calls a0) = Established)) as [He|Hn].
  { destruct (IH Hcalls He) as (now & p & Hin & Hp). exists now, p. split; [|done]. apply elem_of_app. by left. }
  destruct x as [now p|now st k p|now].
  - exists now, p. split; [apply elem_of_app; right; by left|]. exact (packet_establishes c now p _ Hx Ha Hn Hs).
  - exfalso. apply Hn. rewrite <- Hs. cbn. unfold send_message, mbind, prog_bind, check, reject_if.
    by rewrite bool_decide_eq_false_2.
  - exfalso. apply Hn. rewrite <- Hs. cbn. unfold tick. by rewrite bool_decide_eq_false_2.
Qed.
End Sequences.

(** ** A concrete handshake *)
Definition list_order : KeyOrder := {| hash_keys := fun m => (map_to_list m).*1; hash_keys_perm := fun m => reflexivity _ |}.

Definition example_config (tag initial : Z) : AssociationConfig :=
  {| local_port := 5000; remote_port := 5000; verification_tag := tag; initial_tsn := initial;
     cookie := replicate 16 9; maximum_channels := 4; maximum_message_bytes := 5000 |}.
Definition built (tag kind flags : Z) (value : bytes) : bytes :=
  match build_packet 5000 5000 tag kind flags value with Ok p => p | _ => [] end.
(** INIT, COOKIE ECHO and DCEP OPEN of a peer. *)
Definition example_calls (tag peer_tag peer_tsn : Z) : list Call :=
  [HandlePacket 0 (built 0 TYPE_INIT 0 (to_be_bytes 4 peer_tag ++ to_be_bytes 4 1000 ++ to_be_bytes 2 10 ++
     to_be_bytes 2 10 ++ to_be_bytes 4 peer_tsn ++ to_be_bytes 2 PARAMETER_FORWARD_TSN_SUPPORTED ++ to_be_bytes 2 4));
   HandlePacket 0 (built tag TYPE_COOKIE_ECHO 0 (replicate 16 9));
   HandlePacket 0 (built tag TYPE_DATA 3 (to_be_bytes 4 peer_tsn ++ to_be_bytes 2 0 ++ to_be_bytes 2 0 ++
     to_be_bytes 4 PPID_DCEP ++ [3; 0; 0; 0; 0; 0; 0; 0; 0; 1; 0; 0; 65]))].
Definition example_peer (tag initial peer_tag peer_tsn : Z) : Association :=
  run (key_order := list_order) (example_calls tag peer_tag peer_tsn) (fresh (example_config tag initial)).

Lemma example_config_ok : config_ok (example_config 7 1000) /\ config_ok (example_config 8 2000).
Proof. split; split_and!; try done; apply rust_slice_check; reflexivity. Qed.
Lemma example_calls_ok : Forall call_ok (example_calls 7 8 2000) /\ Forall call_ok (example_calls 8 7 1000).
Proof. by split; do 3 (apply Forall_cons; split; [apply rust_slice_check; vm_compute; reflexivity|]). Qed.

Lemma association_bounded_witness :
  let a := example_peer 7 1000 8 2000 in
  state a = Established /\ size (channels a) = 1%nat /\ Z.of_nat (size (outstanding a)) <= MAX_OUTSTANDING /\
  returns (call (key_order := list_order) (Tick 600000000) a).2.
Proof.
  destruct (association_bounded (key_order := list_order) (example_config 7 1000) (fresh (example_config 7 1000)) (example_calls 7 8 2000)
    (Tick 600000000)) as (_ & _ & _ & _ & H & _ & Hr);
    [apply example_config_ok|vm_compute; reflexivity|apply example_calls_ok|exact I|].
  split; [vm_compute; reflexivity|]. split; [vm_compute; reflexivity|]. split; [exact H|exact Hr].
Defined.

Lemma established_by_cookie_witness :
  exists now packet, HandlePacket now packet ∈ example_calls 7 8 2000 /\ carries_cookie (example_config 7 1000) packet.
Proof.
  apply (established_by_cookie (key_order := list_order) (example_config 7 1000) (fresh (example_config 7 1000)) (example_calls 7 8 2000));
    [apply example_config_ok|vm_compute; reflexivity|apply example_calls_ok|vm_compute; reflexivity].
Defined.
