(* ===== verification/SctpDelivery.v ===== *)
(** * webrtc/data-channel: ordered delivery

    Chunks are handed over in the order of their TSNs, each once, however they arrive; a user
    message that is cut into fragments arrives as the message that was sent. *)
From stdpp Require Import sorting fin_maps.
From S2P Require Import Prelude Words Slices RustStd SctpPacket SctpAssociation SctpInvariant SctpSafety.

(** ** Arrivals in any order *)
Section Order.
(** A stream of chunks: chunk [j] has the TSN [j] steps after the first one. *)
Context (initial : Z) (D : Z -> DataChunk).
Definition tsn_of (j : Z) : Z := wrapping_add 32 initial j.
Context (Htsn : forall j, data_tsn (D j) = tsn_of j).

(** The chunks before [k] are delivered, the other accepted ones wait. *)
Record received (k : Z) (acc : gset Z) (a : Association) : Prop := {
  rx_nonneg : 0 <= k;
  rx_acc : forall j, j ∈ acc -> 0 <= j < 2 ^ 31;
  rx_done : forall i, 0 <= i < k -> i ∈ acc;
  rx_cumulative : cumulative_peer_tsn a = Some (tsn_of (k - 1));
  rx_pending : forall t d, pending_data a !! t = Some d <-> exists j, j ∈ acc /\ k <= j /\ t = tsn_of j /\ d = D j }.

Lemma tsn_inj i j : 0 <= i < 2 ^ 31 -> 0 <= j < 2 ^ 31 -> tsn_of i = tsn_of j -> i = j.
Proof. unfold tsn_of. intros. serial. Qed.
Lemma tsn_next k : wrapping_add 32 (tsn_of (k - 1)) 1 = tsn_of k.
Proof. unfold tsn_of. serial. Qed.
Lemma tsn_succ k : wrapping_add 32 (tsn_of k) 1 = tsn_of (k + 1).
Proof. unfold tsn_of. serial. Qed.

Lemma received_next k acc a d : received k acc a ->
  pending_data a !! tsn_of k = Some d <-> k ∈ acc /\ d = D k.
Proof.
  intros Hr. rewrite (rx_pending _ _ _ Hr). pose proof (rx_nonneg _ _ _ Hr). split.
  - intros (j & Hj & Hle & Heq & ->). pose proof (rx_acc _ _ _ Hr _ Hj). apply tsn_inj in Heq; [by subst|lia..].
  - intros [Hk ->]. by exists k.
Qed.

(** The next chunk leaves the buffer. *)
Lemma received_take k acc a : received k acc a -> k ∈ acc ->
  received (k + 1) acc
    (set_cumulative_peer_tsn (Some (tsn_of k)) (set_pending_data (delete (tsn_of k) (pending_data a)) a)).
Proof.
  intros Hr Hk. pose proof (rx_acc _ _ _ Hr) as Hacc. pose proof (Hacc _ Hk) as Hk31. split; cbn.
  - lia.
  - done.
  - intros i Hi. destruct (decide (i = k)) as [->|]; [done|]. apply (rx_done _ _ _ Hr). lia.
  - by rewrite Z.add_simpl_r.
  - intros t d. rewrite lookup_delete_Some, (rx_pending _ _ _ Hr). split.
    + intros (Hne & j & Hj & Hle & -> & ->). exists j. split_and!; try done. destruct (decide (j = k)) as [->|]; [done|lia].
    + intros (j & Hj & Hle & -> & ->). split; [|exists j; split_and!; [done|lia|done..]].
      intros Heq. apply tsn_inj in Heq; [lia|lia|]. by apply Hacc.
Qed.

Lemma drain_received fuel k acc l a : received k acc a -> (size (pending_data a) <= fuel)%nat ->
  exists k' a', drain fuel (tsn_of k) l a = (a', Ok (l ++ (D <$> seqZ k (k' - k)))) /\
    k <= k' /\ received k' acc a' /\ (k' ∉ acc) /\ drain_view a' = drain_view a.
Proof.
  assert (forall k acc l a, received k acc a -> pending_data a !! tsn_of k = None -> exists k' a',
    (a, Ok (E:=DataChannelError) l) = (a', Ok (l ++ (D <$> seqZ k (k' - k)))) /\
    k <= k' /\ received k' acc a' /\ (k' ∉ acc) /\ drain_view a' = drain_view a) as Hstop.
  { clear. intros k acc l a Hr Hd. exists k, a. rewrite Z.sub_diag, app_nil_r. split_and!; [done|lia|done| |done].
    intros Hk. by rewrite (proj2 (received_next k acc a (D k) Hr)) in Hd. }
  revert k l a. induction fuel as [|fuel IH]; intros k l a Hr Hf; cbn [drain];
    (destruct (pending_data a !! tsn_of k) as [d|] eqn:Hd; [|by apply Hstop]).
  - rewrite (map_size_empty_inv (pending_data a)) in Hd by lia. done.
  - pose proof Hd as [Hk ->]%(received_next _ _ _ _ Hr).
    destruct (IH (k + 1) (l ++ [D k]) _ (received_take _ _ _ Hr Hk)) as (k' & a' & Hdr & Hle & Hr' & Hn & Hv).
    { cbn. rewrite map_size_delete_Some by (by eexists). lia. }
    exists k', a'. split_and!; [|lia|done|done|done].
    rewrite tsn_succ, Hdr, <- app_assoc. do 3 f_equal. rewrite (seqZ_cons k) by lia. cbn. by replace (Z.pred (k' - k)) with (k' - (k + 1)) by lia.
Qed.

(** [accept_data] after its lookup of the in-order point. *)
Definition store (d : DataChunk) (a : Association) : Association :=
  match pending_data a !! data_tsn d with
  | Some _ => a
  | None => set_pending_data (<[data_tsn d := d]> (pending_data a)) a
  end.
Lemma accept_data_cases c d a : cumulative_peer_tsn a = Some c ->
  accept_data d a =
    if (dist (data_tsn d) c =? 0) || (Z.shiftl 1 31 <=? dist (data_tsn d) c) then (a, Ok [])
    else if MAX_PENDING_TSN <? dist (data_tsn d) c then (a, Err ReceiveWindowExceeded)
    else if (MAX_PENDING_TSN <=? Z.of_nat (size (pending_data a))) &&
            negb (bool_decide (is_Some (pending_data a !! data_tsn d)))
    then (a, Err ReceiveWindowExceeded)
    else drain (size (pending_data (store d a))) (wrapping_add 32 c 1) [] (store d a).
Proof.
  intros Hc. unfold accept_data. rewrite (prog_step _ _ _ a c) by (unfold try_gets; by rewrite Hc).
  cbv zeta. fold (dist (data_tsn d) c). destruct (_ || _); [done|].
  unfold mbind, prog_bind, lift, check, reject_if, modify, gets. destruct (_ <? _); [done|]. by destruct (_ && _).
Qed.

Lemma received_store j k acc a : received k acc a -> k <= j < 2 ^ 31 -> received k ({[j]} ∪ acc) (store (D j) a).
Proof.
  intros Hr Hj. pose proof (rx_nonneg _ _ _ Hr). pose proof (rx_acc _ _ _ Hr) as Hacc. unfold store. rewrite Htsn.
  assert (forall t d, (exists i, i ∈ {[j]} ∪ acc /\ k <= i /\ t = tsn_of i /\ d = D i) <->
    (t = tsn_of j /\ d = D j) \/ pending_data a !! t = Some d) as Hspec.
  { intros t d. rewrite (rx_pending _ _ _ Hr). split.
    - intros (i & [->%elem_of_singleton|Hi]%elem_of_union & Hle & -> & ->); [by left|]. right. by exists i.
    - intros [[-> ->]|(i & Hi & Hle & -> & ->)]; [exists j|exists i]; split_and!; try done; try lia; set_solver. }
  assert (forall t d, pending_data (store (D j) a) !! t = Some d <-> (t = tsn_of j /\ d = D j) \/ pending_data a !! t = Some d) as Hl.
  { intros t d. unfold store. rewrite Htsn. destruct (pending_data a !! tsn_of j) as [d0|] eqn:Hd0.
    - split; [by right|]. intros [[-> ->]|]; [|done]. rewrite Hd0. f_equal.
      apply (rx_pending _ _ _ Hr) in Hd0 as (i & Hi & _ & Heq & ->). f_equal. symmetry. apply tsn_inj; [lia|by apply Hacc|done].
    - cbn. rewrite lookup_insert_Some. split; [naive_solver|]. intros [[-> ->]|Hd]; [by left|]. right. split; [|done]. congruence. }
  split.
  - done.
  - intros i [->%elem_of_singleton|Hi]%elem_of_union; [lia|by apply Hacc].
  - intros i Hi. apply elem_of_union. right. by apply (rx_done _ _ _ Hr).
  - case_match; cbn; apply (rx_cumulative _ _ _ Hr).
  - intros t d. unfold store in Hl. rewrite Htsn in Hl. by rewrite Hl, Hspec.
Qed.

Lemma received_size k acc a : received k acc a -> (k ∉ acc) -> (forall i, i ∈ acc -> i < 1024) ->
  Z.of_nat (size (pending_data a)) < 1024.
Proof.
  intros Hr Hk Hacc. pose proof (rx_nonneg _ _ _ Hr).
  assert (k <= 1024) as Hk1024.
  { destruct (decide (k = 0)) as [->|]; [lia|]. specialize (Hacc (k - 1) (rx_done _ _ _ Hr (k - 1) ltac:(lia))). lia. }
  enough (size (pending_data a) <= 1023)%nat by lia.
  apply (window_size _ (fun t => dist t (tsn_of k))).
  - intros t d (j & Hj & Hle & -> & ->)%(rx_pending _ _ _ Hr). specialize (Hacc _ Hj).
    assert (j <> k) by congruence. unfold tsn_of. serial.
  - intros t t' d d' (j & Hj & Hle & -> & ->)%(rx_pending _ _ _ Hr) (j' & Hj' & Hle' & -> & ->)%(rx_pending _ _ _ Hr) Heq.
    f_equal. pose proof (rx_acc _ _ _ Hr _ Hj). pose proof (rx_acc _ _ _ Hr _ Hj'). unfold tsn_of in Heq. serial.
Qed.

(** One arrival: it is ignored, refused or accepted, and a run of chunks that is complete now
    comes out in order. *)
Record arrival (j k : Z) (acc : gset Z) (a : Association) (r : outcome DataChannelError (list DataChunk))
    (k' : Z) (acc' : gset Z) (a' : Association) : Prop := {
  ar_le : k <= k';
  ar_received : received k' acc' a';
  ar_next : k' ∉ acc';
  ar_grows : acc ⊆ acc';
  ar_only : acc' ⊆ {[j]} ∪ acc;
  ar_frame : drain_view a' = drain_view a;
  ar_result : r = Ok (D <$> seqZ k (k' - k)) \/ r = Err ReceiveWindowExceeded /\ k' = k;
  ar_accepted : j < 1024 -> (forall i, i ∈ acc -> i < 1024) -> r = Ok (D <$> seqZ k (k' - k)) /\ j ∈ acc' }.

Lemma accept_received j k acc a : received k acc a -> (k ∉ acc) -> 0 <= j < 2 ^ 31 ->
  exists k' acc' a' r, accept_data (D j) a = (a', r) /\ arrival j k acc a r k' acc' a'.
Proof.
  intros Hr Hk Hj. rewrite (accept_data_cases _ _ _ (rx_cumulative _ _ _ Hr)), Htsn.
  assert (k <= 2 ^ 31) as Hk31.
  { destruct (decide (k <= 0)); [lia|]. pose proof (rx_acc _ _ _ Hr _ (rx_done _ _ _ Hr (k - 1) ltac:(lia))). lia. }
  pose proof (rx_nonneg _ _ _ Hr) as Hk0.
  assert (dist (tsn_of j) (tsn_of (k - 1)) = (j - k + 1) mod 2 ^ 32) as Hdist by (unfold tsn_of; serial).
  rewrite Hdist. change (Z.shiftl 1 31) with (2 ^ 31).
  assert (forall r, (r = Ok [] /\ (j < 1024 -> j ∈ acc)) \/ (r = Err ReceiveWindowExceeded /\ (j < 1024 -> ~ (forall i, i ∈ acc -> i < 1024))) ->
    arrival j k acc a r k acc a) as Hsame.
  { intros r Hrr. split; [done..|set_solver|done| |]; rewrite ?Z.sub_diag; cbn.
    - destruct Hrr as [[-> _]|[-> _]]; [by left|by right].
    - intros Hlt Hacc. destruct Hrr as [[-> Hin]|[_ Hno]]; [by auto|]. by destruct (Hno Hlt). }
  destruct (_ || _) eqn:Hold.
  { exists k, acc, a, (Ok []). split; [done|]. apply Hsame. left. split; [done|]. intros Hj1024.
    apply (rx_done _ _ _ Hr). clear - Hold Hj Hj1024 Hk31 Hk0. serial. }
  assert (k <= j < 2 ^ 31) as Hjk by (clear - Hold Hj Hk31 Hk0; serial).
  destruct (_ <? _) eqn:Hwin.
  { exists k, acc, a, (Err ReceiveWindowExceeded). split; [done|]. apply Hsame. right. split; [done|].
    intros. exfalso. clear - Hwin Hj Hjk H Hk0. serial. }
  destruct (_ && _) eqn:Hfull.
  { exists k, acc, a, (Err ReceiveWindowExceeded). split; [done|]. apply Hsame. right. split; [done|].
    intros Hj1024 Hall. pose proof (received_size _ _ _ Hr Hk Hall). unfold MAX_PENDING_TSN in Hfull. lia. }
  rewrite tsn_next. pose proof (received_store j k acc a Hr Hjk) as Hst.
  destruct (drain_received _ _ _ [] _ Hst (le_n _)) as (k' & a' & Hdr & Hle & Hr' & Hn & Hv).
  exists k', ({[j]} ∪ acc), a', (Ok (D <$> seqZ k (k' - k))). split; [done|].
  split; [done..|set_solver|done| |by left|intros _ _; split; [done|set_solver]].
  rewrite Hv. unfold store. by case_match.
Qed.

(** Chunks arrive one after the other; what comes out is collected. *)
Fixpoint arrive (js : list Z) (a : Association) (out : list DataChunk) : Association * list DataChunk :=
  match js with
  | [] => (a, out)
  | j :: js =>
      let '(a, r) := accept_data (D j) a in
      arrive js a (match r with Ok l => out ++ l | _ => out end)
  end.

Lemma arrive_received js k acc a : received k acc a -> (k ∉ acc) -> Forall (fun j => 0 <= j < 2 ^ 31) js ->
  exists k' acc' a', arrive js a (D <$> seqZ 0 k) = (a', D <$> seqZ 0 k') /\ received k' acc' a' /\ (k' ∉ acc') /\
    (forall i, i ∈ acc' -> i ∈ acc \/ i ∈ js) /\ acc ⊆ acc' /\
    (Forall (fun j => j < 1024) js -> (forall i, i ∈ acc -> i < 1024) -> forall j, j ∈ js -> j ∈ acc').
Proof.
  intros Hr Hk Hjs. revert k acc a Hr Hk. induction Hjs as [|j js Hj Hjs IH]; intros k acc a Hr Hk; cbn [arrive].
  { exists k, acc, a. split_and!; try done; [by left|by intros _ _ j ?%not_elem_of_nil]. }
  destruct (accept_received j k acc a Hr Hk Hj) as (k1 & acc1 & a1 & r & -> & []).
  assert ((match r with Ok l => (D <$> seqZ 0 k) ++ l | _ => D <$> seqZ 0 k end) = D <$> seqZ 0 k1) as ->.
  { destruct ar_result0 as [->|[-> ->]]; [|done]. rewrite <- fmap_app. f_equal.
    replace k1 with (k + (k1 - k)) at 2 by lia. pose proof (rx_nonneg _ _ _ Hr).
    rewrite (seqZ_app 0 k) by lia. done. }
  destruct (IH k1 acc1 a1 ar_received0 ar_next0) as (k' & acc' & a' & -> & Hr' & Hk' & Hin & Hsub & Hall).
  exists k', acc', a'. split_and!; try done.
  - intros i Hi. destruct (Hin i Hi) as [H|H]; [|set_solver]. apply ar_only0 in H. set_solver.
  - set_solver.
  - intros Hlt Hacc j' Hj'. apply Forall_cons in Hlt as [Hlt0 Hlt]. destruct (ar_accepted0 Hlt0 Hacc) as [_ Hin'].
    apply elem_of_cons in Hj' as [->|Hj']; [by apply Hsub|]. apply Hall; [done| |done].
    intros i Hi. apply ar_only0 in Hi. apply elem_of_union in Hi as [->%elem_of_singleton|Hi]; [done|by apply Hacc].
Qed.

(** however the chunks of a stream arrive (in any order, repeated, some lost), what
    [accept_data] hands over is a prefix of the stream in order and without repetition; a chunk
    is handed over only if it arrived; and when the first [n] chunks (at most 1024) have all
    arrived, exactly these have been handed over. *)
Theorem data_delivered_in_order js a : cumulative_peer_tsn a = Some (tsn_of (-1)) -> pending_data a = ∅ ->
  Forall (fun j => 0 <= j < 2 ^ 31) js ->
  exists n, (arrive js a []).2 = D <$> seqZ 0 n /\ (forall j, 0 <= j < n -> j ∈ js) /\
    (forall m, m <= 1024 -> (forall j, j ∈ js <-> 0 <= j < m) -> 0 <= m -> n = m).
Proof.
  intros Hc Hp Hjs. assert (received 0 ∅ a) as Hr.
  { split; [lia|set_solver|lia|done|]. intros t d. rewrite Hp, lookup_empty. split; [done|]. set_solver. }
  destruct (arrive_received js 0 ∅ a Hr) as (n & acc & a' & Harr & Hr' & Hn & Hin & _ & Hall); [set_solver|done|].
  change (D <$> seqZ 0 0) with (@nil DataChunk) in Harr. rewrite Harr. exists n. split; [done|]. split.
  - intros j Hj. pose proof (rx_done _ _ _ Hr' _ Hj) as Hacc. apply Hin in Hacc. set_solver.
  - intros m Hm Hjm Hm0. pose proof (rx_nonneg _ _ _ Hr').
    assert (forall j, j ∈ acc <-> 0 <= j < m) as Hacc.
    { intros j. rewrite <- Hjm. split; [intros Hj; apply Hin in Hj; set_solver|]. apply Hall; [|set_solver].
      apply Forall_forall. intros i Hi. apply Hjm in Hi. lia. }
    destruct (Z.lt_trichotomy n m) as [Hlt|[->|Hgt]]; [|done|].
    + exfalso. apply Hn, Hacc. lia.
    + pose proof (rx_done _ _ _ Hr' m ltac:(lia)) as Hmm. apply Hacc in Hmm. lia.
Qed.
End Order.

(** ** A concrete stream *)
Definition example_chunk (j : Z) : DataChunk :=
  {| data_flags := 3; data_tsn := tsn_of 4294967295 j; data_stream_id := 0; data_stream_sequence := j; data_ppid := PPID_STRING;
     data_payload := [j] |}.
Definition example_receiver : Association :=
  accept_init 8 10 4294967295 false (fresh (example_config 7 1000)).

Lemma data_delivered_in_order_witness :
  exists n, (arrive example_chunk [2; 0; 2; 1] example_receiver []).2 = example_chunk <$> seqZ 0 n /\ n = 3.
Proof.
  destruct (data_delivered_in_order 4294967295 example_chunk (fun _ => eq_refl) [2; 0; 2; 1] example_receiver) as (n & Ha & _ & Hn);
    [reflexivity|reflexivity|repeat constructor; lia|].
  exists n. split; [exact Ha|]. apply (Hn 3); [lia| |lia].
  intros j. rewrite !elem_of_cons, elem_of_nil. lia.
Defined.
