(* ===== verification/SctpMessages.v ===== *)
(** * webrtc/data-channel: messages from one association to another

    [send_message] cuts a message into DATA chunks; whatever the order in which their packets
    arrive, the peer's [handle_packet] puts the message together and reports it once. *)
From stdpp Require Import sorting fin_maps.
From S2P Require Import Prelude Words Slices RustStd SctpPacket SctpAssociation SctpInvariant SctpSafety SctpDelivery.

(** ** Fragments *)
Lemma chunks_of_lengths fuel n payload : 0 < n -> Forall (fun c => 1 <= len c <= n) (chunks_of fuel n payload).
Proof.
  intros Hn. revert payload. induction fuel as [|fuel IH]; intros [|x l]; cbn; constructor; [|apply IH].
  rewrite len_take, len_cons. pose_len. lia.
Qed.
Lemma payload_chunks_concat n payload : 0 < n -> concat (payload_chunks n payload) = payload.
Proof. intros Hn. by apply payload_chunks_fuel. Qed.
Lemma payload_chunks_some n payload : payload <> [] -> 1 <= len (payload_chunks n payload).
Proof. destruct payload; [done|]. intros _. unfold payload_chunks. cbn. rewrite len_cons. pose_len. lia. Qed.

(** ** What is sent *)
Section Sender.
Context (message : OutboundMessage) (first count : Z).

(** Chunk [j] of the message. *)
Definition chunk_at (j : Z) (fragment : bytes) : DataChunk :=
  {| data_flags := fragment_flags (msg_ordered message) j count; data_tsn := tsn_of first j;
     data_stream_id := msg_stream_id message; data_stream_sequence := msg_stream_sequence message;
     data_ppid := msg_ppid message; data_payload := fragment |}.

(** A packet that carries one chunk of the message. *)
Definition carries (c : AssociationConfig) (tag : Z) (d : DataChunk) (packet : bytes) : Prop :=
  build_packet (local_port c) (remote_port c) tag TYPE_DATA (data_flags d)
    (data_value (data_tsn d) message (data_payload d)) = Ok packet.

Lemma enqueue_fragments_sends now id tag index fragments a a' packets : peer_verification_tag a = Some tag ->
  next_tsn a = tsn_of first index ->
  enqueue_fragments now message id count index fragments a = (a', Ok packets) ->
  next_tsn a' = tsn_of first (index + len fragments) /\ length packets = length fragments /\
  forall i f, fragments !! i = Some f ->
    exists p, packets !! i = Some p /\ carries (config a) tag (chunk_at (index + Z.of_nat i) f) p.
Proof.
  revert index a packets. induction fragments as [|f fragments IH]; intros index a packets Ht Hn H; cbn [enqueue_fragments] in H.
  { injection H as <- <-. rewrite len_nil, Z.add_0_r. done. }
  cbv zeta in H. apply prog_bind_Ok in H as (a1 & tsn & [= <- <-] & H).
  apply prog_bind_Ok in H as (a2 & [] & [= <-] & H). apply prog_bind_Ok in H as (a3 & p & Hp & H).
  unfold packet_to_peer, try_gets in Hp. injection Hp as <- Hp. apply prog_bind_Ok in H as (a4 & [] & [= <-] & H).
  apply prog_bind_Ok in H as (a5 & ps & Hps & [= <- <-]).
  unfold peer_tag in Hp. cbn in Hp. rewrite Ht in Hp. cbn in Hp.
  apply IH in Hps as (Hnext & Hlen & Hall); [|done|cbn; by rewrite Hn, tsn_succ].
  rewrite len_cons. split_and!; [by rewrite Hnext, Z.add_assoc|by cbn; f_equal|].
  intros [|i] g Hg; cbn in Hg.
  - injection Hg as <-. exists p. split; [done|]. unfold carries. cbn. rewrite Z.add_0_r, <- Hn. exact Hp.
  - destruct (Hall i g Hg) as (q & Hq & Hc). exists q. split; [done|].
    by replace (index + Z.of_nat (S i)) with (index + 1 + Z.of_nat i) by lia.
Qed.
End Sender.

(** The PPID and the octets of a message on the wire. *)
Definition wire (kind : MessageKind) (payload : bytes) : Z * bytes :=
  match kind, bool_decide (payload = []) with
  | Text, false => (PPID_STRING, payload)
  | Binary, false => (PPID_BINARY, payload)
  | Text, true => (PPID_STRING_EMPTY, [0])
  | Binary, true => (PPID_BINARY_EMPTY, [0])
  end.

Lemma wire_nonempty kind payload : (wire kind payload).2 <> [].
Proof. unfold wire. destruct kind; case_bool_decide; done. Qed.

Definition outbound (stream : Z) (kind : MessageKind) (payload : bytes) (ch : Channel) : OutboundMessage :=
  {| msg_stream_id := stream; msg_stream_sequence := next_outgoing_sequence ch; msg_ppid := (wire kind payload).1;
     msg_ordered := channel_ordered ch; msg_reliability := channel_reliability ch |}.

Lemma send_message_inv now stream kind payload a a' packets tag : peer_verification_tag a = Some tag -> u32 (next_tsn a) ->
  send_message now stream kind payload a = (a', Ok packets) ->
  let fragments := payload_chunks MAX_DATA_PAYLOAD (wire kind payload).2 in
  exists ch, channels a !! stream = Some ch /\ (kind = Text -> from_utf8 payload = true) /\ len fragments <= 256 /\
    next_tsn a' = tsn_of (next_tsn a) (len fragments) /\ length packets = length fragments /\
    forall i f, fragments !! i = Some f -> exists p, packets !! i = Some p /\
      carries (outbound stream kind payload ch) (config a) tag
        (chunk_at (outbound stream kind payload ch) (next_tsn a) (len fragments) (Z.of_nat i) f) p.
Proof.
  intros Ht Hn H fragments. unfold send_message in H.
  apply prog_bind_Ok in H as (a1 & [] & Hs & H). injection Hs as <- _.
  apply prog_bind_Ok in H as (a1 & [] & Hs & H). injection Hs as <- _.
  apply prog_bind_Ok in H as (a1 & [] & Hs & H). injection Hs as <- Hutf%reject_if_Ok.
  apply prog_bind_Ok in H as (a1 & ch & Hs & H). injection Hs as <- Hch%ok_or_Ok.
  apply prog_bind_Ok in H as (a1 & [] & [= <-] & H). fold (wire kind payload) in H.
  exists ch. split; [done|]. split.
  { intros ->. by destruct (from_utf8 payload). }
  destruct (wire kind payload) as [ppid w] eqn:Hw. cbn [snd] in fragments. unfold enqueue_message in H. cbv zeta in H.
  fold fragments in H. apply prog_bind_Ok in H as (a2 & [] & Hs & H). injection Hs as <- Hroom%reject_if_Ok.
  apply prog_bind_Ok in H as (a2 & id & [= <- <-] & H). apply prog_bind_Ok in H as (a2 & [] & [= <-] & H).
  assert (msg_ppid (outbound stream kind payload ch) = ppid) as Hppid by (cbn; by rewrite Hw).
  assert (outbound stream kind payload ch = {| msg_stream_id := stream; msg_stream_sequence := next_outgoing_sequence ch;
    msg_ppid := ppid; msg_ordered := channel_ordered ch; msg_reliability := channel_reliability ch |}) as Hm
    by (unfold outbound; by rewrite Hw).
  rewrite <- Hm in H.
  apply (enqueue_fragments_sends _ (next_tsn a) _ _ _ tag) in H as (Hnext & Hlen & Hall); [|done|].
  2:{ cbn. unfold tsn_of, wrapping_add. rewrite Z.add_0_r. symmetry. apply Z.mod_small. apply Hn. }
  split; [|done]. apply orb_false_iff in Hroom as [Hr _]. unfold saturating_add, MAX_OUTSTANDING in Hr. change (umax 64) with (2 ^ 64 - 1) in Hr.
  apply Z.ltb_ge in Hr. lia.
Qed.

Lemma length_omap_le {A B} (f : A -> option B) l : (length (omap f l) <= length l)%nat.
Proof.
  induction l as [|x l IH]; [done|].
  change (omap f (x :: l)) with (match f x with Some y => y :: omap f l | None => omap f l end). case_match; cbn; lia.
Qed.

(** The selective acknowledgement always fits a packet. *)
Lemma push_gap_len gaps delta : len (push_gap gaps delta) <= len gaps + 1.
Proof.
  unfold push_gap. destruct (last gaps) as [[s e]|] eqn:Hl; [case_match|]; rewrite ?len_app; change (len [_]) with 1; try lia.
  apply last_Some in Hl as [l' ->]. rewrite removelast_last, len_app. change (len [_]) with 1. lia.
Qed.
Lemma sack_gaps_len c p : len (sack_gaps c p) <= Z.of_nat (size p).
Proof.
  unfold sack_gaps. set (deltas := omap _ _).
  assert (len (merge_sort Z.le deltas) <= Z.of_nat (size p)) as Hd.
  { unfold len. rewrite (Permutation_length (merge_sort_Permutation Z.le deltas)). unfold deltas.
    etrans; [apply inj_le, length_omap_le|]. by rewrite !length_fmap, length_map_to_list. }
  enough (forall l gaps, len (foldl push_gap gaps l) <= len gaps + len l) as H.
  { specialize (H (merge_sort Z.le deltas) []). rewrite len_nil in H. lia. }
  induction l as [|d l IH]; intros gaps; cbn; [rewrite len_nil; lia|]. rewrite len_cons.
  pose proof (push_gap_len gaps d). specialize (IH (push_gap gaps d)). lia.
Qed.

Lemma choose_indices {A B} (P : A -> B -> Prop) l : (forall x, x ∈ l -> exists y, P x y) -> exists ys, Forall2 P l ys.
Proof.
  induction l as [|x l IH]; intros H; [by exists []|].
  destruct (H x ltac:(by left)) as [y Hy]. destruct IH as [ys Hys]; [intros z Hz; apply H; by right|].
  exists (y :: ys). by constructor.
Qed.

(** ** Reassembly *)
Section Receiver.
Context (conf : AssociationConfig) (stream : Z) (kind : MessageKind) (payload : bytes) (ch : Channel) (first : Z).
Abbreviation message := (outbound stream kind payload ch).
Abbreviation fragments := (payload_chunks MAX_DATA_PAYLOAD (wire kind payload).2).
Abbreviation n := (len fragments).
(** The chunks of the message, by their position. *)
Definition D (j : Z) : DataChunk := chunk_at message first n j (default [] (fragments !! Z.to_nat j)).
Context (Hsize : len payload <= maximum_message_bytes conf) (Hmax : maximum_message_bytes conf <= 256 * 1024).
Context (Hutf : kind = Text -> from_utf8 payload = true).

(** What the receiver keeps for its other streams. *)
Context (open_channels : gmap Z Channel) (streams : Z).

(** The receiver after the first [i] fragments. *)
Record reading (i : Z) (a : Association) : Prop := {
  rd_state : state a = Established;
  rd_config : config a = conf;
  rd_tag : is_Some (peer_verification_tag a);
  rd_others : channels a = open_channels /\ peer_outbound_streams a = streams;
  rd_stream : stream < peer_outbound_streams a;
  rd_channel : is_Some (channels a !! stream);
  rd_assembly : 0 < i < n -> reassembly a !! stream = Some {|
    asm_stream_sequence := next_outgoing_sequence ch; asm_ppid := msg_ppid message;
    asm_payload := concat (take (Z.to_nat i) fragments) |} }.

Definition events_between (i j : Z) : list AssociationEvent :=
  if (i <? n) && (j =? n) then [Message stream kind payload] else [].

Lemma fragment_begin i : 0 <= i -> negb (Z.land (fragment_flags (channel_ordered ch) i n) FLAG_DATA_BEGIN =? 0) = (i =? 0).
Proof. intros Hi. unfold fragment_flags. destruct (channel_ordered ch), (i =? 0), (i + 1 =? n); reflexivity. Qed.
Lemma fragment_end i : negb (Z.land (fragment_flags (channel_ordered ch) i n) FLAG_DATA_END =? 0) = (i + 1 =? n).
Proof. unfold fragment_flags. destruct (channel_ordered ch), (i =? 0), (i + 1 =? n); reflexivity. Qed.

Lemma wire_len : 1 < n -> (wire kind payload).2 = payload.
Proof.
  unfold wire. destruct kind, (bool_decide (payload = [])); cbn [snd]; try done; intros H; exfalso; vm_compute in H; lia.
Qed.

(** What [handle_user_message] reports once the octets are together. *)
Lemma user_message_reported a o : is_Some (channels a !! stream) -> config a = conf ->
  handle_user_message stream (msg_ppid message) (wire kind payload).2 (a, o) =
    ((a, {| packets := packets o; events := events o ++ [Message stream kind payload];
            retransmitted_packets := retransmitted_packets o |}), Ok tt).
Proof.
  intros Hch Hc. unfold handle_user_message.
  rewrite (prog_step _ _ _ (a, o) tt) by (unfold on_self, check, reject_if; cbn; by rewrite bool_decide_eq_true_2).
  assert ((if (msg_ppid message =? PPID_STRING_EMPTY) || (msg_ppid message =? PPID_BINARY_EMPTY) then [] else (wire kind payload).2) = payload) as Hp.
  { cbn. unfold wire. destruct kind, (decide (payload = [])) as [->|Hne]; try done;
      by rewrite bool_decide_eq_false_2. }
  rewrite (prog_step _ _ _ (a, o) kind).
  2:{ cbn. unfold wire. destruct kind, (bool_decide (payload = [])); reflexivity. }
  cbv zeta. rewrite Hp.
  rewrite (prog_step _ _ _ (a, o) tt).
  2:{ unfold lift, reject_if. destruct kind; cbn; [by rewrite Hutf|done]. }
  rewrite (prog_step _ _ _ (a, o) tt); [done|].
  unfold on_self, check, reject_if. cbn. rewrite Hc. by replace (_ <? _) with false by lia.
Qed.

Lemma take_fragment i : 0 <= i < n ->
  concat (take (Z.to_nat i) fragments) ++ default [] (fragments !! Z.to_nat i) = concat (take (Z.to_nat (i + 1)) fragments).
Proof.
  intros Hi. destruct (lookup_lt_is_Some_2 fragments (Z.to_nat i)) as [f Hf]; [unfold len in Hi; lia|].
  rewrite Hf. replace (Z.to_nat (i + 1)) with (S (Z.to_nat i)) by lia.
  rewrite (take_S_r _ _ f Hf), concat_app. cbn. by rewrite app_nil_r.
Qed.
Lemma take_all_fragments i : i = n -> concat (take (Z.to_nat i) fragments) = (wire kind payload).2.
Proof. intros ->. rewrite take_ge by (unfold len; lia). by apply payload_chunks_concat. Qed.

Lemma prefix_short i : 0 <= i -> 1 < n -> len (concat (take (Z.to_nat i) fragments)) <= len payload.
Proof.
  intros Hi Hn. assert (concat (take (Z.to_nat i) fragments) ++ concat (drop (Z.to_nat i) fragments) = payload) as Hc.
  { rewrite <- concat_app, take_drop, payload_chunks_concat by done. by apply wire_len. }
  apply (f_equal len) in Hc. rewrite len_app in Hc. pose proof (len_nonneg (concat (drop (Z.to_nat i) fragments))). lia.
Qed.

Lemma reassemble_step i a : reading i a -> 0 <= i < n -> 1 < n ->
  exists m', reassemble (D i) (i =? 0) (i + 1 =? n) a =
      (set_reassembly m' a, Ok (if i + 1 =? n then Some payload else None)) /\
    (i + 1 < n -> m' !! stream = Some {| asm_stream_sequence := next_outgoing_sequence ch; asm_ppid := msg_ppid message;
      asm_payload := concat (take (Z.to_nat (i + 1)) fragments) |}).
Proof.
  intros Hr Hi Hn. unfold reassemble. cbv zeta. erewrite prog_step by reflexivity. cbv beta.
  set (asm := {| asm_stream_sequence := next_outgoing_sequence ch; asm_ppid := msg_ppid message;
    asm_payload := concat (take (Z.to_nat i) fragments) |}).
  assert (exists m0, (if i =? 0 then set_reassembly (<[data_stream_id (D i) := {| asm_stream_sequence := data_stream_sequence (D i);
    asm_ppid := data_ppid (D i); asm_payload := [] |}]> (reassembly a)) a else a) = set_reassembly m0 a /\ m0 !! stream = Some asm) as (m0 & -> & Hm0).
  { destruct (Z.eqb_spec i 0) as [->|Hne].
    - eexists. split; [reflexivity|]. cbn. by rewrite lookup_insert_eq.
    - exists (reassembly a). split; [by destruct a|]. apply (rd_assembly _ _ Hr). lia. }
  rewrite (prog_step _ _ _ (set_reassembly m0 a) asm) by (unfold try_gets; cbn; by rewrite Hm0).
  rewrite (prog_step _ _ _ (set_reassembly m0 a) tt) by (unfold lift, reject_if; cbn; by rewrite !Z.eqb_refl).
  rewrite (prog_step _ _ _ (set_reassembly m0 a) (maximum_message_bytes conf))
    by (unfold gets; cbn; by rewrite (rd_config _ _ Hr)).
  pose proof (prefix_short (i + 1) ltac:(lia) Hn) as Hp. rewrite <- take_fragment, len_app in Hp by done.
  unfold saturating_add. cbn [asm_payload asm data_payload D chunk_at].
  replace (_ <? _) with false by lia.
  erewrite prog_step by reflexivity. cbv beta. rewrite take_fragment by done.
  destruct (Z.eqb_spec (i + 1) n) as [Hend|Hmore].
  - erewrite prog_step by reflexivity. cbv beta. eexists. split; [|lia].
    rewrite take_all_fragments, wire_len by done. reflexivity.
  - eexists. split; [reflexivity|]. intros _. cbn. by rewrite lookup_insert_eq.
Qed.

Lemma reading_set_reassembly i m' a : reading i a ->
  (i + 1 < n -> m' !! stream = Some {| asm_stream_sequence := next_outgoing_sequence ch; asm_ppid := msg_ppid message;
      asm_payload := concat (take (Z.to_nat (i + 1)) fragments) |}) -> reading (i + 1) (set_reassembly m' a).
Proof. intros [] Hm. split; cbn; try done. intros Hlt. apply Hm. lia. Qed.

(** The octets of fragment [i] are taken in; the last one gives the whole message. *)
Lemma assembled i a : reading i a -> 0 <= i < n ->
  exists a', (forall o, (if (i =? 0) && (i + 1 =? n) then mret (data_payload (D i))
      else assembled ← on_self (reassemble (D i) (i =? 0) (i + 1 =? n)); mret (default [] assembled)) (a, o) =
        (((a', o), Ok (if i + 1 =? n then (wire kind payload).2 else [])) : _ * outcome DataChannelError bytes)) /\
    reading (i + 1) a' /\ receive_view a' = receive_view a.
Proof.
  intros Hr Hi. destruct (decide (n = 1)) as [Hn1|Hn].
  - assert (i = 0) as -> by lia. pose proof (take_fragment 0 ltac:(lia)) as Ht.
    rewrite (take_all_fragments (0 + 1)) in Ht by lia. change (Z.to_nat 0) with 0%nat in Ht. cbn [take concat app] in Ht.
    exists a. split_and!; [|destruct Hr; split; try done; lia|done].
    intros o. replace (0 + 1 =? n) with true by lia. cbn [Z.eqb andb]. rewrite <- Ht. done.
  - destruct (reassemble_step i a Hr Hi ltac:(lia)) as (m' & Hre & Hm'). exists (set_reassembly m' a).
    split_and!; [|by apply reading_set_reassembly|done]. intros o.
    replace ((i =? 0) && (i + 1 =? n)) with false by lia.
    rewrite (prog_step _ _ _ (set_reassembly m' a, o) (if i + 1 =? n then Some payload else None)).
    + destruct (i + 1 =? n); [|done]. rewrite wire_len by lia. done.
    + unfold on_self. cbn [fst snd]. by rewrite Hre.
Qed.

Definition with_events (o : AssociationOutput) (es : list AssociationEvent) : AssociationOutput :=
  {| packets := packets o; events := events o ++ es; retransmitted_packets := retransmitted_packets o |}.

Lemma process_step now i a o : reading i a -> 0 <= i < n ->
  exists a', process_data_message now (D i) (a, o) = ((a', with_events o (events_between i (i + 1))), Ok tt) /\
    reading (i + 1) a' /\ receive_view a' = receive_view a.
Proof.
  intros Hr Hi. unfold process_data_message. cbv zeta.
  rewrite (prog_step _ _ _ (a, o) tt).
  2:{ unfold on_self, check, reject_if. cbn. pose proof (rd_stream _ _ Hr). by replace (_ <=? _) with false by lia. }
  cbn [data_flags D chunk_at]. cbn [msg_ordered outbound]. rewrite fragment_begin, fragment_end by lia.
  destruct (assembled i a Hr Hi) as (a' & Hasm & Hr' & Hv). fold (D i). rewrite (prog_step _ _ _ (a', o) _ (Hasm o)).
  exists a'. split; [|done]. unfold events_between, with_events. replace (i <? n) with true by lia. cbn [andb].
  destruct (i + 1 =? n); cbn [negb]; [|by rewrite app_nil_r; destruct o].
  cbn [data_ppid data_stream_id D chunk_at].
  assert ((msg_ppid message =? PPID_DCEP) = false) as ->
    by (cbn; unfold wire; destruct kind, (bool_decide (payload = [])); reflexivity).
  replace (_ || _) with true by (cbn; unfold wire; destruct kind, (bool_decide (payload = [])); reflexivity).
  apply user_message_reported; apply Hr'.
Qed.

Lemma events_app i j l : i <= j <= l -> l <= n -> events_between i j ++ events_between j l = events_between i l.
Proof.
  intros Hij Hl. unfold events_between. destruct (decide (j = n)) as [->|Hlast].
  - assert (l = n) as -> by lia. rewrite Z.ltb_irrefl, app_nil_r. done.
  - replace ((i <? n) && (j =? n)) with false by lia. by replace ((j <? n) && (l =? n)) with ((i <? n) && (l =? n)) by lia.
Qed.

Lemma process_steps now m i a o : reading i a -> 0 <= i -> i + Z.of_nat m <= n ->
  exists a', for_each (D <$> seqZ i (Z.of_nat m)) (process_data_message now) (a, o) =
      ((a', with_events o (events_between i (i + Z.of_nat m))), Ok tt) /\
    reading (i + Z.of_nat m) a' /\ receive_view a' = receive_view a.
Proof.
  revert i a o. induction m as [|m IH]; intros i a o Hr H0 Hm.
  - exists a. rewrite Z.add_0_r. unfold events_between, with_events. split; [|done].
    replace ((i <? n) && (i =? n)) with false by lia. cbn. rewrite app_nil_r. by destruct o.
  - destruct (process_step now i a o Hr ltac:(lia)) as (a1 & H1 & Hr1 & Hv1).
    destruct (IH (i + 1) a1 (with_events o (events_between i (i + 1))) Hr1 ltac:(lia) ltac:(lia)) as (a2 & H2 & Hr2 & Hv2).
    rewrite seqZ_cons by lia. replace (Z.pred (Z.of_nat (S m))) with (Z.of_nat m) by lia. change (Z.succ i) with (i + 1).
    exists a2. cbn [fmap list_fmap for_each]. rewrite (prog_step _ _ _ _ _ H1), H2.
    replace (i + Z.of_nat (S m)) with (i + 1 + Z.of_nat m) by lia.
    split_and!; [|done|congruence]. do 2 f_equal. unfold with_events. cbn. f_equal.
    rewrite <- app_assoc, events_app by lia. done.
Qed.

(** ** One packet *)
Context (sender : AssociationConfig) (Hports : local_port sender = remote_port conf /\ remote_port sender = local_port conf).
Context (Hconf : config_ok conf) (Hstream : u16 stream) (Hseq : u16 (next_outgoing_sequence ch)) (Hpayload : bytes_ok payload).

Lemma fragment_flags_fit ordered j count : u8 (fragment_flags ordered j count).
Proof. unfold fragment_flags. destruct ordered, (j =? 0), (j + 1 =? count); by vm_compute. Qed.
Lemma wire_bytes : bytes_ok (wire kind payload).2.
Proof. unfold wire. destruct kind, (bool_decide (payload = [])); cbn; try done; repeat constructor; done. Qed.
Lemma fragment_bytes i : bytes_ok (default [] (fragments !! i)).
Proof.
  destruct (fragments !! i) as [f|] eqn:Hf; [|apply bytes_ok_nil]. cbn. apply list_elem_of_lookup_2 in Hf.
  pose proof wire_bytes as Hw. rewrite <- (payload_chunks_concat MAX_DATA_PAYLOAD (wire kind payload).2) in Hw by done.
  unfold bytes_ok in *. rewrite Forall_concat, Forall_forall in Hw. by apply Hw.
Qed.

Lemma parse_chunk j : parse_data (data_flags (D j)) (data_value (data_tsn (D j)) message (data_payload (D j))) = Ok (D j).
Proof.
  assert (u32 (tsn_of first j)) as Ht by (apply wrapping_add_fits; lia).
  assert (u32 (msg_ppid message)) as Hp by (cbn; unfold wire; destruct kind, (bool_decide (payload = [])); done).
  unfold parse_data, data_value, read_u32, read_u16. cbn [data_tsn D chunk_at data_payload data_flags].
  do 4 RtcpModel.read_field.
  assert (forall E v l, index_range (E:=E) (to_be_bytes 4 (tsn_of first j) ++ to_be_bytes 2 stream ++
    to_be_bytes 2 (next_outgoing_sequence ch) ++ to_be_bytes 4 v ++ l) 12
    (len (to_be_bytes 4 (tsn_of first j) ++ to_be_bytes 2 stream ++
    to_be_bytes 2 (next_outgoing_sequence ch) ++ to_be_bytes 4 v ++ l)) = Ok l) as ->; [|done].
  intros E v l. unfold index_range. rewrite (proj2 (get_range_Some _ _ _ l)); [done|].
  exists (to_be_bytes 4 (tsn_of first j) ++ to_be_bytes 2 stream ++ to_be_bytes 2 (next_outgoing_sequence ch) ++ to_be_bytes 4 v), [].
  rewrite !len_app, !len_to_be_bytes, app_nil_r, <- !app_assoc. split_and!; [done|done|lia].
Qed.

Lemma parse_carrier j packet : carries message sender (verification_tag conf) (D j) packet ->
  parse_packet packet = Ok {| source_port := remote_port conf; destination_port := local_port conf;
    packet_tag := verification_tag conf; packet_chunks := [{| chunk_kind := TYPE_DATA; chunk_flags := data_flags (D j);
      chunk_value := data_value (data_tsn (D j)) message (data_payload (D j)) |}] |}.
Proof.
  unfold carries. rewrite build_packet_spec. destruct (Z.ltb_spec 65535 (packet_length (data_value (data_tsn (D j)) message (data_payload (D j))))) as [|Hl]; [done|].
  intros [= <-]. destruct Hports as [-> ->], Hconf as (_ & Hlp & Hrp & Htag & _).
  apply parse_built; try done.
  - apply fragment_flags_fit.
  - unfold data_value. rewrite !bytes_ok_app. split_and!; try apply to_be_bytes_ok. apply fragment_bytes.
Qed.

Lemma build_sack_succeeds a c : cumulative_peer_tsn a = Some c -> is_Some (peer_verification_tag a) ->
  Z.of_nat (size (pending_data a)) <= 1024 -> exists p, build_sack a = (a, Ok p).
Proof.
  intros Hc [tag Ht] Hs. unfold build_sack. rewrite (prog_step _ _ _ a c) by (unfold try_gets; by rewrite Hc).
  erewrite prog_step by reflexivity. unfold packet_to_peer, try_gets, peer_tag. rewrite Ht. cbn [ok_or mbind outcome_bind].
  unfold packet_with_chunk. rewrite build_packet_spec. pose proof (sack_gaps_len c (pending_data a)) as Hg.
  set (gaps := sack_gaps c (pending_data a)) in *.
  assert (len (sack_value c gaps) = 12 + 4 * len gaps) as Hl.
  { unfold sack_value. rewrite !len_app, !len_to_be_bytes.
    enough (len (concat ((fun g : Z * Z => to_be_bytes 2 g.1 ++ to_be_bytes 2 g.2) <$> gaps)) = 4 * len gaps) by lia.
    clear. induction gaps as [|g gs IH]; [done|]. rewrite fmap_cons. cbn [concat]. rewrite !len_app, !len_to_be_bytes, IH, len_cons. lia. }
  pose proof (Z.mod_pos_bound (- len (sack_value c gaps)) 4 ltac:(lia)).
  replace (65535 <? _) with false by (unfold packet_length; lia). by eexists.
Qed.

(** What a packet of the message does to the receiver. *)
Context {key_order : KeyOrder}.

Lemma received_view k acc a a' : receive_view a' = receive_view a -> received first D k acc a -> received first D k acc a'.
Proof. intros [= Hc Hp] []. split; try done; [by rewrite Hc|by rewrite Hp]. Qed.
Lemma reading_view k a a' : drain_view a' = drain_view a -> reading k a -> reading k a'.
Proof.
  unfold drain_view. intros [= Hc Hs Hps Ht Hch Hre _ _ _ _ _] []. by split; rewrite ?Hs, ?Hc, ?Hps, ?Ht, ?Hch, ?Hre.
Qed.

(** The way of one DATA packet through the handlers. *)
Lemma packet_handled now j packet k k' a a1 a2 sack : carries message sender (verification_tag conf) (D j) packet -> reading k a ->
  accept_data (D j) a = (a1, Ok (D <$> seqZ k (k' - k))) ->
  for_each (D <$> seqZ k (k' - k)) (process_data_message now) (a1, default_output) =
    ((a2, with_events default_output (events_between k k')), Ok tt) ->
  build_sack a2 = (a2, Ok sack) ->
  handle_packet now packet a = (a2, Ok {| packets := [sack]; events := events_between k k'; retransmitted_packets := 0 |}).
Proof.
  intros Hcar Hrd Hadd Hproc Hsack.
  unfold handle_packet. rewrite (prog_step _ _ _ a _ (f_equal (pair a) (parse_carrier j packet Hcar))).
  rewrite (prog_step _ _ _ a tt) by (unfold check, reject_if; cbn; by rewrite (rd_config _ _ Hrd), !Z.eqb_refl).
  cbn [packet_chunks packet_tag for_each]. unfold with_output.
  set (value := data_value _ _ _).
  assert (handle_data now (data_flags (D j)) value (a, default_output) =
    ((a2, {| packets := [sack]; events := events_between k k'; retransmitted_packets := 0 |}), Ok tt)) as Hdata.
  { unfold handle_data.
    rewrite (prog_step _ _ _ (a, default_output) tt).
    2:{ unfold on_self, check, reject_if. cbn. rewrite (rd_state _ _ Hrd), bool_decide_eq_true_2 by done. cbn [negb orb].
        assert (12 <= len value) by (unfold value, data_value; rewrite !len_app, !len_to_be_bytes; pose_len; lia).
        by replace (_ <? _) with false by (unfold DATA_FIXED_LEN; lia). }
    rewrite (prog_step _ _ _ (a, default_output) (D j)) by (unfold lift; by rewrite parse_chunk).
    rewrite (prog_step _ _ _ (a1, default_output) (D <$> seqZ k (k' - k))) by (unfold on_self; cbn [fst snd]; by rewrite Hadd).
    rewrite (prog_step _ _ _ _ _ Hproc). rewrite (prog_step _ _ _ (a2, with_events default_output (events_between k k')) sack)
      by (unfold on_self; cbn [fst snd]; by rewrite Hsack). reflexivity. }
  unfold handle_chunk. cbn [chunk_kind chunk_flags chunk_value]. change (TYPE_DATA =? TYPE_INIT) with false.
  change (TYPE_DATA =? TYPE_COOKIE_ECHO) with false. change (TYPE_DATA =? TYPE_DATA) with true. cbv zeta match.
  unfold mbind, prog_bind, on_self, require_verification_tag, check, reject_if.
  cbn [fst snd]. rewrite (rd_config _ _ Hrd), Z.eqb_refl. cbn [negb]. rewrite Hdata. done.
Qed.

(** A packet of the message arrives: the fragments that are complete now are taken in. *)
Lemma packet_step now j packet k acc a : carries message sender (verification_tag conf) (D j) packet -> 0 <= j < n -> n <= 256 ->
  received first D k acc a -> (k ∉ acc) -> (forall i, i ∈ acc -> i < n) -> reading k a ->
  exists k' acc' a' o, handle_packet now packet a = (a', Ok o) /\ events o = events_between k k' /\ k <= k' /\
    received first D k' acc' a' /\ (k' ∉ acc') /\ (forall i, i ∈ acc' <-> i = j \/ i ∈ acc) /\ reading k' a'.
Proof.
  intros Hcar Hj Hn Hr Hk Hacc Hrd.
  destruct (accept_received first D (fun _ => eq_refl) j k acc a Hr Hk ltac:(lia)) as (k' & acc' & a1 & r & Hadd & [Hle Hrec Hnext Hgrow Honly Hframe _ Hacpt]).
  destruct Hacpt as [-> Hin]; [lia|intros i Hi; specialize (Hacc i Hi); lia|].
  assert (forall i, i ∈ acc' <-> i = j \/ i ∈ acc) as Hacc'.
  { intros i. split; [intros Hi%Honly; set_solver|]. intros [->|Hi]; [done|by apply Hgrow]. }
  assert (k' <= n) as Hk'n.
  { destruct (decide (k' <= 0)); [lia|]. pose proof (rx_done _ _ _ _ _ Hrec (k' - 1) ltac:(lia)) as Hd.
    apply Hacc' in Hd as [Hd|Hd]; [lia|]. specialize (Hacc _ Hd). lia. }
  pose proof (rx_nonneg _ _ _ _ _ Hr) as Hk0.
  destruct (process_steps now (Z.to_nat (k' - k)) k a1 default_output) as (a2 & Hproc & Hrd2 & Hv2).
  { by eapply reading_view. } { lia. } { lia. }
  rewrite Z2Nat.id in Hproc, Hrd2 by lia. replace (k + (k' - k)) with k' in * by lia.
  assert (received first D k' acc' a2) as Hr2 by (by eapply received_view).
  destruct (build_sack_succeeds a2 (tsn_of first (k' - 1))) as [sack Hsack];
    [by apply rx_cumulative in Hr2|apply Hrd2| |].
  { enough (Z.of_nat (size (pending_data a2)) < 1024) by lia. apply (received_size _ _ _ _ _ Hr2 Hnext).
    intros i [->|Hi]%Hacc'; [lia|]. specialize (Hacc _ Hi). lia. }
  exists k', acc', a2, {| packets := [sack]; events := events_between k k'; retransmitted_packets := 0 |}.
  split_and!; try done; [|intros i; apply Hacc'..].
  by apply (packet_handled now j packet k k' a a1 a2 sack).
Qed.

(** A packet belongs to one chunk. *)
Lemma carrier_inj i j packet : carries message sender (verification_tag conf) (D i) packet ->
  carries message sender (verification_tag conf) (D j) packet -> 0 <= i < 2 ^ 31 -> 0 <= j < 2 ^ 31 -> i = j.
Proof.
  intros Hi%parse_carrier Hj%parse_carrier Hri Hrj. rewrite Hi in Hj.
  pose (reparse := fun r : outcome DataChannelError ParsedPacket => match r with
    | Ok p => match packet_chunks p with c :: _ => parse_data (chunk_flags c) (chunk_value c) | [] => Panic end
    | _ => Panic end).
  apply (f_equal reparse) in Hj. cbn [reparse packet_chunks chunk_flags chunk_value] in Hj. rewrite !parse_chunk in Hj.
  rename Hj into Hpi.
  apply (f_equal (fun r => match r with Ok d => data_tsn d | _ => 0 end)) in Hpi. cbn in Hpi.
  by apply (tsn_inj first).
Qed.

(** ** Packets in any order *)
Fixpoint feed (arrivals : list (Duration * bytes)) (a : Association)
    : Association * list (outcome DataChannelError AssociationOutput) :=
  match arrivals with
  | [] => (a, [])
  | (now, packet) :: arrivals =>
      let '(a, r) := handle_packet now packet a in
      let '(a, rs) := feed arrivals a in (a, r :: rs)
  end.

Definition is_chunk_packet (p : bytes) (j : Z) : Prop :=
  0 <= j < n /\ carries message sender (verification_tag conf) (D j) p.

Lemma feed_step arrivals js k acc a : Forall2 (fun p j => is_chunk_packet p.2 j) arrivals js -> n <= 256 ->
  received first D k acc a -> (k ∉ acc) -> (forall i, i ∈ acc -> i < n) -> reading k a ->
  exists k' acc' a' outs, feed arrivals a = (a', Ok <$> outs) /\ concat (events <$> outs) = events_between k k' /\
    k <= k' /\ received first D k' acc' a' /\ (k' ∉ acc') /\ (forall i, i ∈ acc' <-> i ∈ js \/ i ∈ acc) /\
    (forall i, i ∈ acc' -> i < n) /\ reading k' a'.
Proof.
  intros Hall Hn. revert k acc a. induction Hall as [|[now p] j arrivals js [Hj Hp] _ IH]; intros k acc a Hr Hk Hacc Hrd.
  { exists k, acc, a, []. split_and!; try done; [|set_solver]. unfold events_between.
    by replace ((k <? n) && (k =? n)) with false by lia. }
  destruct (packet_step now j p k acc a Hp Hj Hn Hr Hk Hacc Hrd) as (k1 & acc1 & a1 & o & Hh & Hev & Hle & Hr1 & Hk1 & Hacc1 & Hrd1).
  assert (forall i, i ∈ acc1 -> i < n) as Hlt1 by (intros i [->|Hi]%Hacc1; [lia|by apply Hacc]).
  destruct (IH k1 acc1 a1 Hr1 Hk1 Hlt1 Hrd1) as (k2 & acc2 & a2 & outs & Hf & Hev2 & Hle2 & Hr2 & Hk2 & Hacc2 & Hlt2 & Hrd2).
  exists k2, acc2, a2, (o :: outs). cbn [feed]. rewrite Hh, Hf. cbn. rewrite Hev, Hev2.
  split_and!; try done; [|lia|intros i; rewrite Hacc2, Hacc1; set_solver].
  pose proof (rx_nonneg _ _ _ _ _ Hr). apply events_app; [lia|].
  destruct (decide (k2 <= 0)); [lia|]. pose proof (Hlt2 _ (rx_done _ _ _ _ _ Hr2 (k2 - 1) ltac:(lia))). lia.
Qed.

(** Every packet that arrives carries a chunk, and every chunk arrives. *)
Lemma arrivals_indices (arrivals : list (Duration * bytes)) packets : n <= 256 -> length packets = length fragments ->
  (forall i f, fragments !! i = Some f -> exists p, packets !! i = Some p /\
    carries message sender (verification_tag conf) (chunk_at message first n (Z.of_nat i) f) p) ->
  (forall p, p ∈ arrivals.*2 <-> p ∈ packets) ->
  exists js, Forall2 (fun p j => is_chunk_packet p.2 j) arrivals js /\ forall j, 0 <= j < n -> j ∈ js.
Proof.
  intros Hn Hlen Hall Harr.
  assert (forall i p, packets !! i = Some p -> is_chunk_packet p (Z.of_nat i)) as Hat.
  { intros i p Hp. destruct (lookup_lt_is_Some_2 fragments i) as [f Hf]; [rewrite <- Hlen; by eapply lookup_lt_Some|].
    destruct (Hall i f Hf) as (q & Hq & Hc). rewrite Hp in Hq. injection Hq as ->.
    split; [apply lookup_lt_Some in Hf; unfold len; lia|]. unfold D. by rewrite Nat2Z.id, Hf. }
  destruct (choose_indices (fun p j => is_chunk_packet p.2 j) arrivals) as [js Hjs].
  { intros [now p] Hin. assert (p ∈ packets) as (i & Hi)%list_elem_of_lookup_1.
    { apply Harr. by apply (list_elem_of_fmap_2 snd _ (now, p)). }
    exists (Z.of_nat i). by apply Hat. }
  exists js. split; [done|]. intros j Hj.
  destruct (lookup_lt_is_Some_2 packets (Z.to_nat j)) as [p Hp]; [rewrite Hlen; unfold len in Hj; lia|].
  assert (p ∈ arrivals.*2) as ([now q] & -> & Hin)%list_elem_of_fmap by (by apply Harr; eapply list_elem_of_lookup_2).
  apply list_elem_of_lookup_1 in Hin as (i & Hi). destruct (Forall2_lookup_l _ _ _ _ _ Hjs Hi) as (j' & Hj' & Hr' & Hc').
  destruct (Hat _ _ Hp) as [_ Hc]. rewrite Z2Nat.id in Hc by lia. cbn in Hc'.
  rewrite (carrier_inj j j' q Hc Hc') by lia. by eapply list_elem_of_lookup_2.
Qed.

(** All packets of the message, however they arrive, make one message. *)
Lemma feed_all arrivals js a : Forall2 (fun p j => is_chunk_packet p.2 j) arrivals js -> n <= 256 -> 1 <= n ->
  (forall j, 0 <= j < n -> j ∈ js) -> cumulative_peer_tsn a = Some (tsn_of first (-1)) -> pending_data a = ∅ -> reading 0 a ->
  exists a' outs, feed arrivals a = (a', Ok <$> outs) /\ concat (events <$> outs) = [Message stream kind payload] /\
    cumulative_peer_tsn a' = Some (tsn_of first (n - 1)) /\ pending_data a' = ∅ /\ reading n a'.
Proof.
  intros Hall Hn H1 Hcover Hc Hp Hrd.
  assert (received first D 0 ∅ a) as Hr.
  { split; [lia|set_solver|lia|done|]. intros t d. rewrite Hp, lookup_empty. split; [done|]. set_solver. }
  destruct (feed_step arrivals js 0 ∅ a Hall Hn Hr ltac:(set_solver) ltac:(set_solver) Hrd)
    as (k & acc & a' & outs & Hf & Hev & Hle & Hr' & Hk & Hacc & Hlt & Hrd').
  assert (k = n) as ->.
  { destruct (Z.lt_trichotomy k n) as [Hl|[->|Hg]]; [|done|].
    - exfalso. apply Hk, Hacc. left. apply Hcover. lia.
    - pose proof (Hlt _ (rx_done _ _ _ _ _ Hr' n ltac:(lia))). lia. }
  exists a', outs. split_and!; [done| |apply (rx_cumulative _ _ _ _ _ Hr')| |done].
  - rewrite Hev. unfold events_between. by replace ((0 <? n) && (n =? n)) with true by lia.
  - apply map_eq. intros t. rewrite lookup_empty. destruct (pending_data a' !! t) as [d|] eqn:Hd; [|done].
    apply (rx_pending _ _ _ _ _ Hr') in Hd as (i & Hi & Hle' & _). specialize (Hlt _ Hi). lia.
Qed.
End Receiver.

(** ** From one association to the other *)
(** [b] is the peer of [a], with nothing of [a] on the way. *)
Record linked (ca cb : AssociationConfig) (a b : Association) : Prop := {
  ln_sender : config a = ca;
  ln_receiver : config b = cb;
  ln_ports : local_port ca = remote_port cb /\ remote_port ca = local_port cb;
  ln_tag : peer_verification_tag a = Some (verification_tag cb);
  ln_peer : is_Some (peer_verification_tag b);
  ln_state : state b = Established;
  ln_next : u32 (next_tsn a);
  ln_cumulative : cumulative_peer_tsn b = Some (tsn_of (next_tsn a) (-1));
  ln_pending : pending_data b = ∅;
  ln_channels : forall stream ch, channels a !! stream = Some ch ->
    u16 stream /\ u16 (next_outgoing_sequence ch) /\ stream < peer_outbound_streams b /\ is_Some (channels b !! stream) }.

Lemma tsn_of_shift first n : tsn_of (tsn_of first n) (-1) = tsn_of first (n - 1).
Proof. unfold tsn_of, wrapping_add. rewrite Zplus_mod_idemp_l. f_equal. lia. Qed.

(** What [send_message] leaves of its association. *)
Lemma send_message_frame now stream kind payload a a' packets : send_message now stream kind payload a = (a', Ok packets) ->
  assoc_ok (config a) a ->
  config a' = config a /\ peer_verification_tag a' = peer_verification_tag a /\
  forall s ch', channels a' !! s = Some ch' -> exists ch, channels a !! s = Some ch /\
    (next_outgoing_sequence ch' = next_outgoing_sequence ch \/
     next_outgoing_sequence ch' = wrapping_add 16 (next_outgoing_sequence ch) 1).
Proof.
  intros H Ha. unfold send_message in H.
  apply prog_bind_Ok in H as (a1 & [] & Hs & H). injection Hs as <- _.
  apply prog_bind_Ok in H as (a1 & [] & Hs & H). injection Hs as <- _.
  apply prog_bind_Ok in H as (a1 & [] & Hs & H). injection Hs as <- _.
  apply prog_bind_Ok in H as (a1 & ch & Hs & H). injection Hs as <- Hch%ok_or_Ok.
  apply prog_bind_Ok in H as (a1 & [] & [= <-] & H). case_match.
  match type of H with ?m ?s = _ => pose proof (enqueue_message_ok (config a) now
    {| msg_stream_id := stream; msg_stream_sequence := next_outgoing_sequence ch; msg_ppid := z;
       msg_ordered := channel_ordered ch; msg_reliability := channel_reliability ch |} l (enqueue_view s) s) as He end.
  rewrite H in He. destruct He as [_ Hv].
  { split; [|done]. destruct Ha. split; cbn; auto. by rewrite map_size_insert_Some. }
  injection Hv as _ _ Hconf _ _ Htag Hchs _ _ _ _. cbn in *. split_and!; [done..|].
  intros s ch'. rewrite Hchs, lookup_insert_Some. intros [[<- <-]|[_ Hs]]; [exists ch; by auto|exists ch'; by auto].
Qed.

(** C31: a message that [send_message] accepts is delivered: whatever the order in which its
    packets arrive, and however often each of them, the peer accepts all of them, reports the
    message exactly once with the octets and the kind that were sent, and is ready for the
    next message. *)
Theorem message_delivered {key_order : KeyOrder} ca cb a b now stream kind payload a' packets arrivals :
  assoc_ok ca a -> config_ok cb -> linked ca cb a b -> bytes_ok payload -> len payload <= maximum_message_bytes cb ->
  send_message now stream kind payload a = (a', Ok packets) ->
  (forall p, p ∈ arrivals.*2 <-> p ∈ packets) ->
  exists b' outs, feed arrivals b = (b', Ok <$> outs) /\
    concat (events <$> outs) = [Message stream kind payload] /\ linked ca cb a' b'.
Proof.
  intros Ha Hcb Hl Hok Hsize Hsend Harr. pose proof (ln_sender _ _ _ _ Hl) as Hca.
  pose proof (send_message_inv now stream kind payload a a' packets _ (ln_tag _ _ _ _ Hl) (ln_next _ _ _ _ Hl) Hsend)
    as (ch & Hch & Hutf & Hn & Hnext & Hlen & Hall).
  destruct (send_message_frame _ _ _ _ _ _ _ Hsend) as (Hconf & Htag & Hchs); [by rewrite Hca|].
  set (fragments := payload_chunks MAX_DATA_PAYLOAD (wire kind payload).2) in *.
  destruct (ln_channels _ _ _ _ Hl _ _ Hch) as (Hstream & Hseq & Hlt & Hopen).
  destruct (arrivals_indices cb stream kind payload ch (next_tsn a) Hutf ca (ln_ports _ _ _ _ Hl) Hcb Hstream Hseq Hok
    arrivals packets) as (js & Hjs & Hcover); [done|done|by rewrite <- Hca|done|].
  assert (maximum_message_bytes cb <= 256 * 1024) as Hmax by (destruct Hcb as (Hv%reject_if_Ok & _); lia).
  destruct (feed_all cb stream kind payload ch (next_tsn a) Hsize Hmax Hutf (channels b) (peer_outbound_streams b)
    ca (ln_ports _ _ _ _ Hl) Hcb Hstream Hseq Hok arrivals js b Hjs Hn) as (b' & outs & Hf & Hev & Hcum & Hpend & Hrd);
    [apply payload_chunks_some, wire_nonempty|done|apply Hl|apply Hl| |].
  { split; try apply Hl; [done..|lia]. }
  exists b', outs. split; [done|]. split; [done|]. destruct (rd_others _ _ _ _ _ _ _ _ _ Hrd) as [Hopen' Hstreams'].
  split; try apply Hl; try apply Hrd; try done.
  - by rewrite Hconf.
  - rewrite Htag. apply Hl.
  - rewrite Hnext. apply wrapping_add_fits. lia.
  - by rewrite Hnext, Hcum, tsn_of_shift.
  - intros s ch' Hs. destruct (Hchs _ _ Hs) as (ch0 & Hch0 & Hsq). destruct (ln_channels _ _ _ _ Hl _ _ Hch0) as (? & Hq & ? & ?).
    rewrite Hopen', Hstreams'. split_and!; try done. destruct Hsq as [->| ->]; [done|]. apply wrapping_add_fits. lia.
Qed.

(** ** A concrete exchange *)
Definition example_a : Association := example_peer 7 1000 8 2000.
Definition example_b : Association := example_peer 8 2000 7 1000.
Definition example_sent : Association * outcome DataChannelError (list bytes) :=
  send_message 5 0 Text (replicate 1500 65) example_a.
Definition example_packets : list bytes := match example_sent.2 with Ok ps => ps | _ => [] end.
(** The two packets arrive in the wrong order, the second one twice. *)
Definition example_arrivals : list (Duration * bytes) :=
  match example_packets with [p; q] => [(6, q); (7, q); (8, p)] | _ => [] end.

Lemma example_linked : linked (example_config 7 1000) (example_config 8 2000) example_a example_b.
Proof.
  split.
  - vm_compute. reflexivity.
  - vm_compute. reflexivity.
  - split; reflexivity.
  - vm_compute. reflexivity.
  - exists 7. vm_compute. reflexivity.
  - vm_compute. reflexivity.
  - vm_compute. split; [discriminate|reflexivity].
  - vm_compute. reflexivity.
  - vm_compute. reflexivity.
  - intros stream ch. replace (channels example_a) with ({[0 := {| channel_ordered := true; channel_reliability := Reliable;
      next_outgoing_sequence := 0 |}]} : gmap Z Channel) by (vm_compute; reflexivity).
    intros [<- <-]%lookup_singleton_Some. split; [done|]. split; [done|].
    split; [apply Z.ltb_lt; vm_compute; reflexivity|]. eexists. vm_compute. reflexivity.
Qed.

Lemma message_delivered_witness : exists b' outs,
  feed (key_order := list_order) example_arrivals example_b = (b', Ok <$> outs) /\
  concat (events <$> outs) = [Message 0 Text (replicate 1500 65)] /\
  linked (example_config 7 1000) (example_config 8 2000) example_sent.1 b'.
Proof.
  apply (message_delivered (key_order := list_order) _ _ example_a example_b 5 0 Text (replicate 1500 65) example_sent.1 example_packets).
  - apply run_ok; [apply example_calls_ok|]. apply association_new_ok; [apply example_config_ok|vm_compute; reflexivity].
  - apply example_config_ok.
  - apply example_linked.
  - apply rust_slice_check. vm_compute. reflexivity.
  - vm_compute. discriminate.
  - fold example_sent. unfold example_packets.
    assert (match example_sent.2 with Ok _ => true | _ => false end = true) as Hok by (vm_compute; reflexivity).
    by destruct example_sent as [a' [ps|e| |]].
  - intros p. unfold example_arrivals. destruct example_packets as [|p0 [|p1 [|p2 ps]]] eqn:Hp; try (vm_compute in Hp; discriminate).
    clear Hp. rewrite !fmap_cons, !elem_of_cons, !elem_of_nil. cbn. tauto.
Defined.

(** * webrtc/data-channel: where the association leaves the protocol

    An acknowledgement of a TSN that was never sent makes the timer count through the whole
    number space; the first user message of a channel repeats the stream sequence number of
    the DCEP acknowledgement. *)

(** ** Acknowledging what was not sent *)
(** The scan takes one turn per TSN when nothing is in flight. *)
Lemma forward_scan_length a fuel next saw skipped : u32 (next_tsn a) -> u32 next -> outstanding a = ∅ -> abandoned a = ∅ ->
  Z.of_nat fuel < dist (next_tsn a) next -> forward_scan fuel a next saw skipped = Diverge.
Proof.
  intros Hn Hx Ho Hab. revert next saw skipped Hx. induction fuel as [|fuel IH]; intros next saw skipped Hx Hf; cbn [forward_scan];
    (replace (next =? next_tsn a) with false by serial); [done|].
  rewrite Ho, Hab, !lookup_empty. apply IH; [apply wrapping_add_fits; lia|]. serial.
Qed.

Lemma foldl_delete_empty {A} (ks : list Z) f : foldl (fun (m : gmap Z A) k => delete (f k) m) ∅ ks = ∅.
Proof. induction ks as [|k ks IH]; cbn; [done|]. by rewrite delete_empty. Qed.

Lemma all_settled {A} next c (m : gmap Z A) : u32 next -> window_ok next c m -> unsettled next m = ∅.
Proof.
  intros Hn Hm. apply map_empty. intros k. apply map_lookup_filter_None. right. intros x Hx. cbn.
  destruct (Hm _ _ Hx) as (Hk & Hd & _). unfold sequence_less_or_equal.
  fold (dist next k). change (Z.shiftl 1 31) with (2 ^ 31). replace (_ <? _) with true by lia. done.
Qed.

(** The gap blocks of a SACK only remove chunks in flight. *)
Definition idle (next : Z) (a : Association) : Prop :=
  outstanding a = ∅ /\ abandoned a = ∅ /\ next_tsn a = next /\ outbound_cumulative_tsn a = next.

Lemma preserves_gaps next value cumulative gap_count :
  preserves (idle next) (for_each (seqZ 0 gap_count) (fun index =>
    let offset := 12 + index * 4 in
    start ← lift (read_u16 value offset);
    end_ ← lift (read_u16 value (offset + 2));
    _ ← lift (reject_if ((start =? 0) || (end_ <? start)) MalformedChunk);
    modify (fun a => set_outstanding
      (foldl (fun m delta => delete (wrapping_add 32 cumulative delta) m) (outstanding a)
        (seqZ start (end_ - start + 1))) a))).
Proof.
  apply preserves_for_each. intros index. cbv zeta. do 3 (apply preserves_bind; [apply preserves_lift|intros ?]).
  apply preserves_modify. intros b (Ho & Hrest). split; [|done]. cbn. rewrite Ho. apply foldl_delete_empty.
Qed.


(** SACK of the unsent TSN 1001 for the association of the handshake example. *)
Definition example_sack : bytes := to_be_bytes 4 1001 ++ to_be_bytes 4 0 ++ to_be_bytes 2 0 ++ to_be_bytes 2 0.

(** ** Stream sequence numbers *)
(** The DCEP acknowledgement and the first user message of an ordered channel are different
    messages on the same ordered stream with the same stream sequence number. *)
Lemma first_message_repeats_sequence : exists ack first,
  outstanding example_sent.1 !! 1000 = Some ack /\ outstanding example_sent.1 !! 1001 = Some first /\
  out_message_id ack <> out_message_id first /\ out_stream_id ack = out_stream_id first /\
  out_ordered ack = true /\ out_ordered first = true /\ out_stream_sequence ack = out_stream_sequence first.
Proof.
  destruct (outstanding example_sent.1 !! 1000) as [ack|] eqn:Ha; [|vm_compute in Ha; discriminate].
  destruct (outstanding example_sent.1 !! 1001) as [first|] eqn:Hf; [|vm_compute in Hf; discriminate].
  vm_compute in Ha, Hf. injection Ha as <-. injection Hf as <-. by eexists _, _.
Qed.
