(* ===== verification/SctpEvents.v ===== *)
(** * data-channel: what an association reports

    A message that is reported consists of octets, and so does everything that waits to be put together. *)
From S2P Require Import Prelude Words Slices RustStd SctpPacket SctpAssociation SctpInvariant SctpSafety.

(** [yields P m Q]: [m] keeps [P] whatever its outcome, and a value it returns satisfies [Q]. *)
Section Yields.
Context {S E : Type} (P : S -> Prop).
Definition yields {A} (m : prog S E A) (Q : A -> Prop) : Prop := forall s, P s -> P (m s).1 /\ forall a, (m s).2 = Ok a -> Q a.
Lemma yields_bind {A B} (m : prog S E A) (k : A -> prog S E B) Q R : yields m Q -> (forall a, Q a -> yields (k a) R) -> yields (m ≫= k) R.
Proof.
  intros Hm Hk s Hs. destruct (Hm s Hs) as [H1 H2]. unfold mbind, prog_bind. destruct (m s) as [s' [a|e| |]]; [|done..]. by apply (Hk a (H2 a eq_refl)).
Qed.
Lemma yields_preserves {A} (m : prog S E A) (Q : A -> Prop) : preserves P m -> (forall a, Q a) -> yields m Q.
Proof. intros Hm HQ s Hs. split; [by apply Hm|]. auto. Qed.
Lemma yields_keeps {A} (m : prog S E A) Q : yields m Q -> preserves P m.
Proof. intros Hm s Hs. by apply Hm. Qed.
Lemma yields_lift {A} (o : outcome E A) (Q : A -> Prop) : (forall a, o = Ok a -> Q a) -> yields (lift o) Q.
Proof. intros Ho s Hs. by split. Qed.
Lemma yields_ret {A} (a : A) (Q : A -> Prop) : Q a -> yields (mret a) Q.
Proof. intros Ha s Hs. split; [done|]. by intros b [= <-]. Qed.
Lemma yields_for_each {A} (l : list A) (body : A -> prog S E unit) : (forall x, x ∈ l -> preserves P (body x)) -> preserves P (for_each l body).
Proof.
  intros Hb. induction l as [|x l IH]; cbn; [by intros ? ?|]. apply preserves_bind; [apply Hb; by left|]. intros _. apply IH. intros y Hy. apply Hb. by right.
Qed.
End Yields.

Definition payloads_ok (a : Association) : Prop :=
  map_Forall (fun _ d => bytes_ok (data_payload d)) (pending_data a) /\ map_Forall (fun _ r => bytes_ok (asm_payload r)) (reassembly a).
Definition event_ok (e : AssociationEvent) : Prop := match e with Message _ _ payload => bytes_ok payload | _ => True end.
Definition reporting (s : Association * AssociationOutput) : Prop := payloads_ok s.1 /\ Forall event_ok (events s.2).

Lemma reporting_on_self {A} (m : method A) (Q : A -> Prop) : yields payloads_ok m Q -> yields reporting (on_self m) Q.
Proof. intros Hm [a o] [Ha Ho]. destruct (Hm a Ha) as [H1 H2]. unfold on_self. cbn in *. by destruct (m a). Qed.
Lemma reporting_self {A} (m : method A) : preserves payloads_ok m -> preserves reporting (on_self m).
Proof. intros Hm [a o] [Ha Ho]. specialize (Hm a Ha). unfold on_self. cbn in *. by destruct (m a). Qed.
Lemma reporting_event e : event_ok e -> preserves reporting (push_event e).
Proof. intros He [a o] [Ha Ho]. split; [done|]. cbn. by apply Forall_app; split; [|apply Forall_singleton]. Qed.
Lemma reporting_packet p : preserves reporting (push_packet p).
Proof. by intros [a o] [Ha Ho]. Qed.
Lemma reporting_packets ps : preserves reporting (push_packets ps).
Proof. by intros [a o] [Ha Ho]. Qed.
Lemma payloads_delete a stream : payloads_ok a -> payloads_ok (set_reassembly (delete stream (reassembly a)) a).
Proof. intros [H1 H2]. split; [done|]. by apply map_Forall_delete. Qed.

Ltac reports :=
  repeat (cbv beta zeta; first
    [ apply preserves_bind; [|intros ?]
    | apply reporting_self
    | apply reporting_packet | apply reporting_packets | apply reporting_event; exact I
    | apply preserves_for_each; intros ?
    | apply preserves_lift | apply preserves_fail | apply preserves_gets | apply preserves_ret
    | apply preserves_modify; by intros ? ?
    | apply preserves_modify; intros ? ?; by apply payloads_delete
    | apply preserves_same; by intros ?
    | case_match ]).

(** ** Handlers that do not read messages *)
Lemma enqueue_fragments_reports now m id count fs : forall index, preserves payloads_ok (enqueue_fragments now m id count index fs).
Proof. induction fs as [|f fs IH]; intros index; cbn [enqueue_fragments]; reports. apply IH. Qed.
Lemma enqueue_message_reports now m payload : preserves payloads_ok (enqueue_message now m payload).
Proof. unfold enqueue_message. reports. apply enqueue_fragments_reports. Qed.
Lemma handle_init_reports tag value : preserves reporting (handle_init tag value).
Proof. unfold handle_init. reports. Qed.
Lemma handle_cookie_reports tag value : preserves reporting (handle_cookie_echo tag value).
Proof. unfold handle_cookie_echo. reports. Qed.
Lemma handle_sack_reports value : preserves payloads_ok (handle_sack value).
Proof. unfold handle_sack. reports; apply preserves_modify; intros x Hx; by case_match. Qed.
Lemma build_sack_reports : preserves payloads_ok build_sack.
Proof. unfold build_sack. reports. Qed.
Section Resets.
Context {key_order : KeyOrder}.
Lemma close_streams_reports streams : preserves reporting (close_streams streams).
Proof. unfold close_streams. reports. Qed.
Lemma outgoing_reset_reports value response : preserves reporting (handle_outgoing_reset value response).
Proof. unfold handle_outgoing_reset. reports; apply close_streams_reports. Qed.
Lemma incoming_reset_reports value response : preserves reporting (handle_incoming_reset value response).
Proof. unfold handle_incoming_reset. reports; apply close_streams_reports. Qed.
Lemma reconfigure_reports ps : forall response, preserves reporting (reconfigure ps response).
Proof.
  induction ps as [|p ps IH]; intros response; cbn [reconfigure]; reports; apply IH.
Qed.
Lemma handle_reconfiguration_reports value : preserves reporting (handle_reconfiguration value).
Proof. unfold handle_reconfiguration. reports. apply reconfigure_reports. Qed.
End Resets.

(** ** Handlers that read messages *)
Lemma drain_reports fuel : forall next l, Forall (fun d => bytes_ok (data_payload d)) l ->
  yields payloads_ok (drain fuel next l) (Forall (fun d => bytes_ok (data_payload d))).
Proof.
  induction fuel as [|fuel IH]; intros next l Hl a [Hp Hr]; cbn [drain]; destruct (pending_data a !! next) as [d|] eqn:Hd; [by split|split; [done|by intros ? [= <-]]| |split; [done|by intros ? [= <-]]].
  apply IH; [apply Forall_app; split; [done|]; apply Forall_singleton; exact (Hp _ _ Hd)|]. split; [by apply map_Forall_delete|done].
Qed.
Lemma accept_data_reports data : bytes_ok (data_payload data) -> yields payloads_ok (accept_data data) (Forall (fun d => bytes_ok (data_payload d))).
Proof.
  intros Hd. unfold accept_data. eapply yields_bind; [apply (yields_preserves _ _ (fun _ => True)); [reports|done]|]. intros c _. cbv zeta.
  case_match; [by apply yields_ret|]. eapply yields_bind; [apply (yields_preserves _ _ (fun _ => True)); [reports|done]|]. intros _ _.
  eapply yields_bind; [apply (yields_preserves _ _ (fun _ => True)); [reports|done]|]. intros _ _.
  eapply yields_bind; [apply (yields_preserves _ _ (fun _ => True)); [|done]|].
  { apply preserves_modify. intros a [Hp Hr]. case_match; [done|]. split; [by apply map_Forall_insert_2|done]. }
  intros _ _. eapply yields_bind; [apply (yields_preserves _ _ (fun _ => True)); [reports|done]|]. intros fuel _. by apply drain_reports.
Qed.
Lemma reassemble_reports data begin_ end_ : bytes_ok (data_payload data) -> yields payloads_ok (reassemble data begin_ end_) (fun p => bytes_ok (default [] p)).
Proof.
  intros Hd. unfold reassemble. eapply yields_bind; [apply (yields_preserves _ _ (fun _ => True)); [|done]|].
  { apply preserves_modify. intros a [Hp Hr]. destruct begin_; [|done]. split; [done|]. apply map_Forall_insert_2; [apply bytes_ok_nil|done]. }
  intros _ _. apply (yields_bind _ _ _ (fun r => bytes_ok (asm_payload r))).
  { intros a [Hp Hr]. split; [done|]. intros r. cbn. intros Hl%ok_or_Ok. exact (Hr _ _ Hl). }
  intros r Hr. eapply yields_bind; [apply (yields_preserves _ _ (fun _ => True)); [reports|done]|]. intros _ _.
  eapply yields_bind; [apply (yields_preserves _ _ (fun _ => True)); [reports|done]|]. intros maximum _. case_match.
  - eapply yields_bind; [apply (yields_preserves _ _ (fun _ => True)); [reports|done]|]. intros _ _ a Ha. by split.
  - cbv zeta. assert (bytes_ok (asm_payload r ++ data_payload data)) as Hb by by apply bytes_ok_app.
    eapply yields_bind; [apply (yields_preserves _ _ (fun _ => True)); [|done]|].
    { apply preserves_modify. intros a [Hp Hr']. split; [done|]. by apply map_Forall_insert_2. }
    intros _ _. destruct end_; [|apply yields_ret, bytes_ok_nil].
    eapply yields_bind; [apply (yields_preserves _ _ (fun _ => True)); [reports|done]|]. intros _ _. by apply yields_ret.
Qed.
Lemma user_message_reports stream ppid payload : bytes_ok payload -> preserves reporting (handle_user_message stream ppid payload).
Proof.
  intros Hp. unfold handle_user_message. reports; apply reporting_event; first [done|apply bytes_ok_nil].
Qed.
Lemma dcep_reports now stream payload : preserves reporting (handle_dcep now stream payload).
Proof. unfold handle_dcep. reports. Qed.
Lemma process_reports now data : bytes_ok (data_payload data) -> preserves reporting (process_data_message now data).
Proof.
  intros Hd. unfold process_data_message. apply preserves_bind; [reports|]. intros _. cbv zeta.
  eapply yields_keeps. eapply (yields_bind _ _ _ (fun p => bytes_ok p) (fun _ => True)).
  - case_match; [by apply yields_ret|]. eapply yields_bind; [by apply reporting_on_self, reassemble_reports|]. intros p Hp. by apply yields_ret.
  - intros p Hp. apply (yields_preserves _ _ (fun _ => True)); [|done]. case_match; [apply preserves_ret|]. case_match; [apply dcep_reports|].
    case_match; [by apply user_message_reports|apply preserves_fail].
Qed.
Lemma handle_data_reports now flags value : rust_slice value -> preserves reporting (handle_data now flags value).
Proof.
  intros Hv. unfold handle_data. apply preserves_bind; [reports|]. intros _. eapply yields_keeps.
  eapply (yields_bind _ _ _ (fun d => bytes_ok (data_payload d)) (fun _ => True)).
  { apply yields_lift. intros d (_ & _ & [Hd _])%parse_data_ok; done. }
  intros d Hd. eapply yields_bind; [by apply reporting_on_self, accept_data_reports|]. intros l Hl. apply (yields_preserves _ _ (fun _ => True)); [|done].
  apply preserves_bind; [apply yields_for_each; intros x Hx; apply process_reports; by eapply Forall_forall in Hl|]. intros _. reports.
Qed.
Lemma drain_processing_reports fuel now : forall next, preserves reporting (drain_processing fuel now next).
Proof.
  induction fuel as [|fuel IH]; intros next [a o] [[Hp Hr] Ho]; cbn [drain_processing fst snd]; destruct (pending_data a !! next) as [d|] eqn:Hd; try done.
  assert (preserves reporting (_ ← process_data_message now d; _ ← on_self (modify (set_cumulative_peer_tsn (Some next))); drain_processing fuel now (wrapping_add 32 next 1))) as H.
  { apply preserves_bind; [apply process_reports; exact (Hp _ _ Hd)|]. intros _. apply preserves_bind; [reports|]. intros _. apply IH. }
  apply H. split; [|done]. split; [by apply map_Forall_delete|done].
Qed.
Lemma handle_forward_tsn_reports now value : preserves reporting (handle_forward_tsn now value).
Proof.
  unfold handle_forward_tsn. do 3 (apply preserves_bind; [reports|intros ?]). case_match; [reports|].
  apply preserves_bind; [apply reporting_self; unfold skip_streams; reports; apply preserves_modify; intros b Hb; repeat case_match; [by apply payloads_delete|done..]|]. intros _.
  apply preserves_bind; [apply reporting_self, preserves_modify; intros b [Hp Hr]; split; [|done]; cbn; intros k d [Hk _]%map_lookup_filter_Some; exact (Hp _ _ Hk)|]. intros _.
  apply preserves_bind; [reports|]. intros _. apply preserves_bind; [reports|]. intros fuel. apply preserves_bind; [apply drain_processing_reports|]. intros _. reports.
Qed.

Section Packets.
Context {key_order : KeyOrder}.
Lemma handle_chunk_reports now tag chunk : rust_slice (chunk_value chunk) -> preserves reporting (handle_chunk now tag chunk).
Proof.
  intros Hv. unfold handle_chunk. cbv zeta.
  repeat (case_match; [first [apply handle_init_reports|apply handle_cookie_reports|apply preserves_bind; [unfold require_verification_tag; reports|intros _];
    first [by apply handle_data_reports|apply reporting_self, handle_sack_reports|apply handle_reconfiguration_reports|apply handle_forward_tsn_reports|reports]]|]). apply preserves_ret.
Qed.
(** The events of a packet that was accepted. *)
Lemma packet_events conf now packet a a' o : assoc_ok conf a -> rust_slice packet -> handle_packet now packet a = (a', Ok o) -> Forall event_ok (events o).
Proof.
  intros Ha Hs H. unfold handle_packet in H. apply prog_bind_Ok in H as (a1 & parsed & [= <- Hp] & H). apply prog_bind_Ok in H as (a2 & [] & Hc & H).
  assert (a2 = a) as -> by (unfold check in Hc; by injection Hc). unfold with_output in H.
  assert (preserves reporting (for_each (packet_chunks parsed) (handle_chunk now (packet_tag parsed)))) as Hr.
  { apply yields_for_each. intros c Hc'. apply handle_chunk_reports. eapply parse_packet_slices in Hp; [|done]. rewrite Forall_forall in Hp. by apply Hp. }
  specialize (Hr (a, default_output)). destruct (for_each _ _ _) as [[a3 out] r]. destruct r as [[]| | |]; cbn in H; try done. injection H as _ <-.
  assert (reporting (a, default_output)) as Hstart; [|by destruct (Hr Hstart)]. split; [|apply Forall_nil; exact I]. split; [intros k d Hd; by destruct (ok_pending _ Ha _ _ Hd) as [(_ & _ & [? _]) _]|].
  intros k r Hk. by destruct (ok_reassembly _ Ha _ _ Hk) as (_ & ? & _).
Qed.
End Packets.

(** A timer reports no messages. *)
Lemma tick_scan_events now tsns : forall a out ab, Forall event_ok (events out) -> Forall event_ok (events (tick_scan now tsns a out ab).1.2).
Proof.
  induction tsns as [|t tsns IH]; intros a out ab Ho; cbn [tick_scan]; [done|]. repeat case_match; try (by apply IH). cbn. apply Forall_app. split; [done|by apply Forall_singleton].
Qed.
Lemma abandon_events l : forall s, Forall event_ok (events s.2) -> Forall event_ok (events (foldl abandon_message s l).2).
Proof.
  induction l as [|[m [st sq]] l IH]; intros [a o] Ho; cbn [foldl]; [done|]. apply IH. cbn. apply Forall_app. split; [done|by apply Forall_singleton].
Qed.
Lemma tick_events now a a' o : tick now a = (a', Ok o) -> Forall event_ok (events o).
Proof.
  unfold tick. case_match; [by intros [= _ <-]|]. pose proof (tick_scan_events now (btree_keys (outstanding a)) a default_output ∅ ltac:(constructor)) as Hs.
  destruct (tick_scan _ _ _ _ _) as [[b out] ab]. cbn in Hs. case_match; [by intros [= _ <-]|].
  pose proof (abandon_events (btree_entries ab) (b, out) Hs) as Hf. destruct (foldl _ _ _) as [b' out']. cbn in Hf.
  case_match; [|by intros [= _ <-]]. destruct (build_forward_tsn now b') as [b'' [[p|]|e| |]]; by intros [= _ <-].
Qed.
