(* ===== verification/MediaNode.v ===== *)
(** * services/media-node: the process around the registries (src/main.rs)

    The UDP loop, the timer, the data channels and the control interface of a media node.  Datagrams that are handed to the socket are
    appended to [wire].  A datagram, a timer tick and a request are one step each; the clocks are read once per step.  The DTLS sessions
    of the OpenSSL backend are an interface. *)
From S2P Require Import Prelude Words Slices RustStd RustStr.
From S2P Require Stun Srtp RtcpModel Rtcp MediaCodec DtlsAdapter SfuModel Room LayerSelector RtpPacket RtcSession SctpAssociation Protocol.
From S2P Require Import SfuRuntime SessionRegistry.
Import SctpAssociation (Association, KeyOrder, MessageKind, AssociationOutput).
#[local] Existing Instance SctpAssociation.kind_eq_dec.

Definition MAX_TRANSCODE_INGRESSES : Z := 1024.
Definition MAX_DATA_CHANNEL_MESSAGE_BYTES : Z := 16 * 1024.
Definition MAX_DATA_CHANNEL_PAYLOAD_BYTES : Z := MAX_DATA_CHANNEL_MESSAGE_BYTES - Protocol.ENVELOPE_HEADER_BYTES.

(** ** The OpenSSL backend *)
Record DatagramProgress := {
  outbound_datagrams : list bytes;
  established_keying_material : option DtlsAdapter.DirectionalKeyingMaterial;
  application_data : list bytes }.
Class DtlsBackend := {
  DatagramDtlsSession : Type;
  datagram_session : bytes -> DatagramDtlsSession;
  dtls_handle_datagram : bytes -> DatagramDtlsSession -> DatagramDtlsSession * option DatagramProgress;
  dtls_poll : DatagramDtlsSession -> DatagramDtlsSession * option DatagramProgress;
  write_application_data : bytes -> DatagramDtlsSession -> DatagramDtlsSession * option (list bytes);
  handled_slices d s s' p : dtls_handle_datagram d s = (s', Some p) -> Forall rust_slice (application_data p);
  polled_slices s s' p : dtls_poll s = (s', Some p) -> Forall rust_slice (application_data p) }.

(** ** Metrics *)
Inductive Counter :=
| PacketsDropped | AuthenticationFailures | RtpPacketsSent | MediaBytesSent | NackRequests | PliRequests | LayerSwitches | DataChannelRejections
| DataChannelMessagesReceived | DataChannelMessagesSent | DataChannelDeliveryFailures | DataChannelMessagesAbandoned | DataChannelRetransmissions.
#[export] Instance Counter_eq_dec : EqDecision Counter.
Proof. solve_decision. Defined.
Inductive Gauge := ActiveRooms | PublisherTracks | SubscriberTracks | ActiveDataChannelAssociations | ActiveDataChannels.
#[export] Instance Gauge_eq_dec : EqDecision Gauge.
Proof. solve_decision. Defined.
Record NodeMetrics := { counters : Counter -> Z; gauges : Gauge -> Z }.

(** ** The process *)
(** What the operating system does during a step: the two clocks, the time of day, which datagrams the socket takes, the octets of the n-th
    call of [getrandom::fill], and the address of a new loopback socket.  [main] takes the epoch of the UDP loop and that of the timer one
    right after the other; here both count from one epoch. *)
Record World := {
  elapsed : Z;
  crypto_elapsed : Z;
  unix_time_millis : Z;
  sends : SocketAddr -> bytes -> bool;
  fill : nat -> option bytes;
  bind_loopback : option SocketAddr }.

Record DataChannelSession := { association : Association; stream_labels : gmap Z bytes; label_streams : gmap bytes Z }.
(** The publisher is what the task of the ingress holds. *)
Record TranscodeIngress := { ti_room_id : bytes; ti_track_id : Z; ti_participant_id : bytes }.

Section Node.
Context {stun_crypto : Stun.StunCrypto} {srtp_crypto : Srtp.SrtpCrypto} {iteration : HashIteration} {hash_order : Room.HashOrder}
  {unstable_sort : LayerSelector.UnstableSort} {key_order : KeyOrder} {backend : DtlsBackend}.

(** [AppState] with the tables of [CryptoRuntime]; [fills] counts the calls of [getrandom]. *)
Record Node := {
  registry : SessionRegistry;
  sfu : SfuRegistry;
  dtls_sessions : gmap bytes DatagramDtlsSession;
  data_channels : gmap bytes DataChannelSession;
  data_sequences : gmap bytes Z;
  node_metrics : NodeMetrics;
  transcode_ingresses : gmap Z TranscodeIngress;
  next_transcode_ingress_id : Z;
  fills : nat;
  wire : list (SocketAddr * bytes) }.

Definition set_registry (x : SessionRegistry) (n : Node) : Node :=
  {| registry := x; sfu := sfu n; dtls_sessions := dtls_sessions n; data_channels := data_channels n; data_sequences := data_sequences n;
     node_metrics := node_metrics n; transcode_ingresses := transcode_ingresses n; next_transcode_ingress_id := next_transcode_ingress_id n;
     fills := fills n; wire := wire n |}.
Definition set_sfu (x : SfuRegistry) (n : Node) : Node :=
  {| registry := registry n; sfu := x; dtls_sessions := dtls_sessions n; data_channels := data_channels n; data_sequences := data_sequences n;
     node_metrics := node_metrics n; transcode_ingresses := transcode_ingresses n; next_transcode_ingress_id := next_transcode_ingress_id n;
     fills := fills n; wire := wire n |}.
Definition set_dtls (x : gmap bytes DatagramDtlsSession) (n : Node) : Node :=
  {| registry := registry n; sfu := sfu n; dtls_sessions := x; data_channels := data_channels n; data_sequences := data_sequences n;
     node_metrics := node_metrics n; transcode_ingresses := transcode_ingresses n; next_transcode_ingress_id := next_transcode_ingress_id n;
     fills := fills n; wire := wire n |}.
Definition set_channels (x : gmap bytes DataChannelSession) (n : Node) : Node :=
  {| registry := registry n; sfu := sfu n; dtls_sessions := dtls_sessions n; data_channels := x; data_sequences := data_sequences n;
     node_metrics := node_metrics n; transcode_ingresses := transcode_ingresses n; next_transcode_ingress_id := next_transcode_ingress_id n;
     fills := fills n; wire := wire n |}.
Definition set_sequences (x : gmap bytes Z) (n : Node) : Node :=
  {| registry := registry n; sfu := sfu n; dtls_sessions := dtls_sessions n; data_channels := data_channels n; data_sequences := x;
     node_metrics := node_metrics n; transcode_ingresses := transcode_ingresses n; next_transcode_ingress_id := next_transcode_ingress_id n;
     fills := fills n; wire := wire n |}.
Definition set_node_metrics (x : NodeMetrics) (n : Node) : Node :=
  {| registry := registry n; sfu := sfu n; dtls_sessions := dtls_sessions n; data_channels := data_channels n; data_sequences := data_sequences n;
     node_metrics := x; transcode_ingresses := transcode_ingresses n; next_transcode_ingress_id := next_transcode_ingress_id n;
     fills := fills n; wire := wire n |}.
Definition set_ingresses (x : gmap Z TranscodeIngress) (next : Z) (n : Node) : Node :=
  {| registry := registry n; sfu := sfu n; dtls_sessions := dtls_sessions n; data_channels := data_channels n; data_sequences := data_sequences n;
     node_metrics := node_metrics n; transcode_ingresses := x; next_transcode_ingress_id := next; fills := fills n; wire := wire n |}.
Definition set_wire (f : nat) (x : list (SocketAddr * bytes)) (n : Node) : Node :=
  {| registry := registry n; sfu := sfu n; dtls_sessions := dtls_sessions n; data_channels := data_channels n; data_sequences := data_sequences n;
     node_metrics := node_metrics n; transcode_ingresses := transcode_ingresses n; next_transcode_ingress_id := next_transcode_ingress_id n;
     fills := f; wire := x |}.

Abbreviation node := (prog Node) (only parsing).

(** [if let Ok(..) = ..]: the error is a value. *)
Definition attempt {S E F A} (m : prog S E A) : prog S F (E + A) := fun s =>
  let '(s, o) := m s in (s, match o with Ok a => Ok (inr a) | Err e => Ok (inl e) | Panic => Panic | Diverge => Diverge end).
Definition on_registry {E A} (m : prog SessionRegistry RegistryError A) : node E (RegistryError + A) := fun n =>
  let '(r, o) := attempt m (registry n) in (set_registry r n, o).
Definition on_sfu {E A} (m : prog SfuRegistry SfuRuntimeError A) : node E (SfuRuntimeError + A) := fun n =>
  let '(r, o) := attempt m (sfu n) in (set_sfu r n, o).

Definition count {E} (c : Counter) (delta : Z) : node E unit := modify (fun n =>
  let m := node_metrics n in
  set_node_metrics {| counters := fun x => if decide (x = c) then saturating_add 64 (counters m x) delta else counters m x; gauges := gauges m |} n).
Definition gauge {E} (g : Gauge) (f : Z -> Z) : node E unit := modify (fun n =>
  let m := node_metrics n in
  set_node_metrics {| counters := counters m; gauges := fun x => if decide (x = g) then f (gauges m x) else gauges m x |} n).
(** [u64::try_from(..).unwrap_or(u64::MAX)] *)
Definition as_u64 (x : Z) : Z := default (umax 64) (try_from 64 x).
Definition send_to {E} (w : World) (destination : SocketAddr) (payload : bytes) : node E bool := fun n =>
  (set_wire (fills n) (wire n ++ [(destination, payload)]) n, Ok (sends w destination payload)).

(** ** Media *)
Definition send_route {E} (w : World) (route : SfuRoute) : node E unit :=
  match route with
  | RouteRtp session_id room_id subscriber subscription_id register_twcc packet =>
      _ ← (if register_twcc then _ ← on_sfu (register_sent (elapsed w) room_id subscriber packet); mret tt else mret tt);
      transmit ← on_registry (protect_rtp session_id packet);
      match transmit with
      | inr transmit =>
          sent ← send_to w (RtcSession.destination transmit) (RtcSession.payload transmit);
          if sent : bool then _ ← count RtpPacketsSent 1; count MediaBytesSent (as_u64 (len (RtcSession.payload transmit)))
          else count PacketsDropped 1
      | inl _ => count PacketsDropped 1
      end
  | RouteRtcp session_id packet =>
      transmit ← on_registry (protect_rtcp session_id packet);
      match transmit with
      | inr transmit =>
          sent ← send_to w (RtcSession.destination transmit) (RtcSession.payload transmit);
          if sent : bool then count MediaBytesSent (as_u64 (len (RtcSession.payload transmit))) else count PacketsDropped 1
      | inl _ => count PacketsDropped 1
      end
  | RecorderRtp destination packet =>
      sent ← send_to w destination packet;
      if sent : bool then mret tt else count PacketsDropped 1
  end.
Definition send_sfu_routes {E} (w : World) (routes : list SfuRoute) : node E unit := for_each routes (send_route w).

(** ** Data channels *)
Definition entropy_u32 (entropy : bytes) (from : Z) : option Z := from_be_bytes <$> get_range entropy from (from + 4).
Definition new_data_channel_session {E} (w : World) : node E (option DataChannelSession) := fun n =>
  let entropy := fill w (fills n) in
  (set_wire (S (fills n)) (wire n) n,
   Ok (entropy ← entropy;
       verification_tag ← entropy_u32 entropy 0;
       initial_tsn ← entropy_u32 entropy 4;
       match SctpAssociation.new
         {| SctpAssociation.local_port := 5000; SctpAssociation.remote_port := 5000; SctpAssociation.verification_tag := Z.lor verification_tag 1;
            SctpAssociation.initial_tsn := initial_tsn; SctpAssociation.cookie := drop 8 entropy; SctpAssociation.maximum_channels := 256;
            SctpAssociation.maximum_message_bytes := MAX_DATA_CHANNEL_MESSAGE_BYTES |} with
       | Ok association => Some {| association := association; stream_labels := ∅; label_streams := ∅ |}
       | _ => None
       end)).

Definition remove_data_channel_session {E} (session_id : bytes) : node E unit :=
  removed ← gets (fun n => data_channels n !! session_id);
  _ ← modify (fun n => set_channels (delete session_id (data_channels n)) n);
  match removed with
  | Some removed =>
      _ ← gauge ActiveDataChannelAssociations (gauge_add (-1));
      gauge ActiveDataChannels (gauge_add (- Z.of_nat (size (stream_labels removed))))
  | None => mret tt
  end.

(** [Result::ok] of a call that can also panic *)
Definition ok_of {S E F A} (o : outcome E A) : prog S F (option A) := lift (SfuRuntime.ok o).
Definition room_label : bytes := octets "fluvora.room.v1".
Definition authorize_data_payload {E} (w : World) (source : SessionSnapshot) (label : bytes) (kind : MessageKind) (payload : bytes)
    : node E (option (MessageKind * bytes)) :=
  if negb (bool_decide (label = room_label)) then mret (Some (kind, payload))
  else if negb (bool_decide (kind = SctpAssociation.Binary)) then mret None
  else
    match from_str_radix 128 16 (ss_room_id source), from_str_radix 128 16 (ss_participant_id source) with
    | Some room_id, Some participant_id =>
        envelope ← ok_of (Protocol.decode payload MAX_DATA_CHANNEL_PAYLOAD_BYTES);
        match envelope with
        | None => mret None
        | Some envelope =>
            if negb match Protocol.kind envelope with Protocol.Chat | Protocol.Control | Protocol.Custom _ => true | _ => false end
               || (negb (Protocol.room_id envelope =? 0) && negb (Protocol.room_id envelope =? room_id))
               || (negb (Protocol.sender_id envelope =? 0) && negb (Protocol.sender_id envelope =? participant_id))
            then mret None
            else
              sequence ← gets (fun n => saturating_add 64 (default 0 (data_sequences n !! ss_room_id source)) 1);
              _ ← modify (fun n => set_sequences (<[ss_room_id source := sequence]> (data_sequences n)) n);
              encoded ← ok_of (Protocol.encode
                {| Protocol.flags := Protocol.flags envelope; Protocol.kind := Protocol.kind envelope; Protocol.room_id := room_id;
                   Protocol.sender_id := participant_id; Protocol.sequence := sequence; Protocol.timestamp_millis := unix_time_millis w;
                   Protocol.payload := Protocol.payload envelope |} MAX_DATA_CHANNEL_PAYLOAD_BYTES);
              mret ((fun payload => (SctpAssociation.Binary, payload)) <$> encoded)
        end
    | _, _ => mret None
    end.

(** One turn of [target_sessions.into_iter().filter_map(..)]. *)
Definition send_to_session {E} (w : World) (label : bytes) (kind : MessageKind) (payload target_session : bytes) : node E (list (bytes * list bytes)) := fun n =>
  match data_channels n !! target_session with
  | None => (n, Ok [])
  | Some target =>
      match label_streams target !! label with
      | None => (n, Ok [])
      | Some stream_id =>
          let '(a, o) := SctpAssociation.send_message (crypto_elapsed w) stream_id kind payload (association target) in
          (set_channels (<[target_session := {| association := a; stream_labels := stream_labels target; label_streams := label_streams target |}]>
             (data_channels n)) n,
           match o with Ok packets => Ok [(target_session, packets)] | Err _ => Ok [] | Panic => Panic | Diverge => Diverge end)
      end
  end.
Fixpoint collect_each {S E A B} (l : list A) (body : A -> prog S E (list B)) : prog S E (list B) :=
  match l with [] => mret [] | x :: l => b ← body x; bs ← collect_each l body; mret (b ++ bs) end.
Definition route_room_data {E} (w : World) (session_id : bytes) (stream_id : Z) (kind : MessageKind) (payload : bytes) : node E (list (bytes * list bytes)) :=
  source ← gets (fun n => session_snapshot (registry n) session_id);
  match source with
  | None => mret []
  | Some source =>
      label ← gets (fun n => channel ← data_channels n !! session_id; stream_labels channel !! stream_id);
      match label with
      | None => _ ← count DataChannelRejections 1; mret []
      | Some label =>
          authorized ← authorize_data_payload w source label kind payload;
          match authorized with
          | None => _ ← count DataChannelRejections 1; mret []
          | Some (kind, payload) =>
              _ ← count DataChannelMessagesReceived 1;
              target_sessions ← gets (fun n => session_ids_in_room (registry n) (ss_room_id source));
              routed ← collect_each target_sessions (send_to_session w label kind payload);
              _ ← count DataChannelMessagesSent (as_u64 (len routed));
              mret routed
          end
      end
  end.

Definition with_labels (streams : gmap Z bytes) (labels : gmap bytes Z) (c : DataChannelSession) : DataChannelSession :=
  {| association := association c; stream_labels := streams; label_streams := labels |}.
(** [channels.get_mut(session_id)] with what it counts *)
Definition open_channel {E} (session_id : bytes) (stream_id : Z) (label : bytes) : node E unit :=
  channel ← gets (fun n => data_channels n !! session_id);
  match channel with
  | None => mret tt
  | Some channel =>
      let labels := match label_streams channel !! label with Some _ => label_streams channel | None => <[label := stream_id]> (label_streams channel) end in
      _ ← modify (fun n => set_channels (<[session_id := with_labels (<[stream_id := label]> (stream_labels channel)) labels channel]> (data_channels n)) n);
      match stream_labels channel !! stream_id with None => gauge ActiveDataChannels (gauge_add 1) | Some _ => mret tt end
  end.
Definition close_channel {E} (session_id : bytes) (stream_id : Z) : node E unit :=
  channel ← gets (fun n => data_channels n !! session_id);
  match channel with
  | None => mret tt
  | Some channel =>
      match stream_labels channel !! stream_id with
      | None => mret tt
      | Some label =>
          let labels := if bool_decide (label_streams channel !! label = Some stream_id) then delete label (label_streams channel) else label_streams channel in
          _ ← modify (fun n => set_channels (<[session_id := with_labels (delete stream_id (stream_labels channel)) labels channel]> (data_channels n)) n);
          gauge ActiveDataChannels (gauge_add (-1))
      end
  end.
(** One event: what is routed, and whether the association ends. *)
Definition route_event {E} (w : World) (session_id : bytes) (event : SctpAssociation.AssociationEvent) : node E (list (bytes * list bytes) * bool) :=
  match event with
  | SctpAssociation.ChannelOpened stream_id label _ _ _ => _ ← open_channel session_id stream_id label; mret ([], false)
  | SctpAssociation.Message stream_id kind payload => routed ← route_room_data w session_id stream_id kind payload; mret (routed, false)
  | SctpAssociation.ChannelClosed stream_id => _ ← close_channel session_id stream_id; mret ([], false)
  | SctpAssociation.EvEstablished => mret ([], false)
  | SctpAssociation.EvClosed => mret ([], true)
  | SctpAssociation.DeliveryFailed _ => _ ← count DataChannelDeliveryFailures 1; mret ([], true)
  | SctpAssociation.MessageAbandoned _ _ => _ ← count DataChannelMessagesAbandoned 1; mret ([], false)
  end.
Fixpoint route_events {E} (w : World) (session_id : bytes) (events : list SctpAssociation.AssociationEvent) : node E (list (bytes * list bytes) * bool) :=
  match events with
  | [] => mret ([], false)
  | event :: events =>
      '(routed, close) ← route_event w session_id event;
      '(more, close') ← route_events w session_id events;
      mret (routed ++ more, close || close')
  end.
Definition route_data_channel_output {E} (w : World) (session_id : bytes) (output : AssociationOutput) : node E (list (bytes * list bytes)) :=
  '(routed, close_association) ← route_events w session_id (SctpAssociation.events output);
  _ ← (if close_association : bool then remove_data_channel_session session_id else mret tt);
  mret (match SctpAssociation.packets output with [] => [] | packets => [(session_id, packets)] end ++ routed).

(** The datagrams of the packets of one session *)
Definition encrypt_packet {E} (session_id packet : bytes) : node E (list (bytes * bytes)) := fun n =>
  match dtls_sessions n !! session_id with
  | None => (n, Ok [])
  | Some session =>
      let '(session, encrypted) := write_application_data packet session in
      (set_dtls (<[session_id := session]> (dtls_sessions n)) n, Ok (pair session_id <$> default [] encrypted))
  end.
Definition transmit_datagram {E} (w : World) (session_id datagram : bytes) : node E unit :=
  transmit ← on_registry (transmit_dtls session_id datagram);
  match transmit with
  | inr transmit => _ ← send_to w (RtcSession.destination transmit) (RtcSession.payload transmit); mret tt
  | inl _ => mret tt
  end.
Definition transmit_sctp_packets {E} (w : World) (packets : list (bytes * list bytes)) : node E unit :=
  datagrams ← collect_each packets (fun '(session_id, packets) => collect_each packets (encrypt_packet session_id));
  for_each datagrams (fun '(session_id, datagram) => transmit_datagram w session_id datagram).

(** [match channels.entry(session_id.to_owned())] *)
Definition channel_entry {E} (session_id : bytes) (session : DataChannelSession) : node E DataChannelSession :=
  channel ← gets (fun n => data_channels n !! session_id);
  match channel with
  | Some channel => mret channel
  | None =>
      _ ← gauge ActiveDataChannelAssociations (gauge_add 1);
      _ ← modify (fun n => set_channels (<[session_id := session]> (data_channels n)) n);
      mret session
  end.
Definition on_association {E A} (session_id : bytes) (channel : DataChannelSession) (m : prog Association SctpPacket.DataChannelError A)
    : node E (SctpPacket.DataChannelError + A) := fun n =>
  let '(a, o) := attempt m (association channel) in
  (set_channels (<[session_id := {| association := a; stream_labels := stream_labels channel; label_streams := label_streams channel |}]> (data_channels n)) n, o).
Definition process_sctp_packet {E} (w : World) (session_id packet : bytes) : node E unit :=
  session ← new_data_channel_session w;
  match session with
  | None => mret tt
  | Some session =>
      channel ← channel_entry session_id session;
      output ← on_association session_id channel (SctpAssociation.handle_packet (crypto_elapsed w) packet);
      match output with
      | inl _ => count DataChannelRejections 1
      | inr output => routed ← route_data_channel_output w session_id output; transmit_sctp_packets w routed
      end
  end.

(** One turn of [iter_mut().filter_map(..)] over the associations *)
Definition tick_channel {E} (w : World) (entry : bytes * DataChannelSession) : node E (list (bytes * AssociationOutput)) :=
  let '(session_id, channel) := entry in
  output ← on_association session_id channel (SctpAssociation.tick (crypto_elapsed w));
  mret match output with
  | inr output =>
      match SctpAssociation.packets output, SctpAssociation.events output with [], [] => [] | _, _ => [(session_id, output)] end
  | inl _ => []
  end.
Definition poll_data_channels {E} (w : World) : node E unit :=
  channels ← gets (fun n => iter (data_channels n));
  outputs ← collect_each channels (tick_channel w);
  packets ← collect_each outputs (fun '(session_id, output) =>
    _ ← count DataChannelRetransmissions (SctpAssociation.retransmitted_packets output);
    route_data_channel_output w session_id output);
  transmit_sctp_packets w packets.

(** ** DTLS *)
Definition apply_crypto_progress {E} (w : World) (session_id : bytes) (progress : DatagramProgress) : node E unit :=
  _ ← for_each (outbound_datagrams progress) (transmit_datagram w session_id);
  _ ← match established_keying_material progress with
      | Some keying => _ ← on_registry (install_dtls_keying_material session_id keying); mret tt
      | None => mret tt
      end;
  for_each (application_data progress) (process_sctp_packet w session_id).
(** [sessions.entry(session_id.to_owned()).or_insert_with(..)] and the call *)
Definition on_dtls {E} (session_id fingerprint datagram : bytes) : node E (option DatagramProgress) := fun n =>
  let session := default (datagram_session fingerprint) (dtls_sessions n !! session_id) in
  let '(session, progress) := dtls_handle_datagram datagram session in
  (set_dtls (<[session_id := session]> (dtls_sessions n)) n, Ok progress).
Definition process_dtls {E} (w : World) (session_id expected_fingerprint datagram : bytes) : node E unit :=
  fingerprint ← ok_of (DtlsAdapter.Sha256Fingerprint.parse (octets "sha-256") expected_fingerprint);
  match fingerprint with
  | None => count AuthenticationFailures 1
  | Some fingerprint =>
      progress ← on_dtls session_id fingerprint datagram;
      match progress with
      | Some progress => apply_crypto_progress w session_id progress
      | None => count AuthenticationFailures 1
      end
  end.
Definition poll_session {E} (entry : bytes * DatagramDtlsSession) : node E (list (bytes * DatagramProgress)) := fun n =>
  let '(session_id, session) := entry in
  let '(session, progress) := dtls_poll session in
  (set_dtls (<[session_id := session]> (dtls_sessions n)) n, Ok match progress with Some progress => [(session_id, progress)] | None => [] end).
Definition poll_crypto {E} (w : World) : node E unit :=
  sessions ← gets (fun n => iter (dtls_sessions n));
  outputs ← collect_each sessions poll_session;
  _ ← for_each outputs (fun '(session_id, progress) => apply_crypto_progress w session_id progress);
  poll_data_channels w.

(** ** The loops *)
Definition count_feedback {E} (packet : RtcpModel.Packet) : node E unit :=
  match packet with
  | RtcpModel.PGenericNack nack => count NackRequests (as_u64 (len (RtcpModel.entries nack)))
  | RtcpModel.PPictureLossIndication _ => count PliRequests 1
  | _ => mret tt
  end.
Definition execute_action {E} (w : World) (output : RoutedActions) (action : RtcSession.SessionAction.t) : node E unit :=
  match action with
  | RtcSession.SessionAction.Transmit transmit =>
      sent ← send_to w (RtcSession.destination transmit) (RtcSession.payload transmit);
      if sent : bool then mret tt else count PacketsDropped 1
  | RtcSession.SessionAction.DtlsInput datagram => process_dtls w (ra_session_id output) (ra_expected_peer_fingerprint output) datagram
  | RtcSession.SessionAction.InboundRtp packet =>
      routes ← on_sfu (handle_rtp (elapsed w) (ra_room_id output) (ra_participant_id output) packet);
      match routes with inr routes => send_sfu_routes w routes | inl _ => count PacketsDropped 1 end
  | RtcSession.SessionAction.InboundRtcp octets _ =>
      packets ← ok_of (Rtcp.parse_compound octets);
      _ ← for_each (default [] packets) count_feedback;
      routes ← on_sfu (handle_rtcp (elapsed w) (ra_room_id output) (ra_participant_id output) octets);
      match routes with inr routes => send_sfu_routes w routes | inl _ => count PacketsDropped 1 end
  | RtcSession.SessionAction.StateChanged _ _ => mret tt
  end.
Definition execute_actions {E} (w : World) (output : RoutedActions) : node E unit := for_each (ra_actions output) (execute_action w output).

(** One turn of the loop of [run_udp] *)
Definition run_udp {E} (w : World) (local remote : SocketAddr) (datagram : bytes) : node E unit :=
  output ← on_registry (handle_datagram (elapsed w) local remote datagram);
  match output with
  | inr output => execute_actions w output
  | inl error =>
      _ ← count PacketsDropped 1;
      match error with
      | UnknownRemote | SessionRegistry.Stun _ | MissingUsername | UnknownUsernameFragment | RemoteCollision | Transport _ => count AuthenticationFailures 1
      | _ => mret tt
      end
  end.
(** One turn of the loop of [run_timers] *)
Definition run_timers {E} (w : World) : node E unit :=
  outputs ← (fun n => let '(r, outputs) := SessionRegistry.tick (elapsed w) (registry n) in (set_registry r n, Ok outputs));
  _ ← for_each outputs (execute_actions w);
  poll_crypto w.
End Node.
