(* ===== verification/MediaNodeControl.v ===== *)
(** * services/media-node: the control interface (src/main.rs)

    The handlers of the HTTP routes, after the request has been decoded: a handler gives the status of its answer or an error. *)
From S2P Require Import Prelude Words Slices RustStd RustStr.
From S2P Require Stun Srtp MediaCodec SfuModel Room LayerSelector RtpPacket RtcSession SctpAssociation.
From S2P Require Import SfuRuntime SessionRegistry MediaNode.
Import SctpAssociation (KeyOrder).
Import SfuModel (MediaKind, Encoding).
Import RtcSession (SessionState).

Inductive ApiError :=
| Unauthorized
| SessionProvisionFailed (error : RegistryError)
| SfuSessionBindFailed (error : SfuRuntimeError)
| SfuOperationFailed (error : SfuRuntimeError)
| InvalidMediaKind
| UnsupportedCodec
| RecordingSinkNotFound
| InvalidTranscodeIngress
| TranscodeIngressBindFailed
| TranscodeIngressIdExhausted
| TranscodeIngressCapacity
| TranscodeIngressNotFound
| SessionNotFound.
(** The status of an error *)
Definition status (e : ApiError) : Z :=
  match e with
  | Unauthorized => 401
  | SessionProvisionFailed Capacity => 503
  | SessionProvisionFailed (DuplicateSession | DuplicateUsernameFragment) => 409
  | SessionProvisionFailed _ | SfuSessionBindFailed _ | SfuOperationFailed _ | InvalidMediaKind | UnsupportedCodec | InvalidTranscodeIngress => 422
  | RecordingSinkNotFound | TranscodeIngressNotFound | SessionNotFound => 404
  | TranscodeIngressBindFailed | TranscodeIngressIdExhausted | TranscodeIngressCapacity => 503
  end.
Definition CREATED : Z := 201.
Definition NO_CONTENT : Z := 204.

Record PublishTrackRequest := {
  pr_room_id : bytes; pr_participant_id : bytes; pr_track_id : Z; pr_kind : bytes; pr_codec : bytes; pr_clock_rate : Z; pr_payload_type : Z;
  pr_encodings : list Encoding }.
Record LayerRequest := { lr_room_id : bytes; lr_participant_id : bytes; lr_spatial_layer : Z; lr_temporal_layer : Z }.
Record UnsubscribeRequest := { ur_room_id : bytes; ur_participant_id : bytes }.
Record RecordingSinkRequest := { rr_room_id : bytes; rr_track_id : Z; rr_destination : SocketAddr; rr_source_ssrc : option Z }.
Record CreateTranscodeIngressRequest := {
  cr_room_id : bytes; cr_participant_id : bytes; cr_track_id : Z; cr_kind : bytes; cr_codec : bytes; cr_clock_rate : Z; cr_payload_type : Z; cr_ssrc : Z;
  cr_max_bitrate_bps : Z }.
Record SessionResponse := { re_session_id : bytes; re_room_id : bytes; re_participant_id : bytes; re_state : bytes }.

(** The [Authorization] header, if it is there and is text *)
Definition authorize (authorization : option bytes) (expected : bytes) : outcome ApiError unit :=
  let supplied := value ← authorization; if bool_decide (take 7 value = octets "Bearer ") then Some (drop 7 value) else None in
  reject_if (negb (bool_decide (supplied = Some expected))) Unauthorized.
Definition parse_media_kind (value : bytes) : outcome ApiError MediaKind :=
  if bool_decide (value = octets "audio") then Ok SfuModel.Audio else if bool_decide (value = octets "video") then Ok SfuModel.Video else Err InvalidMediaKind.
Definition parse_codec (value : bytes) : outcome ApiError MediaCodec.Codec :=
  let value := to_ascii_lowercase <$> value in
  if bool_decide (value = octets "opus") then Ok MediaCodec.Opus else if bool_decide (value = octets "vp8") then Ok MediaCodec.Vp8
  else if bool_decide (value = octets "vp9") then Ok MediaCodec.Vp9 else if bool_decide (value = octets "h264") then Ok MediaCodec.H264
  else if bool_decide (value = octets "av1") then Ok MediaCodec.Av1 else Err UnsupportedCodec.

Section Control.
Context {stun_crypto : Stun.StunCrypto} {srtp_crypto : Srtp.SrtpCrypto} {iteration : HashIteration} {hash_order : Room.HashOrder}
  {unstable_sort : LayerSelector.UnstableSort} {key_order : KeyOrder} {backend : DtlsBackend} (token : bytes) (authorization : option bytes).

Abbreviation handler := (prog Node ApiError).
(** [.map_err(..)?] *)
Definition required {E A} (f : E -> ApiError) (m : handler (E + A)) : handler A :=
  r ← m; lift match r with inr a => Ok a | inl e => Err (f e) end.
Definition registry_call {A} (m : prog SessionRegistry RegistryError A) : handler A := required SessionProvisionFailed (on_registry m).
Definition sfu_call {A} (m : prog SfuRegistry SfuRuntimeError A) : handler A := required SfuOperationFailed (on_sfu m).

(** ** Sessions *)
Definition provision_session (request : SessionProvision) : handler Z :=
  _ ← lift (authorize authorization token);
  _ ← registry_call (provision request);
  bound ← on_sfu (bind_session (sp_room_id request) (sp_participant_id request) (sp_session_id request));
  match bound with
  | inl error =>
      _ ← modify (fun n => set_registry (remove (sp_session_id request) (registry n)).1 n);
      fail (SfuSessionBindFailed error)
  | inr _ => mret CREATED
  end.
Definition restart_session_ice (request : SessionIceRestart) : handler Z :=
  _ ← lift (authorize authorization token);
  _ ← registry_call (restart_ice request);
  mret NO_CONTENT.
Definition get_session (session_id : bytes) : handler SessionResponse :=
  _ ← lift (authorize authorization token);
  n ← gets id;
  snapshot ← lift (ok_or (session_snapshot (registry n) session_id) SessionNotFound);
  mret {| re_session_id := ss_session_id snapshot; re_room_id := ss_room_id snapshot; re_participant_id := ss_participant_id snapshot;
          re_state := match ss_state snapshot with
            | RtcSession.New => octets "new" | RtcSession.DtlsHandshaking => octets "dtls_handshaking" | RtcSession.Connected => octets "connected"
            | RtcSession.Disconnected => octets "disconnected" | RtcSession.Failed => octets "failed" | RtcSession.Closed => octets "closed" end |}.
Definition remove_crypto_session (session_id : bytes) : handler unit := modify (fun n => set_dtls (delete session_id (dtls_sessions n)) n).
Definition delete_session (session_id : bytes) : handler Z :=
  _ ← lift (authorize authorization token);
  snapshot ← gets (fun n => session_snapshot (registry n) session_id);
  removed ← (fun n => let '(r, removed) := remove session_id (registry n) in (set_registry r n, Ok removed));
  if removed : bool then
    _ ← remove_crypto_session session_id;
    _ ← remove_data_channel_session session_id;
    _ ← match snapshot with
        | Some snapshot => modify (fun n => set_sfu (unbind_session (ss_room_id snapshot) (ss_participant_id snapshot) session_id (sfu n)).1 n)
        | None => mret tt
        end;
    mret NO_CONTENT
  else fail SessionNotFound.

(** ** Tracks *)
Definition publish_track (request : PublishTrackRequest) : handler Z :=
  _ ← lift (authorize authorization token);
  kind ← lift (parse_media_kind (pr_kind request));
  codec ← lift (parse_codec (pr_codec request));
  _ ← sfu_call (publish
    {| pt_room_id := pr_room_id request; pt_participant_id := pr_participant_id request; pt_track_id := pr_track_id request; pt_kind := kind; pt_codec := codec;
       pt_clock_rate := pr_clock_rate request; pt_payload_type := pr_payload_type request; pt_encodings := pr_encodings request |});
  _ ← gauge PublisherTracks (gauge_add 1);
  mret CREATED.
Definition as_i64 (x : Z) : Z := if x <=? 2 ^ 63 - 1 then x else 2 ^ 63 - 1.
Definition unpublish_track (track_id : Z) (room_id participant_id : bytes) : handler Z :=
  _ ← lift (authorize authorization token);
  _ ← sfu_call (unpublish_owned room_id participant_id track_id);
  allocation ← gets (fun n => stats (sfu n));
  _ ← gauge ActiveRooms (fun _ => as_i64 (stats_rooms allocation));
  _ ← gauge PublisherTracks (fun _ => as_i64 (publisher_tracks allocation));
  _ ← gauge SubscriberTracks (fun _ => as_i64 (subscriber_tracks allocation));
  mret NO_CONTENT.
Definition subscribe_track (request : SubscribeTrack) : handler Z :=
  _ ← lift (authorize authorization token);
  _ ← sfu_call (subscribe request);
  _ ← gauge SubscriberTracks (gauge_add 1);
  mret CREATED.
(** The routes that [set_layer] returns are dropped. *)
Definition set_subscription_layer (w : World) (subscription_id : Z) (request : LayerRequest) : handler Z :=
  _ ← lift (authorize authorization token);
  _ ← sfu_call (set_layer (elapsed w) (lr_room_id request) (lr_participant_id request) subscription_id (lr_spatial_layer request) (lr_temporal_layer request));
  _ ← count LayerSwitches 1;
  mret NO_CONTENT.
Definition unsubscribe_track (subscription_id : Z) (request : UnsubscribeRequest) : handler Z :=
  _ ← lift (authorize authorization token);
  _ ← sfu_call (unsubscribe (ur_room_id request) (ur_participant_id request) subscription_id);
  _ ← gauge SubscriberTracks (gauge_add (-1));
  mret NO_CONTENT.

(** ** Recording and transcoding *)
Definition add_recording_sink_route (w : World) (request : RecordingSinkRequest) : handler Z :=
  _ ← lift (authorize authorization token);
  _ ← sfu_call (add_recording_sink_for_ssrc (rr_room_id request) (rr_track_id request) (rr_destination request) (rr_source_ssrc request));
  route ← sfu_call (request_keyframe (rr_room_id request) (rr_track_id request) (rr_source_ssrc request));
  _ ← match route with
      | Some route => _ ← count PliRequests 1; send_sfu_routes w [route]
      | None => mret tt
      end;
  mret CREATED.
Definition remove_recording_sink_route (request : RecordingSinkRequest) : handler Z :=
  _ ← lift (authorize authorization token);
  removed ← (fun n => let '(s, removed) := remove_recording_sink_destination (rr_room_id request) (rr_track_id request) (rr_destination request) (sfu n) in
                      (set_sfu s n, Ok removed));
  if removed : bool then mret NO_CONTENT else fail RecordingSinkNotFound.
Definition discard_track (room_id : bytes) (track_id : Z) : handler unit := modify (fun n => set_sfu (unpublish room_id track_id (sfu n)).1 n).
Definition create_transcode_ingress (w : World) (request : CreateTranscodeIngressRequest) : handler (Z * SocketAddr) :=
  _ ← lift (authorize authorization token);
  _ ← lift (reject_if ((cr_ssrc request =? 0) || (cr_max_bitrate_bps request =? 0) || negb ((96 <=? cr_payload_type request) && (cr_payload_type request <=? 127)))
              InvalidTranscodeIngress);
  destination ← lift (ok_or (bind_loopback w) TranscodeIngressBindFailed);
  kind ← lift (parse_media_kind (cr_kind request));
  codec ← lift (parse_codec (cr_codec request));
  _ ← sfu_call (publish_transcoded
    {| pt_room_id := cr_room_id request; pt_participant_id := cr_participant_id request; pt_track_id := cr_track_id request; pt_kind := kind; pt_codec := codec;
       pt_clock_rate := cr_clock_rate request; pt_payload_type := cr_payload_type request;
       pt_encodings := [{| SfuModel.enc_ssrc := cr_ssrc request; SfuModel.rid := None; SfuModel.spatial_layer := 0;
                           SfuModel.max_bitrate_bps := cr_max_bitrate_bps request |}] |});
  ingress_id ← gets next_transcode_ingress_id;
  _ ← modify (fun n => set_ingresses (transcode_ingresses n) (wrapping_add 64 ingress_id 1) n);
  if ingress_id =? umax 64 then
    _ ← discard_track (cr_room_id request) (cr_track_id request); fail TranscodeIngressIdExhausted
  else
    used ← gets (fun n => Z.of_nat (size (transcode_ingresses n)));
    if MAX_TRANSCODE_INGRESSES <=? used then
      _ ← discard_track (cr_room_id request) (cr_track_id request); fail TranscodeIngressCapacity
    else
      _ ← modify (fun n => set_ingresses
            (<[ingress_id := {| ti_room_id := cr_room_id request; ti_track_id := cr_track_id request; ti_participant_id := cr_participant_id request |}]>
               (transcode_ingresses n)) (next_transcode_ingress_id n) n);
      mret (ingress_id, destination).
(** One datagram of the loop of [run_transcode_ingress] *)
Definition run_transcode_ingress (w : World) (room_id participant_id : bytes) (remote : SocketAddr) (packet : bytes) : handler unit :=
  if negb (is_loopback (ip remote)) then mret tt
  else
    routes ← on_sfu (handle_transcoded_rtp (elapsed w) room_id participant_id packet);
    match routes with inr routes => send_sfu_routes w routes | inl _ => mret tt end.
Definition delete_transcode_ingress (ingress_id : Z) : handler Z :=
  _ ← lift (authorize authorization token);
  n ← gets id;
  ingress ← lift (ok_or (transcode_ingresses n !! ingress_id) TranscodeIngressNotFound);
  _ ← modify (fun n => set_ingresses (delete ingress_id (transcode_ingresses n)) (next_transcode_ingress_id n) n);
  _ ← discard_track (ti_room_id ingress) (ti_track_id ingress);
  mret NO_CONTENT.
End Control.
