(* ===== verification/MediaNodeCalls.v ===== *)
(** * services/media-node: the calls of the process on its registries

    What the calls on a session, on the rooms and on an association return, and what they leave alone. *)
From S2P Require Import Prelude Words Slices RustStd RustStr SfuRuntime SessionRegistry MediaNode.
From S2P Require Stun Srtp Replay RtpPacket RtpRewrite Rtcp RtcpModel DtlsAdapter RtcSession RtcSessionSafety SfuModel DownTrack Room RoomInvariant RoomSafety BandwidthEstimator LayerSelector SfuRuntimeInvariant SfuRuntimeSafety SfuRuntimeSteps SessionRegistrySafety SctpAssociation SctpInvariant SctpSafety SctpEvents.
Import RtcSession (Session).
Import SessionRegistrySafety (keeps, keeps_refl).

(** ** Sessions *)
Section Sessions.
Context {srtp_crypto : Srtp.SrtpCrypto}.

Lemma returns_try_modify {S E} (f : S -> outcome E S) s : returns (f s) -> returns (try_modify f s).2.
Proof. unfold try_modify. by destruct (f s). Qed.
Lemma returns_prog_bind {S E A B} (m : prog S E A) (k : A -> prog S E B) s : returns (m s).2 -> (forall s' a, m s = (s', Ok a) -> returns (k a s').2) -> returns ((m ≫= k) s).2.
Proof. intros Hm Hk. unfold mbind, prog_bind. destruct (m s) as [s' [a|e| |]]; cbn in *; try done. by apply Hk. Qed.

Lemma prog_bind_assoc {S E A B C} (m : prog S E A) (f : A -> prog S E B) (g : B -> prog S E C) s : (x ← m; y ← f x; g y) s = (y ← (x ← m; f x); g y) s.
Proof. unfold mbind, prog_bind. by destruct (m s) as [s' [x|e| |]]. Qed.

Lemma returns_protect_rtp c packet : returns (Srtp.protect_rtp (c, packet)).2.
Proof.
  unfold Srtp.protect_rtp. apply returns_prog_bind; [apply returns_map_err, RtpPacket.returns_parse|]. intros s' p _. cbv zeta.
  apply returns_prog_bind. { unfold Srtp.outbound_advance, Srtp.advance. destruct s'. by repeat case_match; simplify_eq. }
  intros [c1 q] i _. unfold Srtp.seal_rtp. apply returns_prog_bind.
  { apply returns_try_modify, returns_bind; [apply Srtp.returns_crypt_from|done]. }
  intros s2 [] _. apply returns_prog_bind; [apply returns_ok_or|]. intros [c3 q3] roc _. apply returns_try_modify.
  apply returns_bind; [apply Srtp.returns_tag; pose proof (Srtp.tag_len_bounds (Srtp.profile c3)); lia|done].
Qed.
Lemma returns_protect_rtcp c packet : rust_slice packet -> returns (Srtp.protect_rtcp (c, packet)).2.
Proof.
  intros Hp. unfold Srtp.protect_rtcp. apply returns_prog_bind; [by apply returns_map_err, Rtcp.returns_parse_compound|]. intros s1 p _.
  apply returns_prog_bind; [done|]. intros s2 n _. apply returns_prog_bind; [apply returns_reject_if|]. intros s3 [] _.
  apply returns_prog_bind; [done|]. intros s4 i _. apply returns_prog_bind; [apply returns_reject_if|]. intros [c5 q5] [] _.
  apply returns_prog_bind. { apply returns_try_modify, returns_bind; [apply returns_ok_or|done]. }
  intros [c6 q6] [] _. apply returns_prog_bind; [apply returns_read_be|]. intros [c7 q7] ssrc _.
  apply returns_prog_bind. { apply returns_try_modify, returns_bind; [apply Srtp.returns_crypt_from|done]. }
  intros [c8 q8] [] _. apply returns_try_modify, returns_bind; [apply Srtp.returns_tag; destruct (Srtp.profile c8); cbn; lia|done].
Qed.

(** What was decrypted is a slice. *)
Lemma unprotected_rtp_slice wire c c' packet : rust_slice wire -> Srtp.unprotect_rtp wire c = (c', Ok packet) -> rust_slice packet.
Proof.
  intros Hw H. unfold Srtp.unprotect_rtp in H. match type of H with (match ?m with _ => _ end) = _ => destruct m as [[[ssrc i] p]|e| |] eqn:Hm end; try done.
  injection H as _ <-. apply bind_Ok in Hm as (n & _ & Hm). apply bind_Ok in Hm as (enc & Henc%ok_or_Ok & Hm).
  do 8 (apply bind_Ok in Hm as (? & _ & Hm)). apply bind_Ok in Hm as (plain & Hp & Hm). apply bind_Ok in Hm as (? & _ & Hm). apply Ok_inj in Hm. simplify_eq.
  eapply Srtp.crypt_from_slice; [|exact Hp]. unfold get_to in Henc. by eapply Rtcp.rust_slice_range.
Qed.
Lemma unprotected_rtcp_slice wire c c' packet : rust_slice wire -> Srtp.unprotect_rtcp wire c = (c', Ok packet) -> rust_slice packet.
Proof.
  intros Hw H. unfold Srtp.unprotect_rtcp in H. match type of H with (match ?m with _ => _ end) = _ => destruct m as [[[ssrc i] p]|e| |] eqn:Hm end; try done.
  injection H as _ <-. apply bind_Ok in Hm as (n & _ & Hm). apply bind_Ok in Hm as (? & _ & Hm). apply bind_Ok in Hm as (auth & Hauth%ok_or_Ok & Hm).
  do 6 (apply bind_Ok in Hm as (? & _ & Hm)). apply bind_Ok in Hm as (plain & Hp%ok_or_Ok & Hm). apply bind_Ok in Hm as (out & Hout & Hm).
  apply bind_Ok in Hm as (? & _ & Hm). apply Ok_inj in Hm. simplify_eq. assert (rust_slice plain) as Hs by (unfold get_to in *; eauto using Rtcp.rust_slice_range).
  destruct (has_bit _ _); [by eapply Srtp.crypt_from_slice|by simplify_eq].
Qed.

(** A call on a session that returns, keeps it consistent and keeps its nominated peer. *)
Record session_call {A} (body : prog Session RtcSession.SessionError.t A) (Q : Session -> A -> Prop) : Prop := {
  sc_ok t : preserves (RtcSessionSafety.session_ok t) body;
  sc_agent s : keeps (RtcSession.ice s) (RtcSession.ice (body s).1);
  sc_remote s : RtcSession.selected_remote (body s).1 = RtcSession.selected_remote s;
  sc_result s : match (body s).2 with Ok a => Q s a | Err _ => True | _ => False end }.
Definition to_peer (s : Session) (t : RtcSession.Transmit) : Prop := RtcSession.selected_remote s = Some (RtcSession.destination t).

Lemma selected_transmit_to s payload : match RtcSession.selected_transmit s payload with Ok t => to_peer s t | Err _ => True | _ => False end.
Proof. unfold RtcSession.selected_transmit. destruct (RtcSession.selected_local s); [|done]. destruct (RtcSession.selected_remote s) eqn:E; [exact E|done]. Qed.
Lemma protecting_remote (m : prog (Srtp.SrtpContext * bytes) Replay.SrtpError unit) packet : (forall c, returns (m (c, packet)).2) ->
  let body := packet ← RtcSession.with_srtp (RtcSession.in_place m packet); self ← gets id; lift (RtcSession.selected_transmit self packet) in
  forall s, RtcSession.selected_remote (body s).1 = RtcSession.selected_remote s /\ match (body s).2 with Ok a => to_peer s a | Err _ => True | _ => False end.
Proof.
  intros Hm. cbv zeta. intros s. unfold mbind, prog_bind, RtcSession.with_srtp, RtcSession.in_place.
  destruct (RtcSession.srtp s) as [c|]; [|by split]. specialize (Hm c). destruct (m (c, packet)) as [[c' q] o]. cbn [snd] in Hm. destruct o as [[]|e| |]; try by split.
  cbn. split; [done|]. pose proof (selected_transmit_to (RtcSession.set_srtp (Some c') s) q). by destruct (RtcSession.selected_transmit _ q).
Qed.
Lemma protect_rtp_call packet : session_call (RtcSession.protect_rtp packet) to_peer.
Proof.
  split; [intros t; apply RtcSessionSafety.protect_rtp_keeps|intros s; apply SessionRegistrySafety.protect_rtp_agent|..];
    intros s; apply (protecting_remote Srtp.protect_rtp packet); intros c; apply returns_protect_rtp.
Qed.
Lemma protect_rtcp_call packet : rust_slice packet -> session_call (RtcSession.protect_rtcp packet) to_peer.
Proof.
  intros Hp. split; [intros t; apply RtcSessionSafety.protect_rtcp_keeps|intros s; apply SessionRegistrySafety.protect_rtcp_agent|..];
    intros s; apply (protecting_remote Srtp.protect_rtcp packet); intros c; by apply returns_protect_rtcp.
Qed.
Lemma transmit_dtls_call payload : session_call (fun s => (s, RtcSession.transmit_dtls s payload)) to_peer.
Proof. split; [by intros t s Hs|by intros s; apply keeps_refl|done|]. intros s. apply selected_transmit_to. Qed.
Lemma install_call keying : session_call (RtcSession.install_dtls_keying_material keying) (fun _ _ => True).
Proof.
  assert (forall s, RtcSession.selected_remote (RtcSession.install_dtls_keying_material keying s).1 = RtcSession.selected_remote s /\
    match (RtcSession.install_dtls_keying_material keying s).2 with Ok _ => True | Err _ => True | _ => False end) as H.
  { intros s. unfold RtcSession.install_dtls_keying_material. case_match; [done|].
    match goal with |- context [RtcSession.transition ?t ?x] => by destruct (RtcSessionSafety.transition_spec t x) as (action & -> & _) end. }
  split; [intros t; apply RtcSessionSafety.install_keeps| |apply H|apply H]. intros s. rewrite SessionRegistrySafety.install_agent. apply keeps_refl.
Qed.

(** The same call by the identifier of the session. *)
Lemma by_id_call {A} (body : prog Session RtcSession.SessionError.t A) Q id self : session_call body Q ->
  by_id id body self =
  match sessions self !! id with
  | None => (self, Err UnknownSession)
  | Some m => (set_sessions (<[id := with_session (body (session m)).1 m]> (sessions self)) self, map_err Transport (body (session m)).2)
  end.
Proof.
  intros Hb. unfold by_id. rewrite (prog_step _ _ self self self) by done. unfold mbind at 1, prog_bind at 1, lift at 1.
  destruct (sessions self !! id) as [m|]; [|done]. cbn [ok_or]. unfold mbind, prog_bind, on_session. by destruct (body (session m)) as [s [a|e| |]].
Qed.
End Sessions.

(** ** Rooms *)
(** A packet that is forwarded fits a vector. *)
Lemma rewritten_len input rewrites p output : rust_slice input -> RtpPacket.parse input = Ok p -> RtpPacket.rewrite_header_extensions input rewrites = Ok output -> len output < 2 ^ 63.
Proof.
  intros Hin Hp H. destruct (decide (rewrites = [])) as [->|Hne]; [injection H as <-; by destruct Hin|].
  rewrite (RtpRewrite.rewrite_header_extensions_spec _ _ p) in H by done. destruct (RtpRewrite.parse_wf _ _ Hin Hp) as [(?&?&?&?&?&?&_&_) _].
  destruct (RtpPacket.extension_format p) as [f|]; [|done].
  assert (RtpPacket.PacketBuilder.build (RtpRewrite.rebuilt p (Some f) (omap (RtpPacket.rewrite_extension rewrites) (RtpPacket.extensions p))) = Ok output) as Hb by by destruct f.
  apply RtpPacket.build_shape in Hb as (_ & _ & _ & Hl & _); [unfold RtpPacket.MAX_PACKET_LEN in Hl; lia|done].
Qed.
Lemma forwarded_len now track layer info input d q : DownTrack.down_ok d -> rust_slice input ->
  RoomSafety.sent_by (DownTrack.forward now track layer info input d) = Some q -> len (SfuModel.fp_packet q) < 2 ^ 63.
Proof.
  intros Hd Hin H. unfold RoomSafety.sent_by in H. destruct (DownTrack.forward_gate track layer info d) as [dec|] eqn:Hg.
  { unfold DownTrack.forward in H. rewrite Hg in H. unfold DownTrack.forward_gate in Hg. by repeat case_match; simplify_eq. }
  destruct (RtpPacket.parse input) as [p|e| |] eqn:Hp; [|unfold DownTrack.forward in H; rewrite Hg, Hp in H; done..].
  rewrite (DownTrack.forward_spec _ _ _ _ _ _ p) in H by done. cbv zeta in H. set (h := RtpPacket.header p) in *.
  destruct (DownTrack.rewrite_timestamp_fits (RtpPacket.timestamp h) (DownTrack.switched_by d h) d Hd) as (Hts & _).
  destruct (DownTrack.apply_rewrite_Ok (DownTrack.output_rewrite d (DownTrack.next_sequence_number d) (DownTrack.output_timestamp h d)) input p)
    as (out & Ha & Hout & Hpo); [done|apply DownTrack.output_rewrite_ok; [done|apply Hd|done]|done|].
  rewrite Ha in H. destruct (RtpPacket.rewrite_header_extensions out _) as [packet|e| |] eqn:Hx; try done. cbn in H. injection H as <-. by eapply rewritten_len.
Qed.
Lemma pli_packet_slice ssrc packet : pli_packet ssrc = Ok packet -> rust_slice packet.
Proof.
  intros H. assert (pli_packet ssrc = Ok ([0x81; 206; 0; 2; 0; 0; 0; 0] ++ to_be_bytes 4 ssrc)) as Hp by reflexivity. rewrite Hp in H. apply Ok_inj in H as <-.
  split; [apply bytes_ok_app; split; [repeat constructor; eval_facts|apply to_be_bytes_ok]|]. rewrite len_app, len_to_be_bytes. unfold len. cbn. lia.
Qed.

Section Rooms.
Context {iteration : HashIteration} {hash_order : Room.HashOrder} {unstable_sort : LayerSelector.UnstableSort}.

(** A call that routes within the room [name]: the sinks, the bindings and every other room are as before. *)
Record within_room (name : bytes) (self self' : SfuRegistry) : Prop := {
  wr_ok : SfuRuntimeInvariant.registry_ok self';
  wr_sinks : recording_sinks self' = recording_sinks self;
  wr_others n : n <> name -> rooms self' !! n = rooms self !! n;
  wr_bindings : participant_sessions <$> rooms self' = participant_sessions <$> rooms self }.
(** Where a route leads: to a session bound in the room or to one of its sinks. *)
Definition route_within (name : bytes) (self : SfuRegistry) (route : SfuRoute) : Prop :=
  match route with
  | RouteRtp session_id room_id who _ twcc packet =>
      room_id = name /\ (exists b, (participant_sessions <$> rooms self) !! name = Some b /\ b !! who = Some session_id) /\ (twcc = true -> len packet < 2 ^ 63)
  | RouteRtcp session_id packet => (exists b p, (participant_sessions <$> rooms self) !! name = Some b /\ b !! p = Some session_id) /\ rust_slice packet
  | RecorderRtp dest _ => (exists track, is_Some (recording_sinks self !! (name, track, dest))) /\ is_loopback (ip dest) = true
  end.
Lemma within_refl name self : SfuRuntimeInvariant.registry_ok self -> within_room name self self.
Proof. by split. Qed.
Lemma within_routed name self m m' : SfuRuntimeInvariant.registry_ok self -> rooms self !! name = Some m -> SfuRuntimeInvariant.managed_ok m' ->
  SfuRuntimeInvariant.routed m m' -> within_room name self (set_rooms (<[name := m']> (rooms self)) self).
Proof.
  intros Hok Hm Hm' Hr. split; [by eapply SfuRuntimeInvariant.registry_routed|done|intros n Hn; by apply lookup_insert_ne|].
  cbn. rewrite fmap_insert. apply insert_id. rewrite lookup_fmap, Hm. cbn. f_equal. symmetry. apply Hr.
Qed.
(** The result of a call that routes. *)
Definition routes_within (name : bytes) (self : SfuRegistry) (o : outcome SfuRuntimeError (list SfuRoute)) : Prop :=
  match o with Ok routes => forall route, route ∈ routes -> route_within name self route | Err _ => True | _ => False end.

Lemma returns_fingerprint algorithm value : returns (DtlsAdapter.Sha256Fingerprint.parse algorithm value).
Proof.
  unfold DtlsAdapter.Sha256Fingerprint.parse. apply returns_bind; [auto with returns|]. intros _ _.
  apply returns_bind; [apply DtlsAdapter.returns_read_octets|]. intros [bs parts] _. returns_steps.
Qed.
Lemma returns_participant pid : returns (parse_participant pid).
Proof. apply returns_bind; [apply returns_reject_if|intros; apply returns_ok_or]. Qed.
Lemma handle_rtp_within now name pid packet self : SfuRuntimeInvariant.registry_ok self -> rust_slice packet ->
  let '(self', o) := handle_rtp now name pid packet self in within_room name self self' /\ routes_within name self o.
Proof.
  intros Hok Hs. unfold handle_rtp. unfold mbind at 1, prog_bind at 1, lift at 1. pose proof (returns_participant pid) as Hp.
  destruct (parse_participant pid) as [p|e| |]; [|by split; [apply within_refl|]|done|done]. rewrite (prog_step _ _ self self self) by done.
  destruct (rooms self !! name) as [m|] eqn:Hm; [|by unfold on_room; rewrite Hm; split; [apply within_refl|]].
  rewrite (SfuRuntimeSteps.on_room_Some _ _ _ _ Hm). destruct (SfuRuntimeInvariant.go_rooms _ Hok _ _ Hm) as [Hmo _].
  pose proof (SfuRuntimeSafety.route_rtp_spec self now name p packet m Hok Hmo Hs) as Hr.
  destruct (route_rtp _ _ _ _ _ m) as [m' o]. destruct Hr as (R1 & R2 & R3 & R4). cbn [fst snd]. split; [by eapply within_routed|].
  destruct o as [routes|e| |]; [|done..]. specialize (R4 routes eq_refl) as [(out & tid & track & layer & info & parsed & rtp & requests & recs & D1 & D2 & D3 & -> & D5 & D6 & D7 & D8 & D9) _].
  assert ((participant_sessions <$> rooms self) !! name = Some (participant_sessions m)) as Hb by by rewrite lookup_fmap, Hm.
  intros route [Hin|[Hin|Hin]%elem_of_app]%elem_of_app.
  - apply list_elem_of_lookup in Hin as [i Hi]. destruct (Forall2_lookup_r _ _ _ _ _ D5 Hi) as (q & Hq & session & Hse & ->).
    split_and!; [done|by eauto|]. intros _. apply list_elem_of_lookup_2 in Hq. rewrite (RoomSafety.fan_packets _ _ _ _ _ _ _ _ _ _ D2) in Hq.
    apply list_elem_of_omap in Hq as (id & _ & Hq). apply bind_Some in Hq as (d & Hd & Hq). eapply forwarded_len; [|done..].
    by apply (RoomInvariant.ro_sub _ (SfuRuntimeInvariant.mo_room _ Hmo) _ _ Hd).
  - apply D6 in Hin as (session & ssrc & pli & Hse & _ & Hpli & ->). split; [by eauto|by eapply pli_packet_slice].
  - pose proof Hin as Hin'. apply D8 in Hin as (dest & -> & sink & Hsink & _). split; [by eauto|by eapply D9].
Qed.
Lemma handle_rtcp_within now name pid packet self : SfuRuntimeInvariant.registry_ok self -> rust_slice packet ->
  let '(self', o) := handle_rtcp now name pid packet self in within_room name self self' /\ routes_within name self o.
Proof.
  intros Hok Hs. unfold handle_rtcp. unfold mbind at 1, prog_bind at 1, lift at 1. pose proof (returns_participant pid) as Hp.
  destruct (parse_participant pid) as [p|e| |]; [|by split; [apply within_refl|]|done|done].
  destruct (rooms self !! name) as [m|] eqn:Hm; [|by unfold on_room; rewrite Hm; split; [apply within_refl|]].
  rewrite (SfuRuntimeSteps.on_room_Some _ _ _ _ Hm). destruct (SfuRuntimeInvariant.go_rooms _ Hok _ _ Hm) as [Hmo _].
  pose proof (SfuRuntimeSafety.route_rtcp_spec now name p packet m Hmo Hs) as Hr. destruct (route_rtcp _ _ _ _ m) as [m' o]. destruct Hr as (R1 & R2 & _ & R4).
  cbn [fst snd]. split; [by eapply within_routed|]. destruct o as [routes|e| |]; [|done..].
  assert ((participant_sessions <$> rooms self) !! name = Some (participant_sessions m)) as Hb by by rewrite lookup_fmap, Hm.
  intros route [(session & q & Hse & _ & ->)|(tid & ssrc & owner & session & pli & _ & _ & Hse & Hpli & ->)]%R4; [split_and!; by eauto|split; [by eauto|by eapply pli_packet_slice]].
Qed.
Lemma register_sent_within now name who packet self : SfuRuntimeInvariant.registry_ok self -> len packet < 2 ^ 63 -> BandwidthEstimator.time_ok now ->
  let '(self', o) := register_sent now name who packet self in within_room name self self' /\ returns o.
Proof.
  intros Hok Hs Hn. destruct (SfuRuntimeSteps.register_sent_cases now name who packet self Hok Hs Hn) as (self' & b & -> & Hok' & Hb). split; [|done].
  destruct b; [|destruct Hb as [-> _]; by apply within_refl]. destruct Hb as (m & c & number & m' & Hm & _ & (e & -> & _) & ->). split; [done|done|intros n Hne; by apply lookup_insert_ne|].
  cbn. rewrite fmap_insert. apply insert_id. by rewrite lookup_fmap, Hm.
Qed.
Lemma request_keyframe_within name tid source self : SfuRuntimeInvariant.registry_ok self ->
  let '(self', o) := request_keyframe name tid source self in self' = self /\
  match o with Ok route => forall r, route = Some r -> route_within name self r | Err _ => True | _ => False end.
Proof.
  intros Hok. unfold request_keyframe, on_room. destruct (rooms self !! name) as [m|] eqn:Hm; [|done].
  assert (set_rooms (<[name := m]> (rooms self)) self = self) as -> by (rewrite insert_id by done; by destruct self). split; [done|].
  destruct (Room.published_track tid (room m)) as [t|]; [|done]. cbn [ok_or mbind outcome_bind]. case_bool_decide; [done|].
  match goal with |- context [ok_or ?x UnknownSourceSsrc] => destruct x as [ssrc|] end; [|done]. cbn [ok_or mbind outcome_bind].
  destruct (track_owners m !! tid) as [p|]; [|done]. cbn [ok_or mbind outcome_bind]. destruct (participant_sessions m !! p) as [session|] eqn:Hse; [|done].
  cbn [ok_or mbind outcome_bind]. destruct (SfuRuntimeSafety.pli_packet_Ok ssrc) as [packet Hp]. rewrite Hp. cbn [mbind outcome_bind]. intros r [= <-].
  split; [exists (participant_sessions m), p; by rewrite lookup_fmap, Hm|by eapply pli_packet_slice].
Qed.
End Rooms.

(** * services/media-node: the invariant of the process, and steps that stay within rooms

    The registries of a node agree with each other: whoever is bound in a room has a session there, and the DTLS sessions and associations
    belong to sessions.  [confined] says what a step of some rooms leaves alone and where it sends. *)
Import SctpAssociation (KeyOrder, MessageKind).

Section Node.
Context {stun_crypto : Stun.StunCrypto} {srtp_crypto : Srtp.SrtpCrypto} {iteration : HashIteration} {hash_order : Room.HashOrder}
  {unstable_sort : LayerSelector.UnstableSort} {key_order : KeyOrder} {backend : DtlsBackend}.

(** ** The invariant *)
Definition bindings (s : SfuRegistry) : gmap bytes (gmap SfuModel.ParticipantId bytes) := participant_sessions <$> rooms s.
Definition known (n : Node) (id : bytes) : Prop := is_Some (sessions (registry n) !! id).
Definition channel_ok (c : DataChannelSession) : Prop := exists conf, SctpInvariant.assoc_ok conf (association c).

(** Both registries are consistent; a participant that is bound in a room has its session in that room, under that identity; DTLS sessions and
    associations are those of sessions, every association is consistent, the gauge counts them, and sequence numbers are machine words. *)
Record node_ok (t : Z) (n : Node) : Prop := {
  no_registry : SessionRegistrySafety.registry_ok t (registry n);
  no_sfu : SfuRuntimeInvariant.registry_ok (sfu n);
  no_bound name b p id : bindings (sfu n) !! name = Some b -> b !! p = Some id ->
    exists m, sessions (registry n) !! id = Some m /\ room_id m = name /\ parse_participant (participant_id m) = Ok p;
  no_dtls id : is_Some (dtls_sessions n !! id) -> known n id;
  no_channels id c : data_channels n !! id = Some c -> known n id /\ channel_ok c;
  no_associations : gauges (node_metrics n) ActiveDataChannelAssociations = Z.of_nat (size (data_channels n));
  no_sequences : map_Forall (fun _ s => u64 s) (data_sequences n) }.

(** ** Steps within rooms *)
Definition member (inside : bytes -> Prop) (n : Node) (id : bytes) : Prop := exists m, sessions (registry n) !! id = Some m /\ inside (room_id m).
(** The peers of the sessions of the rooms, and the sinks of the rooms *)
Definition reaches (inside : bytes -> Prop) (n : Node) (a : SocketAddr) : Prop :=
  (exists id m, sessions (registry n) !! id = Some m /\ inside (room_id m) /\ RtcSession.selected_remote (session m) = Some a) \/
  (exists name track, inside name /\ is_Some (recording_sinks (sfu n) !! (name, track, a)) /\ is_loopback (ip a) = true).
Definition same_peer (inside : bytes -> Prop) (m m' : ManagedSession) : Prop :=
  room_id m' = room_id m /\ participant_id m' = participant_id m /\ expected_peer_fingerprint m' = expected_peer_fingerprint m /\
  RtcSession.selected_remote (session m') = RtcSession.selected_remote (session m) /\ (~ inside (room_id m) -> m' = m).

(** Sessions, DTLS sessions and associations of other rooms, the other rooms, their sequence numbers, all sinks, bindings and ingresses are as
    before; sessions keep their identity and their peer; whatever was sent went to [reply] or within the rooms. *)
Record confined (inside reply : _ -> Prop) (n n' : Node) : Prop := {
  cf_sessions id : option_Forall2 (same_peer inside) (sessions (registry n) !! id) (sessions (registry n') !! id);
  cf_ufrags : local_ufrag_to_session (registry n') = local_ufrag_to_session (registry n);
  cf_remotes : remote_to_session (registry n') = remote_to_session (registry n);
  cf_rooms name : ~ inside name -> rooms (sfu n') !! name = rooms (sfu n) !! name;
  cf_bindings : bindings (sfu n') = bindings (sfu n);
  cf_sinks : recording_sinks (sfu n') = recording_sinks (sfu n);
  cf_dtls id : ~ member inside n id -> dtls_sessions n' !! id = dtls_sessions n !! id;
  cf_channels id : ~ member inside n id -> data_channels n' !! id = data_channels n !! id;
  cf_sequences name : ~ inside name -> data_sequences n' !! name = data_sequences n !! name;
  cf_ingresses : transcode_ingresses n' = transcode_ingresses n /\ next_transcode_ingress_id n' = next_transcode_ingress_id n;
  cf_wire : exists out, wire n' = wire n ++ out /\ forall a payload, (a, payload) ∈ out -> reply a \/ reaches inside n a }.

Lemma same_peer_refl inside m : same_peer inside m m.
Proof. by split_and!. Qed.
Lemma confined_refl inside reply n : confined inside reply n n.
Proof.
  split; try done; [|by exists []; rewrite app_nil_r; split; [|intros ? ? ?%elem_of_nil]]. intros id. destruct (_ !! id); constructor. apply same_peer_refl.
Qed.
Lemma confined_known inside reply n n' id : confined inside reply n n' -> known n' id <-> known n id.
Proof. intros H. unfold known. destruct (cf_sessions _ _ _ _ H id); [by split; eauto|done]. Qed.
Lemma confined_session inside reply n n' id m' : confined inside reply n n' -> sessions (registry n') !! id = Some m' ->
  exists m, sessions (registry n) !! id = Some m /\ same_peer inside m m'.
Proof. intros H Hm. pose proof (cf_sessions _ _ _ _ H id) as Hs. rewrite Hm in Hs. inversion Hs; eauto. Qed.
Lemma confined_member inside reply n n' id : confined inside reply n n' -> member inside n' id <-> member inside n id.
Proof.
  intros H. pose proof (cf_sessions _ _ _ _ H id) as Hs. unfold member. split; intros (m & Hm & Hi); rewrite Hm in Hs; inversion Hs as [x y (Hr & _)|]; subst.
  - exists x. by rewrite <- Hr.
  - exists y. by rewrite Hr.
Qed.
Lemma confined_reaches inside reply n n' a : confined inside reply n n' -> reaches inside n' a -> reaches inside n a.
Proof.
  intros H [(id & m' & Hm' & Hi & Ha)|(name & track & Hi & Hs & Hl)].
  - destruct (confined_session _ _ _ _ _ _ H Hm') as (m & Hm & Hr & _ & _ & Hp & _). left. exists id, m. by rewrite <- Hr, <- Hp.
  - right. exists name, track. by rewrite <- (cf_sinks _ _ _ _ H).
Qed.
Lemma same_peer_trans inside m1 m2 m3 : same_peer inside m1 m2 -> same_peer inside m2 m3 -> same_peer inside m1 m3.
Proof.
  intros (A1 & A2 & A3 & A4 & A5) (B1 & B2 & B3 & B4 & B5). split_and!; try congruence. intros Hn. rewrite B5; [by apply A5|]. by rewrite A1.
Qed.
Lemma confined_trans inside reply n1 n2 n3 : confined inside reply n1 n2 -> confined inside reply n2 n3 -> confined inside reply n1 n3.
Proof.
  intros A B. assert (forall id, ~ member inside n1 id -> ~ member inside n2 id) as Hm by (intros id Hn; by rewrite (confined_member _ _ _ _ _ A)).
  split.
  - intros id. pose proof (cf_sessions _ _ _ _ A id) as Ha. pose proof (cf_sessions _ _ _ _ B id) as Hb.
    inversion Ha as [m1 m2 H12 E1 E2|E1 E2]; rewrite <- E2 in Hb; inversion Hb as [x y H23 F1 F2|F1 F2]; constructor. by eapply same_peer_trans.
  - by rewrite (cf_ufrags _ _ _ _ B), (cf_ufrags _ _ _ _ A).
  - by rewrite (cf_remotes _ _ _ _ B), (cf_remotes _ _ _ _ A).
  - intros name Hn. by rewrite (cf_rooms _ _ _ _ B), (cf_rooms _ _ _ _ A).
  - by rewrite (cf_bindings _ _ _ _ B), (cf_bindings _ _ _ _ A).
  - by rewrite (cf_sinks _ _ _ _ B), (cf_sinks _ _ _ _ A).
  - intros id Hn. by rewrite (cf_dtls _ _ _ _ B), (cf_dtls _ _ _ _ A) by auto.
  - intros id Hn. by rewrite (cf_channels _ _ _ _ B), (cf_channels _ _ _ _ A) by auto.
  - intros name Hn. by rewrite (cf_sequences _ _ _ _ B), (cf_sequences _ _ _ _ A).
  - destruct (cf_ingresses _ _ _ _ A), (cf_ingresses _ _ _ _ B). split; congruence.
  - destruct (cf_wire _ _ _ _ A) as (o1 & W1 & H1), (cf_wire _ _ _ _ B) as (o2 & W2 & H2). exists (o1 ++ o2). split; [by rewrite W2, W1, app_assoc|].
    intros a payload [Hin|Hin]%elem_of_app; [by eapply H1|]. destruct (H2 a payload Hin) as [?|?]; [by left|right; by eapply confined_reaches].
Qed.

(** ** Programs that stay within rooms *)
Section Safe.
Context (t : Z) (inside : bytes -> Prop) (reply : SocketAddr -> Prop) (n0 : Node).
Definition stays (n : Node) : Prop := node_ok t n /\ confined inside reply n0 n.
(** [m] never fails; it keeps the invariant, stays within the rooms, and gives a value of which [Q] holds. *)
Definition safe {E A} (m : prog Node E A) (Q : A -> Prop) : Prop := triple (fun _ => False) stays m (fun a n => stays n /\ Q a).

Lemma safe_bind {E A B} (m : prog Node E A) (k : A -> prog Node E B) Q R : safe m Q -> (forall a, Q a -> safe (k a) R) -> safe (m ≫= k) R.
Proof. intros Hm Hk. eapply triple_bind; [exact Hm|]. intros a n [Hn Ha]. by apply Hk. Qed.
Lemma safe_weaken {E A} (m : prog Node E A) (Q R : A -> Prop) : safe m Q -> (forall a, Q a -> R a) -> safe m R.
Proof. intros Hm HQ. eapply triple_post; [exact Hm|]. intros a n [Hn Ha]. auto. Qed.
Lemma safe_ret {E A} (a : A) (Q : A -> Prop) : Q a -> safe (E:=E) (mret a) Q.
Proof. intros Ha n Hn. by split. Qed.
Lemma safe_lift {E A} (o : outcome E A) (Q : A -> Prop) : match o with Ok a => Q a | _ => False end -> safe (lift o) Q.
Proof. intros Ho n Hn. cbn. by destruct o. Qed.
Lemma safe_gets {E A} (f : Node -> A) (Q : A -> Prop) : (forall n, stays n -> Q (f n)) -> safe (E:=E) (gets f) Q.
Proof. intros Hf n Hn. split; [done|by apply Hf]. Qed.
Lemma safe_modify {E} (f : Node -> Node) : (forall n, stays n -> stays (f n)) -> safe (E:=E) (modify f) (fun _ => True).
Proof. intros Hf n Hn. split; [by apply Hf|done]. Qed.
Lemma safe_call {E A} (m : prog Node E A) (Q : A -> Prop) : (forall n, stays n -> let '(n', o) := m n in stays n' /\ exists a, o = Ok a /\ Q a) -> safe m Q.
Proof. intros Hm n Hn. specialize (Hm n Hn). destruct (m n) as [n' o]. by destruct Hm as (? & a & -> & ?). Qed.
Lemma safe_for_each {E A} (l : list A) (body : A -> prog Node E unit) : (forall x, x ∈ l -> safe (body x) (fun _ => True)) -> safe (for_each l body) (fun _ => True).
Proof.
  intros Hb. induction l as [|x l IH]; cbn [for_each]; [by apply safe_ret|]. eapply safe_bind; [apply Hb; by left|]. intros _ _. apply IH. intros y Hy. apply Hb. by right.
Qed.
Lemma safe_collect_each {E A B} (l : list A) (body : A -> prog Node E (list B)) (Q : B -> Prop) :
  (forall x, x ∈ l -> safe (body x) (Forall Q)) -> safe (collect_each l body) (Forall Q).
Proof.
  intros Hb. induction l as [|x l IH]; cbn [collect_each]; [by apply safe_ret|]. eapply safe_bind; [apply Hb; by left|]. intros b Hb'.
  eapply safe_bind; [apply IH; intros y Hy; apply Hb; by right|]. intros bs Hbs. apply safe_ret. by apply Forall_app.
Qed.

(** *** Single updates *)
Ltac unchanged := first [done | by intros ?; match goal with |- option_Forall2 _ ?x _ => destruct x end; constructor; apply same_peer_refl | by exists []; rewrite app_nil_r; split; [|intros ? ? ?%elem_of_nil]].
(** An update of one component: the invariant of that component and what [confined] says of it remain. *)
Ltac update H := let N1 := fresh "N1" in let N2 := fresh "N2" in let N3 := fresh "N3" in let N4 := fresh "N4" in let N5 := fresh "N5" in let N6 := fresh "N6" in let N7 := fresh "N7" in let C := fresh "C" in
  destruct H as [[N1 N2 N3 N4 N5 N6 N7] C]; split; [split; cbn; try done|eapply confined_trans; [exact C|]; split; cbn; try unchanged].

Lemma safe_count {E} c delta : safe (E:=E) (count c delta) (fun _ => True).
Proof. apply safe_modify. intros n Hn. by update Hn. Qed.
Lemma safe_gauge {E} g f : g <> ActiveDataChannelAssociations -> safe (E:=E) (gauge g f) (fun _ => True).
Proof. intros Hg. apply safe_modify. intros n Hn. update Hn. cbn. by rewrite decide_False. Qed.
Lemma safe_send {E} w a payload : reply a \/ reaches inside n0 a -> safe (E:=E) (send_to w a payload) (fun _ => True).
Proof.
  intros Ha. apply safe_call. intros n Hn. cbn. split; [|by eexists]. destruct Hn as [Hok C]. split; [by destruct Hok|].
  destruct C as [C1 C2 C3 C4 C5 C6 C7 C8 C9 C10 (out & W1 & W2)]. split; try done. exists (out ++ [(a, payload)]). split; [cbn; by rewrite W1, app_assoc|].
  intros b q [Hin|Hin%list_elem_of_singleton]%elem_of_app; [by eapply W2|]. by simplify_eq.
Qed.
Lemma stays_sequence n name x : stays n -> inside name -> u64 x -> stays (set_sequences (<[name := x]> (data_sequences n)) n).
Proof. intros Hn Hi Hx. update Hn; [by apply map_Forall_insert_2|]. intros y Hy. apply lookup_insert_ne. by intros <-. Qed.
Lemma stays_dtls n id x : stays n -> member inside n0 id -> stays (set_dtls (<[id := x]> (dtls_sessions n)) n).
Proof.
  intros Hn Hid. pose proof Hn as [_ C]. apply (confined_member _ _ _ _ _ C) in Hid. update Hn.
  - intros i Hi. destruct (decide (i = id)) as [->|Hne]; [|rewrite lookup_insert_ne in Hi by done; by apply N4]. destruct Hid as (m & Hm & _). by exists m.
  - intros i Hi. apply lookup_insert_ne. by intros <-.
Qed.
Lemma stays_channel n id c : stays n -> member inside n0 id -> is_Some (data_channels n !! id) -> channel_ok c -> stays (set_channels (<[id := c]> (data_channels n)) n).
Proof.
  intros Hn Hid Hc Hok. pose proof Hn as [_ C]. apply (confined_member _ _ _ _ _ C) in Hid. update Hn.
  - intros i x. rewrite lookup_insert_Some. intros [[<- <-]|[_ Hi]]; [|by apply N5]. split; [|done]. destruct Hid as (m & Hm & _). by exists m.
  - by rewrite map_size_insert_Some.
  - intros i Hi. apply lookup_insert_ne. by intros <-.
Qed.

(** An association comes or goes with the gauge. *)
Lemma few_channels n : node_ok t n -> Z.of_nat (size (data_channels n)) <= MAX_SESSIONS.
Proof.
  intros [N1 _ _ _ N5 _ _]. destruct (SessionRegistrySafety.ro_capacity _ _ N1) as [H1 H2].
  assert (size (data_channels n) <= size (sessions (registry n)))%nat; [|lia]. rewrite <- !size_dom. apply subseteq_size. intros i Hi.
  apply elem_of_dom in Hi as [c Hc]. apply elem_of_dom. by apply (N5 i c).
Qed.
Definition recount (delta : Z) (x : gmap bytes DataChannelSession) (n : Node) : Node :=
  let g := gauges (node_metrics n) in
  set_channels x (set_node_metrics {| counters := counters (node_metrics n);
    gauges := fun y => if decide (y = ActiveDataChannelAssociations) then gauge_add delta (g y) else g y |} n).
Lemma stays_new_channel n id c : stays n -> member inside n0 id -> data_channels n !! id = None -> channel_ok c ->
  stays (recount 1 (<[id := c]> (data_channels n)) n).
Proof.
  intros Hn Hid Hc Hok. pose proof Hn as [Hn' C]. pose proof (few_channels n Hn') as Hf. apply (confined_member _ _ _ _ _ C) in Hid. update Hn.
  - intros i x. rewrite lookup_insert_Some. intros [[<- <-]|[_ Hi]]; [|by apply N5]. split; [|done]. destruct Hid as (m & Hm & _). by exists m.
  - rewrite decide_True, N6, map_size_insert_None by done. unfold gauge_add, MAX_SESSIONS in *. lia.
  - intros i Hi. apply lookup_insert_ne. by intros <-.
Qed.
Lemma stays_drop_channel n id c : stays n -> member inside n0 id -> data_channels n !! id = Some c -> stays (recount (-1) (delete id (data_channels n)) n).
Proof.
  intros Hn Hid Hc. pose proof Hn as [Hn' C]. pose proof (few_channels n Hn') as Hf. apply (confined_member _ _ _ _ _ C) in Hid. update Hn.
  - intros i x [_ Hi]%lookup_delete_Some. by apply N5.
  - rewrite decide_True, N6, map_size_delete_Some by done. assert (size (data_channels n) <> 0%nat); [|unfold gauge_add, MAX_SESSIONS in *; lia].
    intros E%map_size_empty_inv. by rewrite E, lookup_empty in Hc.
  - intros i Hi. apply lookup_delete_ne. by intros <-.
Qed.

(** *** Calls on the registries *)
Lemma set_registry_same n : set_registry (registry n) n = n.
Proof. by destruct n. Qed.
Lemma safe_session_call {E A} id (body : prog RtcSession.Session RtcSession.SessionError.t A) Q : session_call body Q -> member inside n0 id ->
  safe (E:=E) (on_registry (by_id id body)) (fun r => forall a, r = inr a -> exists n m, stays n /\ sessions (registry n) !! id = Some m /\ Q (session m) a).
Proof.
  intros Hb Hid. apply safe_call. intros n Hn. unfold on_registry, attempt. rewrite (by_id_call body Q) by done.
  destruct (sessions (registry n) !! id) as [m|] eqn:Hm; cbn; [|rewrite set_registry_same; split; [done|by eexists]]. pose proof (sc_result _ _ Hb (session m)) as Hr. split.
  - pose proof Hn as [Hok C]. pose proof (proj2 (confined_member _ _ _ _ _ C) Hid) as (m1 & Hm1 & Hi). assert (m1 = m) as -> by congruence.
    assert (SessionRegistrySafety.registry_ok t (SessionRegistry.set_sessions (<[id := with_session (body (session m)).1 m]> (sessions (registry n))) (registry n))) as Hreg.
    { apply SessionRegistrySafety.registry_touch; [apply Hok|done|apply (sc_ok _ _ Hb)|apply (sc_agent _ _ Hb)]. by eapply SessionRegistrySafety.ro_session; [apply Hok|]. }
    assert (forall i, is_Some (sessions (registry n) !! i) -> is_Some (<[id := with_session (body (session m)).1 m]> (sessions (registry n)) !! i)) as Hk.
    { intros i Hs. destruct (decide (i = id)) as [->|]; [rewrite lookup_insert_eq; eauto|by rewrite lookup_insert_ne]. }
    update Hn.
    + intros name b p i Hname Hp. destruct (N3 _ _ _ _ Hname Hp) as (x & Hx & Hrm & Hpa). destruct (decide (i = id)) as [->|Hne]; [|by exists x; rewrite lookup_insert_ne].
      exists (with_session (body (session m)).1 m). rewrite lookup_insert_eq. assert (x = m) as -> by congruence. done.
    + intros i Hs. by apply Hk, N4.
    + intros i c Hc. destruct (N5 _ _ Hc). split; [by apply Hk|done].
    + intros i. destruct (decide (i = id)) as [->|Hne]; [|rewrite lookup_insert_ne by done; destruct (sessions (registry n) !! i); constructor; apply same_peer_refl]. rewrite lookup_insert_eq, Hm. constructor.
      split_and!; [done..|apply (sc_remote _ _ Hb)|done].
  - destruct (body (session m)).2 as [a|e| |]; [|by eexists|done|done]. eexists. split; [done|]. intros b [= <-]. by exists n, m.
Qed.
Lemma to_peer_reaches id n m tr : stays n -> sessions (registry n) !! id = Some m -> member inside n0 id -> to_peer (session m) tr -> reaches inside n0 (RtcSession.destination tr).
Proof.
  intros [_ C] Hm Hid Ht. eapply confined_reaches; [exact C|]. left. exists id, m. apply (confined_member _ _ _ _ _ C) in Hid as (x & Hx & Hi). assert (x = m) as -> by congruence. done.
Qed.
Lemma safe_transmit {E} id body : session_call body to_peer -> member inside n0 id ->
  safe (E:=E) (on_registry (by_id id body)) (fun r => forall tr, r = inr tr -> reaches inside n0 (RtcSession.destination tr)).
Proof. intros Hb Hid. eapply safe_weaken; [by apply safe_session_call|]. intros r Hr tr Htr. destruct (Hr tr Htr) as (n & m & Hn & Hm & Ht). by eapply to_peer_reaches. Qed.

Lemma safe_sfu_call {E A} name (m : prog SfuRegistry SfuRuntimeError A) (Q : A -> Prop) : inside name ->
  (forall s, SfuRuntimeInvariant.registry_ok s -> bindings s = bindings (sfu n0) -> recording_sinks s = recording_sinks (sfu n0) ->
     let '(s', o) := m s in within_room name s s' /\ match o with Ok a => Q a | Err _ => True | _ => False end) ->
  safe (E:=E) (on_sfu m) (fun r => forall a, r = inr a -> Q a).
Proof.
  intros Hi Hm. apply safe_call. intros n Hn. unfold on_sfu, attempt. pose proof Hn as [Hok C].
  specialize (Hm (sfu n) (no_sfu _ _ Hok) (cf_bindings _ _ _ _ C) (cf_sinks _ _ _ _ C)). destruct (m (sfu n)) as [s o]. destruct Hm as [[R1 R2 R3 R4] Ho]. cbn. split.
  - update Hn; [by unfold bindings in *; rewrite R4|]. intros x Hx. apply R3. by intros ->.
  - destruct o as [a|e| |]; [|by eexists|done|done]. eexists. split; [done|]. by intros b [= <-].
Qed.
End Safe.
End Node.
