(* ===== verification/MediaNodeData.v ===== *)
(** * services/media-node: the data channels stay within their room *)
From S2P Require Import Prelude Words Slices RustStd RustStr.
From S2P Require Stun Srtp RtcSession RtcSessionSafety SfuModel Room LayerSelector SfuRuntimeInvariant SessionRegistrySafety SctpPacket SctpAssociation SctpInvariant SctpSafety SctpEvents Protocol.
From S2P Require Import SfuRuntime SessionRegistry MediaNode MediaNodeCalls.
Import SctpAssociation (KeyOrder, MessageKind, AssociationOutput).

(** ** Envelopes *)
(** The envelopes that are relayed: of a kind for participants, with no or the right room and sender. *)
Record accepted (source : SessionSnapshot) (kind : MessageKind) (payload : bytes) (e : Protocol.Envelope) (room sender : Z) : Prop := {
  ac_kind : kind = SctpAssociation.Binary;
  ac_room : from_str_radix 128 16 (ss_room_id source) = Some room;
  ac_sender : from_str_radix 128 16 (ss_participant_id source) = Some sender;
  ac_envelope : Protocol.decode payload MAX_DATA_CHANNEL_PAYLOAD_BYTES = Ok e;
  ac_allowed : match Protocol.kind e with Protocol.Chat | Protocol.Control | Protocol.Custom _ => True | _ => False end;
  ac_room_id : Protocol.room_id e = 0 \/ Protocol.room_id e = room;
  ac_sender_id : Protocol.sender_id e = 0 \/ Protocol.sender_id e = sender }.
(** The envelope as it is relayed *)
Definition stamped (e : Protocol.Envelope) (room sender sequence now : Z) : Protocol.Envelope :=
  {| Protocol.flags := Protocol.flags e; Protocol.kind := Protocol.kind e; Protocol.room_id := room; Protocol.sender_id := sender; Protocol.sequence := sequence;
     Protocol.timestamp_millis := now; Protocol.payload := Protocol.payload e |}.
Record world_ok (w : World) : Prop := {
  wo_time : BandwidthEstimator.time_ok (elapsed w);
  wo_unix : u64 (unix_time_millis w);
  wo_fill k octets : fill w k = Some octets -> bytes_ok octets /\ len octets = 40 }.

Section Node.
Context {stun_crypto : Stun.StunCrypto} {srtp_crypto : Srtp.SrtpCrypto} {iteration : HashIteration} {hash_order : Room.HashOrder}
  {unstable_sort : LayerSelector.UnstableSort} {key_order : KeyOrder} {backend : DtlsBackend}.

Definition next_sequence (n : Node) (name : bytes) : Z := saturating_add 64 (default 0 (data_sequences n !! name)) 1.
Lemma next_sequence_fits n name : map_Forall (fun _ s => u64 s) (data_sequences n) -> u64 (next_sequence n name).
Proof.
  intros Hs. unfold next_sequence, saturating_add, fits, umax. assert (0 <= default 0 (data_sequences n !! name)) as H0; [|lia].
  destruct (data_sequences n !! name) as [s|] eqn:Hn; cbn; [|lia]. apply Hs in Hn. by destruct Hn.
Qed.

Lemma authorize_cases {E} w source kind payload n : bytes_ok payload -> world_ok w -> map_Forall (fun _ s => u64 s) (data_sequences n) ->
  let r := authorize_data_payload (E:=E) w source room_label kind payload n in
  (exists e room sender, let e' := stamped e room sender (next_sequence n (ss_room_id source)) (unix_time_millis w) in
     accepted source kind payload e room sender /\ Protocol.envelope_ok e' /\ len (Protocol.frame e') <= MAX_DATA_CHANNEL_MESSAGE_BYTES /\
     r = (set_sequences (<[ss_room_id source := next_sequence n (ss_room_id source)]> (data_sequences n)) n, Ok (Some (SctpAssociation.Binary, Protocol.frame e')))) \/
  ((forall e room sender, ~ accepted source kind payload e room sender) /\ r = (n, Ok None)).
Proof.
  intros Hp Hw Hs. cbv zeta. unfold authorize_data_payload. rewrite (bool_decide_eq_true_2 (room_label = room_label)) by done. cbn [negb].
  case_bool_decide as Hk; cbn [negb]; [|right; split; [|done]; by intros e r s []].
  destruct (from_str_radix 128 16 (ss_room_id source)) as [room|] eqn:Hroom; [|right; split; [|done]; intros e r s []; congruence].
  destruct (from_str_radix 128 16 (ss_participant_id source)) as [sender|] eqn:Hsender; [|right; split; [|done]; intros e r s []; congruence].
  unfold ok_of. pose proof (Protocol.returns_decode MAX_DATA_CHANNEL_PAYLOAD_BYTES payload Hp) as Hr.
  destruct (Protocol.decode payload MAX_DATA_CHANNEL_PAYLOAD_BYTES) as [e|x| |] eqn:He; [|right; split; [|done]; intros e r s []; congruence|done|done].
  rewrite (prog_step _ _ n n (Some e)) by done. pose proof He as Hd. apply Protocol.decode_exact in Hd as ([E1 E2 E3 E4 E5 E6 E7] & Hlen & _); [|done].
  match goal with |- context [if ?g then _ else _] => destruct g eqn:Hg end.
  { right. split; [|done]. intros e0 room0 sender0 [A1 A2 A3 A4 A5 A6 A7]. rewrite He in A4. apply Ok_inj in A4 as <-. simplify_eq.
    rewrite !orb_true_iff, !andb_true_iff, !negb_true_iff in Hg. destruct Hg as [[Hg|Hg]|Hg]; [by destruct (Protocol.kind e)|lia|lia]. }
  left. rewrite !orb_false_iff in Hg. destruct Hg as [[G1 G2] G3]. exists e, room, sender. cbv zeta.
  set (e' := stamped _ _ _ _ _). assert (Protocol.envelope_ok e') as He'.
  { split; cbn; [done|done|by eapply from_str_radix_fits; [| |exact Hroom]|by eapply from_str_radix_fits; [| |exact Hsender]|by apply next_sequence_fits|apply Hw|done]. }
  assert (len (Protocol.frame e') <= MAX_DATA_CHANNEL_MESSAGE_BYTES) as Hfit.
  { rewrite Protocol.len_frame. unfold MAX_DATA_CHANNEL_PAYLOAD_BYTES, Protocol.ENVELOPE_HEADER_BYTES in Hlen. cbn. lia. }
  split_and!; [split; try done|done|done|].
  - by destruct (Protocol.kind e).
  - rewrite andb_false_iff, !negb_false_iff in G2. lia.
  - rewrite andb_false_iff, !negb_false_iff in G3. lia.
  - rewrite (prog_step _ _ n n (next_sequence n (ss_room_id source))) by done. rewrite (prog_step _ _ n _ tt eq_refl).
    pose proof (Protocol.encode_exact MAX_DATA_CHANNEL_PAYLOAD_BYTES e' He') as Henc.
    replace (len (Protocol.payload e') <=? _) with true in Henc by (cbn; lia).
    replace (len (Protocol.frame e') <=? _) with true in Henc by (unfold Protocol.MAX_WIRE_LEN, Protocol.HEADER_LEN, umax, MAX_DATA_CHANNEL_MESSAGE_BYTES in *; lia).
    cbn [andb] in Henc. unfold e', stamped in Henc. by rewrite Henc.
Qed.

Section Safe.
Context (t : Z) (inside : bytes -> Prop) (reply : SocketAddr -> Prop) (n0 : Node) (w : World) (Hw : world_ok w).
#[local] Abbreviation safe := (safe t inside reply n0).
#[local] Abbreviation stays := (stays t inside reply n0).
#[local] Abbreviation inner := (member inside n0).
Definition to_members {B} (r : bytes * B) : Prop := inner r.1.

(** ** Associations *)
Lemma odd_fits x : u32 x -> u32 (Z.lor x 1) /\ Z.lor x 1 <> 0.
Proof.
  intros [H0 H1]. assert (Z.lor x 1 <> 0) as Hne by (rewrite Z.lor_eq_0_iff; lia). assert (0 <= Z.lor x 1) as Hnn by (apply Z.lor_nonneg; lia). split; [|done]. split; [done|].
  apply Z.log2_lt_pow2; [lia|]. rewrite Z.log2_lor by lia. destruct (decide (x = 0)) as [->|Hx]; [by vm_compute|]. apply Z.max_lub_lt; [apply Z.log2_lt_pow2; lia|by vm_compute].
Qed.
Lemma entropy_fits octets from x : bytes_ok octets -> entropy_u32 octets from = Some x -> u32 x.
Proof.
  intros Hb H. apply fmap_Some in H as (v & (l1 & l2 & -> & _ & Hv)%get_range_Some & ->). apply bytes_ok_app in Hb as [_ Hb]. apply bytes_ok_app in Hb as [Hb _].
  pose proof (from_be_bytes_bound v Hb) as Hf. assert (length v = 4%nat) as E by (unfold len in Hv; lia). by rewrite E in Hf.
Qed.
Lemma safe_new_session {E} : safe (new_data_channel_session (E:=E) w) (fun o => forall c, o = Some c -> channel_ok c).
Proof.
  apply safe_call. intros n Hn. unfold new_data_channel_session. split; [destruct Hn as [[] []]; by split|]. eexists. split; [done|]. intros c H.
  apply bind_Some in H as (octets & Hf & H). apply (wo_fill _ Hw) in Hf as [Hb Hl]. apply bind_Some in H as (tag & Htag%entropy_fits & H); [|done].
  apply bind_Some in H as (tsn & Htsn%entropy_fits & H); [|done]. destruct (SctpAssociation.new _) as [a|e| |] eqn:Ha; [|done..]. injection H as <-.
  eexists. eapply SctpSafety.association_new_ok; [|exact Ha]. destruct (odd_fits tag Htag) as [Hodd _].
  unfold SctpAssociation.new in Ha. apply bind_Ok in Ha as ([] & Hv & _). split_and!; [done|by vm_compute..|done|done|]. cbn. by apply Forall_drop.
Qed.
Lemma safe_remove_channel {E} id : inner id -> safe (remove_data_channel_session (E:=E) id) (fun _ => True).
Proof.
  intros Hid. unfold remove_data_channel_session. apply safe_call. intros n Hn. unfold mbind, prog_bind, gets, modify. destruct (data_channels n !! id) as [c|] eqn:Hc.
  - pose proof (stays_drop_channel t inside reply n0 n id c Hn Hid Hc) as Hd.
    pose proof (safe_gauge t inside reply n0 (E:=E) ActiveDataChannels (gauge_add (- Z.of_nat (size (stream_labels c)))) ltac:(done) _ Hd) as Hg. cbn in Hg |- *.
    split; [apply Hg|by eexists].
  - cbn. rewrite delete_id by done. split; [|by eexists]. destruct Hn as [[] []]. by split.
Qed.

(** A call on the association of a channel that is in the table *)
Lemma on_association_step {E A} n id c (m : prog SctpAssociation.Association SctpPacket.DataChannelError A) : stays n -> inner id -> is_Some (data_channels n !! id) -> channel_ok c ->
  (forall conf, triple (SctpInvariant.assoc_ok conf) (SctpInvariant.assoc_ok conf) m (fun _ => SctpInvariant.assoc_ok conf)) ->
  let '(n', o) := on_association (E:=E) id c m n in stays n' /\ (forall i, is_Some (data_channels n !! i) -> is_Some (data_channels n' !! i)) /\
  exists r, o = Ok r /\ forall a, r = inr a -> exists a', m (association c) = (a', Ok a).
Proof.
  intros Hn Hid Hc [conf Hok] Hm. unfold on_association, attempt. specialize (Hm conf _ Hok). destruct (m (association c)) as [a o]. split_and!.
  - apply stays_channel; [done..|]. exists conf. cbn. by destruct o.
  - intros i Hi. cbn. destruct (decide (i = id)) as [->|]; [rewrite lookup_insert_eq; eauto|by rewrite lookup_insert_ne].
  - destruct o as [x|e| |]; [eexists; split; [done|]; intros y [= <-]; by eexists|by eexists|done|done].
Qed.
Lemma safe_open_channel {E} id stream label : inner id -> safe (open_channel (E:=E) id stream label) (fun _ => True).
Proof.
  intros Hid. apply safe_call. intros n Hn. unfold open_channel, mbind, prog_bind, gets, modify. destruct (data_channels n !! id) as [c|] eqn:Hc; [|by split; [|eexists]].
  pose proof Hn as [Hok _]. destruct (no_channels _ _ Hok _ _ Hc) as [_ Hch].
  match goal with |- context [set_channels (<[id := ?x]> _) _] => pose proof (stays_channel t inside reply n0 n id x Hn Hid (ex_intro _ c Hc) Hch) as Hs end.
  destruct (stream_labels c !! stream); [by split; [|eexists]|].
  pose proof (safe_gauge t inside reply n0 (E:=E) ActiveDataChannels (gauge_add 1) ltac:(done) _ Hs) as Hg. cbn in Hg |- *. split; [apply Hg|by eexists].
Qed.
Lemma safe_close_channel {E} id stream : inner id -> safe (close_channel (E:=E) id stream) (fun _ => True).
Proof.
  intros Hid. apply safe_call. intros n Hn. unfold close_channel, mbind, prog_bind, gets, modify. destruct (data_channels n !! id) as [c|] eqn:Hc; [|by split; [|eexists]].
  pose proof Hn as [Hok _]. destruct (no_channels _ _ Hok _ _ Hc) as [_ Hch]. destruct (stream_labels c !! stream) as [label|]; [|by split; [|eexists]].
  match goal with |- context [set_channels (<[id := ?x]> _) _] => pose proof (stays_channel t inside reply n0 n id x Hn Hid (ex_intro _ c Hc) Hch) as Hs end.
  pose proof (safe_gauge t inside reply n0 (E:=E) ActiveDataChannels (gauge_add (-1)) ltac:(done) _ Hs) as Hg. cbn in Hg |- *. split; [apply Hg|by eexists].
Qed.
Lemma safe_send_to_session {E} label kind payload id : inner id -> safe (send_to_session (E:=E) w label kind payload id) (Forall to_members).
Proof.
  intros Hid. apply safe_call. intros n Hn. unfold send_to_session. destruct (data_channels n !! id) as [c|] eqn:Hc; [|by split; [|eexists]].
  destruct (label_streams c !! label) as [stream|]; [|by split; [|eexists]]. pose proof Hn as [Hok _]. destruct (no_channels _ _ Hok _ _ Hc) as [_ [conf Hch]].
  pose proof (SctpSafety.send_message_ok conf (crypto_elapsed w) stream kind payload _ Hch) as Hs. destruct (SctpAssociation.send_message _ _ _ _ _) as [a o]. split.
  - apply stays_channel; [done|done|by exists c|]. exists conf. cbn. by destruct o.
  - destruct o as [packets|e| |]; [|by eexists|done|done]. eexists. split; [done|]. by apply Forall_singleton.
Qed.

(** ** Relaying *)
Lemma snapshot_inside n id source : stays n -> inner id -> session_snapshot (registry n) id = Some source -> inside (ss_room_id source).
Proof.
  intros [_ C] Hid H. apply (confined_member _ _ _ _ _ C) in Hid as (m & Hm & Hi). unfold session_snapshot in H. rewrite Hm in H. by injection H as <-.
Qed.
Lemma in_room_member n name id : stays n -> inside name -> id ∈ session_ids_in_room (registry n) name -> inner id.
Proof.
  intros [_ C] Hi Hid. apply (confined_member _ _ _ _ _ C). unfold session_ids_in_room in Hid. apply list_elem_of_omap in Hid as ([i m] & Hin & H).
  case_bool_decide as E; [|done]. injection H as <-. rewrite iter_perm in Hin. apply elem_of_map_to_list in Hin. exists m. split; [done|]. cbn in E. by rewrite E.
Qed.
Lemma safe_authorize {E} source label kind payload : bytes_ok payload -> inside (ss_room_id source) ->
  safe (authorize_data_payload (E:=E) w source label kind payload) (fun _ => True).
Proof.
  intros Hp Hi. apply safe_call. intros n Hn. destruct (decide (label = room_label)) as [->|Hne].
  - pose proof Hn as [Hok _]. pose proof (no_sequences _ _ Hok) as Hs. destruct (authorize_cases (E:=E) w source kind payload n Hp Hw Hs) as [(e & room & sender & _ & _ & _ & ->)|[_ ->]].
    + split; [|by eexists]. apply stays_sequence; [done..|by apply next_sequence_fits].
    + by split; [|eexists].
  - unfold authorize_data_payload. rewrite bool_decide_eq_false_2 by done. by split; [|eexists].
Qed.
Lemma safe_route_room_data {E} id stream kind payload : inner id -> bytes_ok payload -> safe (route_room_data (E:=E) w id stream kind payload) (Forall to_members).
Proof.
  intros Hid Hp. unfold route_room_data. eapply safe_bind; [apply (safe_gets _ _ _ _ _ (fun o => forall s, o = Some s -> inside (ss_room_id s))); intros n Hn s; by apply snapshot_inside|].
  intros [source|] Hs; [|by apply safe_ret]. specialize (Hs source eq_refl). eapply safe_bind; [by apply (safe_gets _ _ _ _ _ (fun _ => True))|]. intros [label|] _.
  2: { eapply safe_bind; [apply safe_count|]. intros _ _. by apply safe_ret. }
  eapply safe_bind; [by apply safe_authorize|]. intros [[kind' payload']|] _.
  2: { eapply safe_bind; [apply safe_count|]. intros _ _. by apply safe_ret. }
  eapply safe_bind; [apply safe_count|]. intros _ _.
  eapply safe_bind; [apply (safe_gets _ _ _ _ _ (fun l => forall i, i ∈ l -> inner i)); intros n Hn i; by eapply in_room_member|]. intros targets Ht.
  eapply safe_bind; [apply safe_collect_each; intros x Hx; by apply safe_send_to_session, Ht|]. intros routed Hr.
  eapply safe_bind; [apply safe_count|]. intros _ _. by apply safe_ret.
Qed.
Lemma safe_route_event {E} id event : inner id -> SctpEvents.event_ok event -> safe (route_event (E:=E) w id event) (fun r => Forall to_members r.1).
Proof.
  intros Hid He. destruct event; cbn [route_event].
  all: first [by apply safe_ret | eapply safe_bind; [first [by apply safe_open_channel|by apply safe_close_channel|by apply safe_route_room_data|apply safe_count]|]; intros ? ?; by apply safe_ret].
Qed.
Lemma safe_route_events {E} id events : inner id -> Forall SctpEvents.event_ok events -> safe (route_events (E:=E) w id events) (fun r => Forall to_members r.1).
Proof.
  intros Hid. induction 1 as [|event events He _ IH]; cbn [route_events]; [by apply safe_ret|]. eapply safe_bind; [by apply safe_route_event|]. intros [routed close] Hr.
  eapply safe_bind; [exact IH|]. intros [more close'] Hm. apply safe_ret. by apply Forall_app.
Qed.
Lemma safe_route_output {E} id output : inner id -> Forall SctpEvents.event_ok (SctpAssociation.events output) ->
  safe (route_data_channel_output (E:=E) w id output) (Forall to_members).
Proof.
  intros Hid He. unfold route_data_channel_output. eapply safe_bind; [by apply safe_route_events|]. intros [routed close] Hr.
  eapply safe_bind; [instantiate (1 := fun _ => True); destruct close; [by apply safe_remove_channel|by apply safe_ret]|]. intros _ _. apply safe_ret. apply Forall_app. split; [|done].
  destruct (SctpAssociation.packets output); [done|]. by apply Forall_singleton.
Qed.

(** ** Transmission *)
Lemma safe_encrypt {E} id packet : inner id -> safe (encrypt_packet (E:=E) id packet) (Forall to_members).
Proof.
  intros Hid. apply safe_call. intros n Hn. unfold encrypt_packet. destruct (dtls_sessions n !! id) as [s|]; [|by split; [|eexists]].
  destruct (write_application_data packet s) as [s' o]. split; [by apply stays_dtls|]. eexists. split; [done|]. apply Forall_fmap, Forall_true. by intros x.
Qed.
Lemma safe_transmit_datagram {E} id datagram : inner id -> safe (transmit_datagram (E:=E) w id datagram) (fun _ => True).
Proof.
  intros Hid. unfold transmit_datagram. eapply safe_bind; [apply safe_transmit; [apply transmit_dtls_call|done]|]. intros [e|tr] Ht; [by apply safe_ret|].
  eapply safe_bind; [apply safe_send; right; by apply Ht|]. intros _ _. by apply safe_ret.
Qed.
Lemma safe_transmit_packets {E} packets : Forall to_members packets -> safe (transmit_sctp_packets (E:=E) w packets) (fun _ => True).
Proof.
  intros Hp. rewrite Forall_forall in Hp. unfold transmit_sctp_packets.
  eapply safe_bind; [apply (safe_collect_each _ _ _ _ _ _ to_members); intros [id ps] Hin; apply safe_collect_each; intros q _; apply safe_encrypt; exact (Hp _ Hin)|].
  intros datagrams Hd. rewrite Forall_forall in Hd. apply safe_for_each. intros [id datagram] Hin. apply safe_transmit_datagram. exact (Hd _ Hin).
Qed.

Lemma safe_process_packet {E} id packet : inner id -> rust_slice packet -> safe (process_sctp_packet (E:=E) w id packet) (fun _ => True).
Proof.
  intros Hid Hp. unfold process_sctp_packet. eapply safe_bind; [apply safe_new_session|]. intros [session|] Hs; [|by apply safe_ret]. specialize (Hs session eq_refl).
  assert (safe (channel ← channel_entry (E:=E) id session; on_association id channel (SctpAssociation.handle_packet (crypto_elapsed w) packet))
    (fun r => forall output, r = inr output -> Forall SctpEvents.event_ok (SctpAssociation.events output))) as Hcall.
  { apply safe_call. intros n Hn. unfold mbind, prog_bind.
    assert (exists n1 c, channel_entry (E:=E) id session n = (n1, Ok c) /\ stays n1 /\ is_Some (data_channels n1 !! id) /\ channel_ok c) as (n1 & c & -> & Hn1 & Hc1 & Hc).
    { unfold channel_entry, mbind, prog_bind, gets, modify. destruct (data_channels n !! id) as [c|] eqn:Hc.
      - exists n, c. pose proof Hn as [Hok _]. destruct (no_channels _ _ Hok _ _ Hc). split_and!; [done..|by exists c|done].
      - pose proof (stays_new_channel t inside reply n0 n id session Hn Hid Hc Hs) as Hn1. eexists _, session. split_and!; [reflexivity|exact Hn1| |done]. cbn. rewrite lookup_insert_eq. by eexists. }
    pose proof (on_association_step (E:=E) n1 id c (SctpAssociation.handle_packet (crypto_elapsed w) packet) Hn1 Hid Hc1 Hc) as Ho.
    destruct (on_association _ _ _ _) as [n2 o]. destruct Ho as (Hn2 & _ & r & -> & Hr); [intros conf; by apply SctpSafety.handle_packet_ok|].
    split; [done|]. exists r. split; [done|]. intros output Hout. destruct (Hr output Hout) as [a' Ha']. destruct Hc as [conf Hc]. by eapply SctpEvents.packet_events. }
  change (safe (channel ← channel_entry (E:=E) id session; output ← on_association id channel (SctpAssociation.handle_packet (crypto_elapsed w) packet);
    match output with inl _ => count DataChannelRejections 1 | inr output => routed ← route_data_channel_output w id output; transmit_sctp_packets w routed end) (fun _ => True)).
  intros n Hn. rewrite prog_bind_assoc. revert n Hn. eapply safe_bind; [exact Hcall|]. intros [e|output] Ho; [apply safe_count|].
  eapply safe_bind; [apply safe_route_output; [done|by apply Ho]|]. intros routed Hr. by apply safe_transmit_packets.
Qed.

(** The timers of all associations, when every room is inside *)
Definition ticked_ok (r : bytes * AssociationOutput) : Prop := inner r.1 /\ Forall SctpEvents.event_ok (SctpAssociation.events r.2).
Lemma tick_one_channel {E} n id c : stays n -> inner id -> is_Some (data_channels n !! id) -> channel_ok c ->
  exists n' outs, tick_channel (E:=E) w (id, c) n = (n', Ok outs) /\ stays n' /\ (forall i, is_Some (data_channels n !! i) -> is_Some (data_channels n' !! i)) /\ Forall ticked_ok outs.
Proof.
  intros Hn Hid Hd Hc. pose proof (on_association_step (E:=E) n id c (SctpAssociation.tick (crypto_elapsed w)) Hn Hid Hd Hc) as Ho. unfold tick_channel, mbind, prog_bind.
  destruct (on_association _ _ _ _) as [n1 o]. destruct Ho as (Hn1 & Hkeep & r & -> & Hr); [intros conf; apply SctpSafety.tick_ok|]. eexists n1, _. split_and!; [reflexivity|done|done|].
  destruct r as [e|output]; [done|]. destruct (Hr output eq_refl) as [a' Ha]. apply SctpEvents.tick_events in Ha.
  assert (ticked_ok (id, output)) as Hone by done. clear Ha. case_match; [case_match; [done|]|]; by apply Forall_singleton.
Qed.
Lemma tick_channels {E} l : (forall id c, (id, c) ∈ l -> inner id /\ channel_ok c) -> forall n, stays n -> (forall id c, (id, c) ∈ l -> is_Some (data_channels n !! id)) ->
  let '(n', o) := collect_each (E:=E) l (tick_channel w) n in stays n' /\ exists outs, o = Ok outs /\ Forall ticked_ok outs.
Proof.
  induction l as [|[id c] l IH]; intros Hl n Hn Hd; cbn [collect_each]; [by split; [|exists []]|]. destruct (Hl id c ltac:(by left)) as [Hid Hc].
  destruct (tick_one_channel (E:=E) n id c Hn Hid (Hd id c ltac:(by left)) Hc) as (n1 & o1 & Ht & Hn1 & Hkeep & Ho1). rewrite (prog_step _ _ n n1 o1 Ht).
  specialize (IH ltac:(intros i x Hx; apply (Hl i x); by right) n1 Hn1 ltac:(intros i x Hx; apply Hkeep, (Hd i x); by right)).
  destruct (collect_each l _ n1) as [n2 o2] eqn:Hl2. destruct IH as (Hn2 & o3 & -> & Ho3). rewrite (prog_step _ _ n1 n2 o3 Hl2). split; [done|]. eexists. split; [done|]. by apply Forall_app.
Qed.
Lemma safe_poll_channels {E} : (forall id, known n0 id -> inner id) -> safe (poll_data_channels (E:=E) w) (fun _ => True).
Proof.
  intros Hall. unfold poll_data_channels.
  assert (safe (channels ← gets (fun n => iter (data_channels n)); collect_each (E:=E) channels (tick_channel w)) (Forall ticked_ok)) as Htick.
  { apply safe_call. intros n Hn. unfold mbind at 1, prog_bind at 1, gets at 1.
    assert (forall id c, (id, c) ∈ iter (data_channels n) -> data_channels n !! id = Some c) as Hl by (intros id c Hin; rewrite iter_perm in Hin; by apply elem_of_map_to_list in Hin).
    apply tick_channels; [|done|intros id c Hin; exists c; by apply Hl].
    intros id c Hin%Hl. pose proof Hn as [Hok C]. destruct (no_channels _ _ Hok _ _ Hin) as [Hk Hc]. split; [by apply Hall, (confined_known _ _ _ _ _ C)|done]. }
  intros n Hn. rewrite prog_bind_assoc. revert n Hn. eapply safe_bind; [exact Htick|]. intros outputs Ho. rewrite Forall_forall in Ho.
  eapply safe_bind; [|intros packets Hp; by apply safe_transmit_packets]. apply safe_collect_each. intros [id output] Hin. destruct (Ho _ Hin) as [Hid He].
  eapply safe_bind; [apply safe_count|]. intros _ _. by apply safe_route_output.
Qed.
End Safe.

(** ** Copies for the room *)
(** What [target] is sent: the packets of the message on its stream with that label. *)
Definition copy (w : World) (n : Node) (label : bytes) (kind : MessageKind) (payload target : bytes) : option (bytes * list bytes) :=
  c ← data_channels n !! target;
  stream ← label_streams c !! label;
  match (SctpAssociation.send_message (crypto_elapsed w) stream kind payload (association c)).2 with Ok packets => Some (target, packets) | _ => None end.
Lemma copies_sent {E} w label kind payload targets : NoDup targets -> forall n, (forall id c, data_channels n !! id = Some c -> channel_ok c) ->
  exists n', collect_each (E:=E) targets (send_to_session w label kind payload) n = (n', Ok (omap (copy w n label kind payload) targets)) /\ data_sequences n' = data_sequences n.
Proof.
  induction 1 as [|target targets Hni Hnd IH]; intros n Hn; cbn [collect_each omap list_omap]; [by exists n|].
  assert (exists n1, send_to_session (E:=E) w label kind payload target n = (n1, Ok (option_list (copy w n label kind payload target))) /\ data_sequences n1 = data_sequences n /\
    (forall id, id <> target -> data_channels n1 !! id = data_channels n !! id) /\ (forall id c, data_channels n1 !! id = Some c -> channel_ok c)) as (n1 & Hs & Hq & Hother & Hn1).
  { unfold send_to_session, copy. destruct (data_channels n !! target) as [c|] eqn:Hc; [|by exists n]. cbn [mbind option_bind]. destruct (label_streams c !! label) as [stream|]; [|by exists n].
    cbn [mbind option_bind]. pose proof (Hn _ _ Hc) as [conf Hok]. pose proof (SctpSafety.send_message_ok conf (crypto_elapsed w) stream kind payload _ Hok) as Hm.
    destruct (SctpAssociation.send_message _ _ _ _ _) as [a o]. cbn [snd]. eexists. split_and!; [by destruct o|done|intros id Hid; cbn; by apply lookup_insert_ne|].
    cbn. intros id x. rewrite lookup_insert_Some. intros [[_ <-]|[_ Hx]]; [|by eapply Hn]. exists conf. by destruct o. }
  rewrite (prog_step _ _ n n1 _ Hs). destruct (IH n1 Hn1) as (n2 & Hl & Hq2). rewrite (prog_step _ _ n1 n2 _ Hl). exists n2. split; [|congruence]. cbn. f_equal. f_equal.
  assert (omap (copy w n1 label kind payload) targets = omap (copy w n label kind payload) targets) as ->; [|by destruct (copy w n label kind payload target)].
  clear -Hother Hni. induction targets as [|x targets IH]; cbn; [done|]. assert (copy w n1 label kind payload x = copy w n label kind payload x) as ->.
  - unfold copy. rewrite Hother; [done|]. intros ->. apply Hni. by left.
  - rewrite IH; [done|]. intros Hx. apply Hni. by right.
Qed.
Lemma in_room_spec n name id : id ∈ session_ids_in_room (registry n) name <-> exists m, sessions (registry n) !! id = Some m /\ room_id m = name.
Proof.
  unfold session_ids_in_room. rewrite list_elem_of_omap. split.
  - intros ([i m] & Hin & H). case_bool_decide as E; [|done]. injection H as <-. rewrite iter_perm in Hin. apply elem_of_map_to_list in Hin. by exists m.
  - intros (m & Hm & Hr). exists (id, m). split; [rewrite iter_perm; by apply elem_of_map_to_list|]. cbn. by rewrite bool_decide_eq_true_2.
Qed.
Lemma in_room_NoDup n name : NoDup (session_ids_in_room (registry n) name).
Proof.
  unfold session_ids_in_room. assert (NoDup (iter (sessions (registry n))).*1) as Hnd by (rewrite (iter_perm (sessions (registry n))); apply NoDup_fst_map_to_list).
  induction (iter (sessions (registry n))) as [|[i m] l IH]; cbn in *; [constructor|]. apply NoDup_cons in Hnd as [Hni Hnd]. case_bool_decide; [|by apply IH]. constructor; [|by apply IH].
  intros ([j x] & Hin & H')%list_elem_of_omap. case_bool_decide; [|done]. injection H' as <-. apply Hni. by apply (list_elem_of_fmap_2 fst) in Hin.
Qed.
End Node.
