(* ===== verification/MediaNodeSafety.v ===== *)
(** * services/media-node: a datagram touches one room *)
From S2P Require Import Prelude Words Slices RustStd RustStr.
From S2P Require Stun Srtp RtpPacket RtcpModel Rtcp DtlsAdapter RtcSession RtcSessionSafety SfuModel Room LayerSelector BandwidthEstimator SfuRuntimeInvariant SessionRegistrySafety SctpAssociation SctpEvents Protocol.
From S2P Require Import SfuRuntime SessionRegistry MediaNode MediaNodeCalls MediaNodeData.
Import SctpAssociation (KeyOrder, MessageKind).

Section Node.
Context {stun_crypto : Stun.StunCrypto} {srtp_crypto : Srtp.SrtpCrypto} {iteration : HashIteration} {hash_order : Room.HashOrder}
  {unstable_sort : LayerSelector.UnstableSort} {key_order : KeyOrder} {backend : DtlsBackend}.

Section Safe.
Context (t : Z) (inside : bytes -> Prop) (reply : SocketAddr -> Prop) (n0 : Node) (Hn0 : node_ok t n0) (w : World) (Hw : world_ok w).
#[local] Abbreviation safe := (safe t inside reply n0).
#[local] Abbreviation stays := (stays t inside reply n0).
#[local] Abbreviation inner := (member inside n0).

(** ** Media *)
Lemma bound_member name b p id : inside name -> bindings (sfu n0) !! name = Some b -> b !! p = Some id -> inner id.
Proof. intros Hi Hb Hp. destruct (no_bound _ _ Hn0 _ _ _ _ Hb Hp) as (m & Hm & <- & _). by exists m. Qed.
Lemma route_within_same name s s' route : bindings s = bindings s' -> recording_sinks s = recording_sinks s' -> route_within name s route -> route_within name s' route.
Proof. intros Hb Hs. unfold bindings in Hb. destruct route; cbn; by rewrite Hb || rewrite Hs. Qed.
Lemma safe_sent {E} tr (c : bool -> prog Node E unit) : reaches inside n0 (RtcSession.destination tr) -> (forall sent, safe (c sent) (fun _ => True)) ->
  safe (sent ← send_to (E:=E) w (RtcSession.destination tr) (RtcSession.payload tr); c sent) (fun _ => True).
Proof. intros Hr Hc. eapply safe_bind; [apply safe_send; by right|]. intros sent _. apply Hc. Qed.
Lemma safe_send_route {E} name route : inside name -> route_within name (sfu n0) route -> safe (send_route (E:=E) w route) (fun _ => True).
Proof.
  intros Hi Hr. destruct route as [id room who sub twcc packet|id packet|dest packet]; cbn [send_route].
  - destruct Hr as (-> & (b & Hb & Hp) & Hl). eapply safe_bind; [instantiate (1 := fun _ => True)|intros _ _].
    { destruct twcc; [|by apply safe_ret]. eapply safe_bind; [|intros; by apply safe_ret].
      apply (safe_sfu_call _ _ _ _ name _ (fun _ => True)); [done|]. intros s Hs _ _. pose proof (register_sent_within (elapsed w) name who packet s Hs (Hl eq_refl) (wo_time _ Hw)) as H.
      destruct (register_sent _ _ _ _ _) as [s' o]. destruct H as [H1 H2]. split; [done|]. by destruct o. }
    eapply safe_bind; [apply safe_transmit; [apply protect_rtp_call|by eapply bound_member]|]. intros [e|tr] Ht; [apply safe_count|].
    apply safe_sent; [by apply Ht|]. intros []; [eapply safe_bind; [apply safe_count|intros; apply safe_count]|apply safe_count].
  - destruct Hr as [(b & p & Hb & Hp) Hs]. eapply safe_bind; [apply safe_transmit; [by apply protect_rtcp_call|by eapply bound_member]|]. intros [e|tr] Ht; [apply safe_count|].
    apply safe_sent; [by apply Ht|]. intros []; apply safe_count.
  - destruct Hr as [[track Hs] Hl]. eapply safe_bind; [apply safe_send; right; right; by exists name, track|]. intros [] _; [by apply safe_ret|apply safe_count].
Qed.
Lemma safe_send_routes {E} name routes : inside name -> (forall route, route ∈ routes -> route_within name (sfu n0) route) -> safe (send_sfu_routes (E:=E) w routes) (fun _ => True).
Proof. intros Hi Hr. apply safe_for_each. intros route Hin. by eapply safe_send_route, Hr. Qed.
Lemma safe_routing_call {E} name (m : prog SfuRegistry SfuRuntimeError (list SfuRoute)) : inside name ->
  (forall s, SfuRuntimeInvariant.registry_ok s -> let '(s', o) := m s in within_room name s s' /\ routes_within name s o) ->
  safe (on_sfu (E:=E) m) (fun r => forall routes, r = inr routes -> forall route, route ∈ routes -> route_within name (sfu n0) route).
Proof.
  intros Hi Hm. apply (safe_sfu_call _ _ _ _ name m (fun routes => forall route, route ∈ routes -> route_within name (sfu n0) route)); [done|]. intros s Hs Hb Hk.
  specialize (Hm s Hs). destruct (m s) as [s' o]. destruct Hm as [H1 H2]. split; [done|]. destruct o as [routes|e| |]; [|done..]. intros route Hin. by eapply route_within_same, H2.
Qed.

(** ** DTLS *)
Definition progress_ok (p : DatagramProgress) : Prop := Forall rust_slice (application_data p).
Lemma safe_progress {E} id p : inner id -> progress_ok p -> safe (apply_crypto_progress (E:=E) w id p) (fun _ => True).
Proof.
  intros Hid Hp. unfold apply_crypto_progress. eapply safe_bind; [apply safe_for_each; intros d _; by apply safe_transmit_datagram|]. intros _ _.
  eapply safe_bind; [instantiate (1 := fun _ => True)|intros _ _].
  - destruct (established_keying_material p); [|by apply safe_ret]. eapply safe_bind; [by apply safe_session_call; [apply install_call|]|]. intros; by apply safe_ret.
  - unfold progress_ok in Hp. rewrite Forall_forall in Hp. apply safe_for_each. intros d Hd. by apply safe_process_packet, Hp.
Qed.
Lemma safe_process_dtls {E} id fingerprint datagram : inner id -> safe (process_dtls (E:=E) w id fingerprint datagram) (fun _ => True).
Proof.
  intros Hid. unfold process_dtls. eapply safe_bind.
  { apply safe_lift. unfold ok_of. instantiate (1 := fun _ => True). pose proof (returns_fingerprint (octets "sha-256") fingerprint) as Hr. by destruct (DtlsAdapter.Sha256Fingerprint.parse _ _). }
  intros [f|] _; [|apply safe_count]. eapply safe_bind.
  { apply (safe_call _ _ _ _ _ (fun o => forall p, o = Some p -> progress_ok p)). intros n Hn. unfold on_dtls.
    destruct (dtls_handle_datagram datagram _) as [s p] eqn:Hd. split; [by apply stays_dtls|]. eexists. split; [done|]. intros q ->. by eapply handled_slices. }
  intros [p|] Hp; [|apply safe_count]. apply safe_progress; [done|]. by apply Hp.
Qed.
Lemma safe_poll_crypto {E} : (forall id, known n0 id -> inner id) -> safe (poll_crypto (E:=E) w) (fun _ => True).
Proof.
  intros Hall. unfold poll_crypto. eapply safe_bind; [apply (safe_gets _ _ _ _ _ (fun l => forall id s, (id, s) ∈ l -> inner id))|].
  { intros n [Hok C] id s Hin. rewrite iter_perm in Hin. apply elem_of_map_to_list in Hin. apply Hall, (confined_known _ _ _ _ _ C), (no_dtls _ _ Hok). by exists s. }
  intros l Hl. eapply safe_bind; [apply (safe_collect_each _ _ _ _ _ _ (fun r => inner r.1 /\ progress_ok r.2))|].
  { intros [id s] Hin. apply safe_call. intros n Hn. unfold poll_session. destruct (dtls_poll s) as [s' p] eqn:Hd. split; [apply stays_dtls; [done|by eapply Hl]|].
    eexists. split; [done|]. destruct p as [p|]; [|done]. apply Forall_singleton. split; [by eapply Hl|by eapply polled_slices]. }
  intros outputs Ho. rewrite Forall_forall in Ho. eapply safe_bind; [apply safe_for_each|intros _ _; by apply safe_poll_channels].
  intros [id p] Hin. destruct (Ho _ Hin). by apply safe_progress.
Qed.

(** ** Actions *)
Definition action_ok (a : RtcSession.SessionAction.t) : Prop :=
  match a with
  | RtcSession.SessionAction.Transmit tr => reply (RtcSession.destination tr)
  | RtcSession.SessionAction.InboundRtp packet | RtcSession.SessionAction.InboundRtcp packet _ => rust_slice packet
  | _ => True
  end.
Lemma safe_count_feedback {E} p : safe (count_feedback (E:=E) p) (fun _ => True).
Proof. destruct p; cbn; first [apply safe_count|by apply safe_ret]. Qed.
Lemma safe_execute {E} output : inner (ra_session_id output) -> inside (ra_room_id output) -> Forall action_ok (ra_actions output) ->
  safe (execute_actions (E:=E) w output) (fun _ => True).
Proof.
  intros Hid Hroom Ha. rewrite Forall_forall in Ha. apply safe_for_each. intros action Hin. specialize (Ha action Hin).
  destruct action as [tr|datagram|packet|packet packets|from to]; cbn [execute_action].
  - eapply safe_bind; [apply safe_send; by left|]. intros [] _; [by apply safe_ret|apply safe_count].
  - by apply safe_process_dtls.
  - eapply safe_bind; [apply (safe_routing_call (ra_room_id output)); [done|]; intros s Hs; by apply handle_rtp_within|].
    intros [e|routes] Hr; [apply safe_count|]. eapply safe_send_routes; [exact Hroom|]. by apply Hr.
  - eapply safe_bind.
    { apply safe_lift. unfold ok_of. instantiate (1 := fun _ => True). pose proof (Rtcp.returns_parse_compound packet Ha) as Hr. by destruct (Rtcp.parse_compound packet). }
    intros ps _. eapply safe_bind; [apply safe_for_each; intros p _; apply safe_count_feedback|]. intros _ _.
    eapply safe_bind; [apply (safe_routing_call (ra_room_id output)); [done|]; intros s Hs; by apply handle_rtcp_within|].
    intros [e|routes] Hr; [apply safe_count|]. eapply safe_send_routes; [exact Hroom|]. by apply Hr.
  - by apply safe_ret.
Qed.
End Safe.

(** ** Steps *)
(** The registry of sessions has moved on, and everybody has kept the identity. *)
Lemma node_moved t now n r : node_ok t n -> SessionRegistrySafety.registry_ok now r ->
  (forall id m, sessions (registry n) !! id = Some m -> exists m', sessions r !! id = Some m' /\ room_id m' = room_id m /\ participant_id m' = participant_id m) ->
  node_ok now (set_registry r n).
Proof.
  intros [N1 N2 N3 N4 N5 N6 N7] Hr Hs. assert (forall id, known n id -> known (set_registry r n) id) as Hk.
  { intros id [m Hm]. destruct (Hs id m Hm) as (m' & Hm' & _). by exists m'. }
  split; cbn; try done.
  - intros name b p id Hb Hp. destruct (N3 _ _ _ _ Hb Hp) as (m & Hm & H1 & H2). destruct (Hs id m Hm) as (m' & Hm' & E1 & E2). exists m'. by rewrite E1, E2.
  - intros id Hid. by apply Hk, N4.
  - intros id c Hc. destruct (N5 _ _ Hc). split; [by apply Hk|done].
Qed.
Lemma safe_run {E A} t inside reply n (m : prog Node E A) Q : node_ok t n -> safe t inside reply n m Q ->
  exists a, (m n).2 = Ok a /\ Q a /\ node_ok t (m n).1 /\ confined inside reply n (m n).1.
Proof. intros Hn Hs. specialize (Hs n (conj Hn (confined_refl _ _ _))). destruct (m n) as [n' [a|e| |]]; [|done..]. destruct Hs as [[H1 H2] HQ]. by exists a. Qed.

(** What a datagram of [r] for a session of [room] leaves alone, and where it sends: everything of other rooms is as before, nobody changes the
    room, and what is sent goes back to [r], to a peer of the room or to a sink of the room. *)
Record isolated (room : bytes) (r : SocketAddr) (n n' : Node) : Prop := {
  is_sessions id m : sessions (registry n) !! id = Some m -> room_id m <> room -> sessions (registry n') !! id = Some m;
  is_identity : (fun m => (room_id m, participant_id m)) <$> sessions (registry n') = (fun m => (room_id m, participant_id m)) <$> sessions (registry n);
  is_rooms name : name <> room -> rooms (sfu n') !! name = rooms (sfu n) !! name;
  is_bindings : bindings (sfu n') = bindings (sfu n);
  is_sinks : recording_sinks (sfu n') = recording_sinks (sfu n);
  is_dtls id : ~ member (eq room) n id -> dtls_sessions n' !! id = dtls_sessions n !! id;
  is_channels id : ~ member (eq room) n id -> data_channels n' !! id = data_channels n !! id;
  is_sequences name : name <> room -> data_sequences n' !! name = data_sequences n !! name;
  is_ingresses : transcode_ingresses n' = transcode_ingresses n;
  is_wire : exists out, wire n' = wire n ++ out /\ forall a payload, (a, payload) ∈ out -> a = r \/ reaches (eq room) n' a }.

Lemma isolated_confined room r n n1 n' reg id m m1 : n1 = set_registry reg n -> sessions reg = <[id := m1]> (sessions (registry n)) ->
  sessions (registry n) !! id = Some m -> room_id m = room -> room_id m1 = room -> participant_id m1 = participant_id m ->
  confined (eq room) (eq r) n1 n' -> isolated room r n n'.
Proof.
  intros -> Hreg Hm Hroom Hroom1 Hpart C. pose proof (cf_sessions _ _ _ _ C) as Hs. cbn in Hs. rewrite Hreg in Hs.
  assert (forall i, ~ member (eq room) n i -> ~ member (eq room) (set_registry reg n) i) as Hout.
  { intros i Hn (x & Hx & Hr). cbn in Hx. rewrite Hreg in Hx. apply lookup_insert_Some in Hx as [[<- <-]|[_ Hx]]; apply Hn; [by exists m; rewrite Hroom|by exists x]. }
  split; try (by apply C).
  - intros i x Hx Hne. assert (i <> id) as Hi by (intros ->; congruence). specialize (Hs i). rewrite lookup_insert_ne, Hx in Hs by done.
    inversion Hs as [? y (_ & _ & _ & _ & Hsame) E1 E2|]; subst. by rewrite Hsame by congruence.
  - apply map_eq. intros i. rewrite !lookup_fmap. specialize (Hs i). destruct (decide (i = id)) as [->|Hi].
    + rewrite lookup_insert_eq in Hs. rewrite Hm. inversion Hs as [? y (E1 & E2 & _) F1 F2|]. cbn. f_equal. f_equal; congruence.
    + rewrite lookup_insert_ne in Hs by done. inversion Hs as [x y (E1 & E2 & _) F1 F2|F1 F2]; cbn; [|done]. f_equal. f_equal; congruence.
  - intros name Hne. apply (cf_rooms _ _ _ _ C). by intros <-.
  - intros i Hi. apply (cf_dtls _ _ _ _ C). by apply Hout.
  - intros i Hi. apply (cf_channels _ _ _ _ C). by apply Hout.
  - intros name Hne. apply (cf_sequences _ _ _ _ C). by intros <-.
  - destruct (cf_wire _ _ _ _ C) as (out & H1 & H2). exists out. split; [done|]. intros a payload Hin. destruct (H2 a payload Hin) as [<-|Hr]; [by left|right].
    destruct Hr as [(i & x & Hx & Hi & Ha)|(name & track & Hi & Hsink & Hl)].
    + left. specialize (Hs i). cbn in Hx. rewrite Hreg in Hx. rewrite Hx in Hs. inversion Hs as [? y (E1 & _ & _ & E4 & _) F1 F2|]; subst. exists i, y. split_and!; [done|by rewrite E1|by rewrite E4].
    + right. exists name, track. by rewrite (cf_sinks _ _ _ _ C).
Qed.

Lemma delivered_actions s l r input s' actions : rust_slice input -> RtcSessionSafety.delivered s l r input s' actions -> Forall (action_ok (eq r)) actions.
Proof.
  intros Hin Hd. destruct Hd as [a' reply Hc|Hf Hst|c c' packet p Hf Hc Hu Hp|c c' packet ps Hf Hc Hu Hp].
  - constructor; [done|]. unfold RtcSessionSafety.moved. case_bool_decide; by repeat constructor.
  - by repeat constructor.
  - constructor; [|done]. cbn. by eapply unprotected_rtp_slice.
  - constructor; [|done]. cbn. by eapply unprotected_rtcp_slice.
Qed.

(** A datagram that the registry refuses is counted. *)
Definition refused {E} (error : RegistryError) : prog Node E unit :=
  _ ← count PacketsDropped 1;
  match error with
  | UnknownRemote | SessionRegistry.Stun _ | MissingUsername | UnknownUsernameFragment | RemoteCollision | Transport _ => count AuthenticationFailures 1
  | _ => mret tt
  end.
Lemma safe_refused {E} t inside reply n0 error : safe t inside reply n0 (refused (E:=E) error) (fun _ => True).
Proof. eapply safe_bind; [apply safe_count|]. intros _ _. destruct error; first [apply safe_count|by apply safe_ret]. Qed.
Lemma refused_silent {E} error n : exists metrics, (refused (E:=E) error n).1 = set_node_metrics metrics n.
Proof. destruct error; eexists; reflexivity. Qed.

Lemma run_udp_cases {E} t w l r datagram n : node_ok t n -> t <= elapsed w -> world_ok w -> rust_slice datagram -> addr_ok r ->
  let '(n', o) := run_udp (E:=E) w l r datagram n in o = Ok tt /\ node_ok (elapsed w) n' /\
  ((exists id m, SessionRegistrySafety.addressed_to (registry n) r datagram id /\ sessions (registry n) !! id = Some m /\ isolated (room_id m) r n n') \/
   ((forall id, ~ SessionRegistrySafety.addressed_to (registry n) r datagram id) /\ exists metrics, n' = set_node_metrics metrics n)).
Proof.
  intros Hn Hle Hw Hin Hr. unfold run_udp. unfold mbind at 1, prog_bind at 1. unfold on_registry, attempt.
  pose proof (SessionRegistrySafety.handle_datagram_cases t (elapsed w) l r datagram (registry n) (no_registry _ _ Hn) Hle Hin Hr) as H.
  destruct (handle_datagram _ _ _ _ _) as [reg o]. destruct H as [Hreg [(-> & [e ->] & Hno)|(id & m & s & result & Hto & Hm & [D1 D2 D3 D4])]].
  - pose proof (node_moved t (elapsed w) n (registry n) Hn Hreg ltac:(eauto)) as Hn1. rewrite set_registry_same in *.
    destruct (safe_run _ (fun _ => False) (fun _ => False) _ _ _ Hn1 (safe_refused (E:=E) _ _ _ _ e)) as ([] & H1 & _ & H2 & _).
    destruct (refused_silent (E:=E) e n) as [metrics Hs]. fold (refused (E:=E) e n). destruct (refused e n) as [n' o]. cbn in *. split_and!; [done..|]. right. eauto.
  - set (n1 := set_registry reg n). assert (node_ok (elapsed w) n1) as Hn1.
    { apply (node_moved t); [done..|]. intros i x Hx. rewrite D2. destruct (decide (i = id)) as [->|Hne]; [|by exists x; rewrite lookup_insert_ne].
      exists (with_session s m). rewrite lookup_insert_eq. assert (x = m) as -> by congruence. done. }
    assert (forall (k : prog Node E unit), safe (elapsed w) (eq (room_id m)) (eq r) n1 k (fun _ => True) ->
      let '(n', o) := k n1 in o = Ok tt /\ node_ok (elapsed w) n' /\
      ((exists i x, SessionRegistrySafety.addressed_to (registry n) r datagram i /\ sessions (registry n) !! i = Some x /\ isolated (room_id x) r n n') \/
       ((forall i, ~ SessionRegistrySafety.addressed_to (registry n) r datagram i) /\ exists metrics, n' = set_node_metrics metrics n))) as Hrun.
    { intros k Hk. destruct (safe_run _ _ _ _ _ _ Hn1 Hk) as ([] & H1 & _ & H2 & H3). destruct (k n1) as [n' o']. cbn in *. split_and!; [done..|]. left. exists id, m.
      split_and!; [done..|]. by eapply (isolated_confined _ _ _ n1 n' reg id m (with_session s m)). }
    assert (forall actions, result = Ok actions -> safe (elapsed w) (eq (room_id m)) (eq r) n1 (execute_actions (E:=E) w (routed id m actions)) (fun _ => True)) as Hexec.
    { intros actions ->. destruct D1 as [_ Hd]. apply safe_execute; [done|done| |done|by eapply delivered_actions]. exists (with_session s m). cbn. by rewrite D2, lookup_insert_eq. }
    destruct result as [actions|e| |]; [|destruct D4 as [_ ->]; exact (Hrun (refused (Transport e)) (safe_refused _ _ _ _ _))|done|done]. specialize (Hexec actions eq_refl).
    repeat case_bool_decide; destruct D4 as [_ ->]; [exact (Hrun _ Hexec)|exact (Hrun (refused RemoteCollision) (safe_refused _ _ _ _ _))|exact (Hrun _ Hexec)].
Qed.

Lemma run_timers_ok {E} t w n : node_ok t n -> t <= elapsed w -> world_ok w -> let '(n', o) := run_timers (E:=E) w n in o = Ok tt /\ node_ok (elapsed w) n'.
Proof.
  intros Hn Hle Hw. unfold run_timers. unfold mbind at 1, prog_bind at 1. pose proof (SessionRegistrySafety.registry_tick_ok t (elapsed w) (registry n) (no_registry _ _ Hn) Hle) as Hreg.
  pose proof (SessionRegistrySafety.registry_tick_spec (elapsed w) (registry n)) as Ht. destruct (SessionRegistry.tick _ _) as [reg outputs]. destruct Ht as (T1 & _ & _ & _ & _ & T6). cbn [fst] in Hreg.
  set (n1 := set_registry reg n). assert (node_ok (elapsed w) n1) as Hn1.
  { apply (node_moved t); [done..|]. intros i x Hx. rewrite T1, lookup_fmap, Hx. by eexists. }
  assert (safe (elapsed w) (fun _ => True) (fun _ => True) n1 (_ ← for_each outputs (execute_actions (E:=E) w); poll_crypto w) (fun _ => True)) as Hs.
  { assert (forall id, known n1 id -> member (fun _ => True) n1 id) as Hall by (intros id [m Hm]; by exists m).
    eapply safe_bind; [apply safe_for_each|intros _ _; by apply safe_poll_crypto]. intros ra (id & m & Hm & _ & ->)%T6. apply safe_execute; [done|done| |done|].
    - apply Hall. exists (SessionRegistrySafety.ticked (elapsed w) m). cbn. by rewrite T1, lookup_fmap, Hm.
    - destruct (RtcSessionSafety.tick_spec t (elapsed w) (session m)) as (a' & _ & -> & _); [by eapply SessionRegistrySafety.ro_session; [apply Hn|]|done|].
      cbn. unfold RtcSessionSafety.moved. case_bool_decide; by repeat constructor. }
  revert Hs. match goal with |- safe _ _ _ _ ?k _ -> _ => intros Hs; change (let '(n', o) := k n1 in o = Ok tt /\ node_ok (elapsed w) n'); generalize dependent k end.
  intros k Hs. destruct (safe_run _ _ _ _ _ _ Hn1 Hs) as ([] & H1 & _ & H2 & _). by destruct (k n1) as [n' o].
Qed.
End Node.
