(* ===== verification/MediaNodeSteps.v ===== *)
(** * services/media-node: every step of the process *)
From S2P Require Import Prelude Words Slices RustStd RustStr.
From S2P Require Stun Srtp RtpPacket DtlsAdapter RtcSession RtcSessionSafety SfuModel Room LayerSelector BandwidthEstimator SfuRuntimeInvariant SfuRuntimeSafety SfuRuntimeSteps SessionRegistrySafety SctpAssociation SctpEvents Protocol.
From S2P Require Import SfuRuntime SessionRegistry MediaNode MediaNodeCalls MediaNodeData MediaNodeSafety MediaNodeControl.
Import SctpAssociation (KeyOrder).

(** ** Calls that keep who is bound *)
Section Bindings.
Context {iteration : HashIteration} {hash_order : Room.HashOrder} {unstable_sort : LayerSelector.UnstableSort}.
Definition keeps_bindings {E A} (m : prog SfuRegistry E A) : Prop := forall s, bindings (m s).1 = bindings s.
Definition keeps_sessions {E A} (m : prog ManagedRoom E A) : Prop := forall b, preserves (fun m => participant_sessions m = b) m.
Lemma keeps_bind {E A B} (m : prog SfuRegistry E A) (k : A -> prog SfuRegistry E B) : keeps_bindings m -> (forall a, keeps_bindings (k a)) -> keeps_bindings (m ≫= k).
Proof. intros Hm Hk s. unfold mbind, prog_bind. specialize (Hm s). destruct (m s) as [s' [a|e| |]]; cbn in *; [|done..]. by rewrite Hk. Qed.
Lemma keeps_lift {E A} (o : outcome E A) : keeps_bindings (lift o).
Proof. done. Qed.
Lemma bindings_update s name m m' : rooms s !! name = Some m -> participant_sessions m' = participant_sessions m ->
  bindings (set_rooms (<[name := m']> (rooms s)) s) = bindings s.
Proof. intros Hm Hp. unfold bindings. cbn. rewrite fmap_insert. apply insert_id. by rewrite lookup_fmap, Hm, Hp. Qed.
Lemma keeps_on_room {A} name (body : prog ManagedRoom SfuRuntimeError A) : keeps_sessions body -> keeps_bindings (on_room name body).
Proof.
  intros Hb s. unfold on_room. destruct (rooms s !! name) as [m|] eqn:Hm; [|done]. specialize (Hb (participant_sessions m) m eq_refl). destruct (body m) as [m' o].
  by eapply bindings_update.
Qed.
Lemma on_core_sessions {A} (body : prog Room.Room SfuModel.SfuError A) : keeps_sessions (on_core body).
Proof. intros b m Hm. unfold on_core. by destruct (body (room m)). Qed.
Ltac keep_sessions := intros ?; repeat (cbv zeta; first [apply preserves_bind; [|intros ?] | apply on_core_sessions | apply preserves_lift | apply preserves_gets | apply preserves_ret
  | apply preserves_modify; by intros ? <- | by intros ? | case_match]).
Lemma publish_bindings input : keeps_bindings (publish input).
Proof. unfold publish. apply keeps_bind; [apply keeps_lift|]. intros p. apply keeps_on_room. unfold require_session. keep_sessions. Qed.
Lemma subscribe_bindings input : keeps_bindings (subscribe input).
Proof. unfold subscribe. apply keeps_bind; [apply keeps_lift|]. intros p. apply keeps_on_room. unfold require_session, adapt_subscription. keep_sessions. Qed.
Lemma unsubscribe_bindings name pid sub : keeps_bindings (unsubscribe name pid sub).
Proof. unfold unsubscribe. apply keeps_bind; [apply keeps_lift|]. intros p. apply keeps_on_room. keep_sessions. Qed.
Lemma set_layer_bindings now name pid sub spatial temporal : keeps_bindings (set_layer now name pid sub spatial temporal).
Proof. unfold set_layer. apply keeps_bind; [apply keeps_lift|]. intros p. apply keeps_on_room. keep_sessions. Qed.
Lemma add_sink_bindings name tid dest source : keeps_bindings (add_recording_sink_for_ssrc name tid dest source).
Proof.
  unfold add_recording_sink_for_ssrc. apply keeps_bind; [apply keeps_lift|]. intros _. apply keeps_bind; [apply keeps_on_room; keep_sessions|]. intros _. by intros s.
Qed.
Lemma drop_subscriptions_sessions ids : forall m, participant_sessions (foldl drop_subscription m ids) = participant_sessions m.
Proof. induction ids as [|id ids IH]; intros m; [done|]. cbn. rewrite IH. unfold drop_subscription. by destruct (subscriptions m !! id) as [[]|]. Qed.
Lemma unpublish_bindings name tid s : bindings (unpublish name tid s).1 = bindings s.
Proof.
  unfold unpublish, unpublish_in. destruct (rooms s !! name) as [m|] eqn:Hm; [|done]. destruct (Room.unpublish tid (room m)) as [r removed].
  destruct removed; cbn [negb fst].
  - match goal with |- bindings (set_sinks _ ?x) = _ => change (bindings x = bindings s) end. apply (bindings_update s name m); [done|]. by rewrite drop_subscriptions_sessions.
  - by apply (bindings_update s name m).
Qed.
Lemma unpublish_owned_bindings name pid tid : keeps_bindings (unpublish_owned name pid tid).
Proof.
  unfold unpublish_owned. apply keeps_bind; [apply keeps_lift|]. intros p. apply keeps_bind; [apply keeps_on_room; keep_sessions|]. intros owner.
  apply keeps_bind; [apply keeps_lift|]. intros _ s. unfold removed_or_unknown. pose proof (unpublish_bindings name tid s). by destruct (unpublish name tid s).
Qed.
Lemma bind_session_cases name pid id s : (exists e, bind_session name pid id s = (s, Err e)) \/
  exists p s', bind_session name pid id s = (s', Ok tt) /\ parse_participant pid = Ok p /\ bindings s' = <[name := <[p := id]> (default ∅ (bindings s !! name))]> (bindings s).
Proof.
  unfold bind_session.
  match goal with |- context [(lift ?o ≫= ?f) s] => destruct (SessionRegistrySafety.guard_cases o f s) as [(u & _ & ->)|(e & _ & ->)]; [apply returns_reject_if| |left; by eexists] end.
  match goal with |- context [(lift ?o ≫= ?f) s] => destruct (SessionRegistrySafety.guard_cases o f s) as [(p & Hp & ->)|(e & _ & ->)]; [apply returns_participant| |left; by eexists] end.
  match goal with |- context [(lift ?o ≫= ?f) s] => destruct (SessionRegistrySafety.guard_cases o f s) as [(v & _ & ->)|(e & _ & ->)]; [apply returns_reject_if| |left; by eexists] end.
  right. eexists p, _. split_and!; [reflexivity|done|]. unfold bindings. cbn. rewrite fmap_insert. cbn. by rewrite lookup_fmap; destruct (rooms s !! name).
Qed.
(** After [unbind_session] the binding is gone and the others are as before. *)
Lemma unbind_bindings name pid id s : SfuRuntimeInvariant.registry_ok s -> forall x b p i, bindings (unbind_session name pid id s).1 !! x = Some b -> b !! p = Some i ->
  (exists b0, bindings s !! x = Some b0 /\ b0 !! p = Some i) /\ ~ (x = name /\ parse_participant pid = Ok p /\ i = id).
Proof.
  intros Hok x b p i Hb Hp. unfold unbind_session in Hb. destruct (parse_participant pid) as [q|e| |]; [|split; [by eauto|by intros (_ & ? & _)]..].
  destruct (rooms s !! name) as [m|] eqn:Hm; [|split; [by eauto|]; intros (-> & _); cbn in Hb; unfold bindings in Hb; by rewrite lookup_fmap, Hm in Hb].
  case_bool_decide as Hse; cbn [negb] in Hb; [|split; [by eauto|]; intros (-> & Hq & ->); cbn in Hb; unfold bindings in Hb; rewrite lookup_fmap, Hm in Hb; simplify_eq/=; by apply Ok_inj in Hq as ->].
  pose proof (SfuRuntimeInvariant.unbind_in_rebuilt q m (proj1 (SfuRuntimeInvariant.go_rooms _ Hok _ _ Hm))) as Hu. destruct (unbind_in q m) as [m' owned]. destruct Hu as (_ & _ & Hs & _).
  assert ((x <> name /\ bindings s !! x = Some b) \/ (x = name /\ b = delete q (participant_sessions m))) as [[Hne Hx]|[-> ->]].
  { unfold bindings in Hb |- *. rewrite lookup_fmap in Hb |- *. destruct (decide (x = name)) as [->|Hne]; [right|left; split; [done|]; case_bool_decide; cbn in Hb; by rewrite ?lookup_delete_ne, lookup_insert_ne in Hb].
    split; [done|]. case_bool_decide; cbn in Hb; [by rewrite lookup_delete_eq in Hb|]. rewrite lookup_insert_eq in Hb. cbn in Hb. congruence. }
  - split; [by eauto|]. by intros [-> _].
  - apply lookup_delete_Some in Hp as [Hne Hp]. split; [exists (participant_sessions m); unfold bindings; by rewrite lookup_fmap, Hm|]. intros (_ & Hq & _). by apply Ok_inj in Hq.
Qed.
End Bindings.

Section Steps.
Context {stun_crypto : Stun.StunCrypto} {srtp_crypto : Srtp.SrtpCrypto} {iteration : HashIteration} {hash_order : Room.HashOrder}
  {unstable_sort : LayerSelector.UnstableSort} {key_order : KeyOrder} {backend : DtlsBackend} (token : bytes) (authorization : option bytes).

(** ** The control interface keeps the invariant *)
Section Invariant.
Context (t : Z).
#[local] Abbreviation keeps_node := (preserves (node_ok t)).

Lemma safe_keeps {E A} (m : prog Node E A) inside reply Q : (forall n, node_ok t n -> safe t inside reply n m Q) -> keeps_node m.
Proof. intros Hs n Hn. by destruct (safe_run _ _ _ _ _ _ Hn (Hs n Hn)) as (a & _ & _ & H & _). Qed.
Lemma count_keeps {E} c delta : keeps_node (count (E:=E) c delta).
Proof. apply (safe_keeps _ (fun _ => True) (fun _ => True) (fun _ => True)). intros n _. apply safe_count. Qed.
Lemma gauge_keeps {E} g f : g <> ActiveDataChannelAssociations -> keeps_node (gauge (E:=E) g f).
Proof. intros Hg. apply (safe_keeps _ (fun _ => True) (fun _ => True) (fun _ => True)). intros n _. by apply safe_gauge. Qed.
Lemma sfu_moved n s : node_ok t n -> SfuRuntimeInvariant.registry_ok s -> bindings s = bindings (sfu n) -> node_ok t (set_sfu s n).
Proof. intros [N1 N2 N3 N4 N5 N6 N7] Hs Hb. split; cbn; try done. by rewrite Hb. Qed.
Lemma required_keeps {E A} (f : E -> ApiError) (m : prog Node ApiError (E + A)) : keeps_node m -> keeps_node (required f m).
Proof. intros Hm. apply preserves_bind; [done|]. intros r. apply preserves_lift. Qed.
Lemma on_sfu_keeps {E A} (m : prog SfuRegistry SfuRuntimeError A) : (forall s, SfuRuntimeInvariant.registry_ok s -> SfuRuntimeInvariant.registry_ok (m s).1) -> keeps_bindings m ->
  keeps_node (on_sfu (E:=E) m).
Proof.
  intros Hm Hb n Hn. unfold on_sfu, attempt. specialize (Hm (sfu n) (no_sfu _ _ Hn)). specialize (Hb (sfu n)). destruct (m (sfu n)) as [s o]. by apply sfu_moved.
Qed.
Lemma sfu_call_keeps {A} (m : prog SfuRegistry SfuRuntimeError A) : (forall s, SfuRuntimeInvariant.registry_ok s -> SfuRuntimeInvariant.registry_ok (m s).1) -> keeps_bindings m -> keeps_node (sfu_call m).
Proof. intros Hm Hb. by apply required_keeps, on_sfu_keeps. Qed.
Ltac guarded := apply preserves_bind; [apply preserves_lift|intros _].
Lemma publish_track_keeps request : u32 (pr_clock_rate request) -> u8 (pr_payload_type request) -> keeps_node (publish_track token authorization request).
Proof.
  intros H1 H2. unfold publish_track. guarded. do 2 (apply preserves_bind; [apply preserves_lift|intros ?]).
  apply preserves_bind; [apply sfu_call_keeps; [intros s Hs; by apply SfuRuntimeInvariant.publish_registry_ok|apply publish_bindings]|]. intros _.
  apply preserves_bind; [by apply gauge_keeps|]. intros _. apply preserves_ret.
Qed.
Lemma unpublish_track_keeps track_id room pid : keeps_node (unpublish_track token authorization track_id room pid).
Proof.
  unfold unpublish_track. guarded. apply preserves_bind; [apply sfu_call_keeps; [intros s Hs; by apply SfuRuntimeInvariant.unpublish_owned_ok|apply unpublish_owned_bindings]|]. intros _.
  apply preserves_bind; [apply preserves_gets|]. intros a. do 3 (apply preserves_bind; [by apply gauge_keeps|intros _]). apply preserves_ret.
Qed.
Lemma subscribe_track_keeps request : SfuRuntimeSafety.subscribe_typed request -> keeps_node (subscribe_track token authorization request).
Proof.
  intros Hr. unfold subscribe_track. guarded. apply preserves_bind; [apply sfu_call_keeps; [intros s Hs; by apply SfuRuntimeSafety.subscribe_registry_ok|apply subscribe_bindings]|]. intros _.
  apply preserves_bind; [by apply gauge_keeps|]. intros _. apply preserves_ret.
Qed.
Lemma set_subscription_layer_keeps w sub request : keeps_node (set_subscription_layer token authorization w sub request).
Proof.
  unfold set_subscription_layer. guarded. apply preserves_bind; [apply sfu_call_keeps; [intros s Hs; by apply SfuRuntimeSteps.set_layer_ok|apply set_layer_bindings]|]. intros _.
  apply preserves_bind; [apply count_keeps|]. intros _. apply preserves_ret.
Qed.
Lemma unsubscribe_track_keeps sub request : keeps_node (unsubscribe_track token authorization sub request).
Proof.
  unfold unsubscribe_track. guarded. apply preserves_bind; [apply sfu_call_keeps; [intros s Hs; by apply SfuRuntimeInvariant.unsubscribe_ok|apply unsubscribe_bindings]|]. intros _.
  apply preserves_bind; [by apply gauge_keeps|]. intros _. apply preserves_ret.
Qed.
Lemma remove_sink_keeps request : keeps_node (remove_recording_sink_route token authorization request).
Proof.
  unfold remove_recording_sink_route. guarded. apply preserves_bind; [|intros []; [apply preserves_ret|apply preserves_fail]].
  intros n Hn. cbn. apply sfu_moved; [done| |done]. apply (SfuRuntimeSteps.step_ok (sfu n)); [|apply Hn]. apply SfuRuntimeSteps.step_remove_sink.
Qed.
Lemma discard_keeps room track : keeps_node (discard_track room track).
Proof. apply preserves_modify. intros n Hn. apply sfu_moved; [done|apply SfuRuntimeInvariant.unpublish_registry_ok, Hn|apply unpublish_bindings]. Qed.
Lemma ingresses_keep n x k : node_ok t n -> node_ok t (set_ingresses x k n).
Proof. intros [N1 N2 N3 N4 N5 N6 N7]. by split. Qed.
Lemma create_ingress_keeps w request : u32 (cr_clock_rate request) -> u8 (cr_payload_type request) -> keeps_node (create_transcode_ingress token authorization w request).
Proof.
  intros H1 H2. unfold create_transcode_ingress. do 2 guarded. do 3 (apply preserves_bind; [apply preserves_lift|intros ?]).
  apply preserves_bind; [apply sfu_call_keeps; [intros s Hs; by apply SfuRuntimeInvariant.publish_registry_ok|apply publish_bindings]|]. intros _.
  apply preserves_bind; [apply preserves_gets|]. intros id. apply preserves_bind; [apply preserves_modify; intros; by apply ingresses_keep|]. intros _.
  case_match; [apply preserves_bind; [apply discard_keeps|intros _; apply preserves_fail]|]. apply preserves_bind; [apply preserves_gets|]. intros used.
  case_match; [apply preserves_bind; [apply discard_keeps|intros _; apply preserves_fail]|].
  apply preserves_bind; [apply preserves_modify; intros; by apply ingresses_keep|]. intros _. apply preserves_ret.
Qed.
Lemma delete_ingress_keeps id : keeps_node (delete_transcode_ingress token authorization id).
Proof.
  unfold delete_transcode_ingress. guarded. apply preserves_bind; [apply preserves_gets|]. intros n. apply preserves_bind; [apply preserves_lift|]. intros ingress.
  apply preserves_bind; [apply preserves_modify; intros; by apply ingresses_keep|]. intros _. apply preserves_bind; [apply discard_keeps|]. intros _. apply preserves_ret.
Qed.

(** Routing from the control interface *)
Lemma transcoded_keeps w room pid remote packet : world_ok w -> rust_slice packet -> keeps_node (run_transcode_ingress w room pid remote packet).
Proof.
  intros Hw Hp. unfold run_transcode_ingress. case_match; [apply preserves_ret|]. apply (safe_keeps _ (eq room) (fun _ => False) (fun _ => True)). intros n Hn.
  eapply safe_bind; [apply (safe_routing_call _ _ _ _ room); [done|]; intros s Hs; by apply handle_rtp_within|]. intros [e|routes] Hr; [by apply safe_ret|].
  apply (safe_send_routes _ _ _ _ Hn _ Hw room); [done|]. by apply Hr.
Qed.
Lemma add_sink_keeps w request : world_ok w -> keeps_node (add_recording_sink_route token authorization w request).
Proof.
  intros Hw. unfold add_recording_sink_route. guarded.
  apply preserves_bind; [apply sfu_call_keeps; [intros s Hs; by apply SfuRuntimeSafety.add_sink_ok|apply add_sink_bindings]|]. intros _.
  intros n Hn. pose proof (request_keyframe_within (rr_room_id request) (rr_track_id request) (rr_source_ssrc request) (sfu n) (no_sfu _ _ Hn)) as Hk.
  assert (set_sfu (sfu n) n = n) as Hsame by by destruct n. unfold mbind at 1, prog_bind at 1. unfold sfu_call, required, mbind at 1, prog_bind at 1. unfold on_sfu, attempt.
  destruct (request_keyframe _ _ _ _) as [s o]. destruct Hk as [-> Hk]. rewrite Hsame. destruct o as [route|e| |]; cbn [lift]; [|done..].
  match goal with |- node_ok t (?m n).1 => assert (safe t (eq (rr_room_id request)) (fun _ => False) n m (fun _ => True)) as Hs end; [|by destruct (safe_run _ _ _ _ _ _ Hn Hs) as (u & _ & _ & H & _)].
  eapply safe_bind; [instantiate (1 := fun _ => True)|intros _ _; by apply safe_ret]. destruct route as [route|]; [|by apply safe_ret].
  eapply safe_bind; [apply safe_count|]. intros _ _. apply (safe_send_routes _ _ _ _ Hn _ Hw (rr_room_id request)); [done|]. intros r ->%list_elem_of_singleton. by apply Hk.
Qed.

(** Sessions come and go with their bindings. *)
Lemma restart_keeps request : u64 (sr_tie_breaker request) -> keeps_node (restart_session_ice token authorization request).
Proof.
  intros Hr. unfold restart_session_ice. guarded. apply preserves_bind; [apply required_keeps|intros _; apply preserves_ret]. intros n Hn. unfold on_registry, attempt.
  destruct (SessionRegistrySafety.restart_cases request (registry n)) as [(l & r & m & Hre & ->)|(e & -> & _)]; cbn; [|by rewrite set_registry_same].
  apply (node_moved t); [done|apply SessionRegistrySafety.restarted_ok; [apply Hn|done..]|]. intros id x Hx. cbn. destruct (decide (id = sr_session_id request)) as [->|Hne].
  - rewrite lookup_insert_eq. eexists. split; [done|]. pose proof (SessionRegistrySafety.rs_known _ _ _ _ _ Hre) as Hm. assert (x = m) as -> by congruence. done.
  - rewrite lookup_insert_ne by done. by exists x.
Qed.
Lemma get_session_keeps id : keeps_node (get_session token authorization id).
Proof. unfold get_session. guarded. apply preserves_bind; [apply preserves_gets|]. intros n. apply preserves_bind; [apply preserves_lift|]. intros s. apply preserves_ret. Qed.

Lemma provision_keeps request : u64 (sp_tie_breaker request) -> keeps_node (provision_session token authorization request).
Proof.
  intros Hr. unfold provision_session. guarded. intros n Hn. unfold mbind at 1, prog_bind at 1. unfold registry_call, required. unfold mbind at 1, prog_bind at 1. unfold on_registry at 1, attempt.
  destruct (SessionRegistrySafety.provision_cases request (registry n)) as [(l & r & Hp & ->)|(e & -> & _)]; cbn [lift]; [|cbn; by rewrite set_registry_same].
  pose proof (SessionRegistrySafety.provisioned_ok t request l r (registry n) (no_registry _ _ Hn) Hp Hr) as Hreg. set (n1 := set_registry _ n).
  pose proof (SessionRegistrySafety.pv_fresh _ _ _ _ Hp) as Hfresh.
  unfold mbind at 1, prog_bind at 1. unfold on_sfu, attempt. destruct (bind_session_cases (sp_room_id request) (sp_participant_id request) (sp_session_id request) (sfu n1)) as [[e ->]|(p & s & Hb & Hpa & Hbs)].
  - change (node_ok t (set_registry (remove (sp_session_id request) (SessionRegistrySafety.provisioned request l r (registry n))).1 n)).
    apply (node_moved t); [done|by apply SessionRegistrySafety.remove_ok|]. intros id m Hm. rewrite SessionRegistrySafety.remove_spec. cbn. rewrite lookup_insert_eq. cbn.
    assert (id <> sp_session_id request) as Hne by (intros ->; congruence). rewrite lookup_delete_ne, lookup_insert_ne by done. by exists m.
  - rewrite Hb. cbn [fst mret prog_ret]. assert (node_ok t n1) as Hn1.
    { apply (node_moved t); [done..|]. intros id m Hm. assert (id <> sp_session_id request) as Hne by (intros ->; congruence). cbn. rewrite lookup_insert_ne by done. by exists m. }
    pose proof (SfuRuntimeInvariant.bind_session_ok (sp_room_id request) (sp_participant_id request) (sp_session_id request) _ (no_sfu _ _ Hn1)) as Hs. rewrite Hb in Hs. cbn [fst] in Hs.
    destruct Hn1 as [N1 N2 N3 N4 N5 N6 N7]. split; cbn; try done. rewrite Hbs. intros name b q id Hname Hq.
    assert ((name = sp_room_id request /\ q = p /\ id = sp_session_id request) \/ exists b0, bindings (sfu n) !! name = Some b0 /\ b0 !! q = Some id) as [(-> & -> & ->)|(b0 & H0 & H1)].
    { apply lookup_insert_Some in Hname as [[<- <-]|[_ Hname]]; [|by eauto]. apply lookup_insert_Some in Hq as [[<- <-]|[_ Hq]]; [by left|]. right.
      cbn in Hq |- *. destruct (bindings (sfu n) !! sp_room_id request) as [b0|]; cbn in Hq; [by eauto|by rewrite lookup_empty in Hq]. }
    + rewrite lookup_insert_eq. by eexists.
    + exact (N3 _ _ _ _ H0 H1).
Qed.
Lemma remove_channel_spec {E} id n : Z.of_nat (size (data_channels n)) <= MAX_SESSIONS ->
  gauges (node_metrics n) ActiveDataChannelAssociations = Z.of_nat (size (data_channels n)) ->
  exists metrics, remove_data_channel_session (E:=E) id n = (set_node_metrics metrics (set_channels (delete id (data_channels n)) n), Ok tt) /\
    gauges metrics ActiveDataChannelAssociations = Z.of_nat (size (delete id (data_channels n))).
Proof.
  intros Hsize Hg. unfold remove_data_channel_session, mbind, prog_bind, gets, modify. destruct (data_channels n !! id) as [c|] eqn:Hc; (eexists; split; [reflexivity|]).
  - cbn. rewrite decide_False, decide_True, Hg, map_size_delete_Some by done. assert (size (data_channels n) <> 0%nat); [|unfold gauge_add, MAX_SESSIONS in *; lia].
    intros E0%map_size_empty_inv. by rewrite E0, lookup_empty in Hc.
  - cbn. by rewrite delete_id.
Qed.
Lemma delete_session_keeps id : keeps_node (delete_session token authorization id).
Proof.
  unfold delete_session. guarded. intros n Hn. rewrite (prog_step _ _ n n (session_snapshot (registry n) id)) by done. unfold mbind at 1, prog_bind at 1.
  pose proof (SessionRegistrySafety.remove_ok t id (registry n) (no_registry _ _ Hn)) as Hreg. rewrite SessionRegistrySafety.remove_spec in *.
  unfold session_snapshot. destruct (sessions (registry n) !! id) as [m|] eqn:Hm; [|cbn; by rewrite set_registry_same]. cbn [fst fmap option_fmap option_map] in *.
  set (n1 := set_registry _ n). rewrite (prog_step _ _ n1 (set_dtls (delete id (dtls_sessions n)) n1) tt) by done. set (n2 := set_dtls _ n1).
  destruct (remove_channel_spec (E:=ApiError) id n2 (few_channels t n Hn) (no_associations _ _ Hn)) as (metrics & Hrm & Hg). rewrite (prog_step _ _ n2 _ tt Hrm).
  unfold mbind, prog_bind, modify. cbn [fst mret prog_ret ss_room_id ss_participant_id].
  pose proof (unbind_bindings (room_id m) (participant_id m) id (sfu n) (no_sfu _ _ Hn)) as Hunbind.
  pose proof (SfuRuntimeInvariant.unbind_session_ok (room_id m) (participant_id m) id (sfu n) (no_sfu _ _ Hn)) as Hsfu.
  assert (forall i, i <> id -> known n i -> is_Some (delete id (sessions (registry n)) !! i)) as Hk by (intros i Hi; unfold known; by rewrite lookup_delete_ne).
  destruct Hn as [N1 N2 N3 N4 N5 N6 N7]. split; cbn; try done.
  - intros name b p i Hb Hp. destruct (Hunbind name b p i Hb Hp) as [(b0 & Hb0 & Hp0) Hno]. destruct (N3 _ _ _ _ Hb0 Hp0) as (x & Hx & Hroom & Hpart). exists x. split; [|done].
    rewrite lookup_delete_ne; [done|]. intros <-. assert (x = m) as -> by congruence. by apply Hno.
  - intros i [x [Hne Hx]%lookup_delete_Some]. apply Hk; [done|]. apply N4. by exists x.
  - intros i c [Hne Hc]%lookup_delete_Some. destruct (N5 _ _ Hc). split; [by apply Hk|done].
Qed.
End Invariant.
End Steps.

(** ** Reachable nodes *)
(** A node as [main] creates it *)
Definition start `{backend : DtlsBackend} (capacity : Z) : Node :=
  {| registry := new {| active_sessions := 0; media_bytes_received := 0; rtp_packets_received := 0 |} capacity; sfu := default_registry; dtls_sessions := ∅; data_channels := ∅;
     data_sequences := ∅; node_metrics := {| counters := fun _ => 0; gauges := fun _ => 0 |}; transcode_ingresses := ∅; next_transcode_ingress_id := 1; fills := 0; wire := [] |}.

Section Reachable.
Context {stun_crypto : Stun.StunCrypto} {srtp_crypto : Srtp.SrtpCrypto} {iteration : HashIteration} {hash_order : Room.HashOrder}
  {unstable_sort : LayerSelector.UnstableSort} {key_order : KeyOrder} {backend : DtlsBackend}.

(** A step: a datagram on the media socket, a turn of the timers, a datagram of an ingress, or a request with any authorization; numbers are
    of the width of their fields. *)
Inductive step (t : Z) (n : Node) : Z -> Node -> Prop :=
| step_datagram w local remote datagram : t <= elapsed w -> world_ok w -> rust_slice datagram -> addr_ok remote ->
    step t n (elapsed w) (run_udp (E:=Empty_set) w local remote datagram n).1
| step_timers w : t <= elapsed w -> world_ok w -> step t n (elapsed w) (run_timers (E:=Empty_set) w n).1
| step_ingress w room pid remote packet : world_ok w -> rust_slice packet -> step t n t (run_transcode_ingress w room pid remote packet n).1
| step_provision token auth request : u64 (sp_tie_breaker request) -> step t n t (provision_session token auth request n).1
| step_restart token auth request : u64 (sr_tie_breaker request) -> step t n t (restart_session_ice token auth request n).1
| step_get token auth id : step t n t (get_session token auth id n).1
| step_delete token auth id : step t n t (delete_session token auth id n).1
| step_publish token auth request : u32 (pr_clock_rate request) -> u8 (pr_payload_type request) -> step t n t (publish_track token auth request n).1
| step_unpublish token auth track room pid : step t n t (unpublish_track token auth track room pid n).1
| step_subscribe token auth request : SfuRuntimeSafety.subscribe_typed request -> step t n t (subscribe_track token auth request n).1
| step_layer token auth w sub request : step t n t (set_subscription_layer token auth w sub request n).1
| step_unsubscribe token auth sub request : step t n t (unsubscribe_track token auth sub request n).1
| step_add_sink token auth w request : world_ok w -> step t n t (add_recording_sink_route token auth w request n).1
| step_remove_sink token auth request : step t n t (remove_recording_sink_route token auth request n).1
| step_create_ingress token auth w request : u32 (cr_clock_rate request) -> u8 (cr_payload_type request) -> step t n t (create_transcode_ingress token auth w request n).1
| step_delete_ingress token auth id : step t n t (delete_transcode_ingress token auth id n).1.
Inductive reachable : Z -> Node -> Prop :=
| reach_start t capacity : 0 <= capacity -> reachable t (start capacity)
| reach_step t n t' n' : reachable t n -> step t n t' n' -> reachable t' n'.

Lemma start_ok t capacity : 0 <= capacity -> node_ok t (start capacity).
Proof.
  intros Hc. split; cbn.
  - by apply SessionRegistrySafety.new_registry_ok.
  - apply SfuRuntimeInvariant.default_registry_ok.
  - intros name b p id Hb. unfold bindings in Hb. cbn in Hb. by rewrite fmap_empty, lookup_empty in Hb.
  - intros id [x Hx]. by rewrite lookup_empty in Hx.
  - intros id c Hc'. by rewrite lookup_empty in Hc'.
  - done.
  - apply map_Forall_empty.
Qed.
Lemma node_step_ok t n t' n' : step t n t' n' -> node_ok t n -> node_ok t' n'.
Proof.
  intros Hs Hn. destruct Hs.
  - pose proof (run_udp_cases (E:=Empty_set) t w local remote datagram n Hn) as H'. destruct (run_udp _ _ _ _ _). by apply H'.
  - pose proof (run_timers_ok (E:=Empty_set) t w n Hn) as H'. destruct (run_timers _ _). by apply H'.
  - by apply transcoded_keeps.
  - by apply provision_keeps.
  - by apply restart_keeps.
  - by apply get_session_keeps.
  - by apply delete_session_keeps.
  - by apply publish_track_keeps.
  - by apply unpublish_track_keeps.
  - by apply subscribe_track_keeps.
  - by apply set_subscription_layer_keeps.
  - by apply unsubscribe_track_keeps.
  - by apply add_sink_keeps.
  - by apply remove_sink_keeps.
  - by apply create_ingress_keeps.
  - by apply delete_ingress_keeps.
Qed.
Lemma node_reachable_ok t n : reachable t n -> node_ok t n.
Proof. induction 1 as [t c Hc|t n t' n' _ IH Hs]; [by apply start_ok|by eapply node_step_ok]. Qed.

(** C3: the tables of a media node agree with each other at all times.  After any sequence of datagrams, timer turns and requests, failed ones
    included: both registries are consistent; whoever is bound in a room has its transport session in that room and under that identity; every DTLS
    session and every association belongs to a session of the registry; every association is consistent and the gauge counts them exactly. *)
Theorem node_invariant t n : reachable t n -> node_ok t n.
Proof. apply node_reachable_ok. Qed.

(** C1: a datagram touches one room.  Whatever arrives from whatever address, the node comes back.  Either no session is addressed, and then only
    counters move; or one is, and then the sessions, DTLS sessions, associations, forwarding state and sequence numbers of every other room are
    exactly as before, nobody has changed room or identity, and every datagram the node sends goes back to that address, to the nominated peer of
    a session of the same room, or to a loopback sink of the same room. *)
Theorem rooms_isolated t w local remote datagram n : reachable t n -> t <= elapsed w -> world_ok w -> rust_slice datagram -> addr_ok remote ->
  let '(n', o) := run_udp (E:=Empty_set) w local remote datagram n in o = Ok tt /\
  ((exists id m, SessionRegistrySafety.addressed_to (registry n) remote datagram id /\ sessions (registry n) !! id = Some m /\ isolated (room_id m) remote n n') \/
   ((forall id, ~ SessionRegistrySafety.addressed_to (registry n) remote datagram id) /\ exists metrics, n' = set_node_metrics metrics n)).
Proof.
  intros Hn%node_reachable_ok Hle Hw Hd Hr. pose proof (run_udp_cases (E:=Empty_set) t w local remote datagram n Hn Hle Hw Hd Hr) as H.
  destruct (run_udp _ _ _ _ _) as [n' o]. by destruct H as (H1 & _ & H2).
Qed.


(** Without the right bearer token a request does nothing. *)
Lemma authorize_exact auth token : authorize auth token = if bool_decide (auth = Some (octets "Bearer " ++ token)) then Ok tt else Err Unauthorized.
Proof.
  unfold authorize. assert ((value ← auth; if bool_decide (take 7 value = octets "Bearer ") then Some (drop 7 value) else None) = Some token <-> auth = Some (octets "Bearer " ++ token)) as Hiff.
  { split; [|by intros ->]. intros H. apply bind_Some in H as (value & -> & H). case_bool_decide as E; [|done]. injection H as <-. by rewrite <- E, take_drop. }
  unfold reject_if. repeat case_bool_decide; cbn; tauto.
Qed.
(** the control interface needs the token of the node.  Without exactly this bearer token every request is answered with [Unauthorized] (401) and
    changes nothing. *)
Theorem control_authorized token auth n : auth <> Some (octets "Bearer " ++ token) ->
  let refuses {A} (handler : prog Node ApiError A) := handler n = (n, Err Unauthorized) in
  (forall r, refuses (provision_session token auth r)) /\ (forall r, refuses (restart_session_ice token auth r)) /\ (forall id, refuses (get_session token auth id)) /\
  (forall id, refuses (delete_session token auth id)) /\ (forall r, refuses (publish_track token auth r)) /\ (forall x y z, refuses (unpublish_track token auth x y z)) /\
  (forall r, refuses (subscribe_track token auth r)) /\ (forall w s r, refuses (set_subscription_layer token auth w s r)) /\ (forall s r, refuses (unsubscribe_track token auth s r)) /\
  (forall w r, refuses (add_recording_sink_route token auth w r)) /\ (forall r, refuses (remove_recording_sink_route token auth r)) /\
  (forall w r, refuses (create_transcode_ingress token auth w r)) /\ (forall id, refuses (delete_transcode_ingress token auth id)).
Proof.
  intros Hauth. pose proof (authorize_exact auth token) as Ha. rewrite bool_decide_eq_false_2 in Ha by done. cbv zeta. split_and!; intros; 
    unfold provision_session, restart_session_ice, get_session, delete_session, publish_track, unpublish_track, subscribe_track, set_subscription_layer, unsubscribe_track,
      add_recording_sink_route, remove_recording_sink_route, create_transcode_ingress, delete_transcode_ingress, mbind at 1, prog_bind at 1, lift at 1; by rewrite Ha.
Qed.
End Reachable.
