(* ===== verification/MediaNodeExamples.v ===== *)
(** * services/media-node: a node with two rooms

    Anna and Carl share a room and have a channel for it each, Dora is in another room.  The DTLS sessions of this node add and remove one octet. *)
From S2P Require Import Prelude Words Slices RustStd RustStr SfuRuntime SessionRegistry MediaNode MediaNodeCalls MediaNodeData MediaNodeSafety MediaNodeControl MediaNodeSteps.
From S2P Require Stun StunSafety IceSafety Srtp RtpPacket DtlsAdapter RtcSession RtcSessionSafety SfuModel DownTrack Room RoomSafety LayerSelector BandwidthEstimator SfuRuntimeInvariant SfuRuntimeSafety SfuRuntimeSteps SessionRegistrySafety SctpPacket SctpAssociation SctpSafety SctpEvents Protocol.

#[local] Existing Instance StunSafety.example_stun_crypto.
#[local] Existing Instance Srtp.toy_crypto.
#[local] Existing Instance SfuRuntimeSteps.listing.
#[local] Existing Instance RoomSafety.key_order.
#[local] Existing Instance LayerSelector.merge_sorting.
#[local] Existing Instance SctpSafety.list_order.

Definition passed (d : bytes) : option DatagramProgress :=
  Some {| outbound_datagrams := []; established_keying_material := None;
          application_data := if forallb (fun b => (0 <=? b) && (b <? 256)) d && (len d <? 2 ^ 63) then [d] else [] |}.
Lemma passed_slices d p : passed d = Some p -> Forall rust_slice (application_data p).
Proof. intros [= <-]. cbn. case_match eqn:E; [|done]. apply Forall_singleton. by apply rust_slice_check. Qed.
Definition decrypt (d : bytes) (s : unit) : unit * option DatagramProgress := (s, passed (drop 1 d)).
Lemma decrypt_slices d s s' p : decrypt d s = (s', Some p) -> Forall rust_slice (application_data p).
Proof. intros [= _ <-]. by eapply passed_slices. Qed.
Definition idle (s : unit) : unit * option DatagramProgress := (s, None).
Lemma idle_slices s s' p : idle s = (s', Some p) -> Forall rust_slice (application_data p).
Proof. done. Qed.
#[export] Instance plain_dtls : DtlsBackend := {|
  DatagramDtlsSession := unit; datagram_session _ := tt; dtls_handle_datagram := decrypt; dtls_poll := idle; write_application_data p s := (s, Some [22 :: p]);
  handled_slices := decrypt_slices; polled_slices := idle_slices |}.

Definition token : bytes := octets "secret".
Definition bearer : option bytes := Some (octets "Bearer secret").
Definition example_session (name room participant : string) (u : Z) : SessionProvision :=
  {| sp_session_id := octets name; sp_room_id := octets room; sp_participant_id := octets participant; sp_local_username_fragment := [u];
     sp_local_password := replicate 22 u; sp_remote_username_fragment := [98]; sp_remote_password := replicate 22 98;
     sp_expected_peer_fingerprint := DtlsAdapter.Sha256Fingerprint.fmt (replicate 32 7); sp_tie_breaker := 5 |}.
Definition example_world (now : Z) : World :=
  {| elapsed := now; crypto_elapsed := now; unix_time_millis := 1700000000000; sends := fun _ _ => true;
     fill := fun _ => Some (to_be_bytes 4 7 ++ to_be_bytes 4 1000 ++ replicate 32 9); bind_loopback := Some (SocketAddrV4 0x7f000001 6000) |}.
Definition carl_peer : SocketAddr := SocketAddrV4 0xc0000203 4001.
Abbreviation anna_peer := IceSafety.example_peer.
Abbreviation local := IceSafety.example_local.
Definition udp (now : Z) (remote : SocketAddr) (datagram : bytes) (n : Node) : Node := (run_udp (E:=Empty_set) (example_world now) local remote datagram n).1.

Definition init : bytes := SctpSafety.built 0 SctpAssociation.TYPE_INIT 0 (to_be_bytes 4 8 ++ to_be_bytes 4 1000 ++ to_be_bytes 2 10 ++ to_be_bytes 2 10 ++ to_be_bytes 4 2000).
Definition cookie_echo : bytes := SctpSafety.built 7 SctpAssociation.TYPE_COOKIE_ECHO 0 (replicate 32 9).
Definition data (tsn stream sequence ppid : Z) (payload : bytes) : bytes :=
  SctpSafety.built 7 SctpAssociation.TYPE_DATA 3 (to_be_bytes 4 tsn ++ to_be_bytes 2 stream ++ to_be_bytes 2 sequence ++ to_be_bytes 4 ppid ++ payload).
Definition open_message (label : bytes) : bytes := [3; 0; 0; 0; 0; 0; 0; 0] ++ to_be_bytes 2 (len label) ++ [0; 0] ++ label.
Definition chat : Protocol.Envelope :=
  {| Protocol.flags := Protocol.flags_new true true false; Protocol.kind := Protocol.Chat; Protocol.room_id := 0; Protocol.sender_id := 0; Protocol.sequence := 0;
     Protocol.timestamp_millis := 0; Protocol.payload := octets "hello" |}.

Definition node1 : Node := (provision_session token bearer (example_session "anna" "1f" "a1" 97) (start 10)).1.
Definition node2 : Node := (provision_session token bearer (example_session "carl" "1f" "c3" 99) node1).1.
Definition node3 : Node := (provision_session token bearer (example_session "dora" "2f" "d4" 100) node2).1.
Definition node4 : Node := udp 10 carl_peer (SessionRegistrySafety.check_of 99) (udp 10 anna_peer (SessionRegistrySafety.check_of 97) node3).
Definition opened (remote : SocketAddr) (n : Node) : Node :=
  udp 11 remote (22 :: data 2000 0 0 SctpAssociation.PPID_DCEP (open_message room_label)) (udp 11 remote (22 :: cookie_echo) (udp 11 remote (22 :: init) n)).
Definition node5 : Node := opened carl_peer (opened anna_peer node4).
Definition message : bytes := 22 :: data 2001 0 1 SctpAssociation.PPID_BINARY (Protocol.frame chat).
Definition node6 : Node := udp 12 anna_peer message node5.

(** ** The node is reachable *)
Lemma example_world_ok now : 0 <= now < 1000 -> world_ok (example_world now).
Proof.
  intros Hn. split; cbn; [unfold BandwidthEstimator.time_ok; lia|eval_facts|]. intros _ b [= <-]. split; [repeat constructor; eval_facts|reflexivity].
Qed.
Lemma udp_reachable t n now remote datagram : reachable t n -> t <= now -> 0 <= now < 1000 -> addr_ok remote ->
  forallb (fun b => (0 <=? b) && (b <? 256)) datagram && (len datagram <? 2 ^ 63) = true -> reachable now (udp now remote datagram n).
Proof. intros Hr Hle Hn Ha Hd. eapply reach_step; [exact Hr|]. apply (step_datagram t n (example_world now)); [done|by apply example_world_ok|by apply rust_slice_check|done]. Qed.
Lemma carl_peer_ok : addr_ok carl_peer.
Proof. split; split; vm_compute; done. Qed.
Lemma node3_reachable : reachable 0 node3.
Proof. do 3 (eapply reach_step; [|apply step_provision; eval_facts]). apply reach_start. lia. Qed.
Ltac next := apply (udp_reachable 11); [|lia|lia|first [exact carl_peer_ok|exact IceSafety.example_peer_ok]|vm_compute; reflexivity].
Lemma process5_reachable : reachable 11 node5.
Proof.
  unfold node5, opened. do 5 next. apply (udp_reachable 10); [|lia|lia|exact IceSafety.example_peer_ok|vm_compute; reflexivity].
  unfold node4. apply (udp_reachable 10); [|lia|lia|exact carl_peer_ok|vm_compute; reflexivity].
  apply (udp_reachable 0); [exact node3_reachable|lia|lia|exact IceSafety.example_peer_ok|vm_compute; reflexivity].
Qed.

(** ** The theorems on this node *)
Lemma node_invariant_witness : size (data_channels node5) = 2%nat /\ node_ok 11 node5.
Proof. split; [vm_compute; reflexivity|]. exact (node_invariant 11 node5 process5_reachable). Defined.

Lemma rooms_isolated_witness : (length (wire node6) - length (wire node5))%nat = 3%nat /\
  sessions (registry node6) !! octets "dora" = sessions (registry node5) !! octets "dora" /\ rooms (sfu node6) !! octets "2f" = rooms (sfu node5) !! octets "2f".
Proof.
  split; [vm_compute; reflexivity|]. assert (rust_slice message) as Hm by (apply rust_slice_check; vm_compute; reflexivity).
  pose proof (rooms_isolated 11 (example_world 12) local anna_peer message node5 process5_reachable ltac:(cbn; lia) (example_world_ok 12 ltac:(lia)) Hm IceSafety.example_peer_ok) as H.
  unfold node6, udp. assert (SessionRegistrySafety.addressed_to (registry node5) anna_peer message (octets "anna")) as Hto by (vm_compute; reflexivity).
  destruct (run_udp _ _ _ _ node5) as [n' o]. destruct H as (_ & [(id & m & Hid & Hs & Hi)|(Hno & _)]); [|by destruct (Hno _ Hto)]. vm_compute in Hid. injection Hid as <-.
  destruct (sessions (registry node5) !! octets "dora") as [d|] eqn:Hd; [|vm_compute in Hd; discriminate].
  assert (room_id m = octets "1f") as Hroom by (vm_compute in Hs; injection Hs as <-; reflexivity). assert (room_id d = octets "2f") as Hroom' by (vm_compute in Hd; injection Hd as <-; reflexivity).
  split; [apply (is_sessions _ _ _ _ Hi); [exact Hd|by rewrite Hroom, Hroom']|]. apply (is_rooms _ _ _ _ Hi). by rewrite Hroom.
Defined.

Lemma anna_identity : (fun m => (room_id m, participant_id m)) <$> sessions (registry node5) !! octets "anna" = Some (octets "1f", octets "a1").
Proof. vm_compute. reflexivity. Qed.
Lemma carl_room : room_id <$> sessions (registry node5) !! octets "carl" = Some (octets "1f").
Proof. vm_compute. reflexivity. Qed.
Lemma room_number : from_str_radix 128 16 (octets "1f") = Some 0x1f.
Proof. vm_compute. reflexivity. Qed.
Lemma anna_number : from_str_radix 128 16 (octets "a1") = Some 0xa1.
Proof. vm_compute. reflexivity. Qed.
Lemma chat_decodes : Protocol.decode (Protocol.frame chat) MAX_DATA_CHANNEL_PAYLOAD_BYTES = Ok chat.
Proof. vm_compute. reflexivity. Qed.
Lemma first_number name : next_sequence node5 name = 1.
Proof. unfold next_sequence. assert (data_sequences node5 = ∅) as -> by (vm_compute; reflexivity). by rewrite lookup_empty. Qed.

(** * services/media-node: what the process loses

    A key-frame request of a layer change is computed and dropped; messages of a packet with a later bad chunk are accepted and dropped; closing one
    of two channels with the same label hides the other; the gauges of tracks and rooms are not those of the rooms. *)

Section Losses.
Context {stun_crypto : Stun.StunCrypto} {srtp_crypto : Srtp.SrtpCrypto} {iteration : HashIteration} {hash_order : Room.HashOrder}
  {unstable_sort : LayerSelector.UnstableSort} {key_order : SctpAssociation.KeyOrder} {backend : DtlsBackend}.

(** a layer change never asks for its key frame.  Whatever routes [set_layer] returns, and it returns the request that the core has just recorded
    in its throttle, the handler answers 204 and sends nothing. *)
Theorem layer_request_lost token w sub request n s routes :
  set_layer (elapsed w) (lr_room_id request) (lr_participant_id request) sub (lr_spatial_layer request) (lr_temporal_layer request) (sfu n) = (s, Ok routes) ->
  exists n', set_subscription_layer token (Some (octets "Bearer " ++ token)) w sub request n = (n', Ok NO_CONTENT) /\ sfu n' = s /\ wire n' = wire n.
Proof.
  intros H. unfold set_subscription_layer. rewrite authorize_exact, bool_decide_eq_true_2 by done.
  rewrite (prog_step _ _ n n tt) by done. unfold mbind at 1, prog_bind at 1. unfold sfu_call, required, mbind at 1, prog_bind at 1, on_sfu, attempt. rewrite H. by eexists.
Qed.

(** The channel tables after a channel was opened or closed *)
Definition opening (stream : Z) (label : bytes) (c : DataChannelSession) : DataChannelSession :=
  with_labels (<[stream := label]> (stream_labels c)) match label_streams c !! label with Some _ => label_streams c | None => <[label := stream]> (label_streams c) end c.
Lemma open_channel_spec {E} n id c stream label : data_channels n !! id = Some c ->
  data_channels (open_channel (E:=E) id stream label n).1 = <[id := opening stream label c]> (data_channels n).
Proof. intros Hc. unfold open_channel, mbind, prog_bind, gets, modify. rewrite Hc. by destruct (stream_labels c !! stream). Qed.
Lemma close_channel_spec {E} n id c stream label : data_channels n !! id = Some c -> stream_labels c !! stream = Some label -> label_streams c !! label = Some stream ->
  data_channels (close_channel (E:=E) id stream n).1 = <[id := with_labels (delete stream (stream_labels c)) (delete label (label_streams c)) c]> (data_channels n).
Proof. intros Hc Hs Hl. unfold close_channel, mbind, prog_bind, gets, modify. rewrite Hc, Hs, bool_decide_eq_true_2 by done. done. Qed.

(** of two open channels with one label the second is hidden by the end of the first.  It stays open and its own messages are still relayed, but
    the participant gets no copy of anything on that label any more. *)
Theorem second_channel_hidden {E} n id c first second label : data_channels n !! id = Some c -> first <> second -> label_streams c !! label = None ->
  let n' := (close_channel (E:=E) id first (open_channel (E:=E) id second label (open_channel (E:=E) id first label n).1).1).1 in
  exists c', data_channels n' !! id = Some c' /\ stream_labels c' !! second = Some label /\ label_streams c' !! label = None /\
    forall w kind payload, copy w n' label kind payload id = None.
Proof.
  intros Hc Hne Hl. cbv zeta. set (n1 := (open_channel id first label n).1). set (n2 := (open_channel id second label n1).1).
  assert (data_channels n1 !! id = Some (opening first label c)) as H1 by (unfold n1; rewrite (open_channel_spec _ _ c) by done; apply lookup_insert_eq).
  assert (data_channels n2 !! id = Some (opening second label (opening first label c))) as H2 by (unfold n2; rewrite (open_channel_spec _ _ (opening first label c)) by done; apply lookup_insert_eq).
  assert (label_streams (opening second label (opening first label c)) = <[label := first]> (label_streams c)) as H3 by (cbn; rewrite Hl; cbn; by rewrite lookup_insert_eq).
  set (c2 := opening second label (opening first label c)) in *. assert (stream_labels c2 !! first = Some label) as H4 by (cbn; by rewrite lookup_insert_ne, lookup_insert_eq).
  pose proof (close_channel_spec (E:=E) n2 id c2 first label H2 H4 ltac:(rewrite H3; apply lookup_insert_eq)) as H5.
  eexists. split; [rewrite H5; apply lookup_insert_eq|]. split; [cbn; by rewrite lookup_delete_ne, lookup_insert_eq|]. split; [cbn [label_streams with_labels]; apply lookup_delete_eq|].
  intros w kind payload. unfold copy. rewrite H5, lookup_insert_eq. cbn [mbind option_bind label_streams with_labels]. by rewrite lookup_delete_eq.
Qed.
End Losses.

#[local] Existing Instance StunSafety.example_stun_crypto.
#[local] Existing Instance Srtp.toy_crypto.
#[local] Existing Instance SfuRuntimeSteps.listing.
#[local] Existing Instance RoomSafety.key_order.
#[local] Existing Instance LayerSelector.merge_sorting.
#[local] Existing Instance SctpSafety.list_order.

(** ** A node with a published track *)
Definition media1 : Node := (provision_session token bearer (example_session "carl" "lobby" "2" 99) (provision_session token bearer (example_session "anna" "lobby" "1" 97) (start 10)).1).1.
Definition video : PublishTrackRequest :=
  {| pr_room_id := octets "lobby"; pr_participant_id := octets "1"; pr_track_id := 9; pr_kind := octets "video"; pr_codec := octets "H264"; pr_clock_rate := 90000; pr_payload_type := 96;
     pr_encodings := pt_encodings SfuRuntimeSteps.example_publish |}.
Definition media2 : Node := (subscribe_track token bearer SfuRuntimeSteps.example_subscribe (publish_track token bearer video media1).1).1.
Definition higher : LayerRequest := {| lr_room_id := octets "lobby"; lr_participant_id := octets "2"; lr_spatial_layer := 1; lr_temporal_layer := 2 |}.

Lemma layer_request_lost_witness : exists pli, (set_layer 5 (octets "lobby") (octets "2") 40 1 2 (sfu media2)).2 = Ok [RouteRtcp (octets "anna") pli] /\
  wire (set_subscription_layer token bearer (example_world 5) 40 higher media2).1 = wire media2.
Proof.
  eexists. split; [vm_compute; reflexivity|].
  destruct (set_layer 5 (octets "lobby") (octets "2") 40 1 2 (sfu media2)) as [s o] eqn:Hs. destruct o as [routes|e| |]; [|vm_compute in Hs; discriminate..].
  destruct (layer_request_lost token (example_world 5) 40 higher media2 s routes Hs) as (n' & H & _ & Hw). change bearer with (Some (octets "Bearer " ++ token)). by rewrite H.
Defined.

(** After its publisher has left, the gauge still shows a track that no room has. *)
Example publisher_gauge_stale : let n := (delete_session token bearer (octets "anna") media2).1 in
  gauges (node_metrics n) PublisherTracks = 1 /\ publisher_tracks (stats (sfu n)) = 0 /\ gauges (node_metrics n) ActiveRooms = 0 /\ stats_rooms (stats (sfu n)) = 1.
Proof. vm_compute. split_and!; reflexivity. Qed.

(** ** A message before a bad chunk *)
Definition bundle (p q : bytes) : bytes :=
  let raw := take 8 p ++ [0; 0; 0; 0] ++ drop 12 p ++ drop 12 q in take 8 p ++ to_le_bytes 4 (SctpPacket.checksum raw) ++ drop 12 raw.
Definition good_data : bytes := data 2001 0 1 SctpAssociation.PPID_BINARY (Protocol.frame chat).
Definition bad_data : bytes := data 2002 0 2 99 [1; 2; 3; 4].
Definition after_bundle : Node := udp 12 IceSafety.example_peer (22 :: bundle good_data bad_data) node5.
(** The association of Anna has taken both chunks and will not take the message again when it is repeated, but it was relayed to nobody; alone it
    would have been (the sequence number of the room is used). *)
Example message_before_bad_chunk_lost :
  (SctpAssociation.cumulative_peer_tsn ∘ association <$> data_channels after_bundle !! octets "anna") = Some (Some 2002) /\ wire after_bundle = wire node5 /\
  data_sequences after_bundle !! octets "1f" = None /\ data_sequences (udp 13 IceSafety.example_peer (22 :: good_data) after_bundle) !! octets "1f" = None /\
  data_sequences (udp 13 IceSafety.example_peer (22 :: good_data) node5) !! octets "1f" = Some 1.
Proof. vm_compute. split_and!; reflexivity. Qed.
